(* ===== verification/_CoqProject ===== *)
-Q . S2P
Prelude.v
CString.v
StringUtil.v
ParseUtil.v
TimeUtil.v
LinkedList.v
Protocol.v
BusUtils.v
Log.v
World.v
Job.v
Events.v
Subscriptions.v
Monitor.v
Proxy.v
Requests.v
Node.v
Cfg.v
Socket.v
Controller.v
WorldFacts.v
EventFacts.v
RegistryFacts.v
Sample.v
SubscriptionTheorems.v
DeliveryTheorems.v
JobTheorems.v
NodeTheorems.v
ProxyTheorems.v
RequestTheorems.v
CfgTheorems.v
SocketTheorems.v
LifecycleTheorems.v
FleetTheorems.v
BusProps.v
AgentWorld.v
AgentRequests.v
AgentUnits.v
AgentProxy.v
Agent.v
AgentFacts.v
AgentSafe.v
AgentSteps.v
AgentProxySteps.v
AgentEvents.v
AgentRuns.v
AgentTheorems.v
AgentConnection.v
AgentSample.v
AgentAddress.v
AgentExec.v
AgentLifeTheorems.v
AgentJobTheorems.v
AgentProxyTheorems.v
System.v
SyncTheorems.v
Command.v
IsOnline.v
ProxyMain.v
Bus.v
Client.v
ClientStatus.v
ClientMonitor.v
ClientTheorems.v
SettingsFacts.v
Listeners.v
ControllerEvents.v
ControllerInv.v
ControllerSafe.v
ControllerMonitors.v
ControllerProxies.v
ControllerRequests.v
ControllerFleets.v
ControllerLife.v
ControllerStop.v
ControllerMain.v
ControllerMainTheorems.v
ControllerLifeTheorems.v
AgentMain.v
AgentMainTheorems.v
