(* ===== verification/Prelude.v ===== *)
(** * BlueChi: a verification library of the controller, the agent and their tools

    BlueChi controls the systemd units of many machines from one place. An agent
    on every machine (src/src/agent) talks to its systemd over D-Bus and, over a
    private D-Bus connection, to the controller (src/src/controller); clients talk
    to the controller over the public bus: bluechictl (src/src/client) and
    bluechi-is-online (src/src/is-online). bluechi-proxy (src/src/proxy) runs inside
    a unit and asks the local agent for a unit of another machine. All programs are
    built on a small library (src/src/libbluechi). This development models the
    library and the five programs as executable definitions, function by function
    with the names of the source, and proves what makes them correct.

    ** How the code is modelled

    Both processes are single-threaded event loops: every message, timer and lost
    connection runs one handler to its end. A handler is a function of the monad
    [M W] of this file, where [W] is the state of the process ([World] in World.v
    for the controller, [AgentWorld] in AgentWorld.v for the agent): it takes the
    state and either returns a result and the new state or crashes, by a failed
    [assert], by an access through a pointer that is not valid (any more), or by
    running out of fuel ([OutOfFuel]): in the one recursive destructor, or in a loop
    that waits for events when the given sequence of events has ended. An
    interleaving of events is a sequence of handler runs; AgentEvents.v and
    ControllerEvents.v define the events, which of them sd-bus can deliver in a state
    ([enabled], [deliverable]), and the loop over any sequence of them ([agent_run],
    [controller_loop]). Functions on different states are run on their part of a
    common state by [zoom].

    - Pointers are [positive]s; every struct is a record in a store of its own, and
      aliasing is equality of pointers. [free] removes the object, addresses are
      not used again, so a use after free is a crash.
    - Intrusive lists (common/list.h) are modelled cell by cell in LinkedList.v,
      where the macros are proved to refine operations on lists; the processes
      then use lists of pointers, the assertion of [LIST_REMOVE] included.
    - Every call that leaves the process (sd-bus calls, replies and signals, the
      messages to the other side) is recorded in the trace of its world, with its
      arguments. Its result comes from the class [Env] or [AgentEnv]: the k-th call
      may succeed or fail by itself, and so may the k-th allocation or message
      construction. The theorems that do not assume a success ([no_local_failure],
      [no_bus_failure], [calls_succeed], [messages_succeed]) hold whatever fails.
    - Integers keep their width where the code relies on it: job identifiers wrap
      at 2^32, times and thresholds at 2^64, ports, ints and longs are checked
      against their bounds.
    - Third-party code is a parameter with documented behaviour as hypotheses:
      the hash map (an iteration visits every entry once), the ini parser, the
      kernel, the clocks, name resolution, SELinux and the peers of connections
      ([EnvLaws], [CfgEnvLaws], [KernelLaws], [SdEvent], [Network]). The same holds
      for getopt_long, and for the tools and the connections: there the result of
      every sd-bus call, and what reading its reply gives, is a function of the
      number of the call.

    ** The files

    Models of libbluechi:
    - CString.v: strlen, strcmp, strchr, strtok and the like on [string];
    - StringUtil.v: common/string-util.{h,c}: tests, globs, the string builder
      with its buffer;
    - ParseUtil.v: common/parse-util.{h,c} on a model of strtol;
    - TimeUtil.v: common/time-util.c and common/event-util.c;
    - LinkedList.v: common/list.h;
    - Protocol.v: common/protocol.{h,c}; BusUtils.v: bus/utils.c (paths, names);
      BusProps.v: the reading of property dictionaries in bus/utils.c;
    - Log.v: log/log.c; Cfg.v: common/cfg.c and [bc_log_init]; Socket.v: socket.c
      and common/network.c;
    - Bus.v: bus/bus.c; Command.v: cli/command.{h,c}, common/opt.h, the loop over the
      options, and service/shutdown.c.

    Models of the controller, in the order in which they call each other:
    - World.v: the state: controller.h, node.h, job.h, monitor.h, proxy_monitor.h;
    - Job.v: job.c, metrics.c, and the job functions of controller.c and node.c;
    - Events.v: the signals sent to monitors and proxies;
    - Subscriptions.v: the registry of subscribed units per node and the
      delivery of unit signals (node.c, monitor.c, controller.c);
    - Monitor.v: monitor.c; Proxy.v: proxy_monitor.c, the proxy dependencies of
      node.c and the release of nodes;
    - Requests.v: requests to one agent and to all agents (node.c, controller.c);
    - Node.v: the life of a node: creation, attachment, registration, heartbeat,
      disconnection, system status;
    - Controller.v: configuration, connections, liveness, the methods of the
      Controller interface, the bus filter, stop;
    - Listeners.v: the sockets the controller waits on and their event sources;
    - ControllerEvents.v: the vtables, the dispatch of an event and the loop;
    - ControllerMain.v: controller/main.c, [controller_new], [controller_start].

    Models of the agent:
    - AgentWorld.v: the state: agent.h, proxy.h and the structs of agent.c;
    - AgentRequests.v: requests to systemd and their answers, job operations and
      job trackers, dependencies, metrics, log level, cancellation (agent.c);
    - AgentUnits.v: what the agent knows of the units, the subscriptions of the
      controller and the signals it forwards (agent.c);
    - AgentProxy.v: proxy.c and the proxy functions of agent.c;
    - Agent.v: settings, the address of the controller, connecting, heartbeats,
      registration, start and stop (agent.c);
    - AgentEvents.v: the vtables and matches, the events and the loop (agent.c,
      proxy.c, agent/main.c);
    - AgentMain.v: agent/main.c and [agent_new].

    Models of the whole: System.v connects the controller and one agent, with the
    messages that are on the way between them, and has the theorem on a unit operation.

    Models of the tools:
    - Client.v (client.c, the methods that make one call, and the tables of units
      and of unit files), ClientStatus.v, ClientMonitor.v (monitor, metrics
      and the table of methods in client/main.c);
    - IsOnline.v: is-online.c and its main.c; ProxyMain.v: proxy/main.c.

    Reasoning about the controller: WorldFacts.v (rules for loads, updates and
    calls, and [quiet]: two states that differ in calls and reference counts of
    proxies only), EventFacts.v (signals and their delivery), RegistryFacts.v (the
    registry of subscribed units); Sample.v is a small concrete controller on which
    the theorems are instantiated. The statement [wp m Q w]
    reads: [m] run from [w] does not crash and ends in [Q]; a theorem about [wp] is
    therefore also a statement of memory safety and of termination for its run.
    ControllerInv.v has the invariant of all objects between two events
    ([controller_inv]: lists, back pointers and reference counts agree with the owners,
    with the references a handler still holds and the answers that sd-bus has delivered
    as parameters) and the states that differ in nothing it speaks of ([calm]);
    ControllerSafe.v (signals of units, subscriptions), ControllerMonitors.v,
    ControllerProxies.v, ControllerRequests.v (jobs, requests to one agent),
    ControllerFleets.v (methods, requests to all agents, answers) and ControllerLife.v
    (connections, registration, disconnection, the timer, the loop) prove that every
    handler keeps it. ControllerStop.v has the weaker invariant of a controller that is
    stopping ([stopping]: nodes leave the list, and go when nothing refers to them), under
    which its steps and the cancellation of requests are safe.

    Reasoning about the agent: AgentFacts.v has the invariant of all its objects
    ([agent_inv]: reference counts, lists and owners agree, with the references a
    handler still holds as a parameter); AgentSafe.v, AgentSteps.v and
    AgentProxySteps.v prove that every handler keeps it, with a small calculus of
    handlers that leave the heap alone ([neutral], [gentle], [proxied]); AgentRuns.v
    has the partial judgement [steps] for facts about traces and for frames;
    AgentConnection.v the abstract connection machine [conn_step]; AgentExec.v the
    symbolic execution of handlers on an explicit heap (tactic [hs]); AgentSample.v
    a concrete agent. SettingsFacts.v has what the two processes share: which of
    several sources a setting is taken from, and that no function on the
    configuration crashes.

    ** What the theorems show

    - Subscriptions (SubscriptionTheorems.v, DeliveryTheorems.v): the registry of
      subscribers stays well formed under registration and removal whatever
      fails, removal undoes registration; agents are told of the first and of the
      last subscriber of a unit; the signals of an agent update the cached state
      and reach exactly the subscriptions to the unit and to the wildcard; when an
      agent is lost every unit it loaded is reported removed, and before that inactive
      if its last reported state was valid and another.
    - Jobs (JobTheorems.v): over all reachable sequences of job operations, while the
      32-bit identifiers do not wrap around, each job is announced at most once and
      reported removed at most once, and no operation touches a freed job; LifecycleTheorems.v: a unit operation from the client's
      request over the agent's answer to the job or the error.
    - Requests (RequestTheorems.v, FleetTheorems.v): a forwarded request is sent
      once, answered once and released; a request to all agents is answered when
      the last agent has answered.
    - Nodes (NodeTheorems.v): registration, refused and accepted, with everything
      the new agent is told; the announcement of the system status; liveness.
    - Proxies (ProxyTheorems.v): counting of dependencies; termination of the
      release of nodes, which recurses through proxies. Its fuel is the number of
      nodes plus two, which is proved to suffice always.
    - The agent over its whole life (AgentTheorems.v, AgentLifeTheorems.v): no
      sequence of events and no failing call makes it crash, with one exception, and it
      releases what it owns; it refines the connection machine, one labelled step per
      delivered event; it reconnects again and again under a fairness assumption, if its
      settings always give an address; its signals have the declared types. The exception:
      an Error of the controller on a proxy whose creation has been answered fails an
      assertion (proxy.c). [late_error] says that an event is such a call, and
      [unless_late] that a run crashes exactly when one is delivered and ends as stated
      otherwise. AgentAddress.v: which address it connects to.
    - The controller from its start to the end of its loop (ControllerLifeTheorems.v):
      with memory and readable clocks ([no_local_failure], [clocks_work]), whatever is
      configured, whichever call on a bus, a socket or the timer fails and whatever
      arrives in whatever order, it uses no released object and fails no assertion, and
      between any two events the reference counts are exactly the numbers of owners; the
      count of a proxy monitor only is at least that, because a call on its agent that
      fails keeps its reference for good. If no node has a proxy then and no request to
      all agents is half answered ([stoppable]), it stops safely and lets go of everything
      it lists. With no request under way and a proxy on a node that nothing but the list
      of nodes refers to, it always fails an assertion; that a half answered request
      makes the stop unsafe is shown by a concrete run.
    - The agent's work (AgentJobTheorems.v, AgentProxyTheorems.v): a unit operation from the
      call of the controller to the report of its end; cancellation; subscriptions,
      their replay and their removal; the forwarding of unit signals; the states of proxy targets.
    - Configuration (CfgTheorems.v): which source decides an option, which errors
      are reported, the sorted list of sections; sockets (SocketTheorems.v): no
      descriptor is lost, options stay in bounds.
    - Library: the list macros against lists, globs against their language,
      parsers against their grammars, conversions against overflow, round trips
      of states and of escaped paths, the buffer of the string builder.
    - Controller and agent together (System.v, SyncTheorems.v): a unit
      operation from the client's request to systemd and back to the report of its
      end; what the registry of the controller says of a node is what its agent is
      subscribed to, so that unit events reach exactly the monitors that asked.
    - The processes (ControllerMainTheorems.v, AgentMainTheorems.v): which nodes and
      settings a configuration makes, and when it is refused; which source decides a
      setting of the agent; a run of the agent from its command line to its end is safe
      (with the exception above, if systemd lists units under their paths and a signal ends
      the loop);
      the controller aborts on some rejected settings. Listeners.v and Bus.v: every descriptor is
      owned or closed, on every error path.
    - The tools (ClientTheorems.v, IsOnline.v, ProxyMain.v, Command.v): a
      command line is executed exactly when the table of methods allows it; a unit
      operation waits for its own job; the tables are aligned; bluechi-is-online ends
      where a reference on the events says, --switch-timeout included, with the state of
      its record of the component (a name that is lost stays in the record, and of a
      signal the first property counts: findings); an instance name is split into node and
      unit as it was put together.
    - Single theorems and examples prove defects that modelling brought to light.

    ** Not modelled, and limits

    Printing of messages is I/O around the modelled functions; log lines have no
    effect on the state and are left out, except where the agent silences its log.
    Left out are further: the usage texts of the methods of bluechictl (the usage of
    the programs is modelled), the formatting of time stamps (a parameter of the
    client), [bus_socket_set_options] (a descriptor is read off the bus and
    [socket_set_options] is called, which Socket.v models), the hash functions of
    the vendored hash map, the debug filters, which print messages, and the allocation
    of the structs of bus/utils.c. Vendored code (hashmap.c, inih) is a parameter.

    What arrives is restricted only by what sd-bus can deliver ([deliverable], [enabled];
    [serve_event] leaves the agent alone otherwise): an answer at most as often as the call
    it belongs to was made, in any order, and a call on an object while it is there. The safety of the controller is proved with memory only: without
    it [node_new] and its callers dereference NULL (a finding), and several handlers leave
    half-made objects. The stop of the controller is proved safe where it is
    ([controller_stops_safely]); that it also releases every object in memory is not proved,
    and does not hold: what was asked of a node that went offline meanwhile, and a monitor
    with subscriptions, outlive it. *)
From stdpp Require Export base list strings gmap.
From Stdlib Require Export ZArith Lia Permutation.

#[export] Set Warnings "-clear-no-such-hyp".

(** * State and crash monad *)

(** Why an execution of the C code is cut short: a failed [assert], an access
    through a pointer that is not (or no longer) valid, or fuel running out: of a
    recursive destructor, or the events given to a loop that waits for them. *)
Inductive crash : Type :=
| AssertionFailure
| InvalidPointer
| OutOfFuel.

Inductive outcome (W A : Type) : Type :=
| Ret (a : A) (w : W)
| Crash (c : crash).
Arguments Ret {W A} a w.
Arguments Crash {W A} c.

#[export] Instance crash_eq_dec : EqDecision crash.
Proof. solve_decision. Defined.

Definition M (W A : Type) : Type := W -> outcome W A.

#[export] Instance M_ret W : MRet (M W) := fun A a w => Ret a w.
#[export] Instance M_bind W : MBind (M W) := fun A B k m w =>
  match m w with
  | Ret a w' => k a w'
  | Crash c => Crash c
  end.

Section monad.
Context {W : Type}.

Definition get : M W W := fun w => Ret w w.
Definition gets {A} (f : W -> A) : M W A := fun w => Ret (f w) w.
Definition modify (f : W -> W) : M W unit := fun w => Ret tt (f w).
Definition crash_with {A} (c : crash) : M W A := fun _ => Crash c.
(** Dereference: an absent object is an invalid pointer. *)
Definition deref {A} (f : W -> option A) : M W A := fun w =>
  match f w with
  | Some a => Ret a w
  | None => Crash InvalidPointer
  end.
(** [assert(b)]. *)
Definition c_assert (b : bool) : M W unit :=
  if b then mret tt else crash_with AssertionFailure.

(** A C loop over a list whose body does not leave the loop. *)
Fixpoint foreach {A} (l : list A) (body : A -> M W unit) : M W unit :=
  match l with
  | [] => mret tt
  | a :: l' => body a ≫= fun _ => foreach l' body
  end.

(** A C search loop: the first element whose test succeeds. *)
Fixpoint find_first {A} (l : list A) (test : A -> M W bool) : M W (option A) :=
  match l with
  | [] => mret None
  | a :: l' => test a ≫= fun b =>
      if (b : bool) then mret (Some a) else find_first l' test
  end.

(** [wp m Q w]: running [m] from [w] does not crash and ends in [Q]. *)
Definition wp {A} (m : M W A) (Q : A -> W -> Prop) (w : W) : Prop :=
  match m w with
  | Ret a w' => Q a w'
  | Crash _ => False
  end.

Lemma wp_ret {A} (a : A) Q w : Q a w -> wp (mret a) Q w.
Proof. done. Qed.

Lemma wp_bind {A B} (m : M W A) (k : A -> M W B) Q w :
  wp m (fun a => wp (k a) Q) w -> wp (m ≫= k) Q w.
Proof. unfold wp, mbind, M_bind. destruct (m w); done. Qed.

Lemma wp_mono {A} (m : M W A) (Q Q' : A -> W -> Prop) w :
  wp m Q w -> (forall a w', Q a w' -> Q' a w') -> wp m Q' w.
Proof. unfold wp. destruct (m w); eauto. Qed.

(** A part of a program that computes what the rest uses. *)
Lemma wp_part {A B C} (m : M W A) (k : A -> M W B) (k' : B -> M W C) Q w :
  wp (m ≫= k) (fun b => wp (k' b) Q) w -> wp (m ≫= fun a => k a ≫= k') Q w.
Proof.
  unfold wp, mbind, M_bind. destruct (m w) as [a w'|]; [|done]. by destruct (k a w').
Qed.

Lemma wp_get Q w : Q w w -> wp get Q w.
Proof. done. Qed.

Lemma wp_gets {A} (f : W -> A) Q w : Q (f w) w -> wp (gets f) Q w.
Proof. done. Qed.

Lemma wp_modify f Q w : Q tt (f w) -> wp (modify f) Q w.
Proof. done. Qed.

Lemma wp_deref {A} (f : W -> option A) a Q w :
  f w = Some a -> Q a w -> wp (deref f) Q w.
Proof. unfold wp, deref. by intros ->. Qed.

Lemma wp_assert b Q w : b = true -> Q tt w -> wp (c_assert b) Q w.
Proof. by intros ->. Qed.

(** Loop rule: an invariant over the elements still to visit. *)
Lemma wp_foreach {A} (I : list A -> W -> Prop) (l : list A) body Q w :
  I l w ->
  (forall a l' w, I (a :: l') w -> wp (body a) (fun _ => I l') w) ->
  (forall w, I [] w -> Q tt w) ->
  wp (foreach l body) Q w.
Proof.
  intros HI Hbody HQ. revert w HI.
  induction l as [|a l IH]; intros w HI; simpl.
  - by apply wp_ret, HQ.
  - apply wp_bind. eapply wp_mono; [by apply Hbody|]. intros ? ? ?. by apply IH.
Qed.

Lemma wp_foreach_app {A} (l1 l2 : list A) body Q w :
  wp (foreach l1 body) (fun _ => wp (foreach l2 body) Q) w -> wp (foreach (l1 ++ l2) body) Q w.
Proof.
  revert w. induction l1 as [|a l1 IH]; intros w H; [exact H|].
  cbn [foreach app] in *. apply wp_bind. unfold wp, mbind, M_bind in H. unfold wp at 1.
  destruct (body a w); [|done]. by apply IH.
Qed.

(** A search loop with a pure test finds what [list_find] finds. *)
Lemma wp_find_first {A} (l : list A) test (P : A -> bool) Q w :
  (forall a, a ∈ l -> wp (test a) (fun b w' => b = P a /\ w' = w) w) ->
  Q (List.find P l) w ->
  wp (find_first l test) Q w.
Proof.
  intros Htest. induction l as [|a l IH]; intros HQ; simpl in *.
  - by apply wp_ret.
  - apply wp_bind. eapply wp_mono; [apply Htest; left|].
    intros b w' [-> ->]. destruct (P a); [by apply wp_ret|].
    apply IH; [|done]. intros a' Ha'. apply Htest. by right.
Qed.
End monad.

(** Facts about every run that ends: [steps R m] states that [m] relates the states before
    and after it by the preorder [R]. *)
Section steps.
Context {W : Type} (R : W -> W -> Prop).

Definition steps {A} (m : M W A) : Prop := forall w,
  match m w with Ret _ w' => R w w' | Crash _ => True end.

Lemma steps_elim {A} (m : M W A) w a w' : steps m -> m w = Ret a w' -> R w w'.
Proof. intros Hm Hw. specialize (Hm w). by rewrite Hw in Hm. Qed.

Context {PR : PreOrder R}.

Lemma steps_ret {A} (a : A) : steps (mret a : M W A).
Proof. intros w. cbn. reflexivity. Qed.
Lemma steps_crash {A} c : steps (crash_with c : M W A).
Proof. by intros w. Qed.
Lemma steps_bind {A B} (m : M W A) (k : A -> M W B) :
  steps m -> (forall a, steps (k a)) -> steps (m ≫= k).
Proof.
  intros Hm Hk w. specialize (Hm w). unfold mbind, M_bind. destruct (m w) as [a w1|]; [|done].
  specialize (Hk a w1). destruct (k a w1) as [b w2|]; [|done]. by trans w1.
Qed.
Lemma steps_foreach_in {A} (l : list A) (body : A -> M W unit) :
  (forall a, a ∈ l -> steps (body a)) -> steps (foreach l body).
Proof.
  intros H. induction l as [|x l IH]; cbn; [apply steps_ret|]. apply steps_bind; [apply H; left|].
  intros _. apply IH. intros a Ha. apply H. by right.
Qed.
Lemma steps_foreach {A} (l : list A) (body : A -> M W unit) :
  (forall a, steps (body a)) -> steps (foreach l body).
Proof. intros H. by apply steps_foreach_in. Qed.
Lemma steps_find_first {A} (l : list A) (test : A -> M W bool) :
  (forall a, steps (test a)) -> steps (find_first l test).
Proof.
  intros H. induction l as [|x l IH]; cbn; [apply steps_ret|]. apply steps_bind; [done|].
  intros []; [apply steps_ret|done].
Qed.
Lemma steps_deref {A} (f : W -> option A) : steps (deref f).
Proof. intros w. unfold deref. destruct (f w); [reflexivity|done]. Qed.
Lemma steps_assert b : steps (c_assert b).
Proof. intros w. destruct b; cbn; [reflexivity|done]. Qed.
Lemma steps_gets {A} (f : W -> A) : steps (gets f).
Proof. intros w. cbn. reflexivity. Qed.

(** Such a fact holds next to any other of the run. *)
Lemma wp_steps {A} (m : M W A) Q w :
  steps m -> wp m Q w -> wp m (fun a w' => Q a w' /\ R w w') w.
Proof. clear. unfold wp. intros Hm. specialize (Hm w). by destruct (m w). Qed.
End steps.

Section combine.
Context {W : Type}.

Lemma wp_conj {A} (m : M W A) (Q1 Q2 : A -> W -> Prop) w :
  wp m Q1 w -> wp m Q2 w -> wp m (fun a w' => Q1 a w' /\ Q2 a w') w.
Proof. unfold wp. destruct (m w); tauto. Qed.
Lemma wp_bind_inv {A B} (m : M W A) (k : A -> M W B) Q w :
  wp (m ≫= k) Q w -> wp m (fun a => wp (k a) Q) w.
Proof. unfold wp, mbind, M_bind. by destruct (m w). Qed.

(** [pwp m Q w]: if the run of [m] from [w] does not crash it ends in [Q]. *)
Definition pwp {A} (m : M W A) (Q : A -> W -> Prop) (w : W) : Prop :=
  match m w with Ret a w' => Q a w' | Crash _ => True end.
Lemma wp_pwp {A} (m : M W A) Q1 Q2 w :
  wp m Q1 w -> pwp m Q2 w -> wp m (fun a w' => Q1 a w' /\ Q2 a w') w.
Proof. unfold wp, pwp. by destruct (m w). Qed.
Lemma pwp_steps {A B} R (m : M W A) (k : A -> M W B) Q w :
  steps R m -> (forall r w', R w w' -> pwp (k r) Q w') -> pwp (m ≫= k) Q w.
Proof.
  intros Hm Hk. specialize (Hm w). unfold pwp, mbind, M_bind in *. destruct (m w); [by apply Hk|done].
Qed.
Lemma pwp_bind {A B} (m : M W A) (k : A -> M W B) Q w :
  (forall r w', m w = Ret r w' -> pwp (k r) Q w') -> pwp (m ≫= k) Q w.
Proof. intros Hk. unfold pwp, mbind, M_bind in *. destruct (m w); [by apply Hk|done]. Qed.
Lemma pwp_seq {A B} (m : M W A) (k : A -> M W B) Q1 Q w :
  pwp m Q1 w -> (forall r w', Q1 r w' -> pwp (k r) Q w') -> pwp (m ≫= k) Q w.
Proof. intros Hm Hk. unfold pwp, mbind, M_bind in *. destruct (m w); [by apply Hk|done]. Qed.
Lemma pwp_bind_wp {A B} (m : M W A) (k : A -> M W B) Q1 Q w :
  wp m Q1 w -> (forall r w', Q1 r w' -> pwp (k r) Q w') -> pwp (m ≫= k) Q w.
Proof. intros Hm Hk. unfold wp, pwp, mbind, M_bind in *. destruct (m w); [by apply Hk|done]. Qed.
Lemma steps_pwp {A} R (m : M W A) w : steps R m -> pwp m (fun _ w' => R w w') w.
Proof. intros Hm. apply Hm. Qed.
End combine.

(** A computation on a part of the state. *)
Definition zoom {W V A} (get : W -> V) (set : V -> W -> W) (m : M V A) : M W A := fun w =>
  match m (get w) with
  | Ret a v => Ret a (set v w)
  | Crash c => Crash c
  end.
Lemma wp_zoom {W V A} (get : W -> V) set (m : M V A) (Q : A -> W -> Prop) w :
  wp m (fun a v => Q a (set v w)) (get w) -> wp (zoom get set m) Q w.
Proof. unfold wp, zoom. by destruct (m (get w)). Qed.

Create HintDb bluechi discriminated.
Create Rewrite HintDb bluechi_rw.

(** * Record update *)

(** [r <| f := v |>] is [r] with its field [f] set to [v]; [r <| f ::= h |>]
    applies [h] to the field. A record type declares how it is rebuilt from
    its fields with an [EtaRecord] instance; the update of one field is
    obtained from it by abstracting that projection. *)
Class EtaRecord (R : Type) : Type := eta_record : R -> R.
Class FieldUpdate {R T : Type} (proj : R -> T) : Type :=
  field_update : (T -> T) -> R -> R.
Arguments field_update {R T} proj {_} _ _ /.

Ltac derive_field_update :=
  lazymatch goal with
  | |- @FieldUpdate ?R ?T ?proj =>
      let inst := constr:(_ : EtaRecord R) in
      let eta := eval hnf in inst in
      lazymatch eval pattern proj in eta with
      | ?g _ =>
          let upd := eval cbv beta in
            (fun (h : T -> T) (r : R) => g (fun r' => h (proj r')) r) in
          exact upd
      end
  end.
#[export] Hint Extern 0 (FieldUpdate _) => derive_field_update : typeclass_instances.

Declare Scope bluechi_scope.
Delimit Scope bluechi_scope with bc.
Notation "r <| f := v |>" := (field_update f (fun _ => v) r)
  (at level 1, f at next level, left associativity, only parsing) : bluechi_scope.
Notation "r <| f ::= h |>" := (field_update f h r)
  (at level 1, f at next level, left associativity, only parsing) : bluechi_scope.
Open Scope bluechi_scope.


(** * Generic lemmas *)

Lemma list_find_In {A} (P : A -> bool) (l : list A) a :
  List.find P l = Some a -> In a l /\ P a = true.
Proof. apply find_some. Qed.

Lemma Z_to_nat_lt_iff a b : (0 <= a)%Z -> (Z.to_nat a < Z.to_nat b)%nat <-> (a < b)%Z.
Proof. lia. Qed.

(** How often an element occurs. *)
Section count.
Context {A : Type} `{EqDecision A}.
Implicit Types (x y : A) (l : list A).

Definition count x l : nat := Datatypes.length (filter (x =.) l).

Lemma count_app x l1 l2 : count x (l1 ++ l2) = (count x l1 + count x l2)%nat.
Proof. unfold count. by rewrite filter_app, length_app. Qed.

Lemma count_cons x y l : count x (y :: l) = ((if decide (x = y) then 1 else 0) + count x l)%nat.
Proof. unfold count. rewrite filter_cons. by case_decide. Qed.

Lemma count_zero x l : count x l = O <-> x ∉ l.
Proof.
  induction l as [|y l IH]; [split; [intros _; apply not_elem_of_nil|done]|].
  rewrite count_cons, not_elem_of_cons. case_decide; [split; [lia|tauto]|]. rewrite <- IH.
  split; [intros; split; [done|lia]|intros [_ ?]; lia].
Qed.

Lemma count_replicate x n : count x (replicate n x) = n.
Proof. induction n as [|n IH]; [done|]. cbn [replicate]. rewrite count_cons, IH, decide_True; done. Qed.

Lemma count_replicate_ne x y n : x <> y -> count x (replicate n y) = O.
Proof.
  intros Hne. induction n as [|n IH]; [done|]. cbn [replicate]. by rewrite count_cons, IH, decide_False.
Qed.
End count.
#[global] Arguments count : simpl never.
