(* ===== verification/CString.v ===== *)
(** C strings and the string functions of the C library the sources use.

    A [char *] is a [string] whose characters are not NUL (a NULL pointer is
    [None] of [option string] where the code tests for it); a pointer into a
    string is the suffix it points at, the empty string standing for the
    terminating NUL. *)
From S2P Require Import Prelude.
From Stdlib Require Export Ascii String.
Open Scope string_scope.
Open Scope Z_scope.
#[global] Arguments String.append !_ _ : simpl nomatch.

(** ** <string.h> and <strings.h> *)

Definition strlen (s : string) : nat := String.length s.

(** The first [n] characters. *)
Fixpoint str_take (n : nat) (s : string) : string :=
  match n, s with
  | S n', String c s' => String c (str_take n' s')
  | _, _ => ""
  end.

(** The suffix [s + n]. *)
Fixpoint str_drop (n : nat) (s : string) : string :=
  match n, s with
  | S n', String _ s' => str_drop n' s'
  | _, _ => s
  end.

Definition strcmp (a b : string) : Z :=
  match String.compare a b with
  | Lt => -1
  | Eq => 0
  | Gt => 1
  end.

Definition strncmp (a b : string) (n : nat) : Z := strcmp (str_take n a) (str_take n b).

Definition tolower (c : ascii) : ascii :=
  let n := N_of_ascii c in
  if (65 <=? n)%N && (n <=? 90)%N then ascii_of_N (n + 32) else c.

Fixpoint str_tolower (s : string) : string :=
  match s with
  | "" => ""
  | String c s' => String (tolower c) (str_tolower s')
  end.

Definition strcasecmp (a b : string) : Z := strcmp (str_tolower a) (str_tolower b).

(** [strchr(s, c)] for [c] not NUL: the suffix that starts at the first [c]. *)
Fixpoint strchr (s : string) (c : ascii) : option string :=
  match s with
  | "" => None
  | String c' s' => if (c' =? c)%char then Some s else strchr s' c
  end.

(** The characters before the first [c] ([end - s] of them). *)
Fixpoint str_until (s : string) (c : ascii) : string :=
  match s with
  | "" => ""
  | String c' s' => if (c' =? c)%char then "" else String c' (str_until s' c)
  end.

(** The tokens that repeated [strtok_r(s, "d", &saveptr)] yields: the maximal
    runs of characters other than the delimiter, empty runs skipped. [cur] is
    the run being read. *)
Fixpoint strtok_go (d : ascii) (cur : string) (s : string) : list string :=
  let flush := if (cur =? "")%string then [] else [cur] in
  match s with
  | "" => flush
  | String c s' =>
      if (c =? d)%char then flush ++ strtok_go d "" s'
      else strtok_go d (cur ++ String c "") s'
  end.
Definition strtok_all (s : string) (d : ascii) : list string := strtok_go d "" s.

(** No NUL inside: what every C string satisfies. *)
Fixpoint no_nul (s : string) : bool :=
  match s with
  | "" => true
  | String c s' => negb (c =? zero)%char && no_nul s'
  end.

(** ** Lemmas *)

Lemma str_compare_refl s : String.compare s s = Eq.
Proof.
  induction s as [|c s IH]; simpl; [done|].
  unfold Ascii.compare. by rewrite N.compare_refl.
Qed.

Lemma strcmp_eq a b : strcmp a b = 0 <-> a = b.
Proof.
  unfold strcmp. split.
  - destruct (String.compare a b) eqn:E; [|done..]. intros _. by apply String.compare_eq_iff.
  - intros ->. by rewrite str_compare_refl.
Qed.

Lemma str_take_app_length a b : str_take (strlen a) (a ++ b) = a.
Proof. induction a as [|c a IH]; simpl; [by destruct b|by rewrite IH]. Qed.

Lemma str_take_drop n s : str_take n s ++ str_drop n s = s.
Proof. revert s. induction n as [|n IH]; intros [|c s]; simpl; try done. by rewrite IH. Qed.

Lemma str_drop_app_length a b : str_drop (strlen a) (a ++ b) = b.
Proof. induction a as [|c a IH]; simpl; [by destruct b|done]. Qed.

Lemma str_take_all n s : (strlen s <= n)%nat -> str_take n s = s.
Proof.
  revert s. induction n as [|n IH]; intros [|c s] H; simpl in *; try done; [lia|].
  rewrite IH; [done|lia].
Qed.

Lemma strlen_app a b : strlen (a ++ b) = (strlen a + strlen b)%nat.
Proof. induction a; simpl; [done|]. by f_equal. Qed.

Lemma strlen_drop n s : strlen (str_drop n s) = (strlen s - n)%nat.
Proof. revert s; induction n; intros [|c s]; simpl; auto. Qed.

Lemma str_app_nil_r (s : string) : s ++ "" = s.
Proof. induction s; simpl; [done|]. by f_equal. Qed.

Lemma str_app_assoc (a b c : string) : a ++ (b ++ c) = (a ++ b) ++ c.
Proof. induction a; simpl; [done|]. by f_equal. Qed.

Lemma str_app_inj_l (a b c : string) : a ++ b = a ++ c -> b = c.
Proof. induction a; simpl; [done|]. intros [= H]; auto. Qed.

Lemma no_nul_app a b : no_nul (a ++ b) = no_nul a && no_nul b.
Proof. induction a; simpl; [done|]. rewrite IHa. by rewrite andb_assoc. Qed.

Lemma strchr_until s c t : strchr s c = Some t <-> exists r, s = str_until s c ++ String c r /\ t = String c r.
Proof.
  induction s as [|x s IH]; simpl.
  - split; [done|]. by intros (r & ? & _).
  - destruct (Ascii.eqb_spec x c) as [->|Hne]; simpl.
    + split; [intros [= <-]; eauto|]. by intros (r & [= ->] & ->).
    + rewrite IH. split; intros (r & H & ->); exists r; split; try done; congruence.
Qed.

#[export] Hint Rewrite str_app_nil_r strlen_app no_nul_app : bluechi_rw.
