(* ===== verification/StringUtil.v ===== *)
(** libbluechi/common/string-util.{h,c}: character and string predicates, glob
    matching and the growing [StringBuilder] buffer. *)
From S2P Require Import Prelude CString.

(** ** Predicates *)

Definition SYMBOL_WILDCARD : string := "*".
Definition SYMBOL_GLOB_ALL : ascii := "*".
Definition SYMBOL_GLOB_ONE : ascii := "?".

Definition streq (a b : string) : bool := strcmp a b =? 0.
Definition streqi (a b : string) : bool := strcasecmp a b =? 0.

Definition char_in_range (lo hi a : ascii) : bool :=
  (N_of_ascii lo <=? N_of_ascii a)%N && (N_of_ascii a <=? N_of_ascii hi)%N.
Definition ascii_isdigit (a : ascii) : bool := char_in_range "0" "9" a.
Definition ascii_isalpha (a : ascii) : bool :=
  char_in_range "a" "z" a || char_in_range "A" "Z" a.

(** [strcat_dup]; [None] when the allocation fails. *)
Definition strcat_dup (malloc_ok : bool) (a b : string) : option string :=
  if malloc_ok then Some (a ++ b) else None.

Definition is_wildcard (s : string) : bool := streq s SYMBOL_WILDCARD.

Definition is_glob (s : option string) : bool :=
  match s with
  | None => false
  | Some s =>
      match strchr s SYMBOL_GLOB_ALL with
      | Some _ => true
      | None => match strchr s SYMBOL_GLOB_ONE with Some _ => true | None => false end
      end
  end.

Definition str_has_prefix (s prefix : string) : bool :=
  strncmp s prefix (strlen prefix) =? 0.

Definition isempty (a : option string) : bool :=
  match a with
  | None => true
  | Some s => match s with "" => true | _ => false end
  end.

Definition ends_with (str suffix : option string) : bool :=
  match str, suffix with
  | Some str, Some suffix =>
      let str_length := strlen str in
      let suffix_length := strlen suffix in
      if (str_length <? suffix_length)%nat then false
      else strncmp (str_drop (str_length - suffix_length) str) suffix suffix_length =? 0
  | _, _ => false
  end.

(** ** Glob matching

    [match_glob_at] is the body of [match_glob] for non-NULL arguments. The C
    function recurses on the pair (str, glob): the inner fixpoint consumes the
    subject under a [*], the outer one the pattern. *)
Fixpoint match_glob_at (glob : string) : string -> bool :=
  match glob with
  | "" => fun str => match str with "" => true | _ => false end
  | String g glob' =>
      fix inner (str : string) : bool :=
        if (g =? SYMBOL_GLOB_ALL)%char then
          match_glob_at glob' str ||
          match str with "" => false | String _ str' => inner str' end
        else
          match str with
          | String c str' =>
              ((SYMBOL_GLOB_ONE =? g)%char || (c =? g)%char) && match_glob_at glob' str'
          | "" => false
          end
  end.

Definition match_glob (str glob : option string) : bool :=
  match str, glob with
  | Some str, Some glob => match_glob_at glob str
  | _, _ => false
  end.

(** The language of a pattern: [*] stands for any string, [?] for any
    character, every other character for itself. *)
Fixpoint glob_lang (glob s : string) : Prop :=
  match glob with
  | "" => s = ""
  | String g glob' =>
      if (g =? "*")%char then exists s1 s2, s = s1 ++ s2 /\ glob_lang glob' s2
      else if (g =? "?")%char then exists c s', s = String c s' /\ glob_lang glob' s'
      else exists s', s = String g s' /\ glob_lang glob' s'
  end.

(** ** StringBuilder

    The buffer is [capacity] bytes of memory; a byte that was never written is
    [None]. Sizes are [size_t], computed modulo 2^64. *)
Definition size_max : Z := 2 ^ 64.
Definition STRING_BUILDER_DEFAULT_CAPACITY : Z := 1024.

Record StringBuilder := mkStringBuilder {
  sb_mem : list (option ascii);
  sb_len : Z;
  sb_capacity : Z;
}.
#[export] Instance eta_StringBuilder : EtaRecord StringBuilder :=
  fun b => mkStringBuilder (sb_mem b) (sb_len b) (sb_capacity b).

(** Fresh memory of [n] bytes, and [realloc] to [n] bytes. *)
Definition malloc_bytes (n : Z) : list (option ascii) := replicate (Z.to_nat n) None.
Definition realloc_bytes (m : list (option ascii)) (n : Z) : list (option ascii) :=
  take (Z.to_nat n) (m ++ malloc_bytes n).

(** Store the bytes [bs] at offset [off]. *)
Definition store_bytes (off : nat) (bs : list ascii) (m : list (option ascii)) :
    list (option ascii) :=
  take off m ++ map Some bs ++ drop (off + Datatypes.length bs) m.

Definition string_builder_init (malloc_ok : bool) (initial_capacity : Z) :
    option StringBuilder :=
  let initial_capacity :=
    if initial_capacity =? 0 then STRING_BUILDER_DEFAULT_CAPACITY else initial_capacity in
  if negb malloc_ok then None
  else Some (mkStringBuilder (store_bytes 0 [zero] (malloc_bytes initial_capacity))
               0 initial_capacity).

Definition string_builder_realloc (realloc_ok : bool) (builder : StringBuilder)
    (new_size : Z) : bool * StringBuilder :=
  if negb realloc_ok then (false, builder)
  else (true, builder <| sb_mem ::= fun m => realloc_bytes m new_size |>
                      <| sb_capacity := new_size |>).

Definition string_builder_grow (realloc_ok : bool) (builder : StringBuilder)
    (extra_size : Z) : bool * StringBuilder :=
  let required_size := (sb_len builder + extra_size + 1) mod size_max in
  let '(ok, builder) :=
    if sb_capacity builder <? required_size then
      let new_size := (sb_capacity builder * 2) mod size_max in
      let new_size := if new_size <? required_size then required_size else new_size in
      string_builder_realloc realloc_ok builder new_size
    else (true, builder) in
  if negb ok then (false, builder)
  else (true, builder <| sb_len := (sb_len builder + extra_size) mod size_max |>).

(** [strncpy(dst, s, n)]: at most [n] characters, padded with NULs to [n]. *)
Definition strncpy_bytes (s : string) (n : nat) : list ascii :=
  take n (list_ascii_of_string s ++ replicate n zero).

Definition string_builder_append (realloc_ok : bool) (builder : StringBuilder)
    (str : string) : bool * StringBuilder :=
  let old_len := sb_len builder in
  let '(ok, builder) := string_builder_grow realloc_ok builder (Z.of_nat (strlen str)) in
  if negb ok then (false, builder)
  else
    let n := Z.to_nat ((sb_capacity builder - old_len) mod size_max) in
    (true, builder <| sb_mem ::= store_bytes (Z.to_nat old_len) (strncpy_bytes str n) |>).

(** [text] is what the format expands to; [None] when [vsnprintf] reports an
    error (a negative length). *)
Definition string_builder_printf (realloc_ok : bool) (builder : StringBuilder)
    (text : option string) : bool * StringBuilder :=
  match text with
  | None => (false, builder)
  | Some text =>
      let n := Z.of_nat (strlen text) in
      let old_len := sb_len builder in
      let '(ok, builder) := string_builder_grow realloc_ok builder n in
      if negb ok then (false, builder)
      else
        (true, builder <| sb_mem ::=
                 store_bytes (Z.to_nat old_len) (list_ascii_of_string text ++ [zero]) |>)
  end.

(** The builder holds the C string [s]: the text, its terminating NUL, and
    memory of exactly [capacity] bytes. *)
Definition sb_holds (b : StringBuilder) (s : string) : Prop :=
  sb_len b = Z.of_nat (strlen s) /\
  Z.of_nat (Datatypes.length (sb_mem b)) = sb_capacity b /\
  sb_len b < sb_capacity b < size_max /\
  take (strlen s) (sb_mem b) = map Some (list_ascii_of_string s) /\
  sb_mem b !! strlen s = Some (Some zero).

(** ** Predicates: lemmas *)

Lemma streq_true a b : streq a b = true <-> a = b.
Proof. unfold streq. rewrite Z.eqb_eq. apply strcmp_eq. Qed.

Lemma streq_false a b : streq a b = false <-> a <> b.
Proof. rewrite <- streq_true. by destruct (streq a b). Qed.

Lemma streq_refl a : streq a a = true.
Proof. by apply streq_true. Qed.

Lemma streq_decide a b : streq a b = bool_decide (a = b).
Proof.
  case_bool_decide as H; [by apply streq_true|by apply streq_false].
Qed.

Lemma str_has_prefix_iff s p : str_has_prefix s p = true <-> exists r, s = p ++ r.
Proof.
  unfold str_has_prefix, strncmp. rewrite Z.eqb_eq, strcmp_eq.
  rewrite (str_take_all (strlen p) p) by lia. split.
  - intros H. exists (str_drop (strlen p) s).
    transitivity (str_take (strlen p) s ++ str_drop (strlen p) s);
      [symmetry; apply str_take_drop|by rewrite H].
  - intros [r ->]. apply str_take_app_length.
Qed.

Lemma ends_with_suffix s t : ends_with (Some s) (Some t) = true <-> exists p, s = p ++ t.
Proof.
  unfold ends_with. destruct (Nat.ltb_spec (strlen s) (strlen t)) as [Hlt|Hge].
  - split; [done|]. intros [p ->]. rewrite strlen_app in Hlt. lia.
  - unfold strncmp. rewrite Z.eqb_eq, strcmp_eq.
    rewrite (str_take_all (strlen t) t) by lia.
    rewrite str_take_all by (rewrite strlen_drop; lia).
    split.
    + intros H. exists (str_take (strlen s - strlen t) s).
      rewrite <- (str_take_drop (strlen s - strlen t) s) at 1. by rewrite H.
    + intros [p ->]. rewrite strlen_app.
      replace (strlen p + strlen t - strlen t)%nat with (strlen p) by lia.
      apply str_drop_app_length.
Qed.

(** ** Glob matching: lemmas *)

(** The two defining equations of the recursion under a [*]. *)
Lemma match_glob_at_star g s :
  match_glob_at (String "*" g) s = match_glob_at g s ||
    match s with "" => false | String _ s' => match_glob_at (String "*" g) s' end.
Proof. by destruct s. Qed.

Lemma match_glob_star_iff g s :
  match_glob_at (String "*" g) s = true <->
  exists s1 s2, s = s1 ++ s2 /\ match_glob_at g s2 = true.
Proof.
  induction s as [|c s IH]; rewrite match_glob_at_star, orb_true_iff.
  - split.
    + intros [H|H]; [|done]. by exists "", "".
    + intros (s1 & s2 & Heq & H). destruct s1; [|done]. simpl in Heq. subst. by left.
  - rewrite IH. split.
    + intros [H|(s1 & s2 & -> & H)]; [by exists "", (String c s)|].
      by exists (String c s1), s2.
    + intros (s1 & s2 & Heq & H). destruct s1 as [|x s1]; simpl in Heq; [subst; by left|].
      injection Heq as -> ->. right. by exists s1, s2.
Qed.

Lemma match_glob_at_lang g s : match_glob_at g s = true <-> glob_lang g s.
Proof.
  revert s. induction g as [|a g IH]; intros s.
  - simpl. by destruct s.
  - destruct (Ascii.eqb_spec a "*") as [->|Hstar].
    { rewrite match_glob_star_iff. simpl. by setoid_rewrite IH. }
    assert (match_glob_at (String a g) s =
      match s with
      | String c s' => (("?" =? a)%char || (c =? a)%char) && match_glob_at g s'
      | "" => false
      end) as ->.
    { destruct s; simpl; unfold SYMBOL_GLOB_ALL, SYMBOL_GLOB_ONE;
        by rewrite (proj2 (Ascii.eqb_neq _ _) Hstar). }
    cbn [glob_lang]. rewrite (proj2 (Ascii.eqb_neq _ _) Hstar).
    destruct (Ascii.eqb_spec a "?") as [->|Hone].
    + rewrite Ascii.eqb_refl. destruct s as [|c s].
      * split; [done|]. by intros (? & ? & ? & _).
      * rewrite orb_true_l, andb_true_l, IH. split; [eauto|]. by intros (? & ? & [= -> ->] & ?).
    + rewrite (proj2 (Ascii.eqb_neq "?" a)) by congruence.
      destruct s as [|c s].
      * split; [done|]. by intros (? & ? & _).
      * rewrite orb_false_l, andb_true_iff, IH, Ascii.eqb_eq. split.
        -- intros [-> ?]; eauto.
        -- by intros (? & [= -> ->] & ?).
Qed.

(** ** StringBuilder: lemmas *)

Lemma length_malloc_bytes n : Datatypes.length (malloc_bytes n) = Z.to_nat n.
Proof. apply length_replicate. Qed.

Lemma length_realloc_bytes m n : Datatypes.length (realloc_bytes m n) = Z.to_nat n.
Proof.
  unfold realloc_bytes. rewrite length_take, length_app, length_malloc_bytes. lia.
Qed.

Lemma length_list_ascii s : Datatypes.length (list_ascii_of_string s) = strlen s.
Proof. induction s; simpl; by f_equal. Qed.

Lemma list_ascii_app a b :
  list_ascii_of_string (a ++ b) = (list_ascii_of_string a ++ list_ascii_of_string b)%list.
Proof. induction a; simpl; [done|]. by f_equal. Qed.

Lemma length_store_bytes off bs m :
  (off + Datatypes.length bs <= Datatypes.length m)%nat ->
  Datatypes.length (store_bytes off bs m) = Datatypes.length m.
Proof.
  intros H. unfold store_bytes.
  rewrite !length_app, length_take, length_map, length_drop. lia.
Qed.

Lemma take_realloc k m n :
  (k <= Datatypes.length m)%nat -> (k <= Z.to_nat n)%nat ->
  take k (realloc_bytes m n) = take k m.
Proof.
  intros H1 H2. unfold realloc_bytes. rewrite take_take, Nat.min_l by lia.
  by apply take_app_le.
Qed.

(** What [string_builder_grow] establishes when it succeeds: room for the
    extra bytes and their terminator, the text stored so far kept. *)
Lemma string_builder_grow_spec ok b s n :
  sb_holds b s -> 0 <= n -> sb_len b + n + 1 < size_max ->
  match string_builder_grow ok b n with
  | (true, b') =>
      sb_len b' = sb_len b + n /\
      Z.of_nat (Datatypes.length (sb_mem b')) = sb_capacity b' /\
      sb_len b' < sb_capacity b' < size_max /\
      take (strlen s) (sb_mem b') = map Some (list_ascii_of_string s)
  | (false, b') => b' = b /\ ok = false
  end.
Proof.
  intros (Hlen & Hmem & Hcap & Htxt & _) Hn Hov. unfold string_builder_grow.
  rewrite (Z.mod_small (sb_len b + n + 1)) by (unfold size_max in *; lia).
  destruct (Z.ltb_spec (sb_capacity b) (sb_len b + n + 1)) as [Hlt|Hge]; cbn.
  - set (sz := if (sb_capacity b * 2) mod size_max <? sb_len b + n + 1
               then sb_len b + n + 1 else (sb_capacity b * 2) mod size_max).
    assert (sb_len b + n + 1 <= sz < size_max) as Hsz.
    { unfold sz. destruct (Z.ltb_spec ((sb_capacity b * 2) mod size_max) (sb_len b + n + 1)).
      - lia.
      - split; [done|]. by apply Z.mod_pos_bound. }
    destruct ok; cbn; [|done].
    rewrite (Z.mod_small (sb_len b + n)) by (unfold size_max in *; lia).
    rewrite length_realloc_bytes, take_realloc by lia. repeat split; (done || lia).
  - rewrite (Z.mod_small (sb_len b + n)) by (unfold size_max in *; lia).
    repeat split; (done || lia).
Qed.

(** The bytes after a store. *)
Lemma store_bytes_text off (t bs : list ascii) m :
  off = Datatypes.length t ->
  take off m = map Some t ->
  (off + Datatypes.length bs <= Datatypes.length m)%nat ->
  forall u v, bs = (u ++ zero :: v)%list ->
  take (off + Datatypes.length u) (store_bytes off bs m) = map Some (t ++ u)%list /\
  store_bytes off bs m !! (off + Datatypes.length u)%nat = Some (Some zero).
Proof.
  intros -> Ht Hle u v ->. unfold store_bytes. rewrite Ht.
  rewrite map_app. cbn [map]. rewrite <- app_assoc.
  replace (map Some t ++ map Some u ++ (Some zero :: map Some v) ++
    drop (Datatypes.length t + Datatypes.length (u ++ zero :: v)) m)%list
    with ((map Some (t ++ u)) ++ (Some zero :: map Some v ++
    drop (Datatypes.length t + Datatypes.length (u ++ zero :: v)) m))%list
    by (rewrite map_app, <- app_assoc; done).
  assert (Datatypes.length (map Some (t ++ u)) = (Datatypes.length t + Datatypes.length u)%nat)
    as Hl by (by rewrite length_map, length_app).
  split.
  - rewrite <- Hl. apply take_app_length.
  - by apply list_lookup_middle.
Qed.

Lemma strncpy_bytes_split s n :
  (strlen s < n)%nat ->
  exists v, strncpy_bytes s n = (list_ascii_of_string s ++ zero :: v)%list /\
    Datatypes.length (strncpy_bytes s n) = n.
Proof.
  intros H. exists (replicate (n - strlen s - 1) zero). unfold strncpy_bytes.
  split.
  - rewrite take_app, take_ge by (rewrite length_list_ascii; lia).
    f_equal. rewrite length_list_ascii, take_replicate, Nat.min_l by lia.
    destruct (n - strlen s)%nat eqn:E; [lia|]. simpl. by rewrite Nat.sub_0_r.
  - rewrite length_take, length_app, length_replicate. lia.
Qed.

(** ** Properties *)

(** C39. The recursive matcher decides the language of the pattern: [*] any
    string, [?] any character, every other character itself; a NULL subject
    or pattern never matches. *)
Theorem match_glob_correct (str glob : option string) :
  match_glob str glob = true <->
  exists s g, str = Some s /\ glob = Some g /\ glob_lang g s.
Proof.
  destruct str as [s|], glob as [g|]; simpl; try by split; [done|naive_solver].
  rewrite match_glob_at_lang. naive_solver.
Qed.

(** [ends_with] answers whether the second string is a suffix of the first;
    NULL is a suffix of nothing and has no suffix. *)
Theorem ends_with_correct (str suffix : option string) :
  ends_with str suffix = true <->
  exists s t p, str = Some s /\ suffix = Some t /\ s = p ++ t.
Proof.
  destruct str as [s|], suffix as [t|]; simpl; try by split; [done|naive_solver].
  rewrite (ends_with_suffix s t). naive_solver.
Qed.

(** Appending to a builder that holds [s] either succeeds, and the builder
    then holds [s] followed by the appended text, with room for the NUL, or
    fails because memory could not be grown, and the builder is unchanged. *)
Theorem string_builder_append_holds (realloc_ok : bool) (b : StringBuilder) (s t : string)
  (Hb : sb_holds b s)
  (Hsize : Z.of_nat (strlen s) + Z.of_nat (strlen t) + 1 < size_max) :
  match string_builder_append realloc_ok b t with
  | (true, b') => sb_holds b' (s ++ t)
  | (false, b') => b' = b /\ realloc_ok = false
  end.
Proof.
  pose proof Hb as (Hlen & _). unfold string_builder_append.
  pose proof (string_builder_grow_spec realloc_ok b s (Z.of_nat (strlen t)) Hb
    ltac:(lia) ltac:(lia)) as Hg.
  destruct (string_builder_grow _ _ _) as [[] b']; [|done]. cbn.
  destruct Hg as (Hl' & Hm' & Hc' & Ht').
  rewrite (Z.mod_small (sb_capacity b' - sb_len b)) by (unfold size_max in *; lia).
  set (n := Z.to_nat (sb_capacity b' - sb_len b)).
  destruct (strncpy_bytes_split t n) as (v & Hv & Hn); [unfold n; lia|].
  replace (Z.to_nat (sb_len b)) with (strlen s) by lia.
  destruct (store_bytes_text (strlen s) (list_ascii_of_string s) (strncpy_bytes t n)
    (sb_mem b')) with (u := list_ascii_of_string t) (v := v) as [H1 H2]; try done.
  { by rewrite length_list_ascii. }
  { rewrite Hn. unfold n. lia. }
  rewrite length_list_ascii in H1, H2.
  unfold sb_holds; cbn. rewrite strlen_app, list_ascii_app.
  rewrite length_store_bytes by (rewrite Hn; unfold n; lia).
  repeat split; (done || lia).
Qed.

Lemma string_builder_append_holds_witness :
  match string_builder_append true (snd (string_builder_append true
    (mkStringBuilder [Some zero; None] 0 2) "ab")) "c" with
  | (true, b') => sb_holds b' "abc"
  | (false, b') => False
  end.
Proof.
  pose proof (string_builder_append_holds true
    (snd (string_builder_append true (mkStringBuilder [Some zero; None] 0 2) "ab")) "ab" "c"
    ltac:(vm_compute; repeat split; (done || lia)) ltac:(vm_compute; reflexivity)) as H.
  vm_compute in H |- *. exact H.
Defined.
