(* ===== verification/ParseUtil.v ===== *)
(** libbluechi/common/parse-util.c: numbers, ports, signals and the type field
    of a SELinux context; with the C library's [strtol] and the decimal
    formatting of [asprintf("%u")] they rely on. [long] is 64 bits wide. *)
From S2P Require Import Prelude CString StringUtil.

Definition LONG_MIN : Z := - 2 ^ 63.
Definition LONG_MAX : Z := 2 ^ 63 - 1.
Definition USHRT_MAX : Z := 65535.
Definition MIN_SIGNAL_VALUE : Z := 1.
Definition MAX_SIGNAL_VALUE : Z := 31.
Definition ERANGE : Z := 34.

(** ** The C library: [strtol] in base 10, [%u] *)

Definition is_space (c : ascii) : bool :=
  let n := N_of_ascii c in (n =? 32)%N || ((9 <=? n)%N && (n <=? 13)%N).

Definition digit_val (c : ascii) : Z := Z.of_N (N_of_ascii c) - 48.

Fixpoint skip_space (s : string) : string :=
  match s with
  | String c s' => if is_space c then skip_space s' else s
  | "" => ""
  end.

(** The value of the longest run of digits, and what follows it. *)
Fixpoint scan_digits (v : Z) (s : string) : Z * string :=
  match s with
  | String c s' => if ascii_isdigit c then scan_digits (v * 10 + digit_val c) s' else (v, s)
  | "" => (v, "")
  end.

Record strtol_result := mkStrtol { st_value : Z; st_end : string; st_errno : Z }.

Definition strtol (s : string) : strtol_result :=
  let s1 := skip_space s in
  let '(neg, s2) :=
    match s1 with
    | String c s' =>
        if (c =? "-")%char then (true, s')
        else if (c =? "+")%char then (false, s') else (false, s1)
    | "" => (false, s1)
    end in
  match s2 with
  | String c _ =>
      if ascii_isdigit c then
        let '(v, rest) := scan_digits 0 s2 in
        let v := if neg then - v else v in
        if v <? LONG_MIN then mkStrtol LONG_MIN rest ERANGE
        else if LONG_MAX <? v then mkStrtol LONG_MAX rest ERANGE
        else mkStrtol v rest 0
      else mkStrtol 0 s 0
  | "" => mkStrtol 0 s 0
  end.

Definition digit_char (d : Z) : ascii := ascii_of_N (Z.to_N (48 + d)).

Fixpoint fmt_go (fuel : nat) (n : Z) (acc : string) : string :=
  match fuel with
  | O => acc
  | S f =>
      let acc' := String (digit_char (n mod 10)) acc in
      if n <? 10 then acc' else fmt_go f (n / 10) acc'
  end.
(** [%u]: the decimal digits of [n >= 0]; a number below [2^k] has at most
    [k] of them. *)
Definition fmt_u (n : Z) : string := fmt_go (S (Z.to_nat (Z.log2 n))) n "".

(** ** parse-util.c *)

Definition parse_long (in_ : option string) : option Z :=
  match in_ with
  | None => None
  | Some s =>
      if (strlen s =? 0)%nat then None
      else
        let x := strtol s in
        if (0 <? st_errno x) || (strlen (st_end x) =? strlen s)%nat
           || negb (st_end x =? "")%string
        then None
        else Some (st_value x)
  end.

Definition parse_port (in_ : option string) : option Z :=
  match in_ with
  | None => None
  | Some s =>
      if (strlen s =? 0)%nat then None
      else
        match parse_long (Some s) with
        | None => None
        | Some l => if (l <? 0) || (USHRT_MAX <? l) then None else Some (l mod 2 ^ 16)
        end
  end.

Definition parse_linux_signal (in_ : option string) : option Z :=
  match in_ with
  | None => None
  | Some s =>
      if (strlen s =? 0)%nat then None
      else
        match parse_long (Some s) with
        | None => None
        | Some l =>
            if (l <? MIN_SIGNAL_VALUE) || (MAX_SIGNAL_VALUE <? l) then None
            else Some (l mod 2 ^ 32)
        end
  end.

(** [strndup] is taken to succeed. *)
Definition parse_selinux_type (context : string) : option string :=
  match strchr context ":" with
  | None => None
  | Some s =>
      let s := str_drop 1 s in
      if (s =? "")%string then None
      else
        match strchr s ":" with
        | None => None
        | Some s =>
            let s := str_drop 1 s in
            if (s =? "")%string then None
            else
              match strchr s ":" with
              | None => None
              | Some _ => Some (str_until s ":")
              end
        end
  end.

(** ** Lemmas *)

Fixpoint all_chars (p : ascii -> bool) (s : string) : bool :=
  match s with
  | "" => true
  | String c s' => p c && all_chars p s'
  end.

Lemma all_chars_app p a b : all_chars p (a ++ b) = all_chars p a && all_chars p b.
Proof. induction a; simpl; [done|]. by rewrite IHa, andb_assoc. Qed.

(** [numeral s n]: [s] is white space, an optional sign and at least one
    digit, and denotes [n]. *)
Definition numeral (s : string) (n : Z) : Prop :=
  exists ws sg ds v, s = ws ++ sg ++ ds /\
    all_chars is_space ws = true /\
    ds <> "" /\ all_chars ascii_isdigit ds = true /\
    v = fst (scan_digits 0 ds) /\
    (((sg = "" \/ sg = "+") /\ n = v) \/ (sg = "-" /\ n = - v)).

Lemma scan_digits_spec s : forall v, exists ds,
  s = ds ++ snd (scan_digits v s) /\ all_chars ascii_isdigit ds = true /\
  scan_digits v ds = (fst (scan_digits v s), "").
Proof.
  induction s as [|c s IH]; intros v; simpl.
  - by exists "".
  - destruct (ascii_isdigit c) eqn:E.
    + destruct (IH (v * 10 + digit_val c)) as (ds & H1 & H2 & H3).
      exists (String c ds). simpl. rewrite E, H2. simpl. split; [by f_equal|done].
    + by exists "".
Qed.

Lemma scan_digits_all ds v : all_chars ascii_isdigit ds = true -> snd (scan_digits v ds) = "".
Proof.
  revert v. induction ds as [|c ds IH]; intros v; simpl; [done|].
  intros [-> H]%andb_true_iff. by apply IH.
Qed.

Lemma skip_space_spec s : exists ws,
  s = ws ++ skip_space s /\ all_chars is_space ws = true /\
  match skip_space s with "" => True | String c _ => is_space c = false end.
Proof.
  induction s as [|c s IH]; simpl; [by exists ""|].
  destruct (is_space c) eqn:E.
  - destruct IH as (ws & H1 & H2 & H3). exists (String c ws). simpl.
    rewrite E, H2. split; [by f_equal|done].
  - by exists "".
Qed.

Lemma skip_space_app ws c s :
  all_chars is_space ws = true -> is_space c = false ->
  skip_space (ws ++ String c s) = String c s.
Proof.
  induction ws as [|x ws IH]; simpl; intros Hws Hc; [by rewrite Hc|].
  apply andb_true_iff in Hws as [-> ?]. by apply IH.
Qed.

Lemma digit_not_space c : ascii_isdigit c = true ->
  is_space c = false /\ (c =? "-")%char = false /\ (c =? "+")%char = false.
Proof.
  unfold ascii_isdigit, char_in_range, is_space. simpl. intros H.
  apply andb_true_iff in H as [H1%N.leb_le H2%N.leb_le].
  split; [|split].
  - apply orb_false_iff. rewrite andb_false_iff, N.eqb_neq, !N.leb_nle. lia.
  - apply Ascii.eqb_neq. intros ->. by vm_compute in H1.
  - apply Ascii.eqb_neq. intros ->. by vm_compute in H1.
Qed.

Lemma no_app_self (a b : string) : strlen (a ++ b) = strlen b -> a = "".
Proof. rewrite strlen_app. destruct a; simpl; [done|lia]. Qed.

(** The part of [strtol] after the sign. *)
Definition strtol_digits (neg : bool) (s s2 : string) : strtol_result :=
  match s2 with
  | String c _ =>
      if ascii_isdigit c then
        let '(v, rest) := scan_digits 0 s2 in
        let v := if neg then - v else v in
        if v <? LONG_MIN then mkStrtol LONG_MIN rest ERANGE
        else if LONG_MAX <? v then mkStrtol LONG_MAX rest ERANGE
        else mkStrtol v rest 0
      else mkStrtol 0 s 0
  | "" => mkStrtol 0 s 0
  end.

Lemma strtol_digits_numeral neg s ds n :
  s <> "" ->
  (st_errno (strtol_digits neg s ds) = 0 /\ st_end (strtol_digits neg s ds) = "" /\
   st_value (strtol_digits neg s ds) = n) <->
  (ds <> "" /\ all_chars ascii_isdigit ds = true /\
   n = (if neg then - fst (scan_digits 0 ds) else fst (scan_digits 0 ds)) /\
   LONG_MIN <= n <= LONG_MAX).
Proof.
  intros Hs. destruct ds as [|c ds].
  { simpl. split; [by intros (_ & ? & _)|by intros [? _]]. }
  unfold strtol_digits. destruct (ascii_isdigit c) eqn:Ec; cycle 1.
  { simpl. split; [by intros (_ & ? & _)|]. rewrite Ec. by intros (_ & ? & _). }
  destruct (scan_digits_spec (String c ds) 0) as (d & H1 & H2 & H3).
  destruct (scan_digits 0 (String c ds)) as [v rest] eqn:E. cbn [fst snd] in *.
  set (w := if neg then - v else v).
  destruct (Z.ltb_spec w LONG_MIN), (Z.ltb_spec LONG_MAX w); simpl st_errno; simpl st_end;
    simpl st_value; try (split; [by intros (? & _)|intros (_ & _ & -> & ?); lia]).
  split.
  - intros (_ & -> & <-). rewrite str_app_nil_r in H1. subst d. repeat split; (done || lia).
  - intros (_ & Hd & -> & _). apply scan_digits_all with (v := 0) in Hd.
    rewrite E in Hd. done.
Qed.

(** [strtol] on a string split as white space, sign and the rest. *)
Lemma strtol_split ws sg rest :
  all_chars is_space ws = true ->
  match rest with "" => True | String c _ => is_space c = false end ->
  (sg = "-") \/ (sg = "+") \/
  (sg = "" /\ match rest with "" => True
              | String c _ => (c =? "-")%char = false /\ (c =? "+")%char = false end) ->
  strtol (ws ++ sg ++ rest) =
  strtol_digits (sg =? "-")%string (ws ++ sg ++ rest) rest.
Proof.
  intros Hws Hrest Hsg. unfold strtol.
  assert (skip_space (ws ++ sg ++ rest) = sg ++ rest) as ->.
  { destruct Hsg as [->|[->|[-> _]]]; [by apply skip_space_app..|].
    simpl. destruct rest as [|c rest]; [|by apply skip_space_app].
    rewrite str_app_nil_r. clear -Hws. induction ws as [|x ws IH]; simpl in *; [done|].
    apply andb_true_iff in Hws as [-> ?]. by apply IH. }
  destruct Hsg as [->|[->|[-> Hs]]]; [done..|].
  simpl. destruct rest as [|c rest]; [done|]. destruct Hs as [-> ->]. done.
Qed.

(** Any string is split that way. *)
Lemma strtol_decompose s : exists ws sg rest, s = ws ++ sg ++ rest /\
  all_chars is_space ws = true /\
  strtol s = strtol_digits (sg =? "-")%string s rest /\ (sg = "-" \/ sg = "+" \/ sg = "").
Proof.
  destruct (skip_space_spec s) as (ws & Hs & Hws & Hhd).
  unfold strtol. destruct (skip_space s) as [|c s1].
  { exists ws, "", "". repeat split; try done. by right; right. }
  destruct (Ascii.eqb_spec c "-") as [->|].
  { exists ws, "-", s1. repeat split; try done. by left. }
  destruct (Ascii.eqb_spec c "+") as [->|].
  { exists ws, "+", s1. repeat split; try done. by right; left. }
  exists ws, "", (String c s1). repeat split; try done. by right; right.
Qed.

Lemma parse_long_spec s n :
  parse_long (Some s) = Some n <-> numeral s n /\ LONG_MIN <= n <= LONG_MAX.
Proof.
  unfold parse_long. destruct (Nat.eqb_spec (strlen s) 0) as [H0|H0].
  { destruct s; [|done]. split; [done|].
    intros [(ws & sg & ds & v & Hs & _ & Hd & _) _].
    destruct ws, sg, ds; done. }
  assert (s <> "") as Hne by (by intros ->).
  assert ((if (0 <? st_errno (strtol s)) || (strlen (st_end (strtol s)) =? strlen s)%nat
    || negb (st_end (strtol s) =? "")%string then None else Some (st_value (strtol s))) = Some n
    <-> (st_errno (strtol s) = 0 /\ st_end (strtol s) = "" /\ st_value (strtol s) = n)) as ->.
  { destruct (strtol_decompose s) as (ws & sg & rest & _ & _ & -> & _).
    set (x := strtol_digits _ _ _).
    assert (0 <= st_errno x) as Hpos.
    { unfold x, strtol_digits. destruct rest; [done|]. repeat (case_match; try done). }
    destruct (Z.ltb_spec 0 (st_errno x)); simpl; [split; [done|intros [? _]; lia]|].
    destruct (String.eqb_spec (st_end x) "") as [->|He]; simpl.
    - destruct (strlen s); [done|]. simpl. split; [intros [= <-]; split; [lia|done]|].
      by intros (_ & _ & ->).
    - rewrite orb_true_r. split; [done|]. by intros (_ & ? & _). }
  split.
  - destruct (strtol_decompose s) as (ws & sg & rest & Hs & Hws & -> & Hsg).
    rewrite strtol_digits_numeral by done. intros (H1 & H2 & H3 & H4). split; [|done].
    exists ws, sg, rest, (fst (scan_digits 0 rest)). repeat split; try done.
    destruct Hsg as [->|[->| ->]]; simpl in H3; tauto.
  - intros [(ws & sg & ds & v & Hs & Hws & Hne' & Hds & -> & Hn) Hr].
    assert (match ds with "" => True | String c _ => is_space c = false /\
      (c =? "-")%char = false /\ (c =? "+")%char = false end) as Hc.
    { destruct ds as [|c ds]; [done|]. simpl in Hds. apply andb_true_iff in Hds as [? _].
      by apply digit_not_space. }
    assert (strtol s = strtol_digits (sg =? "-")%string s ds) as ->.
    { rewrite Hs. apply strtol_split; [done|by destruct ds; tauto|].
      destruct Hn as [[[-> | ->] _]|[-> _]]; [|tauto..]. right; right. split; [done|].
      destruct ds; tauto. }
    apply strtol_digits_numeral; [done|]. repeat split; try done; try lia.
    destruct Hn as [[[-> | ->] ->]|[-> ->]]; done.
Qed.

(** ** Printing and parsing *)

Lemma digit_char_spec d : 0 <= d < 10 ->
  ascii_isdigit (digit_char d) = true /\ digit_val (digit_char d) = d.
Proof.
  intros H. assert (d = 0 \/ d = 1 \/ d = 2 \/ d = 3 \/ d = 4 \/ d = 5 \/ d = 6 \/
    d = 7 \/ d = 8 \/ d = 9) as Hd by lia.
  repeat (destruct Hd as [->|Hd]; [by vm_compute|]). subst. by vm_compute.
Qed.

Lemma fmt_go_scan fuel : forall n acc,
  0 <= n < 2 ^ Z.of_nat fuel ->
  all_chars ascii_isdigit (fmt_go fuel n acc) = all_chars ascii_isdigit acc /\
  scan_digits 0 (fmt_go fuel n acc) = scan_digits n acc.
Proof.
  induction fuel as [|f IH]; intros n acc Hn.
  { replace n with 0 by (simpl in Hn; lia). done. }
  simpl fmt_go. destruct (digit_char_spec (n mod 10)) as [Hd Hv].
  { by apply Z.mod_pos_bound. }
  destruct (Z.ltb_spec n 10).
  - simpl. rewrite Hd, Hv. simpl. rewrite (Z.mod_small n 10) by lia. done.
  - destruct (IH (n / 10) (String (digit_char (n mod 10)) acc)) as [H1 H2].
    { split; [apply Z.div_pos; lia|]. apply Z.div_lt_upper_bound; [lia|].
      replace (Z.of_nat (S f)) with (1 + Z.of_nat f) in Hn by lia.
      rewrite Z.pow_add_r in Hn by lia. lia. }
    rewrite H1, H2. simpl. rewrite Hd, Hv. simpl. split; [done|].
    f_equal. rewrite (Z.div_mod n 10) at 3 by lia. lia.
Qed.

Lemma fmt_u_fuel n : 0 <= n -> n < 2 ^ Z.of_nat (S (Z.to_nat (Z.log2 n))).
Proof.
  intros H. rewrite Nat2Z.inj_succ, Z2Nat.id by apply Z.log2_nonneg.
  destruct (Z.eq_dec n 0) as [->|]; [done|]. apply Z.log2_spec. lia.
Qed.

Lemma fmt_u_digits n : 0 <= n -> all_chars ascii_isdigit (fmt_u n) = true /\
  fst (scan_digits 0 (fmt_u n)) = n /\ fmt_u n <> "".
Proof.
  intros H. destruct (fmt_go_scan (S (Z.to_nat (Z.log2 n))) n "") as [H1 H2].
  { split; [done|]. by apply fmt_u_fuel. }
  unfold fmt_u. rewrite H1, H2. repeat split; try done.
  intros E. rewrite E in H2. simpl in H2. injection H2 as H2. subst n. done.
Qed.

Lemma fmt_u_numeral n : 0 <= n -> numeral (fmt_u n) n.
Proof.
  intros H. destruct (fmt_u_digits n H) as (H1 & H2 & H3).
  exists "", "", (fmt_u n), n. repeat split; try done. left. by split; [left|].
Qed.

Lemma fmt_u_inj a b : 0 <= a -> 0 <= b -> fmt_u a = fmt_u b -> a = b.
Proof.
  intros Ha Hb E. destruct (fmt_u_digits a Ha) as (_ & <- & _), (fmt_u_digits b Hb) as (_ & <- & _).
  by rewrite E.
Qed.

(** ** SELinux context *)

Fixpoint lacks (c : ascii) (s : string) : bool :=
  match s with
  | "" => true
  | String x s' => negb (x =? c)%char && lacks c s'
  end.

Lemma strchr_app_lacks c a b : lacks c a = true ->
  strchr (a ++ String c b) c = Some (String c b) /\ str_until (a ++ String c b) c = a.
Proof.
  induction a as [|x a IH]; simpl.
  - by rewrite Ascii.eqb_refl.
  - intros [Hx H]%andb_true_iff. apply negb_true_iff in Hx. rewrite Hx.
    destruct (IH H) as [-> ->]. done.
Qed.

Lemma strchr_Some c s t : strchr s c = Some t ->
  exists a b, s = a ++ String c b /\ t = String c b /\ lacks c a = true /\ str_until s c = a.
Proof.
  revert t. induction s as [|x s IH]; intros t; simpl; [done|].
  destruct (Ascii.eqb_spec x c) as [->|Hne].
  - intros [= <-]. by exists "", s.
  - intros (a & b & -> & -> & Ha & Hu)%IH. exists (String x a), b. simpl.
    rewrite Hu, Ha, (proj2 (Ascii.eqb_neq _ _) Hne). done.
Qed.

Lemma strchr_some_pat c s : is_Some (strchr s c) <-> exists a b, s = a ++ String c b /\ lacks c a = true.
Proof.
  split.
  - intros [t (a & b & ? & _ & ? & _)%strchr_Some]; eauto.
  - intros (a & b & -> & Ha). destruct (strchr_app_lacks c a b Ha) as [-> _]. eauto.
Qed.

(** ** Properties *)

(** [parse_port] accepts exactly the decimal numerals (leading white space and
    one sign allowed, nothing after the digits) that denote a number from 0 to
    65535, and yields that number; numbers outside the range of [long] are
    refused, not clamped. *)
Theorem parse_port_correct (in_ : option string) (p : Z) :
  parse_port in_ = Some p <->
  exists s, in_ = Some s /\ numeral s p /\ 0 <= p <= 65535.
Proof.
  destruct in_ as [s|]; unfold parse_port; [|by split; [|intros (? & ? & _)]].
  destruct (Nat.eqb_spec (strlen s) 0) as [H0|H0].
  { destruct s; [|done]. split; [done|]. intros (t & [= <-] & (ws & sg & ds & ? & Hs & _ & Hd & _) & _).
    by destruct ws, sg, ds. }
  destruct (parse_long (Some s)) as [l|] eqn:E.
  - apply parse_long_spec in E as [Hn Hr]. unfold USHRT_MAX.
    split.
    + destruct (Z.ltb_spec l 0), (Z.ltb_spec 65535 l); simpl; try done.
      intros [= <-].
      rewrite (Z.mod_small l) by (simpl; lia). exists s. repeat split; (done || lia).
    + intros (t & [= <-] & Hp & Hp').
      assert (parse_long (Some s) = Some p) as Ep.
      { apply parse_long_spec. unfold LONG_MIN, LONG_MAX. split; [done|lia]. }
      assert (parse_long (Some s) = Some l) as El by (by apply parse_long_spec).
      assert (l = p) as -> by congruence.
      destruct (Z.ltb_spec p 0), (Z.ltb_spec 65535 p); simpl; try lia.
      f_equal. apply Z.mod_small. lia.
  - split; [done|]. intros (t & [= <-] & Hp & Hp').
    assert (parse_long (Some s) = Some p) as Ep.
    { apply parse_long_spec. unfold LONG_MIN, LONG_MAX. split; [done|lia]. }
    congruence.
Qed.

(** Every number of the [long] range that is printed in decimal is read back. *)
Theorem parse_long_fmt_u (n : Z) (Hn : 0 <= n <= LONG_MAX) :
  parse_long (Some (fmt_u n)) = Some n.
Proof.
  apply parse_long_spec. split; [apply fmt_u_numeral; lia|].
  unfold LONG_MIN, LONG_MAX in *; lia.
Qed.

Lemma parse_long_fmt_u_witness : (0 <= 842 <= LONG_MAX) /\ parse_long (Some (fmt_u 842)) = Some 842.
Proof.
  assert (0 <= 842 <= LONG_MAX) as H by (split; by vm_compute).
  split; [exact H|exact (parse_long_fmt_u 842 H)].
Defined.

(** [parse_selinux_type] returns the third field of [user:role:type:level]:
    it answers [t] exactly when the context starts with two fields, [t], and a
    closing colon (so a context without a level is refused). *)
Theorem parse_selinux_type_correct (context t : string) :
  parse_selinux_type context = Some t <->
  exists user role level,
    context = user ++ ":" ++ role ++ ":" ++ t ++ ":" ++ level /\
    lacks ":" user = true /\ lacks ":" role = true /\ lacks ":" t = true.
Proof.
  unfold parse_selinux_type. split.
  - destruct (strchr context ":") as [s1|] eqn:E1; [|done].
    apply strchr_Some in E1 as (u & s2 & -> & -> & Hu & _). simpl str_drop.
    destruct (String.eqb_spec s2 ""); [done|].
    destruct (strchr s2 ":") as [s3|] eqn:E2; [|done].
    apply strchr_Some in E2 as (r & s4 & -> & -> & Hr & _). simpl str_drop.
    destruct (String.eqb_spec s4 ""); [done|].
    destruct (strchr s4 ":") as [s5|] eqn:E3; [|done].
    apply strchr_Some in E3 as (t' & l & -> & -> & Ht & Hu3). rewrite Hu3. intros [= <-].
    by exists u, r, l.
  - intros (u & r & l & -> & Hu & Hr & Ht). simpl.
    destruct (strchr_app_lacks ":" u (r ++ String ":" (t ++ String ":" l)) Hu) as [-> _].
    simpl. destruct (String.eqb_spec (r ++ String ":" (t ++ String ":" l)) "") as [E|_].
    { by destruct r. }
    destruct (strchr_app_lacks ":" r (t ++ String ":" l) Hr) as [-> _]. simpl.
    destruct (String.eqb_spec (t ++ String ":" l) "") as [E|_]; [by destruct t|].
    by destruct (strchr_app_lacks ":" t l Ht) as [-> ->].
Qed.
