(* ===== verification/TimeUtil.v ===== *)
(** libbluechi/common/math-util.c, time-util.c and event-util.c: unsigned
    maximum, time stamps in microseconds and (re)arming an event-loop timer.
    Unsigned 64-bit results are written modulo 2^64. *)
From S2P Require Import Prelude CString.

Definition UINT64_MAX : Z := 2 ^ 64 - 1.
Definition u64 (n : Z) : Z := n mod 2 ^ 64.
Definition USEC_INFINITY : Z := UINT64_MAX.
Definition USEC_PER_SEC : Z := 1000000.
Definition USEC_PER_MSEC : Z := 1000.
Definition NSEC_PER_USEC : Z := 1000.

Definition umaxl (x y : Z) : Z := if y <? x then x else y.

(** [struct timespec]: signed 64-bit seconds and nanoseconds. *)
Record timespec := mkTimespec { tv_sec : Z; tv_nsec : Z }.

Definition timespec_to_micros (ts : timespec) : Z :=
  if (tv_sec ts <? 0) || (tv_nsec ts <? 0) then USEC_INFINITY
  else if u64 (UINT64_MAX - Z.quot (tv_nsec ts) NSEC_PER_USEC) / USEC_PER_SEC <? u64 (tv_sec ts)
  then USEC_INFINITY
  else u64 (u64 (u64 (tv_sec ts) * USEC_PER_SEC) + u64 (tv_nsec ts) / NSEC_PER_USEC).

(** [get_time_micros() - start_time], the current time being [now]. *)
Definition finalize_time_interval_micros (now : timespec) (start_time_micros : Z) : Z :=
  u64 (timespec_to_micros now - u64 start_time_micros).

Definition usec_add (a b : Z) : Z :=
  if u64 (UINT64_MAX - b) <? a then UINT64_MAX else u64 (a + b).

(** ** Timers

    The sd-event library is outside the sources: the result of its k-th call
    is a parameter, and the calls made are recorded in order. A pointer result
    is 0 for NULL. *)
Inductive event_call :=
| EvNow (clock : Z)
| EvGetEnabled (source : positive)
| EvGetTimeClock (source : positive)
| EvSetTime (source : positive) (usec : Z)
| EvSetTimeAccuracy (source : positive) (accuracy : Z)
| EvSetUserdata (source : positive)
| EvSetEnabledOneshot (source : positive)
| EvAddTime (clock usec accuracy : Z)
| EvSetPriority (source : positive) (priority : Z)
| EvSetDescription (source : positive) (description : string)
| EvSetFloating (source : positive).

(** What a call answers: its return value and, for the getters, the value it
    stores through its pointer argument (for [EvAddTime] the new source). *)
Record event_answer := mkAnswer { ea_r : Z; ea_value : Z; ea_source : positive }.

Class SdEvent := sd_event_answer : nat -> event_call -> event_answer.

Record EventWorld := mkEventWorld {
  ev_calls : list event_call;
}.

Definition SD_EVENT_OFF : Z := 0.

Section event.
Context {EV : SdEvent}.

Definition ev_call (c : event_call) : M EventWorld event_answer := fun w =>
  Ret (sd_event_answer (Datatypes.length (ev_calls w)) c)
      (mkEventWorld (ev_calls w ++ [c])).

(** The branch for an existing source: [inr] carries on to the common tail,
    [inl r] returns [r]. *)
Definition event_rearm (source : positive) (clock usec accuracy : Z)
    (force_reset : bool) : M EventWorld (Z + unit) :=
  stop ←
    (if negb force_reset then
       a ← ev_call (EvGetEnabled source);
       if ea_r a <? 0 then mret (Some (ea_r a))
       else if negb (ea_value a =? SD_EVENT_OFF) then mret (Some 0)
       else mret None
     else mret None);
  match stop with
  | Some r => mret (inl r)
  | None =>
      a ← ev_call (EvGetTimeClock source);
      if ea_r a <? 0 then mret (inl (ea_r a))
      else if negb (ea_value a =? clock) then mret (inl (ea_r a))
      else
        a ← ev_call (EvSetTime source usec);
        if ea_r a <? 0 then mret (inl (ea_r a)) else
        a ← ev_call (EvSetTimeAccuracy source accuracy);
        if ea_r a <? 0 then mret (inl (ea_r a)) else
        a ← ev_call (EvSetUserdata source);
        if ea_r a =? 0 then mret (inl (-1)) else
        a ← ev_call (EvSetEnabledOneshot source);
        if ea_r a <? 0 then mret (inl (ea_r a)) else mret (inr tt)
  end.

(** The result is the return value and the new value of [*event_source]. *)
Definition event_reset_time (event_source : option positive)
    (clock usec accuracy priority : Z) (description : option string)
    (force_reset : bool) : M EventWorld (Z * option positive) :=
  step ←
    match event_source with
    | Some source =>
        x ← event_rearm source clock usec accuracy force_reset;
        match x with
        | inl r => mret (inl r)
        | inr _ => mret (inr source)
        end
    | None =>
        a ← ev_call (EvAddTime clock usec accuracy);
        if ea_r a <? 0 then mret (inl (ea_r a)) else mret (inr (ea_source a))
    end;
  match step with
  | inl r => mret (r, event_source)
  | inr source =>
      a ← ev_call (EvSetPriority source priority);
      if ea_r a <? 0 then mret (ea_r a, Some source) else
      match description with
      | Some d =>
          a ← ev_call (EvSetDescription source d);
          if ea_r a <? 0 then mret (ea_r a, Some source) else mret (0, Some source)
      | None => mret (0, Some source)
      end
  end.

Definition event_reset_time_relative (event_source : option positive)
    (clock usec accuracy priority : Z) (description : option string)
    (force_reset : bool) : M EventWorld (Z * option positive) :=
  a ← ev_call (EvNow clock);
  if ea_r a <? 0 then mret (ea_r a, event_source)
  else event_reset_time event_source clock (usec_add (ea_value a) usec) accuracy
         priority description force_reset.
End event.

(** ** Lemmas *)

Lemma u64_bounds n : 0 <= u64 n <= UINT64_MAX.
Proof. unfold u64, UINT64_MAX. pose proof (Z.mod_pos_bound n (2 ^ 64)). lia. Qed.

Lemma u64_small n : 0 <= n <= UINT64_MAX -> u64 n = n.
Proof. intros. apply Z.mod_small. unfold UINT64_MAX in *. lia. Qed.

Lemma umaxl_max x y : umaxl x y = Z.max x y.
Proof. unfold umaxl. destruct (Z.ltb_spec y x); lia. Qed.

(** ** Properties *)

(** The conversion of a time stamp never wraps around: it is the exact number
    of whole microseconds whenever that number fits in 64 bits, and the
    infinity marker for a negative field or a time that does not fit. *)
Theorem timespec_to_micros_exact (ts : timespec)
  (Hsec : - 2 ^ 63 <= tv_sec ts < 2 ^ 63) (Hnsec : - 2 ^ 63 <= tv_nsec ts < 2 ^ 63) :
  timespec_to_micros ts =
    if (tv_sec ts <? 0) || (tv_nsec ts <? 0) then UINT64_MAX
    else Z.min (tv_sec ts * 1000000 + tv_nsec ts / 1000) UINT64_MAX.
Proof.
  unfold timespec_to_micros.
  destruct (Z.ltb_spec (tv_sec ts) 0); [done|].
  destruct (Z.ltb_spec (tv_nsec ts) 0); [done|]. simpl orb. cbn match.
  rewrite Z.quot_div_nonneg by (unfold NSEC_PER_USEC; lia).
  change NSEC_PER_USEC with 1000. change USEC_PER_SEC with 1000000.
  assert (0 <= tv_nsec ts / 1000 < 2 ^ 63) as Hq.
  { split; [apply Z.div_pos; lia|]. apply Z.div_lt_upper_bound; lia. }
  rewrite (u64_small (UINT64_MAX - tv_nsec ts / 1000)) by (unfold UINT64_MAX; lia).
  rewrite (u64_small (tv_sec ts)), (u64_small (tv_nsec ts)) by (unfold UINT64_MAX; lia).
  pose proof (Z.div_mod (UINT64_MAX - tv_nsec ts / 1000) 1000000 ltac:(lia)) as Hd.
  pose proof (Z.mod_pos_bound (UINT64_MAX - tv_nsec ts / 1000) 1000000 ltac:(lia)) as Hm.
  destruct (Z.ltb_spec ((UINT64_MAX - tv_nsec ts / 1000) / 1000000) (tv_sec ts)).
  - unfold USEC_INFINITY. lia.
  - rewrite (u64_small (tv_sec ts * 1000000)) by lia.
    rewrite u64_small by lia. lia.
Qed.

Lemma timespec_to_micros_exact_witness :
  timespec_to_micros (mkTimespec 18446744073709 551615999) = UINT64_MAX /\
  timespec_to_micros (mkTimespec 18446744073710 0) = UINT64_MAX.
Proof.
  split.
  - rewrite (timespec_to_micros_exact (mkTimespec 18446744073709 551615999));
      [by vm_compute|split; by vm_compute..].
  - rewrite (timespec_to_micros_exact (mkTimespec 18446744073710 0));
      [by vm_compute|split; by vm_compute..].
Defined.

(** [usec_add] is addition that saturates at the largest 64-bit value. *)
Lemma usec_add_saturates (a b : Z) :
  0 <= a <= UINT64_MAX -> 0 <= b <= UINT64_MAX ->
  usec_add a b = Z.min (a + b) UINT64_MAX.
Proof.
  intros Ha Hb. unfold usec_add. rewrite u64_small by lia.
  destruct (Z.ltb_spec (UINT64_MAX - b) a); [lia|]. rewrite u64_small; lia.
Qed.

(** (Re)arming a timer relative to now, when no sd-event call fails and time
    stamps are 64 bits wide: a missing source is added at the saturated sum of
    now and the delay; an existing one that is still pending is left alone
    unless the reset is forced; one that is off (or forced) and runs on the
    same clock is set to that time, enabled for one shot, and given priority
    and description; one on another clock is not touched. The call returns
    without error in every case. *)
Theorem event_reset_time_relative_arms {EV : SdEvent}
  (source : option positive) (clock usec accuracy priority : Z)
  (description : string) (force : bool) (now enabled clk : Z) (fresh : positive)
  (Hok : forall k c, 0 <= ea_r (sd_event_answer k c))
  (Huser : forall k s, ea_r (sd_event_answer k (EvSetUserdata s)) <> 0)
  (Hnow : forall k, ea_value (sd_event_answer k (EvNow clock)) = now)
  (Henabled : forall k s, ea_value (sd_event_answer k (EvGetEnabled s)) = enabled)
  (Hclk : forall k s, ea_value (sd_event_answer k (EvGetTimeClock s)) = clk)
  (Hadd : forall k c, ea_source (sd_event_answer k c) = fresh)
  (Hrange : 0 <= now <= UINT64_MAX /\ 0 <= usec <= UINT64_MAX) :
  let at_ := Z.min (now + usec) UINT64_MAX in
  let tail s := [EvSetPriority s priority; EvSetDescription s description] in
  let arm s := [EvSetTime s at_; EvSetTimeAccuracy s accuracy; EvSetUserdata s;
                EvSetEnabledOneshot s] in
  exists r calls,
    event_reset_time_relative source clock usec accuracy priority (Some description) force
      (mkEventWorld []) =
    Ret (r, match source with Some s => Some s | None => Some fresh end)
        (mkEventWorld (EvNow clock :: calls)) /\ 0 <= r /\
    calls =
      match source with
      | None => EvAddTime clock at_ accuracy :: tail fresh
      | Some s =>
          if force then EvGetTimeClock s :: (if clk =? clock then arm s ++ tail s else [])
          else EvGetEnabled s ::
               (if enabled =? SD_EVENT_OFF
                then EvGetTimeClock s :: (if clk =? clock then arm s ++ tail s else [])
                else [])
      end.
Proof.
  destruct Hrange as [Hn Hu].
  assert (forall k c, (ea_r (sd_event_answer k c) <? 0) = false) as Hlt.
  { intros. apply Z.ltb_ge, Hok. }
  assert (forall k s, (ea_r (sd_event_answer k (EvSetUserdata s)) =? 0) = false) as Hne.
  { intros. apply Z.eqb_neq, Huser. }
  unfold event_reset_time_relative, event_reset_time, event_rearm, mbind, M_bind, ev_call, mret, M_ret.
  cbn. rewrite !Hlt, Hnow, usec_add_saturates by done.
  destruct source as [s|]; [destruct force|]; cbn.
  - rewrite ?Hlt, Hclk. destruct (clk =? clock); cbn; rewrite ?Hlt, ?Hne; cbn; rewrite ?Hlt;
      eexists _, _; split_and!; try reflexivity; (apply Hok || lia).
  - rewrite ?Hlt, Henabled. destruct (enabled =? SD_EVENT_OFF); cbn.
    + rewrite ?Hlt, Hclk. destruct (clk =? clock); cbn; rewrite ?Hlt, ?Hne; cbn; rewrite ?Hlt;
        eexists _, _; split_and!; try reflexivity; (apply Hok || lia).
    + eexists _, _; split_and!; try reflexivity; lia.
  - rewrite ?Hlt, ?Hadd. cbn. rewrite ?Hlt. eexists _, _; split_and!; try reflexivity; lia.
Qed.

Lemma event_reset_time_relative_arms_witness :
  let answer : SdEvent := fun _ c =>
    match c with EvNow _ => mkAnswer 1 100 5 | _ => mkAnswer 1 0 5 end in
  exists r calls,
    event_reset_time_relative (EV:=answer) None 7 2000 0 0 (Some "t") false (mkEventWorld []) =
    Ret (r, Some 5%positive) (mkEventWorld (EvNow 7 :: calls)) /\ 0 <= r /\
    calls = [EvAddTime 7 2100 0; EvSetPriority 5 0; EvSetDescription 5 "t"].
Proof.
  intros answer.
  exact (event_reset_time_relative_arms (EV:=answer) None 7 2000 0 0 "t" false 100 0 0 5
    ltac:(intros k []; by vm_compute) ltac:(done) ltac:(done) ltac:(done) ltac:(done)
    ltac:(intros k []; reflexivity) ltac:(split; split; by vm_compute)).
Defined.
