(* ===== verification/Protocol.v ===== *)
(** libbluechi/common/protocol.{h,c}: the names shared by the controller, the
    agents and their clients, and the textual forms of job and unit states. *)
From S2P Require Import Prelude CString StringUtil.

Definition EINVAL : Z := 22.
Definition ENOMEM : Z := 12.
Definition ENOENT : Z := 2.
Definition EEXIST : Z := 17.

(** ** D-Bus names *)

Definition BC_OBJECT_PATH : string := "/org/eclipse/bluechi".
Definition NODE_OBJECT_PATH_PREFIX : string := BC_OBJECT_PATH ++ "/node".
Definition JOB_OBJECT_PATH_PREFIX : string := BC_OBJECT_PATH ++ "/job".
Definition MONITOR_OBJECT_PATH_PREFIX : string := BC_OBJECT_PATH ++ "/monitor".
Definition INTERNAL_PROXY_OBJECT_PATH_PREFIX : string := BC_OBJECT_PATH ++ "/internal/proxy".

Definition BC_BUS_ERROR_OFFLINE : string := "org.eclipse.bluechi.Offline".
Definition BC_BUS_ERROR_NO_SUCH_SUBSCRIPTION : string :=
  "org.eclipse.bluechi.NoSuchSubscription".
Definition BC_BUS_ERROR_ACTIVATION_FAILED : string := "org.eclipse.bluechi.ActivationFailed".

(** ** Job states *)

Inductive JobState := JOB_WAITING | JOB_RUNNING | JOB_INVALID.
#[export] Instance JobState_eq_dec : EqDecision JobState.
Proof. solve_decision. Defined.

Definition job_state_to_string (s : JobState) : string :=
  match s with
  | JOB_WAITING => "waiting"
  | JOB_RUNNING => "running"
  | _ => "invalid"
  end.

Definition job_state_from_string (s : string) : JobState :=
  if streq s "waiting" then JOB_WAITING
  else if streq s "running" then JOB_RUNNING
  else JOB_INVALID.

(** ** Unit active states *)

Inductive UnitActiveState :=
| UNIT_ACTIVE
| UNIT_RELOADING
| UNIT_INACTIVE
| UNIT_FAILED
| UNIT_ACTIVATING
| UNIT_DEACTIVATING
| UNIT_MAINTENANCE
| _UNIT_ACTIVE_STATE_MAX
| _UNIT_ACTIVE_STATE_INVALID.
#[export] Instance UnitActiveState_eq_dec : EqDecision UnitActiveState.
Proof. solve_decision. Defined.

(** The value of the C enumerator. *)
Definition active_state_value (s : UnitActiveState) : Z :=
  match s with
  | UNIT_ACTIVE => 0 | UNIT_RELOADING => 1 | UNIT_INACTIVE => 2 | UNIT_FAILED => 3
  | UNIT_ACTIVATING => 4 | UNIT_DEACTIVATING => 5 | UNIT_MAINTENANCE => 6
  | _UNIT_ACTIVE_STATE_MAX => 7 | _UNIT_ACTIVE_STATE_INVALID => - EINVAL
  end.

(** The table with its designated initialisers. *)
Definition unit_active_state_table : list (UnitActiveState * string) :=
  [(UNIT_ACTIVE, "active"); (UNIT_RELOADING, "reloading"); (UNIT_INACTIVE, "inactive");
   (UNIT_FAILED, "failed"); (UNIT_ACTIVATING, "activating");
   (UNIT_DEACTIVATING, "deactivating"); (UNIT_MAINTENANCE, "maintenance")].

Definition active_state_to_string (s : UnitActiveState) : string :=
  let v := active_state_value s in
  if (0 <=? v) && (v <? active_state_value _UNIT_ACTIVE_STATE_MAX) then
    match unit_active_state_table !! Z.to_nat v with
    | Some (_, name) => name
    | None => "invalid"
    end
  else "invalid".

Definition active_state_from_string (s : string) : UnitActiveState :=
  match List.find (fun e => streq e.2 s) unit_active_state_table with
  | Some (i, _) => i
  | None => _UNIT_ACTIVE_STATE_INVALID
  end.

(** ** Properties *)

(** The textual forms of the two state types are read back as the state they
    were written from; a text that is no state's name reads as the invalid
    state; and no valid state is written with another state's name or as
    "invalid". *)
Theorem state_strings_roundtrip :
  (forall j, job_state_from_string (job_state_to_string j) = j) /\
  (forall s, job_state_from_string s <> JOB_INVALID ->
     job_state_to_string (job_state_from_string s) = s) /\
  (forall a, a <> _UNIT_ACTIVE_STATE_MAX ->
     active_state_from_string (active_state_to_string a) = a) /\
  (forall s, active_state_from_string s <> _UNIT_ACTIVE_STATE_INVALID ->
     active_state_to_string (active_state_from_string s) = s).
Proof.
  split_and!.
  - by intros [].
  - intros s. unfold job_state_from_string.
    destruct (streq s "waiting") eqn:E1; [by apply streq_true in E1 as ->|].
    destruct (streq s "running") eqn:E2; [by apply streq_true in E2 as ->|]. done.
  - by intros [].
  - intros s. unfold active_state_from_string.
    destruct (List.find _ _) as [[a n]|] eqn:E; [|done].
    apply find_some in E as [Hin Es]. apply streq_true in Es. cbn in Es. subst s.
    repeat destruct Hin as [[= <- <-]|Hin]; done.
Qed.

Lemma state_strings_roundtrip_witness :
  active_state_to_string (active_state_from_string "failed") = "failed" /\
  job_state_to_string (job_state_from_string "running") = "running" /\
  active_state_from_string (active_state_to_string UNIT_RELOADING) = UNIT_RELOADING.
Proof.
  destruct state_strings_roundtrip as (_ & H2 & H3 & H4).
  split_and!; [apply H4|apply H2|apply H3]; vm_compute; congruence.
Defined.
