(* ===== verification/BusUtils.v ===== *)
(** libbluechi/bus/utils.c: object path escaping and bus name validation. *)
From S2P Require Import Prelude CString StringUtil ParseUtil Protocol.

(** ** Object paths *)

Definition hexchar (x : Z) : ascii :=
  match String.get (Z.to_nat ((x mod 2 ^ 32) mod 16)) "0123456789abcdef" with
  | Some c => c
  | None => zero
  end.

(** The loop: [first] is [f == s]. *)
Fixpoint bus_path_escape_loop (first : bool) (s : string) : string :=
  match s with
  | "" => ""
  | String f s' =>
      if negb (ascii_isalpha f) && negb (negb first && ascii_isdigit f) then
        let c := Z.of_N (N_of_ascii f) in
        String "_" (String (hexchar (Z.shiftr c 4)) (String (hexchar c)
          (bus_path_escape_loop false s')))
      else String f (bus_path_escape_loop false s')
  end.

Definition bus_path_escape (malloc_ok : bool) (s : string) : option string :=
  if negb malloc_ok then None
  else match s with
       | "" => Some "_"
       | _ => Some (bus_path_escape_loop true s)
       end.

(** The return value and [*res] when it was written. *)
Definition assemble_object_path_string (malloc_ok asprintf_ok : bool) (prefix name : string) :
    Z * option string :=
  match bus_path_escape malloc_ok name with
  | None => (- ENOMEM, None)
  | Some escaped =>
      if asprintf_ok then
        let res := prefix ++ "/" ++ escaped in (Z.of_nat (strlen res), Some res)
      else (-1, None)
  end.

(** ** Unique bus names *)

Definition SD_BUS_MAXIMUM_NAME_LENGTH : Z := 255.

(** The loop; [None] is its early [return false], otherwise the final values of
    [dot] and [found_dot]. *)
Fixpoint bus_id_scan (dot found_dot : bool) (i : string) : option (bool * bool) :=
  match i with
  | "" => Some (dot, found_dot)
  | String c i' =>
      if (c =? ".")%char then
        if dot then None else bus_id_scan true true i'
      else if negb (ascii_isalpha c) && negb (ascii_isdigit c) then None
      else bus_id_scan false found_dot i'
  end.

Definition bus_id_is_valid (name : option string) : bool :=
  match name with
  | None | Some "" => false
  | Some (String c rest as n) =>
      if negb (c =? ":")%char then false
      else match bus_id_scan true false rest with
           | None => false
           | Some (dot, found_dot) =>
               if SD_BUS_MAXIMUM_NAME_LENGTH <? Z.of_nat (strlen n) then false
               else if dot || negb found_dot then false
               else true
           end
  end.

(** ** Specifications *)

Definition alnum (c : ascii) : bool := ascii_isalpha c || ascii_isdigit c.

(** An element of a D-Bus object path. *)
Definition path_element (s : string) : Prop :=
  s <> "" /\ all_chars (fun c => alnum c || (c =? "_")%char) s = true.

Definition hexval (c : ascii) : Z :=
  if ascii_isdigit c then digit_val c else Z.of_N (N_of_ascii c) - 87.

(** The inverse of [bus_path_escape]: [_xy] stands for the byte [0xxy], a lone
    [_] for the empty string. *)
Fixpoint bus_path_unescape_loop (s : string) : string :=
  match s with
  | "" => ""
  | String c s' =>
      if (c =? "_")%char then
        match s' with
        | String h (String l s'') =>
            String (ascii_of_N (Z.to_N (hexval h * 16 + hexval l))) (bus_path_unescape_loop s'')
        | _ => ""
        end
      else String c (bus_path_unescape_loop s')
  end.
Definition bus_path_unescape (s : string) : string :=
  if (s =? "_")%string then "" else bus_path_unescape_loop s.

(** The elements of a unique name. *)
Fixpoint join_dots (l : list string) : string :=
  match l with
  | [] => ""
  | [s] => s
  | s :: l' => s ++ "." ++ join_dots l'
  end.

Definition unique_name (n : string) : Prop :=
  exists segs, n = ":" ++ join_dots segs /\ (2 <= Datatypes.length segs)%nat /\
    Forall (fun s => s <> "" /\ all_chars alnum s = true) segs /\
    Z.of_nat (strlen n) <= SD_BUS_MAXIMUM_NAME_LENGTH.

(** ** Lemmas *)

Lemma bool_forall_ascii (p : ascii -> bool) :
  forallb (fun n => p (ascii_of_nat n)) (seq 0 256) = true -> forall c, p c = true.
Proof.
  intros H c. rewrite forallb_forall in H. rewrite <- (ascii_nat_embedding c).
  apply H, in_seq. pose proof (nat_ascii_bounded c). lia.
Qed.

(** Every byte survives the two hexadecimal digits. *)
Lemma hex_roundtrip c :
  ascii_of_N (Z.to_N (hexval (hexchar (Z.shiftr (Z.of_N (N_of_ascii c)) 4)) * 16 +
    hexval (hexchar (Z.of_N (N_of_ascii c))))) = c.
Proof.
  apply Ascii.eqb_eq. revert c. apply bool_forall_ascii. vm_compute. reflexivity.
Qed.

Lemma hexchar_alnum x : alnum (hexchar x) = true.
Proof.
  unfold hexchar. set (n := Z.to_nat ((x mod 2 ^ 32) mod 16)).
  assert (n < 16)%nat as Hn by (unfold n; pose proof (Z.mod_pos_bound (x mod 2 ^ 32) 16); lia).
  clearbody n. do 16 (destruct n as [|n]; [done|]). lia.
Qed.

Lemma alpha_not_underscore c : alnum c = true -> (c =? "_")%char = false.
Proof. by destruct (Ascii.eqb_spec c "_") as [->|]. Qed.

Lemma escape_loop_spec s : forall first,
  all_chars (fun c => alnum c || (c =? "_")%char) (bus_path_escape_loop first s) = true /\
  bus_path_unescape_loop (bus_path_escape_loop first s) = s /\
  (strlen s <= strlen (bus_path_escape_loop first s) <= 3 * strlen s)%nat.
Proof.
  induction s as [|c s IH]; intros first; [done|].
  destruct (IH false) as (IH1 & IH2 & IH3). cbn [bus_path_escape_loop].
  destruct (negb (ascii_isalpha c) && negb (negb first && ascii_isdigit c)) eqn:E.
  - split_and!.
    + cbn [all_chars]. by rewrite !hexchar_alnum, IH1.
    + cbn [bus_path_unescape_loop]. change (("_" =? "_")%char) with true. cbn iota.
      by rewrite hex_roundtrip, IH2.
    + cbn [strlen String.length] in *. unfold strlen in *. lia.
    + cbn [strlen String.length] in *. unfold strlen in *. lia.
  - assert (alnum c = true) as Hc.
    { unfold alnum. destruct (ascii_isalpha c), (ascii_isdigit c), first; done. }
    split_and!.
    + cbn [all_chars]. by rewrite Hc, IH1.
    + cbn [bus_path_unescape_loop]. by rewrite (alpha_not_underscore c Hc), IH2.
    + cbn [strlen String.length] in *. unfold strlen in *. lia.
    + cbn [strlen String.length] in *. unfold strlen in *. lia.
Qed.

Lemma bus_id_scan_segment s dot found rest :
  all_chars alnum s = true -> s <> "" ->
  bus_id_scan dot found (s ++ rest) = bus_id_scan false found rest.
Proof.
  revert dot. induction s as [|c s IH]; intros dot; [done|]. cbn [all_chars].
  intros [Hc Hs]%andb_true_iff _. cbn [String.append bus_id_scan].
  assert ((c =? ".")%char = false) as -> by (by destruct (Ascii.eqb_spec c ".") as [->|]).
  unfold alnum in Hc. destruct (negb (ascii_isalpha c) && negb (ascii_isdigit c)) eqn:E.
  { by destruct (ascii_isalpha c), (ascii_isdigit c). }
  destruct s as [|c' s']; [done|]. by apply IH.
Qed.

(** The scan accepts exactly dot-separated non-empty alphanumeric segments;
    [cur] is the segment being read. *)
Lemma bus_id_scan_spec i : forall cur found,
  all_chars alnum cur = true ->
  bus_id_scan (cur =? "")%string found i = Some (false, true) <->
  exists segs, cur ++ i = join_dots segs /\
    Forall (fun s => s <> "" /\ all_chars alnum s = true) segs /\
    (1 <= Datatypes.length segs)%nat /\ (found = true \/ 2 <= Datatypes.length segs)%nat.
Proof.
  intros cur found Hcur. split.
  - revert cur found Hcur. induction i as [|c i IH]; intros cur found Hcur; cbn [bus_id_scan].
    + intros [= H ->]. exists [cur]. rewrite str_app_nil_r. apply String.eqb_neq in H.
      repeat split; [by constructor|simpl; lia|by left].
    + destruct (Ascii.eqb_spec c ".") as [->|Hdot].
      * destruct (String.eqb_spec cur "") as [->|Hne]; [done|]. intros H.
        destruct (IH "" true eq_refl H) as (segs & E & Hs & Hl & _).
        exists (cur :: segs). simpl in E. split_and!.
        -- destruct segs as [|s segs]; [simpl in Hl; lia|].
           change (join_dots (cur :: s :: segs)) with (cur ++ "." ++ join_dots (s :: segs)).
           by rewrite <- E.
        -- by constructor.
        -- simpl; lia.
        -- right. simpl; lia.
      * destruct (negb (ascii_isalpha c) && negb (ascii_isdigit c)) eqn:E; [done|]. intros H.
        assert (alnum c = true) as Hc.
        { unfold alnum. by destruct (ascii_isalpha c), (ascii_isdigit c). }
        destruct (IH (cur ++ String c "") found) as (segs & E' & Hs).
        { clear -Hcur Hc. rewrite all_chars_app, Hcur. simpl. by rewrite Hc. }
        { by destruct cur. }
        exists segs. split; [|done]. rewrite <- E', <- str_app_assoc. done.
  - intros (segs & E & Hs & Hl & Hf).
    assert (forall segs dot found, Forall (fun s => s <> "" /\ all_chars alnum s = true) segs ->
      (1 <= Datatypes.length segs)%nat -> (found = true \/ 2 <= Datatypes.length segs)%nat ->
      bus_id_scan dot found (join_dots segs) = Some (false, true)) as Hscan.
    { clear. induction segs as [|s segs IH]; intros dot found Hs Hl Hf; [simpl in Hl; lia|].
      apply Forall_cons in Hs as [[Hne Ha] Hs]. destruct segs as [|s' segs].
      - simpl. rewrite <- (str_app_nil_r s), bus_id_scan_segment by done. cbn.
        destruct Hf as [->|Hf]; [done|simpl in Hf; lia].
      - change (join_dots (s :: s' :: segs)) with (s ++ "." ++ join_dots (s' :: segs)).
        rewrite bus_id_scan_segment by done. cbn. apply IH; [done|simpl; lia|by left]. }
    pose proof (Hscan segs true found Hs Hl Hf) as H. rewrite <- E in H.
    destruct (String.eqb_spec cur "") as [->|Hne]; [done|].
    by rewrite bus_id_scan_segment in H.
Qed.

Lemma bus_id_scan_found i : forall dot d f,
  bus_id_scan dot true i = Some (d, f) -> f = true.
Proof.
  induction i as [|c i IH]; intros dot d f; cbn [bus_id_scan]; [by intros [= _ <-]|].
  repeat case_match; eauto; done.
Qed.

Lemma bus_path_escape_inverse s :
  exists e, bus_path_escape true s = Some e /\ bus_path_unescape e = s.
Proof.
  destruct s as [|c s]; [by exists "_"|].
  destruct (escape_loop_spec (String c s) true) as (_ & H2 & H3).
  eexists. split; [reflexivity|]. unfold bus_path_unescape.
  destruct (String.eqb_spec (bus_path_escape_loop true (String c s)) "_") as [E|]; [|done].
  rewrite E in H2. done.
Qed.

(** ** Properties *)

(** Escaping a name yields an element of a D-Bus object path, within the
    memory the function allocates, from which the name can be recovered: two
    different names never get the same object path. *)
Theorem bus_path_escape_roundtrip (s : string) :
  exists e, bus_path_escape true s = Some e /\ path_element e /\
    (strlen e <= Nat.max 1 (strlen s * 3))%nat /\ bus_path_unescape e = s.
Proof.
  destruct (bus_path_escape_inverse s) as (e & He & Hs). exists e.
  destruct s as [|c s]; [injection He as <-; done|].
  destruct (escape_loop_spec (String c s) true) as (H1 & H2 & H3).
  assert (e = bus_path_escape_loop true (String c s)) as -> by (by apply (inj Some) in He).
  split_and!; [done| |lia|done]. split; [|done]. intros E. rewrite E in H3. simpl in H3. lia.
Qed.

(** [bus_id_is_valid] accepts exactly the unique names of the grammar
    [unique_name]: [:] and at least two non-empty alphanumeric elements
    separated by dots, 255 characters at most. *)
Theorem bus_id_is_valid_correct (name : option string) :
  bus_id_is_valid name = true <-> exists n, name = Some n /\ unique_name n.
Proof.
  split.
  - destruct name as [[|c rest]|]; [done| |done]. unfold bus_id_is_valid.
    destruct (Ascii.eqb_spec c ":") as [->|]; [|done]. cbn [negb].
    destruct (bus_id_scan true false rest) as [[dot found]|] eqn:E; [|done].
    destruct (Z.ltb_spec SD_BUS_MAXIMUM_NAME_LENGTH (Z.of_nat (strlen (String ":" rest)))); [done|].
    destruct dot, found; try done. intros _.
    apply (bus_id_scan_spec rest "" false eq_refl) in E as (segs & E & Hs & _ & Hl).
    exists (String ":" rest). split; [done|]. exists segs. simpl in E. subst rest.
    destruct Hl; [done|]. done.
  - intros (n & -> & segs & -> & Hl & Hs & Hlen).
    change (":" ++ join_dots segs) with (String ":" (join_dots segs)) in *.
    unfold bus_id_is_valid. rewrite Ascii.eqb_refl. cbn [negb].
    assert (bus_id_scan true false (join_dots segs) = Some (false, true)) as ->.
    { apply (bus_id_scan_spec _ "" false eq_refl). exists segs.
      repeat split; [done|lia|by right]. }
    destruct (Z.ltb_spec SD_BUS_MAXIMUM_NAME_LENGTH (Z.of_nat (strlen (String ":" (join_dots segs)))));
      [lia|done].
Qed.
