(* ===== verification/Log.v ===== *)
(** libbluechi/log/log.{h,c}: log levels and targets, the process-wide log
    configuration, the filter in front of every log call and the text the three
    targets write. *)
From S2P Require Import Prelude CString StringUtil ParseUtil Protocol.

(** ** Levels *)

Inductive LogLevel :=
| LOG_LEVEL_DEBUG | LOG_LEVEL_INFO | LOG_LEVEL_WARN | LOG_LEVEL_ERROR | LOG_LEVEL_INVALID.
#[export] Instance LogLevel_eq_dec : EqDecision LogLevel.
Proof. solve_decision. Defined.

Definition log_level_value (l : LogLevel) : Z :=
  match l with
  | LOG_LEVEL_DEBUG => 0 | LOG_LEVEL_INFO => 1 | LOG_LEVEL_WARN => 2
  | LOG_LEVEL_ERROR => 3 | LOG_LEVEL_INVALID => 4
  end.

Definition NUM_LOGLEVEL : Z := 5.
Definition log_level_strings : list string := ["DEBUG"; "INFO"; "WARN"; "ERROR"; "INVALID"].
Definition log_level_name (i : nat) : string := default "" (log_level_strings !! i).

Definition log_level_to_string (l : LogLevel) : string :=
  let v := log_level_value l in
  if (v <? 0) || (NUM_LOGLEVEL - 1 <? v)
  then log_level_name (Z.to_nat (log_level_value LOG_LEVEL_INVALID))
  else log_level_name (Z.to_nat v).

Definition string_to_log_level (l : option string) : LogLevel :=
  match l with
  | None => LOG_LEVEL_INVALID
  | Some l =>
      if streq (log_level_name 0) l then LOG_LEVEL_DEBUG
      else if streq (log_level_name 1) l then LOG_LEVEL_INFO
      else if streq (log_level_name 2) l then LOG_LEVEL_WARN
      else if streq (log_level_name 3) l then LOG_LEVEL_ERROR
      else LOG_LEVEL_INVALID
  end.

(** The priorities of <syslog.h>: LOG_DEBUG, LOG_INFO, LOG_WARNING, LOG_ERR. *)
Definition log_level_syslog : list Z := [7; 6; 4; 3].
Definition log_level_to_syslog (l : LogLevel) : Z :=
  let l := if log_level_value LOG_LEVEL_ERROR <? log_level_value l then LOG_LEVEL_ERROR else l in
  default 0 (log_level_syslog !! Z.to_nat (log_level_value l)).

(** ** Targets *)

Definition BC_LOG_TARGET_JOURNALD : string := "journald".
Definition BC_LOG_TARGET_STDERR : string := "stderr".
Definition BC_LOG_TARGET_STDERR_FULL : string := "stderr-full".

(** The three functions a [LogFn] may point to. *)
Inductive LogFn :=
| bc_log_to_journald_with_location
| bc_log_to_stderr_full_with_location
| bc_log_to_stderr_with_location.
#[export] Instance LogFn_eq_dec : EqDecision LogFn.
Proof. solve_decision. Defined.

Definition log_target_to_str (logfn : option LogFn) : option string :=
  match logfn with
  | Some bc_log_to_journald_with_location => Some BC_LOG_TARGET_JOURNALD
  | Some bc_log_to_stderr_full_with_location => Some BC_LOG_TARGET_STDERR_FULL
  | Some bc_log_to_stderr_with_location => Some BC_LOG_TARGET_STDERR
  | None => None
  end.

(** What a call writes: the fields handed to the journal, or a line of
    standard error. *)
Inductive log_output :=
| Journal (file line func : string) (fields : list string)
| StderrLine (text : string).

Definition tab : string := String (ascii_of_nat 9) "".
Definition newline : string := String (ascii_of_nat 10) "".
Definition dquote : string := String (ascii_of_nat 34) "".

Section write.
(** The wall-clock text of [get_formatted_log_timestamp] and whether the two
    [asprintf] calls succeed. *)
Context (timestamp : string) (asprintf_ok : bool * bool).

Definition log_to (fn : LogFn) (lvl : LogLevel) (file line func msg : string)
    (data : option string) : Z * list log_output :=
  match fn with
  | bc_log_to_journald_with_location =>
      if negb (fst asprintf_ok) || negb (snd asprintf_ok) then (-1, [])
      else
        let base := ["MESSAGE=" ++ msg; "PRIORITY=" ++ fmt_u (log_level_to_syslog lvl)] in
        (0, [Journal ("CODE_FILE=" ++ file) ("CODE_LINE=" ++ line) func
               (if isempty data then base else app base ["DATA=" ++ default "" data])])
  | bc_log_to_stderr_full_with_location =>
      (0, [StderrLine
             (timestamp ++ " " ++ log_level_to_string lvl ++ tab ++ file ++ ":" ++ line ++ " " ++
              func ++ tab ++ "msg=" ++ dquote ++ msg ++ dquote ++
              (if isempty data then ""
               else ", data=" ++ dquote ++ default "" data ++ dquote) ++ newline)])
  | bc_log_to_stderr_with_location =>
      (0, [StderrLine
             (timestamp ++ " " ++ log_level_to_string lvl ++ tab ++ ": " ++ msg ++ newline)])
  end.
End write.

(** ** The process-wide configuration *)

Record BcLogConfig := mkBcLogConfig {
  log_fn : option LogFn;
  log_level : LogLevel;
  log_is_quiet : bool;
}.
#[export] Instance eta_BcLogConfig : EtaRecord BcLogConfig :=
  fun c => mkBcLogConfig (log_fn c) (log_level c) (log_is_quiet c).

Definition bc_log_set_log_fn (f : option LogFn) (c : BcLogConfig) : BcLogConfig :=
  c <| log_fn := f |>.
Definition bc_log_set_level (l : LogLevel) (c : BcLogConfig) : BcLogConfig :=
  c <| log_level := l |>.
Definition bc_log_set_quiet (q : bool) (c : BcLogConfig) : BcLogConfig :=
  c <| log_is_quiet := q |>.

Definition shouldLog (c : BcLogConfig) (lvl : LogLevel) : bool :=
  (log_level_value (log_level c) <=? log_level_value lvl) && negb (log_is_quiet c) &&
  bool_decide (log_fn c <> None).

Definition bc_log (timestamp : string) (asprintf_ok : bool * bool) (c : BcLogConfig)
    (lvl : LogLevel) (file line func msg : string) (data : option string) :
    Z * list log_output :=
  if shouldLog c lvl then
    match log_fn c with
    | Some fn => log_to timestamp asprintf_ok fn lvl file line func msg data
    | None => (0, [])
    end
  else (0, []).

(** [bc_logf]: [msg] is the expanded format, [inl r] when [vasprintf] fails. *)
Definition bc_logf (timestamp : string) (asprintf_ok : bool * bool) (c : BcLogConfig)
    (lvl : LogLevel) (file line func : string) (msg : Z + string) : Z * list log_output :=
  if shouldLog c lvl then
    match msg with
    | inl r => (r, [])
    | inr msg =>
        match log_fn c with
        | Some fn => log_to timestamp asprintf_ok fn lvl file line func msg (Some "")
        | None => (0, [])
        end
    end
  else (0, []).

Definition bc_log_with_data (timestamp : string) (asprintf_ok : bool * bool) (c : BcLogConfig)
    (lvl : LogLevel) (file line func msg : string) (data : Z + string) : Z * list log_output :=
  if shouldLog c lvl then
    match data with
    | inl r => (r, [])
    | inr data =>
        match log_fn c with
        | Some fn => log_to timestamp asprintf_ok fn lvl file line func msg (Some data)
        | None => (0, [])
        end
    end
  else (0, []).

(** ** Lemmas *)

Lemma string_to_log_level_inverse l :
  string_to_log_level (Some (log_level_to_string l)) = l.
Proof. by destruct l. Qed.

Lemma shouldLog_iff c lvl : shouldLog c lvl = true <->
  log_level_value (log_level c) <= log_level_value lvl /\ log_is_quiet c = false /\
  is_Some (log_fn c).
Proof.
  unfold shouldLog. rewrite !andb_true_iff, Z.leb_le, negb_true_iff, bool_decide_eq_true.
  rewrite <- not_eq_None_Some. tauto.
Qed.
