(* ===== verification/World.v ===== *)
(** The state of the controller process: the objects of controller.h, node.h,
    job.h, monitor.h and proxy_monitor.h in stores indexed by their addresses,
    and the calls the code makes into sd-bus and the C library.

    A pointer is a [positive]; [free] removes the object from its store, so that
    a later access through the pointer crashes. Addresses are not reused. The
    intrusive lists are lists of addresses (LinkedList.v justifies this). *)
From S2P Require Import Prelude CString StringUtil Protocol Log TimeUtil.

Abbreviation ptr := positive.
Abbreviation void := Datatypes.unit.

(** ** Values and calls *)

(** A value appended to a D-Bus message; [VCopy m] stands for what
    [sd_bus_message_copy] takes over from the message [m]. *)
Inductive value :=
| VString (s : string)
| VObject (s : string)
| VUint (n : Z)
| VUint64 (n : Z)
| VBool (b : bool)
| VCopy (m : ptr).

(** The calls whose effect is outside the process, in the order they are made.
    [Api*] goes to the public bus, [Agent*] to the connection [bus] of an
    agent; a reply names the message it answers. *)
Inductive call :=
| ApiAddVtable (path iface : string)
| ApiEmitSignal (path iface member : string) (args : list value)
| ApiPropertiesChanged (path iface property : string)
| ApiSendTo (dest path iface member : string) (args : list value)
| ApiRequestName (name : string)
| ApiAddFilter
| ApiMatchSignal (member : string)
| AgentAddVtable (bus : ptr)
| AgentMatchSignal (bus : ptr) (member : string)
| AgentSend (bus : ptr) (method : string) (arg : option string)
| AgentCallAsync (bus : ptr) (method : string) (args : list value) (req : ptr)
| AgentCallSync (bus : ptr) (method : string) (args : list value)
| AgentEmitSignal (bus : ptr) (member : string)
| ProxyCallAsync (bus : ptr) (path method : string) (args : list value) (monitor : ptr)
| ReplyReturn (m : ptr) (args : list value)
| ReplyError (m : ptr) (name : string).

(** A message read by a handler: the error of [sd_bus_message_read], or the
    values read. *)
Inductive read (A : Type) :=
| ReadErr (r : Z)
| ReadOk (a : A).
Arguments ReadErr {A} r.
Arguments ReadOk {A} a.

(** The answer to a method call: an error, or the message to copy from. *)
Inductive response :=
| MethodError (name : string)
| MethodReturn (m : ptr).

(** ** Objects *)

(** The [monitor] field of a subscription with its handler functions. *)
Inductive sub_target :=
| NoMonitor
| OfMonitor (p : ptr)
| OfProxyMonitor (p : ptr).
#[export] Instance sub_target_eq_dec : EqDecision sub_target.
Proof. solve_decision. Defined.

Record Subscription := mkSubscription {
  sub_ref_count : Z;
  sub_id : Z;
  sub_monitor : sub_target;
  sub_node : string;
  sub_units : list string;
}.
#[export] Instance eta_Subscription : EtaRecord Subscription := fun s =>
  mkSubscription (sub_ref_count s) (sub_id s) (sub_monitor s) (sub_node s) (sub_units s).

Record MonitorPeer := mkMonitorPeer { peer_id : Z; peer_name : string }.

Record Monitor := mkMonitor {
  mon_ref_count : Z;
  mon_id : Z;
  mon_owner : string;
  mon_peers : list MonitorPeer;
  mon_export_slot : bool;
  mon_object_path : string;
  mon_subscriptions : list ptr;
}.
#[export] Instance eta_Monitor : EtaRecord Monitor := fun m =>
  mkMonitor (mon_ref_count m) (mon_id m) (mon_owner m) (mon_peers m) (mon_export_slot m)
    (mon_object_path m) (mon_subscriptions m).

Record ProxyMonitor := mkProxyMonitor {
  pm_ref_count : Z;
  pm_node : ptr;
  pm_subscription : option ptr;
  pm_added_dep : bool;
  pm_unit_name : string;
  pm_target_node : option ptr;
  pm_proxy_object_path : string;
}.
#[export] Instance eta_ProxyMonitor : EtaRecord ProxyMonitor := fun m =>
  mkProxyMonitor (pm_ref_count m) (pm_node m) (pm_subscription m) (pm_added_dep m)
    (pm_unit_name m) (pm_target_node m) (pm_proxy_object_path m).

Record Job := mkJob {
  job_ref_count : Z;
  job_node : ptr;
  job_state : JobState;
  job_id : Z;
  job_object_path : string;
  job_type : string;
  job_unit : string;
  job_export_slot : bool;
  job_start_micros : Z;
  job_end_micros : Z;
}.
#[export] Instance eta_Job : EtaRecord Job := fun j =>
  mkJob (job_ref_count j) (job_node j) (job_state j) (job_id j) (job_object_path j)
    (job_type j) (job_unit j) (job_export_slot j) (job_start_micros j) (job_end_micros j).

Record UnitSubscriptions := mkUnitSubscriptions {
  us_unit : string;
  us_subs : list ptr;
  us_loaded : bool;
  us_active_state : UnitActiveState;
  us_substate : option string;
}.
#[export] Instance eta_UnitSubscriptions : EtaRecord UnitSubscriptions := fun u =>
  mkUnitSubscriptions (us_unit u) (us_subs u) (us_loaded u) (us_active_state u) (us_substate u).

Record ProxyDependency := mkProxyDependency { dep_unit_name : string; dep_n_deps : Z }.

Record Node := mkNode {
  node_ref_count : Z;
  node_export_slot : bool;
  node_agent_bus : option ptr;
  node_internal_controller_slot : bool;
  node_disconnect_slot : bool;
  node_metrics_matching_slot : bool;
  node_name : option string;
  node_required_selinux_context : option string;
  node_object_path : option string;
  node_peer_ip : option string;
  node_peer_selinux_context : option string;
  node_outstanding_requests : list ptr;
  node_proxy_monitors : list ptr;
  node_proxy_dependencies : list ProxyDependency;
  node_allowed_proxy_targets : list string;
  node_unit_subscriptions : gmap string UnitSubscriptions;
  node_last_seen : Z;
  node_last_seen_monotonic : Z;
  node_is_shutdown : bool;
}.
#[export] Instance eta_Node : EtaRecord Node := fun n =>
  mkNode (node_ref_count n) (node_export_slot n) (node_agent_bus n)
    (node_internal_controller_slot n) (node_disconnect_slot n) (node_metrics_matching_slot n)
    (node_name n) (node_required_selinux_context n) (node_object_path n) (node_peer_ip n)
    (node_peer_selinux_context n) (node_outstanding_requests n) (node_proxy_monitors n)
    (node_proxy_dependencies n) (node_allowed_proxy_targets n) (node_unit_subscriptions n)
    (node_last_seen n) (node_last_seen_monotonic n) (node_is_shutdown n).

(** The callback of an agent request together with its [userdata]. *)
Inductive agent_callback :=
| method_list_units_callback (request_message : ptr)
| method_list_unit_files_callback (request_message : ptr)
| node_method_set_unit_properties_callback (request_message : ptr)
| node_method_passthrough_to_agent_callback (request_message : ptr)
| job_cancel_callback (request_message : ptr)
| unit_lifecycle_method_callback (setup : ptr)
| agent_fleet_request_callback (fleet : ptr).

Record AgentRequest := mkAgentRequest {
  req_ref_count : Z;
  req_node : ptr;
  req_slot : bool;
  req_method : string;
  req_args : list value;
  req_cb : agent_callback;
  req_is_cancelled : bool;
}.
#[export] Instance eta_AgentRequest : EtaRecord AgentRequest := fun r =>
  mkAgentRequest (req_ref_count r) (req_node r) (req_slot r) (req_method r) (req_args r)
    (req_cb r) (req_is_cancelled r).

Record JobSetup := mkJobSetup {
  setup_ref_count : Z;
  setup_request_message : ptr;
  setup_job : option ptr;
}.
#[export] Instance eta_JobSetup : EtaRecord JobSetup := fun s =>
  mkJobSetup (setup_ref_count s) (setup_request_message s) (setup_job s).

Record sub_req := mkSubReq {
  sr_node : ptr;
  sr_m : option response;
  sr_agent_req : ptr;
}.
#[export] Instance eta_sub_req : EtaRecord sub_req := fun s =>
  mkSubReq (sr_node s) (sr_m s) (sr_agent_req s).

(** The two encoders a fleet request is started with. *)
Inductive fleet_encoder := EncodeListUnits | EncodeListUnitFiles.

(** [fl_capacity] is the length of the array; [fl_sub_req] its used part, of
    length [n_sub_req]. *)
Record AgentFleetRequest := mkAgentFleetRequest {
  fl_request_message : ptr;
  fl_encode : fleet_encoder;
  fl_n_done : Z;
  fl_capacity : Z;
  fl_sub_req : list sub_req;
}.
#[export] Instance eta_AgentFleetRequest : EtaRecord AgentFleetRequest := fun f =>
  mkAgentFleetRequest (fl_request_message f) (fl_encode f) (fl_n_done f) (fl_capacity f)
    (fl_sub_req f).

Record Controller := mkController {
  c_ref_count : Z;
  c_metrics_enabled : bool;
  c_metrics_slot : bool;
  c_heartbeat_interval_msec : Z;
  c_heartbeat_threshold_msec : Z;
  c_number_of_nodes : Z;
  c_number_of_nodes_online : Z;
  c_nodes : list ptr;
  c_anonymous_nodes : list ptr;
  c_jobs : list ptr;
  c_monitors : list ptr;
  c_all_subscriptions : list ptr;
}.
#[export] Instance eta_Controller : EtaRecord Controller := fun c =>
  mkController (c_ref_count c) (c_metrics_enabled c) (c_metrics_slot c)
    (c_heartbeat_interval_msec c)
    (c_heartbeat_threshold_msec c) (c_number_of_nodes c) (c_number_of_nodes_online c)
    (c_nodes c) (c_anonymous_nodes c) (c_jobs c) (c_monitors c) (c_all_subscriptions c).

(** ** The process *)

Record World := mkWorld {
  w_nodes : gmap ptr Node;
  w_jobs : gmap ptr Job;
  w_monitors : gmap ptr Monitor;
  w_subs : gmap ptr Subscription;
  w_proxies : gmap ptr ProxyMonitor;
  w_reqs : gmap ptr AgentRequest;
  w_setups : gmap ptr JobSetup;
  w_fleets : gmap ptr AgentFleetRequest;
  w_controller : Controller;
  w_log : BcLogConfig;
  w_next_ptr : ptr;
  w_next_job_id : Z;          (* static counters of the *_new functions *)
  w_next_sub_id : Z;
  w_next_monitor_id : Z;
  w_next_peer_id : Z;
  w_locals : nat;             (* allocations and message constructions so far *)
  w_clocks : nat;             (* clock readings so far *)
  w_trace : list call;        (* calls so far, oldest first *)
}.
#[export] Instance eta_World : EtaRecord World := fun w =>
  mkWorld (w_nodes w) (w_jobs w) (w_monitors w) (w_subs w) (w_proxies w) (w_reqs w)
    (w_setups w) (w_fleets w) (w_controller w) (w_log w) (w_next_ptr w) (w_next_job_id w)
    (w_next_sub_id w) (w_next_monitor_id w) (w_next_peer_id w) (w_locals w) (w_clocks w)
    (w_trace w).

(** What the code cannot decide itself: results of the allocator, of sd-bus,
    the clocks, the peer of a connection, the values and array lengths in received
    messages, the iteration order of a hash map and what survives in a hash set
    whose hash and comparison disagree. The [k]-th
    call of a kind has its own result, so every sequence of successes and
    failures is covered. *)
Class Env := {
  local_result : nat -> Z;
  bus_result : nat -> call -> Z;
  clock_realtime : nat -> option timespec;
  clock_monotonic : nat -> option timespec;
  use_selinux : bool;
  peer_ip_address : ptr -> Z * option string;
  peer_context : ptr -> option string;
  hashmap_order : gmap string UnitSubscriptions -> list string;
  subset_set : (ptr -> sub_target) -> list ptr -> ptr -> list ptr;
  sync_uint64 : nat -> Z;
  array_length : ptr -> nat;
}.

(** The documented behaviour of hashmap.c: an iteration visits every entry
    once; [hashmap_set] adds its item and may at most replace items that
    compare equal to it. *)
Class EnvLaws (E : Env) := {
  hashmap_order_perm : forall m, hashmap_order m ≡ₚ (map_to_list m).*1;
  subset_set_new : forall f l x, x ∈ subset_set f l x;
  subset_set_old : forall f l x y, y ∈ subset_set f l x -> y = x \/ y ∈ l;
  subset_set_keep : forall f l x y, y ∈ l -> y ∈ subset_set f l x \/ f y = f x;
  subset_set_nodup : forall f l x, NoDup l -> NoDup (subset_set f l x);
}.

(** ** Stores *)

Class Store (T : Type) := {
  store_get : World -> gmap ptr T;
  store_upd : (gmap ptr T -> gmap ptr T) -> World -> World;
}.

#[export] Instance store_Node : Store Node :=
  {| store_get := w_nodes; store_upd := fun f w => w <| w_nodes ::= f |> |}.
#[export] Instance store_Job : Store Job :=
  {| store_get := w_jobs; store_upd := fun f w => w <| w_jobs ::= f |> |}.
#[export] Instance store_Monitor : Store Monitor :=
  {| store_get := w_monitors; store_upd := fun f w => w <| w_monitors ::= f |> |}.
#[export] Instance store_Subscription : Store Subscription :=
  {| store_get := w_subs; store_upd := fun f w => w <| w_subs ::= f |> |}.
#[export] Instance store_ProxyMonitor : Store ProxyMonitor :=
  {| store_get := w_proxies; store_upd := fun f w => w <| w_proxies ::= f |> |}.
#[export] Instance store_AgentRequest : Store AgentRequest :=
  {| store_get := w_reqs; store_upd := fun f w => w <| w_reqs ::= f |> |}.
#[export] Instance store_JobSetup : Store JobSetup :=
  {| store_get := w_setups; store_upd := fun f w => w <| w_setups ::= f |> |}.
#[export] Instance store_AgentFleetRequest : Store AgentFleetRequest :=
  {| store_get := w_fleets; store_upd := fun f w => w <| w_fleets ::= f |> |}.

Definition CM (A : Type) : Type := M World A.

(** Read through a pointer, assign through it, allocate, [free]. *)
Definition load {T} `{Store T} (p : ptr) : CM T := deref (fun w => store_get w !! p).
Definition update {T} `{Store T} (p : ptr) (f : T -> T) : CM void :=
  x ← load p; modify (store_upd <[p := f x]>).
Definition new_object {T} `{Store T} (x : T) : CM ptr := fun w =>
  let p := w_next_ptr w in
  Ret p (store_upd <[p := x]> (w <| w_next_ptr ::= Pos.succ |>)).
Definition free {T} `{Store T} (p : ptr) : CM void :=
  _x ← load (T := T) p; modify (store_upd (T := T) (delete p)).

Definition controller : CM Controller := gets w_controller.
Definition upd_controller (f : Controller -> Controller) : CM void :=
  modify (fun w => w <| w_controller ::= f |>).

(** [LIST_REMOVE] asserts that an item without predecessor is the head. *)
Fixpoint remove_first (x : ptr) (l : list ptr) : list ptr :=
  match l with
  | [] => []
  | y :: l' => if decide (x = y) then l' else y :: remove_first x l'
  end.
Definition list_remove_from (x : ptr) (l : list ptr) : CM (list ptr) :=
  c_assert (bool_decide (x ∈ l)) ;; mret (remove_first x l).

Section calls.
Context {E : Env}.

(** An allocation, [strdup], [asprintf] or the construction of a message. *)
Definition local : CM Z := fun w =>
  Ret (local_result (w_locals w)) (w <| w_locals ::= S |>).
Definition local_ok : CM bool := r ← local; mret (negb (r <? 0)).

(** A call that leaves the process. *)
Definition bus (c : call) : CM Z := fun w =>
  Ret (bus_result (Datatypes.length (w_trace w)) c) (w <| w_trace ::= fun t => app t [c] |>).

Definition get_time_micros : CM Z := fun w =>
  match clock_realtime (w_clocks w) with
  | Some ts => Ret (timespec_to_micros ts) (w <| w_clocks ::= S |>)
  | None => Crash AssertionFailure
  end.
Definition get_time_micros_monotonic : CM Z := fun w =>
  match clock_monotonic (w_clocks w) with
  | Some ts => Ret (timespec_to_micros ts) (w <| w_clocks ::= S |>)
  | None => Crash AssertionFailure
  end.

(** A [uint32_t] counter, pre-incremented. *)
Definition next_u32 (n : Z) : Z := (n + 1) mod 2 ^ 32.
End calls.

(** D-Bus error names of sd-bus. *)
Definition SD_BUS_ERROR_FAILED : string := "org.freedesktop.DBus.Error.Failed".
Definition SD_BUS_ERROR_INVALID_ARGS : string := "org.freedesktop.DBus.Error.InvalidArgs".
Definition SD_BUS_ERROR_NO_MEMORY : string := "org.freedesktop.DBus.Error.NoMemory".
Definition SD_BUS_ERROR_ADDRESS_IN_USE : string := "org.freedesktop.DBus.Error.AddressInUse".
Definition SD_BUS_ERROR_SERVICE_UNKNOWN : string := "org.freedesktop.DBus.Error.ServiceUnknown".
Definition SD_BUS_ERROR_ACCESS_DENIED : string := "org.freedesktop.DBus.Error.AccessDenied".
Definition SD_BUS_ERROR_INCONSISTENT_MESSAGE : string :=
  "org.freedesktop.DBus.Error.InconsistentMessage".

Definition CONTROLLER_INTERFACE : string := "org.eclipse.bluechi.Controller".
Definition NODE_INTERFACE : string := "org.eclipse.bluechi.Node".
Definition JOB_INTERFACE : string := "org.eclipse.bluechi.Job".
Definition MONITOR_INTERFACE : string := "org.eclipse.bluechi.Monitor".
Definition METRICS_INTERFACE : string := "org.eclipse.bluechi.Metrics".
Definition METRICS_OBJECT_PATH : string := BC_OBJECT_PATH ++ "/metrics".
Definition BC_CONTROLLER_OBJECT_PATH : string := BC_OBJECT_PATH.
