(* ===== verification/Job.v ===== *)
(** controller/job.c, controller/metrics.c and the job functions of
    controller/controller.c and controller/node.c: jobs from their creation to
    the signal that announces their end. *)
From S2P Require Import Prelude CString StringUtil ParseUtil TimeUtil Protocol Log World.

Section job.
Context {E : Env}.

(** A "s" argument; sd-bus appends a NULL string as the empty string. *)
Definition str_arg (s : option string) : value := VString (default "" s).

(** ** job.c *)

Definition job_ref (p : ptr) : CM ptr :=
  update p (fun j : Job => j <| job_ref_count ::= Z.succ |>) ;; mret p.

Definition job_unref (p : ptr) : CM void :=
  update p (fun j : Job => j <| job_ref_count ::= Z.pred |>) ;;
  j ← load (T := Job) p;
  if negb (job_ref_count j =? 0) then mret tt else free (T := Job) p.

Definition job_new (node : ptr) (unit type : string) : CM (option ptr) :=
  ok ← local_ok;
  if negb ok then mret None else
  modify (fun w => w <| w_next_job_id ::= next_u32 |>) ;;
  id ← gets w_next_job_id;
  p ← new_object (mkJob 1 node JOB_WAITING id "" "" "" false 0 0);
  ok ← local_ok;
  if negb ok then job_unref p ;; mret None else
  update p (fun j : Job => j <| job_type := type |>) ;;
  ok ← local_ok;
  if negb ok then job_unref p ;; mret None else
  update p (fun j : Job => j <| job_unit := unit |>) ;;
  ok ← local_ok;
  if negb ok then job_unref p ;; mret None else
  update p (fun j : Job =>
    j <| job_object_path := JOB_OBJECT_PATH_PREFIX ++ "/" ++ fmt_u id |>) ;;
  update p (fun j : Job => j <| job_start_micros := 0 |> <| job_end_micros := 0 |>) ;;
  mret (Some p).

Definition job_export (p : ptr) : CM bool :=
  j ← load (T := Job) p;
  _n ← load (T := Node) (job_node j);
  r ← bus (ApiAddVtable (job_object_path j) JOB_INTERFACE);
  if r <? 0 then mret false
  else update p (fun j : Job => j <| job_export_slot := true |>) ;; mret true.

Definition job_set_state (p : ptr) (state : JobState) : CM void :=
  j ← load (T := Job) p;
  _n ← load (T := Node) (job_node j);
  update p (fun j : Job => j <| job_state := state |>) ;;
  _r ← bus (ApiPropertiesChanged (job_object_path j) JOB_INTERFACE "State");
  mret tt.

(** The values the property getters append to their reply. *)
Definition job_property_get_nodename (p : ptr) : CM value :=
  j ← load (T := Job) p; n ← load (T := Node) (job_node j); mret (str_arg (node_name n)).
Definition job_property_get_state (p : ptr) : CM value :=
  j ← load (T := Job) p; mret (VString (job_state_to_string (job_state j))).

(** ** Agent calls used for metrics (node.c) *)

(** A message sent to the agent with no reply expected. On a node without
    agent the message cannot be created. *)
Definition send_agent_simple_message (p : ptr) (method : string) (arg : option string) : CM Z :=
  n ← load (T := Node) p;
  match node_agent_bus n with
  | None => mret (- EINVAL)
  | Some b =>
      r ← local;
      if r <? 0 then mret r else
      r ← match arg with Some _ => local | None => mret 0 end;
      if r <? 0 then mret r else
      bus (AgentSend b method arg)
  end.

(** The result and [*value]. *)
Definition node_method_get_unit_uint64_property_sync (p : ptr) (unit property : string) :
    CM (Z * Z) :=
  n ← load (T := Node) p;
  match node_agent_bus n with
  | None => mret (- EINVAL, 0)
  | Some b =>
      k ← gets (fun w => Datatypes.length (w_trace w));
      r ← bus (AgentCallSync b "GetUnitProperty"
                 [VString unit; VString "org.freedesktop.systemd1.Unit"; VString property]);
      if r <? 0 then mret (r, 0) else
      r ← local;
      if r <? 0 then mret (r, 0) else
      r ← local;
      if r <? 0 then mret (r, 0) else
      r ← local;
      if r <? 0 then mret (r, sync_uint64 k) else mret (0, sync_uint64 k)
  end.

(** ** metrics.c *)

Definition metrics_export : CM Z :=
  r ← bus (ApiAddVtable METRICS_OBJECT_PATH METRICS_INTERFACE);
  if r <? 0 then mret r
  else upd_controller (fun c => c <| c_metrics_slot := true |>) ;; mret 0.

Definition node_metrics_match_agent_job (p : ptr) (m : read (string * string * Z)) : CM Z :=
  match m with
  | ReadErr r => mret r
  | ReadOk (unit, method, systemd_job_time) =>
      n ← load (T := Node) p;
      r ← bus (ApiEmitSignal METRICS_OBJECT_PATH METRICS_INTERFACE "AgentJobMetrics"
                 [str_arg (node_name n); VString unit; VString method;
                  VUint64 systemd_job_time]);
      mret (if r <? 0 then r else 0)
  end.

Definition metrics_node_signal_matching_register (p : ptr) : CM bool :=
  n ← load (T := Node) p;
  match node_agent_bus n with
  | None => mret false
  | Some b =>
      r ← bus (AgentMatchSignal b "AgentJobMetrics");
      if r <? 0 then mret false
      else update p (fun n : Node => n <| node_metrics_matching_slot := true |>) ;; mret true
  end.

Definition metrics_produce_job_report (p : ptr) : CM void :=
  j ← load (T := Job) p;
  a ← node_method_get_unit_uint64_property_sync (job_node j) (job_unit j)
        "InactiveExitTimestampMonotonic";
  if fst a <? 0 then mret tt else
  b ← node_method_get_unit_uint64_property_sync (job_node j) (job_unit j)
        "ActiveEnterTimestampMonotonic";
  if fst b <? 0 then mret tt else
  let unit_net_start_time_micros := u64 (snd b - snd a) in
  let job_measured_time_micros := u64 (job_end_micros j - job_start_micros j) in
  n ← load (T := Node) (job_node j);
  _r ← bus (ApiEmitSignal METRICS_OBJECT_PATH METRICS_INTERFACE "StartUnitJobMetrics"
             [str_arg (node_name n); VString (job_object_path j); VString (job_unit j);
              VUint64 job_measured_time_micros; VUint64 unit_net_start_time_micros]);
  mret tt.

(** ** controller.c *)

Definition controller_add_job (p : ptr) : CM bool :=
  ok ← job_export p;
  if negb ok then mret false else
  j ← load (T := Job) p;
  r ← bus (ApiEmitSignal BC_CONTROLLER_OBJECT_PATH CONTROLLER_INTERFACE "JobNew"
             [VUint (job_id j); VObject (job_object_path j)]);
  if r <? 0 then mret false else
  p ← job_ref p;
  upd_controller (fun c => c <| c_jobs ::= fun l => app l [p] |>) ;;
  mret true.

Definition controller_remove_job (p : ptr) (result : string) : CM void :=
  j ← load (T := Job) p;
  n ← load (T := Node) (job_node j);
  _r ← bus (ApiEmitSignal BC_CONTROLLER_OBJECT_PATH CONTROLLER_INTERFACE "JobRemoved"
             [VUint (job_id j); VObject (job_object_path j); str_arg (node_name n);
              VString (job_unit j); VString result]);
  c ← controller;
  jobs ← list_remove_from p (c_jobs c);
  upd_controller (fun c => c <| c_jobs := jobs |>) ;;
  (if c_metrics_enabled c && streq (job_type j) "start"
   then metrics_produce_job_report p else mret tt) ;;
  job_unref p.

Definition controller_find_job (job_id_ : Z) : CM (option ptr) :=
  c ← controller;
  find_first (c_jobs c) (fun p => j ← load (T := Job) p; mret (job_id j =? job_id_)).

Definition controller_job_state_changed (id : Z) (state : string) : CM void :=
  found ← controller_find_job id;
  match found with
  | Some p => job_set_state p (job_state_from_string state)
  | None => mret tt
  end.

Definition controller_finish_job (id : Z) (result : string) : CM void :=
  found ← controller_find_job id;
  match found with
  | Some p =>
      c ← controller;
      (if c_metrics_enabled c
       then now ← get_time_micros; update p (fun j : Job => j <| job_end_micros := now |>)
       else mret tt) ;;
      controller_remove_job p result
  | None => mret tt
  end.

(** ** The agent's job signals (node.c) *)

Definition node_match_job_state_changed (m : read (Z * string)) : CM Z :=
  match m with
  | ReadErr _ => mret 0
  | ReadOk (bc_job_id, state) => controller_job_state_changed bc_job_id state ;; mret 1
  end.

Definition node_match_job_done (m : read (Z * string)) : CM Z :=
  match m with
  | ReadErr _ => mret 0
  | ReadOk (bc_job_id, result) => controller_finish_job bc_job_id result ;; mret 1
  end.
End job.
