(* ===== verification/Events.v ===== *)
(** The delivery end of unit events: the signal handlers of controller/monitor.c
    and controller/proxy_monitor.c, and the dispatch through the handler
    pointers of a subscription. *)
From S2P Require Import Prelude CString StringUtil Protocol World Job.

Section events.
Context {E : Env}.

(** ** Monitors (monitor.c) *)

(** A signal under construction: its member and arguments, [None] when it
    could not be built. [n] construction steps follow the creation. *)
Fixpoint build_steps (n : nat) : CM bool :=
  match n with
  | O => mret true
  | S n' => ok ← local_ok; if negb ok then mret false else build_steps n'
  end.
Definition assemble_signal (steps : nat) (member : string) (args : list value) :
    CM (option (string * list value)) :=
  ok ← build_steps (S steps);
  mret (if (ok : bool) then Some (member, args) else None).

Definition assemble_unit_new_signal (node : option string) (unit reason : string) :=
  assemble_signal 1 "UnitNew" [str_arg node; VString unit; VString reason].
Definition assemble_unit_removed_signal (node : option string) (unit reason : string) :=
  assemble_signal 1 "UnitRemoved" [str_arg node; VString unit; VString reason].
(** Append, skip, copy, rewind. *)
Definition assemble_unit_property_changed_signal (node : option string)
    (unit interface : string) (m : ptr) :=
  assemble_signal 4 "UnitPropertiesChanged"
    [str_arg node; VString unit; VString interface; VCopy m].
Definition assemble_unit_state_changed_signal (node : option string)
    (unit active_state substate reason : string) :=
  assemble_signal 1 "UnitStateChanged"
    [str_arg node; VString unit; VString active_state; VString substate; VString reason].

Definition monitor_send_to (p : ptr) (dest : string)
    (assemble : CM (option (string * list value))) : CM void :=
  mon ← load (T := Monitor) p;
  sig ← assemble;
  match sig with
  | Some (member, args) =>
      _r ← bus (ApiSendTo dest (mon_object_path mon) MONITOR_INTERFACE member args); mret tt
  | None => mret tt
  end.

(** One signal to the owner, one to each peer, each built afresh. *)
Definition monitor_send_all (p : ptr) (assemble : CM (option (string * list value))) : CM Z :=
  mon ← load (T := Monitor) p;
  monitor_send_to p (mon_owner mon) assemble ;;
  foreach (mon_peers mon) (fun peer => monitor_send_to p (peer_name peer) assemble) ;;
  mret 0.

Definition monitor_on_unit_property_changed (p : ptr) (node : option string)
    (unit interface : string) (m : ptr) : CM Z :=
  monitor_send_all p (assemble_unit_property_changed_signal node unit interface m).
Definition monitor_on_unit_new (p : ptr) (node : option string) (unit reason : string) : CM Z :=
  monitor_send_all p (assemble_unit_new_signal node unit reason).
Definition monitor_on_unit_state_changed (p : ptr) (node : option string)
    (unit active_state substate reason : string) : CM Z :=
  monitor_send_all p (assemble_unit_state_changed_signal node unit active_state substate reason).
Definition monitor_on_unit_removed (p : ptr) (node : option string) (unit reason : string) :
    CM Z :=
  monitor_send_all p (assemble_unit_removed_signal node unit reason).

Definition monitor_emit_peer_removed (p : ptr) (peer : MonitorPeer) (reason : string) :
    CM void :=
  monitor_send_to p (peer_name peer) (assemble_signal 1 "PeerRemoved" [VString reason]).

(** ** Proxy monitors (proxy_monitor.c) *)

Definition proxy_monitor_ref (p : ptr) : CM ptr :=
  update p (fun m : ProxyMonitor => m <| pm_ref_count ::= Z.succ |>) ;; mret p.

(** [sd_bus_call_method_async] to the agent of the monitor's own node, with a
    reference for the reply callback; without a connection it fails. *)
Definition proxy_monitor_call (p : ptr) (method : string) (args : list value) : CM Z :=
  m ← load (T := ProxyMonitor) p;
  n ← load (T := Node) (pm_node m);
  p ← proxy_monitor_ref p;
  match node_agent_bus n with
  | Some b => bus (ProxyCallAsync b (pm_proxy_object_path m) method args p)
  | None => mret (- EINVAL)
  end.

Definition proxy_monitor_send_error (p : ptr) (message : string) : CM void :=
  _r ← proxy_monitor_call p "Error" [VString message]; mret tt.
Definition proxy_monitor_send_state_changed (p : ptr)
    (active_state substate reason : string) : CM Z :=
  proxy_monitor_call p "TargetStateChanged"
    [VString active_state; VString substate; VString reason].
Definition proxy_monitor_send_new (p : ptr) (reason : string) : CM Z :=
  proxy_monitor_call p "TargetNew" [VString reason].
Definition proxy_monitor_send_removed (p : ptr) (reason : string) : CM Z :=
  proxy_monitor_call p "TargetRemoved" [VString reason].

Definition proxy_monitor_on_unit_new (p : ptr) (node : option string) (unit reason : string) :
    CM Z :=
  _r ← proxy_monitor_send_new p reason; mret 0.
Definition proxy_monitor_on_unit_state_changed (p : ptr) (node : option string)
    (unit active_state substate reason : string) : CM Z :=
  _r ← proxy_monitor_send_state_changed p active_state substate reason; mret 0.
Definition proxy_monitor_on_unit_removed (p : ptr) (node : option string)
    (unit reason : string) : CM Z :=
  _r ← proxy_monitor_send_removed p reason; mret 0.
Definition proxy_monitor_on_unit_property_changed (p : ptr) (node : option string)
    (unit interface : string) (m : ptr) : CM Z := mret 0.

(** ** Dispatch through the handlers of a subscription *)

Inductive unit_event :=
| UnitPropertiesChanged (interface : string) (m : ptr)
| UnitNew (reason : string)
| UnitStateChanged (active_state substate reason : string)
| UnitRemoved (reason : string).

Definition sub_handle (p : ptr) (node : option string) (unit : string) (e : unit_event) :
    CM Z :=
  sub ← load (T := Subscription) p;
  match sub_monitor sub, e with
  | OfMonitor mon, UnitPropertiesChanged i m =>
      monitor_on_unit_property_changed mon node unit i m
  | OfMonitor mon, UnitNew r => monitor_on_unit_new mon node unit r
  | OfMonitor mon, UnitStateChanged a s r => monitor_on_unit_state_changed mon node unit a s r
  | OfMonitor mon, UnitRemoved r => monitor_on_unit_removed mon node unit r
  | OfProxyMonitor pm, UnitPropertiesChanged i m =>
      proxy_monitor_on_unit_property_changed pm node unit i m
  | OfProxyMonitor pm, UnitNew r => proxy_monitor_on_unit_new pm node unit r
  | OfProxyMonitor pm, UnitStateChanged a s r =>
      proxy_monitor_on_unit_state_changed pm node unit a s r
  | OfProxyMonitor pm, UnitRemoved r => proxy_monitor_on_unit_removed pm node unit r
  | NoMonitor, _ => crash_with InvalidPointer
  end.
End events.
