(* ===== verification/Subscriptions.v ===== *)
(** Subscriptions: their objects (controller/monitor.c), the per-node registry
    of subscribed units with the cached unit states (controller/node.c) and the
    registration of a subscription with the nodes it covers
    (controller/controller.c). *)
From S2P Require Import Prelude CString StringUtil ParseUtil Protocol Log World Job Events.

Section subscriptions.
Context {E : Env}.

(** ** Subscription objects (monitor.c)

    A subscription of a monitor keeps the monitor alive. *)

Definition monitor_ref (p : ptr) : CM ptr :=
  update p (fun m : Monitor => m <| mon_ref_count ::= Z.succ |>) ;; mret p.

Definition monitor_unref (p : ptr) : CM void :=
  update p (fun m : Monitor => m <| mon_ref_count ::= Z.pred |>) ;;
  m ← load (T := Monitor) p;
  if negb (mon_ref_count m =? 0) then mret tt else free (T := Monitor) p.

Definition subscription_ref (p : ptr) : CM ptr :=
  update p (fun s : Subscription => s <| sub_ref_count ::= Z.succ |>) ;; mret p.

Definition subscription_unref (p : ptr) : CM void :=
  update p (fun s : Subscription => s <| sub_ref_count ::= Z.pred |>) ;;
  s ← load (T := Subscription) p;
  if negb (sub_ref_count s =? 0) then mret tt else
  match sub_monitor s with
  | OfMonitor mon => monitor_unref mon
  | OfProxyMonitor _ | NoMonitor => mret tt
  end ;;
  free (T := Subscription) p.

Definition subscription_new (node : string) : CM (option ptr) :=
  ok ← local_ok;
  if negb ok then mret None else
  modify (fun w => w <| w_next_sub_id ::= next_u32 |>) ;;
  id ← gets w_next_sub_id;
  p ← new_object (mkSubscription 1 id NoMonitor "" []);
  ok ← local_ok;
  if negb ok then subscription_unref p ;; mret None else
  update p (fun s : Subscription => s <| sub_node := node |>) ;;
  mret (Some p).

Definition create_monitor_subscription (monitor : ptr) (node : string) : CM (option ptr) :=
  s ← subscription_new node;
  match s with
  | None => mret None
  | Some p =>
      mon ← monitor_ref monitor;
      update p (fun s : Subscription => s <| sub_monitor := OfMonitor mon |>) ;;
      mret (Some p)
  end.

Definition subscription_add_unit (p : ptr) (unit : string) : CM bool :=
  ok ← local_ok;
  if negb ok then mret false else
  ok ← local_ok;
  if negb ok then mret false else
  update p (fun s : Subscription => s <| sub_units ::= fun l => app l [unit] |>) ;;
  mret true.

Definition subscription_has_node_wildcard (s : Subscription) : bool :=
  streq (sub_node s) SYMBOL_WILDCARD.

(** ** Agents (node.c) *)

Definition node_has_agent (n : Node) : bool := bool_decide (node_agent_bus n <> None).
Definition node_is_online (n : Node) : bool :=
  bool_decide (node_name n <> None) && node_has_agent n.

Definition node_send_agent_subscribe (p : ptr) (unit : string) : CM void :=
  n ← load (T := Node) p;
  if negb (node_has_agent n) then mret tt
  else _r ← send_agent_simple_message p "Subscribe" (Some unit); mret tt.
Definition node_send_agent_unsubscribe (p : ptr) (unit : string) : CM void :=
  n ← load (T := Node) p;
  if negb (node_has_agent n) then mret tt
  else _r ← send_agent_simple_message p "Unsubscribe" (Some unit); mret tt.

(** Resubscribe to all subscriptions. *)
Definition node_send_agent_subscribe_all (p : ptr) : CM void :=
  n ← load (T := Node) p;
  foreach (hashmap_order (node_unit_subscriptions n)) (fun unit =>
    n ← load (T := Node) p;
    match node_unit_subscriptions n !! unit with
    | Some usubs => node_send_agent_subscribe p (us_unit usubs)
    | None => mret tt
    end).

(** ** The registry of a node (node.c) *)

Definition update_usubs (p : ptr) (f : gmap string UnitSubscriptions -> gmap string UnitSubscriptions) :
    CM void :=
  update p (fun n : Node => n <| node_unit_subscriptions ::= f |>).

(** [unit_subscriptions_clear]. *)
Definition unit_subscriptions_clear (usubs : UnitSubscriptions) : CM void :=
  c_assert (bool_decide (us_subs usubs = [])).

(** The virtual events for a unit that is known to be loaded. *)
Definition node_send_virtual_events (p sub : ptr) (unit : string)
    (usubs : UnitSubscriptions) : CM void :=
  if us_loaded usubs then
    n ← load (T := Node) p;
    _r ← sub_handle sub (node_name n) unit (UnitNew "virtual");
    if 0 <=? active_state_value (us_active_state usubs) then
      _r ← sub_handle sub (node_name n) unit
             (UnitStateChanged (active_state_to_string (us_active_state usubs))
                (default "invalid" (us_substate usubs)) "virtual");
      mret tt
    else mret tt
  else mret tt.

(** One round of the loop of [node_subscribe]; [false] when it returns. *)
Definition node_subscribe_unit (p sub : ptr) (unit : string) : CM bool :=
  ok ← local_ok;
  if negb ok then mret false else
  n ← load (T := Node) p;
  go ← match node_unit_subscriptions n !! unit with
       | Some _ => mret true
       | None =>
           ok ← local_ok;                       (* strdup(key.unit) *)
           if negb ok then mret false else
           ok ← local_ok;                       (* hashmap_set, hashmap_oom *)
           if negb ok then mret false else
           update_usubs p
             <[unit := mkUnitSubscriptions unit [] false _UNIT_ACTIVE_STATE_INVALID None]> ;;
           node_send_agent_subscribe p unit ;;
           mret true
       end;
  if negb go then mret false else
  n ← load (T := Node) p;
  match node_unit_subscriptions n !! unit with
  | None => crash_with InvalidPointer
  | Some usubs =>
      update_usubs p <[unit := usubs <| us_subs ::= fun l => app l [sub] |>]> ;;
      node_send_virtual_events p sub unit usubs ;;
      mret true
  end.

Fixpoint node_subscribe_units (p sub : ptr) (units : list string) : CM void :=
  match units with
  | [] => mret tt
  | unit :: units' =>
      go ← node_subscribe_unit p sub unit;
      if negb go then mret tt else node_subscribe_units p sub units'
  end.
Definition node_subscribe (p sub : ptr) : CM void :=
  s ← load (T := Subscription) sub;
  node_subscribe_units p sub (sub_units s).

Definition node_unsubscribe_unit (p sub : ptr) (unit : string) : CM void :=
  n ← load (T := Node) p;
  match node_unit_subscriptions n !! unit with
  | None => mret tt
  | Some usubs =>
      if negb (bool_decide (sub ∈ us_subs usubs)) then mret tt else
      let usubs := usubs <| us_subs ::= remove_first sub |> in
      update_usubs p <[unit := usubs]> ;;
      if bool_decide (us_subs usubs = []) then
        node_send_agent_unsubscribe p unit ;;
        update_usubs p (delete unit) ;;
        unit_subscriptions_clear usubs
      else mret tt
  end.
Definition node_unsubscribe (p sub : ptr) : CM void :=
  s ← load (T := Subscription) sub;
  foreach (sub_units s) (node_unsubscribe_unit p sub).

(** ** Registration with the nodes (controller.c) *)

Definition controller_find_node (name : string) : CM (option ptr) :=
  c ← controller;
  find_first (c_nodes c) (fun p =>
    n ← load (T := Node) p;
    match node_name n with
    | Some s => mret (strcmp s name =? 0)
    | None => crash_with InvalidPointer
    end).

Definition controller_find_node_by_path (path : string) : CM (option ptr) :=
  c ← controller;
  find_first (c_nodes c) (fun p =>
    n ← load (T := Node) p;
    match node_object_path n with
    | Some s => mret (streq s path)
    | None => crash_with InvalidPointer
    end).

Definition controller_add_subscription (sub : ptr) : CM void :=
  sub ← subscription_ref sub;
  upd_controller (fun c => c <| c_all_subscriptions ::= fun l => app l [sub] |>) ;;
  s ← load (T := Subscription) sub;
  if subscription_has_node_wildcard s then
    c ← controller;
    foreach (c_nodes c) (fun node => node_subscribe node sub)
  else
    node ← controller_find_node (sub_node s);
    match node with
    | Some node => node_subscribe node sub
    | None => mret tt
    end.

Definition controller_remove_subscription (sub : ptr) : CM void :=
  s ← load (T := Subscription) sub;
  (if subscription_has_node_wildcard s then
     c ← controller;
     foreach (c_nodes c) (fun node => node_unsubscribe node sub)
   else
     node ← controller_find_node (sub_node s);
     match node with
     | Some node => node_unsubscribe node sub
     | None => mret tt
     end) ;;
  c ← controller;
  subs ← list_remove_from sub (c_all_subscriptions c);
  upd_controller (fun c => c <| c_all_subscriptions := subs |>) ;;
  subscription_unref sub.

(** ** Unit signals of an agent (node.c) *)

(** The [monitor] field read by [subscription_hashmap_compare]. *)
Definition monitor_of (subs : gmap ptr Subscription) (p : ptr) : sub_target :=
  match subs !! p with Some s => sub_monitor s | None => NoMonitor end.

(** [hashmap_set] of each subscription in turn; [None] when memory runs out. *)
Fixpoint collect_subs (unique : list ptr) (subs : list ptr) : CM (option (list ptr)) :=
  match subs with
  | [] => mret (Some unique)
  | sub :: subs' =>
      _s ← load (T := Subscription) sub;
      store ← gets w_subs;
      ok ← local_ok;
      if negb ok then mret None
      else collect_subs (subset_set (monitor_of store) unique sub) subs'
  end.

Definition node_compute_unique_monitor_subscriptions (p : ptr) (unit : string) :
    CM (option (list ptr)) :=
  ok ← local_ok;
  if negb ok then mret None else
  n ← load (T := Node) p;
  u ← match node_unit_subscriptions n !! unit with
      | Some usubs => collect_subs [] (us_subs usubs)
      | None => mret (Some [])
      end;
  match u with
  | None => mret None
  | Some unique_subs =>
      if negb (streq unit SYMBOL_WILDCARD) then
        match node_unit_subscriptions n !! SYMBOL_WILDCARD with
        | Some usubs_wildcard => collect_subs unique_subs (us_subs usubs_wildcard)
        | None => mret (Some unique_subs)
        end
      else mret (Some unique_subs)
  end.

(** Deliver an event to the unique subscriptions of the unit. *)
Definition node_deliver (p : ptr) (unit : string) (e : unit_event) : CM void :=
  unique ← node_compute_unique_monitor_subscriptions p unit;
  match unique with
  | None => mret tt
  | Some unique =>
      foreach unique (fun sub =>
        n ← load (T := Node) p;
        _r ← sub_handle sub (node_name n) unit e; mret tt)
  end.

(** Change the cached state of a unit, if it is subscribed to. *)
Definition node_cache (p : ptr) (unit : string)
    (f : UnitSubscriptions -> UnitSubscriptions) : CM void :=
  n ← load (T := Node) p;
  match node_unit_subscriptions n !! unit with
  | Some usubs => update_usubs p <[unit := f usubs]>
  | None => mret tt
  end.

(** [usubs->substate = strdup(s)]. *)
Definition strdup (s : string) : CM (option string) :=
  ok ← local_ok; mret (if (ok : bool) then Some s else None).

Definition node_match_unit_properties_changed (p : ptr) (m : ptr)
    (args : read (string * string)) : CM Z :=
  match args with
  | ReadErr _ => mret 0
  | ReadOk (unit, interface) =>
      rewound ← local_ok;
      if negb rewound then mret 0 else
      node_deliver p unit (UnitPropertiesChanged interface m) ;;
      mret 1
  end.

Definition node_match_unit_new (p : ptr) (args : read (string * string)) : CM Z :=
  match args with
  | ReadErr _ => mret 0
  | ReadOk (unit, reason) =>
      n ← load (T := Node) p;
      match node_unit_subscriptions n !! unit with
      | Some _ =>
          node_cache p unit (fun u => u <| us_loaded := true |>) ;;
          if is_wildcard unit then
            d ← strdup "running";
            node_cache p unit (fun u => u <| us_active_state := UNIT_ACTIVE |>
                                          <| us_substate := d |>)
          else mret tt
      | None => mret tt
      end ;;
      node_deliver p unit (UnitNew reason) ;;
      mret 1
  end.

Definition node_match_unit_state_changed (p : ptr)
    (args : read (string * string * string * string)) : CM Z :=
  match args with
  | ReadErr _ => mret 0
  | ReadOk (unit, active_state, substate, reason) =>
      n ← load (T := Node) p;
      match node_unit_subscriptions n !! unit with
      | Some _ =>
          d ← strdup substate;
          node_cache p unit (fun u => u <| us_loaded := true |>
                                        <| us_active_state := active_state_from_string active_state |>
                                        <| us_substate := d |>)
      | None => mret tt
      end ;;
      node_deliver p unit (UnitStateChanged active_state substate reason) ;;
      mret 1
  end.

Definition node_match_unit_removed (p : ptr) (args : read string) : CM Z :=
  match args with
  | ReadErr _ => mret 0
  | ReadOk unit =>
      node_cache p unit (fun u => u <| us_loaded := false |>) ;;
      node_deliver p unit (UnitRemoved "real") ;;
      mret 1
  end.

(** ** Losing an agent (the first part of [node_disconnect]) *)

(** One round of the loop over the registry. *)
Definition node_disconnect_unit (p : ptr) (key : string) : CM void :=
  n ← load (T := Node) p;
  match node_unit_subscriptions n !! key with
  | None => mret tt
  | Some usubs =>
      if negb (us_loaded usubs) then mret tt else
      let send_state_change :=
        (0 <=? active_state_value (us_active_state usubs)) &&
        negb (bool_decide (us_active_state usubs = UNIT_INACTIVE)) in
      (if send_state_change then
         d ← strdup "agent-offline";
         node_cache p key (fun u => u <| us_active_state := UNIT_INACTIVE |> <| us_substate := d |>)
       else mret tt) ;;
      node_cache p key (fun u => u <| us_loaded := false |>) ;;
      (if send_state_change then
         n ← load (T := Node) p;
         match node_unit_subscriptions n !! key with
         | None => crash_with InvalidPointer
         | Some usubs =>
             node_deliver p (us_unit usubs)
               (UnitStateChanged (active_state_to_string (us_active_state usubs))
                  (default "" (us_substate usubs)) "virtual")
         end
       else mret tt) ;;
      node_deliver p (us_unit usubs) (UnitRemoved "virtual")
  end.

Definition node_disconnect_units (p : ptr) : CM void :=
  n ← load (T := Node) p;
  foreach (hashmap_order (node_unit_subscriptions n)) (node_disconnect_unit p).
End subscriptions.
