(* ===== verification/Monitor.v ===== *)
(** controller/monitor.c: the methods of the Monitor interface, and the part of
    controller/controller.c that creates monitors and drops those of a client
    that left the bus. *)
From S2P Require Import Prelude CString StringUtil ParseUtil Protocol BusUtils Log World Job.
From S2P Require Import Events Subscriptions.

Section monitor.
Context {E : Env}.

Definition reply_method_return (m : ptr) (args : list value) : CM Z := bus (ReplyReturn m args).
Definition reply_method_errorf (m : ptr) (name : string) : CM Z := bus (ReplyError m name).

Definition monitor_new (owner : string) : CM (option ptr) :=
  ok ← local_ok;
  if negb ok then mret None else
  modify (fun w => w <| w_next_monitor_id ::= next_u32 |>) ;;
  id ← gets w_next_monitor_id;
  p ← new_object (mkMonitor 1 id "" [] false "" []);
  ok ← local_ok;
  if negb ok then monitor_unref p ;; mret None else
  update p (fun m : Monitor => m <| mon_owner := owner |>) ;;
  ok ← local_ok;
  if negb ok then monitor_unref p ;; mret None else
  update p (fun m : Monitor =>
    m <| mon_object_path := MONITOR_OBJECT_PATH_PREFIX ++ "/" ++ fmt_u id |>) ;;
  mret (Some p).

Definition monitor_export (p : ptr) : CM bool :=
  m ← load (T := Monitor) p;
  r ← bus (ApiAddVtable (mon_object_path m) MONITOR_INTERFACE);
  if r <? 0 then mret false
  else update p (fun m : Monitor => m <| mon_export_slot := true |>) ;; mret true.

Definition update_mon_subs (p : ptr) (l : list ptr) : CM void :=
  update p (fun m : Monitor => m <| mon_subscriptions := l |>).

(** One round of the first loop of [monitor_close], also the tail of
    [monitor_method_unsubscribe]. *)
Definition monitor_drop_subscription (p sub : ptr) : CM void :=
  controller_remove_subscription sub ;;
  m ← load (T := Monitor) p;
  l ← list_remove_from sub (mon_subscriptions m);
  update_mon_subs p l ;;
  subscription_unref sub.

Definition monitor_close (p : ptr) : CM void :=
  m ← load (T := Monitor) p;
  foreach (mon_subscriptions m) (monitor_drop_subscription p) ;;
  m ← load (T := Monitor) p;
  foreach (mon_peers m) (fun peer =>
    monitor_emit_peer_removed p peer "monitor closed" ;;
    update p (fun m : Monitor => m <| mon_peers ::= drop 1 |>)) ;;
  update p (fun m : Monitor => m <| mon_export_slot := false |>).

Definition controller_remove_monitor (p : ptr) : CM void :=
  c ← controller;
  l ← list_remove_from p (c_monitors c);
  upd_controller (fun c => c <| c_monitors := l |>) ;;
  monitor_unref p.

Definition monitor_method_close (m monitor : ptr) : CM Z :=
  monitor ← monitor_ref monitor;
  mon ← load (T := Monitor) monitor;
  r ← (if negb (mon_export_slot mon) then reply_method_errorf m SD_BUS_ERROR_FAILED
       else
         monitor_close monitor ;;
         controller_remove_monitor monitor ;;
         reply_method_return m []);
  monitor_unref monitor ;;
  mret r.

(** The common end of the two subscribe methods. *)
Definition monitor_add_subscription (m monitor sub : ptr) : CM Z :=
  sub ← subscription_ref sub;
  mon ← load (T := Monitor) monitor;
  update_mon_subs monitor (app (mon_subscriptions mon) [sub]) ;;
  controller_add_subscription sub ;;
  s ← load (T := Subscription) sub;
  reply_method_return m [VUint (sub_id s)].

Definition monitor_method_subscribe (m : ptr) (args : read (string * string))
    (monitor : ptr) : CM Z :=
  match args with
  | ReadErr _ => reply_method_errorf m SD_BUS_ERROR_INVALID_ARGS
  | ReadOk (node, unit) =>
      sub ← create_monitor_subscription monitor node;
      match sub with
      | None => reply_method_errorf m SD_BUS_ERROR_FAILED
      | Some sub =>
          added ← subscription_add_unit sub unit;
          r ← (if negb added then reply_method_errorf m SD_BUS_ERROR_FAILED
               else monitor_add_subscription m monitor sub);
          subscription_unref sub ;;                       (* _cleanup_subscription_ *)
          mret r
      end
  end.

(** The loop over the array; [Some r] is an early return. *)
Fixpoint subscribe_list_units (m sub : ptr) (units : list (read string)) : CM (option Z) :=
  match units with
  | [] => mret None
  | ReadErr _ :: _ => r ← reply_method_errorf m SD_BUS_ERROR_INVALID_ARGS; mret (Some r)
  | ReadOk unit :: units' =>
      added ← subscription_add_unit sub unit;
      if negb added then r ← reply_method_errorf m SD_BUS_ERROR_FAILED; mret (Some r)
      else subscribe_list_units m sub units'
  end.

Definition monitor_method_subscribe_list (m : ptr) (node : read string)
    (units : list (read string)) (monitor : ptr) : CM Z :=
  match node with
  | ReadErr _ => reply_method_errorf m SD_BUS_ERROR_INVALID_ARGS
  | ReadOk node =>
      sub ← create_monitor_subscription monitor node;
      match sub with
      | None => reply_method_errorf m SD_BUS_ERROR_FAILED
      | Some sub =>
          entered ← local_ok;
          r ← (if negb entered then reply_method_errorf m SD_BUS_ERROR_INVALID_ARGS else
               stop ← subscribe_list_units m sub units;
               match stop with
               | Some r => mret r
               | None =>
                   exited ← local_ok;
                   if negb exited then reply_method_errorf m SD_BUS_ERROR_FAILED
                   else monitor_add_subscription m monitor sub
               end);
          subscription_unref sub ;;
          mret r
      end
  end.

Definition monitor_find_subscription (monitor : ptr) (id : Z) : CM (option ptr) :=
  mon ← load (T := Monitor) monitor;
  find_first (mon_subscriptions mon) (fun sub =>
    s ← load (T := Subscription) sub; mret (sub_id s =? id)).

Definition monitor_method_unsubscribe (m : ptr) (args : read Z) (monitor : ptr) : CM Z :=
  match args with
  | ReadErr _ => reply_method_errorf m SD_BUS_ERROR_INVALID_ARGS
  | ReadOk id =>
      sub ← monitor_find_subscription monitor id;
      match sub with
      | None => reply_method_errorf m SD_BUS_ERROR_FAILED
      | Some sub => monitor_drop_subscription monitor sub ;; reply_method_return m []
      end
  end.

Definition monitor_add_peer (monitor : ptr) (peer_name_ : string) :
    CM (option MonitorPeer) :=
  ok ← local_ok;
  if negb ok then mret None else
  ok ← local_ok;
  if negb ok then mret None else
  modify (fun w => w <| w_next_peer_id ::= next_u32 |>) ;;
  id ← gets w_next_peer_id;
  let peer := mkMonitorPeer id peer_name_ in
  update monitor (fun m : Monitor => m <| mon_peers ::= fun l => app l [peer] |>) ;;
  mret (Some peer).

Definition monitor_has_peer_with_name (mon : Monitor) (name : string) : bool :=
  streq (mon_owner mon) name || existsb (fun peer => streq (peer_name peer) name) (mon_peers mon).

Definition monitor_method_add_peer (m : ptr) (args : read string) (monitor : ptr) : CM Z :=
  match args with
  | ReadErr _ => reply_method_errorf m SD_BUS_ERROR_INVALID_ARGS
  | ReadOk name =>
      if negb (bus_id_is_valid (Some name)) then
        reply_method_errorf m SD_BUS_ERROR_INVALID_ARGS else
      mon ← load (T := Monitor) monitor;
      if monitor_has_peer_with_name mon name then
        reply_method_errorf m SD_BUS_ERROR_INVALID_ARGS else
      peer ← monitor_add_peer monitor name;
      match peer with
      | None => reply_method_errorf m SD_BUS_ERROR_NO_MEMORY
      | Some peer => reply_method_return m [VUint (peer_id peer)]
      end
  end.

Definition monitor_find_peer (mon : Monitor) (id : Z) : option MonitorPeer :=
  List.find (fun peer => peer_id peer =? id) (mon_peers mon).

(** [LIST_REMOVE] of the peer that [monitor_find_peer] returned. *)
Fixpoint remove_peer (id : Z) (l : list MonitorPeer) : list MonitorPeer :=
  match l with
  | [] => []
  | peer :: l' => if peer_id peer =? id then l' else peer :: remove_peer id l'
  end.

Definition monitor_method_remove_peer (m : ptr) (args : read (Z * string)) (monitor : ptr) :
    CM Z :=
  match args with
  | ReadErr _ => reply_method_errorf m SD_BUS_ERROR_INVALID_ARGS
  | ReadOk (id, reason) =>
      mon ← load (T := Monitor) monitor;
      match monitor_find_peer mon id with
      | None => reply_method_errorf m SD_BUS_ERROR_FAILED
      | Some peer =>
          monitor_emit_peer_removed monitor peer reason ;;
          update monitor (fun mon : Monitor => mon <| mon_peers ::= remove_peer id |>) ;;
          reply_method_return m []
      end
  end.

(** ** controller.c *)

(** The error paths reply to [reply], which is NULL or not a method call:
    sd-bus refuses with [-EINVAL]. *)
Definition controller_method_create_monitor (m : ptr) (sender : string) : CM Z :=
  monitor ← monitor_new sender;
  match monitor with
  | None => mret (- EINVAL)
  | Some monitor =>
      exported ← monitor_export monitor;
      r ← (if negb exported then mret (- EINVAL) else
           created ← local_ok;
           if negb created then mret (- EINVAL) else
           appended ← local_ok;
           if negb appended then mret (- EINVAL) else
           mon ← load (T := Monitor) monitor;
           r ← reply_method_return m [VObject (mon_object_path mon)];
           if r <? 0 then mret r else
           monitor ← monitor_ref monitor;
           upd_controller (fun c => c <| c_monitors ::= fun l => app l [monitor] |>) ;;
           mret 1);
      monitor_unref monitor ;;                            (* _cleanup_monitor_ *)
      mret r
  end.

Definition controller_client_disconnected (client_id : string) : CM void :=
  c ← controller;
  foreach (c_monitors c) (fun p =>
    mon ← load (T := Monitor) p;
    if streq (mon_owner mon) client_id then
      monitor_close p ;; controller_remove_monitor p
    else mret tt).

Definition controller_name_owner_changed (args : read (string * string * string)) : CM Z :=
  match args with
  | ReadErr r => mret r
  | ReadOk (name, _, new_owner) =>
      (if match name with String c _ => (c =? ":")%char | "" => false end &&
          (new_owner =? "")%string
       then controller_client_disconnected name else mret tt) ;;
      mret 0
  end.
End monitor.
