(* ===== verification/Proxy.v ===== *)
(** Proxy services: the proxy monitors of controller/proxy_monitor.c, the proxy
    dependencies of controller/node.c and, because dropping the last proxy
    monitor may release another node, the release of nodes. *)
From S2P Require Import Prelude CString StringUtil Protocol Log World Job Events Subscriptions.

Section proxy.
Context {E : Env}.

Definition NODE_PROPERTY_STATUS : string := "Status".

(** ** Proxy dependencies of a node (node.c) *)

Definition node_start_proxy_dependency (p : ptr) (dep : ProxyDependency) : CM void :=
  n ← load (T := Node) p;
  if negb (node_has_agent n) then mret tt
  else _r ← send_agent_simple_message p "StartDep" (Some (dep_unit_name dep)); mret tt.

Definition node_start_proxy_dependency_all (p : ptr) : CM void :=
  n ← load (T := Node) p;
  foreach (node_proxy_dependencies n) (node_start_proxy_dependency p).

Definition node_stop_proxy_dependency (p : ptr) (dep : ProxyDependency) : CM void :=
  n ← load (T := Node) p;
  if negb (node_has_agent n) then mret tt
  else _r ← send_agent_simple_message p "StopDep" (Some (dep_unit_name dep)); mret tt.

Definition node_find_proxy_dependency (n : Node) (unit_name : string) :
    option ProxyDependency :=
  List.find (fun dep => streq (dep_unit_name dep) unit_name) (node_proxy_dependencies n).

(** Assignment through the pointer that [node_find_proxy_dependency] returns,
    and [LIST_REMOVE] of it. *)
Fixpoint update_dep (unit_name : string) (f : ProxyDependency -> option ProxyDependency)
    (l : list ProxyDependency) : list ProxyDependency :=
  match l with
  | [] => []
  | dep :: l' =>
      if streq (dep_unit_name dep) unit_name
      then match f dep with Some dep' => dep' :: l' | None => l' end
      else dep :: update_dep unit_name f l'
  end.
Definition update_deps (p : ptr) (f : list ProxyDependency -> list ProxyDependency) : CM void :=
  update p (fun n : Node => n <| node_proxy_dependencies ::= f |>).

Definition node_add_proxy_dependency (p : ptr) (unit_name : string) : CM Z :=
  n ← load (T := Node) p;
  match node_find_proxy_dependency n unit_name with
  | Some dep =>
      let dep := mkProxyDependency (dep_unit_name dep) (dep_n_deps dep + 1) in
      update_deps p (update_dep unit_name (fun _ => Some dep)) ;;
      node_start_proxy_dependency p dep ;;
      mret 0
  | None =>
      ok ← local_ok;
      if negb ok then mret (- ENOMEM) else
      ok ← local_ok;
      if negb ok then mret (- ENOMEM) else
      let dep := mkProxyDependency unit_name 1 in
      update_deps p (fun l => app l [dep]) ;;
      node_start_proxy_dependency p dep ;;
      mret 0
  end.

Definition node_remove_proxy_dependency (p : ptr) (unit_name : string) : CM Z :=
  n ← load (T := Node) p;
  match node_find_proxy_dependency n unit_name with
  | None => mret (- ENOENT)
  | Some dep =>
      let dep := mkProxyDependency (dep_unit_name dep) (dep_n_deps dep - 1) in
      update_deps p (update_dep unit_name (fun _ => Some dep)) ;;
      if dep_n_deps dep =? 0 then
        node_stop_proxy_dependency p dep ;;
        update_deps p (update_dep unit_name (fun _ => None)) ;;
        mret 0
      else mret 0
  end.

(** ** Allowed proxy targets (node.c) *)

Definition node_add_allowed_proxy_target (p : ptr) (target_name : string) : CM Z :=
  ok ← local_ok;
  if negb ok then mret (- ENOMEM) else
  ok ← local_ok;
  if negb ok then mret (- ENOMEM) else
  update p (fun n : Node => n <| node_allowed_proxy_targets ::= fun l => app l [target_name] |>) ;;
  mret 0.

Definition node_find_allowed_proxy_target (n : Node) (name : string) : option string :=
  List.find (fun target => streq target name) (node_allowed_proxy_targets n).

(** ** Losing the agent connection (node.c) *)

Definition node_unset_agent_bus (p : ptr) : CM void :=
  n ← load (T := Node) p;
  let was_online := node_is_online n in
  update p (fun n : Node =>
    n <| node_disconnect_slot := false |>
      <| node_internal_controller_slot := false |>
      <| node_metrics_matching_slot := false |>
      <| node_agent_bus := None |>
      <| node_peer_selinux_context := None |>
      <| node_peer_ip := None |>) ;;
  if was_online then
    _r ← bus (ApiPropertiesChanged (default "" (node_object_path n)) NODE_INTERFACE
                NODE_PROPERTY_STATUS);
    mret tt
  else mret tt.

(** ** Proxy monitors *)

Definition proxy_monitor_drop_dep (p : ptr) : CM void :=
  m ← load (T := ProxyMonitor) p;
  if pm_added_dep m then
    match pm_target_node m with
    | None => crash_with InvalidPointer
    | Some target =>
        _res ← node_remove_proxy_dependency target (pm_unit_name m);
        update p (fun m : ProxyMonitor => m <| pm_added_dep := false |>)
    end
  else mret tt.

Definition proxy_monitor_close (p : ptr) : CM void := proxy_monitor_drop_dep p.

(** [proxy_monitor_unref] with [unref] for [node_unref]. *)
Definition proxy_monitor_unref_with (unref : ptr -> CM void) (p : ptr) : CM void :=
  update p (fun m : ProxyMonitor => m <| pm_ref_count ::= Z.pred |>) ;;
  m ← load (T := ProxyMonitor) p;
  if negb (pm_ref_count m =? 0) then mret tt else
  match pm_target_node m with
  | Some target => proxy_monitor_drop_dep p ;; unref target
  | None => mret tt
  end ;;
  match pm_subscription m with
  | Some sub => subscription_unref sub
  | None => mret tt
  end ;;
  free (T := ProxyMonitor) p.

Definition node_remove_proxy_monitor_with (unref : ptr -> CM void) (node p : ptr) : CM void :=
  proxy_monitor_close p ;;
  m ← load (T := ProxyMonitor) p;
  match pm_subscription m with
  | Some sub => controller_remove_subscription sub
  | None => crash_with InvalidPointer
  end ;;
  n ← load (T := Node) node;
  l ← list_remove_from p (node_proxy_monitors n);
  update node (fun n : Node => n <| node_proxy_monitors := l |>) ;;
  proxy_monitor_unref_with unref p.

(** [hashmap_free] clears every entry. *)
Definition hashmap_free_usubs (m : gmap string UnitSubscriptions) : CM void :=
  foreach (hashmap_order m) (fun key =>
    match m !! key with
    | Some usubs => unit_subscriptions_clear usubs
    | None => mret tt
    end).

Definition node_ref (p : ptr) : CM ptr :=
  update p (fun n : Node => n <| node_ref_count ::= Z.succ |>) ;; mret p.

(** The recursion goes through the targets of the node's proxy monitors. *)
Fixpoint node_unref_fuel (fuel : nat) (p : ptr) : CM void :=
  match fuel with
  | O => crash_with OutOfFuel
  | S fuel =>
      update p (fun n : Node => n <| node_ref_count ::= Z.pred |>) ;;
      n ← load (T := Node) p;
      if negb (node_ref_count n =? 0) then mret tt else
      foreach (node_proxy_monitors n)
        (node_remove_proxy_monitor_with (node_unref_fuel fuel) p) ;;
      node_unset_agent_bus p ;;
      n ← load (T := Node) p;
      hashmap_free_usubs (node_unit_subscriptions n) ;;
      free (T := Node) p
  end.

(** Every level of the recursion takes the last reference of another node. *)
Definition node_unref (p : ptr) : CM void := fun w =>
  node_unref_fuel (S (S (size (w_nodes w)))) p w.

Definition proxy_monitor_unref (p : ptr) : CM void := proxy_monitor_unref_with node_unref p.
Definition node_remove_proxy_monitor (node p : ptr) : CM void :=
  node_remove_proxy_monitor_with node_unref node p.

Definition create_proxy_monitor_subscription (monitor : ptr) (node : string) :
    CM (option ptr) :=
  s ← subscription_new node;
  match s with
  | None => mret None
  | Some p =>
      update p (fun s : Subscription => s <| sub_monitor := OfProxyMonitor monitor |>) ;;
      mret (Some p)
  end.

Definition proxy_monitor_new (node : ptr) (target_node_name unit_name proxy_object_path : string) :
    CM (option ptr) :=
  ok ← local_ok;
  if negb ok then mret None else
  p ← new_object (mkProxyMonitor 1 node None false "" None "");
  ok ← local_ok;
  if negb ok then proxy_monitor_unref p ;; mret None else
  update p (fun m : ProxyMonitor => m <| pm_unit_name := unit_name |>) ;;
  ok ← local_ok;
  if negb ok then proxy_monitor_unref p ;; mret None else
  update p (fun m : ProxyMonitor => m <| pm_proxy_object_path := proxy_object_path |>) ;;
  s ← create_proxy_monitor_subscription p target_node_name;
  match s with
  | None => proxy_monitor_unref p ;; mret None
  | Some sub =>
      update p (fun m : ProxyMonitor => m <| pm_subscription := Some sub |>) ;;
      added ← subscription_add_unit sub unit_name;
      if negb added then proxy_monitor_unref p ;; mret None
      else mret (Some p)
  end.

Definition proxy_monitor_set_target_node (p target_node : ptr) : CM Z :=
  target_node ← node_ref target_node;
  update p (fun m : ProxyMonitor => m <| pm_target_node := Some target_node |>) ;;
  m ← load (T := ProxyMonitor) p;
  res ← node_add_proxy_dependency target_node (pm_unit_name m);
  if res <? 0 then mret res
  else update p (fun m : ProxyMonitor => m <| pm_added_dep := true |>) ;; mret 0.

(** The reply callbacks of the calls to the proxy drop their reference. *)
Definition proxy_monitor_callback (p : ptr) : CM Z := proxy_monitor_unref p ;; mret 0.

(** ** Proxy signals of an agent (node.c) *)

Definition node_find_proxy_monitor (node : ptr) (target_node_name unit_name : string) :
    CM (option ptr) :=
  n ← load (T := Node) node;
  find_first (node_proxy_monitors n) (fun p =>
    m ← load (T := ProxyMonitor) p;
    match pm_target_node m with
    | None => crash_with InvalidPointer
    | Some t =>
        tn ← load (T := Node) t;
        match node_name tn with
        | None => crash_with InvalidPointer
        | Some name => mret (streq name target_node_name && streq (pm_unit_name m) unit_name)
        end
    end).

Definition node_on_match_proxy_new (node : ptr) (args : read (string * string * string)) :
    CM Z :=
  match args with
  | ReadErr r => mret r
  | ReadOk (target_node_name, unit_name, proxy_object_path) =>
      monitor ← proxy_monitor_new node target_node_name unit_name proxy_object_path;
      match monitor with
      | None => mret (- ENOMEM)
      | Some monitor =>
          target_node ← controller_find_node target_node_name;
          r ← match target_node with
              | None => proxy_monitor_send_error monitor "No such node" ;; mret 0
              | Some target_node =>
                  n ← load (T := Node) node;
                  match node_find_allowed_proxy_target n target_node_name with
                  | None => proxy_monitor_send_error monitor "Proxy on node not allowed" ;; mret 0
                  | Some _ =>
                      old_monitor ← node_find_proxy_monitor node target_node_name unit_name;
                      match old_monitor with
                      | Some old => node_remove_proxy_monitor node old
                      | None => mret tt
                      end ;;
                      r ← proxy_monitor_set_target_node monitor target_node;
                      if r <? 0 then
                        proxy_monitor_send_error monitor "Failed to add proxy dependency" ;; mret 0
                      else
                        m ← load (T := ProxyMonitor) monitor;
                        match pm_subscription m with
                        | None => crash_with InvalidPointer
                        | Some sub => controller_add_subscription sub
                        end ;;
                        monitor ← proxy_monitor_ref monitor;
                        update node (fun n : Node =>
                          n <| node_proxy_monitors ::= fun l => app l [monitor] |>) ;;
                        mret 0
                  end
              end;
          proxy_monitor_unref monitor ;;                  (* _cleanup_proxy_monitor_ *)
          mret r
      end
  end.

Definition node_on_match_proxy_removed (node : ptr) (args : read (string * string)) : CM Z :=
  match args with
  | ReadErr r => mret r
  | ReadOk (target_node_name, unit_name) =>
      proxy_monitor ← node_find_proxy_monitor node target_node_name unit_name;
      match proxy_monitor with
      | None => mret 0
      | Some p => node_remove_proxy_monitor node p ;; mret 0
      end
  end.
End proxy.
