(* ===== verification/Requests.v ===== *)
(** Requests to agents (controller/node.c) and the requests that fan out to all
    agents (AgentFleetRequest of controller/controller.c): creation, start, reply,
    cancellation, release, and what each callback replies to the client. *)
From S2P Require Import Prelude CString StringUtil Protocol Log World Job Events Subscriptions.
From S2P Require Import Monitor Proxy.

Section requests.
Context {E : Env}.

Definition ENOTCONN : Z := 107.

(** ** JobSetup (node.c) *)

Definition job_setup_ref (p : ptr) : CM ptr :=
  update p (fun s : JobSetup => s <| setup_ref_count ::= Z.succ |>) ;; mret p.

Definition job_setup_unref (p : ptr) : CM void :=
  update p (fun s : JobSetup => s <| setup_ref_count ::= Z.pred |>) ;;
  s ← load (T := JobSetup) p;
  if negb (setup_ref_count s =? 0) then mret tt else
  match setup_job s with
  | Some job => job_unref job
  | None => mret tt
  end ;;
  free (T := JobSetup) p.

(** The failure of [job_new] is noticed but not acted upon. *)
Definition job_setup_new (request_message node : ptr) (unit type : string) : CM (option ptr) :=
  ok ← local_ok;
  if negb ok then mret None else
  p ← new_object (mkJobSetup 1 request_message None);
  job ← job_new node unit type;
  update p (fun s : JobSetup => s <| setup_job := job |>) ;;
  mret (Some p).

(** ** AgentRequest (node.c) *)

Definition agent_request_ref (p : ptr) : CM ptr :=
  update p (fun r : AgentRequest => r <| req_ref_count ::= Z.succ |>) ;; mret p.

(** [req->free_userdata(req->userdata)]. *)
Definition free_userdata (cb : agent_callback) : CM void :=
  match cb with
  | unit_lifecycle_method_callback setup => job_setup_unref setup
  | _ => mret tt
  end.

Definition update_requests (node : ptr) (l : list ptr) : CM void :=
  update node (fun n : Node => n <| node_outstanding_requests := l |>).

Definition agent_request_unref (p : ptr) : CM void :=
  update p (fun r : AgentRequest => r <| req_ref_count ::= Z.pred |>) ;;
  r ← load (T := AgentRequest) p;
  if negb (req_ref_count r =? 0) then mret tt else
  free_userdata (req_cb r) ;;
  n ← load (T := Node) (req_node r);
  l ← list_remove_from p (node_outstanding_requests n);
  update_requests (req_node r) l ;;
  node_unref (req_node r) ;;
  free (T := AgentRequest) p.

(** The return value and [*ret]. *)
Definition node_create_request (node : ptr) (method : string) (cb : agent_callback) :
    CM (Z * option ptr) :=
  ok ← local_ok;
  if negb ok then mret (- ENOMEM, None) else
  n ← load (T := Node) node;
  r ← match node_agent_bus n with None => mret (- ENOTCONN) | Some _ => local end;
  if r <? 0 then mret (r, None) else
  node ← node_ref node;
  p ← new_object (mkAgentRequest 1 node false method [] cb false);
  n ← load (T := Node) node;
  update_requests node (app (node_outstanding_requests n) [p]) ;;
  mret (0, Some p).

(** [sd_bus_message_append]/[copy] to [req->message]. *)
Definition agent_request_append (p : ptr) (args : list value) : CM Z :=
  r ← local;
  if r <? 0 then mret r
  else update p (fun q : AgentRequest => q <| req_args ::= fun l => app l args |>) ;; mret r.

Definition agent_request_start (p : ptr) : CM Z :=
  req ← load (T := AgentRequest) p;
  n ← load (T := Node) (req_node req);
  r ← match node_agent_bus n with
      | None => mret (- ENOTCONN)
      | Some b => bus (AgentCallAsync b (req_method req) (req_args req) p)
      end;
  if r <? 0 then mret r else
  update p (fun q : AgentRequest => q <| req_slot := true |>) ;;
  _p ← agent_request_ref p;
  mret 1.

Definition node_request (node : ptr) (method : string) (cb : agent_callback) :
    CM (option ptr) :=
  n ← load (T := Node) node;
  if negb (node_has_agent n) then mret None else
  c ← node_create_request node method cb;
  match snd c with
  | None => mret None
  | Some req =>
      r ← agent_request_start req;
      if r <? 0 then agent_request_unref req ;; mret None else mret (Some req)
  end.
Definition node_request_list_units (node : ptr) (cb : agent_callback) : CM (option ptr) :=
  node_request node "ListUnits" cb.
Definition node_request_list_unit_files (node : ptr) (cb : agent_callback) : CM (option ptr) :=
  node_request node "ListUnitFiles" cb.

(** ** Fleet requests (controller.c) *)

Definition agent_fleet_request_free (p : ptr) : CM void :=
  f ← load (T := AgentFleetRequest) p;
  foreach (fl_sub_req f) (fun s =>
    node_unref (sr_node s) ;; agent_request_unref (sr_agent_req s)) ;;
  free (T := AgentFleetRequest) p.

(** The two encoders differ in their type strings only. The result is the
    return value and the entries appended to the reply. *)
Fixpoint encode_sub_reqs (l : list sub_req) (reply : list value) : CM (Z * list value) :=
  match l with
  | [] => mret (0, reply)
  | s :: l' =>
      match sr_m s with
      | None => encode_sub_reqs l' reply
      | Some (MethodError _) => mret (-1, reply)
      | Some (MethodReturn m) =>
          n ← load (T := Node) (sr_node s);
          ok ← build_steps 4;                     (* open, append, open, enter *)
          if negb ok then mret (-1, reply) else
          ok ← build_steps (array_length m);      (* copies *)
          if negb ok then mret (-1, reply) else
          ok ← build_steps 3;                     (* close, close, exit *)
          if negb ok then mret (-1, reply) else
          encode_sub_reqs l' (app reply [str_arg (node_name n); VCopy m])
      end
  end.
Definition controller_method_list_encode_reply (f : AgentFleetRequest) : CM (Z * list value) :=
  opened ← local;
  if opened <? 0 then mret (opened, []) else
  r ← encode_sub_reqs (fl_sub_req f) [];
  if fst r <? 0 then mret r else
  closed ← local;
  if closed <? 0 then mret (closed, snd r) else mret r.

Definition agent_fleet_request_done (p : ptr) : CM void :=
  f ← load (T := AgentFleetRequest) p;
  r ← local;
  (if r <? 0 then
     _r ← reply_method_errorf (fl_request_message f) SD_BUS_ERROR_FAILED; mret tt
   else
     e ← controller_method_list_encode_reply f;
     if fst e <? 0 then
       _r ← reply_method_errorf (fl_request_message f) SD_BUS_ERROR_FAILED; mret tt
     else _r ← reply_method_return (fl_request_message f) (snd e); mret tt) ;;
  agent_fleet_request_free p.

Definition fl_n_sub_req (f : AgentFleetRequest) : Z := Z.of_nat (Datatypes.length (fl_sub_req f)).

Definition agent_fleet_request_maybe_done (p : ptr) : CM void :=
  f ← load (T := AgentFleetRequest) p;
  if fl_n_done f =? fl_n_sub_req f then agent_fleet_request_done p else mret tt.

(** Store the answer in the entry of [agent_req]; [None] when there is none. *)
Fixpoint set_sub_req (agent_req : ptr) (m : option response) (l : list sub_req) :
    option (list sub_req) :=
  match l with
  | [] => None
  | s :: l' =>
      if decide (sr_agent_req s = agent_req) then Some (s <| sr_m := m |> :: l')
      else match set_sub_req agent_req m l' with
           | Some l'' => Some (s :: l'')
           | None => None
           end
  end.

Definition run_agent_fleet_request_callback (fleet agent_req : ptr) (m : option response) :
    CM Z :=
  f ← load (T := AgentFleetRequest) fleet;
  match set_sub_req agent_req m (fl_sub_req f) with
  | None => crash_with AssertionFailure
  | Some l =>
      update fleet (fun f : AgentFleetRequest =>
        f <| fl_sub_req := l |> <| fl_n_done ::= Z.succ |>) ;;
      agent_fleet_request_maybe_done fleet ;;
      mret 0
  end.

(** One round of the loop of [agent_fleet_request_start]. *)
Definition fleet_add_node (fleet : ptr) (encode : fleet_encoder) (node : ptr) : CM void :=
  agent_req ← match encode with
              | EncodeListUnits =>
                  node_request_list_units node (agent_fleet_request_callback fleet)
              | EncodeListUnitFiles =>
                  node_request_list_unit_files node (agent_fleet_request_callback fleet)
              end;
  match agent_req with
  | None => mret tt
  | Some agent_req =>
      f ← load (T := AgentFleetRequest) fleet;
      if negb (fl_n_sub_req f <? fl_capacity f) then crash_with InvalidPointer else
      node ← node_ref node;
      update fleet (fun f : AgentFleetRequest =>
        f <| fl_sub_req ::= fun l => app l [mkSubReq node None agent_req] |>)
  end.

Definition agent_fleet_request_start (m : ptr) (encode : fleet_encoder) : CM Z :=
  ok ← local_ok;
  if negb ok then reply_method_errorf m SD_BUS_ERROR_NO_MEMORY else
  c ← controller;
  fleet ← new_object (mkAgentFleetRequest m encode 0 (c_number_of_nodes c) []);
  foreach (c_nodes c) (fleet_add_node fleet encode) ;;
  agent_fleet_request_maybe_done fleet ;;
  mret 1.

Definition controller_method_list_units (m : ptr) : CM Z :=
  agent_fleet_request_start m EncodeListUnits.
Definition controller_method_list_unit_files (m : ptr) : CM Z :=
  agent_fleet_request_start m EncodeListUnitFiles.

(** ** Replies of the agent (node.c, job.c) *)

(** Forward an error. A message that is NULL counts as an error, which cannot
    be forwarded. *)
Definition forward_error (request_message : ptr) (m : option response) (k : ptr -> CM Z) :
    CM Z :=
  match m with
  | None => mret (- EINVAL)
  | Some (MethodError name) => reply_method_errorf request_message name
  | Some (MethodReturn m) => k m
  end.

(** Create the reply, copy [n] values from [m] into it and send it. *)
Definition reply_copy (request_message : ptr) (copy : bool) (m : ptr) : CM Z :=
  r ← local;
  if r <? 0 then reply_method_errorf request_message SD_BUS_ERROR_FAILED else
  if copy then
    r ← local;
    if r <? 0 then reply_method_errorf request_message SD_BUS_ERROR_FAILED
    else reply_method_return request_message [VCopy m]
  else reply_method_return request_message [].

Definition run_unit_lifecycle_method_callback (setup : ptr) (m : option response) : CM Z :=
  s ← load (T := JobSetup) setup;
  forward_error (setup_request_message s) m (fun _ =>
    match setup_job s with
    | None => crash_with InvalidPointer
    | Some job =>
        added ← controller_add_job job;
        (* the error is addressed to the agent's answer, which sd-bus refuses *)
        if negb added then mret (- EINVAL) else
        j ← load (T := Job) job;
        reply_method_return (setup_request_message s) [VObject (job_object_path j)]
    end).

(** [req->cb(req, m, ret_error)]. *)
Definition run_callback (req : ptr) (m : option response) : CM Z :=
  r ← load (T := AgentRequest) req;
  match req_cb r with
  | method_list_units_callback q | method_list_unit_files_callback q
  | node_method_passthrough_to_agent_callback q => forward_error q m (reply_copy q true)
  | node_method_set_unit_properties_callback q => forward_error q m (reply_copy q false)
  | job_cancel_callback _ => mret 0
  | unit_lifecycle_method_callback setup => run_unit_lifecycle_method_callback setup m
  | agent_fleet_request_callback fleet => run_agent_fleet_request_callback fleet req m
  end.

Definition agent_request_callback (req : ptr) (m : option response) : CM Z :=
  r ← load (T := AgentRequest) req;
  res ← (if req_is_cancelled r then mret 0 else run_callback req m);
  agent_request_unref req ;;
  mret res.

Definition agent_request_cancel (req : ptr) : CM Z :=
  update req (fun r : AgentRequest => r <| req_is_cancelled := true |>) ;;
  ok ← local_ok;
  res ← run_callback req (if (ok : bool) then Some (MethodError SD_BUS_ERROR_FAILED) else None);
  agent_request_unref req ;;
  mret res.

Definition node_shutdown (node : ptr) : CM void :=
  update node (fun n : Node => n <| node_is_shutdown := true |>) ;;
  n ← load (T := Node) node;
  foreach (node_outstanding_requests n) (fun req => _r ← agent_request_cancel req; mret tt).

(** ** Methods that forward to the agent (node.c, job.c) *)

Definition node_method_list_units (m node : ptr) : CM Z :=
  n ← load (T := Node) node;
  if node_is_shutdown n then reply_method_errorf m SD_BUS_ERROR_FAILED else
  req ← node_request_list_units node (method_list_units_callback m);
  match req with
  | None => reply_method_errorf m SD_BUS_ERROR_FAILED
  | Some req => agent_request_unref req ;; mret 1
  end.

Definition node_method_list_unit_files (m node : ptr) : CM Z :=
  n ← load (T := Node) node;
  if node_is_shutdown n then reply_method_errorf m SD_BUS_ERROR_FAILED else
  req ← node_request_list_unit_files node (method_list_unit_files_callback m);
  match req with
  | None => reply_method_errorf m SD_BUS_ERROR_FAILED
  | Some req => agent_request_unref req ;; mret 1
  end.

(** Start a request whose arguments are appended in [parts] (one step each);
    what the handlers do after [node_create_request], with the cleanup of
    [req]. *)
Fixpoint append_parts (req : ptr) (parts : list (list value)) : CM bool :=
  match parts with
  | [] => mret true
  | part :: parts' =>
      r ← agent_request_append req part;
      if r <? 0 then mret false else append_parts req parts'
  end.
Definition start_request (m req : ptr) (parts : list (list value)) (done : CM Z) : CM Z :=
  res ← (ok ← append_parts req parts;
         if negb ok then reply_method_errorf m SD_BUS_ERROR_FAILED else
         r ← agent_request_start req;
         if r <? 0 then reply_method_errorf m SD_BUS_ERROR_FAILED else done);
  agent_request_unref req ;;
  mret res.

Definition node_method_set_unit_properties (m : ptr) (args : read (string * bool))
    (node : ptr) : CM Z :=
  n ← load (T := Node) node;
  if node_is_shutdown n then reply_method_errorf m SD_BUS_ERROR_FAILED else
  match args with
  | ReadErr _ => reply_method_errorf m SD_BUS_ERROR_INVALID_ARGS
  | ReadOk (unit, runtime) =>
      c ← node_create_request node "SetUnitProperties" (node_method_set_unit_properties_callback m);
      match snd c with
      | None => reply_method_errorf m SD_BUS_ERROR_FAILED
      | Some req => start_request m req [[VString unit; VBool runtime]; [VCopy m]] (mret 1)
      end
  end.

Definition node_method_passthrough_to_agent (m : ptr) (member : string) (node : ptr) : CM Z :=
  n ← load (T := Node) node;
  if node_is_shutdown n then reply_method_errorf m SD_BUS_ERROR_FAILED else
  c ← node_create_request node member (node_method_passthrough_to_agent_callback m);
  match snd c with
  | None => reply_method_errorf m SD_BUS_ERROR_FAILED
  | Some req => start_request m req [[VCopy m]] (mret 1)
  end.

Definition job_method_cancel (m job : ptr) : CM Z :=
  j ← load (T := Job) job;
  c ← node_create_request (job_node j) "JobCancel" (job_cancel_callback m);
  match snd c with
  | None => reply_method_errorf m SD_BUS_ERROR_FAILED
  | Some req => start_request m req [[VUint (job_id j)]] (reply_method_return m [])
  end.

(** [start], [stop], [restart] and [reload] of a unit. *)
Definition node_run_unit_lifecycle_method (m : ptr) (args : read (string * string))
    (node : ptr) (job_type_ method : string) : CM Z :=
  start_time ← get_time_micros;
  n ← load (T := Node) node;
  if node_is_shutdown n then reply_method_errorf m SD_BUS_ERROR_FAILED else
  match args with
  | ReadErr _ => reply_method_errorf m SD_BUS_ERROR_INVALID_ARGS
  | ReadOk (unit, mode) =>
      setup ← job_setup_new m node unit job_type_;
      match setup with
      | None => reply_method_errorf m SD_BUS_ERROR_NO_MEMORY
      | Some setup =>
          c ← controller;
          s ← load (T := JobSetup) setup;
          (if c_metrics_enabled c then
             match setup_job s with
             | None => crash_with InvalidPointer
             | Some job => update job (fun j : Job => j <| job_start_micros := start_time |>)
             end
           else mret tt) ;;
          setup' ← job_setup_ref setup;
          c ← node_create_request node method (unit_lifecycle_method_callback setup');
          res ← match snd c with
                | None =>
                    job_setup_unref setup ;; reply_method_errorf m SD_BUS_ERROR_FAILED
                | Some req =>
                    match setup_job s with
                    | None => crash_with InvalidPointer
                    | Some job =>
                        j ← load (T := Job) job;
                        start_request m req [[VString unit; VString mode; VUint (job_id j)]] (mret 1)
                    end
                end;
          job_setup_unref setup ;;                        (* _cleanup_job_setup_ *)
          mret res
      end
  end.

Definition node_method_start_unit (m : ptr) (args : read (string * string)) (node : ptr) :=
  node_run_unit_lifecycle_method m args node "start" "StartUnit".
Definition node_method_stop_unit (m : ptr) (args : read (string * string)) (node : ptr) :=
  node_run_unit_lifecycle_method m args node "stop" "StopUnit".
Definition node_method_restart_unit (m : ptr) (args : read (string * string)) (node : ptr) :=
  node_run_unit_lifecycle_method m args node "restart" "RestartUnit".
Definition node_method_reload_unit (m : ptr) (args : read (string * string)) (node : ptr) :=
  node_run_unit_lifecycle_method m args node "reload" "ReloadUnit".

(** An invalid level is acknowledged and the call goes on. *)
Definition node_method_set_log_level (m : ptr) (args : read string) (node : ptr) : CM Z :=
  match args with
  | ReadErr _ => reply_method_errorf m SD_BUS_ERROR_INVALID_ARGS
  | ReadOk level =>
      stop ← (if bool_decide (string_to_log_level (Some level) = LOG_LEVEL_INVALID) then
                r ← reply_method_return m [];
                if r <? 0 then
                  r ← reply_method_errorf m SD_BUS_ERROR_INVALID_ARGS; mret (Some r)
                else mret None
              else mret None);
      match stop with
      | Some r => mret r
      | None =>
          n ← load (T := Node) node;
          r ← match node_agent_bus n with
              | None => mret (- ENOTCONN)
              | Some b => bus (AgentCallSync b "SetLogLevel" [VString level])
              end;
          if r <? 0 then reply_method_errorf m SD_BUS_ERROR_FAILED
          else reply_method_return m []
      end
  end.
End requests.
