(* ===== verification/Node.v ===== *)
(** controller/node.c: nodes, the attachment of an agent connection,
    registration, heartbeats and disconnection; and the parts of
    controller/controller.c that keep the list of nodes, the number of online
    nodes and the system status. *)
From S2P Require Import Prelude CString StringUtil ParseUtil TimeUtil Protocol BusUtils Log.
From S2P Require Import World Job Events Subscriptions Monitor Proxy Requests.

Section node.
Context {E : Env}.

(** ** Creation *)

(** The allocation steps of [node_new] are those of the object, of the hash
    map, of the name and of the object path (two). *)
Definition node_new (name : option string) : CM (option ptr) :=
  ok ← local_ok;
  if negb ok then mret None else
  p ← new_object (mkNode 1 false None false false false None None None None None
                    [] [] [] [] ∅ 0 0 false);
  ok ← local_ok;
  if negb ok then node_unref p ;; mret None else
  match name with
  | None => mret (Some p)
  | Some name =>
      ok ← local_ok;
      if negb ok then node_unref p ;; mret None else
      update p (fun n : Node => n <| node_name := Some name |>) ;;
      malloc_ok ← local_ok;
      asprintf_ok ← local_ok;
      match assemble_object_path_string malloc_ok asprintf_ok NODE_OBJECT_PATH_PREFIX name with
      | (r, path) =>
          if r <? 0 then node_unref p ;; mret None
          else update p (fun n : Node => n <| node_object_path := path |>) ;; mret (Some p)
      end
  end.

Definition controller_add_node (name : option string) : CM (option ptr) :=
  node ← node_new name;
  match node with
  | None => mret None
  | Some p =>
      match name with
      | Some _ =>
          upd_controller (fun c => c <| c_number_of_nodes ::= Z.succ |>
                                     <| c_nodes ::= fun l => app l [p] |>)
      | None => upd_controller (fun c => c <| c_anonymous_nodes ::= fun l => app l [p] |>)
      end ;;
      mret (Some p)
  end.

Definition node_set_required_selinux_context (p : ptr) (selinux_context : string) : CM bool :=
  ok ← local_ok;
  update p (fun n : Node =>
    n <| node_required_selinux_context := if (ok : bool) then Some selinux_context else None |>) ;;
  mret ok.

Definition node_export (p : ptr) : CM bool :=
  n ← load (T := Node) p;
  c_assert (bool_decide (node_name n <> None)) ;;
  r ← bus (ApiAddVtable (default "" (node_object_path n)) NODE_INTERFACE);
  if r <? 0 then mret false
  else update p (fun n : Node => n <| node_export_slot := true |>) ;; mret true.

(** ** Status *)

Definition node_get_status (n : Node) : string :=
  if node_has_agent n then "online" else "offline".
Definition node_property_get_status (p : ptr) : CM value :=
  n ← load (T := Node) p; mret (VString (node_get_status n)).
Definition node_property_get_peer_ip (p : ptr) : CM value :=
  n ← load (T := Node) p; mret (str_arg (node_peer_ip n)).

Definition controller_get_system_status (c : Controller) : string :=
  if c_number_of_nodes_online c =? 0 then "down"
  else if c_number_of_nodes_online c =? c_number_of_nodes c then "up"
  else "degraded".

Definition status_check (prev_number_of_nodes_online : Z) (c : Controller) : bool :=
  let diff := c_number_of_nodes_online c - prev_number_of_nodes_online in
  (prev_number_of_nodes_online =? 0) ||
  (prev_number_of_nodes_online =? c_number_of_nodes c) ||
  (prev_number_of_nodes_online + diff =? c_number_of_nodes c) ||
  (prev_number_of_nodes_online + diff =? 0).

Definition controller_check_system_status (prev_number_of_nodes_online : Z) : CM void :=
  c ← controller;
  if status_check prev_number_of_nodes_online c then
    _r ← bus (ApiPropertiesChanged BC_CONTROLLER_OBJECT_PATH CONTROLLER_INTERFACE "Status");
    mret tt
  else mret tt.

(** [controller_check_system_status(controller, controller->number_of_nodes_online++)]:
    the old value is passed, the callee sees the new one. *)
Definition count_online (f : Z -> Z) : CM void :=
  c ← controller;
  upd_controller (fun c => c <| c_number_of_nodes_online ::= f |>) ;;
  controller_check_system_status (c_number_of_nodes_online c).

(** ** Removal *)

Definition controller_remove_node (p : ptr) : CM void :=
  n ← load (T := Node) p;
  c ← controller;
  match node_name n with
  | Some _ =>
      upd_controller (fun c => c <| c_number_of_nodes ::= Z.pred |>) ;;
      l ← list_remove_from p (c_nodes c);
      upd_controller (fun c => c <| c_nodes := l |>)
  | None =>
      l ← list_remove_from p (c_anonymous_nodes c);
      upd_controller (fun c => c <| c_anonymous_nodes := l |>)
  end ;;
  (if node_is_online n then
     node_shutdown p ;;
     upd_controller (fun c => c <| c_number_of_nodes_online ::= Z.pred |>)
   else mret tt) ;;
  node_unref p.

(** ** Metrics *)

Definition node_enable_metrics (p : ptr) : CM void :=
  n ← load (T := Node) p;
  if negb (node_has_agent n) then mret tt else
  _r ← send_agent_simple_message p "EnableMetrics" None;
  _b ← metrics_node_signal_matching_register p;
  mret tt.

Definition node_disable_metrics (p : ptr) : CM void :=
  n ← load (T := Node) p;
  if negb (node_has_agent n) then mret tt else
  _r ← send_agent_simple_message p "DisableMetrics" None;
  update p (fun n : Node => n <| node_metrics_matching_slot := false |>).

(** ** Attaching an agent *)

Fixpoint match_signals (bus_ : ptr) (members : list string) : CM bool :=
  match members with
  | [] => mret true
  | member :: members' =>
      r ← bus (AgentMatchSignal bus_ member);
      if r <? 0 then mret false else match_signals bus_ members'
  end.

(** The branch of [node_set_agent_bus] for a named node. *)
Definition node_match_agent_signals (p bus_ : ptr) : CM bool :=
  ok ← match_signals bus_ ["JobDone"; "JobStateChanged"; "UnitPropertiesChanged"; "UnitNew";
                           "UnitStateChanged"; "UnitRemoved"; "ProxyNew"; "ProxyRemoved"];
  if negb ok then mret false else
  n ← load (T := Node) p;
  _r ← bus (ApiPropertiesChanged (default "" (node_object_path n)) NODE_INTERFACE
              NODE_PROPERTY_STATUS);
  match_signals bus_ ["Heartbeat"].

Definition node_set_agent_bus (p bus_ : ptr) : CM bool :=
  n ← load (T := Node) p;
  if bool_decide (node_agent_bus n <> None) then mret false else
  update p (fun n : Node => n <| node_agent_bus := Some bus_ |>) ;;
  (let '(r, peer_ip) := peer_ip_address bus_ in
   if (r <? 0) && negb (r =? - EINVAL) then mret tt
   else update p (fun n : Node => n <| node_peer_ip := peer_ip |>)) ;;
  (if use_selinux then
     match peer_context bus_ with
     | Some peercon =>
         update p (fun n : Node => n <| node_peer_selinux_context := parse_selinux_type peercon |>)
     | None => mret tt
     end
   else mret tt) ;;
  stop ← match node_name n with
         | None =>
             r ← bus (AgentAddVtable bus_);
             if r <? 0 then node_unset_agent_bus p ;; mret true
             else update p (fun n : Node => n <| node_internal_controller_slot := true |>) ;;
                  mret false
         | Some _ => ok ← node_match_agent_signals p bus_; mret (negb ok)
         end;
  if (stop : bool) then mret false else
  r ← bus (AgentMatchSignal bus_ "Disconnected");
  if r <? 0 then node_unset_agent_bus p ;; mret false else
  update p (fun n : Node => n <| node_disconnect_slot := true |>) ;;
  node_send_agent_subscribe_all p ;;
  node_start_proxy_dependency_all p ;;
  mret true.

(** ** Registration *)

Definition selinux_refused (node named_node : Node) : bool :=
  match node_required_selinux_context named_node with
  | None => false
  | Some required =>
      match node_peer_selinux_context node with
      | None => true
      | Some context => negb (streq context required)
      end
  end.

Definition node_method_register (m : ptr) (args : read string) (p : ptr) : CM Z :=
  n ← load (T := Node) p;
  if bool_decide (node_name n <> None) then reply_method_errorf m SD_BUS_ERROR_ADDRESS_IN_USE else
  match args with
  | ReadErr r => mret r
  | ReadOk name =>
      named ← controller_find_node name;
      match named with
      | None => reply_method_errorf m SD_BUS_ERROR_SERVICE_UNKNOWN
      | Some named =>
          nn ← load (T := Node) named;
          if selinux_refused n nn then reply_method_errorf m SD_BUS_ERROR_ACCESS_DENIED else
          if node_has_agent nn then reply_method_errorf m SD_BUS_ERROR_ADDRESS_IN_USE else
          now ← get_time_micros;
          update named (fun n : Node => n <| node_last_seen := now |>) ;;
          now_monotonic ← get_time_micros_monotonic;
          update named (fun n : Node => n <| node_last_seen_monotonic := now_monotonic |>) ;;
          _described ← local_ok;
          match node_agent_bus n with
          | None =>                      (* sd-bus refuses every call on a NULL connection *)
              update named (fun n : Node => n <| node_peer_ip := None |>) ;;
              reply_method_errorf m SD_BUS_ERROR_FAILED
          | Some agent_bus =>
              set ← node_set_agent_bus named agent_bus;
              if negb set then reply_method_errorf m SD_BUS_ERROR_FAILED else
              c ← controller;
              (if c_metrics_enabled c then node_enable_metrics named else mret tt) ;;
              node_unset_agent_bus p ;;
              count_online Z.succ ;;
              reply_method_return m []
          end
      end
  end.

(** ** Heartbeats *)

Definition node_match_heartbeat (p : ptr) : CM Z :=
  now ← get_time_micros;
  if now =? USEC_INFINITY then mret 0 else
  now_monotonic ← get_time_micros_monotonic;
  if now_monotonic =? USEC_INFINITY then mret 0 else
  update p (fun n : Node => n <| node_last_seen := now |>
                              <| node_last_seen_monotonic := now_monotonic |>) ;;
  mret 1.

(** ** Disconnection *)

(** The jobs of the node leave the list. *)
Definition node_drop_job (name : string) (job : ptr) : CM void :=
  j ← load (T := Job) job;
  jn ← load (T := Node) (job_node j);
  match node_name jn with
  | None => crash_with InvalidPointer
  | Some job_node_name =>
      if strcmp job_node_name name =? 0 then
        c ← controller;
        l ← list_remove_from job (c_jobs c);
        upd_controller (fun c => c <| c_jobs := l |>) ;;
        job_unref job
      else mret tt
  end.

Definition node_disconnect (p : ptr) : CM void :=
  node_disconnect_units p ;;
  n ← load (T := Node) p;
  foreach (node_proxy_monitors n) (node_remove_proxy_monitor p) ;;
  n ← load (T := Node) p;
  match node_name n with
  | None => controller_remove_node p
  | Some name =>
      c ← controller;
      foreach (c_jobs c) (node_drop_job name) ;;
      node_unset_agent_bus p ;;
      count_online Z.pred
  end.

Definition node_disconnected (p : ptr) : CM Z := node_disconnect p ;; mret 0.
End node.
