(* ===== verification/Cfg.v ===== *)
(** libbluechi/common/cfg.{h,c} and [bc_log_init]: the configuration store, its
    loading from files, drop-in directories and the environment, its listing and
    its defaults.

    The ini parser, the file system and the allocator are parameters. The state
    of the monad counts allocations: the [k]-th one succeeds when [alloc_ok k]. *)
From stdpp Require Import sorting.
From S2P Require Import Prelude CString StringUtil ParseUtil Protocol Log.

(** ** Option names *)

Definition CFG_LOG_LEVEL : string := "LogLevel".
Definition CFG_LOG_TARGET : string := "LogTarget".
Definition CFG_LOG_IS_QUIET : string := "LogIsQuiet".
Definition CFG_CONTROLLER_USE_TCP : string := "UseTCP".
Definition CFG_CONTROLLER_USE_UDS : string := "UseUDS".
Definition CFG_CONTROLLER_HOST : string := "ControllerHost".
Definition CFG_CONTROLLER_PORT : string := "ControllerPort".
Definition CFG_ALLOWED : string := "Allowed".
Definition CFG_REQUIRED_SELINUX_CONTEXT : string := "RequiredSelinuxContext".
Definition CFG_ALLOW_DEPENDENCIES_ON : string := "AllowDependenciesOn".
Definition CFG_NODE_NAME : string := "NodeName".
Definition CFG_ALLOWED_NODE_NAMES : string := "AllowedNodeNames".
Definition CFG_HEARTBEAT_INTERVAL : string := "HeartbeatInterval".
Definition CFG_NODE_HEARTBEAT_THRESHOLD : string := "NodeHeartbeatThreshold".
Definition CFG_CONTROLLER_HEARTBEAT_THRESHOLD : string := "ControllerHeartbeatThreshold".
Definition CFG_IP_RECEIVE_ERRORS : string := "IPReceiveErrors".
Definition CFG_TCP_KEEPALIVE_TIME : string := "TCPKeepAliveTime".
Definition CFG_TCP_KEEPALIVE_INTERVAL : string := "TCPKeepAliveInterval".
Definition CFG_TCP_KEEPALIVE_COUNT : string := "TCPKeepAliveCount".
Definition CFG_CONNECTION_RETRY_COUNT_UNTIL_QUIET : string := "ConnectionRetryCountUntilQuiet".
Definition CFG_SECT_GLOBAL : string := "".
Definition CFG_SECT_BLUECHI : string := "bluechi-controller".
Definition CFG_SECT_NODE_PREFIX : string := "node ".
Definition CFG_SECT_AGENT : string := "bluechi-agent".

(** ** The store

    Keys are (section, name); an empty value is stored as NULL. *)

Abbreviation cfg_key := (string * string)%type.
Abbreviation store := (gmap (string * string) (option string)).

Record config_t := mkConfig { cfg_store : store; default_section : string }.
#[export] Instance eta_config : EtaRecord config_t :=
  fun c => mkConfig (cfg_store c) (default_section c).

Class CfgEnv := {
  alloc_ok : nat -> bool;
  store_order : store -> list cfg_key;
  section_order : gset string -> list string;
  access_error : string -> Z;                              (* 0, or errno *)
  ini_calls : string -> list (string * string * string);   (* handler calls *)
  ini_result : string -> list Z -> Z;                      (* from the handler's results *)
  dir_access_error : string -> Z;
  scandir : string -> Z + list string;                     (* errno, or sorted names *)
  getenv : string -> option string;
  hostname : option string;
}.

(** hashmap.c iterates over every item once; [ini_parse] fails when the handler
    did; [errno] is positive. *)
Class CfgEnvLaws (E : CfgEnv) := {
  store_order_perm : forall m, store_order m ≡ₚ (map_to_list m).*1;
  section_order_perm : forall s, section_order s ≡ₚ elements s;
  ini_result_handler : forall f rs, ini_result f rs = 0 -> Forall (fun r => r <> 0) rs;
  scandir_errno : forall d e, scandir d = inl e -> 0 < e;
}.

Section cfg.
Context {E : CfgEnv}.

Definition alloc : M nat bool := fun k => Ret (alloc_ok k) (S k).

Definition cfg_get_default_section (config : config_t) : string := default_section config.

Definition cfg_initialize : M nat (Z * option config_t) :=
  ok ← alloc; if negb ok then mret (- ENOMEM, None) else
  ok ← alloc; if negb ok then mret (- ENOMEM, None) else
  ok ← alloc; if negb ok then mret (- ENOMEM, None) else
  mret (0, Some (mkConfig ∅ CFG_SECT_GLOBAL)).

Definition cfg_set_default_section (config : config_t) (section_name : option string) :
    M nat (Z * config_t) :=
  match section_name with
  | None => mret (- EINVAL, config)
  | Some section_name =>
      ok ← alloc; if negb ok then mret (- ENOMEM, config) else
      mret (0, config <| default_section := section_name |>)
  end.

Definition stored_value (option_value : option string) : option string :=
  match option_value with
  | Some v => if (0 <? strlen v)%nat then Some v else None
  | None => None
  end.

Definition cfg_s_set_value (config : config_t) (section_name option_name : string)
    (option_value : option string) : M nat (Z * config_t) :=
  ok ← alloc; if negb ok then mret (- ENOMEM, config) else
  ok ← alloc; if negb ok then mret (- ENOMEM, config) else
  ok ← (if bool_decide (stored_value option_value <> None) then alloc else mret true);
  if negb ok then mret (- ENOMEM, config) else
  ok ← alloc;                                            (* hashmap_set *)
  if negb ok then mret (- ENOMEM, config) else
  mret (0, config <| cfg_store ::= <[(section_name, option_name) := stored_value option_value]> |>).

Definition cfg_set_value (config : config_t) (option_name : string) (option_value : option string) :=
  cfg_s_set_value config (default_section config) option_name option_value.

Definition cfg_s_get_value (config : config_t) (section_name option_name : string) :
    option string :=
  match cfg_store config !! (section_name, option_name) with
  | Some value => value
  | None => None
  end.
Definition cfg_get_value (config : config_t) (option_name : string) : option string :=
  cfg_s_get_value config (default_section config) option_name.

Definition cfg_s_get_bool_value (config : config_t) (section_name option_name : string) : bool :=
  match cfg_s_get_value config section_name option_name with
  | Some value =>
      streqi "true" value || streqi "t" value || streqi "yes" value || streqi "y" value ||
      streqi "on" value
  | None => false
  end.
Definition cfg_get_bool_value (config : config_t) (option_name : string) : bool :=
  cfg_s_get_bool_value config (default_section config) option_name.

(** ** Loading *)

(** A repeated option continues the value read so far. *)
Definition parsing_handler (config : config_t) (section name value : string) :
    M nat (Z * config_t) :=
  match cfg_s_get_value config section name with
  | Some existing_value =>
      ok ← alloc;
      r ← cfg_s_set_value config section name (strcat_dup ok existing_value value);
      mret (if fst r =? 0 then 1 else 0, snd r)
  | None =>
      r ← cfg_s_set_value config section name (Some value);
      mret (if fst r =? 0 then 1 else 0, snd r)
  end.

Fixpoint run_handler (config : config_t) (calls : list (string * string * string)) :
    M nat (list Z * config_t) :=
  match calls with
  | [] => mret ([], config)
  | (section, name, value) :: calls' =>
      r ← parsing_handler config section name value;
      rs ← run_handler (snd r) calls';
      mret (fst r :: fst rs, snd rs)
  end.

Definition ini_parse (file : string) (config : config_t) : M nat (Z * config_t) :=
  rs ← run_handler config (ini_calls file);
  mret (ini_result file (fst rs), snd rs).

Fixpoint copy_entries (src dst : config_t) (keys : list cfg_key) : M nat (Z * config_t) :=
  match keys with
  | [] => mret (0, dst)
  | (section, name) :: keys' =>
      r ← cfg_s_set_value dst section name (cfg_s_get_value src section name);
      if fst r <? 0 then mret r else copy_entries src (snd r) keys'
  end.
Definition cfg_copy_overwrite (src dst : config_t) : M nat (Z * config_t) :=
  copy_entries src dst (store_order (cfg_store src)).

Definition cfg_load_from_file (config : config_t) (config_file : option string) :
    M nat (Z * config_t) :=
  match config_file with
  | None => mret (- EINVAL, config)
  | Some config_file =>
      if negb (access_error config_file =? 0) then mret (- access_error config_file, config) else
      t ← cfg_initialize;
      match snd t with
      | None => mret (fst t, config)
      | Some tmp_config =>
          p ← ini_parse config_file tmp_config;
          if negb (fst p =? 0) then mret (fst p, config)
          else cfg_copy_overwrite (snd p) config
      end
  end.

Definition is_file_name_ending_with_conf (d_name : string) : bool :=
  ends_with (Some d_name) (Some ".conf").

(** The loop over the files; [r] is its result so far. *)
Fixpoint load_files (config : config_t) (dir : string) (r : Z) (files : list string) :
    M nat (Z * config_t) :=
  match files with
  | [] => mret (r, config)
  | file_name :: files' =>
      ok ← alloc;
      if negb ok then mret (- ENOMEM, config) else
      l ← cfg_load_from_file config (Some (dir ++ "/" ++ file_name));
      if fst l <? 0 then mret l else load_files (snd l) dir (fst l) files'
  end.
Definition cfg_load_from_dir (config : config_t) (custom_config_directory : string) :
    M nat (Z * config_t) :=
  if negb (dir_access_error custom_config_directory =? 0) then mret (0, config) else
  match scandir custom_config_directory with
  | inl errno => mret (- errno, config)
  | inr all_files =>
      load_files config custom_config_directory 0
        (List.filter is_file_name_ending_with_conf all_files)
  end.

Definition env_vars : list (string * string) :=
  [("BC_LOG_LEVEL", CFG_LOG_LEVEL); ("BC_LOG_TARGET", CFG_LOG_TARGET);
   ("BC_LOG_IS_QUIET", CFG_LOG_IS_QUIET)].
Fixpoint load_env_vars (config : config_t) (vars : list (string * string)) :
    M nat (Z * config_t) :=
  match vars with
  | [] => mret (0, config)
  | (env_var, option_name) :: vars' =>
      match stored_value (getenv env_var) with
      | Some value =>
          r ← cfg_set_value config option_name (Some value);
          if fst r <? 0 then mret r else load_env_vars (snd r) vars'
      | None => load_env_vars config vars'
      end
  end.
Definition cfg_load_from_env (config : config_t) : M nat (Z * config_t) :=
  load_env_vars config env_vars.

(** The result of loading one file on behalf of
    [cfg_load_complete_configuration]: [inl] returns. *)
Definition load_step (r : Z * config_t) (tolerated : Z -> bool) : Z * config_t + config_t :=
  if fst r =? 0 then inr (snd r)
  else if tolerated (fst r) then inr (snd r)
  else if fst r <? 0 then inl r else inl (- EINVAL, snd r).

Definition cfg_load_complete_configuration (config : config_t)
    (default_config_file custom_config_file custom_config_directory
     cli_option_config_file : option string) : M nat (Z * config_t) :=
  s1 ← match default_config_file with
       | None => mret (inr config)
       | Some f => r ← cfg_load_from_file config (Some f); mret (load_step r (fun _ => false))
       end;
  match s1 with inl r => mret r | inr config =>
  s2 ← match custom_config_file with
       | None => mret (inr config)
       | Some f =>
           r ← cfg_load_from_file config (Some f);
           mret (load_step r (fun r => r =? - ENOENT))
       end;
  match s2 with inl r => mret r | inr config =>
  s3 ← match custom_config_directory with
       | None => mret (inr config)
       | Some d => r ← cfg_load_from_dir config d; mret (load_step r (fun _ => false))
       end;
  match s3 with inl r => mret r | inr config =>
  env ← cfg_load_from_env config;
  match cli_option_config_file with
  | None => mret env
  | Some f =>
      r ← cfg_load_from_file (snd env) (Some f);
      match load_step r (fun _ => false) with
      | inl r => mret r
      | inr config => mret (0, config)
      end
  end end end end.

(** ** Listing *)

Definition str_le (a b : string) : Prop := strcmp a b <= 0.
#[export] Instance str_le_dec : RelDecision str_le.
Proof. intros a b. unfold str_le. apply _. Defined.

Definition sections_of (s : store) : gset string := list_to_set ((map_to_list s).*1.*1).

(** [qsort_r] sorts the sections by [strcmp]. *)
Definition cfg_list_sections (config : config_t) : M nat (option (list string)) :=
  ok ← alloc; if negb ok then mret None else
  ok ← alloc; if negb ok then mret None else
  ok ← alloc; if negb ok then mret None else
  mret (Some (merge_sort str_le (section_order (sections_of (cfg_store config))))).

Definition printf (b : StringBuilder) (text : string) : M nat (bool * StringBuilder) :=
  ok ← alloc; mret (string_builder_printf ok b (Some text)).

Definition dump_newline : string := String (ascii_of_nat 10) "".

Fixpoint dump_options (config : config_t) (section : string) (keys : list cfg_key)
    (b : StringBuilder) : M nat (bool * StringBuilder) :=
  match keys with
  | [] => mret (true, b)
  | (sect, name) :: keys' =>
      if negb (streq sect section) then dump_options config section keys' b else
      r ← printf b (name ++ "=" ++ default "" (cfg_s_get_value config sect name) ++ dump_newline);
      if negb (fst r) then mret r else dump_options config section keys' (snd r)
  end.
Fixpoint dump_sections (config : config_t) (first : bool) (sections : list string)
    (b : StringBuilder) : M nat (bool * StringBuilder) :=
  match sections with
  | [] => mret (true, b)
  | section :: sections' =>
      b ← (if first then mret b
           else ok ← alloc; mret (snd (string_builder_append ok b dump_newline)));
      r ← printf b ("[" ++ section ++ "]" ++ dump_newline);
      if negb (fst r) then mret r else
      r ← dump_options config section (store_order (cfg_store config)) (snd r);
      if negb (fst r) then mret r else dump_sections config false sections' (snd r)
  end.
Definition cfg_dump (config : option config_t) : M nat (option StringBuilder) :=
  match config with
  | None => mret None
  | Some config =>
      sections ← cfg_list_sections config;
      match sections with
      | None => mret None
      | Some sections =>
          ok ← alloc;
          match string_builder_init ok 0 with
          | None => mret None
          | Some b =>
              r ← dump_sections config true sections b;
              mret (if fst (r : bool * StringBuilder) then Some (snd r) else None)
          end
      end
  end.

(** ** Defaults *)

Fixpoint set_values (config : config_t) (l : list (string * option string)) :
    M nat (Z * config_t) :=
  match l with
  | [] => mret (0, config)
  | (name, value) :: l' =>
      r ← cfg_set_value config name value;
      if negb (fst r =? 0) then mret r else set_values (snd r) l'
  end.

Definition cfg_def_conf (config : config_t) : M nat (Z * config_t) :=
  set_values config
    [(CFG_LOG_LEVEL, Some (log_level_to_string LOG_LEVEL_INFO));
     (CFG_LOG_TARGET, Some BC_LOG_TARGET_JOURNALD);
     (CFG_LOG_IS_QUIET, None);
     (CFG_IP_RECEIVE_ERRORS, Some "true");
     (CFG_TCP_KEEPALIVE_TIME, Some "1");
     (CFG_TCP_KEEPALIVE_INTERVAL, Some "1");
     (CFG_TCP_KEEPALIVE_COUNT, Some "6")].

Definition cfg_agent_def_conf (config : config_t) : M nat (Z * config_t) :=
  r ← cfg_set_default_section config (Some CFG_SECT_AGENT);
  if negb (fst r =? 0) then mret r else
  r ← cfg_def_conf (snd r);
  if negb (fst r =? 0) then mret r else
  set_values (snd r)
    [(CFG_NODE_NAME, hostname);
     (CFG_CONTROLLER_HOST, Some "127.0.0.1");
     (CFG_HEARTBEAT_INTERVAL, Some "2000");
     (CFG_CONTROLLER_HEARTBEAT_THRESHOLD, Some "0");
     (CFG_CONTROLLER_PORT, Some "842");
     (CFG_CONNECTION_RETRY_COUNT_UNTIL_QUIET, Some "10")].

Definition cfg_controller_def_conf (config : config_t) : M nat (Z * config_t) :=
  r ← cfg_set_default_section config (Some CFG_SECT_BLUECHI);
  if negb (fst r =? 0) then mret r else
  r ← cfg_def_conf (snd r);
  if negb (fst r =? 0) then mret r else
  set_values (snd r)
    [(CFG_CONTROLLER_USE_TCP, Some "true");
     (CFG_CONTROLLER_USE_UDS, Some "true");
     (CFG_CONTROLLER_PORT, Some "842");
     (CFG_ALLOWED_NODE_NAMES, Some "");
     (CFG_HEARTBEAT_INTERVAL, Some "0");
     (CFG_NODE_HEARTBEAT_THRESHOLD, Some "6000")].

(** ** log.c: [bc_log_init] *)

Definition bc_log_init (config : config_t) (log : BcLogConfig) : Z * BcLogConfig :=
  let log := bc_log_set_level LOG_LEVEL_INFO log in
  let log := bc_log_set_log_fn (Some bc_log_to_journald_with_location) log in
  let log := bc_log_set_quiet false log in
  let level := string_to_log_level (cfg_get_value config CFG_LOG_LEVEL) in
  let log := if bool_decide (level <> LOG_LEVEL_INVALID) then bc_log_set_level level log
             else log in
  let log :=
    match cfg_get_value config CFG_LOG_TARGET with
    | Some target =>
        if streqi BC_LOG_TARGET_JOURNALD target then
          bc_log_set_log_fn (Some bc_log_to_journald_with_location) log
        else if streqi BC_LOG_TARGET_STDERR target then
          bc_log_set_log_fn (Some bc_log_to_stderr_with_location) log
        else if streqi BC_LOG_TARGET_STDERR_FULL target then
          bc_log_set_log_fn (Some bc_log_to_stderr_full_with_location) log
        else log
    | None => log
    end in
  let log :=
    match cfg_get_value config CFG_LOG_IS_QUIET with
    | Some _ => bc_log_set_quiet (cfg_get_bool_value config CFG_LOG_IS_QUIET) log
    | None => log
    end in
  (0, log).
End cfg.
