(* ===== verification/Socket.v ===== *)
(** libbluechi/socket.{h,c}: listening sockets, accepting connections, checking
    peer credentials and the TCP options of agent connections; the kernel is a
    parameter: the [k]-th system call answers with an errno or a value. And
    libbluechi/common/network.c: telling addresses from host names, resolving a
    host name and printing the D-Bus address of a TCP endpoint; [inet_pton],
    [inet_ntop] and [getaddrinfo] are parameters. *)
From S2P Require Import Prelude CString StringUtil ParseUtil Protocol.

Definition EAGAIN : Z := 11.
Definition EINTR : Z := 4.
Definition EIO : Z := 5.
Definition EPERM : Z := 1.
Definition ENODATA : Z := 61.
Definition EAFNOSUPPORT : Z := 97.
Definition EADDRINUSE : Z := 98.

Inductive domain := AF_INET | AF_INET6 | AF_UNIX.
#[export] Instance domain_eq_dec : EqDecision domain.
Proof. solve_decision. Defined.

Inductive address :=
| Any6 (port : Z)
| Any4 (port : Z)
| UnixPath (path : string).

Inductive sock_opt :=
| SO_REUSEADDR | IP_RECVERR | TCP_NODELAY | SO_KEEPALIVE | TCP_KEEPIDLE | TCP_KEEPINTVL
| TCP_KEEPCNT.

Inductive syscall :=
| SysSocket (d : domain)
| SysSetsockopt (fd : Z) (opt : sock_opt) (value : Z)
| SysBind (fd : Z) (addr : address)
| SysListen (fd : Z)
| SysAccept (fd : Z)
| SysGetDomain (fd : Z)
| SysGetPeercred (fd : Z)
| SysClose (fd : Z)
| SysUnlink (path : string).

Record ucred := mkUcred { uc_pid : Z; uc_uid : Z; uc_size_ok : bool }.

Class Kernel := {
  sys_answer : nat -> syscall -> Z + Z;    (* errno, or the value *)
  socket_domain : Z -> option domain;
  peer_ucred : Z -> ucred;
  geteuid : Z;
}.

Abbreviation syscalls := (list syscall).

Record SocketOptions := mkSocketOptions {
  tcp_keepidle : Z;
  tcp_keepintvl : Z;
  tcp_keepcnt : Z;
  ip_recv_err : bool;
}.
#[export] Instance eta_SocketOptions : EtaRecord SocketOptions := fun o =>
  mkSocketOptions (tcp_keepidle o) (tcp_keepintvl o) (tcp_keepcnt o) (ip_recv_err o).

Section socket.
Context {K : Kernel}.

Definition sys (c : syscall) : M syscalls (Z + Z) := fun t =>
  Ret (sys_answer (Datatypes.length t) c) (t ++ [c])%list.

(** [_cleanup_fd_]: leaving with an error closes the descriptor. *)
Definition fail_closing (fd errno : Z) : M syscalls Z :=
  _r ← sys (SysClose fd); mret (- errno).

Definition create_tcp_socket (port : Z) : M syscalls Z :=
  s ← sys (SysSocket AF_INET6);
  s ← match s with
      | inr fd => mret (inr (fd, true))
      | inl errno =>
          if errno =? EAFNOSUPPORT then
            s4 ← sys (SysSocket AF_INET);
            mret match s4 with inr fd => inr (fd, false) | inl errno => inl errno end
          else mret (inl errno)
      end;
  match s with
  | inl errno => mret (- errno)
  | inr (fd, use_ipv6) =>
      r ← sys (SysSetsockopt fd SO_REUSEADDR 1);
      match r with inl errno => fail_closing fd errno | inr _ =>
      r ← sys (SysBind fd (if (use_ipv6 : bool) then Any6 port else Any4 port));
      match r with inl errno => fail_closing fd errno | inr _ =>
      r ← sys (SysListen fd);
      match r with inl errno => fail_closing fd errno | inr _ => mret fd end end end
  end.

(** [sizeof(servaddr.sun_path)] is 108; the last byte is the terminator. *)
Definition create_uds_socket (path : string) : M syscalls Z :=
  s ← sys (SysSocket AF_UNIX);
  match s with
  | inl errno => mret (- errno)
  | inr fd =>
      r ← sys (SysBind fd (UnixPath (str_take 107 path)));
      match r with inl errno => fail_closing fd errno | inr _ =>
      r ← sys (SysListen fd);
      match r with inl errno => fail_closing fd errno | inr _ => mret fd end end
  end.

Definition accept_connection_request (fd : Z) : M syscalls Z :=
  r ← sys (SysAccept fd);
  match r with
  | inl errno =>
      if (errno =? EAGAIN) || (errno =? EINTR) then mret 0 else mret (- errno)
  | inr nfd => mret nfd
  end.

Definition fd_check_peercred (fd : Z) : M syscalls Z :=
  r ← sys (SysGetPeercred fd);
  match r with
  | inl errno => mret (- errno)
  | inr _ =>
      let c := peer_ucred fd in
      if negb (uc_size_ok c) then mret (- EIO)
      else if uc_pid c <=? 0 then mret (- ENODATA)
      else if negb (uc_uid c =? 0) && negb (uc_uid c =? geteuid) then mret (- EPERM)
      else mret 1
  end.

Definition fd_is_socket_tcp (fd : Z) : M syscalls bool :=
  r ← sys (SysGetDomain fd);
  match r with
  | inl _ => mret false
  | inr _ => mret (match socket_domain fd with
                   | Some AF_INET | Some AF_INET6 => true
                   | _ => false
                   end)
  end.

(** Set one option, [inl] returning from [socket_set_options]. *)
Definition setsockopt (fd : Z) (opt : sock_opt) (value : Z) : M syscalls (option Z) :=
  r ← sys (SysSetsockopt fd opt value);
  mret match r with inl errno => Some (- errno) | inr _ => None end.
Fixpoint set_options (fd : Z) (l : list (bool * (sock_opt * Z))) : M syscalls Z :=
  match l with
  | [] => mret 0
  | (false, _) :: l' => set_options fd l'
  | (true, (opt, value)) :: l' =>
      r ← setsockopt fd opt value;
      match r with
      | Some r => mret r
      | None => set_options fd l'
      end
  end.

Definition socket_set_options (fd : Z) (opts : option SocketOptions) : M syscalls Z :=
  tcp ← fd_is_socket_tcp fd;
  if negb tcp then mret 0 else
  match opts with
  | None => mret (- EINVAL)
  | Some opts =>
      set_options fd
        [(ip_recv_err opts, (IP_RECVERR, 1));
         (true, (TCP_NODELAY, 1));
         (true, (SO_KEEPALIVE, 1));
         (negb (tcp_keepidle opts =? 0), (TCP_KEEPIDLE, tcp_keepidle opts));
         (negb (tcp_keepintvl opts =? 0), (TCP_KEEPINTVL, tcp_keepintvl opts));
         (negb (tcp_keepcnt opts =? 0), (TCP_KEEPCNT, tcp_keepcnt opts))]
  end.
End socket.

(** ** SocketOptions *)

Definition socket_options_new (malloc_ok : bool) : option SocketOptions :=
  if malloc_ok then Some (mkSocketOptions 0 0 0 false) else None.

Definition MAX_TCP_KEEPIDLE : Z := 32767.
Definition MAX_TCP_KEEPINTVL : Z := 32767.
Definition MAX_TCP_KEEPCNT : Z := 127.

Definition parse_bounded (max : Z) (s : option string) : option Z :=
  match parse_long s with
  | None => None
  | Some v => if (v <? 0) || (max <? v) then None else Some v
  end.

(** The return value and the options afterwards. *)
Definition socket_options_set_tcp_keepidle (opts : SocketOptions) (s : option string) :
    Z * SocketOptions :=
  match parse_bounded MAX_TCP_KEEPIDLE s with
  | None => (- EINVAL, opts)
  | Some v => (0, opts <| tcp_keepidle := v |>)
  end.
Definition socket_options_set_tcp_keepintvl (opts : SocketOptions) (s : option string) :
    Z * SocketOptions :=
  match parse_bounded MAX_TCP_KEEPINTVL s with
  | None => (- EINVAL, opts)
  | Some v => (0, opts <| tcp_keepintvl := v |>)
  end.
Definition socket_options_set_tcp_keepcnt (opts : SocketOptions) (s : option string) :
    Z * SocketOptions :=
  match parse_bounded MAX_TCP_KEEPCNT s with
  | None => (- EINVAL, opts)
  | Some v => (0, opts <| tcp_keepcnt := v |>)
  end.
Definition socket_options_set_ip_recverr (opts : SocketOptions) (recverr : bool) :
    Z * SocketOptions :=
  (0, opts <| ip_recv_err := recverr |>).

(** What [getaddrinfo] returns: an error, or the family of the first result
    with its address. *)
Inductive resolution :=
| ResolveErr (status : Z)
| Resolved4 (addr : Z)
| Resolved6 (addr : Z)
| ResolvedOther (family : Z).

Class Network := {
  inet_pton4 : string -> option Z;
  inet_pton6 : string -> option Z;
  inet_ntop4 : Z -> string;
  inet_ntop6 : Z -> string;
}.

(** Documented behaviour: a printed address is read back as itself, and no text
    is an address of both families. *)
Class NetworkLaws (N : Network) := {
  pton_ntop4 : forall a, inet_pton4 (inet_ntop4 a) = Some a;
  pton_ntop6 : forall a, inet_pton6 (inet_ntop6 a) = Some a;
  pton_disjoint : forall s, inet_pton4 s <> None -> inet_pton6 s = None;
}.

Section network.
Context {N : Network}.

Definition EFAULT : Z := 14.

Definition is_ipv4 (domain : option string) : bool :=
  match domain with
  | None => false
  | Some d => match inet_pton4 d with Some _ => true | None => false end
  end.

Definition is_ipv6 (domain : option string) : bool :=
  match domain with
  | None => false
  | Some d => match inet_pton6 d with Some _ => true | None => false end
  end.

Definition typesafe_inet_ntop4 (malloc_ok : bool) (addr : Z) : option string :=
  if malloc_ok then Some (inet_ntop4 addr) else None.
Definition typesafe_inet_ntop6 (malloc_ok : bool) (addr : Z) : option string :=
  if malloc_ok then Some (inet_ntop6 addr) else None.

(** The return value and [*ip_address] when it was written. *)
Definition get_address (malloc_ok : bool) (resolve_addr : string -> resolution)
    (domain : option string) : Z * option string :=
  match domain with
  | None => (- EINVAL, None)
  | Some d =>
      if is_ipv4 (Some d) || is_ipv6 (Some d) then (0, None)
      else match resolve_addr d with
           | ResolveErr status => (status, None)
           | Resolved4 a =>
               match typesafe_inet_ntop4 malloc_ok a with
               | None => (- ENOMEM, None)
               | Some s => (0, Some s)
               end
           | Resolved6 a =>
               match typesafe_inet_ntop6 malloc_ok a with
               | None => (- ENOMEM, None)
               | Some s => (0, Some s)
               end
           | ResolvedOther _ => (- EFAULT, None)
           end
  end.

(** A host that could not be printed is NULL, which printf shows as "(null)". *)
Definition tcp_address (host : option string) (port : Z) : string :=
  "tcp:host=" ++ default "(null)" host ++ ",port=" ++ fmt_u port.

Definition assemble_tcp_address (malloc_ok asprintf_ok : bool) (addr : option (Z * Z)) :
    option string :=
  match addr with
  | None => None
  | Some (sin_addr, sin_port) =>
      let host := typesafe_inet_ntop4 malloc_ok sin_addr in
      if asprintf_ok then Some (tcp_address host sin_port) else None
  end.

Definition assemble_tcp_address_v6 (malloc_ok asprintf_ok : bool) (addr : option (Z * Z)) :
    option string :=
  match addr with
  | None => None
  | Some (sin6_addr, sin6_port) =>
      let host := typesafe_inet_ntop6 malloc_ok sin6_addr in
      if asprintf_ok then Some (tcp_address host sin6_port) else None
  end.
End network.
