(* ===== verification/Controller.v ===== *)
(** controller/controller.c: configuration, liveness checks and heartbeats, the
    methods of the Controller interface, the filter in front of the public bus
    and shutdown. *)
From S2P Require Import Prelude CString StringUtil ParseUtil TimeUtil Protocol Log Cfg Socket.
From S2P Require Import World Job Events Subscriptions Monitor Proxy Requests Node.

Section controller_c.
Context {E : Env} {CE : CfgEnv}.

(** ** Configuration

    The settings that are only read back when the sockets are set up. *)
Record Settings := mkSettings {
  s_use_tcp : bool;
  s_use_uds : bool;
  s_port : Z;
  s_peer_socket_options : SocketOptions;
}.
#[export] Instance eta_Settings : EtaRecord Settings := fun s =>
  mkSettings (s_use_tcp s) (s_use_uds s) (s_port s) (s_peer_socket_options s).

Definition controller_set_use_tcp (s : Settings) (v : bool) : Settings := s <| s_use_tcp := v |>.
Definition controller_set_use_uds (s : Settings) (v : bool) : Settings := s <| s_use_uds := v |>.
Definition controller_set_port (s : Settings) (port_s : string) : option Settings :=
  match parse_port (Some port_s) with
  | Some port => Some (s <| s_port := port |>)
  | None => None
  end.

Definition controller_set_heartbeat_interval (interval_msec : string) : CM bool :=
  match parse_long (Some interval_msec) with
  | Some interval =>
      upd_controller (fun c => c <| c_heartbeat_interval_msec := interval |>) ;; mret true
  | None => mret false
  end.
Definition controller_set_heartbeat_threshold (threshold_msec : string) : CM bool :=
  match parse_long (Some threshold_msec) with
  | Some threshold =>
      upd_controller (fun c => c <| c_heartbeat_threshold_msec := threshold |>) ;; mret true
  | None => mret false
  end.

Definition controller_parse_config (configfile default_file etc_file etc_dir : option string) :
    M nat (bool * option config_t) :=
  i ← cfg_initialize;
  match snd i with
  | None => mret (false, None)
  | Some config =>
      d ← cfg_controller_def_conf config;
      if negb (fst d =? 0) then mret (false, Some (snd d)) else
      l ← cfg_load_complete_configuration (snd d) default_file etc_file etc_dir configfile;
      mret (fst l =? 0, Some (snd l))
  end.

(** [AllowedNodeNames]: a node for each name not known yet. When the copy of
    the list could not be made [strtok_r] is handed NULL. *)
Definition add_missing_node (name : string) : CM void :=
  found ← controller_find_node name;
  match found with
  | Some _ => mret tt
  | None => _n ← controller_add_node (Some name); mret tt
  end.
Definition copy_str (s : string) : CM string :=
  ok ← local_ok; if (ok : bool) then mret s else crash_with InvalidPointer.
Definition apply_allowed_node_names (expected_nodes : option string) : CM void :=
  match expected_nodes with
  | None => mret tt
  | Some expected_nodes =>
      cpy ← copy_str expected_nodes;
      foreach (strtok_all cpy ",") add_missing_node
  end.

Fixpoint add_proxy_targets (node : ptr) (names : list string) : CM bool :=
  match names with
  | [] => mret true
  | name :: names' =>
      r ← node_add_allowed_proxy_target node name;
      if r <? 0 then mret false else add_proxy_targets node names'
  end.

(** One "node <name>" section; [false] makes [controller_apply_config] fail. *)
Definition apply_node_section (config : config_t) (section : string) : CM bool :=
  if negb (str_has_prefix section CFG_SECT_NODE_PREFIX) then mret true else
  let node_name := str_drop (strlen CFG_SECT_NODE_PREFIX) section in
  found ← controller_find_node node_name;
  node ← match found with
         | Some node => mret (Some (Some node))
         | None =>
             if negb (cfg_s_get_bool_value config section CFG_ALLOWED) then mret None
             else n ← controller_add_node (Some node_name); mret (Some n)
         end;
  match node with
  | None => mret true                                    (* not allowed *)
  | Some node =>
      (* a node that could not be added is only used when there is more to set *)
      ok ← match cfg_s_get_value config section CFG_REQUIRED_SELINUX_CONTEXT with
           | Some selinux_context =>
               match node with
               | Some node => node_set_required_selinux_context node selinux_context
               | None => crash_with InvalidPointer
               end
           | None => mret true
           end;
      if negb ok then mret false else
      match cfg_s_get_value config section CFG_ALLOW_DEPENDENCIES_ON with
      | Some names =>
          cpy ← copy_str names;
          match strtok_all cpy ",", node with
          | [], _ => mret true
          | names, Some node => add_proxy_targets node names
          | _, None =>
              ok ← local_ok;                              (* strdup, then the dereference *)
              if negb ok then mret false else
              ok ← local_ok;
              if negb ok then mret false else crash_with InvalidPointer
          end
      | None => mret true
      end
  end.
Fixpoint apply_node_sections (config : config_t) (sections : list string) : CM bool :=
  match sections with
  | [] => mret true
  | section :: sections' =>
      ok ← apply_node_section config section;
      if negb ok then mret false else apply_node_sections config sections'
  end.

Definition apply_socket_option (f : SocketOptions -> option string -> Z * SocketOptions)
    (value : option string) (o : SocketOptions) : option SocketOptions :=
  match value with
  | None => Some o
  | Some v => let '(r, o) := f o (Some v) in if r <? 0 then None else Some o
  end.

(** [sections] is the result of [cfg_list_sections]. *)
Definition controller_apply_config (config : config_t) (sections : option (list string))
    (s : Settings) : CM (bool * Settings) :=
  let s := controller_set_use_tcp s (cfg_get_bool_value config CFG_CONTROLLER_USE_TCP) in
  let s := controller_set_use_uds s (cfg_get_bool_value config CFG_CONTROLLER_USE_UDS) in
  match match cfg_get_value config CFG_CONTROLLER_PORT with
        | Some port => controller_set_port s port
        | None => Some s
        end with
  | None => mret (false, s)
  | Some s =>
      apply_allowed_node_names (cfg_get_value config CFG_ALLOWED_NODE_NAMES) ;;
      match sections with
      | None => mret (false, s)
      | Some sections =>
          ok ← apply_node_sections config sections;
          if negb ok then mret (false, s) else
          ok ← match cfg_get_value config CFG_HEARTBEAT_INTERVAL with
               | Some v => controller_set_heartbeat_interval v
               | None => mret true
               end;
          if negb ok then mret (false, s) else
          ok ← match cfg_get_value config CFG_NODE_HEARTBEAT_THRESHOLD with
               | Some v => controller_set_heartbeat_threshold v
               | None => mret true
               end;
          if negb ok then mret (false, s) else
          let o := s_peer_socket_options s in
          match apply_socket_option socket_options_set_tcp_keepidle
                  (cfg_get_value config CFG_TCP_KEEPALIVE_TIME) o with
          | None => mret (false, s)
          | Some o =>
          match apply_socket_option socket_options_set_tcp_keepintvl
                  (cfg_get_value config CFG_TCP_KEEPALIVE_INTERVAL) o with
          | None => mret (false, s <| s_peer_socket_options := o |>)
          | Some o =>
          match apply_socket_option socket_options_set_tcp_keepcnt
                  (cfg_get_value config CFG_TCP_KEEPALIVE_COUNT) o with
          | None => mret (false, s <| s_peer_socket_options := o |>)
          | Some o =>
              let '(_, o) := socket_options_set_ip_recverr o
                               (cfg_get_bool_value config CFG_IP_RECEIVE_ERRORS) in
              mret (true, s <| s_peer_socket_options := o |>)
          end end end
      end
  end.

(** ** Connections

    [nfd] is what [accept_connection_request] returned, [server] the
    connection [peer_bus_open_server] made of it. *)
Definition controller_accept_node_connection (nfd : Z) (server : option ptr) : CM Z :=
  if nfd <? 0 then mret (-1) else
  match server with
  | None => mret (-1)
  | Some dbus_server =>
      node ← controller_add_node None;
      match node with
      | None => mret (-1)
      | Some node =>
          set ← node_set_agent_bus node dbus_server;
          if negb set then controller_remove_node node ;; mret (-1) else mret 0
      end
  end.

(** ** Heartbeats *)

(** Whether the node is to be disconnected. *)
Definition liveness_expired (c : Controller) (n : Node) (now : Z) : bool :=
  if c_heartbeat_threshold_msec c <=? 0 then false
  else if now =? 0 then false
  else if now <? node_last_seen_monotonic n then false
  else u64 (u64 (c_heartbeat_threshold_msec c) * USEC_PER_MSEC) <?
       u64 (now - node_last_seen_monotonic n).

Definition controller_check_node_liveness (p : ptr) (now : Z) : CM bool :=
  c ← controller;
  n ← load (T := Node) p;
  if liveness_expired c n now then node_disconnect p ;; mret false else mret true.

Definition heartbeat_node (now : Z) (p : ptr) : CM void :=
  n ← load (T := Node) p;
  if negb (node_is_online n) then mret tt else
  alive ← controller_check_node_liveness p now;
  if negb alive then mret tt else
  n ← load (T := Node) p;
  match node_agent_bus n with
  | Some b => _r ← bus (AgentEmitSignal b "Heartbeat"); mret tt
  | None => mret tt
  end.

(** [reset] is what re-arming the timer returns. *)
Definition controller_heartbeat_timer_callback (reset : Z) : CM Z :=
  now ← get_time_micros_monotonic;
  c ← controller;
  foreach (c_nodes c) (heartbeat_node now) ;;
  mret (if reset <? 0 then reset else 0).

Definition CLOCK_BOOTTIME : Z := 7.
Definition controller_reset_heartbeat_timer {EV : SdEvent} (c : Controller)
    (event_source : option ptr) : M EventWorld (Z * option ptr) :=
  event_reset_time_relative event_source CLOCK_BOOTTIME
    (u64 (c_heartbeat_interval_msec c * USEC_PER_MSEC)) 0 0
    (Some "controller-heartbeat-timer-source") false.

(** sd-event refuses a source that is NULL. *)
Definition controller_setup_heartbeat_timer {EV : SdEvent} (c : Controller) : M EventWorld Z :=
  if c_heartbeat_interval_msec c <=? 0 then mret 0 else
  x ← controller_reset_heartbeat_timer c None;
  let '(r, event_source) := x in
  if r <? 0 then mret r else
  match event_source with
  | Some source => a ← ev_call (EvSetFloating source); mret (ea_r a)
  | None => mret (- EINVAL)
  end.

(** ** Methods of the Controller interface *)

Fixpoint encode_nodes (nodes : list ptr) (reply : list value) : CM (option (list value)) :=
  match nodes with
  | [] => mret (Some reply)
  | p :: nodes' =>
      n ← load (T := Node) p;
      ok ← build_steps 3;                                 (* open, append, close *)
      if negb ok then mret None
      else encode_nodes nodes'
             (app reply [str_arg (node_name n); VObject (default "" (node_object_path n));
                         VString (node_get_status n); str_arg (node_peer_ip n)])
  end.
(** Errors are replied to [reply], which sd-bus refuses. *)
Definition controller_method_list_nodes (m : ptr) : CM Z :=
  ok ← build_steps 2;
  if negb ok then mret (- EINVAL) else
  c ← controller;
  entries ← encode_nodes (c_nodes c) [];
  match entries with
  | None => mret (- EINVAL)
  | Some entries =>
      ok ← local_ok;
      if negb ok then mret (- EINVAL) else reply_method_return m entries
  end.

Definition controller_method_get_node (m : ptr) (args : read string) : CM Z :=
  match args with
  | ReadErr _ => reply_method_errorf m SD_BUS_ERROR_INVALID_ARGS
  | ReadOk node_name_ =>
      found ← controller_find_node node_name_;
      match found with
      | None => reply_method_errorf m SD_BUS_ERROR_SERVICE_UNKNOWN
      | Some p =>
          n ← load (T := Node) p;
          ok ← build_steps 2;
          if negb ok then mret (- EINVAL)
          else reply_method_return m [VObject (default "" (node_object_path n))]
      end
  end.

Definition controller_method_metrics_enable (m : ptr) : CM Z :=
  c ← controller;
  if c_metrics_enabled c then reply_method_errorf m SD_BUS_ERROR_INCONSISTENT_MESSAGE else
  r ← metrics_export;
  if r <? 0 then reply_method_errorf m SD_BUS_ERROR_FAILED else
  upd_controller (fun c => c <| c_metrics_enabled := true |>) ;;
  foreach (c_nodes c) node_enable_metrics ;;
  reply_method_return m [].

Definition controller_method_metrics_disable (m : ptr) : CM Z :=
  c ← controller;
  if negb (c_metrics_enabled c) then reply_method_errorf m SD_BUS_ERROR_INCONSISTENT_MESSAGE else
  upd_controller (fun c => c <| c_metrics_slot := false |> <| c_metrics_enabled := false |>) ;;
  foreach (c_nodes c) node_disable_metrics ;;
  reply_method_return m [].

Definition controller_method_set_log_level (m : ptr) (args : read string) : CM Z :=
  match args with
  | ReadErr _ => reply_method_errorf m SD_BUS_ERROR_FAILED
  | ReadOk level =>
      let loglevel := string_to_log_level (Some level) in
      if bool_decide (loglevel = LOG_LEVEL_INVALID) then
        reply_method_errorf m SD_BUS_ERROR_INVALID_ARGS
      else
        modify (fun w => w <| w_log ::= bc_log_set_level loglevel |>) ;;
        reply_method_return m []
  end.

Definition controller_property_get_status : CM value :=
  c ← controller; mret (VString (controller_get_system_status c)).
Definition controller_property_get_loglevel : CM value :=
  log ← gets w_log; mret (VString (log_level_to_string (log_level log))).
Definition controller_property_get_log_target : CM value :=
  log ← gets w_log; mret (str_arg (log_target_to_str (log_fn log))).

(** [0] lets the message pass. *)
Definition controller_dbus_filter (m : ptr) (object_path : string) (iface : option string) :
    CM Z :=
  match iface with
  | Some iface =>
      if streq iface NODE_INTERFACE then
        found ← controller_find_node_by_path object_path;
        match found with
        | Some p =>
            n ← load (T := Node) p;
            if negb (node_has_agent n) then reply_method_errorf m BC_BUS_ERROR_OFFLINE
            else mret 0
        | None => mret 0
        end
      else mret 0
  | None => mret 0
  end.

(** ** Start and stop *)

Fixpoint export_nodes (nodes : list ptr) : CM bool :=
  match nodes with
  | [] => mret true
  | p :: nodes' => ok ← node_export p; if negb ok then mret false else export_nodes nodes'
  end.

(** [controller_start], up to the object of the controller on the public bus. *)
Definition controller_publish : CM bool :=
  c ← controller;
  ok ← export_nodes (c_nodes c);
  if negb ok then mret false else
  r ← bus (ApiRequestName "org.eclipse.bluechi");
  if r <? 0 then mret false else
  r ← bus ApiAddFilter;
  if r <? 0 then mret false else
  r ← bus (ApiMatchSignal "NameOwnerChanged");
  if r <? 0 then mret false else
  r ← bus (ApiAddVtable BC_CONTROLLER_OBJECT_PATH CONTROLLER_INTERFACE);
  mret (negb (r <? 0)).

Definition controller_stop : CM void :=
  c ← controller;
  foreach (c_jobs c) (fun job => controller_remove_job job "cancelled due to shutdown") ;;
  c ← controller;
  foreach (c_all_subscriptions c) controller_remove_subscription ;;
  c ← controller;
  foreach (c_monitors c) controller_remove_monitor ;;
  c ← controller;
  let status_changed := 0 <? c_number_of_nodes_online c in
  foreach (c_nodes c) controller_remove_node ;;
  c ← controller;
  foreach (c_anonymous_nodes c) controller_remove_node ;;
  if status_changed then
    c ← controller; controller_check_system_status (c_number_of_nodes_online c)
  else mret tt.

(** The assertions of [controller_unref] on the last reference. *)
Definition controller_unref : CM void :=
  c ← controller;
  c_assert (0 <? c_ref_count c) ;;
  upd_controller (fun c => c <| c_ref_count ::= Z.pred |>) ;;
  c ← controller;
  if negb (c_ref_count c =? 0) then mret tt else
  c_assert (bool_decide (c_jobs c = [])) ;;
  c_assert (bool_decide (c_all_subscriptions c = [])) ;;
  c_assert (bool_decide (c_monitors c = [])) ;;
  c_assert (bool_decide (c_nodes c = [])) ;;
  c_assert (bool_decide (c_anonymous_nodes c = [])).
End controller_c.
