(* ===== verification/WorldFacts.v ===== *)
(** Reasoning rules for the controller's monad: symbolic execution of loads,
    updates and calls, and the relation [quiet] between states that differ only
    in the calls made and in reference counts of proxy monitors. *)
From S2P Require Import Prelude CString StringUtil Protocol Log World Job Events.

Local Open Scope list_scope.

(** ** Stores *)

Class StoreLaws (T : Type) `{Store T} := {
  store_get_upd : forall (f : gmap ptr T -> gmap ptr T) w, store_get (store_upd f w) = f (store_get w);
  store_upd_upd : forall (f g : gmap ptr T -> gmap ptr T) w,
    store_upd f (store_upd g w) = store_upd (fun m => f (g m)) w;
  store_upd_ext : forall (f g : gmap ptr T -> gmap ptr T) w,
    f (store_get w) = g (store_get w) -> store_upd f w = store_upd g w;
}.
#[export] Instance storelaws_Node : StoreLaws Node.
Proof. split; [done..|]. intros f g w. cbn. unfold field_update. by intros ->. Qed.
#[export] Instance storelaws_Job : StoreLaws Job.
Proof. split; [done..|]. intros f g w. cbn. unfold field_update. by intros ->. Qed.
#[export] Instance storelaws_Monitor : StoreLaws Monitor.
Proof. split; [done..|]. intros f g w. cbn. unfold field_update. by intros ->. Qed.
#[export] Instance storelaws_Subscription : StoreLaws Subscription.
Proof. split; [done..|]. intros f g w. cbn. unfold field_update. by intros ->. Qed.
#[export] Instance storelaws_ProxyMonitor : StoreLaws ProxyMonitor.
Proof. split; [done..|]. intros f g w. cbn. unfold field_update. by intros ->. Qed.
#[export] Instance storelaws_AgentRequest : StoreLaws AgentRequest.
Proof. split; [done..|]. intros f g w. cbn. unfold field_update. by intros ->. Qed.
#[export] Instance storelaws_JobSetup : StoreLaws JobSetup.
Proof. split; [done..|]. intros f g w. cbn. unfold field_update. by intros ->. Qed.
#[export] Instance storelaws_AgentFleetRequest : StoreLaws AgentFleetRequest.
Proof. split; [done..|]. intros f g w. cbn. unfold field_update. by intros ->. Qed.

Section rules.
Context `{Store T}.

Lemma wp_load (p : ptr) (x : T) Q w :
  store_get w !! p = Some x -> Q x w -> wp (load (T := T) p) Q w.
Proof. intros Hx HQ. unfold load. by eapply wp_deref. Qed.

Lemma wp_update (p : ptr) (f : T -> T) (x : T) Q w :
  store_get w !! p = Some x -> Q tt (store_upd <[p := f x]> w) -> wp (update p f) Q w.
Proof.
  intros Hx HQ. unfold update. apply wp_bind. eapply wp_load; [done|]. by apply wp_modify.
Qed.

Lemma wp_free (p : ptr) (x : T) Q w :
  store_get w !! p = Some x -> Q tt (store_upd (T := T) (delete p) w) -> wp (free (T := T) p) Q w.
Proof.
  intros Hx HQ. unfold free. apply wp_bind. eapply wp_load; [done|]. by apply wp_modify.
Qed.

Lemma wp_new_object (x : T) Q w :
  Q (w_next_ptr w) (store_upd <[w_next_ptr w := x]> (w <| w_next_ptr ::= Pos.succ |>)) ->
  wp (new_object x) Q w.
Proof. done. Qed.
End rules.

Section double.
Context `{StoreLaws T}.
Lemma store_insert_insert (p : ptr) (x y : T) w :
  store_upd <[p := y]> (store_upd <[p := x]> w) = store_upd <[p := y]> w.
Proof. rewrite store_upd_upd. apply store_upd_ext, insert_insert_eq. Qed.
Lemma store_delete_insert (p : ptr) (x : T) w :
  store_upd (T := T) (delete p) (store_upd <[p := x]> w) = store_upd (T := T) (delete p) w.
Proof. rewrite store_upd_upd. apply store_upd_ext, delete_insert_eq. Qed.
End double.

Definition emit (c : call) (w : World) : World := w <| w_trace ::= fun t => app t [c] |>.
Definition tick (w : World) : World := w <| w_locals ::= S |>.

Section call_rules.
Context {E : Env}.

Lemma wp_bus c Q w :
  Q (bus_result (Datatypes.length (w_trace w)) c) (emit c w) -> wp (bus c) Q w.
Proof. done. Qed.

Lemma wp_local Q w : Q (local_result (w_locals w)) (tick w) -> wp local Q w.
Proof. done. Qed.

Lemma wp_local_ok Q w : Q (negb (local_result (w_locals w) <? 0)) (tick w) -> wp local_ok Q w.
Proof. done. Qed.

Lemma wp_controller Q w : Q (w_controller w) w -> wp controller Q w.
Proof. done. Qed.

Lemma wp_upd_controller f Q w :
  Q tt (w <| w_controller ::= f |>) -> wp (upd_controller f) Q w.
Proof. done. Qed.

Lemma wp_list_remove_from p l Q w :
  p ∈ l -> Q (remove_first p l) w -> wp (list_remove_from p l) Q w.
Proof.
  intros Hin HQ. unfold list_remove_from. apply wp_bind, wp_assert; [|by apply wp_ret].
  by apply bool_decide_eq_true.
Qed.
End call_rules.

(** ** Symbolic execution

    [wp_go] runs a program as far as loads and updates resolve. *)
Ltac wp_one :=
  lazymatch goal with
  | |- wp (mbind _ _) _ _ => apply wp_bind
  | |- wp (mret _) _ _ => apply wp_ret
  | |- wp (bus _) _ _ => apply wp_bus
  | |- wp local_ok _ _ => apply wp_local_ok
  | |- wp local _ _ => apply wp_local
  | |- wp controller _ _ => apply wp_controller
  | |- wp (upd_controller _) _ _ => apply wp_upd_controller
  | |- wp (gets _) _ _ => apply wp_gets
  | |- wp (modify _) _ _ => apply wp_modify
  | |- wp (load _) _ _ => eapply wp_load; [eassumption|]
  | |- wp (update _ _) _ _ => eapply wp_update; [eassumption|]
  | |- wp (new_object _) _ _ => apply wp_new_object
  end.
Ltac wp_go := repeat (wp_one; cbn beta iota).

(** ** Quiet steps *)

Definition forget_refs (m : ProxyMonitor) : ProxyMonitor := m <| pm_ref_count := 0 |>.
Definition erase (w : World) : World :=
  w <| w_trace := [] |> <| w_locals := O |> <| w_proxies ::= fmap forget_refs |>.

(** Only calls were made, and references to proxy monitors taken. *)
Definition quiet (w w' : World) : Prop := erase w = erase w'.

Lemma quiet_refl w : quiet w w. Proof. done. Qed.
Lemma quiet_trans w1 w2 w3 : quiet w1 w2 -> quiet w2 w3 -> quiet w1 w3.
Proof. unfold quiet. congruence. Qed.
Lemma quiet_sym w1 w2 : quiet w1 w2 -> quiet w2 w1.
Proof. unfold quiet. congruence. Qed.
#[export] Instance quiet_equivalence : Equivalence quiet.
Proof. split; [exact quiet_refl|exact quiet_sym|exact quiet_trans]. Qed.

Lemma quiet_emit c w : quiet w (emit c w). Proof. done. Qed.
Lemma quiet_tick w : quiet w (tick w). Proof. done. Qed.

Lemma quiet_nodes w w' : quiet w w' -> w_nodes w' = w_nodes w.
Proof. intros H. symmetry. exact (f_equal w_nodes H). Qed.
Lemma quiet_subs w w' : quiet w w' -> w_subs w' = w_subs w.
Proof. intros H. symmetry. exact (f_equal w_subs H). Qed.
Lemma quiet_monitors w w' : quiet w w' -> w_monitors w' = w_monitors w.
Proof. intros H. symmetry. exact (f_equal w_monitors H). Qed.
Lemma quiet_jobs w w' : quiet w w' -> w_jobs w' = w_jobs w.
Proof. intros H. symmetry. exact (f_equal w_jobs H). Qed.
Lemma quiet_controller w w' : quiet w w' -> w_controller w' = w_controller w.
Proof. intros H. symmetry. exact (f_equal w_controller H). Qed.
Lemma quiet_proxies w w' p : quiet w w' ->
  forget_refs <$> w_proxies w' !! p = forget_refs <$> w_proxies w !! p.
Proof.
  intros H. pose proof (f_equal w_proxies H) as Hp. cbn in Hp.
  by rewrite <- !lookup_fmap, Hp.
Qed.

Lemma quiet_proxy w w' p m : quiet w w' -> w_proxies w !! p = Some m ->
  exists m', w_proxies w' !! p = Some m' /\ forget_refs m' = forget_refs m.
Proof.
  intros H Hm. pose proof (quiet_proxies w w' p H) as Hp. rewrite Hm in Hp. cbn in Hp.
  apply fmap_Some in Hp as (m' & ? & ?). eauto.
Qed.

(** The parts of the state that no quiet step touches may be updated before or
    after it. *)
Lemma quiet_with_nodes g w w' : quiet w w' -> quiet (w <| w_nodes ::= g |>) (w' <| w_nodes ::= g |>).
Proof. intros H. exact (f_equal (fun w => w <| w_nodes ::= g |>) H). Qed.

(** Taking a reference to a proxy monitor is quiet. *)
Lemma quiet_proxy_ref w p m f : w_proxies w !! p = Some m ->
  forget_refs (f m) = forget_refs m ->
  quiet w (store_upd (T := ProxyMonitor) <[p := f m]> w).
Proof.
  intros Hm Hf. unfold quiet, erase. destruct w; cbn in *. f_equal.
  rewrite fmap_insert, Hf, <- fmap_insert, insert_id; done.
Qed.

Ltac quiet_rewrite :=
  repeat match goal with
  | H : quiet _ ?w |- context [w_nodes ?w] => rewrite (quiet_nodes _ _ H)
  | H : quiet _ ?w |- context [w_subs ?w] => rewrite (quiet_subs _ _ H)
  | H : quiet _ ?w |- context [w_monitors ?w] => rewrite (quiet_monitors _ _ H)
  | H : quiet _ ?w |- context [w_controller ?w] => rewrite (quiet_controller _ _ H)
  end.

(** ** Lists of addresses *)

Lemma remove_first_app_r x l1 l2 : x ∉ l1 -> remove_first x (l1 ++ l2) = l1 ++ remove_first x l2.
Proof.
  induction l1 as [|y l1 IH]; simpl; [done|]. intros [Hne Hl]%not_elem_of_cons.
  rewrite decide_False by done. by rewrite IH.
Qed.

Lemma remove_first_notin x l : x ∉ l -> remove_first x l = l.
Proof.
  induction l as [|y l IH]; simpl; [done|]. intros [Hne Hl]%not_elem_of_cons.
  rewrite decide_False by done. by rewrite IH.
Qed.

Lemma remove_first_elem x y l : y ∈ remove_first x l -> y ∈ l.
Proof.
  induction l as [|z l IH]; simpl; [done|]. case_decide; rewrite ?elem_of_cons; tauto.
Qed.

Lemma remove_first_ne x y l : y <> x -> y ∈ l -> y ∈ remove_first x l.
Proof.
  induction l as [|z l IH]; simpl; [done|]. intros Hne [->|Hy]%elem_of_cons.
  - rewrite decide_False by done. by left.
  - case_decide; [done|]. right. auto.
Qed.

Lemma remove_first_nodup x l : NoDup l -> NoDup (remove_first x l).
Proof.
  induction l as [|z l IH]; simpl; [done|]. intros [Hz Hl]%NoDup_cons. case_decide; [done|].
  apply NoDup_cons. split; [|auto]. intros ?%remove_first_elem. done.
Qed.

Lemma remove_first_gone x l : NoDup l -> x ∉ remove_first x l.
Proof.
  induction l as [|z l IH]; simpl; [intros _ ?%not_elem_of_nil; done|].
  intros [Hz Hl]%NoDup_cons. case_decide; [by subst|].
  apply not_elem_of_cons. auto.
Qed.

Lemma remove_first_permutation x l : x ∈ l -> l ≡ₚ x :: remove_first x l.
Proof.
  induction l as [|y l IH]; simpl; [by intros ?%not_elem_of_nil|].
  intros Hx. case_decide as Hxy; [by subst|].
  apply elem_of_cons in Hx as [?|Hx]; [done|]. rewrite (IH Hx) at 1. constructor.
Qed.

Lemma count_remove_first x y l :
  count y (remove_first x l) = (count y l - if decide (y = x) then 1 else 0)%nat.
Proof.
  induction l as [|z l IH]; [by case_decide|]. cbn [remove_first].
  destruct (decide (x = z)) as [->|Hz]; rewrite !count_cons.
  - case_decide; lia.
  - rewrite IH. destruct (decide (y = z)) as [->|]; [|done].
    rewrite decide_False by done. lia.
Qed.

(** ** Counting in a store *)

Section count.
Context {T : Type}.
Implicit Types (P : T -> bool) (m : gmap ptr T).

Definition bit (b : bool) : Z := if b then 1 else 0.
Definition count_map P m : Z :=
  Z.of_nat (Datatypes.length (List.filter P (map_to_list m).*2)).

Lemma filter_perm_length P (l l' : list T) :
  l ≡ₚ l' -> Datatypes.length (List.filter P l) = Datatypes.length (List.filter P l').
Proof.
  induction 1 as [|x l l' _ IH|x y l|]; cbn; [done| | |congruence].
  - destruct (P x); cbn; congruence.
  - by destruct (P x), (P y).
Qed.

Lemma count_map_insert P m p x :
  m !! p = None -> count_map P (<[p:=x]> m) = bit (P x) + count_map P m.
Proof.
  intros Hp. unfold count_map, bit.
  rewrite (filter_perm_length P _ ((p, x) :: map_to_list m).*2).
  - cbn. destruct (P x); cbn; lia.
  - by rewrite map_to_list_insert.
Qed.

Lemma count_map_delete P m p x :
  m !! p = Some x -> count_map P (delete p m) = count_map P m - bit (P x).
Proof.
  intros Hp. rewrite <- (insert_delete_id m p x Hp) at 2.
  rewrite count_map_insert by apply lookup_delete_eq. lia.
Qed.

Lemma count_map_update P m p x y :
  m !! p = Some x -> count_map P (<[p:=y]> m) = count_map P m - bit (P x) + bit (P y).
Proof.
  intros Hp. rewrite <- insert_delete_eq, count_map_insert by apply lookup_delete_eq.
  rewrite (count_map_delete P m p x Hp). lia.
Qed.

Lemma count_map_zero P m :
  (forall p x, m !! p = Some x -> P x = false) -> count_map P m = 0.
Proof.
  intros H. unfold count_map.
  rewrite (List.filter_ext_in P (fun _ => false)).
  - by induction (map_to_list m).*2.
  - intros x Hx. apply list_elem_of_In, list_elem_of_fmap in Hx as ([p y] & -> & Hin).
    eapply H. by apply elem_of_map_to_list.
Qed.

Lemma count_map_pos P m p x : m !! p = Some x -> P x = true -> 1 <= count_map P m.
Proof.
  intros Hp HP. rewrite <- (insert_delete_id m p x Hp), count_map_insert by apply lookup_delete_eq.
  rewrite HP. unfold count_map, bit. lia.
Qed.

Definition map_card m : Z := Z.of_nat (size m).
Lemma map_card_insert m p x : m !! p = None -> map_card (<[p:=x]> m) = 1 + map_card m.
Proof. intros Hp. unfold map_card. rewrite map_size_insert_None by done. lia. Qed.
Lemma map_card_update m p x y : m !! p = Some x -> map_card (<[p:=y]> m) = map_card m.
Proof. intros Hp. unfold map_card. by rewrite map_size_insert_Some. Qed.
Lemma map_card_delete m p x : m !! p = Some x -> map_card (delete p m) = map_card m - 1.
Proof.
  intros Hp. rewrite <- (insert_delete_id m p x Hp) at 2.
  rewrite map_card_insert by apply lookup_delete_eq. lia.
Qed.
Lemma map_card_nonneg m : 0 <= map_card m.
Proof. unfold map_card. lia. Qed.

(** A sum over a store. *)
Definition sum_map (f : T -> Z) m : Z := map_fold (fun _ x n => f x + n) 0 m.
Lemma sum_map_insert f m p x : m !! p = None -> sum_map f (<[p:=x]> m) = f x + sum_map f m.
Proof.
  intros Hp. unfold sum_map. rewrite (map_fold_insert_L _ _ p x m); [done| |done].
  intros. lia.
Qed.
Lemma sum_map_delete f m p x : m !! p = Some x -> sum_map f (delete p m) = sum_map f m - f x.
Proof.
  intros Hp. rewrite <- (insert_delete_id m p x Hp) at 2.
  rewrite sum_map_insert by apply lookup_delete_eq. lia.
Qed.
Lemma sum_map_update f m p x y :
  m !! p = Some x -> sum_map f (<[p:=y]> m) = sum_map f m - f x + f y.
Proof.
  intros Hp. rewrite <- insert_delete_eq, sum_map_insert by apply lookup_delete_eq.
  rewrite (sum_map_delete f m p x Hp). lia.
Qed.
Lemma sum_map_nonneg f m : (forall p x, m !! p = Some x -> 0 <= f x) -> 0 <= sum_map f m.
Proof.
  intros H. unfold sum_map.
  apply (map_fold_weak_ind (fun s m' => m' ⊆ m -> 0 <= s)); [lia| |done].
  intros p x m' s Hp IH Hm. assert (m !! p = Some x) as Hx.
  { eapply lookup_weaken; [apply lookup_insert_eq|exact Hm]. }
  specialize (H p x Hx). enough (0 <= s) by lia. apply IH. etrans; [|exact Hm].
  by apply insert_subseteq.
Qed.
Lemma sum_map_pos f m p x :
  (forall q y, m !! q = Some y -> 0 <= f y) -> m !! p = Some x -> f x <= sum_map f m.
Proof.
  intros H Hp. pose proof (sum_map_delete f m p x Hp). enough (0 <= sum_map f (delete p m)) by lia.
  apply sum_map_nonneg. intros q y [_ Hq]%lookup_delete_Some. eauto.
Qed.
End count.

Lemma elem_of_remove_first x y l : NoDup l -> y ∈ remove_first x l <-> y ∈ l /\ y <> x.
Proof.
  intros Hnd. split; [|intros [? ?]; by apply remove_first_ne].
  intros Hy. split; [by eapply remove_first_elem|]. intros ->. by eapply remove_first_gone.
Qed.

(** Split on whether [x] is the key [p] that was updated. *)
Ltac at_key x p :=
  destruct (decide (x = p)) as [->|?];
  [rewrite ?lookup_insert_eq, ?lookup_delete_eq in *
  |rewrite ?lookup_insert_ne, ?lookup_delete_ne in * by congruence].

Lemma is_Some_update {T} (m : gmap ptr T) p x y q :
  m !! p = Some x -> is_Some (<[p := y]> m !! q) <-> is_Some (m !! q).
Proof. intros Hp. at_key q p; rewrite ?Hp; split; eauto. Qed.
