(* ===== verification/EventFacts.v ===== *)
(** The delivery of events: what it does to one subscription (it never crashes on a live
    subscription, changes nothing but the calls made, and makes exactly the calls of
    [sub_calls] when no allocation fails), and who receives a unit event, the unique
    subscriptions of a unit. *)
From S2P Require Import Prelude CString StringUtil Protocol Log World Job Events WorldFacts.
From S2P Require Import Subscriptions.
Local Open Scope list_scope.

(** Memory is available and local message construction succeeds. *)
Definition no_local_failure (E : Env) : Prop := forall n, 0 <= local_result n.

Definition target_live (w : World) (t : sub_target) : Prop :=
  match t with
  | NoMonitor => False
  | OfMonitor p => is_Some (w_monitors w !! p)
  | OfProxyMonitor p =>
      exists m, w_proxies w !! p = Some m /\ is_Some (w_nodes w !! pm_node m)
  end.
Definition sub_live (w : World) (sub : ptr) : Prop :=
  exists s, w_subs w !! sub = Some s /\ target_live w (sub_monitor s).

(** ** The calls of an event *)

(** The signal a monitor sends. *)
Definition event_signal (node : option string) (unit : string) (e : unit_event) :
    string * list value :=
  match e with
  | UnitPropertiesChanged interface m =>
      ("UnitPropertiesChanged"%string, [str_arg node; VString unit; VString interface; VCopy m])
  | UnitNew reason => ("UnitNew"%string, [str_arg node; VString unit; VString reason])
  | UnitStateChanged a s r =>
      ("UnitStateChanged"%string, [str_arg node; VString unit; VString a; VString s; VString r])
  | UnitRemoved reason => ("UnitRemoved"%string, [str_arg node; VString unit; VString reason])
  end.

(** The call a proxy monitor makes. *)
Definition event_proxy_call (e : unit_event) : option (string * list value) :=
  match e with
  | UnitPropertiesChanged _ _ => None
  | UnitNew reason => Some ("TargetNew"%string, [VString reason])
  | UnitStateChanged a s r => Some ("TargetStateChanged"%string, [VString a; VString s; VString r])
  | UnitRemoved reason => Some ("TargetRemoved"%string, [VString reason])
  end.

Definition monitor_recipients (mon : Monitor) : list string :=
  mon_owner mon :: map peer_name (mon_peers mon).

Definition target_calls (w : World) (t : sub_target) (node : option string) (unit : string)
    (e : unit_event) : list call :=
  match t with
  | NoMonitor => []
  | OfMonitor p =>
      match w_monitors w !! p with
      | None => []
      | Some mon =>
          let sig := event_signal node unit e in
          map (fun dest => ApiSendTo dest (mon_object_path mon) MONITOR_INTERFACE (fst sig) (snd sig))
              (monitor_recipients mon)
      end
  | OfProxyMonitor p =>
      match event_proxy_call e, w_proxies w !! p with
      | Some (method, args), Some m =>
          match w_nodes w !! pm_node m with
          | Some n =>
              match node_agent_bus n with
              | Some b => [ProxyCallAsync b (pm_proxy_object_path m) method args p]
              | None => []
              end
          | None => []
          end
      | _, _ => []
      end
  end.

Definition target_of (w : World) (sub : ptr) : sub_target :=
  match w_subs w !! sub with Some s => sub_monitor s | None => NoMonitor end.
Definition sub_calls (w : World) (sub : ptr) (node : option string) (unit : string)
    (e : unit_event) : list call :=
  target_calls w (target_of w sub) node unit e.

(** ** Quiet steps keep all of this *)

Lemma quiet_target_live w w' t : quiet w w' -> target_live w t -> target_live w' t.
Proof.
  intros H. destruct t as [|p|p]; cbn; [done| |].
  - by rewrite (quiet_monitors _ _ H).
  - intros (m & Hm & Hn). destruct (quiet_proxy _ _ _ _ H Hm) as (m' & Hm' & Hf).
    exists m'. split; [done|]. rewrite (quiet_nodes _ _ H).
    by rewrite (f_equal pm_node Hf : pm_node m' = pm_node m).
Qed.

Lemma quiet_sub_live w w' sub : quiet w w' -> sub_live w sub -> sub_live w' sub.
Proof.
  intros H (s & Hs & Ht). exists s. rewrite (quiet_subs _ _ H). split; [done|].
  by eapply quiet_target_live.
Qed.

Lemma quiet_target_calls w w' t node unit e :
  quiet w w' -> target_calls w' t node unit e = target_calls w t node unit e.
Proof.
  intros H. destruct t as [|p|p]; cbn; [done| |].
  - by rewrite (quiet_monitors _ _ H).
  - destruct (event_proxy_call e) as [[method args]|]; [|done].
    pose proof (quiet_proxies w w' p H) as Hp. rewrite (quiet_nodes _ _ H).
    destruct (w_proxies w !! p) as [m|], (w_proxies w' !! p) as [m'|]; try done.
    apply (inj Some) in Hp. change (forget_refs m' = forget_refs m) in Hp.
    by rewrite (f_equal pm_node Hp : pm_node m' = pm_node m),
      (f_equal pm_proxy_object_path Hp : pm_proxy_object_path m' = pm_proxy_object_path m).
Qed.

Lemma quiet_target_of w w' sub : quiet w w' -> target_of w' sub = target_of w sub.
Proof. intros H. unfold target_of. by rewrite (quiet_subs _ _ H). Qed.

Lemma quiet_sub_calls w w' sub node unit e :
  quiet w w' -> sub_calls w' sub node unit e = sub_calls w sub node unit e.
Proof.
  intros H. unfold sub_calls. rewrite (quiet_target_of _ _ _ H). by apply quiet_target_calls.
Qed.

(** ** Specifications *)

Section events.
Context {E : Env}.

(** [quiet], and the calls [l] were made if nothing failed. *)
Definition calls (l : list call) (w w' : World) : Prop :=
  quiet w w' /\ (no_local_failure E -> w_trace w' = w_trace w ++ l).

Lemma calls_nil w : calls [] w w.
Proof. split; [done|]. intros _. by rewrite app_nil_r. Qed.

Lemma calls_trans l1 l2 w1 w2 w3 : calls l1 w1 w2 -> calls l2 w2 w3 -> calls (l1 ++ l2) w1 w3.
Proof.
  intros [H1 T1] [H2 T2]. split; [by etrans|]. intros Hf. by rewrite T2, T1, app_assoc.
Qed.

Lemma calls_tick w : calls [] w (tick w).
Proof. split; [done|]. intros _. cbn. by rewrite app_nil_r. Qed.

Lemma calls_emit c w : calls [c] w (emit c w).
Proof. split; done. Qed.

(** Sequencing for [wp]. *)
Lemma wp_calls_bind {A B} (m : CM A) (k : A -> CM B) l1 l2 w :
  wp m (fun a w' => calls l1 w w' /\ wp (k a) (fun _ w'' => calls l2 w' w'') w') w ->
  wp (m ≫= k) (fun _ w' => calls (l1 ++ l2) w w') w.
Proof.
  intros H. apply wp_bind. eapply wp_mono; [exact H|]. cbn. intros a w' [H1 H2].
  eapply wp_mono; [exact H2|]. cbn. intros. by eapply calls_trans.
Qed.

Lemma local_ok_true w : no_local_failure E -> negb (local_result (w_locals w) <? 0) = true.
Proof. intros H. specialize (H (w_locals w)). apply negb_true_iff, Z.ltb_ge. lia. Qed.

Lemma wp_build_steps n w :
  wp (build_steps n) (fun ok w' => calls [] w w' /\ (no_local_failure E -> ok = true)) w.
Proof.
  revert w. induction n as [|n IH]; intros w; cbn [build_steps].
  - apply wp_ret. split; [apply calls_nil|done].
  - apply wp_bind, wp_local_ok. destruct (negb (local_result (w_locals w) <? 0)) eqn:Hok; cbn.
    + eapply wp_mono; [apply IH|]. cbn. intros ok w' [Hc Hok']. split; [|done].
      by apply (calls_trans [] [] w (tick w) w' (calls_tick w)).
    + apply wp_ret. split; [apply calls_tick|]. intros Hf.
      rewrite local_ok_true in Hok; done.
Qed.

Lemma wp_assemble_signal n member args w :
  wp (assemble_signal n member args)
     (fun sig w' => calls [] w w' /\ (no_local_failure E -> sig = Some (member, args)) /\
                    (sig = Some (member, args) \/ sig = None)) w.
Proof.
  unfold assemble_signal. apply wp_bind. eapply wp_mono; [apply wp_build_steps|]. cbn.
  intros ok w' [Hc Hok]. apply wp_ret. split; [done|]. destruct ok.
  - split; [done|by left].
  - split; [|by right]. intros Hf. by specialize (Hok Hf).
Qed.

Lemma wp_monitor_send_to p mon dest n member args w :
  w_monitors w !! p = Some mon ->
  wp (monitor_send_to p dest (assemble_signal n member args))
     (fun _ w' => calls [ApiSendTo dest (mon_object_path mon) MONITOR_INTERFACE member args] w w') w.
Proof.
  intros Hm. unfold monitor_send_to. wp_one. wp_one. wp_one.
  eapply wp_mono; [apply wp_assemble_signal|]. cbn. intros sig w' (Hc & Hok & [-> | ->]).
  - wp_go. apply (calls_trans [] _ w w' _ Hc). apply calls_emit.
  - wp_go. destruct Hc as [Hq Ht]. split; [done|]. intros Hf. by specialize (Hok Hf).
Qed.

(** A loop whose rounds make calls, over a list. *)
Lemma wp_foreach_calls {A} (l : list A) (body : A -> CM void) (f : A -> list call)
  (I : World -> Prop) w :
  I w -> (forall w w', quiet w w' -> I w -> I w') ->
  (forall a w', a ∈ l -> I w' -> wp (body a) (fun _ w'' => calls (f a) w' w'') w') ->
  wp (foreach l body) (fun _ w' => calls (List.concat (map f l)) w w') w.
Proof.
  intros HI HIq Hbody. revert w HI. induction l as [|a l IH]; intros w HI; cbn [foreach].
  - apply wp_ret, calls_nil.
  - cbn. apply (wp_calls_bind _ _ _ _). eapply wp_mono; [apply Hbody; [left|done]|].
    cbn. intros _ w' Hc. split; [done|]. apply IH.
    + intros a' w'' Ha'. apply Hbody. by right.
    + eapply HIq; [|done]. apply Hc.
Qed.

Lemma wp_monitor_send_all p mon n member args w :
  w_monitors w !! p = Some mon ->
  wp (monitor_send_all p (assemble_signal n member args))
     (fun _ w' => calls (map (fun dest => ApiSendTo dest (mon_object_path mon) MONITOR_INTERFACE
                                            member args) (monitor_recipients mon)) w w') w.
Proof.
  intros Hm. unfold monitor_send_all, monitor_recipients. wp_one. wp_one. cbn [map].
  apply (wp_calls_bind _ _ [_] _).
  eapply wp_mono; [by apply wp_monitor_send_to|]. cbn. intros _ w' Hc. split; [done|].
  apply wp_bind. eapply wp_mono.
  - apply (wp_foreach_calls _ _ (fun peer => [ApiSendTo (peer_name peer) (mon_object_path mon)
      MONITOR_INTERFACE member args]) (fun w => w_monitors w !! p = Some mon)).
    + by rewrite (quiet_monitors _ _ (proj1 Hc)).
    + intros w1 w2 Hq. by rewrite (quiet_monitors _ _ Hq).
    + intros a w1 _ H1. by apply wp_monitor_send_to.
  - cbn. intros _ w'' Hc'. apply wp_ret.
    assert (forall l : list MonitorPeer, List.concat (map (fun peer => [ApiSendTo (peer_name peer)
      (mon_object_path mon) MONITOR_INTERFACE member args]) l) =
      map (fun dest => ApiSendTo dest (mon_object_path mon) MONITOR_INTERFACE member args)
        (map peer_name l)) as <-; [|done].
    induction l as [|x l IH]; cbn; [done|]. by rewrite IH.
Qed.

Lemma wp_proxy_monitor_call p m n method args w :
  w_proxies w !! p = Some m -> w_nodes w !! pm_node m = Some n ->
  wp (proxy_monitor_call p method args)
     (fun _ w' => calls (match node_agent_bus n with
                         | Some b => [ProxyCallAsync b (pm_proxy_object_path m) method args p]
                         | None => []
                         end) w w') w.
Proof.
  intros Hm Hn. unfold proxy_monitor_call, proxy_monitor_ref. wp_go.
  assert (quiet w (store_upd (T := ProxyMonitor)
    <[p := m <| pm_ref_count ::= Z.succ |>]> w)) as Hq by by apply quiet_proxy_ref.
  destruct (node_agent_bus n) as [b|]; wp_go.
  - split; [|done]. etrans; [exact Hq|]. done.
  - split; [exact Hq|]. intros _. by rewrite app_nil_r.
Qed.

(** Delivering to a live subscription. *)
Lemma wp_sub_handle sub node unit e w :
  sub_live w sub ->
  wp (sub_handle sub node unit e) (fun _ w' => calls (sub_calls w sub node unit e) w w') w.
Proof.
  intros (s & Hs & Ht). unfold sub_handle. wp_one. wp_one.
  unfold sub_calls, target_of. rewrite Hs. destruct (sub_monitor s) as [|p|p]; cbn in Ht; [done| |].
  - destruct Ht as [mon Hm]. cbn [target_calls]. rewrite Hm.
    destruct e; cbn; by apply wp_monitor_send_all.
  - destruct Ht as (m & Hm & [n Hn]). cbn [target_calls]. rewrite Hm, Hn.
    destruct e; cbn [event_proxy_call];
      [apply wp_ret, calls_nil|
       apply wp_bind; eapply wp_mono; [by eapply wp_proxy_monitor_call|];
       cbn; intros; by apply wp_ret..].
Qed.
End events.

(** The subscriptions an event for [unit] is meant for: those to the unit and
    those to the wildcard. *)
Definition subs_of (n : Node) (unit : string) : list ptr :=
  match node_unit_subscriptions n !! unit with Some us => us_subs us | None => [] end.
Definition matching (n : Node) (unit : string) : list ptr :=
  subs_of n unit ++ (if streq unit SYMBOL_WILDCARD then [] else subs_of n SYMBOL_WILDCARD).

(** [l] holds, for every subscription of [l0], one with the same monitor. *)
Definition represents_all (w : World) (l0 l : list ptr) : Prop :=
  forall sub, sub ∈ l0 -> exists sub', sub' ∈ l /\ target_of w sub' = target_of w sub.

Section delivery.
Context {E : Env} {L : EnvLaws E}.

(** The hash set after adding [subs] to [unique]. *)
Definition collected (w : World) (unique subs l : list ptr) : Prop :=
  (forall y, y ∈ l -> y ∈ unique \/ y ∈ subs) /\
  represents_all w (unique ++ subs) l /\
  (NoDup unique -> NoDup l).

Lemma collected_step w unique sub subs l :
  collected w (subset_set (target_of w) unique sub) subs l -> collected w unique (sub :: subs) l.
Proof.
  intros (H1 & H2 & H3). split_and!.
  - intros y [Hy|Hy]%H1; [|by right; right].
    apply subset_set_old in Hy as [->|Hy]; [right; left|by left].
  - intros y Hy. assert (y ∈ unique \/ y = sub \/ y ∈ subs) as Hy'.
    { apply elem_of_app in Hy as [?|[->|?]%elem_of_cons]; auto. }
    assert (exists y', y' ∈ subset_set (target_of w) unique sub ++ subs /\
      target_of w y' = target_of w y) as (y' & Hin & Ht).
    { destruct Hy' as [Hu|[->|Hs]].
      - destruct (subset_set_keep (target_of w) unique sub y Hu) as [Hk|Hk].
        + exists y. split; [|done]. apply elem_of_app. by left.
        + exists sub. split; [|done]. apply elem_of_app. left. apply subset_set_new.
      - exists sub. split; [|done]. apply elem_of_app. left. apply subset_set_new.
      - exists y. split; [|done]. apply elem_of_app. by right. }
    destruct (H2 y' Hin) as (z & Hz & Hzt). exists z. split; [done|]. by rewrite Hzt.
  - intros Hnd. by apply H3, subset_set_nodup.
Qed.

Lemma wp_collect_subs unique subs w :
  (forall sub, sub ∈ subs -> is_Some (w_subs w !! sub)) ->
  wp (collect_subs unique subs)
     (fun r w' => calls [] w w' /\ (no_local_failure E -> is_Some r) /\
        forall l, r = Some l -> collected w unique subs l) w.
Proof.
  revert unique w. induction subs as [|sub subs IH]; intros unique w Hlive; cbn [collect_subs].
  - apply wp_ret. split; [apply calls_nil|]. split; [eauto|]. intros l [= <-].
    split_and!; [by left|intros y Hy; rewrite app_nil_r in Hy; eauto|done].
  - destruct (Hlive sub) as [s Hs]; [left|]. wp_go.
    destruct (negb (local_result (w_locals w) <? 0)) eqn:Hok; cbn [negb].
    + eapply wp_mono; [apply IH|].
      { intros sub' Hsub'. apply Hlive. by right. }
      cbn. intros r w' (Hc & Hr & Hl). split; [|split; [done|]].
      * by apply (calls_trans [] [] w (tick w) w' (calls_tick w)).
      * intros l El. apply collected_step, (Hl l El).
    + apply wp_ret. split; [apply calls_tick|]. split; [|done]. intros Hf.
      rewrite local_ok_true in Hok; done.
Qed.

Lemma wp_compute_unique p n unit w :
  w_nodes w !! p = Some n ->
  (forall sub, sub ∈ matching n unit -> is_Some (w_subs w !! sub)) ->
  wp (node_compute_unique_monitor_subscriptions p unit)
     (fun r w' => calls [] w w' /\ (no_local_failure E -> is_Some r) /\
        forall l, r = Some l -> NoDup l /\ (forall y, y ∈ l -> y ∈ matching n unit) /\
                                represents_all w (matching n unit) l) w.
Proof.
  intros Hn Hlive. unfold node_compute_unique_monitor_subscriptions. wp_one. wp_one.
  destruct (negb (local_result (w_locals w) <? 0)) eqn:Hok; cbn [negb].
  2:{ apply wp_ret. split; [apply calls_tick|]. split; [|done]. intros Hf.
      rewrite local_ok_true in Hok; done. }
  assert (forall w1, calls [] w w1 -> forall l : list ptr, (forall sub, sub ∈ l -> sub ∈ matching n unit) ->
    forall sub, sub ∈ l -> is_Some (w_subs w1 !! sub)) as Hlive'.
  { intros w1 [Hq _] l Hl sub Hsub. rewrite (quiet_subs _ _ Hq). auto. }
  assert (Hsub_unit : forall sub, sub ∈ subs_of n unit -> sub ∈ matching n unit).
  { intros sub Hs. apply elem_of_app. by left. }
  wp_one. eapply wp_load; [exact Hn|]. wp_one.
  eapply (wp_mono _ (fun r w' => calls [] (tick w) w' /\ (no_local_failure E -> is_Some r) /\
    forall l, r = Some l -> collected (tick w) [] (subs_of n unit) l)).
  { unfold subs_of in *. destruct (node_unit_subscriptions n !! unit) as [us|].
    - apply wp_collect_subs. apply (Hlive' (tick w) (calls_tick w)). auto.
    - apply wp_ret. split; [apply calls_nil|]. split; [eauto|]. intros l [= <-].
      split_and!; [by left| |done]. intros y ?%elem_of_nil. done. }
  cbn. intros r w1 (Hc1 & Hr & Hl). pose proof (calls_trans [] [] _ _ _ (calls_tick w) Hc1) as Hc.
  destruct r as [l1|]; cycle 1.
  { apply wp_ret. split; [done|]. split; [|done]. intros Hf. by destruct (Hr Hf). }
  destruct (Hl l1 eq_refl) as (A1 & A2 & A3).
  assert (NoDup l1) as Hnd1 by (apply A3, NoDup_nil_2).
  unfold matching in *. destruct (streq unit SYMBOL_WILDCARD); cbn [negb].
  - apply wp_ret. split; [done|]. split; [eauto|]. intros l [= <-]. rewrite app_nil_r.
    split_and!; [done| |exact A2]. intros y Hy. destruct (A1 y Hy) as [?%elem_of_nil|?]; done.
  - unfold subs_of in *.
    destruct (node_unit_subscriptions n !! SYMBOL_WILDCARD) as [uw|] eqn:Ew.
    + eapply wp_mono; [apply wp_collect_subs|].
      { apply (Hlive' w1 Hc). intros sub Hs. apply elem_of_app. by right. }
      cbn. intros r w2 (Hc2 & Hr2 & Hl2).
      split; [by apply (calls_trans [] [] _ _ _ Hc)|]. split; [done|].
      intros l El. destruct (Hl2 l El) as (B1 & B2 & B3). split_and!.
      * by apply B3.
      * intros y [Hy|Hy]%B1; rewrite elem_of_app; [|by right]. left.
        by destruct (A1 y Hy) as [?%elem_of_nil|?].
      * intros sub Hsub. apply elem_of_app in Hsub as [Hsub|Hsub].
        -- destruct (A2 sub Hsub) as (y & Hy & Ht).
           destruct (B2 y) as (z & Hz & Hzt); [apply elem_of_app; by left|].
           exists z. split; [done|]. change (target_of w y = target_of w sub) in Ht. rewrite <- Ht.
           rewrite !(quiet_target_of w w1) in Hzt by apply Hc. done.
        -- destruct (B2 sub) as (z & Hz & Hzt); [apply elem_of_app; by right|].
           exists z. split; [done|]. by rewrite !(quiet_target_of w w1) in Hzt by apply Hc.
    + apply wp_ret. split; [done|]. split; [eauto|]. intros l [= <-]. rewrite app_nil_r.
      split_and!; [done| |exact A2]. intros y Hy. destruct (A1 y Hy) as [?%elem_of_nil|?]; done.
Qed.

(** The calls of a delivery to the unique subscriptions [unique]. *)
Definition delivery_calls (w : World) (n : Node) (unit : string) (e : unit_event)
    (unique : list ptr) : list call :=
  List.concat (map (fun sub => sub_calls w sub (node_name n) unit e) unique).

Definition delivered (w : World) (n : Node) (unit : string) (e : unit_event)
    (new : list call) : Prop :=
  exists unique, NoDup unique /\ (forall y, y ∈ unique -> y ∈ matching n unit) /\
    represents_all w (matching n unit) unique /\ new = delivery_calls w n unit e unique.

Lemma wp_node_deliver p n unit e w :
  w_nodes w !! p = Some n ->
  (forall sub, sub ∈ matching n unit -> sub_live w sub) ->
  wp (node_deliver p unit e)
     (fun _ w' => quiet w w' /\
        (no_local_failure E -> exists new, w_trace w' = w_trace w ++ new /\
                                           delivered w n unit e new)) w.
Proof.
  intros Hn Hlive. unfold node_deliver. wp_one. eapply wp_mono.
  { apply wp_compute_unique; [done|]. intros sub Hsub. destruct (Hlive sub Hsub) as (s & ? & _). eauto. }
  cbn. intros r w1 ([Hq1 Ht1] & Hr & Hl). destruct r as [unique|]; cycle 1.
  { apply wp_ret. split; [done|]. intros Hf. by destruct (Hr Hf). }
  destruct (Hl unique eq_refl) as (Hnd & Hin & Hrep).
  eapply wp_mono.
  - apply (wp_foreach_calls unique _ (fun sub => sub_calls w sub (node_name n) unit e)
      (fun w' => quiet w w')); [done| |].
    + intros w2 w3 H23 H2. by etrans.
    + intros sub w2 Hsub H2. wp_one. eapply wp_load; [cbn; rewrite (quiet_nodes _ _ H2); exact Hn|]. wp_one.
      eapply wp_mono.
      * apply wp_sub_handle, (quiet_sub_live w); [done|]. by apply Hlive, Hin.
      * cbn. intros _ w3 Hc. apply wp_ret. by rewrite (quiet_sub_calls w w2) in Hc.
  - cbn. intros _ w2 [Hq2 Ht2]. split; [by etrans|]. intros Hf.
    exists (delivery_calls w n unit e unique). split.
    + rewrite (Ht2 Hf), (Ht1 Hf), app_nil_r. done.
    + exists unique. done.
Qed.

(** A delivery makes exactly the calls of the matching subscriptions. *)
Lemma delivered_calls w n unit e new c :
  delivered w n unit e new ->
  c ∈ new <-> exists sub, sub ∈ matching n unit /\ c ∈ sub_calls w sub (node_name n) unit e.
Proof.
  intros (unique & _ & Hin & Hrep & ->). unfold delivery_calls.
  rewrite list_elem_of_In, in_concat. split.
  - intros (l & Hl & Hc). apply in_map_iff in Hl as (sub & <- & Hsub).
    exists sub. split; [by apply Hin, list_elem_of_In|by apply list_elem_of_In].
  - intros (sub & Hsub & Hc). destruct (Hrep sub Hsub) as (sub' & Hsub' & Ht).
    exists (sub_calls w sub' (node_name n) unit e). split.
    + apply in_map_iff. exists sub'. split; [done|]. by apply list_elem_of_In.
    + unfold sub_calls. rewrite Ht. by apply list_elem_of_In.
Qed.
End delivery.
