(* ===== verification/RegistryFacts.v ===== *)
(** The registry of subscribed units of a node: what subscribing to and unsubscribing from a
    unit do to it, and what the agent is told; and subscriptions across all nodes: the
    registry invariant, its preservation by registering and unregistering a subscription
    with the nodes it covers, whatever fails on the way, and the round trip of the two. *)
From S2P Require Import Prelude CString StringUtil Protocol Log World Job Events Subscriptions.
From S2P Require Import WorldFacts EventFacts.
Local Open Scope list_scope.

Abbreviation registry := (gmap string UnitSubscriptions).

(** ** The registry as a function *)

Definition fresh_usubs (unit : string) : UnitSubscriptions :=
  mkUnitSubscriptions unit [] false _UNIT_ACTIVE_STATE_INVALID None.
Definition entry (m : registry) (unit : string) : UnitSubscriptions :=
  default (fresh_usubs unit) (m !! unit).

Definition reg_add (sub : ptr) (unit : string) (m : registry) : registry :=
  <[unit := (entry m unit) <| us_subs ::= fun l => app l [sub] |>]> m.
Definition reg_del (sub : ptr) (unit : string) (m : registry) : registry :=
  match m !! unit with
  | None => m
  | Some us =>
      if negb (bool_decide (sub ∈ us_subs us)) then m
      else let us := us <| us_subs ::= remove_first sub |> in
           if bool_decide (us_subs us = []) then delete unit m else <[unit := us]> m
  end.

(** Apply [f] to the registry of the node [p]. *)
Definition on_registry (f : registry -> registry) (n : Node) : Node :=
  n <| node_unit_subscriptions ::= f |>.
Definition with_usubs (p : ptr) (f : registry -> registry) (w : World) : World :=
  w <| w_nodes ::= alter (on_registry f) p |>.

Lemma quiet_with_usubs p f w w' : quiet w w' -> quiet (with_usubs p f w) (with_usubs p f w').
Proof. apply quiet_with_nodes. Qed.

Lemma with_usubs_compose p f g w :
  with_usubs p f (with_usubs p g w) = with_usubs p (fun m => f (g m)) w.
Proof.
  unfold with_usubs. destruct w; cbn. f_equal. by rewrite alter_alter_eq.
Qed.

Lemma with_usubs_ext p n f g w :
  w_nodes w !! p = Some n -> f (node_unit_subscriptions n) = g (node_unit_subscriptions n) ->
  with_usubs p f w = with_usubs p g w.
Proof.
  intros Hn Hfg. unfold with_usubs. destruct w; cbn in *. f_equal.
  apply map_eq. intros q. destruct (decide (p = q)) as [->|Hne].
  - rewrite !lookup_alter_eq, Hn. cbn. unfold on_registry, field_update. by rewrite Hfg.
  - by rewrite !lookup_alter_ne.
Qed.

Lemma with_usubs_id p n f w :
  w_nodes w !! p = Some n -> f (node_unit_subscriptions n) = node_unit_subscriptions n ->
  with_usubs p f w = w.
Proof.
  intros Hn Hf. rewrite (with_usubs_ext p n f (fun m => m)) by done.
  unfold with_usubs. destruct w; cbn in *. f_equal. apply map_eq. intros q.
  destruct (decide (p = q)) as [->|Hne].
  - rewrite lookup_alter_eq, Hn. by destruct n.
  - by rewrite lookup_alter_ne.
Qed.

Lemma lookup_with_usubs p n f w :
  w_nodes w !! p = Some n ->
  w_nodes (with_usubs p f w) !! p = Some (on_registry f n).
Proof. intros Hn. unfold with_usubs; cbn. by rewrite lookup_alter_eq, Hn. Qed.

Lemma lookup_with_usubs_ne p q f w :
  p <> q -> w_nodes (with_usubs p f w) !! q = w_nodes w !! q.
Proof. intros Hne. unfold with_usubs; cbn. by rewrite lookup_alter_ne. Qed.

(** Registries do not matter for who is live and what is called. *)
Lemma with_usubs_node_some p f w q :
  is_Some (w_nodes (with_usubs p f w) !! q) <-> is_Some (w_nodes w !! q).
Proof. unfold with_usubs; cbn. by rewrite lookup_alter_is_Some. Qed.

Lemma with_usubs_target_live p f w t :
  target_live w t -> target_live (with_usubs p f w) t.
Proof.
  destruct t as [|q|q]; [done..|]. intros (m & Hm & Hn). exists m. split; [done|].
  by apply with_usubs_node_some.
Qed.

Lemma with_usubs_sub_live p f w sub : sub_live w sub -> sub_live (with_usubs p f w) sub.
Proof. intros (s & Hs & Ht). exists s. split; [done|]. by apply with_usubs_target_live. Qed.

Lemma with_usubs_sub_calls p f w sub node unit e :
  sub_calls (with_usubs p f w) sub node unit e = sub_calls w sub node unit e.
Proof.
  unfold sub_calls, target_of. cbn. destruct (match w_subs w !! sub with Some s => sub_monitor s
    | None => NoMonitor end) as [|q|q]; [done..|]. cbn.
  destruct (event_proxy_call e) as [[method args]|]; [|done].
  destruct (w_proxies w !! q) as [m|]; [|done]. unfold with_usubs. cbn.
  destruct (decide (p = pm_node m)) as [->|Hne].
  - rewrite lookup_alter_eq. by destruct (w_nodes w !! pm_node m).
  - by rewrite lookup_alter_ne.
Qed.

Section subscription_facts.
Context {E : Env}.

Lemma wp_update_usubs p n f Q w :
  w_nodes w !! p = Some n -> Q tt (with_usubs p f w) -> wp (update_usubs p f) Q w.
Proof.
  intros Hn HQ. unfold update_usubs. eapply wp_update; [exact Hn|].
  enough (store_upd (T := Node) <[p:=n <| node_unit_subscriptions ::= f |>]> w = with_usubs p f w)
    as -> by done.
  unfold with_usubs. destruct w; cbn in *. f_equal. apply map_eq. intros q.
  destruct (decide (p = q)) as [->|Hne].
  - by rewrite lookup_insert_eq, lookup_alter_eq, Hn.
  - by rewrite lookup_insert_ne, lookup_alter_ne.
Qed.

(** ** Messages to the agent *)

Definition agent_message (n : Node) (method : string) (arg : option string) : list call :=
  match node_agent_bus n with Some b => [AgentSend b method arg] | None => [] end.

Lemma wp_send_agent_simple_message p n method arg w :
  w_nodes w !! p = Some n ->
  wp (send_agent_simple_message p method arg)
     (fun _ w' => calls (agent_message n method arg) w w') w.
Proof.
  intros Hn. unfold send_agent_simple_message, agent_message. wp_one. wp_one.
  destruct (node_agent_bus n) as [b|]; [|apply wp_ret, calls_nil].
  wp_one. wp_one. destruct (local_result (w_locals w) <? 0) eqn:H1.
  { apply wp_ret. split; [done|]. intros Hf. specialize (Hf (w_locals w)). lia. }
  destruct arg as [s|]; cbn.
  - wp_one. wp_one. cbn. destruct (local_result (S (w_locals w)) <? 0) eqn:H2.
    { apply wp_ret. split; [done|]. intros Hf. specialize (Hf (S (w_locals w))). lia. }
    wp_go. split; done.
  - wp_go. split; done.
Qed.

Lemma wp_if_agent p n method unit w :
  w_nodes w !! p = Some n ->
  wp (n ← load (T := Node) p;
      if negb (node_has_agent n) then mret tt
      else _r ← send_agent_simple_message p method (Some unit); mret tt)
     (fun _ w' => calls (agent_message n method (Some unit)) w w') w.
Proof.
  intros Hn. wp_one. wp_one. unfold node_has_agent. case_bool_decide as Hb; cbn [negb].
  - wp_one. eapply wp_mono; [by apply wp_send_agent_simple_message|]. cbn. intros. by apply wp_ret.
  - apply wp_ret. unfold agent_message. destruct (node_agent_bus n); [done|]. apply calls_nil.
Qed.

(** ** Subscribing to one unit *)

(** What a new subscriber of a loaded unit is told. *)
Definition virtual_calls (w : World) (n : Node) (sub : ptr) (unit : string)
    (us : UnitSubscriptions) : list call :=
  if us_loaded us then
    sub_calls w sub (node_name n) unit (UnitNew "virtual") ++
    (if 0 <=? active_state_value (us_active_state us) then
       sub_calls w sub (node_name n) unit
         (UnitStateChanged (active_state_to_string (us_active_state us))
            (default "invalid" (us_substate us)) "virtual")
     else [])
  else [].

Definition subscribe_calls (w : World) (n : Node) (sub : ptr) (unit : string) : list call :=
  (match node_unit_subscriptions n !! unit with
   | None => agent_message n "Subscribe" (Some unit)
   | Some _ => []
   end) ++ virtual_calls w n sub unit (entry (node_unit_subscriptions n) unit).

Lemma wp_node_send_virtual_events p n sub unit us w :
  w_nodes w !! p = Some n -> sub_live w sub ->
  wp (node_send_virtual_events p sub unit us)
     (fun _ w' => calls (virtual_calls w n sub unit us) w w') w.
Proof.
  intros Hn Hlive. unfold node_send_virtual_events, virtual_calls.
  destruct (us_loaded us); [|apply wp_ret, calls_nil]. wp_one. wp_one.
  apply (wp_calls_bind _ _ (sub_calls w sub (node_name n) unit (UnitNew "virtual"))).
  eapply wp_mono; [by apply wp_sub_handle|]. cbn. intros _ w1 Hc. split; [done|].
  destruct (0 <=? active_state_value (us_active_state us)); [|apply wp_ret, calls_nil].
  wp_one. eapply wp_mono; [apply wp_sub_handle; eapply quiet_sub_live; [apply Hc|done]|].
  cbn. intros _ w2 Hc2. apply wp_ret. by rewrite (quiet_sub_calls w w1) in Hc2 by apply Hc.
Qed.

(** The end of the round, once the entry exists. *)
Lemma wp_subscribe_append p n sub unit w :
  w_nodes w !! p = Some n -> sub_live w sub -> is_Some (node_unit_subscriptions n !! unit) ->
  wp (n ← load (T := Node) p;
      match node_unit_subscriptions n !! unit with
      | None => crash_with InvalidPointer
      | Some usubs =>
          update_usubs p <[unit := usubs <| us_subs ::= fun l => app l [sub] |>]> ;;
          node_send_virtual_events p sub unit usubs ;;
          mret true
      end)
     (fun go w' => go = true /\
        calls (virtual_calls w n sub unit (entry (node_unit_subscriptions n) unit))
          (with_usubs p (reg_add sub unit) w) w') w.
Proof.
  intros Hn Hlive [us Hus]. wp_one. wp_one. rewrite Hus. wp_one.
  eapply wp_update_usubs; [exact Hn|].
  assert (forall f, f (node_unit_subscriptions n) = reg_add sub unit (node_unit_subscriptions n) ->
    with_usubs p f w = with_usubs p (reg_add sub unit) w) as Hext
    by (intros f Hf; by apply (with_usubs_ext p n)).
  rewrite (Hext <[unit := us <| us_subs ::= fun l => app l [sub] |>]>) by (unfold reg_add, entry; by rewrite Hus).
  wp_one. eapply wp_mono.
  { eapply wp_node_send_virtual_events; [by apply lookup_with_usubs|].
    by apply with_usubs_sub_live. }
  cbn. intros _ w' Hc. apply wp_ret. split; [done|].
  unfold virtual_calls, entry in *. rewrite Hus. cbn.
  by rewrite !with_usubs_sub_calls in Hc.
Qed.

Lemma wp_node_subscribe_unit p n sub unit w :
  w_nodes w !! p = Some n -> sub_live w sub ->
  wp (node_subscribe_unit p sub unit)
     (fun go w' =>
        quiet (if (go : bool) then with_usubs p (reg_add sub unit) w else w) w' /\
        (no_local_failure E -> go = true /\
           w_trace w' = w_trace w ++ subscribe_calls w n sub unit)) w.
Proof.
  intros Hn Hlive. unfold node_subscribe_unit. wp_one. wp_one.
  destruct (negb (local_result (w_locals w) <? 0)) eqn:H1; cbn [negb].
  2:{ apply wp_ret. split; [done|]. intros Hf. by rewrite local_ok_true in H1. }
  wp_one. eapply wp_load; [exact Hn|]. wp_one. unfold subscribe_calls.
  destruct (node_unit_subscriptions n !! unit) as [us|] eqn:Hus.
  - apply wp_ret. cbn [negb]. eapply wp_mono.
    { by apply (wp_subscribe_append p n sub unit (tick w)). }
    cbn. intros go w' [-> [Hq Ht]]. split; [done|]. intros Hf. split; [done|].
    rewrite (Ht Hf). done.
  - wp_one. wp_one. cbn [tick].
    destruct (negb (local_result (w_locals (tick w)) <? 0)) eqn:H2; cbn [negb].
    2:{ apply wp_ret. split; [done|]. intros Hf. by rewrite local_ok_true in H2. }
    wp_one. wp_one.
    destruct (negb (local_result (w_locals (tick (tick w))) <? 0)) eqn:H3; cbn [negb].
    2:{ apply wp_ret. split; [done|]. intros Hf. by rewrite local_ok_true in H3. }
    wp_one. eapply wp_update_usubs; [exact Hn|].
    set (w1 := with_usubs p _ (tick (tick (tick w)))).
    set (n1 := on_registry <[unit := fresh_usubs unit]> n).
    assert (w_nodes w1 !! p = Some n1) as Hn1 by (unfold w1; by apply lookup_with_usubs).
    wp_one. eapply wp_mono; [unfold node_send_agent_subscribe; by apply (wp_if_agent p n1)|].
    cbn beta. intros _ w2 [Hq2 Ht2]. apply wp_ret. cbn [negb].
    assert (w_nodes w2 !! p = Some n1) as Hn2 by by rewrite (quiet_nodes _ _ Hq2).
    assert (sub_live w1 sub) as Hlive1 by by apply with_usubs_sub_live.
    eapply wp_mono.
    { apply (wp_subscribe_append p n1 sub unit w2); [done|by eapply quiet_sub_live|].
      cbn. rewrite lookup_insert_eq. eauto. }
    cbn. intros go w' [-> [Hq Ht]]. split.
    + etrans; [|exact Hq]. apply quiet_sym. etrans; [apply quiet_with_usubs, quiet_sym, Hq2|].
      unfold w1. rewrite with_usubs_compose.
      rewrite (with_usubs_ext p n _ (reg_add sub unit)); [done|done|].
      unfold reg_add, entry. rewrite Hus, lookup_insert_eq. cbn. by rewrite insert_insert_eq.
    + intros Hf. split; [done|]. rewrite (Ht Hf). cbn. rewrite (Ht2 Hf). cbn.
      rewrite <- app_assoc. f_equal. f_equal.
      unfold virtual_calls, entry. rewrite Hus, lookup_insert_eq. done.
Qed.

(** ** Unsubscribing from one unit *)

Definition unsubscribe_calls (n : Node) (sub : ptr) (unit : string) : list call :=
  match node_unit_subscriptions n !! unit with
  | Some us =>
      if bool_decide (sub ∈ us_subs us) && bool_decide (remove_first sub (us_subs us) = [])
      then agent_message n "Unsubscribe" (Some unit) else []
  | None => []
  end.

Lemma wp_node_unsubscribe_unit p n sub unit w :
  w_nodes w !! p = Some n ->
  wp (node_unsubscribe_unit p sub unit)
     (fun _ w' => calls (unsubscribe_calls n sub unit) (with_usubs p (reg_del sub unit) w) w') w.
Proof.
  intros Hn. unfold node_unsubscribe_unit. wp_one. wp_one. unfold unsubscribe_calls.
  assert (forall f, f (node_unit_subscriptions n) = reg_del sub unit (node_unit_subscriptions n) ->
    with_usubs p f w = with_usubs p (reg_del sub unit) w) as Hext
    by (intros f Hf; by apply (with_usubs_ext p n)).
  destruct (node_unit_subscriptions n !! unit) as [us|] eqn:Hus.
  2:{ apply wp_ret. rewrite (with_usubs_id p n) by (try done; unfold reg_del; by rewrite Hus).
      apply calls_nil. }
  destruct (bool_decide (sub ∈ us_subs us)) eqn:Hin; cbn [negb andb].
  2:{ apply wp_ret.
      rewrite (with_usubs_id p n) by (try done; unfold reg_del; by rewrite Hus, Hin).
      apply calls_nil. }
  wp_one. eapply wp_update_usubs; [exact Hn|]. cbn [us_subs field_update].
  destruct (bool_decide (remove_first sub (us_subs us) = [])) eqn:Hemp.
  - set (us' := us <| us_subs ::= remove_first sub |>).
    set (w1 := with_usubs p <[unit := us']> w).
    set (n1 := on_registry <[unit := us']> n).
    assert (w_nodes w1 !! p = Some n1) as Hn1 by (unfold w1; by apply lookup_with_usubs).
    wp_one. eapply wp_mono; [unfold node_send_agent_unsubscribe; by apply (wp_if_agent p n1)|].
    cbn beta. intros _ w2 [Hq2 Ht2]. wp_one.
    assert (w_nodes w2 !! p = Some n1) as Hn2 by by rewrite (quiet_nodes _ _ Hq2).
    eapply wp_update_usubs; [exact Hn2|]. unfold unit_subscriptions_clear.
    apply wp_assert; [exact Hemp|]. split.
    + rewrite <- (Hext (fun m => delete unit (<[unit := us']> m))).
      * rewrite <- with_usubs_compose. by apply quiet_with_usubs.
      * unfold reg_del. rewrite Hus, Hin. cbn. rewrite Hemp. by rewrite delete_insert_eq.
    + intros Hf. cbn. rewrite (Ht2 Hf). done.
  - apply wp_ret. match goal with |- calls _ _ (with_usubs p ?f w) => rewrite (Hext f) end; [apply calls_nil|].
    unfold reg_del. rewrite Hus, Hin. cbn. by rewrite Hemp.
Qed.
End subscription_facts.

(** ** Several units at once *)

Definition reg_adds (sub : ptr) (units : list string) (m : registry) : registry :=
  foldl (fun m u => reg_add sub u m) m units.
Definition reg_dels (sub : ptr) (units : list string) (m : registry) : registry :=
  foldl (fun m u => reg_del sub u m) m units.

Lemma reg_add_lookup sub unit m u :
  reg_add sub unit m !! u =
  if decide (unit = u) then Some ((entry m u) <| us_subs ::= fun l => l ++ [sub] |>) else m !! u.
Proof.
  unfold reg_add. case_decide; subst; [by rewrite lookup_insert_eq|by rewrite lookup_insert_ne].
Qed.

Lemma reg_adds_lookup sub units : forall m u,
  reg_adds sub units m !! u =
  if decide (count u units = O) then m !! u
  else Some ((entry m u) <| us_subs ::= fun l => l ++ replicate (count u units) sub |>).
Proof.
  induction units as [|unit units IH]; intros m u; [done|].
  cbn [reg_adds foldl]. fold (reg_adds sub units (reg_add sub unit m)). rewrite IH, count_cons.
  destruct (decide (u = unit)) as [->|Hne].
  - cbn [Nat.add]. rewrite (decide_False (P := S (count unit units) = O)) by lia.
    assert (entry (reg_add sub unit m) unit = (entry m unit) <| us_subs ::= fun l => l ++ [sub] |>)
      as Hent by (unfold entry at 1; by rewrite reg_add_lookup, decide_True).
    case_decide as Hc.
    + rewrite reg_add_lookup, decide_True by done. by rewrite Hc.
    + rewrite Hent. f_equal. destruct (entry m unit). cbn. f_equal.
      rewrite <- app_assoc. done.
  - cbn [Nat.add]. unfold entry.
    by rewrite reg_add_lookup, (decide_False (P := unit = u)) by done.
Qed.

(** Removing one occurrence from an entry. *)
Definition del1 (sub : ptr) (o : option UnitSubscriptions) : option UnitSubscriptions :=
  match o with
  | None => None
  | Some us =>
      if negb (bool_decide (sub ∈ us_subs us)) then Some us
      else let us := us <| us_subs ::= remove_first sub |> in
           if bool_decide (us_subs us = []) then None else Some us
  end.

Fixpoint del_n (sub : ptr) (k : nat) (o : option UnitSubscriptions) : option UnitSubscriptions :=
  match k with
  | O => o
  | S k => del1 sub (del_n sub k o)
  end.

Lemma del_n_succ_r sub k o : del_n sub (S k) o = del_n sub k (del1 sub o).
Proof. induction k as [|k IH]; [done|]. cbn [del_n] in *. by rewrite IH. Qed.

Lemma reg_del_lookup sub unit m u :
  reg_del sub unit m !! u = if decide (unit = u) then del1 sub (m !! u) else m !! u.
Proof.
  unfold reg_del, del1. case_decide; subst.
  - destruct (m !! u) as [us|] eqn:E; [|done]. case_bool_decide; cbn [negb]; [|done].
    cbn [us_subs field_update]. case_bool_decide; [by rewrite lookup_delete_eq|by rewrite lookup_insert_eq].
  - destruct (m !! unit) as [us|]; [|done]. case_bool_decide; cbn [negb]; [|done].
    cbn [us_subs field_update]. case_bool_decide; [by rewrite lookup_delete_ne|by rewrite lookup_insert_ne].
Qed.

Lemma reg_dels_lookup sub units : forall m u,
  reg_dels sub units m !! u = del_n sub (count u units) (m !! u).
Proof.
  induction units as [|unit units IH]; intros m u; [done|].
  cbn [reg_dels foldl]. fold (reg_dels sub units (reg_del sub unit m)).
  rewrite IH, count_cons, reg_del_lookup.
  destruct (decide (u = unit)) as [->|Hne].
  - rewrite decide_True by done. cbn [Nat.add]. by rewrite del_n_succ_r.
  - by rewrite decide_False.
Qed.

(** What is left of an entry after [k] removals. *)
Lemma iter_del1_spec sub k us us' :
  us_subs us <> [] ->
  del_n sub k (Some us) = Some us' ->
  us_unit us' = us_unit us /\ us_subs us' <> [] /\
  (forall y, count y (us_subs us') = count y (us_subs us) - if decide (y = sub) then k else 0)%nat.
Proof.
  intros Hne. revert us'. induction k as [|k IH]; intros us'; cbn [del_n].
  - intros [= <-]. split_and!; [done..|]. intros y. case_decide; lia.
  - destruct (del_n sub k (Some us)) as [us1|] eqn:Ek; [|done].
    destruct (IH us1 eq_refl) as (Hu & Hne1 & Hc). cbn [del1].
    case_bool_decide as Hin; cbn [negb].
    + cbn [us_subs field_update]. case_bool_decide as Hemp; [done|]. intros [= <-]. cbn [us_subs us_unit].
      split_and!; [done..|]. intros y. rewrite count_remove_first, Hc. case_decide; lia.
    + intros [= <-]. split_and!; [done..|]. intros y. rewrite Hc. case_decide as Hy; [|done].
      subst y. apply count_zero in Hin. rewrite Hc, decide_True in Hin by done. lia.
Qed.

Lemma iter_del1_none sub k : del_n sub k None = None.
Proof. induction k as [|k IH]; cbn [del_n]; [done|]. by rewrite IH. Qed.

Lemma iter_del1_replicate sub k us l :
  us_subs us = l ++ replicate k sub -> sub ∉ l -> (k = O -> l <> []) ->
  del_n sub k (Some us) = if decide (l = []) then None else Some (us <| us_subs := l |>).
Proof.
  revert us. induction k as [|k IH]; intros us Hs Hl Hk.
  - cbn in *. rewrite app_nil_r in Hs. rewrite decide_False by auto. by destruct us; cbn in *; subst.
  - rewrite del_n_succ_r. cbn [del1]. rewrite bool_decide_true; cycle 1.
    { rewrite Hs. apply elem_of_app. right. left. }
    cbn [negb us_subs field_update]. rewrite Hs, remove_first_app_r by done. cbn [replicate remove_first].
    rewrite decide_True by done.
    case_bool_decide as Hemp.
    + apply app_eq_nil in Hemp as [-> Hr]. destruct k; [|done]. by rewrite decide_True.
    + rewrite IH; [case_decide; [done|by destruct us]|done|done|].
      intros -> ->. by rewrite app_nil_r in Hemp.
Qed.

(** No entry of the registry holds the subscription. *)
Definition reg_lacks (sub : ptr) (m : registry) : Prop :=
  forall u us, m !! u = Some us -> sub ∉ us_subs us.
Definition reg_nonempty (m : registry) : Prop :=
  forall u us, m !! u = Some us -> us_subs us <> [] /\ us_unit us = u.

Lemma reg_roundtrip sub units m :
  reg_lacks sub m -> reg_nonempty m -> reg_dels sub units (reg_adds sub units m) = m.
Proof.
  intros Hl Hne. apply map_eq. intros u. rewrite reg_dels_lookup, reg_adds_lookup.
  case_decide as Hc; [by rewrite Hc|].
  rewrite (iter_del1_replicate sub _ _ (us_subs (entry m u))); [|done| |done].
  - unfold entry. destruct (m !! u) as [us|] eqn:E; cbn.
    + destruct (Hne u us E) as [Hn _]. rewrite decide_False by done. by destruct us.
    + done.
  - unfold entry. destruct (m !! u) as [us|] eqn:E; cbn; [by eapply Hl|]. apply not_elem_of_nil.
Qed.

(** ** The invariant *)

Definition node_covers (n : Node) (s : Subscription) : Prop :=
  subscription_has_node_wildcard s = true \/ node_name n = Some (sub_node s).

Definition entries_ok (w : World) (n : Node) : Prop :=
  forall u us, node_unit_subscriptions n !! u = Some us ->
    us_unit us = u /\ us_subs us <> [] /\
    forall sub, sub ∈ us_subs us ->
      sub ∈ c_all_subscriptions (w_controller w) /\
      exists s, w_subs w !! sub = Some s /\ node_covers n s /\
                (count sub (us_subs us) <= count u (sub_units s))%nat.

Definition is_node (w : World) (p : ptr) (n : Node) : Prop :=
  p ∈ c_nodes (w_controller w) /\ w_nodes w !! p = Some n.

Record registry_ok (w : World) : Prop := {
  ok_nodes_nodup : NoDup (c_nodes (w_controller w));
  ok_nodes : forall p, p ∈ c_nodes (w_controller w) ->
    exists n name, w_nodes w !! p = Some n /\ node_name n = Some name;
  ok_names : forall p q n n', is_node w p n -> is_node w q n' -> node_name n = node_name n' -> p = q;
  ok_subs_nodup : NoDup (c_all_subscriptions (w_controller w));
  ok_live : forall sub, sub ∈ c_all_subscriptions (w_controller w) -> sub_live w sub;
  ok_entries : forall p n, is_node w p n -> entries_ok w n;
}.

(** The whole state except registries is that of [w]. *)
Lemma registry_ok_quiet w w' : quiet w w' -> registry_ok w -> registry_ok w'.
Proof.
  intros H [A1 A2 A3 A4 A5 A6].
  assert (forall p n, is_node w' p n -> is_node w p n) as Hn.
  { intros p n. unfold is_node. by rewrite (quiet_nodes _ _ H), (quiet_controller _ _ H). }
  split; rewrite ?(quiet_controller _ _ H), ?(quiet_nodes _ _ H); auto.
  - intros p q n n' Hp Hq. apply A3; auto.
  - intros sub Hsub. eapply quiet_sub_live; eauto.
  - intros p n Hp u us Hu. rewrite (quiet_controller _ _ H), (quiet_subs _ _ H).
    by apply (A6 p n (Hn p n Hp)).
Qed.

Lemma is_node_with_usubs p f w q n :
  is_node (with_usubs p f w) q n ->
  exists n0, is_node w q n0 /\ node_name n = node_name n0 /\
    (q = p /\ n = on_registry f n0 \/ q <> p /\ n = n0).
Proof.
  intros [Hq Hn]. destruct (decide (p = q)) as [->|Hne].
  - unfold with_usubs in Hn. cbn in Hn. rewrite lookup_alter_eq in Hn.
    apply fmap_Some in Hn as (n0 & Hn0 & ->). exists n0. repeat split; auto.
  - rewrite lookup_with_usubs_ne in Hn by done. exists n. repeat split; auto.
Qed.

(** Changing the registry of one node. *)
Lemma registry_ok_with_usubs p f w :
  registry_ok w ->
  (forall n, is_node w p n -> entries_ok w (on_registry f n)) ->
  registry_ok (with_usubs p f w).
Proof.
  intros [A1 A2 A3 A4 A5 A6] Hf. split; [exact A1| | |exact A4| |].
  - intros q Hq. destruct (A2 q Hq) as (n & name & Hn & Hname).
    destruct (decide (p = q)) as [->|Hne].
    + exists (on_registry f n), name. by rewrite (lookup_with_usubs q n) by done.
    + exists n, name. by rewrite lookup_with_usubs_ne by done.
  - intros q q' n n' (m & Hm & Em & _)%is_node_with_usubs (m' & Hm' & Em' & _)%is_node_with_usubs Hname.
    apply (A3 q q' m m'); [done..|congruence].
  - intros sub Hsub. by apply with_usubs_sub_live, A5.
  - intros q n (n0 & Hq & _ & [[-> ->]|[_ ->]])%is_node_with_usubs; [by apply Hf|by apply (A6 q)].
Qed.

Lemma entries_ok_adds w n sub s units k :
  entries_ok w n -> reg_lacks sub (node_unit_subscriptions n) ->
  sub ∈ c_all_subscriptions (w_controller w) -> w_subs w !! sub = Some s -> node_covers n s ->
  units = take k (sub_units s) ->
  entries_ok w (on_registry (reg_adds sub units) n).
Proof.
  intros Hok Hlacks Hall Hs Hcov -> u us Hus. cbn in Hus. rewrite reg_adds_lookup in Hus.
  set (c := count u (take k (sub_units s))) in *.
  assert (c <= count u (sub_units s))%nat as Hle.
  { unfold c. rewrite <- (take_drop k (sub_units s)) at 2. rewrite count_app. lia. }
  case_decide as Hc.
  - by apply Hok.
  - injection Hus as <-. cbn. unfold entry.
    destruct (node_unit_subscriptions n !! u) as [us|] eqn:E; cbn.
    + destruct (Hok u us E) as (H1 & H2 & H3). split_and!; [done| |].
      * by intros [? _]%app_eq_nil.
      * intros y Hy. rewrite count_app. apply elem_of_app in Hy as [Hy|Hy].
        -- destruct (H3 y Hy) as (? & s' & ? & ? & ?). split; [done|]. exists s'.
           split_and!; [done..|]. rewrite count_replicate_ne; [lia|].
           intros ->. by eapply Hlacks.
        -- apply elem_of_replicate in Hy as [-> _]. split; [done|]. exists s.
           split_and!; [done..|]. rewrite count_replicate.
           rewrite (proj2 (count_zero _ _) (Hlacks u us E)). fold c. lia.
    + split_and!; [done|by destruct c|]. intros y Hy. apply elem_of_replicate in Hy as [-> _].
      split; [done|]. exists s. split_and!; [done..|]. by rewrite count_replicate.
Qed.

Lemma entries_ok_dels w n sub s :
  entries_ok w n -> w_subs w !! sub = Some s ->
  entries_ok w (on_registry (reg_dels sub (sub_units s)) n) /\
  reg_lacks sub (reg_dels sub (sub_units s) (node_unit_subscriptions n)).
Proof.
  intros Hok Hs.
  assert (forall u us', reg_dels sub (sub_units s) (node_unit_subscriptions n) !! u = Some us' ->
    exists us, node_unit_subscriptions n !! u = Some us /\ us_unit us' = us_unit us /\
      us_subs us' <> [] /\
      forall y, count y (us_subs us') =
        count y (us_subs us) - if decide (y = sub) then count u (sub_units s) else 0)%nat as Hdel.
  { intros u us' Hus'. rewrite reg_dels_lookup in Hus'.
    destruct (node_unit_subscriptions n !! u) as [us|] eqn:E; [|by rewrite iter_del1_none in Hus'].
    exists us. split; [done|]. eapply iter_del1_spec; [by eapply Hok|done]. }
  split.
  - intros u us' Hus'. destruct (Hdel u us' Hus') as (us & E & Hu & Hne & Hc).
    destruct (Hok u us E) as (H1 & H2 & H3). split_and!; [congruence|done|].
    intros y Hy. assert (count y (us_subs us') <> O) as Hy0 by (by rewrite count_zero; intros ?).
    destruct (H3 y) as (? & s' & ? & ? & ?).
    { destruct (decide (y ∈ us_subs us)) as [|Hn]; [done|]. apply count_zero in Hn.
      rewrite Hc, Hn in Hy0. lia. }
    split; [done|]. exists s'. split_and!; [done..|]. rewrite Hc. case_decide; lia.
  - intros u us' Hus'. destruct (Hdel u us' Hus') as (us & E & _ & _ & Hc).
    apply count_zero. rewrite Hc, decide_True by done.
    destruct (decide (sub ∈ us_subs us)) as [Hin|Hn%count_zero]; [|lia].
    destruct (Hok u us E) as (_ & _ & H3). destruct (H3 sub Hin) as (_ & s' & Hs' & _ & Hle).
    rewrite Hs in Hs'. injection Hs' as <-. lia.
Qed.

Section subscribe.
Context {E : Env}.

Lemma wp_node_subscribe_units p sub units : forall w,
  is_Some (w_nodes w !! p) -> sub_live w sub ->
  wp (node_subscribe_units p sub units)
     (fun _ w' => exists k, quiet (with_usubs p (reg_adds sub (take k units)) w) w' /\
                            (no_local_failure E -> take k units = units)) w.
Proof.
  induction units as [|unit units IH]; intros w [n Hn] Hlive; cbn [node_subscribe_units].
  - apply wp_ret. exists O. split; [|done]. by rewrite (with_usubs_id p n).
  - wp_one. eapply wp_mono; [by apply wp_node_subscribe_unit|]. cbn beta.
    intros [|] w1 [Hq Hf]; cbn [negb].
    + eapply wp_mono; [apply IH|].
      * rewrite (quiet_nodes _ _ Hq). apply with_usubs_node_some. eauto.
      * eapply quiet_sub_live; [exact Hq|]. by apply with_usubs_sub_live.
      * cbn beta. intros _ w2 (k & Hq2 & Hk). exists (S k). split.
        -- etrans; [|exact Hq2]. cbn [take].
           change (reg_adds sub (unit :: take k units))
             with (fun m => reg_adds sub (take k units) (reg_add sub unit m)).
           rewrite <- with_usubs_compose. by apply quiet_with_usubs.
        -- intros Hnf. cbn [take]. by rewrite Hk.
    + apply wp_ret. exists O. split; [by rewrite (with_usubs_id p n)|].
      intros Hnf. by destruct (Hf Hnf).
Qed.

Lemma wp_node_subscribe p sub s w :
  is_Some (w_nodes w !! p) -> sub_live w sub -> w_subs w !! sub = Some s ->
  wp (node_subscribe p sub)
     (fun _ w' => exists k, quiet (with_usubs p (reg_adds sub (take k (sub_units s))) w) w' /\
                            (no_local_failure E -> take k (sub_units s) = sub_units s)) w.
Proof.
  intros Hp Hlive Hs. unfold node_subscribe. wp_one. wp_one. by apply wp_node_subscribe_units.
Qed.

Lemma wp_node_unsubscribe_units p sub units : forall w,
  is_Some (w_nodes w !! p) ->
  wp (foreach units (node_unsubscribe_unit p sub))
     (fun _ w' => quiet (with_usubs p (reg_dels sub units) w) w') w.
Proof.
  induction units as [|unit units IH]; intros w [n Hn]; cbn [foreach].
  - apply wp_ret. by rewrite (with_usubs_id p n).
  - wp_one. eapply wp_mono; [by apply wp_node_unsubscribe_unit|]. cbn beta.
    intros _ w1 [Hq _]. eapply wp_mono; [apply IH|].
    + rewrite (quiet_nodes _ _ Hq). apply with_usubs_node_some. eauto.
    + cbn beta. intros _ w2 Hq2. etrans; [|exact Hq2].
      change (reg_dels sub (unit :: units)) with (fun m => reg_dels sub units (reg_del sub unit m)).
      rewrite <- with_usubs_compose. by apply quiet_with_usubs.
Qed.

Lemma wp_node_unsubscribe p sub s w :
  is_Some (w_nodes w !! p) -> w_subs w !! sub = Some s ->
  wp (node_unsubscribe p sub)
     (fun _ w' => quiet (with_usubs p (reg_dels sub (sub_units s)) w) w') w.
Proof.
  intros Hp Hs. unfold node_unsubscribe. wp_one. wp_one. by apply wp_node_unsubscribe_units.
Qed.

(** ** Finding a node *)

Definition named (w : World) (name : string) (p : ptr) : bool :=
  match w_nodes w !! p with
  | Some n => match node_name n with Some s => streq s name | None => false end
  | None => false
  end.

Lemma wp_controller_find_node name Q w :
  (forall p, p ∈ c_nodes (w_controller w) ->
     exists n s, w_nodes w !! p = Some n /\ node_name n = Some s) ->
  (forall r, r = List.find (named w name) (c_nodes (w_controller w)) ->
     match r with
     | Some p => exists n, is_node w p n /\ node_name n = Some name
     | None => forall p n, is_node w p n -> node_name n <> Some name
     end -> Q r w) ->
  wp (controller_find_node name) Q w.
Proof.
  intros Hnodes HQ. unfold controller_find_node. wp_one. wp_one.
  apply (wp_find_first _ _ (named w name)).
  - intros p Hp. destruct (Hnodes p Hp) as (n & s & Hn & Hs).
    wp_one. eapply wp_load; [exact Hn|]. rewrite Hs. apply wp_ret. split; [|done].
    unfold named. by rewrite Hn, Hs.
  - apply HQ; [done|]. destruct (List.find _ _) as [p|] eqn:Ef.
    + apply find_some in Ef as [Hin Ht]. apply list_elem_of_In in Hin.
      destruct (Hnodes p Hin) as (n & s & Hn & Hs). exists n. unfold named in Ht.
      rewrite Hn, Hs in Ht. apply streq_true in Ht as ->. split; [split|]; done.
    + intros p n [Hin Hn] Hname. apply list_elem_of_In in Hin.
      pose proof (find_none _ _ Ef p Hin) as Ht. unfold named in Ht.
      rewrite Hn, Hname, streq_refl in Ht. done.
Qed.

(** ** The invariant is preserved *)

(** The state in which a subscription has just been put in the list. *)
Definition with_sub (sub : ptr) (s : Subscription) (subs : list ptr) (w : World) : World :=
  w <| w_subs ::= <[sub := s]> |>
    <| w_controller ::= fun c => c <| c_all_subscriptions := subs |> |>.

Definition same_sub (s s' : Subscription) : Prop :=
  sub_monitor s' = sub_monitor s /\ sub_node s' = sub_node s /\ sub_units s' = sub_units s.

Lemma with_sub_live sub s0 s subs w sub' :
  w_subs w !! sub = Some s0 -> same_sub s0 s -> sub_live w sub' -> sub_live (with_sub sub s subs w) sub'.
Proof.
  intros Hs0 (Hm & _ & _) (s' & Hs' & Ht). unfold sub_live. cbn.
  destruct (decide (sub = sub')) as [->|Hne].
  - exists s. rewrite lookup_insert_eq. split; [done|]. rewrite Hs0 in Hs'. injection Hs' as <-.
    rewrite Hm. exact Ht.
  - exists s'. rewrite lookup_insert_ne by done. split; [done|]. exact Ht.
Qed.

Lemma with_sub_entries sub s0 s subs w n :
  w_subs w !! sub = Some s0 -> same_sub s0 s ->
  (forall u us y, node_unit_subscriptions n !! u = Some us -> y ∈ us_subs us ->
     y ∈ c_all_subscriptions (w_controller w) -> y ∈ subs) ->
  entries_ok w n -> entries_ok (with_sub sub s subs w) n.
Proof.
  intros Hs0 (_ & Hn & Hu) Hsubs Hok u us Hus. destruct (Hok u us Hus) as (H1 & H2 & H3).
  split_and!; [done..|]. intros y Hy. destruct (H3 y Hy) as (Hall & s' & Hs' & Hcov & Hc).
  split; [by eapply Hsubs|]. cbn. destruct (decide (sub = y)) as [->|Hne].
  - exists s. rewrite lookup_insert_eq. rewrite Hs0 in Hs'. injection Hs' as <-.
    rewrite Hu. split_and!; [done| |done]. unfold node_covers, subscription_has_node_wildcard in *.
    by rewrite Hn.
  - exists s'. by rewrite lookup_insert_ne.
Qed.

Lemma with_sub_ok sub s0 s subs w :
  registry_ok w -> w_subs w !! sub = Some s0 -> same_sub s0 s -> NoDup subs ->
  (forall y, y ∈ subs -> sub_live w y) ->
  (forall p n u us y, is_node w p n -> node_unit_subscriptions n !! u = Some us ->
     y ∈ us_subs us -> y ∈ c_all_subscriptions (w_controller w) -> y ∈ subs) ->
  registry_ok (with_sub sub s subs w).
Proof.
  intros [A1 A2 A3 A4 A5 A6] Hs0 Hsame Hnd Hlive Hsubs. split; [exact A1|exact A2|exact A3|exact Hnd| |].
  - intros y Hy. eapply with_sub_live; [done..|]. by apply Hlive.
  - intros p n Hp. eapply with_sub_entries; [done..| |by apply (A6 p)].
    intros u us y. by apply (Hsubs p n).
Qed.

(** No node holds [sub]. *)
Definition lacks (w : World) (p sub : ptr) : Prop :=
  forall n, is_node w p n -> reg_lacks sub (node_unit_subscriptions n).

Lemma lacks_not_registered w p sub :
  registry_ok w -> sub ∉ c_all_subscriptions (w_controller w) -> lacks w p sub.
Proof.
  intros Hok Hnot n Hn u us Hus Hin. apply Hnot. by eapply (ok_entries w Hok p n Hn).
Qed.

(** What the loops over the nodes keep. *)
Definition loop_ok (sub : ptr) (s : Subscription) (nodes subs : list ptr) (w : World) : Prop :=
  registry_ok w /\ sub ∈ subs /\ w_subs w !! sub = Some s /\
  c_nodes (w_controller w) = nodes /\ c_all_subscriptions (w_controller w) = subs.

Lemma loop_ok_quiet sub s nodes subs w w' :
  quiet w w' -> loop_ok sub s nodes subs w -> loop_ok sub s nodes subs w'.
Proof.
  intros H (A1 & A2 & A3 & A4 & A5). unfold loop_ok.
  rewrite (quiet_subs _ _ H), (quiet_controller _ _ H). split_and!; try done.
  by eapply registry_ok_quiet.
Qed.

Lemma lacks_quiet w w' p sub : quiet w w' -> lacks w p sub -> lacks w' p sub.
Proof.
  intros H Hl n. unfold is_node. rewrite (quiet_nodes _ _ H), (quiet_controller _ _ H). apply Hl.
Qed.

Lemma lacks_with_usubs w p q f sub : p <> q -> lacks w q sub -> lacks (with_usubs p f w) q sub.
Proof.
  intros Hne Hl n (n0 & Hn0 & _ & [[-> _]|[_ ->]])%is_node_with_usubs; [done|]. by apply Hl.
Qed.

Lemma wp_subscribe_round p sub s nodes subs w :
  loop_ok sub s nodes subs w -> p ∈ nodes -> lacks w p sub ->
  (forall n, is_node w p n -> node_covers n s) ->
  wp (node_subscribe p sub)
     (fun _ w' => loop_ok sub s nodes subs w' /\
        (forall q, q <> p -> lacks w q sub -> lacks w' q sub) /\
        (forall q n, is_node w' q n -> exists n0, is_node w q n0 /\ node_name n = node_name n0)) w.
Proof.
  intros (A1 & A2 & A3 & A4 & A5) Hp Hl Hcov. subst nodes subs.
  destruct (ok_nodes w A1 p Hp) as (n & name & Hn & _).
  eapply wp_mono; [apply (wp_node_subscribe p sub s); [eauto|by apply A1|done]|].
  cbn beta. intros _ w' (k & Hq & _). split_and!.
  - eapply loop_ok_quiet; [exact Hq|]. split_and!; try done.
    apply registry_ok_with_usubs; [done|]. intros n' Hn'.
    eapply entries_ok_adds; [by apply (ok_entries w A1 p)|by apply Hl|done|done|by apply Hcov|done].
  - intros q Hne Hlq. eapply lacks_quiet; [exact Hq|]. by apply lacks_with_usubs.
  - intros q n' [Hin Hq']. rewrite (quiet_nodes _ _ Hq) in Hq'.
    rewrite (quiet_controller _ _ Hq) in Hin.
    destruct (is_node_with_usubs _ _ _ _ _ (conj Hin Hq')) as (n0 & ? & ? & _). eauto.
Qed.

Lemma wp_unsubscribe_round p sub s nodes subs w :
  loop_ok sub s nodes subs w -> p ∈ nodes ->
  wp (node_unsubscribe p sub)
     (fun _ w' => loop_ok sub s nodes subs w' /\ lacks w' p sub /\
        (forall q, lacks w q sub -> lacks w' q sub)) w.
Proof.
  intros (A1 & A2 & A3 & A4 & A5) Hp. subst nodes subs.
  destruct (ok_nodes w A1 p Hp) as (n & name & Hn & _).
  eapply wp_mono; [apply (wp_node_unsubscribe p sub s); [eauto|done]|].
  cbn beta. intros _ w' Hq.
  assert (lacks w' p sub) as Hlp.
  { eapply lacks_quiet; [exact Hq|]. intros n' (n0 & Hn0 & _ & [[_ ->]|[? _]])%is_node_with_usubs;
      [|done]. cbn. eapply entries_ok_dels; [by apply (ok_entries w A1 p)|done]. }
  split_and!; [|done|].
  - eapply loop_ok_quiet; [exact Hq|]. split_and!; try done.
    apply registry_ok_with_usubs; [done|]. intros n' Hn'.
    eapply entries_ok_dels; [by apply (ok_entries w A1 p)|done].
  - intros q Hlq. destruct (decide (q = p)) as [->|Hne]; [done|].
    eapply lacks_quiet; [exact Hq|]. by apply lacks_with_usubs.
Qed.

Lemma wp_add_subscription_ok sub w :
  registry_ok w -> sub_live w sub -> sub ∉ c_all_subscriptions (w_controller w) ->
  wp (controller_add_subscription sub)
     (fun _ w' => registry_ok w' /\
        c_all_subscriptions (w_controller w') = c_all_subscriptions (w_controller w) ++ [sub]) w.
Proof.
  intros Hok Hlive Hnot. destruct Hlive as (s0 & Hs0 & Ht).
  unfold controller_add_subscription, subscription_ref. wp_one. wp_one. wp_one.
  wp_one. wp_one. wp_one.
  set (s := s0 <| sub_ref_count ::= Z.succ |>).
  set (subs := c_all_subscriptions (w_controller w) ++ [sub]).
  set (w1 := with_sub sub s subs w).
  match goal with |- wp _ _ ?w' => change w' with w1 end.
  assert (w_subs w1 !! sub = Some s) as Hs by (cbn; apply lookup_insert_eq).
  assert (registry_ok w1) as Hok1.
  { apply (with_sub_ok sub s0); try done.
    - apply NoDup_app. split_and!; [apply Hok| |apply NoDup_singleton].
      intros y Hy ->%list_elem_of_singleton. done.
    - intros y [Hy| ->%list_elem_of_singleton]%elem_of_app; [by apply Hok|]. by exists s0.
    - intros. apply elem_of_app. by left. }
  assert (loop_ok sub s (c_nodes (w_controller w)) subs w1) as Hloop.
  { split_and!; try done. apply elem_of_app. right. left. }
  assert (forall p, lacks w1 p sub) as Hlacks by (intros p; by apply (lacks_not_registered w p)).
  wp_one. wp_one. destruct (subscription_has_node_wildcard s) eqn:Hw.
  - wp_one. wp_one. change (c_nodes (w_controller w1)) with (c_nodes (w_controller w)).
    apply (wp_foreach (fun rest w' => loop_ok sub s (c_nodes (w_controller w)) subs w' /\
      NoDup rest /\ (forall p, p ∈ rest -> p ∈ c_nodes (w_controller w) /\ lacks w' p sub))).
    + split_and!; [done|apply Hok|by eauto].
    + intros p rest w2 (Hl2 & [Hp Hnd]%NoDup_cons & Hrest).
      destruct (Hrest p) as [Hin Hlp]; [left|].
      eapply wp_mono; [apply (wp_subscribe_round p sub s); [done..|by left]|].
      cbn beta. intros _ w3 (Hl3 & Hkeep & _). split_and!; [done..|].
      intros q Hq. destruct (Hrest q) as [? ?]; [by right|]. split; [done|].
      apply Hkeep; [|done]. by intros ->.
    + intros w2 ((Hl2 & _ & _ & _ & Hall) & _). done.
  - wp_one. apply wp_controller_find_node; [apply Hok1|].
    intros [p|] _ Hfound; [|by apply wp_ret]. destruct Hfound as (n & Hp & Hname).
    eapply wp_mono; [apply (wp_subscribe_round p sub s); [done|apply Hp|done|]|].
    + intros n' Hn'. right. destruct Hp as [_ Hp], Hn' as [_ Hn']. congruence.
    + cbn beta. intros _ w2 ((? & _ & _ & _ & ?) & _). done.
Qed.

Lemma wp_remove_subscription_ok sub w :
  registry_ok w -> sub ∈ c_all_subscriptions (w_controller w) ->
  (forall s, w_subs w !! sub = Some s -> 2 <= sub_ref_count s) ->
  wp (controller_remove_subscription sub)
     (fun _ w' => registry_ok w' /\ (forall p, lacks w' p sub) /\
        c_all_subscriptions (w_controller w') =
          remove_first sub (c_all_subscriptions (w_controller w))) w.
Proof.
  intros Hok Hin Hrefs. destruct (ok_live w Hok sub Hin) as (s & Hs & _).
  specialize (Hrefs s Hs). set (subs := c_all_subscriptions (w_controller w)) in *.
  assert (loop_ok sub s (c_nodes (w_controller w)) subs w) as Hloop by done.
  unfold controller_remove_subscription. wp_one. wp_one. wp_one.
  apply (wp_mono _ (fun _ w' => loop_ok sub s (c_nodes (w_controller w)) subs w' /\
    forall p, p ∈ c_nodes (w_controller w) -> lacks w' p sub)).
  { destruct (subscription_has_node_wildcard s) eqn:Hw.
    - wp_one. wp_one.
      apply (wp_foreach (fun rest w' => loop_ok sub s (c_nodes (w_controller w)) subs w' /\
        (forall p, p ∈ rest -> p ∈ c_nodes (w_controller w)) /\
        (forall p, p ∈ c_nodes (w_controller w) -> p ∈ rest \/ lacks w' p sub))).
      + split_and!; [done|done|by left].
      + intros p rest w2 (Hl2 & Hsub & Hrest).
        eapply wp_mono; [apply (wp_unsubscribe_round p sub s); [done|apply Hsub; left]|].
        cbn beta. intros _ w3 (Hl3 & Hp & Hkeep). split_and!; [done| |].
        * intros q Hq. apply Hsub. by right.
        * intros q Hq. destruct (Hrest q Hq) as [[->|?]%elem_of_cons|?]; auto.
      + intros w2 (Hl2 & _ & Hrest). split; [done|]. intros p Hp.
        by destruct (Hrest p Hp) as [?%elem_of_nil|?].
    - wp_one. apply wp_controller_find_node; [apply Hok|].
      assert (forall p, (forall n, is_node w p n -> node_name n <> Some (sub_node s)) ->
        lacks w p sub) as Hother.
      { intros p Hne n Hn u us Hus Hsub. apply (Hne n Hn).
        destruct (ok_entries w Hok p n Hn u us Hus) as (_ & _ & H3).
        destruct (H3 sub Hsub) as (_ & s' & Hs' & [Hc|Hc] & _); congruence. }
      intros [p|] _ Hfound.
      + destruct Hfound as (n & Hp & Hname).
        eapply wp_mono; [apply (wp_unsubscribe_round p sub s); [done|apply Hp]|].
        cbn beta. intros _ w2 (Hl2 & Hlp & Hkeep). split; [done|]. intros q Hq.
        destruct (decide (q = p)) as [->|Hne]; [done|]. apply Hkeep, Hother.
        intros n' Hn' Hname'. apply Hne. apply (ok_names w Hok q p n' n); [done..|congruence].
      + apply wp_ret. split; [done|]. intros q Hq. apply Hother. by apply Hfound. }
  cbn beta. intros _ w1 ((Hok1 & _ & Hs1 & Hnodes1 & Hall1) & Hlacks). wp_one. wp_one.
  wp_one. rewrite Hall1. apply wp_list_remove_from; [done|]. wp_one. wp_one.
  unfold subscription_unref. wp_one. wp_one. cbn [store_get store_Subscription field_update w_subs].
  set (s' := field_update sub_ref_count Z.pred s).
  wp_one. eapply wp_load; [cbn; apply lookup_insert_eq|].
  match goal with |- context [?a =? 0] =>
    assert ((a =? 0) = false) as -> by (apply Z.eqb_neq; cbn; lia) end.
  cbn [negb]. apply wp_ret.
  set (w2 := with_sub sub s' (remove_first sub subs) w1).
  match goal with |- registry_ok ?w' /\ _ => change w' with w2 end.
  assert (forall p, lacks w2 p sub) as Hlacks2.
  { intros p n [Hp Hn]. apply (Hlacks p); [|split; [exact Hp|exact Hn]].
    change (p ∈ c_nodes (w_controller w1)) in Hp. by rewrite <- Hnodes1. }
  split_and!; [|done|done].
  apply (with_sub_ok sub s); try done.
  - apply remove_first_nodup. rewrite <- Hall1. apply Hok1.
  - intros y Hy%remove_first_elem. apply Hok1. by rewrite Hall1.
  - intros p n u us y Hn Hus Hy Hyall. apply remove_first_ne; [|by rewrite <- Hall1].
    intros ->. by apply (Hlacks2 p n Hn u us Hus).
Qed.
End subscribe.
