(* ===== verification/Sample.v ===== *)
(** A concrete environment and a small running controller, on which the
    theorems about the controller are instantiated: two nodes, one of them
    online, a monitor with a peer and a subscription, a proxy monitor and a job. *)
From S2P Require Import Prelude CString StringUtil TimeUtil Protocol Log World Job Events.
From S2P Require Import Subscriptions WorldFacts EventFacts RegistryFacts.

Local Open Scope list_scope.

(** Everything succeeds; time stands at one second. *)
#[export] Instance sample_env : Env := {|
  local_result := fun _ => 0;
  bus_result := fun _ _ => 0;
  clock_realtime := fun _ => Some (mkTimespec 1 0);
  clock_monotonic := fun _ => Some (mkTimespec 1 0);
  use_selinux := false;
  peer_ip_address := fun _ => (0, Some "192.168.0.2"%string);
  peer_context := fun _ => None;
  hashmap_order := fun m => (map_to_list m).*1;
  subset_set := fun _ l x => if decide (x ∈ l) then l else l ++ [x];
  sync_uint64 := fun _ => 0;
  array_length := fun _ => O;
|}.

#[export] Instance sample_env_laws : EnvLaws sample_env.
Proof.
  split; cbn.
  - done.
  - intros f l x. case_decide; [done|]. apply elem_of_app. right. left.
  - intros f l x y. case_decide; [by right|].
    intros [?| ->%list_elem_of_singleton]%elem_of_app; auto.
  - intros f l x y Hy. left. case_decide; [done|]. apply elem_of_app. by left.
  - intros f l x Hnd. case_decide; [done|]. apply NoDup_app.
    split_and!; [done| |apply NoDup_singleton]. intros y Hy ->%list_elem_of_singleton. done.
Qed.

Lemma sample_no_failure : no_local_failure sample_env.
Proof. intros n. cbn. lia. Qed.

Definition sample_usubs : UnitSubscriptions :=
  mkUnitSubscriptions "a.service" [20%positive] true UNIT_ACTIVE (Some "running"%string).
Definition sample_usubs2 : UnitSubscriptions :=
  mkUnitSubscriptions "b.service" [41%positive] false _UNIT_ACTIVE_STATE_INVALID None.
Definition sample_node1 : Node :=
  mkNode 1 true (Some 100%positive) false true false (Some "n1"%string) None
    (Some "/org/eclipse/bluechi/node/n1"%string) None None [] [40%positive] []
    ["n2"%string] {["a.service"%string := sample_usubs]} 0 0 false.
Definition sample_node2 : Node :=
  mkNode 2 true None false false false (Some "n2"%string) (Some "bluechi_t"%string)
    (Some "/org/eclipse/bluechi/node/n2"%string) None None [] []
    [mkProxyDependency "b.service" 1] [] {["b.service"%string := sample_usubs2]} 0 0 false.
(** A connection that has not registered yet. *)
Definition sample_node3 : Node :=
  mkNode 1 false (Some 101%positive) true true false None None None None None
    [] [] [] [] ∅ 0 0 false.
Definition sample_monitor : Monitor :=
  mkMonitor 3 1 ":1.5" [mkMonitorPeer 1 ":1.9"] true "/org/eclipse/bluechi/monitor/1" [20%positive].
Definition sample_sub : Subscription :=
  mkSubscription 2 2 (OfMonitor 10) "n1" ["a.service"%string].
(** Not registered yet, to every unit of every node. *)
Definition sample_new_sub : Subscription :=
  mkSubscription 1 3 (OfMonitor 10) "*" ["*"%string; "a.service"%string].
Definition sample_proxy_sub : Subscription :=
  mkSubscription 2 4 (OfProxyMonitor 40) "n2" ["b.service"%string].
Definition sample_proxy : ProxyMonitor :=
  mkProxyMonitor 1 1 (Some 41%positive) true "b.service" (Some 2%positive)
    "/org/eclipse/bluechi/internal/proxy/1".
Definition sample_job : Job :=
  mkJob 1 1 JOB_RUNNING 7 "/org/eclipse/bluechi/job/7" "start" "a.service" true 0 0.

Definition sample_controller : Controller :=
  mkController 1 false false 2000 6000 2 1 [1%positive; 2%positive] [3%positive] [30%positive]
    [10%positive] [20%positive; 41%positive].

Definition sample_world : World :=
  mkWorld {[1%positive := sample_node1; 2%positive := sample_node2; 3%positive := sample_node3]}
    {[30%positive := sample_job]} {[10%positive := sample_monitor]}
    {[20%positive := sample_sub; 21%positive := sample_new_sub; 41%positive := sample_proxy_sub]}
    {[40%positive := sample_proxy]} ∅ ∅ ∅ sample_controller
    (mkBcLogConfig None LOG_LEVEL_INFO false) 50 7 4 1 1 O O [].

Lemma sample_sub_live : sub_live sample_world 20.
Proof. exists sample_sub. split; [reflexivity|]. by eexists. Qed.
Lemma sample_new_sub_live : sub_live sample_world 21.
Proof. exists sample_new_sub. split; [reflexivity|]. by eexists. Qed.
Lemma sample_proxy_sub_live : sub_live sample_world 41.
Proof.
  exists sample_proxy_sub. split; [reflexivity|]. exists sample_proxy. split; [reflexivity|].
  by eexists.
Qed.

Lemma sample_new_not_registered :
  21%positive ∉ c_all_subscriptions (w_controller sample_world).
Proof. apply (bool_decide_unpack _). reflexivity. Qed.

(** The nodes of the sample. *)
Lemma sample_is_node p n : is_node sample_world p n ->
  p = 1%positive /\ n = sample_node1 \/ p = 2%positive /\ n = sample_node2.
Proof.
  intros [Hp Hn]. cbn in Hp. rewrite !elem_of_cons, elem_of_nil in Hp.
  destruct Hp as [-> |[-> |[]]]; vm_compute in Hn; injection Hn as <-; auto.
Qed.

Lemma sample_registry_ok : registry_ok sample_world.
Proof.
  split.
  - apply (bool_decide_unpack _). reflexivity.
  - intros p Hp. cbn in Hp. rewrite !elem_of_cons, elem_of_nil in Hp.
    destruct Hp as [-> |[-> |[]]]; eexists _, _; split; reflexivity.
  - intros p q n n' [[-> ->]|[-> ->]]%sample_is_node [[-> ->]|[-> ->]]%sample_is_node; done.
  - apply (bool_decide_unpack _). reflexivity.
  - intros sub Hsub. cbn in Hsub. rewrite !elem_of_cons, elem_of_nil in Hsub.
    destruct Hsub as [-> |[-> |[]]]; [apply sample_sub_live|apply sample_proxy_sub_live].
  - intros p n [[-> ->]|[-> ->]]%sample_is_node u us Hus.
    + change (({["a.service"%string := sample_usubs]} : registry) !! u = Some us) in Hus.
      apply lookup_singleton_Some in Hus as [<- <-]. cbn. split_and!; [done..|].
      intros sub ->%list_elem_of_singleton. split; [by left|].
      exists sample_sub. split_and!; [done|by right|done].
    + change (({["b.service"%string := sample_usubs2]} : registry) !! u = Some us) in Hus.
      apply lookup_singleton_Some in Hus as [<- <-]. cbn. split_and!; [done..|].
      intros sub ->%list_elem_of_singleton. split; [by right; left|].
      exists sample_proxy_sub. split_and!; [done|by right|done].
Qed.
