(* ===== verification/SubscriptionTheorems.v ===== *)
(** Properties of the subscription core: the registry invariant, what
    subscribing and unsubscribing do, their round trip, the delivery of events
    and the loss of an agent. *)
From S2P Require Import Prelude CString StringUtil TimeUtil Protocol Log World Job Events.
From S2P Require Import Subscriptions WorldFacts EventFacts RegistryFacts.
From S2P Require Import Sample.
Local Open Scope list_scope.

(** ** Round trip: lemmas *)

Fixpoint fold_usubs (nodes : list ptr) (f : registry -> registry) (w : World) : World :=
  match nodes with
  | [] => w
  | p :: nodes => fold_usubs nodes f (with_usubs p f w)
  end.

Lemma with_usubs_comm p q f g w :
  p <> q -> with_usubs p f (with_usubs q g w) = with_usubs q g (with_usubs p f w).
Proof. intros Hne. unfold with_usubs. destruct w; cbn. f_equal. by apply alter_alter_ne. Qed.

Lemma fold_usubs_comm p f nodes g w :
  p ∉ nodes -> with_usubs p f (fold_usubs nodes g w) = fold_usubs nodes g (with_usubs p f w).
Proof.
  revert w. induction nodes as [|q nodes IH]; intros w; [done|].
  intros [Hne Hn]%not_elem_of_cons. cbn [fold_usubs].
  rewrite IH by done. by rewrite with_usubs_comm.
Qed.

Lemma fold_usubs_cancel nodes f g w :
  NoDup nodes ->
  (forall p, p ∈ nodes -> exists n, w_nodes w !! p = Some n /\
     g (f (node_unit_subscriptions n)) = node_unit_subscriptions n) ->
  fold_usubs nodes g (fold_usubs nodes f w) = w.
Proof.
  revert w. induction nodes as [|p nodes IH]; intros w; [done|].
  intros [Hp Hnd]%NoDup_cons Hall. cbn [fold_usubs].
  rewrite fold_usubs_comm, with_usubs_compose by done.
  destruct (Hall p) as (n & Hn & Hgf); [left|].
  rewrite (with_usubs_id p n) by done. apply IH; [done|]. intros q Hq. apply Hall. by right.
Qed.

Lemma fold_usubs_quiet nodes f w w' :
  quiet w w' -> quiet (fold_usubs nodes f w) (fold_usubs nodes f w').
Proof.
  revert w w'. induction nodes as [|p nodes IH]; intros w w' H; [done|].
  cbn [fold_usubs]. apply IH. by apply quiet_with_usubs.
Qed.

Lemma named_with_usubs p f w name q : named (with_usubs p f w) name q = named w name q.
Proof.
  unfold named. destruct (decide (p = q)) as [->|Hne]; [|by rewrite lookup_with_usubs_ne].
  unfold with_usubs. cbn. rewrite lookup_alter_eq. by destruct (w_nodes w !! q).
Qed.
Lemma named_fold_usubs nodes f w name q : named (fold_usubs nodes f w) name q = named w name q.
Proof.
  revert w. induction nodes as [|p nodes IH]; intros w; [done|]. cbn [fold_usubs].
  by rewrite IH, named_with_usubs.
Qed.
Lemma named_quiet w w' name q : quiet w w' -> named w' name q = named w name q.
Proof. intros H. unfold named. by rewrite (quiet_nodes _ _ H). Qed.

(** The nodes a subscription is registered with. *)
Definition target_nodes (w : World) (s : Subscription) : list ptr :=
  if subscription_has_node_wildcard s then c_nodes (w_controller w)
  else match List.find (named w (sub_node s)) (c_nodes (w_controller w)) with
       | Some p => [p]
       | None => []
       end.

Lemma target_nodes_in w s p : p ∈ target_nodes w s -> p ∈ c_nodes (w_controller w).
Proof.
  unfold target_nodes. case_match; [done|]. destruct (List.find _ _) as [q|] eqn:Ef.
  - intros ->%list_elem_of_singleton. apply find_some in Ef as [? _]. by apply list_elem_of_In.
  - by intros ?%elem_of_nil.
Qed.

Lemma target_nodes_nodup w s : NoDup (c_nodes (w_controller w)) -> NoDup (target_nodes w s).
Proof.
  intros H. unfold target_nodes. case_match; [done|].
  case_match; [apply NoDup_singleton|apply NoDup_nil_2].
Qed.

Lemma find_ext {A} (P Q : A -> bool) l : (forall x, P x = Q x) -> List.find P l = List.find Q l.
Proof. intros H. induction l as [|x l IH]; [done|]. cbn. by rewrite H, IH. Qed.

Section roundtrip.
Context {E : Env} (Hnf : no_local_failure E).

(** What the loops of the two operations rely on. *)
Definition sub_ready (sub : ptr) (s : Subscription) (nodes : list ptr) (w : World) : Prop :=
  sub_live w sub /\ w_subs w !! sub = Some s /\ forall p, p ∈ nodes -> is_Some (w_nodes w !! p).

Lemma sub_ready_quiet sub s nodes p f w w' :
  quiet (with_usubs p f w) w' -> sub_ready sub s nodes w -> sub_ready sub s nodes w'.
Proof.
  intros H (A1 & A2 & A3). split_and!.
  - eapply quiet_sub_live; [exact H|]. by apply with_usubs_sub_live.
  - by rewrite (quiet_subs _ _ H).
  - intros q Hq. rewrite (quiet_nodes _ _ H). apply with_usubs_node_some. auto.
Qed.

Lemma wp_foreach_usubs (body : ptr -> CM void) f sub s nodes : forall w,
  sub_ready sub s nodes w ->
  (forall p w', p ∈ nodes -> sub_ready sub s nodes w' ->
     wp (body p) (fun _ w'' => quiet (with_usubs p f w') w'') w') ->
  wp (foreach nodes body) (fun _ w' => quiet (fold_usubs nodes f w) w') w.
Proof.
  enough (forall l w, (forall p, p ∈ l -> p ∈ nodes) -> sub_ready sub s nodes w ->
    (forall p w', p ∈ nodes -> sub_ready sub s nodes w' ->
       wp (body p) (fun _ w'' => quiet (with_usubs p f w') w'') w') ->
    wp (foreach l body) (fun _ w' => quiet (fold_usubs l f w) w') w) as H by eauto.
  induction l as [|p l IH]; intros w Hl Hr Hbody; cbn [foreach]; [by apply wp_ret|].
  wp_one. eapply wp_mono; [apply Hbody; [apply Hl; left|done]|]. cbn beta. intros _ w1 Hq.
  eapply wp_mono; [apply IH; [intros; apply Hl; by right|by eapply sub_ready_quiet|done]|].
  cbn beta. intros _ w2 Hq2. etrans; [|exact Hq2]. exact (fold_usubs_quiet l f _ _ Hq).
Qed.

Lemma wp_subscribe_all sub s w :
  registry_ok w -> sub_live w sub -> w_subs w !! sub = Some s ->
  wp (if subscription_has_node_wildcard s
      then c ← controller; foreach (c_nodes c) (fun node => node_subscribe node sub)
      else node ← controller_find_node (sub_node s);
           match node with Some node => node_subscribe node sub | None => mret tt end)
     (fun _ w' => quiet (fold_usubs (target_nodes w s) (reg_adds sub (sub_units s)) w) w') w.
Proof.
  intros Hok Hlive Hs.
  assert (forall nodes p w', p ∈ nodes -> sub_ready sub s nodes w' ->
    wp (node_subscribe p sub)
      (fun _ w'' => quiet (with_usubs p (reg_adds sub (sub_units s)) w') w'') w') as Hround.
  { intros nodes p w' Hp (A1 & A2 & A3). eapply wp_mono; [by apply (wp_node_subscribe p sub s); auto|].
    cbn beta. intros _ w'' (k & Hq & Hk). by rewrite (Hk Hnf) in Hq. }
  assert (forall nodes, (forall p, p ∈ nodes -> p ∈ c_nodes (w_controller w)) ->
    sub_ready sub s nodes w) as Hready.
  { intros nodes Hn. split_and!; [done..|]. intros p Hp.
    destruct (ok_nodes w Hok p (Hn p Hp)) as (n & _ & ? & _). eauto. }
  unfold target_nodes. destruct (subscription_has_node_wildcard s).
  - wp_one. wp_one. apply (wp_foreach_usubs _ _ sub s); [by apply Hready|by apply Hround].
  - wp_one. apply wp_controller_find_node; [apply Hok|]. intros r -> Hf.
    destruct (List.find _ _) as [p|]; [|by apply wp_ret]. destruct Hf as (n & [Hp _] & _).
    apply (Hround [p]); [left|]. apply Hready. by intros q ->%list_elem_of_singleton.
Qed.

Lemma wp_unsubscribe_all sub s w nodes :
  (forall p, p ∈ c_nodes (w_controller w) ->
     exists n name, w_nodes w !! p = Some n /\ node_name n = Some name) ->
  sub_live w sub -> w_subs w !! sub = Some s -> nodes = target_nodes w s ->
  wp (if subscription_has_node_wildcard s
      then c ← controller; foreach (c_nodes c) (fun node => node_unsubscribe node sub)
      else node ← controller_find_node (sub_node s);
           match node with Some node => node_unsubscribe node sub | None => mret tt end)
     (fun _ w' => quiet (fold_usubs nodes (reg_dels sub (sub_units s)) w) w') w.
Proof.
  intros Hnodes Hlive Hs ->.
  assert (forall nodes p w', p ∈ nodes -> sub_ready sub s nodes w' ->
    wp (node_unsubscribe p sub)
      (fun _ w'' => quiet (with_usubs p (reg_dels sub (sub_units s)) w') w'') w') as Hround.
  { intros nodes p w' Hp (A1 & A2 & A3). by apply wp_node_unsubscribe; auto. }
  assert (forall nodes, (forall p, p ∈ nodes -> p ∈ c_nodes (w_controller w)) ->
    sub_ready sub s nodes w) as Hready.
  { intros nodes Hn. split_and!; [done..|]. intros p Hp.
    destruct (Hnodes p (Hn p Hp)) as (n & _ & ? & _). eauto. }
  unfold target_nodes. destruct (subscription_has_node_wildcard s).
  - wp_one. wp_one. apply (wp_foreach_usubs _ _ sub s); [by apply Hready|by apply Hround].
  - wp_one. apply wp_controller_find_node; [done|]. intros r -> Hf.
    destruct (List.find _ _) as [p|]; [|by apply wp_ret]. destruct Hf as (n & [Hp _] & _).
    apply (Hround [p]); [left|]. apply Hready. by intros q ->%list_elem_of_singleton.
Qed.
End roundtrip.

Lemma quiet_with_sub sub s subs w w' :
  quiet w w' -> quiet (with_sub sub s subs w) (with_sub sub s subs w').
Proof. intros H. exact (f_equal (with_sub sub s subs) H). Qed.

Lemma with_sub_twice sub s0 s1 subs w :
  w_subs w !! sub = Some s0 ->
  with_sub sub s0 (c_all_subscriptions (w_controller w)) (with_sub sub s1 subs w) = w.
Proof.
  intros Hs. unfold with_sub. destruct w; cbn in *. f_equal.
  - by rewrite insert_insert_eq, insert_id.
  - by destruct w_controller.
Qed.

Lemma fold_usubs_subs nodes f w : w_subs (fold_usubs nodes f w) = w_subs w.
Proof. revert w. induction nodes as [|p nodes IH]; intros w; [done|]. cbn [fold_usubs]. by rewrite IH. Qed.
Lemma fold_usubs_controller nodes f w : w_controller (fold_usubs nodes f w) = w_controller w.
Proof. revert w. induction nodes as [|p nodes IH]; intros w; [done|]. cbn [fold_usubs]. by rewrite IH. Qed.
Lemma fold_usubs_sub_live nodes f w sub : sub_live w sub -> sub_live (fold_usubs nodes f w) sub.
Proof.
  revert w. induction nodes as [|p nodes IH]; intros w H; [done|]. cbn [fold_usubs]. by apply IH, with_usubs_sub_live.
Qed.
Lemma fold_usubs_nodes nodes f w p n :
  w_nodes w !! p = Some n ->
  exists n', w_nodes (fold_usubs nodes f w) !! p = Some n' /\ node_name n' = node_name n.
Proof.
  revert w n. induction nodes as [|q nodes IH]; intros w n Hn; [by exists n|]. cbn [fold_usubs].
  destruct (decide (q = p)) as [->|Hne].
  - by apply (IH (with_usubs p f w) (on_registry f n)), lookup_with_usubs.
  - apply (IH (with_usubs q f w) n). by rewrite lookup_with_usubs_ne.
Qed.

Lemma target_nodes_fold nodes f w w' s :
  quiet (fold_usubs nodes f w) w' -> target_nodes w' s = target_nodes w s.
Proof.
  intros H. unfold target_nodes. rewrite (quiet_controller _ _ H), fold_usubs_controller.
  case_match; [done|]. erewrite find_ext; [done|]. intros q.
  by rewrite (named_quiet _ _ _ _ H), named_fold_usubs.
Qed.

(** ** Properties of registering *)

(** C1. Whatever allocation or bus call fails: registering a new live subscription
    and unregistering a registered one (its owner still holding a reference)
    do not crash and keep the registry invariant. In particular no unit is kept
    in a registry without a subscriber, every subscriber of a unit is a live,
    registered subscription that asked for that unit on that node, and after
    unregistering no node knows the subscription any more. *)
Theorem subscription_registry_preserved {E : Env} (w : World) (Hok : registry_ok w) :
  (forall sub, sub_live w sub -> sub ∉ c_all_subscriptions (w_controller w) ->
     wp (controller_add_subscription sub)
        (fun _ w' => registry_ok w' /\
           c_all_subscriptions (w_controller w') =
             c_all_subscriptions (w_controller w) ++ [sub]) w) /\
  (forall sub, sub ∈ c_all_subscriptions (w_controller w) ->
     (forall s, w_subs w !! sub = Some s -> 2 <= sub_ref_count s) ->
     wp (controller_remove_subscription sub)
        (fun _ w' => registry_ok w' /\ (forall p, lacks w' p sub) /\
           c_all_subscriptions (w_controller w') =
             remove_first sub (c_all_subscriptions (w_controller w))) w).
Proof.
  split; [intros; by apply wp_add_subscription_ok|intros; by apply wp_remove_subscription_ok].
Qed.

Lemma subscription_registry_preserved_witness :
  wp (controller_add_subscription 21)
     (fun _ w' => registry_ok w' /\
        c_all_subscriptions (w_controller w') = [20%positive; 41%positive; 21%positive])
     sample_world.
Proof.
  apply (subscription_registry_preserved sample_world sample_registry_ok).
  - exact sample_new_sub_live.
  - exact sample_new_not_registered.
Defined.

(** One round of [node_subscribe], when memory is available: the subscription is
    appended to the unit's subscribers; the agent is told to subscribe exactly
    when it is the first one; and when the unit is known to be loaded the new
    subscriber alone is sent the virtual events that describe the cached state. *)
Theorem node_subscribe_unit_correct {E : Env} (Hnf : no_local_failure E) (w : World)
  (p sub : ptr) (n : Node) (unit : string)
  (Hn : w_nodes w !! p = Some n) (Hlive : sub_live w sub) :
  wp (node_subscribe_unit p sub unit)
     (fun go w' => go = true /\
        quiet (with_usubs p (reg_add sub unit) w) w' /\
        w_trace w' = w_trace w ++
          (if bool_decide (node_unit_subscriptions n !! unit = None)
           then agent_message n "Subscribe" (Some unit) else []) ++
          virtual_calls w n sub unit (entry (node_unit_subscriptions n) unit)) w.
Proof.
  eapply wp_mono; [by apply wp_node_subscribe_unit|]. cbn beta. intros go w' [Hq Ht].
  destruct (Ht Hnf) as [-> Htr]. split_and!; [done..|]. rewrite Htr. unfold subscribe_calls.
  by destruct (node_unit_subscriptions n !! unit).
Qed.

Lemma node_subscribe_unit_correct_witness :
  wp (node_subscribe_unit 1 21 "c.service")
     (fun go w' => go = true /\
        quiet (with_usubs 1 (reg_add 21 "c.service") sample_world) w' /\
        w_trace w' = [AgentSend 100 "Subscribe" (Some "c.service"%string)]) sample_world.
Proof.
  exact (node_subscribe_unit_correct sample_no_failure sample_world 1 21 sample_node1 "c.service"
    eq_refl sample_new_sub_live).
Defined.

(** One round of [node_unsubscribe], whatever fails: one occurrence of the
    subscription leaves the unit; the unit leaves the registry with its last
    subscriber, and exactly then the agent is told to unsubscribe. *)
Theorem node_unsubscribe_unit_correct {E : Env} (w : World) (p sub : ptr) (n : Node)
  (unit : string) (Hn : w_nodes w !! p = Some n) :
  wp (node_unsubscribe_unit p sub unit)
     (fun _ w' =>
        quiet (with_usubs p (reg_del sub unit) w) w' /\
        (no_local_failure E ->
         w_trace w' = w_trace w ++
           match node_unit_subscriptions n !! unit with
           | Some us =>
               if bool_decide (sub ∈ us_subs us) && bool_decide (remove_first sub (us_subs us) = [])
               then agent_message n "Unsubscribe" (Some unit) else []
           | None => []
           end)) w.
Proof. by apply wp_node_unsubscribe_unit. Qed.

Lemma node_unsubscribe_unit_correct_witness :
  wp (node_unsubscribe_unit 1 20 "a.service")
     (fun _ w' =>
        quiet (with_usubs 1 (reg_del 20 "a.service") sample_world) w' /\
        (no_local_failure sample_env ->
         w_trace w' = [AgentSend 100 "Unsubscribe" (Some "a.service"%string)])) sample_world.
Proof.
  exact (node_unsubscribe_unit_correct sample_world 1 20 sample_node1 "a.service" eq_refl).
Defined.

(** What registering a new subscription does, exactly: when no local call fails
    every unit filter is entered in every node the subscription names. *)
Lemma wp_add_subscription_exact {E : Env} (Hnf : no_local_failure E) w sub s :
  registry_ok w -> sub_live w sub -> sub ∉ c_all_subscriptions (w_controller w) ->
  w_subs w !! sub = Some s ->
  let s1 := s <| sub_ref_count ::= Z.succ |> in
  let w1 := with_sub sub s1 (c_all_subscriptions (w_controller w) ++ [sub]) w in
  wp (controller_add_subscription sub)
     (fun _ w' => (registry_ok w1 /\
        quiet (fold_usubs (target_nodes w1 s1) (reg_adds sub (sub_units s1)) w1) w')%type) w.
Proof.
  intros Hok Hlive Hnot Hs s1 w1.
  assert (w_subs w1 !! sub = Some s1) as Hs1 by (cbn; apply lookup_insert_eq).
  assert (sub_live w1 sub) as Hlive1 by (by eapply with_sub_live).
  assert (registry_ok w1) as Hok1.
  { apply (with_sub_ok sub s); try done.
    - apply NoDup_app. split_and!; [apply Hok| |apply NoDup_singleton].
      intros y Hy ->%list_elem_of_singleton. done.
    - intros y [Hy| ->%list_elem_of_singleton]%elem_of_app; [by apply Hok|done].
    - intros. apply elem_of_app. by left. }
  unfold controller_add_subscription, subscription_ref. wp_one. wp_one. wp_one.
  wp_one. wp_one. wp_one.
  match goal with |- wp _ _ ?w' => change w' with w1 end.
  wp_one. wp_one. eapply wp_mono; [by apply (wp_subscribe_all Hnf sub s1)|]. by cbn beta.
Qed.

(** C33. Registering a subscription and unregistering it again gives the state back,
    every cached unit state included; only messages to agents and virtual
    events were sent. *)
Theorem subscription_roundtrip {E : Env} (Hnf : no_local_failure E) (w : World) (sub : ptr)
  (s : Subscription) (Hok : registry_ok w) (Hlive : sub_live w sub)
  (Hnot : sub ∉ c_all_subscriptions (w_controller w))
  (Hs : w_subs w !! sub = Some s) (Href : 1 <= sub_ref_count s) :
  wp (controller_add_subscription sub ;; controller_remove_subscription sub)
     (fun _ w' => quiet w w') w.
Proof.
  wp_one. eapply wp_mono; [by apply (wp_add_subscription_exact Hnf w sub s)|]. cbn beta.
  set (s1 := s <| sub_ref_count ::= Z.succ |>).
  set (all := c_all_subscriptions (w_controller w)).
  set (w1 := with_sub sub s1 (all ++ [sub]) w).
  intros _ w2 [Hok1 Hq2]. set (nodes := target_nodes w1 s1) in *.
  assert (w_subs w1 !! sub = Some s1) as Hs1 by (cbn; apply lookup_insert_eq).
  assert (sub_live w1 sub) as Hlive1 by (by eapply with_sub_live).
  set (f := reg_adds sub (sub_units s1)) in *. set (g := reg_dels sub (sub_units s1)).
  assert (w_subs w2 !! sub = Some s1) as Hs2 by (by rewrite (quiet_subs _ _ Hq2), fold_usubs_subs).
  unfold controller_remove_subscription. wp_one. wp_one. wp_one.
  eapply wp_mono; [apply (wp_unsubscribe_all sub s1 w2 nodes)|].
  { intros p Hp. rewrite (quiet_controller _ _ Hq2), fold_usubs_controller in Hp.
    destruct (ok_nodes w1 Hok1 p Hp) as (n & name & Hn & Hname).
    destruct (fold_usubs_nodes nodes f w1 p n Hn) as (n' & Hn' & Hname').
    exists n', name. rewrite (quiet_nodes _ _ Hq2). split; congruence. }
  { eapply quiet_sub_live; [exact Hq2|]. by apply fold_usubs_sub_live. }
  { done. }
  { by rewrite (target_nodes_fold _ _ _ _ _ Hq2). }
  cbn beta. intros _ w3 Hq3.
  assert (quiet w1 w3) as Hq13.
  { etrans; [|exact Hq3]. fold g.
    rewrite <- (fold_usubs_cancel nodes f g w1).
    - by apply fold_usubs_quiet.
    - apply target_nodes_nodup, Hok1.
    - intros p Hp%target_nodes_in. destruct (ok_nodes w1 Hok1 p Hp) as (n & name & Hn & _).
      exists n. split; [done|]. apply reg_roundtrip.
      + by apply (lacks_not_registered w p sub).
      + intros u us Hus. by destruct (ok_entries w1 Hok1 p n (conj Hp Hn) u us Hus) as (? & ? & _). }
  wp_one. wp_one. wp_one.
  rewrite (quiet_controller _ _ Hq13). change (c_all_subscriptions (w_controller w1)) with (all ++ [sub]).
  apply wp_list_remove_from; [apply elem_of_app; right; left|].
  rewrite remove_first_app_r by done. cbn [remove_first]. rewrite decide_True, app_nil_r by done.
  wp_one. wp_one. unfold subscription_unref. wp_one.
  eapply wp_update; [cbn; rewrite (quiet_subs _ _ Hq13); exact Hs1|].
  wp_one. eapply wp_load; [cbn; apply lookup_insert_eq|].
  match goal with |- context [?a =? 0] =>
    assert ((a =? 0) = false) as -> by (apply Z.eqb_neq; cbn; lia) end.
  cbn [negb]. apply wp_ret.
  match goal with |- quiet _ ?w' =>
    change w' with (with_sub sub (s1 <| sub_ref_count ::= Z.pred |>) all w3) end.
  etrans; [|apply quiet_with_sub, Hq13]. unfold w1.
  replace (s1 <| sub_ref_count ::= Z.pred |>) with s
    by (unfold s1; destruct s; cbn; f_equal; lia).
  unfold all. by rewrite with_sub_twice.
Qed.

Lemma subscription_roundtrip_witness :
  wp (controller_add_subscription 21 ;; controller_remove_subscription 21)
     (fun _ w' => quiet sample_world w') sample_world.
Proof.
  apply (subscription_roundtrip sample_no_failure sample_world 21 sample_new_sub
    sample_registry_ok sample_new_sub_live sample_new_not_registered eq_refl).
  done.
Defined.
