(* ===== verification/DeliveryTheorems.v ===== *)
(** What an agent's unit signals and the loss of an agent do: the cached unit
    states, and exactly which subscriptions are told what. *)
From S2P Require Import Prelude CString StringUtil Protocol Log World Job Events Subscriptions.
From S2P Require Import WorldFacts EventFacts RegistryFacts.
From S2P Require Import Sample.
Local Open Scope list_scope.

(** ** Changing cached states *)

(** [f] changes what is known of a unit, not who subscribed to it. *)
Definition keeps_subs (f : UnitSubscriptions -> UnitSubscriptions) : Prop :=
  forall us, us_subs (f us) = us_subs us /\ us_unit (f us) = us_unit us.

Definition keeps_subscribers (f : registry -> registry) (n : Node) : Prop :=
  forall u, subs_of (on_registry f n) u = subs_of n u.

Lemma keeps_subs_alter f unit n : keeps_subs f -> keeps_subscribers (alter f unit) n.
Proof.
  intros Hf u. unfold subs_of. cbn. destruct (decide (unit = u)) as [->|Hne].
  - rewrite lookup_alter_eq. destruct (node_unit_subscriptions n !! u) as [us|]; [apply Hf|done].
  - by rewrite lookup_alter_ne.
Qed.

Lemma keeps_subscribers_matching f n unit :
  keeps_subscribers f n -> matching (on_registry f n) unit = matching n unit.
Proof. intros Hf. unfold matching. by rewrite !Hf. Qed.

Section delivery.
Context {E : Env} {L : EnvLaws E}.

Lemma delivered_transfer p f w w' n unit e new :
  quiet (with_usubs p f w) w' -> keeps_subscribers f n ->
  delivered w' (on_registry f n) unit e new -> delivered w n unit e new.
Proof.
  intros Hq Hf (unique & Hnd & Hin & Hrep & ->). exists unique.
  rewrite (keeps_subscribers_matching f n) in Hin, Hrep by done.
  split_and!; [done|done| |].
  - intros sub Hsub. destruct (Hrep sub Hsub) as (sub' & Hsub' & Ht). exists sub'.
    rewrite !(quiet_target_of _ _ _ Hq) in Ht. done.
  - unfold delivery_calls. f_equal. apply map_ext. intros sub. cbn.
    by rewrite (quiet_sub_calls _ _ _ _ _ _ Hq), with_usubs_sub_calls.
Qed.

Lemma wp_node_cache p n unit f Q w :
  w_nodes w !! p = Some n -> Q tt (with_usubs p (alter f unit) w) ->
  wp (node_cache p unit f) Q w.
Proof.
  intros Hn HQ. unfold node_cache. wp_one. wp_one.
  destruct (node_unit_subscriptions n !! unit) as [us|] eqn:Hus.
  - eapply wp_update_usubs; [exact Hn|].
    rewrite (with_usubs_ext p n _ (alter f unit)); [done|exact Hn|].
    apply map_eq. intros u. destruct (decide (unit = u)) as [->|Hne].
    + by rewrite lookup_insert_eq, lookup_alter_eq, Hus.
    + by rewrite lookup_insert_ne, lookup_alter_ne.
  - apply wp_ret. rewrite (with_usubs_id p n) in HQ; [done|exact Hn|].
    apply map_eq. intros u. destruct (decide (unit = u)) as [->|Hne].
    + by rewrite lookup_alter_eq, Hus.
    + by rewrite lookup_alter_ne.
Qed.

Lemma wp_strdup s Q w :
  (forall d w', quiet w w' -> w_trace w' = w_trace w -> (no_local_failure E -> d = Some s) -> Q d w') ->
  wp (strdup s) Q w.
Proof.
  intros HQ. unfold strdup. wp_one. wp_one. apply wp_ret. apply HQ; [done..|].
  intros Hnf. by rewrite local_ok_true.
Qed.

(** Delivery after the cached states were changed. *)
Lemma wp_deliver_after (Hnf : no_local_failure E) p f n unit e w w1 :
  w_nodes w !! p = Some n -> quiet (with_usubs p f w) w1 -> keeps_subscribers f n ->
  (forall sub, sub ∈ matching n unit -> sub_live w sub) ->
  wp (node_deliver p unit e)
     (fun _ w' => quiet (with_usubs p f w) w' /\
        exists new, w_trace w' = w_trace w1 ++ new /\ delivered w n unit e new) w1.
Proof.
  intros Hn Hq Hf Hlive.
  assert (w_nodes w1 !! p = Some (on_registry f n)) as Hn1.
  { rewrite (quiet_nodes _ _ Hq). by apply lookup_with_usubs. }
  eapply wp_mono; [apply (wp_node_deliver p _ unit e w1 Hn1)|].
  - intros sub Hsub. rewrite (keeps_subscribers_matching f n) in Hsub by done.
    eapply quiet_sub_live; [exact Hq|]. by apply with_usubs_sub_live, Hlive.
  - cbn beta. intros _ w' [Hq' Ht]. split; [by etrans|].
    destruct (Ht Hnf) as (new & Hnew & Hd). exists new. split; [done|].
    by eapply delivered_transfer.
Qed.
End delivery.

(** ** The unit signals of an agent *)

Definition set_loaded (u : UnitSubscriptions) : UnitSubscriptions := u <| us_loaded := true |>.
Definition set_unloaded (u : UnitSubscriptions) : UnitSubscriptions := u <| us_loaded := false |>.
Definition set_state (active_state : UnitActiveState) (substate : string)
    (u : UnitSubscriptions) : UnitSubscriptions :=
  u <| us_active_state := active_state |> <| us_substate := Some substate |>.

(** What each signal changes in the entry of its unit. *)
Definition cache_effect (unit : string) (e : unit_event) (u : UnitSubscriptions) :
    UnitSubscriptions :=
  match e with
  | UnitPropertiesChanged _ _ => u
  | UnitNew _ =>
      if is_wildcard unit then set_state UNIT_ACTIVE "running" (set_loaded u) else set_loaded u
  | UnitStateChanged active_state substate _ =>
      set_state (active_state_from_string active_state) substate (set_loaded u)
  | UnitRemoved _ => set_unloaded u
  end.

(** The handler of each signal; the reason of [UnitRemoved] is not transmitted. *)
Definition unit_signal_handler {E : Env} (p : ptr) (unit : string) (e : unit_event) : CM Z :=
  match e with
  | UnitPropertiesChanged interface m =>
      node_match_unit_properties_changed p m (ReadOk (unit, interface))
  | UnitNew reason => node_match_unit_new p (ReadOk (unit, reason))
  | UnitStateChanged active_state substate reason =>
      node_match_unit_state_changed p (ReadOk (unit, active_state, substate, reason))
  | UnitRemoved _ => node_match_unit_removed p (ReadOk unit)
  end.

Lemma cache_effect_keeps unit e : keeps_subs (cache_effect unit e).
Proof. intros us. destruct e; cbn; [done| |done..]. by destruct (is_wildcard unit). Qed.

Lemma with_usubs_alter_twice p f g unit w :
  with_usubs p (alter f unit) (with_usubs p (alter g unit) w) =
  with_usubs p (alter (fun u => f (g u)) unit) w.
Proof.
  rewrite with_usubs_compose. unfold with_usubs. destruct w; cbn. f_equal. apply alter_ext.
  intros n _. unfold on_registry, field_update. cbn. f_equal.
  apply map_eq. intros u. destruct (decide (unit = u)) as [->|Hne].
  - rewrite !lookup_alter_eq. by destruct (_ !! u).
  - by rewrite !lookup_alter_ne.
Qed.

Lemma with_usubs_alter_none p n f unit w :
  w_nodes w !! p = Some n -> node_unit_subscriptions n !! unit = None ->
  with_usubs p (alter f unit) w = w.
Proof.
  intros Hn Hus. apply (with_usubs_id p n); [done|].
  apply map_eq. intros u. destruct (decide (unit = u)) as [->|Hne].
  - by rewrite lookup_alter_eq, Hus.
  - by rewrite lookup_alter_ne.
Qed.

Lemma wp_unit_signal {E : Env} {L : EnvLaws E} (Hnf : no_local_failure E) (w : World)
  (p : ptr) (n : Node) (unit : string) (e : unit_event) (Hn : w_nodes w !! p = Some n)
  (Hreason : forall r, e = UnitRemoved r -> r = "real"%string)
  (Hlive : forall sub, sub ∈ matching n unit -> sub_live w sub) :
  wp (unit_signal_handler p unit e)
     (fun r w' => r = 1 /\
        quiet (with_usubs p (alter (cache_effect unit e) unit) w) w' /\
        exists new, w_trace w' = w_trace w ++ new /\ delivered w n unit e new) w.
Proof.
  assert (forall w1, quiet (with_usubs p (alter (cache_effect unit e) unit) w) w1 ->
    w_trace w1 = w_trace w ->
    wp (node_deliver p unit e ;; mret 1) (fun r w' => r = 1 /\
        quiet (with_usubs p (alter (cache_effect unit e) unit) w) w' /\
        exists new, w_trace w' = w_trace w ++ new /\ delivered w n unit e new) w1) as Hdeliver.
  { intros w1 Hq Ht. wp_one. eapply wp_mono.
    - eapply wp_deliver_after; [done|exact Hn|exact Hq| |exact Hlive].
      apply keeps_subs_alter, cache_effect_keeps.
    - cbn beta. intros _ w2 [Hq2 Hnew]. rewrite Ht in Hnew. by apply wp_ret. }
  destruct e as [interface m|reason|active_state substate reason|reason];
    cbn [unit_signal_handler].
  - unfold node_match_unit_properties_changed. wp_one. wp_one.
    rewrite local_ok_true by done. cbn [negb]. apply Hdeliver; [|done]. cbn [cache_effect].
    rewrite (with_usubs_id p n); [done|done|]. apply map_eq. intros u.
    destruct (decide (unit = u)) as [->|Hne]; [rewrite lookup_alter_eq|by rewrite lookup_alter_ne].
    by destruct (_ !! u).
  - unfold node_match_unit_new. wp_one. wp_one. wp_one.
    destruct (node_unit_subscriptions n !! unit) as [us|] eqn:Hus; cycle 1.
    { wp_one. apply Hdeliver; [|done]. by erewrite with_usubs_alter_none. }
    wp_one. eapply wp_node_cache; [exact Hn|]. fold set_loaded.
    destruct (is_wildcard unit) eqn:Hw.
    + wp_one. apply wp_strdup. intros d w1 Hq Ht Hd. rewrite (Hd Hnf).
      eapply wp_node_cache.
      { rewrite (quiet_nodes _ _ Hq). by apply lookup_with_usubs. }
      apply Hdeliver; [|exact Ht].
      change (quiet (with_usubs p (alter (cache_effect unit (UnitNew reason)) unit) w)
        (with_usubs p (alter (set_state UNIT_ACTIVE "running") unit) w1)).
      etrans; [|apply quiet_with_usubs, Hq].
      rewrite with_usubs_alter_twice. unfold cache_effect. by rewrite Hw.
    + wp_one. apply Hdeliver; [|done]. unfold cache_effect. by rewrite Hw.
  - unfold node_match_unit_state_changed. wp_one. wp_one. wp_one.
    destruct (node_unit_subscriptions n !! unit) as [us|] eqn:Hus; cycle 1.
    { wp_one. apply Hdeliver; [|done]. by erewrite with_usubs_alter_none. }
    wp_one. apply wp_strdup. intros d w1 Hq Ht Hd. rewrite (Hd Hnf).
    eapply wp_node_cache; [rewrite (quiet_nodes _ _ Hq); exact Hn|].
    apply Hdeliver; [|exact Ht]. apply quiet_with_usubs, Hq.
  - rewrite (Hreason _ eq_refl) in Hdeliver |- *. unfold node_match_unit_removed.
    wp_one. eapply wp_node_cache; [exact Hn|]. by apply Hdeliver.
Qed.

(** C14. What an agent's unit signal does, when memory is available: the handler
    returns 1; the cached state of the unit, if somebody subscribed to it,
    becomes what the signal says and nothing else in the controller changes;
    the event is delivered to subscriptions to the unit or to the wildcard only,
    to no subscription twice, and every monitor that owns one of them gets it. *)
Theorem unit_signal_delivered {E : Env} {L : EnvLaws E} (Hnf : no_local_failure E) (w : World)
  (p : ptr) (n : Node) (unit : string) (e : unit_event) (Hn : w_nodes w !! p = Some n)
  (Hreason : forall r, e = UnitRemoved r -> r = "real"%string)
  (Hlive : forall sub, sub ∈ matching n unit -> sub_live w sub) :
  wp (unit_signal_handler p unit e)
     (fun r w' => r = 1 /\
        quiet (with_usubs p (alter (cache_effect unit e) unit) w) w' /\
        exists new, w_trace w' = w_trace w ++ new /\ delivered w n unit e new) w.
Proof. by apply wp_unit_signal. Qed.

Lemma sample_matching_live sub :
  sub ∈ matching sample_node1 "a.service" -> sub_live sample_world sub.
Proof.
  change (matching sample_node1 "a.service") with [20%positive].
  intros ->%list_elem_of_singleton. apply sample_sub_live.
Qed.

Lemma unit_signal_delivered_witness :
  wp (unit_signal_handler 1 "a.service" (UnitRemoved "real"))
     (fun r w' => r = 1 /\
        quiet (with_usubs 1 (alter (cache_effect "a.service" (UnitRemoved "real")) "a.service")
                 sample_world) w' /\
        exists new, w_trace w' = [] ++ new /\
          delivered sample_world sample_node1 "a.service" (UnitRemoved "real") new) sample_world.
Proof.
  apply (unit_signal_delivered sample_no_failure sample_world 1 sample_node1 "a.service"
    (UnitRemoved "real") eq_refl).
  - by intros r [= <-].
  - exact sample_matching_live.
Defined.

(** ** Losing an agent *)

Definition was_active (us : UnitSubscriptions) : bool :=
  (0 <=? active_state_value (us_active_state us)) &&
  negb (bool_decide (us_active_state us = UNIT_INACTIVE)).

(** What remains known of a unit whose agent is gone. *)
Definition agent_gone (us : UnitSubscriptions) : UnitSubscriptions :=
  if us_loaded us
  then set_unloaded (if was_active us then set_state UNIT_INACTIVE "agent-offline" us else us)
  else us.

(** What is sent about a unit when its agent is gone. *)
Definition gone_events {E : Env} (w : World) (n : Node) (us : UnitSubscriptions)
    (new : list call) : Prop :=
  if us_loaded us then
    exists new1 new2, new = new1 ++ new2 /\
      (if was_active us
       then delivered w n (us_unit us) (UnitStateChanged "inactive" "agent-offline" "virtual") new1
       else new1 = []) /\
      delivered w n (us_unit us) (UnitRemoved "virtual") new2
  else new = [].

Definition gone_on (keys : list string) (m : registry) : registry :=
  foldl (fun m key => alter agent_gone key m) m keys.

Lemma agent_gone_keeps : keeps_subs agent_gone.
Proof. intros us. unfold agent_gone. destruct (us_loaded us), (was_active us); done. Qed.

Lemma gone_on_lookup keys : forall m u, NoDup keys ->
  gone_on keys m !! u = if decide (u ∈ keys) then agent_gone <$> m !! u else m !! u.
Proof.
  induction keys as [|key keys IH]; intros m u Hnd; cbn [gone_on foldl].
  - rewrite decide_False; [done|]. apply not_elem_of_nil.
  - apply NoDup_cons in Hnd as [Hkey Hnd]. fold (gone_on keys (alter agent_gone key m)).
    rewrite IH by done. destruct (decide (u = key)) as [->|Hne].
    + rewrite decide_False, decide_True, lookup_alter_eq by (done || left). done.
    + rewrite lookup_alter_ne by done. apply decide_ext. rewrite elem_of_cons. tauto.
Qed.

Lemma gone_on_all keys m :
  NoDup keys -> (forall u, u ∈ keys <-> is_Some (m !! u)) -> gone_on keys m = agent_gone <$> m.
Proof.
  intros Hnd Hin. apply map_eq. intros u. rewrite gone_on_lookup, lookup_fmap by done.
  case_decide as Hu; [done|]. destruct (m !! u) as [us|] eqn:Hus; [|done].
  destruct Hu. apply Hin. eauto.
Qed.

Section disconnect.
Context {E : Env} {L : EnvLaws E} (Hnf : no_local_failure E).

(** The entries carry their keys and everybody subscribed is live. *)
Definition registry_live (w : World) (n : Node) : Prop :=
  (forall u us, node_unit_subscriptions n !! u = Some us -> us_unit us = u) /\
  (forall u us sub, node_unit_subscriptions n !! u = Some us -> sub ∈ us_subs us -> sub_live w sub).

Lemma registry_live_matching w n unit sub :
  registry_live w n -> sub ∈ matching n unit -> sub_live w sub.
Proof.
  intros [_ Hlive]. unfold matching, subs_of. intros [Hsub|Hsub]%elem_of_app.
  - destruct (_ !! unit) as [us|] eqn:E'; [by eapply Hlive|]. by apply elem_of_nil in Hsub.
  - destruct (streq unit SYMBOL_WILDCARD); [by apply elem_of_nil in Hsub|].
    destruct (node_unit_subscriptions n !! SYMBOL_WILDCARD) as [us|] eqn:E';
      [by eapply Hlive|by apply elem_of_nil in Hsub].
Qed.

Lemma wp_node_disconnect_unit w p n key us :
  w_nodes w !! p = Some n -> registry_live w n ->
  node_unit_subscriptions n !! key = Some us ->
  wp (node_disconnect_unit p key)
     (fun _ w' => quiet (with_usubs p (alter agent_gone key) w) w' /\
        exists new, w_trace w' = w_trace w ++ new /\ gone_events w n us new) w.
Proof.
  intros Hn Hlive Hus. assert (us_unit us = key) as Hkey by (by apply Hlive).
  unfold node_disconnect_unit, gone_events. wp_one. wp_one. rewrite Hus.
  destruct (us_loaded us) eqn:Hl; cbn [negb]; cycle 1.
  { apply wp_ret. split; [|exists []; by rewrite app_nil_r].
    rewrite (with_usubs_id p n); [done|done|]. apply map_eq. intros u.
    destruct (decide (key = u)) as [->|Hne]; [|by rewrite lookup_alter_ne].
    rewrite lookup_alter_eq, Hus. cbn. unfold agent_gone. by rewrite Hl. }
  fold (was_active us). rewrite Hkey.
  assert (forall f, keeps_subs f -> keeps_subscribers (alter f key) n) as Hkeep
    by (intros; by apply keeps_subs_alter).
  assert (forall g, g us = agent_gone us ->
    with_usubs p (alter g key) w = with_usubs p (alter agent_gone key) w) as Hgone.
  { intros g Hg. apply (with_usubs_ext p n); [done|]. apply map_eq. intros u.
    destruct (decide (key = u)) as [->|Hne]; [|by rewrite !lookup_alter_ne].
    rewrite !lookup_alter_eq, Hus. cbn. by rewrite Hg. }
  destruct (was_active us) eqn:Ha; cycle 1.
  { wp_one. wp_one. wp_one. eapply wp_node_cache; [exact Hn|]. wp_one. wp_one.
    eapply wp_mono.
    - eapply wp_deliver_after; [done|exact Hn|reflexivity|by apply Hkeep|].
      intros sub. by apply registry_live_matching.
    - cbn beta. intros _ w2 [Hq (new & Ht & Hd)]. fold set_unloaded in Hq.
      rewrite Hgone in Hq by (unfold agent_gone; by rewrite Hl, Ha).
      split; [done|]. exists new. split; [done|]. by exists [], new. }
  wp_one. wp_one. apply wp_strdup. intros d w1 Hq1 Ht1 Hd. rewrite (Hd Hnf). clear Hd d.
  eapply wp_node_cache; [rewrite (quiet_nodes _ _ Hq1); exact Hn|].
  wp_one. eapply wp_node_cache.
  { apply lookup_with_usubs. rewrite (quiet_nodes _ _ Hq1). exact Hn. }
  fold set_unloaded (set_state UNIT_INACTIVE "agent-offline").
  rewrite with_usubs_alter_twice.
  assert (quiet (with_usubs p (alter agent_gone key) w) (with_usubs p
    (alter (fun u => set_unloaded (set_state UNIT_INACTIVE "agent-offline" u)) key) w1)) as Hq2.
  { rewrite <- Hgone with (g := fun u => set_unloaded (set_state UNIT_INACTIVE "agent-offline" u))
      by (unfold agent_gone; by rewrite Hl, Ha). by apply quiet_with_usubs. }
  set (w2 := with_usubs _ _ w1) in *.
  assert (w_nodes w2 !! p = Some (on_registry (alter agent_gone key) n)) as Hn2.
  { rewrite (quiet_nodes _ _ Hq2). by apply lookup_with_usubs. }
  wp_one. wp_one. eapply wp_load; [exact Hn2|]. cbn [on_registry node_unit_subscriptions].
  change (node_unit_subscriptions (on_registry (alter agent_gone key) n))
    with (alter agent_gone key (node_unit_subscriptions n)).
  rewrite lookup_alter_eq, Hus. cbn [fmap option_fmap option_map].
  unfold agent_gone at 1 2 3. rewrite Hl, Ha.
  change (us_unit (set_unloaded _)) with (us_unit us). rewrite Hkey.
  eapply wp_mono.
  { eapply wp_deliver_after; [done|exact Hn|exact Hq2|apply Hkeep, agent_gone_keeps|].
    intros sub. by apply registry_live_matching. }
  cbn beta. intros _ w3 [Hq3 (new1 & Ht3 & Hd3)]. eapply wp_mono.
  { eapply wp_deliver_after; [done|exact Hn|exact Hq3|apply Hkeep, agent_gone_keeps|].
    intros sub. by apply registry_live_matching. }
  cbn beta. intros _ w4 [Hq4 (new2 & Ht4 & Hd4)]. split; [done|]. exists (new1 ++ new2).
  split; [|by exists new1, new2]. rewrite Ht4, Ht3, <- app_assoc. f_equal. exact Ht1.
Qed.
End disconnect.

Lemma registry_live_step {E : Env} w w' p n key :
  quiet (with_usubs p (alter agent_gone key) w) w' -> registry_live w n ->
  registry_live w' (on_registry (alter agent_gone key) n).
Proof.
  intros Hq [H1 H2]. split.
  - intros u us. cbn. destruct (decide (u = key)) as [->|Hne];
      [rewrite lookup_alter_eq|rewrite lookup_alter_ne by done; apply H1].
    intros (us0 & Hus0 & ->)%fmap_Some. rewrite (proj2 (agent_gone_keeps us0)). by apply H1.
  - intros u us sub. cbn. intros Hus Hsub.
    eapply quiet_sub_live; [exact Hq|]. apply with_usubs_sub_live.
    destruct (decide (u = key)) as [->|Hne].
    + rewrite lookup_alter_eq in Hus. apply fmap_Some in Hus as (us0 & Hus0 & ->).
      rewrite (proj1 (agent_gone_keeps us0)) in Hsub. by eapply H2.
    + rewrite lookup_alter_ne in Hus by done. by eapply H2.
Qed.

Lemma gone_events_transfer {E : Env} w w' p n key us new :
  quiet (with_usubs p (alter agent_gone key) w) w' ->
  gone_events w' (on_registry (alter agent_gone key) n) us new -> gone_events w n us new.
Proof.
  assert (keeps_subscribers (alter agent_gone key) n) as Hkeep
    by apply keeps_subs_alter, agent_gone_keeps.
  intros Hq. unfold gone_events. destruct (us_loaded us); [|done].
  intros (new1 & new2 & -> & H1 & H2). exists new1, new2. split_and!; [done| |].
  - destruct (was_active us); [|done]. by eapply delivered_transfer.
  - by eapply delivered_transfer.
Qed.

(** The events of the entries under [keys], in that order. *)
Definition gone_blocks {E : Env} (w : World) (n : Node) (keys : list string)
    (blocks : list (list call)) : Prop :=
  Forall2 (fun key new => exists us, node_unit_subscriptions n !! key = Some us /\
                                     gone_events w n us new) keys blocks.

Lemma gone_blocks_transfer {E : Env} w w' p n key keys blocks :
  quiet (with_usubs p (alter agent_gone key) w) w' -> key ∉ keys ->
  gone_blocks w' (on_registry (alter agent_gone key) n) keys blocks -> gone_blocks w n keys blocks.
Proof.
  intros Hq Hkey Hb. unfold gone_blocks in *. induction Hb as [|k new ks bs Hk Hb IH]; [constructor|].
  apply not_elem_of_cons in Hkey as [Hne Hkey]. constructor; [|by apply IH].
  destruct Hk as (us & Hus & Hg). exists us. split; [|by eapply gone_events_transfer].
  cbn in Hus. by rewrite lookup_alter_ne in Hus.
Qed.

Lemma wp_disconnect_loop {E : Env} {L : EnvLaws E} (Hnf : no_local_failure E) p keys : forall w n,
  w_nodes w !! p = Some n -> registry_live w n -> NoDup keys ->
  (forall key, key ∈ keys -> is_Some (node_unit_subscriptions n !! key)) ->
  wp (foreach keys (node_disconnect_unit p))
     (fun _ w' => quiet (with_usubs p (gone_on keys) w) w' /\
        exists blocks, w_trace w' = w_trace w ++ List.concat blocks /\
                       gone_blocks w n keys blocks) w.
Proof.
  induction keys as [|key keys IH]; intros w n Hn Hlive Hnd Hkeys; cbn [foreach].
  - apply wp_ret. split; [by rewrite (with_usubs_id p n)|]. exists []. split; [|constructor].
    by rewrite app_nil_r.
  - apply NoDup_cons in Hnd as [Hkey Hnd]. destruct (Hkeys key) as [us Hus]; [left|].
    wp_one. eapply wp_mono; [by apply (wp_node_disconnect_unit Hnf w p n key us)|]. cbn beta.
    intros _ w1 [Hq1 (new & Ht1 & Hnew)].
    assert (w_nodes w1 !! p = Some (on_registry (alter agent_gone key) n)) as Hn1.
    { rewrite (quiet_nodes _ _ Hq1). by apply lookup_with_usubs. }
    eapply wp_mono; [apply (IH w1 _ Hn1)|].
    + by eapply registry_live_step.
    + done.
    + intros k Hk. cbn. rewrite lookup_alter_ne by (intros ->; done). apply Hkeys. by right.
    + cbn beta. intros _ w2 [Hq2 (blocks & Ht2 & Hb)]. split.
      * etrans; [|exact Hq2]. cbn [gone_on foldl].
        change (foldl _ (alter agent_gone key ?m) keys) with (gone_on keys (alter agent_gone key m)).
        change (with_usubs p _ w) with
          (with_usubs p (fun m => gone_on keys (alter agent_gone key m)) w).
        rewrite <- with_usubs_compose. by apply quiet_with_usubs.
      * exists (new :: blocks). split.
        { cbn [List.concat]. by rewrite Ht2, Ht1, app_assoc. }
        constructor; [by exists us|]. by eapply gone_blocks_transfer.
Qed.

Lemma wp_disconnect_units {E : Env} {L : EnvLaws E} (Hnf : no_local_failure E)
  (w : World) (p : ptr) (n : Node) (Hn : w_nodes w !! p = Some n) (Hlive : registry_live w n) :
  wp (node_disconnect_units p)
     (fun _ w' => quiet (with_usubs p (fmap agent_gone) w) w' /\
        exists keys blocks, NoDup keys /\
          (forall u, u ∈ keys <-> is_Some (node_unit_subscriptions n !! u)) /\
          gone_blocks w n keys blocks /\
          w_trace w' = w_trace w ++ List.concat blocks) w.
Proof.
  unfold node_disconnect_units. wp_one. wp_one.
  set (m := node_unit_subscriptions n). set (keys := hashmap_order m).
  assert (keys ≡ₚ (map_to_list m).*1) as Hperm by apply hashmap_order_perm.
  assert (NoDup keys) as Hnd by (rewrite Hperm; apply NoDup_fst_map_to_list).
  assert (forall u, u ∈ keys <-> is_Some (m !! u)) as Hin.
  { intros u. rewrite Hperm, list_elem_of_fmap. split.
    - intros ([u' us] & -> & Hus%elem_of_map_to_list). cbn. eauto.
    - intros [us Hus]. exists (u, us). split; [done|]. by apply elem_of_map_to_list. }
  eapply wp_mono; [apply (wp_disconnect_loop Hnf p keys w n Hn Hlive Hnd)|].
  - intros key Hkey. by apply Hin.
  - cbn beta. intros _ w' [Hq (blocks & Ht & Hb)]. split.
    + rewrite (with_usubs_ext p n _ (gone_on keys)); [done|done|].
      symmetry. by apply gone_on_all.
    + by exists keys, blocks.
Qed.

(** C20. Losing an agent, when memory is available: afterwards no unit of the node is
    known to be loaded. A loaded unit that was last reported in a valid state other
    than inactive is recorded as inactive with the sub-state agent-offline, and the
    subscriptions to it or to the wildcard receive the virtual state change and then
    the virtual removal; any other loaded unit keeps its recorded state and gives
    them only the removal; a unit that was not loaded keeps its record and gives
    nothing. The units are gone through in some order, each exactly once, and
    everything else is kept. *)
Theorem node_disconnect_units_correct {E : Env} {L : EnvLaws E} (Hnf : no_local_failure E)
  (w : World) (p : ptr) (n : Node) (Hn : w_nodes w !! p = Some n) (Hlive : registry_live w n) :
  wp (node_disconnect_units p)
     (fun _ w' => quiet (with_usubs p (fmap agent_gone) w) w' /\
        exists keys blocks, NoDup keys /\
          (forall u, u ∈ keys <-> is_Some (node_unit_subscriptions n !! u)) /\
          gone_blocks w n keys blocks /\
          w_trace w' = w_trace w ++ List.concat blocks) w.
Proof. by apply wp_disconnect_units. Qed.

Lemma node_disconnect_units_correct_witness :
  wp (node_disconnect_units 1)
     (fun _ w' => quiet (with_usubs 1 (fmap agent_gone) sample_world) w' /\
        exists keys blocks, NoDup keys /\
          (forall u, u ∈ keys <-> is_Some (node_unit_subscriptions sample_node1 !! u)) /\
          gone_blocks sample_world sample_node1 keys blocks /\
          w_trace w' = [] ++ List.concat blocks) sample_world.
Proof.
  apply (node_disconnect_units_correct sample_no_failure sample_world 1 sample_node1 eq_refl).
  split.
  - intros u us Hus. change (({["a.service"%string := sample_usubs]} : registry) !! u = Some us) in Hus.
    by apply lookup_singleton_Some in Hus as [<- <-].
  - intros u us sub Hus. change (({["a.service"%string := sample_usubs]} : registry) !! u = Some us) in Hus.
    apply lookup_singleton_Some in Hus as [<- <-]. intros ->%list_elem_of_singleton.
    apply sample_sub_live.
Defined.
