(* ===== verification/JobTheorems.v ===== *)
(** The life of a job: the invariant of the controller's job list, its reference counts and
    the signals sent, which every operation on jobs keeps; every sequence of operations
    announces a job once, reports its end at most once and never uses a released job. *)
From S2P Require Import Prelude CString StringUtil ParseUtil TimeUtil Protocol Log World Job.
From S2P Require Import WorldFacts.
From S2P Require Import Node EventFacts Sample.
Local Open Scope list_scope.

(** ** The signals that announce the beginning and the end of a job *)

Inductive job_signal := SigNew (id : Z) | SigRemoved (id : Z).
#[export] Instance job_signal_eq_dec : EqDecision job_signal.
Proof. solve_decision. Defined.
Definition sig_id (s : job_signal) : Z := match s with SigNew id | SigRemoved id => id end.

Definition signal_of (c : call) : option job_signal :=
  match c with
  | ApiEmitSignal _ iface member (VUint id :: _) =>
      if negb (streq iface CONTROLLER_INTERFACE) then None
      else if streq member "JobNew" then Some (SigNew id)
      else if streq member "JobRemoved" then Some (SigRemoved id) else None
  | _ => None
  end.
Definition job_signals (t : list call) : list job_signal := omap signal_of t.

Lemma job_signals_app t1 t2 : job_signals (t1 ++ t2) = job_signals t1 ++ job_signals t2.
Proof. apply omap_app. Qed.

(** Every removal is preceded by the announcement of the same job. *)
Definition ordered (sigs : list job_signal) : Prop :=
  forall l1 l2 id, sigs = l1 ++ SigRemoved id :: l2 -> SigNew id ∈ l1.

Lemma ordered_snoc sigs s :
  ordered sigs -> (forall id, s = SigRemoved id -> SigNew id ∈ sigs) -> ordered (sigs ++ [s]).
Proof.
  intros Ho Hs l1 l2 id Heq. destruct l2 as [|x l2 _] using rev_ind.
  - apply app_inj_tail in Heq as [-> ->]. by apply Hs.
  - change (SigRemoved id :: l2 ++ [x]) with ((SigRemoved id :: l2) ++ [x]) in Heq.
    rewrite app_assoc in Heq. apply app_inj_tail in Heq as [-> ->]. by eapply Ho.
Qed.

(** ** The part of the state that jobs live in *)

Record JobView := mkJobView {
  jv_jobs : gmap ptr Job;
  jv_list : list ptr;
  jv_next_id : Z;
  jv_next_ptr : ptr;
  jv_node : ptr -> Prop;
  jv_sigs : list job_signal;
}.
Definition view (w : World) : JobView :=
  mkJobView (w_jobs w) (c_jobs (w_controller w)) (w_next_job_id w) (w_next_ptr w)
    (fun q => is_Some (w_nodes w !! q)) (job_signals (w_trace w)).

(** Jobs are referenced by the request that created them ([held]; [true] once
    it has offered the job to the controller) and by the controller's list. *)
Abbreviation holders := (list (ptr * bool)%type).
Definition refs (held : holders) (l : list ptr) (p : ptr) : Z :=
  (if decide (p ∈ held.*1) then 1 else 0) + (if decide (p ∈ l) then 1 else 0).

Record job_inv (v : JobView) (held : holders) : Prop := {
  ji_held : NoDup held.*1;
  ji_list : NoDup (jv_list v);
  ji_live : forall p, is_Some (jv_jobs v !! p) <-> p ∈ held.*1 \/ p ∈ jv_list v;
  ji_refs : forall p j, jv_jobs v !! p = Some j -> job_ref_count j = refs held (jv_list v) p;
  ji_id : forall p j, jv_jobs v !! p = Some j -> 1 <= job_id j <= jv_next_id v;
  ji_ptr : forall p, is_Some (jv_jobs v !! p) -> (p < jv_next_ptr v)%positive;
  ji_node : forall p j, jv_jobs v !! p = Some j -> jv_node v (job_node j);
  ji_ids : forall p q j k, jv_jobs v !! p = Some j -> jv_jobs v !! q = Some k ->
    job_id j = job_id k -> p = q;
  ji_unoffered : forall p j, (p, false) ∈ held -> jv_jobs v !! p = Some j ->
    p ∉ jv_list v /\ SigNew (job_id j) ∉ jv_sigs v;
  ji_listed : forall p j, p ∈ jv_list v -> jv_jobs v !! p = Some j ->
    SigNew (job_id j) ∈ jv_sigs v /\ SigRemoved (job_id j) ∉ jv_sigs v;
  ji_sigs : NoDup (jv_sigs v);
  ji_range : forall s, s ∈ jv_sigs v -> 1 <= sig_id s <= jv_next_id v;
  ji_order : ordered (jv_sigs v);
  ji_next : 0 <= jv_next_id v;
}.

(** ** Transitions of the view *)

Definition set_jobs (f : gmap ptr Job -> gmap ptr Job) (v : JobView) : JobView :=
  mkJobView (f (jv_jobs v)) (jv_list v) (jv_next_id v) (jv_next_ptr v) (jv_node v) (jv_sigs v).
Definition set_list (l : list ptr) (v : JobView) : JobView :=
  mkJobView (jv_jobs v) l (jv_next_id v) (jv_next_ptr v) (jv_node v) (jv_sigs v).
Definition add_sig (s : job_signal) (v : JobView) : JobView :=
  mkJobView (jv_jobs v) (jv_list v) (jv_next_id v) (jv_next_ptr v) (jv_node v) (jv_sigs v ++ [s]).

(** A job loses one reference. *)
Definition unref_jobs (p : ptr) (jobs : gmap ptr Job) : gmap ptr Job :=
  match jobs !! p with
  | Some j => if job_ref_count j =? 1 then delete p jobs
              else <[p := j <| job_ref_count ::= Z.pred |>]> jobs
  | None => jobs
  end.

(** Fields other than the identity and the reference count may change. *)
Lemma job_inv_update v held p j j' :
  job_inv v held -> jv_jobs v !! p = Some j ->
  job_id j' = job_id j -> job_ref_count j' = job_ref_count j -> job_node j' = job_node j ->
  job_inv (set_jobs <[p := j']> v) held.
Proof.
  intros [] Hj Hid Href Hnode.
  assert (forall q k, <[p := j']> (jv_jobs v) !! q = Some k -> exists k0, jv_jobs v !! q = Some k0 /\
    job_id k = job_id k0 /\ job_ref_count k = job_ref_count k0 /\ job_node k = job_node k0) as Hback.
  { intros q k [[<- <-]|[Hne Hk]]%lookup_insert_Some; [exists j|exists k]; by rewrite ?Hid, ?Href, ?Hnode. }
  split; cbn; try assumption.
  - intros q. rewrite <- ji_live0. destruct (decide (p = q)) as [<-|Hne].
    + rewrite lookup_insert_eq, Hj. split; eauto.
    + by rewrite lookup_insert_ne.
  - intros q k (k0 & Hk0 & _ & -> & _)%Hback. by apply ji_refs0.
  - intros q k (k0 & Hk0 & -> & _)%Hback. by eapply ji_id0.
  - intros q [k (k0 & Hk0 & _)%Hback]. by apply ji_ptr0.
  - intros q k (k0 & Hk0 & _ & _ & ->)%Hback. by eapply ji_node0.
  - intros q1 q2 k1 k2 (k & Hk & -> & _)%Hback (k' & Hk' & -> & _)%Hback. by eapply ji_ids0.
  - intros q k Hq (k0 & Hk0 & -> & _)%Hback. by apply (ji_unoffered0 q).
  - intros q k Hq (k0 & Hk0 & -> & _)%Hback. by apply (ji_listed0 q).
Qed.

Lemma refs_other held l p q : p <> q -> refs ((p, false) :: held) l q = refs held l q.
Proof.
  intros Hne. unfold refs. f_equal. apply decide_ext. cbn. rewrite elem_of_cons. naive_solver.
Qed.

(** A new job, held by the request that created it. *)
Lemma job_inv_new v held j :
  job_inv v held -> job_ref_count j = 1 -> job_id j = jv_next_id v + 1 -> jv_node v (job_node j) ->
  job_inv (mkJobView (<[jv_next_ptr v := j]> (jv_jobs v)) (jv_list v) (jv_next_id v + 1)
             (Pos.succ (jv_next_ptr v)) (jv_node v) (jv_sigs v))
          ((jv_next_ptr v, false) :: held).
Proof.
  intros [] Href Hid Hnode. set (p := jv_next_ptr v).
  assert (jv_jobs v !! p = None) as Hfresh.
  { destruct (jv_jobs v !! p) as [k|] eqn:Hk; [|done].
    assert (p < p)%positive by (apply ji_ptr0; eauto). lia. }
  assert (~ (p ∈ held.*1 \/ p ∈ jv_list v)) as Hnot.
  { rewrite <- ji_live0, Hfresh. by intros [? ?]. }
  assert (forall q k, <[p := j]> (jv_jobs v) !! q = Some k ->
    q = p /\ k = j \/ q <> p /\ jv_jobs v !! q = Some k) as Hback.
  { intros q k [[<- <-]|[Hne Hk]]%lookup_insert_Some; auto. }
  assert (forall q k, jv_jobs v !! q = Some k -> job_id k <> job_id j) as Hnew.
  { intros q k Hk%ji_id0. lia. }
  split; cbn; try assumption.
  - apply NoDup_cons. tauto.
  - intros q. rewrite lookup_insert_is_Some, ji_live0, elem_of_cons.
    destruct (decide (q = p)) as [->|Hne]; naive_solver.
  - intros q k [[-> ->]|[Hne Hk]]%Hback.
    + unfold refs. rewrite decide_True by left. rewrite decide_False by tauto. lia.
    + rewrite refs_other by done. by apply ji_refs0.
  - intros q k [[-> ->]|[Hne Hk%ji_id0]]%Hback; lia.
  - intros q [k [[-> ->]|[Hne Hk]]%Hback]; [lia|].
    assert (q < p)%positive by (apply ji_ptr0; eauto). lia.
  - intros q k [[-> ->]|[Hne Hk]]%Hback; [done|by eapply ji_node0].
  - intros q1 q2 k1 k2 [[-> ->]|[? Hk]]%Hback [[-> ->]|[? Hk']]%Hback Heq; [done| | |by eapply ji_ids0].
    + by apply Hnew in Hk'.
    + by apply Hnew in Hk.
  - intros q k Hq [[-> ->]|[Hne Hk]]%Hback.
    + split; [tauto|]. intros Hs%ji_range0. cbn in Hs. lia.
    + apply elem_of_cons in Hq as [[= ->]|Hq]; [done|]. by apply (ji_unoffered0 q).
  - intros q k Hq [[-> ->]|[Hne Hk]]%Hback; [tauto|]. by apply (ji_listed0 q).
  - intros s Hs%ji_range0. lia.
  - lia.
Qed.

(** An identifier that was used up without a job. *)
Lemma job_inv_skip v held next :
  job_inv v held -> (jv_next_ptr v <= next)%positive ->
  job_inv (mkJobView (jv_jobs v) (jv_list v) (jv_next_id v + 1) next (jv_node v) (jv_sigs v)) held.
Proof.
  intros [] Hnext. split; cbn; try assumption.
  - intros p j Hj%ji_id0. lia.
  - intros p Hp%ji_ptr0. lia.
  - intros s Hs%ji_range0. lia.
  - lia.
Qed.

Lemma refs_pos held l p : 1 <= refs held l p <-> p ∈ held.*1 \/ p ∈ l.
Proof. unfold refs. repeat case_decide; split; intros; try tauto; lia. Qed.

(** Giving up one reference. *)
Lemma job_inv_unref v held p held' l' :
  job_inv v held -> is_Some (jv_jobs v !! p) -> NoDup held'.*1 -> NoDup l' ->
  refs held' l' p = refs held (jv_list v) p - 1 ->
  (forall q, q <> p -> refs held' l' q = refs held (jv_list v) q) ->
  (forall x, x ∈ held' -> x ∈ held) -> (forall q, q ∈ l' -> q ∈ jv_list v) ->
  job_inv (set_list l' (set_jobs (unref_jobs p) v)) held'.
Proof.
  intros [] [j Hj] Hnd1 Hnd2 Hp Hq Hheld Hl.
  pose proof (ji_refs0 p j Hj) as Href.
  assert (forall q k, unref_jobs p (jv_jobs v) !! q = Some k -> exists k0, jv_jobs v !! q = Some k0 /\
    job_id k = job_id k0 /\ job_node k = job_node k0 /\ job_ref_count k = refs held' l' q) as Hback.
  { intros q k. unfold unref_jobs. rewrite Hj. destruct (job_ref_count j =? 1) eqn:H1.
    - intros [Hne Hk]%lookup_delete_Some. exists k. rewrite Hq by done. split_and!; [done..|by apply ji_refs0].
    - intros [[<- <-]|[Hne Hk]]%lookup_insert_Some.
      + exists j. cbn. rewrite Hp, <- Href. split_and!; [done..|lia].
      + exists k. rewrite Hq by done. split_and!; [done..|by apply ji_refs0]. }
  assert (forall q, is_Some (unref_jobs p (jv_jobs v) !! q) <-> q ∈ held'.*1 \/ q ∈ l') as Hlive.
  { intros q. rewrite <- refs_pos. destruct (decide (q = p)) as [->|Hne].
    - rewrite Hp, <- Href. unfold unref_jobs. rewrite Hj. destruct (job_ref_count j =? 1) eqn:H1.
      + rewrite lookup_delete_eq. split; [by intros [? ?]|lia].
      + rewrite lookup_insert_eq. split; [intros _|eauto].
        assert (1 <= refs held (jv_list v) p) by (apply refs_pos, ji_live0; eauto).
        lia.
    - rewrite Hq by done. rewrite refs_pos, <- ji_live0. unfold unref_jobs. rewrite Hj.
      destruct (job_ref_count j =? 1); [by rewrite lookup_delete_ne|by rewrite lookup_insert_ne]. }
  split; cbn; try assumption.
  - intros q k (k0 & _ & _ & _ & ->)%Hback. done.
  - intros q k (k0 & Hk0 & -> & _)%Hback. by eapply ji_id0.
  - intros q [k (k0 & Hk0 & _)%Hback]. apply ji_ptr0. eauto.
  - intros q k (k0 & Hk0 & _ & -> & _)%Hback. by eapply ji_node0.
  - intros q1 q2 k1 k2 (k & Hk & -> & _)%Hback (k' & Hk' & -> & _)%Hback. by eapply ji_ids0.
  - intros q k Hin (k0 & Hk0 & -> & _)%Hback. destruct (ji_unoffered0 q k0) as [H1 H2]; auto.
  - intros q k Hin (k0 & Hk0 & -> & _)%Hback. apply (ji_listed0 q); auto.
Qed.

(** The request is done with its job. *)
Definition drop_holder (p : ptr) (held : holders) : holders := filter (fun x => x.1 <> p) held.

Lemma drop_holder_fst p held q : q ∈ (drop_holder p held).*1 <-> q ∈ held.*1 /\ q <> p.
Proof.
  rewrite !list_elem_of_fmap. unfold drop_holder. split.
  - intros (x & -> & [Hne Hx]%list_elem_of_filter). eauto.
  - intros [(x & -> & Hx) Hne]. exists x. split; [done|]. by apply list_elem_of_filter.
Qed.

Lemma drop_holder_nodup p held : NoDup held.*1 -> NoDup (drop_holder p held).*1.
Proof.
  induction held as [|x held IH]; [done|]. rewrite fmap_cons. intros [Hx Hnd]%NoDup_cons.
  unfold drop_holder. rewrite filter_cons. fold (drop_holder p held). case_decide; [|auto].
  rewrite fmap_cons. apply NoDup_cons. split; [|auto]. rewrite drop_holder_fst. tauto.
Qed.

Lemma refs_drop_ne p held l q : q <> p -> refs (drop_holder p held) l q = refs held l q.
Proof. intros Hne. unfold refs. f_equal. apply decide_ext. rewrite drop_holder_fst. tauto. Qed.

Lemma job_inv_release v held p :
  job_inv v held -> p ∈ held.*1 ->
  job_inv (set_jobs (unref_jobs p) v) (drop_holder p held).
Proof.
  intros Hinv Hp. change (set_jobs (unref_jobs p) v) with
    (set_list (jv_list v) (set_jobs (unref_jobs p) v)).
  eapply job_inv_unref; [exact Hinv| | | | | | |done].
  - apply Hinv. by left.
  - apply drop_holder_nodup, Hinv.
  - apply Hinv.
  - unfold refs. rewrite (decide_True (P := p ∈ held.*1)) by done.
    rewrite (decide_False (P := p ∈ (drop_holder p held).*1)) by (rewrite drop_holder_fst; tauto). lia.
  - intros q Hne. by apply refs_drop_ne.
  - intros x Hx%list_elem_of_filter. tauto.
Qed.

(** The controller forgets a job. *)
Lemma job_inv_unlist v held p :
  job_inv v held -> p ∈ jv_list v ->
  job_inv (set_list (remove_first p (jv_list v)) (set_jobs (unref_jobs p) v)) held.
Proof.
  intros Hinv Hp. assert (NoDup (jv_list v)) as Hnd by apply Hinv.
  eapply job_inv_unref; [exact Hinv| | | | | |done|].
  - apply Hinv. by right.
  - apply Hinv.
  - by apply remove_first_nodup.
  - unfold refs. rewrite (decide_True (P := p ∈ jv_list v)) by done.
    rewrite (decide_False (P := p ∈ remove_first p (jv_list v))) by by apply remove_first_gone. lia.
  - intros q Hne. unfold refs. f_equal. apply decide_ext. split.
    + apply remove_first_elem.
    + by apply remove_first_ne.
  - intros q. apply remove_first_elem.
Qed.

(** ... after saying so. *)
Lemma job_inv_removed v held id :
  job_inv v held -> SigNew id ∈ jv_sigs v -> SigRemoved id ∉ jv_sigs v ->
  (forall p j, p ∈ jv_list v -> jv_jobs v !! p = Some j -> job_id j <> id) ->
  job_inv (add_sig (SigRemoved id) v) held.
Proof.
  intros [] Hnew Hnot Hids. split; cbn; try assumption.
  - intros p j Hp Hj. destruct (ji_unoffered0 p j Hp Hj) as [H1 H2]. split; [done|].
    intros [H|H%list_elem_of_singleton]%elem_of_app; done.
  - intros p j Hp Hj. destruct (ji_listed0 p j Hp Hj) as [H1 H2]. split.
    + apply elem_of_app. by left.
    + intros [H|H%list_elem_of_singleton]%elem_of_app; [done|]. injection H. by eapply Hids.
  - apply NoDup_app. split_and!; [done| |apply NoDup_singleton].
    intros s Hs ->%list_elem_of_singleton. done.
  - intros s [Hs| ->%list_elem_of_singleton]%elem_of_app; [auto|].
    by apply (ji_range0 _ Hnew).
  - apply ordered_snoc; [done|]. by intros ? [= <-].
Qed.

(** The request offers its job to the controller; each request does so once. *)
Definition offer (p : ptr) (held : holders) : holders :=
  map (fun x => (x.1, x.2 || bool_decide (x.1 = p))) held.

Lemma offer_fst p held : (offer p held).*1 = held.*1.
Proof. unfold offer. induction held as [|x held IH]; cbn; [done|]. by f_equal. Qed.

Lemma offer_unoffered p q held : (q, false) ∈ offer p held -> (q, false) ∈ held /\ q <> p.
Proof.
  unfold offer. rewrite list_elem_of_In, in_map_iff. intros ([q' b] & [= -> Hb] & Hin).
  apply list_elem_of_In in Hin. apply orb_false_iff in Hb as [-> Hb].
  by apply bool_decide_eq_false in Hb.
Qed.

Lemma refs_offer p held l q : refs (offer p held) l q = refs held l q.
Proof. unfold refs. by rewrite offer_fst. Qed.

Lemma job_inv_offer v held p : job_inv v held -> job_inv v (offer p held).
Proof.
  intros []. split; try assumption.
  - by rewrite offer_fst.
  - intros q. by rewrite offer_fst.
  - intros q j Hj. rewrite refs_offer. by apply ji_refs0.
  - intros q j [Hq _]%offer_unoffered Hj. by apply (ji_unoffered0 q).
Qed.

(** [JobNew] is sent. *)
Lemma job_inv_announce v held p j :
  job_inv v held -> (p, false) ∈ held -> jv_jobs v !! p = Some j ->
  job_inv (add_sig (SigNew (job_id j)) v) (offer p held).
Proof.
  intros Hinv Hp Hj. destruct (ji_unoffered _ _ Hinv p j Hp Hj) as [Hunl Hnot].
  pose proof (job_inv_offer v held p Hinv) as Hinv'. destruct Hinv'. split; cbn; try assumption.
  - intros q k Hq Hk. destruct (ji_unoffered0 q k Hq Hk) as [H1 H2]. split; [done|].
    apply offer_unoffered in Hq as [Hq Hne].
    intros [H|H%list_elem_of_singleton]%elem_of_app; [done|]. injection H as H.
    apply Hne. by apply (ji_ids0 q p k j).
  - intros q k Hq Hk. destruct (ji_listed0 q k Hq Hk) as [H1 H2]. split.
    + apply elem_of_app. by left.
    + intros [H|H%list_elem_of_singleton]%elem_of_app; done.
  - apply NoDup_app. split_and!; [done| |apply NoDup_singleton].
    intros s Hs ->%list_elem_of_singleton. done.
  - intros s [Hs| ->%list_elem_of_singleton]%elem_of_app; [auto|]. cbn. by eapply ji_id0.
  - apply ordered_snoc; done.
Qed.

(** The announced job enters the list. *)
Lemma job_inv_list v held p j :
  job_inv v held -> p ∈ held.*1 -> (p, false) ∉ held -> p ∉ jv_list v -> jv_jobs v !! p = Some j ->
  SigNew (job_id j) ∈ jv_sigs v -> SigRemoved (job_id j) ∉ jv_sigs v ->
  job_inv (set_list (jv_list v ++ [p])
             (set_jobs <[p := j <| job_ref_count ::= Z.succ |>]> v)) held.
Proof.
  intros [] Hheld Hoff Hnot Hj Hnew Hrem.
  assert (forall q, q ∈ jv_list v ++ [p] <-> q ∈ jv_list v \/ q = p) as Hin.
  { intros q. by rewrite elem_of_app, list_elem_of_singleton. }
  assert (forall q k, <[p := j <| job_ref_count ::= Z.succ |>]> (jv_jobs v) !! q = Some k ->
    exists k0, jv_jobs v !! q = Some k0 /\ job_id k = job_id k0 /\ job_node k = job_node k0 /\
      job_ref_count k = job_ref_count k0 + if decide (q = p) then 1 else 0) as Hback.
  { intros q k [[<- <-]|[Hne Hk]]%lookup_insert_Some.
    - exists j. rewrite decide_True by done. split_and!; [done..|cbn; lia].
    - exists k. rewrite decide_False by done. split_and!; [done..|lia]. }
  split; cbn; try assumption.
  - apply NoDup_app. split_and!; [done| |apply NoDup_singleton].
    intros q Hq ->%list_elem_of_singleton. done.
  - intros q. rewrite lookup_insert_is_Some, Hin, ji_live0.
    destruct (decide (q = p)) as [->|Hne]; naive_solver.
  - intros q k (k0 & Hk0 & _ & _ & ->)%Hback. rewrite (ji_refs0 q k0 Hk0). unfold refs.
    destruct (decide (q = p)) as [->|Hne].
    + rewrite (decide_False (P := p ∈ jv_list v)), (decide_True (P := p ∈ jv_list v ++ [p]))
        by (done || apply Hin; by right). lia.
    + rewrite Z.add_0_r. f_equal. apply decide_ext. rewrite Hin. tauto.
  - intros q k (k0 & Hk0 & -> & _)%Hback. by eapply ji_id0.
  - intros q [k (k0 & Hk0 & _)%Hback]. apply ji_ptr0. eauto.
  - intros q k (k0 & Hk0 & _ & -> & _)%Hback. by eapply ji_node0.
  - intros q1 q2 k1 k2 (k & Hk & -> & _)%Hback (k' & Hk' & -> & _)%Hback. by eapply ji_ids0.
  - intros q k Hq (k0 & Hk0 & -> & _)%Hback. destruct (ji_unoffered0 q k0 Hq Hk0) as [H1 H2].
    split; [|done]. rewrite Hin. intros [?| ->]; done.
  - intros q k Hq (k0 & Hk0 & -> & _)%Hback. apply Hin in Hq as [Hq| ->]; [by apply (ji_listed0 q)|].
    rewrite Hj in Hk0. by injection Hk0 as <-.
Qed.

Section operations.
Context {E : Env}.
Implicit Types (held : holders) (w : World).

Definition inv w held : Prop := job_inv (view w) held.

(** Calls other than job signals do not matter. *)
Lemma inv_emit c w held : signal_of c = None -> inv w held -> inv (emit c w) held.
Proof.
  intros Hc. unfold inv, view, emit. cbn.
  rewrite job_signals_app. cbn [job_signals omap list_omap]. rewrite Hc. by rewrite app_nil_r.
Qed.
Lemma inv_tick w held : inv w held -> inv (tick w) held.
Proof. done. Qed.

Lemma wp_job_update p j f held Q w :
  inv w held -> w_jobs w !! p = Some j ->
  job_id (f j) = job_id j -> job_ref_count (f j) = job_ref_count j -> job_node (f j) = job_node j ->
  (forall w', inv w' held -> w_jobs w' !! p = Some (f j) -> Q tt w') ->
  wp (update p f) Q w.
Proof.
  intros Hinv Hj H1 H2 H3 HQ. eapply wp_update; [exact Hj|]. apply HQ.
  - by eapply (job_inv_update (view w) held p j).
  - apply lookup_insert_eq.
Qed.

Lemma wp_job_unref p j Q w :
  w_jobs w !! p = Some j ->
  Q tt (w <| w_jobs ::= unref_jobs p |>) -> wp (job_unref p) Q w.
Proof.
  intros Hj HQ. unfold job_unref. wp_one. eapply wp_update; [exact Hj|].
  wp_one. eapply wp_load; [apply lookup_insert_eq|].
  replace (job_ref_count _ =? 0) with (job_ref_count j =? 1).
  2:{ cbn. destruct (job_ref_count j =? 1) eqn:E1; symmetry;
      [apply Z.eqb_eq|apply Z.eqb_neq]; lia. }
  assert (forall x : Job, store_upd (T := Job) (delete p) (store_upd <[p := x]> w) =
    w <| w_jobs ::= delete p |>) as Hdel.
  { intros x. destruct w; cbn. f_equal. by rewrite delete_insert_eq. }
  destruct (job_ref_count j =? 1) eqn:E1; cbn [negb].
  - eapply wp_free; [apply lookup_insert_eq|]. rewrite Hdel.
    enough (w <| w_jobs ::= delete p |> = w <| w_jobs ::= unref_jobs p |>) as -> by done.
    destruct w; cbn in *. f_equal. unfold unref_jobs. by rewrite Hj, E1.
  - apply wp_ret.
    enough (store_upd <[p := j <| job_ref_count ::= Z.pred |>]> w =
      w <| w_jobs ::= unref_jobs p |>) as Heq by (rewrite <- Heq in HQ; exact HQ).
    destruct w; cbn in *. f_equal. unfold unref_jobs. by rewrite Hj, E1.
Qed.

(** ** Creation *)

Lemma drop_fresh held p : p ∉ held.*1 -> drop_holder p ((p, false) :: held) = held.
Proof.
  intros Hp. unfold drop_holder. rewrite filter_cons, decide_False by (intros H; by apply H).
  induction held as [|x held IH]; [done|]. rewrite filter_cons.
  rewrite fmap_cons in Hp. apply not_elem_of_cons in Hp as [Hne Hp].
  rewrite decide_True by (intros Heq; by apply Hne). by rewrite IH.
Qed.

Lemma inv_release w held p :
  inv w ((p, false) :: held) -> inv (w <| w_jobs ::= unref_jobs p |>) held.
Proof.
  intros Hinv. rewrite <- (drop_fresh held p).
  - apply (job_inv_release (view w)); [done|]. left.
  - pose proof (ji_held _ _ Hinv) as Hnd. by apply NoDup_cons in Hnd as [? _].
Qed.

(** What [job_new] leaves: one more holder, or nothing. *)
Definition created held (r : option ptr) w : Prop :=
  match r with
  | Some p => inv w ((p, false) :: held)
  | None => inv w held
  end.

Lemma wp_abandon p j held w :
  inv w ((p, false) :: held) -> w_jobs w !! p = Some j ->
  wp (job_unref p ;; mret None) (created held) w.
Proof.
  intros Hinv Hj. wp_one. eapply wp_job_unref; [exact Hj|]. apply wp_ret. by apply inv_release.
Qed.

Lemma wp_job_new node unit type held w :
  inv w held -> is_Some (w_nodes w !! node) -> w_next_job_id w < 2 ^ 32 - 1 ->
  wp (job_new node unit type) (created held) w.
Proof.
  intros Hinv Hnode Hid. unfold job_new. wp_one. wp_one.
  destruct (negb (local_result _ <? 0)); cbn [negb]; [|by apply wp_ret].
  assert (next_u32 (w_next_job_id (tick w)) = w_next_job_id w + 1) as Hnext.
  { unfold next_u32. apply Z.mod_small. pose proof (ji_next _ _ Hinv). cbn in *. lia. }
  wp_one. wp_one. wp_one. wp_one. wp_one. wp_one.
  set (w0 := (tick w) <| w_next_job_id ::= next_u32 |>).
  change (w_next_job_id w0) with (next_u32 (w_next_job_id (tick w))). rewrite Hnext.
  set (p := w_next_ptr w0). set (j := mkJob 1 node JOB_WAITING _ "" "" "" false 0 0).
  match goal with |- wp _ _ ?w1 => set (w1' := w1) end.
  assert (inv w1' ((p, false) :: held)) as Hinv1.
  { pose proof (job_inv_new (view w) held j Hinv eq_refl eq_refl Hnode) as H.
    change (jv_next_id (view w) + 1) with (w_next_job_id w + 1) in H.
    rewrite <- Hnext in H. exact H. }
  assert (w_jobs w1' !! p = Some j) as Hj1 by apply lookup_insert_eq.
  clearbody w1' p j. clear Hinv Hnode Hid Hnext.
  assert (forall f : Job -> Job, (forall j, job_id (f j) = job_id j) ->
    (forall j, job_ref_count (f j) = job_ref_count j) -> (forall j, job_node (f j) = job_node j) ->
    forall k w1 j1, inv w1 ((p, false) :: held) -> w_jobs w1 !! p = Some j1 ->
    (forall w2 j2, inv w2 ((p, false) :: held) -> w_jobs w2 !! p = Some j2 ->
      wp k (created held) w2) ->
    wp (ok ← local_ok; if negb ok then job_unref p ;; mret None else update p f ;; k)
       (created held) w1) as Hstep.
  { intros f H1 H2 H3 k w1 j1 Hi Hj Hk. wp_one. wp_one. destruct (negb (local_result _ <? 0)); cbn [negb].
    - wp_one. eapply (wp_job_update p j1); [by apply inv_tick|done..|]. intros w2 Hi2 Hj2. by eapply Hk.
    - by eapply (wp_abandon p j1). }
  eapply Hstep; [done..|]. clear Hinv1 Hj1. intros w2 j2 Hi2 Hj2.
  eapply Hstep; [done..|]. clear Hi2 Hj2. intros w3 j3 Hi3 Hj3.
  eapply Hstep; [done..|]. clear Hi3 Hj3. intros w4 j4 Hi4 Hj4.
  wp_one. eapply wp_job_update; [done..|]. intros w5 Hi5 _. by apply wp_ret.
Qed.
(** ** Announcement *)

Lemma ordered_not_removed sigs id : ordered sigs -> SigNew id ∉ sigs -> SigRemoved id ∉ sigs.
Proof.
  intros Ho Hnew (l1 & l2 & ->)%list_elem_of_split. apply Hnew.
  apply elem_of_app. left. by eapply Ho.
Qed.

Lemma unoffered_live w held p :
  inv w held -> (p, false) ∈ held ->
  exists j n, w_jobs w !! p = Some j /\ w_nodes w !! job_node j = Some n.
Proof.
  intros Hinv Hp. assert (is_Some (w_jobs w !! p)) as [j Hj].
  { apply (ji_live _ _ Hinv). left. apply list_elem_of_fmap. by exists (p, false). }
  destruct (ji_node _ _ Hinv p j Hj) as [n Hn]. eauto.
Qed.

Lemma wp_job_export p j n held Q w :
  inv w held -> w_jobs w !! p = Some j -> w_nodes w !! job_node j = Some n ->
  (forall b w' j', inv w' held -> w_jobs w' !! p = Some j' -> Q b w') ->
  wp (job_export p) Q w.
Proof.
  intros Hinv Hj Hn HQ. unfold job_export. wp_go.
  assert (inv (emit (ApiAddVtable (job_object_path j) JOB_INTERFACE) w) held) as Hinv1
    by by apply inv_emit.
  destruct (_ <? 0); wp_one; [by eapply HQ|].
  eapply wp_job_update; [done..|]. intros w' Hinv' Hj'. apply wp_ret. by eapply HQ.
Qed.

Lemma wp_controller_add_job p held w :
  inv w held -> (p, false) ∈ held ->
  wp (controller_add_job p) (fun _ w' => inv w' (offer p held)) w.
Proof.
  intros Hinv Hp. destruct (unoffered_live w held p Hinv Hp) as (j0 & n & Hj0 & Hn).
  unfold controller_add_job. wp_one. eapply wp_job_export; [done..|].
  clear Hinv Hj0 Hn n j0 w. intros b w j Hinv Hj. destruct b; cbn [negb].
  2:{ apply wp_ret. by apply job_inv_offer. }
  wp_one. wp_one. wp_one. wp_one.
  set (w1 := emit _ w).
  destruct (ji_unoffered _ _ Hinv p j Hp Hj) as [Hunl Hnew].
  pose proof (ordered_not_removed _ _ (ji_order _ _ Hinv) Hnew) as Hrem.
  assert (view w1 = add_sig (SigNew (job_id j)) (view w)) as Hview.
  { unfold view, add_sig. cbn. by rewrite job_signals_app. }
  assert (inv w1 (offer p held)) as Hinv1.
  { unfold inv. rewrite Hview. by apply job_inv_announce. }
  destruct (_ <? 0); [by apply wp_ret|].
  unfold job_ref. wp_one. wp_one. eapply wp_update; [exact Hj|].
  wp_one. wp_one. wp_one. apply wp_ret.
  apply (job_inv_list (view w1) (offer p held) p j); [exact Hinv1| | |done|done| |].
  - rewrite offer_fst. apply list_elem_of_fmap. by exists (p, false).
  - by intros [_ ?]%offer_unoffered.
  - rewrite Hview. apply elem_of_app. right. left.
  - rewrite Hview. intros [H|H%list_elem_of_singleton]%elem_of_app; done.
Qed.

(** ** State changes *)

Lemma listed_live w held p :
  inv w held -> p ∈ c_jobs (w_controller w) ->
  exists j n, w_jobs w !! p = Some j /\ w_nodes w !! job_node j = Some n.
Proof.
  intros Hinv Hp. assert (is_Some (w_jobs w !! p)) as [j Hj].
  { apply (ji_live _ _ Hinv). by right. }
  destruct (ji_node _ _ Hinv p j Hj) as [n Hn]. eauto.
Qed.

Definition has_id (w : World) (id : Z) (p : ptr) : bool :=
  match w_jobs w !! p with Some j => job_id j =? id | None => false end.

Lemma wp_controller_find_job id held Q w :
  inv w held ->
  (forall r, (forall p, r = Some p -> p ∈ c_jobs (w_controller w) /\
                exists j n, w_jobs w !! p = Some j /\ job_id j = id /\
                            w_nodes w !! job_node j = Some n) ->
     (r = None -> forall p j, p ∈ c_jobs (w_controller w) -> w_jobs w !! p = Some j ->
        job_id j <> id) -> Q r w) ->
  wp (controller_find_job id) Q w.
Proof.
  intros Hinv HQ. unfold controller_find_job. wp_one. wp_one.
  apply (wp_find_first _ _ (has_id w id)).
  - intros p Hp. destruct (listed_live w held p Hinv Hp) as (j & n & Hj & _).
    wp_one. wp_one. apply wp_ret. unfold has_id. by rewrite Hj.
  - apply HQ.
    + intros p [Hin Hid]%find_some. apply list_elem_of_In in Hin. split; [done|].
      destruct (listed_live w held p Hinv Hin) as (j & n & Hj & Hn). exists j, n.
      unfold has_id in Hid. rewrite Hj in Hid. split_and!; [done|lia|done].
    + intros Hnone p j Hp%list_elem_of_In Hj Hid.
      pose proof (find_none _ _ Hnone p Hp) as Hf. unfold has_id in Hf. rewrite Hj in Hf. lia.
Qed.

Lemma wp_controller_job_state_changed id state held w :
  inv w held ->
  wp (controller_job_state_changed id state) (fun _ w' => inv w' held) w.
Proof.
  intros Hinv. unfold controller_job_state_changed. wp_one.
  eapply wp_controller_find_job; [done|]. intros [p|] Hf _; [|by apply wp_ret].
  destruct (Hf p eq_refl) as (Hp & j & n & Hj & _ & Hn). unfold job_set_state.
  wp_one. wp_one. wp_one. wp_one. wp_one.
  eapply wp_job_update; [done..|]. intros w1 Hinv1 Hj1. wp_go. by apply inv_emit.
Qed.
(** ** The end of a job *)

(** Nothing that jobs depend on has changed. *)
Definition job_frame w w' : Prop :=
  w_jobs w' = w_jobs w /\ w_controller w' = w_controller w /\ w_nodes w' = w_nodes w /\
  view w' = view w.

Lemma job_frame_trans w1 w2 w3 : job_frame w1 w2 -> job_frame w2 w3 -> job_frame w1 w3.
Proof. intros (?&?&?&?) (?&?&?&?). split_and!; congruence. Qed.

Lemma job_frame_emit c w : signal_of c = None -> job_frame w (emit c w).
Proof.
  intros Hc. split_and!; [done..|]. unfold view. cbn.
  rewrite job_signals_app. cbn [job_signals omap list_omap]. rewrite Hc. by rewrite app_nil_r.
Qed.
Lemma job_frame_tick w : job_frame w (tick w).
Proof. done. Qed.

Lemma wp_get_property node n unit property w :
  w_nodes w !! node = Some n ->
  wp (node_method_get_unit_uint64_property_sync node unit property) (fun _ => job_frame w) w.
Proof.
  intros Hn. unfold node_method_get_unit_uint64_property_sync. wp_one. wp_one.
  destruct (node_agent_bus n) as [b|]; [|by apply wp_ret].
  wp_one. wp_one. wp_one. wp_one.
  match goal with |- wp _ _ ?w1 => assert (job_frame w w1) as H1 by by apply job_frame_emit end.
  destruct (_ <? 0); [by apply wp_ret|].
  do 3 (wp_one; wp_one; destruct (_ <? 0); [by apply wp_ret|]). done.
Qed.

Lemma wp_metrics_produce_job_report p j n w :
  w_jobs w !! p = Some j -> w_nodes w !! job_node j = Some n ->
  wp (metrics_produce_job_report p) (fun _ => job_frame w) w.
Proof.
  intros Hj Hn. unfold metrics_produce_job_report. wp_one. wp_one. wp_one.
  eapply wp_mono; [by eapply wp_get_property|]. cbn beta. intros a w1 H1.
  destruct (_ <? 0); [by apply wp_ret|]. wp_one.
  assert (w_nodes w1 !! job_node j = Some n) as Hn1 by (destruct H1 as (_ & _ & -> & _); done).
  eapply wp_mono; [by eapply wp_get_property|]. cbn beta. intros b w2 H2.
  destruct (_ <? 0); [apply wp_ret; by eapply job_frame_trans|].
  assert (w_nodes w2 !! job_node j = Some n) as Hn2 by (destruct H2 as (_ & _ & -> & _); done).
  wp_go. eapply job_frame_trans; [exact H1|]. eapply job_frame_trans; [exact H2|].
  by apply job_frame_emit.
Qed.

Lemma wp_controller_remove_job p j result held w :
  inv w held -> p ∈ c_jobs (w_controller w) -> w_jobs w !! p = Some j ->
  wp (controller_remove_job p result) (fun _ w' => inv w' held) w.
Proof.
  intros Hinv Hp Hj. destruct (ji_node _ _ Hinv p j Hj) as [n Hn].
  destruct (ji_listed _ _ Hinv p j Hp Hj) as [Hnew Hrem].
  unfold controller_remove_job. wp_one. wp_one. wp_one. wp_one. wp_one. wp_one.
  set (w1 := emit _ w). wp_one. wp_one. wp_one. apply wp_list_remove_from; [done|].
  wp_one. wp_one. set (w2 := w1 <| w_controller ::= _ |>). wp_one.
  eapply (wp_mono _ (fun _ => job_frame w2)).
  { destruct (_ && _); [|by apply wp_ret]. by apply (wp_metrics_produce_job_report p j n). }
  cbn beta. intros _ w3 (Hjobs & _ & _ & Hview).
  assert (w_jobs w3 !! p = Some j) as Hj3 by by rewrite Hjobs.
  eapply wp_job_unref; [exact Hj3|].
  change (inv _ held) with (job_inv (set_jobs (unref_jobs p) (view w3)) held). rewrite Hview.
  replace (set_jobs (unref_jobs p) (view w2)) with
    (add_sig (SigRemoved (job_id j)) (set_list (remove_first p (jv_list (view w)))
       (set_jobs (unref_jobs p) (view w)))).
  2:{ unfold view, add_sig, set_list, set_jobs. cbn. by rewrite job_signals_app. }
  apply job_inv_removed; [by apply job_inv_unlist|done|done|]. cbn.
  intros q k Hq Hk Hid. assert (q <> p) as Hne.
  { intros ->. by apply (remove_first_gone p (c_jobs (w_controller w)) (ji_list _ _ Hinv)). }
  apply Hne. apply (ji_ids _ _ Hinv q p k j); [|done..].
  unfold unref_jobs in Hk. cbn in Hk. rewrite Hj in Hk.
  destruct (job_ref_count j =? 1); [by rewrite lookup_delete_ne in Hk|by rewrite lookup_insert_ne in Hk].
Qed.

(** The clock can be read. *)
Definition clock_ok : Prop := forall k, is_Some (clock_realtime k).

Lemma wp_controller_finish_job (Hclock : clock_ok) id result held w :
  inv w held -> wp (controller_finish_job id result) (fun _ w' => inv w' held) w.
Proof.
  intros Hinv. unfold controller_finish_job. wp_one.
  eapply wp_controller_find_job; [done|]. intros [p|] Hf _; [|by apply wp_ret].
  destruct (Hf p eq_refl) as (Hp & j & n & Hj & _ & _). wp_one. wp_one. wp_one.
  destruct (c_metrics_enabled (w_controller w)).
  - wp_one. unfold get_time_micros. destruct (Hclock (w_clocks w)) as [ts Hts].
    unfold wp at 1. rewrite Hts.
    eapply wp_update; [exact Hj|].
    match goal with |- wp _ _ ?w1 => set (w1' := w1) end.
    eapply (wp_controller_remove_job p _ result held w1'); [|exact Hp|apply lookup_insert_eq].
    by eapply (job_inv_update (view w) held p j).
  - apply wp_ret. by eapply wp_controller_remove_job.
Qed.

(** A disconnected node's jobs are forgotten without a signal. *)
Lemma wp_node_drop_job name p held w :
  inv w held -> p ∈ c_jobs (w_controller w) ->
  (forall j n, w_jobs w !! p = Some j -> w_nodes w !! job_node j = Some n -> node_name n <> None) ->
  wp (node_drop_job name p) (fun _ w' => inv w' held) w.
Proof.
  intros Hinv Hp Hname. destruct (listed_live w held p Hinv Hp) as (j & n & Hj & Hn).
  specialize (Hname j n Hj Hn). unfold node_drop_job. wp_one. wp_one. wp_one.
  eapply wp_load; [exact Hn|]. destruct (node_name n) as [s|]; [|done].
  destruct (_ =? 0); [|by apply wp_ret].
  wp_one. wp_one. wp_one. apply wp_list_remove_from; [done|]. wp_one. wp_one.
  eapply wp_job_unref; [exact Hj|]. by apply (job_inv_unlist (view w)).
Qed.
End operations.

(** ** Every sequence of operations *)

(** One operation on jobs, or anything else the controller does ([step_other]),
    which leaves the jobs alone. Fewer than 2^32 - 1 jobs have been created when
    a job is created, so that identifiers have not wrapped around. *)
Inductive job_step {E : Env} : World * holders -> World * holders -> Prop :=
| step_new node unit type r w w' held :
    is_Some (w_nodes w !! node) -> w_next_job_id w < 2 ^ 32 - 1 ->
    job_new node unit type w = Ret r w' ->
    job_step (w, held) (w', match r with Some p => (p, false) :: held | None => held end)
| step_add p b w w' held :
    (p, false) ∈ held -> controller_add_job p w = Ret b w' ->
    job_step (w, held) (w', offer p held)
| step_release p w w' held :
    p ∈ held.*1 -> job_unref p w = Ret tt w' -> job_step (w, held) (w', drop_holder p held)
| step_state m r w w' held :
    node_match_job_state_changed m w = Ret r w' -> job_step (w, held) (w', held)
| step_done m r w w' held :
    node_match_job_done m w = Ret r w' -> job_step (w, held) (w', held)
| step_drop name p w w' held :
    p ∈ c_jobs (w_controller w) ->
    (forall j n, w_jobs w !! p = Some j -> w_nodes w !! job_node j = Some n -> node_name n <> None) ->
    node_drop_job name p w = Ret tt w' -> job_step (w, held) (w', held)
| step_shutdown p result w w' held :
    p ∈ c_jobs (w_controller w) -> controller_remove_job p result w = Ret tt w' ->
    job_step (w, held) (w', held)
| step_other w w' held :
    w_jobs w' = w_jobs w -> c_jobs (w_controller w') = c_jobs (w_controller w) ->
    w_next_job_id w' = w_next_job_id w -> (w_next_ptr w <= w_next_ptr w')%positive ->
    (forall q, is_Some (w_nodes w !! q) -> is_Some (w_nodes w' !! q)) ->
    job_signals (w_trace w') = job_signals (w_trace w) ->
    job_step (w, held) (w', held).

Definition job_init (w : World) : Prop :=
  w_jobs w = ∅ /\ c_jobs (w_controller w) = [] /\ w_next_job_id w = 0 /\
  job_signals (w_trace w) = [].

Definition job_reachable {E : Env} (w : World) (held : holders) : Prop :=
  exists w0, job_init w0 /\ rtc job_step (w0, []) (w, held).

Lemma wp_elim {A} (m : CM A) Q w a w' : wp m Q w -> m w = Ret a w' -> Q a w'.
Proof. unfold wp. intros H Hr. by rewrite Hr in H. Qed.

Lemma inv_init w : job_init w -> inv w [].
Proof.
  intros (Hj & Hl & Hi & Hs). unfold inv, view. rewrite Hj, Hl, Hi, Hs.
  split; cbn; try apply NoDup_nil_2; try (intros p j H; by rewrite lookup_empty in H).
  - intros p. rewrite lookup_empty. split; [by intros [? ?]|by intros [?%elem_of_nil|?%elem_of_nil]].
  - intros p [x Hx]. by rewrite lookup_empty in Hx.
  - intros p q j k H. by rewrite lookup_empty in H.
  - by intros p j ?%elem_of_nil.
  - by intros p j ?%elem_of_nil.
  - by intros s ?%elem_of_nil.
  - by intros [|? ?] l2 id.
  - done.
Qed.

Lemma wp_finish_inv {E : Env} id result held w w' a :
  inv w held -> controller_finish_job id result w = Ret a w' -> inv w' held.
Proof.
  intros Hinv. unfold controller_finish_job.
  pose proof (wp_controller_find_job id held (fun r w1 => w1 = w /\ forall p, r = Some p ->
    p ∈ c_jobs (w_controller w) /\ exists j, w_jobs w !! p = Some j) w Hinv) as Hfind.
  specialize (Hfind (fun r Hr _ => conj eq_refl (fun p Hp => match Hr p Hp with
    | conj H1 (ex_intro _ j (ex_intro _ n (conj H2 _))) => conj H1 (ex_intro _ j H2) end))).
  unfold wp in Hfind. unfold mbind at 1, M_bind at 1.
  destruct (controller_find_job id w) as [r w1|]; [|done]. destruct Hfind as [-> Hr].
  destruct r as [p|]; [|by intros [= <- <-]]. destruct (Hr p eq_refl) as (Hp & j & Hj).
  unfold mbind at 1, M_bind at 1. cbn [controller gets].
  unfold mbind at 1, M_bind at 1. destruct (c_metrics_enabled (w_controller w)); cbn.
  - unfold mbind at 1, M_bind at 1, get_time_micros.
    destruct (clock_realtime (w_clocks w)) as [ts|]; [|done].
    unfold update, load, mbind, M_bind, deref. cbn. rewrite Hj. cbn.
    match goal with |- _ ?w1 = _ -> _ => set (w1' := w1) end.
    apply (wp_elim _ (fun _ w' => inv w' held)).
    eapply (wp_controller_remove_job p _ result held w1'); [|exact Hp|apply lookup_insert_eq].
    by eapply (job_inv_update (view w) held p j).
  - apply (wp_elim _ (fun _ w' => inv w' held)). by eapply wp_controller_remove_job.
Qed.

Lemma inv_other w w' held :
  w_jobs w' = w_jobs w -> c_jobs (w_controller w') = c_jobs (w_controller w) ->
  w_next_job_id w' = w_next_job_id w -> (w_next_ptr w <= w_next_ptr w')%positive ->
  (forall q, is_Some (w_nodes w !! q) -> is_Some (w_nodes w' !! q)) ->
  job_signals (w_trace w') = job_signals (w_trace w) -> inv w held -> inv w' held.
Proof.
  intros Hj Hl Hi Hp Hn Hs []. cbn in *. unfold inv, view. rewrite Hj, Hl, Hi, Hs.
  split; cbn; try assumption.
  - intros p Hlive%ji_ptr0. lia.
  - intros p j Hpj%ji_node0. by apply Hn.
Qed.

Lemma inv_step {E : Env} w held w' held' :
  job_step (w, held) (w', held') -> inv w held -> inv w' held'.
Proof.
  intros Hstep Hinv. inversion Hstep as [? ? ? r ? ? ? Hn Hid Hrun|? ? ? ? ? Hp Hrun|? ? ? ? Hp Hrun
    |[r|[id s]] ? ? ? ? Hrun|[r|[id s]] ? ? ? ? Hrun|? ? ? ? ? Hp Hname Hrun|? ? ? ? ? Hp Hrun
    |? ? ? H1 H2 H3 H4 H5 H6]; subst.
  - pose proof (wp_elim _ _ _ _ _ (wp_job_new _ _ _ _ _ Hinv Hn Hid) Hrun) as H. by destruct r.
  - by apply (wp_elim _ _ _ _ _ (wp_controller_add_job _ _ _ Hinv Hp) Hrun).
  - assert (is_Some (w_jobs w !! p)) as [j Hj] by (apply (ji_live _ _ Hinv); by left).
    apply (wp_elim _ (fun _ w' => inv w' (drop_holder p held)) _ _ _
      (wp_job_unref p j _ _ Hj (job_inv_release (view w) held p Hinv Hp)) Hrun).
  - by injection Hrun as <- <-.
  - revert Hrun. unfold node_match_job_state_changed.
    apply (wp_elim _ (fun _ w' => inv w' held')). wp_one.
    eapply wp_mono; [by apply (wp_controller_job_state_changed id s held')|]. cbn. by intros.
  - by injection Hrun as <- <-.
  - cbn in Hrun. unfold mbind, M_bind in Hrun.
    destruct (controller_finish_job id s w) as [a w1|] eqn:Hf; [|done].
    injection Hrun as <- <-. by eapply wp_finish_inv.
  - by apply (wp_elim _ _ _ _ _ (wp_node_drop_job _ _ _ _ Hinv Hp Hname) Hrun).
  - destruct (listed_live w held' p Hinv Hp) as (j & n & Hj & _).
    by apply (wp_elim _ _ _ _ _ (wp_controller_remove_job _ j _ _ _ Hinv Hp Hj) Hrun).
  - by apply (inv_other w w' held').
Qed.

Lemma inv_reachable {E : Env} w held : job_reachable w held -> inv w held.
Proof.
  intros (w0 & Hinit & Hsteps).
  assert (forall x y, rtc job_step x y -> inv x.1 x.2 -> inv y.1 y.2) as Hrtc.
  { intros x y. induction 1 as [|[w1 h1] [w2 h2] z Hstep _ IH]; [done|].
    intros Hinv. apply IH. by eapply inv_step. }
  apply (Hrtc _ _ Hsteps). by apply inv_init.
Qed.

(** C2. In every state reached by any sequence of job operations, interleaved with
    anything that leaves the jobs alone and whatever fails on the way, as long as
    the 32-bit counter of identifiers has not wrapped around (fewer than 2^32 - 1
    jobs were created, the condition of [step_new]): [JobNew] was sent at most once
    for an identifier and [JobRemoved] at most once, after its [JobNew]; the
    controller lists no job twice, live jobs have different identifiers, and each
    listed job is live, was announced and its end was not reported. The converse is
    not claimed: a job dropped with its node ([node_drop_job]) was announced, its
    end is never reported, and it is not listed any more. *)
Theorem job_signals_once {E : Env} (w : World) (held : holders) (Hr : job_reachable w held) :
  NoDup (job_signals (w_trace w)) /\ ordered (job_signals (w_trace w)) /\
  NoDup (c_jobs (w_controller w)) /\
  (forall p, p ∈ c_jobs (w_controller w) -> exists j, w_jobs w !! p = Some j /\
     SigNew (job_id j) ∈ job_signals (w_trace w) /\
     SigRemoved (job_id j) ∉ job_signals (w_trace w)) /\
  (forall p q j k, w_jobs w !! p = Some j -> w_jobs w !! q = Some k ->
     job_id j = job_id k -> p = q).
Proof.
  apply inv_reachable in Hr as []. cbn in *. split_and!; [done..| |done].
  intros p Hp. assert (is_Some (w_jobs w !! p)) as [j Hj] by (apply ji_live0; by right).
  exists j. split; [done|]. by apply (ji_listed0 p).
Qed.

(** C30. In every such state no operation on jobs uses a job or node that was freed
    or trips an assertion, and a job's memory is released exactly when neither
    the request that created it nor the controller's list refers to it. *)
Theorem job_operations_safe {E : Env} (w : World) (held : holders) (Hr : job_reachable w held) :
  (forall p, is_Some (w_jobs w !! p) <-> p ∈ held.*1 \/ p ∈ c_jobs (w_controller w)) /\
  (forall p j, w_jobs w !! p = Some j ->
     job_ref_count j = refs held (c_jobs (w_controller w)) p) /\
  (forall p, (p, false) ∈ held -> wp (controller_add_job p) (fun _ _ => True) w) /\
  (forall p, p ∈ held.*1 -> wp (job_unref p) (fun _ _ => True) w) /\
  (forall m, wp (node_match_job_state_changed m) (fun _ _ => True) w) /\
  (forall m, clock_ok -> wp (node_match_job_done m) (fun _ _ => True) w) /\
  (forall p result, p ∈ c_jobs (w_controller w) ->
     wp (controller_remove_job p result) (fun _ _ => True) w).
Proof.
  apply inv_reachable in Hr as Hinv. split_and!; [apply Hinv|apply Hinv|..].
  - intros p Hp. eapply wp_mono; [by apply (wp_controller_add_job p held)|done].
  - intros p Hp. assert (is_Some (w_jobs w !! p)) as [j Hj] by (apply (ji_live _ _ Hinv); by left).
    by apply (wp_job_unref p j).
  - intros [r|[id s]]; [done|]. cbn. wp_one.
    eapply wp_mono; [by apply (wp_controller_job_state_changed id s held)|done].
  - intros [r|[id s]] Hclock; [done|]. cbn. wp_one.
    eapply wp_mono; [by apply (wp_controller_finish_job Hclock id s held)|done].
  - intros p result Hp. destruct (listed_live w held p Hinv Hp) as (j & n & Hj & _).
    eapply wp_mono; [by apply (wp_controller_remove_job p j result held)|done].
Qed.

(** A run from a controller without jobs: a job is created, announced and done. *)
Definition sample_jobless : World :=
  sample_world <| w_jobs := ∅ |> <| w_next_job_id := 0 |>
               <| w_controller ::= fun c => c <| c_jobs := [] |> |>.
Definition after {A} (m : CM A) (w : World) : World :=
  match m w with Ret _ w' => w' | Crash _ => w end.
Definition result {A} (m : CM A) (w : World) : option A :=
  match m w with Ret a _ => Some a | Crash _ => None end.
Lemma after_result {A} (m : CM A) w a : result m w = Some a -> m w = Ret a (after m w).
Proof. unfold result, after. by destruct (m w) as [a' w'|]; intros [= ->]. Qed.

Definition sample_job_created : World := after (job_new 1 "a.service" "start") sample_jobless.
Definition sample_job_run : World := after (controller_add_job 50) sample_job_created.

Lemma sample_job_reachable : job_reachable sample_job_run [(50%positive, true)].
Proof.
  exists sample_jobless. split; [by repeat split|]. eapply rtc_l; [|apply rtc_once].
  - apply (step_new 1 "a.service" "start" (Some 50%positive) _ sample_job_created []).
    + by exists sample_node1.
    + reflexivity.
    + unfold sample_job_created.
      apply (after_result (job_new 1 "a.service" "start") sample_jobless). vm_compute. reflexivity.
  - apply (step_add 50 true _ _ [(50%positive, false)]); [left|].
    unfold sample_job_run.
    apply (after_result (controller_add_job 50) sample_job_created). vm_compute. reflexivity.
Qed.

Lemma job_signals_once_witness :
  NoDup (job_signals (w_trace sample_job_run)) /\ ordered (job_signals (w_trace sample_job_run)) /\
  NoDup (c_jobs (w_controller sample_job_run)) /\
  (forall p, p ∈ c_jobs (w_controller sample_job_run) ->
     exists j, w_jobs sample_job_run !! p = Some j /\
     SigNew (job_id j) ∈ job_signals (w_trace sample_job_run) /\
     SigRemoved (job_id j) ∉ job_signals (w_trace sample_job_run)) /\
  (forall p q j k, w_jobs sample_job_run !! p = Some j -> w_jobs sample_job_run !! q = Some k ->
     job_id j = job_id k -> p = q).
Proof. exact (job_signals_once sample_job_run _ sample_job_reachable). Defined.

Lemma job_operations_safe_witness :
  c_jobs (w_controller sample_job_run) = [50%positive] /\
  wp (node_match_job_done (ReadOk (1, "done"%string))) (fun _ _ => True) sample_job_run.
Proof.
  split; [reflexivity|].
  apply (job_operations_safe sample_job_run _ sample_job_reachable).
  intros k. by eexists.
Defined.
