(* ===== verification/NodeTheorems.v ===== *)
(** Nodes: the system status and its signal, liveness, the attachment of an
    agent, and registrations, refused and accepted. *)
From S2P Require Import Prelude CString StringUtil ParseUtil TimeUtil Protocol Log World Job Events.
From S2P Require Import Subscriptions Monitor Proxy Requests Node Cfg Socket Controller.
From S2P Require Import WorldFacts EventFacts RegistryFacts.
From S2P Require Import Sample.
Local Open Scope list_scope.

Ltac wp_reply := unfold reply_method_errorf, reply_method_return; apply wp_bus.

(** ** System status *)

(** The controller after the number of online nodes changed. *)
Definition online_by (f : Z -> Z) (c : Controller) : Controller := c <| c_number_of_nodes_online ::= f |>.

Definition status_calls (changed : bool) : list call :=
  if changed then [ApiPropertiesChanged BC_CONTROLLER_OBJECT_PATH CONTROLLER_INTERFACE "Status"] else [].
Definition status_changed (f : Z -> Z) (c : Controller) : bool :=
  negb (streq (controller_get_system_status (online_by f c)) (controller_get_system_status c)).

(** The test the code makes decides whether the status changes. *)
Lemma status_check_changed f c :
  f = Z.succ \/ f = Z.pred -> 0 <= c_number_of_nodes_online c <= c_number_of_nodes c ->
  0 <= f (c_number_of_nodes_online c) <= c_number_of_nodes c ->
  status_check (c_number_of_nodes_online c) (online_by f c) = status_changed f c.
Proof.
  intros Hf Hrange Hrange'. unfold status_changed, status_check, controller_get_system_status, online_by. cbn.
  set (k := c_number_of_nodes_online c) in *. set (n := c_number_of_nodes c) in *.
  replace (k + (f k - k)) with (f k) by lia.
  destruct (f k =? 0) eqn:E1, (f k =? n) eqn:E2, (k =? 0) eqn:E3, (k =? n) eqn:E4;
    cbn; try reflexivity; exfalso; rewrite ?Z.eqb_eq, ?Z.eqb_neq in *; destruct Hf as [-> | ->]; lia.
Qed.

Lemma wp_count_online {E : Env} f Q w :
  Q tt (w <| w_controller ::= online_by f |>
          <| w_trace ::= fun t => t ++ status_calls (status_check
               (c_number_of_nodes_online (w_controller w)) (online_by f (w_controller w))) |>) ->
  wp (count_online f) Q w.
Proof.
  intros HQ. unfold count_online, controller_check_system_status. do 6 wp_one.
  change (w_controller (w <| w_controller ::= _ |>)) with (online_by f (w_controller w)).
  destruct (status_check _ _); [do 3 wp_one; exact HQ|wp_one].
  revert HQ. destruct w; cbn. rewrite app_nil_r. exact id.
Qed.

(** One node going online or offline, with between 0 and all of the (at least
    one) nodes online before and after: the Status property is announced exactly
    when its value changes. *)
Theorem system_status_signalled {E : Env} (w : World) (f : Z -> Z)
  (Hf : f = Z.succ \/ f = Z.pred)
  (Hrange : 0 <= c_number_of_nodes_online (w_controller w) <= c_number_of_nodes (w_controller w))
  (Hrange' : 0 <= f (c_number_of_nodes_online (w_controller w)) <= c_number_of_nodes (w_controller w)) :
  let c := w_controller w in
  wp (count_online f)
     (fun _ w' => w_controller w' = online_by f c /\ w_nodes w' = w_nodes w /\
        w_trace w' = w_trace w ++
          (if streq (controller_get_system_status (online_by f c)) (controller_get_system_status c) then []
           else [ApiPropertiesChanged BC_CONTROLLER_OBJECT_PATH CONTROLLER_INTERFACE "Status"])) w.
Proof.
  intros c. apply wp_count_online. split_and!; [done|done|].
  cbn. fold c. rewrite status_check_changed by done. unfold status_calls, status_changed. by destruct (streq _ _).
Qed.

Lemma system_status_signalled_witness :
  wp (count_online Z.succ)
     (fun _ w' => w_controller w' = online_by Z.succ (w_controller sample_world) /\
        w_nodes w' = w_nodes sample_world /\
        w_trace w' = [] ++
          (if streq "up" "degraded" then []
           else [ApiPropertiesChanged BC_CONTROLLER_OBJECT_PATH CONTROLLER_INTERFACE "Status"])) sample_world.
Proof. apply (system_status_signalled sample_world Z.succ); cbn; [by left|lia|lia]. Defined.

(** ** Liveness *)

(** When the clocks and the threshold are in range (the threshold below 2^64
    microseconds), a node is found dead exactly when checking is enabled, the
    clock reads and more than the threshold has passed since its last sign of
    life; a clock that runs backwards never kills a node. *)
Theorem liveness_expired_correct (c : Controller) (n : Node) (now : Z)
  (Hnow : 0 <= now < 2 ^ 64) (Hseen : 0 <= node_last_seen_monotonic n < 2 ^ 64)
  (Hthreshold : c_heartbeat_threshold_msec c * 1000 < 2 ^ 64) :
  liveness_expired c n now = true <->
  0 < c_heartbeat_threshold_msec c /\ now <> 0 /\
  node_last_seen_monotonic n + c_heartbeat_threshold_msec c * 1000 < now.
Proof.
  unfold liveness_expired, USEC_PER_MSEC.
  destruct (c_heartbeat_threshold_msec c <=? 0) eqn:E1; [split; [done|lia]|].
  rewrite (u64_small (c_heartbeat_threshold_msec c)) by (unfold UINT64_MAX; lia).
  rewrite (u64_small (c_heartbeat_threshold_msec c * 1000)) by (unfold UINT64_MAX; lia).
  destruct (now =? 0) eqn:E2; [split; [done|lia]|].
  destruct (now <? node_last_seen_monotonic n) eqn:E3; [split; [done|lia]|].
  rewrite u64_small by (unfold UINT64_MAX; lia). lia.
Qed.

Lemma liveness_expired_correct_witness :
  liveness_expired sample_controller sample_node1 6000001 = true <->
  0 < 6000 /\ 6000001 <> 0 /\ 0 + 6000 * 1000 < 6000001.
Proof. apply (liveness_expired_correct sample_controller sample_node1 6000001); cbn; lia. Defined.

(** ** Refused registrations *)

(** Why the registration of the connection [n] under [name] is refused. *)
Definition register_error (w : World) (n : Node) (name : string) : option string :=
  if bool_decide (node_name n <> None) then Some SD_BUS_ERROR_ADDRESS_IN_USE else
  match List.find (named w name) (c_nodes (w_controller w)) with
  | None => Some SD_BUS_ERROR_SERVICE_UNKNOWN
  | Some p =>
      match w_nodes w !! p with
      | None => None
      | Some nn =>
          if selinux_refused n nn then Some SD_BUS_ERROR_ACCESS_DENIED
          else if node_has_agent nn then Some SD_BUS_ERROR_ADDRESS_IN_USE else None
      end
  end.

(** A connection that has registered already, gives a name that is not
    configured, has the wrong SELinux context, or names a node that is connected
    gets exactly the corresponding error, and nothing else happens. *)
Theorem registration_refused {E : Env} (w : World) (m p : ptr) (n : Node) (name err : string)
  (Hok : registry_ok w) (Hn : w_nodes w !! p = Some n) (Herr : register_error w n name = Some err) :
  wp (node_method_register m (ReadOk name) p)
     (fun _ w' => quiet w w' /\ w_trace w' = w_trace w ++ [ReplyError m err]) w.
Proof.
  unfold register_error in Herr. unfold node_method_register. wp_one. wp_one.
  destruct (bool_decide (node_name n <> None)); [injection Herr as <-; by wp_reply|].
  wp_one. apply wp_controller_find_node; [apply Hok|]. intros r Hfind Hr. rewrite <- Hfind in Herr.
  destruct r as [q|]; [|injection Herr as <-; by wp_reply].
  destruct Hr as (nn & [_ Hnn] & _). rewrite Hnn in Herr. wp_one. wp_one.
  destruct (selinux_refused n nn); [injection Herr as <-; by wp_reply|].
  destruct (node_has_agent nn); [injection Herr as <-; by wp_reply|done].
Qed.

Lemma registration_refused_witness :
  wp (node_method_register 9 (ReadOk "n2"%string) 3)
     (fun _ w' => quiet sample_world w' /\
        w_trace w' = [] ++ [ReplyError 9 SD_BUS_ERROR_ACCESS_DENIED]) sample_world.
Proof.
  exact (registration_refused sample_world 9 3 sample_node3 "n2" _ sample_registry_ok
           eq_refl eq_refl).
Defined.

(** ** Attaching an agent *)

(** Every call to sd-bus succeeds. *)
Definition no_bus_failure (E : Env) : Prop := forall k c, 0 <= bus_result k c.

Definition set_node (p : ptr) (n : Node) (w : World) : World := w <| w_nodes ::= <[p := n]> |>.

Lemma set_node_twice p n n' w : set_node p n (set_node p n' w) = set_node p n w.
Proof. unfold set_node. destruct w; cbn. f_equal. apply insert_insert_eq. Qed.

Lemma quiet_set_node p n w w' : quiet w w' -> quiet (set_node p n w) (set_node p n w').
Proof. apply quiet_with_nodes. Qed.

Section attach.
Context {E : Env}.

Lemma wp_update_node p n f Q w :
  w_nodes w !! p = Some n -> Q tt (set_node p (f n) w) -> wp (update (T := Node) p f) Q w.
Proof. intros Hn HQ. by eapply wp_update. Qed.

(** The node with the agent's connection. *)
Definition peer_ip_of (b : ptr) (old : option string) : option string :=
  let '(r, ip) := peer_ip_address b in if (r <? 0) && negb (r =? - EINVAL) then old else ip.
Definition peer_context_of (b : ptr) (old : option string) : option string :=
  if use_selinux then
    match peer_context b with Some c => parse_selinux_type c | None => old end
  else old.
Definition connected (n : Node) (b : ptr) : Node :=
  n <| node_agent_bus := Some b |>
    <| node_peer_ip ::= peer_ip_of b |>
    <| node_peer_selinux_context ::= peer_context_of b |>.

Definition agent_signals : list string :=
  ["JobDone"; "JobStateChanged"; "UnitPropertiesChanged"; "UnitNew"; "UnitStateChanged";
   "UnitRemoved"; "ProxyNew"; "ProxyRemoved"]%string.
Definition attach_calls (n : Node) (b : ptr) (units : list string) : list call :=
  map (AgentMatchSignal b) agent_signals ++
  [ApiPropertiesChanged (default "" (node_object_path n)) NODE_INTERFACE "Status";
   AgentMatchSignal b "Heartbeat"; AgentMatchSignal b "Disconnected"] ++
  map (fun unit => AgentSend b "Subscribe" (Some unit)) units ++
  map (fun dep => AgentSend b "StartDep" (Some (dep_unit_name dep))) (node_proxy_dependencies n).

Lemma wp_match_signals (Hbus : no_bus_failure E) b members : forall w,
  wp (match_signals b members)
     (fun ok w' => ok = true /\ calls (map (AgentMatchSignal b) members) w w') w.
Proof.
  induction members as [|member members IH]; intros w; cbn [match_signals map].
  - apply wp_ret. split; [done|]. apply calls_nil.
  - wp_one. wp_one. rewrite (proj2 (Z.ltb_ge _ _)) by apply Hbus.
    eapply wp_mono; [apply IH|]. cbn beta. intros ok w' [-> Hc]. split; [done|].
    apply (calls_trans [_] _ w _ w' (calls_emit _ w) Hc).
Qed.

Lemma wp_node_match_agent_signals (Hbus : no_bus_failure E) p n b w :
  w_nodes w !! p = Some n ->
  wp (node_match_agent_signals p b)
     (fun ok w' => ok = true /\ calls (map (AgentMatchSignal b) agent_signals ++
        [ApiPropertiesChanged (default "" (node_object_path n)) NODE_INTERFACE "Status";
         AgentMatchSignal b "Heartbeat"]) w w') w.
Proof.
  intros Hn. unfold node_match_agent_signals. wp_one.
  eapply wp_mono; [by apply wp_match_signals|]. cbn beta. intros ok w1 [-> Hc]. cbn [negb].
  wp_one. eapply wp_load; [cbn; rewrite (quiet_nodes _ _ (proj1 Hc)); exact Hn|].
  wp_one. wp_one. eapply wp_mono; [by apply wp_match_signals|]. cbn beta.
  intros ok w2 [-> Hc2]. split; [done|]. eapply calls_trans; [exact Hc|].
  apply (calls_trans [_] [_] w1 _ w2 (calls_emit _ w1) Hc2).
Qed.

Lemma concat_map_singleton {A} (f : A -> call) (l : list A) :
  List.concat (map (fun a => [f a]) l) = map f l.
Proof. induction l as [|a l IH]; cbn; [done|]. by rewrite IH. Qed.

Lemma wp_subscribe_all_units p n b w :
  w_nodes w !! p = Some n -> node_agent_bus n = Some b ->
  (forall u us, node_unit_subscriptions n !! u = Some us -> us_unit us = u) ->
  (forall u, u ∈ hashmap_order (node_unit_subscriptions n) ->
     is_Some (node_unit_subscriptions n !! u)) ->
  wp (node_send_agent_subscribe_all p)
     (fun _ => calls (map (fun unit => AgentSend b "Subscribe" (Some unit))
                        (hashmap_order (node_unit_subscriptions n))) w) w.
Proof.
  intros Hn Hb Hunit Hkeys. unfold node_send_agent_subscribe_all. wp_one. wp_one.
  rewrite <- concat_map_singleton.
  apply (wp_foreach_calls _ _ _ (fun w => w_nodes w !! p = Some n)); [done| |].
  - intros w1 w2 Hq. by rewrite (quiet_nodes _ _ Hq).
  - intros u w1 Hu Hn1. wp_one. wp_one. destruct (Hkeys u Hu) as [us Hus]. rewrite Hus.
    rewrite (Hunit u us Hus). eapply wp_mono; [by apply wp_if_agent|]. cbn beta. intros _ w2.
    unfold agent_message. by rewrite Hb.
Qed.

Lemma wp_start_all_dependencies p n b w :
  w_nodes w !! p = Some n -> node_agent_bus n = Some b ->
  wp (node_start_proxy_dependency_all p)
     (fun _ => calls (map (fun dep => AgentSend b "StartDep" (Some (dep_unit_name dep)))
                        (node_proxy_dependencies n)) w) w.
Proof.
  intros Hn Hb. unfold node_start_proxy_dependency_all. wp_one. wp_one.
  rewrite <- concat_map_singleton.
  apply (wp_foreach_calls _ _ _ (fun w => w_nodes w !! p = Some n)); [done| |].
  - intros w1 w2 Hq. by rewrite (quiet_nodes _ _ Hq).
  - intros dep w1 _ Hn1. eapply wp_mono; [by apply wp_if_agent|]. cbn beta. intros _ w2.
    unfold agent_message. by rewrite Hb.
Qed.

(** The first part of [node_set_agent_bus]. *)
Lemma wp_connect {A} p n b (k : CM A) Q w :
  w_nodes w !! p = Some n -> node_agent_bus n = None ->
  wp k Q (set_node p (connected n b) w) ->
  wp (update p (fun n : Node => n <| node_agent_bus := Some b |>) ;;
      (let '(r, peer_ip) := peer_ip_address b in
       if (r <? 0) && negb (r =? - EINVAL) then mret tt
       else update p (fun n : Node => n <| node_peer_ip := peer_ip |>)) ;;
      (if use_selinux then
         match peer_context b with
         | Some peercon =>
             update p (fun n : Node => n <| node_peer_selinux_context := parse_selinux_type peercon |>)
         | None => mret tt
         end
       else mret tt) ;; k) Q w.
Proof.
  intros Hn Hb HQ. unfold connected, peer_ip_of, peer_context_of in HQ. wp_one.
  eapply wp_update_node; [exact Hn|]. set (n1 := n <| node_agent_bus := Some b |>) in *.
  assert (w_nodes (set_node p n1 w) !! p = Some n1) as Hn1 by apply lookup_insert_eq.
  wp_one. destruct (peer_ip_address b) as [r ip].
  assert (forall n2, n2 = n1 <| node_peer_ip ::= fun old =>
      if (r <? 0) && negb (r =? - EINVAL) then old else ip |> ->
    wp ((if use_selinux then
         match peer_context b with
         | Some peercon =>
             update p (fun n : Node => n <| node_peer_selinux_context := parse_selinux_type peercon |>)
         | None => mret tt
         end
       else mret tt) ;; k) Q (set_node p n2 w)) as Hrest.
  { intros n2 Hn2. rewrite <- Hn2 in HQ.
    assert (w_nodes (set_node p n2 w) !! p = Some n2) as Hl by apply lookup_insert_eq.
    wp_one. destruct use_selinux; [destruct (peer_context b) as [c|]|].
    - eapply wp_update_node; [exact Hl|]. rewrite set_node_twice. exact HQ.
    - apply wp_ret. by destruct n2.
    - apply wp_ret. by destruct n2. }
  destruct ((r <? 0) && negb (r =? - EINVAL)) eqn:Er.
  - apply wp_ret. apply Hrest. rewrite ?Er. by destruct n1.
  - eapply wp_update_node; [exact Hn1|]. rewrite set_node_twice. by apply Hrest; rewrite ?Er.
Qed.
End attach.

(** Attaching an agent to a named, disconnected node, when no call fails: the
    node holds the connection and its peer data, nothing else changes, and the
    new agent is asked for every unit somebody subscribed to and for every proxy
    dependency, after the controller listens to all of its signals. *)
Lemma wp_node_set_agent_bus {E : Env} {L : EnvLaws E} (Hnf : no_local_failure E)
  (Hbus : no_bus_failure E) (w : World) (p b : ptr) (n : Node)
  (Hn : w_nodes w !! p = Some n) (Hname : node_name n <> None) (Hoff : node_agent_bus n = None)
  (Hunit : forall u us, node_unit_subscriptions n !! u = Some us -> us_unit us = u) :
  wp (node_set_agent_bus p b)
     (fun r w' => r = true /\
        quiet (set_node p ((connected n b) <| node_disconnect_slot := true |>) w) w' /\
        exists units, NoDup units /\
          (forall u, u ∈ units <-> is_Some (node_unit_subscriptions n !! u)) /\
          w_trace w' = w_trace w ++ attach_calls n b units) w.
Proof.
  unfold node_set_agent_bus. wp_one. wp_one. rewrite bool_decide_false by (intros H; by apply H).
  eapply wp_connect; [exact Hn|exact Hoff|]. set (n1 := connected n b).
  assert (w_nodes (set_node p n1 w) !! p = Some n1) as Hn1 by apply lookup_insert_eq.
  destruct (node_name n) as [name|]; [|done].
  wp_one. wp_one. eapply wp_mono; [by apply (wp_node_match_agent_signals Hbus p n1)|]. cbn beta.
  intros ok w1 [-> [Hq1 Ht1]]. cbn [negb]. apply wp_ret.
  wp_one. wp_one. rewrite (proj2 (Z.ltb_ge _ _)) by apply Hbus.
  set (w2 := emit _ w1). wp_one.
  assert (w_nodes w2 !! p = Some n1) as Hn2.
  { change (w_nodes w2) with (w_nodes w1). by rewrite (quiet_nodes _ _ Hq1). }
  eapply wp_update_node; [exact Hn2|]. set (n3 := n1 <| node_disconnect_slot := true |>).
  assert (quiet (set_node p n3 w) (set_node p n3 w2)) as Hq3.
  { rewrite <- (set_node_twice p n3 n1 w). by apply quiet_set_node. }
  assert (w_nodes (set_node p n3 w2) !! p = Some n3) as Hn3 by apply lookup_insert_eq.
  set (m := node_unit_subscriptions n). set (units := hashmap_order m).
  assert (units ≡ₚ (map_to_list m).*1) as Hperm by apply hashmap_order_perm.
  assert (forall u, u ∈ units <-> is_Some (m !! u)) as Hin.
  { intros u. rewrite Hperm, list_elem_of_fmap. split.
    - intros ([u' us] & -> & Hus%elem_of_map_to_list). cbn. eauto.
    - intros [us Hus]. exists (u, us). split; [done|]. by apply elem_of_map_to_list. }
  wp_one. eapply wp_mono; [apply (wp_subscribe_all_units p n3 b); [exact Hn3|done|exact Hunit|]|].
  { intros u. apply Hin. }
  cbn beta. intros _ w4 [Hq4 Ht4]. wp_one.
  eapply wp_mono; [apply (wp_start_all_dependencies p n3 b); [|done]|].
  { rewrite (quiet_nodes _ _ Hq4). exact Hn3. }
  cbn beta. intros _ w5 [Hq5 Ht5]. apply wp_ret. split; [done|]. split.
  { etrans; [exact Hq3|]. by etrans. }
  exists units. split; [rewrite Hperm; apply NoDup_fst_map_to_list|]. split; [exact Hin|].
  rewrite (Ht5 Hnf), (Ht4 Hnf). change (w_trace (set_node p n3 w2)) with
    (w_trace w1 ++ [AgentMatchSignal b "Disconnected"]).
  rewrite (Ht1 Hnf). unfold attach_calls. rewrite <- !app_assoc. done.
Qed.

(** ** Accepted registrations *)

(** The node of the connection after its agent moved to the named node. *)
Definition detached (n : Node) : Node :=
  n <| node_disconnect_slot := false |>
    <| node_internal_controller_slot := false |>
    <| node_metrics_matching_slot := false |>
    <| node_agent_bus := None |>
    <| node_peer_selinux_context := None |>
    <| node_peer_ip := None |>.

Lemma wp_detach_anonymous {E : Env} p n Q w :
  w_nodes w !! p = Some n -> node_name n = None -> Q tt (set_node p (detached n) w) ->
  wp (node_unset_agent_bus p) Q w.
Proof.
  intros Hn Hname HQ. unfold node_unset_agent_bus. wp_one. eapply wp_load; [exact Hn|].
  unfold node_is_online. rewrite Hname. cbn [bool_decide decide_rel andb]. wp_one.
  eapply wp_update_node; [exact Hn|]. by apply wp_ret.
Qed.

(** The named node once the agent has registered at the given times. *)
Definition registered `{Env} (nn : Node) (b : ptr) (now now_monotonic : Z) : Node :=
  (connected (nn <| node_last_seen := now |> <| node_last_seen_monotonic := now_monotonic |>) b)
    <| node_disconnect_slot := true |>.

(** C15. A connection registers under the name of a configured node that is not
    connected, with the right SELinux context, metrics disabled, when no call fails: the named node
    takes over the connection, with the current time as its last sign of life; the
    agent is asked for every unit somebody subscribed to and for every proxy
    dependency; one more node is online, which is announced when it changes the
    system status; and the agent gets its reply last. The node of the connection is
    left without connection, but it stays in the list of anonymous nodes. *)
Theorem registration_accepted {E : Env} {L : EnvLaws E} (Hnf : no_local_failure E)
  (Hbus : no_bus_failure E) (w : World) (m p q b : ptr) (n nn : Node) (name : string)
  (ts ts_monotonic : timespec) (Hok : registry_ok w)
  (Hn : w_nodes w !! p = Some n) (Hanon : node_name n = None) (Hb : node_agent_bus n = Some b)
  (Hfind : List.find (named w name) (c_nodes (w_controller w)) = Some q)
  (Hnn : w_nodes w !! q = Some nn) (Hoff : node_agent_bus nn = None)
  (Hselinux : selinux_refused n nn = false) (Hmetrics : c_metrics_enabled (w_controller w) = false)
  (Hclock : clock_realtime (w_clocks w) = Some ts)
  (Hclock' : clock_monotonic (S (w_clocks w)) = Some ts_monotonic)
  (Hrange : 0 <= c_number_of_nodes_online (w_controller w) < c_number_of_nodes (w_controller w)) :
  let nn' := registered nn b (timespec_to_micros ts) (timespec_to_micros ts_monotonic) in
  let c := w_controller w in
  wp (node_method_register m (ReadOk name) p)
     (fun _ w' =>
        quiet ((set_node p (detached n) (set_node q nn' w)) <| w_clocks ::= fun k => S (S k) |>
                 <| w_controller ::= online_by Z.succ |>) w' /\
        exists units, NoDup units /\
          (forall u, u ∈ units <-> is_Some (node_unit_subscriptions nn !! u)) /\
          w_trace w' = w_trace w ++ attach_calls nn b units ++ status_calls (status_changed Z.succ c) ++
                       [ReplyReturn m []]) w.
Proof.
  intros nn' c. unfold node_method_register. wp_one. eapply wp_load; [exact Hn|].
  rewrite Hanon, bool_decide_false by (intros H; by apply H).
  wp_one. apply wp_controller_find_node; [apply Hok|]. intros r Hr Hspec. rewrite Hfind in Hr. subst r.
  destruct Hspec as (nn0 & [Hq Hnn0] & Hname). assert (nn0 = nn) as -> by congruence.
  assert (q <> p) as Hqp by congruence.
  wp_one. eapply wp_load; [exact Hnn|]. rewrite Hselinux. unfold node_has_agent.
  rewrite Hoff, bool_decide_false by (intros H; by apply H).
  wp_one. unfold get_time_micros, wp at 1. rewrite Hclock.
  wp_one. eapply wp_update_node; [exact Hnn|]. set (nn1 := nn <| node_last_seen := _ |>).
  wp_one. unfold get_time_micros_monotonic, wp at 1.
  change (w_clocks (set_node q nn1 _)) with (S (w_clocks w)). rewrite Hclock'.
  wp_one. eapply wp_update_node; [apply lookup_insert_eq|].
  set (nn2 := nn1 <| node_last_seen_monotonic := _ |>). set (w1 := set_node q nn2 _).
  wp_one. wp_one. rewrite Hb. set (w2 := tick w1).
  assert (w_nodes w2 !! q = Some nn2) as Hn2 by apply lookup_insert_eq.
  wp_one. eapply wp_mono; [apply (wp_node_set_agent_bus Hnf Hbus w2 q b nn2 Hn2)|].
  { unfold nn2, nn1. cbn. by rewrite Hname. }
  { exact Hoff. }
  { intros u us Hu. exact (proj1 (ok_entries _ Hok q nn (conj Hq Hnn) u us Hu)). }
  cbn beta. intros r w3 (-> & Hq3 & units & Hnd & Hin & Ht3). cbn [negb].
  wp_one. wp_one. rewrite (quiet_controller _ _ Hq3).
  change (w_controller (set_node q _ w2)) with (w_controller w). rewrite Hmetrics. wp_one. wp_one.
  wp_one. eapply wp_detach_anonymous; [|exact Hanon|].
  { rewrite (quiet_nodes _ _ Hq3). cbn. rewrite !insert_insert_eq. by rewrite lookup_insert_ne. }
  wp_one. apply wp_count_online. unfold reply_method_return. apply wp_bus.
  assert (w_controller w3 = w_controller w) as Hc3 by exact (quiet_controller _ _ Hq3).
  split.
  - set (f := fun x => (set_node p (detached n) x) <| w_controller ::= online_by Z.succ |>).
    transitivity (f (set_node q ((connected nn2 b) <| node_disconnect_slot := true |>) w2));
      [|exact (f_equal f Hq3)]. unfold f.
    unfold quiet, erase, w2, w1, tick, set_node, nn2, nn1. destruct w; cbn. f_equal.
    by rewrite !insert_insert_eq.
  - exists units. split_and!; [exact Hnd|exact Hin|]. cbn -[attach_calls]. rewrite Ht3, Hc3.
    rewrite status_check_changed by (lia || by left).
    change (attach_calls nn2 b units) with (attach_calls nn b units). by rewrite <- !app_assoc.
Qed.

(** The unregistered connection of the sample registers as n2. *)
Definition sample_trusted : Node := sample_node3 <| node_peer_selinux_context := Some "bluechi_t"%string |>.
Definition sample_registering : World := set_node 3 sample_trusted sample_world.

Lemma sample_registering_ok : registry_ok sample_registering.
Proof.
  destruct sample_registry_ok as [H1 H2 H3 H4 H5 H6].
  assert (forall p, p ∈ c_nodes (w_controller sample_world) ->
    w_nodes sample_registering !! p = w_nodes sample_world !! p) as Hsame.
  { intros p Hp. cbn in Hp. rewrite !elem_of_cons, elem_of_nil in Hp. by destruct Hp as [-> |[-> |[]]]. }
  assert (forall p n, is_node sample_registering p n -> is_node sample_world p n) as Hnode.
  { intros p n [Hp Hn]. split; [exact Hp|]. by rewrite <- Hsame. }
  split; [exact H1| |intros p q n n' Hp Hq; eauto|exact H4| |intros p n Hp; by apply (H6 p n), Hnode].
  - intros p Hp. rewrite Hsame by exact Hp. by apply H2.
  - intros sub Hsub. destruct (H5 sub Hsub) as (s & Hs & Ht). exists s. split; [exact Hs|].
    destruct (sub_monitor s) as [|p|p]; [done|exact Ht|]. destruct Ht as (m & Hm & Hnm). exists m. split; [exact Hm|].
    cbn. apply lookup_insert_is_Some'. by right.
Qed.

Lemma registration_accepted_witness :
  wp (node_method_register 9 (ReadOk "n2"%string) 3)
     (fun _ w' =>
        quiet ((set_node 3 (detached sample_trusted)
                  (set_node 2 (registered sample_node2 101 1000000 1000000) sample_registering))
                 <| w_clocks ::= fun k => S (S k) |> <| w_controller ::= online_by Z.succ |>) w' /\
        exists units, NoDup units /\
          (forall u, u ∈ units <-> is_Some (node_unit_subscriptions sample_node2 !! u)) /\
          w_trace w' = [] ++ attach_calls sample_node2 101 units ++
            [ApiPropertiesChanged BC_CONTROLLER_OBJECT_PATH CONTROLLER_INTERFACE "Status"] ++
            [ReplyReturn 9 []]) sample_registering.
Proof.
  exact (registration_accepted sample_no_failure (fun _ _ => Z.le_refl 0) sample_registering 9 3 2 101
    sample_trusted sample_node2 "n2" (mkTimespec 1 0) (mkTimespec 1 0) sample_registering_ok
    eq_refl eq_refl eq_refl eq_refl eq_refl eq_refl eq_refl eq_refl eq_refl eq_refl
    (conj (Zle_bool_imp_le 0 1 eq_refl) eq_refl)).
Defined.


(** The first signal match fails: the attachment is reported as failed, yet the
    node keeps the connection, so that it counts as connected: every later
    registration under its name is refused. *)
Theorem failed_attachment_sticks {E : Env} (w : World) (p b : ptr) (n : Node)
  (Hn : w_nodes w !! p = Some n) (Hname : node_name n <> None) (Hoff : node_agent_bus n = None)
  (Hfail : bus_result (Datatypes.length (w_trace w)) (AgentMatchSignal b "JobDone") < 0) :
  wp (node_set_agent_bus p b)
     (fun r w' => r = false /\
        w_nodes w' !! p = Some (connected n b) /\
        node_has_agent (connected n b) = true) w.
Proof.
  unfold node_set_agent_bus. wp_one. wp_one. rewrite bool_decide_false by (intros H; by apply H).
  eapply wp_connect; [exact Hn|exact Hoff|].
  destruct (node_name n) as [name|]; [|done].
  wp_one. wp_one. unfold node_match_agent_signals. wp_one. cbn [match_signals agent_signals].
  wp_one. wp_one. cbn [w_trace set_node field_update].
  rewrite (proj2 (Z.ltb_lt _ _)) by exact Hfail. apply wp_ret. cbn [negb].
  apply wp_ret. apply wp_ret. split_and!; [done| |done]. apply lookup_insert_eq.
Qed.

(** Every bus call fails, nothing else does. *)
Definition failing_bus_env : Env := {|
  local_result := fun _ => 0;
  bus_result := fun _ _ => -22;
  clock_realtime := fun _ => Some (mkTimespec 1 0);
  clock_monotonic := fun _ => Some (mkTimespec 1 0);
  use_selinux := false;
  peer_ip_address := fun _ => (0, Some "192.168.0.2"%string);
  peer_context := fun _ => None;
  hashmap_order := fun m => (map_to_list m).*1;
  subset_set := fun _ l x => if decide (x ∈ l) then l else l ++ [x];
  sync_uint64 := fun _ => 0;
  array_length := fun _ => O;
|}.

Lemma failed_attachment_sticks_witness :
  wp (node_set_agent_bus (E := failing_bus_env) 2 102)
     (fun r w' => r = false /\
        w_nodes w' !! 2%positive = Some (connected (E := failing_bus_env) sample_node2 102) /\
        node_has_agent (connected (E := failing_bus_env) sample_node2 102) = true) sample_world.
Proof.
  apply (failed_attachment_sticks (E := failing_bus_env) sample_world 2 102 sample_node2 eq_refl).
  - done.
  - done.
  - cbn. lia.
Defined.
