(* ===== verification/ProxyTheorems.v ===== *)
(** Proxy services: the counting of proxy dependencies, and the termination of
    the release of nodes, which recurses through proxy monitors. *)
From S2P Require Import Prelude CString StringUtil Protocol Log World Job Events Subscriptions Proxy.
From S2P Require Import WorldFacts EventFacts RegistryFacts Sample NodeTheorems.
Local Open Scope list_scope.

Lemma streq_ne a b : a <> b -> streq a b = false.
Proof. apply streq_false. Qed.

(** ** Dependency counts *)

Definition dep_count (l : list ProxyDependency) (unit : string) : Z :=
  match List.find (fun dep => streq (dep_unit_name dep) unit) l with
  | Some dep => dep_n_deps dep
  | None => 0
  end.
(** One entry per unit, each with at least one user. *)
Definition deps_ok (l : list ProxyDependency) : Prop :=
  NoDup (map dep_unit_name l) /\ Forall (fun dep => 0 < dep_n_deps dep) l.

Lemma dep_count_cons d l unit :
  dep_count (d :: l) unit =
  if streq (dep_unit_name d) unit then dep_n_deps d else dep_count l unit.
Proof. unfold dep_count. cbn. by destruct (streq (dep_unit_name d) unit). Qed.

Lemma dep_count_app l1 l2 unit :
  dep_count (l1 ++ l2) unit =
  match List.find (fun dep => streq (dep_unit_name dep) unit) l1 with
  | Some dep => dep_n_deps dep
  | None => dep_count l2 unit
  end.
Proof.
  induction l1 as [|d l1 IH]; [done|]. cbn [app List.find]. rewrite dep_count_cons, IH.
  by destruct (streq (dep_unit_name d) unit).
Qed.

Lemma dep_count_none l unit : unit ∉ map dep_unit_name l -> dep_count l unit = 0.
Proof.
  induction l as [|d l IH]; [done|]. cbn [map]. intros [Hne Hl]%not_elem_of_cons.
  rewrite dep_count_cons, IH by done. rewrite streq_ne; [done|]. by intros E.
Qed.

Lemma dep_count_nonneg l unit : Forall (fun dep => 0 < dep_n_deps dep) l -> 0 <= dep_count l unit.
Proof.
  induction 1 as [|d l Hd Hl IH]; [done|]. rewrite dep_count_cons. case_match; lia.
Qed.

Lemma find_dep_some l unit dep :
  List.find (fun dep => streq (dep_unit_name dep) unit) l = Some dep ->
  dep_unit_name dep = unit /\ dep_count l unit = dep_n_deps dep /\ unit ∈ map dep_unit_name l.
Proof.
  intros Hf. unfold dep_count. rewrite Hf. apply find_some in Hf as [Hin Hs].
  apply streq_true in Hs. split_and!; [done..|]. apply list_elem_of_In, in_map_iff. eauto.
Qed.

Lemma find_dep_none l unit :
  List.find (fun dep => streq (dep_unit_name dep) unit) l = None -> unit ∉ map dep_unit_name l.
Proof.
  intros Hf Hin. apply list_elem_of_In, in_map_iff in Hin as (d & <- & Hd).
  pose proof (find_none _ _ Hf d Hd) as Hs. cbn in Hs. by rewrite streq_refl in Hs.
Qed.

(** What the two assignments through the found entry do. *)
Lemma update_dep_names unit f l :
  (forall d d', f d = Some d' -> dep_unit_name d = unit -> dep_unit_name d' = unit) ->
  forall x, x ∈ map dep_unit_name (update_dep unit f l) -> x ∈ map dep_unit_name l.
Proof.
  intros Hf x. induction l as [|d l IH]; [done|]. cbn [update_dep].
  destruct (streq (dep_unit_name d) unit) eqn:Es.
  - apply streq_true in Es. destruct (f d) as [d'|] eqn:Ed; [|by right].
    cbn [map]. rewrite (Hf d d' Ed Es), Es. done.
  - cbn [map]. intros [->|Hx]%elem_of_cons; [left|right; auto].
Qed.

Lemma update_dep_ok unit f l :
  (forall d d', f d = Some d' -> dep_unit_name d = unit -> dep_unit_name d' = unit /\ 0 < dep_n_deps d') ->
  deps_ok l -> deps_ok (update_dep unit f l).
Proof.
  intros Hf [Hnd Hpos]. induction l as [|d l IH]; [done|]. cbn [update_dep].
  cbn [map] in Hnd. apply NoDup_cons in Hnd as [Hd Hnd]. apply Forall_cons in Hpos as [Hpd Hpos].
  destruct (streq (dep_unit_name d) unit) eqn:Es.
  - apply streq_true in Es. destruct (f d) as [d'|] eqn:Ed; [|done].
    destruct (Hf d d' Ed Es) as [Hn Hp]. split; cbn [map]; [|by constructor].
    rewrite Hn, <- Es. by constructor.
  - destruct (IH Hnd Hpos) as [H1 H2]. split; cbn [map]; [|by constructor]. constructor; [|done].
    intros Hx. apply Hd. eapply (update_dep_names unit f); [|exact Hx].
    intros d1 d2 E1 E2. by apply (Hf d1 d2).
Qed.

Lemma update_dep_count unit f l u :
  (forall d d', f d = Some d' -> dep_unit_name d = unit -> dep_unit_name d' = unit) ->
  NoDup (map dep_unit_name l) ->
  dep_count (update_dep unit f l) u =
    if streq u unit then
      match List.find (fun dep => streq (dep_unit_name dep) unit) l with
      | Some d => match f d with Some d' => dep_n_deps d' | None => 0 end
      | None => 0
      end
    else dep_count l u.
Proof.
  intros Hf Hnd. induction l as [|d l IH]; [by destruct (streq u unit)|].
  cbn [map] in Hnd. apply NoDup_cons in Hnd as [Hd Hnd]. cbn [update_dep List.find].
  destruct (streq (dep_unit_name d) unit) eqn:Es.
  - apply streq_true in Es. destruct (f d) as [d'|] eqn:Ed.
    + rewrite !dep_count_cons, (Hf d d' Ed Es). destruct (streq u unit) eqn:Eu.
      * apply streq_true in Eu as ->. by rewrite streq_refl.
      * rewrite Es, !(streq_ne unit u); [done|]. intros ->. by rewrite streq_refl in Eu.
    + destruct (streq u unit) eqn:Eu.
      * apply streq_true in Eu as ->. rewrite Es in Hd. by apply dep_count_none.
      * rewrite dep_count_cons, Es, streq_ne; [done|]. intros ->. by rewrite streq_refl in Eu.
  - rewrite !dep_count_cons, IH by done. destruct (streq u unit) eqn:Eu; [|done].
    apply streq_true in Eu as ->. by rewrite Es.
Qed.

(** The node with other proxy dependencies. *)
Definition with_deps (l : list ProxyDependency) (n : Node) : Node :=
  n <| node_proxy_dependencies := l |>.

(** [l'] counts [d] more users of [unit] than [l], and the same for the others. *)
Definition counts_changed (l l' : list ProxyDependency) (unit : string) (d : Z) : Prop :=
  forall u, dep_count l' u = dep_count l u + if streq u unit then d else 0.

Section dependencies.
Context {E : Env} (Hnf : no_local_failure E).

Lemma wp_start_dependency p n dep w :
  w_nodes w !! p = Some n ->
  wp (node_start_proxy_dependency p dep)
     (fun _ => calls (agent_message n "StartDep" (Some (dep_unit_name dep))) w) w.
Proof. intros Hn. by apply wp_if_agent. Qed.

Lemma wp_stop_dependency p n dep w :
  w_nodes w !! p = Some n ->
  wp (node_stop_proxy_dependency p dep)
     (fun _ => calls (agent_message n "StopDep" (Some (dep_unit_name dep))) w) w.
Proof. intros Hn. by apply wp_if_agent. Qed.

Lemma wp_update_deps p n f Q w :
  w_nodes w !! p = Some n ->
  Q tt (set_node p (with_deps (f (node_proxy_dependencies n)) n) w) -> wp (update_deps p f) Q w.
Proof. intros Hn HQ. unfold update_deps. by eapply wp_update_node. Qed.

Lemma wp_add_dependency w p n unit :
  w_nodes w !! p = Some n -> deps_ok (node_proxy_dependencies n) ->
  wp (node_add_proxy_dependency p unit)
     (fun r w' => r = 0 /\ exists l, deps_ok l /\
        counts_changed (node_proxy_dependencies n) l unit 1 /\
        quiet (set_node p (with_deps l n) w) w' /\
        w_trace w' = w_trace w ++ agent_message n "StartDep" (Some unit)) w.
Proof.
  intros Hn Hok. unfold node_add_proxy_dependency, node_find_proxy_dependency. wp_one. wp_one.
  assert (forall l dep w1, dep_unit_name dep = unit -> deps_ok l ->
    counts_changed (node_proxy_dependencies n) l unit 1 ->
    quiet w w1 -> w_trace w1 = w_trace w ->
    wp (node_start_proxy_dependency p dep ;; mret 0) (fun r w' => r = 0 /\ exists l, deps_ok l /\
        counts_changed (node_proxy_dependencies n) l unit 1 /\
        quiet (set_node p (with_deps l n) w) w' /\
        w_trace w' = w_trace w ++ agent_message n "StartDep" (Some unit))
      (set_node p (with_deps l n) w1)) as Hend.
  { intros l dep w1 Hdep Hl Hc Hq Ht. wp_one. eapply wp_mono.
    - apply (wp_start_dependency p (with_deps l n)). apply lookup_insert_eq.
    - cbn beta. intros _ w2 [Hq2 Ht2]. apply wp_ret. split; [done|]. exists l.
      split_and!; [done|done| |].
      + etrans; [by apply quiet_set_node|done].
      + rewrite (Ht2 Hnf), Hdep. change (w_trace (set_node _ _ w1)) with (w_trace w1). by rewrite Ht. }
  destruct (List.find _ _) as [dep|] eqn:Hf.
  - destruct (find_dep_some _ _ _ Hf) as (Hname & Hcount & _).
    wp_one. eapply wp_update_deps; [exact Hn|].
    destruct Hok as [Hnd Hpos]. apply Hend; [done| | |done|done].
    + apply update_dep_ok; [|done]. intros d d' [= <-] _. split; [exact Hname|]. cbn.
      pose proof (dep_count_nonneg _ unit Hpos). lia.
    + intros u. rewrite update_dep_count; [|by intros d d' [= <-]|done].
      rewrite Hf. cbn. destruct (streq u unit) eqn:Eu; [|lia].
      apply streq_true in Eu as ->. by rewrite Hcount.
  - pose proof (find_dep_none _ _ Hf) as Hnot.
    wp_one. wp_one. rewrite local_ok_true by done. cbn [negb].
    wp_one. wp_one. rewrite local_ok_true by done. cbn [negb].
    wp_one. eapply wp_update_deps; [exact Hn|]. destruct Hok as [Hnd Hpos].
    apply Hend; [done| | |done|done].
    + split.
      * rewrite map_app. apply NoDup_app. split_and!; [done| |apply NoDup_singleton].
        intros x Hx ->%list_elem_of_singleton. done.
      * apply Forall_app. split; [done|]. by constructor.
    + intros u. rewrite dep_count_app, dep_count_cons. unfold dep_count. cbn.
      destruct (streq u unit) eqn:Eu.
      * apply streq_true in Eu as ->. rewrite Hf, streq_refl. cbn. lia.
      * rewrite streq_ne by (intros ->; by rewrite streq_refl in Eu).
        destruct (List.find _ _); lia.
Qed.

Lemma wp_remove_dependency w p n unit :
  w_nodes w !! p = Some n -> deps_ok (node_proxy_dependencies n) ->
  0 < dep_count (node_proxy_dependencies n) unit ->
  wp (node_remove_proxy_dependency p unit)
     (fun r w' => r = 0 /\ exists l, deps_ok l /\
        counts_changed (node_proxy_dependencies n) l unit (-1) /\
        quiet (set_node p (with_deps l n) w) w' /\
        w_trace w' = w_trace w ++
          (if dep_count l unit =? 0 then agent_message n "StopDep" (Some unit) else [])) w.
Proof.
  intros Hn [Hnd Hpos] Hcount. unfold node_remove_proxy_dependency, node_find_proxy_dependency.
  wp_one. wp_one. destruct (List.find _ _) as [dep|] eqn:Hf.
  2:{ unfold dep_count in Hcount. rewrite Hf in Hcount. lia. }
  destruct (find_dep_some _ _ _ Hf) as (Hname & Hdep & _). cbn [dep_unit_name dep_n_deps].
  set (dep' := mkProxyDependency (dep_unit_name dep) (dep_n_deps dep - 1)).
  set (l := node_proxy_dependencies n) in *. wp_one. eapply wp_update_deps; [exact Hn|].
  assert (forall f, (forall d d', f d = Some d' -> d' = dep') ->
    (match f dep with Some d' => dep_n_deps d' | None => 0 end) = dep_n_deps dep - 1 ->
    counts_changed l (update_dep unit f l) unit (-1)) as Hchange.
  { intros f Hf1 Hf2 u. rewrite update_dep_count; [|by intros d d' ->%Hf1|done].
    destruct (streq u unit) eqn:Eu; [|lia]. apply streq_true in Eu as ->. fold l in Hf.
    rewrite Hf, Hf2. lia. }
  destruct (dep_n_deps dep - 1 =? 0) eqn:E0.
  - wp_one. eapply wp_mono; [apply wp_stop_dependency, lookup_insert_eq|]. cbn beta.
    intros _ w1 [Hq1 Ht1]. wp_one. eapply wp_update_deps.
    { rewrite (quiet_nodes _ _ Hq1). apply lookup_insert_eq. }
    apply wp_ret. split; [done|].
    assert (forall l, update_dep unit (fun _ => None) (update_dep unit (fun _ => Some dep') l) =
      update_dep unit (fun _ => None) l) as Htwice.
    { intros l0. induction l0 as [|d l0 IH]; [done|]. cbn [update_dep].
      destruct (streq (dep_unit_name d) unit) eqn:Es; cbn [update_dep].
      - change (dep_unit_name dep') with (dep_unit_name dep). by rewrite Hname, streq_refl.
      - by rewrite Es, IH. }
    exists (update_dep unit (fun _ => None) l).
    assert (counts_changed l (update_dep unit (fun _ => None) l) unit (-1)) as Hc
      by (apply Hchange; [done|lia]).
    split_and!; [by apply update_dep_ok|exact Hc| |].
    + cbn [with_deps node_proxy_dependencies field_update]. fold l. rewrite Htwice.
      etrans; [|by apply quiet_set_node]. by rewrite set_node_twice.
    + change (w_trace (set_node _ _ w1)) with (w_trace w1). rewrite (Ht1 Hnf), (Hc unit), streq_refl.
      rewrite Hdep. rewrite (proj2 (Z.eqb_eq _ _)) by lia. f_equal. unfold agent_message. cbn.
      by rewrite Hname.
  - apply wp_ret. split; [done|]. exists (update_dep unit (fun _ => Some dep') l).
    assert (counts_changed l (update_dep unit (fun _ => Some dep') l) unit (-1)) as Hc
      by (apply Hchange; [by intros d d' [= <-]|done]).
    split_and!; [|exact Hc|done|].
    + apply update_dep_ok; [|done]. intros d d' [= <-] _. split; [exact Hname|]. cbn. lia.
    + rewrite (Hc unit), streq_refl, Hdep, (proj2 (Z.eqb_neq _ _)) by lia. by rewrite app_nil_r.
Qed.
End dependencies.

(** C31. Proxy dependencies are counted: registering a user of a unit adds one to its
    count and asks the agent to start the dependency every time; dropping a user
    takes one away and asks the agent to stop it exactly when the last user goes;
    other units keep their counts, there stays one entry per used unit, nothing
    else changes; and dropping a user of an unused unit is an error that does
    nothing. *)
Theorem proxy_dependencies_counted {E : Env} (Hnf : no_local_failure E) (w : World) (p : ptr)
  (n : Node) (unit : string) (Hn : w_nodes w !! p = Some n) (Hok : deps_ok (node_proxy_dependencies n)) :
  wp (node_add_proxy_dependency p unit)
     (fun r w' => r = 0 /\ exists l, deps_ok l /\
        counts_changed (node_proxy_dependencies n) l unit 1 /\
        quiet (set_node p (with_deps l n) w) w' /\
        w_trace w' = w_trace w ++ agent_message n "StartDep" (Some unit)) w /\
  wp (node_remove_proxy_dependency p unit)
     (fun r w' =>
        if dep_count (node_proxy_dependencies n) unit =? 0 then r = - ENOENT /\ w' = w
        else r = 0 /\ exists l, deps_ok l /\
          counts_changed (node_proxy_dependencies n) l unit (-1) /\
          quiet (set_node p (with_deps l n) w) w' /\
          w_trace w' = w_trace w ++
            (if dep_count l unit =? 0 then agent_message n "StopDep" (Some unit) else [])) w.
Proof.
  split; [by apply wp_add_dependency|].
  pose proof (dep_count_nonneg _ unit (proj2 Hok)).
  destruct (dep_count (node_proxy_dependencies n) unit =? 0) eqn:E0.
  - unfold node_remove_proxy_dependency, node_find_proxy_dependency. wp_one. wp_one.
    destruct (List.find _ _) as [dep|] eqn:Hf; [|by apply wp_ret].
    destruct (find_dep_some _ _ _ Hf) as (_ & Hc & Hin).
    destruct Hok as [_ Hpos]. apply find_some in Hf as [Hdep _]. apply list_elem_of_In in Hdep.
    rewrite Forall_forall in Hpos. specialize (Hpos dep Hdep). lia.
  - apply wp_remove_dependency; [done..|lia].
Qed.

Lemma proxy_dependencies_counted_witness :
  wp (node_add_proxy_dependency 2 "b.service")
     (fun r w' => r = 0 /\ exists l, deps_ok l /\
        counts_changed (node_proxy_dependencies sample_node2) l "b.service" 1 /\
        quiet (set_node 2 (with_deps l sample_node2) sample_world) w' /\
        w_trace w' = [] ++ agent_message sample_node2 "StartDep" (Some "b.service"%string))
     sample_world.
Proof.
  apply (proxy_dependencies_counted sample_no_failure sample_world 2 sample_node2 "b.service" eq_refl).
  split; [apply NoDup_singleton|]. constructor; [cbn; lia|constructor].
Defined.

(** ** Releasing a node *)

(** The nodes that still have references. *)
Definition referenced (m : gmap ptr Node) : gset ptr :=
  dom (filter (fun x : ptr * Node => 1 <= node_ref_count x.2) m).
Definition rank (w : World) : nat := size (referenced (w_nodes w)).

Lemma elem_of_referenced m p :
  p ∈ referenced m <-> exists n, m !! p = Some n /\ 1 <= node_ref_count n.
Proof.
  unfold referenced. rewrite elem_of_dom. split.
  - intros [n [Hn Hr]%map_lookup_filter_Some]. eauto.
  - intros (n & Hn & Hr). exists n. by apply map_lookup_filter_Some.
Qed.

(** Running [m] never runs out of fuel and gives no node its references back. *)
Definition tame {A} (m : CM A) : Prop := forall w,
  match m w with
  | Ret _ w' => (rank w' <= rank w)%nat
  | Crash c => c <> OutOfFuel
  end.

Lemma rank_nodes w w' : w_nodes w' = w_nodes w -> rank w' = rank w.
Proof. unfold rank. by intros ->. Qed.

Lemma tame_ret {A} (a : A) : tame (mret a).
Proof. intros w. cbn. lia. Qed.

Lemma tame_bind {A B} (m : CM A) (k : A -> CM B) : tame m -> (forall a, tame (k a)) -> tame (m ≫= k).
Proof.
  intros Hm Hk w. unfold mbind, M_bind. specialize (Hm w).
  destruct (m w) as [a w'|c]; [|done]. specialize (Hk a w'). destruct (k a w'); [lia|done].
Qed.

Lemma tame_load {T} `{Store T} p : tame (load (T := T) p).
Proof. intros w. unfold load, deref. destruct (store_get w !! p); [lia|done]. Qed.

Lemma tame_crash {A} c : c <> OutOfFuel -> tame (crash_with (A := A) c).
Proof. by intros Hc w. Qed.

Lemma tame_gets {A} (f : World -> A) : tame (gets f).
Proof. intros w. cbn. lia. Qed.

Lemma tame_modify f : (forall w, w_nodes (f w) = w_nodes w) -> tame (modify f).
Proof. intros Hf w. cbn. by rewrite (rank_nodes w). Qed.

Lemma tame_assert b : tame (c_assert (W := World) b).
Proof. intros w. destruct b; cbn; [lia|done]. Qed.

Lemma tame_foreach {A} (l : list A) body : (forall a, tame (body a)) -> tame (foreach l body).
Proof.
  intros Hb. induction l as [|a l IH]; cbn [foreach]; [apply tame_ret|].
  by apply tame_bind.
Qed.

Lemma tame_find_first {A} (l : list A) test : (forall a, tame (test a)) -> tame (find_first l test).
Proof.
  intros Ht. induction l as [|a l IH]; cbn [find_first]; [apply tame_ret|].
  apply tame_bind; [done|]. intros [|]; [apply tame_ret|done].
Qed.

(** Taking references away, or freeing a node. *)
Lemma rank_le (m m' : gmap ptr Node) :
  (forall q n', m' !! q = Some n' -> exists n, m !! q = Some n /\ node_ref_count n' <= node_ref_count n) ->
  (size (referenced m') <= size (referenced m))%nat.
Proof.
  intros H. apply subseteq_size. intros q (n' & Hn' & Hr)%elem_of_referenced.
  destruct (H q n' Hn') as (n & Hn & Hle). apply elem_of_referenced. exists n. split; [done|lia].
Qed.

Lemma tame_update_node p f :
  (forall n, node_ref_count (f n) <= node_ref_count n) -> tame (update (T := Node) p f).
Proof.
  intros Hf w. unfold update, mbind, M_bind, load, deref. cbn.
  destruct (w_nodes w !! p) as [n|] eqn:Hn; cbn; [|done].
  unfold rank. cbn. apply rank_le. intros q n' [[<- <-]|[Hne Hq]]%lookup_insert_Some; eauto.
  exists n'. split; [done|lia].
Qed.

Lemma tame_free_node p : tame (free (T := Node) p).
Proof.
  intros w. unfold free, mbind, M_bind, load, deref. cbn.
  destruct (w_nodes w !! p) as [n|] eqn:Hn; cbn; [|done].
  unfold rank. cbn. apply rank_le. intros q n' [Hne Hq]%lookup_delete_Some.
  exists n'. split; [done|lia].
Qed.

(** Objects of the other stores do not matter. *)
Class NotNode (T : Type) `{Store T} := not_node : forall f w, w_nodes (store_upd (T := T) f w) = w_nodes w.
#[export] Instance not_node_Job : NotNode Job. Proof. done. Qed.
#[export] Instance not_node_Monitor : NotNode Monitor. Proof. done. Qed.
#[export] Instance not_node_Subscription : NotNode Subscription. Proof. done. Qed.
#[export] Instance not_node_ProxyMonitor : NotNode ProxyMonitor. Proof. done. Qed.

Lemma tame_update {T} `{NotNode T} p (f : T -> T) : tame (update p f).
Proof.
  apply tame_bind; [apply tame_load|]. intros x. apply tame_modify. intros w. apply not_node.
Qed.

Lemma tame_free {T} `{NotNode T} p : tame (free (T := T) p).
Proof.
  apply tame_bind; [apply tame_load|]. intros x. apply tame_modify. intros w. apply not_node.
Qed.

Section tame_calls.
Context {E : Env}.

Lemma tame_local : tame local. Proof. intros w. cbn. by rewrite (rank_nodes w). Qed.
Lemma tame_bus c : tame (bus c). Proof. intros w. cbn. by rewrite (rank_nodes w). Qed.
End tame_calls.

(** The hints follow the structure of a program. *)
Create HintDb tame discriminated.
#[export] Hint Resolve tame_ret tame_load tame_gets tame_assert tame_local tame_bus : tame.
Ltac tame_step :=
  lazymatch goal with
  | |- tame (mbind _ _) => apply tame_bind; [|intros]
  | |- tame (foreach _ _) => apply tame_foreach; intros
  | |- tame (find_first _ _) => apply tame_find_first; intros
  | |- tame (crash_with _) => apply tame_crash; discriminate
  | |- tame (modify _) => apply tame_modify; intros; reflexivity
  | |- tame (update (T := Node) _ _) => apply tame_update_node; intros; cbn; lia
  | |- tame (update _ _) => apply tame_update
  | |- tame (free (T := Node) _) => apply tame_free_node
  | |- tame (free _) => apply tame_free
  | |- tame (if ?b then _ else _) => destruct b
  | |- tame (match ?x with _ => _ end) => destruct x
  | |- tame ?m => first [solve [auto with tame nocore] | assumption]
  end.
Ltac tame_solve := intros; repeat tame_step.

Section tame_programs.
Context {E : Env}.

Lemma tame_local_ok : tame local_ok.
Proof. unfold local_ok. tame_solve. Qed.
#[local] Hint Resolve tame_local_ok : tame.

Lemma tame_list_remove_from p l : tame (list_remove_from p l).
Proof. unfold list_remove_from. tame_solve. Qed.
Lemma tame_send p method arg : tame (send_agent_simple_message p method arg).
Proof. unfold send_agent_simple_message. tame_solve. Qed.
#[local] Hint Resolve tame_list_remove_from tame_send : tame.

Lemma tame_subscription_unref p : tame (subscription_unref p).
Proof. unfold subscription_unref, monitor_unref. tame_solve. Qed.
Lemma tame_update_usubs p f : tame (update_usubs p f).
Proof. unfold update_usubs. tame_solve. Qed.
Lemma tame_unsubscribe_agent p unit : tame (node_send_agent_unsubscribe p unit).
Proof. unfold node_send_agent_unsubscribe. tame_solve. Qed.
#[local] Hint Resolve tame_subscription_unref tame_update_usubs tame_unsubscribe_agent : tame.
Lemma tame_clear usubs : tame (unit_subscriptions_clear usubs).
Proof. unfold unit_subscriptions_clear. tame_solve. Qed.
#[local] Hint Resolve tame_clear : tame.
Lemma tame_unsubscribe p sub : tame (node_unsubscribe p sub).
Proof. unfold node_unsubscribe, node_unsubscribe_unit. tame_solve. Qed.
#[local] Hint Resolve tame_unsubscribe : tame.
Lemma tame_find_node name : tame (controller_find_node name).
Proof. unfold controller_find_node, controller. tame_solve. Qed.
#[local] Hint Resolve tame_find_node : tame.
Lemma tame_remove_subscription sub : tame (controller_remove_subscription sub).
Proof. unfold controller_remove_subscription, controller, upd_controller. tame_solve. Qed.
Lemma tame_unset_agent_bus p : tame (node_unset_agent_bus p).
Proof. unfold node_unset_agent_bus. tame_solve. Qed.
Lemma tame_free_usubs m : tame (hashmap_free_usubs m).
Proof. unfold hashmap_free_usubs. tame_solve. Qed.
Lemma tame_drop_dep p : tame (proxy_monitor_drop_dep p).
Proof.
  unfold proxy_monitor_drop_dep, node_remove_proxy_dependency, node_stop_proxy_dependency, update_deps.
  tame_solve.
Qed.
#[local] Hint Resolve tame_remove_subscription tame_unset_agent_bus tame_free_usubs tame_drop_dep : tame.
End tame_programs.
#[export] Hint Resolve tame_list_remove_from tame_subscription_unref tame_remove_subscription
  tame_unset_agent_bus tame_free_usubs tame_drop_dep : tame.

(** The same for programs that need the rank to be below [k]. *)
Definition tame_below {A} (k : nat) (m : CM A) : Prop := forall w, (rank w < k)%nat ->
  match m w with
  | Ret _ w' => (rank w' <= rank w)%nat
  | Crash c => c <> OutOfFuel
  end.

Lemma below_tame {A} k (m : CM A) : tame m -> tame_below k m.
Proof. intros Hm w _. apply Hm. Qed.

Lemma below_bind {A B} k (m : CM A) (f : A -> CM B) :
  tame_below k m -> (forall a, tame_below k (f a)) -> tame_below k (m ≫= f).
Proof.
  intros Hm Hf w Hw. unfold mbind, M_bind. specialize (Hm w Hw).
  destruct (m w) as [a w'|c]; [|done]. specialize (Hf a w' ltac:(lia)).
  destruct (f a w'); [lia|done].
Qed.

Lemma below_foreach {A} k (l : list A) body :
  (forall a, tame_below k (body a)) -> tame_below k (foreach l body).
Proof.
  intros Hb. induction l as [|a l IH]; cbn [foreach]; [apply below_tame, tame_ret|].
  by apply below_bind.
Qed.

Section release.
Context {E : Env}.

Lemma below_proxy_monitor_unref k unref p :
  (forall q, tame_below k (unref q)) -> tame_below k (proxy_monitor_unref_with unref p).
Proof.
  intros Hu. unfold proxy_monitor_unref_with.
  apply below_bind; [apply below_tame; tame_solve|intros _].
  apply below_bind; [apply below_tame; tame_solve|intros m].
  destruct (negb _); [apply below_tame; tame_solve|].
  apply below_bind; [|intros; apply below_tame; tame_solve].
  destruct (pm_target_node m); [|apply below_tame; tame_solve].
  apply below_bind; [apply below_tame; tame_solve|intros _]. apply Hu.
Qed.

Lemma below_remove_proxy_monitor k unref node p :
  (forall q, tame_below k (unref q)) -> tame_below k (node_remove_proxy_monitor_with unref node p).
Proof.
  intros Hu. unfold node_remove_proxy_monitor_with, proxy_monitor_close.
  do 5 (apply below_bind; [apply below_tame; tame_solve|intros]).
  apply below_bind; [apply below_tame; tame_solve|intros]. by apply below_proxy_monitor_unref.
Qed.

Lemma run_update_node {A} p n f (k : void -> CM A) w :
  w_nodes w !! p = Some n -> (update (T := Node) p f ≫= k) w = k tt (set_node p (f n) w).
Proof. intros Hn. unfold update, load, mbind, M_bind, deref. cbn. by rewrite Hn. Qed.
Lemma run_load_node {A} p n (k : Node -> CM A) w :
  w_nodes w !! p = Some n -> (load (T := Node) p ≫= k) w = k n w.
Proof. intros Hn. unfold load, mbind, M_bind, deref. cbn. by rewrite Hn. Qed.
Lemma run_update_invalid {A} p f (k : void -> CM A) w :
  w_nodes w !! p = None -> (update (T := Node) p f ≫= k) w = Crash InvalidPointer.
Proof. intros Hn. unfold update, load, mbind, M_bind, deref. cbn. by rewrite Hn. Qed.

(** Every level of the recursion takes the last reference of a node. *)
Lemma fuel_suffices fuel : forall p, tame_below fuel (node_unref_fuel fuel p).
Proof.
  induction fuel as [|fuel IH]; intros p w Hw; [lia|]. cbn [node_unref_fuel].
  destruct (w_nodes w !! p) as [n|] eqn:Hn; [|by rewrite run_update_invalid].
  rewrite (run_update_node p n) by done.
  set (n' := n <| node_ref_count ::= Z.pred |>). set (w1 := set_node p n' w).
  assert (rank w1 <= rank w)%nat as Hle.
  { apply rank_le. cbn. intros q m [[<- <-]|[Hne Hq]]%lookup_insert_Some.
    - exists n. split; [done|cbn; lia].
    - exists m. split; [done|lia]. }
  assert (w_nodes w1 !! p = Some n') as Hn1 by apply lookup_insert_eq.
  rewrite (run_load_node p n') by done.
  change (node_ref_count n') with (Z.pred (node_ref_count n)).
  destruct (Z.pred (node_ref_count n) =? 0) eqn:E0; cbn [negb]; [|exact Hle].
  apply Z.eqb_eq in E0.
  assert (rank w1 < rank w)%nat as Hlt.
  { unfold rank. apply subset_size. split.
    - intros q (m & Hm & Hr)%elem_of_referenced. apply elem_of_referenced. cbn in Hm.
      apply lookup_insert_Some in Hm as [[<- <-]|[Hne Hq]]; [change (node_ref_count n') with (Z.pred (node_ref_count n)) in Hr; lia|eauto].
    - intros Hsub. assert (p ∈ referenced (w_nodes w1)) as (m & Hm & Hr)%elem_of_referenced.
      { apply Hsub, elem_of_referenced. exists n. split; [done|lia]. }
      rewrite Hn1 in Hm. injection Hm as <-. change (node_ref_count n') with (Z.pred (node_ref_count n)) in Hr. lia. }
  match goal with |- match ?m w1 with _ => _ end => assert (tame_below fuel m) as Hrest end.
  { apply below_bind; [apply below_foreach; intros; by apply below_remove_proxy_monitor|].
    intros _. apply below_tame. tame_solve. }
  specialize (Hrest w1 ltac:(lia)).
  match goal with H : match ?m with _ => _ end |- _ => destruct m; [lia|done] end.
Qed.
End release.

(** C35. The recursion of [node_unref] through the targets of proxy monitors ends: the
    fuel it is given, two more than the number of nodes, always suffices, for
    every state and whatever fails. *)
Theorem node_unref_terminates {E : Env} (w : World) (p : ptr) : node_unref p w <> Crash OutOfFuel.
Proof.
  unfold node_unref. assert (rank w < S (S (size (w_nodes w))))%nat as Hrank.
  { unfold rank, referenced. rewrite size_dom.
    assert (size (filter (fun x : ptr * Node => (1 <= node_ref_count x.2)%Z) (w_nodes w))
      <= size (w_nodes w))%nat; [|lia].
    apply map_subseteq_size, map_filter_subseteq. }
  pose proof (fuel_suffices _ p w Hrank) as H.
  destruct (node_unref_fuel _ p w) as [[] w'|c]; [discriminate|]. intros [= ->]. by apply H.
Qed.
