(* ===== verification/RequestTheorems.v ===== *)
(** Requests to one agent: a request that is accepted is sent once, its client is
    answered once, and nothing of it remains. *)
From S2P Require Import Prelude CString StringUtil ParseUtil Protocol Log World Job Events.
From S2P Require Import Subscriptions Monitor Proxy Requests.
From S2P Require Import WorldFacts EventFacts RegistryFacts Sample NodeTheorems.
Local Open Scope list_scope.

(** ** Symbolic execution through fresh objects *)

Ltac wp_lookup :=
  cbn [store_get store_Node store_AgentRequest store_JobSetup store_Job store_upd];
  first [eassumption | cbn; rewrite ?lookup_insert_eq; (reflexivity || eassumption)].
Ltac wp_run :=
  repeat (lazymatch goal with
          | |- wp (load _) _ _ => eapply wp_load; [wp_lookup|]
          | |- wp (update _ _) _ _ => eapply wp_update; [wp_lookup|]
          | _ => wp_one
          end).

Section requests.
Context {E : Env}.

Lemma wp_local_nf (Hnf : no_local_failure E) Q w :
  (forall r, (r <? 0) = false -> Q r (tick w)) -> wp local Q w.
Proof. intros HQ. apply wp_local, HQ. specialize (Hnf (w_locals w)). lia. Qed.

Lemma wp_local_ok_nf (Hnf : no_local_failure E) Q w : Q true (tick w) -> wp local_ok Q w.
Proof. intros HQ. apply wp_local_ok. by rewrite local_ok_true. Qed.

Lemma wp_bus_nf (Hbus : no_bus_failure E) c Q w :
  (forall r, (r <? 0) = false -> Q r (emit c w)) -> wp (bus c) Q w.
Proof. intros HQ. apply wp_bus, HQ. specialize (Hbus (Datatypes.length (w_trace w)) c). lia. Qed.

(** Dropping a reference that is not the last one. *)
Lemma wp_node_unref_some p n Q w :
  w_nodes w !! p = Some n -> 2 <= node_ref_count n ->
  Q tt (set_node p (n <| node_ref_count ::= Z.pred |>) w) -> wp (node_unref p) Q w.
Proof.
  intros Hn Href HQ. unfold node_unref. unfold wp. cbn [node_unref_fuel].
  change (wp (update p (fun n : Node => n <| node_ref_count ::= Z.pred |>) ;;
    n ← load (T := Node) p;
    if negb (node_ref_count n =? 0) then mret tt else
    foreach (node_proxy_monitors n)
      (node_remove_proxy_monitor_with (node_unref_fuel (S (size (w_nodes w)))) p) ;;
    node_unset_agent_bus p ;;
    n ← load (T := Node) p;
    hashmap_free_usubs (node_unit_subscriptions n) ;;
    free (T := Node) p) Q w).
  wp_one. eapply wp_update; [exact Hn|]. wp_one. eapply wp_load; [apply lookup_insert_eq|].
  assert ((node_ref_count (n <| node_ref_count ::= Z.pred |>) =? 0) = false) as ->.
  { apply Z.eqb_neq. cbn. lia. }
  cbn [negb]. by apply wp_ret.
Qed.

(** ** The answer of the agent *)

(** The client of a request that is answered by forwarding, and what is
    forwarded of the agent's answer. *)
Definition client_of (cb : agent_callback) : option (ptr * bool) :=
  match cb with
  | method_list_units_callback q | method_list_unit_files_callback q
  | node_method_passthrough_to_agent_callback q => Some (q, true)
  | node_method_set_unit_properties_callback q => Some (q, false)
  | _ => None
  end.
Definition forwarded (q : ptr) (copy : bool) (resp : response) : call :=
  match resp with
  | MethodError name => ReplyError q name
  | MethodReturn m => ReplyReturn q (if copy then [VCopy m] else [])
  end.
Definition answers (q : ptr) (c : call) : Prop :=
  match c with ReplyReturn q' _ | ReplyError q' _ => q' = q | _ => False end.

Lemma wp_forward q copy resp w :
  wp (forward_error q (Some resp) (reply_copy q copy))
     (fun _ w' => quiet w w' /\ exists c, w_trace w' = w_trace w ++ [c] /\ answers q c /\
        (no_local_failure E -> c = forwarded q copy resp)) w.
Proof.
  unfold forward_error, reply_copy, reply_method_errorf, reply_method_return. destruct resp as [name|m].
  - wp_one. split; [done|]. eexists; by split_and!.
  - wp_one. wp_one. destruct (_ <? 0) eqn:E1.
    { wp_one. split; [done|]. eexists. split_and!; [done|done|].
      intros Hf. specialize (Hf (w_locals w)). lia. }
    destruct copy.
    + wp_one. wp_one. destruct (local_result (w_locals (tick w)) <? 0) eqn:E2; wp_one; (split; [done|]); eexists;
        (split_and!; [done|done|]); [|done].
      intros Hf. specialize (Hf (w_locals (tick w))). lia.
    + wp_one. split; [done|]. eexists; by split_and!.
Qed.

(** Callback and release of a request that is not cancelled. *)
Definition without_request (req : ptr) (p : ptr) (n : Node) (w : World) : World :=
  (set_node p (n <| node_outstanding_requests ::= remove_first req |>
                 <| node_ref_count ::= Z.pred |>) w) <| w_reqs ::= delete req |>.

(** Dropping the last reference: the user data goes, then the request. *)
Lemma wp_agent_request_unref_zero req r Q w :
  w_reqs w !! req = Some r -> req_ref_count r = 1 ->
  wp (free_userdata (req_cb r))
     (fun _ w1 => exists n, w_nodes w1 !! req_node r = Some n /\ is_Some (w_reqs w1 !! req) /\
        req ∈ node_outstanding_requests n /\ 2 <= node_ref_count n /\
        Q tt (without_request req (req_node r) n w1))
     (w <| w_reqs ::= <[req := r <| req_ref_count ::= Z.pred |>]> |>) ->
  wp (agent_request_unref req) Q w.
Proof.
  intros Hr Href HQ. unfold agent_request_unref.
  wp_one. eapply wp_update; [exact Hr|]. wp_one. eapply wp_load; [apply lookup_insert_eq|].
  assert ((req_ref_count (r <| req_ref_count ::= Z.pred |>) =? 0) = true) as ->.
  { apply Z.eqb_eq. cbn. lia. }
  cbn [negb]. wp_one. cbn [field_update req_cb req_node]. eapply wp_mono; [exact HQ|]. cbn beta.
  intros _ w0 (n & Hn & [r0 Hr0] & Hout & Hnref & HQ0). wp_one. eapply wp_load; [exact Hn|].
  wp_one. apply wp_list_remove_from; [exact Hout|].
  wp_one. unfold update_requests. eapply wp_update_node; [exact Hn|].
  set (n1 := n <| node_outstanding_requests := _ |>). set (w1 := set_node _ n1 _).
  assert (w_nodes w1 !! req_node r = Some n1) as Hn1 by apply lookup_insert_eq.
  wp_one. eapply wp_node_unref_some; [exact Hn1|exact Hnref|].
  eapply wp_free; [exact Hr0|].
  assert (store_upd (T := AgentRequest) (delete req)
    (set_node (req_node r) (n1 <| node_ref_count ::= Z.pred |>) w1) =
    without_request req (req_node r) n w0) as ->; [|exact HQ0].
  unfold w1, n1, without_request, set_node. destruct w0; cbn. f_equal. by rewrite insert_insert_eq.
Qed.

Lemma without_request_insert req p n r w :
  without_request req p n (w <| w_reqs ::= <[req := r]> |>) = without_request req p n w.
Proof. unfold without_request, set_node. destruct w; cbn. f_equal. by rewrite delete_insert_eq. Qed.

Lemma wp_agent_request_unref_last req r n Q w :
  w_reqs w !! req = Some r -> req_ref_count r = 1 -> client_of (req_cb r) <> None ->
  w_nodes w !! req_node r = Some n -> req ∈ node_outstanding_requests n -> 2 <= node_ref_count n ->
  Q tt (without_request req (req_node r) n w) -> wp (agent_request_unref req) Q w.
Proof.
  intros Hr Href Hcb Hn Hout Hnref HQ. eapply wp_agent_request_unref_zero; [exact Hr|exact Href|].
  assert (free_userdata (req_cb r) = mret tt) as -> by (destruct (req_cb r); done).
  apply wp_ret. exists n. rewrite without_request_insert. split_and!; [exact Hn| |done..].
  eexists. apply lookup_insert_eq.
Qed.
End requests.

(** C19. The answer to a forwarded request, at whatever time it arrives and whatever
    else fails: the client gets exactly one reply (the agent's answer or error,
    unless the reply cannot be built), the request leaves the node's list and is
    freed, the node keeps its other references, and nothing else changes. *)
Theorem request_answered_once {E : Env} (w : World) (req q : ptr) (copy : bool) (r : AgentRequest)
  (n : Node) (resp : response)
  (Hr : w_reqs w !! req = Some r) (Href : req_ref_count r = 1) (Hlive : req_is_cancelled r = false)
  (Hcb : client_of (req_cb r) = Some (q, copy))
  (Hn : w_nodes w !! req_node r = Some n) (Hout : req ∈ node_outstanding_requests n)
  (Hnref : 2 <= node_ref_count n) :
  wp (agent_request_callback req (Some resp))
     (fun _ w' => quiet (without_request req (req_node r) n w) w' /\
        exists c, w_trace w' = w_trace w ++ [c] /\ answers q c /\
          (no_local_failure E -> c = forwarded q copy resp)) w.
Proof.
  unfold agent_request_callback. wp_one. wp_one. wp_one. rewrite Hlive.
  assert (run_callback req (Some resp) w = forward_error q (Some resp) (reply_copy q copy) w) as Hrun.
  { unfold run_callback, load, mbind, M_bind, deref. cbn. rewrite Hr.
    destruct (req_cb r); cbn in Hcb; try discriminate; by injection Hcb as -> <-. }
  unfold wp at 1. rewrite Hrun. change (wp (forward_error q (Some resp) (reply_copy q copy))
    (fun res => wp (agent_request_unref req ;; mret res) (fun _ w' =>
      quiet (without_request req (req_node r) n w) w' /\
        exists c, w_trace w' = w_trace w ++ [c] /\ answers q c /\
          (no_local_failure E -> c = forwarded q copy resp))) w).
  eapply wp_mono; [apply wp_forward|]. cbn beta. intros res w1 [Hq (c & Ht & Hc & Hf)].
  assert (w_reqs w1 = w_reqs w) as Hreqs by (symmetry; exact (f_equal w_reqs Hq)).
  wp_one. eapply (wp_agent_request_unref_last req r n).
  - by rewrite Hreqs.
  - done.
  - by rewrite Hcb.
  - by rewrite (quiet_nodes _ _ Hq).
  - done.
  - done.
  - apply wp_ret. split; [|by exists c].
    exact (f_equal (fun x => (set_node (req_node r) (n <| node_outstanding_requests ::= remove_first req |>
                 <| node_ref_count ::= Z.pred |>) x) <| w_reqs ::= delete req |>) Hq).
Qed.

(** A state with one outstanding request. *)
Definition sample_request : AgentRequest :=
  mkAgentRequest 1 1 true "ListUnits" [] (method_list_units_callback 200) false.
Definition sample_waiting : World :=
  (set_node 1 (sample_node1 <| node_ref_count := 2 |>
                            <| node_outstanding_requests := [60%positive] |>) sample_world)
    <| w_reqs := {[60%positive := sample_request]} |>.

Lemma request_answered_once_witness :
  wp (agent_request_callback 60 (Some (MethodReturn 201)))
     (fun _ w' =>
        quiet (without_request 60 1 (sample_node1 <| node_ref_count := 2 |>
                 <| node_outstanding_requests := [60%positive] |>) sample_waiting) w' /\
        exists c, w_trace w' = [] ++ [c] /\ answers 200 c /\
          (no_local_failure sample_env -> c = ReplyReturn 200 [VCopy 201])) sample_waiting.
Proof.
  apply (request_answered_once sample_waiting 60 200 true sample_request
    (sample_node1 <| node_ref_count := 2 |> <| node_outstanding_requests := [60%positive] |>)
    (MethodReturn 201)); [reflexivity..|left|done].
Defined.

(** ** Sending a request *)

(** The state with a new request of [node] under way. *)
Definition with_request (p : ptr) (n : Node) (r : AgentRequest) (w : World) : World :=
  (set_node p (n <| node_ref_count ::= Z.succ |>
                 <| node_outstanding_requests ::= fun l => l ++ [w_next_ptr w] |>) w)
    <| w_reqs ::= <[w_next_ptr w := r]> |> <| w_next_ptr ::= Pos.succ |>.

Section sending.
Context {E : Env} (Hnf : no_local_failure E) (Hbus : no_bus_failure E).

(** Creation, one argument after the other, and the call. *)
Lemma wp_node_create_request p n b method cb Q w :
  w_nodes w !! p = Some n -> node_agent_bus n = Some b ->
  (forall w', quiet (with_request p n (mkAgentRequest 1 p false method [] cb false) w) w' ->
     w_trace w' = w_trace w -> Q (0, Some (w_next_ptr w)) w') ->
  wp (node_create_request p method cb) Q w.
Proof.
  intros Hn Hb HQ. unfold node_create_request. wp_one. apply (wp_local_ok_nf Hnf). cbn [negb].
  wp_one. eapply wp_load; [exact Hn|]. rewrite Hb. wp_one. apply (wp_local_nf Hnf). intros r ->.
  unfold node_ref. wp_one. wp_one. eapply wp_update; [exact Hn|]. apply wp_ret.
  wp_one. wp_one. wp_one. eapply wp_load; [apply lookup_insert_eq|].
  wp_one. unfold update_requests. eapply wp_update_node; [apply lookup_insert_eq|]. apply wp_ret.
  apply HQ; [|done]. unfold quiet, erase, with_request, set_node. destruct w; cbn. f_equal.
  by rewrite insert_insert_eq.
Qed.

Lemma quiet_with_reqs g w w' : quiet w w' -> quiet (w <| w_reqs ::= g |>) (w' <| w_reqs ::= g |>).
Proof. intros H. exact (f_equal (fun w => w <| w_reqs ::= g |>) H). Qed.

Lemma set_request_twice p r r' w :
  (w <| w_reqs ::= <[p := r]> |>) <| w_reqs ::= <[p := r']> |> = w <| w_reqs ::= <[p := r']> |>.
Proof. destruct w; cbn. f_equal. apply insert_insert_eq. Qed.

Lemma wp_append_parts req parts : forall r Q w,
  w_reqs w !! req = Some r ->
  (forall w', quiet (w <| w_reqs ::= <[req := r <| req_args ::= fun l => l ++ List.concat parts |>]> |>) w' ->
     w_trace w' = w_trace w -> Q true w') ->
  wp (append_parts req parts) Q w.
Proof.
  induction parts as [|part parts IH]; intros r Q w Hr HQ; cbn [append_parts].
  - apply wp_ret, HQ; [|done]. cbn [List.concat].
    assert (r <| req_args ::= fun l => l ++ [] |> = r) as ->
      by (destruct r; cbn; f_equal; apply app_nil_r).
    destruct w; cbn in *. by rewrite insert_id.
  - unfold agent_request_append. wp_one. wp_one. apply (wp_local_nf Hnf). intros x Hx. rewrite Hx.
    wp_one. eapply wp_update; [exact Hr|]. apply wp_ret. rewrite Hx.
    eapply IH; [apply lookup_insert_eq|]. intros w' Hq Ht. apply HQ; [|exact Ht].
    cbn [List.concat]. etrans; [|exact Hq]. unfold quiet, erase. destruct w; cbn. f_equal.
    rewrite insert_insert_eq. destruct r; cbn. by rewrite app_assoc.
Qed.

(** What [start_request] leaves of a request created with one reference. *)
Lemma wp_start_request {m req parts done_} r n b Q w :
  w_reqs w !! req = Some r -> req_ref_count r = 1 ->
  w_nodes w !! req_node r = Some n -> node_agent_bus n = Some b ->
  let args := req_args r ++ List.concat parts in
  (forall w', quiet (w <| w_reqs ::= <[req := r <| req_args := args |> <| req_slot := true |>]> |>) w' ->
     w_trace w' = w_trace w ++ [AgentCallAsync b (req_method r) args req] -> Q 1 w') ->
  done_ = mret 1 ->
  wp (start_request m req parts done_) Q w.
Proof.
  intros Hr Href Hn Hb args HQ ->. unfold start_request. wp_one. wp_one.
  eapply wp_append_parts; [exact Hr|]. intros w1 Hq1 Ht1. cbn [negb].
  assert (w_reqs w1 = <[req := r <| req_args := args |>]> (w_reqs w)) as Hr1.
  { symmetry. pose proof (f_equal w_reqs Hq1) as H. cbn in H. rewrite <- H. destruct r; done. }
  unfold agent_request_start. wp_one. wp_one.
  eapply wp_load; [cbn; rewrite Hr1; apply lookup_insert_eq|].
  wp_one. eapply wp_load; [cbn; rewrite (quiet_nodes _ _ Hq1); exact Hn|]. rewrite Hb.
  wp_one. cbn [req_method req_args field_update]. apply (wp_bus_nf Hbus). intros x Hx. rewrite Hx.
  wp_one. eapply wp_update; [cbn; rewrite Hr1; apply lookup_insert_eq|].
  unfold agent_request_ref. wp_one. wp_one. eapply wp_update; [apply lookup_insert_eq|].
  apply wp_ret. apply wp_ret. cbn [Z.ltb Z.compare]. apply wp_ret. wp_one.
  unfold agent_request_unref. wp_one. eapply wp_update; [apply lookup_insert_eq|].
  wp_one. eapply wp_load; [apply lookup_insert_eq|].
  match goal with |- context [negb (?a =? 0)] => assert ((a =? 0) = false) as -> end.
  { apply Z.eqb_neq. cbn. rewrite Href. lia. }
  cbn [negb]. apply wp_ret. apply wp_ret. apply HQ.
  - etrans; [|transitivity (w1 <| w_reqs ::= <[req := r <| req_args := args |> <| req_slot := true |>]> |>)].
    + reflexivity.
    + etrans; [|apply (quiet_with_reqs _ _ _ Hq1)]. by rewrite set_request_twice.
    + unfold quiet, erase. destruct w1; cbn. f_equal. rewrite !insert_insert_eq. f_equal.
      destruct r; cbn in *. f_equal; lia.
  - cbn. by rewrite Ht1.
Qed.
End sending.

(** Forwarding a method call to a connected agent, when no call fails: the agent
    is called exactly once, with the whole message; the client is not answered
    yet; and what remains is one outstanding request of the node, with a
    reference for the reply, so that its answer is forwarded
    ([request_answered_once]). *)
Theorem passthrough_sent {E : Env} (Hnf : no_local_failure E) (Hbus : no_bus_failure E) (w : World)
  (m p b : ptr) (n : Node) (member : string)
  (Hn : w_nodes w !! p = Some n) (Hb : node_agent_bus n = Some b)
  (Hup : node_is_shutdown n = false) :
  let r := mkAgentRequest 1 p true member [VCopy m] (node_method_passthrough_to_agent_callback m) false in
  wp (node_method_passthrough_to_agent m member p)
     (fun res w' => res = 1 /\ quiet (with_request p n r w) w' /\
        w_trace w' = w_trace w ++ [AgentCallAsync b member [VCopy m] (w_next_ptr w)]) w.
Proof.
  intros r. unfold node_method_passthrough_to_agent. wp_one. wp_one. rewrite Hup. wp_one.
  eapply (wp_node_create_request Hnf); [exact Hn|exact Hb|]. intros w1 Hq1 Ht1. cbn [snd].
  set (n1 := n <| node_ref_count ::= Z.succ |>
                 <| node_outstanding_requests ::= fun l => l ++ [w_next_ptr w] |>).
  set (r0 := mkAgentRequest _ _ _ _ _ _ _) in Hq1.
  eapply (wp_start_request Hnf Hbus r0 n1 b).
  - change (w_reqs w1) with (w_reqs (erase w1)). rewrite <- Hq1. apply lookup_insert_eq.
  - done.
  - rewrite (quiet_nodes _ _ Hq1). apply lookup_insert_eq.
  - done.
  - intros w2 Hq2 Ht2. split; [done|]. split; [|by rewrite Ht2, Ht1].
    etrans; [|exact Hq2]. etrans; [|apply quiet_with_reqs, Hq1].
    unfold quiet, erase, with_request, set_node. destruct w; cbn. f_equal. by rewrite insert_insert_eq.
  - done.
Qed.

Lemma passthrough_sent_witness :
  let r := mkAgentRequest 1 1 true "GetUnitProperties" [VCopy 200]
             (node_method_passthrough_to_agent_callback 200) false in
  wp (node_method_passthrough_to_agent 200 "GetUnitProperties" 1)
     (fun res w' => res = 1 /\ quiet (with_request 1 sample_node1 r sample_world) w' /\
        w_trace w' = [] ++ [AgentCallAsync 100 "GetUnitProperties" [VCopy 200] 50]) sample_world.
Proof.
  exact (passthrough_sent sample_no_failure (fun _ _ => Z.le_refl 0) sample_world 200 1 100
    sample_node1 "GetUnitProperties" eq_refl eq_refl eq_refl).
Defined.
