(* ===== verification/CfgTheorems.v ===== *)
(** The configuration store: what loading a file adds, which source of the
    configuration decides an option, the drop-in directory, the listing of the
    sections and the configuration the controller starts with. *)
From stdpp Require Import sorting.
From S2P Require Import Prelude CString StringUtil ParseUtil Protocol Log Cfg.
Local Open Scope list_scope.

(** ** Options of a file *)

(** No allocation fails. *)
Definition all_alloc (E : CfgEnv) : Prop := forall k, alloc_ok k = true.

(** A repeated option continues its value; the empty value counts as none. *)
Definition read_option (s : store) (c : string * string * string) : store :=
  let '(section, name, value) := c in
  <[(section, name) :=
      stored_value (Some (default "" (mjoin (s !! (section, name))) ++ value)%string)]> s.
Definition file_store `{CfgEnv} (file : string) : store := foldl read_option ∅ (ini_calls file).

(** What [cfg_load_from_file] returns for a file: an errno, the line of a
    parse error, or 0. *)
Definition file_status `{CfgEnv} (file : string) : Z :=
  if access_error file =? 0
  then ini_result file (replicate (Datatypes.length (ini_calls file)) 1)
  else - access_error file.

(** A configuration with the options of [m] on top. *)
Definition overlay (m : store) (c : config_t) : config_t := c <| cfg_store ::= union m |>.

Lemma overlay_overlay m1 m2 c : overlay m1 (overlay m2 c) = overlay (m1 ∪ m2) c.
Proof. unfold overlay. destruct c; cbn. f_equal. apply (assoc_L (∪)). Qed.
Lemma overlay_empty c : overlay ∅ c = c.
Proof. unfold overlay. destruct c; cbn. f_equal. apply (left_id_L ∅ (∪)). Qed.

Lemma stored_value_idem v : stored_value (stored_value v) = stored_value v.
Proof.
  destruct v as [v|]; [|done]. unfold stored_value. destruct (0 <? strlen v)%nat eqn:E; [|done].
  by rewrite E.
Qed.

(** Every stored value is in the form [cfg_s_set_value] stores it. *)
Definition store_ok (s : store) : Prop := map_Forall (fun _ v => stored_value v = v) s.

Lemma store_ok_insert s k v : store_ok s -> store_ok (<[k := stored_value v]> s).
Proof. intros Hs. apply map_Forall_insert_2; [apply stored_value_idem|done]. Qed.

Lemma file_store_ok `{CfgEnv} file : store_ok (file_store file).
Proof.
  unfold file_store. generalize (ini_calls file) as calls. intros calls.
  assert (store_ok ∅) as H0 by apply map_Forall_empty. revert H0. generalize (∅ : store) as s.
  induction calls as [|[[sect name] v] calls IH]; intros s Hs; [done|]. cbn [foldl read_option].
  by apply IH, store_ok_insert.
Qed.

Section load.
Context {E : CfgEnv} (Halloc : all_alloc E).

Lemma wp_alloc Q k : (forall k', Q true k') -> wp alloc Q k.
Proof. intros HQ. unfold alloc, wp. rewrite Halloc. apply HQ. Qed.

Lemma wp_cfg_initialize Q k :
  (forall k', Q (0, Some (mkConfig ∅ CFG_SECT_GLOBAL)) k') -> wp cfg_initialize Q k.
Proof.
  intros HQ. unfold cfg_initialize. do 3 (apply wp_bind, wp_alloc; intros ?; cbn [negb]).
  by apply wp_ret.
Qed.

Lemma wp_cfg_s_set_value c sect name v Q k :
  (forall k', Q (0, c <| cfg_store ::= <[(sect, name) := stored_value v]> |>) k') ->
  wp (cfg_s_set_value c sect name v) Q k.
Proof.
  intros HQ. unfold cfg_s_set_value. do 2 (apply wp_bind, wp_alloc; intros ?; cbn [negb]).
  apply wp_bind.
  assert (forall k (Q' : bool -> nat -> Prop), (forall k', Q' true k') ->
    wp (if bool_decide (stored_value v <> None) then alloc else mret true) Q' k) as Hv.
  { intros k2 Q' HQ'. case_bool_decide; [by apply wp_alloc|by apply wp_ret]. }
  apply Hv. intros ?. cbn [negb]. apply wp_bind, wp_alloc. intros ?. cbn [negb]. by apply wp_ret.
Qed.

Lemma wp_parsing_handler c sect name v Q k :
  (forall k', Q (1, c <| cfg_store ::= fun s => read_option s (sect, name, v) |>) k') ->
  wp (parsing_handler c sect name v) Q k.
Proof.
  intros HQ. unfold parsing_handler, cfg_s_get_value.
  assert (forall old, default "" (mjoin (cfg_store c !! (sect, name))) = old ->
    forall k, wp (r ← cfg_s_set_value c sect name (Some (old ++ v)%string);
        mret (if fst r =? 0 then 1 else 0, snd r)) Q k) as Hset.
  { intros old Hold k'. apply wp_bind, wp_cfg_s_set_value. intros k2. apply wp_ret. cbn [fst snd].
    specialize (HQ k2). cbn [read_option field_update] in HQ. by rewrite Hold in HQ. }
  destruct (cfg_store c !! (sect, name)) as [[old|]|] eqn:Eold.
  - apply wp_bind, wp_alloc. intros k'. cbn [strcat_dup]. by apply Hset.
  - by apply (Hset "").
  - by apply (Hset "").
Qed.

Lemma wp_run_handler calls : forall c Q k,
  (forall k', Q (replicate (Datatypes.length calls) 1,
                 c <| cfg_store ::= fun s => foldl read_option s calls |>) k') ->
  wp (run_handler c calls) Q k.
Proof.
  induction calls as [|[[sect name] v] calls IH]; intros c Q k HQ; cbn [run_handler].
  - apply wp_ret. by destruct c.
  - apply wp_bind, wp_parsing_handler. intros k'. cbn [fst snd].
    apply wp_bind, IH. intros k2. apply wp_ret. apply HQ.
Qed.

Lemma wp_ini_parse file c Q k :
  (forall k', Q (ini_result file (replicate (Datatypes.length (ini_calls file)) 1),
                 c <| cfg_store ::= fun s => foldl read_option s (ini_calls file) |>) k') ->
  wp (ini_parse file c) Q k.
Proof. intros HQ. unfold ini_parse. apply wp_bind, wp_run_handler. intros k'. by apply wp_ret. Qed.

(** Copying a list of entries one after the other. *)
Definition copied (src : store) (keys : list cfg_key) (dst : store) : store :=
  foldl (fun d key => <[key := mjoin (src !! key)]> d) dst keys.

Lemma copied_lookup src keys : forall dst key,
  copied src keys dst !! key =
  if decide (key ∈ keys) then Some (mjoin (src !! key)) else dst !! key.
Proof.
  induction keys as [|key0 keys IH]; intros dst key; cbn [copied foldl].
  - by rewrite decide_False by apply not_elem_of_nil.
  - change (foldl _ ?d keys) with (copied src keys d). rewrite IH.
    destruct (decide (key ∈ keys)) as [Hin|Hin].
    + by rewrite decide_True by (by right).
    + destruct (decide (key = key0)) as [->|Hne].
      * by rewrite lookup_insert_eq, decide_True by left.
      * rewrite lookup_insert_ne by done. rewrite decide_False; [done|].
        rewrite elem_of_cons. tauto.
Qed.

Lemma copied_union {L : CfgEnvLaws E} src dst : copied src (store_order src) dst = src ∪ dst.
Proof.
  apply map_eq. intros key. rewrite copied_lookup, lookup_union.
  assert (key ∈ store_order src <-> is_Some (src !! key)) as Hdom.
  { rewrite store_order_perm. rewrite list_elem_of_fmap. split.
    - intros ([k' v] & -> & Hin%elem_of_map_to_list). by eexists.
    - intros [v Hv]. exists (key, v). split; [done|]. by apply elem_of_map_to_list. }
  destruct (src !! key) as [v|] eqn:Ev.
  - rewrite decide_True by (apply Hdom; eauto). by destruct (dst !! key).
  - rewrite decide_False by (intros [? [=]]%Hdom). by destruct (dst !! key).
Qed.

Lemma wp_copy_entries src (Hsrc : store_ok (cfg_store src)) keys : forall dst Q k,
  (forall k', Q (0, dst <| cfg_store ::= copied (cfg_store src) keys |>) k') ->
  wp (copy_entries src dst keys) Q k.
Proof.
  induction keys as [|[sect name] keys IH]; intros dst Q k HQ; cbn [copy_entries].
  - apply wp_ret. by destruct dst.
  - apply wp_bind, wp_cfg_s_set_value. intros k'. cbn [fst snd Z.ltb Z.compare].
    apply IH. intros k2. specialize (HQ k2). cbn [copied foldl field_update cfg_store] in HQ.
    assert (stored_value (cfg_s_get_value src sect name) = mjoin (cfg_store src !! (sect, name)))
      as ->; [|exact HQ].
    unfold cfg_s_get_value. destruct (cfg_store src !! (sect, name)) as [v|] eqn:Ev; [|done].
    exact (Hsrc _ _ Ev).
Qed.

(** Loading a file either puts its options on top or changes nothing. *)
Lemma wp_cfg_load_from_file {L : CfgEnvLaws E} file c Q k :
  (forall k', Q (file_status file, if file_status file =? 0 then overlay (file_store file) c else c) k') ->
  wp (cfg_load_from_file c (Some file)) Q k.
Proof.
  intros HQ. unfold cfg_load_from_file, file_status in *.
  destruct (access_error file =? 0) eqn:Ea; cbn [negb].
  - apply wp_bind, wp_cfg_initialize. intros k'. cbn [snd].
    apply wp_bind, wp_ini_parse. intros k2. cbn [fst snd field_update cfg_store].
    destruct (ini_result _ _ =? 0) eqn:Er; cbn [negb].
    + unfold cfg_copy_overwrite. apply wp_copy_entries; [apply file_store_ok|]. intros k3.
      apply Z.eqb_eq in Er. rewrite Er in HQ. specialize (HQ k3).
      unfold overlay in HQ. cbn [cfg_store field_update] in *.
      rewrite (copied_union (foldl read_option ∅ (ini_calls file))). exact HQ.
    + apply wp_ret, HQ.
  - apply wp_ret. specialize (HQ k).
    destruct (- access_error file =? 0) eqn:Ez; [lia|exact HQ].
Qed.
End load.

(** ** All sources *)

(** The options a file contributes: none when it cannot be read or parsed. *)
Definition layer `{CfgEnv} (file : string) : store :=
  if file_status file =? 0 then file_store file else ∅.
Definition file_layers `{CfgEnv} (file : option string) : list store :=
  match file with Some f => [layer f] | None => [] end.

(** The drop-in files of a directory, in order. *)
Definition conf_files `{CfgEnv} (dir : string) : list string :=
  if dir_access_error dir =? 0 then
    match scandir dir with
    | inl _ => []
    | inr files => map (fun f => (dir ++ "/" ++ f)%string) (List.filter is_file_name_ending_with_conf files)
    end
  else [].
Definition dir_layers `{CfgEnv} (dir : option string) : list store :=
  match dir with Some d => map layer (conf_files d) | None => [] end.

Definition env_layer `{CfgEnv} (section : string) : store :=
  list_to_map (omap (fun '(var, name) =>
    match stored_value (getenv var) with
    | Some v => Some ((section, name), Some v)
    | None => None
    end) env_vars).

Definition overlays (c : config_t) (layers : list store) : config_t :=
  foldl (fun c m => overlay m c) c layers.

Lemma overlays_section layers : forall c, default_section (overlays c layers) = default_section c.
Proof. induction layers as [|m layers IH]; intros c; [done|]. exact (IH (overlay m c)). Qed.

(** The last layer that mentions an option decides it. *)
Lemma overlays_lookup key layers : forall c,
  cfg_store (overlays c layers) !! key = last (omap (fun m : store => m !! key) (cfg_store c :: layers)).
Proof.
  induction layers as [|m layers IH]; intros c.
  - cbn. by destruct (cfg_store c !! key).
  - cbn [overlays foldl]. change (foldl _ ?c layers) with (overlays c layers). rewrite IH.
    cbn [omap list_omap overlay field_update cfg_store]. rewrite lookup_union.
    destruct (m !! key) as [v|], (cfg_store c !! key) as [v0|]; cbn; done.
Qed.

Section sources.
Context {E : CfgEnv} {L : CfgEnvLaws E} (Halloc : all_alloc E).

(** Every drop-in file is opened and the last one parses. *)
Definition conf_files_ok (files : list string) : Prop :=
  Forall (fun f => 0 <= file_status f) files /\ default 0 (last (map file_status files)) = 0.

Lemma wp_load_files dir names : forall c r Q k,
  Forall (fun f => 0 <= file_status f) (map (fun f => (dir ++ "/" ++ f)%string) names) ->
  (forall k', Q (default r (last (map file_status (map (fun f => (dir ++ "/" ++ f)%string) names))),
                 overlays c (map layer (map (fun f => (dir ++ "/" ++ f)%string) names))) k') ->
  wp (load_files c dir r names) Q k.
Proof.
  induction names as [|name names IH]; intros c r Q k Hst HQ; cbn [load_files].
  - by apply wp_ret, HQ.
  - cbn [map] in *. apply Forall_cons in Hst as [Hf Hst].
    apply wp_bind, (wp_alloc Halloc). intros k'. cbn [negb].
    apply wp_bind, (wp_cfg_load_from_file Halloc). intros k2. cbn [fst snd].
    rewrite (proj2 (Z.ltb_ge _ _)) by exact Hf. apply IH; [done|]. intros k3.
    specialize (HQ k3). rewrite last_cons in HQ.
    set (f := (dir ++ "/" ++ name)%string) in *.
    assert ((if file_status f =? 0 then overlay (file_store f) c else c) = overlay (layer f) c)
      as ->. { unfold layer. destruct (file_status f =? 0); [done|by rewrite overlay_empty]. }
    by destruct (last _).
Qed.

Lemma wp_load_files_fail dir names : forall c r k,
  ~ Forall (fun f => 0 <= file_status f) (map (fun f => (dir ++ "/" ++ f)%string) names) ->
  wp (load_files c dir r names) (fun res _ => fst res < 0) k.
Proof.
  induction names as [|name names IH]; intros c r k Hst; cbn [load_files map] in *.
  - destruct Hst. constructor.
  - apply wp_bind, (wp_alloc Halloc). intros k'. cbn [negb].
    apply wp_bind, (wp_cfg_load_from_file Halloc). intros k2. cbn [fst snd].
    destruct (file_status _ <? 0) eqn:E0; [by apply wp_ret, Z.ltb_lt|].
    apply IH. intros H. apply Hst. constructor; [by apply Z.ltb_ge|done].
Qed.

Lemma wp_load_env_vars section vars : forall c Q k,
  default_section c = section -> NoDup vars.*2 ->
  (forall k', Q (0, overlay (list_to_map (omap (fun '(var, name) =>
     match stored_value (getenv var) with
     | Some v => Some ((section, name), Some v)
     | None => None
     end) vars)) c) k') ->
  wp (load_env_vars c vars) Q k.
Proof.
  induction vars as [|[var name] vars IH]; intros c Q k Hs Hnd HQ; cbn [load_env_vars].
  - apply wp_ret. specialize (HQ k). cbn in HQ. by rewrite overlay_empty in HQ.
  - cbn [fmap list_fmap] in Hnd. apply NoDup_cons in Hnd as [Hname Hnd].
    cbn [omap list_omap] in HQ. destruct (stored_value (getenv var)) as [v|] eqn:Ev; [|by apply IH].
    unfold cfg_set_value. apply wp_bind, (wp_cfg_s_set_value Halloc). intros k'. cbn [fst snd Z.ltb Z.compare].
    apply IH; [done|done|]. intros k2. specialize (HQ k2).
    assert (stored_value (Some v) = Some v) as -> by (rewrite <- Ev; apply stored_value_idem).
    cbn [list_to_map foldr] in HQ.
    rewrite Hs. match goal with |- context [overlay ?m _] => set (rest := m) in * end.
    assert (overlay rest (c <| cfg_store ::= <[(section, name) := Some v]> |>) =
            overlay (<[(section, name) := Some v]> rest) c) as ->; [|exact HQ].
    unfold overlay. destruct c as [st sect]; cbn. f_equal. apply map_eq. intros key.
    rewrite !lookup_union. destruct (decide (key = (section, name))) as [->|Hne].
    + rewrite !lookup_insert_eq. assert (rest !! (section, name) = None) as ->; [|by destruct (st !! _)].
      apply not_elem_of_list_to_map_1. intros Hin. apply list_elem_of_fmap in Hin as ([[s n] x] & [= <- <-] & Hin).
      apply list_elem_of_omap in Hin as ([var' n'] & Hin & Hx). destruct (stored_value (getenv var')); [|done].
      injection Hx as -> _. apply Hname, list_elem_of_fmap. by exists (var', name).
    + by rewrite !lookup_insert_ne by done.
Qed.

Lemma wp_load_file_step {tolerated f c} Q k :
  (forall k', Q (load_step (file_status f, if file_status f =? 0 then overlay (file_store f) c else c)
                           tolerated) k') ->
  wp (r ← cfg_load_from_file c (Some f); mret (load_step r tolerated)) Q k.
Proof. intros HQ. apply wp_bind, (wp_cfg_load_from_file Halloc). intros k'. by apply wp_ret. Qed.

(** Every file that is named is read and parsed; the file in /etc may be absent. *)
Definition dir_ok (dir : string) : Prop :=
  dir_access_error dir <> 0 \/ (exists names, scandir dir = inr names) /\ conf_files_ok (conf_files dir).
Definition sources_ok (default_file etc_file etc_dir cli_file : option string) : Prop :=
  (forall f, default_file = Some f -> file_status f = 0) /\
  (forall f, etc_file = Some f -> file_status f = 0 \/ file_status f = - ENOENT) /\
  (forall d, etc_dir = Some d -> dir_ok d) /\
  (forall f, cli_file = Some f -> file_status f = 0).

(** What a step of [cfg_load_complete_configuration] does with its source. *)
Definition step_ok (ok : Prop) (layers : list store) (c : config_t)
    (m : M nat (Z * config_t + config_t)) : Prop :=
  forall k, wp m (fun s _ => match s with
    | inr c' => ok /\ c' = overlays c layers
    | inl r => ~ ok /\ fst r < 0
    end) k.

Lemma strict_step f c :
  match load_step (file_status f, if file_status f =? 0 then overlay (file_store f) c else c)
          (fun _ => false) with
  | inr c' => file_status f = 0 /\ c' = overlays c [layer f]
  | inl r => file_status f <> 0 /\ fst r < 0
  end.
Proof.
  unfold load_step, layer, overlays. cbn [fst snd foldl].
  destruct (file_status f =? 0) eqn:E0; [split; [lia|done]|].
  destruct (file_status f <? 0) eqn:E1; cbn [fst]; [lia|unfold EINVAL; lia].
Qed.

Lemma default_step file c :
  step_ok (forall f, file = Some f -> file_status f = 0) (file_layers file) c
    match file with
    | None => mret (inr c)
    | Some f => r ← cfg_load_from_file c (Some f); mret (load_step r (fun _ => false))
    end.
Proof.
  intros k. destruct file as [f|]; [|by apply wp_ret].
  apply wp_load_file_step. intros k'. pose proof (strict_step f c) as H.
  destruct (load_step _ _) as [r|c']; destruct H as [H1 H2]; (split; [|exact H2]).
  - intros H. by apply H1, H.
  - by intros f' [= <-].
Qed.

Lemma etc_step file c :
  step_ok (forall f, file = Some f -> file_status f = 0 \/ file_status f = - ENOENT) (file_layers file) c
    match file with
    | None => mret (inr c)
    | Some f => r ← cfg_load_from_file c (Some f); mret (load_step r (fun r => r =? - ENOENT))
    end.
Proof.
  intros k. destruct file as [f|]; [|by apply wp_ret].
  apply wp_load_file_step. intros k'. unfold load_step, file_layers, layer, overlays. cbn [fst snd foldl].
  destruct (file_status f =? 0) eqn:E0; [split; [|done]; intros f' [= <-]; lia|].
  destruct (file_status f =? - ENOENT) eqn:E2.
  { split; [intros f' [= <-]; lia|]. by rewrite overlay_empty. }
  destruct (file_status f <? 0) eqn:E1; cbn [fst]; (split; [intros H; specialize (H f eq_refl); lia|]); [lia|].
  unfold EINVAL. lia.
Qed.

Lemma dir_step dir c :
  step_ok (forall d, dir = Some d -> dir_ok d) (dir_layers dir) c
    match dir with
    | None => mret (inr c)
    | Some d => r ← cfg_load_from_dir c d; mret (load_step r (fun _ => false))
    end.
Proof.
  intros k. destruct dir as [d|]; [|by apply wp_ret]. apply wp_bind.
  unfold cfg_load_from_dir, dir_layers, dir_ok, conf_files.
  destruct (dir_access_error d =? 0) eqn:Ea; cbn [negb].
  2: { apply wp_ret, wp_ret. cbn. split; [|done]. intros d' [= <-]. left. lia. }
  destruct (scandir d) as [e|names] eqn:Escan.
  { apply wp_ret, wp_ret. pose proof (scandir_errno d e Escan). unfold load_step. cbn [fst snd].
    rewrite (proj2 (Z.eqb_neq _ _)), (proj2 (Z.ltb_lt _ _)) by lia. split; [|cbn; lia].
    intros H'. destruct (H' d eq_refl) as [?|[[names Hn] _]]; [lia|congruence]. }
  set (files := map _ (List.filter _ names)). destruct (decide (Forall (fun f => 0 <= file_status f) files)) as [Hall|Hall].
  - apply (wp_load_files d _ c 0); [exact Hall|]. intros k'. fold files. apply wp_ret.
    unfold load_step. cbn [fst snd]. set (r := default 0 (last (map file_status files))).
    destruct (r =? 0) eqn:Er.
    { split; [|done]. intros d' [= <-]. right. split; [by exists names|].
      rewrite Ea, Escan. split; [exact Hall|]. by apply Z.eqb_eq. }
    assert (~ conf_files_ok files) as Hno by (intros [_ ?]; lia).
    assert (~ (forall d0, Some d = Some d0 -> dir_access_error d0 <> 0 \/
      (exists names0, scandir d0 = inr names0) /\
      conf_files_ok (if dir_access_error d0 =? 0 then match scandir d0 with
        | inl _ => [] | inr files0 => map (fun f => (d0 ++ "/" ++ f)%string)
                         (List.filter is_file_name_ending_with_conf files0) end else []))) as Hno'.
    { intros H. destruct (H d eq_refl) as [?|[_ H']]; [lia|]. rewrite Ea, Escan in H'. done. }
    destruct (r <? 0) eqn:Er'; (split; [exact Hno'|]); cbn [fst]; [lia|unfold EINVAL; lia].
  - eapply wp_mono; [by apply (wp_load_files_fail d _ c 0)|]. cbn beta. intros r k' Hr. apply wp_ret.
    unfold load_step. rewrite (proj2 (Z.eqb_neq _ _)), (proj2 (Z.ltb_lt _ _)) by lia. split; [|done].
    intros H. destruct (H d eq_refl) as [?|[_ [H' _]]]; [lia|]. rewrite Ea, Escan in H'. done.
Qed.
End sources.

(** C32. When no allocation fails: loading the configuration succeeds exactly when
    every source could be read and parsed (an absent file in /etc is no error;
    of the drop-in files only the parse result of the last one counts), a
    failure is a negative number, and on success the value of an option is the
    one of the last source that mentions it: the initial options, the default
    file, the file in /etc, the drop-in files in order, the environment, the
    file named on the command line. *)
Theorem configuration_precedence {E : CfgEnv} {L : CfgEnvLaws E} (Halloc : all_alloc E)
  (config : config_t) (default_file etc_file etc_dir cli_file : option string) (k : nat) :
  let run := cfg_load_complete_configuration config default_file etc_file etc_dir cli_file in
  let layers := file_layers default_file ++ file_layers etc_file ++ dir_layers etc_dir ++
                [env_layer (default_section config)] ++ file_layers cli_file in
  (sources_ok default_file etc_file etc_dir cli_file ->
   wp run (fun r _ => fst r = 0 /\ default_section (snd r) = default_section config /\
     forall key, cfg_store (snd r) !! key =
       last (omap (fun m : store => m !! key) (cfg_store config :: layers))) k) /\
  (~ sources_ok default_file etc_file etc_dir cli_file -> wp run (fun r _ => fst r < 0) k).
Proof.
  intros run layers. set (ok := sources_ok default_file etc_file etc_dir cli_file).
  assert (wp run (fun r _ => (ok /\ r = (0, overlays config layers)) \/ (~ ok /\ fst r < 0)) k) as H.
  2: { split; intros Hok; (eapply wp_mono; [exact H|]); cbn beta; intros r k' [[? ->]|[? ?]]; try done.
       cbn [fst snd]. split_and!; [done|apply overlays_section|]. intros key. apply overlays_lookup. }
  unfold run, cfg_load_complete_configuration.
  apply wp_bind. eapply wp_mono; [apply (default_step Halloc)|]. cbn beta.
  intros [r|c1] k1 [Hok1 H1]; [apply wp_ret; right; split; [|done]; by intros [? _]|]. subst c1.
  apply wp_bind. eapply wp_mono; [apply (etc_step Halloc)|]. cbn beta.
  intros [r|c2] k2 [Hok2 H2]; [apply wp_ret; right; split; [|done]; by intros (_ & ? & _)|]. subst c2.
  apply wp_bind. eapply wp_mono; [apply (dir_step Halloc)|]. cbn beta.
  intros [r|c3] k3 [Hok3 H3]; [apply wp_ret; right; split; [|done]; by intros (_ & _ & ? & _)|]. subst c3.
  apply wp_bind. unfold cfg_load_from_env. set (c3 := overlays _ (dir_layers etc_dir)).
  eapply (wp_load_env_vars Halloc (default_section config)).
  { unfold c3. by rewrite !overlays_section. }
  { apply (bool_decide_unpack _). reflexivity. }
  intros k4. fold (env_layer (default_section config)). set (c4 := overlay _ c3).
  assert (overlays config layers = overlays c4 (file_layers cli_file)) as ->.
  { unfold layers, c4, c3, overlays. by rewrite !foldl_app. }
  destruct cli_file as [f|].
  - cbn [snd]. apply wp_bind, (wp_cfg_load_from_file Halloc). intros k5.
    pose proof (strict_step f c4) as H. destruct (load_step _ _) as [r|c5]; destruct H as [Hf H4]; apply wp_ret.
    + right. split; [|done]. intros (_ & _ & _ & Hcli). by apply Hf, Hcli.
    + left. subst c5. split; [|done]. split_and!; [done..|]. by intros f' [= <-].
  - apply wp_ret. left. done.
Qed.

(** A machine with a few configuration files: the second drop-in file has a
    syntax error in its third line. *)
Definition sample_ini (file : string) : list (string * string * string) :=
  if decide (file = "base.conf"%string) then
    [("bluechi-controller", "AllowedNodeNames", "n1,"); ("bluechi-controller", "AllowedNodeNames", "n2");
     ("bluechi-controller", "LogLevel", "DEBUG")]%string
  else if decide (file = "conf.d/1.conf"%string) then [("bluechi-controller", "LogLevel", "WARN")]%string
  else if decide (file = "conf.d/2.conf"%string) then [("bluechi-controller", "LogLevel", "ERROR")]%string
  else [].
#[export] Instance sample_cfg_env : CfgEnv := {|
  alloc_ok := fun _ => true;
  store_order := fun m => (map_to_list m).*1;
  section_order := elements;
  access_error := fun f => if decide (f = "missing.conf"%string) then ENOENT else 0;
  ini_calls := sample_ini;
  ini_result := fun f rs =>
    if bool_decide (Forall (fun r => r <> 0) rs) then
      if decide (f = "conf.d/2.conf"%string) then 3 else 0
    else 1;
  dir_access_error := fun _ => 0;
  scandir := fun d => if decide (d = "conf.d"%string) then inr ["1.conf"; "README"; "2.conf"; "3.conf"]%string
                      else inr ["1.conf"]%string;
  getenv := fun v => if decide (v = "BC_LOG_TARGET"%string) then Some "stderr"%string else None;
  hostname := Some "host"%string;
|}.
#[export] Instance sample_cfg_laws : CfgEnvLaws sample_cfg_env.
Proof.
  split; cbn; [done|done| |].
  - intros f rs. by case_bool_decide.
  - intros d e. by case_decide.
Qed.
Lemma sample_all_alloc : all_alloc sample_cfg_env. Proof. done. Qed.

Definition sample_config : config_t := mkConfig ∅ CFG_SECT_BLUECHI.

Lemma sample_sources_ok : sources_ok (Some "base.conf"%string) (Some "missing.conf"%string) (Some "conf.d"%string) None.
Proof.
  split_and!; [|intros f [= <-]; by right|intros d [= <-]; right|done].
  - by intros f [= <-].
  - split; [by eexists|]. split; [|done]. repeat (constructor; [by vm_compute|]). constructor.
Qed.

Lemma configuration_precedence_witness :
  sources_ok (Some "base.conf"%string) (Some "missing.conf"%string) (Some "conf.d"%string) None /\
  wp (cfg_load_complete_configuration sample_config (Some "base.conf") (Some "missing.conf")
        (Some "conf.d") None)
     (fun r _ => fst r = 0 /\ default_section (snd r) = CFG_SECT_BLUECHI /\
        forall key, cfg_store (snd r) !! key =
          last (omap (fun m : store => m !! key)
            (∅ :: (file_layers (Some "base.conf") ++ file_layers (Some "missing.conf") ++
                   dir_layers (Some "conf.d") ++ [env_layer CFG_SECT_BLUECHI] ++ file_layers None)))) O.
Proof.
  split; [apply sample_sources_ok|].
  apply (proj1 (configuration_precedence sample_all_alloc sample_config (Some "base.conf"%string)
    (Some "missing.conf"%string) (Some "conf.d"%string) None O) sample_sources_ok).
Defined.

(** A drop-in file that cannot be parsed stops the loading only when it is the
    last one: otherwise its error is overwritten by the result of the next file,
    and its options are dropped without notice. *)
Theorem conf_d_parse_error_lost {E : CfgEnv} {L : CfgEnvLaws E} (Halloc : all_alloc E)
  (config : config_t) (dir bad : string) (k : nat)
  (Hopen : Forall (fun f => 0 <= file_status f) (conf_files dir))
  (Hscan : dir_access_error dir = 0 /\ exists names, scandir dir = inr names)
  (Hbad : bad ∈ conf_files dir) (Hline : 0 < file_status bad)
  (Hlast : default 0 (last (map file_status (conf_files dir))) = 0) :
  layer bad = ∅ /\
  wp (cfg_load_from_dir config dir)
     (fun r _ => r = (0, overlays config (map layer (conf_files dir)))) k.
Proof.
  split; [unfold layer; by rewrite (proj2 (Z.eqb_neq _ _)) by lia|].
  destruct Hscan as [Ha [names Hn]]. unfold conf_files in *. rewrite Ha, Hn in *.
  cbn [Z.eqb] in *. unfold cfg_load_from_dir. rewrite Ha. cbn [Z.eqb negb]. rewrite Hn.
  apply (wp_load_files Halloc dir _ config 0); [exact Hopen|]. intros k'. by rewrite Hlast.
Qed.

Lemma conf_d_parse_error_lost_witness :
  layer "conf.d/2.conf" = ∅ /\
  wp (cfg_load_from_dir sample_config "conf.d")
     (fun r _ => r = (0, overlays sample_config (map layer (conf_files "conf.d")))) O.
Proof.
  apply (conf_d_parse_error_lost sample_all_alloc sample_config "conf.d" "conf.d/2.conf" O).
  - repeat (constructor; [by vm_compute|]). constructor.
  - split; [done|by eexists].
  - right. left.
  - done.
  - done.
Defined.

(** ** Listing *)

Lemma str_compare_trans a : forall b c, String.compare a b <> Gt -> String.compare b c <> Gt ->
  String.compare a c <> Gt.
Proof.
  induction a as [|x a IH]; intros [|y b] [|z c]; cbn; try done.
  unfold Ascii.compare. destruct (N.compare_spec (N_of_ascii x) (N_of_ascii y)) as [Hxy|Hxy|Hxy],
    (N.compare_spec (N_of_ascii y) (N_of_ascii z)) as [Hyz|Hyz|Hyz]; try done; intros H1 H2.
  - rewrite Hxy, Hyz, N.compare_refl. eauto.
  - rewrite Hxy. by rewrite (proj2 (N.compare_lt_iff _ _) Hyz).
  - rewrite <- Hyz. by rewrite (proj2 (N.compare_lt_iff _ _) Hxy).
  - assert (N_of_ascii x < N_of_ascii z)%N as H by lia. by rewrite (proj2 (N.compare_lt_iff _ _) H).
Qed.

#[export] Instance str_le_trans : Transitive str_le.
Proof.
  intros a b c. unfold str_le, strcmp. pose proof (str_compare_trans a b c) as H.
  destruct (String.compare a b), (String.compare b c), (String.compare a c); try lia; exfalso; by apply H.
Qed.
#[export] Instance str_le_total : Total str_le.
Proof.
  intros a b. unfold str_le, strcmp. rewrite (String.compare_antisym a b).
  destruct (String.compare b a); cbn; lia.
Qed.

(** When no allocation fails, the sections are listed sorted, each one once,
    and a section is listed exactly when some option of it is set. *)
Theorem cfg_list_sections_correct {E : CfgEnv} {L : CfgEnvLaws E} (Halloc : all_alloc E)
  (config : config_t) (k : nat) :
  wp (cfg_list_sections config)
     (fun r _ => exists l, r = Some l /\ StronglySorted str_le l /\ NoDup l /\
        forall s, s ∈ l <-> exists name, is_Some (cfg_store config !! (s, name))) k.
Proof.
  unfold cfg_list_sections. do 3 (apply wp_bind, (wp_alloc Halloc); intros ?; cbn [negb]).
  apply wp_ret. eexists. split; [done|]. set (l := section_order _).
  split; [apply StronglySorted_merge_sort; apply _|].
  assert (merge_sort str_le l ≡ₚ elements (sections_of (cfg_store config))) as Hp.
  { unfold l. by rewrite merge_sort_Permutation, section_order_perm. }
  split; [rewrite Hp; apply NoDup_elements|].
  intros s. rewrite Hp, elem_of_elements. unfold sections_of.
  rewrite elem_of_list_to_set, list_elem_of_fmap. split.
  - intros ([s' name] & -> & ([key v] & Hkey & Hin%elem_of_map_to_list)%list_elem_of_fmap).
    cbn in Hkey. subst key. by exists name, v.
  - intros (name & v & Hv). exists (s, name). split; [done|]. apply list_elem_of_fmap.
    exists ((s, name), v). split; [done|]. by apply elem_of_map_to_list.
Qed.

Lemma cfg_list_sections_correct_witness :
  wp (cfg_list_sections (mkConfig {[("b", "x")%string := None; ("a", "y")%string := Some "1"%string]} ""))
     (fun r _ => exists l, r = Some l /\ StronglySorted str_le l /\ NoDup l /\
        forall s, s ∈ l <-> exists name, is_Some
          (({[("b", "x")%string := None; ("a", "y")%string := Some "1"%string]} : store) !! (s, name))) O.
Proof. exact (cfg_list_sections_correct sample_all_alloc _ O). Defined.
