(* ===== verification/SocketTheorems.v ===== *)
(** Sockets: no descriptor is lost when a listening socket cannot be set up, the
    TCP options stay within the limits of the kernel, and what becomes of an
    interrupted [accept]. *)
From S2P Require Import Prelude CString StringUtil ParseUtil Protocol Log Cfg Socket World Job Events.
From S2P Require Import Subscriptions Monitor Proxy Requests Node Controller Sample CfgTheorems.
Local Open Scope list_scope.

(** The kernel hands out descriptors that are not negative, and error numbers
    that are positive. *)
Class KernelLaws (K : Kernel) := {
  answer_errno : forall k c e, sys_answer k c = inl e -> 0 < e;
  answer_fd : forall k d fd, sys_answer k (SysSocket d) = inr fd -> 0 <= fd;
}.

Fixpoint close_one (fd : Z) (fds : list Z) : list Z :=
  match fds with
  | [] => []
  | x :: fds => if decide (x = fd) then fds else x :: close_one fd fds
  end.
(** The open descriptors, latest first, after the calls [cs], the first of which is the
    [k]-th call. *)
Fixpoint still_open `{Kernel} (k : nat) (fds : list Z) (cs : list syscall) : list Z :=
  match cs with
  | [] => fds
  | c :: cs' =>
      still_open (S k)
        match c with
        | SysSocket _ => match sys_answer k c with inr fd => fd :: fds | inl _ => fds end
        | SysClose fd => close_one fd fds
        | _ => fds
        end cs'
  end.

Section socket.
Context {K : Kernel} {L : KernelLaws K}.

Lemma wp_sys c Q (t : syscalls) :
  Q (sys_answer (Datatypes.length t) c) (t ++ [c]) -> wp (sys c) Q t.
Proof. done. Qed.

(** The calls leave [new] open, and everything that was open before. *)
Definition leaves_open (k : nat) (new : list Z) (cs : list syscall) : Prop :=
  forall fds, still_open k fds cs = new ++ fds.

(** What a function that sets up a socket guarantees: it returns the only
    descriptor it leaves open, bound and listening, or, when a call fails, an error, and
    leaves none. *)
Definition listening (addr_ok : address -> Prop) (t : syscalls) (r : Z) (t' : syscalls) : Prop :=
  exists cs, t' = t ++ cs /\
    if 0 <=? r then
      leaves_open (Datatypes.length t) [r] cs /\ SysListen r ∈ cs /\
      exists a, addr_ok a /\ SysBind r a ∈ cs
    else leaves_open (Datatypes.length t) [] cs /\ exists k c e, sys_answer k c = inl e.

(** One more call that opens nothing. *)
Lemma still_open_app k fds cs1 cs2 :
  still_open k fds (cs1 ++ cs2) =
  still_open (k + Datatypes.length cs1) (still_open k fds cs1) cs2.
Proof.
  revert k fds. induction cs1 as [|c cs1 IH]; intros k fds; cbn [app still_open Datatypes.length].
  - by rewrite Nat.add_0_r.
  - rewrite IH. f_equal. lia.
Qed.

Definition opens_nothing (c : syscall) : Prop :=
  match c with SysSocket _ | SysClose _ => False | _ => True end.

Lemma still_open_other k fds c : opens_nothing c -> still_open k fds [c] = fds.
Proof. by destruct c. Qed.
Lemma leaves_open_app k l1 l2 cs1 cs2 :
  leaves_open k l1 cs1 -> leaves_open (k + Datatypes.length cs1) l2 cs2 -> leaves_open k (l2 ++ l1) (cs1 ++ cs2).
Proof. intros H1 H2 fds. by rewrite still_open_app, H1, H2, app_assoc. Qed.
Lemma leaves_open_other k l cs c :
  leaves_open k l cs -> opens_nothing c -> leaves_open k l (cs ++ [c]).
Proof. intros H Hc fds. rewrite still_open_app, H. by apply still_open_other. Qed.
Lemma leaves_open_close k fd cs : leaves_open k [fd] cs -> leaves_open k [] (cs ++ [SysClose fd]).
Proof. intros H fds. rewrite still_open_app, H. cbn. by destruct (decide (fd = fd)). Qed.
Lemma leaves_open_nil k : leaves_open k [] [].
Proof. done. Qed.

(** From the descriptor on: calls that open nothing, the error path closing it. *)
Lemma wp_fail_closing (fd e : Z) k c P (t t0 cs : syscalls) :
  t = t0 ++ cs -> sys_answer k c = inl e -> leaves_open (Datatypes.length t0) [fd] cs ->
  wp (fail_closing fd e) (listening P t0) t.
Proof.
  intros -> Hans Hopen. pose proof (answer_errno _ _ _ Hans) as He. unfold fail_closing. apply wp_bind, wp_sys, wp_ret.
  exists (cs ++ [SysClose fd]). split; [by rewrite app_assoc|].
  rewrite (proj2 (Z.leb_gt _ _)) by lia. split; [by apply leaves_open_close|eauto].
Qed.

(** [bind] and [listen] on an open descriptor. *)
Lemma wp_bind_listen (fd : Z) (a : address) P (t t0 cs : syscalls) :
  t = t0 ++ cs -> 0 <= fd -> leaves_open (Datatypes.length t0) [fd] cs -> P a ->
  wp (r ← sys (SysBind fd a);
      match r with inl errno => fail_closing fd errno | inr _ =>
      r ← sys (SysListen fd);
      match r with inl errno => fail_closing fd errno | inr _ => mret fd end end)
     (listening P t0) t.
Proof.
  intros Ht Hfd Hopen Ha. apply wp_bind, wp_sys.
  assert (leaves_open (Datatypes.length t0) [fd] (cs ++ [SysBind fd a])) as Hopen1
    by (by apply leaves_open_other).
  assert (t ++ [SysBind fd a] = t0 ++ cs ++ [SysBind fd a]) as Ht1 by (subst t; by rewrite app_assoc).
  destruct (sys_answer _ _) as [e|v] eqn:Ee.
  { eapply wp_fail_closing; [exact Ht1|exact Ee|exact Hopen1]. }
  apply wp_bind, wp_sys. rewrite Ht1.
  assert (leaves_open (Datatypes.length t0) [fd] ((cs ++ [SysBind fd a]) ++ [SysListen fd])) as Hopen2
    by (by apply leaves_open_other).
  assert ((t0 ++ cs ++ [SysBind fd a]) ++ [SysListen fd] = t0 ++ (cs ++ [SysBind fd a]) ++ [SysListen fd])
    as Ht2 by (by rewrite <- !app_assoc).
  destruct (sys_answer _ (SysListen fd)) as [e|v'] eqn:Ee'.
  { eapply wp_fail_closing; [exact Ht2|exact Ee'|exact Hopen2]. }
  apply wp_ret. rewrite Ht2. eexists. split; [done|]. rewrite (proj2 (Z.leb_le _ _)) by exact Hfd.
  split_and!; [exact Hopen2|..].
  - apply elem_of_app. right. left.
  - exists a. split; [done|]. rewrite !elem_of_app. left. right. left.
Qed.

Lemma wp_no_socket (e : Z) k c P (t t0 cs : syscalls) :
  t = t0 ++ cs -> sys_answer k c = inl e -> leaves_open (Datatypes.length t0) [] cs ->
  wp (mret (- e)) (listening P t0) t.
Proof.
  intros -> Hans Hopen. pose proof (answer_errno _ _ _ Hans) as He. apply wp_ret. exists cs. split; [done|].
  rewrite (proj2 (Z.leb_gt _ _)) by lia. eauto.
Qed.

Lemma still_open_socket k d fd : sys_answer k (SysSocket d) = inr fd -> leaves_open k [fd] [SysSocket d].
Proof. intros H fds. cbn. by rewrite H. Qed.
Lemma still_open_no_socket k d e : sys_answer k (SysSocket d) = inl e -> leaves_open k [] [SysSocket d].
Proof. intros H fds. cbn. by rewrite H. Qed.

(** After [socket]: [SO_REUSEADDR], then [bind] and [listen]. *)
Lemma wp_tcp_setup (fd port : Z) (v6 : bool) (t t0 cs : syscalls) :
  t = t0 ++ cs -> 0 <= fd -> leaves_open (Datatypes.length t0) [fd] cs ->
  wp (r ← sys (SysSetsockopt fd SO_REUSEADDR 1);
      match r with inl errno => fail_closing fd errno | inr _ =>
      r ← sys (SysBind fd (if v6 then Any6 port else Any4 port));
      match r with inl errno => fail_closing fd errno | inr _ =>
      r ← sys (SysListen fd);
      match r with inl errno => fail_closing fd errno | inr _ => mret fd end end end)
     (listening (fun a => a = Any6 port \/ a = Any4 port) t0) t.
Proof.
  intros Ht Hfd Hopen. apply wp_bind, wp_sys.
  assert (leaves_open (Datatypes.length t0) [fd] (cs ++ [SysSetsockopt fd SO_REUSEADDR 1])) as Hopen1
    by (by apply leaves_open_other).
  assert (t ++ [SysSetsockopt fd SO_REUSEADDR 1] = t0 ++ cs ++ [SysSetsockopt fd SO_REUSEADDR 1]) as Ht1
    by (subst t; by rewrite app_assoc).
  destruct (sys_answer _ _) as [e|v] eqn:Ee.
  { eapply wp_fail_closing; [exact Ht1|exact Ee|exact Hopen1]. }
  eapply wp_bind_listen; [exact Ht1|done|exact Hopen1|]. destruct v6; auto.
Qed.
Lemma wp_create_tcp_socket port t :
  wp (create_tcp_socket port) (listening (fun a => a = Any6 port \/ a = Any4 port) t) t.
Proof.
  unfold create_tcp_socket. apply wp_bind, wp_sys.
  destruct (sys_answer _ (SysSocket AF_INET6)) as [e|fd] eqn:E6.
  + apply wp_bind. destruct (e =? EAFNOSUPPORT).
    * apply wp_bind, wp_sys, wp_ret.
      pose proof (still_open_no_socket _ _ _ E6) as Hopen.
      assert (Datatypes.length (t ++ [SysSocket AF_INET6]) = (Datatypes.length t + 1)%nat) as Hlen
        by apply length_app.
      rewrite Hlen.
      destruct (sys_answer _ (SysSocket AF_INET)) as [e4|fd] eqn:E4.
      -- eapply (wp_no_socket e4 _ _ _ _ t (_ ++ _)); [by rewrite <- app_assoc|exact E4|].
         apply (leaves_open_app _ [] []); [exact Hopen|by eapply still_open_no_socket].
      -- eapply (wp_tcp_setup fd port false _ t (_ ++ _));
           [by rewrite <- app_assoc|by eapply answer_fd|].
         apply (leaves_open_app _ [] [_]); [exact Hopen|by apply still_open_socket].
    * apply wp_ret. eapply wp_no_socket; [done|eassumption|by eapply still_open_no_socket].
  + apply wp_bind, wp_ret.
    eapply (wp_tcp_setup fd port true); [done|by eapply answer_fd|by apply still_open_socket].
Qed.
Lemma wp_create_uds_socket path t :
  wp (create_uds_socket path) (listening (fun a => a = UnixPath (str_take 107 path)) t) t.
Proof.
  unfold create_uds_socket. apply wp_bind, wp_sys.
  destruct (sys_answer _ _) as [e|fd] eqn:Efd.
  + eapply wp_no_socket; [done|eassumption|by eapply still_open_no_socket].
  + eapply wp_bind_listen; [done|by eapply answer_fd|by apply still_open_socket|done].
Qed.
End socket.

(** Whatever call fails, the functions that open a listening socket either
    return the one descriptor they leave open, bound to the address asked for and
    listening, or a negative error and leave nothing open. *)
Theorem listening_sockets_do_not_leak {K : Kernel} {L : KernelLaws K} (port : Z) (path : string)
  (t : syscalls) :
  wp (create_tcp_socket port) (listening (fun a => a = Any6 port \/ a = Any4 port) t) t /\
  wp (create_uds_socket path) (listening (fun a => a = UnixPath (str_take 107 path)) t) t.
Proof. split; [apply wp_create_tcp_socket|apply wp_create_uds_socket]. Qed.

(** A kernel without IPv6 on which [bind] fails and [accept] is interrupted. *)
#[export] Instance sample_kernel : Kernel := {|
  sys_answer := fun k c =>
    match c with
    | SysSocket AF_INET6 => inl EAFNOSUPPORT
    | SysBind _ _ => inl EADDRINUSE
    | SysAccept _ => inl EINTR
    | _ => inr 5
    end;
  socket_domain := fun _ => Some AF_INET;
  peer_ucred := fun _ => mkUcred 1 0 true;
  geteuid := 0;
|}.
#[export] Instance sample_kernel_laws : KernelLaws sample_kernel.
Proof.
  split.
  - by intros k [[]| | | | | | | |] e [= <-].
  - by intros k [] fd [= <-].
Qed.

Lemma listening_sockets_do_not_leak_witness :
  wp (create_tcp_socket 842) (listening (fun a => a = Any6 842 \/ a = Any4 842) []) [] /\
  wp (create_uds_socket "/run/bluechi/bluechi.sock")
     (listening (fun a => a = UnixPath (str_take 107 "/run/bluechi/bluechi.sock")) []) [].
Proof. exact (listening_sockets_do_not_leak 842 "/run/bluechi/bluechi.sock" []). Defined.

(** ** Socket options *)

Definition options_ok (o : SocketOptions) : Prop :=
  0 <= tcp_keepidle o <= MAX_TCP_KEEPIDLE /\ 0 <= tcp_keepintvl o <= MAX_TCP_KEEPINTVL /\
  0 <= tcp_keepcnt o <= MAX_TCP_KEEPCNT.

(** A call the kernel takes: keep-alive settings from 1 to their limits. *)
Definition option_call_ok (fd : Z) (c : syscall) : Prop :=
  match c with
  | SysGetDomain fd' => fd' = fd
  | SysSetsockopt fd' opt v =>
      fd' = fd /\
      match opt with
      | TCP_KEEPIDLE => 1 <= v <= MAX_TCP_KEEPIDLE
      | TCP_KEEPINTVL => 1 <= v <= MAX_TCP_KEEPINTVL
      | TCP_KEEPCNT => 1 <= v <= MAX_TCP_KEEPCNT
      | SO_REUSEADDR => False
      | _ => v = 1
      end
  | _ => False
  end.

Lemma wp_set_options `{Kernel} fd l : forall t0 t cs,
  t = t0 ++ cs -> Forall (option_call_ok fd) cs ->
  Forall (fun x : bool * (sock_opt * Z) =>
    fst x = true -> option_call_ok fd (SysSetsockopt fd (fst (snd x)) (snd (snd x)))) l ->
  wp (set_options fd l) (fun _ t' => exists cs, t' = t0 ++ cs /\ Forall (option_call_ok fd) cs) t.
Proof.
  induction l as [|[[] [opt v]] l IH]; intros t0 t cs Ht Hcs Hl; cbn [set_options].
  - apply wp_ret. eauto.
  - apply Forall_cons in Hl as [Hx Hl]. unfold setsockopt. apply wp_bind, wp_bind, wp_sys, wp_ret.
    assert (t ++ [SysSetsockopt fd opt v] = t0 ++ cs ++ [SysSetsockopt fd opt v]) as Ht'
      by (subst t; by rewrite app_assoc).
    assert (Forall (option_call_ok fd) (cs ++ [SysSetsockopt fd opt v])) as Hcs'
      by (apply Forall_app; split; [done|]; constructor; [by apply Hx|constructor]).
    destruct (sys_answer _ _) as [e|]; [apply wp_ret; eauto|by eapply IH].
  - apply Forall_cons in Hl as [_ Hl]. by eapply IH.
Qed.

Lemma parse_bounded_range max s v : parse_bounded max s = Some v -> 0 <= v <= max.
Proof.
  unfold parse_bounded. destruct (parse_long s) as [x|]; [|done].
  destruct ((x <? 0) || (max <? x)) eqn:Eb; [done|]. intros [= <-]. lia.
Qed.

(** The keep-alive options stay within the limits of the kernel whatever text
    they are set from, and with them a socket is only ever given settings within
    these limits, on its own descriptor. *)
Theorem socket_options_bounded {K : Kernel} (o : SocketOptions) (s : option string) (b : bool)
  (fd : Z) (t : syscalls) (Ho : options_ok o) :
  options_ok (snd (socket_options_set_tcp_keepidle o s)) /\
  options_ok (snd (socket_options_set_tcp_keepintvl o s)) /\
  options_ok (snd (socket_options_set_tcp_keepcnt o s)) /\
  options_ok (snd (socket_options_set_ip_recverr o b)) /\
  wp (socket_set_options fd (Some o))
     (fun _ t' => exists cs, t' = t ++ cs /\ Forall (option_call_ok fd) cs) t.
Proof.
  split_and!.
  - unfold socket_options_set_tcp_keepidle. destruct (parse_bounded _ s) eqn:Ep; [|done].
    apply parse_bounded_range in Ep. unfold options_ok in *. cbn. tauto.
  - unfold socket_options_set_tcp_keepintvl. destruct (parse_bounded _ s) eqn:Ep; [|done].
    apply parse_bounded_range in Ep. unfold options_ok in *. cbn. tauto.
  - unfold socket_options_set_tcp_keepcnt. destruct (parse_bounded _ s) eqn:Ep; [|done].
    apply parse_bounded_range in Ep. unfold options_ok in *. cbn. tauto.
  - exact Ho.
  - unfold socket_set_options, fd_is_socket_tcp. apply wp_bind, wp_bind, wp_sys.
    assert (Forall (option_call_ok fd) [SysGetDomain fd]) as Hcs by (constructor; [done|constructor]).
    destruct (sys_answer _ _); apply wp_ret; [apply wp_ret; eauto|].
    destruct (match socket_domain fd with Some AF_INET | Some AF_INET6 => true | _ => false end);
      cbn [negb]; [|apply wp_ret; eauto].
    eapply wp_set_options; [done|exact Hcs|].
    destruct o as [idle intvl cnt err]. unfold options_ok in Ho. cbn in *.
    repeat (constructor; [cbn; first [intros ?%negb_true_iff|intros _]; (split; [done|lia])|]).
    constructor.
Qed.

Lemma socket_options_bounded_witness :
  options_ok (mkSocketOptions 1 1 6 true) /\
  options_ok (snd (socket_options_set_tcp_keepidle (mkSocketOptions 1 1 6 true) (Some "40000"%string))).
Proof.
  assert (options_ok (mkSocketOptions 1 1 6 true)) as Ho by (vm_compute; intuition discriminate).
  split; [exact Ho|].
  exact (proj1 (socket_options_bounded (mkSocketOptions 1 1 6 true) (Some "40000"%string) true 5 [] Ho)).
Defined.

(** ** Interrupted connections *)

(** An [accept] that is interrupted or finds nothing returns 0, which the handler
    of incoming connections takes for a descriptor: when the server connection
    opens on it, the handler registers an anonymous node for it. *)
Theorem interrupted_accept_registers {K : Kernel} (fd errno : Z) (t : syscalls)
  (Herr : sys_answer (Datatypes.length t) (SysAccept fd) = inl errno)
  (Hint : errno = EAGAIN \/ errno = EINTR) :
  wp (accept_connection_request fd)
     (fun nfd _ => nfd = 0 /\
        wp (controller_accept_node_connection nfd (Some 110%positive))
           (fun r w' => r = 0 /\ c_anonymous_nodes (w_controller w') = [3%positive; 50%positive])
           sample_world) t.
Proof.
  unfold accept_connection_request. apply wp_bind. unfold sys, wp at 1. rewrite Herr.
  assert ((errno =? EAGAIN) || (errno =? EINTR) = true) as -> by (destruct Hint as [-> | ->]; done).
  apply wp_ret. split; [done|]. by vm_compute.
Qed.
