(* ===== verification/LifecycleTheorems.v ===== *)
(** Starting, stopping, restarting and reloading a unit: from the request of the
    client over the call to the agent to the job the client is given. *)
From S2P Require Import Prelude CString StringUtil ParseUtil TimeUtil Protocol Log World Job Events.
From S2P Require Import Subscriptions Monitor Proxy Requests.
From S2P Require Import WorldFacts EventFacts RegistryFacts Sample NodeTheorems.
From S2P Require Import RequestTheorems.
Local Open Scope list_scope.

(** Addresses that were not handed out yet hold nothing. *)
Record fresh (w : World) : Prop := {
  fresh_reqs : forall q, (w_next_ptr w <= q)%positive -> w_reqs w !! q = None;
  fresh_setups : forall q, (w_next_ptr w <= q)%positive -> w_setups w !! q = None;
  fresh_jobs : forall q, (w_next_ptr w <= q)%positive -> w_jobs w !! q = None;
  fresh_out : forall p n q, w_nodes w !! p = Some n -> q ∈ node_outstanding_requests n ->
    (q < w_next_ptr w)%positive;
}.

Section lifecycle.
Context {E : Env} (Hnf : no_local_failure E) (Hbus : no_bus_failure E).

(** One step when nothing fails. *)
Ltac nf_one :=
  lazymatch goal with
  | |- wp local_ok _ _ => apply (wp_local_ok_nf Hnf); cbn [negb]
  | |- wp local _ _ => apply (wp_local_nf Hnf); let r := fresh "r" in let H := fresh "Hr" in
      intros r H; rewrite ?H
  | |- wp (bus _) _ _ => apply (wp_bus_nf Hbus); let r := fresh "r" in let H := fresh "Hr" in
      intros r H; rewrite ?H
  | |- wp (load _) _ _ => eapply wp_load; [wp_lookup|]
  | |- wp (update _ _) _ _ => eapply wp_update; [wp_lookup|]
  | |- wp (free _) _ _ => eapply wp_free; [wp_lookup|]
  | _ => wp_one
  end.
Ltac nf_run := repeat nf_one.

Definition waiting_job (p : ptr) (id : Z) (type unit : string) : Job :=
  mkJob 1 p JOB_WAITING id (JOB_OBJECT_PATH_PREFIX ++ "/" ++ fmt_u id) type unit false 0 0.

(** The state with a job that is set up for the request [m]. *)
Definition with_setup (m p : ptr) (type unit : string) (w : World) : World :=
  let id := next_u32 (w_next_job_id w) in
  w <| w_setups ::= <[w_next_ptr w := mkJobSetup 1 m (Some (Pos.succ (w_next_ptr w)))]> |>
    <| w_jobs ::= <[Pos.succ (w_next_ptr w) := waiting_job p id type unit]> |>
    <| w_next_job_id := id |>
    <| w_next_ptr ::= fun q => Pos.succ (Pos.succ q) |>.

Lemma wp_job_setup_new m p unit type Q w :
  (forall w', quiet (with_setup m p type unit w) w' -> w_trace w' = w_trace w ->
     Q (Some (w_next_ptr w)) w') ->
  wp (job_setup_new m p unit type) Q w.
Proof.
  intros HQ. unfold job_setup_new, job_new. nf_run.
  apply HQ; [|done]. unfold quiet, erase, with_setup. destruct w; cbn.
  f_equal; by rewrite !insert_insert_eq.
Qed.

(** The job is exported, announced, listed and given to the client. *)
Definition listed_job (p : ptr) (id : Z) (type unit : string) : Job :=
  (waiting_job p id type unit) <| job_export_slot := true |>.
Definition with_listed_job (q : ptr) (j : Job) (w : World) : World :=
  w <| w_jobs ::= <[q := j]> |>
    <| w_controller ::= fun c => c <| c_jobs ::= fun l => l ++ [q] |> |>.

Lemma wp_controller_add_job_nf q j n Q w :
  w_jobs w !! q = Some j -> w_nodes w !! job_node j = Some n ->
  (forall w', quiet (with_listed_job q (j <| job_export_slot := true |> <| job_ref_count ::= Z.succ |>) w) w' ->
     w_trace w' = w_trace w ++ [ApiAddVtable (job_object_path j) JOB_INTERFACE;
        ApiEmitSignal BC_CONTROLLER_OBJECT_PATH CONTROLLER_INTERFACE "JobNew"
          [VUint (job_id j); VObject (job_object_path j)]] -> Q true w') ->
  wp (controller_add_job q) Q w.
Proof.
  intros Hj Hn HQ. unfold controller_add_job, job_export, job_ref. nf_run. cbn [negb]. nf_run.
  apply HQ.
  - unfold quiet, erase, with_listed_job. destruct w; cbn. f_equal. by rewrite !insert_insert_eq.
  - cbn. by rewrite <- app_assoc.
Qed.

Lemma quiet_setups w w' : quiet w w' -> w_setups w' = w_setups w.
Proof. intros H. symmetry. exact (f_equal w_setups H). Qed.
Lemma quiet_reqs w w' : quiet w w' -> w_reqs w' = w_reqs w.
Proof. intros H. symmetry. exact (f_equal w_reqs H). Qed.
Lemma quiet_next w w' : quiet w w' -> w_next_ptr w' = w_next_ptr w.
Proof. intros H. symmetry. exact (f_equal w_next_ptr H). Qed.

Definition lifecycle_request (p : ptr) (method unit mode : string) (id : Z) (setup : ptr) :
    AgentRequest :=
  mkAgentRequest 1 p true method [VString unit; VString mode; VUint id]
    (unit_lifecycle_method_callback setup) false.

(** The agent was called and has not answered. *)
Definition called (m p : ptr) (n : Node) (unit mode type method : string) (w : World) : World :=
  with_request p n (lifecycle_request p method unit mode (next_u32 (w_next_job_id w)) (w_next_ptr w))
    (with_setup m p type unit (w <| w_clocks ::= S |>)).

(** Updates of single fields commute with quiet steps. *)
Lemma quiet_with_setups g w w' : quiet w w' -> quiet (w <| w_setups ::= g |>) (w' <| w_setups ::= g |>).
Proof. intros H. exact (f_equal (fun w => w <| w_setups ::= g |>) H). Qed.
Lemma quiet_with_jobs g w w' : quiet w w' -> quiet (w <| w_jobs ::= g |>) (w' <| w_jobs ::= g |>).
Proof. intros H. exact (f_equal (fun w => w <| w_jobs ::= g |>) H). Qed.
Lemma quiet_with_request p n r w w' : quiet w w' -> quiet (with_request p n r w) (with_request p n r w').
Proof. intros H. exact (f_equal (with_request p n r) H). Qed.

Lemma wp_lifecycle_call m p n b ts unit mode type method Q w :
  clock_realtime (w_clocks w) = Some ts -> c_metrics_enabled (w_controller w) = false ->
  w_nodes w !! p = Some n -> node_agent_bus n = Some b -> node_is_shutdown n = false ->
  (forall w', quiet (called m p n unit mode type method w) w' ->
     w_trace w' = w_trace w ++ [AgentCallAsync b method
       [VString unit; VString mode; VUint (next_u32 (w_next_job_id w))]
       (Pos.succ (Pos.succ (w_next_ptr w)))] -> Q 1 w') ->
  wp (node_run_unit_lifecycle_method m (ReadOk (unit, mode)) p type method) Q w.
Proof.
  intros Hclock Hmetrics Hn Hb Hup HQ. unfold node_run_unit_lifecycle_method.
  apply wp_bind. unfold get_time_micros, wp at 1. rewrite Hclock.
  set (w0 := w <| w_clocks ::= S |>). apply wp_bind. eapply wp_load; [exact Hn|]. rewrite Hup.
  apply wp_bind, wp_job_setup_new. intros w1 Hq1 Ht1.
  assert (w_setups w1 !! w_next_ptr w = Some (mkJobSetup 1 m (Some (Pos.succ (w_next_ptr w))))) as Hs1
    by (rewrite (quiet_setups _ _ Hq1); apply lookup_insert_eq).
  wp_one. wp_one. rewrite (quiet_controller _ _ Hq1). wp_one. eapply wp_load; [exact Hs1|].
  change (c_metrics_enabled (w_controller (with_setup m p type unit w0)))
    with (c_metrics_enabled (w_controller w)). rewrite Hmetrics. wp_one. wp_one.
  unfold job_setup_ref. wp_one. wp_one. eapply wp_update; [exact Hs1|]. apply wp_ret.
  set (w2 := store_upd _ w1).
  assert (w_nodes w2 !! p = Some n) as Hn2.
  { change (w_nodes w2) with (w_nodes w1). by rewrite (quiet_nodes _ _ Hq1). }
  assert (w_next_ptr w2 = Pos.succ (Pos.succ (w_next_ptr w))) as Hp2 by exact (quiet_next _ _ Hq1).
  wp_one. eapply (wp_node_create_request Hnf); [exact Hn2|exact Hb|]. intros w3 Hq3 Ht3. cbn [snd].
  rewrite Hp2. cbn [setup_job]. wp_one. wp_one.
  assert (w_jobs w3 !! Pos.succ (w_next_ptr w) =
    Some (waiting_job p (next_u32 (w_next_job_id w)) type unit)) as Hj3.
  { rewrite (quiet_jobs _ _ Hq3). change (w_jobs (with_request p n _ w2)) with (w_jobs w1).
    rewrite (quiet_jobs _ _ Hq1). apply lookup_insert_eq. }
  eapply wp_load; [exact Hj3|]. cbn [job_id waiting_job].
  set (n3 := n <| node_ref_count ::= Z.succ |>
               <| node_outstanding_requests ::= fun l => l ++ [w_next_ptr w2] |>) in *.
  eapply (wp_start_request Hnf Hbus _ n3 b).
  - rewrite (quiet_reqs _ _ Hq3), <- Hp2. apply lookup_insert_eq.
  - done.
  - rewrite (quiet_nodes _ _ Hq3). apply lookup_insert_eq.
  - exact Hb.
  - cbn [req_args req_method]. intros w4 Hq4 Ht4.
    assert (w_setups w4 !! w_next_ptr w = Some (mkJobSetup 2 m (Some (Pos.succ (w_next_ptr w))))) as Hs4.
    { rewrite (quiet_setups _ _ Hq4). change (w_setups w3 !! w_next_ptr w = Some (mkJobSetup 2 m (Some (Pos.succ (w_next_ptr w))))).
      rewrite (quiet_setups _ _ Hq3). apply lookup_insert_eq. }
    wp_one. unfold job_setup_unref. wp_one. eapply wp_update; [exact Hs4|].
    wp_one. eapply wp_load; [apply lookup_insert_eq|]. cbn [setup_ref_count field_update negb Z.eqb Z.pred Z.add].
    apply wp_ret. apply wp_ret. apply HQ; [|cbn; by rewrite Ht4, Ht3; change (w_trace w2) with (w_trace w1); rewrite Ht1].
    etrans; [|apply quiet_with_setups, Hq4].
    etrans; [|apply quiet_with_setups, quiet_with_reqs, Hq3].
    etrans; [|apply quiet_with_setups, quiet_with_reqs, quiet_with_request, quiet_with_setups, Hq1].
    unfold quiet, erase, called, with_request, with_setup, set_node. destruct w; cbn.
    f_equal; by rewrite !insert_insert_eq.
  - done.
Qed.

(** The last reference to the setup takes the setup's reference to the job. *)
Lemma wp_job_setup_unref_last setup m q j Q w :
  w_setups w !! setup = Some (mkJobSetup 1 m (Some q)) -> w_jobs w !! q = Some j ->
  Q tt ((w <| w_jobs ::= if job_ref_count j =? 1 then delete q
                          else <[q := j <| job_ref_count ::= Z.pred |>]> |>)
           <| w_setups ::= delete setup |>) ->
  wp (job_setup_unref setup) Q w.
Proof.
  intros Hs Hj HQ. unfold job_setup_unref, job_unref. wp_one. eapply wp_update; [exact Hs|].
  wp_one. eapply wp_load; [apply lookup_insert_eq|].
  match goal with |- context [negb (?a =? 0)] => change (negb (a =? 0)) with false end.
  cbn iota. wp_one. cbn [setup_job field_update]. wp_one.
  eapply wp_update; [exact Hj|]. wp_one. eapply wp_load; [apply lookup_insert_eq|].
  cbn [job_ref_count field_update]. revert HQ. destruct (job_ref_count j =? 1) eqn:E1; intros HQ.
  - assert ((Z.pred (job_ref_count j) =? 0) = true) as ->
      by (apply Z.eqb_eq in E1; apply Z.eqb_eq; lia). cbn [negb].
    eapply wp_free; [apply lookup_insert_eq|]. eapply wp_free; [apply lookup_insert_eq|].
    revert HQ. destruct w; cbn. rewrite !delete_insert_eq. exact id.
  - assert ((Z.pred (job_ref_count j) =? 0) = false) as ->
      by (apply Z.eqb_neq in E1; apply Z.eqb_neq; lia). cbn [negb].
    apply wp_ret. eapply wp_free; [apply lookup_insert_eq|].
    revert HQ. destruct w; cbn. rewrite delete_insert_eq. exact id.
Qed.

(** What the agent's answer makes of the job, and what the client is told. *)
Definition answered_job (q : ptr) (j : Job) (resp : response) (w : World) : World :=
  match resp with
  | MethodReturn _ => with_listed_job q (j <| job_export_slot := true |>) w
  | MethodError _ => w <| w_jobs ::= delete q |>
  end.
Definition answer_calls (m : ptr) (j : Job) (resp : response) : list call :=
  match resp with
  | MethodReturn _ =>
      [ApiAddVtable (job_object_path j) JOB_INTERFACE;
       ApiEmitSignal BC_CONTROLLER_OBJECT_PATH CONTROLLER_INTERFACE "JobNew"
         [VUint (job_id j); VObject (job_object_path j)];
       ReplyReturn m [VObject (job_object_path j)]]
  | MethodError name => [ReplyError m name]
  end.

Lemma wp_run_lifecycle_callback setup m q j n resp Q w :
  w_setups w !! setup = Some (mkJobSetup 1 m (Some q)) -> w_jobs w !! q = Some j ->
  job_ref_count j = 1 -> w_nodes w !! job_node j = Some n ->
  (forall res w', quiet (match resp with
       | MethodReturn _ => with_listed_job q (j <| job_export_slot := true |> <| job_ref_count := 2 |>) w
       | MethodError _ => w
       end) w' -> w_trace w' = w_trace w ++ answer_calls m j resp -> Q res w') ->
  wp (run_unit_lifecycle_method_callback setup (Some resp)) Q w.
Proof.
  intros Hs Hj Href Hn HQ. unfold run_unit_lifecycle_method_callback, forward_error. wp_one.
  eapply wp_load; [exact Hs|]. cbn [setup_job setup_request_message]. destruct resp as [name|a].
  - unfold reply_method_errorf. apply wp_bus. by apply HQ.
  - wp_one. eapply wp_controller_add_job_nf; [exact Hj|exact Hn|]. intros w1 Hq1 Ht1. cbn [negb].
    assert (w_jobs w1 !! q = Some (j <| job_export_slot := true |> <| job_ref_count ::= Z.succ |>)) as Hj1
      by (rewrite (quiet_jobs _ _ Hq1); apply lookup_insert_eq).
    wp_one. eapply wp_load; [exact Hj1|]. unfold reply_method_return. apply wp_bus. apply HQ.
    + etrans; [|exact Hq1]. assert (j <| job_export_slot := true |> <| job_ref_count := 2 |> =
        j <| job_export_slot := true |> <| job_ref_count ::= Z.succ |>) as ->; [|done].
      destruct j; cbn in *. by subst.
    + cbn. by rewrite Ht1, <- app_assoc.
Qed.
End lifecycle.

(** The state afterwards: a job that is waiting and listed, or nothing. *)
Definition finished (q : ptr) (j : Job) (resp : response) (w : World) : World :=
  (match resp with
   | MethodReturn _ => with_listed_job q (j <| job_export_slot := true |>) w
   | MethodError _ => w
   end) <| w_clocks ::= S |> <| w_next_job_id := job_id j |>
        <| w_next_ptr ::= fun q => Pos.succ (Pos.succ (Pos.succ q)) |>.

Lemma called_answered {E : Env} (w : World) (m p : ptr) (n : Node) (unit mode type method : string)
  (resp : response) :
  fresh w -> w_nodes w !! p = Some n ->
  let q := Pos.succ (w_next_ptr w) in
  let j := waiting_job p (next_u32 (w_next_job_id w)) type unit in
  let n1 := n <| node_ref_count ::= Z.succ |>
              <| node_outstanding_requests ::= fun l => l ++ [Pos.succ q] |> in
  without_request (Pos.succ q) p n1
    ((answered_job q j resp (called m p n unit mode type method w)) <| w_setups ::= delete (w_next_ptr w) |>)
  = finished q j resp w.
Proof.
  intros [Hreqs Hsetups Hjobs Hout] Hn q j n1.
  assert (n1 <| node_outstanding_requests ::= remove_first (Pos.succ q) |>
             <| node_ref_count ::= Z.pred |> = n) as Hn1.
  { assert (Pos.succ q ∉ node_outstanding_requests n) as Hnot by (intros H; specialize (Hout p n _ Hn H); lia).
    unfold n1. destruct n; cbn in *. rewrite remove_first_app_r by done. cbn.
    rewrite decide_True by done. rewrite app_nil_r. f_equal. lia. }
  unfold without_request. rewrite Hn1. subst q j n1.
  unfold answered_job, finished, called, with_request, with_setup, with_listed_job, set_node.
  destruct resp, w as [nodes jobs ? ? ? reqs setups]; cbn in *; f_equal.
  all: rewrite ?insert_insert_eq, ?delete_insert_eq; try done; try (by apply insert_id); try (by apply delete_id, Hreqs; lia);
    try (by apply delete_id, Hsetups; lia); try (by apply delete_id, Hjobs; lia).
Qed.

Section answer.
Context {E : Env} (Hbus : no_bus_failure E).

Lemma wp_lifecycle_answer (w0 w : World) (m p : ptr) (n : Node) (unit mode type method : string)
  (resp : response) (Q : Z -> World -> Prop) :
  w_nodes w0 !! p = Some n -> 1 <= node_ref_count n ->
  quiet (called m p n unit mode type method w0) w ->
  let q := Pos.succ (w_next_ptr w0) in
  let j := waiting_job p (next_u32 (w_next_job_id w0)) type unit in
  let n1 := n <| node_ref_count ::= Z.succ |>
              <| node_outstanding_requests ::= fun l => l ++ [Pos.succ q] |> in
  (forall res w', quiet (without_request (Pos.succ q) p n1
       ((answered_job q j resp (called m p n unit mode type method w0))
          <| w_setups ::= delete (w_next_ptr w0) |>)) w' ->
     w_trace w' = w_trace w ++ answer_calls m j resp -> Q res w') ->
  wp (agent_request_callback (Pos.succ q) (Some resp)) Q w.
Proof.
  intros Hn Href Hq q j n1 HQ. set (wc := called _ _ _ _ _ _ _ _) in *.
  set (r := lifecycle_request p method unit mode (next_u32 (w_next_job_id w0)) (w_next_ptr w0)).
  assert (w_reqs w !! Pos.succ q = Some r) as Hr
    by (rewrite (quiet_reqs _ _ Hq); apply lookup_insert_eq).
  assert (w_setups w !! w_next_ptr w0 = Some (mkJobSetup 1 m (Some q))) as Hs
    by (rewrite (quiet_setups _ _ Hq); apply lookup_insert_eq).
  assert (w_jobs w !! q = Some j) as Hj by (rewrite (quiet_jobs _ _ Hq); apply lookup_insert_eq).
  assert (w_nodes w !! p = Some n1) as Hn1 by (rewrite (quiet_nodes _ _ Hq); apply lookup_insert_eq).
  unfold agent_request_callback. wp_one. eapply wp_load; [exact Hr|]. cbn [req_is_cancelled r lifecycle_request].
  wp_one. unfold run_callback. wp_one. eapply wp_load; [exact Hr|]. cbn [req_cb r lifecycle_request].
  eapply (wp_run_lifecycle_callback Hbus); [exact Hs|exact Hj|done|exact Hn1|].
  intros res w1 Hq1 Ht1.
  set (wl := match resp with MethodReturn _ => _ | MethodError _ => _ end) in Hq1.
  assert (w_reqs wl = w_reqs w /\ w_setups wl = w_setups w /\ w_nodes wl = w_nodes w) as (Hlr & Hls & Hln)
    by by destruct resp.
  wp_one. eapply (wp_agent_request_unref_zero _ r); [|done|].
  { by rewrite (quiet_reqs _ _ Hq1), Hlr. }
  cbn [free_userdata req_cb r lifecycle_request].
  assert (exists j1, w_jobs w1 !! q = Some j1 /\
    job_ref_count j1 = match resp with MethodReturn _ => 2 | MethodError _ => 1 end) as (j1 & Hj1 & Hjr).
  { rewrite (quiet_jobs _ _ Hq1). destruct resp; unfold wl; [by exists j|].
    eexists. split; [apply lookup_insert_eq|done]. }
  apply (wp_job_setup_unref_last (w_next_ptr w0) m q j1).
  { change (w_setups w1 !! w_next_ptr w0 = Some (mkJobSetup 1 m (Some q))).
    by rewrite (quiet_setups _ _ Hq1), Hls. }
  { exact Hj1. }
  exists n1. split_and!.
  - change (w_nodes w1 !! p = Some n1). by rewrite (quiet_nodes _ _ Hq1), Hln.
  - eexists. apply lookup_insert_eq.
  - unfold n1. cbn. apply elem_of_app. right. left.
  - unfold n1. cbn. lia.
  - apply wp_ret. apply HQ; [|exact Ht1]. cbn [req_node r lifecycle_request].
    set (f := fun x : World => without_request (Pos.succ q) p n1
      ((x <| w_jobs ::= (if job_ref_count j1 =? 1 then delete q
                         else <[q := j1 <| job_ref_count ::= Z.pred |>]>) |>)
        <| w_setups ::= delete (w_next_ptr w0) |>)).
    transitivity (f w1); [|unfold f, without_request, set_node; destruct w1; cbn; f_equal;
                           by rewrite delete_insert_eq].
    transitivity (f wl); [|exact (f_equal f Hq1)].
    assert (Hf : f wl = without_request (Pos.succ q) p n1
      ((answered_job q j resp w) <| w_setups ::= delete (w_next_ptr w0) |>)).
    { unfold f, wl, answered_job. rewrite Hjr. destruct resp as [e|a]; cbn [Z.eqb Pos.eqb]; [done|].
      assert (j1 = j <| job_export_slot := true |> <| job_ref_count := 2 |>) as ->.
      { rewrite (quiet_jobs _ _ Hq1) in Hj1. unfold wl in Hj1.
        cbn [with_listed_job w_jobs field_update] in Hj1. rewrite lookup_insert_eq in Hj1. by injection Hj1. }
      unfold without_request, with_listed_job, set_node. destruct w; cbn. f_equal. by rewrite insert_insert_eq. }
    rewrite Hf. clear -Hq.
    pose proof (f_equal (fun x => without_request (Pos.succ q) p n1
      ((answered_job q j resp x) <| w_setups ::= delete (w_next_ptr w0) |>)) Hq) as H.
    by destruct resp.
Qed.
End answer.

(** C10. Starting, stopping, restarting or reloading a unit of a connected node, when
    no call fails: the agent is called once with the unit, the mode and a new job
    identifier, and the client waits. When the agent accepts, the job is exported,
    announced and listed (held by the list alone), and the client is given its
    path; when the agent refuses, the client gets the agent's error and there is
    no job. Of the request and of its setup nothing remains, and nothing else
    has changed. *)
Theorem unit_operation_lifecycle {E : Env} (Hnf : no_local_failure E) (Hbus : no_bus_failure E)
  (w : World) (m p b : ptr) (n : Node) (ts : timespec) (unit mode type method : string) (resp : response)
  (Hfresh : fresh w) (Hclock : clock_realtime (w_clocks w) = Some ts)
  (Hmetrics : c_metrics_enabled (w_controller w) = false)
  (Hn : w_nodes w !! p = Some n) (Hb : node_agent_bus n = Some b)
  (Hup : node_is_shutdown n = false) (Href : 1 <= node_ref_count n) :
  let id := next_u32 (w_next_job_id w) in
  let q := Pos.succ (w_next_ptr w) in
  let j := waiting_job p id type unit in
  wp (r ← node_run_unit_lifecycle_method m (ReadOk (unit, mode)) p type method;
      _res ← agent_request_callback (Pos.succ q) (Some resp);
      mret r)
     (fun r w' => r = 1 /\ quiet (finished q j resp w) w' /\
        w_trace w' = w_trace w ++
          AgentCallAsync b method [VString unit; VString mode; VUint id] (Pos.succ q) ::
          answer_calls m j resp) w.
Proof.
  intros id q j. apply wp_bind.
  eapply (wp_lifecycle_call Hnf Hbus m p n b ts); [done..|]. intros w1 Hq1 Ht1.
  apply wp_bind. apply (wp_lifecycle_answer Hbus w w1 m p n unit mode type method resp _ Hn Href Hq1).
  intros res w2 Hq2 Ht2. apply wp_ret. split; [done|]. split.
  - exact (eq_ind _ (fun x => quiet x w2) Hq2 _
             (called_answered w m p n unit mode type method resp Hfresh Hn)).
  - by rewrite Ht2, Ht1, <- app_assoc.
Qed.

Lemma sample_fresh : fresh sample_world.
Proof.
  split; [done|done| |].
  - intros q Hq. cbn in *. apply lookup_singleton_ne. lia.
  - intros p n q Hn Hout. exfalso. cbn in Hn.
    apply lookup_insert_Some in Hn as [[_ <-]|[_ Hn]]; [by apply not_elem_of_nil in Hout|].
    apply lookup_insert_Some in Hn as [[_ <-]|[_ Hn]]; [by apply not_elem_of_nil in Hout|].
    apply lookup_singleton_Some in Hn as [_ <-]. by apply not_elem_of_nil in Hout.
Qed.

Lemma unit_operation_lifecycle_witness :
  let j := waiting_job 1 8 "start" "a.service" in
  wp (r ← node_run_unit_lifecycle_method 200 (ReadOk ("a.service", "replace")%string) 1 "start" "StartUnit";
      _res ← agent_request_callback 52 (Some (MethodReturn 201));
      mret r)
     (fun r w' => r = 1 /\ quiet (finished 51 j (MethodReturn 201) sample_world) w' /\
        w_trace w' = [] ++
          AgentCallAsync 100 "StartUnit" [VString "a.service"; VString "replace"; VUint 8] 52 ::
          answer_calls 200 j (MethodReturn 201)) sample_world.
Proof.
  exact (unit_operation_lifecycle sample_no_failure (fun _ _ => Z.le_refl 0) sample_world 200 1 100
    sample_node1 (mkTimespec 1 0) "a.service" "replace" "start" "StartUnit" (MethodReturn 201)
    sample_fresh eq_refl eq_refl eq_refl eq_refl eq_refl (Z.le_refl 1)).
Defined.
