(* ===== verification/FleetTheorems.v ===== *)
(** Requests to all agents (ListUnits and ListUnitFiles of the Controller
    interface): every connected agent is asked once, and the client is answered
    once, with the answers in the order of the nodes, when the last one is in. *)
From S2P Require Import Prelude CString StringUtil ParseUtil TimeUtil Protocol Log World Job Events.
From S2P Require Import Subscriptions Monitor Proxy Requests.
From S2P Require Import WorldFacts EventFacts RegistryFacts Sample NodeTheorems.
From S2P Require Import RequestTheorems.
Local Open Scope list_scope.

Definition sub_reqs (l : list sub_req) : list ptr := map sr_agent_req l.
Definition sub_nodes (l : list sub_req) : list ptr := map sr_node l.
Definition answered (s : sub_req) : bool := match sr_m s with Some _ => true | None => false end.
Definition n_answered (l : list sub_req) : Z := Z.of_nat (Datatypes.length (List.filter answered l)).

(** One entry of a fleet request: a live request, held by the entry and until it
    is answered by the call, of a node that the entry, the request and the
    controller hold. *)
Definition sub_ok (w : World) (fl : ptr) (s : sub_req) : Prop :=
  exists r n, w_reqs w !! sr_agent_req s = Some r /\ w_nodes w !! sr_node s = Some n /\
    req_cb r = agent_fleet_request_callback fl /\ req_is_cancelled r = false /\
    req_node r = sr_node s /\ req_ref_count r = (if answered s then 1 else 2) /\
    sr_agent_req s ∈ node_outstanding_requests n /\ 3 <= node_ref_count n.

Record fleet_waiting (w : World) (fl : ptr) (f : AgentFleetRequest) : Prop := {
  fw_fleet : w_fleets w !! fl = Some f;
  fw_done : fl_n_done f = n_answered (fl_sub_req f);
  fw_reqs : NoDup (sub_reqs (fl_sub_req f));
  fw_nodes : NoDup (sub_nodes (fl_sub_req f));
  fw_subs : Forall (sub_ok w fl) (fl_sub_req f);
}.

(** ** Storing an answer *)

Definition store_answer (a : ptr) (m : option response) (l : list sub_req) : list sub_req :=
  map (fun s => if decide (sr_agent_req s = a) then s <| sr_m := m |> else s) l.

Lemma store_answer_notin a m l : a ∉ sub_reqs l -> store_answer a m l = l.
Proof.
  induction l as [|s l IH]; [done|]. intros [Ha Hl]%not_elem_of_cons. cbn [store_answer map].
  rewrite decide_False by done. f_equal. by apply IH.
Qed.

Lemma set_sub_req_spec a m l :
  NoDup (sub_reqs l) -> a ∈ sub_reqs l -> set_sub_req a m l = Some (store_answer a m l).
Proof.
  induction l as [|s l IH]; cbn [sub_reqs map]; [by intros _ ?%not_elem_of_nil|].
  intros [Hs Hl]%NoDup_cons Ha. cbn [set_sub_req store_answer map]. case_decide as Hsa.
  - f_equal. f_equal. symmetry. apply store_answer_notin. by subst.
  - apply elem_of_cons in Ha as [->|Ha]; [done|]. by rewrite (IH Hl Ha).
Qed.

Lemma store_answer_reqs a m l : sub_reqs (store_answer a m l) = sub_reqs l.
Proof.
  unfold sub_reqs, store_answer. rewrite map_map. apply map_ext. intros s. by case_decide.
Qed.
Lemma store_answer_nodes a m l : sub_nodes (store_answer a m l) = sub_nodes l.
Proof.
  unfold sub_nodes, store_answer. rewrite map_map. apply map_ext. intros s. by case_decide.
Qed.

Lemma n_answered_cons s l : n_answered (s :: l) = (if answered s then 1 else 0) + n_answered l.
Proof. unfold n_answered. cbn [List.filter]. destruct (answered s); cbn [Datatypes.length]; lia. Qed.

Lemma n_answered_store a r l s : NoDup (sub_reqs l) -> s ∈ l -> sr_agent_req s = a -> sr_m s = None ->
  n_answered (store_answer a (Some r) l) = n_answered l + 1.
Proof.
  induction l as [|s' l IH]; [by intros _ ?%not_elem_of_nil|]. cbn [sub_reqs map].
  intros [Hs' Hl]%NoDup_cons Hs Ha Hm. cbn [store_answer map]. rewrite !n_answered_cons.
  apply elem_of_cons in Hs as [->|Hs].
  - rewrite decide_True by done. change (map _ l) with (store_answer a (Some r) l).
    rewrite store_answer_notin by by subst. unfold answered. cbn. rewrite Hm. lia.
  - change (map _ l) with (store_answer a (Some r) l). rewrite (IH Hl Hs Ha Hm).
    rewrite decide_False; [lia|]. intros Heq. apply Hs'. rewrite Heq, <- Ha.
    apply list_elem_of_fmap. by exists s.
Qed.

Lemma n_answered_le l : n_answered l <= Z.of_nat (Datatypes.length l).
Proof. induction l as [|s l IH]; [done|]. rewrite n_answered_cons. cbn [Datatypes.length]. destruct (answered s); lia. Qed.

Lemma all_answered l : n_answered l = Z.of_nat (Datatypes.length l) <-> Forall (fun s => answered s = true) l.
Proof.
  induction l as [|s l IH]; [done|]. rewrite n_answered_cons, Forall_cons, <- IH. cbn [Datatypes.length].
  pose proof (n_answered_le l). destruct (answered s); split; intros; try lia; destruct H0; done || lia.
Qed.

(** ** The reply *)

(** The entries of the reply, unless an agent answered with an error. *)
Fixpoint fleet_entries (nodes : gmap ptr Node) (l : list sub_req) : option (list value) :=
  match l with
  | [] => Some []
  | s :: l' =>
      match sr_m s with
      | None => fleet_entries nodes l'
      | Some (MethodError _) => None
      | Some (MethodReturn m) =>
          match fleet_entries nodes l' with
          | Some rest => Some ([str_arg (nodes !! sr_node s ≫= node_name); VCopy m] ++ rest)
          | None => None
          end
      end
  end.
Definition fleet_reply (nodes : gmap ptr Node) (f : AgentFleetRequest) : call :=
  match fleet_entries nodes (fl_sub_req f) with
  | Some entries => ReplyReturn (fl_request_message f) entries
  | None => ReplyError (fl_request_message f) SD_BUS_ERROR_FAILED
  end.

Section fleet.
Context {E : Env} (Hnf : no_local_failure E).

Lemma wp_build_steps_nf n Q w :
  (forall w', quiet w w' -> w_trace w' = w_trace w -> Q true w') -> wp (build_steps n) Q w.
Proof.
  intros HQ. eapply wp_mono; [apply wp_build_steps|]. cbn beta. intros ok w' [[Hq Ht] Hok].
  rewrite (Hok Hnf). apply HQ; [done|]. by rewrite (Ht Hnf), app_nil_r.
Qed.

Lemma wp_encode_sub_reqs l : forall acc w Q,
  Forall (fun s => is_Some (w_nodes w !! sr_node s)) l ->
  (forall r w', quiet w w' -> w_trace w' = w_trace w ->
     match fleet_entries (w_nodes w) l with
     | Some entries => r = (0, acc ++ entries)
     | None => fst r = -1
     end -> Q r w') ->
  wp (encode_sub_reqs l acc) Q w.
Proof.
  induction l as [|s l IH]; intros acc w Q Hl HQ; cbn [encode_sub_reqs fleet_entries] in *.
  - apply wp_ret, HQ; [done|done|]. by rewrite app_nil_r.
  - apply Forall_cons in Hl as [[n Hn] Hl]. destruct (sr_m s) as [[name|m]|]; [|..|by apply IH].
    + apply wp_ret. by apply HQ.
    + wp_one. eapply wp_load; [exact Hn|]. rewrite Hn in HQ. cbn [mbind option_bind] in HQ.
      wp_one. apply wp_build_steps_nf. intros w1 Hq1 Ht1. cbn [negb].
      wp_one. apply wp_build_steps_nf. intros w2 Hq2 Ht2. cbn [negb].
      wp_one. apply wp_build_steps_nf. intros w3 Hq3 Ht3. cbn [negb].
      assert (quiet w w3) as Hq by (etrans; [exact Hq1|]; etrans; [exact Hq2|exact Hq3]).
      assert (w_nodes w3 = w_nodes w) as Hnodes by exact (quiet_nodes _ _ Hq).
      apply IH; [by rewrite Hnodes|]. intros r w4 Hq4 Ht4 Hr. rewrite Hnodes in Hr. apply HQ.
      * etrans; [exact Hq|exact Hq4].
      * by rewrite Ht4, Ht3, Ht2, Ht1.
      * destruct (fleet_entries (w_nodes w) l); [|done]. by rewrite Hr, <- app_assoc.
Qed.

(** The client is answered once, and the fleet request is released. *)
Lemma wp_agent_fleet_request_done fl f Q w :
  w_fleets w !! fl = Some f -> Forall (fun s => is_Some (w_nodes w !! sr_node s)) (fl_sub_req f) ->
  (forall w', quiet w w' -> w_trace w' = w_trace w ++ [fleet_reply (w_nodes w) f] ->
     wp (agent_fleet_request_free fl) Q w') ->
  wp (agent_fleet_request_done fl) Q w.
Proof.
  intros Hf Hl HQ. unfold agent_fleet_request_done. wp_one. eapply wp_load; [exact Hf|].
  wp_one. apply (wp_local_nf Hnf). intros r ->. wp_one.
  assert (forall c w1, quiet w w1 -> w_trace w1 = w_trace w -> c = fleet_reply (w_nodes w) f ->
    wp (_r ← bus c; mret tt) (fun _ => wp (agent_fleet_request_free fl) Q) w1) as Hreply.
  { intros c w1 Hq1 Ht1 ->. wp_one. apply wp_bus, wp_ret, HQ; [exact Hq1|]. cbn. by rewrite Ht1. }
  unfold controller_method_list_encode_reply. wp_one. wp_one. apply (wp_local_nf Hnf). intros r2 ->.
  wp_one. apply wp_encode_sub_reqs; [exact Hl|]. intros e w1 Hq1 Ht1 He.
  unfold fleet_reply in Hreply. change (w_nodes (tick (tick w))) with (w_nodes w) in He.
  destruct (fleet_entries (w_nodes w) (fl_sub_req f)) as [entries|].
  - subst e. cbn [fst snd Z.ltb Z.compare]. wp_one. apply (wp_local_nf Hnf). intros r3 ->. apply wp_ret.
    cbn [fst snd Z.ltb Z.compare]. by apply Hreply.
  - rewrite He. cbn [Z.ltb Z.compare]. apply wp_ret. rewrite He. cbn [Z.ltb Z.compare]. by apply Hreply.
Qed.
End fleet.

(** ** Release *)

(** What the release of the entries [l] leaves of a node and of a request;
    [cur], whose answer is being processed, is still held by the call. *)
Definition node_released (cur : ptr) (l : list sub_req) (p : ptr) (n : Node) : Node :=
  match List.find (fun s => bool_decide (sr_node s = p)) l with
  | Some s =>
      if decide (sr_agent_req s = cur) then n <| node_ref_count ::= Z.pred |>
      else n <| node_outstanding_requests ::= remove_first (sr_agent_req s) |>
             <| node_ref_count ::= fun k => k - 2 |>
  | None => n
  end.
Definition req_released (cur : ptr) (l : list sub_req) (a : ptr) (r : AgentRequest) : option AgentRequest :=
  if decide (a ∈ sub_reqs l) then
    if decide (a = cur) then Some (r <| req_ref_count ::= Z.pred |>) else None
  else Some r.
Definition without_fleet_parts (w : World) : World :=
  w <| w_nodes := ∅ |> <| w_reqs := ∅ |> <| w_locals := O |> <| w_proxies ::= fmap forget_refs |>.

Record released (cur : ptr) (l : list sub_req) (w w' : World) : Prop := {
  rel_rest : without_fleet_parts w' = without_fleet_parts w;
  rel_nodes : forall p, w_nodes w' !! p = node_released cur l p <$> w_nodes w !! p;
  rel_reqs : forall a, w_reqs w' !! a = w_reqs w !! a ≫= req_released cur l a;
}.

Lemma released_nil cur w : released cur [] w w.
Proof.
  split; [done|..].
  - intros p. by destruct (w_nodes w !! p).
  - intros a. by destruct (w_reqs w !! a).
Qed.

Lemma find_node_notin p l : p ∉ sub_nodes l -> List.find (fun s => bool_decide (sr_node s = p)) l = None.
Proof.
  induction l as [|s l IH]; [done|]. intros [Hp Hl]%not_elem_of_cons. cbn [List.find].
  rewrite bool_decide_false by done. by apply IH.
Qed.

Lemma released_cons cur s l w w1 w2 :
  sr_node s ∉ sub_nodes l -> sr_agent_req s ∉ sub_reqs l ->
  released cur [s] w w1 -> released cur l w1 w2 -> released cur (s :: l) w w2.
Proof.
  intros Hp Ha [Hr1 Hn1 Hq1] [Hr2 Hn2 Hq2]. split; [by rewrite Hr2|..].
  - intros p. rewrite Hn2, Hn1. rewrite <- option_fmap_compose. destruct (w_nodes w !! p) as [n|]; [|done].
    cbn. f_equal. unfold node_released. cbn [List.find]. destruct (bool_decide (sr_node s = p)) eqn:Es; [|done].
    apply bool_decide_eq_true in Es as <-. by rewrite find_node_notin.
  - intros a. rewrite Hq2, Hq1. destruct (w_reqs w !! a) as [r|]; [|done]. cbn.
    unfold req_released at 2 3. cbn [sub_reqs map].
    destruct (decide (a = sr_agent_req s)) as [->|Hne].
    + rewrite decide_True by left. rewrite (decide_True (P := _ ∈ _ :: _)) by left.
      case_decide; [|done]. cbn. unfold req_released. by rewrite decide_False.
    + rewrite decide_False by (rewrite list_elem_of_singleton; done). cbn. unfold req_released.
      destruct (decide (a ∈ sub_reqs l)) as [Hin|Hin].
      * by rewrite (decide_True (P := _ ∈ _ :: _)) by by right.
      * rewrite (decide_False (P := _ ∈ _ :: _)) by (rewrite elem_of_cons; tauto). done.
Qed.

(** An entry whose request is held [k] times in all. *)
Definition held (w : World) (fl : ptr) (k : Z) (s : sub_req) : Prop :=
  exists r n, w_reqs w !! sr_agent_req s = Some r /\ w_nodes w !! sr_node s = Some n /\
    req_cb r = agent_fleet_request_callback fl /\ req_node r = sr_node s /\ req_ref_count r = k /\
    sr_agent_req s ∈ node_outstanding_requests n /\ 3 <= node_ref_count n.

Section release.
Context {E : Env}.

Lemma find_single s p : List.find (fun s => bool_decide (sr_node s = p)) [s] =
  if decide (sr_node s = p) then Some s else None.
Proof. cbn. by case_bool_decide; case_decide. Qed.

Lemma released_single cur s w w' n' r' :
  without_fleet_parts w' = without_fleet_parts w ->
  w_nodes w' = <[sr_node s := n']> (w_nodes w) ->
  w_reqs w' = partial_alter (fun _ => r') (sr_agent_req s) (w_reqs w) ->
  (exists n, w_nodes w !! sr_node s = Some n /\ n' = node_released cur [s] (sr_node s) n) ->
  (exists r, w_reqs w !! sr_agent_req s = Some r /\ r' = req_released cur [s] (sr_agent_req s) r) ->
  released cur [s] w w'.
Proof.
  intros Hrest Hnodes Hreqs (n & Hn & ->) (r & Hr & ->). split; [exact Hrest|..].
  - intros p. rewrite Hnodes. destruct (decide (p = sr_node s)) as [->|Hne].
    + by rewrite lookup_insert_eq, Hn.
    + rewrite lookup_insert_ne by done. unfold node_released. rewrite find_single, decide_False by done.
      by destruct (w_nodes w !! p).
  - intros a. rewrite Hreqs. destruct (decide (a = sr_agent_req s)) as [->|Hne].
    + by rewrite lookup_partial_alter_eq, Hr.
    + rewrite lookup_partial_alter_ne by done. destruct (w_reqs w !! a) as [r0|]; [|done]. cbn.
      unfold req_released. cbn [sub_reqs map]. rewrite decide_False; [done|].
      by rewrite list_elem_of_singleton.
Qed.

Lemma wp_release_sub cur fl s w :
  held w fl (if decide (sr_agent_req s = cur) then 2 else 1) s ->
  wp (node_unref (sr_node s) ;; agent_request_unref (sr_agent_req s))
     (fun _ w' => released cur [s] w w') w.
Proof.
  intros (r & n & Hr & Hn & Hcb & Hrn & Href & Hout & Hnref). wp_one.
  eapply wp_node_unref_some; [exact Hn|lia|]. set (n1 := n <| node_ref_count ::= Z.pred |>).
  set (w1 := set_node _ n1 w).
  assert (w_nodes w1 !! sr_node s = Some n1) as Hn1 by apply lookup_insert_eq.
  case_decide as Hcur.
  - unfold agent_request_unref. wp_one. eapply wp_update; [exact Hr|].
    wp_one. eapply wp_load; [apply lookup_insert_eq|].
    assert ((req_ref_count (r <| req_ref_count ::= Z.pred |>) =? 0) = false) as ->
      by (cbn; rewrite Href; done).
    cbn [negb]. apply wp_ret.
    eapply (released_single cur s w _ n1 (Some (r <| req_ref_count ::= Z.pred |>))); [done|done|done|..].
    + exists n. split; [done|]. unfold node_released. rewrite find_single, !decide_True by done. done.
    + exists r. split; [done|]. unfold req_released. by rewrite !decide_True by (done || left).
  - eapply wp_agent_request_unref_zero; [exact Hr|exact Href|]. rewrite Hcb. cbn [free_userdata].
    apply wp_ret. exists n1. rewrite without_request_insert, Hrn. split_and!.
    + exact Hn1.
    + eexists. apply lookup_insert_eq.
    + exact Hout.
    + unfold n1. cbn. lia.
    + eapply (released_single cur s w _
        (n1 <| node_outstanding_requests ::= remove_first (sr_agent_req s) |> <| node_ref_count ::= Z.pred |>) None).
      * done.
      * unfold w1, without_request, set_node. cbn. by rewrite insert_insert_eq.
      * done.
      * exists n. split; [done|]. unfold node_released. rewrite find_single, decide_True by done.
        rewrite decide_False by done. unfold n1. destruct n; cbn. f_equal. lia.
      * exists r. split; [done|]. unfold req_released. by rewrite decide_True, decide_False by (done || left).
Qed.

Lemma held_released cur fl k s l w w' : sr_node s ∉ sub_nodes l -> sr_agent_req s ∉ sub_reqs l ->
  released cur l w w' -> held w fl k s -> held w' fl k s.
Proof.
  intros Hp Ha [_ Hn Hq] (r & n & Hr & Hnn & H). exists r, n. rewrite Hn, Hq, Hr, Hnn. cbn.
  unfold node_released, req_released. by rewrite find_node_notin, decide_False by done.
Qed.

Lemma wp_release_subs cur fl l : forall w Q,
  NoDup (sub_nodes l) -> NoDup (sub_reqs l) ->
  Forall (fun s => held w fl (if decide (sr_agent_req s = cur) then 2 else 1) s) l ->
  (forall w', released cur l w w' -> Q tt w') ->
  wp (foreach l (fun s => node_unref (sr_node s) ;; agent_request_unref (sr_agent_req s))) Q w.
Proof.
  induction l as [|s l IH]; intros w Q Hp Ha Hl HQ; cbn [foreach].
  - apply wp_ret, HQ, released_nil.
  - cbn [sub_nodes sub_reqs map] in Hp, Ha. apply NoDup_cons in Hp as [Hps Hp].
    apply NoDup_cons in Ha as [Has Ha]. apply Forall_cons in Hl as [Hs Hl].
    wp_one. eapply wp_mono; [by apply (wp_release_sub cur fl)|]. cbn beta. intros _ w1 Hr1.
    apply IH; [done|done| |].
    + apply Forall_forall. intros s' Hs'. rewrite Forall_forall in Hl.
      apply (held_released cur fl _ s' [s] w); [..|exact Hr1|by apply Hl].
      * intros Heq%list_elem_of_singleton. apply Hps.
        rewrite <- Heq. apply list_elem_of_fmap. by exists s'.
      * intros Heq%list_elem_of_singleton. apply Has. rewrite <- Heq. apply list_elem_of_fmap. by exists s'.
    + intros w2 Hr2. by apply HQ, (released_cons cur s l w w1 w2).
Qed.
End release.

(** ** One answer *)

(** The fleet request with the answer [resp] of the request [a]. *)
Definition with_answer (a : ptr) (resp : response) (f : AgentFleetRequest) : AgentFleetRequest :=
  f <| fl_sub_req ::= store_answer a (Some resp) |> <| fl_n_done ::= Z.succ |>.

(** The state without the fleet request [fl] and its entries [l]. *)
Record fleet_gone (fl : ptr) (l : list sub_req) (w w' : World) : Prop := {
  fg_fleets : w_fleets w' = delete fl (w_fleets w);
  fg_reqs : forall a, w_reqs w' !! a = if decide (a ∈ sub_reqs l) then None else w_reqs w !! a;
  fg_nodes : forall s n, s ∈ l -> w_nodes w !! sr_node s = Some n ->
    w_nodes w' !! sr_node s =
      Some (n <| node_outstanding_requests ::= remove_first (sr_agent_req s) |>
              <| node_ref_count ::= fun k => k - 2 |>);
  fg_others : forall p, p ∉ sub_nodes l -> w_nodes w' !! p = w_nodes w !! p;
  fg_rest : without_fleet_parts (w' <| w_fleets := ∅ |> <| w_trace := [] |>) =
            without_fleet_parts (w <| w_fleets := ∅ |> <| w_trace := [] |>);
}.

Lemma find_node_in s l : NoDup (sub_nodes l) -> s ∈ l ->
  List.find (fun s' => bool_decide (sr_node s' = sr_node s)) l = Some s.
Proof.
  induction l as [|s' l IH]; [by intros _ ?%not_elem_of_nil|]. cbn [sub_nodes map].
  intros [Hs' Hl]%NoDup_cons Hs. cbn [List.find]. case_bool_decide as Heq.
  - apply elem_of_cons in Hs as [->|Hs]; [done|]. destruct Hs'. rewrite Heq.
    apply list_elem_of_fmap. by exists s.
  - apply elem_of_cons in Hs as [->|Hs]; [done|]. by apply IH.
Qed.

Lemma sub_reqs_in s l : s ∈ l -> sr_agent_req s ∈ sub_reqs l.
Proof. intros Hs. apply list_elem_of_fmap. by exists s. Qed.
Lemma sub_nodes_in s l : s ∈ l -> sr_node s ∈ sub_nodes l.
Proof. intros Hs. apply list_elem_of_fmap. by exists s. Qed.

Lemma sub_nodes_inj l s s' : NoDup (sub_nodes l) -> s ∈ l -> s' ∈ l -> sr_node s = sr_node s' -> s = s'.
Proof.
  intros Hl Hs Hs' Heq. pose proof (find_node_in s l Hl Hs) as H1. rewrite Heq in H1.
  rewrite (find_node_in s' l Hl Hs') in H1. congruence.
Qed.

Lemma sub_reqs_inj l s s' :
  NoDup (sub_reqs l) -> s ∈ l -> s' ∈ l -> sr_agent_req s = sr_agent_req s' -> s = s'.
Proof.
  induction l as [|x l IH]; [by intros _ ?%not_elem_of_nil|]. cbn [sub_reqs map].
  intros [Hx Hl]%NoDup_cons [->|Hs]%elem_of_cons [->|Hs']%elem_of_cons Heq; [done|..|by apply IH].
  - destruct Hx. rewrite Heq. by apply sub_reqs_in.
  - destruct Hx. rewrite <- Heq. by apply sub_reqs_in.
Qed.

Section answer.
Context {E : Env} (Hnf : no_local_failure E).

(** The last reference to the request whose answer is processed, after the
    release of the entries. *)
Lemma wp_last_unref cur fl l w0 w w1 s Q :
  NoDup (sub_nodes l) -> NoDup (sub_reqs l) -> s ∈ l -> sr_agent_req s = cur ->
  released cur l w w1 -> held w fl 2 s ->
  w_reqs w = w_reqs w0 -> w_nodes w = w_nodes w0 -> w_fleets w1 = w_fleets w ->
  without_fleet_parts (w <| w_fleets := ∅ |> <| w_trace := [] |>) =
    without_fleet_parts (w0 <| w_fleets := ∅ |> <| w_trace := [] |>) ->
  delete fl (w_fleets w) = delete fl (w_fleets w0) ->
  (forall w', fleet_gone fl l w0 w' -> w_trace w' = w_trace w1 -> Q tt w') ->
  wp (agent_request_unref cur) Q (w1 <| w_fleets ::= delete fl |>).
Proof.
  intros Hp Ha Hs <- Hrel (r & n & Hr & Hn & Hcb & Hrn & Href & Hout & Hnref) Hreqs Hnodes Hfl Hrest Hdel HQ.
  set (cur := sr_agent_req s) in *. pose proof (sub_reqs_in s l Hs) as Hcur.
  assert (w_reqs w1 !! cur = Some (r <| req_ref_count ::= Z.pred |>)) as Hr1.
  { rewrite (rel_reqs _ _ _ _ Hrel), Hr. cbn. unfold req_released. by rewrite !decide_True. }
  assert (w_nodes w1 !! sr_node s = Some (n <| node_ref_count ::= Z.pred |>)) as Hn1.
  { rewrite (rel_nodes _ _ _ _ Hrel), Hn. cbn. unfold node_released. rewrite (find_node_in s l Hp Hs).
    by rewrite decide_True. }
  eapply wp_agent_request_unref_zero; [exact Hr1|cbn; by rewrite Href|].
  change (req_cb (r <| req_ref_count ::= Z.pred |>)) with (req_cb r).
  change (req_node (r <| req_ref_count ::= Z.pred |>)) with (req_node r).
  rewrite Hcb. cbn [free_userdata]. apply wp_ret. eexists. rewrite without_request_insert, Hrn.
  split_and!; [exact Hn1|eexists; apply lookup_insert_eq|exact Hout|cbn; lia|].
  apply HQ; [|done]. unfold without_request, set_node. split.
  - cbn. by rewrite Hfl, Hdel.
  - intros a. cbn. case_decide as Hin.
    + destruct (decide (a = cur)) as [->|Hne]; [apply lookup_delete_eq|].
      rewrite lookup_delete_ne by done. rewrite (rel_reqs _ _ _ _ Hrel).
      destruct (w_reqs w !! a); [|done]. cbn. unfold req_released.
      by rewrite decide_True, decide_False by done.
    + rewrite lookup_delete_ne by (intros <-; done). rewrite (rel_reqs _ _ _ _ Hrel), Hreqs.
      destruct (w_reqs w0 !! a); [|done]. cbn. unfold req_released. by rewrite decide_False.
  - intros s' n' Hs' Hn'. cbn. rewrite <- Hnodes in Hn'. destruct (decide (sr_agent_req s' = cur)) as [Hcur'|Hne].
    + assert (s' = s) as -> by (by apply (sub_reqs_inj l)).
      rewrite lookup_insert_eq. assert (n' = n) as -> by congruence. f_equal. destruct n; cbn. f_equal. lia.
    + rewrite lookup_insert_ne.
      2: { intros Heq. apply Hne. unfold cur. f_equal. symmetry. by apply (sub_nodes_inj l). }
      rewrite (rel_nodes _ _ _ _ Hrel), Hn'. cbn. unfold node_released. rewrite (find_node_in s' l Hp Hs').
      by rewrite decide_False.
  - intros p Hpl. cbn. rewrite lookup_insert_ne by (intros <-; apply Hpl; by apply sub_nodes_in).
    rewrite (rel_nodes _ _ _ _ Hrel), Hnodes. unfold node_released. rewrite find_node_notin by done.
    by destruct (w_nodes w0 !! p).
  - rewrite <- Hrest. exact (f_equal (fun x => x <| w_fleets := ∅ |> <| w_trace := [] |>) (rel_rest _ _ _ _ Hrel)).
Qed.
End answer.

Lemma store_answer_elem a m l s' : s' ∈ store_answer a m l ->
  exists s, s ∈ l /\ s' = (if decide (sr_agent_req s = a) then s <| sr_m := m |> else s).
Proof. intros (s & -> & Hs)%list_elem_of_fmap. by exists s. Qed.

Lemma store_answer_in a m l s : s ∈ l -> sr_agent_req s = a -> s <| sr_m := m |> ∈ store_answer a m l.
Proof.
  intros Hs Ha. apply list_elem_of_fmap. exists s. split; [|done]. by rewrite decide_True.
Qed.

Lemma wp_fleet_answer_last {E : Env} (Hnf : no_local_failure E) (w : World) (fl : ptr)
  (f : AgentFleetRequest) (s : sub_req) (resp : response) Q :
  fleet_waiting w fl f -> s ∈ fl_sub_req f -> sr_m s = None ->
  let f' := with_answer (sr_agent_req s) resp f in
  fl_n_done f' = fl_n_sub_req f' ->
  (forall w', fleet_gone fl (fl_sub_req f) w w' ->
     w_trace w' = w_trace w ++ [fleet_reply (w_nodes w) f'] -> Q tt w') ->
  wp (agent_fleet_request_done fl) (fun _ => wp (agent_request_unref (sr_agent_req s)) Q)
     (w <| w_fleets ::= <[fl := f']> |>).
Proof.
  intros [Hfl Hdone Hreqs Hnodes Hsubs] Hs Hm f' Hall HQ. set (cur := sr_agent_req s) in *.
  assert (sub_reqs (fl_sub_req f') = sub_reqs (fl_sub_req f)) as Hr' by apply store_answer_reqs.
  assert (sub_nodes (fl_sub_req f') = sub_nodes (fl_sub_req f)) as Hn' by apply store_answer_nodes.
  assert (Forall (fun s => answered s = true) (fl_sub_req f')) as Hans.
  { apply all_answered. unfold fl_n_sub_req in Hall. rewrite <- Hall. cbn.
    rewrite (n_answered_store _ _ _ s) by done. lia. }
  set (w1 := w <| w_fleets ::= <[fl := f']> |>).
  assert (forall s', s' ∈ fl_sub_req f' -> held w fl (if decide (sr_agent_req s' = cur) then 2 else 1) s') as Hheld.
  { intros s' Hs'. pose proof (proj1 (Forall_forall _ _) Hans s' Hs') as Ha'.
    apply store_answer_elem in Hs' as (s0 & Hs0 & ->).
    destruct (proj1 (Forall_forall _ _) Hsubs s0 Hs0) as (r & n & Hr & Hn & Hcb & _ & Hrn & Href & Hout & Hnref).
    case_decide as Hcur.
    - assert (s0 = s) as -> by (by apply (sub_reqs_inj (fl_sub_req f))).
      exists r, n. unfold answered in Href. rewrite Hm in Href. cbn. rewrite decide_True by done. done.
    - exists r, n. rewrite Ha' in Href. cbn. rewrite decide_False by done. done. }
  eapply (wp_agent_fleet_request_done Hnf fl f'); [apply lookup_insert_eq|..].
  { apply Forall_forall. intros s' Hs'. destruct (Hheld s' Hs') as (r & n & _ & Hn & _). by exists n. }
  intros w2 Hq2 Ht2. unfold agent_fleet_request_free.
  assert (w_reqs w2 = w_reqs w) as Hreq2 by (symmetry; exact (f_equal w_reqs Hq2)).
  assert (w_nodes w2 = w_nodes w) as Hnode2 by exact (quiet_nodes _ _ Hq2).
  assert (w_fleets w2 = <[fl := f']> (w_fleets w)) as Hfl2 by (symmetry; exact (f_equal w_fleets Hq2)).
  assert (forall k s', held w fl k s' -> held w2 fl k s') as Hheld2.
  { intros k s' (r & n & H). exists r, n. by rewrite Hreq2, Hnode2. }
  wp_one. eapply wp_load; [cbn; rewrite Hfl2; apply lookup_insert_eq|]. wp_one.
  apply (wp_release_subs cur fl (fl_sub_req f')); [by rewrite Hn'|by rewrite Hr'| |].
  { apply Forall_forall. intros s' Hs'. by apply Hheld2, Hheld. }
  intros w3 Hrel.
  assert (w_fleets w3 = w_fleets w2) as Hfl3 by exact (f_equal w_fleets (rel_rest _ _ _ _ Hrel)).
  assert (w_trace w3 = w_trace w2) as Ht3 by exact (f_equal w_trace (rel_rest _ _ _ _ Hrel)).
  eapply wp_free; [cbn; rewrite Hfl3, Hfl2; apply lookup_insert_eq|].
  eapply (wp_last_unref cur fl (fl_sub_req f') w w2 w3 (s <| sr_m := Some resp |>)).
  - by rewrite Hn'.
  - by rewrite Hr'.
  - by apply store_answer_in.
  - done.
  - exact Hrel.
  - apply Hheld2. pose proof (Hheld (s <| sr_m := Some resp |>) (store_answer_in _ _ _ s Hs eq_refl)) as H.
    cbn in H. by rewrite decide_True in H.
  - exact Hreq2.
  - exact Hnode2.
  - exact Hfl3.
  - symmetry. exact (f_equal (fun x => x <| w_nodes := ∅ |> <| w_reqs := ∅ |> <| w_fleets := ∅ |>) Hq2).
  - by rewrite Hfl2, delete_insert_eq.
  - intros w4 [Hg1 Hg2 Hg3 Hg4 Hg5] Ht4. apply HQ; [|rewrite Ht4, Ht3, Ht2; done].
    split; [done|intros a; by rewrite Hg2, Hr'| |intros p; rewrite <- Hn'; apply Hg4|done].
    intros s0 n Hs0 Hn.
    assert (exists s', s' ∈ fl_sub_req f' /\ sr_agent_req s' = sr_agent_req s0 /\ sr_node s' = sr_node s0)
      as (s' & Hs' & Ha' & Hp').
    { exists (if decide (sr_agent_req s0 = cur) then s0 <| sr_m := Some resp |> else s0). split_and!.
      - apply list_elem_of_fmap. by exists s0.
      - by case_decide.
      - by case_decide. }
    rewrite <- Ha', <- Hp'. apply Hg3; [done|by rewrite Hp'].
Qed.

(** C11. An answer of an agent to a fleet request, when no allocation fails: if other
    agents have not answered yet, it is stored and nothing is sent; the last one
    makes the client be answered, exactly once, with the names and answers of all
    nodes in their order, or with an error when one of them failed, and then
    nothing of the fleet request and of its requests remains. *)
Theorem fleet_request_answered {E : Env} (Hnf : no_local_failure E) (w : World) (fl : ptr)
  (f : AgentFleetRequest) (s : sub_req) (resp : response)
  (Hw : fleet_waiting w fl f) (Hs : s ∈ fl_sub_req f) (Hm : sr_m s = None) :
  let f' := with_answer (sr_agent_req s) resp f in
  wp (agent_request_callback (sr_agent_req s) (Some resp))
     (fun _ w' =>
        if fl_n_done f' =? fl_n_sub_req f'
        then fleet_gone fl (fl_sub_req f) w w' /\
             w_trace w' = w_trace w ++ [fleet_reply (w_nodes w) f']
        else fleet_waiting w' fl f' /\ w_trace w' = w_trace w /\ w_nodes w' = w_nodes w) w.
Proof.
  intros f'. pose proof Hw as [Hfl Hdone Hreqs Hnodes Hsubs].
  destruct (proj1 (Forall_forall _ _) Hsubs s Hs) as (r & n & Hr & Hn & Hcb & Hlive & Hrn & Href & Hout & Hnref).
  unfold answered in Href. rewrite Hm in Href.
  unfold agent_request_callback. wp_one. eapply wp_load; [exact Hr|]. rewrite Hlive.
  wp_one. unfold run_callback. wp_one. eapply wp_load; [exact Hr|]. rewrite Hcb.
  unfold run_agent_fleet_request_callback. wp_one. eapply wp_load; [exact Hfl|].
  rewrite (set_sub_req_spec _ _ _ Hreqs) by by apply sub_reqs_in.
  wp_one. eapply wp_update; [exact Hfl|].
  change (store_upd _ w) with (w <| w_fleets ::= <[fl := f']> |>).
  wp_one. unfold agent_fleet_request_maybe_done. wp_one.
  eapply wp_load; [apply lookup_insert_eq|]. destruct (fl_n_done f' =? fl_n_sub_req f') eqn:Eall.
  - eapply wp_mono.
    + apply (wp_fleet_answer_last Hnf w fl f s resp (fun _ w' => fleet_gone fl (fl_sub_req f) w w' /\
        w_trace w' = w_trace w ++ [fleet_reply (w_nodes w) f']) Hw Hs Hm); [by apply Z.eqb_eq|].
      intros w' Hg Ht. exact (conj Hg Ht).
    + intros x w' H. apply wp_ret. wp_one. eapply wp_mono; [exact H|]. intros y w2 H2. by apply wp_ret.
  - apply wp_ret. wp_one. wp_one. unfold agent_request_unref. wp_one. eapply wp_update; [exact Hr|].
    wp_one. eapply wp_load; [apply lookup_insert_eq|].
    assert ((req_ref_count (r <| req_ref_count ::= Z.pred |>) =? 0) = false) as ->
      by (cbn; by rewrite Href).
    cbn [negb]. apply wp_ret. apply wp_ret. split; [|done]. split.
    + apply lookup_insert_eq.
    + cbn. rewrite (n_answered_store _ _ _ s) by done. lia.
    + cbn. by rewrite store_answer_reqs.
    + cbn. by rewrite store_answer_nodes.
    + apply Forall_forall. intros s' Hs'. apply store_answer_elem in Hs' as (s0 & Hs0 & ->).
      destruct (proj1 (Forall_forall _ _) Hsubs s0 Hs0) as (r0 & n0 & Hr0 & Hn0 & H0).
      case_decide as Hcur.
      * assert (s0 = s) as -> by (by apply (sub_reqs_inj (fl_sub_req f))).
        exists (r <| req_ref_count ::= Z.pred |>), n. cbn. rewrite lookup_insert_eq, Href. done.
      * exists r0, n0. cbn. by rewrite lookup_insert_ne by (intros Heq; by apply Hcur).
Qed.

(** ** Start *)

Definition fleet_method (encode : fleet_encoder) : string :=
  match encode with EncodeListUnits => "ListUnits" | EncodeListUnitFiles => "ListUnitFiles" end.

(** The call that an entry stands for. *)
Definition fleet_call (nodes : gmap ptr Node) (encode : fleet_encoder) (s : sub_req) : call :=
  AgentCallAsync (default 1%positive (nodes !! sr_node s ≫= node_agent_bus)) (fleet_method encode) []
    (sr_agent_req s).

Definition online (nodes : gmap ptr Node) (p : ptr) : bool :=
  match nodes !! p with Some n => node_has_agent n | None => false end.

(** While the nodes [rest] are still to be asked. *)
Record fleet_building (w0 w : World) (fl m : ptr) (encode : fleet_encoder) (subs : list sub_req)
    (rest : list ptr) : Prop := {
  fb_fleet : w_fleets w =
    <[fl := mkAgentFleetRequest m encode 0 (c_number_of_nodes (w_controller w0)) subs]> (w_fleets w0);
  fb_reqs : NoDup (sub_reqs subs);
  fb_old : Forall (fun a => (a < w_next_ptr w)%positive) (sub_reqs subs);
  fb_nodes : NoDup (sub_nodes subs ++ rest);
  fb_subs : Forall (sub_ok w fl) subs;
  fb_new : Forall (fun s => sr_m s = None) subs;
  fb_rest : Forall (fun p => w_nodes w !! p = w_nodes w0 !! p) rest;
  fb_trace : w_trace w = w_trace w0 ++ map (fleet_call (w_nodes w0) encode) subs;
}.

Section start.
Context {E : Env} (Hnf : no_local_failure E) (Hbus : no_bus_failure E).

Lemma wp_node_request p n b method cb Q w :
  w_nodes w !! p = Some n -> node_agent_bus n = Some b ->
  (forall w', quiet (with_request p n (mkAgentRequest 2 p true method [] cb false) w) w' ->
     w_trace w' = w_trace w ++ [AgentCallAsync b method [] (w_next_ptr w)] ->
     Q (Some (w_next_ptr w)) w') ->
  wp (node_request p method cb) Q w.
Proof.
  intros Hn Hb HQ. unfold node_request. wp_one. eapply wp_load; [exact Hn|].
  unfold node_has_agent. rewrite Hb, bool_decide_true by done. cbn [negb]. wp_one.
  eapply (wp_node_create_request Hnf); [exact Hn|exact Hb|]. intros w1 Hq1 Ht1. cbn [snd].
  set (r0 := mkAgentRequest _ _ _ _ _ _ _) in Hq1. set (req := w_next_ptr w) in *.
  set (n1 := n <| node_ref_count ::= Z.succ |>
               <| node_outstanding_requests ::= fun l => l ++ [req] |>).
  assert (w_reqs w1 !! req = Some r0) as Hr1
    by (rewrite (f_equal w_reqs (eq_sym Hq1) : w_reqs w1 = _); apply lookup_insert_eq).
  assert (w_nodes w1 !! p = Some n1) as Hn1 by (rewrite (quiet_nodes _ _ Hq1); apply lookup_insert_eq).
  unfold agent_request_start, agent_request_ref. wp_one. wp_one. eapply wp_load; [exact Hr1|].
  wp_one. eapply wp_load; [exact Hn1|]. unfold n1. cbn [node_agent_bus field_update]. rewrite Hb.
  wp_one. apply (wp_bus_nf Hbus). intros x Hx. rewrite Hx.
  wp_one. eapply wp_update; [exact Hr1|]. wp_one. wp_one. eapply wp_update; [apply lookup_insert_eq|].
  apply wp_ret. apply wp_ret. cbn [Z.ltb Z.compare]. apply wp_ret. apply HQ; [|cbn; by rewrite Ht1].
  etrans; [|apply (quiet_with_reqs _ _ _ (quiet_with_reqs _ _ _ (quiet_trans _ _ _ Hq1 (quiet_emit _ _))))].
  unfold quiet, erase, with_request, set_node. destruct w; cbn. f_equal. by rewrite !insert_insert_eq.
Qed.

Lemma fleet_add_offline w0 w fl m encode subs p rest n :
  fleet_building w0 w fl m encode subs (p :: rest) -> w_nodes w0 !! p = Some n ->
  node_has_agent n = false ->
  wp (fleet_add_node fl encode p) (fun _ w' => fleet_building w0 w' fl m encode subs rest) w.
Proof.
  intros [Hf Hreqs Hold Hnodes Hsubs Hnew Hrest Ht] Hn Hoff.
  assert (w_nodes w !! p = Some n) as Hnw by (apply Forall_cons in Hrest as [-> _]; exact Hn).
  assert (forall method cb Q, Q None w -> wp (node_request p method cb) Q w) as Hreq.
  { intros method cb Q HQ. unfold node_request. wp_one. eapply wp_load; [exact Hnw|]. rewrite Hoff.
    cbn [negb]. by apply wp_ret. }
  unfold fleet_add_node. wp_one.
  destruct encode; apply Hreq, wp_ret; (split; try done; [|by apply Forall_cons in Hrest as [_ ?]]);
    apply NoDup_app in Hnodes as (H1 & H2 & H3); apply NoDup_app; (split_and!; [done| |by apply NoDup_cons in H3 as [_ ?]]);
    intros x Hx Hin; by apply (H2 x Hx), elem_of_cons; right.
Qed.

Lemma sub_ok_frame fl s w w' :
  w_reqs w' !! sr_agent_req s = w_reqs w !! sr_agent_req s ->
  w_nodes w' !! sr_node s = w_nodes w !! sr_node s -> sub_ok w fl s -> sub_ok w' fl s.
Proof. intros Hr Hn (r & n & H). exists r, n. by rewrite Hr, Hn. Qed.

Lemma fleet_add_online w0 w fl m encode subs p rest n b :
  fleet_building w0 w fl m encode subs (p :: rest) -> w_nodes w0 !! p = Some n ->
  node_agent_bus n = Some b -> 1 <= node_ref_count n ->
  Z.of_nat (Datatypes.length subs) < c_number_of_nodes (w_controller w0) ->
  wp (fleet_add_node fl encode p)
     (fun _ w' => fleet_building w0 w' fl m encode (subs ++ [mkSubReq p None (w_next_ptr w)]) rest) w.
Proof.
  intros [Hf Hreqs Hold Hnodes Hsubs Hnew Hrest Ht] Hn Hb Href Hcap.
  assert (w_nodes w !! p = Some n) as Hnw by (apply Forall_cons in Hrest as [-> _]; exact Hn).
  set (req := w_next_ptr w) in *. set (s := mkSubReq p None req).
  set (r := mkAgentRequest 2 p true (fleet_method encode) [] (agent_fleet_request_callback fl) false).
  unfold fleet_add_node. wp_one.
  assert (forall Q, (forall w', quiet (with_request p n r w) w' ->
      w_trace w' = w_trace w ++ [AgentCallAsync b (fleet_method encode) [] req] -> Q (Some req) w') ->
    wp (match encode with
        | EncodeListUnits => node_request_list_units p (agent_fleet_request_callback fl)
        | EncodeListUnitFiles => node_request_list_unit_files p (agent_fleet_request_callback fl)
        end) Q w) as Hreq.
  { intros Q HQ. destruct encode; by apply (wp_node_request p n b). }
  apply Hreq. intros w1 Hq1 Ht1.
  assert (w_fleets w1 = w_fleets w) as Hfl1 by (symmetry; exact (f_equal w_fleets Hq1)).
  set (n1 := n <| node_ref_count ::= Z.succ |>
               <| node_outstanding_requests ::= fun l => l ++ [req] |>).
  assert (w_nodes w1 = <[p := n1]> (w_nodes w)) as Hn1 by exact (quiet_nodes _ _ Hq1).
  assert (w_reqs w1 = <[req := r]> (w_reqs w)) as Hr1 by (symmetry; exact (f_equal w_reqs Hq1)).
  assert (w_next_ptr w1 = Pos.succ req) as Hp1 by (symmetry; exact (f_equal w_next_ptr Hq1)).
  wp_one. eapply wp_load; [cbn; rewrite Hfl1, Hf; apply lookup_insert_eq|].
  unfold fl_n_sub_req. cbn [fl_sub_req fl_capacity].
  rewrite (proj2 (Z.ltb_lt _ _)) by exact Hcap. cbn [negb].
  unfold node_ref. wp_one. wp_one. eapply wp_update; [cbn; rewrite Hn1; apply lookup_insert_eq|].
  apply wp_ret. eapply wp_update; [cbn; rewrite Hfl1, Hf; apply lookup_insert_eq|].
  apply NoDup_app in Hnodes as (Hnd1 & Hnd2 & Hnd3). apply NoDup_cons in Hnd3 as [Hpr Hnd3].
  assert (p ∉ sub_nodes subs) as Hps by (intros Hin; apply (Hnd2 p Hin); by left).
  assert (req ∉ sub_reqs subs) as Hrs.
  { intros Hin. pose proof (proj1 (Forall_forall _ _) Hold req Hin). cbn in *. lia. }
  set (w3 := store_upd _ _).
  assert (w_nodes w3 = <[p := n1 <| node_ref_count ::= Z.succ |>]> (w_nodes w)) as Hn3
    by (unfold w3; cbn; by rewrite Hn1, insert_insert_eq).
  assert (w_reqs w3 = <[req := r]> (w_reqs w)) as Hr3 by exact Hr1.
  split.
  - unfold w3. cbn. by rewrite Hfl1, Hf, insert_insert_eq.
  - unfold sub_reqs. rewrite map_app. apply NoDup_app. split_and!; [done| |apply NoDup_singleton].
    intros a Ha ->%list_elem_of_singleton. done.
  - unfold sub_reqs. rewrite map_app. apply Forall_app. split.
    + eapply Forall_impl; [exact Hold|]. cbn. intros a Ha. rewrite Hp1. unfold req. lia.
    + constructor; [|constructor]. cbn. rewrite Hp1. unfold req. lia.
  - unfold sub_nodes. rewrite map_app, <- app_assoc. cbn. apply NoDup_app. split_and!; [done|exact Hnd2|].
    by apply NoDup_cons.
  - apply Forall_app. split; [|constructor; [|constructor]].
    + apply Forall_forall. intros s' Hs'. apply (sub_ok_frame fl s' w w3).
      * rewrite Hr3. apply lookup_insert_ne. intros ->. apply Hrs. by apply sub_reqs_in.
      * rewrite Hn3. apply lookup_insert_ne. intros ->. apply Hps. by apply sub_nodes_in.
      * by apply (proj1 (Forall_forall _ _) Hsubs).
    + eexists r, _. rewrite Hr3, Hn3. split_and!; [apply lookup_insert_eq|apply lookup_insert_eq|done..| |].
      * unfold n1. cbn. apply elem_of_app. right. left.
      * unfold n1. cbn. lia.
  - apply Forall_app. split; [done|]. by constructor.
  - apply Forall_cons in Hrest as [_ Hrest]. apply Forall_forall. intros p' Hp'. rewrite Hn3.
    rewrite lookup_insert_ne by (intros ->; done). by apply (proj1 (Forall_forall _ _) Hrest).
  - rewrite map_app. cbn. rewrite Ht1, Ht, <- app_assoc.
    assert (fleet_call (w_nodes w0) encode s = AgentCallAsync b (fleet_method encode) [] req) as ->; [|done].
    unfold fleet_call. cbn [sr_node sr_agent_req s]. rewrite Hn. cbn. by rewrite Hb.
Qed.
End start.

Lemma fleet_add_nodes {E : Env} (Hnf : no_local_failure E) (Hbus : no_bus_failure E)
  (w0 : World) (fl m : ptr) (encode : fleet_encoder) rest : forall w subs Q,
  fleet_building w0 w fl m encode subs rest ->
  Forall (fun p => exists n, w_nodes w0 !! p = Some n /\ 1 <= node_ref_count n) rest ->
  Z.of_nat (Datatypes.length subs + Datatypes.length rest) <= c_number_of_nodes (w_controller w0) ->
  (forall w' subs', fleet_building w0 w' fl m encode subs' [] ->
     sub_nodes subs' = sub_nodes subs ++ List.filter (online (w_nodes w0)) rest -> Q tt w') ->
  wp (foreach rest (fleet_add_node fl encode)) Q w.
Proof.
  induction rest as [|p rest IH]; intros w subs Q Hb Hrest Hcap HQ; cbn [foreach].
  - apply wp_ret. apply (HQ w subs); [done|]. by rewrite app_nil_r.
  - apply Forall_cons in Hrest as [(n & Hn & Href) Hrest]. cbn [Datatypes.length] in Hcap. wp_one.
    cbn [List.filter] in HQ. unfold online at 1 in HQ. rewrite Hn in HQ. unfold node_has_agent in HQ.
    destruct (node_agent_bus n) as [b|] eqn:Eb.
    + rewrite bool_decide_true in HQ by done.
      eapply wp_mono; [apply (fleet_add_online Hnf Hbus w0 w fl m encode subs p rest n b Hb Hn Eb Href); lia|].
      cbn beta. intros _ w1 Hb1. eapply IH; [exact Hb1|done|rewrite length_app; cbn; lia|].
      intros w' subs' Hb' Hs'. apply (HQ w' subs' Hb'). rewrite Hs'. unfold sub_nodes. rewrite map_app.
      by rewrite <- app_assoc.
    + rewrite bool_decide_false in HQ by (intros H; by apply H).
      eapply wp_mono; [apply (fleet_add_offline w0 w fl m encode subs p rest n Hb Hn)|].
      { unfold node_has_agent. rewrite Eb. by apply bool_decide_false; intros H; apply H. }
      cbn beta. intros _ w1 Hb1. eapply IH; [exact Hb1|done|lia|]. exact HQ.
Qed.

(** A request to all agents, when no call fails: every connected agent is called
    exactly once, in the order of the nodes, and the client waits with one entry
    per agent; when no agent is connected, the client is answered at once, with
    an empty list, and nothing remains. *)
Theorem fleet_request_started {E : Env} (Hnf : no_local_failure E) (Hbus : no_bus_failure E)
  (w : World) (m : ptr) (encode : fleet_encoder)
  (Hnodes : Forall (fun p => exists n, w_nodes w !! p = Some n /\ 1 <= node_ref_count n)
              (c_nodes (w_controller w)))
  (Hnodup : NoDup (c_nodes (w_controller w)))
  (Hcount : c_number_of_nodes (w_controller w) = Z.of_nat (Datatypes.length (c_nodes (w_controller w)))) :
  wp (agent_fleet_request_start m encode)
     (fun r w' => r = 1 /\
        match List.filter (online (w_nodes w)) (c_nodes (w_controller w)) with
        | [] => w_fleets w' = delete (w_next_ptr w) (w_fleets w) /\
                w_trace w' = w_trace w ++ [ReplyReturn m []]
        | agents => exists subs, sub_nodes subs = agents /\ Forall (fun s => sr_m s = None) subs /\
            fleet_waiting w' (w_next_ptr w)
              (mkAgentFleetRequest m encode 0 (c_number_of_nodes (w_controller w)) subs) /\
            w_trace w' = w_trace w ++ map (fleet_call (w_nodes w) encode) subs
        end) w.
Proof.
  unfold agent_fleet_request_start. wp_one. apply (wp_local_ok_nf Hnf). cbn [negb]. wp_one. wp_one. wp_one.
  wp_one. set (fl := w_next_ptr w). cbn [w_controller tick field_update].
  set (f0 := mkAgentFleetRequest _ _ _ _ _). set (w1 := store_upd _ _). wp_one.
  assert (fleet_building w w1 fl m encode [] (c_nodes (w_controller w))) as Hb.
  { split; [done|constructor..| | | | |].
    - exact Hnodup.
    - constructor.
    - constructor.
    - by apply Forall_forall.
    - cbn. by rewrite app_nil_r. }
  eapply (fleet_add_nodes Hnf Hbus); [exact Hb|exact Hnodes|cbn; lia|].
  intros w2 subs [Hf Hreqs _ Hnd Hsubs Hnew _ Ht] Hs. cbn in Hs. rewrite <- Hs.
  unfold agent_fleet_request_maybe_done. wp_one. wp_one. eapply wp_load; [cbn; rewrite Hf; apply lookup_insert_eq|].
  unfold fl_n_sub_req. cbn [fl_n_done fl_sub_req]. destruct subs as [|s subs].
  - cbn [Datatypes.length Z.of_nat Z.eqb sub_nodes map].
    eapply (wp_agent_fleet_request_done Hnf fl); [rewrite Hf; apply lookup_insert_eq|constructor|].
    intros w3 Hq3 Ht3. unfold agent_fleet_request_free.
    assert (w_fleets w3 = w_fleets w2) as Hfl3 by (symmetry; exact (f_equal w_fleets Hq3)).
    wp_one. eapply wp_load; [cbn; rewrite Hfl3, Hf; apply lookup_insert_eq|]. cbn [fl_sub_req foreach]. wp_one. wp_one.
    eapply wp_free; [cbn; rewrite Hfl3, Hf; apply lookup_insert_eq|]. apply wp_ret. split; [done|]. split.
    + cbn. by rewrite Hfl3, Hf, delete_insert_eq.
    + cbn. by rewrite Ht3, Ht, app_nil_r.
  - assert ((0 =? Z.of_nat (Datatypes.length (s :: subs))) = false) as -> by by apply Z.eqb_neq.
    apply wp_ret. apply wp_ret. split; [done|]. exists (s :: subs). split_and!; [done|done| |exact Ht].
    split; [rewrite Hf; apply lookup_insert_eq| |done| |done].
    + cbn [fl_n_done fl_sub_req]. clear -Hnew. unfold n_answered.
      assert (List.filter answered (s :: subs) = []) as ->; [|done].
      induction Hnew as [|x l Hx Hl IH]; [done|]. cbn. unfold answered at 1. by rewrite Hx.
    + by rewrite app_nil_r in Hnd.
Qed.

Lemma fleet_request_started_witness :
  wp (agent_fleet_request_start 200 EncodeListUnits)
     (fun r w' => r = 1 /\ exists subs, sub_nodes subs = [1%positive] /\
        Forall (fun s => sr_m s = None) subs /\
        fleet_waiting w' 50 (mkAgentFleetRequest 200 EncodeListUnits 0 2 subs) /\
        w_trace w' = [] ++ map (fleet_call (w_nodes sample_world) EncodeListUnits) subs) sample_world.
Proof.
  apply (fleet_request_started sample_no_failure (fun _ _ => Z.le_refl 0) sample_world 200 EncodeListUnits).
  - repeat (constructor; [eexists; split; [reflexivity|by vm_compute]|]). constructor.
  - apply (bool_decide_unpack _). reflexivity.
  - reflexivity.
Defined.

(** A fleet request of which one answer is outstanding. *)
Definition sample_fleet : AgentFleetRequest :=
  mkAgentFleetRequest 200 EncodeListUnits 0 2 [mkSubReq 1 None 60].
Definition sample_fleet_waiting : World :=
  (set_node 1 (sample_node1 <| node_ref_count := 3 |>
                            <| node_outstanding_requests := [60%positive] |>) sample_world)
    <| w_reqs := {[60%positive :=
         mkAgentRequest 2 1 true "ListUnits" [] (agent_fleet_request_callback 70) false]} |>
    <| w_fleets := {[70%positive := sample_fleet]} |>.

Lemma sample_fleet_waiting_ok : fleet_waiting sample_fleet_waiting 70 sample_fleet.
Proof.
  split; [reflexivity|reflexivity|apply NoDup_singleton|apply NoDup_singleton|].
  constructor; [|constructor]. eexists _, _.
  split_and!; [reflexivity|reflexivity|reflexivity|reflexivity|reflexivity|reflexivity|left|by vm_compute].
Qed.

Lemma fleet_request_answered_witness :
  wp (agent_request_callback 60 (Some (MethodReturn 201)))
     (fun _ w' => fleet_gone 70 (fl_sub_req sample_fleet) sample_fleet_waiting w' /\
        w_trace w' = [] ++ [ReplyReturn 200 [VString "n1"; VCopy 201]]) sample_fleet_waiting.
Proof.
  exact (fleet_request_answered sample_no_failure sample_fleet_waiting 70 sample_fleet
    (mkSubReq 1 None 60) (MethodReturn 201) sample_fleet_waiting_ok (list_elem_of_here _ _) eq_refl).
Defined.
