(* ===== verification/BusProps.v ===== *)
(** libbluechi/bus/utils.c: reading the properties of a PropertiesChanged signal,
    an array of dictionary entries from a name to a variant. *)
From S2P Require Import Prelude CString StringUtil Protocol Socket World.

(** The rest of the array: an entry that cannot be read, or an entry with its
    key, the type of its value, what reading the value as a string gives, what
    leaving the entry (or skipping its value) returns, and what leaving the array
    right after it would return; at the end, what leaving the array returns. *)
Inductive properties :=
| PropsEnd (r : Z)
| PropsErr (r : Z)
| PropsEntry (key value_type : string) (value : read string) (leave exit : Z) (rest : properties).

(** What a callback returns: a negative error, 0 to go on, 1 to stop, 2 to skip
    the value. The calls after it may fail as well. *)
Fixpoint bus_parse_properties_foreach {D : Type}
    (cb : string -> string -> read string -> D -> Z * D) (m : properties) (userdata : D) : Z * D :=
  match m with
  | PropsErr r => (r, userdata)
  | PropsEnd r => (if r <? 0 then r else 0, userdata)
  | PropsEntry key value_type value leave exit rest =>
      let '(r, userdata) := cb key value_type value userdata in
      if r <? 0 then (r, userdata)
      else if leave <? 0 then (leave, userdata)
      else if r =? 1 then (if exit <? 0 then exit else 1, userdata)
      else bus_parse_properties_foreach cb rest userdata
  end.

Definition bus_parse_property_string_cb (name key value_type : string) (value : read string)
    (data : option string) : Z * option string :=
  if negb (streq name key) then (2, data)
  else if negb (streq value_type "s") then (- EIO, data)
  else match value with
       | ReadErr r => (r, data)
       | ReadOk s => (1, Some s)
       end.

(** The return value and [*value]. *)
Definition bus_parse_property_string (m : properties) (name : string) : Z * option string :=
  let '(r, value) := bus_parse_properties_foreach (bus_parse_property_string_cb name) m None in
  if r <? 0 then (r, value) else (if r =? 0 then - ENOENT else 0, value).

(** ** PropertiesChanged signals as the command line tools read them *)

(** A string in a variant: entering it, reading it, copying it and leaving it. *)
Record status_value := mkStatusValue {
  sv_enter : Z; sv_read : read string; sv_strdup : bool; sv_leave : Z;
}.
(** An entry of a PropertiesChanged signal; no key when reading it gives 0. *)
Record changed_property := mkChanged { cp_key : read (option string); cp_value : status_value }.
(** Entering the array, its entries (an entry that cannot be entered ends them like the
    end of the array), and leaving. *)
Record changed_properties := mkChangedProperties {
  pc_enter : Z; pc_entries : list changed_property; pc_leave : Z;
}.

Definition ENXIO : Z := 6.
(** Entering a dictionary entry while the cursor is still in one. *)
Definition enter_nested_entry : Z := - ENXIO.
