(* ===== verification/AgentWorld.v ===== *)
(** The state of the agent process: the objects of agent/agent.h, agent/proxy.h and
    agent/agent.c in stores indexed by their addresses, the calls the agent makes
    on its three buses, and the parts of agent.c that create and release objects.

    As in World.v a pointer is a [positive], [free] removes the object, and a later
    access through the pointer crashes. There is one agent; it is gone when its
    last reference is dropped. *)
From S2P Require Import Prelude CString StringUtil ParseUtil TimeUtil Protocol BusUtils Log Cfg.
From S2P Require Import Socket World.

(** ** Calls *)

(** The function called with the answer to a call to systemd. *)
Inductive systemd_callback :=
| PassthroughCb | ListUnitsCb | ListUnitFilesCb | GetUnitPropertiesCb | GetUnitPropertyCb
| SetUnitPropertiesCb | FreezeUnitCb | ThawUnitCb | UnitLifecycleCb | StartDepCb | StopDepCb
| JobCancelCb | StopProxyCb.

(** [Public*] goes to the bus of the clients, [Systemd*] to systemd, [Peer*] to the
    connection [bus] to the controller; [ReturnTo] and [ErrorTo] answer a message. *)
Inductive acall :=
| PublicAddVtable (path iface : string)
| PublicRequestName (name : string)
| PublicPropertiesChanged (path iface property : string)
| SystemdCall (member : string)
| SystemdMatch (member : string)
| SystemdCallAsync (path iface member : string) (args : list value) (cb : systemd_callback)
    (req : ptr)
| PeerOpen (address : string)
| PeerClose (bus : ptr)
| PeerSetOptions (bus : ptr) (opts : SocketOptions)
| PeerAddVtable (bus : ptr) (path iface : string)
| PeerMatchSignal (bus : ptr) (member : string)
| PeerEmitSignal (bus : ptr) (path iface member : string) (args : list value)
| PeerRegister (bus : ptr) (name : string)
| ReturnTo (m : ptr) (args : list value)
| ErrorTo (m : ptr) (name : string).

(** ** Objects *)

Inductive AgentConnectionState :=
| AGENT_CONNECTION_STATE_DISCONNECTED
| AGENT_CONNECTION_STATE_CONNECTED
| AGENT_CONNECTION_STATE_RETRY
| AGENT_CONNECTION_STATE_CONNECTING.
#[export] Instance AgentConnectionState_eq_dec : EqDecision AgentConnectionState.
Proof. solve_decision. Defined.

(** [sreq_slot] is the callback the slot holds once the call was made;
    [sreq_userdata] is only ever an [AgentJobOp] with its release function. *)
Record SystemdRequest := mkSystemdRequest {
  sreq_ref_count : Z;
  sreq_request_message : option ptr;
  sreq_slot : option systemd_callback;
  sreq_path : string;
  sreq_iface : string;
  sreq_member : string;
  sreq_args : list value;
  sreq_userdata : option ptr;
}.
#[export] Instance eta_SystemdRequest : EtaRecord SystemdRequest := fun r =>
  mkSystemdRequest (sreq_ref_count r) (sreq_request_message r) (sreq_slot r) (sreq_path r)
    (sreq_iface r) (sreq_member r) (sreq_args r) (sreq_userdata r).

Record AgentJobOp := mkAgentJobOp {
  op_ref_count : Z;
  op_bc_job_id : Z;
  op_job_start_micros : Z;
  op_unit : option string;
  op_method : option string;
}.
#[export] Instance eta_AgentJobOp : EtaRecord AgentJobOp := fun o =>
  mkAgentJobOp (op_ref_count o) (op_bc_job_id o) (op_job_start_micros o) (op_unit o) (op_method o).

(** The callback is always [agent_job_done], the userdata an [AgentJobOp]. *)
Record JobTracker := mkJobTracker {
  track_job_object_path : string;
  track_userdata : ptr;
}.

(** [ps_agent] is whether the weak reference is set; [ps_export_slot] is the
    connection the object is exported on. *)
Record ProxyService := mkProxyService {
  ps_ref_count : Z;
  ps_id : Z;
  ps_agent : bool;
  ps_node_name : string;
  ps_unit_name : string;
  ps_local_service_name : string;
  ps_request_message : option ptr;
  ps_sent_new_proxy : bool;
  ps_dont_stop_proxy : bool;
  ps_sent_successful_ready : bool;
  ps_export_slot : option ptr;
  ps_object_path : string;
}.
#[export] Instance eta_ProxyService : EtaRecord ProxyService := fun p =>
  mkProxyService (ps_ref_count p) (ps_id p) (ps_agent p) (ps_node_name p) (ps_unit_name p)
    (ps_local_service_name p) (ps_request_message p) (ps_sent_new_proxy p) (ps_dont_stop_proxy p)
    (ps_sent_successful_ready p) (ps_export_slot p) (ps_object_path p).

(** [ui_active_state] is [None] for the value -1 of a new entry, which is none of
    the enumerators. *)
Record AgentUnitInfo := mkAgentUnitInfo {
  ui_object_path : string;
  ui_unit : string;
  ui_subscribed : bool;
  ui_loaded : bool;
  ui_active_state : option UnitActiveState;
  ui_substate : option string;
}.
#[export] Instance eta_AgentUnitInfo : EtaRecord AgentUnitInfo := fun u =>
  mkAgentUnitInfo (ui_object_path u) (ui_unit u) (ui_subscribed u) (ui_loaded u)
    (ui_active_state u) (ui_substate u).

Record Agent := mkAgent {
  ag_ref_count : Z;
  ag_systemd_user : bool;
  ag_name : option string;
  ag_api_bus_service_name : string;
  ag_host : option string;
  ag_port : Z;
  ag_controller_address : option string;
  ag_assembled_controller_address : option string;
  ag_heartbeat_interval_msec : Z;
  ag_controller_heartbeat_threshold_msec : Z;
  ag_connection_state : AgentConnectionState;
  ag_connection_retry_count : Z;
  ag_controller_last_seen : Z;
  ag_controller_last_seen_monotonic : Z;
  ag_disconnect_timestamp : Z;
  ag_disconnect_timestamp_monotonic : Z;
  ag_connection_retry_count_until_quiet : Z;
  ag_peer_socket_options : SocketOptions;
  ag_peer_dbus : option ptr;
  ag_register_call_slot : bool;
  ag_metrics_enabled : bool;
  ag_metrics_slot : option ptr;
  ag_outstanding_requests : list ptr;
  ag_tracked_jobs : list ptr;
  ag_proxy_services : list ptr;
  ag_unit_infos : gmap string AgentUnitInfo;
  ag_wildcard_subscription_active : bool;
  ag_config : config_t;
}.
#[export] Instance eta_Agent : EtaRecord Agent := fun a =>
  mkAgent (ag_ref_count a) (ag_systemd_user a) (ag_name a) (ag_api_bus_service_name a)
    (ag_host a) (ag_port a) (ag_controller_address a) (ag_assembled_controller_address a)
    (ag_heartbeat_interval_msec a) (ag_controller_heartbeat_threshold_msec a)
    (ag_connection_state a) (ag_connection_retry_count a) (ag_controller_last_seen a)
    (ag_controller_last_seen_monotonic a) (ag_disconnect_timestamp a)
    (ag_disconnect_timestamp_monotonic a) (ag_connection_retry_count_until_quiet a)
    (ag_peer_socket_options a) (ag_peer_dbus a) (ag_register_call_slot a) (ag_metrics_enabled a)
    (ag_metrics_slot a) (ag_outstanding_requests a) (ag_tracked_jobs a) (ag_proxy_services a)
    (ag_unit_infos a) (ag_wildcard_subscription_active a) (ag_config a).

(** ** The process *)

Record AgentWorld := mkAgentWorld {
  aw_agent : option Agent;
  aw_reqs : gmap ptr SystemdRequest;
  aw_ops : gmap ptr AgentJobOp;
  aw_trackers : gmap ptr JobTracker;
  aw_proxies : gmap ptr ProxyService;
  aw_log : BcLogConfig;
  aw_next_ptr : ptr;
  aw_next_id : Z;             (* the counter of [proxy_service_new] *)
  aw_mallocs : nat;           (* allocations so far *)
  aw_locals : nat;            (* messages built or read so far *)
  aw_clocks : nat;
  aw_resolutions : nat;
  aw_trace : list acall;      (* calls so far, oldest first *)
}.
#[export] Instance eta_AgentWorld : EtaRecord AgentWorld := fun w =>
  mkAgentWorld (aw_agent w) (aw_reqs w) (aw_ops w) (aw_trackers w) (aw_proxies w) (aw_log w)
    (aw_next_ptr w) (aw_next_id w) (aw_mallocs w) (aw_locals w) (aw_clocks w) (aw_resolutions w)
    (aw_trace w).

(** What the agent cannot decide itself; every call has a result of its own. *)
Class AgentEnv := {
  malloc_result : nat -> bool;
  message_result : nat -> Z;
  acall_result : nat -> acall -> Z;
  realtime : nat -> option timespec;
  monotonic : nat -> option timespec;
  getaddrinfo : nat -> string -> resolution;
}.

Definition AM (A : Type) : Type := M AgentWorld A.

(** ** Stores *)

Class AgentStore (T : Type) := {
  astore_get : AgentWorld -> gmap ptr T;
  astore_upd : (gmap ptr T -> gmap ptr T) -> AgentWorld -> AgentWorld;
}.
#[export] Instance astore_SystemdRequest : AgentStore SystemdRequest :=
  {| astore_get := aw_reqs; astore_upd := fun f w => w <| aw_reqs ::= f |> |}.
#[export] Instance astore_AgentJobOp : AgentStore AgentJobOp :=
  {| astore_get := aw_ops; astore_upd := fun f w => w <| aw_ops ::= f |> |}.
#[export] Instance astore_JobTracker : AgentStore JobTracker :=
  {| astore_get := aw_trackers; astore_upd := fun f w => w <| aw_trackers ::= f |> |}.
#[export] Instance astore_ProxyService : AgentStore ProxyService :=
  {| astore_get := aw_proxies; astore_upd := fun f w => w <| aw_proxies ::= f |> |}.

Definition aload {T} `{AgentStore T} (p : ptr) : AM T := deref (fun w => astore_get w !! p).
Definition aupdate {T} `{AgentStore T} (p : ptr) (f : T -> T) : AM void :=
  x ← aload p; modify (astore_upd <[p := f x]>).
Definition anew {T} `{AgentStore T} (x : T) : AM ptr := fun w =>
  let p := aw_next_ptr w in
  Ret p (astore_upd <[p := x]> (w <| aw_next_ptr ::= Pos.succ |>)).
Definition afree {T} `{AgentStore T} (p : ptr) : AM void :=
  _x ← aload (T := T) p; modify (astore_upd (T := T) (delete p)).

Definition the_agent : AM Agent := deref aw_agent.
Definition upd_agent (f : Agent -> Agent) : AM void :=
  a ← the_agent; modify (fun w => w <| aw_agent := Some (f a) |>).

(** [LIST_REMOVE]. *)
Definition alist_remove_from (x : ptr) (l : list ptr) : AM (list ptr) :=
  c_assert (bool_decide (x ∈ l)) ;; mret (remove_first x l).

Section calls.
Context {E : AgentEnv}.

Definition amalloc : AM bool := fun w =>
  Ret (malloc_result (aw_mallocs w)) (w <| aw_mallocs ::= S |>).
(** Building or reading a message inside the process. *)
Definition amessage : AM Z := fun w =>
  Ret (message_result (aw_locals w)) (w <| aw_locals ::= S |>).
Definition abus (c : acall) : AM Z := fun w =>
  Ret (acall_result (Datatypes.length (aw_trace w)) c) (w <| aw_trace ::= fun t => app t [c] |>).

Definition agent_time (clock : nat -> option timespec) : AM Z := fun w =>
  match clock (aw_clocks w) with
  | Some ts => Ret (timespec_to_micros ts) (w <| aw_clocks ::= S |>)
  | None => Crash AssertionFailure
  end.
Definition aget_time_micros : AM Z := agent_time realtime.
Definition aget_time_micros_monotonic : AM Z := agent_time monotonic.

(** A call on [agent->peer_dbus]; sd-bus refuses a NULL bus. *)
Definition peer (c : ptr -> acall) : AM Z :=
  a ← the_agent;
  match ag_peer_dbus a with
  | None => mret (- EINVAL)
  | Some b => abus (c b)
  end.

(** Replies; sd-bus refuses a NULL message. *)
Definition return_to (m : ptr) (args : list value) : AM Z := abus (ReturnTo m args).
Definition error_to (m : ptr) (name : string) : AM Z := abus (ErrorTo m name).
Definition return_to_opt (m : option ptr) (args : list value) : AM Z :=
  match m with Some m => return_to m args | None => mret (- EINVAL) end.
Definition error_to_opt (m : option ptr) (name : string) : AM Z :=
  match m with Some m => error_to m name | None => mret (- EINVAL) end.
End calls.

Definition BC_AGENT_DBUS_NAME : string := "org.eclipse.bluechi.Agent".
Definition BC_AGENT_OBJECT_PATH : string := BC_OBJECT_PATH.
Definition AGENT_INTERFACE : string := "org.eclipse.bluechi.Agent".
Definition INTERNAL_AGENT_OBJECT_PATH : string := BC_OBJECT_PATH ++ "/internal/agent".
Definition INTERNAL_AGENT_METRICS_OBJECT_PATH : string := INTERNAL_AGENT_OBJECT_PATH ++ "/metrics".
Definition INTERNAL_AGENT_INTERFACE : string := "org.eclipse.bluechi.internal.Agent".
Definition INTERNAL_PROXY_INTERFACE : string := "org.eclipse.bluechi.internal.Proxy".
Definition INTERNAL_AGENT_METRICS_INTERFACE : string := INTERNAL_AGENT_INTERFACE ++ ".Metrics".
Definition SYSTEMD_OBJECT_PATH : string := "/org/freedesktop/systemd1".
Definition SYSTEMD_MANAGER_IFACE : string := "org.freedesktop.systemd1.Manager".
Definition SYSTEMD_UNIT_IFACE : string := "org.freedesktop.systemd1.Unit".
Definition SYSTEMD_JOB_IFACE : string := "org.freedesktop.systemd1.Job".
Definition CONTROLLER_HEARTBEAT_SIGNAL_NAME : string := "Heartbeat".
