(* ===== verification/AgentRequests.v ===== *)
(** agent/agent.c: references to the agent, job operations, requests to systemd,
    the methods the agent forwards to systemd, unit lifecycle operations and the
    tracking of systemd's jobs. *)
From S2P Require Import Prelude CString StringUtil ParseUtil TimeUtil Protocol BusUtils Log Cfg.
From S2P Require Import Socket BusProps World AgentWorld.

Section agent_requests.
Context {E : AgentEnv}.

(** ** The agent *)

Definition agent_ref : AM void :=
  a ← the_agent;
  c_assert (0 <? ag_ref_count a) ;;
  upd_agent (fun a => a <| ag_ref_count ::= Z.succ |>).

(** The last reference releases the agent with the slots and buses it holds. *)
Definition agent_unref : AM void :=
  a ← the_agent;
  c_assert (0 <? ag_ref_count a) ;;
  upd_agent (fun a => a <| ag_ref_count ::= Z.pred |>) ;;
  a ← the_agent;
  if negb (ag_ref_count a =? 0) then mret tt else
  c_assert (bool_decide (ag_proxy_services a = [])) ;;
  modify (fun w => w <| aw_agent := None |>).

Definition agent_is_connected (agent : option Agent) : bool :=
  match agent with
  | None => false
  | Some a => bool_decide (ag_connection_state a = AGENT_CONNECTION_STATE_CONNECTED)
  end.

Definition agent_is_online (agent : option Agent) : string :=
  if agent_is_connected agent then "online" else "offline".

(** ** Job operations *)

Definition agent_job_op_ref (p : ptr) : AM ptr :=
  aupdate p (fun o : AgentJobOp => o <| op_ref_count ::= Z.succ |>) ;; mret p.

Definition agent_job_op_unref (p : ptr) : AM void :=
  aupdate p (fun o : AgentJobOp => o <| op_ref_count ::= Z.pred |>) ;;
  o ← aload (T := AgentJobOp) p;
  if negb (op_ref_count o =? 0) then mret tt else
  agent_unref ;;
  afree (T := AgentJobOp) p.

Definition strdup (s : string) : AM (option string) :=
  ok ← amalloc; mret (if ok : bool then Some s else None).

(** The results of the two [strdup] are not tested. *)
Definition agent_job_new (bc_job_id : Z) (unit method : string) : AM (option ptr) :=
  ok ← amalloc;
  if negb ok then mret None else
  agent_ref ;;
  u ← strdup unit;
  me ← strdup method;
  p ← anew (mkAgentJobOp 1 bc_job_id 0 u me);
  mret (Some p).

(** ** Requests to systemd *)

Definition systemd_request_ref (p : ptr) : AM ptr :=
  aupdate p (fun r : SystemdRequest => r <| sreq_ref_count ::= Z.succ |>) ;; mret p.

Definition systemd_request_unref (p : ptr) : AM void :=
  aupdate p (fun r : SystemdRequest => r <| sreq_ref_count ::= Z.pred |>) ;;
  r ← aload (T := SystemdRequest) p;
  if negb (sreq_ref_count r =? 0) then mret tt else
  match sreq_userdata r with
  | Some op => agent_job_op_unref op
  | None => mret tt
  end ;;
  a ← the_agent;
  l ← alist_remove_from p (ag_outstanding_requests a);
  upd_agent (fun a => a <| ag_outstanding_requests := l |>) ;;
  agent_unref ;;
  afree (T := SystemdRequest) p.

Definition agent_create_request_full (request_message : option ptr)
    (object_path iface method : string) : AM (option ptr) :=
  ok ← amalloc;
  if negb ok then mret None else
  agent_ref ;;
  p ← anew (mkSystemdRequest 1 request_message None object_path iface method [] None);
  upd_agent (fun a => a <| ag_outstanding_requests ::= fun l => app l [p] |>) ;;
  r ← amessage;
  if r <? 0 then systemd_request_unref p ;; mret None else mret (Some p).

Definition agent_create_request (request_message : option ptr) (method : string) :
    AM (option ptr) :=
  agent_create_request_full request_message SYSTEMD_OBJECT_PATH SYSTEMD_MANAGER_IFACE method.

Definition systemd_request_set_userdata (p userdata : ptr) : AM void :=
  aupdate p (fun r : SystemdRequest => r <| sreq_userdata := Some userdata |>).

(** [sd_bus_message_append]/[copy] to [req->message]. *)
Definition systemd_request_append (p : ptr) (args : list value) : AM Z :=
  r ← amessage;
  if r <? 0 then mret r
  else aupdate p (fun q : SystemdRequest => q <| sreq_args ::= fun l => app l args |>) ;; mret r.

Definition systemd_request_start (p : ptr) (callback : systemd_callback) : AM bool :=
  req ← aload (T := SystemdRequest) p;
  match sreq_userdata req with
  | Some op =>
      now ← aget_time_micros;
      aupdate op (fun o : AgentJobOp => o <| op_job_start_micros := now |>)
  | None => mret tt
  end ;;
  r ← abus (SystemdCallAsync (sreq_path req) (sreq_iface req) (sreq_member req) (sreq_args req)
              callback p);
  if r <? 0 then mret false else
  aupdate p (fun q : SystemdRequest => q <| sreq_slot := Some callback |>) ;;
  _p ← systemd_request_ref p;
  mret true.

(** A scope with a [_cleanup_systemd_request_] variable. *)
Definition with_request {A} (p : ptr) (body : AM A) : AM A :=
  r ← body; systemd_request_unref p ;; mret r.

(** ** Forwarded methods *)

(** The callbacks of forwarded methods: the answer of systemd, or its error,
    becomes the answer to the request. *)
Definition forward_answer (p : ptr) (m : response) : AM Z :=
  with_request p
    (req ← aload (T := SystemdRequest) p;
     match m with
     | MethodError name => error_to_opt (sreq_request_message req) name
     | MethodReturn m =>
         r ← amessage;                                   (* new_method_return *)
         if r <? 0 then mret r else
         r ← amessage;                                   (* copy *)
         if r <? 0 then mret r else
         return_to_opt (sreq_request_message req) [VCopy m]
     end).

Definition agent_method_passthrough_to_systemd_cb := forward_answer.
Definition list_units_callback := forward_answer.
Definition list_unit_files_callback := forward_answer.
Definition get_unit_properties_got_properties := forward_answer.
Definition get_unit_property_got_property := forward_answer.
Definition set_unit_properties_cb := forward_answer.
Definition freeze_unit_cb := forward_answer.
Definition thaw_unit_cb := forward_answer.

(** What every method does with its request: append the arguments, start it,
    answer a failure. [done] is the rest of the method. *)
Fixpoint append_all (p : ptr) (parts : list (list value)) : AM bool :=
  match parts with
  | [] => mret true
  | args :: parts' =>
      r ← systemd_request_append p args;
      if r <? 0 then mret false else append_all p parts'
  end.

Definition call_systemd (m : ptr) (req : option ptr) (parts : list (list value))
    (callback : systemd_callback) (done : AM Z) : AM Z :=
  match req with
  | None => error_to m SD_BUS_ERROR_FAILED
  | Some p =>
      with_request p
        (ok ← append_all p parts;
         if negb ok then error_to m SD_BUS_ERROR_FAILED else
         started ← systemd_request_start p callback;
         if negb started then error_to m SD_BUS_ERROR_FAILED else done)
  end.

Definition agent_method_passthrough_to_systemd (m : ptr) (member : string) : AM Z :=
  req ← agent_create_request (Some m) member;
  call_systemd m req [[VCopy m]] PassthroughCb (mret 1).

Definition agent_method_list_units (m : ptr) : AM Z :=
  req ← agent_create_request (Some m) "ListUnits";
  call_systemd m req [] ListUnitsCb (mret 1).

Definition agent_method_list_unit_files (m : ptr) : AM Z :=
  req ← agent_create_request (Some m) "ListUnitFiles";
  call_systemd m req [] ListUnitFilesCb (mret 1).

(** [assemble_object_path_string(SYSTEMD_OBJECT_PATH "/unit", unit, &unit_path)]. *)
Definition assemble_unit_path (unit : string) : AM (Z * option string) :=
  malloc_ok ← amalloc;
  asprintf_ok ← (if malloc_ok : bool then amalloc else mret false);
  mret (assemble_object_path_string malloc_ok asprintf_ok (SYSTEMD_OBJECT_PATH ++ "/unit") unit).

(** The body of the methods on the object of one unit. *)
Definition unit_request (m : ptr) (unit iface method : string) (parts : list (list value))
    (callback : systemd_callback) : AM Z :=
  path ← assemble_unit_path unit;
  match path with
  | (r, Some unit_path) =>
      if r <? 0 then error_to m SD_BUS_ERROR_NO_MEMORY else
      req ← agent_create_request_full (Some m) unit_path iface method;
      call_systemd m req parts callback (mret 1)
  | (_, None) => error_to m SD_BUS_ERROR_NO_MEMORY
  end.

Definition PROPERTIES_IFACE : string := "org.freedesktop.DBus.Properties".

Definition agent_method_get_unit_properties (m : ptr) (args : read (string * string)) : AM Z :=
  match args with
  | ReadErr _ => error_to m SD_BUS_ERROR_FAILED
  | ReadOk (unit, interface) =>
      unit_request m unit PROPERTIES_IFACE "GetAll" [[VString interface]] GetUnitPropertiesCb
  end.

Definition agent_method_get_unit_property (m : ptr) (args : read (string * string * string)) :
    AM Z :=
  match args with
  | ReadErr _ => error_to m SD_BUS_ERROR_FAILED
  | ReadOk (unit, interface, property) =>
      unit_request m unit PROPERTIES_IFACE "Get" [[VString interface; VString property]]
        GetUnitPropertyCb
  end.

Definition agent_method_set_unit_properties (m : ptr) (args : read (string * bool)) : AM Z :=
  match args with
  | ReadErr _ => error_to m SD_BUS_ERROR_FAILED
  | ReadOk (unit, runtime) =>
      unit_request m unit SYSTEMD_UNIT_IFACE "SetProperties" [[VBool runtime]; [VCopy m]]
        SetUnitPropertiesCb
  end.

Definition agent_method_freeze_unit (m : ptr) (args : read string) : AM Z :=
  match args with
  | ReadErr _ => error_to m SD_BUS_ERROR_INVALID_ARGS
  | ReadOk unit => unit_request m unit SYSTEMD_UNIT_IFACE "Freeze" [] FreezeUnitCb
  end.

Definition agent_method_thaw_unit (m : ptr) (args : read string) : AM Z :=
  match args with
  | ReadErr _ => error_to m SD_BUS_ERROR_INVALID_ARGS
  | ReadOk unit => unit_request m unit SYSTEMD_UNIT_IFACE "Thaw" [] ThawUnitCb
  end.

(** ** Jobs *)

(** [unit] and [method] are NULL when their copies failed. *)
Definition agent_send_job_metrics (unit method : option string) (systemd_job_time : Z) : AM Z :=
  _r ← peer (fun b => PeerEmitSignal b INTERNAL_AGENT_METRICS_OBJECT_PATH
                        INTERNAL_AGENT_METRICS_INTERFACE "AgentJobMetrics"
                        [VString (default "" unit); VString (default "" method);
                         VUint64 systemd_job_time]);
  mret 0.

(** [finalize_time_interval_micros] with the clock it reads. *)
Definition agent_finalize_interval (start_time_micros : Z) : AM Z := fun w =>
  match realtime (aw_clocks w) with
  | Some ts => Ret (finalize_time_interval_micros ts start_time_micros)
                 (w <| aw_clocks ::= S |>)
  | None => Crash AssertionFailure
  end.

Definition agent_job_done (result : string) (op : ptr) : AM void :=
  o ← aload (T := AgentJobOp) op;
  a ← the_agent;
  (if ag_metrics_enabled a then
     t ← agent_finalize_interval (op_job_start_micros o);
     _r ← agent_send_job_metrics (op_unit o) (op_method o) t;
     mret tt
   else mret tt) ;;
  _r ← peer (fun b => PeerEmitSignal b INTERNAL_AGENT_OBJECT_PATH INTERNAL_AGENT_INTERFACE
                        "JobDone" [VUint (op_bc_job_id o); VString result]);
  mret tt.

Definition job_tracker_free (p : ptr) : AM void :=
  t ← aload (T := JobTracker) p;
  agent_job_op_unref (track_userdata t) ;;
  afree (T := JobTracker) p.

(** A tracker that fails half-way has no userdata yet, which is not released. *)
Definition agent_track_job (job_object_path : string) (userdata : ptr) : AM bool :=
  ok ← amalloc;
  if negb ok then mret false else
  path ← strdup job_object_path;
  match path with
  | None => mret false
  | Some path =>
      p ← anew (mkJobTracker path userdata);
      upd_agent (fun a => a <| ag_tracked_jobs ::= cons p |>) ;;
      mret true
  end.

(** [path] is the job path read from the answer [m]. *)
Definition unit_lifecycle_method_callback (p : ptr) (m : response) (path : read string) : AM Z :=
  with_request p
    (req ← aload (T := SystemdRequest) p;
     match m with
     | MethodError name => error_to_opt (sreq_request_message req) name
     | MethodReturn _ =>
         match path with
         | ReadErr _ => error_to_opt (sreq_request_message req) SD_BUS_ERROR_FAILED
         | ReadOk job_object_path =>
             match sreq_userdata req with
             | None => crash_with InvalidPointer
             | Some op =>
                 op ← agent_job_op_ref op;
                 ok ← agent_track_job job_object_path op;
                 if negb ok then error_to_opt (sreq_request_message req) SD_BUS_ERROR_FAILED
                 else return_to_opt (sreq_request_message req) []
             end
         end
     end).

Definition agent_run_unit_lifecycle_method (m : ptr) (args : read (string * string * Z))
    (method : string) : AM Z :=
  match args with
  | ReadErr _ => error_to m SD_BUS_ERROR_INVALID_ARGS
  | ReadOk (name, mode, job_id) =>
      req ← agent_create_request (Some m) method;
      match req with
      | None => error_to m SD_BUS_ERROR_FAILED
      | Some req =>
          with_request req
            (op ← agent_job_new job_id name method;
             match op with
             | None => error_to m SD_BUS_ERROR_FAILED
             | Some op =>
                 userdata ← agent_job_op_ref op;
                 systemd_request_set_userdata req userdata ;;
                 r ← systemd_request_append req [VString name; VString mode];
                 r ← (if r <? 0 then error_to m SD_BUS_ERROR_FAILED else
                      started ← systemd_request_start req UnitLifecycleCb;
                      if negb started then error_to m SD_BUS_ERROR_FAILED else mret 1);
                 agent_job_op_unref op ;;                (* _cleanup_agent_job_op_ *)
                 mret r
             end)
      end
  end.
Definition agent_method_start_unit (m : ptr) (args : read (string * string * Z)) : AM Z :=
  agent_run_unit_lifecycle_method m args "StartUnit".
Definition agent_method_stop_unit (m : ptr) (args : read (string * string * Z)) : AM Z :=
  agent_run_unit_lifecycle_method m args "StopUnit".
Definition agent_method_restart_unit (m : ptr) (args : read (string * string * Z)) : AM Z :=
  agent_run_unit_lifecycle_method m args "RestartUnit".
Definition agent_method_reload_unit (m : ptr) (args : read (string * string * Z)) : AM Z :=
  agent_run_unit_lifecycle_method m args "ReloadUnit".

(** The callback answers once more what the method has answered already. *)
Definition job_cancel_callback (p : ptr) (m : response) : AM Z :=
  with_request p
    (req ← aload (T := SystemdRequest) p;
     match m with
     | MethodError name => error_to_opt (sreq_request_message req) name
     | MethodReturn _ =>
         r ← amessage;
         if r <? 0 then error_to_opt (sreq_request_message req) SD_BUS_ERROR_FAILED
         else return_to_opt (sreq_request_message req) []
     end).

Definition agent_find_jobtracker_by_bluechi_id (bc_job_id : Z) : AM (option ptr) :=
  a ← the_agent;
  find_first (ag_tracked_jobs a) (fun p =>
    t ← aload (T := JobTracker) p;
    o ← aload (T := AgentJobOp) (track_userdata t);
    mret (op_bc_job_id o =? bc_job_id)).

Definition agent_method_job_cancel (m : ptr) (args : read Z) : AM Z :=
  match args with
  | ReadErr _ => error_to m SD_BUS_ERROR_FAILED
  | ReadOk bc_job_id =>
      tracker ← agent_find_jobtracker_by_bluechi_id bc_job_id;
      match tracker with
      | None => error_to m SD_BUS_ERROR_FAILED
      | Some tracker =>
          t ← aload (T := JobTracker) tracker;
          req ← agent_create_request_full (Some m) (track_job_object_path t) SYSTEMD_JOB_IFACE
                  "Cancel";
          call_systemd m req [] JobCancelCb (return_to m [])
      end
  end.

(** The first tracker of the job with this path. *)
Definition find_tracker (job_object_path : string) : AM (option ptr) :=
  a ← the_agent;
  find_first (ag_tracked_jobs a) (fun p =>
    t ← aload (T := JobTracker) p;
    mret (streq (track_job_object_path t) job_object_path)).

(** [interface] is the first argument of the signal, [m] the properties after it. *)
Definition agent_match_job_changed (object_path : string) (interface : read string)
    (m : properties) : AM Z :=
  match interface with
  | ReadErr r => mret r
  | ReadOk interface =>
      if negb (streq interface SYSTEMD_JOB_IFACE) then mret 0 else
      track ← find_tracker object_path;
      match track with
      | None => mret 0
      | Some track =>
          t ← aload (T := JobTracker) track;
          match bus_parse_property_string m "State" with
          | (r, state) =>
              if r <? 0 then mret (if r =? - ENOENT then 0 else r) else
              o ← aload (T := AgentJobOp) (track_userdata t);
              _r ← peer (fun b => PeerEmitSignal b INTERNAL_AGENT_OBJECT_PATH
                                    INTERNAL_AGENT_INTERFACE "JobStateChanged"
                                    [VUint (op_bc_job_id o); VString (default "" state)]);
              mret 0
          end
      end
  end.

Definition agent_match_job_removed (args : read (Z * string * string * string)) : AM Z :=
  match args with
  | ReadErr r => mret r
  | ReadOk (_, job_path, _, result) =>
      track ← find_tracker job_path;
      match track with
      | None => mret 0
      | Some track =>
          a ← the_agent;
          l ← alist_remove_from track (ag_tracked_jobs a);
          upd_agent (fun a => a <| ag_tracked_jobs := l |>) ;;
          t ← aload (T := JobTracker) track;
          agent_job_done result (track_userdata t) ;;
          job_tracker_free track ;;
          mret 0
      end
  end.

(** ** Dependencies *)

Definition get_dep_unit (unit_name : string) : AM (option string) :=
  ok ← amalloc; mret (strcat_dup ok "bluechi-dep@" unit_name).

Definition drop_answer (p : ptr) : AM Z := with_request p (mret 0).
Definition start_dep_callback (p : ptr) (m : response) : AM Z := drop_answer p.
Definition stop_dep_callback (p : ptr) (m : response) : AM Z := drop_answer p.
Definition stop_proxy_callback (p : ptr) (m : response) : AM Z := drop_answer p.

(** The success of the two methods is not answered. *)
Definition dep_method (m : ptr) (args : read string) (method : string)
    (callback : systemd_callback) : AM Z :=
  match args with
  | ReadErr _ => error_to m SD_BUS_ERROR_INVALID_ARGS
  | ReadOk unit =>
      dep_unit ← get_dep_unit unit;
      match dep_unit with
      | None => error_to m SD_BUS_ERROR_FAILED
      | Some dep_unit =>
          req ← agent_create_request (Some m) method;
          call_systemd m req [[VString dep_unit; VString "replace"]] callback (mret 0)
      end
  end.
Definition agent_method_start_dep (m : ptr) (args : read string) : AM Z :=
  dep_method m args "StartUnit" StartDepCb.
Definition agent_method_stop_dep (m : ptr) (args : read string) : AM Z :=
  dep_method m args "StopUnit" StopDepCb.

(** ** Metrics and log level *)

Definition agent_method_enable_metrics (m : ptr) : AM Z :=
  a ← the_agent;
  if ag_metrics_enabled a then error_to m SD_BUS_ERROR_INVALID_ARGS else
  upd_agent (fun a => a <| ag_metrics_enabled := true |>) ;;
  r ← peer (fun b => PeerAddVtable b INTERNAL_AGENT_METRICS_OBJECT_PATH
                       INTERNAL_AGENT_METRICS_INTERFACE);
  if r <? 0 then mret r else
  upd_agent (fun a => a <| ag_metrics_slot := ag_peer_dbus a |>) ;;
  return_to m [].

Definition agent_method_disable_metrics (m : ptr) : AM Z :=
  a ← the_agent;
  if negb (ag_metrics_enabled a) then error_to m SD_BUS_ERROR_INVALID_ARGS else
  upd_agent (fun a => a <| ag_metrics_enabled := false |> <| ag_metrics_slot := None |>) ;;
  return_to m [].

Definition agent_method_set_log_level (m : ptr) (args : read string) : AM Z :=
  match args with
  | ReadErr _ => error_to m SD_BUS_ERROR_FAILED
  | ReadOk level =>
      let loglevel := string_to_log_level (Some level) in
      if bool_decide (loglevel = LOG_LEVEL_INVALID) then error_to m SD_BUS_ERROR_FAILED else
      modify (fun w => w <| aw_log ::= bc_log_set_level loglevel |>) ;;
      return_to m []
  end.

(** The values the property getters append. *)
Definition agent_property_get_status : AM value :=
  a ← the_agent; mret (VString (agent_is_online (Some a))).
Definition agent_property_get_log_level : AM value :=
  log ← gets aw_log; mret (VString (log_level_to_string (log_level log))).
Definition agent_property_get_log_target : AM value :=
  log ← gets aw_log; mret (VString (default "" (log_target_to_str (log_fn log)))).

(** The callback of a request, run with the answer of systemd. *)
Definition run_systemd_callback (p : ptr) (m : response) (path : read string) : AM Z :=
  req ← aload (T := SystemdRequest) p;
  match sreq_slot req with
  | None => crash_with InvalidPointer
  | Some cb =>
      match cb with
      | PassthroughCb => agent_method_passthrough_to_systemd_cb p m
      | ListUnitsCb => list_units_callback p m
      | ListUnitFilesCb => list_unit_files_callback p m
      | GetUnitPropertiesCb => get_unit_properties_got_properties p m
      | GetUnitPropertyCb => get_unit_property_got_property p m
      | SetUnitPropertiesCb => set_unit_properties_cb p m
      | FreezeUnitCb => freeze_unit_cb p m
      | ThawUnitCb => thaw_unit_cb p m
      | UnitLifecycleCb => unit_lifecycle_method_callback p m path
      | StartDepCb => start_dep_callback p m
      | StopDepCb => stop_dep_callback p m
      | JobCancelCb => job_cancel_callback p m
      | StopProxyCb => stop_proxy_callback p m
      end
  end.
End agent_requests.
