(* ===== verification/AgentUnits.v ===== *)
(** agent/agent.c: what the agent knows of the units of its systemd, the
    subscriptions of the controller, and the signals it forwards. *)
From S2P Require Import Prelude CString StringUtil ParseUtil TimeUtil Protocol BusUtils Log Cfg.
From S2P Require Import Socket BusProps World AgentWorld AgentRequests.

Section agent_units.
Context {E : AgentEnv}.

(** ** Unit infos

    The hash map is keyed by the object path of the unit. A pointer to an entry is
    its key: no handler adds or removes another entry while it holds one. *)

Definition make_unit_path (unit : string) : AM (option string) :=
  malloc_ok ← amalloc;
  match bus_path_escape malloc_ok unit with
  | None => mret None
  | Some escaped =>
      malloc_ok ← amalloc;
      mret (strcat_dup malloc_ok (SYSTEMD_OBJECT_PATH ++ "/unit/") escaped)
  end.

Definition unit_info_get_substate (info : AgentUnitInfo) : string :=
  default "invalid" (ui_substate info).

Definition state_to_string (s : option UnitActiveState) : string :=
  match s with
  | Some s => active_state_to_string s
  | None => "invalid"
  end.

Record UpdateStateData := mkUpdateStateData {
  data_active_state : option UnitActiveState;
  data_substate : string;
}.
#[export] Instance eta_UpdateStateData : EtaRecord UpdateStateData := fun d =>
  mkUpdateStateData (data_active_state d) (data_substate d).

Definition unit_info_update_state_cb (key value_type : string) (value : read string)
    (data : UpdateStateData) : Z * UpdateStateData :=
  if negb (streq key "ActiveState") && negb (streq key "SubState") && negb (streq value_type "s")
  then (2, data)
  else match value with
       | ReadErr r => (r, data)
       | ReadOk value =>
           if streq key "ActiveState" then
             (0, data <| data_active_state := Some (active_state_from_string value) |>)
           else if streq key "SubState" then (0, data <| data_substate := value |>)
           else (0, data)
       end.

(** The entry after the change (a copy of the substate may fail) and whether it
    changed. *)
Definition unit_info_update_state (info : AgentUnitInfo) (m : properties) :
    AM (AgentUnitInfo * bool) :=
  let '(r, data) := bus_parse_properties_foreach unit_info_update_state_cb m
                      (mkUpdateStateData (ui_active_state info) (unit_info_get_substate info)) in
  if r <? 0 then mret (info, false) else
  let state_changed := negb (bool_decide (data_active_state data = ui_active_state info)) in
  let info := info <| ui_active_state := data_active_state data |> in
  if negb (streq (data_substate data) (unit_info_get_substate info)) then
    substate ← strdup (data_substate data);
    mret (info <| ui_substate := substate |>, true)
  else mret (info, state_changed).

Definition upd_unit_infos (f : gmap string AgentUnitInfo -> gmap string AgentUnitInfo) : AM void :=
  upd_agent (fun a => a <| ag_unit_infos ::= f |>).

Definition agent_update_unit_infos_for (info : AgentUnitInfo) : AM void :=
  if negb (ui_subscribed info) && negb (ui_loaded info) then
    upd_unit_infos (delete (ui_object_path info))
  else mret tt.

(** A NULL path is handed to the hash function. *)
Definition agent_get_unit_info (unit_path : option string) : AM (option AgentUnitInfo) :=
  match unit_path with
  | None => crash_with InvalidPointer
  | Some path => a ← the_agent; mret (ag_unit_infos a !! path)
  end.

Definition agent_ensure_unit_info (unit : string) : AM (option AgentUnitInfo) :=
  unit_path ← make_unit_path unit;
  info ← agent_get_unit_info unit_path;
  match info with
  | Some info => mret (Some info)
  | None =>
      unit_copy ← strdup unit;
      match unit_copy, unit_path with
      | Some unit_copy, Some path =>
          ok ← amalloc;                                    (* hashmap_set *)
          if negb ok then mret None else
          upd_unit_infos <[path := mkAgentUnitInfo path unit_copy false false None None]> ;;
          agent_get_unit_info (Some path)
      | _, _ => mret None
      end
  end.

(** Write the entry back through its pointer. *)
Definition set_unit_info (info : AgentUnitInfo) : AM void :=
  upd_unit_infos <[ui_object_path info := info]>.

(** ** Signals to the controller *)

Definition internal_signal (member : string) (args : list value) : AM Z :=
  peer (fun b => PeerEmitSignal b INTERNAL_AGENT_OBJECT_PATH INTERNAL_AGENT_INTERFACE member args).

Definition agent_emit_unit_new (unit reason : string) : AM void :=
  _r ← internal_signal "UnitNew" [VString unit; VString reason]; mret tt.

Definition agent_emit_unit_removed (unit : string) : AM void :=
  _r ← internal_signal "UnitRemoved" [VString unit]; mret tt.

Definition agent_emit_unit_state_changed (info : AgentUnitInfo) (reason : string) : AM void :=
  _r ← internal_signal "UnitStateChanged"
         [VString (ui_unit info); VString (state_to_string (ui_active_state info));
          VString (unit_info_get_substate info); VString reason];
  mret tt.

(** ** Subscriptions of the controller *)

Definition agent_method_subscribe (m : ptr) (args : read string) : AM Z :=
  match args with
  | ReadErr _ => error_to m SD_BUS_ERROR_INVALID_ARGS
  | ReadOk unit =>
      if is_wildcard unit then
        a ← the_agent;
        if ag_wildcard_subscription_active a then error_to m SD_BUS_ERROR_FAILED else
        upd_agent (fun a => a <| ag_wildcard_subscription_active := true |>) ;;
        agent_emit_unit_new unit "virtual" ;;
        return_to m []
      else
        info ← agent_ensure_unit_info unit;
        match info with
        | None => error_to m SD_BUS_ERROR_FAILED
        | Some info =>
            if ui_subscribed info then error_to m SD_BUS_ERROR_FAILED else
            set_unit_info (info <| ui_subscribed := true |>) ;;
            (if ui_loaded info then
               agent_emit_unit_new (ui_unit info) "virtual" ;;
               (if negb (bool_decide (ui_active_state info = Some _UNIT_ACTIVE_STATE_INVALID))
                then agent_emit_unit_state_changed info "virtual"
                else mret tt)
             else mret tt) ;;
            return_to m []
        end
  end.

Definition agent_method_unsubscribe (m : ptr) (args : read string) : AM Z :=
  match args with
  | ReadErr _ => error_to m SD_BUS_ERROR_INVALID_ARGS
  | ReadOk unit =>
      if is_wildcard unit then
        a ← the_agent;
        if negb (ag_wildcard_subscription_active a) then error_to m SD_BUS_ERROR_FAILED else
        upd_agent (fun a => a <| ag_wildcard_subscription_active := false |>) ;;
        return_to m []
      else
        path ← make_unit_path unit;
        match path with
        | None => error_to m SD_BUS_ERROR_FAILED
        | Some path =>
            info ← agent_get_unit_info (Some path);
            match info with
            | None => error_to m SD_BUS_ERROR_FAILED
            | Some info =>
                if negb (ui_subscribed info) then error_to m SD_BUS_ERROR_FAILED else
                let info := info <| ui_subscribed := false |> in
                set_unit_info info ;;
                agent_update_unit_infos_for info ;;
                return_to m []
            end
        end
  end.

(** ** Signals of systemd *)

(** Whether the controller is told of the unit. *)
Definition forwards (a : Agent) (info : AgentUnitInfo) : bool :=
  ui_subscribed info || ag_wildcard_subscription_active a.

(** Building the copy of the signal: append, append, copy. *)
Fixpoint message_steps (n : nat) : AM Z :=
  match n with
  | O => mret 0
  | S n => r ← amessage; if r <? 0 then mret r else message_steps n
  end.

Definition ENOTCONN : Z := 107.

(** [object_path] is the path of the signal, [m] the properties, [msg] the message. *)
Definition agent_match_unit_changed (object_path : string) (interface : read string)
    (m : properties) (msg : ptr) : AM Z :=
  match interface with
  | ReadErr r => mret r
  | ReadOk interface =>
      info ← agent_get_unit_info (Some object_path);
      match info with
      | None => mret 0
      | Some info =>
          info ← (if streq interface SYSTEMD_UNIT_IFACE then
                    u ← unit_info_update_state info m;
                    set_unit_info (fst u) ;;
                    a ← the_agent;
                    (if snd u && forwards a (fst u) then
                       agent_emit_unit_state_changed (fst u) "real"
                     else mret tt) ;;
                    mret (fst u)
                  else mret info);
          a ← the_agent;
          if negb (ui_subscribed info) && negb (ag_wildcard_subscription_active a) then mret 0 else
          match ag_peer_dbus a with
          | None => mret (- ENOTCONN)                     (* sd_bus_message_new_signal *)
          | Some b =>
              r ← message_steps 4;
              if r <? 0 then mret r else
              abus (PeerEmitSignal b INTERNAL_AGENT_OBJECT_PATH INTERNAL_AGENT_INTERFACE
                      "UnitPropertiesChanged"
                      [VString (ui_unit info); VString interface; VCopy msg])
          end
      end
  end.

Definition agent_match_unit_new (args : read (string * string)) : AM Z :=
  match args with
  | ReadErr r => mret r
  | ReadOk (unit_name, _) =>
      info ← agent_ensure_unit_info unit_name;
      match info with
      | None => mret 0
      | Some info =>
          substate ← strdup "dead";
          set_unit_info (info <| ui_loaded := true |> <| ui_active_state := Some UNIT_INACTIVE |>
                           <| ui_substate := substate |>) ;;
          a ← the_agent;
          (if forwards a info then agent_emit_unit_new (ui_unit info) "real" else mret tt) ;;
          mret 0
      end
  end.

Definition agent_match_unit_removed (args : read (string * string)) : AM Z :=
  match args with
  | ReadErr r => mret r
  | ReadOk (_, path) =>
      info ← agent_get_unit_info (Some path);
      match info with
      | None => mret 0
      | Some info =>
          let info := info <| ui_loaded := false |>
                        <| ui_active_state := Some _UNIT_ACTIVE_STATE_INVALID |>
                        <| ui_substate := None |> in
          set_unit_info info ;;
          a ← the_agent;
          (if forwards a info then agent_emit_unit_removed (ui_unit info) else mret tt) ;;
          agent_update_unit_infos_for info ;;
          mret 1
      end
  end.

(** ** The units at start

    An entry of the answer to ListUnits: its name, its active state, its substate
    and its object path; [None] is a failure to read the entry, with its error. *)
Record listed_unit := mkListedUnit {
  lu_name : string;
  lu_active_state : string;
  lu_sub_state : string;
  lu_object_path : string;
}.

Definition init_unit (u : listed_unit) : AM void :=
  info ← agent_ensure_unit_info (lu_name u);
  match info with
  | None => mret tt
  | Some info =>
      c_assert (streq (ui_object_path info) (lu_object_path u)) ;;
      substate ← strdup (lu_sub_state u);
      set_unit_info (info <| ui_loaded := true |>
                       <| ui_active_state := Some (active_state_from_string (lu_active_state u)) |>
                       <| ui_substate := substate |>)
  end.

(** [units] are the entries read before the end or the first error [r]. *)
Definition agent_init_units (units : list listed_unit) (r : Z) : AM Z :=
  foreach units init_unit ;;
  mret (if r <? 0 then r else 0).
End agent_units.
