(* ===== verification/AgentProxy.v ===== *)
(** agent/proxy.c and the proxy functions of agent/agent.c: the local services
    that stand for a unit of another node. A proxy is created by the proxy
    executable, which waits for its answer until the controller reports that the
    unit is active or has failed. *)
From S2P Require Import Prelude CString StringUtil ParseUtil TimeUtil Protocol BusUtils Log Cfg.
From S2P Require Import Socket World AgentWorld AgentRequests AgentUnits.

Section agent_proxy.
Context {E : AgentEnv}.

Implicit Types p : ptr.

Definition upd_proxy p (f : ProxyService -> ProxyService) : AM void := aupdate p f.

(** ** References (proxy.c) *)

Definition proxy_service_ref p : AM ptr :=
  upd_proxy p (fun q => q <| ps_ref_count ::= Z.succ |>) ;; mret p.

(** The links of [p] are both NULL when it is in no list, or alone in it. *)
Definition unlinked p (l : list ptr) : bool := bool_decide (p ∉ l \/ l = [p]).

Definition proxy_service_unref p : AM void :=
  upd_proxy p (fun q => q <| ps_ref_count ::= Z.pred |>) ;;
  q ← aload (T := ProxyService) p;
  if negb (ps_ref_count q =? 0) then mret tt else
  a ← the_agent;
  c_assert (unlinked p (ag_proxy_services a)) ;;
  afree (T := ProxyService) p.

Definition proxy_service_new (local_service_name node unit : string) (request_message : ptr) :
    AM (option ptr) :=
  ok ← amalloc;
  if negb ok then mret None else
  modify (fun w => w <| aw_next_id ::= next_u32 |>) ;;
  id ← gets aw_next_id;
  p ← anew (mkProxyService 1 id true "" "" "" (Some request_message) false false false None "");
  node_name ← strdup node;
  match node_name with
  | None => proxy_service_unref p ;; mret None
  | Some node_name =>
      upd_proxy p (fun q => q <| ps_node_name := node_name |>) ;;
      unit_name ← strdup unit;
      match unit_name with
      | None => proxy_service_unref p ;; mret None
      | Some unit_name =>
          upd_proxy p (fun q => q <| ps_unit_name := unit_name |>) ;;
          local_service_name ← strdup local_service_name;
          match local_service_name with
          | None => proxy_service_unref p ;; mret None
          | Some local_service_name =>
              upd_proxy p (fun q => q <| ps_local_service_name := local_service_name |>) ;;
              ok ← amalloc;                                  (* asprintf *)
              if negb ok then proxy_service_unref p ;; mret None else
              upd_proxy p (fun q =>
                q <| ps_object_path := INTERNAL_PROXY_OBJECT_PATH_PREFIX ++ "/" ++ fmt_u id |>) ;;
              mret (Some p)
          end
      end
  end.

Definition proxy_service_export p : AM bool :=
  q ← aload (T := ProxyService) p;
  c_assert (ps_agent q) ;;                                  (* proxy->agent->peer_dbus *)
  a ← the_agent;
  r ← peer (fun b => PeerAddVtable b (ps_object_path q) INTERNAL_PROXY_INTERFACE);
  if r <? 0 then mret false else
  upd_proxy p (fun q => q <| ps_export_slot := ag_peer_dbus a |>) ;; mret true.

Definition proxy_service_unexport p : AM void :=
  upd_proxy p (fun q => q <| ps_export_slot := None |>).

(** [proxy->agent], or NULL. *)
Definition proxy_agent (q : ProxyService) : AM (option Agent) :=
  if ps_agent q then a ← the_agent; mret (Some a) else mret None.

Definition proxy_service_emit_proxy_new p : AM Z :=
  q ← aload (T := ProxyService) p;
  agent ← proxy_agent q;
  if negb (agent_is_connected agent) then mret (- ENOTCONN) else
  res ← internal_signal "ProxyNew"
          [VString (ps_node_name q); VString (ps_unit_name q); VObject (ps_object_path q)];
  (if 0 <=? res then upd_proxy p (fun q => q <| ps_sent_new_proxy := true |>) else mret tt) ;;
  mret res.

Definition proxy_service_emit_proxy_removed p : AM Z :=
  q ← aload (T := ProxyService) p;
  if negb (ps_sent_new_proxy q) then mret 0 else
  agent ← proxy_agent q;
  if negb (agent_is_connected agent) then mret (- ENOTCONN) else
  internal_signal "ProxyRemoved" [VString (ps_node_name q); VString (ps_unit_name q)].

(** ** Removal (agent.c) *)

Definition agent_stop_local_proxy_service p : AM Z :=
  q ← aload (T := ProxyService) p;
  if ps_dont_stop_proxy q then mret 0 else
  upd_proxy p (fun q => q <| ps_dont_stop_proxy := true |>) ;;
  req ← agent_create_request None "StopUnit";
  match req with
  | None => mret (- ENOMEM)
  | Some req =>
      with_request req
        (r ← systemd_request_append req [VString (ps_local_service_name q); VString "replace"];
         if r <? 0 then mret (- ENOMEM) else
         started ← systemd_request_start req StopProxyCb;
         mret (if started : bool then 0 else - EIO))
  end.

Definition agent_remove_proxy p (emit_removed : bool) : AM void :=
  q ← aload (T := ProxyService) p;
  c_assert (ps_agent q) ;;
  (if emit_removed then _r ← proxy_service_emit_proxy_removed p; mret tt else mret tt) ;;
  match ps_request_message q with
  | Some m =>
      _r ← error_to m SD_BUS_ERROR_FAILED;
      upd_proxy p (fun q => q <| ps_request_message := None |>)
  | None => mret tt
  end ;;
  (if ps_sent_successful_ready q then _r ← agent_stop_local_proxy_service p; mret tt
   else mret tt) ;;
  proxy_service_unexport p ;;
  a ← the_agent;
  l ← alist_remove_from p (ag_proxy_services a);
  upd_agent (fun a => a <| ag_proxy_services := l |>) ;;
  upd_proxy p (fun q => q <| ps_agent := false |>) ;;
  proxy_service_unref p.

(** ** What the controller reports (proxy.c) *)

Definition proxy_service_initial_state_reached p (success : bool) : AM void :=
  q ← aload (T := ProxyService) p;
  match ps_request_message q with
  | None => crash_with AssertionFailure
  | Some m =>
      (if success then
         upd_proxy p (fun q => q <| ps_sent_successful_ready := true |>) ;;
         _r ← return_to m []; mret tt
       else _r ← error_to m BC_BUS_ERROR_ACTIVATION_FAILED; mret tt) ;;
      upd_proxy p (fun q => q <| ps_request_message := None |>) ;;
      q ← aload (T := ProxyService) p;
      if negb (ps_sent_successful_ready q) then agent_remove_proxy p true else mret tt
  end.

Definition proxy_service_target_stopped p : AM void :=
  q ← aload (T := ProxyService) p;
  c_assert (bool_decide (ps_request_message q = None)) ;;
  agent_remove_proxy p true.

(** A scope with a reference to the proxy. *)
Definition with_proxy {A} p (body : AM A) : AM A :=
  p ← proxy_service_ref p; r ← body; proxy_service_unref p ;; mret r.

Definition stopped_state (s : UnitActiveState) : bool :=
  bool_decide (s = UNIT_FAILED) || bool_decide (s = UNIT_INACTIVE).

Definition proxy_service_method_target_state_changed (m : ptr)
    (args : read (string * string * string)) p : AM Z :=
  with_proxy p
    (q ← aload (T := ProxyService) p;
     if negb (ps_agent q) then error_to m SD_BUS_ERROR_FAILED else
     match args with
     | ReadErr _ => error_to m SD_BUS_ERROR_INVALID_ARGS
     | ReadOk (active_state_str, _, reason) =>
         let active_state := active_state_from_string active_state_str in
         match ps_request_message q with
         | Some _ =>
             if bool_decide (active_state = UNIT_ACTIVE) then
               proxy_service_initial_state_reached p true
             else if stopped_state active_state && streq reason "real" then
               proxy_service_initial_state_reached p false
             else mret tt
         | None =>
             if ps_sent_successful_ready q then
               if stopped_state active_state && streq reason "real" then
                 proxy_service_target_stopped p
               else mret tt
             else mret tt
         end ;;
         return_to m []
     end).

Definition proxy_service_method_target_new (m : ptr) (args : read string) p : AM Z :=
  with_proxy p
    (q ← aload (T := ProxyService) p;
     if negb (ps_agent q) then error_to m SD_BUS_ERROR_FAILED else
     match args with
     | ReadErr _ => error_to m SD_BUS_ERROR_INVALID_ARGS
     | ReadOk _ => return_to m []
     end).

Definition proxy_service_method_target_removed (m : ptr) (args : read string) p : AM Z :=
  with_proxy p
    (q ← aload (T := ProxyService) p;
     if negb (ps_agent q) then error_to m SD_BUS_ERROR_FAILED else
     match args with
     | ReadErr _ => error_to m SD_BUS_ERROR_INVALID_ARGS
     | ReadOk reason =>
         match ps_request_message q with
         | Some _ =>
             if streq reason "real" then proxy_service_initial_state_reached p false else mret tt
         | None => mret tt
         end ;;
         return_to m []
     end).

(** The message is only logged, readable or not. *)
Definition proxy_service_method_error (m : ptr) p : AM Z :=
  with_proxy p
    (q ← aload (T := ProxyService) p;
     if negb (ps_agent q) then error_to m SD_BUS_ERROR_FAILED else
     proxy_service_initial_state_reached p false ;;
     return_to m []).

(** ** Creation and removal on request (agent.c) *)

Definition agent_find_proxy (local_service_name node_name unit_name : string) :
    AM (option ptr) :=
  a ← the_agent;
  find_first (ag_proxy_services a) (fun p =>
    q ← aload (T := ProxyService) p;
    mret (streq (ps_local_service_name q) local_service_name &&
          streq (ps_node_name q) node_name && streq (ps_unit_name q) unit_name)).

(** Three of the errors are addressed to [reply], which is NULL. *)
Definition agent_method_create_proxy (m : ptr) (args : read (string * string * string)) : AM Z :=
  match args with
  | ReadErr _ => error_to m SD_BUS_ERROR_INVALID_ARGS
  | ReadOk (local_service_name, node_name, unit_name) =>
      old_proxy ← agent_find_proxy local_service_name node_name unit_name;
      match old_proxy with
      | Some _ => error_to_opt None SD_BUS_ERROR_ADDRESS_IN_USE
      | None =>
          proxy ← proxy_service_new local_service_name node_name unit_name m;
          match proxy with
          | None => error_to_opt None SD_BUS_ERROR_FAILED
          | Some proxy =>
              exported ← proxy_service_export proxy;
              r ← (if negb exported then error_to_opt None SD_BUS_ERROR_FAILED else
                   r ← proxy_service_emit_proxy_new proxy;
                   if (r <? 0) && negb (r =? - ENOTCONN) then error_to m SD_BUS_ERROR_FAILED else
                   proxy ← proxy_service_ref proxy;
                   upd_agent (fun a => a <| ag_proxy_services ::= fun l => app l [proxy] |>) ;;
                   mret 1);
              proxy_service_unref proxy ;;                  (* _cleanup_proxy_service_ *)
              mret r
          end
      end
  end.

Definition agent_method_remove_proxy (m : ptr) (args : read (string * string * string)) : AM Z :=
  match args with
  | ReadErr _ => error_to m SD_BUS_ERROR_INVALID_ARGS
  | ReadOk (local_service_name, node_name, unit_name) =>
      proxy ← agent_find_proxy local_service_name node_name unit_name;
      match proxy with
      | None => return_to m []
      | Some proxy =>
          upd_proxy proxy (fun q => q <| ps_dont_stop_proxy := true |>) ;;
          agent_remove_proxy proxy true ;;
          return_to m []
      end
  end.
End agent_proxy.
