(* ===== verification/Agent.v ===== *)
(** agent/agent.c: settings, the connection to the controller with its states,
    heartbeats, start and stop. *)
From S2P Require Import Prelude CString StringUtil ParseUtil TimeUtil Protocol BusUtils Log Cfg.
From S2P Require Import Socket World AgentWorld AgentRequests AgentUnits AgentProxy.

Section agent_c.
Context {E : AgentEnv} {N : Network}.

(** ** Settings *)

(** [copy_str] into a field of the agent. *)
Definition copy_str (set : option string -> Agent -> Agent) (s : string) : AM bool :=
  dup ← strdup s;
  match dup with
  | None => mret false
  | Some _ => upd_agent (set dup) ;; mret true
  end.

Definition agent_set_port (port_s : string) : AM bool :=
  match parse_port (Some port_s) with
  | None => mret false
  | Some port => upd_agent (fun a => a <| ag_port := port |>) ;; mret true
  end.
Definition agent_set_controller_address (address : string) : AM bool :=
  copy_str (fun v a => a <| ag_controller_address := v |>) address.
Definition agent_set_assembled_controller_address (address : string) : AM bool :=
  copy_str (fun v a => a <| ag_assembled_controller_address := v |>) address.
Definition agent_set_host (host : string) : AM bool :=
  copy_str (fun v a => a <| ag_host := v |>) host.
Definition agent_set_name (name : string) : AM bool :=
  copy_str (fun v a => a <| ag_name := v |>) name.
Definition agent_set_heartbeat_interval (interval_msec : string) : AM bool :=
  match parse_long (Some interval_msec) with
  | None => mret false
  | Some interval => upd_agent (fun a => a <| ag_heartbeat_interval_msec := interval |>) ;; mret true
  end.
Definition agent_set_controller_heartbeat_threshold (threshold_msec : string) : AM bool :=
  match parse_long (Some threshold_msec) with
  | None => mret false
  | Some threshold =>
      upd_agent (fun a => a <| ag_controller_heartbeat_threshold_msec := threshold |>) ;; mret true
  end.
Definition agent_set_systemd_user (systemd_user : bool) : AM void :=
  upd_agent (fun a => a <| ag_systemd_user := systemd_user |>).
(** The [long] is stored in a [uint64_t]. *)
Definition agent_set_connection_retry_count_until_quiet (retry_count_s : string) : AM bool :=
  match parse_long (Some retry_count_s) with
  | None => mret false
  | Some retry_count =>
      upd_agent (fun a => a <| ag_connection_retry_count_until_quiet := u64 retry_count |>) ;;
      mret true
  end.

Definition agent_parse_config {CE : CfgEnv}
    (configfile default_file etc_file etc_dir : option string) : M nat (bool * option config_t) :=
  i ← cfg_initialize;
  match snd i with
  | None => mret (false, None)
  | Some config =>
      d ← cfg_agent_def_conf config;
      if fst d <? 0 then mret (false, Some (snd d)) else
      l ← cfg_load_complete_configuration (snd d) default_file etc_file etc_dir configfile;
      mret (fst l =? 0, Some (snd l))
  end.

(** An option that is present must be accepted by its setter. *)
Definition apply_option (value : option string) (set : string -> AM bool) : AM bool :=
  match value with
  | None => mret true
  | Some value => set value
  end.

Definition set_socket_option (f : SocketOptions -> option string -> Z * SocketOptions)
    (value : string) : AM bool :=
  a ← the_agent;
  let '(r, o) := f (ag_peer_socket_options a) (Some value) in
  if r <? 0 then mret false else
  upd_agent (fun a => a <| ag_peer_socket_options := o |>) ;; mret true.

(** The settings in the order they are applied; the first failure ends it. *)
Fixpoint apply_options (l : list (option string * (string -> AM bool))) : AM bool :=
  match l with
  | [] => mret true
  | (value, set) :: l' =>
      ok ← apply_option value set;
      if negb ok then mret false else apply_options l'
  end.

Definition CFG_CONTROLLER_ADDRESS : string := "ControllerAddress".

Definition agent_apply_config : AM bool :=
  a ← the_agent;
  let value := cfg_get_value (ag_config a) in
  ok ← apply_options
         [(value CFG_NODE_NAME, agent_set_name);
          (value CFG_CONTROLLER_HOST, agent_set_host);
          (value CFG_CONTROLLER_PORT, agent_set_port);
          (value CFG_CONTROLLER_ADDRESS, agent_set_controller_address);
          (value CFG_HEARTBEAT_INTERVAL, agent_set_heartbeat_interval);
          (value CFG_CONTROLLER_HEARTBEAT_THRESHOLD, agent_set_controller_heartbeat_threshold);
          (value CFG_CONNECTION_RETRY_COUNT_UNTIL_QUIET,
             agent_set_connection_retry_count_until_quiet);
          (value CFG_TCP_KEEPALIVE_TIME, set_socket_option socket_options_set_tcp_keepidle);
          (value CFG_TCP_KEEPALIVE_INTERVAL, set_socket_option socket_options_set_tcp_keepintvl);
          (value CFG_TCP_KEEPALIVE_COUNT, set_socket_option socket_options_set_tcp_keepcnt)];
  if negb ok then mret false else
  a ← the_agent;
  let '(r, o) := socket_options_set_ip_recverr (ag_peer_socket_options a)
                   (cfg_get_bool_value (ag_config a) CFG_IP_RECEIVE_ERRORS) in
  if r <? 0 then mret false else
  upd_agent (fun a => a <| ag_peer_socket_options := o |>) ;; mret true.

(** ** The address of the controller *)

Definition resolve_host (host : string) : AM (Z * option string) := fun w =>
  let ok := malloc_result (aw_mallocs w) in
  Ret (get_address ok (getaddrinfo (aw_resolutions w)) (Some host))
    (w <| aw_mallocs ::= S |> <| aw_resolutions ::= S |>).

(** [htons] keeps the low 16 bits of the port. *)
Definition in_port (a : Agent) : Z := ag_port a mod 2 ^ 16.

Definition set_assembled (address : option string) : AM bool :=
  match address with
  | None => mret false
  | Some address => _ok ← agent_set_assembled_controller_address address; mret true
  end.

Definition ensure_assembled_controller_address : AM bool :=
  a ← the_agent;
  match ag_assembled_controller_address a, ag_controller_address a, ag_host a with
  | Some _, _, _ => mret true
  | None, Some address, _ => agent_set_assembled_controller_address address
  | None, None, None => mret false
  | None, None, Some host =>
      let host_is_ipv4 := is_ipv4 (Some host) in
      let host_is_ipv6 := is_ipv6 (Some host) in
      ip ← (if negb host_is_ipv4 && negb host_is_ipv6 then
              r ← resolve_host host;
              mret (if fst r <? 0 then None else Some (snd r))
            else mret (Some (Some host)));
      match ip with
      | None => mret false
      | Some ip_address =>
          set ← (if host_is_ipv4 || is_ipv4 ip_address then
                   match inet_pton4 (default "" ip_address) with
                   | None => mret false
                   | Some addr =>
                       ok1 ← amalloc; ok2 ← amalloc;
                       set_assembled (assemble_tcp_address ok1 ok2 (Some (addr, in_port a)))
                   end
                 else if host_is_ipv6 || is_ipv6 ip_address then
                   match inet_pton6 (default "" ip_address) with
                   | None => mret false
                   | Some addr =>
                       ok1 ← amalloc; ok2 ← amalloc;
                       set_assembled (assemble_tcp_address_v6 ok1 ok2 (Some (addr, in_port a)))
                   end
                 else mret true);
          if negb set then mret false else
          a ← the_agent;
          mret (bool_decide (ag_assembled_controller_address a <> None))
      end
  end.

(** ** Connecting *)

Definition set_state (s : AgentConnectionState) : AM void :=
  upd_agent (fun a => a <| ag_connection_state := s |>).
Definition emit_agent_property (property : string) : AM void :=
  _r ← abus (PublicPropertiesChanged BC_AGENT_OBJECT_PATH AGENT_INTERFACE property); mret tt.

Definition agent_peer_bus_close : AM void :=
  a ← the_agent;
  upd_agent (fun a => a <| ag_register_call_slot := false |>) ;;
  match ag_peer_dbus a with
  | Some b => _r ← abus (PeerClose b); mret tt
  | None => mret tt
  end ;;
  upd_agent (fun a => a <| ag_peer_dbus := None |>).

(** [peer_bus_open]: NULL, or a new connection. *)
Definition peer_bus_open (address : string) : AM (option ptr) :=
  r ← abus (PeerOpen address);
  if r <? 0 then mret None else
  fun w => Ret (Some (aw_next_ptr w)) (w <| aw_next_ptr ::= Pos.succ |>).

Definition agent_connect : AM bool :=
  set_state AGENT_CONNECTION_STATE_CONNECTING ;;
  a ← the_agent;
  b ← peer_bus_open (default "" (ag_assembled_controller_address a));
  upd_agent (fun a => a <| ag_peer_dbus := b |>) ;;
  match b with
  | None => mret false
  | Some b =>
      _r ← abus (PeerSetOptions b (ag_peer_socket_options a));
      r ← abus (PeerAddVtable b INTERNAL_AGENT_OBJECT_PATH INTERNAL_AGENT_INTERFACE);
      if r <? 0 then mret false else
      r ← abus (PeerRegister b (default "" (ag_name a)));
      if r <? 0 then mret false else
      upd_agent (fun a => a <| ag_register_call_slot := true |>) ;;
      mret true
  end.

Definition agent_reconnect : AM bool :=
  a ← the_agent;
  let old := ag_assembled_controller_address a in
  upd_agent (fun a => a <| ag_assembled_controller_address := None |>) ;;
  ok ← ensure_assembled_controller_address;
  if negb ok then mret false else
  a ← the_agent;
  match ag_assembled_controller_address a, old with
  | Some new, Some old =>
      if negb (streq new old) then emit_agent_property "ControllerAddress" else mret tt
  | _, _ => mret tt
  end ;;
  agent_peer_bus_close ;;
  agent_connect.

Definition agent_disconnected : AM Z :=
  set_state AGENT_CONNECTION_STATE_RETRY ;;
  emit_agent_property "Status" ;;
  now ← aget_time_micros;
  upd_agent (fun a => a <| ag_disconnect_timestamp := now |>) ;;
  now ← aget_time_micros_monotonic;
  upd_agent (fun a => a <| ag_disconnect_timestamp_monotonic := now |>) ;;
  _ok ← agent_reconnect;
  mret 0.

(** ** Heartbeats *)

(** Whether the controller is to be given up; [now] is the monotonic time. *)
Definition controller_expired (a : Agent) (now : Z) : bool :=
  if now =? USEC_INFINITY then false
  else if now <? ag_controller_last_seen_monotonic a then false
  else u64 (u64 (ag_controller_heartbeat_threshold_msec a) * USEC_PER_MSEC)
         <? now - ag_controller_last_seen_monotonic a.

Definition agent_check_controller_liveness : AM bool :=
  a ← the_agent;
  if ag_controller_heartbeat_threshold_msec a <=? 0 then mret true else
  now ← aget_time_micros_monotonic;
  if controller_expired a now then _r ← agent_disconnected; mret false else mret true.

(** [reset] is what re-arming the timer returns. *)
Definition agent_heartbeat_timer_callback (reset : Z) : AM Z :=
  a ← the_agent;
  (if bool_decide (ag_connection_state a = AGENT_CONNECTION_STATE_CONNECTING) then
     upd_agent (fun a => a <| ag_register_call_slot := false |>
                           <| ag_connection_state := AGENT_CONNECTION_STATE_RETRY |>)
   else mret tt) ;;
  a ← the_agent;
  alive ← (if bool_decide (ag_connection_state a = AGENT_CONNECTION_STATE_CONNECTED)
           then agent_check_controller_liveness else mret false);
  (if alive : bool then _r ← internal_signal "Heartbeat" []; mret tt
   else
     a ← the_agent;
     if bool_decide (ag_connection_state a = AGENT_CONNECTION_STATE_RETRY) then
       upd_agent (fun a => a <| ag_connection_retry_count ::= fun n => u64 (n + 1) |>) ;;
       a ← the_agent;
       (if ag_connection_retry_count a =? ag_connection_retry_count_until_quiet a then
          modify (fun w => w <| aw_log ::= bc_log_set_quiet true |>)
        else mret tt) ;;
       _ok ← agent_reconnect; mret tt
     else mret tt) ;;
  mret (if reset <? 0 then reset else 0).

Definition agent_reset_heartbeat_timer {EV : SdEvent} (a : Agent) (event_source : option ptr) :
    M EventWorld (Z * option ptr) :=
  event_reset_time_relative event_source 7
    (u64 (ag_heartbeat_interval_msec a * USEC_PER_MSEC)) 0 0
    (Some "agent-heartbeat-timer-source") false.

(** [floating] is what [sd_event_source_set_floating] returns. *)
Definition agent_setup_heartbeat_timer {EV : SdEvent} (a : Agent) (floating : Z) :
    M EventWorld Z :=
  if ag_heartbeat_interval_msec a <=? 0 then mret 0 else
  r ← agent_reset_heartbeat_timer a None;
  mret (if fst r <? 0 then fst r else floating).

Definition agent_match_heartbeat : AM Z :=
  now ← aget_time_micros;
  if now =? USEC_INFINITY then mret 0 else
  now_monotonic ← aget_time_micros_monotonic;
  if now_monotonic =? USEC_INFINITY then mret 0 else
  upd_agent (fun a => a <| ag_controller_last_seen := now |>
                        <| ag_controller_last_seen_monotonic := now_monotonic |>) ;;
  mret 1.

(** ** Registration *)

(** [message] is what reading the empty answer returns. An error answer returns
    [-EPERM] from a function of type [bool], which is [true]. *)
Definition agent_process_register_callback (m : response) (message : Z) : AM bool :=
  match m with
  | MethodError _ => mret true
  | MethodReturn _ =>
      if message <? 0 then mret false else
      a ← the_agent;
      modify (fun w => w <| aw_log ::=
        bc_log_set_quiet (cfg_get_bool_value (ag_config a) CFG_LOG_IS_QUIET) |>) ;;
      upd_agent (fun a => a <| ag_connection_state := AGENT_CONNECTION_STATE_CONNECTED |>
                            <| ag_connection_retry_count := 0 |>) ;;
      now ← aget_time_micros;
      upd_agent (fun a => a <| ag_controller_last_seen := now |>) ;;
      now ← aget_time_micros_monotonic;
      upd_agent (fun a => a <| ag_controller_last_seen_monotonic := now |>
                            <| ag_disconnect_timestamp := 0 |>
                            <| ag_disconnect_timestamp_monotonic := 0 |>) ;;
      emit_agent_property "Status" ;;
      r ← peer (fun b => PeerMatchSignal b CONTROLLER_HEARTBEAT_SIGNAL_NAME);
      if r <? 0 then mret false else
      r ← peer (fun b => PeerMatchSignal b "Disconnected");
      if r <? 0 then mret false else
      a ← the_agent;
      foreach (ag_proxy_services a) (fun p =>
        _r ← proxy_service_emit_proxy_new p; mret tt) ;;
      mret true
  end.

Definition agent_register_callback (m : response) (message : Z) : AM Z :=
  a ← the_agent;
  if negb (bool_decide (ag_connection_state a = AGENT_CONNECTION_STATE_CONNECTING)) then
    upd_agent (fun a => a <| ag_register_call_slot := false |>) ;; mret 0
  else
    ok ← agent_process_register_callback m message;
    (if negb ok then set_state AGENT_CONNECTION_STATE_RETRY else mret tt) ;;
    mret 0.

Definition agent_method_switch_controller (m : ptr) (args : read string) : AM Z :=
  match args with
  | ReadErr _ => error_to m SD_BUS_ERROR_FAILED
  | ReadOk dbus_address =>
      a ← the_agent;
      if match ag_assembled_controller_address a with
         | Some address => streq address dbus_address
         | None => false
         end
      then error_to m SD_BUS_ERROR_FAILED else
      ok ← agent_set_assembled_controller_address dbus_address;
      ok ← (if negb ok then mret false else agent_set_controller_address dbus_address);
      if negb ok then error_to m SD_BUS_ERROR_FAILED else
      emit_agent_property "ControllerAddress" ;;
      _r ← agent_disconnected;
      return_to m []
  end.

(** ** Start and stop *)

(** The agent as [agent_new] makes it. *)
Definition new_agent (config : config_t) (opts : SocketOptions) : Agent :=
  mkAgent 1 false None BC_AGENT_DBUS_NAME None 0 None None 0 0
    AGENT_CONNECTION_STATE_DISCONNECTED 0 0 0 0 0 0 opts None false false None [] [] [] ∅ false
    config.

(** A sequence of calls, each of which ends the start when it fails. *)
Fixpoint all_calls (l : list acall) : AM bool :=
  match l with
  | [] => mret true
  | c :: l' => r ← abus c; if r <? 0 then mret false else all_calls l'
  end.

(** Up to the event loop. [api_bus] and [systemd_bus] are whether the buses could
    be opened, [units] and [listed] the answer to ListUnits, [shutdown] and
    [timer] the results of installing the signal handlers and the timer. *)
Definition agent_start (api_bus systemd_bus : bool) (units : list listed_unit)
    (listed shutdown timer : Z) : AM bool :=
  a ← the_agent;
  match ag_name a with
  | None => mret false
  | Some _ =>
      ok ← ensure_assembled_controller_address;
      if negb ok then mret false else
      if negb api_bus then mret false else
      ok ← all_calls [PublicAddVtable BC_AGENT_OBJECT_PATH AGENT_INTERFACE;
                      PublicRequestName (ag_api_bus_service_name a)];
      if negb ok then mret false else
      if negb systemd_bus then mret false else
      ok ← all_calls [SystemdCall "Subscribe"; SystemdMatch "PropertiesChanged/job";
                      SystemdMatch "PropertiesChanged/unit"; SystemdMatch "UnitNew";
                      SystemdMatch "UnitRemoved"; SystemdMatch "JobRemoved";
                      SystemdCall "ListUnits"];
      if negb ok then mret false else
      r ← agent_init_units units listed;
      if r <? 0 then mret false else
      if shutdown <? 0 then mret false else
      if timer <? 0 then mret false else
      connected ← agent_connect;
      (if negb connected then set_state AGENT_CONNECTION_STATE_RETRY else mret tt) ;;
      mret true
  end.

Definition agent_stop : AM void :=
  agent_peer_bus_close ;;
  set_state AGENT_CONNECTION_STATE_DISCONNECTED ;;
  emit_agent_property "Status" ;;
  a ← the_agent;
  foreach (ag_proxy_services a) (fun p => agent_remove_proxy p false).
End agent_c.
