(* ===== verification/AgentFacts.v ===== *)
(** Reasoning about the agent: rules for its loads, updates and calls, the
    invariant that ties every reference count to the objects that hold
    references, and the judgement [safe] for the programs that preserve it. *)
From S2P Require Import Prelude CString StringUtil ParseUtil TimeUtil Protocol BusUtils Log Cfg.
From S2P Require Import Socket BusProps World AgentWorld AgentRequests AgentUnits AgentProxy.
From S2P Require Import Agent WorldFacts.

Local Open Scope list_scope.

(** ** Rules *)

Section rules.
Context `{AgentStore T}.

Lemma wp_aload (p : ptr) (x : T) Q w :
  astore_get w !! p = Some x -> Q x w -> wp (aload (T := T) p) Q w.
Proof. intros Hx HQ. unfold aload. by eapply wp_deref. Qed.

Lemma wp_aupdate (p : ptr) (f : T -> T) (x : T) Q w :
  astore_get w !! p = Some x -> Q tt (astore_upd <[p := f x]> w) -> wp (aupdate p f) Q w.
Proof.
  intros Hx HQ. unfold aupdate. apply wp_bind. eapply wp_aload; [done|]. by apply wp_modify.
Qed.

Lemma wp_afree (p : ptr) (x : T) Q w :
  astore_get w !! p = Some x -> Q tt (astore_upd (T := T) (delete p) w) -> wp (afree (T := T) p) Q w.
Proof.
  intros Hx HQ. unfold afree. apply wp_bind. eapply wp_aload; [done|]. by apply wp_modify.
Qed.

Lemma wp_anew (x : T) Q w :
  Q (aw_next_ptr w) (astore_upd <[aw_next_ptr w := x]> (w <| aw_next_ptr ::= Pos.succ |>)) ->
  wp (anew x) Q w.
Proof. done. Qed.
End rules.

Definition set_agent (a : Agent) (w : AgentWorld) : AgentWorld := w <| aw_agent := Some a |>.
Definition aemit (c : acall) (w : AgentWorld) : AgentWorld := w <| aw_trace ::= fun t => app t [c] |>.
Definition atick (w : AgentWorld) : AgentWorld := w <| aw_locals ::= S |>.
Definition mtick (w : AgentWorld) : AgentWorld := w <| aw_mallocs ::= S |>.

Section call_rules.
Context {E : AgentEnv}.

Lemma wp_abus c Q w :
  Q (acall_result (Datatypes.length (aw_trace w)) c) (aemit c w) -> wp (abus c) Q w.
Proof. done. Qed.
Lemma wp_amessage Q w : Q (message_result (aw_locals w)) (atick w) -> wp amessage Q w.
Proof. done. Qed.
Lemma wp_amalloc Q w : Q (malloc_result (aw_mallocs w)) (mtick w) -> wp amalloc Q w.
Proof. done. Qed.
Lemma wp_the_agent a Q w : aw_agent w = Some a -> Q a w -> wp the_agent Q w.
Proof. intros Ha HQ. unfold the_agent. by eapply wp_deref. Qed.
Lemma wp_upd_agent f a Q w :
  aw_agent w = Some a -> Q tt (set_agent (f a) w) -> wp (upd_agent f) Q w.
Proof.
  intros Ha HQ. unfold upd_agent. apply wp_bind. eapply wp_the_agent; [done|].
  by apply wp_modify.
Qed.
Lemma wp_alist_remove p l Q w : p ∈ l -> Q (remove_first p l) w -> wp (alist_remove_from p l) Q w.
Proof.
  intros Hin HQ. unfold alist_remove_from. apply wp_bind, wp_assert; [|by apply wp_ret].
  by apply bool_decide_eq_true.
Qed.
End call_rules.

(** ** The invariant

    [δ p] is the number of references to [p] held by the running handler; between
    two events it is zero everywhere. *)
Abbreviation locals := (ptr -> Z).
Definition none_held : locals := fun _ => 0.
Definition hold (δ : locals) (p : ptr) (n : Z) : locals := fun x => if decide (x = p) then n else δ x.

Definition holds_op (op : ptr) (q : SystemdRequest) : bool := bool_decide (sreq_userdata q = Some op).
Definition tracks_op (op : ptr) (t : JobTracker) : bool := bool_decide (track_userdata t = op).
Definition is_set {A} (o : option A) : bool := match o with Some _ => true | None => false end.

Record requests_inv (δ : locals) (l : list ptr) (reqs : gmap ptr SystemdRequest) : Prop := {
  rq_nodup : NoDup l;
  rq_listed : forall p, p ∈ l <-> is_Some (reqs !! p);
  rq_refs : forall p q, reqs !! p = Some q ->
    sreq_ref_count q = δ p + bit (is_set (sreq_slot q)) /\ 1 <= sreq_ref_count q;
  rq_lifecycle : forall p q, reqs !! p = Some q -> sreq_slot q = Some UnitLifecycleCb ->
    sreq_userdata q <> None;
}.

Record ops_inv (δ : locals) (reqs : gmap ptr SystemdRequest) (ts : gmap ptr JobTracker)
    (ops : gmap ptr AgentJobOp) : Prop := {
  op_refs : forall p o, ops !! p = Some o ->
    op_ref_count o = δ p + count_map (holds_op p) reqs + count_map (tracks_op p) ts /\
    1 <= op_ref_count o;
  op_held : forall r q op, reqs !! r = Some q -> sreq_userdata q = Some op -> is_Some (ops !! op);
  op_tracked : forall r t, ts !! r = Some t -> is_Some (ops !! track_userdata t);
}.

Record trackers_inv (l : list ptr) (ts : gmap ptr JobTracker) : Prop := {
  tr_nodup : NoDup l;
  tr_listed : forall p, p ∈ l <-> is_Some (ts !! p);
}.

Record proxies_inv (δ : locals) (l : list ptr) (ps : gmap ptr ProxyService) : Prop := {
  px_nodup : NoDup l;
  px_listed : forall p, p ∈ l -> exists q, ps !! p = Some q /\ ps_agent q = true;
  px_refs : forall p q, ps !! p = Some q ->
    ps_ref_count q = δ p + bit (bool_decide (p ∈ l)) /\ 1 <= ps_ref_count q;
}.

(** The path of a unit's object, and what an entry of the hash map stands for. *)
Definition unit_path (unit : string) : string :=
  SYSTEMD_OBJECT_PATH ++ "/unit/" ++ default "" (bus_path_escape true unit).
Definition useful (i : AgentUnitInfo) : bool := ui_subscribed i || ui_loaded i.
Definition units_inv (infos : gmap string AgentUnitInfo) : Prop :=
  forall k i, infos !! k = Some i ->
    ui_object_path i = k /\ k = unit_path (ui_unit i) /\ useful i = true.

Record parts_inv (δr δo δp : locals) (a : Agent) (reqs : gmap ptr SystemdRequest)
    (ts : gmap ptr JobTracker) (ops : gmap ptr AgentJobOp) (ps : gmap ptr ProxyService)
    (next : ptr) : Prop := {
  pi_requests : requests_inv δr (ag_outstanding_requests a) reqs;
  pi_ops : ops_inv δo reqs ts ops;
  pi_trackers : trackers_inv (ag_tracked_jobs a) ts;
  pi_proxies : proxies_inv δp (ag_proxy_services a) ps;
  pi_units : units_inv (ag_unit_infos a);
  pi_refs : ag_ref_count a = 1 + map_card reqs + map_card ops;
  pi_fresh : forall p, (next <= p)%positive ->
    reqs !! p = None /\ ops !! p = None /\ ts !! p = None /\ ps !! p = None;
}.

Definition agent_inv (δr δo δp : locals) (w : AgentWorld) : Prop :=
  exists a, aw_agent w = Some a /\
    parts_inv δr δo δp a (aw_reqs w) (aw_trackers w) (aw_ops w) (aw_proxies w) (aw_next_ptr w).
Abbreviation agent_ok := (agent_inv none_held none_held none_held).

(** ** How the operations change the parts *)

Lemma hold_eq δ p n : hold δ p n p = n.
Proof. unfold hold. by rewrite decide_True. Qed.
Lemma hold_ne δ p n x : x <> p -> hold δ p n x = δ x.
Proof. unfold hold. intros H. by rewrite decide_False. Qed.

(** Split on whether [x] is the pointer that was updated. *)
Ltac at_ptr x p :=
  destruct (decide (x = p)) as [->|?];
  [rewrite ?lookup_insert_eq, ?lookup_delete_eq, ?hold_eq in *
  |rewrite ?lookup_insert_ne, ?lookup_delete_ne, ?hold_ne in * by congruence].

Section parts.
Context {δr δo δp : locals} {a : Agent} {reqs : gmap ptr SystemdRequest}
  {ts : gmap ptr JobTracker} {ops : gmap ptr AgentJobOp} {ps : gmap ptr ProxyService} {next : ptr}.
Context (I : parts_inv δr δo δp a reqs ts ops ps next).

Lemma fresh_reqs p : (next <= p)%positive -> reqs !! p = None.
Proof. intros H. apply (pi_fresh _ _ _ _ _ _ _ _ _ I p H). Qed.

(** A request changes, keeping its userdata. *)
Lemma parts_request_update p q q' δr' :
  reqs !! p = Some q -> sreq_userdata q' = sreq_userdata q ->
  sreq_ref_count q' = δr' p + bit (is_set (sreq_slot q')) -> 1 <= sreq_ref_count q' ->
  (forall x, x <> p -> δr' x = δr x) ->
  (sreq_slot q' = Some UnitLifecycleCb -> sreq_userdata q' <> None) ->
  parts_inv δr' δo δp a (<[p := q']> reqs) ts ops ps next.
Proof.
  intros Hp Hu Hr Hpos Hδ Hl. destruct I as [[R1 R2 R3 R4] [O1 O2 O3] T X U C F]. split; try done.
  - split; [done| | |].
    + intros x. rewrite R2. symmetry. by eapply is_Some_update.
    + intros x y Hx. at_ptr x p; [by simplify_eq|]. rewrite Hδ by done. eauto.
    + intros x y Hx. at_ptr x p; [by simplify_eq|eauto].
  - split; [|intros x y op Hx; at_ptr x p; simplify_eq; rewrite ?Hu; eauto|done].
    intros x o Hx. erewrite count_map_update by exact Hp.
    replace (holds_op x q') with (holds_op x q) by (unfold holds_op; by rewrite Hu).
    specialize (O1 x o Hx). lia.
  - by rewrite (map_card_update _ _ _ _ Hp).
  - intros x Hx. destruct (F x Hx) as (F1 & ?). split; [|done].
    rewrite lookup_insert_ne; [done|]. intros ->. congruence.
Qed.

Lemma parts_request_new p q :
  (next <= p)%positive -> sreq_userdata q = None -> sreq_ref_count q = 1 -> sreq_slot q = None ->
  parts_inv (hold δr p 1) δo δp
    (a <| ag_ref_count ::= Z.succ |> <| ag_outstanding_requests ::= fun l => app l [p] |>)
    (<[p := q]> reqs) ts ops ps (Pos.succ p).
Proof.
  intros Hp Hu Hr Hs. destruct I as [[R1 R2 R3 R4] [O1 O2 O3] T X U C F].
  destruct (F p Hp) as (Fp & _). split; try done; cbn.
  - split.
    + apply NoDup_app. split_and!; [done| |apply NoDup_singleton].
      intros x Hx%R2. rewrite list_elem_of_singleton. intros ->. destruct Hx; congruence.
    + intros x. rewrite elem_of_app, list_elem_of_singleton, R2. at_ptr x p; [|naive_solver].
      split; [intros _; eauto|by right].
    + intros x y Hx. at_ptr x p; [simplify_eq; rewrite Hs, Hr; cbn; lia|eauto].
    + intros x y Hx. at_ptr x p; [simplify_eq; by rewrite Hs|eauto].
  - split; [|intros x y op Hx; at_ptr x p; simplify_eq; eauto; congruence|done].
    intros x o Hx. rewrite count_map_insert by done.
    replace (holds_op x q) with false by (unfold holds_op; by rewrite Hu). specialize (O1 x o Hx).
    cbn. lia.
  - rewrite (map_card_insert _ _ _ Fp). lia.
  - intros x Hx. rewrite lookup_insert_ne by lia. apply F. lia.
Qed.

(** The last reference to a request that holds no operation is dropped. *)
Lemma parts_request_drop p q δr' :
  reqs !! p = Some q -> sreq_userdata q = None -> (forall x, x <> p -> δr' x = δr x) ->
  parts_inv δr' δo δp
    (a <| ag_outstanding_requests := remove_first p (ag_outstanding_requests a) |>
       <| ag_ref_count ::= Z.pred |>)
    (delete p reqs) ts ops ps next.
Proof.
  intros Hp Hu Hδ. destruct I as [[R1 R2 R3 R4] [O1 O2 O3] T X U C F]. split; try done; cbn.
  - split.
    + by apply remove_first_nodup.
    + intros x. rewrite elem_of_remove_first, R2 by done. at_ptr x p; [|naive_solver].
      split; [naive_solver|]. intros [? [=]].
    + intros x y Hx. at_ptr x p; [done|]. rewrite Hδ by done. eauto.
    + intros x y Hx. at_ptr x p; [done|eauto].
  - split; [|intros x y op Hx; at_ptr x p; [done|eauto]|done].
    intros x o Hx. erewrite count_map_delete by exact Hp.
    replace (holds_op x q) with false by (unfold holds_op; by rewrite Hu). specialize (O1 x o Hx).
    cbn. lia.
  - rewrite (map_card_delete _ _ _ Hp). lia.
  - intros x Hx. destruct (F x Hx) as (F1 & ?). split; [|done]. rewrite lookup_delete. by case_decide.
Qed.

(** The reference of a request to its operation becomes one of the handler. *)
Lemma parts_take_userdata p q op :
  reqs !! p = Some q -> sreq_userdata q = Some op ->
  parts_inv (hold δr p (sreq_ref_count q)) (hold δo op (δo op + 1)) δp a
    (<[p := q <| sreq_userdata := None |> <| sreq_slot := None |>]> reqs) ts ops ps next.
Proof.
  intros Hp Hu. destruct I as [[R1 R2 R3 R4] [O1 O2 O3] T X U C F]. split; try done.
  - split; [done| | |].
    + intros x. rewrite R2. symmetry. by eapply is_Some_update.
    + intros x y Hx. at_ptr x p; [|eauto]. simplify_eq. cbn. destruct (R3 p q Hp). lia.
    + intros x y Hx. at_ptr x p; [by simplify_eq|eauto].
  - split; [|intros x y o Hx; at_ptr x p; simplify_eq; eauto; done|done].
    intros x o Hx. erewrite count_map_update by exact Hp. specialize (O1 x o Hx).
    replace (holds_op x (q <| sreq_userdata := None |> <| sreq_slot := None |>)) with false by done.
    unfold holds_op at 2. rewrite Hu. at_ptr x op.
    + rewrite bool_decide_eq_true_2 by done. cbn [bit]. lia.
    + rewrite bool_decide_eq_false_2 by congruence. cbn [bit]. lia.
  - by rewrite (map_card_update _ _ _ _ Hp).
  - intros x Hx. destruct (F x Hx) as (F1 & ?). split; [|done].
    rewrite lookup_insert_ne; [done|]. intros ->. congruence.
Qed.

Lemma parts_give_userdata p q op :
  reqs !! p = Some q -> sreq_userdata q = None -> is_Some (ops !! op) ->
  parts_inv δr (hold δo op (δo op - 1)) δp a (<[p := q <| sreq_userdata := Some op |>]> reqs) ts ops
    ps next.
Proof.
  intros Hp Hu Hop. destruct I as [[R1 R2 R3 R4] [O1 O2 O3] T X U C F]. split; try done.
  - split; [done| | |].
    + intros x. rewrite R2. symmetry. by eapply is_Some_update.
    + intros x y Hx. at_ptr x p; [simplify_eq; cbn|]; eauto.
    + intros x y Hx. at_ptr x p; [by simplify_eq|eauto].
  - split; [|intros x y o Hx; at_ptr x p; simplify_eq; eauto; cbn; congruence|done].
    intros x o Hx. erewrite count_map_update by exact Hp. specialize (O1 x o Hx).
    replace (holds_op x q) with false by (unfold holds_op; by rewrite Hu).
    unfold holds_op at 2. cbn. at_ptr x op.
    + rewrite bool_decide_eq_true_2 by done. cbn [bit]. lia.
    + rewrite bool_decide_eq_false_2 by congruence. cbn [bit]. lia.
  - by rewrite (map_card_update _ _ _ _ Hp).
  - intros x Hx. destruct (F x Hx) as (F1 & ?). split; [|done].
    rewrite lookup_insert_ne; [done|]. intros ->. congruence.
Qed.

(** ** Operations *)

Lemma parts_op_update p o o' δo' :
  ops !! p = Some o -> op_ref_count o' - δo' p = op_ref_count o - δo p -> 1 <= op_ref_count o' ->
  (forall x, x <> p -> δo' x = δo x) ->
  parts_inv δr δo' δp a reqs ts (<[p := o']> ops) ps next.
Proof.
  intros Hp Hr Hpos Hδ. destruct I as [R [O1 O2 O3] T X U C F]. split; try done.
  - split.
    + intros x y Hx. at_ptr x p.
      * simplify_eq. destruct (O1 p o Hp). lia.
      * rewrite Hδ by done. eauto.
    + intros. apply (is_Some_update ops p o); eauto.
    + intros. apply (is_Some_update ops p o); eauto.
  - by rewrite (map_card_update _ _ _ _ Hp).
  - intros x Hx. destruct (F x Hx) as (F1 & F2 & ?). split_and!; try tauto.
    rewrite lookup_insert_ne; [done|]. intros ->. congruence.
Qed.

Lemma parts_op_new p o :
  (next <= p)%positive -> op_ref_count o = 1 ->
  parts_inv δr (hold δo p 1) δp (a <| ag_ref_count ::= Z.succ |>) reqs ts (<[p := o]> ops) ps
    (Pos.succ p).
Proof.
  intros Hp Hr. destruct I as [R [O1 O2 O3] T X U C F]. destruct (F p Hp) as (_ & Fp & _).
  split; try done; cbn.
  - split.
    + intros x y Hx. at_ptr x p; [simplify_eq|eauto].
      rewrite !count_map_zero; [lia| |].
      * intros r t Ht. apply bool_decide_eq_false_2. intros Hu. destruct (O3 r t Ht). congruence.
      * intros r q Hq. apply bool_decide_eq_false_2. intros Hu. destruct (O2 r q p Hq Hu). congruence.
    + intros x y op Hx Hu. at_ptr op p; eauto.
    + intros x t Hx. specialize (O3 x t Hx). at_ptr (track_userdata t) p; eauto.
  - rewrite (map_card_insert _ _ _ Fp). lia.
  - intros x Hx. rewrite (lookup_insert_ne ops) by lia. apply F. lia.
Qed.

(** The last reference, which the handler holds, is dropped. *)
Lemma parts_op_drop p o :
  ops !! p = Some o -> op_ref_count o = 1 -> 1 <= δo p ->
  parts_inv δr (hold δo p (δo p - 1)) δp (a <| ag_ref_count ::= Z.pred |>) reqs ts (delete p ops)
    ps next.
Proof.
  intros Hp Hr Hδ. destruct I as [R [O1 O2 O3] T X U C F].
  assert (forall x y, reqs !! x = Some y -> sreq_userdata y <> Some p) as N1.
  { intros x y Hx Hu. destruct (O1 p o Hp).
    pose proof (count_map_pos (holds_op p) reqs x y Hx (bool_decide_eq_true_2 _ Hu)).
    unfold count_map in *. lia. }
  assert (forall x y, ts !! x = Some y -> track_userdata y <> p) as N2.
  { intros x y Hx Hu. destruct (O1 p o Hp).
    pose proof (count_map_pos (tracks_op p) ts x y Hx (bool_decide_eq_true_2 _ Hu)).
    unfold count_map in *. lia. }
  split; try done; cbn.
  - split.
    + intros x y Hx. at_ptr x p; [done|eauto].
    + intros x y op Hx Hu. pose proof (N1 x y Hx) as Hn. rewrite Hu in Hn.
      rewrite lookup_delete_ne by congruence. eauto.
    + intros x y Hx. pose proof (N2 x y Hx). rewrite lookup_delete_ne by congruence. eauto.
  - rewrite (map_card_delete _ _ _ Hp). lia.
  - intros x Hx. destruct (F x Hx) as (F1 & F2 & ?). split_and!; try tauto.
    rewrite lookup_delete. by case_decide.
Qed.

(** ** Trackers, proxies and the other fields *)

Lemma parts_tracker_new p t op :
  (next <= p)%positive -> track_userdata t = op -> is_Some (ops !! op) ->
  parts_inv δr (hold δo op (δo op - 1)) δp (a <| ag_tracked_jobs ::= cons p |>) reqs
    (<[p := t]> ts) ops ps (Pos.succ p).
Proof.
  intros Hp Hu Hop. destruct I as [R [O1 O2 O3] [T1 T2] X U C F].
  destruct (F p Hp) as (_ & _ & Fp & _). split; try done; cbn.
  - split; [|done|].
    + intros x y Hx. rewrite (count_map_insert (tracks_op x) ts p t Fp). specialize (O1 x y Hx).
      unfold tracks_op at 1. rewrite Hu. at_ptr x op.
      * rewrite bool_decide_eq_true_2 by done. cbn [bit]. lia.
      * rewrite bool_decide_eq_false_2 by congruence. cbn [bit]. lia.
    + intros x y Hx. at_ptr x p; [simplify_eq|]; eauto.
  - split.
    + apply NoDup_cons. split; [|done]. rewrite T2. intros [? [=]]. congruence.
    + intros x. rewrite elem_of_cons, T2. at_ptr x p; [|naive_solver].
      split; [intros _; eauto|by left].
  - intros x Hx. rewrite (lookup_insert_ne ts) by lia. apply F. lia.
Qed.

(** A tracker is taken out; the handler gets its reference to the operation. *)
Lemma parts_tracker_take p t :
  ts !! p = Some t ->
  parts_inv δr (hold δo (track_userdata t) (δo (track_userdata t) + 1)) δp
    (a <| ag_tracked_jobs := remove_first p (ag_tracked_jobs a) |>) reqs (delete p ts) ops ps next.
Proof.
  intros Hp. destruct I as [R [O1 O2 O3] [T1 T2] X U C F]. split; try done; cbn.
  - split; [|done|intros x y Hx; at_ptr x p; [done|eauto]].
    intros x y Hx. rewrite (count_map_delete (tracks_op x) ts p t Hp). specialize (O1 x y Hx).
    unfold tracks_op at 2. at_ptr x (track_userdata t).
    + rewrite bool_decide_eq_true_2 by done. cbn [bit]. lia.
    + rewrite bool_decide_eq_false_2 by congruence. cbn [bit]. lia.
  - split.
    + by apply remove_first_nodup.
    + intros x. rewrite elem_of_remove_first, T2 by done. at_ptr x p; [|naive_solver].
      split; [naive_solver|]. intros [? [=]].
  - intros x Hx. destruct (F x Hx) as (? & ? & F1 & ?). split_and!; try done.
    rewrite lookup_delete. by case_decide.
Qed.

Lemma parts_proxy_update p q q' δp' :
  ps !! p = Some q -> ps_agent q' = ps_agent q ->
  ps_ref_count q' - δp' p = ps_ref_count q - δp p -> 1 <= ps_ref_count q' ->
  (forall x, x <> p -> δp' x = δp x) ->
  parts_inv δr δo δp' a reqs ts ops (<[p := q']> ps) next.
Proof.
  intros Hp Ha Hr Hpos Hδ. destruct I as [R O T [X1 X2 X3] U C F]. split; try done.
  - split; [done| |].
    + intros x Hx. destruct (X2 x Hx) as (y & Hy & Hya). at_ptr x p; simplify_eq; [|by eauto].
      exists q'. split; congruence.
    + intros x y Hx. at_ptr x p.
      * simplify_eq. destruct (X3 p q Hp). lia.
      * rewrite Hδ by done. eauto.
  - intros x Hx. destruct (F x Hx) as (? & ? & ? & F1). split_and!; try done.
    rewrite lookup_insert_ne; [done|]. intros ->. congruence.
Qed.

Lemma parts_proxy_new p q :
  (next <= p)%positive -> ps_ref_count q = 1 ->
  parts_inv δr δo (hold δp p 1) a reqs ts ops (<[p := q]> ps) (Pos.succ p).
Proof.
  intros Hp Hr. destruct I as [R O T [X1 X2 X3] U C F].
  destruct (F p Hp) as (_ & _ & _ & Fp).
  assert (p ∉ ag_proxy_services a) as Hn by (intros (? & ? & _)%X2; congruence).
  split; try done.
  - split; [done| |].
    + intros x Hx. at_ptr x p; [done|eauto].
    + intros x y Hx. at_ptr x p; [|eauto].
      simplify_eq. rewrite bool_decide_eq_false_2 by done. cbn. lia.
  - intros x Hx. rewrite (lookup_insert_ne ps) by lia. apply F. lia.
Qed.

(** The list takes over one of the handler's references. *)
Lemma parts_proxy_list p q :
  ps !! p = Some q -> ps_agent q = true -> p ∉ ag_proxy_services a ->
  parts_inv δr δo (hold δp p (δp p - 1))
    (a <| ag_proxy_services ::= fun l => app l [p] |>) reqs ts ops ps next.
Proof.
  intros Hp Ha Hn. destruct I as [R O T [X1 X2 X3] U C F]. split; try done; cbn.
  split.
  - apply NoDup_app. split_and!; [done| |apply NoDup_singleton].
    intros x Hx. rewrite list_elem_of_singleton. by intros ->.
  - intros x [Hx| ->%list_elem_of_singleton]%elem_of_app; eauto.
  - intros x y Hx. destruct (X3 x y Hx) as [X4 X5]. split; [|done]. rewrite X4. at_ptr x p.
    + rewrite (bool_decide_eq_false_2 (p ∈ ag_proxy_services a)) by done.
      rewrite bool_decide_eq_true_2; [cbn; lia|]. apply elem_of_app. right. by left.
    + f_equal. f_equal. apply bool_decide_ext. rewrite elem_of_app, list_elem_of_singleton. naive_solver.
Qed.

(** A proxy leaves the list; the handler gets its reference. *)
Lemma parts_proxy_unlist p q :
  ps !! p = Some q -> p ∈ ag_proxy_services a ->
  parts_inv δr δo (hold δp p (δp p + 1))
    (a <| ag_proxy_services := remove_first p (ag_proxy_services a) |>) reqs ts ops
    (<[p := q <| ps_agent := false |>]> ps) next.
Proof.
  intros Hp Hin. destruct I as [R O T [X1 X2 X3] U C F]. split; try done; cbn.
  - split.
    + by apply remove_first_nodup.
    + intros x [Hx Hne]%elem_of_remove_first; [|done]. rewrite lookup_insert_ne by done. eauto.
    + intros x y Hx. at_ptr x p.
      * simplify_eq. destruct (X3 p q Hp) as [X4 X5]. cbn. split; [|done]. rewrite X4.
        rewrite bool_decide_eq_true_2 by done. rewrite bool_decide_eq_false_2; [cbn; lia|].
        rewrite elem_of_remove_first by done. tauto.
      * destruct (X3 x y Hx) as [X4 X5]. split; [|done]. rewrite X4. f_equal. f_equal.
        apply bool_decide_ext. rewrite elem_of_remove_first by done. naive_solver.
  - intros x Hx. destruct (F x Hx) as (? & ? & ? & F1). split_and!; try done.
    rewrite lookup_insert_ne; [done|]. intros ->. congruence.
Qed.

Lemma parts_proxy_drop p δp' :
  p ∉ ag_proxy_services a -> (forall x, x <> p -> δp' x = δp x) ->
  parts_inv δr δo δp' a reqs ts ops (delete p ps) next.
Proof.
  intros Hn Hδ. destruct I as [R O T [X1 X2 X3] U C F]. split; try done.
  - split; [done| |].
    + intros x Hx. assert (x <> p) by congruence. rewrite lookup_delete_ne by done. eauto.
    + intros x y Hx. at_ptr x p; [done|]. rewrite Hδ by done. eauto.
  - intros x Hx. destruct (F x Hx) as (? & ? & ? & F1). split_and!; try done.
    rewrite lookup_delete. by case_decide.
Qed.

(** Fields that hold no references. *)
Definition inert (f : Agent -> Agent) : Prop := forall a,
  ag_ref_count (f a) = ag_ref_count a /\
  ag_outstanding_requests (f a) = ag_outstanding_requests a /\
  ag_tracked_jobs (f a) = ag_tracked_jobs a /\ ag_proxy_services (f a) = ag_proxy_services a /\
  ag_unit_infos (f a) = ag_unit_infos a.

Lemma parts_agent_fields a' :
  ag_ref_count a' = ag_ref_count a -> ag_outstanding_requests a' = ag_outstanding_requests a ->
  ag_tracked_jobs a' = ag_tracked_jobs a -> ag_proxy_services a' = ag_proxy_services a ->
  units_inv (ag_unit_infos a') ->
  parts_inv δr δo δp a' reqs ts ops ps next.
Proof. intros H1 H2 H3 H4 H5. destruct I. split; rewrite ?H1, ?H2, ?H3, ?H4; done. Qed.

Lemma parts_next next' : (next <= next')%positive -> parts_inv δr δo δp a reqs ts ops ps next'.
Proof. intros H. destruct I as [R O T X U C F]. split; try done. intros x Hx. apply F. lia. Qed.

Lemma parts_ext δr' δo' δp' :
  (forall x, δr' x = δr x) -> (forall x, δo' x = δo x) -> (forall x, δp' x = δp x) ->
  parts_inv δr' δo' δp' a reqs ts ops ps next.
Proof.
  intros H1 H2 H3. destruct I as [[R1 R2 R3 R4] [O1 O2 O3] T [X1 X2 X3] U C F].
  split; try done; split; try done; intros *; rewrite ?H1, ?H2, ?H3; eauto.
Qed.
End parts.
