(* ===== verification/AgentSafe.v ===== *)
(** What the agent's operations do to the invariant of AgentFacts.v: a
    specification per operation on requests, job operations, trackers, unit infos
    and proxies, and the judgements [gentle] and [safe] under which whole handlers
    are put together from them. *)
From S2P Require Import Prelude CString StringUtil ParseUtil TimeUtil Protocol BusUtils Log Cfg.
From S2P Require Import Socket BusProps World AgentWorld AgentRequests AgentUnits AgentProxy.
From S2P Require Import Agent WorldFacts AgentFacts.

Local Open Scope list_scope.

(** Memory does not run out and the clocks can be read; all other calls may fail. *)
Class AgentEnvLaws (E : AgentEnv) := {
  malloc_succeeds : forall n, malloc_result n = true;
  realtime_works : forall n, realtime n <> None;
  monotonic_works : forall n, monotonic n <> None;
}.

Ltac awp_one :=
  lazymatch goal with
  | |- wp (mbind _ _) _ _ => apply wp_bind
  | |- wp (mret _) _ _ => apply wp_ret
  | |- wp (abus _) _ _ => apply wp_abus
  | |- wp (return_to _ _) _ _ => apply wp_abus
  | |- wp (error_to _ _) _ _ => apply wp_abus
  | |- wp amessage _ _ => apply wp_amessage
  | |- wp amalloc _ _ => apply wp_amalloc
  | |- wp (gets _) _ _ => apply wp_gets
  | |- wp (modify _) _ _ => apply wp_modify
  | |- wp the_agent _ _ => eapply wp_the_agent; [eassumption|]
  | |- wp (upd_agent _) _ _ => eapply wp_upd_agent; [eassumption|]
  | |- wp (aload _) _ _ => eapply wp_aload; [eassumption|]
  | |- wp (aupdate _ _) _ _ => eapply wp_aupdate; [eassumption|]
  | |- wp (anew _) _ _ => apply wp_anew
  end.
Ltac awp_go := repeat (awp_one; cbn beta iota).

(** A program whose proxies are those it started with. *)
Definition keeps (w w' : AgentWorld) : Prop :=
  aw_proxies w' = aw_proxies w /\
  ag_proxy_services <$> aw_agent w' = ag_proxy_services <$> aw_agent w.
#[export] Instance keeps_preorder : PreOrder keeps.
Proof. split; [done|]. intros x y z [H1 H2] [H3 H4]. split; congruence. Qed.

Definition gentle (δp : locals) {A} (m : AM A) : Prop := forall w,
  agent_inv none_held none_held δp w ->
  wp m (fun _ w' => agent_inv none_held none_held δp w' /\ keeps w w') w.
Definition safe {A} (m : AM A) : Prop := forall w, agent_ok w -> wp m (fun _ w' => agent_ok w') w.

Lemma gentle_safe {A} (m : AM A) : gentle none_held m -> safe m.
Proof. intros H w Hw. eapply wp_mono; [by apply H|]. by intros ? ? [? _]. Qed.

Lemma gentle_ret δp {A} (a : A) : gentle δp (mret a).
Proof. intros w Hw. by apply wp_ret. Qed.
Lemma gentle_bind δp {A B} (m : AM A) (k : A -> AM B) :
  gentle δp m -> (forall a, gentle δp (k a)) -> gentle δp (m ≫= k).
Proof.
  intros Hm Hk w Hw. apply wp_bind. eapply wp_mono; [by apply Hm|].
  intros a w1 [Hw1 K1]. eapply wp_mono; [by apply Hk|]. intros b w2 [Hw2 K2].
  split; [done|]. by trans w1.
Qed.
Lemma safe_ret {A} (a : A) : safe (mret a : AM A).
Proof. intros w Hw. by apply wp_ret. Qed.
Lemma safe_bind {A B} (m : AM A) (k : A -> AM B) :
  safe m -> (forall a, safe (k a)) -> safe (m ≫= k).
Proof.
  intros Hm Hk w Hw. apply wp_bind. eapply wp_mono; [by apply Hm|]. intros a w1 Hw1. by apply Hk.
Qed.
Lemma safe_foreach {A} (l : list A) (body : A -> AM void) :
  (forall a, safe (body a)) -> safe (foreach l body).
Proof. intros H. induction l as [|x l IH]; cbn; [apply safe_ret|]. by apply safe_bind. Qed.
Lemma gentle_foreach δp {A} (l : list A) (body : A -> AM void) :
  (forall a, gentle δp (body a)) -> gentle δp (foreach l body).
Proof. intros H. induction l as [|x l IH]; cbn; [apply gentle_ret|]. by apply gentle_bind. Qed.

(** A program that touches neither requests nor operations, whatever the handler
    holds. *)
Definition neutral {A} (m : AM A) : Prop := forall δr δo δp w,
  agent_inv δr δo δp w ->
  wp m (fun _ w' => keeps w w' /\ agent_inv δr δo δp w' /\ aw_reqs w' = aw_reqs w /\
                    aw_ops w' = aw_ops w /\ aw_trackers w' = aw_trackers w) w.

Lemma neutral_gentle δp {A} (m : AM A) : neutral m -> gentle δp m.
Proof. intros H w Hw. eapply wp_mono; [by apply H|]. by intros ? ? (? & ? & _). Qed.
Lemma neutral_ret {A} (a : A) : neutral (mret a : AM A).
Proof. intros δr δo δp w Hw. by apply wp_ret. Qed.
Lemma neutral_bind {A B} (m : AM A) (k : A -> AM B) :
  neutral m -> (forall a, neutral (k a)) -> neutral (m ≫= k).
Proof.
  intros Hm Hk δr δo δp w Hw. apply wp_bind. eapply wp_mono; [by apply Hm|].
  intros a w1 (K1 & Hw1 & ? & ? & ?). eapply wp_mono; [by apply Hk|].
  intros b w2 (K2 & Hw2 & ? & ? & ?). split_and!; [by trans w1|done|congruence..].
Qed.

Section neutral.
Context {E : AgentEnv}.

Lemma neutral_abus c : neutral (abus c).
Proof. intros δr δo δp w (a & Ha & I). apply wp_abus. split_and!; try done. by exists a. Qed.
Lemma neutral_amessage : neutral amessage.
Proof. intros δr δo δp w (a & Ha & I). apply wp_amessage. split_and!; try done. by exists a. Qed.
Lemma neutral_amalloc : neutral amalloc.
Proof. intros δr δo δp w (a & Ha & I). apply wp_amalloc. split_and!; try done. by exists a. Qed.
Lemma neutral_the_agent : neutral the_agent.
Proof. intros δr δo δp w (a & Ha & I). awp_go. split_and!; try done. by exists a. Qed.
Lemma neutral_gets {A} (f : AgentWorld -> A) : neutral (gets f).
Proof. intros δr δo δp w Hw. by apply wp_gets. Qed.
Lemma neutral_log f : neutral (modify (fun w => w <| aw_log ::= f |>)).
Proof. intros δr δo δp w (a & Ha & I). apply wp_modify. split_and!; try done. by exists a. Qed.
Lemma neutral_upd_agent f : inert f -> neutral (upd_agent f).
Proof.
  intros Hf δr δo δp w (a & Ha & I). destruct (Hf a) as (H1 & H2 & H3 & H4 & H5). awp_go.
  split_and!; try done.
  - split; [done|]. cbn. by rewrite Ha, H4.
  - exists (f a). split; [done|]. apply (parts_agent_fields I); try done. rewrite H5. apply I.
Qed.

Context {L : AgentEnvLaws E}.

Lemma neutral_time clock : (forall n, clock n <> None) -> neutral (agent_time clock).
Proof.
  intros Hc δr δo δp w (a & Ha & I). unfold wp, agent_time.
  destruct (clock (aw_clocks w)) eqn:Ht; [|by destruct (Hc _ Ht)].
  split_and!; try done. by exists a.
Qed.
Lemma neutral_time_micros : neutral aget_time_micros.
Proof. apply neutral_time, realtime_works. Qed.
Lemma neutral_time_monotonic : neutral aget_time_micros_monotonic.
Proof. apply neutral_time, monotonic_works. Qed.
Lemma neutral_finalize n : neutral (agent_finalize_interval n).
Proof.
  intros δr δo δp w (a & Ha & I). unfold wp, agent_finalize_interval.
  destruct (realtime (aw_clocks w)) eqn:Ht; [|by destruct (realtime_works _ Ht)].
  split_and!; try done. by exists a.
Qed.
End neutral.

Create HintDb agent discriminated.
#[export] Hint Resolve neutral_ret neutral_abus neutral_amessage neutral_amalloc neutral_the_agent
  neutral_gets neutral_log neutral_time_micros neutral_time_monotonic neutral_finalize : agent.
#[export] Hint Extern 1 (inert _) => (by intros ?; split_and!) : agent.
#[export] Hint Extern 2 (neutral (upd_agent _)) => (apply neutral_upd_agent) : agent.

(** Take a program apart along its binds and branches. *)
Ltac neutral_step :=
  lazymatch goal with
  | |- neutral (mbind _ _) => apply neutral_bind; [|intros ?]
  | |- neutral (match ?x with _ => _ end) => destruct x
  | |- neutral _ => solve [eauto with agent]
  end.
Ltac neutral_tac := repeat (cbn beta iota; neutral_step).

Section simple.
Context {E : AgentEnv} {L : AgentEnvLaws E}.

Lemma neutral_peer c : neutral (peer c).
Proof. unfold peer. neutral_tac. Qed.
Lemma neutral_return_to m args : neutral (return_to m args).
Proof. apply neutral_abus. Qed.
Lemma neutral_error_to m name : neutral (error_to m name).
Proof. apply neutral_abus. Qed.
Lemma neutral_return_to_opt m args : neutral (return_to_opt m args).
Proof. unfold return_to_opt. destruct m; [apply neutral_return_to|apply neutral_ret]. Qed.
Lemma neutral_error_to_opt m name : neutral (error_to_opt m name).
Proof. unfold error_to_opt. destruct m; [apply neutral_error_to|apply neutral_ret]. Qed.
Lemma neutral_strdup s : neutral (strdup s).
Proof. unfold strdup. neutral_tac. Qed.
End simple.
#[export] Hint Resolve neutral_peer neutral_return_to neutral_error_to neutral_return_to_opt
  neutral_error_to_opt neutral_strdup : agent.

Ltac gentle_step :=
  lazymatch goal with
  | |- gentle _ (mbind _ _) => apply gentle_bind; [|intros ?]
  | |- gentle _ (match ?x with _ => _ end) => destruct x
  | |- gentle _ _ => solve [eauto with agent | apply neutral_gentle; eauto with agent]
  end.
Ltac gentle_tac := repeat (cbn beta iota; gentle_step).

(** ** References *)

Section refs.
Context {E : AgentEnv}.

Lemma agent_inv_ext δr δo δp δr' δo' δp' w :
  (forall x, δr' x = δr x) -> (forall x, δo' x = δo x) -> (forall x, δp' x = δp x) ->
  agent_inv δr δo δp w -> agent_inv δr' δo' δp' w.
Proof. intros H1 H2 H3 (a & Ha & I). exists a. split; [done|]. by eapply parts_ext. Qed.
Lemma hold_none p x : hold none_held p 0 x = none_held x.
Proof. unfold hold. by case_decide. Qed.

Lemma wp_agent_ref a Q w :
  aw_agent w = Some a -> 0 < ag_ref_count a ->
  Q tt (set_agent (a <| ag_ref_count ::= Z.succ |>) w) -> wp agent_ref Q w.
Proof.
  intros Ha Hr HQ. unfold agent_ref. awp_go. apply wp_assert; [lia|]. awp_go. done.
Qed.

Lemma wp_agent_unref a Q w :
  aw_agent w = Some a -> 1 < ag_ref_count a ->
  Q tt (set_agent (a <| ag_ref_count ::= Z.pred |>) w) -> wp agent_unref Q w.
Proof.
  intros Ha Hr HQ. unfold agent_unref. awp_go. apply wp_assert; [lia|]. awp_go.
  eapply wp_the_agent; [done|]. cbn. rewrite (proj2 (Z.eqb_neq _ _)); [done|lia].
Qed.

Definition op_drop (p : ptr) (o : AgentJobOp) (a : Agent) (w : AgentWorld) : AgentWorld :=
  if op_ref_count o =? 1
  then (set_agent (a <| ag_ref_count ::= Z.pred |>) w) <| aw_ops ::= delete p |>
  else w <| aw_ops ::= <[p := o <| op_ref_count ::= Z.pred |>]> |>.

Lemma wp_op_unref p o a Q w :
  aw_ops w !! p = Some o -> aw_agent w = Some a -> 1 < ag_ref_count a ->
  Q tt (op_drop p o a w) -> wp (agent_job_op_unref p) Q w.
Proof.
  intros Ho Ha Hr HQ. unfold agent_job_op_unref, op_drop in *. awp_go.
  eapply wp_aload; [by apply lookup_insert_eq|]. cbn.
  destruct (Z.eqb_spec (op_ref_count o) 1) as [E1|E1].
  - rewrite (proj2 (Z.eqb_eq _ _)) by lia. cbn [negb]. awp_go.
    eapply wp_agent_unref; [done|lia|]. eapply wp_afree; [by apply lookup_insert_eq|].
    cbn. unfold set_agent in *. cbn in *. by rewrite delete_insert_eq.
  - rewrite (proj2 (Z.eqb_neq _ _)) by lia. cbn [negb]. awp_go. done.
Qed.

Lemma op_drop_parts δr δo δp a reqs ts next p o w :
  parts_inv δr δo δp a reqs ts (aw_ops w) (aw_proxies w) next ->
  aw_ops w !! p = Some o -> 1 <= δo p -> aw_agent w = Some a ->
  exists a', aw_agent (op_drop p o a w) = Some a' /\
    a' = (if op_ref_count o =? 1 then a <| ag_ref_count ::= Z.pred |> else a) /\
    parts_inv δr (hold δo p (δo p - 1)) δp a' reqs ts (aw_ops (op_drop p o a w)) (aw_proxies w) next.
Proof.
  intros I Ho Hδ Ha. unfold op_drop. destruct (Z.eqb_spec (op_ref_count o) 1) as [E1|E1].
  - exists (a <| ag_ref_count ::= Z.pred |>). split_and!; [done|done|]. cbn.
    by apply (parts_op_drop I p o).
  - exists a. split_and!; [done|done|]. cbn. apply (parts_op_update I p o); [done| | |].
    + rewrite hold_eq. cbn. lia.
    + destruct (op_refs _ _ _ _ (pi_ops _ _ _ _ _ _ _ _ _ I) p o Ho). cbn. lia.
    + intros x Hx. by apply hold_ne.
Qed.
End refs.

(** ** Requests to systemd *)

Section requests.
Context {E : AgentEnv}.

(** The request was made by the running handler and not started. *)
Definition unstarted (p : ptr) (u : option ptr) (w : AgentWorld) : Prop :=
  exists q, aw_reqs w !! p = Some q /\ sreq_slot q = None /\ sreq_userdata q = u.

Definition made (p : ptr) (u : option ptr) (w : AgentWorld) : Prop :=
  exists q, aw_reqs w !! p = Some q /\ sreq_userdata q = u.

(** A reference is dropped that either the handler or the slot holds. *)
Lemma request_unref_spec δp p q n w :
  agent_inv (hold none_held p n) none_held δp w -> aw_reqs w !! p = Some q ->
  n = 1 \/ (n = 0 /\ sreq_slot q <> None) ->
  wp (systemd_request_unref p) (fun _ w' => agent_inv none_held none_held δp w' /\ keeps w w') w.
Proof.
  intros (a & Ha & I) Hq Hn. unfold systemd_request_unref. awp_go.
  eapply wp_aload; [by apply lookup_insert_eq|]. cbn beta.
  set (q' := q <| sreq_ref_count ::= Z.pred |>).
  set (w0 := astore_upd _ w).
  assert (sreq_ref_count q' = Z.pred (sreq_ref_count q)) as Hr' by done.
  assert (sreq_userdata q' = sreq_userdata q) as Hu' by done.
  destruct (rq_refs _ _ _ (pi_requests _ _ _ _ _ _ _ _ _ I) p q Hq) as [Hr Hpos].
  rewrite hold_eq in Hr.
  rewrite Hr', Hu'. destruct (Z.eqb_spec (Z.pred (sreq_ref_count q)) 0) as [E0|E0]; cbn [negb].
  - pose proof (pi_refs _ _ _ _ _ _ _ _ _ I) as Hc.
    pose proof (map_card_delete _ _ _ Hq) as Hd.
    pose proof (map_card_nonneg (delete p (aw_reqs w))).
    pose proof (map_card_nonneg (aw_ops w)).
    assert (p ∈ ag_outstanding_requests a) as Hin.
    { apply (rq_listed _ _ _ (pi_requests _ _ _ _ _ _ _ _ _ I)). eauto. }
    apply wp_bind. destruct (sreq_userdata q) as [op|] eqn:Hu.
    + pose proof (parts_take_userdata I p q op Hq Hu) as I1.
      destruct (op_held _ _ _ _ (pi_ops _ _ _ _ _ _ _ _ _ I) p q op Hq Hu) as [o Ho].
      pose proof (map_card_delete _ _ _ Ho). pose proof (map_card_nonneg (delete op (aw_ops w))).
      eapply (wp_op_unref op o a); [done|done|lia|].
      edestruct (op_drop_parts _ _ _ a _ _ _ op o
        w0 I1)
        as (a1 & Ha1 & Hval & I2); [done|rewrite hold_eq; unfold none_held; lia|done|].
      assert (forall T (f : Agent -> T), (forall a, f (a <| ag_ref_count ::= Z.pred |>) = f a) -> f a1 = f a)
        as Hf by (intros T f Hf; rewrite Hval; by case_match).
      assert (1 < ag_ref_count a1) as Hr1.
      { rewrite Hval. case_match; cbn; lia. }
      set (w1 := op_drop _ _ _ _) in *.
      assert (aw_reqs w1 = <[p := q']> (aw_reqs w)) as Hreqs.
      { unfold w1, op_drop. by case_match. }
      assert (aw_trackers w1 = aw_trackers w /\ aw_proxies w1 = aw_proxies w /\
              aw_next_ptr w1 = aw_next_ptr w) as (Ht & Hp & Hnx).
      { unfold w1, op_drop. by case_match. }
      awp_go. apply wp_alist_remove.
      { by rewrite (Hf _ ag_outstanding_requests). }
      awp_go. eapply wp_agent_unref; [done|done|].
      eapply wp_afree; [cbn; rewrite Hreqs; by apply lookup_insert_eq|].
      pose proof (parts_request_drop I2 p _ none_held ltac:(by apply lookup_insert_eq) ltac:(done)
        ltac:(intros x Hx; by rewrite !hold_ne)) as I3.
      split.
      * eexists. split; [done|]. cbn. rewrite Hreqs, Ht, Hp, Hnx.
        rewrite delete_insert_eq in I3 |- *.
        eapply parts_ext; [exact I3|done| |done].
        intros x. destruct (decide (x = op)) as [->|]; [|by rewrite !hold_ne].
        rewrite !hold_eq. unfold none_held. lia.
      * split; [by cbn|]. cbn. by rewrite (Hf _ ag_proxy_services), Ha.
    + awp_go. apply wp_alist_remove; [done|]. awp_go.
      eapply wp_agent_unref; [done|cbn; lia|].
      eapply wp_afree; [by apply lookup_insert_eq|]. split.
      * eexists. split; [done|]. cbn. rewrite delete_insert_eq.
        apply (parts_request_drop I p q none_held); [done|done|]. intros x Hx. by rewrite hold_ne.
      * split; [done|]. cbn. by rewrite Ha.
  - apply wp_ret. split; [|done]. exists a. split; [done|]. cbn.
    apply (parts_request_update I p q); [done|done| |cbn; lia| |].
    + cbn. unfold none_held. destruct Hn as [->|[-> Hs]]; [lia|].
      destruct (sreq_slot q); [cbn in *; lia|done].
    + intros x Hx. by rewrite hold_ne.
    + intros Hs. by apply (rq_lifecycle _ _ _ (pi_requests _ _ _ _ _ _ _ _ _ I) p q).
Qed.

Lemma create_request_spec δp m path iface method w :
  agent_inv none_held none_held δp w ->
  wp (agent_create_request_full m path iface method)
    (fun r w' => keeps w w' /\
       match r with
       | None => agent_inv none_held none_held δp w'
       | Some p => agent_inv (hold none_held p 1) none_held δp w' /\ unstarted p None w'
       end) w.
Proof.
  intros (a & Ha & I). unfold agent_create_request_full. awp_go.
  destruct (malloc_result _); cbn [negb]; [|by apply wp_ret; split; [done|exists a]].
  pose proof (pi_refs _ _ _ _ _ _ _ _ _ I) as Hc.
  pose proof (map_card_nonneg (aw_reqs w)). pose proof (map_card_nonneg (aw_ops w)).
  apply wp_bind. eapply wp_agent_ref; [done|lia|].
  apply wp_bind, wp_anew, wp_bind. eapply wp_upd_agent; [done|].
  set (p := aw_next_ptr _). set (q := mkSystemdRequest _ _ _ _ _ _ _ _). set (w1 := set_agent _ _).
  assert (agent_inv (hold none_held p 1) none_held δp w1) as I1.
  { eexists. split; [done|]. by apply (parts_request_new I p q ltac:(by cbn)). }
  assert (aw_reqs w1 !! p = Some q) as Hq by by apply lookup_insert_eq.
  assert (keeps w w1) as K1 by by split; [|cbn; rewrite Ha].
  apply wp_bind, wp_amessage. destruct (_ <? 0).
  - apply wp_bind.
    eapply wp_mono; [eapply (request_unref_spec δp p q 1 (atick w1)); [|done|by left]|].
    { destruct I1 as (a1 & ? & ?). by exists a1. }
    intros [] w2 [Hw2 K2]. apply wp_ret. split; [|done]. by trans w1.
  - apply wp_ret. split; [done|]. split; [|by exists q].
    destruct I1 as (a1 & ? & ?). by exists a1.
Qed.

Lemma append_spec δo δp p u args w :
  agent_inv (hold none_held p 1) δo δp w -> unstarted p u w ->
  wp (systemd_request_append p args)
    (fun _ w' => keeps w w' /\ agent_inv (hold none_held p 1) δo δp w' /\ unstarted p u w') w.
Proof.
  intros (a & Ha & I) (q & Hq & Hs & Hu). unfold systemd_request_append. awp_go.
  destruct (_ <? 0); awp_go; (split; [done|split]).
  - by exists a.
  - by exists q.
  - exists a. split; [done|].
    destruct (rq_refs _ _ _ (pi_requests _ _ _ _ _ _ _ _ _ I) p q Hq) as [Hr Hpos].
    apply (parts_request_update I p q); try done. cbn. by rewrite Hs.
  - eexists. split; [by apply lookup_insert_eq|]. done.
Qed.

Lemma append_all_spec δo δp p u parts : forall w,
  agent_inv (hold none_held p 1) δo δp w -> unstarted p u w ->
  wp (append_all p parts)
    (fun _ w' => keeps w w' /\ agent_inv (hold none_held p 1) δo δp w' /\ unstarted p u w') w.
Proof.
  induction parts as [|args parts IH]; intros w Hw Hp; cbn; [by apply wp_ret|].
  apply wp_bind. eapply wp_mono; [by apply append_spec|]. intros r w1 (K1 & Hw1 & Hp1).
  destruct (r <? 0); [by apply wp_ret|].
  eapply wp_mono; [by apply IH|]. intros b w2 (K2 & ?). split; [by trans w1|done].
Qed.
End requests.

Section started.
Context {E : AgentEnv} {L : AgentEnvLaws E}.

(** Starting a request hands one more reference to its slot. *)
Lemma start_spec δo δp p u cb w :
  agent_inv (hold none_held p 1) δo δp w -> unstarted p u w ->
  (cb = UnitLifecycleCb -> u <> None) ->
  wp (systemd_request_start p cb)
    (fun _ w' => keeps w w' /\ agent_inv (hold none_held p 1) δo δp w' /\
       made p u w') w.
Proof.
  intros (a & Ha & I) (q & Hq & Hs & Hu) Hcb. unfold systemd_request_start. awp_go.
  assert (forall w1, aw_reqs w1 = aw_reqs w -> agent_inv (hold none_held p 1) δo δp w1 ->
    keeps w w1 ->
    wp (r ← abus (SystemdCallAsync (sreq_path q) (sreq_iface q) (sreq_member q) (sreq_args q) cb p);
        if r <? 0 then mret false else
        aupdate p (fun q : SystemdRequest => q <| sreq_slot := Some cb |>) ;;
        _p ← systemd_request_ref p;
        mret true)
      (fun _ w' => keeps w w' /\ agent_inv (hold none_held p 1) δo δp w' /\
         made p u w') w1) as Hcall.
  { intros w1 Hr1 (a1 & Ha1 & I1) K1. rewrite <- Hr1 in Hq. awp_go. destruct (_ <? 0); awp_go.
    - split; [done|]. split; [by exists a1|by exists q].
    - unfold systemd_request_ref. awp_go. eapply wp_aupdate; [by apply lookup_insert_eq|]. awp_go.
      split; [done|]. split; [|eexists; split; [by apply lookup_insert_eq|done]].
      exists a1. split; [done|]. cbn. rewrite insert_insert_eq.
      destruct (rq_refs _ _ _ (pi_requests _ _ _ _ _ _ _ _ _ I1) p q Hq) as [Hr Hpos].
      rewrite Hs in Hr. apply (parts_request_update I1 p q); cbn in *; try done; try lia.
      intros [= ->]. rewrite Hu. by apply Hcb. }
  destruct (sreq_userdata q) as [op|] eqn:Hop.
  - destruct (op_held _ _ _ _ (pi_ops _ _ _ _ _ _ _ _ _ I) p q op Hq Hop) as [o Ho].
    apply wp_bind. eapply wp_mono.
    { unfold aget_time_micros, wp, agent_time.
      destruct (realtime (aw_clocks w)) as [ts|] eqn:Ht; [|by destruct (realtime_works _ Ht)].
      instantiate (1 := fun _ w1 => w1 = w <| aw_clocks ::= S |>). done. }
    intros now w1 ->. eapply wp_aupdate; [done|]. apply Hcall; [done| |done].
    exists a. split; [done|]. cbn.
    destruct (op_refs _ _ _ _ (pi_ops _ _ _ _ _ _ _ _ _ I) op o Ho) as [Hr Hpos].
    by apply (parts_op_update I op o).
  - awp_go. apply Hcall; [done|by exists a|done].
Qed.

(** A handler that makes one request: created, filled, started, released. *)
Lemma gentle_with_new_request δp m path iface method {A} (none : AM A) (body : ptr -> AM A) :
  gentle δp none ->
  (forall p w, agent_inv (hold none_held p 1) none_held δp w -> unstarted p None w ->
     wp (body p) (fun _ w' => keeps w w' /\ agent_inv (hold none_held p 1) none_held δp w' /\
                                is_Some (aw_reqs w' !! p)) w) ->
  gentle δp (req ← agent_create_request_full m path iface method;
             match req with None => none | Some p => with_request p (body p) end).
Proof.
  intros Hnone Hbody w Hw. apply wp_bind. eapply wp_mono; [by apply create_request_spec|].
  intros [p|] w1 [K1 H1].
  - destruct H1 as [Hw1 Hp]. apply wp_bind. eapply wp_mono; [by apply Hbody|].
    intros r w2 (K2 & Hw2 & [q Hq]). apply wp_bind.
    eapply wp_mono; [eapply (request_unref_spec δp p q 1); [done|done|by left]|].
    intros [] w3 [Hw3 K3]. apply wp_ret. split; [done|]. etrans; [exact K1|]. by etrans.
  - eapply wp_mono; [by apply Hnone|]. intros ? w2 [? K2]. split; [done|]. by etrans.
Qed.

(** The callback of a request whose body leaves the requests alone. *)
Lemma callback_spec δp {A} p q (body : SystemdRequest -> AM A) w :
  agent_inv none_held none_held δp w -> aw_reqs w !! p = Some q -> sreq_slot q <> None ->
  wp (body q) (fun _ w' => keeps w w' /\ agent_inv none_held none_held δp w' /\
                           aw_reqs w' = aw_reqs w) w ->
  wp (with_request p (req ← aload (T := SystemdRequest) p; body req))
    (fun _ w' => agent_inv none_held none_held δp w' /\ keeps w w') w.
Proof.
  intros Hw Hq Hs Hbody. unfold with_request. awp_go. eapply wp_mono; [exact Hbody|].
  intros r w1 (K1 & (a & Ha & I) & Hr). apply wp_bind.
  eapply wp_mono; [eapply (request_unref_spec δp p q 0); [|by rewrite Hr|by right]|].
  - exists a. split; [done|]. eapply parts_ext; [exact I| |done|done].
    intros x. unfold hold. by case_decide.
  - intros [] w2 [Hw2 K2]. apply wp_ret. split; [done|]. by trans w1.
Qed.

(** ** Operations and trackers *)

Lemma op_ref_spec δr δp p n w :
  agent_inv δr (hold none_held p n) δp w -> is_Some (aw_ops w !! p) ->
  wp (agent_job_op_ref p) (fun x w' => x = p /\ keeps w w' /\
    agent_inv δr (hold none_held p (n + 1)) δp w' /\ is_Some (aw_ops w' !! p) /\
    aw_reqs w' = aw_reqs w) w.
Proof.
  intros (a & Ha & I) [o Ho]. unfold agent_job_op_ref. awp_go. split_and!; try done.
  - exists a. split; [done|].
    destruct (op_refs _ _ _ _ (pi_ops _ _ _ _ _ _ _ _ _ I) p o Ho) as [Hr Hpos].
    apply (parts_op_update I p o); cbn; [done| |lia|].
    + rewrite !hold_eq. lia.
    + intros x Hx. by rewrite !hold_ne.
  - eexists. by apply lookup_insert_eq.
Qed.

Lemma op_unref_spec δr δp p w :
  agent_inv δr (hold none_held p 1) δp w -> is_Some (aw_ops w !! p) ->
  wp (agent_job_op_unref p) (fun _ w' => keeps w w' /\ agent_inv δr none_held δp w' /\
    aw_reqs w' = aw_reqs w) w.
Proof.
  intros (a & Ha & I) [o Ho].
  pose proof (pi_refs _ _ _ _ _ _ _ _ _ I) as Hc. pose proof (map_card_delete _ _ _ Ho).
  pose proof (map_card_nonneg (aw_reqs w)). pose proof (map_card_nonneg (delete p (aw_ops w))).
  eapply wp_op_unref; [done|done|lia|].
  destruct (op_drop_parts _ _ _ a _ _ _ p o w I Ho ltac:(by rewrite hold_eq) Ha)
    as (a' & Ha' & Hval & I').
  unfold op_drop in *. split_and!; [split|exists a'; split; [done|]|by case_match].
  - by case_match.
  - rewrite Ha', Ha, Hval. cbn. by case_match.
  - assert (parts_inv δr none_held δp a' (aw_reqs w) (aw_trackers w) (aw_ops (op_drop p o a w))
              (aw_proxies w) (aw_next_ptr w)) as I2.
    { eapply parts_ext; [exact I'|done| |done]. intros x. rewrite hold_eq. unfold hold.
      by case_decide. }
    unfold op_drop in I2. by case_match.
Qed.

(** The tracker takes over the reference. *)
Lemma track_job_spec δp path op w :
  agent_inv none_held (hold none_held op 1) δp w -> is_Some (aw_ops w !! op) ->
  wp (agent_track_job path op) (fun _ w' => keeps w w' /\ agent_inv none_held none_held δp w' /\
    aw_reqs w' = aw_reqs w) w.
Proof.
  intros (a & Ha & I) Hop. unfold agent_track_job, strdup. awp_go.
  rewrite !malloc_succeeds. cbn [negb]. awp_go. rewrite !malloc_succeeds.
  apply wp_bind, wp_anew, wp_bind. eapply wp_upd_agent; [done|]. apply wp_ret. split_and!; try done.
  - split; [done|]. cbn. by rewrite Ha.
  - eexists. split; [done|]. cbn.
    eapply parts_ext;
      [apply (parts_tracker_new I (aw_next_ptr w) (mkJobTracker path op) op); [cbn; lia|done|done]
      |done| |done].
    intros x. rewrite hold_eq. unfold hold. by case_decide.
Qed.

(** The common case of [call_systemd]. *)
Lemma gentle_call δp m rm path iface method parts cb (done : AM Z) :
  neutral done -> cb <> UnitLifecycleCb ->
  gentle δp (req ← agent_create_request_full rm path iface method; call_systemd m req parts cb done).
Proof.
  intros Hdone Hcb. unfold call_systemd. apply gentle_with_new_request.
  { apply neutral_gentle. auto with agent. }
  intros p w Hw Hp. apply wp_bind. eapply wp_mono; [by apply append_all_spec|].
  intros ok w1 (K1 & Hw1 & Hp1).
  assert (is_Some (aw_reqs w1 !! p)) as Hs by (destruct Hp1 as (q & ? & _); eauto).
  assert (forall k : AM Z, neutral k -> forall w2, keeps w w2 ->
    agent_inv (hold none_held p 1) none_held δp w2 -> is_Some (aw_reqs w2 !! p) ->
    wp k (fun _ w' => keeps w w' /\ agent_inv (hold none_held p 1) none_held δp w' /\
                      is_Some (aw_reqs w' !! p)) w2) as Hk.
  { intros k Hk w2 K2 Hw2 Hs2. eapply wp_mono; [by apply Hk|].
    intros r w3 (K3 & Hw3 & Hr & _). rewrite Hr. split; [by trans w2|done]. }
  destruct ok; cbn [negb]; [|apply Hk; auto with agent].
  apply wp_bind. eapply wp_mono; [by eapply start_spec|].
  intros st w2 (K2 & Hw2 & (q2 & Hs2 & _)). destruct st; cbn [negb]; (apply Hk; [auto with agent|by trans w1|done|eauto]).
Qed.
End started.
