(* ===== verification/AgentSteps.v ===== *)
(** Every handler of the agent preserves the invariant of AgentFacts.v, whatever
    systemd, the controller and sd-bus do. *)
From S2P Require Import Prelude CString StringUtil ParseUtil TimeUtil Protocol BusUtils Log Cfg.
From S2P Require Import Socket BusProps World AgentWorld AgentRequests AgentUnits AgentProxy.
From S2P Require Import Agent WorldFacts AgentFacts AgentSafe.

Local Open Scope list_scope.

Section handlers.
Context {E : AgentEnv} {L : AgentEnvLaws E}.

(** ** Methods forwarded to systemd *)

Lemma gentle_create_call δp m rm method parts cb (done : AM Z) :
  neutral done -> cb <> UnitLifecycleCb ->
  gentle δp (req ← agent_create_request rm method; call_systemd m req parts cb done).
Proof. apply gentle_call. Qed.

Lemma gentle_passthrough δp m member : gentle δp (agent_method_passthrough_to_systemd m member).
Proof. by apply gentle_create_call; auto with agent. Qed.
Lemma gentle_list_units δp m : gentle δp (agent_method_list_units m).
Proof. by apply gentle_create_call; auto with agent. Qed.
Lemma gentle_list_unit_files δp m : gentle δp (agent_method_list_unit_files m).
Proof. by apply gentle_create_call; auto with agent. Qed.

Lemma gentle_unit_request δp m unit iface method parts cb :
  cb <> UnitLifecycleCb -> gentle δp (unit_request m unit iface method parts cb).
Proof.
  intros Hcb. unfold unit_request, assemble_unit_path.
  apply gentle_bind; [gentle_tac|]. intros [r [path|]]; [|gentle_tac].
  case_match; [gentle_tac|]. apply gentle_call; auto with agent.
Qed.
Hint Resolve gentle_unit_request : agent.
Hint Extern 1 (_ <> UnitLifecycleCb) => discriminate : agent.

Lemma gentle_get_unit_properties δp m args : gentle δp (agent_method_get_unit_properties m args).
Proof. unfold agent_method_get_unit_properties. gentle_tac. Qed.
Lemma gentle_get_unit_property δp m args : gentle δp (agent_method_get_unit_property m args).
Proof. unfold agent_method_get_unit_property. gentle_tac. Qed.
Lemma gentle_set_unit_properties δp m args : gentle δp (agent_method_set_unit_properties m args).
Proof. unfold agent_method_set_unit_properties. gentle_tac. Qed.
Lemma gentle_freeze_unit δp m args : gentle δp (agent_method_freeze_unit m args).
Proof. unfold agent_method_freeze_unit. gentle_tac. Qed.
Lemma gentle_thaw_unit δp m args : gentle δp (agent_method_thaw_unit m args).
Proof. unfold agent_method_thaw_unit. gentle_tac. Qed.

Lemma gentle_dep_method δp m args method cb :
  cb <> UnitLifecycleCb -> gentle δp (dep_method m args method cb).
Proof.
  intros Hcb. unfold dep_method, get_dep_unit. destruct args as [r|unit]; [gentle_tac|].
  apply gentle_bind; [gentle_tac|]. intros [dep|]; [|gentle_tac].
  apply gentle_create_call; auto with agent.
Qed.

(** ** Unit operations *)

Lemma job_new_spec δr δp id unit method w :
  agent_inv δr none_held δp w ->
  wp (agent_job_new id unit method)
    (fun r w' => keeps w w' /\ aw_reqs w' = aw_reqs w /\
       match r with
       | None => agent_inv δr none_held δp w'
       | Some op => agent_inv δr (hold none_held op 1) δp w' /\ is_Some (aw_ops w' !! op)
       end) w.
Proof.
  intros (a & Ha & I). unfold agent_job_new, strdup. awp_go. rewrite malloc_succeeds. cbn [negb].
  pose proof (pi_refs _ _ _ _ _ _ _ _ _ I) as Hc.
  pose proof (map_card_nonneg (aw_reqs w)). pose proof (map_card_nonneg (aw_ops w)).
  apply wp_bind. eapply wp_agent_ref; [done|lia|]. awp_go. split; [|split; [done|split]].
  - split; [done|]. cbn. by rewrite Ha.
  - eexists. split; [done|]. cbn. by apply (parts_op_new I).
  - eexists. by apply lookup_insert_eq.
Qed.

Lemma set_userdata_spec δr δp p op w :
  agent_inv δr (hold none_held op 2) δp w -> unstarted p None w -> is_Some (aw_ops w !! op) ->
  wp (systemd_request_set_userdata p op)
    (fun _ w' => keeps w w' /\ agent_inv δr (hold none_held op 1) δp w' /\
       unstarted p (Some op) w' /\ is_Some (aw_ops w' !! op)) w.
Proof.
  intros (a & Ha & I) (q & Hq & Hs & Hu) Hop. unfold systemd_request_set_userdata. awp_go.
  split_and!; try done.
  - exists a. split; [done|]. cbn.
    eapply parts_ext; [apply (parts_give_userdata I p q op); done|done| |done].
    intros x. rewrite hold_eq. unfold hold. by case_decide.
  - eexists. split; [by apply lookup_insert_eq|]. done.
Qed.

(** What the handler does with the request it made, the operation and its
    reference to it. *)
Lemma lifecycle_body_spec δp p op args m w :
  agent_inv (hold none_held p 1) (hold none_held op 1) δp w -> is_Some (aw_ops w !! op) ->
  unstarted p None w ->
  wp (userdata ← agent_job_op_ref op;
      systemd_request_set_userdata p userdata ;;
      r ← systemd_request_append p args;
      r ← (if r <? 0 then error_to m SD_BUS_ERROR_FAILED else
           started ← systemd_request_start p UnitLifecycleCb;
           if negb started then error_to m SD_BUS_ERROR_FAILED else mret 1);
      agent_job_op_unref op ;; mret r)
    (fun _ w' => keeps w w' /\ agent_inv (hold none_held p 1) none_held δp w' /\
       is_Some (aw_reqs w' !! p)) w.
Proof.
  intros Hw Hop (q & Hq & Hs & Hu). apply wp_bind.
  eapply wp_mono; [by apply op_ref_spec|]. intros x w1 (-> & K1 & Hw1 & Hop1 & Hr1).
  apply wp_bind. eapply wp_mono; [apply set_userdata_spec; [exact Hw1|exists q; by rewrite Hr1|done]|].
  intros [] w2 (K2 & Hw2 & Hp2 & Hop2). apply wp_bind.
  eapply wp_mono; [by eapply append_spec|]. intros r w3 (K3 & Hw3 & Hp3). apply wp_bind.
  apply (wp_mono _ (fun _ w4 => keeps w3 w4 /\
    agent_inv (hold none_held p 1) (hold none_held op 1) δp w4 /\ made p (Some op) w4)).
  { assert (made p (Some op) w3) as Hm by (destruct Hp3 as (q3 & ? & _ & ?); by exists q3).
    assert (forall k : AM Z, neutral k -> forall w0, keeps w3 w0 ->
      agent_inv (hold none_held p 1) (hold none_held op 1) δp w0 -> made p (Some op) w0 ->
      wp k (fun _ w4 => keeps w3 w4 /\
        agent_inv (hold none_held p 1) (hold none_held op 1) δp w4 /\ made p (Some op) w4) w0) as Hk.
    { intros k Hk w0 K0 Hw0 Hm0. eapply wp_mono; [by apply Hk|].
      intros ? w5 (K5 & Hw5 & Hr & _). unfold made. rewrite Hr. split; [by trans w0|done]. }
    destruct (r <? 0); [apply Hk; auto with agent; done|].
    apply wp_bind. eapply wp_mono; [by eapply start_spec|]. intros st w4 (K4 & Hw4 & Hm4).
    destruct st; cbn [negb]; by apply Hk; auto with agent. }
  intros r' w4 (K4 & Hw4 & (q4 & Hq4 & Hu4)). apply wp_bind.
  eapply wp_mono; [apply op_unref_spec; [exact Hw4|]|].
  { destruct Hw4 as (a & Ha & I). eapply (op_held _ _ _ _ (pi_ops _ _ _ _ _ _ _ _ _ I)); eauto. }
  intros [] w5 (K5 & Hw5 & Hr5). apply wp_ret. split_and!; [|done|rewrite Hr5; eauto].
  trans w1; [done|]. trans w2; [done|]. trans w3; [done|]. by trans w4.
Qed.

Lemma gentle_lifecycle_method δp m args method :
  gentle δp (agent_run_unit_lifecycle_method m args method).
Proof.
  unfold agent_run_unit_lifecycle_method. destruct args as [r|[[name mode] id]]; [gentle_tac|].
  apply gentle_with_new_request; [apply neutral_gentle; auto with agent|].
  intros p w Hw Hp. apply wp_bind. eapply wp_mono; [by apply job_new_spec|].
  intros [op|] w1 (K1 & Hr1 & H1).
  - destruct H1 as [Hw1 Hop1]. eapply wp_mono; [apply lifecycle_body_spec; [done|done|]|].
    { destruct Hp as (q & ? & ?). exists q. by rewrite Hr1. }
    intros r w2 (K2 & ? & ?). split; [by trans w1|done].
  - eapply wp_mono; [by apply (neutral_error_to m)|]. intros r w2 (K2 & ? & Hr2 & _).
    destruct Hp as (q & ? & ?). rewrite Hr2, Hr1. split_and!; [by trans w1|done|eauto].
Qed.

(** ** Answers of systemd *)

Definition answered (δp : locals) (p : ptr) (m : AM Z) : Prop := forall q w,
  agent_inv none_held none_held δp w -> aw_reqs w !! p = Some q -> sreq_slot q <> None ->
  wp m (fun _ w' => agent_inv none_held none_held δp w' /\ keeps w w') w.

Definition answered_as (s : option systemd_callback) (δp : locals) (p : ptr) (m : AM Z) : Prop :=
  forall q w, agent_inv none_held none_held δp w -> aw_reqs w !! p = Some q -> sreq_slot q = s ->
  wp m (fun _ w' => agent_inv none_held none_held δp w' /\ keeps w w') w.

Lemma answered_neutral δp p (body : SystemdRequest -> AM Z) :
  (forall q, neutral (body q)) ->
  answered δp p (with_request p (req ← aload (T := SystemdRequest) p; body req)).
Proof.
  intros Hb q w Hw Hq Hs. eapply callback_spec; [done|done|done|].
  eapply wp_mono; [by apply Hb|]. intros r w1 (? & ? & ? & _). done.
Qed.

Lemma answered_forward δp p m : answered δp p (forward_answer p m).
Proof. apply answered_neutral. intros q. neutral_tac. Qed.
Lemma answered_cancel δp p m : answered δp p (job_cancel_callback p m).
Proof. apply answered_neutral. intros q. neutral_tac. Qed.
Lemma answered_drop δp p : answered δp p (drop_answer p).
Proof.
  intros q w Hw Hq Hs. apply wp_bind, wp_ret, wp_bind.
  eapply wp_mono; [eapply (request_unref_spec δp p q 0); [|done|by right]|].
  { by apply (agent_inv_ext none_held none_held δp); [apply hold_none|done..]. }
  intros [] w1 [? ?]. by apply wp_ret.
Qed.

Lemma answered_lifecycle δp p m path :
  answered_as (Some UnitLifecycleCb) δp p (unit_lifecycle_method_callback p m path).
Proof.
  intros q w Hw Hq Hsl. assert (sreq_slot q <> None) as Hs by (by rewrite Hsl). eapply callback_spec; [done|done|done|].
  assert (forall k : AM Z, neutral k -> wp k (fun _ w' => keeps w w' /\
    agent_inv none_held none_held δp w' /\ aw_reqs w' = aw_reqs w) w) as Hk.
  { intros k Hk. eapply wp_mono; [by apply Hk|]. intros r w1 (? & ? & ? & _). done. }
  destruct m as [name|m]; [apply Hk; auto with agent|].
  destruct path as [r|path]; [apply Hk; auto with agent|].
  destruct (sreq_userdata q) as [op|] eqn:Hop; [|exfalso].
  2: { destruct Hw as (a & Ha & I).
       by apply (rq_lifecycle _ _ _ (pi_requests _ _ _ _ _ _ _ _ _ I) p q). }
  assert (is_Some (aw_ops w !! op)) as Hops.
  { destruct Hw as (a & Ha & I). by eapply (op_held _ _ _ _ (pi_ops _ _ _ _ _ _ _ _ _ I)). }
  apply wp_bind. eapply wp_mono; [apply (op_ref_spec none_held δp op 0); [|done]|].
  { by apply (agent_inv_ext none_held none_held δp); [done|apply hold_none|done..]. }
  intros x w1 (-> & K1 & Hw1 & Hop1 & Hr1). apply wp_bind.
  eapply wp_mono; [by apply track_job_spec|]. intros ok w2 (K2 & Hw2 & Hr2).
  assert (forall k : AM Z, neutral k -> wp k (fun _ w' => keeps w w' /\
    agent_inv none_held none_held δp w' /\ aw_reqs w' = aw_reqs w) w2) as Hk2.
  { intros k Hk2. eapply wp_mono; [by apply Hk2|]. intros r w3 (K3 & ? & ? & _).
    split_and!; [|done|congruence]. trans w1; [done|]. by trans w2. }
  destruct ok; cbn [negb]; apply Hk2; auto with agent.
Qed.

Lemma run_systemd_callback_gentle δp p m path q w :
  agent_inv none_held none_held δp w -> aw_reqs w !! p = Some q -> sreq_slot q <> None ->
  wp (run_systemd_callback p m path) (fun _ w' => agent_inv none_held none_held δp w' /\ keeps w w') w.
Proof.
  intros Hw Hq Hs. unfold run_systemd_callback. awp_go.
  destruct (sreq_slot q) as [cb|] eqn:Hcb; [|done].
  destruct cb; solve [by eapply answered_forward; rewrite ?Hcb | by eapply answered_drop; rewrite ?Hcb
    | by eapply answered_cancel; rewrite ?Hcb | by eapply answered_lifecycle].
Qed.

(** ** Jobs *)

(** The tracked job with a property is found by a search that changes nothing. *)
Lemma find_tracked_spec δr δo δp (test : ptr -> AM bool) (P : ptr -> bool) w a :
  aw_agent w = Some a ->
  (forall p, p ∈ ag_tracked_jobs a -> wp (test p) (fun b w' => b = P p /\ w' = w) w) ->
  agent_inv δr δo δp w ->
  wp (a ← the_agent; find_first (ag_tracked_jobs a) test)
    (fun r w' => w' = w /\ r = List.find P (ag_tracked_jobs a) /\
       match r with
       | Some p => p ∈ ag_tracked_jobs a /\ is_Some (aw_trackers w !! p)
       | None => True
       end) w.
Proof.
  intros Ha Htest (a' & Ha' & I). simplify_eq. awp_go. apply (wp_find_first _ _ P); [done|].
  split_and!; [done|done|]. case_match eqn:Hf; [|done].
  apply list_find_In in Hf as [Hin _]. apply list_elem_of_In in Hin. split; [done|].
  by apply (tr_listed _ _ (pi_trackers _ _ _ _ _ _ _ _ _ I)).
Qed.

Definition path_is (path : string) (w : AgentWorld) (p : ptr) : bool :=
  match aw_trackers w !! p with
  | Some t => streq (track_job_object_path t) path
  | None => false
  end.

Lemma find_tracker_spec δr δo δp path w a :
  aw_agent w = Some a -> agent_inv δr δo δp w ->
  wp (find_tracker path)
    (fun r w' => w' = w /\ r = List.find (path_is path w) (ag_tracked_jobs a) /\
       match r with
       | Some p => p ∈ ag_tracked_jobs a /\ is_Some (aw_trackers w !! p)
       | None => True
       end) w.
Proof.
  intros Ha Hw. eapply (find_tracked_spec _ _ _ _ (path_is path w)); [done| |done].
  intros p Hp. destruct Hw as (a' & Ha' & I). simplify_eq.
  apply (tr_listed _ _ (pi_trackers _ _ _ _ _ _ _ _ _ I)) in Hp as [t Ht].
  unfold path_is. rewrite Ht. awp_go. done.
Qed.

(** Only calls were made and clocks were read. *)
Definition heap_same (w w' : AgentWorld) : Prop :=
  aw_agent w' = aw_agent w /\ aw_reqs w' = aw_reqs w /\ aw_ops w' = aw_ops w /\
  aw_trackers w' = aw_trackers w /\ aw_proxies w' = aw_proxies w /\ aw_next_ptr w' = aw_next_ptr w.
#[local] Instance heap_same_preorder : PreOrder heap_same.
Proof.
  split; [done|]. intros x y z (? & ? & ? & ? & ? & ?) (? & ? & ? & ? & ? & ?).
  split_and!; congruence.
Qed.

Lemma heap_same_inv δr δo δp w w' : heap_same w w' -> agent_inv δr δo δp w -> agent_inv δr δo δp w'.
Proof.
  intros (H1 & H2 & H3 & H4 & H5 & H6) (a & Ha & I). exists a. split; [congruence|].
  by rewrite H2, H3, H4, H5, H6.
Qed.
Lemma heap_same_keeps w w' : heap_same w w' -> keeps w w'.
Proof. intros (H1 & _ & _ & _ & H5 & _). split; [done|by rewrite H1]. Qed.

Lemma peer_same c a w : aw_agent w = Some a -> wp (peer c) (fun _ w' => heap_same w w') w.
Proof. intros Ha. unfold peer. awp_go. case_match; by awp_go. Qed.

Lemma job_done_same result op a w :
  aw_agent w = Some a -> is_Some (aw_ops w !! op) ->
  wp (agent_job_done result op) (fun _ w' => heap_same w w') w.
Proof.
  intros Ha [o Ho]. unfold agent_job_done. awp_go.
  apply (wp_mono _ (fun _ w1 => heap_same w w1)).
  - destruct (ag_metrics_enabled a); [|by apply wp_ret]. apply wp_bind.
    unfold wp at 1, agent_finalize_interval.
    destruct (realtime (aw_clocks w)) eqn:Ht; [|by destruct (realtime_works _ Ht)].
    apply wp_bind. unfold agent_send_job_metrics. apply wp_bind.
    eapply wp_mono; [by eapply peer_same|]. intros r w1 H1. by awp_go.
  - intros [] w1 H1. apply wp_bind. eapply wp_mono; [eapply peer_same|].
    { destruct H1 as (H1 & _). rewrite H1. exact Ha. }
    intros r w2 H2. apply wp_ret. by trans w1.
Qed.

Lemma gentle_job_removed δp args : gentle δp (agent_match_job_removed args).
Proof.
  unfold agent_match_job_removed. destruct args as [r|[[[id path] unit] result]]; [gentle_tac|].
  intros w Hw. pose proof Hw as (a & Ha & I). apply wp_bind.
  eapply wp_mono; [by eapply find_tracker_spec|]. intros track w1 (-> & _ & Htr).
  destruct track as [p|]; [|by apply wp_ret]. destruct Htr as [Hin [t Ht]].
  awp_go. apply wp_alist_remove; [done|]. awp_go.
  set (a1 := a <| ag_tracked_jobs := remove_first p (ag_tracked_jobs a) |>).
  pose proof (parts_tracker_take I p t Ht : parts_inv _ _ _ a1 _ _ _ _ _) as I1.
  assert (is_Some (aw_ops w !! track_userdata t)) as Hop.
  { by eapply (op_tracked _ _ _ _ (pi_ops _ _ _ _ _ _ _ _ _ I)). }
  eapply wp_mono; [by eapply job_done_same|]. intros [] w2 H2.
  apply wp_bind. unfold job_tracker_free.
  destruct H2 as (Ha2 & Hr2 & Ho2 & Ht2 & Hp2 & Hn2).
  change (aw_agent w2 = Some a1) in Ha2. change (aw_reqs w2 = aw_reqs w) in Hr2.
  change (aw_ops w2 = aw_ops w) in Ho2. change (aw_trackers w2 = aw_trackers w) in Ht2.
  change (aw_proxies w2 = aw_proxies w) in Hp2. change (aw_next_ptr w2 = aw_next_ptr w) in Hn2.
  apply wp_bind. eapply wp_aload; [cbn; by rewrite Ht2|]. apply wp_bind.
  destruct Hop as [o Ho].
  pose proof (pi_refs _ _ _ _ _ _ _ _ _ I) as Hc. pose proof (map_card_delete _ _ _ Ho).
  pose proof (map_card_nonneg (aw_reqs w)).
  pose proof (map_card_nonneg (delete (track_userdata t) (aw_ops w))).
  eapply (wp_op_unref _ o); [by rewrite Ho2|done|cbn; lia|].
  rewrite <- Ho2, <- Hp2 in I1.
  destruct (op_drop_parts _ _ _ a1 _ _ _ (track_userdata t) o w2 I1 ltac:(by rewrite Ho2)
    ltac:(rewrite hold_eq; unfold none_held; lia) Ha2) as (a3 & Ha3 & Hval & I3).
  set (w3 := op_drop _ _ _ _) in *.
  assert (aw_reqs w3 = aw_reqs w2 /\ aw_trackers w3 = aw_trackers w2 /\
          aw_proxies w3 = aw_proxies w2 /\ aw_next_ptr w3 = aw_next_ptr w2) as (Hr3 & Ht3 & Hp3 & Hn3).
  { unfold w3, op_drop. by case_match. }
  eapply wp_afree; [cbn; by rewrite Ht3, Ht2|]. apply wp_ret. split.
  - exists a3. split; [done|]. cbn. rewrite Hr3, Ht3, Hp3, Hn3, Hr2, Ht2, Hn2.
    eapply parts_ext; [exact I3|done| |done].
    intros x. rewrite hold_eq. unfold hold, none_held. by repeat case_decide.
  - split; [cbn; congruence|]. cbn. rewrite Ha3, Ha, Hval. by case_match.
Qed.

Lemma gentle_job_changed δp path interface m : gentle δp (agent_match_job_changed path interface m).
Proof.
  unfold agent_match_job_changed. destruct interface as [r|interface]; [gentle_tac|].
  case_match; [gentle_tac|]. intros w Hw. pose proof Hw as (a & Ha & I). apply wp_bind.
  eapply wp_mono; [by eapply find_tracker_spec|]. intros track w1 (-> & _ & Htr).
  destruct track as [p|]; [|by apply wp_ret]. destruct Htr as [Hin [t Ht]].
  destruct (op_tracked _ _ _ _ (pi_ops _ _ _ _ _ _ _ _ _ I) p t Ht) as [o Ho].
  awp_go. destruct (bus_parse_property_string m "State") as [r state].
  destruct (r <? 0); [by apply wp_ret|]. awp_go.
  eapply wp_mono; [by eapply peer_same|]. intros r' w2 H2. apply wp_ret.
  split; [exact (heap_same_inv _ _ _ _ _ H2 Hw)|exact (heap_same_keeps _ _ H2)].
Qed.

Definition has_bc_id (id : Z) (w : AgentWorld) (p : ptr) : bool :=
  match aw_trackers w !! p with
  | Some t => match aw_ops w !! track_userdata t with
              | Some o => op_bc_job_id o =? id
              | None => false
              end
  | None => false
  end.

Lemma find_jobtracker_spec δr δo δp id w a :
  aw_agent w = Some a -> agent_inv δr δo δp w ->
  wp (agent_find_jobtracker_by_bluechi_id id)
    (fun r w' => w' = w /\ r = List.find (has_bc_id id w) (ag_tracked_jobs a) /\
       match r with
       | Some p => p ∈ ag_tracked_jobs a /\ is_Some (aw_trackers w !! p)
       | None => True
       end) w.
Proof.
  intros Ha Hw. eapply (find_tracked_spec _ _ _ _ (has_bc_id id w)); [done| |done].
  intros p Hp. destruct Hw as (a' & Ha' & I). simplify_eq.
  apply (tr_listed _ _ (pi_trackers _ _ _ _ _ _ _ _ _ I)) in Hp as [t Ht].
  destruct (op_tracked _ _ _ _ (pi_ops _ _ _ _ _ _ _ _ _ I) p t Ht) as [o Ho].
  unfold has_bc_id. rewrite Ht, Ho. awp_go. done.
Qed.

Lemma gentle_job_cancel δp m args : gentle δp (agent_method_job_cancel m args).
Proof.
  unfold agent_method_job_cancel. destruct args as [r|id]; [gentle_tac|].
  intros w Hw. pose proof Hw as (a & Ha & I). apply wp_bind.
  eapply wp_mono; [by eapply find_jobtracker_spec|]. intros track w1 (-> & _ & Htr).
  destruct track as [p|]; [|by apply (neutral_gentle δp); auto with agent].
  destruct Htr as [Hin [t Ht]]. apply wp_bind. eapply wp_aload; [done|].
  by apply gentle_call; auto with agent.
Qed.

(** ** Unit infos *)

Definition with_units (m : gmap string AgentUnitInfo) (a : Agent) : Agent := a <| ag_unit_infos := m |>.

Lemma with_units_same δr δo δp a m w w' :
  agent_inv δr δo δp w -> aw_agent w = Some a -> units_inv m ->
  heap_same (set_agent (with_units m a) w) w' -> agent_inv δr δo δp w' /\ keeps w w'.
Proof.
  intros (a' & Ha' & I) Ha Hm H. assert (a' = a) as -> by congruence. split.
  - eapply heap_same_inv; [exact H|]. exists (with_units m a). split; [done|].
    by apply (parts_agent_fields I).
  - trans (set_agent (with_units m a) w); [|by apply heap_same_keeps]. split; [done|].
    cbn. by rewrite Ha.
Qed.

Lemma units_inv_insert m k i :
  units_inv m -> ui_object_path i = k -> k = unit_path (ui_unit i) -> useful i = true ->
  units_inv (<[k := i]> m).
Proof. intros Hm H1 H2 H3 k' i' [[-> ->]|[_ Hi]]%lookup_insert_Some; [done|by apply Hm]. Qed.
Lemma units_inv_delete m k : units_inv m -> units_inv (delete k m).
Proof. intros Hm k' i' [_ Hi]%lookup_delete_Some. by apply Hm. Qed.

Lemma make_unit_path_spec unit w :
  wp (make_unit_path unit) (fun r w' => r = Some (unit_path unit) /\ heap_same w w') w.
Proof.
  unfold make_unit_path, unit_path. awp_go. rewrite !malloc_succeeds.
  unfold bus_path_escape. cbn [negb]. destruct unit; awp_go; rewrite !malloc_succeeds;
    (split; [cbn -[bus_path_escape_loop]; by rewrite <- ?string_app_assoc|done]).
Qed.

(** The entry of a unit, made if there is none. *)
Definition ensured (unit : string) (a : Agent) : AgentUnitInfo :=
  default (mkAgentUnitInfo (unit_path unit) unit false false None None)
    (ag_unit_infos a !! unit_path unit).

Lemma ensured_keys unit a : units_inv (ag_unit_infos a) ->
  ui_object_path (ensured unit a) = unit_path unit /\
  unit_path unit = unit_path (ui_unit (ensured unit a)).
Proof.
  intros U. unfold ensured. destruct (ag_unit_infos a !! _) as [i|] eqn:Hi; cbn; [|done].
  destruct (U _ _ Hi) as (? & ? & _). done.
Qed.

Lemma ensure_unit_info_spec unit a w :
  aw_agent w = Some a ->
  wp (agent_ensure_unit_info unit)
    (fun r w' => r = Some (ensured unit a) /\
       heap_same (set_agent (with_units (<[unit_path unit := ensured unit a]> (ag_unit_infos a)) a) w)
         w') w.
Proof.
  intros Ha. unfold agent_ensure_unit_info. apply wp_bind.
  eapply wp_mono; [apply make_unit_path_spec|]. intros p w1 [-> H1].
  assert (aw_agent w1 = Some a) as Ha1 by (destruct H1 as (H1 & _); congruence).
  cbn [agent_get_unit_info]. unfold ensured. awp_go.
  destruct (ag_unit_infos a !! unit_path unit) as [i|] eqn:Hi; cbn [default].
  - apply wp_ret. split; [done|]. rewrite insert_id by done.
    replace (with_units (ag_unit_infos a) a) with a by (by destruct a).
    etrans; [|exact H1]. by split.
  - unfold strdup. awp_go. rewrite !malloc_succeeds. awp_go. rewrite !malloc_succeeds. cbn [negb].
    unfold upd_unit_infos. apply wp_bind. eapply wp_upd_agent; [done|]. apply wp_bind.
    eapply wp_the_agent; [done|]. cbn. rewrite lookup_insert_eq. apply wp_ret. split; [done|].
    destruct H1 as (? & ? & ? & ? & ? & ?). by split_and!.
Qed.

(** The handler writes an entry and then only makes calls. *)
Lemma set_unit_info_spec info a w :
  aw_agent w = Some a ->
  wp (set_unit_info info)
    (fun _ w' => heap_same
       (set_agent (with_units (<[ui_object_path info := info]> (ag_unit_infos a)) a) w) w') w.
Proof. intros Ha. unfold set_unit_info, upd_unit_infos. by awp_go. Qed.

Lemma set_units_twice m m' a w w' w'' :
  heap_same (set_agent (with_units m a) w) w' ->
  heap_same (set_agent (with_units m' (with_units m a)) w') w'' ->
  heap_same (set_agent (with_units m' a) w) w''.
Proof.
  intros (? & ? & ? & ? & ? & ?) (Hag & ? & ? & ? & ? & ?).
  split_and!; [exact Hag|cbn in *; congruence..].
Qed.

(** [ensure], change the entry, write it back: the pattern of three handlers. *)
Lemma ensure_set_spec unit f a w :
  aw_agent w = Some a -> (forall i, ui_object_path (f i) = ui_object_path i) ->
  units_inv (ag_unit_infos a) ->
  forall w1, heap_same (set_agent (with_units
    (<[unit_path unit := ensured unit a]> (ag_unit_infos a)) a) w) w1 ->
  wp (set_unit_info (f (ensured unit a)))
    (fun _ w2 => heap_same (set_agent (with_units
       (<[unit_path unit := f (ensured unit a)]> (ag_unit_infos a)) a) w) w2) w1.
Proof.
  intros Ha Hf U w1 H1. eapply wp_mono.
  { apply set_unit_info_spec. destruct H1 as (H1 & _). rewrite H1. done. }
  intros [] w2 H2. cbn in H2.
  rewrite Hf, (proj1 (ensured_keys unit a U)), insert_insert_eq in H2.
  by eapply set_units_twice.
Qed.

(** Continue with calls after the infos were written. *)
Lemma after_units δp m a w w1 {A} (k : AM A) :
  agent_inv none_held none_held δp w -> aw_agent w = Some a -> units_inv m ->
  heap_same (set_agent (with_units m a) w) w1 -> neutral k ->
  wp k (fun _ w' => agent_inv none_held none_held δp w' /\ keeps w w') w1.
Proof.
  intros Hw Ha Hm H1 Hk. destruct (with_units_same _ _ _ a m w w1 Hw Ha Hm H1) as [Hw1 K1].
  eapply wp_mono; [by apply Hk|]. intros r w2 (K2 & ? & _). split; [done|]. by trans w1.
Qed.

Lemma neutral_internal_signal member args : neutral (internal_signal member args).
Proof. apply neutral_peer. Qed.
Hint Resolve neutral_internal_signal : agent.
Lemma neutral_emit_unit_new unit reason : neutral (agent_emit_unit_new unit reason).
Proof. unfold agent_emit_unit_new. neutral_tac. Qed.
Lemma neutral_emit_unit_removed unit : neutral (agent_emit_unit_removed unit).
Proof. unfold agent_emit_unit_removed. neutral_tac. Qed.
Lemma neutral_emit_state info reason : neutral (agent_emit_unit_state_changed info reason).
Proof. unfold agent_emit_unit_state_changed. neutral_tac. Qed.
Hint Resolve neutral_emit_unit_new neutral_emit_unit_removed neutral_emit_state : agent.

Lemma gentle_subscribe δp m args : gentle δp (agent_method_subscribe m args).
Proof.
  unfold agent_method_subscribe. destruct args as [r|unit]; [gentle_tac|].
  destruct (is_wildcard unit); [gentle_tac|]. intros w Hw. pose proof Hw as (a & Ha & I).
  pose proof (pi_units _ _ _ _ _ _ _ _ _ I) as U.
  destruct (ensured_keys unit a U) as [Hk1 Hk2].
  apply wp_bind. eapply wp_mono; [by apply ensure_unit_info_spec|]. intros x w1 [-> H1].
  destruct (ui_subscribed (ensured unit a)) eqn:Hs.
  - eapply after_units; [done|done| |exact H1|auto with agent].
    apply units_inv_insert; [done..|]. unfold useful. by rewrite Hs.
  - apply wp_bind. eapply wp_mono.
    { by apply (ensure_set_spec unit (fun i => i <| ui_subscribed := true |>)). }
    intros [] w2 H2. eapply after_units; [done|done| |exact H2|neutral_tac].
    by apply units_inv_insert.
Qed.

Lemma update_infos_spec info a w :
  aw_agent w = Some a ->
  wp (agent_update_unit_infos_for info)
    (fun _ w' => heap_same (set_agent (with_units
       (if useful info then ag_unit_infos a else delete (ui_object_path info) (ag_unit_infos a)) a)
       w) w') w.
Proof.
  intros Ha. unfold agent_update_unit_infos_for, useful.
  destruct (ui_subscribed info), (ui_loaded info); cbn [negb andb orb]; unfold upd_unit_infos; awp_go;
    split_and!; try done; cbn; by rewrite Ha; destruct a.
Qed.

(** An entry is changed and then dropped unless it is still of use. *)
Lemma set_update_spec i info a w w1 :
  aw_agent w = Some a -> heap_same w w1 -> ui_object_path i = ui_object_path info ->
  wp (set_unit_info info) (fun _ w2 => heap_same (set_agent (with_units
        (<[ui_object_path i := info]> (ag_unit_infos a)) a) w) w2) w1.
Proof.
  intros Ha H1 Hi. rewrite Hi. eapply wp_mono; [apply set_unit_info_spec|].
  { destruct H1 as (H1 & _). by rewrite H1. }
  intros [] w2 H2. etrans; [|exact H2]. destruct H1 as (? & ? & ? & ? & ? & ?). by split_and!.
Qed.

Lemma drop_useless_spec k info a w w2 :
  aw_agent w = Some a -> ui_object_path info = k ->
  heap_same (set_agent (with_units (<[k := info]> (ag_unit_infos a)) a) w) w2 ->
  wp (agent_update_unit_infos_for info)
    (fun _ w3 => heap_same (set_agent (with_units
       (if useful info then <[k := info]> (ag_unit_infos a) else delete k (ag_unit_infos a)) a) w) w3)
    w2.
Proof.
  intros Ha Hk H2. eapply wp_mono; [apply update_infos_spec; by apply H2|].
  intros [] w3 H3. cbn in H3. rewrite Hk, delete_insert_eq in H3. by eapply set_units_twice.
Qed.

Lemma units_inv_drop m k info :
  units_inv m -> ui_object_path info = k -> k = unit_path (ui_unit info) ->
  units_inv (if useful info then <[k := info]> m else delete k m).
Proof.
  intros Hm Hk Hp. destruct (useful info) eqn:Hu; [by apply units_inv_insert|by apply units_inv_delete].
Qed.

Lemma gentle_unsubscribe δp m args : gentle δp (agent_method_unsubscribe m args).
Proof.
  unfold agent_method_unsubscribe. destruct args as [r|unit]; [gentle_tac|].
  destruct (is_wildcard unit); [gentle_tac|]. intros w Hw. pose proof Hw as (a & Ha & I).
  pose proof (pi_units _ _ _ _ _ _ _ _ _ I) as U. apply wp_bind.
  eapply wp_mono; [apply make_unit_path_spec|]. intros x w1 [-> H1]. cbn [agent_get_unit_info].
  apply wp_bind, wp_bind. eapply wp_the_agent; [by destruct H1 as (-> & _)|]. apply wp_ret.
  pose proof (heap_same_inv _ _ _ _ _ H1 Hw) as Hw1. pose proof (heap_same_keeps _ _ H1) as K1.
  assert (wp (error_to m SD_BUS_ERROR_FAILED)
    (fun _ w' => agent_inv none_held none_held δp w' /\ keeps w w') w1) as Herr.
  { eapply wp_mono; [by apply (neutral_error_to m)|]. intros r w2 (K2 & ? & _).
    split; [done|by trans w1]. }
  destruct (ag_unit_infos a !! unit_path unit) as [i|] eqn:Hi; [|done].
  destruct (ui_subscribed i); cbn [negb]; [|done].
  destruct (U _ _ Hi) as (Hp & Hu & _). set (i' := i <| ui_subscribed := false |>).
  apply wp_bind. eapply wp_mono; [by apply (set_update_spec i i' a w)|]. intros [] w2 H2.
  apply wp_bind. eapply wp_mono.
  { by eapply (drop_useless_spec (ui_object_path i) i' a w). }
  intros [] w3 H3. eapply after_units; [done|done| |exact H3|auto with agent].
  apply units_inv_drop; [done|done|]. by rewrite Hp.
Qed.

Lemma neutral_message_steps n : neutral (message_steps n).
Proof. induction n as [|n IH]; cbn; [auto with agent|]. neutral_tac. Qed.
Hint Resolve neutral_message_steps : agent.

Lemma update_state_spec i m w :
  wp (unit_info_update_state i m)
    (fun r w' => heap_same w w' /\ ui_object_path (fst r) = ui_object_path i /\
       ui_unit (fst r) = ui_unit i /\ useful (fst r) = useful i) w.
Proof.
  unfold unit_info_update_state.
  destruct (bus_parse_properties_foreach _ _ _) as [r d].
  destruct (r <? 0); [by apply wp_ret|]. case_match; [|by apply wp_ret].
  unfold strdup. awp_go. done.
Qed.

Lemma gentle_unit_changed δp path interface m msg :
  gentle δp (agent_match_unit_changed path interface m msg).
Proof.
  unfold agent_match_unit_changed. destruct interface as [r|interface]; [gentle_tac|].
  intros w Hw. pose proof Hw as (a & Ha & I). pose proof (pi_units _ _ _ _ _ _ _ _ _ I) as U.
  cbn [agent_get_unit_info]. awp_go.
  destruct (ag_unit_infos a !! path) as [i|] eqn:Hi; [|by apply wp_ret].
  destruct (U _ _ Hi) as (Hp & Hu & Huse). apply wp_bind.
  apply (wp_mono _ (fun (_ : AgentUnitInfo) w1 => agent_inv none_held none_held δp w1 /\ keeps w w1)).
  - destruct (streq interface SYSTEMD_UNIT_IFACE); [|by apply wp_ret].
    apply wp_bind. eapply wp_mono; [apply update_state_spec|]. intros [i' changed] w1 (H1 & Hp' & Hu' & Huse').
    cbn [fst snd] in *. apply wp_bind.
    eapply wp_mono; [by apply (set_update_spec i i' a w)|]. intros [] w2 H2.
    eapply (after_units δp _ a w); [done|done| |exact H2|neutral_tac].
    apply units_inv_insert; [done|by rewrite Hp'|by rewrite Hp, Hu'|by rewrite Huse'].
  - intros i' w1 [Hw1 K1]. eapply wp_mono.
    { assert (gentle δp (a0 ← the_agent;
        if negb (ui_subscribed i') && negb (ag_wildcard_subscription_active a0) then mret 0 else
        match ag_peer_dbus a0 with
        | None => mret (- ENOTCONN)
        | Some b =>
            r ← message_steps 4;
            if r <? 0 then mret r else
            abus (PeerEmitSignal b INTERNAL_AGENT_OBJECT_PATH INTERNAL_AGENT_INTERFACE
                    "UnitPropertiesChanged" [VString (ui_unit i'); VString interface; VCopy msg])
        end)) as G by gentle_tac. by apply G. }
    intros r w2 [? K2]. split; [done|by trans w1].
Qed.

Lemma gentle_unit_new δp args : gentle δp (agent_match_unit_new args).
Proof.
  unfold agent_match_unit_new. destruct args as [r|[unit path]]; [gentle_tac|].
  intros w Hw. pose proof Hw as (a & Ha & I). pose proof (pi_units _ _ _ _ _ _ _ _ _ I) as U.
  destruct (ensured_keys unit a U) as [Hk1 Hk2].
  apply wp_bind. eapply wp_mono; [by apply ensure_unit_info_spec|]. intros x w1 [-> H1].
  unfold strdup. awp_go. rewrite malloc_succeeds. set (w1' := mtick w1).
  assert (heap_same (set_agent (with_units (<[unit_path unit := ensured unit a]> (ag_unit_infos a)) a)
    w) w1') as H1' by exact H1. eapply wp_mono.
  { by apply (ensure_set_spec unit (fun i => i <| ui_loaded := true |>
       <| ui_active_state := Some UNIT_INACTIVE |> <| ui_substate := Some "dead" |>) a w). }
  intros [] w2 H2. eapply after_units; [done|done| |exact H2|neutral_tac].
  apply units_inv_insert; try done. unfold useful. cbn. apply orb_true_r.
Qed.

Lemma gentle_unit_removed δp args : gentle δp (agent_match_unit_removed args).
Proof.
  unfold agent_match_unit_removed. destruct args as [r|[unit path]]; [gentle_tac|].
  intros w Hw. pose proof Hw as (a & Ha & I). pose proof (pi_units _ _ _ _ _ _ _ _ _ I) as U.
  cbn [agent_get_unit_info]. awp_go.
  destruct (ag_unit_infos a !! path) as [i|] eqn:Hi; [|by apply wp_ret].
  destruct (U _ _ Hi) as (Hp & Hu & _). set (i' := i <| ui_loaded := false |> <| _ := _ |> <| _ := _ |>).
  apply wp_bind. eapply wp_mono; [by apply (set_update_spec i i' a w)|]. intros [] w2 H2.
  apply wp_bind. eapply wp_the_agent; [by apply H2|]. apply wp_bind.
  apply (wp_mono _ (fun _ w3 => heap_same (set_agent (with_units
    (<[ui_object_path i := i']> (ag_unit_infos a)) a) w) w3)).
  { case_match; [|by apply wp_ret]. apply wp_bind.
    eapply wp_mono; [eapply peer_same; by apply H2|]. intros r w3 H3. apply wp_ret. by trans w2. }
  intros [] w3 H3. apply wp_bind.
  eapply wp_mono; [by eapply (drop_useless_spec (ui_object_path i) i' a w)|].
  intros [] w4 H4. eapply after_units; [done|done| |exact H4|auto with agent].
  apply units_inv_drop; [done|done|]. by rewrite Hp.
Qed.
End handlers.
