(* ===== verification/AgentProxySteps.v ===== *)
(** The handlers on proxies and on the connection to the controller preserve the
    invariant of AgentFacts.v. *)
From S2P Require Import Prelude CString StringUtil ParseUtil TimeUtil Protocol BusUtils Log Cfg.
From S2P Require Import Socket BusProps World AgentWorld AgentRequests AgentUnits AgentProxy.
From S2P Require Import Agent WorldFacts AgentFacts AgentSafe AgentSteps.

Local Open Scope list_scope.

Section proxies.
Context {E : AgentEnv} {L : AgentEnvLaws E}.

(** The proxy [p] belongs to the agent; [b] is whether it is in the list. *)
Definition has_proxy (p : ptr) (b : bool) (w : AgentWorld) : Prop :=
  exists a q, aw_agent w = Some a /\ aw_proxies w !! p = Some q /\ ps_agent q = true /\
    bool_decide (p ∈ ag_proxy_services a) = b.

(** The proxies other than [p] stay in the list. *)
Definition others (p : ptr) (w w' : AgentWorld) : Prop :=
  forall x b, x <> p -> has_proxy x b w -> has_proxy x b w'.
Lemma others_trans p w1 w2 w3 : others p w1 w2 -> others p w2 w3 -> others p w1 w3.
Proof. unfold others. eauto. Qed.

(** Programs that may change a proxy, but keep it where it is. *)
Definition proxied (δp : locals) (p : ptr) (b : bool) {A} (m : AM A) : Prop := forall w,
  agent_inv none_held none_held δp w -> has_proxy p b w ->
  wp m (fun _ w' => agent_inv none_held none_held δp w' /\ has_proxy p b w' /\ others p w w') w.

Lemma has_proxy_keeps p b w w' : keeps w w' -> is_Some (aw_agent w') -> has_proxy p b w -> has_proxy p b w'.
Proof.
  intros [H1 H2] [a' Ha'] (a & q & Ha & Hq & Hqa & Hb). exists a', q. rewrite H1.
  split_and!; try done. rewrite Ha, Ha' in H2. by injection H2 as ->.
Qed.

Lemma proxied_gentle δp p b {A} (m : AM A) : gentle δp m -> proxied δp p b m.
Proof.
  intros Hm w Hw Hp. eapply wp_mono; [by apply Hm|]. intros r w1 [Hw1 K1].
  assert (is_Some (aw_agent w1)) by (destruct Hw1 as (a & Ha & _); eauto).
  split_and!; [done|by eapply has_proxy_keeps|]. intros x b' _ Hx. by eapply has_proxy_keeps.
Qed.
Lemma proxied_ret δp p b {A} (a : A) : proxied δp p b (mret a : AM A).
Proof. intros w Hw Hp. apply wp_ret. split_and!; [done|done|]. by intros ? ? ?. Qed.
Lemma proxied_bind δp p b {A B} (m : AM A) (k : A -> AM B) :
  proxied δp p b m -> (forall a, proxied δp p b (k a)) -> proxied δp p b (m ≫= k).
Proof.
  intros Hm Hk w Hw Hp. apply wp_bind. eapply wp_mono; [by apply Hm|].
  intros r w1 (Hw1 & Hp1 & O1). eapply wp_mono; [by apply Hk|]. intros r2 w2 (? & ? & O2).
  split_and!; [done|done|by eapply others_trans].
Qed.
Lemma proxied_load δp p b : proxied δp p b (aload (T := ProxyService) p).
Proof. intros w Hw Hp. pose proof Hp as (a & q & Ha & Hq & _). awp_go. split_and!; [done|done|]. by intros ? ? ?. Qed.
Lemma proxied_update δp p b f :
  (forall q, ps_agent (f q) = ps_agent q /\ ps_ref_count (f q) = ps_ref_count q) ->
  proxied δp p b (upd_proxy p f).
Proof.
  intros Hf w (a' & Ha' & I) (a & q & Ha & Hq & Hqa & Hb). assert (a' = a) as -> by congruence. unfold upd_proxy. awp_go.
  destruct (Hf q) as [Hf1 Hf2]. split_and!.
  - exists a. split; [done|]. destruct (px_refs _ _ _ (pi_proxies _ _ _ _ _ _ _ _ _ I) p q Hq).
    apply (parts_proxy_update I p q); [done|done| |lia|done]. lia.
  - exists a, (f q). split_and!; [done|by apply lookup_insert_eq|by rewrite Hf1|done].
  - intros x b' Hx (a1 & q1 & Ha1 & Hq1 & ?). exists a1, q1. split_and!; try tauto.
    cbn. by rewrite lookup_insert_ne.
Qed.

Ltac proxied_step :=
  lazymatch goal with
  | |- proxied _ _ _ (mbind _ _) => apply proxied_bind; [|intros ?]
  | |- proxied _ _ _ (match ?x with _ => _ end) => destruct x
  | |- proxied _ _ _ (upd_proxy _ _) => apply proxied_update; by intros []
  | |- proxied _ _ _ (aload _) => apply proxied_load
  | |- proxied _ _ _ _ =>
      solve [apply proxied_gentle; gentle_tac | eauto with agent]
  end.
Ltac proxied_tac := repeat (cbn beta iota; proxied_step).

Lemma gentle_internal_signal δp member args : gentle δp (internal_signal member args).
Proof. apply neutral_gentle, neutral_peer. Qed.
Hint Resolve gentle_internal_signal : agent.
Lemma gentle_proxy_agent δp q : gentle δp (proxy_agent q).
Proof. unfold proxy_agent. gentle_tac. Qed.
Hint Resolve gentle_proxy_agent : agent.

Lemma proxied_emit_new δp p b : proxied δp p b (proxy_service_emit_proxy_new p).
Proof. unfold proxy_service_emit_proxy_new. proxied_tac. Qed.
Lemma proxied_emit_removed δp p b : proxied δp p b (proxy_service_emit_proxy_removed p).
Proof. unfold proxy_service_emit_proxy_removed. proxied_tac. Qed.
Lemma proxied_unexport δp p b : proxied δp p b (proxy_service_unexport p).
Proof. unfold proxy_service_unexport. proxied_tac. Qed.

Lemma gentle_stop_request δp args :
  gentle δp (req ← agent_create_request None "StopUnit";
             match req with
             | None => mret (- ENOMEM)
             | Some req =>
                 with_request req
                   (r ← systemd_request_append req args;
                    if r <? 0 then mret (- ENOMEM) else
                    started ← systemd_request_start req StopProxyCb;
                    mret (if started : bool then 0 else - EIO))
             end).
Proof.
  apply gentle_with_new_request; [apply gentle_ret|]. intros p w Hw Hp. apply wp_bind.
  eapply wp_mono; [by apply append_spec|]. intros r w1 (K1 & Hw1 & Hp1). destruct (r <? 0).
  - apply wp_ret. split_and!; [done|done|]. destruct Hp1 as (q & ? & _). eauto.
  - apply wp_bind. eapply wp_mono; [by eapply start_spec|]. intros st w2 (K2 & Hw2 & (q & ? & _)).
    apply wp_ret. split_and!; [by trans w1|done|eauto].
Qed.
Lemma proxied_stop_local δp p b : proxied δp p b (agent_stop_local_proxy_service p).
Proof.
  unfold agent_stop_local_proxy_service. apply proxied_bind; [apply proxied_load|]. intros q.
  case_match; [proxied_tac|]. apply proxied_bind; [proxied_tac|]. intros [].
  apply proxied_gentle, gentle_stop_request.
Qed.
Hint Resolve proxied_emit_new proxied_emit_removed proxied_unexport proxied_stop_local : agent.

(** ** References *)

Definition present (p : ptr) (w : AgentWorld) : Prop := is_Some (aw_proxies w !! p).

Lemma proxy_ref_spec δ p w n :
  agent_inv none_held none_held (hold none_held p n) w -> has_proxy p δ w ->
  wp (proxy_service_ref p) (fun x w' => x = p /\
    agent_inv none_held none_held (hold none_held p (n + 1)) w' /\ has_proxy p δ w' /\
    (ps_request_message <$> aw_proxies w' !! p) = (ps_request_message <$> aw_proxies w !! p)) w.
Proof.
  intros (a' & Ha' & I) (a & q & Ha & Hq & Hqa & Hb). assert (a' = a) as -> by congruence.
  unfold proxy_service_ref, upd_proxy. awp_go. split_and!; [done| | |].
  - exists a. split; [done|]. destruct (px_refs _ _ _ (pi_proxies _ _ _ _ _ _ _ _ _ I) p q Hq).
    apply (parts_proxy_update I p q); cbn; [done|done| |lia|].
    + rewrite !hold_eq. lia.
    + intros x Hx. by rewrite !hold_ne.
  - eexists a, _. split_and!; [done|by apply lookup_insert_eq|done|done].
  - cbn. by rewrite lookup_insert_eq, Hq.
Qed.

(** The handler drops a reference; the proxy stays while others are left. *)
Lemma proxy_unref_spec p n a w :
  agent_inv none_held none_held (hold none_held p (n + 1)) w -> aw_agent w = Some a -> 0 <= n ->
  present p w ->
  wp (proxy_service_unref p) (fun _ w' =>
    agent_inv none_held none_held (hold none_held p n) w' /\
    (1 <= n -> present p w') /\ others p w w') w.
Proof.
  intros (a' & Ha' & I) Ha Hn [q Hq]. assert (a' = a) as -> by congruence.
  unfold proxy_service_unref, upd_proxy. awp_go. eapply wp_aload; [by apply lookup_insert_eq|].
  set (q' := q <| ps_ref_count ::= Z.pred |>). assert (ps_ref_count q' = Z.pred (ps_ref_count q)) as Hr' by done.
  destruct (px_refs _ _ _ (pi_proxies _ _ _ _ _ _ _ _ _ I) p q Hq) as [Hr Hpos].
  rewrite hold_eq in Hr. rewrite Hr'.
  destruct (Z.eqb_spec (Z.pred (ps_ref_count q)) 0) as [E0|E0]; cbn [negb].
  - unfold bit in Hr. case_bool_decide as Hin; [lia|]. assert (n = 0) as -> by lia.
    awp_go. apply wp_assert; [apply bool_decide_eq_true; by left|].
    eapply wp_afree; [by apply lookup_insert_eq|]. split_and!; [|lia|].
    + exists a. split; [done|]. cbn. rewrite delete_insert_eq.
      apply (parts_proxy_drop I); [done|]. intros x Hx. by rewrite !hold_ne.
    + intros x b Hx (a1 & q1 & Ha1 & Hq1 & ?). exists a1, q1. split_and!; try tauto.
      cbn. by rewrite delete_insert_eq, lookup_delete_ne.
  - apply wp_ret. split_and!.
    + exists a. split; [done|]. apply (parts_proxy_update I p q); [done|done| |lia|].
      * rewrite !hold_eq. lia.
      * intros x Hx. by rewrite !hold_ne.
    + intros _. eexists. by apply lookup_insert_eq.
    + intros x b Hx (a1 & q1 & Ha1 & Hq1 & ?). exists a1, q1. split_and!; try tauto.
      cbn. by rewrite lookup_insert_ne.
Qed.

Lemma proxied_then p n {A B} (m : AM A) (k : A -> AM B) Q w :
  proxied (hold none_held p n) p true m ->
  agent_inv none_held none_held (hold none_held p n) w -> has_proxy p true w ->
  (forall r w', agent_inv none_held none_held (hold none_held p n) w' -> has_proxy p true w' ->
     others p w w' -> wp (k r) Q w') ->
  wp (m ≫= k) Q w.
Proof.
  intros Hm Hw Hp Hk. apply wp_bind. eapply wp_mono; [by apply Hm|]. intros r w1 (? & ? & ?).
  by apply Hk.
Qed.

Lemma remove_proxy_spec p n emit w :
  agent_inv none_held none_held (hold none_held p n) w -> 0 <= n -> has_proxy p true w ->
  wp (agent_remove_proxy p emit) (fun _ w' =>
    agent_inv none_held none_held (hold none_held p n) w' /\ (1 <= n -> present p w') /\
    others p w w') w.
Proof.
  intros Hw Hn Hp. unfold agent_remove_proxy.
  pose proof Hp as (a & q & Ha & Hq & Hqa & _). apply wp_bind. eapply wp_aload; [done|].
  apply wp_bind, wp_assert; [done|].
  apply (proxied_then p n); [destruct emit; proxied_tac|done|done|]. intros _ w1 Hw1 Hp1 O1.
  apply (proxied_then p n); [destruct (ps_request_message q); proxied_tac|done|done|].
  intros _ w2 Hw2 Hp2 O2.
  apply (proxied_then p n); [destruct (ps_sent_successful_ready q); proxied_tac|done|done|].
  intros _ w3 Hw3 Hp3 O3.
  apply (proxied_then p n); [auto with agent|done|done|]. intros _ w4 Hw4 Hp4 O4.
  assert (others p w w4) as O by eauto using others_trans. clear dependent a w1 w2 w3.
  destruct Hw4 as (a & Ha & I). destruct Hp4 as (a1 & q1 & Ha1 & Hq1 & _ & Hin).
  assert (a1 = a) as -> by congruence. apply bool_decide_eq_true in Hin.
  unfold upd_proxy. awp_go. apply wp_alist_remove; [done|]. awp_go.
  eapply wp_mono; [eapply (proxy_unref_spec p n); [|done|done|by eexists; apply lookup_insert_eq]|].
  - eexists. split; [done|]. cbn.
    eapply parts_ext; [by apply (parts_proxy_unlist I p q1)|done|done|].
    intros x. rewrite hold_eq. unfold hold. by case_decide.
  - intros [] w5 (? & ? & O5). split_and!; [done|done|]. intros x b Hx Hxw. apply O5; [done|].
    destruct (O x b Hx Hxw) as (a2 & q2 & Ha2 & Hq2 & Hqa2 & Hb). simplify_eq.
    eexists _, q2. split_and!; [done|cbn; by rewrite lookup_insert_ne|done|].
    cbn. apply bool_decide_ext. rewrite elem_of_remove_first; [tauto|].
    exact (px_nodup _ _ _ (pi_proxies _ _ _ _ _ _ _ _ _ I)).
Qed.

(** ** What the controller reports *)

Lemma present_listed p w : agent_ok w -> present p w -> has_proxy p true w.
Proof.
  intros (a & Ha & I) [q Hq].
  destruct (px_refs _ _ _ (pi_proxies _ _ _ _ _ _ _ _ _ I) p q Hq) as [Hr Hpos].
  unfold none_held, bit in Hr. case_bool_decide as Hin; [|lia].
  destruct (px_listed _ _ _ (pi_proxies _ _ _ _ _ _ _ _ _ I) p Hin) as (q' & Hq' & Hqa).
  exists a, q'. split_and!; [done..|]. by apply bool_decide_eq_true.
Qed.

(** The state in which the body of [with_proxy] runs and ends. *)
Abbreviation holding p := (agent_inv none_held none_held (hold none_held p 1)).

Lemma with_proxy_spec p {A} (body : AM A) w :
  agent_ok w -> present p w ->
  (forall w', holding p w' -> has_proxy p true w' ->
     (ps_request_message <$> aw_proxies w' !! p) = (ps_request_message <$> aw_proxies w !! p) ->
     wp body (fun _ w' => holding p w' /\ present p w') w') ->
  wp (with_proxy p body) (fun _ w' => agent_ok w') w.
Proof.
  intros Hw Hp Hbody. unfold with_proxy. apply wp_bind.
  eapply wp_mono; [apply (proxy_ref_spec true p w 0)|].
  { by apply (agent_inv_ext none_held none_held none_held); [..|apply hold_none|]. }
  { by apply present_listed. }
  intros x w1 (-> & Hw1 & Hp1 & Hm1). apply wp_bind. eapply wp_mono; [by apply Hbody|].
  intros r w2 [Hw2 Hp2]. apply wp_bind. pose proof Hw2 as (a & Ha & _).
  eapply wp_mono; [by apply (proxy_unref_spec p 0 a)|]. intros [] w3 (Hw3 & _). apply wp_ret.
  by apply (agent_inv_ext none_held none_held (hold none_held p 0)); [..|intros; symmetry; apply hold_none|].
Qed.

Lemma proxied_present p {A} (m : AM A) w :
  proxied (hold none_held p 1) p true m -> holding p w -> has_proxy p true w ->
  wp m (fun _ w' => holding p w' /\ present p w') w.
Proof.
  intros Hm Hw Hp. eapply wp_mono; [by apply Hm|]. intros r w1 (? & (a & q & _ & Hq & _) & _).
  split; [done|by eexists].
Qed.

(** After the proxy may have been removed, only the reply is left to do. *)
Lemma then_reply p {A B} (m : AM A) (k : A -> AM B) w :
  wp m (fun _ w' => holding p w' /\ present p w') w -> (forall a, neutral (k a)) ->
  wp (m ≫= k) (fun _ w' => holding p w' /\ present p w') w.
Proof.
  intros Hm Hk. apply wp_bind. eapply wp_mono; [exact Hm|]. intros r w1 [Hw1 Hp1].
  eapply wp_mono; [by apply Hk|]. intros r' w2 ([K1 _] & Hw2 & _). split; [done|].
  unfold present. by rewrite K1.
Qed.

Lemma initial_state_spec p success m w :
  holding p w -> has_proxy p true w ->
  (forall q, aw_proxies w !! p = Some q -> ps_request_message q = Some m) ->
  wp (proxy_service_initial_state_reached p success)
    (fun _ w' => holding p w' /\ present p w') w.
Proof.
  intros Hw Hp Hm. unfold proxy_service_initial_state_reached.
  pose proof Hp as (a & q & Ha & Hq & Hqa & _). apply wp_bind. eapply wp_aload; [done|].
  rewrite (Hm q Hq). clear dependent a.
  apply (proxied_then p 1); [destruct success; proxied_tac|done|done|].
  intros _ w1 Hw1 Hp1 _. clear dependent w.
  apply (proxied_then p 1); [proxied_tac|done|done|]. intros _ w2 Hw2 Hp2 _. clear dependent w1.
  apply (proxied_then p 1); [apply proxied_load|done|done|]. intros q2 w3 Hw3 Hp3 _.
  destruct (ps_sent_successful_ready q2); cbn [negb].
  - apply wp_ret. split; [done|]. destruct Hp3 as (? & ? & _ & ? & _). by eexists.
  - eapply wp_mono; [by apply (remove_proxy_spec p 1)|]. intros [] w4 (? & H4 & _). split; [done|].
    by apply H4.
Qed.

Lemma safe_state_changed m args p w :
  agent_ok w -> present p w ->
  wp (proxy_service_method_target_state_changed m args p) (fun _ w' => agent_ok w') w.
Proof.
  intros Hw Hp. apply with_proxy_spec; [done|done|]. intros w' Hw' Hp' _. clear w Hw Hp.
  revert w' Hw' Hp'. intros w Hw Hp.
  pose proof Hp as (a & q & Ha & Hq & Hqa & _). apply wp_bind. eapply wp_aload; [done|].
  rewrite Hqa. cbn [negb]. clear dependent a.
  destruct args as [r|[[state substate] reason]]; [apply proxied_present; [proxied_tac|done..]|].
  apply then_reply; [|intros; auto with agent].
  destruct (ps_request_message q) as [rm|] eqn:Hrm.
  - assert (forall s, wp (proxy_service_initial_state_reached p s)
      (fun _ w' => holding p w' /\ present p w') w) as Hi.
    { intros s. apply (initial_state_spec p s rm); [done|done|]. intros q' ?. by simplify_eq. }
    case_match; [done|]. case_match; [done|]. apply proxied_present; [proxied_tac|done..].
  - case_match; [|apply proxied_present; [proxied_tac|done..]].
    case_match; [|apply proxied_present; [proxied_tac|done..]].
    unfold proxy_service_target_stopped. apply wp_bind. eapply wp_aload; [done|].
    apply wp_bind, wp_assert; [by rewrite Hrm|].
    eapply wp_mono; [by apply (remove_proxy_spec p 1)|]. intros [] w4 (? & H4 & _). split; [done|].
    by apply H4.
Qed.

Lemma safe_target_new m args p w :
  agent_ok w -> present p w ->
  wp (proxy_service_method_target_new m args p) (fun _ w' => agent_ok w') w.
Proof.
  intros Hw Hp. apply with_proxy_spec; [done|done|]. intros w' Hw' Hp' _.
  apply proxied_present; [proxied_tac|done..].
Qed.

Lemma safe_target_removed m args p w :
  agent_ok w -> present p w ->
  wp (proxy_service_method_target_removed m args p) (fun _ w' => agent_ok w') w.
Proof.
  intros Hw Hp. apply with_proxy_spec; [done|done|]. intros w' Hw' Hp' _. clear w Hw Hp.
  revert w' Hw' Hp'. intros w Hw Hp.
  pose proof Hp as (a & q & Ha & Hq & Hqa & _). apply wp_bind. eapply wp_aload; [done|].
  rewrite Hqa. cbn [negb]. clear dependent a.
  destruct args as [r|reason]; [apply proxied_present; [proxied_tac|done..]|].
  apply then_reply; [|intros; auto with agent].
  destruct (ps_request_message q) as [rm|] eqn:Hrm; [|apply proxied_present; [proxied_tac|done..]].
  case_match; [|apply proxied_present; [proxied_tac|done..]].
  apply (initial_state_spec p false rm); [done|done|]. intros q' ?. by simplify_eq.
Qed.

(** The controller reports an error only while the request is pending. *)
Lemma safe_error m p q rm w :
  agent_ok w -> aw_proxies w !! p = Some q -> ps_request_message q = Some rm ->
  wp (proxy_service_method_error m p) (fun _ w' => agent_ok w') w.
Proof.
  intros Hw Hq Hrm. apply with_proxy_spec; [done|by eexists|]. intros w1 Hw1 Hp1 Hm1.
  pose proof Hp1 as (a & q1 & Ha & Hq1 & Hqa & _). rewrite Hq, Hq1 in Hm1. cbn in Hm1.
  apply wp_bind. eapply wp_aload; [done|]. rewrite Hqa. cbn [negb].
  apply then_reply; [|intros; auto with agent].
  apply (initial_state_spec p false rm); [done|done|]. intros q' ?. simplify_eq. congruence.
Qed.

(** ** Creation and removal *)

Definition matches (local_service_name node_name unit_name : string) (w : AgentWorld) (p : ptr) :
    bool :=
  match aw_proxies w !! p with
  | Some q => streq (ps_local_service_name q) local_service_name &&
              streq (ps_node_name q) node_name && streq (ps_unit_name q) unit_name
  | None => false
  end.

Lemma find_proxy_spec δp l n u a w :
  aw_agent w = Some a -> agent_inv none_held none_held δp w ->
  wp (agent_find_proxy l n u) (fun r w' => w' = w /\
    r = List.find (matches l n u w) (ag_proxy_services a) /\
    match r with Some p => has_proxy p true w | None => True end) w.
Proof.
  intros Ha (a' & Ha' & I). assert (a' = a) as -> by congruence. unfold agent_find_proxy. awp_go.
  assert (forall p, p ∈ ag_proxy_services a -> exists q, aw_proxies w !! p = Some q /\ ps_agent q = true)
    as Hl by exact (px_listed _ _ _ (pi_proxies _ _ _ _ _ _ _ _ _ I)).
  apply (wp_find_first _ _ (matches l n u w)).
  - intros p Hp. destruct (Hl p Hp) as (q & Hq & _). unfold matches. rewrite Hq. by awp_go.
  - split_and!; [done|done|]. case_match eqn:Hf; [|done].
    apply list_find_In in Hf as [Hin%list_elem_of_In _]. destruct (Hl _ Hin) as (q & ? & ?).
    exists a, q. split_and!; [done..|]. by apply bool_decide_eq_true.
Qed.

Lemma proxy_new_spec l n u m w :
  agent_ok w ->
  wp (proxy_service_new l n u m) (fun r w' => exists p, r = Some p /\
    holding p w' /\ has_proxy p false w') w.
Proof.
  intros (a & Ha & I). unfold proxy_service_new, strdup, upd_proxy. awp_go.
  rewrite malloc_succeeds. cbn [negb]. awp_go. rewrite malloc_succeeds. awp_go.
  eapply wp_aupdate; [by apply lookup_insert_eq|]. awp_go. rewrite malloc_succeeds. awp_go.
  eapply wp_aupdate; [by apply lookup_insert_eq|]. awp_go. rewrite malloc_succeeds. awp_go.
  eapply wp_aupdate; [by apply lookup_insert_eq|]. awp_go. rewrite malloc_succeeds. cbn [negb].
  awp_go. eapply wp_aupdate; [by apply lookup_insert_eq|]. awp_go.
  eexists. split; [done|]. split.
  - exists a. split; [done|]. cbn. rewrite !insert_insert_eq. apply (parts_proxy_new I); [lia|done].
  - eexists a, _. split_and!; [done|by apply lookup_insert_eq|done|]. cbn.
    apply bool_decide_eq_false. intros Hin.
    destruct (px_listed _ _ _ (pi_proxies _ _ _ _ _ _ _ _ _ I) _ Hin) as (q & Hq & _).
    destruct (pi_fresh _ _ _ _ _ _ _ _ _ I (aw_next_ptr w)) as (_ & _ & _ & Hn); [lia|congruence].
Qed.

Lemma proxied_export δp p b : proxied δp p b (proxy_service_export p).
Proof.
  intros w Hw Hp. pose proof Hp as (a & q & Ha & Hq & Hqa & _). unfold proxy_service_export.
  apply wp_bind. eapply wp_aload; [done|]. apply wp_bind, wp_assert; [done|].
  assert (proxied δp p b (a ← the_agent;
    r ← peer (fun b => PeerAddVtable b (ps_object_path q) INTERNAL_PROXY_INTERFACE);
    if r <? 0 then mret false else
    upd_proxy p (fun q => q <| ps_export_slot := ag_peer_dbus a |>) ;; mret true)) as H
    by proxied_tac.
  by apply H.
Qed.
Hint Resolve proxied_export : agent.

Lemma proxy_list_spec p w :
  agent_inv none_held none_held (hold none_held p 2) w -> has_proxy p false w ->
  wp (upd_agent (fun a => a <| ag_proxy_services ::= fun l => app l [p] |>))
    (fun _ w' => holding p w' /\ present p w') w.
Proof.
  intros (a & Ha & I) (a' & q & Ha' & Hq & Hqa & Hb). assert (a' = a) as -> by congruence.
  apply bool_decide_eq_false in Hb. awp_go. split; [|by eexists].
  eexists. split; [done|]. cbn. eapply parts_ext; [by apply (parts_proxy_list I p q)|done|done|].
  intros x. rewrite hold_eq. unfold hold. by case_decide.
Qed.

Lemma safe_create_proxy m args : safe (agent_method_create_proxy m args).
Proof.
  unfold agent_method_create_proxy. destruct args as [r|[[l n] u]].
  { apply gentle_safe. gentle_tac. }
  intros w Hw. pose proof Hw as (a & Ha & _). apply wp_bind.
  eapply wp_mono; [by eapply find_proxy_spec|]. intros old w1 (-> & _ & _).
  destruct old; [by apply wp_ret|]. apply wp_bind.
  eapply wp_mono; [by apply proxy_new_spec|]. intros r w1 (p & -> & Hw1 & Hp1).
  apply wp_bind. eapply wp_mono; [by apply (proxied_export (hold none_held p 1) p false)|].
  intros exported w2 (Hw2 & Hp2 & _).
  assert (forall {A} (m : AM A) w, wp m (fun _ w' => holding p w' /\ present p w') w ->
    wp (r ← m; proxy_service_unref p ;; mret r) (fun _ w' => agent_ok w') w) as Hend.
  { intros A m0 w0 Hm0. apply wp_bind. eapply wp_mono; [exact Hm0|]. intros r w3 [Hw3 Hp3].
    apply wp_bind. pose proof Hw3 as (a3 & Ha3 & _).
    eapply wp_mono; [by apply (proxy_unref_spec p 0 a3)|]. intros [] w4 (Hw4 & _). apply wp_ret.
    by apply (agent_inv_ext none_held none_held (hold none_held p 0));
      [..|intros; symmetry; apply hold_none|]. }
  assert (forall {A} (m : AM A) w, proxied (hold none_held p 1) p false m -> holding p w ->
    has_proxy p false w -> wp m (fun _ w' => holding p w' /\ present p w') w) as Hpres.
  { intros A m0 w0 Hm0 Hw0 Hp0. eapply wp_mono; [by apply Hm0|].
    intros r w3 (? & (? & q & _ & Hq & _) & _). split; [done|by eexists]. }
  apply Hend. destruct exported; cbn [negb]; [|by apply Hpres; [proxied_tac|..]].
  apply wp_bind. eapply wp_mono; [by apply (proxied_emit_new (hold none_held p 1) p false)|].
  intros r w3 (Hw3 & Hp3 & _). case_match; [by apply Hpres; [proxied_tac|..]|].
  apply wp_bind. eapply wp_mono; [by apply (proxy_ref_spec false p w3 1)|].
  intros x w4 (-> & Hw4 & Hp4 & _). apply wp_bind.
  eapply wp_mono; [by apply proxy_list_spec|]. intros [] w5 ?. by apply wp_ret.
Qed.

Lemma held_zero p w : agent_ok w -> agent_inv none_held none_held (hold none_held p 0) w.
Proof. by apply agent_inv_ext; [..|apply hold_none]. Qed.
Lemma zero_held p w : agent_inv none_held none_held (hold none_held p 0) w -> agent_ok w.
Proof. by apply agent_inv_ext; [..|intros; symmetry; apply hold_none]. Qed.

Lemma safe_remove_proxy m args : safe (agent_method_remove_proxy m args).
Proof.
  unfold agent_method_remove_proxy. destruct args as [r|[[l n] u]].
  { apply gentle_safe. gentle_tac. }
  intros w Hw. pose proof Hw as (a & Ha & _). apply wp_bind.
  eapply wp_mono; [by eapply find_proxy_spec|]. intros [p|] w1 (-> & _ & Hp).
  - apply (proxied_then p 0); [proxied_tac|by apply held_zero|done|]. intros _ w1 Hw1 Hp1 _.
    apply wp_bind. eapply wp_mono; [by apply (remove_proxy_spec p 0)|]. intros [] w2 (Hw2 & _).
    apply (gentle_safe (return_to m [])); [auto using neutral_gentle with agent|by eapply zero_held].
  - apply (gentle_safe (return_to m [])); [auto using neutral_gentle with agent|done].
Qed.

(** A loop over the proxies that are listed when it starts. *)
Lemma safe_proxy_loop (body : ptr -> AM void) :
  (forall p w, agent_ok w -> has_proxy p true w ->
     wp (body p) (fun _ w' => agent_ok w' /\ others p w w') w) ->
  safe (a ← the_agent; foreach (ag_proxy_services a) body).
Proof.
  intros Hbody w Hw. pose proof Hw as (a & Ha & I). awp_go.
  apply (wp_foreach (fun l w => NoDup l /\ agent_ok w /\ forall p, p ∈ l -> has_proxy p true w)).
  - split_and!; [exact (px_nodup _ _ _ (pi_proxies _ _ _ _ _ _ _ _ _ I))|done|].
    intros p Hp. destruct (px_listed _ _ _ (pi_proxies _ _ _ _ _ _ _ _ _ I) p Hp) as (q & ? & ?).
    exists a, q. split_and!; [done..|]. by apply bool_decide_eq_true.
  - intros p l w1 ([Hp Hnd]%NoDup_cons & Hw1 & Hl). eapply wp_mono; [apply Hbody|].
    { done. } { apply Hl. by left. }
    intros [] w2 [Hw2 O2]. split_and!; [done|done|]. intros x Hx. apply O2; [set_solver|].
    apply Hl. by right.
  - by intros w1 (_ & ? & _).
Qed.
End proxies.
#[export] Hint Resolve proxied_emit_new : agent.

(** ** The connection to the controller *)

Section connection.
Context {E : AgentEnv} {N : Network} {L : AgentEnvLaws E}.

Lemma neutral_copy_str set s :
  (forall v, inert (set v)) -> neutral (copy_str set s).
Proof.
  intros H. unfold copy_str. apply neutral_bind; [auto with agent|]. intros [x|]; [|auto with agent].
  apply neutral_bind; [by apply neutral_upd_agent|]. auto with agent.
Qed.
Lemma neutral_set_assembled_address s : neutral (agent_set_assembled_controller_address s).
Proof. apply neutral_copy_str. by intros v a. Qed.
Lemma neutral_set_address s : neutral (agent_set_controller_address s).
Proof. apply neutral_copy_str. by intros v a. Qed.
Hint Resolve neutral_set_assembled_address neutral_set_address : agent.
Lemma neutral_set_assembled s : neutral (set_assembled s).
Proof. unfold set_assembled. neutral_tac. Qed.
Lemma neutral_resolve host : neutral (resolve_host host).
Proof.
  intros δr δo δp w (a & Ha & I). unfold wp, resolve_host. split_and!; try done. by exists a.
Qed.
Lemma neutral_emit_property s : neutral (emit_agent_property s).
Proof. unfold emit_agent_property. neutral_tac. Qed.
Lemma neutral_set_state s : neutral (set_state s).
Proof. unfold set_state. auto with agent. Qed.
Hint Resolve neutral_set_assembled neutral_resolve neutral_emit_property neutral_set_state : agent.

Lemma neutral_ensure_address : neutral ensure_assembled_controller_address.
Proof. unfold ensure_assembled_controller_address. neutral_tac. Qed.
Lemma neutral_peer_bus_close : neutral agent_peer_bus_close.
Proof. unfold agent_peer_bus_close. neutral_tac. Qed.
Lemma neutral_peer_bus_open s : neutral (peer_bus_open s).
Proof.
  unfold peer_bus_open. apply neutral_bind; [auto with agent|]. intros r. case_match; [auto with agent|].
  intros δr δo δp w (a & Ha & I). split_and!; try done. exists a. split; [done|].
  apply (parts_next I). cbn. lia.
Qed.
Hint Resolve neutral_ensure_address neutral_peer_bus_close neutral_peer_bus_open : agent.
Lemma neutral_connect : neutral agent_connect.
Proof. unfold agent_connect. neutral_tac. Qed.
Hint Resolve neutral_connect : agent.
Lemma neutral_reconnect : neutral agent_reconnect.
Proof. unfold agent_reconnect. neutral_tac. Qed.
Hint Resolve neutral_reconnect : agent.
Lemma neutral_disconnected : neutral agent_disconnected.
Proof. unfold agent_disconnected. neutral_tac. Qed.
Hint Resolve neutral_disconnected : agent.
Lemma neutral_check_liveness : neutral agent_check_controller_liveness.
Proof. unfold agent_check_controller_liveness. neutral_tac. Qed.
Lemma neutral_signal member args : neutral (internal_signal member args).
Proof. apply neutral_peer. Qed.
Hint Resolve neutral_check_liveness neutral_signal : agent.
Lemma neutral_heartbeat_timer reset : neutral (agent_heartbeat_timer_callback reset).
Proof. unfold agent_heartbeat_timer_callback. neutral_tac. Qed.
Lemma neutral_match_heartbeat : neutral agent_match_heartbeat.
Proof. unfold agent_match_heartbeat. neutral_tac. Qed.
Lemma neutral_switch_controller m args : neutral (agent_method_switch_controller m args).
Proof. unfold agent_method_switch_controller. neutral_tac. Qed.
Lemma neutral_enable_metrics m : neutral (agent_method_enable_metrics m).
Proof. unfold agent_method_enable_metrics. neutral_tac. Qed.
Lemma neutral_disable_metrics m : neutral (agent_method_disable_metrics m).
Proof. unfold agent_method_disable_metrics. neutral_tac. Qed.
Lemma neutral_set_log_level m args : neutral (agent_method_set_log_level m args).
Proof. unfold agent_method_set_log_level. neutral_tac. Qed.
Hint Resolve neutral_heartbeat_timer neutral_match_heartbeat neutral_switch_controller
  neutral_enable_metrics neutral_disable_metrics neutral_set_log_level : agent.

Lemma neutral_safe {A} (m : AM A) : neutral m -> safe m.
Proof. intros H. by apply gentle_safe, neutral_gentle. Qed.

Lemma safe_emit_all : safe (a ← the_agent; foreach (ag_proxy_services a) (fun p =>
  _r ← proxy_service_emit_proxy_new p; mret tt)).
Proof.
  apply safe_proxy_loop. intros p w Hw Hp. apply (proxied_then p 0); [|by apply held_zero|done|].
  { auto with agent. }
  intros r w1 Hw1 Hp1 O1. apply wp_ret. split; [by eapply zero_held|done].
Qed.

Lemma safe_register_callback m message : safe (agent_register_callback m message).
Proof.
  unfold agent_register_callback. apply safe_bind; [apply neutral_safe; auto with agent|]. intros a.
  case_match; [apply neutral_safe; neutral_tac|]. apply safe_bind.
  - unfold agent_process_register_callback. destruct m; [apply safe_ret|].
    case_match; [apply safe_ret|].
    do 10 (apply safe_bind; [apply neutral_safe; auto with agent|]; intros ?; cbn beta iota;
           try (case_match; [apply safe_ret|])).
    intros w Hw. assert (safe ((a ← the_agent; foreach (ag_proxy_services a) (fun p =>
      _r ← proxy_service_emit_proxy_new p; mret tt)) ;; mret true)) as Hloop
      by (apply safe_bind; [apply safe_emit_all|intros; apply safe_ret]).
    specialize (Hloop w Hw). unfold wp, mbind, M_bind in Hloop |- *.
    unfold the_agent, deref in *. by destruct (aw_agent w).
  - intros ok. apply neutral_safe. neutral_tac.
Qed.

Lemma safe_stop : safe agent_stop.
Proof.
  unfold agent_stop. do 3 (apply safe_bind; [apply neutral_safe; auto with agent|intros _]).
  apply safe_proxy_loop. intros p w Hw Hp. eapply wp_mono.
  { apply (remove_proxy_spec p 0); [by apply held_zero|done|done]. }
  intros [] w1 (Hw1 & _ & O1). split; [by eapply zero_held|done].
Qed.
End connection.
