(* ===== verification/AgentEvents.v ===== *)
(** The events the agent's loop dispatches: the entries of its three vtables, the
    answers of systemd, the signals it has matched, the timer and the shutdown
    signal; a life of the agent is its start followed by a sequence of them. *)
From S2P Require Import Prelude CString StringUtil ParseUtil TimeUtil Protocol BusUtils Log Cfg.
From S2P Require Import Socket BusProps World AgentWorld AgentRequests AgentUnits AgentProxy.
From S2P Require Import Agent.

Section events.
Context {E : AgentEnv} {N : Network}.

(** [internal_agent_vtable]: the methods the controller calls. *)
Inductive controller_method :=
| ListUnits | ListUnitFiles
| Passthrough (member : string)
| GetUnitProperties (args : read (string * string))
| GetUnitProperty (args : read (string * string * string))
| SetUnitProperties (args : read (string * bool))
| StartUnit (args : read (string * string * Z))
| StopUnit (args : read (string * string * Z))
| RestartUnit (args : read (string * string * Z))
| ReloadUnit (args : read (string * string * Z))
| FreezeUnit (args : read string) | ThawUnit (args : read string)
| Subscribe (args : read string) | Unsubscribe (args : read string)
| EnableMetrics | DisableMetrics
| SetLogLevel (args : read string)
| JobCancel (args : read Z)
| StartDep (args : read string) | StopDep (args : read string).

(** The members [agent_method_passthrough_to_systemd] is registered for. *)
Definition passthrough_members : list string :=
  ["GetUnitFileState"; "StartTransientUnit"; "EnableUnitFiles"; "DisableUnitFiles"; "Reload";
   "ResetFailed"; "ResetFailedUnit"; "KillUnit"; "GetDefaultTarget"; "SetDefaultTarget"].

Definition internal_agent_vtable (m : ptr) (method : controller_method) : AM Z :=
  match method with
  | ListUnits => agent_method_list_units m
  | ListUnitFiles => agent_method_list_unit_files m
  | Passthrough member => agent_method_passthrough_to_systemd m member
  | GetUnitProperties args => agent_method_get_unit_properties m args
  | GetUnitProperty args => agent_method_get_unit_property m args
  | SetUnitProperties args => agent_method_set_unit_properties m args
  | StartUnit args => agent_method_start_unit m args
  | StopUnit args => agent_method_stop_unit m args
  | RestartUnit args => agent_method_restart_unit m args
  | ReloadUnit args => agent_method_reload_unit m args
  | FreezeUnit args => agent_method_freeze_unit m args
  | ThawUnit args => agent_method_thaw_unit m args
  | Subscribe args => agent_method_subscribe m args
  | Unsubscribe args => agent_method_unsubscribe m args
  | EnableMetrics => agent_method_enable_metrics m
  | DisableMetrics => agent_method_disable_metrics m
  | SetLogLevel args => agent_method_set_log_level m args
  | JobCancel args => agent_method_job_cancel m args
  | StartDep args => agent_method_start_dep m args
  | StopDep args => agent_method_stop_dep m args
  end.

(** [agent_vtable]: the methods local clients call. *)
Inductive client_method :=
| CreateProxy (args : read (string * string * string))
| RemoveProxy (args : read (string * string * string))
| ClientJobCancel (args : read Z)
| SwitchController (args : read string).

Definition agent_vtable (m : ptr) (method : client_method) : AM Z :=
  match method with
  | CreateProxy args => agent_method_create_proxy m args
  | RemoveProxy args => agent_method_remove_proxy m args
  | ClientJobCancel args => agent_method_job_cancel m args
  | SwitchController args => agent_method_switch_controller m args
  end.

(** [proxy_service_vtable]: the methods on a proxy. *)
Inductive proxy_method :=
| ProxyError
| TargetNew (args : read string)
| TargetStateChanged (args : read (string * string * string))
| TargetRemoved (args : read string).

Definition proxy_service_vtable (m p : ptr) (method : proxy_method) : AM Z :=
  match method with
  | ProxyError => proxy_service_method_error m p
  | TargetNew args => proxy_service_method_target_new m args p
  | TargetStateChanged args => proxy_service_method_target_state_changed m args p
  | TargetRemoved args => proxy_service_method_target_removed m args p
  end.

(** The signals matched in [agent_start]. *)
Inductive systemd_signal :=
| JobPropertiesChanged (path : string) (interface : read string) (m : properties)
| UnitPropertiesChanged (path : string) (interface : read string) (m : properties) (msg : ptr)
| UnitNew (args : read (string * string))
| UnitRemoved (args : read (string * string))
| JobRemoved (args : read (Z * string * string * string)).

Definition match_signal (s : systemd_signal) : AM Z :=
  match s with
  | JobPropertiesChanged path interface m => agent_match_job_changed path interface m
  | UnitPropertiesChanged path interface m msg => agent_match_unit_changed path interface m msg
  | UnitNew args => agent_match_unit_new args
  | UnitRemoved args => agent_match_unit_removed args
  | JobRemoved args => agent_match_job_removed args
  end.

Inductive agent_event :=
| EvController (m : ptr) (method : controller_method)
| EvClient (m : ptr) (method : client_method)
| EvProxy (m p : ptr) (method : proxy_method)
| EvAnswer (req : ptr) (m : response) (path : read string)
| EvSignal (s : systemd_signal)
| EvRegistered (m : response) (message : Z)
| EvHeartbeat
| EvDisconnected
| EvTimer (reset : Z)
| EvShutdown.

Definition handle_event (e : agent_event) : AM void :=
  match e with
  | EvController m method => _r ← internal_agent_vtable m method; mret tt
  | EvClient m method => _r ← agent_vtable m method; mret tt
  | EvProxy m p method => _r ← proxy_service_vtable m p method; mret tt
  | EvAnswer req m path => _r ← run_systemd_callback req m path; mret tt
  | EvSignal s => _r ← match_signal s; mret tt
  | EvRegistered m message => _r ← agent_register_callback m message; mret tt
  | EvHeartbeat => _r ← agent_match_heartbeat; mret tt
  | EvDisconnected => _r ← agent_disconnected; mret tt
  | EvTimer reset => _r ← agent_heartbeat_timer_callback reset; mret tt
  | EvShutdown => agent_stop
  end.

(** Which events sd-bus can deliver: the answer to a call that was made, as long as
    its slot is kept, and a method call on a proxy that is exported. *)
Definition enabled (e : agent_event) (w : AgentWorld) : bool :=
  match e with
  | EvAnswer req _ _ => match aw_reqs w !! req with Some _ => true | None => false end
  | EvProxy _ p _ => match aw_proxies w !! p with Some _ => true | None => false end
  | EvRegistered _ _ => match aw_agent w with Some a => ag_register_call_slot a | None => false end
  | _ => true
  end.
Definition serve_event (e : agent_event) : AM void :=
  w ← Prelude.get; if enabled e w then handle_event e else mret tt.

(** The event loop over a given sequence of events. *)
Definition agent_loop (events : list agent_event) : AM void :=
  foreach events serve_event.

(** The life of the process: it starts, serves events, and stops on a signal. *)
Definition agent_run (api_bus systemd_bus : bool) (units : list listed_unit)
    (listed shutdown timer : Z) (events : list agent_event) : AM bool :=
  started ← agent_start api_bus systemd_bus units listed shutdown timer;
  if negb started then mret false else
  agent_loop events ;;
  agent_stop ;;
  mret true.

(** The process after [agent_new] and the setters. *)
Definition initial_world (a : Agent) (log : BcLogConfig) : AgentWorld :=
  mkAgentWorld (Some a) ∅ ∅ ∅ ∅ log 1 0 0 0 0 0 [].
End events.
