(* ===== verification/AgentRuns.v ===== *)
(** Facts about every run of the agent's handlers that ends, in terms of [steps]. Two
    preorders are used: a field of the agent keeps its value ([agree]), and the
    calls made satisfy a predicate ([emits]). *)
From S2P Require Import Prelude CString StringUtil ParseUtil TimeUtil Protocol BusUtils Log Cfg.
From S2P Require Import Socket BusProps World AgentWorld AgentRequests AgentUnits AgentProxy.
From S2P Require Import Agent AgentEvents.

Local Open Scope list_scope.

(** ** Preorders on the states of the agent *)

Section steps.
Context (R : AgentWorld -> AgentWorld -> Prop).
Context {PR : PreOrder R}.

(** What every such preorder must know of: the agent and the calls. *)
Class Tracks : Prop := tracks : forall w w',
  aw_agent w' = aw_agent w -> aw_trace w' = aw_trace w -> R w w'.
Context {TR : Tracks}.

Lemma steps_modify f :
  (forall w, aw_agent (f w) = aw_agent w /\ aw_trace (f w) = aw_trace w) -> steps R (modify f).
Proof. intros H w. cbn. apply tracks; apply H. Qed.

Context {T} {S : AgentStore T}.
Definition store_local : Prop := forall f w,
  aw_agent (astore_upd f w) = aw_agent w /\ aw_trace (astore_upd f w) = aw_trace w.
Lemma steps_aload p : steps R (aload (T := T) p).
Proof. apply (steps_deref _). Qed.
Lemma steps_aupdate p f : store_local -> steps R (aupdate (T := T) p f).
Proof. intros H. apply (steps_bind _); [apply steps_aload|]. intros x. apply steps_modify. intros w. apply H. Qed.
Lemma steps_afree p : store_local -> steps R (afree (T := T) p).
Proof. intros H. apply (steps_bind _); [apply steps_aload|]. intros x. apply steps_modify. intros w. apply H. Qed.
Lemma steps_anew x : store_local -> steps R (anew (T := T) x).
Proof.
  intros H w. set (w1 := w <| aw_next_ptr ::= Pos.succ |>).
  destruct (H <[aw_next_ptr w := x]> w1) as [Ha Ht].
  unfold anew. fold w1. apply tracks; [by rewrite Ha|by rewrite Ht].
Qed.
End steps.
Arguments Tracks R : assert.

Section local.
Context {E : AgentEnv} (R : AgentWorld -> AgentWorld -> Prop).
Context {PR : PreOrder R} {TR : Tracks R}.

Lemma steps_amalloc : steps R amalloc.
Proof. intros w. by apply tracks. Qed.
Lemma steps_amessage : steps R amessage.
Proof. intros w. by apply tracks. Qed.
Lemma steps_time clock : steps R (agent_time clock).
Proof. intros w. unfold agent_time. destruct (clock _); [by apply tracks|done]. Qed.
Lemma steps_finalize n : steps R (agent_finalize_interval n).
Proof. intros w. unfold agent_finalize_interval. destruct (realtime _); [by apply tracks|done]. Qed.
Lemma steps_resolve {N : Network} host : steps R (resolve_host host).
Proof. intros w. by apply tracks. Qed.
Lemma steps_message_steps n : steps R (message_steps n).
Proof.
  induction n; cbn; [by apply steps_ret|]. apply (steps_bind _); [apply steps_amessage|].
  intros r. destruct (r <? 0); [by apply steps_ret|done].
Qed.
Lemma steps_append_all p parts : steps R (append_all p parts).
Proof.
  induction parts as [|args parts IH]; cbn; [by apply steps_ret|]. apply (steps_bind _).
  - apply (steps_bind _); [apply steps_amessage|]. intros r.
    destruct (r <? 0); [by apply steps_ret|]. apply (steps_bind _); [|intros; by apply steps_ret].
    by apply (steps_aupdate _).
  - intros r. destruct (r <? 0); [by apply steps_ret|done].
Qed.
End local.

Create HintDb runs discriminated.
#[export] Hint Resolve steps_amalloc steps_amessage steps_time steps_finalize steps_resolve
  steps_message_steps steps_append_all steps_crash : runs.
#[export] Hint Extern 0 (Tracks _) => (apply _) : runs.
#[export] Hint Extern 0 (PreOrder _) => (apply _) : runs.

(** Take a program apart; a call of another function is unfolded. *)
Ltac head_of t := lazymatch t with ?f _ => head_of f | _ => t end.
Ltac steps_step :=
  lazymatch goal with
  | |- steps _ (mret _) => apply steps_ret; apply _
  | |- steps _ (mbind _ _) => apply (steps_bind _); [|intros ?]
  | |- steps _ (match ?x with _ => _ end) => destruct x
  | |- steps _ (foreach _ _) => apply (steps_foreach _); intros ?
  | |- steps _ (find_first _ _) => apply (steps_find_first _); intros ?
  | |- steps _ the_agent => apply (steps_deref _)
  | |- steps _ (c_assert _) => apply (steps_assert _)
  | |- steps _ (gets _) => apply (steps_gets _)
  | |- steps _ (aload _) => apply (steps_aload _)
  | |- steps _ (aupdate _ _) => by apply (steps_aupdate _)
  | |- steps _ (afree _) => by apply (steps_afree _)
  | |- steps _ (anew _) => by apply (steps_anew _)
  | |- steps _ (modify _) => first [apply (steps_modify _); by intros | solve [eauto with runs]]
  | |- steps _ (upd_agent _) => solve [eauto with runs]
  | |- steps _ (abus _) => solve [eauto with runs]
  | |- steps _ (fun w => Ret (@?a w) (@?w' w)) => intros ?; cbn beta iota; by apply (tracks _)
  | |- steps _ ?m => first [solve [eauto with runs] | let h := head_of m in unfold h]
  end.
Ltac steps_tac := repeat (cbn beta iota; steps_step).

(** ** A field keeps its value *)

Section agree.
Context {X : Type} (g : Agent -> X).

Definition agree (w w' : AgentWorld) : Prop := forall a',
  aw_agent w' = Some a' -> exists a, aw_agent w = Some a /\ g a' = g a.
#[export] Instance agree_preorder : PreOrder agree.
Proof.
  split; [intros w a Ha; by exists a|]. intros w1 w2 w3 H1 H2 a3 Ha3.
  destruct (H2 a3 Ha3) as (a2 & Ha2 & ->). by apply H1.
Qed.
#[export] Instance agree_tracks : Tracks agree.
Proof. intros w w' Ha _ a. rewrite Ha. by exists a. Qed.

Lemma agree_upd f : (forall a, g (f a) = g a) -> steps agree (upd_agent f).
Proof.
  intros Hf w. unfold upd_agent, the_agent, deref, mbind, M_bind.
  destruct (aw_agent w) as [a|] eqn:Ha; [|done]. cbn. intros a' [= <-]. by exists a.
Qed.
Lemma agree_abus {E : AgentEnv} c : steps agree (abus c).
Proof. intros w a Ha. by exists a. Qed.
Lemma agree_unref {E : AgentEnv} :
  (forall a, g (a <| ag_ref_count ::= Z.pred |>) = g a) -> steps agree agent_unref.
Proof.
  intros Hf. unfold agent_unref. apply (steps_bind _); [apply (steps_deref _)|]. intros a0.
  apply (steps_bind _); [apply (steps_assert _)|]. intros _.
  apply (steps_bind _); [by apply agree_upd|]. intros _.
  apply (steps_bind _); [apply (steps_deref _)|]. intros a1.
  destruct (negb _); [apply steps_ret; apply _|].
  apply (steps_bind _); [apply (steps_assert _)|]. intros _ w a. cbn. done.
Qed.
End agree.
#[export] Hint Resolve agree_abus : runs.
#[export] Hint Extern 1 (steps (agree _) (upd_agent _)) => (apply agree_upd; by intros ?) : runs.
#[export] Hint Extern 1 (steps (agree _) agent_unref) => (apply agree_unref; by intros ?) : runs.

(** ** The calls made *)

Section emits.
Context (P : acall -> Prop).

Definition emits (w w' : AgentWorld) : Prop :=
  exists l, aw_trace w' = aw_trace w ++ l /\ Forall P l.
#[export] Instance emits_preorder : PreOrder emits.
Proof.
  split; [intros w; exists []; by rewrite app_nil_r|].
  intros w1 w2 w3 (l1 & H1 & P1) (l2 & H2 & P2). exists (l1 ++ l2).
  rewrite H2, H1, app_assoc. split; [done|by apply Forall_app].
Qed.
#[export] Instance emits_tracks : Tracks emits.
Proof. intros w w' _ Ht. exists []. by rewrite Ht, app_nil_r. Qed.

Lemma emits_abus {E : AgentEnv} c : P c -> steps emits (abus c).
Proof. intros Hc w. cbn. exists [c]. split; [done|by repeat constructor]. Qed.
Lemma emits_upd f : steps emits (upd_agent f).
Proof.
  intros w. unfold upd_agent, the_agent, deref, mbind, M_bind.
  destruct (aw_agent w) as [a|] eqn:Ha; [|done]. cbn. exists []. by rewrite app_nil_r.
Qed.
Lemma emits_release : steps emits (modify (fun w => w <| aw_agent := None |>)).
Proof. intros w. exists []. by rewrite app_nil_r. Qed.
End emits.
#[export] Hint Resolve emits_upd emits_release : runs.

(** ** The signals, and the part of the agent that is the connection *)

(** The D-Bus type of a value; what is copied from another message is here always
    the dictionary of properties. *)
Definition value_type (v : value) : string :=
  match v with
  | VString _ => "s"
  | VObject _ => "o"
  | VUint _ => "u"
  | VUint64 _ => "t"
  | VBool _ => "b"
  | VCopy _ => "a{sv}"
  end.

(** The types the two interfaces of the agent declare for their signals. *)
Definition signal_signature (iface member : string) : option (list string) :=
  if streq iface INTERNAL_AGENT_INTERFACE then
    if streq member "JobDone" then Some ["u"; "s"]
    else if streq member "JobStateChanged" then Some ["u"; "s"]
    else if streq member "UnitPropertiesChanged" then Some ["s"; "s"; "a{sv}"]
    else if streq member "UnitNew" then Some ["s"; "s"]
    else if streq member "UnitStateChanged" then Some ["s"; "s"; "s"; "s"]
    else if streq member "UnitRemoved" then Some ["s"]
    else if streq member "Heartbeat" then Some []
    else if streq member "ProxyNew" then Some ["s"; "s"; "o"]
    else if streq member "ProxyRemoved" then Some ["s"; "s"]
    else None
  else if streq iface INTERNAL_AGENT_METRICS_INTERFACE then
    if streq member "AgentJobMetrics" then Some ["s"; "s"; "t"] else None
  else None.

Definition well_typed (c : acall) : Prop :=
  match c with
  | PeerEmitSignal _ _ iface member args => signal_signature iface member = Some (map value_type args)
  | _ => True
  end.

(** What only the connection handlers write. *)
Definition conn_of (a : Agent) :=
  (ag_connection_state a, ag_peer_dbus a, ag_register_call_slot a, ag_name a,
   (ag_controller_address a, ag_assembled_controller_address a, ag_host a, ag_port a),
   (ag_controller_heartbeat_threshold_msec a, ag_controller_last_seen_monotonic a,
    ag_connection_retry_count a, ag_connection_retry_count_until_quiet a)).

(** Runs that leave the connection alone and send well-typed signals only. *)
Definition apart (w w' : AgentWorld) : Prop := agree conn_of w w' /\ emits well_typed w w'.
#[export] Instance apart_preorder : PreOrder apart.
Proof.
  split; [intros w; split; reflexivity|]. intros x y z [H1 H2] [H3 H4].
  split; [by trans y|by trans y].
Qed.
#[export] Instance apart_tracks : Tracks apart.
Proof. intros w w' Ha Ht. split; [by apply agree_tracks|by apply emits_tracks]. Qed.

Lemma apart_abus {E : AgentEnv} c : well_typed c -> steps apart (abus c).
Proof. intros Hc w. split; [apply (agree_abus conn_of c w)|by apply (emits_abus well_typed c Hc w)]. Qed.
Lemma apart_upd f : (forall a, conn_of (f a) = conn_of a) -> steps apart (upd_agent f).
Proof.
  intros Hf w. pose proof (agree_upd conn_of f Hf w). pose proof (emits_upd well_typed f w).
  by destruct (upd_agent f w).
Qed.
Lemma apart_unref {E : AgentEnv} : steps apart agent_unref.
Proof.
  intros w. pose proof (agree_unref conn_of ltac:(by intros) w) as H1.
  assert (steps (emits well_typed) agent_unref) as H2 by steps_tac. specialize (H2 w).
  by destruct (agent_unref w).
Qed.
#[export] Hint Extern 1 (steps apart (abus _)) => (by apply apart_abus) : runs.
#[export] Hint Extern 1 (steps apart (upd_agent _)) => (apply apart_upd; by intros ?) : runs.
#[export] Hint Resolve apart_unref : runs.

Section apart.
Context {E : AgentEnv} {N : Network}.

Lemma apart_peer c : (forall b, well_typed (c b)) -> steps apart (peer c).
Proof. intros Hc. pose proof apart_abus. unfold peer. steps_tac. Qed.
Lemma apart_request_unref p : steps apart (systemd_request_unref p).
Proof. steps_tac. Qed.
Lemma apart_create m path iface method : steps apart (agent_create_request_full m path iface method).
Proof. pose proof apart_request_unref. steps_tac. Qed.
Lemma apart_start p cb : steps apart (systemd_request_start p cb).
Proof. steps_tac. Qed.
Lemma apart_with_request {A} p (body : AM A) : steps apart body -> steps apart (with_request p body).
Proof. intros Hb. pose proof apart_request_unref. unfold with_request. steps_tac. Qed.
End apart.
#[export] Hint Extern 1 (steps apart (peer _)) => (by apply apart_peer) : runs.
#[export] Hint Resolve apart_request_unref apart_create apart_start : runs.
#[export] Hint Extern 3 (steps apart (with_request _ _)) => (apply apart_with_request) : runs.

Section handlers.
Context {E : AgentEnv} {N : Network}.

Lemma apart_call m req parts cb done :
  steps apart done -> steps apart (call_systemd m req parts cb done).
Proof. intros Hd. unfold call_systemd. steps_tac. Qed.
Lemma apart_unit_request m unit iface method parts cb :
  steps apart (unit_request m unit iface method parts cb).
Proof. pose proof apart_call. steps_tac. Qed.
Lemma apart_ensure unit : steps apart (agent_ensure_unit_info unit).
Proof. steps_tac. Qed.
Lemma apart_internal_signal member args :
  signal_signature INTERNAL_AGENT_INTERFACE member = Some (map value_type args) ->
  steps apart (internal_signal member args).
Proof. intros H. by apply apart_peer. Qed.
Lemma apart_job_done result op : steps apart (agent_job_done result op).
Proof. steps_tac. Qed.
Lemma apart_tracker_free p : steps apart (job_tracker_free p).
Proof. steps_tac. Qed.
Lemma apart_state_changed info reason : steps apart (agent_emit_unit_state_changed info reason).
Proof. unfold agent_emit_unit_state_changed. pose proof apart_internal_signal. steps_tac. Qed.
Lemma apart_forward p m : steps apart (forward_answer p m).
Proof. unfold forward_answer. steps_tac. Qed.
Lemma apart_proxy_unref p : steps apart (proxy_service_unref p).
Proof. steps_tac. Qed.
Lemma apart_emit_new p : steps apart (proxy_service_emit_proxy_new p).
Proof. steps_tac. Qed.
Lemma apart_remove_proxy p emit : steps apart (agent_remove_proxy p emit).
Proof. pose proof apart_proxy_unref. steps_tac. Qed.
End handlers.
#[export] Hint Resolve apart_unit_request apart_ensure apart_job_done apart_tracker_free
  apart_state_changed apart_forward apart_proxy_unref apart_emit_new apart_remove_proxy : runs.
#[export] Hint Extern 2 (steps apart (call_systemd _ _ _ _ _)) => (apply apart_call) : runs.

Section events.
Context {E : AgentEnv} {N : Network}.

Lemma apart_controller_method m method : steps apart (internal_agent_vtable m method).
Proof. destruct method; cbn [internal_agent_vtable]; steps_tac. Qed.
Lemma apart_proxy_method m p method : steps apart (proxy_service_vtable m p method).
Proof. destruct method; cbn [proxy_service_vtable]; steps_tac. Qed.
Lemma apart_answer req m path : steps apart (run_systemd_callback req m path).
Proof. steps_tac. Qed.
Lemma apart_signal s : steps apart (match_signal s).
Proof. destruct s; cbn [match_signal]; steps_tac. Qed.
Lemma apart_create_proxy m args : steps apart (agent_method_create_proxy m args).
Proof. steps_tac. Qed.
Lemma apart_remove_proxy_method m args : steps apart (agent_method_remove_proxy m args).
Proof. steps_tac. Qed.
Lemma apart_job_cancel m args : steps apart (agent_method_job_cancel m args).
Proof. steps_tac. Qed.
End events.
