(* ===== verification/AgentTheorems.v ===== *)
(** What the agent guarantees over every sequence of events: no handler touches a
    released object, the only assertion that can fail is the one on a late Error of
    the controller, and every reference count equals the number of references, so
    that nothing leaks. *)
From S2P Require Import Prelude CString StringUtil ParseUtil TimeUtil Protocol BusUtils Log Cfg.
From S2P Require Import Socket BusProps World AgentWorld AgentRequests AgentUnits AgentProxy.
From S2P Require Import Agent AgentEvents WorldFacts AgentFacts AgentSafe AgentSteps AgentProxySteps.

Local Open Scope list_scope.

Section safety.
Context {E : AgentEnv} {N : Network} {L : AgentEnvLaws E}.

Lemma safe_controller_method m method : safe (internal_agent_vtable m method).
Proof.
  destruct method; cbn [internal_agent_vtable]; apply gentle_safe.
  - apply gentle_list_units.
  - apply gentle_list_unit_files.
  - apply gentle_passthrough.
  - apply gentle_get_unit_properties.
  - apply gentle_get_unit_property.
  - apply gentle_set_unit_properties.
  - apply gentle_lifecycle_method.
  - apply gentle_lifecycle_method.
  - apply gentle_lifecycle_method.
  - apply gentle_lifecycle_method.
  - apply gentle_freeze_unit.
  - apply gentle_thaw_unit.
  - apply gentle_subscribe.
  - apply gentle_unsubscribe.
  - apply neutral_gentle, neutral_enable_metrics.
  - apply neutral_gentle, neutral_disable_metrics.
  - apply neutral_gentle, neutral_set_log_level.
  - apply gentle_job_cancel.
  - by apply gentle_dep_method.
  - by apply gentle_dep_method.
Qed.

Lemma safe_client_method m method : safe (agent_vtable m method).
Proof.
  destruct method; cbn [agent_vtable].
  - apply safe_create_proxy.
  - apply safe_remove_proxy.
  - apply gentle_safe, gentle_job_cancel.
  - apply neutral_safe, neutral_switch_controller.
Qed.

Lemma safe_signal s : safe (match_signal s).
Proof.
  destruct s; cbn [match_signal]; apply gentle_safe;
    auto using gentle_job_changed, gentle_unit_changed, gentle_unit_new, gentle_unit_removed,
      gentle_job_removed.
Qed.

(** ** Late errors *)

(** The controller reports an error on a proxy whose creation is already answered. *)
Definition late_error (e : agent_event) (w : AgentWorld) : bool :=
  match e with
  | EvProxy _ p ProxyError =>
      match aw_proxies w !! p with
      | Some q => bool_decide (ps_request_message q = None)
      | None => false
      end
  | _ => false
  end.
(** Such an error comes up when the events are served one after the other. *)
Fixpoint late_error_in (events : list agent_event) (w : AgentWorld) : bool :=
  match events with
  | [] => false
  | e :: events =>
      late_error e w || match serve_event e w with
                        | Ret _ w' => late_error_in events w'
                        | Crash _ => false
                        end
  end.
(** The program returns with [Q], except that it fails an assertion exactly if [late]. *)
Definition unless_late {W A} (late : bool) (m : M W A) (Q : A -> W -> Prop) (w : W) : Prop :=
  match m w with
  | Ret a w' => late = false /\ Q a w'
  | Crash c => late = true /\ c = AssertionFailure
  end.

Lemma unless_late_wp {W A} (m : M W A) Q w : unless_late false m Q w <-> wp m Q w.
Proof. unfold unless_late, wp. destruct (m w); intuition done. Qed.
Lemma unless_late_mono {W A} late (m : M W A) Q Q' w :
  unless_late late m Q w -> (forall a w', Q a w' -> Q' a w') -> unless_late late m Q' w.
Proof. unfold unless_late. destruct (m w); naive_solver. Qed.
Lemma unless_late_bind {W A B} late (m : M W A) (k : A -> M W B) Q Q' w :
  unless_late late m Q' w -> (forall a w', Q' a w' -> wp (k a) Q w') -> unless_late late (m ≫= k) Q w.
Proof.
  unfold unless_late, wp, mbind, M_bind. destruct (m w) as [a w'|]; [|done]. intros [-> Ha] Hk.
  specialize (Hk a w' Ha). destruct (k a w'); naive_solver.
Qed.
Lemma wp_unless_late {W A B} late (m : M W A) (k : A -> M W B) Q w :
  wp m (fun a w' => unless_late late (k a) Q w') w -> unless_late late (m ≫= k) Q w.
Proof. unfold unless_late, wp, mbind, M_bind. by destruct (m w). Qed.
Lemma unless_late_conj {W A} late (m : M W A) Q R w :
  unless_late late m Q w -> pwp m R w -> unless_late late m (fun a w' => Q a w' /\ R a w') w.
Proof. unfold unless_late, pwp. destruct (m w); naive_solver. Qed.

Lemma unless_late_zoom {W V A} late (get : W -> V) set (m : M V A) (Q : A -> W -> Prop) w :
  unless_late late m (fun a v => Q a (set v w)) (get w) -> unless_late late (zoom get set m) Q w.
Proof. unfold unless_late, zoom. by destruct (m (get w)). Qed.

Lemma late_error_aborts m p q a w :
  aw_agent w = Some a -> aw_proxies w !! p = Some q -> ps_agent q = true -> ps_request_message q = None ->
  proxy_service_method_error m p w = Crash AssertionFailure.
Proof.
  intros Ha Hq Hqa Hr. unfold proxy_service_method_error, with_proxy, proxy_service_ref, upd_proxy, aupdate,
    aload, deref, mbind, M_bind. cbn. rewrite Hq. cbn. rewrite lookup_insert_eq. cbn. rewrite Hqa. cbn.
  unfold proxy_service_initial_state_reached, aload, deref, mbind, M_bind. cbn. rewrite lookup_insert_eq. cbn.
  by rewrite Hr.
Qed.

Lemma safe_event e w :
  agent_ok w -> enabled e w = true -> late_error e w = false ->
  wp (handle_event e) (fun _ w' => agent_ok w') w.
Proof.
  intros Hw He Hl.
  assert (forall {A} (m : AM A), safe m -> wp (_r ← m; mret tt) (fun _ w' => agent_ok w') w) as Hs.
  { intros A m Hm. apply (safe_bind m); [done|intros; apply safe_ret|done]. }
  assert (forall {A} (m : AM A), wp m (fun _ w' => agent_ok w') w ->
    wp (_r ← m; mret tt) (fun _ w' => agent_ok w') w) as Hw'.
  { intros A m Hm. apply wp_bind. eapply wp_mono; [exact Hm|]. done. }
  destruct e; cbn [handle_event enabled late_error] in *.
  - apply Hs, safe_controller_method.
  - apply Hs, safe_client_method.
  - apply Hw'. destruct (aw_proxies w !! p) as [q|] eqn:Hq; [|done].
    assert (present p w) by by eexists. destruct method; cbn [proxy_service_vtable].
    + case_bool_decide as Hrm; [done|]. destruct (ps_request_message q) as [rm|] eqn:Hrm'; [|done].
      by eapply safe_error.
    + by apply safe_target_new.
    + by apply safe_state_changed.
    + by apply safe_target_removed.
  - apply Hw'. destruct (aw_reqs w !! req) as [q|] eqn:Hq; [|done].
    eapply wp_mono; [eapply run_systemd_callback_gentle; [done|done|]|by intros ? ? [? _]].
    destruct Hw as (a & Ha & I).
    destruct (rq_refs _ _ _ (pi_requests _ _ _ _ _ _ _ _ _ I) req q Hq) as [Hr Hpos].
    unfold none_held in Hr. destruct (sreq_slot q); [done|cbn in Hr; lia].
  - apply Hs, safe_signal.
  - apply Hs, safe_register_callback.
  - apply Hs, neutral_safe, neutral_match_heartbeat.
  - apply Hs, neutral_safe, neutral_disconnected.
  - apply Hs, neutral_safe, neutral_heartbeat_timer.
  - by apply safe_stop.
Qed.

Lemma serve_outcome e (Q : AgentWorld -> Prop) w :
  agent_ok w ->
  (enabled e w = true -> late_error e w = false -> wp (handle_event e) (fun _ w' => Q w') w) ->
  (enabled e w = false -> Q w) ->
  unless_late (late_error e w) (serve_event e) (fun _ w' => agent_ok w' /\ Q w') w.
Proof.
  intros Hw HQ Hno. unfold serve_event. apply wp_unless_late, wp_get.
  destruct (late_error e w) eqn:Hl.
  - destruct e as [| |m p []| | | | | | |]; try done. cbn [late_error enabled] in *.
    destruct (aw_proxies w !! p) as [q|] eqn:Hq; [|done]. apply bool_decide_eq_true in Hl.
    destruct Hw as (a & Ha & I). pose proof (pi_proxies _ _ _ _ _ _ _ _ _ I) as P.
    assert (p ∈ ag_proxy_services a) as Hin.
    { destruct (px_refs _ _ _ P p q Hq) as [Hr ?]. unfold none_held in Hr.
      case_bool_decide; [done|]. cbn in Hr. lia. }
    destruct (px_listed _ _ _ P p Hin) as (q' & Hq' & Hqa). assert (q' = q) as -> by congruence.
    cbn [handle_event proxy_service_vtable]. unfold unless_late, mbind, M_bind.
    by rewrite (late_error_aborts m p q a).
  - apply unless_late_wp. destruct (enabled e w) eqn:He; [|by apply wp_ret; auto].
    apply wp_conj; [by apply safe_event|by apply HQ].
Qed.

(** The loop keeps what every event keeps. *)
Lemma loop_outcome (I : list agent_event -> AgentWorld -> Prop) events w :
  (forall e l w, I (e :: l) w ->
     unless_late (late_error e w) (serve_event e) (fun _ w' => I l w') w) ->
  I events w ->
  unless_late (late_error_in events w) (agent_loop events) (fun _ w' => I [] w') w.
Proof.
  intros He. unfold agent_loop. revert w. induction events as [|e l IH]; intros w HI; [done|].
  cbn [foreach late_error_in]. specialize (He e l w HI). unfold unless_late in *.
  unfold mbind at 1, M_bind at 1. destruct (serve_event e w) as [[] w'|c].
  - destruct He as [-> HI']. apply IH, HI'.
  - by destruct He as [-> ->].
Qed.

Lemma safe_serve_event e w :
  agent_ok w -> unless_late (late_error e w) (serve_event e) (fun _ w' => agent_ok w') w.
Proof.
  intros Hw. eapply unless_late_mono; [by apply (serve_outcome e agent_ok); auto using safe_event|by intros ? w' [? _]].
Qed.
Lemma safe_loop events w :
  agent_ok w -> unless_late (late_error_in events w) (agent_loop events) (fun _ w' => agent_ok w') w.
Proof. apply (loop_outcome (fun _ w => agent_ok w)). intros e _ w'. apply safe_serve_event. Qed.
Lemma prompt_loop events w :
  late_error_in events w = false -> agent_ok w -> wp (agent_loop events) (fun _ w' => agent_ok w') w.
Proof. intros Hl Hw. apply unless_late_wp. rewrite <- Hl. by apply safe_loop. Qed.

(** ** Start *)

(** systemd exports a unit under the path made of its name. *)
Definition listed_path (u : listed_unit) : Prop := lu_object_path u = unit_path (lu_name u).

Lemma gentle_init_unit δp u : listed_path u -> gentle δp (init_unit u).
Proof.
  intros Hu w Hw. pose proof Hw as (a & Ha & I). pose proof (pi_units _ _ _ _ _ _ _ _ _ I) as U.
  destruct (ensured_keys (lu_name u) a U) as [Hk1 Hk2]. unfold init_unit.
  apply wp_bind. eapply wp_mono; [by apply ensure_unit_info_spec|]. intros x w1 [-> H1].
  apply wp_bind, wp_assert.
  { rewrite Hk1, Hu. apply streq_refl. }
  unfold strdup. awp_go. rewrite malloc_succeeds. set (w1' := mtick w1).
  assert (heap_same (set_agent (with_units
    (<[unit_path (lu_name u) := ensured (lu_name u) a]> (ag_unit_infos a)) a) w) w1') as H1'
    by exact H1.
  eapply wp_mono.
  { by apply (ensure_set_spec (lu_name u) (fun i => i <| ui_loaded := true |>
       <| ui_active_state := Some (active_state_from_string (lu_active_state u)) |>
       <| ui_substate := Some (lu_sub_state u) |>) a w). }
  intros [] w2 H2. eapply with_units_same; [done|done| |exact H2].
  apply units_inv_insert; try done. unfold useful. cbn. apply orb_true_r.
Qed.

Lemma gentle_init_units δp units r : Forall listed_path units -> gentle δp (agent_init_units units r).
Proof.
  intros Hu. unfold agent_init_units. apply gentle_bind; [|intros; apply gentle_ret].
  induction Hu as [|u units Hu _ IH]; cbn; [apply gentle_ret|].
  apply gentle_bind; [by apply gentle_init_unit|intros; apply IH].
Qed.

Lemma neutral_all_calls l : neutral (all_calls l).
Proof. induction l as [|c l IH]; cbn; neutral_tac. Qed.

Lemma gentle_start api_bus systemd_bus units listed shutdown timer :
  Forall listed_path units -> gentle none_held (agent_start api_bus systemd_bus units listed shutdown timer).
Proof.
  intros Hu. unfold agent_start.
  pose proof neutral_ensure_address. pose proof neutral_connect. pose proof neutral_all_calls.
  pose proof neutral_set_state. pose proof (gentle_init_units none_held units listed Hu).
  repeat first
    [ apply gentle_ret | assumption | solve [apply neutral_gentle; auto with agent]
    | apply gentle_bind; [|intros ?] | case_match ].
Qed.
Lemma safe_start api_bus systemd_bus units listed shutdown timer :
  Forall listed_path units -> safe (agent_start api_bus systemd_bus units listed shutdown timer).
Proof. intros Hu. by apply gentle_safe, gentle_start. Qed.
End safety.
