(* ===== verification/AgentConnection.v ===== *)
(** The connection of the agent to the controller as a state machine: the abstract
    machine, what the connection handlers do to the agent, and the simulation of
    every event by a step of the machine. *)
From S2P Require Import Prelude CString StringUtil ParseUtil TimeUtil Protocol BusUtils Log Cfg.
From S2P Require Import Socket BusProps World AgentWorld AgentRequests AgentUnits AgentProxy.
From S2P Require Import Agent AgentEvents WorldFacts AgentFacts AgentSafe AgentSteps AgentProxySteps.
From S2P Require Import AgentRuns AgentTheorems.

Local Open Scope list_scope.

Abbreviation DISCONNECTED := AGENT_CONNECTION_STATE_DISCONNECTED.
Abbreviation CONNECTED := AGENT_CONNECTION_STATE_CONNECTED.
Abbreviation RETRY := AGENT_CONNECTION_STATE_RETRY.
Abbreviation CONNECTING := AGENT_CONNECTION_STATE_CONNECTING.

(** ** The abstract machine *)

Inductive conn_label := Lost | Switched | Registered | Tick | Stopped | Other.

Inductive conn_step : conn_label -> AgentConnectionState -> AgentConnectionState -> Prop :=
| lost_retry s : conn_step Lost s RETRY
| lost_connecting s : conn_step Lost s CONNECTING
| switch_refused s : conn_step Switched s s
| switch_retry s : conn_step Switched s RETRY
| switch_connecting s : conn_step Switched s CONNECTING
| registered : conn_step Registered CONNECTING CONNECTED
| registration_failed : conn_step Registered CONNECTING RETRY
| registration_error : conn_step Registered CONNECTING CONNECTING
| registered_late s : s <> CONNECTING -> conn_step Registered s s
| tick_alive : conn_step Tick CONNECTED CONNECTED
| tick_retry s : s <> DISCONNECTED -> conn_step Tick s RETRY
| tick_connecting s : s <> DISCONNECTED -> conn_step Tick s CONNECTING
| tick_disconnected : conn_step Tick DISCONNECTED DISCONNECTED
| stopped s : conn_step Stopped s DISCONNECTED
| other s : conn_step Other s s.

Definition label_of (e : agent_event) : conn_label :=
  match e with
  | EvClient _ (SwitchController _) => Switched
  | EvDisconnected => Lost
  | EvRegistered _ _ => Registered
  | EvTimer _ => Tick
  | EvShutdown => Stopped
  | _ => Other
  end.

(** A connected agent has a bus, and so has one that waits for its registration. *)
Definition bus_inv (a : Agent) : Prop :=
  (ag_connection_state a = CONNECTED -> ag_peer_dbus a <> None) /\
  (ag_register_call_slot a = true -> ag_peer_dbus a <> None).

(** ** The connection handlers *)

Section connection.
Context {E : AgentEnv} {N : Network} {L : AgentEnvLaws E}.

Lemma wp_time clock Q w :
  (forall n, clock n <> None) ->
  (forall ts, clock (aw_clocks w) = Some ts -> Q (timespec_to_micros ts) (w <| aw_clocks ::= S |>)) ->
  wp (agent_time clock) Q w.
Proof.
  intros Hc HQ. unfold wp, agent_time. destruct (clock (aw_clocks w)) eqn:Ht; [by apply HQ|].
  by destruct (Hc _ Ht).
Qed.

Lemma wp_copy_str set s a (Q : bool -> AgentWorld -> Prop) w :
  aw_agent w = Some a -> Q true (set_agent (set (Some s) a) (mtick w)) -> wp (copy_str set s) Q w.
Proof.
  intros Ha HQ. unfold copy_str, strdup. awp_go. rewrite malloc_succeeds. awp_go. done.
Qed.

(** What stands in for the address once it is assembled. *)
Definition with_address (x : option string) (a : Agent) : Agent :=
  a <| ag_assembled_controller_address := x |>.

Definition addressed (a : Agent) (w : AgentWorld) : Prop :=
  exists x, aw_agent w = Some (with_address x a).

Lemma addressed_same a w : aw_agent w = Some a -> addressed a w.
Proof. intros Ha. exists (ag_assembled_controller_address a). rewrite Ha. by destruct a. Qed.

Lemma set_assembled_spec x a w :
  aw_agent w = Some a -> wp (set_assembled x) (fun _ w' => addressed a w') w.
Proof.
  intros Ha. unfold set_assembled. destruct x as [s|]; [|apply wp_ret; by apply addressed_same].
  apply wp_bind. eapply wp_copy_str; [done|]. apply wp_ret. by exists (Some s).
Qed.

(** Where the agent looks for the controller. *)
Definition target_of (a : Agent) := (ag_controller_address a, ag_host a).
(** Settings that give an address whenever it is looked up afresh. *)
Definition locatable (a : Agent) : Prop := forall a' w,
  aw_agent w = Some a' -> ag_assembled_controller_address a' = None -> target_of a' = target_of a ->
  wp ensure_assembled_controller_address (fun ok _ => ok = true) w.

Lemma locatable_same a a' : target_of a' = target_of a -> locatable a -> locatable a'.
Proof. intros He Hl a0 w H1 H2 H3. apply (Hl a0 w H1 H2). congruence. Qed.

Lemma ensure_address_spec a w :
  aw_agent w = Some a ->
  wp ensure_assembled_controller_address (fun ok w' => exists x,
    aw_agent w' = Some (with_address x a) /\ (ok = true -> x <> None)) w.
Proof.
  intros Ha. unfold ensure_assembled_controller_address. apply wp_bind.
  eapply wp_the_agent; [done|].
  destruct (ag_assembled_controller_address a) as [s|] eqn:Hs.
  { apply wp_ret. exists (Some s). split; [rewrite Ha; by destruct a; cbn in *; subst|done]. }
  destruct (ag_controller_address a) as [s|] eqn:Hc.
  { eapply wp_copy_str; [done|]. by exists (Some s). }
  assert (forall w', addressed a w' -> exists x, aw_agent w' = Some (with_address x a) /\
    (false = true -> x <> None)) as Hfail by (intros w' [x Hx]; by exists x).
  destruct (ag_host a) as [h|]; [|apply wp_ret; by apply Hfail, addressed_same].
  apply wp_bind. eapply (wp_mono _ (fun _ w' => aw_agent w' = Some a)).
  { destruct (_ && _); [|by apply wp_ret]. apply wp_bind. by apply wp_ret. }
  intros [ip|] w1 Ha1; [|apply wp_ret; by apply Hfail, addressed_same].
  apply wp_bind. eapply (wp_mono _ (fun _ w' => addressed a w')).
  { pose proof (addressed_same a w1 Ha1). do 3 (try case_match); try by apply wp_ret.
    all: awp_go; by apply set_assembled_spec. }
  intros ok w2 [x Hx]. destruct ok; cbn [negb]; [|apply wp_ret; by apply Hfail; exists x].
  awp_go. exists x. split; [done|]. apply bool_decide_eq_true.
Qed.

Lemma locatable_address a : ag_controller_address a <> None -> locatable a.
Proof.
  intros Hc a' w Ha Hn Ht. injection Ht as Ht _.
  unfold ensure_assembled_controller_address. apply wp_bind. eapply wp_the_agent; [done|].
  rewrite Hn, Ht. destruct (ag_controller_address a) as [s|]; [|done]. by eapply wp_copy_str.
Qed.

(** The agent after an attempt to connect. *)
Definition attempted (s : AgentConnectionState) (b : option ptr) (slot : bool) (a : Agent) : Agent :=
  a <| ag_connection_state := s |> <| ag_peer_dbus := b |> <| ag_register_call_slot := slot |>.

Lemma peer_bus_open_spec address a w :
  aw_agent w = Some a ->
  wp (peer_bus_open address) (fun b w' => aw_agent w' = Some a /\
    ((forall n c, 0 <= acall_result n c) -> b <> None)) w.
Proof.
  intros Ha. unfold peer_bus_open. awp_go. destruct (_ <? 0) eqn:Hr; [|done]. apply wp_ret. split; [done|].
  apply Z.ltb_lt in Hr. intros Hz. pose proof (Hz (Datatypes.length (aw_trace w)) (PeerOpen address)). lia.
Qed.

Lemma connect_spec a w :
  aw_agent w = Some a -> ag_register_call_slot a = false ->
  wp agent_connect (fun ok w' => exists b,
    aw_agent w' = Some (attempted CONNECTING b ok a) /\ (ok = true -> b <> None) /\
    ((forall n c, 0 <= acall_result n c) -> ok = true)) w.
Proof.
  intros Ha Hslot. unfold agent_connect, set_state. awp_go. eapply wp_the_agent; [done|].
  assert (forall b, a <| ag_connection_state := CONNECTING |> <| ag_peer_dbus := b |> =
                    attempted CONNECTING b false a) as Hf.
  { intros b. destruct a. cbn in *. by subst. }
  apply wp_bind. eapply wp_mono; [by apply peer_bus_open_spec|]. intros b w1 [Ha1 Hb].
  apply wp_bind. eapply wp_upd_agent; [done|]. rewrite Hf.
  destruct b as [b|]; [|apply wp_ret; exists None; by split_and!; [..|intros ?%Hb]].
  assert (forall w1 n c, aw_agent w1 = Some (attempted CONNECTING (Some b) false a) ->
    acall_result n c < 0 -> wp (mret false) (fun ok w' => exists b,
      aw_agent w' = Some (attempted CONNECTING b ok a) /\ (ok = true -> b <> None) /\
      ((forall n c, 0 <= acall_result n c) -> ok = true)) w1) as Hfail.
  { intros w2 n c Hw2 Hc. apply wp_ret. exists (Some b). split_and!; [done|done|].
    intros Hz. specialize (Hz n c). lia. }
  awp_go. destruct (_ <? 0) eqn:Hr; [eapply Hfail; [done|by apply Z.ltb_lt]|clear Hr].
  awp_go. destruct (_ <? 0) eqn:Hr; [eapply Hfail; [done|by apply Z.ltb_lt]|clear Hr].
  awp_go. eapply wp_upd_agent; [done|]. apply wp_ret. by exists (Some b).
Qed.

Lemma peer_bus_close_spec a w :
  aw_agent w = Some a ->
  wp agent_peer_bus_close (fun _ w' =>
    aw_agent w' = Some (attempted (ag_connection_state a) None false a)) w.
Proof.
  intros Ha. unfold agent_peer_bus_close. apply wp_bind. eapply wp_the_agent; [done|].
  apply wp_bind. eapply wp_upd_agent; [done|]. apply wp_bind.
  eapply (wp_mono _ (fun _ w' => aw_agent w' = Some (a <| ag_register_call_slot := false |>))).
  { destruct (ag_peer_dbus a); awp_go; done. }
  intros [] w1 Ha1. eapply wp_upd_agent; [done|]. cbn. by destruct a.
Qed.

(** Either no address is found and the connection stays as it is, or the agent
    has left the old connection and tried to register on a new one. *)
Lemma reconnect_spec a w :
  aw_agent w = Some a ->
  wp agent_reconnect (fun ok w' => exists x,
    (ok = false /\ ~ locatable a /\ aw_agent w' = Some (with_address x a)) \/
    (exists b, aw_agent w' = Some (attempted CONNECTING b ok (with_address x a)) /\
       (ok = true -> b <> None) /\ ((forall n c, 0 <= acall_result n c) -> ok = true))) w.
Proof.
  intros Ha. unfold agent_reconnect. apply wp_bind. eapply wp_the_agent; [done|].
  apply wp_bind. eapply wp_upd_agent; [done|]. cbn beta.
  apply wp_bind. set (w0 := set_agent _ w).
  assert (pwp ensure_assembled_controller_address (fun ok _ => locatable a -> ok = true) w0) as Hfound.
  { unfold pwp. destruct (ensure_assembled_controller_address w0) eqn:He; [|done]. intros Hl.
    specialize (Hl _ w0 eq_refl eq_refl eq_refl). unfold wp in Hl. by rewrite He in Hl. }
  eapply wp_mono; [apply wp_pwp; [by apply ensure_address_spec|exact Hfound]|].
  intros ok w1 [(x & Ha1 & Hok) Hx].
  assert (aw_agent w1 = Some (with_address x a)) as Ha1' by (rewrite Ha1; by destruct a).
  destruct ok; cbn [negb].
  2:{ apply wp_ret. exists x. left. split_and!; [done| |done]. by intros ?%Hx. }
  apply wp_bind. eapply wp_the_agent; [done|]. apply wp_bind.
  eapply (wp_mono _ (fun _ w' => aw_agent w' = Some (with_address x a))).
  { unfold emit_agent_property.
    repeat case_match; by awp_go. }
  intros [] w2 Ha2. apply wp_bind. eapply wp_mono; [by apply peer_bus_close_spec|].
  intros [] w3 Ha3. eapply wp_mono; [by apply connect_spec|]. intros ok w4 (b & Ha4 & Hb & Hs).
  exists x. right. exists b. split_and!; [|done|done]. rewrite Ha4. by destruct a.
Qed.

(** What a lost connection makes of the agent. *)
Definition lost_agent (t u : Z) (a : Agent) : Agent :=
  a <| ag_connection_state := RETRY |> <| ag_disconnect_timestamp := t |>
    <| ag_disconnect_timestamp_monotonic := u |>.

Lemma disconnected_spec a w :
  aw_agent w = Some a ->
  wp agent_disconnected (fun _ w' => exists t u x,
    (~ locatable a /\ aw_agent w' = Some (with_address x (lost_agent t u a))) \/
    (exists b slot, aw_agent w' = Some (attempted CONNECTING b slot (with_address x (lost_agent t u a)))
       /\ (slot = true -> b <> None) /\ ((forall n c, 0 <= acall_result n c) -> slot = true))) w.
Proof.
  intros Ha. unfold agent_disconnected, set_state, emit_agent_property. awp_go.
  apply wp_time; [apply realtime_works|]. intros t _. awp_go. eapply wp_upd_agent; [done|]. awp_go.
  apply wp_time; [apply monotonic_works|]. intros u _. awp_go. eapply wp_upd_agent; [done|]. awp_go.
  eapply wp_mono; [by apply reconnect_spec|]. intros ok w1 (x & [(_ & Hc & Ha1)|(b & Ha1 & Hb & Hs)]).
  - apply wp_ret. exists (timespec_to_micros t), (timespec_to_micros u), x. left. split; [done|].
    rewrite Ha1. by destruct a.
  - apply wp_ret. exists (timespec_to_micros t), (timespec_to_micros u), x. right. exists b, ok.
    split_and!; [|done|done]. rewrite Ha1. by destruct a.
Qed.

(** The agent has given up the connection it had; it waits for the timer or, where
    it finds an address, already for the answer to its registration. *)
Definition gone (a : Agent) (w : AgentWorld) : Prop := exists a', aw_agent w = Some a' /\
  target_of a' = target_of a /\
  ((ag_connection_state a' = RETRY /\ ag_peer_dbus a' = ag_peer_dbus a /\
    (ag_register_call_slot a' = true -> ag_register_call_slot a = true) /\
    ~ locatable a) \/
   (ag_connection_state a' = CONNECTING /\
    (ag_register_call_slot a' = true -> ag_peer_dbus a' <> None) /\
    ((forall n c, 0 <= acall_result n c) -> ag_register_call_slot a' = true))).

Lemma gone_from a0 a w :
  target_of a = target_of a0 -> ag_peer_dbus a = ag_peer_dbus a0 ->
  (ag_register_call_slot a = true -> ag_register_call_slot a0 = true) -> gone a w -> gone a0 w.
Proof.
  intros H1 H2 H3 (a' & Ha' & Ht & Hc). exists a'. split; [done|]. split; [congruence|].
  destruct Hc as [(? & ? & ? & Hn)|Hc]; [left|by right]. split_and!; [done|congruence|auto|].
  intros Hl. apply Hn. by apply (locatable_same a0).
Qed.

Lemma reconnect_gone a w :
  aw_agent w = Some a -> ag_connection_state a = RETRY ->
  wp agent_reconnect (fun _ w' => gone a w') w.
Proof.
  intros Ha Hs. eapply wp_mono; [by apply reconnect_spec|].
  intros ok w' (x & [(_ & Hc & Ha')|(b & Ha' & Hb & Hok)]); (eexists; split; [exact Ha'|]).
  - split; [done|]. by left.
  - split; [done|]. by right.
Qed.

Lemma disconnected_gone a w :
  aw_agent w = Some a -> wp agent_disconnected (fun _ w' => gone a w') w.
Proof.
  intros Ha. eapply wp_mono; [by apply disconnected_spec|].
  intros r w' (t & u & x & [(Hc & Ha')|(b & slot & Ha' & Hb & Hok)]); (eexists; split; [exact Ha'|]).
  - split; [done|]. by left.
  - split; [done|]. by right.
Qed.

(** ** Heartbeats *)

(** The controller is given up for its last heartbeat being too old. *)
Definition given_up (a : Agent) (w : AgentWorld) : Prop :=
  0 < ag_controller_heartbeat_threshold_msec a /\
  exists ts, monotonic (aw_clocks w) = Some ts /\ controller_expired a (timespec_to_micros ts) = true.

Lemma check_liveness_spec a w :
  aw_agent w = Some a ->
  wp agent_check_controller_liveness (fun alive w' =>
    (alive = true /\ ~ given_up a w /\ aw_agent w' = Some a /\ aw_trace w' = aw_trace w) \/
    (alive = false /\ given_up a w /\ gone a w')) w.
Proof.
  intros Ha. unfold agent_check_controller_liveness. awp_go.
  destruct (Z.leb_spec (ag_controller_heartbeat_threshold_msec a) 0).
  { apply wp_ret. left. split_and!; [done| |done|done]. intros [? _]. lia. }
  awp_go. apply wp_time; [apply monotonic_works|]. intros ts Hts.
  destruct (controller_expired _ _) eqn:He.
  - apply wp_bind. eapply wp_mono; [by apply (disconnected_gone a)|]. intros r w' Hw'.
    apply wp_ret. right. split_and!; [done| |done]. split; [lia|eauto].
  - apply wp_ret. left. split_and!; [done| |done|done]. intros [_ (ts' & Hts' & ?)]. congruence.
Qed.

(** The part of the timer for a controller that is not there. *)
Lemma retry_spec a w :
  aw_agent w = Some a ->
  wp (a ← the_agent;
      if bool_decide (ag_connection_state a = AGENT_CONNECTION_STATE_RETRY) then
        upd_agent (fun a => a <| ag_connection_retry_count ::= fun n => u64 (n + 1) |>) ;;
        a ← the_agent;
        (if ag_connection_retry_count a =? ag_connection_retry_count_until_quiet a then
           modify (fun w => w <| aw_log ::= bc_log_set_quiet true |>)
         else mret tt) ;;
        _ok ← agent_reconnect; mret tt
      else mret tt)
    (fun _ w' => if bool_decide (ag_connection_state a = RETRY) then gone a w'
                 else aw_agent w' = Some a) w.
Proof.
  intros Ha. awp_go. case_bool_decide as Hs; [|by apply wp_ret]. awp_go.
  eapply wp_the_agent; [done|]. apply wp_bind.
  set (a1 := a <| ag_connection_retry_count ::= fun n => u64 (n + 1) |>).
  eapply (wp_mono _ (fun _ w' => aw_agent w' = Some a1)); [case_match; by awp_go|].
  intros [] w1 Ha1. apply wp_bind. eapply wp_mono; [by apply (reconnect_gone a1)|].
  intros r w2 Hw2. apply wp_ret. by eapply gone_from; [..|exact Hw2].
Qed.

(** A registration that is not answered when the timer ticks is given up. *)
Definition settled (a : Agent) : Agent :=
  match ag_connection_state a with
  | CONNECTING => a <| ag_register_call_slot := false |> <| ag_connection_state := RETRY |>
  | _ => a
  end.

Lemma timer_spec reset a w :
  aw_agent w = Some a ->
  wp (agent_heartbeat_timer_callback reset) (fun _ w' =>
    match ag_connection_state a with
    | DISCONNECTED => aw_agent w' = Some a
    | CONNECTED => (~ given_up a w /\ aw_agent w' = Some a /\
                    aw_trace w' = aw_trace w ++ match ag_peer_dbus a with
                      | Some b => [PeerEmitSignal b INTERNAL_AGENT_OBJECT_PATH
                                     INTERNAL_AGENT_INTERFACE "Heartbeat" []]
                      | None => [] end) \/
                   (given_up a w /\ gone a w')
    | RETRY | CONNECTING => gone a w'
    end) w.
Proof.
  intros Ha. unfold agent_heartbeat_timer_callback. awp_go.
  eapply (wp_mono _ (fun _ w' => aw_agent w' = Some (settled a) /\ aw_trace w' = aw_trace w /\
                                 aw_clocks w' = aw_clocks w)).
  { unfold settled. case_bool_decide as Hs; [rewrite Hs; by awp_go|].
    apply wp_ret. by destruct (ag_connection_state a). }
  intros [] w1 (Ha1 & Ht1 & Hc1). apply wp_bind. eapply wp_the_agent; [done|]. cbn beta.
  apply wp_bind. unfold settled in Ha1 |- *. destruct (ag_connection_state a) eqn:Hs.
  1,3,4: rewrite bool_decide_eq_false_2 by (cbn; by rewrite ?Hs); apply wp_ret, wp_bind;
    (eapply wp_mono; [by apply retry_spec|]); intros [] w2; cbn [ag_connection_state];
    rewrite ?Hs; intros Hw2; apply wp_ret.
  - exact Hw2.
  - exact Hw2.
  - by eapply gone_from; [..|exact Hw2].
  - rewrite bool_decide_eq_true_2 by done. eapply wp_mono; [by apply check_liveness_spec|].
    assert (given_up a w1 <-> given_up a w) as Hg by (unfold given_up; by rewrite Hc1).
    intros alive w2 [(-> & Hn & Ha2 & Ht2)|(-> & Hn & Hw2)].
    + apply wp_bind. unfold internal_signal, peer. apply wp_bind. awp_go.
      destruct (ag_peer_dbus a) as [b|]; awp_go; left; rewrite <- Hg.
      * split_and!; [done|done|]. cbn. congruence.
      * split_and!; [done|done|]. rewrite app_nil_r. congruence.
    + apply wp_bind. destruct Hw2 as (a2 & Ha2 & Hcase).
      eapply wp_mono; [by apply retry_spec|]. intros [] w3 Hw3. apply wp_ret. right.
      split; [by apply Hg|]. case_bool_decide as Hs2.
      * destruct Hcase as (? & [(_ & ? & ? & ?)|(? & _)]); [|congruence].
        by eapply gone_from; [..|exact Hw3].
      * by exists a2.
Qed.

(** ** Registration *)

(** The agents that differ from [a] in state, clock readings and retries only. *)
Definition same_link (a a' : Agent) : Prop :=
  target_of a' = target_of a /\ ag_peer_dbus a' = ag_peer_dbus a /\
  ag_register_call_slot a' = ag_register_call_slot a.

Lemma emit_all_spec a w :
  agent_ok w -> aw_agent w = Some a ->
  wp (foreach (ag_proxy_services a) (fun p => _r ← proxy_service_emit_proxy_new p; mret tt))
    (fun _ w' => agent_ok w' /\ exists a', aw_agent w' = Some a' /\ conn_of a' = conn_of a) w.
Proof.
  intros Hw Ha. pose proof (safe_emit_all w Hw) as Hs.
  apply wp_bind_inv in Hs. unfold wp at 1, the_agent, deref in Hs. rewrite Ha in Hs. unfold wp in Hs.
  set (loop := foreach _ _) in *.
  assert (steps (agree conn_of) loop) as Hagree.
  { intros w0. assert (steps apart loop) as Hap by (subst loop; steps_tac). specialize (Hap w0).
    destruct (loop w0); [apply Hap|done]. }
  specialize (Hagree w). unfold wp. destruct (loop w) as [r w'|]; [|done]. split; [done|].
  destruct Hs as (a' & Ha' & _). destruct (Hagree a' Ha') as (a0 & Ha0 & Hc).
  exists a'. split; [done|]. congruence.
Qed.

Definition calls_succeed : Prop := forall n c, 0 <= acall_result n c.

(** A connected agent that differs from [a] in clock readings and retries only. *)
Definition linked (a : Agent) (w : AgentWorld) : Prop := agent_ok w /\ exists a1,
  aw_agent w = Some a1 /\ same_link a a1 /\ ag_connection_state a1 = CONNECTED.

Definition link_of (x : Agent) :=
  (ag_connection_state x, target_of x, ag_peer_dbus x, ag_register_call_slot x).

Lemma linked_then a {A B} (m : AM A) (k : A -> AM B) Q w :
  neutral m -> steps (agree link_of) m -> linked a w ->
  (forall r w', linked a w' -> wp (k r) Q w') -> wp (m ≫= k) Q w.
Proof.
  intros Hm Hs [Hw (a1 & Ha1 & Hl & Hc)] Hk. apply wp_bind.
  eapply wp_mono; [eapply wp_steps; [exact Hs|by apply Hm]|].
  intros r w1 [(_ & Hw1 & _) Hag]. apply Hk. split; [done|].
  destruct Hw1 as (a2 & Ha2 & _). destruct (Hag a2 Ha2) as (a1' & Ha1' & Heq).
  assert (a1' = a1) as -> by congruence. exists a2. unfold link_of, same_link in *.
  split; [done|]. intuition congruence.
Qed.

Lemma peer_linked a c {B} (k : Z -> AM B) Q w :
  linked a w ->
  (forall r w', linked a w' -> (calls_succeed -> ag_peer_dbus a <> None -> 0 <= r) ->
     wp (k r) Q w') -> wp (peer c ≫= k) Q w.
Proof.
  intros Hw Hk. pose proof Hw as [Hok (a1 & Ha1 & Hl & Hc)]. apply wp_bind. unfold peer. awp_go.
  destruct (ag_peer_dbus a1) as [b|] eqn:Hb; awp_go; apply Hk.
  - split; [|by exists a1]. by apply (heap_same_inv _ _ _ w).
  - intros Hz _. apply Hz.
  - done.
  - intros _ Hne. destruct Hl as (_ & Hp & _). congruence.
Qed.

Lemma linked_end a w :
  linked a w -> wp (a ← the_agent;
                    foreach (ag_proxy_services a) (fun p => _r ← proxy_service_emit_proxy_new p; mret tt) ;;
                    mret true)
    (fun ok w' => ok = true /\ linked a w') w.
Proof.
  intros [Hw (a1 & Ha1 & Hl & Hc)]. apply wp_bind. eapply wp_the_agent; [done|]. apply wp_bind.
  eapply wp_mono; [by apply emit_all_spec|]. intros [] w1 (Hw1 & a2 & Ha2 & Heq). apply wp_ret.
  split; [done|]. split; [done|]. exists a2. unfold conn_of, same_link, target_of in *.
  split; [done|]. intuition congruence.
Qed.

Lemma process_register_spec m message a w :
  agent_ok w -> aw_agent w = Some a ->
  wp (agent_process_register_callback m message) (fun ok w' =>
    (ok = false -> ~ (calls_succeed /\ 0 <= message /\ ag_peer_dbus a <> None)) /\
    match m with
    | MethodError _ => ok = true /\ w' = w
    | MethodReturn _ => linked a w' \/ (ok = false /\ w' = w)
    end) w.
Proof.
  intros Hw Ha. unfold agent_process_register_callback. destruct m; [by apply wp_ret|].
  destruct (Z.ltb_spec message 0).
  { apply wp_ret. split; [|by right]. intros _ (_ & ? & _). lia. }
  apply wp_bind. eapply wp_the_agent; [done|]. apply wp_bind, wp_modify, wp_bind.
  eapply wp_upd_agent; [done|]. cbn beta.
  set (a1 := a <| ag_connection_state := CONNECTED |> <| ag_connection_retry_count := 0 |>).
  set (w1 := set_agent a1 _).
  assert (linked a w1) as Hl1.
  { split; [|by exists a1]. destruct Hw as (a' & Ha' & I). assert (a' = a) as -> by congruence.
    exists a1. split; [done|]. apply (parts_agent_fields I); try done. apply I. }
  clearbody w1. clear a1.
  do 5 (eapply linked_then; [by auto with agent|by steps_tac|done|]; clear dependent w1;
        intros ? w1 Hl1; cbn beta).
  do 2 (eapply peer_linked; [done|]; clear dependent w1; intros r' w1 Hl1 Hr;
        destruct (Z.ltb_spec r' 0);
        [apply wp_ret; split; [|by left]; intros _ (Hz & _ & Hb); specialize (Hr Hz Hb); lia|];
        clear dependent r').
  eapply wp_mono; [by apply linked_end|]. intros ok w2 [-> Hl2]. split; [done|by left].
Qed.

(** What an answer to the registration makes of the agent. *)
Lemma register_spec m message a w :
  agent_ok w -> aw_agent w = Some a ->
  wp (agent_register_callback m message) (fun _ w' => exists a', aw_agent w' = Some a' /\
    target_of a' = target_of a /\ ag_peer_dbus a' = ag_peer_dbus a /\
    (ag_register_call_slot a' = true -> ag_register_call_slot a = true) /\
    if bool_decide (ag_connection_state a = CONNECTING) then
      match m with
      | MethodError _ => ag_connection_state a' = CONNECTING
      | MethodReturn _ =>
          (ag_connection_state a' = CONNECTED \/ ag_connection_state a' = RETRY) /\
          (calls_succeed -> 0 <= message -> ag_peer_dbus a <> None ->
           ag_connection_state a' = CONNECTED)
      end
    else ag_connection_state a' = ag_connection_state a) w.
Proof.
  intros Hw Ha. unfold agent_register_callback. awp_go. case_bool_decide as Hs; cbn [negb].
  2:{ awp_go. eexists. by split_and!. }
  apply wp_bind. eapply wp_mono; [by apply (process_register_spec m message a)|].
  intros ok w1 [Hgood Hcase]. apply wp_bind.
  assert (exists a1, aw_agent w1 = Some a1 /\ same_link a a1 /\
    match m with
    | MethodError _ => ok = true /\ ag_connection_state a1 = CONNECTING
    | MethodReturn _ => ok = true -> ag_connection_state a1 = CONNECTED
    end) as (a1 & Ha1 & (Hl1 & Hl2 & Hl3) & Hst).
  { destruct m; [destruct Hcase as [-> ->]; by exists a|].
    destruct Hcase as [(_ & a1 & ? & ? & ?)|[-> ->]]; [by exists a1|by exists a]. }
  destruct ok; cbn [negb].
  - apply wp_ret, wp_ret. exists a1. split_and!; [done..|congruence|]. destruct m; [by destruct Hst|].
    split; [left|intros _ _ _]; by apply Hst.
  - unfold set_state. awp_go. eexists. split; [done|]. split_and!; [done|done|cbn; congruence|].
    destruct m; [by destruct Hst|]. split; [by right|]. intros Hz Hm Hb. by destruct Hgood.
Qed.

(** ** Switching the controller, and stopping *)

Lemma switch_spec m args a w :
  aw_agent w = Some a ->
  wp (agent_method_switch_controller m args) (fun _ w' =>
    aw_agent w' = Some a \/
    exists s, gone (with_address (Some s) a <| ag_controller_address := Some s |>) w') w.
Proof.
  intros Ha. unfold agent_method_switch_controller. destruct args as [r|s]; [awp_go; by left|].
  awp_go. case_match; [awp_go; by left|].
  apply wp_bind. eapply wp_copy_str; [done|]. cbn [negb]. apply wp_bind.
  eapply wp_copy_str; [done|]. cbn [negb]. unfold emit_agent_property. awp_go.
  eapply wp_mono; [by apply disconnected_gone|]. intros r w1 Hw1. awp_go. right. by exists s.
Qed.

Lemma remove_proxy_unlists p emit a w :
  aw_agent w = Some a ->
  pwp (agent_remove_proxy p emit) (fun _ w' => forall a', aw_agent w' = Some a' ->
    ag_proxy_services a' = remove_first p (ag_proxy_services a)) w.
Proof.
  intros Ha. unfold agent_remove_proxy. set (g := ag_proxy_services).
  assert (forall w' a', agree g w w' -> aw_agent w' = Some a' -> g a' = g a) as Hg.
  { intros w' a' H Ha'. destruct (H a' Ha') as (a0 & ? & ?). congruence. }
  eapply (pwp_steps (agree g)); [by steps_tac|]. intros q w1 H1.
  eapply (pwp_steps (agree g)); [by steps_tac|]. intros _ w2 H2.
  eapply (pwp_steps (agree g)); [by steps_tac|]. intros _ w3 H3.
  eapply (pwp_steps (agree g)); [by steps_tac|]. intros _ w4 H4.
  eapply (pwp_steps (agree g)); [by steps_tac|]. intros _ w5 H5.
  eapply (pwp_steps (agree g)); [by steps_tac|]. intros _ w6 H6.
  assert (agree g w w6) as H by by (trans w1; [|trans w2; [|trans w3; [|trans w4; [|trans w5]]]]).
  clear - Hg H. apply pwp_bind. intros a6 w' Ha6. unfold the_agent, deref in Ha6.
  destruct (aw_agent w6) eqn:Hw6; simplify_eq. pose proof (Hg _ _ H Hw6) as Heq.
  apply pwp_bind. intros l w6' Hl. unfold alist_remove_from, c_assert, mbind, M_bind in Hl.
  case_bool_decide; [|done]. cbn in Hl. injection Hl as <- <-.
  apply pwp_bind. intros [] w7 Hw7. unfold upd_agent, the_agent, deref, mbind, M_bind in Hw7.
  rewrite Hw6 in Hw7. injection Hw7 as <-.
  match goal with |- pwp ?m _ _ => assert (steps (agree g) m) as Hrest by steps_tac end.
  match goal with |- pwp ?m _ ?w => specialize (Hrest w); unfold pwp; destruct (m w); [|done] end.
  intros a' Ha'. destruct (Hrest a' Ha') as (a7 & Ha7 & ->). injection Ha7 as <-. cbn.
  unfold g in *. by rewrite Heq.
Qed.

Lemma stop_spec a w :
  agent_ok w -> aw_agent w = Some a ->
  wp agent_stop (fun _ w' => agent_ok w' /\ exists a', aw_agent w' = Some a' /\
    ag_connection_state a' = DISCONNECTED /\ ag_peer_dbus a' = None /\
    ag_register_call_slot a' = false /\ ag_proxy_services a' = [] /\
    target_of a' = target_of a) w.
Proof.
  intros Hw Ha. unfold agent_stop. apply wp_bind.
  eapply wp_mono; [apply wp_conj; [by apply peer_bus_close_spec|by apply neutral_peer_bus_close]|].
  intros [] w1 (Ha1 & _ & Hw1 & _). unfold set_state. apply wp_bind. eapply wp_upd_agent; [done|].
  unfold emit_agent_property. awp_go. eapply wp_the_agent; [done|].
  set (a2 := attempted DISCONNECTED None false a). set (w2 := aemit _ _).
  assert (aw_agent w2 = Some a2) as Ha2 by by cbn.
  assert (agent_ok w2) as Hw2.
  { destruct Hw1 as (a' & Ha' & I1). simplify_eq. exists a2. split; [done|].
    by apply (parts_agent_fields I1); try done; apply I1. }
  clearbody w2. clear w1 Ha1 Hw1. cbn [ag_proxy_services attempted].
  assert (forall w a, agent_ok w -> aw_agent w = Some a -> forall p, p ∈ ag_proxy_services a ->
    has_proxy p true w) as Hlist.
  { intros w0 a0 (a' & Ha' & I0) Ha0 p Hp. assert (a' = a0) as -> by congruence.
    destruct (px_listed _ _ _ (pi_proxies _ _ _ _ _ _ _ _ _ I0) p Hp) as (q & ? & ?).
    exists a0, q. split_and!; [done..|]. by apply bool_decide_eq_true. }
  apply (wp_foreach (fun l w => agent_ok w /\ exists a', aw_agent w = Some a' /\
    ag_proxy_services a' = l /\ conn_of a' = conn_of a2)).
  - split; [done|]. by exists a2.
  - intros p l w3 (Hw3 & a3 & Ha3 & Hl & Hc).
    eapply wp_mono; [apply wp_pwp; [eapply wp_steps;
      [apply (apart_remove_proxy p false)|apply (remove_proxy_spec p 0)]|by apply remove_proxy_unlists]|].
    + by apply held_zero.
    + done.
    + eapply Hlist; [done|done|]. rewrite Hl. by left.
    + intros r w4 (((Hw4 & _) & Hag & _) & Hrem). split; [by eapply zero_held|].
      destruct Hw4 as (a4 & Ha4 & _). exists a4. split; [done|]. split.
      * rewrite (Hrem a4 Ha4), Hl. cbn. by rewrite decide_True.
      * destruct (Hag a4 Ha4) as (a3' & ? & ->). congruence.
  - intros w3 (Hw3 & a3 & Ha3 & Hl & Hc). split; [done|]. exists a3.
    unfold conn_of in Hc. unfold target_of. cbn in Hc |- *. split_and!; [done|congruence..|done|congruence].
Qed.

(** ** The simulation *)

Lemma gone_bus a w : gone a w -> bus_inv a -> exists a', aw_agent w = Some a' /\ bus_inv a' /\
  (ag_connection_state a' = RETRY \/ ag_connection_state a' = CONNECTING).
Proof.
  intros (a' & Ha' & _ & [(Hs & Hp & Hsl & _)|(Hs & Hsl & _)]) [B1 B2]; exists a';
    (split; [done|]; split; [split|by auto]); rewrite ?Hs; try done.
  intros H%Hsl%B2. congruence.
Qed.

(** The handlers of the label [Other]. *)
Lemma other_apart e : label_of e = Other -> e <> EvHeartbeat -> steps apart (handle_event e).
Proof.
  intros He Hh.
  assert (forall {A} (m : AM A), steps apart m -> steps apart (_r ← m; mret tt)) as Hb.
  { intros A m Hm. apply (steps_bind _); [done|]. intros. by apply (steps_ret _). }
  destruct e as [m method|m method|m p method|req m path|s| | | | |]; try done; cbn [handle_event];
    apply Hb.
  - apply apart_controller_method.
  - destruct method; try done; cbn [agent_vtable];
      auto using apart_create_proxy, apart_remove_proxy_method, apart_job_cancel.
  - apply apart_proxy_method.
  - apply apart_answer.
  - apply apart_signal.
Qed.

Lemma other_keeps e : label_of e = Other -> steps (agree link_of) (handle_event e).
Proof.
  intros He. assert (e = EvHeartbeat \/ e <> EvHeartbeat) as [->|Hne] by (destruct e; auto).
  { cbn [handle_event]. steps_tac. }
  intros w. pose proof (other_apart e He Hne w) as Hap. destruct (handle_event e w); [|done].
  destruct Hap as [Hap _]. intros a' Ha'. destruct (Hap a' Ha') as (a0 & Ha0 & Hc). exists a0.
  split; [done|]. unfold conn_of, link_of, target_of in *. intuition congruence.
Qed.

Lemma event_connection e a w :
  agent_ok w -> enabled e w = true -> late_error e w = false -> aw_agent w = Some a -> bus_inv a ->
  wp (handle_event e) (fun _ w' => agent_ok w' /\ exists a', aw_agent w' = Some a' /\ bus_inv a' /\
    conn_step (label_of e) (ag_connection_state a) (ag_connection_state a') /\
    (locatable a -> locatable a')) w.
Proof.
  intros Hw He Hle Ha Hb. pose proof (safe_event e w Hw He Hle) as Hok. apply wp_conj; [done|].
  assert (forall w' a0, gone a0 w' -> bus_inv a0 -> exists a', aw_agent w' = Some a' /\ bus_inv a' /\
    (ag_connection_state a' = RETRY \/ ag_connection_state a' = CONNECTING) /\
    target_of a' = target_of a0) as Hgone.
  { intros w' a0 Hg Hb0. destruct (gone_bus a0 w' Hg Hb0) as (a' & Ha' & ? & ?).
    destruct Hg as (a2 & ? & ? & _). exists a'. split_and!; [done..|congruence]. }
  assert (forall {A} (m : AM A) (Q : AgentWorld -> Prop),
    wp m (fun _ w' => Q w') w -> wp (_r ← m; mret tt) (fun _ w' => Q w') w) as Hunit.
  { intros A m Q Hm. apply wp_bind. eapply wp_mono; [exact Hm|]. done. }
  destruct (label_of e) eqn:Hl.
  - destruct e as [| |m p []| | | | | | |]; try done; [destruct method; done|]. apply Hunit.
    eapply wp_mono; [by apply disconnected_gone|].
    intros r w' (a' & Ha' & Hb' & Hs & Hc)%Hgone; [|done]. exists a'. split_and!; [done..| |by apply locatable_same].
    destruct Hs as [-> | ->]; constructor.
  - destruct e as [|m []| | | | | | | |]; try done. cbn [handle_event agent_vtable]. apply Hunit.
    eapply wp_mono; [by apply switch_spec|].
    intros r w' [Ha'|[s Hg]]; [exists a; by split_and!; [..|constructor|]|].
    apply Hgone in Hg as (a' & Ha' & Hb' & Hs & Hc); [|exact Hb]. exists a'.
    split_and!; [done..| |intros _; apply locatable_address; by injection Hc as ->]. destruct Hs as [-> | ->]; constructor.
  - destruct e as [|? []| | | | | | | |]; try done. apply Hunit.
    eapply wp_mono; [by apply register_spec|]. intros r w' (a' & Ha' & Hc & Hp & Hsl & Hst).
    exists a'. cbn in He. rewrite Ha in He. destruct Hb as [B1 B2]. pose proof (B2 He) as Hbus.
    split_and!; [done|by split; intros _; rewrite Hp| |by apply locatable_same].
    case_bool_decide as Hs; [rewrite Hs|rewrite Hst; by constructor].
    destruct m; [rewrite Hst; constructor|]. destruct Hst as [[-> | ->] _]; constructor.
  - destruct e as [|? []| | | | | | | |]; try done. apply Hunit.
    eapply wp_mono; [by apply timer_spec|]. intros r w' Hw'.
    assert (aw_agent w' = Some a /\ (ag_connection_state a = DISCONNECTED \/
                                     ag_connection_state a = CONNECTED) \/
            ag_connection_state a <> DISCONNECTED /\ gone a w') as [[Ha' Hs]|[Hs Hg]].
    { destruct (ag_connection_state a) eqn:Hs; [by left; auto| |by right|by right].
      destruct Hw' as [(_ & ? & _)|[_ ?]]; [by left; auto|by right]. }
    + exists a. split_and!; [done..| |done]. destruct Hs as [-> | ->]; constructor.
    + apply Hgone in Hg as (a' & Ha' & Hb' & Hs' & Hc); [|done]. exists a'.
      split_and!; [done..| |by apply locatable_same]. destruct Hs' as [-> | ->]; by constructor.
  - destruct e as [|? []| | | | | | | |]; try done. cbn [handle_event].
    eapply wp_mono; [by apply stop_spec|]. intros r w' (_ & a' & Ha' & Hs & Hp & Hsl & _ & Hc).
    exists a'. unfold bus_inv. rewrite Hs, Hsl. split_and!; [done..|constructor|by apply locatable_same].
  - pose proof (other_keeps e Hl) as Hk. eapply wp_mono; [eapply wp_steps; [exact Hk|exact Hok]|].
    intros r w' [(a' & Ha' & _) Hag]. destruct (Hag a' Ha') as (a0 & Ha0 & Hc).
    assert (a0 = a) as -> by congruence. unfold link_of in Hc. exists a'. split; [done|].
    assert (ag_peer_dbus a' = ag_peer_dbus a /\ ag_register_call_slot a' = ag_register_call_slot a /\
            ag_connection_state a' = ag_connection_state a /\
            target_of a' = target_of a) as (E1 & E2 & E3 & E4)
      by intuition congruence.
    unfold bus_inv. rewrite E1, E2, E3. split_and!; [apply Hb..|constructor|by apply locatable_same].
Qed.
End connection.
