(* ===== verification/AgentSample.v ===== *)
(** A small concrete agent, on which the theorems about the agent are instantiated:
    every call succeeds and the clocks advance by a second per reading. *)
From S2P Require Import Prelude CString StringUtil ParseUtil TimeUtil Protocol BusUtils Log Cfg.
From S2P Require Import Socket BusProps World AgentWorld AgentRequests AgentUnits AgentProxy.
From S2P Require Import Agent AgentEvents AgentFacts AgentSafe.

#[export] Instance SampleAgentEnv : AgentEnv := {|
  malloc_result := fun _ => true;
  message_result := fun _ => 0;
  acall_result := fun _ _ => 0;
  realtime := fun n => Some (mkTimespec (1000 + Z.of_nat n) 0);
  monotonic := fun n => Some (mkTimespec (Z.of_nat n) 0);
  getaddrinfo := fun _ _ => ResolveErr (-2);
|}.
#[export] Instance SampleAgentLaws : AgentEnvLaws SampleAgentEnv.
Proof. by split. Defined.

(** A notation for addresses: the family, the sign and the binary digits. *)
Fixpoint show_digits (p : positive) : string :=
  match p with
  | xH => ""
  | xO p => String "0" (show_digits p)
  | xI p => String "1" (show_digits p)
  end.
Fixpoint read_digits (s : string) : option positive :=
  match s with
  | EmptyString => Some xH
  | String c s =>
      if Ascii.eqb c "0" then xO <$> read_digits s
      else if Ascii.eqb c "1" then xI <$> read_digits s else None
  end.
Lemma read_show p : read_digits (show_digits p) = Some p.
Proof. induction p as [p IH|p IH|]; cbn; by rewrite ?IH. Qed.

Definition show_address (family : ascii) (a : Z) : string :=
  String family (match a with
                 | Z0 => "z"
                 | Zpos p => String "+" (show_digits p)
                 | Zneg p => String "-" (show_digits p)
                 end).
Definition read_address (family : ascii) (s : string) : option Z :=
  match s with
  | String f s =>
      if negb (Ascii.eqb f family) then None else
      match s with
      | String c s =>
          if Ascii.eqb c "z" then Some Z0
          else if Ascii.eqb c "+" then Zpos <$> read_digits s
          else if Ascii.eqb c "-" then Zneg <$> read_digits s else None
      | EmptyString => None
      end
  | EmptyString => None
  end.

#[export] Instance SampleNetwork : Network := {|
  inet_pton4 := read_address "4";
  inet_pton6 := read_address "6";
  inet_ntop4 := show_address "4";
  inet_ntop6 := show_address "6";
|}.
#[export] Instance SampleNetworkLaws : NetworkLaws SampleNetwork.
Proof.
  split.
  - intros [|p|p]; cbn; by rewrite ?read_show.
  - intros [|p|p]; cbn; by rewrite ?read_show.
  - intros [|f s]; cbn; [done|]. destruct (Ascii.eqb_spec f "4") as [->|]; done.
Defined.

(** An agent with a name and the address of its controller. *)
Definition sample_agent : Agent :=
  (new_agent (mkConfig ∅ "bluechi-agent") (mkSocketOptions 0 0 0 false))
    <| ag_name := Some "laptop" |> <| ag_controller_address := Some "unix:path=/run/bluechi" |>.
Definition sample_log : BcLogConfig := mkBcLogConfig None LOG_LEVEL_INFO false.
Definition sample_units : list listed_unit :=
  [mkListedUnit "a.service" "active" "running" "/org/freedesktop/systemd1/unit/a_2eservice"].
Lemma sample_units_listed : Forall (fun u => lu_object_path u = unit_path (lu_name u)) sample_units.
Proof. by repeat constructor. Defined.

(** One event of every kind. *)
Definition sample_events : list agent_event :=
  [EvRegistered (MethodReturn 1) 0;
   EvController 2 (Subscribe (ReadOk "a.service"));
   EvController 3 (StartUnit (ReadOk ("b.service", "replace", 7)));
   EvHeartbeat; EvTimer 0;
   EvSignal (UnitNew (ReadOk ("b.service", "/org/freedesktop/systemd1/unit/b_2eservice")));
   EvSignal (UnitRemoved (ReadOk ("a.service", "/org/freedesktop/systemd1/unit/a_2eservice")));
   EvClient 4 (CreateProxy (ReadOk ("bluechi-proxy@x.service", "pi", "x.service")));
   EvDisconnected].

(** The state in which [m] ends. *)
Definition reached {A} (m : AM A) (w : AgentWorld) : AgentWorld :=
  match m w with Ret _ w' => w' | Crash _ => w end.
Lemma reached_ok {A} (m : AM A) w : wp m (fun _ w' => agent_ok w') w -> agent_ok (reached m w).
Proof. unfold wp, reached. by destruct (m w). Qed.

(** The agent that has lost its controller. *)
Definition sample_retry : AgentWorld :=
  initial_world (sample_agent <| ag_connection_state := AGENT_CONNECTION_STATE_RETRY |>) sample_log.
