(* ===== verification/AgentAddress.v ===== *)
(** The address the agent connects to: where it comes from, and that a lost
    connection makes the agent find it afresh. *)
From S2P Require Import Prelude CString StringUtil ParseUtil TimeUtil Protocol BusUtils Log Cfg.
From S2P Require Import Socket BusProps World AgentWorld AgentRequests AgentUnits AgentProxy.
From S2P Require Import Agent AgentEvents WorldFacts AgentFacts AgentSafe AgentSteps AgentProxySteps.
From S2P Require Import AgentRuns AgentTheorems AgentConnection AgentSample.

Local Open Scope list_scope.

Section address.
Context {E : AgentEnv} {N : Network} {L : AgentEnvLaws E} {NL : NetworkLaws N}.

(** The address an agent has from its settings: the controller's D-Bus address if
    one is set, else the TCP endpoint of the host, which is an address or a name. *)
Definition resolved_address (a : Agent) (resolve : string -> resolution) : option string :=
  match ag_controller_address a, ag_host a with
  | Some address, _ => Some address
  | None, None => None
  | None, Some host =>
      match inet_pton4 host, inet_pton6 host with
      | Some ip, _ => Some (tcp_address (Some (inet_ntop4 ip)) (in_port a))
      | None, Some ip => Some (tcp_address (Some (inet_ntop6 ip)) (in_port a))
      | None, None =>
          match resolve host with
          | Resolved4 ip => Some (tcp_address (Some (inet_ntop4 ip)) (in_port a))
          | Resolved6 ip => Some (tcp_address (Some (inet_ntop6 ip)) (in_port a))
          | _ => None
          end
      end
  end.

Lemma set_some_spec s a (Q : bool -> AgentWorld -> Prop) w :
  aw_agent w = Some a -> Q true (set_agent (with_address (Some s) a) (mtick w)) ->
  wp (set_assembled (Some s)) Q w.
Proof.
  intros Ha HQ. unfold set_assembled. apply wp_bind. eapply wp_copy_str; [done|]. by apply wp_ret.
Qed.

Definition assembled_as (a : Agent) (x : option string) (ok : bool) (w : AgentWorld) : Prop :=
  aw_agent w = Some (with_address x a) /\ ok = bool_decide (x <> None).

(** The last part of [ensure_assembled_controller_address]: the address [x] has been set. *)
Lemma assembled_end a s w :
  aw_agent w = Some (with_address (Some s) a) ->
  wp (a ← the_agent; mret (bool_decide (ag_assembled_controller_address a <> None)))
    (assembled_as a (Some s)) w.
Proof. intros Ha. awp_go. by split. Qed.

Lemma ensure_address_exact a w :
  aw_agent w = Some a -> ag_assembled_controller_address a = None ->
  wp ensure_assembled_controller_address
    (assembled_as a (resolved_address a (getaddrinfo (aw_resolutions w)))) w.
Proof.
  intros Ha Hn. unfold ensure_assembled_controller_address, resolved_address.
  assert (with_address None a = a) as Hsame by (destruct a; cbn in *; by subst).
  assert (forall w', aw_agent w' = Some a -> assembled_as a None false w') as Hnone
    by (intros w' Hw'; split; [by rewrite Hsame|done]).
  apply wp_bind. eapply wp_the_agent; [done|]. rewrite Hn.
  destruct (ag_controller_address a) as [s|]; [by eapply wp_copy_str|].
  destruct (ag_host a) as [h|]; [|apply wp_ret; by apply Hnone].
  assert (forall w' (f : bool -> bool -> option string) s, aw_agent w' = Some a ->
    f true true = Some s ->
    wp (set ← (ok1 ← amalloc; ok2 ← amalloc; set_assembled (f ok1 ok2));
        if negb set then mret false else
        a ← the_agent; mret (bool_decide (ag_assembled_controller_address a <> None)))
      (assembled_as a (Some s)) w') as Hset.
  { intros w' f s Hw' Hf. awp_go. rewrite !malloc_succeeds, Hf. eapply set_some_spec; [done|].
    cbn [negb]. by apply assembled_end. }
  unfold is_ipv4, is_ipv6. destruct (inet_pton4 h) as [ip|] eqn:H4; cbn [negb andb orb].
  { apply wp_bind, wp_ret. cbn [default from_option id]. rewrite H4. by eapply Hset. }
  destruct (inet_pton6 h) as [ip|] eqn:H6; cbn [negb andb orb].
  { apply wp_bind, wp_ret. cbn [default from_option id]. rewrite H4, H6. by eapply Hset. }
  apply wp_bind, wp_bind. unfold resolve_host at 1, wp at 1, get_address, is_ipv4, is_ipv6.
  rewrite H4, H6, malloc_succeeds. cbn [orb].
  set (w1 := w <| aw_mallocs ::= S |> <| aw_resolutions ::= S |>).
  destruct (getaddrinfo (aw_resolutions w) h) as [st|ip|ip|fam];
    cbn [typesafe_inet_ntop4 typesafe_inet_ntop6 fst snd]; apply wp_ret.
  - destruct (st <? 0); [apply wp_ret; by apply Hnone|]. awp_go. cbn [negb]. apply wp_bind.
    eapply wp_the_agent; [done|]. rewrite Hn. by apply wp_ret, Hnone.
  - cbn [Z.ltb Z.compare default from_option id]. rewrite pton_ntop4. by eapply Hset.
  - assert (inet_pton4 (inet_ntop6 ip) = None) as Hno.
    { destruct (inet_pton4 (inet_ntop6 ip)) eqn:Hp; [|done].
      pose proof (pton_disjoint (inet_ntop6 ip)) as Hd. rewrite Hp, pton_ntop6 in Hd.
      by specialize (Hd ltac:(done)). }
    cbn [Z.ltb Z.compare default from_option id]. rewrite Hno, pton_ntop6. by eapply Hset.
  - by apply wp_ret, Hnone.
Qed.

(** The settings give an address as soon as every answer of the resolver does. *)
Lemma resolved_locatable a : (forall n, resolved_address a (getaddrinfo n) <> None) -> locatable a.
Proof.
  intros Hr a' w Ha Hn Ht. eapply wp_mono; [by apply ensure_address_exact|]. intros ok w' [_ ->].
  apply bool_decide_eq_true. specialize (Hr (aw_resolutions w)). injection Ht as Hc Hh.
  unfold resolved_address in *. rewrite Hc, Hh. by repeat case_match.
Qed.

(** ** After a lost connection *)

Lemma pwp_last {A} R (m : AM A) (Q : A -> AgentWorld -> Prop) w :
  steps R m -> (forall a w', R w w' -> Q a w') -> pwp m Q w.
Proof. intros Hm HQ. specialize (Hm w). unfold pwp. destruct (m w); [by apply HQ|done]. Qed.

Lemma connect_calls a w :
  aw_agent w = Some a ->
  pwp agent_connect (fun _ w' => exists l, aw_trace w' = aw_trace w ++
    PeerOpen (default "" (ag_assembled_controller_address a)) :: l) w.
Proof.
  intros Ha. assert (forall c, steps (emits (fun _ => True)) (abus c)) by (intros c; by apply emits_abus).
  apply pwp_bind. intros [] w1 H1. unfold set_state, upd_agent, the_agent, deref, mbind, M_bind in H1.
  rewrite Ha in H1. injection H1 as <-.
  apply pwp_bind. intros a1 w1 H1. injection H1 as <- <-. cbn [ag_assembled_controller_address].
  apply pwp_bind. intros b w2 H2. unfold peer_bus_open, mbind, M_bind, abus in H2.
  assert (aw_trace w2 = aw_trace w ++ [PeerOpen (default "" (ag_assembled_controller_address a))])
    as Ht by (destruct (_ <? 0); by injection H2 as <- <-).
  eapply (pwp_last (emits (fun _ => True))); [steps_tac|]. intros r w3 (l & Hl & _). exists l.
  by rewrite Hl, Ht, <- app_assoc.
Qed.

Lemma reconnect_exact a w :
  aw_agent w = Some a ->
  wp agent_reconnect (fun _ w' => exists a', aw_agent w' = Some a' /\
    let address := resolved_address a (getaddrinfo (aw_resolutions w)) in
    ag_assembled_controller_address a' = address /\
    match address with
    | Some s => ag_connection_state a' = CONNECTING /\ PeerOpen s ∈ aw_trace w'
    | None => ag_connection_state a' = ag_connection_state a
    end) w.
Proof.
  intros Ha. unfold agent_reconnect. apply wp_bind. eapply wp_the_agent; [done|]. cbn beta zeta.
  apply wp_bind. eapply wp_upd_agent; [done|]. cbn beta.
  set (a1 := a <| ag_assembled_controller_address := None |>).
  set (address := resolved_address a (getaddrinfo (aw_resolutions w))).
  apply wp_bind. eapply wp_mono; [by apply (ensure_address_exact a1)|].
  change (resolved_address a1 (getaddrinfo (aw_resolutions (set_agent a1 w)))) with address.
  intros ok w1 [Ha1 ->]. destruct address as [s|]; cbn [negb].
  2:{ apply wp_ret. by eexists. }
  apply wp_bind. eapply wp_the_agent; [done|]. apply wp_bind.
  eapply (wp_mono _ (fun _ w' => aw_agent w' = Some (with_address (Some s) a1))).
  { unfold emit_agent_property. repeat case_match; by awp_go. }
  intros [] w2 Ha2. apply wp_bind. eapply wp_mono; [by apply peer_bus_close_spec|].
  intros [] w3 Ha3. eapply wp_mono; [apply wp_pwp; [by apply connect_spec|by apply connect_calls]|].
  intros ok w4 [(b & Ha4 & _) (l & Hl)]. eexists. split; [exact Ha4|]. split_and!; [done|done|].
  rewrite Hl. apply elem_of_app. right. by left.
Qed.

(** When the connection is lost the agent finds the controller's address afresh
    from its settings (its D-Bus address, else its host and port) and connects
    there; without such an address it waits. Whatever address it was connected to
    before, a command line address included, is forgotten. *)
Theorem agent_reconnect_address a w :
  aw_agent w = Some a ->
  wp agent_disconnected (fun _ w' => exists a', aw_agent w' = Some a' /\
    let address := resolved_address a (getaddrinfo (aw_resolutions w)) in
    ag_assembled_controller_address a' = address /\
    match address with
    | Some s => ag_connection_state a' = CONNECTING /\ PeerOpen s ∈ aw_trace w'
    | None => ag_connection_state a' = RETRY
    end) w.
Proof.
  intros Ha. unfold agent_disconnected, set_state, emit_agent_property. awp_go.
  apply wp_time; [apply realtime_works|]. intros t _. awp_go. eapply wp_upd_agent; [done|]. awp_go.
  apply wp_time; [apply monotonic_works|]. intros u _. awp_go. eapply wp_upd_agent; [done|]. awp_go.
  eapply wp_mono; [by apply reconnect_exact|]. intros ok w1 (a1 & Ha1 & Hx & Hs). apply wp_ret.
  by exists a1.
Qed.
End address.

(** The agent was connected to an address that its settings do not mention. *)
Lemma agent_reconnect_address_witness :
  let a := sample_agent <| ag_controller_address := None |> <| ag_host := Some (show_address "4" 5) |>
             <| ag_port := 842 |> <| ag_assembled_controller_address := Some "unix:path=/cli" |> in
  wp agent_disconnected (fun _ w' => exists a', aw_agent w' = Some a' /\
    let address := resolved_address a (fun _ => ResolveErr (-2)) in
    ag_assembled_controller_address a' = address /\
    match address with
    | Some s => ag_connection_state a' = CONNECTING /\ PeerOpen s ∈ aw_trace w'
    | None => ag_connection_state a' = RETRY
    end) (initial_world a sample_log) /\
  resolved_address a (fun _ => ResolveErr (-2)) = Some "tcp:host=4+10,port=842"%string.
Proof. intros a. split; [exact (agent_reconnect_address a (initial_world a sample_log) eq_refl)|reflexivity]. Defined.
