(* ===== verification/AgentExec.v ===== *)
(** Symbolic execution of the agent for runs in which the calls succeed: the objects
    of the process are tracked exactly, one rule per operation. *)
From S2P Require Import Prelude CString StringUtil ParseUtil TimeUtil Protocol BusUtils Log Cfg.
From S2P Require Import Socket BusProps World AgentWorld AgentRequests AgentUnits AgentProxy.
From S2P Require Import Agent AgentEvents WorldFacts AgentFacts AgentSafe AgentSteps AgentProxySteps.
From S2P Require Import AgentRuns AgentTheorems AgentConnection.

Local Open Scope list_scope.

Section exec.
Context {E : AgentEnv} {N : Network} {L : AgentEnvLaws E}.

Definition messages_succeed : Prop := forall n, 0 <= message_result n.

(** The objects of the process. *)
Definition heap_is (a : Agent) (reqs : gmap ptr SystemdRequest) (ops : gmap ptr AgentJobOp)
    (ts : gmap ptr JobTracker) (ps : gmap ptr ProxyService) (next : ptr) (tr : list acall)
    (w : AgentWorld) : Prop :=
  aw_agent w = Some a /\ aw_reqs w = reqs /\ aw_ops w = ops /\ aw_trackers w = ts /\
  aw_proxies w = ps /\ aw_next_ptr w = next /\ aw_trace w = tr.

Lemma wp_tail {A} (m : AM A) Q w : wp (m ≫= mret) Q w -> wp m Q w.
Proof. unfold wp, mbind, M_bind. by destruct (m w). Qed.

(** Symbolic execution: one rule per operation, for runs in which the calls succeed. *)
Section rules.
Context {a : Agent} {reqs : gmap ptr SystemdRequest} {ops : gmap ptr AgentJobOp}
  {ts : gmap ptr JobTracker} {ps : gmap ptr ProxyService} {next : ptr} {tr : list acall}
  {w : AgentWorld}.
Context (H : heap_is a reqs ops ts ps next tr w).

Lemma hs_malloc {B} (k : bool -> AM B) Q :
  (forall w, heap_is a reqs ops ts ps next tr w -> wp (k true) Q w) -> wp (amalloc ≫= k) Q w.
Proof. intros Hk. apply wp_bind. apply wp_amalloc. rewrite malloc_succeeds. apply Hk. apply H. Qed.
Lemma hs_message {B} (k : Z -> AM B) Q :
  messages_succeed -> (forall r w, 0 <= r -> heap_is a reqs ops ts ps next tr w -> wp (k r) Q w) ->
  wp (amessage ≫= k) Q w.
Proof. intros Hm Hk. apply wp_bind. apply wp_amessage. apply Hk; [apply Hm|apply H]. Qed.
Lemma hs_bus {B} c (k : Z -> AM B) Q :
  calls_succeed ->
  (forall r w, 0 <= r -> heap_is a reqs ops ts ps next (tr ++ [c]) w -> wp (k r) Q w) ->
  wp (abus c ≫= k) Q w.
Proof.
  intros Hc Hk. apply wp_bind. apply wp_abus. apply Hk; [apply Hc|].
  destruct H as (? & ? & ? & ? & ? & ? & Ht). split_and!; try done. cbn. by rewrite Ht.
Qed.
Lemma hs_time {B} clock (k : Z -> AM B) Q :
  (forall n, clock n <> None) ->
  (forall t w, heap_is a reqs ops ts ps next tr w -> wp (k t) Q w) -> wp (agent_time clock ≫= k) Q w.
Proof. intros Hc Hk. apply wp_bind, wp_time; [done|]. intros t _. apply Hk, H. Qed.
Lemma hs_agent {B} (k : Agent -> AM B) Q : wp (k a) Q w -> wp (the_agent ≫= k) Q w.
Proof. intros Hk. apply wp_bind. eapply wp_the_agent; [apply H|done]. Qed.
Lemma hs_upd_agent {B} f (k : void -> AM B) Q :
  (forall w, heap_is (f a) reqs ops ts ps next tr w -> wp (k tt) Q w) -> wp (upd_agent f ≫= k) Q w.
Proof.
  intros Hk. apply wp_bind. eapply wp_upd_agent; [apply H|]. apply Hk.
  destruct H as (? & ? & ? & ? & ? & ? & ?). by split_and!.
Qed.
Lemma hs_assert {B} b (k : void -> AM B) Q : b = true -> wp (k tt) Q w -> wp (c_assert b ≫= k) Q w.
Proof. intros Hb Hk. by apply wp_bind, wp_assert. Qed.

Lemma hs_unlist {B} p l (k : list ptr -> AM B) Q :
  p ∈ l -> wp (k (remove_first p l)) Q w -> wp (alist_remove_from p l ≫= k) Q w.
Proof. intros Hp Hk. by apply wp_bind, wp_alist_remove. Qed.

Lemma hs_load_req {B} p q (k : SystemdRequest -> AM B) Q :
  reqs !! p = Some q -> wp (k q) Q w -> wp (aload (T := SystemdRequest) p ≫= k) Q w.
Proof. intros Hp Hk. apply wp_bind. eapply wp_aload; [|done]. destruct H as (_ & Hr & _). cbn. by rewrite Hr. Qed.
Lemma hs_upd_req {B} p q f (k : void -> AM B) Q :
  reqs !! p = Some q ->
  (forall w, heap_is a (<[p := f q]> reqs) ops ts ps next tr w -> wp (k tt) Q w) ->
  wp (aupdate (T := SystemdRequest) p f ≫= k) Q w.
Proof.
  intros Hp Hk. destruct H as (? & Hr & ? & ? & ? & ? & ?). apply wp_bind.
  eapply wp_aupdate; [cbn; by rewrite Hr|]. apply Hk. split_and!; try done. cbn. by rewrite Hr.
Qed.
Lemma hs_new_req {B} q (k : ptr -> AM B) Q :
  (forall w, heap_is a (<[next := q]> reqs) ops ts ps (Pos.succ next) tr w -> wp (k next) Q w) ->
  wp (anew (T := SystemdRequest) q ≫= k) Q w.
Proof.
  intros Hk. destruct H as (? & Hr & ? & ? & ? & Hn & ?). apply wp_bind, wp_anew. rewrite Hn.
  apply Hk. split_and!; try done; cbn; by rewrite ?Hr, ?Hn.
Qed.
Lemma hs_free_req p q (Q : void -> AgentWorld -> Prop) :
  reqs !! p = Some q -> (forall w, heap_is a (delete p reqs) ops ts ps next tr w -> Q tt w) ->
  wp (afree (T := SystemdRequest) p) Q w.
Proof.
  intros Hp Hk. destruct H as (? & Hr & ? & ? & ? & ? & ?).
  eapply wp_afree; [cbn; by rewrite Hr|]. apply Hk. split_and!; try done. cbn. by rewrite Hr.
Qed.

Lemma hs_load_op {B} p q (k : AgentJobOp -> AM B) Q :
  ops !! p = Some q -> wp (k q) Q w -> wp (aload (T := AgentJobOp) p ≫= k) Q w.
Proof. intros Hp Hk. apply wp_bind. eapply wp_aload; [|done]. destruct H as (_ & _ & Hr & _). cbn. by rewrite Hr. Qed.
Lemma hs_upd_op {B} p q f (k : void -> AM B) Q :
  ops !! p = Some q ->
  (forall w, heap_is a reqs (<[p := f q]> ops) ts ps next tr w -> wp (k tt) Q w) ->
  wp (aupdate (T := AgentJobOp) p f ≫= k) Q w.
Proof.
  intros Hp Hk. destruct H as (? & ? & Hr & ? & ? & ? & ?). apply wp_bind.
  eapply wp_aupdate; [cbn; by rewrite Hr|]. apply Hk. split_and!; try done. cbn. by rewrite Hr.
Qed.
Lemma hs_new_op {B} q (k : ptr -> AM B) Q :
  (forall w, heap_is a reqs (<[next := q]> ops) ts ps (Pos.succ next) tr w -> wp (k next) Q w) ->
  wp (anew (T := AgentJobOp) q ≫= k) Q w.
Proof.
  intros Hk. destruct H as (? & ? & Hr & ? & ? & Hn & ?). apply wp_bind, wp_anew. rewrite Hn.
  apply Hk. split_and!; try done; cbn; by rewrite ?Hr, ?Hn.
Qed.
Lemma hs_free_op p q (Q : void -> AgentWorld -> Prop) :
  ops !! p = Some q -> (forall w, heap_is a reqs (delete p ops) ts ps next tr w -> Q tt w) ->
  wp (afree (T := AgentJobOp) p) Q w.
Proof.
  intros Hp Hk. destruct H as (? & ? & Hr & ? & ? & ? & ?).
  eapply wp_afree; [cbn; by rewrite Hr|]. apply Hk. split_and!; try done. cbn. by rewrite Hr.
Qed.

Lemma hs_load_px {B} p q (k : ProxyService -> AM B) Q :
  ps !! p = Some q -> wp (k q) Q w -> wp (aload (T := ProxyService) p ≫= k) Q w.
Proof.
  intros Hp Hk. apply wp_bind. eapply wp_aload; [|done]. destruct H as (_ & _ & _ & _ & Hr & _). cbn.
  by rewrite Hr.
Qed.
Lemma hs_upd_px {B} p q f (k : void -> AM B) Q :
  ps !! p = Some q ->
  (forall w, heap_is a reqs ops ts (<[p := f q]> ps) next tr w -> wp (k tt) Q w) ->
  wp (aupdate (T := ProxyService) p f ≫= k) Q w.
Proof.
  intros Hp Hk. destruct H as (? & ? & ? & ? & Hr & ? & ?). apply wp_bind.
  eapply wp_aupdate; [cbn; by rewrite Hr|]. apply Hk. split_and!; try done. cbn. by rewrite Hr.
Qed.
Lemma hs_free_px p q (Q : void -> AgentWorld -> Prop) :
  ps !! p = Some q -> (forall w, heap_is a reqs ops ts (delete p ps) next tr w -> Q tt w) ->
  wp (afree (T := ProxyService) p) Q w.
Proof.
  intros Hp Hk. destruct H as (? & ? & ? & ? & Hr & ? & ?).
  eapply wp_afree; [cbn; by rewrite Hr|]. apply Hk. split_and!; try done. cbn. by rewrite Hr.
Qed.

Lemma hs_load_tracker {B} p q (k : JobTracker -> AM B) Q :
  ts !! p = Some q -> wp (k q) Q w -> wp (aload (T := JobTracker) p ≫= k) Q w.
Proof.
  intros Hp Hk. apply wp_bind. eapply wp_aload; [|done]. destruct H as (_ & _ & _ & Hr & _). cbn.
  by rewrite Hr.
Qed.
Lemma hs_new_tracker {B} q (k : ptr -> AM B) Q :
  (forall w, heap_is a reqs ops (<[next := q]> ts) ps (Pos.succ next) tr w -> wp (k next) Q w) ->
  wp (anew (T := JobTracker) q ≫= k) Q w.
Proof.
  intros Hk. destruct H as (? & ? & ? & Hr & ? & Hn & ?). apply wp_bind, wp_anew. rewrite Hn.
  apply Hk. split_and!; try done; cbn; by rewrite ?Hr, ?Hn.
Qed.
Lemma hs_free_tracker p q (Q : void -> AgentWorld -> Prop) :
  ts !! p = Some q -> (forall w, heap_is a reqs ops (delete p ts) ps next tr w -> Q tt w) ->
  wp (afree (T := JobTracker) p) Q w.
Proof.
  intros Hp Hk. destruct H as (? & ? & ? & Hr & ? & ? & ?).
  eapply wp_afree; [cbn; by rewrite Hr|]. apply Hk. split_and!; try done. cbn. by rewrite Hr.
Qed.
End rules.

Lemma hs_peer {B} c a reqs ops ts ps next tr w (k : Z -> AM B) Q :
  heap_is a reqs ops ts ps next tr w ->
  (forall r w, heap_is a reqs ops ts ps next
     (tr ++ match ag_peer_dbus a with Some b => [c b] | None => [] end) w -> wp (k r) Q w) ->
  wp (peer c ≫= k) Q w.
Proof.
  intros H Hk. apply wp_bind. unfold peer. eapply (hs_agent H).
  destruct (ag_peer_dbus a) as [b|]; [|apply wp_ret, Hk; by rewrite app_nil_r].
  apply wp_abus, Hk. destruct H as (? & ? & ? & ? & ? & ? & Ht). split_and!; try done. cbn. by rewrite Ht.
Qed.


Lemma hs_unit_path {B} unit a reqs ops ts ps next tr w (k : option string -> AM B) Q :
  heap_is a reqs ops ts ps next tr w ->
  (forall w, heap_is a reqs ops ts ps next tr w -> wp (k (Some (unit_path unit))) Q w) ->
  wp (make_unit_path unit ≫= k) Q w.
Proof.
  intros H Hk. apply wp_bind. eapply wp_mono.
  { eapply wp_steps; [|apply make_unit_path_spec]. instantiate (1 := emits (fun _ => False)). steps_tac. }
  intros r w1 [[-> (? & ? & ? & ? & ? & ?)] (l & Hl & Hno)]. apply Hk.
  assert (l = []) as -> by (destruct l; [done|by inversion Hno]). rewrite app_nil_r in Hl.
  destruct H as (? & ? & ? & ? & ? & ? & ?). split_and!; congruence.
Qed.

Lemma hs_ensure {B} unit a reqs ops ts ps next tr w (k : option AgentUnitInfo -> AM B) Q :
  heap_is a reqs ops ts ps next tr w ->
  (forall w, heap_is (with_units (<[unit_path unit := ensured unit a]> (ag_unit_infos a)) a)
     reqs ops ts ps next tr w -> wp (k (Some (ensured unit a))) Q w) ->
  wp (agent_ensure_unit_info unit ≫= k) Q w.
Proof.
  intros H Hk. apply wp_bind. eapply wp_mono.
  { eapply wp_steps; [|apply ensure_unit_info_spec; apply H].
    instantiate (1 := emits (fun _ => False)). steps_tac. }
  intros r w1 [[-> (? & ? & ? & ? & ? & ?)] (l & Hl & Hno)]. apply Hk.
  assert (l = []) as -> by (destruct l; [done|by inversion Hno]). rewrite app_nil_r in Hl.
  destruct H as (? & ? & ? & ? & ? & ? & ?). cbn in *. split_and!; congruence.
Qed.
End exec.

(** Decide a branch: by evaluation, or, for reference counts, by arithmetic. *)
Ltac hs_false b :=
  let H := fresh in
  assert (b = false) as H by (apply Z.eqb_neq; cbn -[Z.succ Z.pred Z.add]; lia);
  rewrite H; clear H.
Ltac hs_branch x :=
  lazymatch x with
  | forwards _ _ => fail
  | ui_subscribed _ => fail
  | negb (ui_subscribed _) => fail
  | ui_loaded _ => fail
  | negb (bool_decide _) => fail
  | _ !! _ => fail
  | _ => idtac
  end;
  first [ let x' := eval cbv in x in
          lazymatch x' with
          | true => idtac | false => idtac | Some _ => idtac | None => idtac
          | _ :: _ => idtac | [] => idtac
          end; change x with x'
        | lazymatch x with negb ?b => hs_false b end
        | hs_false x ].

(** Run the program up to the next choice. *)
Ltac hs_map := solve [by rewrite ?lookup_insert_eq | eassumption].
Ltac hs_step :=
  lazymatch goal with
  | H : heap_is _ _ _ _ _ _ _ ?w |- wp (?m ≫= _) _ ?w =>
    lazymatch m with
    | mret _ => apply wp_bind, wp_ret
    | _ ≫= _ => apply wp_bind
    | amalloc => eapply (hs_malloc H); clear dependent w; intros w H
    | amessage => eapply (hs_message H); [assumption|]; clear dependent w; intros ? w ? H
    | abus _ => eapply (hs_bus H); [assumption|]; clear dependent w; intros ? w ? H
    | return_to _ _ => unfold return_to
    | error_to _ _ => unfold error_to
    | aget_time_micros => eapply (hs_time H); [apply realtime_works|]; clear dependent w; intros ? w H
    | the_agent => eapply (hs_agent H)
    | upd_agent _ => eapply (hs_upd_agent H); clear dependent w; intros w H
    | aload (T := SystemdRequest) _ => eapply (hs_load_req H); [hs_map|]
    | aload (T := AgentJobOp) _ => eapply (hs_load_op H); [hs_map|]
    | aload (T := JobTracker) _ => eapply (hs_load_tracker H); [hs_map|]
    | aupdate (T := SystemdRequest) _ _ => eapply (hs_upd_req H); [hs_map|]; clear dependent w; intros w H
    | aload (T := ProxyService) _ => eapply (hs_load_px H); [hs_map|]
    | aupdate (T := ProxyService) _ _ => eapply (hs_upd_px H); [hs_map|]; clear dependent w; intros w H
    | aupdate (T := AgentJobOp) _ _ => eapply (hs_upd_op H); [hs_map|]; clear dependent w; intros w H
    | anew (T := SystemdRequest) _ => eapply (hs_new_req H); clear dependent w; intros w H
    | anew (T := AgentJobOp) _ => eapply (hs_new_op H); clear dependent w; intros w H
    | anew (T := JobTracker) _ => eapply (hs_new_tracker H); clear dependent w; intros w H
    | agent_job_done _ _ => fail
    | agent_ensure_unit_info _ => eapply hs_ensure; [exact H|]; clear dependent w; intros w H
    | make_unit_path _ => eapply hs_unit_path; [exact H|]; clear dependent w; intros w H
    | peer _ => eapply hs_peer; [exact H|]; clear dependent w; intros ? w H
    | alist_remove_from _ _ => eapply hs_unlist; [assumption|]
    | c_assert _ => eapply hs_assert; [apply Z.ltb_lt; cbn -[Z.succ Z.pred Z.add]; lia|]
    | if ?r <? 0 then _ else _ => rewrite (proj2 (Z.ltb_ge r 0)) by assumption
    | match ?x with _ => _ end => hs_branch x
    | _ => let h := head_of m in unfold h
    end
  | H : heap_is _ _ _ _ _ _ _ ?w |- wp ?m _ ?w =>
    lazymatch m with
    | mret _ => apply wp_ret
    | if ?r <? 0 then _ else _ => rewrite (proj2 (Z.ltb_ge r 0)) by assumption
    | match ?x with _ => _ end => hs_branch x
    | afree (T := SystemdRequest) _ => eapply (hs_free_req H); [hs_map|]; clear dependent w; intros w H
    | afree (T := ProxyService) _ => eapply (hs_free_px H); [hs_map|]; clear dependent w; intros w H
    | afree (T := AgentJobOp) _ => eapply (hs_free_op H); [hs_map|]; clear dependent w; intros w H
    | afree (T := JobTracker) _ => eapply (hs_free_tracker H); [hs_map|]; clear dependent w; intros w H
    | upd_agent _ => apply wp_tail
    | peer _ => apply wp_tail
    | aget_time_micros => apply wp_tail
    | aget_time_micros_monotonic => apply wp_tail
    | aupdate _ _ => apply wp_tail
    | anew _ => apply wp_tail
    | aload _ => apply wp_tail
    | abus _ => apply wp_tail
    | amalloc => apply wp_tail
    | amessage => apply wp_tail
    | _ => let h := head_of m in unfold h
    end
  end.
Ltac hs := repeat (cbn beta iota delta [negb]; hs_step).
