(* ===== verification/AgentLifeTheorems.v ===== *)
(** The life of the agent: it leaks nothing and fails at one assertion only, its
    connection follows the abstract machine, a controller that answers gets it back, heartbeats, and
    the types of its signals. *)
From S2P Require Import Prelude CString StringUtil ParseUtil TimeUtil Protocol BusUtils Log Cfg.
From S2P Require Import Socket BusProps World AgentWorld AgentRequests AgentUnits AgentProxy.
From S2P Require Import Agent AgentEvents WorldFacts AgentFacts AgentSafe AgentSteps AgentProxySteps.
From S2P Require Import AgentRuns AgentTheorems AgentConnection AgentSample AgentAddress.

Local Open Scope list_scope.

(** An agent as [agent_new] and the setters make it. *)
Definition fresh (a : Agent) : Prop :=
  ag_ref_count a = 1 /\ ag_outstanding_requests a = [] /\ ag_tracked_jobs a = [] /\
  ag_proxy_services a = [] /\ ag_unit_infos a = ∅.

Section life.
Context {E : AgentEnv} {N : Network} {L : AgentEnvLaws E}.

Lemma initial_ok a log : fresh a -> agent_ok (initial_world a log).
Proof.
  intros (H1 & H2 & H3 & H4 & H5). exists a. split; [done|]. split; cbn; rewrite ?H2, ?H3, ?H4, ?H5.
  - split; [constructor| | |]; try done. intros p. rewrite lookup_empty. split; [set_solver|by intros []].
  - by split.
  - split; [constructor|]. intros p. rewrite lookup_empty. split; [set_solver|by intros []].
  - split; [constructor|set_solver|done].
  - done.
  - by rewrite H1.
  - by intros p _.
Qed.

(** Nothing but the agent itself is left when no request and no job is pending. *)
Lemma released a w :
  agent_ok w -> aw_agent w = Some a -> ag_proxy_services a = [] ->
  aw_proxies w = ∅ /\
  (aw_reqs w = ∅ -> aw_trackers w = ∅ -> aw_ops w = ∅ /\
   wp agent_unref (fun _ w' => aw_agent w' = None) w).
Proof.
  intros (a' & Ha' & I) Ha Hp. assert (a' = a) as -> by congruence. split.
  - apply map_empty. intros p. destruct (aw_proxies w !! p) as [q|] eqn:Hq; [|done].
    destruct (px_refs _ _ _ (pi_proxies _ _ _ _ _ _ _ _ _ I) p q Hq) as [Hr ?].
    rewrite Hp, bool_decide_eq_false_2 in Hr by set_solver. unfold none_held in Hr. cbn in Hr. lia.
  - intros Hreqs Hts.
    assert (aw_ops w = ∅) as Hops.
    { apply map_empty. intros p. destruct (aw_ops w !! p) as [o|] eqn:Ho; [|done].
      destruct (op_refs _ _ _ _ (pi_ops _ _ _ _ _ _ _ _ _ I) p o Ho) as [Hr ?].
      rewrite Hreqs, Hts, !count_map_zero in Hr by done. unfold none_held in Hr. lia. }
    split; [done|]. pose proof (pi_refs _ _ _ _ _ _ _ _ _ I) as Hc.
    rewrite Hreqs, Hops in Hc. unfold map_card in Hc. rewrite !map_size_empty in Hc.
    unfold agent_unref. awp_go. apply wp_assert; [lia|]. awp_go. eapply wp_the_agent; [done|].
    cbn [ag_ref_count]. rewrite (proj2 (Z.eqb_eq _ _)) by (cbn; lia). cbn [negb]. awp_go.
    apply wp_assert; [|by awp_go]. apply bool_decide_eq_true. exact Hp.
Qed.

(** The controller reports an error on a proxy after its creation has been answered,
    at some point of the run of the agent. *)
Definition late_in_run (api_bus systemd_bus : bool) (units : list listed_unit)
    (listed shutdown timer : Z) (events : list agent_event) (w : AgentWorld) : bool :=
  match agent_start api_bus systemd_bus units listed shutdown timer w with
  | Ret true w' => late_error_in events w'
  | _ => false
  end.

Lemma run_outcome api_bus systemd_bus units listed shutdown timer events Q w :
  agent_ok w -> Forall listed_path units ->
  (forall w', agent_ok w' -> wp (agent_stop ;; mret true) Q w') ->
  (forall w', agent_ok w' -> Q false w') ->
  unless_late (late_in_run api_bus systemd_bus units listed shutdown timer events w)
    (agent_run api_bus systemd_bus units listed shutdown timer events) Q w.
Proof.
  intros Hw Hu HQ Hno. unfold agent_run, late_in_run. pose proof (safe_start api_bus systemd_bus units
    listed shutdown timer Hu w Hw) as Hstart. unfold wp in Hstart. unfold unless_late at 1, mbind at 1, M_bind at 1.
  destruct (agent_start _ _ _ _ _ _ w) as [started w1|]; [|done].
  destruct started; cbn [negb]; [|split; [done|by apply Hno]].
  eapply (unless_late_bind _ _ _ _ _ w1); [by apply safe_loop|]. intros [] w2. apply HQ.
Qed.

(** C5. From its start to its end the agent never touches released memory and fails
    no assertion, whatever messages, answers, signals and timer ticks arrive in
    whatever order and whichever bus calls fail, with one exception: an Error of the
    controller on a proxy whose creation has been answered fails an assertion. When it
    stops no proxy is left, and if no request to systemd and no job is pending, all
    operations are released and dropping the last reference releases the agent. *)
Theorem agent_lifetime_safe a log api_bus systemd_bus units listed shutdown timer events :
  fresh a -> Forall listed_path units ->
  unless_late (late_in_run api_bus systemd_bus units listed shutdown timer events (initial_world a log))
    (agent_run api_bus systemd_bus units listed shutdown timer events)
    (fun started w => agent_ok w /\ (started = true -> aw_proxies w = ∅ /\
       (aw_reqs w = ∅ -> aw_trackers w = ∅ ->
        aw_ops w = ∅ /\ wp agent_unref (fun _ w' => aw_agent w' = None) w)))
    (initial_world a log).
Proof.
  intros Ha Hu. apply run_outcome; [by apply initial_ok|done| |by split].
  intros w2 Hw2. pose proof Hw2 as (a2 & Ha2 & _). apply wp_bind. eapply wp_mono; [by apply (stop_spec a2)|].
  intros [] w3 (Hw3 & a3 & Ha3 & _ & _ & _ & Hp & _). apply wp_ret. split; [done|].
  intros _. by apply (released a3).
Qed.

(** ** The connection *)

Inductive conn_run : list conn_label -> AgentConnectionState -> AgentConnectionState -> Prop :=
| run_nil s : conn_run [] s s
| run_cons l ls s1 s2 s3 : conn_step l s1 s2 -> conn_run ls s2 s3 -> conn_run (l :: ls) s1 s3.

(** The labels of the events that are delivered, in their order. *)
Fixpoint delivered_labels (events : list agent_event) (w : AgentWorld) : list conn_label :=
  match events with
  | [] => []
  | e :: events =>
      (if enabled e w then [label_of e] else []) ++
      match serve_event e w with
      | Ret _ w' => delivered_labels events w'
      | Crash _ => []
      end
  end.

(** A delivered event is a step of the machine, another event leaves the agent alone. *)
Lemma serve_connection e a w :
  agent_ok w -> aw_agent w = Some a -> bus_inv a ->
  unless_late (late_error e w) (serve_event e) (fun _ w' => agent_ok w' /\ exists a',
    aw_agent w' = Some a' /\ bus_inv a' /\
    (if enabled e w then conn_step (label_of e) (ag_connection_state a) (ag_connection_state a')
     else ag_connection_state a' = ag_connection_state a) /\
    (locatable a -> locatable a')) w.
Proof.
  intros Hw Ha Hb. apply serve_outcome; [done| |].
  - intros Hen Hl. rewrite Hen. eapply wp_mono; [by apply (event_connection e a)|]. by intros [] w1 [_ ?].
  - intros Hen. rewrite Hen. by exists a.
Qed.

(** C12. The agent refines the abstract connection machine: over any sequence of
    events its connection state makes exactly one step of the machine per delivered
    event, with the label of that event and in the order of the events, and a connected
    agent always has a bus. *)
Theorem agent_connection_refines events a w :
  agent_ok w -> aw_agent w = Some a -> bus_inv a ->
  unless_late (late_error_in events w) (agent_loop events) (fun _ w' => exists a',
    aw_agent w' = Some a' /\ bus_inv a' /\
    conn_run (delivered_labels events w) (ag_connection_state a) (ag_connection_state a')) w.
Proof.
  unfold agent_loop. revert a w. induction events as [|e events IH]; intros a w Hw Ha Hb.
  { split; [done|]. exists a. split_and!; [done|apply Hb..|constructor]. }
  cbn [foreach late_error_in delivered_labels]. pose proof (serve_connection e a w Hw Ha Hb) as He.
  unfold unless_late in *. unfold mbind at 1, M_bind at 1.
  destruct (serve_event e w) as [[] w1|c]; [|by destruct He as [-> ->]].
  destruct He as (-> & Hw1 & a1 & Ha1 & Hb1 & Hs & _). specialize (IH a1 w1 Hw1 Ha1 Hb1).
  cbn [orb]. destruct (foreach events serve_event w1) as [[] w2|]; [|done].
  destruct IH as (Hl & a2 & Ha2 & Hb2 & Hrun). split; [done|]. exists a2. split_and!; [done|apply Hb2..|].
  destruct (enabled e w); cbn [app]; [by econstructor|by rewrite <- Hs].
Qed.

(** The states an agent that can find its controller is in between start and stop. *)
Definition serving (w : AgentWorld) : Prop := agent_ok w /\ exists a, aw_agent w = Some a /\
  bus_inv a /\ ag_connection_state a <> DISCONNECTED /\ locatable a.
Definition is_connected (w : AgentWorld) : Prop :=
  exists a, aw_agent w = Some a /\ ag_connection_state a = CONNECTED.

(** The first [n] events of a sequence without end. *)
Definition prefix (events : nat -> agent_event) (n : nat) : list agent_event :=
  map events (seq 0 n).

Lemma step_serving e l s s' :
  conn_step l s s' -> label_of e = l -> e <> EvShutdown -> s <> DISCONNECTED -> s' <> DISCONNECTED.
Proof. intros [] Hl He Hs; try done. by destruct e as [|? []| | | | | | | |]. Qed.

Lemma serving_event e w :
  serving w -> e <> EvShutdown -> unless_late (late_error e w) (serve_event e) (fun _ w' => serving w') w.
Proof.
  intros [Hw (a & Ha & Hb & Hs & Hc)] He. eapply unless_late_mono; [by apply (serve_connection e a)|].
  intros [] w1 (Hw1 & a1 & Ha1 & Hb1 & Hst & Hc1). split; [done|]. exists a1.
  split_and!; [done|apply Hb1..| |by apply Hc1].
  destruct (enabled e w); [by eapply step_serving|congruence].
Qed.

Lemma serving_loop events w :
  (forall e, e ∈ events -> e <> EvShutdown) -> serving w ->
  unless_late (late_error_in events w) (agent_loop events) (fun _ w' => serving w') w.
Proof.
  intros He Hw. pose (I (l : list agent_event) w := (forall e, e ∈ l -> e <> EvShutdown) /\ serving w).
  apply (unless_late_mono _ _ (fun _ => I [])); [|by intros [] w' []].
  apply (loop_outcome I); [|done].
  intros e l w1 [Hl Hw1]. eapply unless_late_mono; [apply serving_event; [done|apply Hl; by left]|].
  intros [] w2 Hw2. split; [|done]. intros e' He'. apply Hl. by right.
Qed.

(** Two sequences, one after the other. *)
Lemma late_error_app l1 l2 w :
  late_error_in (l1 ++ l2) w =
    late_error_in l1 w || match agent_loop l1 w with
                          | Ret _ w' => late_error_in l2 w'
                          | Crash _ => false
                          end.
Proof.
  unfold agent_loop. revert w. induction l1 as [|e l1 IH]; intros w; [done|].
  cbn [app late_error_in foreach]. unfold mbind, M_bind.
  destruct (serve_event e w) as [[] w1|]; [by rewrite IH, (orb_assoc (late_error e w))|].
  by rewrite !orb_false_r.
Qed.
Lemma agent_loop_app l1 l2 w : agent_loop (l1 ++ l2) w = (agent_loop l1 ;; agent_loop l2) w.
Proof.
  unfold agent_loop. revert w. induction l1 as [|e l1 IH]; intros w; [done|].
  cbn [app foreach]. unfold mbind, M_bind in *. destruct (serve_event e w) as [[] w1|]; [by rewrite IH|done].
Qed.
Lemma loop_app l1 l2 Q w :
  unless_late (late_error_in l1 w) (agent_loop l1)
    (fun _ w' => unless_late (late_error_in l2 w') (agent_loop l2) Q w') w ->
  unless_late (late_error_in (l1 ++ l2) w) (agent_loop (l1 ++ l2)) Q w.
Proof.
  unfold unless_late. rewrite agent_loop_app, late_error_app. unfold mbind, M_bind.
  destruct (agent_loop l1 w) as [[] w1|]; [by intros [-> ?]|by intros [-> ->]].
Qed.

(** A tick of the timer leaves a connected agent, or one that has asked to register. *)
Lemma tick_asks reset w :
  serving w -> calls_succeed ->
  wp (handle_event (EvTimer reset)) (fun _ w' => is_connected w' \/
    exists a, aw_agent w' = Some a /\ ag_connection_state a = CONNECTING /\
      ag_register_call_slot a = true /\ ag_peer_dbus a <> None) w.
Proof.
  intros [Hw (a & Ha & Hb & Hs & Hc)] Hz. cbn [handle_event]. apply wp_bind.
  eapply wp_mono; [by apply timer_spec|]. intros r w1 Hw1. apply wp_ret.
  assert (gone a w1 -> is_connected w1 \/ exists a, aw_agent w1 = Some a /\
    ag_connection_state a = CONNECTING /\ ag_register_call_slot a = true /\ ag_peer_dbus a <> None)
    as Hgone.
  { intros (a1 & Ha1 & _ & [(_ & _ & _ & Hn)|(Hs1 & Hp & Hsl)]); [by destruct Hn|]. right.
    pose proof (Hsl Hz). exists a1. auto. }
  destruct (ag_connection_state a) eqn:Hst; [done| |by apply Hgone|by apply Hgone].
  destruct Hw1 as [(_ & Ha1 & _)|[_ ?]]; [|by apply Hgone]. left. by exists a.
Qed.

Lemma answer_connects m message w :
  agent_ok w -> calls_succeed -> 0 <= message ->
  (is_connected w \/ exists a, aw_agent w = Some a /\ ag_connection_state a = CONNECTING /\
     ag_register_call_slot a = true /\ ag_peer_dbus a <> None) ->
  wp (serve_event (EvRegistered (MethodReturn m) message)) (fun _ w' => is_connected w') w.
Proof.
  intros Hw Hz Hm Hcase. apply wp_bind, wp_get.
  assert (exists a, aw_agent w = Some a /\ (ag_connection_state a = CONNECTED \/
    ag_connection_state a = CONNECTING /\ ag_register_call_slot a = true /\ ag_peer_dbus a <> None))
    as (a & Ha & Hs) by (destruct Hcase as [(a & ? & ?)|(a & ? & ?)]; exists a; auto).
  cbn [enabled]. rewrite Ha. destruct (ag_register_call_slot a) eqn:Hslot.
  - cbn [handle_event]. apply wp_bind. eapply wp_mono; [by apply register_spec|].
    intros r w1 (a1 & Ha1 & _ & _ & _ & Hst). apply wp_ret. exists a1. split; [done|].
    destruct Hs as [Hs|(Hs & _ & Hb)]; rewrite Hs in Hst.
    + rewrite bool_decide_eq_false_2 in Hst by done. done.
    + rewrite bool_decide_eq_true_2 in Hst by done. by apply Hst.
  - apply wp_ret. destruct Hs as [Hs|(_ & ? & _)]; [by exists a|done].
Qed.

Lemma tick_and_answer reset m message w :
  serving w -> calls_succeed -> 0 <= message ->
  let l := [EvTimer reset; EvRegistered (MethodReturn m) message] in
  unless_late (late_error_in l w) (agent_loop l) (fun _ w' => is_connected w') w.
Proof.
  intros Hw Hz Hm l. pose proof Hw as [Hok _]. subst l.
  assert (late_error_in [EvTimer reset; EvRegistered (MethodReturn m) message] w = false) as ->.
  { cbn [late_error_in late_error orb]. by repeat case_match. }
  apply unless_late_wp. unfold agent_loop. cbn [foreach].
  apply wp_bind. eapply wp_mono; [apply wp_bind, wp_get; cbn [enabled];
    apply wp_conj; [by apply tick_asks|by apply safe_event]|].
  intros [] w2 [Hcase Hok2]. apply wp_bind. eapply wp_mono; [by apply answer_connects|].
  intros [] w3 Hw3. by apply wp_ret.
Qed.

Context {NL : NetworkLaws N}.

(** C13. A started agent whose settings give an address of the controller (a
    ControllerAddress, or a host that is an IP address or a name that always
    resolves) gets back to it: if calls succeed, the agent is not shut down and,
    again and again, a tick of the timer is followed by the controller accepting
    the registration, then whatever else happens in between (lost connections, other
    controllers, requests, signals), the agent is connected again and again, unless
    an Error on an answered proxy has failed an assertion. *)
Theorem agent_reconnects (events : nat -> agent_event) a w :
  agent_ok w -> aw_agent w = Some a -> bus_inv a -> ag_connection_state a <> DISCONNECTED ->
  (forall n, resolved_address a (getaddrinfo n) <> None) ->
  calls_succeed -> (forall n, events n <> EvShutdown) ->
  (forall n, exists k reset m message, (n <= k)%nat /\ events k = EvTimer reset /\
     events (S k) = EvRegistered (MethodReturn m) message /\ 0 <= message) ->
  forall n, exists k, (n <= k)%nat /\
    unless_late (late_error_in (prefix events k) w) (agent_loop (prefix events k))
      (fun _ w' => is_connected w') w.
Proof.
  intros Hok Ha Hb Hs Hr%resolved_locatable Hz Hno Hfair n.
  assert (serving w) as Hw by (split; [done|by exists a]).
  destruct (Hfair n) as (k & reset & m & message & Hk & He1 & He2 & Hm).
  exists (S (S k)). split; [lia|].
  assert (prefix events (S (S k)) = prefix events k ++ [EvTimer reset;
          EvRegistered (MethodReturn m) message]) as ->.
  { unfold prefix. rewrite !seq_S, !map_app, <- app_assoc. cbn [map app Nat.add].
    by rewrite He1, He2. }
  apply loop_app. eapply unless_late_mono.
  { apply serving_loop; [|exact Hw]. intros e (x & -> & _)%list_elem_of_fmap. apply Hno. }
  intros [] w1 Hw1. by apply tick_and_answer.
Qed.

(** ** Heartbeats *)

(** A tick of the timer sends one heartbeat exactly while the controller is
    alive: no threshold is set, or at most the threshold has passed since the last
    heartbeat of the controller. Otherwise the agent gives the connection up and, if
    it knows the controller's address, asks to register again. *)
Theorem agent_heartbeat_correct reset a b ts w :
  aw_agent w = Some a -> ag_connection_state a = CONNECTED -> ag_peer_dbus a = Some b ->
  monotonic (aw_clocks w) = Some ts -> timespec_to_micros ts <> USEC_INFINITY ->
  ag_controller_heartbeat_threshold_msec a <= 18446744073709551 ->
  wp (agent_heartbeat_timer_callback reset) (fun _ w' =>
    if (0 <? ag_controller_heartbeat_threshold_msec a) &&
       (ag_controller_heartbeat_threshold_msec a * 1000
          <? timespec_to_micros ts - ag_controller_last_seen_monotonic a)
    then gone a w'
    else aw_agent w' = Some a /\ aw_trace w' = aw_trace w ++
           [PeerEmitSignal b INTERNAL_AGENT_OBJECT_PATH INTERNAL_AGENT_INTERFACE "Heartbeat" []]) w.
Proof.
  intros Ha Hs Hb Hts Hinf Hmax. eapply wp_mono; [by apply timer_spec|].
  intros r w'. rewrite Hs, Hb. set (th := ag_controller_heartbeat_threshold_msec a) in *.
  assert (0 < th -> u64 (u64 th * USEC_PER_MSEC) = th * 1000) as Hu.
  { intros Hpos. unfold u64, USEC_PER_MSEC. rewrite (Z.mod_small th) by lia.
    apply Z.mod_small. lia. }
  assert (given_up a w <-> 0 < th /\
    th * 1000 < timespec_to_micros ts - ag_controller_last_seen_monotonic a) as Hg.
  { unfold given_up, controller_expired. fold th. split.
    - intros (Hpos & ts' & Hts' & He). assert (ts' = ts) as -> by congruence. split; [done|].
      rewrite (proj2 (Z.eqb_neq _ _)) in He by done. destruct (Z.ltb_spec (timespec_to_micros ts)
        (ag_controller_last_seen_monotonic a)); [done|]. apply Z.ltb_lt in He.
      rewrite Hu in He by done. lia.
    - intros [Hpos Hlt]. split; [done|]. exists ts. split; [done|].
      rewrite (proj2 (Z.eqb_neq _ _)), (proj2 (Z.ltb_ge _ _)) by (done || lia).
      apply Z.ltb_lt. rewrite Hu by done. lia. }
  intros [(Hn & Ha' & Ht)|(Hy & Hgone)].
  - rewrite Hg in Hn. destruct (Z.ltb_spec 0 th), (Z.ltb_spec (th * 1000)
      (timespec_to_micros ts - ag_controller_last_seen_monotonic a)); cbn [andb]; by try (exfalso; lia).
  - apply Hg in Hy as [H1 H2]. rewrite (proj2 (Z.ltb_lt _ _) H1), (proj2 (Z.ltb_lt _ _) H2). done.
Qed.

(** A controller that refuses the registration is ignored: the agent stays in the
    state in which it waits for the answer it has just got. *)
Theorem refused_registration_ignored name message a w :
  aw_agent w = Some a -> ag_connection_state a = CONNECTING ->
  agent_register_callback (MethodError name) message w = Ret 0 w.
Proof.
  intros Ha Hs. unfold agent_register_callback, the_agent, deref, mbind, M_bind. rewrite Ha.
  by rewrite bool_decide_eq_true_2.
Qed.
End life.

(** ** The types of the signals *)

#[local] Hint Extern 1 (steps (emits well_typed) (abus _)) => (by apply emits_abus) : runs.

Section types.
Context {E : AgentEnv} {N : Network} {L : AgentEnvLaws E}.
Abbreviation typed m := (steps (emits well_typed) m).

Lemma apart_typed {A} (m : AM A) : steps apart m -> typed m.
Proof. intros Hm w. specialize (Hm w). destruct (m w); [apply Hm|done]. Qed.

Lemma typed_address : typed ensure_assembled_controller_address.
Proof. steps_tac. Qed.
Lemma typed_reconnect : typed agent_reconnect.
Proof. pose proof typed_address. steps_tac. Qed.
Lemma typed_disconnected : typed agent_disconnected.
Proof. pose proof typed_reconnect. steps_tac. Qed.
Lemma typed_emit_new p : typed (proxy_service_emit_proxy_new p).
Proof. apply apart_typed, apart_emit_new. Qed.
Lemma typed_remove_proxy p emit : typed (agent_remove_proxy p emit).
Proof. apply apart_typed, apart_remove_proxy. Qed.
Lemma typed_stop : typed agent_stop.
Proof. pose proof typed_remove_proxy. steps_tac. Qed.

Lemma typed_event e : typed (handle_event e).
Proof.
  assert (forall {A} (m : AM A), typed m -> typed (_r ← m; mret tt)) as Hb.
  { intros A m Hm. apply (steps_bind _); [done|]. intros. by apply (steps_ret _). }
  pose proof typed_disconnected. pose proof typed_reconnect. pose proof typed_emit_new.
  destruct e as [m method|m method|m p method|req m path|s|m message| | |reset|];
    try (apply apart_typed, other_apart; done).
  - destruct method; try (apply apart_typed, other_apart; done). apply Hb. cbn [agent_vtable]. steps_tac.
  - apply Hb. steps_tac.
  - apply Hb. steps_tac.
  - apply Hb. steps_tac.
  - apply Hb. steps_tac.
  - apply typed_stop.
Qed.

Lemma typed_all_calls l :
  Forall well_typed l -> typed (all_calls l).
Proof.
  induction 1 as [|c l Hc _ IH]; cbn [all_calls]; [by apply (steps_ret _)|]. apply (steps_bind _).
  - by apply emits_abus.
  - intros r. destruct (r <? 0); [by apply (steps_ret _)|done].
Qed.

Lemma typed_start api_bus systemd_bus units listed shutdown timer :
  typed (agent_start api_bus systemd_bus units listed shutdown timer).
Proof.
  assert (forall u, typed (init_unit u)) as Hu by (intros u; steps_tac).
  pose proof typed_address.
  assert (typed agent_connect) as Hc by steps_tac.
  unfold agent_start. steps_tac; by apply typed_all_calls; repeat constructor.
Qed.

(** C29. Every signal the agent sends over its life has the D-Bus type its interface
    declares for it, which is the type the controller reads it with. *)
Theorem agent_signals_typed a log api_bus systemd_bus units listed shutdown timer events :
  fresh a -> Forall listed_path units ->
  unless_late (late_in_run api_bus systemd_bus units listed shutdown timer events (initial_world a log))
    (agent_run api_bus systemd_bus units listed shutdown timer events)
    (fun _ w => Forall well_typed (aw_trace w)) (initial_world a log).
Proof.
  intros Ha Hu.
  assert (typed (agent_run api_bus systemd_bus units listed shutdown timer events)) as Ht.
  { unfold agent_run, agent_loop, serve_event. pose proof typed_start. pose proof typed_stop.
    pose proof typed_event.
    apply (steps_bind _); [done|]. intros started. destruct (negb started); [by apply (steps_ret _)|].
    apply (steps_bind _); [|intros; apply (steps_bind _); [done|intros; by apply (steps_ret _)]].
    apply (steps_foreach _). intros e. apply (steps_bind _).
    - intros w. apply emits_preorder.
    - intros w. destruct (enabled e w); [done|by apply (steps_ret _)]. }
  eapply unless_late_mono; [apply unless_late_conj; [|exact (steps_pwp _ _ _ Ht)]|].
  - apply (run_outcome _ _ _ _ _ _ _ (fun _ _ => True)); [by apply initial_ok|done| |done].
    intros w Hw. apply wp_bind. eapply wp_mono; [by apply safe_stop|]. by intros.
  - intros r w [_ (l & Hl & Hty)]. by rewrite Hl.
Qed.
End types.

(** ** Instances *)

Lemma sample_agent_fresh : fresh sample_agent.
Proof. by split_and!. Defined.
(** An agent that has only the IP address and the port of the controller. *)
Definition sample_host_agent : Agent :=
  sample_agent <| ag_controller_address := None |> <| ag_host := Some (show_address "4" 5) |>
    <| ag_port := 842 |> <| ag_connection_state := RETRY |>.
Definition sample_host : AgentWorld := initial_world sample_host_agent sample_log.
(** The target becomes active, and then the controller reports an error. *)
Definition late_sample : list agent_event :=
  [EvClient 4 (CreateProxy (ReadOk ("bluechi-proxy@x.service", "pi", "x.service")));
   EvProxy 5 2 (TargetStateChanged (ReadOk ("active", "running", "real")));
   EvProxy 6 2 ProxyError].

(** A connected agent that has the unit a.service loaded and a job of b.service. *)
Definition sample_prelude : list agent_event :=
  [EvTimer 0; EvRegistered (MethodReturn 1) 0;
   EvSignal (UnitNew (ReadOk ("a.service", "/org/freedesktop/systemd1/unit/a_2eservice")));
   EvController 2 (StartUnit (ReadOk ("b.service", "replace", 7)));
   EvAnswer 2 (MethodReturn 3) (ReadOk "/job/1")].
Definition sample_tracked : AgentWorld := reached (agent_loop sample_prelude) sample_retry.
Definition sample_tracked_agent : Agent := default sample_agent (aw_agent sample_tracked).
Lemma sample_tracked_ok : agent_ok sample_tracked.
Proof. apply reached_ok, prompt_loop; [vm_compute; reflexivity|by apply initial_ok]. Defined.

Lemma sample_tracked_is : aw_agent sample_tracked = Some sample_tracked_agent.
Proof. vm_compute. reflexivity. Qed.

Lemma agent_lifetime_safe_witness :
  unless_late false (agent_run true true sample_units 0 0 0 sample_events)
    (fun started w => agent_ok w /\ (started = true -> aw_proxies w = ∅ /\
       (aw_reqs w = ∅ -> aw_trackers w = ∅ ->
        aw_ops w = ∅ /\ wp agent_unref (fun _ w' => aw_agent w' = None) w)))
    (initial_world sample_agent sample_log) /\
  agent_run true true sample_units 0 0 0 late_sample (initial_world sample_agent sample_log) =
    Crash AssertionFailure.
Proof.
  split.
  - change false with (late_in_run true true sample_units 0 0 0 sample_events
      (initial_world sample_agent sample_log)).
    apply agent_lifetime_safe; [exact sample_agent_fresh|exact sample_units_listed].
  - vm_compute. reflexivity.
Defined.

Lemma agent_connection_refines_witness :
  unless_late false (agent_loop sample_events) (fun _ w' => exists a', aw_agent w' = Some a' /\ bus_inv a' /\
    conn_run [Other; Other; Other; Tick; Other; Other; Other; Lost] DISCONNECTED (ag_connection_state a'))
    (initial_world sample_agent sample_log).
Proof.
  change false with (late_error_in sample_events (initial_world sample_agent sample_log)).
  change [Other; Other; Other; Tick; Other; Other; Other; Lost]
    with (delivered_labels sample_events (initial_world sample_agent sample_log)).
  apply (agent_connection_refines sample_events sample_agent);
    [apply initial_ok, sample_agent_fresh|reflexivity|by split].
Defined.

Lemma agent_reconnects_witness :
  exists k, (5 <= k)%nat /\
    let l := prefix (fun i => if Nat.even i then EvTimer 0 else EvRegistered (MethodReturn 1) 0) k in
    unless_late (late_error_in l sample_host) (agent_loop l) (fun _ w' => is_connected w') sample_host.
Proof.
  apply (agent_reconnects _ sample_host_agent).
  - by apply initial_ok.
  - reflexivity.
  - by split.
  - done.
  - done.
  - intros n c. reflexivity || (cbn; lia).
  - intros n. by destruct (Nat.even n).
  - intros n. exists (n + n)%nat, 0, 1%positive, 0.
    assert (Nat.even (n + n) = true) as He by (rewrite Nat.even_add; by destruct (Nat.even n)).
    split_and!; [lia|by rewrite He| |done]. by rewrite Nat.even_succ, <- Nat.negb_even, He.
Defined.

Lemma agent_heartbeat_correct_witness :
  let a := sample_agent <| ag_connection_state := CONNECTED |> <| ag_peer_dbus := Some 9%positive |>
             <| ag_controller_heartbeat_threshold_msec := 6000 |> in
  wp (agent_heartbeat_timer_callback 0) (fun _ w' =>
    aw_agent w' = Some a /\ aw_trace w' =
      [PeerEmitSignal 9 INTERNAL_AGENT_OBJECT_PATH INTERNAL_AGENT_INTERFACE "Heartbeat" []])
    (initial_world a sample_log).
Proof.
  intros a. apply (agent_heartbeat_correct 0 a 9 (mkTimespec 0 0)); [done|done|done|done|done|cbn; lia].
Defined.

Lemma agent_signals_typed_witness :
  unless_late false (agent_run true true sample_units 0 0 0 sample_events)
    (fun _ w => Forall well_typed (aw_trace w)) (initial_world sample_agent sample_log).
Proof.
  change false with (late_in_run true true sample_units 0 0 0 sample_events
    (initial_world sample_agent sample_log)).
  apply agent_signals_typed; [exact sample_agent_fresh|exact sample_units_listed].
Defined.

Lemma refused_registration_ignored_witness :
  let a := sample_agent <| ag_connection_state := CONNECTING |> in
  agent_register_callback (MethodError "org.eclipse.bluechi.InvalidArgs") 0 (initial_world a sample_log) =
    Ret 0 (initial_world a sample_log).
Proof. intros a. apply (refused_registration_ignored _ _ a); reflexivity. Defined.
