(* ===== verification/AgentJobTheorems.v ===== *)
(** The work of the agent. Unit operations: a request of the controller becomes a call to
    systemd, its job is tracked, and its end is reported to the controller once. Units:
    subscriptions, the replay of the known state, and the signals forwarded from systemd. *)
From S2P Require Import Prelude CString StringUtil ParseUtil TimeUtil Protocol BusUtils Log Cfg.
From S2P Require Import Socket BusProps World AgentWorld AgentRequests AgentUnits AgentProxy.
From S2P Require Import Agent AgentEvents WorldFacts AgentFacts AgentSafe AgentSteps AgentProxySteps.
From S2P Require Import AgentRuns AgentTheorems AgentConnection AgentSample AgentLifeTheorems AgentExec.
Local Open Scope list_scope.

Section jobs.
Context {E : AgentEnv} {N : Network} {L : AgentEnvLaws E}.

(** The call to systemd for a unit operation. *)
Definition operation_call (name mode method : string) (p : ptr) : acall :=
  SystemdCallAsync SYSTEMD_OBJECT_PATH SYSTEMD_MANAGER_IFACE method [VString name; VString mode]
    UnitLifecycleCb p.

(** The request [p] and the operation [o] that a started unit operation leaves. *)
Definition operation_request (m : ptr) (name mode method : string) (o : ptr) : SystemdRequest :=
  mkSystemdRequest 1 (Some m) (Some UnitLifecycleCb) SYSTEMD_OBJECT_PATH SYSTEMD_MANAGER_IFACE method
    [VString name; VString mode] (Some o).
Definition operation_op (id t : Z) (name method : string) : AgentJobOp :=
  mkAgentJobOp 1 id t (Some name) (Some method).

Lemma start_operation m name mode id method a reqs ops ts ps p tr w :
  heap_is a reqs ops ts ps p tr w -> 0 < ag_ref_count a -> calls_succeed -> messages_succeed ->
  let o := Pos.succ p in
  wp (agent_run_unit_lifecycle_method m (ReadOk (name, mode, id)) method)
    (fun r w' => r = 1 /\ exists t,
       heap_is (a <| ag_ref_count ::= fun n => Z.succ (Z.succ n) |>
           <| ag_outstanding_requests ::= fun l => l ++ [p] |>)
         (<[p := operation_request m name mode method o]> reqs)
         (<[o := operation_op id t name method]> ops) ts ps (Pos.succ o)
         (tr ++ [operation_call name mode method p]) w') w.
Proof.
  intros H Hr Hc Hm o. hs. split; [done|]. eexists. rewrite !insert_insert_eq in H. exact H.
Qed.

Lemma answer_operation p m name mode method o id t ans path a reqs ops ts ps next tr w :
  heap_is a reqs ops ts ps next tr w -> calls_succeed ->
  reqs !! p = Some (operation_request m name mode method o) ->
  ops !! o = Some (operation_op id t name method) ->
  p ∈ ag_outstanding_requests a -> 1 < ag_ref_count a ->
  wp (run_systemd_callback p (MethodReturn ans) (ReadOk path))
    (fun _ w' => heap_is
       (a <| ag_tracked_jobs ::= cons next |>
          <| ag_outstanding_requests := remove_first p (ag_outstanding_requests a) |>
          <| ag_ref_count ::= Z.pred |>)
       (delete p reqs) ops (<[next := mkJobTracker path o]> ts) ps (Pos.succ next)
       (tr ++ [ReturnTo m []]) w') w.
Proof.
  intros H Hc Hp Ho Hin Hr. hs. rewrite !insert_insert_eq, delete_insert_eq, insert_id in H by done.
  exact H.
Qed.

(** What the controller is told of the end of a job, [t] being the time it took. *)
Definition job_reports (a : Agent) (o : AgentJobOp) (result : string) (t : Z) : list acall :=
  match ag_peer_dbus a with
  | None => []
  | Some b =>
      (if ag_metrics_enabled a
       then [PeerEmitSignal b INTERNAL_AGENT_METRICS_OBJECT_PATH INTERNAL_AGENT_METRICS_INTERFACE
               "AgentJobMetrics" [VString (default "" (op_unit o)); VString (default "" (op_method o));
                                  VUint64 t]]
       else []) ++
      [PeerEmitSignal b INTERNAL_AGENT_OBJECT_PATH INTERNAL_AGENT_INTERFACE "JobDone"
         [VUint (op_bc_job_id o); VString result]]
  end.

Lemma hs_job_done {B} result op o a reqs ops ts ps next tr w (k : void -> AM B) Q :
  heap_is a reqs ops ts ps next tr w -> ops !! op = Some o ->
  (forall t w, heap_is a reqs ops ts ps next (tr ++ job_reports a o result t) w -> wp (k tt) Q w) ->
  wp (agent_job_done result op ≫= k) Q w.
Proof.
  intros H Ho Hk. unfold agent_job_done. apply wp_bind. hs. apply wp_bind.
  unfold job_reports in Hk. destruct (ag_metrics_enabled a).
  - apply wp_bind. unfold wp at 1, agent_finalize_interval.
    destruct (realtime (aw_clocks w)) as [ts'|] eqn:Ht; [|by destruct (realtime_works _ Ht)].
    set (t := finalize_time_interval_micros _ _). unfold agent_send_job_metrics.
    apply wp_bind. eapply (hs_peer _ a reqs ops ts ps next tr); [exact H|].
    intros r1 w1 H1. apply wp_ret, wp_ret. eapply hs_peer; [exact H1|]. intros r2 w2 H2.
    apply wp_ret. apply (Hk t). rewrite <- app_assoc in H2. by destruct (ag_peer_dbus a).
  - apply wp_ret. eapply hs_peer; [exact H|]. intros r2 w2 H2. apply wp_ret. apply (Hk 0).
    by destruct (ag_peer_dbus a).
Qed.

(** The job of the tracker [p] has ended. *)
Lemma job_removed_spec p path op o jid unit result a reqs ops ts ps next tr w :
  heap_is a reqs ops ts ps next tr w -> agent_ok w ->
  List.find (path_is path w) (ag_tracked_jobs a) = Some p ->
  ts !! p = Some (mkJobTracker path op) -> ops !! op = Some o ->
  wp (agent_match_job_removed (ReadOk (jid, path, unit, result)))
    (fun _ w' => exists t a' ops', heap_is a' reqs ops' (delete p ts) ps next
         (tr ++ job_reports a o result t) w' /\
       ag_tracked_jobs a' = remove_first p (ag_tracked_jobs a) /\
       (op_ref_count o = 1 -> ops' = delete op ops /\
        a' = a <| ag_tracked_jobs := remove_first p (ag_tracked_jobs a) |> <| ag_ref_count ::= Z.pred |>))
    w.
Proof.
  intros H Hok Hf Hp Ho. pose proof Hok as (a' & Ha' & I).
  assert (a' = a) as -> by (destruct H; congruence).
  assert (aw_ops w = ops /\ aw_reqs w = reqs) as [Hops Hreqs] by (by destruct H as (? & ? & ? & _)).
  pose proof (pi_refs _ _ _ _ _ _ _ _ _ I) as Hc. rewrite Hops, Hreqs in Hc.
  pose proof (map_card_delete _ _ _ Ho). pose proof (map_card_nonneg reqs).
  pose proof (map_card_nonneg (delete op ops)).
  unfold agent_match_job_removed. apply wp_bind.
  eapply wp_mono; [by eapply find_tracker_spec|]. intros track w1 (-> & -> & Htr).
  rewrite Hf in Htr |- *. destruct Htr as [Hin _]. hs.
  eapply hs_job_done; [exact H|exact Ho|]. clear dependent w. intros t w H. hs.
  change (op_ref_count (o <| op_ref_count ::= Z.pred |>)) with (Z.pred (op_ref_count o)).
  destruct (Z.eqb_spec (Z.pred (op_ref_count o)) 0) as [Hz|Hz]; cbn [negb].
  - hs. eexists t, _, _. split; [exact H|]. split; [done|]. intros _. by rewrite delete_insert_eq.
  - hs. eexists t, _, _. split; [exact H|]. split; [done|]. lia.
Qed.

Definition agent_is (a : Agent) (w : AgentWorld) : Prop := aw_agent w = Some a.

(** When systemd reports that a job is gone, the agent reports the end of exactly
    the job it tracks under that path (the first one), with the controller's
    identifier and systemd's result, after the job's metrics if they are enabled,
    and stops tracking it; a job that is not tracked is ignored. *)
Theorem agent_job_done_reported jid path unit result a w :
  agent_ok w -> aw_agent w = Some a ->
  wp (agent_match_job_removed (ReadOk (jid, path, unit, result))) (fun _ w' =>
    match List.find (path_is path w) (ag_tracked_jobs a) with
    | None => w' = w
    | Some p => exists tracker o t, aw_trackers w !! p = Some tracker /\
        track_job_object_path tracker = path /\ aw_ops w !! track_userdata tracker = Some o /\
        aw_trace w' = aw_trace w ++ job_reports a o result t /\
        aw_trackers w' = delete p (aw_trackers w) /\
        exists a', aw_agent w' = Some a' /\ ag_tracked_jobs a' = remove_first p (ag_tracked_jobs a)
    end) w.
Proof.
  intros Hw Ha. destruct (List.find _ _) as [p|] eqn:Hf.
  - pose proof Hf as [Hin Hp]%list_find_In. unfold path_is in Hp.
    destruct (aw_trackers w !! p) as [[path' op]|] eqn:Ht; [|done]. cbn in Hp.
    apply streq_true in Hp as ->. pose proof Hw as (a0 & Ha0 & I).
    destruct (op_tracked _ _ _ _ (pi_ops _ _ _ _ _ _ _ _ _ I) p _ Ht) as [o Ho]. cbn in Ho.
    eapply wp_mono; [eapply (job_removed_spec p path op o jid unit result a); try done; by split_and!|].
    intros r w' (t & a' & ops' & H & Htr & _). exists (mkJobTracker path op), o, t.
    destruct H as (? & ? & ? & ? & ? & ? & ?). split_and!; try done. by exists a'.
  - unfold agent_match_job_removed. apply wp_bind. eapply wp_mono; [by eapply find_tracker_spec|].
    intros track w1 (-> & -> & _). rewrite Hf. by apply wp_ret.
Qed.

Lemma remove_first_last (p : ptr) l : p ∉ l -> remove_first p (l ++ [p]) = l.
Proof.
  induction l as [|x l IH]; intros Hp; cbn; [by rewrite decide_True|].
  apply not_elem_of_cons in Hp as [Hx Hp]. rewrite decide_False by done. by rewrite IH.
Qed.

(** The three states of a unit operation at the agent: systemd was called, the job is
    tracked, the job is gone. *)
Definition operation_started (m : ptr) (name mode : string) (id : Z) (method : string) (a : Agent)
    (w : AgentWorld) (t : Z) (w1 : AgentWorld) : Prop :=
  let p := aw_next_ptr w in let o := Pos.succ p in
  heap_is (a <| ag_ref_count ::= fun n => Z.succ (Z.succ n) |>
             <| ag_outstanding_requests ::= fun l => l ++ [p] |>)
    (<[p := operation_request m name mode method o]> (aw_reqs w))
    (<[o := operation_op id t name method]> (aw_ops w)) (aw_trackers w) (aw_proxies w) (Pos.succ o)
    (aw_trace w ++ [operation_call name mode method p]) w1 /\ agent_ok w1.
Definition operation_tracked (m : ptr) (name mode : string) (id : Z) (method path : string) (a : Agent)
    (w : AgentWorld) (t : Z) (w2 : AgentWorld) : Prop :=
  let p := aw_next_ptr w in let o := Pos.succ p in let k := Pos.succ o in
  heap_is (a <| ag_ref_count ::= Z.succ |> <| ag_tracked_jobs ::= cons k |>)
    (aw_reqs w) (<[o := operation_op id t name method]> (aw_ops w))
    (<[k := mkJobTracker path o]> (aw_trackers w)) (aw_proxies w) (Pos.succ k)
    (aw_trace w ++ [operation_call name mode method p; ReturnTo m []]) w2 /\ agent_ok w2.
Definition operation_ended (calls : list acall) (w w3 : AgentWorld) : Prop :=
  aw_trace w3 = aw_trace w ++ calls /\
  aw_agent w3 = aw_agent w /\ aw_reqs w3 = aw_reqs w /\ aw_ops w3 = aw_ops w /\
  aw_trackers w3 = aw_trackers w /\ aw_proxies w3 = aw_proxies w.

Section stages.
Context (m : ptr) (name mode : string) (id : Z) (method : string) (a : Agent) (w : AgentWorld).
Context (Hw : agent_ok w) (Ha : aw_agent w = Some a).

Lemma operation_refs : 0 < ag_ref_count a.
Proof.
  pose proof Hw as (a0 & Ha0 & I). assert (a0 = a) as -> by congruence.
  pose proof (pi_refs _ _ _ _ _ _ _ _ _ I). pose proof (map_card_nonneg (aw_reqs w)).
  pose proof (map_card_nonneg (aw_ops w)). lia.
Qed.

Lemma operation_fresh (q : ptr) : (aw_next_ptr w <= q)%positive ->
  aw_reqs w !! q = None /\ aw_ops w !! q = None /\ aw_trackers w !! q = None /\
  q ∉ ag_outstanding_requests a.
Proof.
  intros Hq. pose proof Hw as (a0 & Ha0 & I). assert (a0 = a) as -> by congruence.
  destruct (pi_fresh _ _ _ _ _ _ _ _ _ I q Hq) as (Fq & Fo & Ft & _). split_and!; try done.
  intros [r Hr]%(rq_listed _ _ _ (pi_requests _ _ _ _ _ _ _ _ _ I)). congruence.
Qed.

Lemma operation_start : calls_succeed -> messages_succeed ->
  wp (agent_run_unit_lifecycle_method m (ReadOk (name, mode, id)) method)
    (fun _ w1 => exists t, operation_started m name mode id method a w t w1) w.
Proof.
  intros Hc Hm. pose proof operation_refs.
  eapply wp_mono; [apply wp_conj; [by eapply (start_operation m name mode id method a); [by split_and!|..]
                                  |by apply gentle_lifecycle_method]|].
  intros r w1 [[_ [t H1]] [Hok1 _]]. by exists t.
Qed.

Lemma operation_answer ans path t w1 : calls_succeed ->
  operation_started m name mode id method a w t w1 ->
  wp (run_systemd_callback (aw_next_ptr w) (MethodReturn ans) (ReadOk path))
    (fun _ w2 => operation_tracked m name mode id method path a w t w2) w1.
Proof.
  intros Hc [H1 Hok1]. set (p := aw_next_ptr w) in *. set (o := Pos.succ p) in *.
  destruct (operation_fresh p ltac:(reflexivity)) as (Fp & _ & _ & Hnp).
  assert (aw_reqs w1 !! p = Some (operation_request m name mode method o)) as Hq1.
  { destruct H1 as (_ & -> & _). by rewrite lookup_insert_eq. }
  eapply wp_mono; [apply wp_conj;
    [eapply (answer_operation p m name mode method o id t ans path); [exact H1|done| | | |]
    |by eapply run_systemd_callback_gentle]|].
  { by rewrite lookup_insert_eq. }
  { by rewrite lookup_insert_eq. }
  { cbn. apply elem_of_app. right. by left. }
  { pose proof operation_refs. cbn. lia. }
  intros r2 w2 [H2 [Hok2 _]]. split; [|exact Hok2].
  rewrite delete_insert_eq, delete_id, <- app_assoc in H2 by done.
  unfold operation_tracked. match type of H2 with heap_is ?x _ _ _ _ _ _ _ =>
    match goal with |- heap_is ?y _ _ _ _ _ _ _ => assert (x = y) as <-; [|exact H2] end end.
  clear -Hnp. destruct a; cbn in *. f_equal; [lia|by apply remove_first_last].
Qed.

Lemma operation_end path jid unit result t w2 :
  operation_tracked m name mode id method path a w t w2 ->
  wp (agent_match_job_removed (ReadOk (jid, path, unit, result)))
    (fun _ w3 => exists u, operation_ended ([operation_call name mode method (aw_next_ptr w);
        ReturnTo m []] ++ job_reports a (operation_op id t name method) result u) w w3) w2.
Proof.
  intros [H2 Hok2]. set (o := Pos.succ (aw_next_ptr w)) in *. set (k := Pos.succ o) in *.
  destruct (operation_fresh o ltac:(unfold o; lia)) as (_ & Fo & _).
  destruct (operation_fresh k ltac:(unfold k, o; lia)) as (_ & _ & Ft & _).
  eapply wp_mono; [eapply (job_removed_spec k path o (operation_op id t name method));
    [exact H2|exact Hok2| |by rewrite lookup_insert_eq|by rewrite lookup_insert_eq]|].
  { cbn. unfold path_is. destruct H2 as (_ & _ & _ & -> & _). rewrite lookup_insert_eq.
    cbn. by rewrite streq_refl. }
  intros r3 w3 (u & a3 & ops3 & H3 & _ & Hlast). destruct (Hlast ltac:(done)) as [-> ->].
  rewrite !delete_insert_eq, !delete_id in H3 by done. exists u.
  destruct H3 as (Ha3 & ? & ? & ? & ? & _ & Ht3). split_and!; try done.
  - by rewrite Ht3, <- app_assoc.
  - rewrite Ha3, Ha. f_equal. destruct a; cbn. f_equal; [lia|]. by rewrite decide_True.
Qed.
End stages.

(** C9. A unit operation requested by the controller: the agent calls systemd once
    with the unit and the mode, answers the controller when systemd has queued the
    job, and reports the end of the job under the controller's identifier exactly
    once; afterwards every object of the operation is released. *)
Theorem agent_unit_operation m name mode id method ans path jid unit result a w :
  agent_ok w -> aw_agent w = Some a -> calls_succeed -> messages_succeed ->
  wp (_r ← agent_run_unit_lifecycle_method m (ReadOk (name, mode, id)) method;
      _r ← run_systemd_callback (aw_next_ptr w) (MethodReturn ans) (ReadOk path);
      agent_match_job_removed (ReadOk (jid, path, unit, result)))
    (fun _ w' => exists t u,
       aw_trace w' = aw_trace w ++ [operation_call name mode method (aw_next_ptr w); ReturnTo m []] ++
                     job_reports a (operation_op id t name method) result u /\
       aw_agent w' = aw_agent w /\ aw_reqs w' = aw_reqs w /\ aw_ops w' = aw_ops w /\
       aw_trackers w' = aw_trackers w /\ aw_proxies w' = aw_proxies w) w.
Proof.
  intros Hw Ha Hc Hm. apply wp_bind. eapply wp_mono; [by apply (operation_start m name mode id method a)|].
  intros _ w1 [t H1]. apply wp_bind. eapply wp_mono; [by apply (operation_answer m name mode id method a w Hw Ha ans path t)|]. intros r2 w2 H2.
  eapply wp_mono; [by apply (operation_end m name mode id method a w Hw Ha path jid unit result t)|]. intros r3 w3 [u H3]. by exists t, u.
Qed.

Lemma cancel_spec m id p t a reqs ops ts ps next tr w :
  heap_is a reqs ops ts ps next tr w -> agent_ok w -> calls_succeed -> messages_succeed ->
  List.find (has_bc_id id w) (ag_tracked_jobs a) = Some p -> ts !! p = Some t ->
  wp (agent_method_job_cancel m (ReadOk id)) (fun _ w' => exists a',
    heap_is a' (<[next := mkSystemdRequest 1 (Some m) (Some JobCancelCb) (track_job_object_path t)
                    SYSTEMD_JOB_IFACE "Cancel" [] None]> reqs) ops ts ps (Pos.succ next)
      (tr ++ [SystemdCallAsync (track_job_object_path t) SYSTEMD_JOB_IFACE "Cancel" [] JobCancelCb next;
              ReturnTo m []]) w' /\
    next ∈ ag_outstanding_requests a' /\ 1 < ag_ref_count a') w.
Proof.
  intros H Hok Hc Hm Hf Ht. unfold agent_method_job_cancel. apply wp_bind.
  eapply wp_mono; [by eapply find_jobtracker_spec; [apply H|]|]. intros r w1 (-> & -> & _). rewrite Hf.
  assert (0 < ag_ref_count a) as Hr.
  { destruct Hok as (a' & Ha' & I). assert (a' = a) as -> by (destruct H; congruence).
    pose proof (pi_refs _ _ _ _ _ _ _ _ _ I).
    pose proof (map_card_nonneg (aw_reqs w)). pose proof (map_card_nonneg (aw_ops w)). lia. }
  clear Hok Hf. hs. eexists. rewrite !insert_insert_eq, <- app_assoc in H. split; [exact H|]. cbn.
  split; [|lia]. apply elem_of_app. right. by left.
Qed.

(** C34. Cancelling a tracked job calls systemd's Cancel on the job's object once. The
    controller's request is answered when the call is sent, and the answer of systemd
    then answers the same request a second time. *)
Theorem agent_cancel_answered_twice m id p t ans path a w :
  agent_ok w -> aw_agent w = Some a -> calls_succeed -> messages_succeed ->
  List.find (has_bc_id id w) (ag_tracked_jobs a) = Some p -> aw_trackers w !! p = Some t ->
  wp (_r ← agent_method_job_cancel m (ReadOk id);
      run_systemd_callback (aw_next_ptr w) (MethodReturn ans) path)
    (fun _ w' => aw_trace w' = aw_trace w ++
       [SystemdCallAsync (track_job_object_path t) SYSTEMD_JOB_IFACE "Cancel" [] JobCancelCb
          (aw_next_ptr w); ReturnTo m []; ReturnTo m []]) w.
Proof.
  intros Hw Ha Hc Hm Hf Ht. apply wp_bind.
  eapply wp_mono; [eapply cancel_spec; try done; by split_and!|].
  intros r w1 (a1 & H & Hin & Hr). clear Hw Hf.
  set (reqs := aw_reqs w) in *. set (ops := aw_ops w) in *. set (ts := aw_trackers w) in *.
  set (ps := aw_proxies w) in *. set (next := aw_next_ptr w) in *. set (tr := aw_trace w) in *.
  clearbody reqs ops ts ps next tr. clear dependent w. rename w1 into w. hs.
  destruct H as (_ & _ & _ & _ & _ & _ & ->). by rewrite <- app_assoc.
Qed.
End jobs.

(** ** Instances *)

Lemma agent_job_done_reported_witness :
  wp (agent_match_job_removed (ReadOk (1, "/job/1", "b.service", "done"))) (fun _ w' =>
    match List.find (path_is "/job/1" sample_tracked) (ag_tracked_jobs sample_tracked_agent) with
    | None => w' = sample_tracked
    | Some p => exists tracker o t, aw_trackers sample_tracked !! p = Some tracker /\
        track_job_object_path tracker = "/job/1"%string /\
        aw_ops sample_tracked !! track_userdata tracker = Some o /\
        aw_trace w' = aw_trace sample_tracked ++ job_reports sample_tracked_agent o "done" t /\
        aw_trackers w' = delete p (aw_trackers sample_tracked) /\
        exists a', aw_agent w' = Some a' /\
          ag_tracked_jobs a' = remove_first p (ag_tracked_jobs sample_tracked_agent)
    end) sample_tracked /\
  List.find (path_is "/job/1" sample_tracked) (ag_tracked_jobs sample_tracked_agent) = Some 4%positive.
Proof.
  split; [|vm_compute; reflexivity].
  apply (agent_job_done_reported 1 "/job/1" "b.service" "done" sample_tracked_agent).
  - exact sample_tracked_ok.
  - exact sample_tracked_is.
Defined.

Lemma agent_unit_operation_witness :
  wp (_r ← agent_run_unit_lifecycle_method 5 (ReadOk ("c.service", "replace", 9)) "StartUnit";
      _r ← run_systemd_callback (aw_next_ptr sample_tracked) (MethodReturn 6) (ReadOk "/job/2");
      agent_match_job_removed (ReadOk (2, "/job/2", "c.service", "done")))
    (fun _ w' => exists t u,
       aw_trace w' = aw_trace sample_tracked ++
         [operation_call "c.service" "replace" "StartUnit" (aw_next_ptr sample_tracked); ReturnTo 5 []] ++
         job_reports sample_tracked_agent (operation_op 9 t "c.service" "StartUnit") "done" u /\
       aw_agent w' = aw_agent sample_tracked /\ aw_reqs w' = aw_reqs sample_tracked /\
       aw_ops w' = aw_ops sample_tracked /\
       aw_trackers w' = aw_trackers sample_tracked /\ aw_proxies w' = aw_proxies sample_tracked)
    sample_tracked.
Proof.
  apply agent_unit_operation.
  - exact sample_tracked_ok.
  - exact sample_tracked_is.
  - intros n c. reflexivity || (cbn; lia).
  - intros n. reflexivity || (cbn; lia).
Defined.

Lemma agent_cancel_answered_twice_witness :
  wp (_r ← agent_method_job_cancel 5 (ReadOk 7);
      run_systemd_callback (aw_next_ptr sample_tracked) (MethodReturn 6) (ReadErr 0))
    (fun _ w' => aw_trace w' = aw_trace sample_tracked ++
       [SystemdCallAsync "/job/1" SYSTEMD_JOB_IFACE "Cancel" [] JobCancelCb
          (aw_next_ptr sample_tracked); ReturnTo 5 []; ReturnTo 5 []]) sample_tracked.
Proof.
  apply (agent_cancel_answered_twice 5 7 4 (mkJobTracker "/job/1" 3) 6 (ReadErr 0) sample_tracked_agent).
  - exact sample_tracked_ok.
  - exact sample_tracked_is.
  - intros n c. reflexivity || (cbn; lia).
  - intros n. reflexivity || (cbn; lia).
  - vm_compute. reflexivity.
  - vm_compute. reflexivity.
Defined.

Section units.
Context {E : AgentEnv} {N : Network} {L : AgentEnvLaws E}.

(** A signal to the controller, if there is a connection. *)
Definition told (a : Agent) (member : string) (args : list value) : list acall :=
  match ag_peer_dbus a with
  | Some b => [PeerEmitSignal b INTERNAL_AGENT_OBJECT_PATH INTERNAL_AGENT_INTERFACE member args]
  | None => []
  end.
Definition units_are (a : Agent) (m : gmap string AgentUnitInfo) (tr : list acall) (w : AgentWorld) :
    Prop := aw_agent w = Some (with_units m a) /\ aw_trace w = tr.

Lemma units_end a a' m reqs ops ts ps next tr tr' w :
  heap_is a' reqs ops ts ps next tr' w -> a' = with_units m a -> tr' = tr -> units_are a m tr w.
Proof. intros (Ha & _ & _ & _ & _ & _ & Ht) -> <-. by split. Qed.

(** An ensured entry is written back. *)
Lemma write_ensured unit i a :
  ui_object_path i = ui_object_path (ensured unit a) -> units_inv (ag_unit_infos a) ->
  (with_units (<[unit_path unit := ensured unit a]> (ag_unit_infos a)) a)
    <| ag_unit_infos ::= <[ui_object_path i := i]> |> =
  with_units (<[unit_path unit := i]> (ag_unit_infos a)) a.
Proof.
  intros Hi U. rewrite Hi, (proj1 (ensured_keys unit a U)). 
  change (with_units (<[unit_path unit := i]> (<[unit_path unit := ensured unit a]> (ag_unit_infos a))) a =
          with_units (<[unit_path unit := i]> (ag_unit_infos a)) a).
  by rewrite insert_insert_eq.
Qed.

Lemma unit_new_spec unit path a reqs ops ts ps next tr w :
  heap_is a reqs ops ts ps next tr w -> units_inv (ag_unit_infos a) ->
  wp (agent_match_unit_new (ReadOk (unit, path))) (fun _ w' =>
    let info := ensured unit a in
    units_are a (<[unit_path unit := info <| ui_loaded := true |> <| ui_active_state := Some UNIT_INACTIVE |>
                     <| ui_substate := Some "dead" |>]> (ag_unit_infos a))
      (tr ++ if forwards a info then told a "UnitNew" [VString (ui_unit info); VString "real"] else []) w') w.
Proof.
  intros H U. unfold agent_match_unit_new. hs.
  change (forwards _ (ensured unit a)) with (forwards a (ensured unit a)).
  rewrite write_ensured in H by done. apply wp_bind.
  destruct (forwards a (ensured unit a)); hs; (eapply units_end; [exact H|done|]).
  - done.
  - by rewrite app_nil_r.
Qed.

Definition unloaded (i : AgentUnitInfo) : AgentUnitInfo :=
  i <| ui_loaded := false |> <| ui_active_state := Some _UNIT_ACTIVE_STATE_INVALID |>
    <| ui_substate := None |>.

(** An entry is written back and then dropped unless it is of use. *)
Lemma drop_entry path i i' a reqs ops ts ps next tr w (k : void -> AM Z) Q :
  heap_is ((a <| ag_unit_infos ::= <[ui_object_path i' := i']> |>)) reqs ops ts ps next tr w ->
  ui_object_path i' = path -> ag_unit_infos a !! path = Some i ->
  (forall w, heap_is (with_units (if useful i' then <[path := i']> (ag_unit_infos a)
                                  else delete path (ag_unit_infos a)) a) reqs ops ts ps next tr w ->
     wp (k tt) Q w) ->
  wp (agent_update_unit_infos_for i' ≫= k) Q w.
Proof.
  intros H Hp Hi Hk. unfold agent_update_unit_infos_for, useful in *. rewrite Hp in H |- *.
  apply wp_bind. destruct (ui_subscribed i'), (ui_loaded i'); cbn [negb andb orb] in *.
  1,2,3: apply wp_ret, Hk; exact H.
  unfold upd_unit_infos. eapply wp_tail. eapply (hs_upd_agent H). clear dependent w. intros w H.
  apply wp_ret, Hk.
  assert (with_units (delete path (<[path := i']> (ag_unit_infos a))) a =
          with_units (delete path (ag_unit_infos a)) a) as <- by (by rewrite delete_insert_eq).
  exact H.
Qed.

Lemma unit_removed_spec unit path i a reqs ops ts ps next tr w :
  heap_is a reqs ops ts ps next tr w -> units_inv (ag_unit_infos a) ->
  ag_unit_infos a !! path = Some i ->
  wp (agent_match_unit_removed (ReadOk (unit, path))) (fun _ w' =>
    units_are a (if ui_subscribed i then <[path := unloaded i]> (ag_unit_infos a)
                 else delete path (ag_unit_infos a))
      (tr ++ if forwards a i then told a "UnitRemoved" [VString (ui_unit i)] else []) w') w.
Proof.
  intros H U Hi. destruct (U _ _ Hi) as (Hp & _ & _). unfold agent_match_unit_removed. hs.
  rewrite Hi. hs. fold (unloaded i) in *.
  change (forwards _ (unloaded i)) with (forwards a i). apply wp_bind.
  assert (useful (unloaded i) = ui_subscribed i) as Huse by apply orb_false_r.
  rewrite <- Huse.
  destruct (forwards a i); hs; (eapply drop_entry; [exact H|done|done|]); clear dependent w;
    intros w H; hs; (eapply units_end; [exact H|done|]).
  - done.
  - by rewrite app_nil_r.
Qed.

Lemma subscribe_spec m unit a reqs ops ts ps next tr w :
  heap_is a reqs ops ts ps next tr w -> units_inv (ag_unit_infos a) -> is_wildcard unit = false ->
  calls_succeed ->
  wp (agent_method_subscribe m (ReadOk unit)) (fun _ w' =>
    let info := ensured unit a in
    if ui_subscribed info then units_are a (ag_unit_infos a) (tr ++ [ErrorTo m SD_BUS_ERROR_FAILED]) w'
    else units_are a (<[unit_path unit := info <| ui_subscribed := true |>]> (ag_unit_infos a))
      (tr ++ (if ui_loaded info then
                told a "UnitNew" [VString (ui_unit info); VString "virtual"] ++
                (if bool_decide (ui_active_state info = Some _UNIT_ACTIVE_STATE_INVALID) then []
                 else told a "UnitStateChanged"
                        [VString (ui_unit info); VString (state_to_string (ui_active_state info));
                         VString (unit_info_get_substate info); VString "virtual"])
              else []) ++ [ReturnTo m []]) w') w.
Proof.
  intros H U Hw Hc. unfold agent_method_subscribe. rewrite Hw. hs.
  destruct (ui_subscribed (ensured unit a)) eqn:Hs.
  { assert (ag_unit_infos a !! unit_path unit = Some (ensured unit a)) as Hi.
    { unfold ensured in *. by destruct (ag_unit_infos a !! unit_path unit). }
    rewrite insert_id in H by done. hs. by eapply units_end; [exact H|..]. }
  hs. rewrite write_ensured in H by done. apply wp_bind.
  destruct (ui_loaded (ensured unit a)); hs.
  - case_bool_decide; cbn [negb]; hs; (eapply units_end; [exact H|done|]);
      unfold told; change (ag_peer_dbus (with_units _ a)) with (ag_peer_dbus a);
      destruct (ag_peer_dbus a); cbn [app]; by rewrite <- ?app_assoc, ?app_nil_r.
  - by eapply units_end; [exact H|..].
Qed.

Lemma wildcard_subscribe_spec m unit a reqs ops ts ps next tr w :
  heap_is a reqs ops ts ps next tr w -> is_wildcard unit = true ->
  ag_wildcard_subscription_active a = false -> calls_succeed ->
  wp (agent_method_subscribe m (ReadOk unit)) (fun _ w' =>
    aw_agent w' = Some (a <| ag_wildcard_subscription_active := true |>) /\
    aw_trace w' = tr ++ told a "UnitNew" [VString unit; VString "virtual"] ++ [ReturnTo m []]) w.
Proof.
  intros H Hw Hs Hc. unfold agent_method_subscribe. rewrite Hw. eapply (hs_agent H). rewrite Hs.
  cbn beta iota. hs. destruct H as (-> & _ & _ & _ & _ & _ & ->). split; [done|].
  unfold told. cbn. destruct (ag_peer_dbus a); by rewrite <- ?app_assoc, ?app_nil_r.
Qed.
Lemma wildcard_unsubscribe_spec m unit a reqs ops ts ps next tr w :
  heap_is a reqs ops ts ps next tr w -> is_wildcard unit = true ->
  ag_wildcard_subscription_active a = true -> calls_succeed ->
  wp (agent_method_unsubscribe m (ReadOk unit)) (fun _ w' =>
    aw_agent w' = Some (a <| ag_wildcard_subscription_active := false |>) /\
    aw_trace w' = tr ++ [ReturnTo m []]) w.
Proof.
  intros H Hw Hs Hc. unfold agent_method_unsubscribe. rewrite Hw. eapply (hs_agent H). rewrite Hs.
  cbn beta iota. hs. by destruct H as (-> & _ & _ & _ & _ & _ & ->).
Qed.

(** C16. A unit that systemd loads is recorded as inactive and announced to the
    controller as new, and one that systemd unloads as removed, exactly if the
    controller has subscribed to the unit or to all units; the record of an unloaded
    unit is kept as long as the controller is subscribed to it. *)
Theorem agent_unit_signals_forwarded unit path a w :
  agent_ok w -> aw_agent w = Some a ->
  wp (agent_match_unit_new (ReadOk (unit, path))) (fun _ w' =>
    let info := ensured unit a in
    units_are a (<[unit_path unit := info <| ui_loaded := true |> <| ui_active_state := Some UNIT_INACTIVE |>
                     <| ui_substate := Some "dead" |>]> (ag_unit_infos a))
      (aw_trace w ++ if forwards a info then told a "UnitNew" [VString (ui_unit info); VString "real"]
                     else []) w') w /\
  wp (agent_match_unit_removed (ReadOk (unit, path))) (fun _ w' =>
    match ag_unit_infos a !! path with
    | None => w' = w
    | Some i => units_are a (if ui_subscribed i then <[path := unloaded i]> (ag_unit_infos a)
                             else delete path (ag_unit_infos a))
        (aw_trace w ++ if forwards a i then told a "UnitRemoved" [VString (ui_unit i)] else []) w'
    end) w.
Proof.
  intros Hw Ha. pose proof Hw as (a' & Ha' & I). assert (a' = a) as -> by congruence.
  pose proof (pi_units _ _ _ _ _ _ _ _ _ I) as U.
  assert (heap_is a (aw_reqs w) (aw_ops w) (aw_trackers w) (aw_proxies w) (aw_next_ptr w)
            (aw_trace w) w) as H by by split_and!.
  split; [by eapply unit_new_spec|]. destruct (ag_unit_infos a !! path) as [i|] eqn:Hi.
  - by eapply unit_removed_spec.
  - unfold agent_match_unit_removed, agent_get_unit_info. awp_go. by rewrite Hi.
Qed.

(** C17. A subscription of the controller to a unit is recorded and answered, after
    the agent has replayed what it knows: that a loaded unit exists and its state. A
    unit the controller has subscribed to before is answered with an error and
    nothing is replayed, also when the controller has lost the connection since. *)
Theorem agent_subscribe_correct m unit a w :
  agent_ok w -> aw_agent w = Some a -> is_wildcard unit = false -> calls_succeed ->
  wp (agent_method_subscribe m (ReadOk unit)) (fun _ w' =>
    let info := ensured unit a in
    if ui_subscribed info
    then units_are a (ag_unit_infos a) (aw_trace w ++ [ErrorTo m SD_BUS_ERROR_FAILED]) w'
    else units_are a (<[unit_path unit := info <| ui_subscribed := true |>]> (ag_unit_infos a))
      (aw_trace w ++
         (if ui_loaded info then
            told a "UnitNew" [VString (ui_unit info); VString "virtual"] ++
            (if bool_decide (ui_active_state info = Some _UNIT_ACTIVE_STATE_INVALID) then []
             else told a "UnitStateChanged"
                    [VString (ui_unit info); VString (state_to_string (ui_active_state info));
                     VString (unit_info_get_substate info); VString "virtual"])
          else []) ++ [ReturnTo m []]) w') w.
Proof.
  intros Hw Ha Hwild Hc. pose proof Hw as (a' & Ha' & I). assert (a' = a) as -> by congruence.
  eapply subscribe_spec; [by split_and!|apply I|done|done].
Qed.

Lemma unsubscribe_spec m unit i a reqs ops ts ps next tr w :
  heap_is a reqs ops ts ps next tr w -> units_inv (ag_unit_infos a) -> is_wildcard unit = false ->
  calls_succeed -> ag_unit_infos a !! unit_path unit = Some i -> ui_subscribed i = true ->
  wp (agent_method_unsubscribe m (ReadOk unit)) (fun _ w' =>
    units_are a (if ui_loaded i then <[unit_path unit := i <| ui_subscribed := false |>]> (ag_unit_infos a)
                 else delete (unit_path unit) (ag_unit_infos a)) (tr ++ [ReturnTo m []]) w') w.
Proof.
  intros H U Hw Hc Hi Hs. destruct (U _ _ Hi) as (Hp & _ & _).
  unfold agent_method_unsubscribe. rewrite Hw. hs. rewrite Hi. hs. rewrite Hs. cbn [negb]. hs.
  change (ui_loaded i) with (useful (i <| ui_subscribed := false |>)).
  eapply drop_entry; [exact H|done|done|]. clear dependent w. intros w H. hs.
  by eapply units_end; [exact H|..].
Qed.

(** Subscribing to a unit and unsubscribing again restores what the agent knows of
    the units, whether systemd has loaded the unit or not. *)
Theorem agent_subscription_roundtrip m m' unit a w :
  agent_ok w -> aw_agent w = Some a -> is_wildcard unit = false -> calls_succeed ->
  ui_subscribed (ensured unit a) = false ->
  wp (_r ← agent_method_subscribe m (ReadOk unit); agent_method_unsubscribe m' (ReadOk unit))
    (fun _ w' => aw_agent w' = Some a) w.
Proof.
  intros Hw Ha Hwild Hc Hs. pose proof Hw as (a' & Ha' & I). assert (a' = a) as -> by congruence.
  pose proof (pi_units _ _ _ _ _ _ _ _ _ I) as U.
  destruct (ensured_keys unit a U) as [Hk1 Hk2].
  apply wp_bind. eapply wp_mono; [eapply subscribe_spec; [by split_and!|done|done|done]|].
  intros r w1. cbn zeta. rewrite Hs. intros [Ha1 _]. set (i := _ <| ui_subscribed := true |>) in Ha1.
  eapply wp_mono; [eapply (unsubscribe_spec m' unit i); [by split_and!| |done|done| |done]|].
  - by apply units_inv_insert.
  - apply lookup_insert_eq.
  - intros r2 w2 [-> _]. f_equal.
    assert (forall x y, with_units x (with_units y a) = with_units x a) as -> by done.
    assert (forall x, ag_unit_infos (with_units x a) = x) as -> by done.
    rewrite delete_insert_eq, insert_insert_eq.
    assert (ui_loaded i = ui_loaded (ensured unit a)) as Hl by done.
    assert (i <| ui_subscribed := false |> = ensured unit a) as Hi.
    { unfold i. destruct (ensured unit a). cbn in *. by subst. }
    rewrite Hl, Hi. unfold ensured in *.
    destruct (ag_unit_infos a !! unit_path unit) as [j|] eqn:Hj; cbn [default from_option] in *; unfold id in *.
    + destruct (U _ _ Hj) as (_ & _ & Huse). unfold useful in Huse. rewrite Hs in Huse. cbn in Huse.
      rewrite Huse, insert_id by done. by destruct a.
    + rewrite delete_id by done. by destruct a.
Qed.
End units.

(** ** Instances *)

Lemma agent_unit_signals_forwarded_witness :
  wp (agent_match_unit_new (ReadOk ("b.service", "/b"))) (fun _ w' =>
    let info := ensured "b.service" sample_tracked_agent in
    units_are sample_tracked_agent
      (<[unit_path "b.service" := info <| ui_loaded := true |> <| ui_active_state := Some UNIT_INACTIVE |>
                     <| ui_substate := Some "dead" |>]> (ag_unit_infos sample_tracked_agent))
      (aw_trace sample_tracked ++ if forwards sample_tracked_agent info
         then told sample_tracked_agent "UnitNew" [VString (ui_unit info); VString "real"] else []) w')
    sample_tracked.
Proof.
  exact (proj1 (agent_unit_signals_forwarded "b.service" "/b" sample_tracked_agent sample_tracked
    sample_tracked_ok sample_tracked_is)).
Defined.

Lemma agent_subscribe_correct_witness :
  wp (agent_method_subscribe 5 (ReadOk "a.service")) (fun _ w' =>
    let info := ensured "a.service" sample_tracked_agent in
    if ui_subscribed info
    then units_are sample_tracked_agent (ag_unit_infos sample_tracked_agent)
           (aw_trace sample_tracked ++ [ErrorTo 5 SD_BUS_ERROR_FAILED]) w'
    else units_are sample_tracked_agent
      (<[unit_path "a.service" := info <| ui_subscribed := true |>]> (ag_unit_infos sample_tracked_agent))
      (aw_trace sample_tracked ++
         (if ui_loaded info then
            told sample_tracked_agent "UnitNew" [VString (ui_unit info); VString "virtual"] ++
            (if bool_decide (ui_active_state info = Some _UNIT_ACTIVE_STATE_INVALID) then []
             else told sample_tracked_agent "UnitStateChanged"
                    [VString (ui_unit info); VString (state_to_string (ui_active_state info));
                     VString (unit_info_get_substate info); VString "virtual"])
          else []) ++ [ReturnTo 5 []]) w') sample_tracked /\
  ui_loaded (ensured "a.service" sample_tracked_agent) = true.
Proof.
  split; [|vm_compute; reflexivity].
  apply (agent_subscribe_correct 5 "a.service" sample_tracked_agent sample_tracked
           sample_tracked_ok sample_tracked_is); [reflexivity|].
  intros n c. reflexivity || (cbn; lia).
Defined.

Lemma agent_subscription_roundtrip_witness :
  wp (_r ← agent_method_subscribe 5 (ReadOk "a.service");
      agent_method_unsubscribe 6 (ReadOk "a.service"))
    (fun _ w' => aw_agent w' = Some sample_tracked_agent) sample_tracked.
Proof.
  apply (agent_subscription_roundtrip 5 6 "a.service" sample_tracked_agent sample_tracked
           sample_tracked_ok sample_tracked_is); [reflexivity| |vm_compute; reflexivity].
  intros n c. reflexivity || (cbn; lia).
Defined.
