(* ===== verification/AgentProxyTheorems.v ===== *)
(** The proxies of the agent: what a state change of the target unit does to the
    service that waits for it. *)
From S2P Require Import Prelude CString StringUtil ParseUtil TimeUtil Protocol BusUtils Log Cfg.
From S2P Require Import Socket BusProps World AgentWorld AgentRequests AgentUnits AgentProxy.
From S2P Require Import Agent AgentEvents WorldFacts AgentFacts AgentSafe AgentSteps AgentProxySteps.
From S2P Require Import AgentRuns AgentTheorems AgentConnection AgentSample AgentLifeTheorems AgentExec.
From S2P Require Import AgentJobTheorems.

Local Open Scope list_scope.

Section proxies.
Context {E : AgentEnv} {N : Network} {L : AgentEnvLaws E}.

(** The controller is told of the removal if it knows the proxy. *)
Definition told_removed (a : Agent) (q : ProxyService) : list acall :=
  if ps_sent_new_proxy q && bool_decide (ag_connection_state a = CONNECTED)
  then told a "ProxyRemoved" [VString (ps_node_name q); VString (ps_unit_name q)] else [].

(** The call that stops the local service of the proxy. *)
Definition stop_call (q : ProxyService) (req : ptr) : acall :=
  SystemdCallAsync SYSTEMD_OBJECT_PATH SYSTEMD_MANAGER_IFACE "StopUnit"
    [VString (ps_local_service_name q); VString "replace"] StopProxyCb req.

Lemma told_removed_step {B} p q a reqs ops ts ps next tr w (k : Z -> AM B) Q :
  heap_is a reqs ops ts ps next tr w -> ps !! p = Some q -> ps_agent q = true ->
  (forall r w, heap_is a reqs ops ts ps next (tr ++ told_removed a q) w -> wp (k r) Q w) ->
  wp (proxy_service_emit_proxy_removed p ≫= k) Q w.
Proof.
  intros H Hp Ha Hk. unfold proxy_service_emit_proxy_removed, told_removed, proxy_agent in *.
  apply wp_bind. hs. destruct (ps_sent_new_proxy q); cbn [negb andb] in *.
  2:{ apply wp_ret. eapply Hk. by rewrite app_nil_r. }
  rewrite Ha. hs. unfold agent_is_connected. destruct (bool_decide _); cbn [negb].
  - hs. by eapply Hk.
  - apply wp_ret. eapply Hk. by rewrite app_nil_r.
Qed.

(** The local service is stopped, unless that is under way or was not wanted. *)
Definition stopped_service (q : ProxyService) (req : ptr) : list acall :=
  if ps_dont_stop_proxy q then [] else [stop_call q req].

Lemma stop_local_step {B} p q a reqs ops ts ps next tr w (k : Z -> AM B) Q :
  heap_is a reqs ops ts ps next tr w -> ps !! p = Some q -> 0 < ag_ref_count a ->
  calls_succeed -> messages_succeed ->
  (forall r a' reqs' next' w,
     ag_proxy_services a' = ag_proxy_services a ->
     heap_is a' reqs' ops ts (<[p := q <| ps_dont_stop_proxy := true |>]> ps) next'
       (tr ++ stopped_service q next) w -> wp (k r) Q w) ->
  wp (agent_stop_local_proxy_service p ≫= k) Q w.
Proof.
  intros H Hp Hr Hc Hm Hk. unfold agent_stop_local_proxy_service, stopped_service in *.
  apply wp_bind. hs. destruct (ps_dont_stop_proxy q) eqn:Hd.
  - apply wp_ret. eapply (Hk _ a reqs next); [done|]. rewrite app_nil_r, insert_id; [exact H|].
    rewrite Hp. f_equal. destruct q. cbn in *. by subst.
  - hs. eapply (Hk _ _ _ _ w); [|exact H]. done.
Qed.

Lemma remove_step {B} p q a reqs ops ts ps next tr w (k : void -> AM B) Q :
  heap_is a reqs ops ts ps next tr w -> ps !! p = Some q -> ps_agent q = true ->
  ps_request_message q = None -> 1 < ps_ref_count q -> p ∈ ag_proxy_services a ->
  0 < ag_ref_count a -> calls_succeed -> messages_succeed ->
  (forall a' reqs' next' q' w,
     ag_proxy_services a' = remove_first p (ag_proxy_services a) ->
     ps_ref_count q' = Z.pred (ps_ref_count q) ->
     heap_is a' reqs' ops ts (<[p := q']> ps) next'
       (tr ++ told_removed a q ++ (if ps_sent_successful_ready q then stopped_service q next else [])) w ->
     wp (k tt) Q w) ->
  wp (agent_remove_proxy p true ≫= k) Q w.
Proof.
  intros H Hp Ha Hrm Href Hin Hr Hc Hm Hk. unfold agent_remove_proxy. apply wp_bind. hs.
  eapply hs_assert; [exact Ha|]. apply wp_bind.
  eapply told_removed_step; [exact H|exact Hp|exact Ha|]. clear dependent w. intros r1 w H.
  apply wp_ret. rewrite Hrm. hs. apply wp_bind.
  assert (forall a' reqs' next' q' w,
    ag_proxy_services a' = ag_proxy_services a -> ps_ref_count q' = ps_ref_count q ->
    heap_is a' reqs' ops ts (<[p := q']> ps) next'
      (tr ++ told_removed a q ++ (if ps_sent_successful_ready q then stopped_service q next else [])) w ->
    wp (proxy_service_unexport p ;;
        a ← the_agent;
        l ← alist_remove_from p (ag_proxy_services a);
        upd_agent (fun a => a <| ag_proxy_services := l |>) ;;
        upd_proxy p (fun q => q <| ps_agent := false |>) ;;
        proxy_service_unref p) (fun x => wp (k x) Q) w) as Hrest.
  { clear dependent w. intros a' reqs' next' q' w Hs Href' H.
    assert (p ∈ ag_proxy_services a') as Hin' by by rewrite Hs.
    hs. eapply (Hk _ _ _ _ w); [| |rewrite !insert_insert_eq in H; exact H].
    - cbn. by rewrite Hs.
    - cbn. lia. }
  destruct (ps_sent_successful_ready q).
  - eapply stop_local_step; [exact H|exact Hp|done|done|done|].
    clear dependent w. intros r2 a' reqs' next' w Hs H. apply wp_ret.
    eapply (Hrest _ _ _ _ w); [exact Hs| |rewrite <- app_assoc in H; exact H]. done.
  - apply wp_ret. eapply (Hrest a reqs next q w); [done|done|].
    rewrite insert_id, app_nil_r by done. exact H.
Qed.

(** What the report of the state [s] of the target unit does to the proxy [q]: the
    calls made before the report is answered, and the proxy afterwards, if it stays. *)
Inductive reaction :=
| Ignored
| Ready (rm : ptr)       (* the service is told that its target is active *)
| Failed (rm : ptr)      (* the service is told that its target has failed *)
| Stopped.               (* the target has stopped; so is the service *)

Definition reaction_to (q : ProxyService) (s : UnitActiveState) (reason : string) : reaction :=
  match ps_request_message q with
  | Some rm =>
      if bool_decide (s = UNIT_ACTIVE) then Ready rm
      else if stopped_state s && streq reason "real" then Failed rm else Ignored
  | None =>
      if ps_sent_successful_ready q && (stopped_state s && streq reason "real") then Stopped else Ignored
  end.

Definition reaction_calls (a : Agent) (q : ProxyService) (req : ptr) (r : reaction) : list acall :=
  match r with
  | Ignored => []
  | Ready rm => [ReturnTo rm []]
  | Failed rm => [ErrorTo rm BC_BUS_ERROR_ACTIVATION_FAILED] ++ told_removed a q
  | Stopped => told_removed a q ++ stopped_service q req
  end.

Definition reaction_proxies (p : ptr) (q : ProxyService) (r : reaction) (ps : gmap ptr ProxyService) :
    gmap ptr ProxyService :=
  match r with
  | Ignored => ps
  | Ready _ => <[p := q <| ps_sent_successful_ready := true |> <| ps_request_message := None |>]> ps
  | Failed _ | Stopped => delete p ps
  end.

(** Dropping the reference of [with_proxy] after the proxy has left the list. *)
Lemma drop_last {B} p q a reqs ops ts ps next tr w (k : void -> AM B) Q :
  heap_is a reqs ops ts (<[p := q]> ps) next tr w -> ps_ref_count q = 1 -> p ∉ ag_proxy_services a ->
  (forall w, heap_is a reqs ops ts (delete p ps) next tr w -> wp (k tt) Q w) ->
  wp (proxy_service_unref p ≫= k) Q w.
Proof.
  intros H Hq Hn Hk. unfold proxy_service_unref, upd_proxy. apply wp_bind.
  eapply (hs_upd_px H); [by rewrite lookup_insert_eq|]. clear dependent w. intros w H.
  eapply (hs_load_px H); [by rewrite lookup_insert_eq|].
  change (ps_ref_count _) with (Z.pred (ps_ref_count q)). rewrite Hq. cbn [Z.pred Z.add Z.eqb negb].
  eapply (hs_agent H). apply wp_bind, wp_assert.
  { apply bool_decide_eq_true. by left. }
  eapply (hs_free_px H); [by rewrite lookup_insert_eq|]. clear dependent w. intros w H.
  rewrite !delete_insert_eq in H. by apply Hk.
Qed.

Lemma ready_step {B} p q rm a reqs ops ts ps next tr w (k : void -> AM B) Q :
  heap_is a reqs ops ts ps next tr w -> ps !! p = Some q -> ps_request_message q = Some rm ->
  calls_succeed ->
  (forall w, heap_is a reqs ops ts
     (<[p := q <| ps_sent_successful_ready := true |> <| ps_request_message := None |>]> ps) next
     (tr ++ [ReturnTo rm []]) w -> wp (k tt) Q w) ->
  wp (proxy_service_initial_state_reached p true ≫= k) Q w.
Proof.
  intros H Hp Hrm Hc Hk. unfold proxy_service_initial_state_reached. apply wp_bind. hs.
  rewrite Hrm. hs. rewrite insert_insert_eq in H. by apply Hk.
Qed.

Lemma failed_step {B} p q rm a reqs ops ts ps next tr w (k : void -> AM B) Q :
  heap_is a reqs ops ts ps next tr w -> ps !! p = Some q -> ps_request_message q = Some rm ->
  ps_agent q = true -> ps_sent_successful_ready q = false -> 1 < ps_ref_count q ->
  p ∈ ag_proxy_services a -> 0 < ag_ref_count a -> calls_succeed -> messages_succeed ->
  (forall a' reqs' next' q' w,
     ag_proxy_services a' = remove_first p (ag_proxy_services a) ->
     ps_ref_count q' = Z.pred (ps_ref_count q) ->
     heap_is a' reqs' ops ts (<[p := q']> ps) next'
       (tr ++ [ErrorTo rm BC_BUS_ERROR_ACTIVATION_FAILED] ++ told_removed a q) w ->
     wp (k tt) Q w) ->
  wp (proxy_service_initial_state_reached p false ≫= k) Q w.
Proof.
  intros H Hp Hrm Ha Hrd Href Hin Hr Hc Hm Hk. unfold proxy_service_initial_state_reached.
  apply wp_bind. hs. rewrite Hrm. hs.
  change (ps_sent_successful_ready _) with (ps_sent_successful_ready q). rewrite Hrd. cbn [negb].
  apply wp_tail. eapply remove_step; [exact H|by rewrite lookup_insert_eq|done..|].
  clear dependent w. intros a' reqs' next' q' w Hs Href' H. apply wp_ret.
  apply (Hk a' reqs' next' q' w Hs Href'). rewrite insert_insert_eq in H.
  change (ps_sent_successful_ready (q <| ps_request_message := None |>))
    with (ps_sent_successful_ready q) in H. rewrite Hrd, app_nil_r, <- app_assoc in H. exact H.
Qed.

(** The end of the report: it is answered and the reference held during it dropped. *)
Definition report_end (m p : ptr) : AM Z :=
  r ← return_to m []; proxy_service_unref p ;; mret r.
Definition ends_with (ps : gmap ptr ProxyService) (tr : list acall) (w : AgentWorld) : Prop :=
  aw_proxies w = ps /\ aw_trace w = tr.

Lemma stay_end m p q a reqs ops ts ps next tr w :
  heap_is a reqs ops ts (<[p := q <| ps_ref_count ::= Z.succ |>]> ps) next tr w ->
  ps_ref_count q = 1 -> calls_succeed ->
  wp (report_end m p) (fun _ => ends_with (<[p := q]> ps) (tr ++ [ReturnTo m []])) w.
Proof.
  intros H Hq Hc. unfold report_end. hs. rewrite !insert_insert_eq in H.
  destruct H as (_ & _ & _ & _ & Hps & _ & Ht). split; [|done]. rewrite Hps. f_equal.
  destruct q. cbn in *. f_equal. lia.
Qed.

Lemma gone_end m p q a reqs ops ts ps next tr w :
  heap_is a reqs ops ts (<[p := q]> ps) next tr w -> ps_ref_count q = 1 ->
  p ∉ ag_proxy_services a -> calls_succeed ->
  wp (report_end m p) (fun _ => ends_with (delete p ps) (tr ++ [ReturnTo m []])) w.
Proof.
  intros H Hq Hn Hc. unfold report_end, return_to. eapply (hs_bus H); [done|]. clear dependent w.
  intros r w Hr H. eapply drop_last; [exact H|done|done|]. clear dependent w. intros w H.
  apply wp_ret. by destruct H as (_ & _ & _ & _ & Hps & _ & Ht).
Qed.

Lemma report_assoc (body : AM void) m p (Q : Z -> AgentWorld -> Prop) w :
  wp (body ≫= fun _ => report_end m p) Q w ->
  wp (body ≫= fun _ => return_to m []) (fun x => wp (proxy_service_unref p ;; mret x) Q) w.
Proof.
  intros H%wp_bind_inv. apply wp_bind. eapply wp_mono; [exact H|]. intros [] w1 H1.
  by apply wp_bind_inv in H1.
Qed.

Lemma state_changed_spec m state sub reason p q a reqs ops ts ps next tr w :
  heap_is a reqs ops ts ps next tr w -> ps !! p = Some q -> calls_succeed -> messages_succeed ->
  (ps_request_message q = None \/ ps_sent_successful_ready q = false) -> ps_agent q = true ->
  p ∈ ag_proxy_services a -> p ∉ remove_first p (ag_proxy_services a) ->
  ps_ref_count q = 1 -> 0 < ag_ref_count a ->
  wp (proxy_service_method_target_state_changed m (ReadOk (state, sub, reason)) p) (fun _ =>
    let r := reaction_to q (active_state_from_string state) reason in
    ends_with (reaction_proxies p q r ps) (tr ++ reaction_calls a q next r ++ [ReturnTo m []])) w.
Proof.
  intros H Hp Hc Hm Hrd Hqa Hin Hnin Href Hr.
  unfold proxy_service_method_target_state_changed, with_proxy. hs.
  set (q1 := q <| ps_ref_count ::= Z.succ |>) in *.
  change (ps_agent q1) with (ps_agent q). rewrite Hqa. cbn [negb]. cbn zeta.
  change (ps_request_message q1) with (ps_request_message q).
  change (ps_sent_successful_ready q1) with (ps_sent_successful_ready q).
  assert (1 < ps_ref_count q1) as Href1 by (cbn; lia).
  assert (<[p := q1]> ps !! p = Some q1) as Hp1 by apply lookup_insert_eq.
  set (s := active_state_from_string state).
  apply report_assoc. unfold reaction_to.
  assert (forall w, heap_is a reqs ops ts (<[p := q1]> ps) next tr w ->
    wp (report_end m p) (fun _ => ends_with ps (tr ++ [] ++ [ReturnTo m []])) w) as Hstay.
  { intros w' H'. eapply wp_mono; [by eapply (stay_end m p q)|]. intros r w1. by rewrite insert_id. }
  destruct (ps_request_message q) as [rm|] eqn:Hrm.
  - destruct Hrd as [?|Hrd]; [done|]. case_bool_decide; cbn [reaction_proxies reaction_calls].
    { eapply (ready_step p q1 rm); [exact H|done|done|done|]. intros w1 H1. rewrite insert_insert_eq in H1.
      set (q2 := q <| ps_sent_successful_ready := true |> <| ps_request_message := None |>).
      eapply wp_mono; [by eapply (stay_end m p q2); [exact H1|..]|]. intros r w2 [? Ht]. split; [done|].
      by rewrite Ht, <- app_assoc. }
    destruct (stopped_state s && streq reason "real"); [|by apply wp_bind, wp_ret, Hstay].
    eapply (failed_step p q1 rm); [exact H|done..|].
    intros a' reqs' next' q' w1 Hs Hq' H1. rewrite insert_insert_eq in H1.
    eapply wp_mono; [eapply (gone_end m p q'); [exact H1| |by rewrite Hs|done]|].
    { rewrite Hq'. cbn. lia. }
    intros r w2 [? Ht]. split; [done|]. by rewrite Ht, <- !app_assoc.
  - destruct (ps_sent_successful_ready q) eqn:Hready; cbn [andb]; [|by apply wp_bind, wp_ret, Hstay].
    destruct (stopped_state s && streq reason "real"); [|by apply wp_bind, wp_ret, Hstay].
    unfold proxy_service_target_stopped. cbn [reaction_proxies reaction_calls].
    apply wp_bind. eapply (hs_load_px H); [done|]. eapply hs_assert; [by apply bool_decide_eq_true|].
    apply wp_tail. eapply (remove_step p q1); [exact H|done..|].
    intros a' reqs' next' q' w1 Hs Hq' H1. rewrite insert_insert_eq in H1. apply wp_ret.
    change (ps_sent_successful_ready q1) with (ps_sent_successful_ready q) in H1. rewrite Hready in H1.
    eapply wp_mono; [eapply (gone_end m p q'); [exact H1| |by rewrite Hs|done]|].
    { rewrite Hq'. cbn. lia. }
    intros r w2 [? Ht]. split; [done|]. by rewrite Ht, <- !app_assoc.
Qed.

(** C18. The report of a state of a proxy's target unit, for every state: while the
    service waits, an active target answers its request and a target that really
    failed or stopped answers it with an error and removes the proxy; after that, a
    target that really stops removes the proxy and stops the service; any other
    report changes nothing. The report itself is answered in every case. *)
Theorem agent_proxy_state_changed m state sub reason p q a w :
  agent_ok w -> aw_agent w = Some a -> aw_proxies w !! p = Some q -> calls_succeed ->
  messages_succeed -> (ps_request_message q = None \/ ps_sent_successful_ready q = false) ->
  wp (proxy_service_method_target_state_changed m (ReadOk (state, sub, reason)) p) (fun _ w' =>
    let r := reaction_to q (active_state_from_string state) reason in
    aw_proxies w' = reaction_proxies p q r (aw_proxies w) /\
    aw_trace w' = aw_trace w ++ reaction_calls a q (aw_next_ptr w) r ++ [ReturnTo m []]) w.
Proof.
  intros Hw Ha Hp Hc Hm Hrd. destruct (present_listed p w Hw (ex_intro _ q Hp)) as
    (a1 & q1 & Ha1 & Hq1 & Hqa & Hin). assert (a1 = a) as -> by congruence.
  assert (q1 = q) as -> by congruence. apply bool_decide_eq_true in Hin.
  destruct Hw as (a1 & Ha2 & I). assert (a1 = a) as -> by congruence.
  destruct (px_refs _ _ _ (pi_proxies _ _ _ _ _ _ _ _ _ I) p q Hp) as [Href _].
  rewrite bool_decide_eq_true_2 in Href by done. unfold none_held in Href. cbn in Href.
  eapply state_changed_spec; [by split_and!|done|done|done|done|done|done| |lia|].
  - rewrite elem_of_remove_first; [tauto|apply I].
  - pose proof (pi_refs _ _ _ _ _ _ _ _ _ I). pose proof (map_card_nonneg (aw_reqs w)).
    pose proof (map_card_nonneg (aw_ops w)). lia.
Qed.
End proxies.

(** ** Instance: a service waits for a target, which becomes active *)

Definition sample_waiting : AgentWorld :=
  reached (agent_loop [EvClient 8 (CreateProxy (ReadOk ("bluechi-proxy@x.service", "pi", "x.service")))])
    sample_tracked.
Definition sample_waiting_agent : Agent := default sample_agent (aw_agent sample_waiting).
Definition sample_proxy : ProxyService :=
  default (mkProxyService 0 0 false "" "" "" None false false false None "")
    (aw_proxies sample_waiting !! 5%positive).

Lemma agent_proxy_state_changed_witness :
  wp (proxy_service_method_target_state_changed 9 (ReadOk ("active", "running", "real")) 5) (fun _ w' =>
    let r := reaction_to sample_proxy (active_state_from_string "active") "real" in
    aw_proxies w' = reaction_proxies 5 sample_proxy r (aw_proxies sample_waiting) /\
    aw_trace w' = aw_trace sample_waiting ++
      reaction_calls sample_waiting_agent sample_proxy (aw_next_ptr sample_waiting) r ++ [ReturnTo 9 []])
    sample_waiting /\
  reaction_to sample_proxy (active_state_from_string "active") "real" = Ready 8.
Proof.
  split; [|vm_compute; reflexivity].
  apply (agent_proxy_state_changed 9 "active" "running" "real" 5 sample_proxy sample_waiting_agent).
  - apply reached_ok, prompt_loop; [vm_compute; reflexivity|exact sample_tracked_ok].
  - vm_compute. reflexivity.
  - vm_compute. reflexivity.
  - intros n c. reflexivity || (cbn; lia).
  - intros n. reflexivity || (cbn; lia).
  - right. vm_compute. reflexivity.
Defined.
