(* ===== verification/System.v ===== *)
(** The controller and one agent connected: the messages each sends on the private
    connection are what the other receives, decoded by the vtables and the matches
    of the receiver. Between the two, messages are delivered in the order in which
    they were sent. A unit operation from the client's request to systemd and back to
    the report of its end. *)
From S2P Require Import Prelude CString StringUtil ParseUtil TimeUtil Protocol BusUtils Log Cfg.
From S2P Require Import Socket BusProps World Job Events Subscriptions Monitor Proxy Requests.
From S2P Require Import Node.
From S2P Require Import AgentWorld AgentRequests AgentUnits AgentProxy Agent AgentEvents.
From S2P Require Import WorldFacts EventFacts RegistryFacts Sample NodeTheorems RequestTheorems LifecycleTheorems AgentFacts AgentSafe AgentSteps AgentProxySteps AgentRuns AgentTheorems AgentConnection AgentSample AgentExec AgentLifeTheorems AgentJobTheorems.
Local Open Scope list_scope.

(** ** Decoding *)

Definition named {A} (l : list (string * A)) (name : string) : option A :=
  snd <$> List.find (fun x => streq (fst x) name) l.

(** A call by its member and its arguments ([internal_agent_vtable]); sd-bus refuses
    a member or a signature that is not in the table. *)
Definition method_call (member : string) (args : list value) : option controller_method :=
  if existsb (streq member) passthrough_members then Some (Passthrough member) else
  match args with
  | [] => named [("ListUnits", ListUnits); ("ListUnitFiles", ListUnitFiles);
                 ("EnableMetrics", EnableMetrics); ("DisableMetrics", DisableMetrics)] member
  | [VString s] =>
      f ← named [("Subscribe", Subscribe); ("Unsubscribe", Unsubscribe); ("FreezeUnit", FreezeUnit);
                 ("ThawUnit", ThawUnit); ("SetLogLevel", SetLogLevel); ("StartDep", StartDep);
                 ("StopDep", StopDep)] member;
      mret (f (ReadOk s))
  | [VUint id] => f ← named [("JobCancel", JobCancel)] member; mret (f (ReadOk id))
  | [VString s; VString t] =>
      f ← named [("GetUnitProperties", GetUnitProperties)] member; mret (f (ReadOk (s, t)))
  | [VString s; VString t; VString u] =>
      f ← named [("GetUnitProperty", GetUnitProperty)] member; mret (f (ReadOk (s, t, u)))
  | [VString s; VString t; VUint id] =>
      f ← named [("StartUnit", StartUnit); ("StopUnit", StopUnit); ("RestartUnit", RestartUnit);
                 ("ReloadUnit", ReloadUnit)] member;
      mret (f (ReadOk (s, t, id)))
  | [VString s; VBool runtime; VCopy _] =>
      f ← named [("SetUnitProperties", SetUnitProperties)] member; mret (f (ReadOk (s, runtime)))
  | _ => None
  end.

(** The message of the request [req] on its way to the agent and back, and the
    message of a call that expects no reply. *)
Definition request_message_of (req : ptr) : ptr := xO req.
Definition no_reply : ptr := xH.

(** The connection: the controller's and the agent's end, and the message of the
    agent's call to Register. *)
Record Link := mkLink { link_bus : ptr; link_peer : ptr; link_register : ptr }.

Record System := mkSystem {
  sys_controller : World;
  sys_agent : AgentWorld;
  sys_to_agent : nat;          (* calls of the controller that were delivered *)
  sys_to_controller : nat;     (* calls of the agent that were delivered *)
}.
#[export] Instance eta_System : EtaRecord System := fun s =>
  mkSystem (sys_controller s) (sys_agent s) (sys_to_agent s) (sys_to_controller s).

Definition SM (A : Type) : Type := M System A.

Section system.
Context {E : Env} {EA : AgentEnv} {N : Network} (l : Link).

(** A step of one of the two processes. *)
Definition ctl {A} (m : CM A) : SM A := fun s =>
  match m (sys_controller s) with
  | Ret a w => Ret a (s <| sys_controller := w |>)
  | Crash c => Crash c
  end.
Definition agt {A} (m : AM A) : SM A := fun s =>
  match m (sys_agent s) with
  | Ret a w => Ret a (s <| sys_agent := w |>)
  | Crash c => Crash c
  end.

(** A method of a proxy by its member and its arguments ([proxy_service_vtable]). *)
Definition proxy_call (member : string) (args : list value) : option proxy_method :=
  match args with
  | [VString s] =>
      f ← named [("Error", fun _ => ProxyError); ("TargetNew", TargetNew);
                 ("TargetRemoved", TargetRemoved)] member;
      mret (f (ReadOk s))
  | [VString s; VString t; VString u] =>
      f ← named [("TargetStateChanged", TargetStateChanged)] member; mret (f (ReadOk (s, t, u)))
  | _ => None
  end.

(** The proxy that is exported under a path. *)
Definition proxy_at (path : string) : AM (option ptr) :=
  a ← the_agent;
  find_first (ag_proxy_services a) (fun p =>
    q ← aload (T := ProxyService) p;
    mret (bool_decide (ps_export_slot q = Some (link_peer l)) && streq (ps_object_path q) path)).

(** What the agent does with a message of the controller. The answer to its call to
    Register is for the slot of the call, as long as the agent keeps it. *)
Definition agent_receive (c : call) : AM void :=
  let method_from m bus member args :=
    match method_call member args with
    | Some method => if decide (bus = link_bus l) then handle_event (EvController m method) else mret tt
    | None => mret tt
    end in
  match c with
  | AgentCallAsync bus member args req => method_from (request_message_of req) bus member args
  | AgentCallSync bus member args => method_from no_reply bus member args
  | AgentSend bus member arg =>
      method_from no_reply bus member (match arg with Some s => [VString s] | None => [] end)
  | ProxyCallAsync bus path member args _ =>
      match proxy_call member args with
      | Some method =>
          if decide (bus = link_bus l) then
            p ← proxy_at path;
            match p with
            | Some p => handle_event (EvProxy no_reply p method)
            | None => mret tt
            end
          else mret tt
      | None => mret tt
      end
  | AgentEmitSignal bus member =>
      if decide (bus = link_bus l) then
        if streq member CONTROLLER_HEARTBEAT_SIGNAL_NAME then handle_event EvHeartbeat else mret tt
      else mret tt
  | ReplyReturn m _ | ReplyError m _ =>
      if decide (m = link_register l) then
        serve_event (EvRegistered (match c with ReplyError _ name => MethodError name | _ => MethodReturn m end) 0)
      else mret tt
  | _ => mret tt
  end.

(** The node whose connection a message of the agent arrives on. *)
Definition node_of_bus : CM (option ptr) :=
  c ← controller;
  find_first (c_nodes c ++ c_anonymous_nodes c) (fun p =>
    n ← load (T := Node) p; mret (bool_decide (node_agent_bus n = Some (link_bus l)))).

(** The answer to a request, as long as the controller waits for it. *)
Definition answer_request (req : ptr) (m : response) : CM void :=
  w ← Prelude.get;
  match w_reqs w !! req with
  | Some _ => _r ← agent_request_callback req (Some m); mret tt
  | None => mret tt
  end.

(** A signal of the agent ([node_set_agent_bus] installs the matches). *)
Definition signal_received (p : ptr) (member : string) (args : list value) : CM Z :=
  match args with
  | [VUint id; VString s] =>
      if streq member "JobDone" then node_match_job_done (ReadOk (id, s))
      else if streq member "JobStateChanged" then node_match_job_state_changed (ReadOk (id, s))
      else mret 0
  | [VString unit] =>
      if streq member "UnitRemoved" then node_match_unit_removed p (ReadOk unit) else mret 0
  | [VString s; VString t] =>
      if streq member "UnitNew" then node_match_unit_new p (ReadOk (s, t))
      else if streq member "ProxyRemoved" then node_on_match_proxy_removed p (ReadOk (s, t))
      else mret 0
  | [VString s; VString t; VString u; VString v] =>
      if streq member "UnitStateChanged" then node_match_unit_state_changed p (ReadOk (s, t, u, v))
      else mret 0
  | [VString s; VString t; VCopy m] =>
      if streq member "UnitPropertiesChanged" then
        node_match_unit_properties_changed p m (ReadOk (s, t))
      else mret 0
  | [VString s; VString t; VObject o] =>
      if streq member "ProxyNew" then node_on_match_proxy_new p (ReadOk (s, t, o)) else mret 0
  | [VString s; VString t; VUint64 n] =>
      if streq member "AgentJobMetrics" then node_metrics_match_agent_job p (ReadOk (s, t, n)) else mret 0
  | [] => if streq member "Heartbeat" then node_match_heartbeat p else mret 0
  | _ => mret 0
  end.

(** Register is a method of the object exported on a connection that has no name yet;
    the matches are installed on connections that have one, the one for metrics
    while they are enabled. *)
Definition controller_receive (c : acall) : CM void :=
  match c with
  | ReturnTo (xO req) _ => answer_request req (MethodReturn (xO req))
  | ErrorTo (xO req) name => answer_request req (MethodError name)
  | PeerRegister bus name =>
      if decide (bus = link_peer l) then
        node ← node_of_bus;
        match node with
        | Some p =>
            n ← load (T := Node) p;
            if node_internal_controller_slot n then
              _r ← node_method_register (link_register l) (ReadOk name) p; mret tt
            else mret tt
        | None => mret tt
        end
      else mret tt
  | PeerEmitSignal bus _ _ member args =>
      if decide (bus = link_peer l) then
        node ← node_of_bus;
        match node with
        | Some p =>
            n ← load (T := Node) p;
            if bool_decide (node_name n <> None) &&
               (node_metrics_matching_slot n || negb (streq member "AgentJobMetrics"))
            then _r ← signal_received p member args; mret tt
            else mret tt
        | None => mret tt
        end
      else mret tt
  | _ => mret tt
  end.

(** Everything that one side has sent and the other has not received yet. *)
Definition to_agent : SM void :=
  s ← Prelude.get;
  let sent := w_trace (sys_controller s) in
  modify (fun s => s <| sys_to_agent := Datatypes.length sent |>) ;;
  foreach (drop (sys_to_agent s) sent) (fun c => agt (agent_receive c)).
Definition to_controller : SM void :=
  s ← Prelude.get;
  let sent := aw_trace (sys_agent s) in
  modify (fun s => s <| sys_to_controller := Datatypes.length sent |>) ;;
  foreach (drop (sys_to_controller s) sent) (fun c => ctl (controller_receive c)).
End system.

(** ** Rules for the two processes *)

Section rules.
Context {E : Env} {EA : AgentEnv} {N : Network}.

Lemma wp_ctl {A} (m : CM A) Q s :
  wp m (fun a w => Q a (s <| sys_controller := w |>)) (sys_controller s) -> wp (ctl m) Q s.
Proof. unfold wp, ctl. by destruct (m _). Qed.
Lemma wp_agt {A} (m : AM A) Q s :
  wp m (fun a w => Q a (s <| sys_agent := w |>)) (sys_agent s) -> wp (agt m) Q s.
Proof. unfold wp, agt. by destruct (m _). Qed.

Lemma wp_to_agent l old sent Q s :
  w_trace (sys_controller s) = old ++ sent -> sys_to_agent s = Datatypes.length old ->
  wp (foreach sent (fun c => agt (agent_receive l c))) Q
    (s <| sys_to_agent := Datatypes.length (old ++ sent) |>) ->
  wp (to_agent l) Q s.
Proof.
  intros Ht Hn HQ. unfold to_agent. apply wp_bind, wp_get, wp_bind, wp_modify.
  by rewrite Hn, Ht, drop_app_length.
Qed.
Lemma wp_to_controller l old sent Q s :
  aw_trace (sys_agent s) = old ++ sent -> sys_to_controller s = Datatypes.length old ->
  wp (foreach sent (fun c => ctl (controller_receive l c))) Q
    (s <| sys_to_controller := Datatypes.length (old ++ sent) |>) ->
  wp (to_controller l) Q s.
Proof.
  intros Ht Hn HQ. unfold to_controller. apply wp_bind, wp_get, wp_bind, wp_modify.
  by rewrite Hn, Ht, drop_app_length.
Qed.

(** The node [p] has the connection of the agent, and no other node. *)
Definition linked (l : Link) (p : ptr) (w : World) : Prop :=
  let c := w_controller w in
  p ∈ c_nodes c ++ c_anonymous_nodes c /\
  forall q, q ∈ c_nodes c ++ c_anonymous_nodes c -> exists n, w_nodes w !! q = Some n /\
    (node_agent_bus n = Some (link_bus l) <-> q = p).

Lemma wp_node_of_bus l p Q w : linked l p w -> Q (Some p) w -> wp (node_of_bus l) Q w.
Proof.
  intros [Hin Hall] HQ. unfold node_of_bus. apply wp_bind, wp_controller.
  apply wp_find_first with (P := fun q => bool_decide (q = p)).
  - intros q Hq. destruct (Hall q Hq) as (n & Hn & Hiff). apply wp_bind. eapply wp_load; [exact Hn|].
    apply wp_ret. split; [|done]. by apply bool_decide_ext.
  - assert (List.find (fun q => bool_decide (q = p)) (c_nodes (w_controller w) ++ c_anonymous_nodes (w_controller w)) = Some p)
      as ->; [|done].
    clear -Hin. induction (_ ++ _) as [|x l IH]; [by apply not_elem_of_nil in Hin|]. cbn.
    case_bool_decide as Hx; [by subst|]. apply IH. by apply elem_of_cons in Hin as [->|].
Qed.
End rules.

(** ** The end of a job at the controller *)

Section finish.
Context {E : Env}.

(** The identifier is not in use. *)
Definition job_id_unused (id : Z) (w : World) : Prop :=
  forall q, q ∈ c_jobs (w_controller w) -> exists j, w_jobs w !! q = Some j /\ job_id j <> id.

(** What is left of a unit operation when its job is gone: the counters. *)
Definition counted (id : Z) (w : World) : World :=
  w <| w_clocks ::= S |> <| w_next_job_id := id |>
    <| w_next_ptr ::= fun q => Pos.succ (Pos.succ (Pos.succ q)) |>.

Lemma wp_find_listed id q j l Q w :
  c_jobs (w_controller w) = l ++ [q] -> w_jobs w !! q = Some j -> job_id j = id ->
  (forall q', q' ∈ l -> exists j', w_jobs w !! q' = Some j' /\ job_id j' <> id) ->
  Q (Some q) w -> wp (controller_find_job id) Q w.
Proof.
  intros Hl Hj Hid Hold HQ. unfold controller_find_job. apply wp_bind, wp_controller. rewrite Hl.
  clear Hl. induction l as [|q' l IH]; cbn [app find_first].
  - apply wp_bind, wp_bind. eapply wp_load; [exact Hj|]. apply wp_ret. rewrite Hid, Z.eqb_refl.
    by apply wp_ret.
  - destruct (Hold q' ltac:(left)) as (j' & Hj' & Hne).
    apply wp_bind, wp_bind. eapply wp_load; [exact Hj'|]. apply wp_ret.
    rewrite (proj2 (Z.eqb_neq _ _) Hne). apply IH. intros q'' Hq. apply Hold. by right.
Qed.

Lemma wp_job_done q p n type unit result Q w w1 :
  let id := next_u32 (w_next_job_id w) in
  let j := waiting_job p id type unit in
  LifecycleTheorems.fresh w -> q = Pos.succ (w_next_ptr w) -> quiet (finished q j (MethodReturn q) w) w1 ->
  w_nodes w !! p = Some n -> c_metrics_enabled (w_controller w) = false -> job_id_unused id w ->
  (forall r w2, quiet (counted id w) w2 ->
     w_trace w2 = w_trace w1 ++ [ApiEmitSignal BC_CONTROLLER_OBJECT_PATH CONTROLLER_INTERFACE
       "JobRemoved" [VUint id; VObject (JOB_OBJECT_PATH_PREFIX ++ "/" ++ fmt_u id); str_arg (node_name n);
                     VString unit; VString result]] -> Q r w2) ->
  wp (node_match_job_done (ReadOk (id, result))) Q w1.
Proof.
  intros id j Hfresh Hq Hquiet Hn Hmetrics Hunused HQ.
  set (j1 := j <| job_export_slot := true |>).
  assert (w_jobs w1 = <[q := j1]> (w_jobs w)) as Hjobs by (by rewrite (quiet_jobs _ _ Hquiet)).
  assert (w_controller w1 = (w_controller w) <| c_jobs ::= fun l => l ++ [q] |>) as Hc
    by (by rewrite (quiet_controller _ _ Hquiet)).
  assert (w_nodes w1 = w_nodes w) as Hnodes by (by rewrite (quiet_nodes _ _ Hquiet)).
  assert (q ∉ c_jobs (w_controller w)) as Hnew.
  { intros (j' & Hj' & _)%Hunused. rewrite (fresh_jobs _ Hfresh) in Hj' by lia. done. }
  assert (w_jobs w1 !! q = Some j1) as Hj1 by (by rewrite Hjobs, lookup_insert_eq).
  unfold node_match_job_done, controller_finish_job. apply wp_bind, wp_bind.
  eapply (wp_find_listed id q j1 (c_jobs (w_controller w))); [by rewrite Hc|exact Hj1|done| |].
  { intros q' Hq'. destruct (Hunused q' Hq') as (j' & Hj' & Hne). exists j'. split; [|done].
    rewrite Hjobs, lookup_insert_ne; [done|]. intros ->. done. }
  wp_one. wp_one. rewrite Hc. wp_one.
  change (c_metrics_enabled ((w_controller w) <| c_jobs ::= fun l => l ++ [q] |>))
    with (c_metrics_enabled (w_controller w)).
  rewrite Hmetrics. wp_one. unfold controller_remove_job. wp_one. eapply wp_load; [exact Hj1|].
  wp_one. eapply wp_load; [cbn; rewrite Hnodes; exact Hn|]. wp_one. wp_one. wp_one. wp_one.
  wp_one. apply wp_list_remove_from.
  { cbn. rewrite Hc. apply elem_of_app. right. left. }
  wp_one. wp_one. wp_one.
  match goal with |- context [c_metrics_enabled ?c && _] => assert (c_metrics_enabled c = false) as -> by (cbn; by rewrite Hc) end. cbn [andb].
  wp_one. unfold job_unref. wp_one. eapply wp_update; [exact Hj1|].
  wp_one. eapply wp_load; [apply lookup_insert_eq|].
  change (job_ref_count (j1 <| job_ref_count ::= Z.pred |>)) with 0.
  eapply wp_free; [apply lookup_insert_eq|]. apply wp_ret. apply HQ; [|done].
  set (g := fun x : World => x <| w_jobs ::= delete q |>
    <| w_controller ::= fun c => c <| c_jobs := c_jobs (w_controller w) |> |>).
  transitivity (g (finished q j (MethodReturn q) w)).
  - unfold quiet. f_equal. unfold g, finished, counted, with_listed_job. destruct w; cbn in *.
    f_equal; [|by destruct w_controller]. rewrite delete_insert_eq, delete_id; [done|].
    apply (fresh_jobs _ Hfresh). cbn. lia.
  - transitivity (g w1); [exact (f_equal g Hquiet)|]. unfold quiet, erase, g. destruct w1; cbn in *.
    rewrite Hc. cbn. rewrite delete_insert_eq, remove_first_app_r by done.
    cbn. by rewrite decide_True, app_nil_r.
Qed.
End finish.

(** ** A unit operation from end to end *)

(** The types of jobs and the members of the agent's interface they call. *)
Definition unit_operations : list (string * string) :=
  [("start", "StartUnit"); ("stop", "StopUnit"); ("restart", "RestartUnit"); ("reload", "ReloadUnit")].

Lemma operation_received type method unit mode id :
  (type, method) ∈ unit_operations ->
  exists meth, method_call method [VString unit; VString mode; VUint id] = Some meth /\
    forall (EA : AgentEnv) m, internal_agent_vtable m meth =
      agent_run_unit_lifecycle_method m (ReadOk (unit, mode, id)) method.
Proof.
  intros H. repeat (apply elem_of_cons in H as [[= -> ->]|H]; [by eexists|]).
  by apply not_elem_of_nil in H.
Qed.

Section system.
Context {E : Env} {EA : AgentEnv} {N : Network} {L : AgentEnvLaws EA} (l : Link).

Lemma wp_agent_operation type method unit mode id req Q v :
  (type, method) ∈ unit_operations ->
  wp (agent_run_unit_lifecycle_method (request_message_of req) (ReadOk (unit, mode, id)) method)
    (fun _ v' => Q tt v') v ->
  wp (agent_receive l (AgentCallAsync (link_bus l) method [VString unit; VString mode; VUint id] req)) Q v.
Proof.
  intros (meth & Hm & Hv)%(operation_received _ _ unit mode id) HQ. cbn [agent_receive].
  rewrite Hm, decide_True by done. cbn [handle_event]. apply wp_bind. rewrite Hv.
  eapply wp_mono; [exact HQ|]. intros r v' Hv'. by apply wp_ret.
Qed.

Lemma wp_answer_request req m r Q w :
  w_reqs w !! req = Some r ->
  wp (agent_request_callback req (Some m)) (fun _ w' => Q tt w') w ->
  wp (answer_request req m) Q w.
Proof.
  intros Hr HQ. unfold answer_request. apply wp_bind, wp_get. rewrite Hr. apply wp_bind.
  eapply wp_mono; [exact HQ|]. intros res w' Hw'. by apply wp_ret.
Qed.

Lemma wp_signal p n member args bus path iface Q w :
  linked l p w -> w_nodes w !! p = Some n -> node_name n <> None -> bus = link_peer l ->
  member <> "AgentJobMetrics"%string -> wp (signal_received p member args) (fun _ w' => Q tt w') w ->
  wp (controller_receive l (PeerEmitSignal bus path iface member args)) Q w.
Proof.
  intros Hlink Hn Hname -> Hmember HQ. cbn [controller_receive]. rewrite decide_True by done.
  apply wp_bind, (wp_node_of_bus l p); [done|]. apply wp_bind. eapply wp_load; [exact Hn|].
  rewrite bool_decide_true by done. assert (streq member "AgentJobMetrics" = false) as -> by (by apply streq_false).
  rewrite orb_true_r. cbn [andb]. apply wp_bind. eapply wp_mono; [exact HQ|].
  intros res w' Hw'. by apply wp_ret.
Qed.

Lemma linked_finished p q j resp w w' :
  quiet (finished q j resp w) w' -> linked l p w -> linked l p w'.
Proof.
  intros Hq [Hin Hall]. unfold linked. rewrite (quiet_controller _ _ Hq), (quiet_nodes _ _ Hq).
  by destruct resp.
Qed.
End system.

(** C6. From the client to systemd and back, when no call fails: the client's request
    on the controller reaches systemd exactly once, with the unit and the mode it
    named; when systemd has queued the job the client is given a new job, which is
    announced to all clients, and when systemd reports the end of the job, the
    controller announces its removal with systemd's result. Nothing is left behind in
    either process. *)
Theorem unit_operation_end_to_end {E : Env} {EA : AgentEnv} {N : Network} {L : AgentEnvLaws EA}
  (l : Link) (m p : ptr) (n : Node) (a : Agent) (ts : timespec) (unit mode type method : string)
  (ans : ptr) (path : string) (jid : Z) (u result : string) (s : System)
  (w := sys_controller s) (v := sys_agent s)
  (Hnf : no_local_failure E) (Hbus : no_bus_failure E) (Hc : calls_succeed) (Hm : messages_succeed)
  (Hop : (type, method) ∈ unit_operations)
  (Hfresh : LifecycleTheorems.fresh w) (Hclock : clock_realtime (w_clocks w) = Some ts)
  (Hmetrics : c_metrics_enabled (w_controller w) = false)
  (Hlink : linked l p w) (Hn : w_nodes w !! p = Some n) (Hb : node_agent_bus n = Some (link_bus l))
  (Hname : node_name n <> None) (Hup : node_is_shutdown n = false) (Href : 1 <= node_ref_count n)
  (Hunused : job_id_unused (next_u32 (w_next_job_id w)) w)
  (Hv : agent_ok v) (Ha : aw_agent v = Some a) (Hpeer : ag_peer_dbus a = Some (link_peer l))
  (Hagent : ag_metrics_enabled a = false)
  (Hs : sys_to_agent s = Datatypes.length (w_trace w))
  (Hs' : sys_to_controller s = Datatypes.length (aw_trace v)) :
  let id := next_u32 (w_next_job_id w) in
  let req := Pos.succ (Pos.succ (w_next_ptr w)) in
  let object := VObject (JOB_OBJECT_PATH_PREFIX ++ "/" ++ fmt_u id) in
  let signal member args := ApiEmitSignal BC_CONTROLLER_OBJECT_PATH CONTROLLER_INTERFACE member args in
  wp (_r ← ctl (node_run_unit_lifecycle_method m (ReadOk (unit, mode)) p type method);
      to_agent l ;;
      _r ← agt (run_systemd_callback (aw_next_ptr v) (MethodReturn ans) (ReadOk path));
      to_controller l ;;
      _r ← agt (agent_match_job_removed (ReadOk (jid, path, u, result)));
      to_controller l)
    (fun _ s' =>
       w_trace (sys_controller s') = w_trace w ++
         [AgentCallAsync (link_bus l) method [VString unit; VString mode; VUint id] req;
          ApiAddVtable (JOB_OBJECT_PATH_PREFIX ++ "/" ++ fmt_u id) JOB_INTERFACE;
          signal "JobNew" [VUint id; object]; ReplyReturn m [object];
          signal "JobRemoved" [VUint id; object; str_arg (node_name n); VString unit; VString result]] /\
       quiet (counted id w) (sys_controller s') /\
       operation_ended [operation_call unit mode method (aw_next_ptr v);
                        ReturnTo (request_message_of req) [];
                        PeerEmitSignal (link_peer l) INTERNAL_AGENT_OBJECT_PATH INTERNAL_AGENT_INTERFACE
                          "JobDone" [VUint id; VString result]] v (sys_agent s')) s.
Proof.
  intros id req object signal.
  set (q := Pos.succ (w_next_ptr w)) in *. set (j := waiting_job p id type unit).
  apply wp_bind, wp_ctl. eapply (wp_lifecycle_call Hnf Hbus m p n (link_bus l) ts); [done..|].
  intros w1 Hq1 Ht1. apply wp_bind. eapply wp_to_agent; [exact Ht1|exact Hs|]. apply wp_bind, wp_agt.
  eapply wp_agent_operation; [exact Hop|]. eapply wp_mono; [by apply (operation_start (request_message_of req) unit mode id method a v Hv Ha)|].
  intros _ v1 [t Hv1]. apply wp_ret, wp_bind, wp_agt.
  eapply wp_mono; [by apply (operation_answer (request_message_of req) unit mode id method a v Hv Ha ans path t)|].
  intros r2 v2 Hv2. apply wp_bind. pose proof Hv2 as [(_ & _ & _ & _ & _ & _ & Ht2) _].
  eapply wp_to_controller; [exact Ht2|exact Hs'|]. apply wp_bind, wp_ctl, wp_ret, wp_bind, wp_ctl.
  assert (w_reqs w1 !! req = Some (lifecycle_request p method unit mode id (w_next_ptr w))) as Hr
    by (rewrite (quiet_reqs _ _ Hq1); apply lookup_insert_eq).
  eapply wp_answer_request; [exact Hr|].
  apply (wp_lifecycle_answer Hbus w w1 m p n unit mode type method _ _ Hn Href Hq1).
  intros r3 w2 Hq2 Ht3. rewrite (called_answered w m p n unit mode type method _ Hfresh Hn) in Hq2.
  apply wp_ret, wp_bind, wp_agt.
  eapply wp_mono; [by apply (operation_end (request_message_of req) unit mode id method a v Hv Ha path jid u result t)|].
  intros r4 v3 [t' Hv3]. pose proof Hv3 as [Ht4 _]. unfold job_reports in Ht4, Hv3.
  rewrite Hpeer, Hagent in Ht4, Hv3. cbn [app op_bc_job_id operation_op] in Ht4, Hv3.
  eapply (wp_to_controller l (aw_trace v ++ [operation_call unit mode method (aw_next_ptr v);
    ReturnTo (request_message_of req) []])); [by etrans; [exact Ht4|apply (app_assoc _ [_; _] [_])]|done|].
  apply wp_bind, wp_ctl.
  assert (w_nodes w2 = w_nodes w) as Hnodes by (by rewrite (quiet_nodes _ _ Hq2)).
  eapply (wp_signal l p n); [exact (linked_finished l p q j _ w w2 Hq2 Hlink)|exact (eq_trans (f_equal (lookup p) Hnodes) Hn)|done..|].
  eapply (wp_job_done q p n type unit result _ w w2); try done.
  intros r5 w3 Hq3 Ht5. apply wp_ret. split_and!; [|done|done].
  cbn [sys_controller field_update]. rewrite Ht5, Ht3, <- !app_assoc.
  by rewrite Ht1, <- app_assoc.
Qed.

(** ** A concrete system *)

Definition sample_link : Link := mkLink 100 9 7.
Definition sample_connected : Agent :=
  sample_agent <| ag_connection_state := AGENT_CONNECTION_STATE_CONNECTED |>
    <| ag_peer_dbus := Some 9%positive |>.
Definition sample_system : System :=
  mkSystem sample_world (initial_world sample_connected sample_log) 0 0.

Lemma sample_linked : linked sample_link 1 sample_world.
Proof.
  split; [by left|]. intros q Hq. cbn in Hq. rewrite !elem_of_cons, elem_of_nil in Hq.
  destruct Hq as [->|[->|[->|[]]]]; eexists; (split; [reflexivity|]); by split.
Qed.
Lemma sample_unused : job_id_unused 8 sample_world.
Proof. intros q ->%list_elem_of_singleton. exists sample_job. by split. Qed.

Lemma unit_operation_end_to_end_witness :
  let object := VObject (JOB_OBJECT_PATH_PREFIX ++ "/" ++ fmt_u 8) in
  let signal member args := ApiEmitSignal BC_CONTROLLER_OBJECT_PATH CONTROLLER_INTERFACE member args in
  wp (_r ← ctl (node_run_unit_lifecycle_method 200 (ReadOk ("a.service", "replace")%string) 1 "start" "StartUnit");
      to_agent sample_link ;;
      _r ← agt (run_systemd_callback 1 (MethodReturn 5) (ReadOk "/job/3"%string));
      to_controller sample_link ;;
      _r ← agt (agent_match_job_removed (ReadOk (3, "/job/3", "a.service", "done")%string));
      to_controller sample_link)
    (fun _ s' =>
       w_trace (sys_controller s') = [] ++
         [AgentCallAsync 100 "StartUnit" [VString "a.service"; VString "replace"; VUint 8] 52;
          ApiAddVtable (JOB_OBJECT_PATH_PREFIX ++ "/" ++ fmt_u 8) JOB_INTERFACE;
          signal "JobNew" [VUint 8; object]; ReplyReturn 200 [object];
          signal "JobRemoved" [VUint 8; object; VString "n1"; VString "a.service"; VString "done"]] /\
       quiet (counted 8 sample_world) (sys_controller s') /\
       operation_ended [operation_call "a.service" "replace" "StartUnit" 1; ReturnTo 104 [];
                        PeerEmitSignal 9 INTERNAL_AGENT_OBJECT_PATH INTERNAL_AGENT_INTERFACE
                          "JobDone" [VUint 8; VString "done"]]
         (initial_world sample_connected sample_log) (sys_agent s')) sample_system.
Proof.
  apply (unit_operation_end_to_end sample_link 200 1 sample_node1 sample_connected (mkTimespec 1 0)
    "a.service" "replace" "start" "StartUnit" 5 "/job/3" 3 "a.service" "done" sample_system);
    [exact sample_no_failure|intros ? ?; apply Z.le_refl|intros ? ?; apply Z.le_refl
    |intros ?; apply Z.le_refl|by left|exact LifecycleTheorems.sample_fresh|reflexivity|reflexivity
    |exact sample_linked|reflexivity|reflexivity|discriminate|reflexivity|apply Z.le_refl
    |exact sample_unused|by apply initial_ok|reflexivity..].
Defined.
