(* ===== verification/SyncTheorems.v ===== *)
(** Subscriptions across the connection: what the controller and the agent each know of the
    other's subscriptions. What the controller's registry says of a node is what the
    node's agent is subscribed to, and so every unit event of systemd reaches exactly the
    monitors that asked for it. *)
From S2P Require Import Prelude CString StringUtil ParseUtil TimeUtil Protocol BusUtils Log Cfg.
From S2P Require Import Socket BusProps World.
From S2P Require Import AgentWorld AgentRequests AgentUnits AgentProxy Agent AgentEvents AgentFacts.
From S2P Require Import AgentSafe AgentSteps AgentRuns AgentConnection AgentSample AgentExec.
From S2P Require Import AgentJobTheorems System.
From S2P Require Import Job Events Subscriptions Monitor Proxy Requests Node.
From S2P Require Import WorldFacts EventFacts RegistryFacts Sample.
From S2P Require Import DeliveryTheorems.
From S2P Require Import AgentLifeTheorems.
Local Open Scope list_scope.

(** A unit and an event of it, as the agent reports it to the controller. *)
Definition report (peer : ptr) (x : string * unit_event) : acall :=
  let signal member args :=
    PeerEmitSignal peer INTERNAL_AGENT_OBJECT_PATH INTERNAL_AGENT_INTERFACE member args in
  let unit := fst x in
  match snd x with
  | UnitPropertiesChanged interface m =>
      signal "UnitPropertiesChanged" [VString unit; VString interface; VCopy m]
  | UnitNew reason => signal "UnitNew" [VString unit; VString reason]
  | UnitStateChanged active_state substate reason =>
      signal "UnitStateChanged" [VString unit; VString active_state; VString substate; VString reason]
  | UnitRemoved _ => signal "UnitRemoved" [VString unit]
  end.

(** ** The agent *)

Lemma unit_path_inj u u' : unit_path u = unit_path u' -> u = u'.
Proof.
  unfold unit_path. destruct (bus_path_escape_inverse u) as (e & -> & He).
  destruct (bus_path_escape_inverse u') as (e' & -> & He'). cbn [default].
  intros H%str_app_inj_l%str_app_inj_l. unfold id in H. congruence.
Qed.

(** The controller has subscribed to the unit, or, by the wildcard, to all units. *)
Definition subscribed (a : Agent) (unit : string) : bool :=
  if is_wildcard unit then ag_wildcard_subscription_active a
  else match ag_unit_infos a !! unit_path unit with
       | Some i => ui_subscribed i
       | None => false
       end.

Lemma subscribed_insert a u i unit :
  is_wildcard u = false ->
  subscribed (with_units (<[unit_path u := i]> (ag_unit_infos a)) a) unit =
  if bool_decide (unit = u) then ui_subscribed i else subscribed a unit.
Proof.
  intros Hw. unfold subscribed. case_bool_decide as Hu.
  - subst. rewrite Hw. cbn. by rewrite lookup_insert_eq.
  - destruct (is_wildcard unit); [done|]. cbn. rewrite lookup_insert_ne; [done|].
    intros H%unit_path_inj. congruence.
Qed.
Lemma subscribed_delete a u unit :
  is_wildcard u = false ->
  subscribed (with_units (delete (unit_path u) (ag_unit_infos a)) a) unit =
  negb (bool_decide (unit = u)) && subscribed a unit.
Proof.
  intros Hw. unfold subscribed. case_bool_decide as Hu.
  - subst. rewrite Hw. cbn. by rewrite lookup_delete_eq.
  - destruct (is_wildcard unit); [done|]. cbn. rewrite lookup_delete_ne; [done|].
    intros H%unit_path_inj. congruence.
Qed.

Section agent_side.
Context {EA : AgentEnv} {N : Network} {L : AgentEnvLaws EA}.

(** A step of the agent that reports [events] and makes the calls [calls] besides. *)
Definition agent_step (v : AgentWorld) (a : Agent) (sub : string -> bool)
    (events : list (string * unit_event)) (calls : list acall) (v' : AgentWorld) : Prop :=
  agent_ok v' /\ exists a', aw_agent v' = Some a' /\ ag_peer_dbus a' = ag_peer_dbus a /\
    (forall u, subscribed a' u = sub u) /\
    aw_trace v' = aw_trace v ++
      match ag_peer_dbus a with Some peer => map (report peer) events | None => [] end ++ calls.

Context (v : AgentWorld) (a : Agent) (Hv : agent_ok v) (Ha : aw_agent v = Some a).

Lemma agent_heap : heap_is a (aw_reqs v) (aw_ops v) (aw_trackers v) (aw_proxies v) (aw_next_ptr v)
  (aw_trace v) v /\ units_inv (ag_unit_infos a).
Proof.
  split; [by split_and!|]. destruct Hv as (a' & Ha' & I). assert (a' = a) as -> by congruence.
  apply I.
Qed.

Lemma ensured_unit unit : ui_unit (ensured unit a) = unit.
Proof. symmetry. apply unit_path_inj, ensured_keys, agent_heap. Qed.

Lemma ensured_subscribed unit : is_wildcard unit = false ->
  ui_subscribed (ensured unit a) = subscribed a unit.
Proof. intros Hw. unfold subscribed, ensured. rewrite Hw. by destruct (_ !! _). Qed.

(** Replayed to a new subscriber. *)
Definition replayed (unit : string) : list (string * unit_event) :=
  if is_wildcard unit then [(unit, UnitNew "virtual")] else
  let info := ensured unit a in
  if ui_loaded info then
    (unit, UnitNew "virtual") ::
    (if bool_decide (ui_active_state info = Some _UNIT_ACTIVE_STATE_INVALID) then []
     else [(unit, UnitStateChanged (state_to_string (ui_active_state info))
                    (unit_info_get_substate info) "virtual")])
  else [].

Lemma told_report member args x : (forall peer, report peer x =
    PeerEmitSignal peer INTERNAL_AGENT_OBJECT_PATH INTERNAL_AGENT_INTERFACE member args) ->
  told a member args = match ag_peer_dbus a with Some peer => map (report peer) [x] | None => [] end.
Proof. intros Hx. unfold told. destruct (ag_peer_dbus a); [cbn; by rewrite Hx|done]. Qed.

Lemma agent_subscribe m unit :
  calls_succeed -> subscribed a unit = false ->
  wp (agent_method_subscribe m (ReadOk unit))
    (fun _ v' => agent_step v a (fun u => bool_decide (u = unit) || subscribed a u) (replayed unit)
                   [ReturnTo m []] v') v.
Proof.
  intros Hc Hs. destruct agent_heap as [H U].
  destruct (is_wildcard unit) eqn:Hw.
  - unfold subscribed in Hs. rewrite Hw in Hs.
    eapply wp_mono; [apply wp_conj; [by eapply wildcard_subscribe_spec|by apply gentle_subscribe]|].
    cbn beta. intros r v' [[Ha' Ht] [Hok _]]. split; [exact Hok|]. eexists. split_and!; [exact Ha'|done| |].
    + intros u. unfold subscribed. cbn. case_bool_decide as Hu; [subst; by rewrite Hw|].
      destruct (is_wildcard u) eqn:Hwu; [|done]. destruct Hu.
      apply streq_true in Hw, Hwu. congruence.
    + rewrite Ht. f_equal. f_equal. unfold replayed. rewrite Hw. by apply told_report.
  - eapply wp_mono; [apply wp_conj; [by eapply subscribe_spec|by apply gentle_subscribe]|].
    cbv beta zeta. rewrite (ensured_subscribed unit Hw), Hs. intros r v' [[Ha' Ht] [Hok _]].
    split; [exact Hok|]. eexists. split_and!; [exact Ha'|done| |].
    + intros u. rewrite subscribed_insert by done. case_bool_decide; done.
    + rewrite Ht, !ensured_unit. f_equal. f_equal. unfold replayed. rewrite Hw.
      destruct (ui_loaded (ensured unit a)); [|by destruct (ag_peer_dbus a)].
      unfold told, report. by destruct (ag_peer_dbus a), (bool_decide _).
Qed.

Lemma agent_unsubscribe m unit :
  calls_succeed -> subscribed a unit = true ->
  wp (agent_method_unsubscribe m (ReadOk unit))
    (fun _ v' => agent_step v a (fun u => negb (bool_decide (u = unit)) && subscribed a u) []
                   [ReturnTo m []] v') v.
Proof.
  intros Hc Hs. destruct agent_heap as [H U]. pose proof Hs as Hs'. unfold subscribed in Hs'.
  assert (forall c : list acall, match ag_peer_dbus a with Some peer => map (report peer) [] | None => [] end ++ c = c)
    as Hnil by (intros c; by destruct (ag_peer_dbus a)).
  destruct (is_wildcard unit) eqn:Hw.
  - eapply wp_mono; [apply wp_conj; [by eapply wildcard_unsubscribe_spec|by apply gentle_unsubscribe]|].
    cbn beta. intros r v' [[Ha' Ht] [Hok _]]. split; [exact Hok|]. eexists.
    split_and!; [exact Ha'|done| |by rewrite Hnil].
    intros u. unfold subscribed. cbn. case_bool_decide as Hu; [subst; by rewrite Hw|].
    destruct (is_wildcard u) eqn:Hwu; [|done]. destruct Hu. apply streq_true in Hw, Hwu. congruence.
  - destruct (ag_unit_infos a !! unit_path unit) as [i|] eqn:Hi; [|done].
    eapply wp_mono; [apply wp_conj; [by eapply unsubscribe_spec|by apply gentle_unsubscribe]|].
    cbn beta. intros r v' [[Ha' Ht] [Hok _]]. split; [exact Hok|]. eexists.
    split_and!; [exact Ha'|done| |by rewrite Hnil].
    intros u. destruct (ui_loaded i); [rewrite subscribed_insert by done|by rewrite subscribed_delete].
    by case_bool_decide.
Qed.

(** A unit is loaded or unloaded by systemd. *)
Definition reported (unit : string) (e : unit_event) : list (string * unit_event) :=
  if subscribed a unit || subscribed a "*" then [(unit, e)] else [].

Lemma forwards_subscribed unit i :
  ag_unit_infos a !! unit_path unit = Some i \/ ag_unit_infos a !! unit_path unit = None /\ ui_subscribed i = false ->
  is_wildcard unit = false -> forwards a i = subscribed a unit || subscribed a "*".
Proof.
  intros Hi Hw. unfold forwards, subscribed at 1. rewrite Hw.
  change (subscribed a "*") with (ag_wildcard_subscription_active a).
  by destruct Hi as [->|[-> ->]].
Qed.

Lemma ensured_case unit : ag_unit_infos a !! unit_path unit = Some (ensured unit a) \/
  ag_unit_infos a !! unit_path unit = None /\ ui_subscribed (ensured unit a) = false.
Proof. unfold ensured. destruct (ag_unit_infos a !! unit_path unit); cbn; auto. Qed.

Lemma agent_unit_new unit path :
  is_wildcard unit = false ->
  wp (agent_match_unit_new (ReadOk (unit, path)))
    (fun _ v' => agent_step v a (subscribed a) (reported unit (UnitNew "real")) [] v') v.
Proof.
  intros Hw. destruct agent_heap as [H U].
  eapply wp_mono; [apply wp_conj; [by eapply unit_new_spec|by apply gentle_unit_new]|].
  cbv beta zeta. intros r v' [[Ha' Ht] [Hok _]]. split; [exact Hok|]. eexists.
  split_and!; [exact Ha'|done| |].
  - intros u. rewrite subscribed_insert by done. case_bool_decide as Hu; [|done]. subst.
    by apply (ensured_subscribed unit).
  - rewrite Ht, app_nil_r, ensured_unit. f_equal. unfold reported.
    rewrite (forwards_subscribed unit) by (done || apply ensured_case).
    destruct (_ || _); [by apply told_report|by destruct (ag_peer_dbus a)].
Qed.

Lemma agent_unit_removed unit path name :
  is_wildcard unit = false -> path = unit_path unit ->
  wp (agent_match_unit_removed (ReadOk (name, path)))
    (fun _ v' => agent_step v a (subscribed a)
       (match ag_unit_infos a !! path with Some _ => reported unit (UnitRemoved "real") | None => [] end)
       [] v') v.
Proof.
  intros Hw ->. destruct agent_heap as [H U].
  destruct (ag_unit_infos a !! unit_path unit) as [i|] eqn:Hi.
  - destruct (U _ _ Hi) as (_ & Hp & _). apply unit_path_inj in Hp.
    eapply wp_mono; [apply wp_conj; [by eapply unit_removed_spec|by apply gentle_unit_removed]|].
    cbv beta zeta. intros r v' [[Ha' Ht] [Hok _]]. split; [exact Hok|]. eexists.
    split_and!; [exact Ha'|done| |].
    + assert (ui_subscribed i = subscribed a unit) as Hs by (unfold subscribed; by rewrite Hw, Hi).
      intros u. destruct (ui_subscribed i) eqn:Hsi.
      * rewrite subscribed_insert by done. case_bool_decide as Hu; [by rewrite Hu, <- Hs|done].
      * rewrite subscribed_delete by done. case_bool_decide as Hu; [by rewrite Hu, <- Hs|done].
    + rewrite Ht, app_nil_r, <- Hp. f_equal. unfold reported.
      rewrite (forwards_subscribed unit) by auto.
      destruct (_ || _); [by apply told_report|by destruct (ag_peer_dbus a)].
  - unfold agent_match_unit_removed, agent_get_unit_info. apply wp_bind, wp_bind.
    eapply wp_the_agent; [exact Ha|]. apply wp_ret. rewrite Hi. apply wp_ret. split; [done|].
    exists a. split_and!; [done..|]. destruct (ag_peer_dbus a); by rewrite ?app_nil_r.
Qed.
End agent_side.

(** ** The controller *)

(** The subscription of a monitor. *)
Definition monitored (w : World) (sub : ptr) : Prop :=
  exists m, target_of w sub = OfMonitor m /\ is_Some (w_monitors w !! m).
Definition public (c : call) : Prop := match c with ApiSendTo _ _ _ _ _ => True | _ => False end.

Lemma monitored_live w sub : monitored w sub -> sub_live w sub.
Proof.
  intros (m & Ht & Hm). unfold target_of in Ht. destruct (w_subs w !! sub) as [s|] eqn:Hs; [|done].
  exists s. split; [done|]. by rewrite Ht.
Qed.
Lemma monitored_quiet w w' sub : quiet w w' -> monitored w sub -> monitored w' sub.
Proof.
  intros Hq (m & Ht & Hm). exists m. by rewrite (quiet_target_of _ _ _ Hq), (quiet_monitors _ _ Hq).
Qed.
Definition keeps_monitors (w w' : World) : Prop := forall sub, monitored w sub -> monitored w' sub.
Lemma quiet_keeps p f w w' : quiet (with_usubs p f w) w' -> keeps_monitors w w'.
Proof. intros Hq sub Hsub. eapply monitored_quiet; [exact Hq|]. exact Hsub. Qed.
Lemma monitored_public w sub node unit e :
  monitored w sub -> Forall public (sub_calls w sub node unit e).
Proof.
  intros (m & Ht & [mon Hm]). unfold sub_calls. rewrite Ht. cbn. rewrite Hm.
  constructor; [done|]. apply Forall_map, Forall_forall. by intros dest _.
Qed.

(** The node [p] of a connected agent, to whose units only monitors have subscribed. *)
Record controller_side (l : Link) (p : ptr) (w : World) (n : Node) : Prop := {
  cs_node : w_nodes w !! p = Some n;
  cs_bus : node_agent_bus n = Some (link_bus l);
  cs_name : node_name n <> None;
  cs_linked : linked l p w;
  cs_subs : forall u us sub, node_unit_subscriptions n !! u = Some us -> sub ∈ us_subs us -> monitored w sub;
}.

Lemma controller_side_step l p f w w' n :
  controller_side l p w n -> quiet (with_usubs p f w) w' ->
  (forall u us sub, f (node_unit_subscriptions n) !! u = Some us -> sub ∈ us_subs us -> monitored w sub) ->
  controller_side l p w' (on_registry f n).
Proof.
  intros [Hn Hb Hname [Hin Hall] Hs] Hq Hf.
  pose proof (quiet_keeps _ _ _ _ Hq) as Hm.
  split; [|done..| |].
  - rewrite (quiet_nodes _ _ Hq). by apply lookup_with_usubs.
  - unfold linked. rewrite (quiet_controller _ _ Hq). split; [done|]. intros q Hq'.
    rewrite (quiet_nodes _ _ Hq). destruct (Hall q Hq') as (nq & Hnq & Hiff).
    destruct (decide (q = p)) as [->|Hne].
    + exists (on_registry f n). split; [by apply lookup_with_usubs|]. cbn. by rewrite Hb.
    + exists nq. split; [|by rewrite Hiff]. by rewrite lookup_with_usubs_ne.
  - intros u us sub Hu Hsub. eapply Hm, Hf; [exact Hu|exact Hsub].
Qed.

Section controller_side.
Context {E : Env} {LE : EnvLaws E} (Hnf : no_local_failure E).

Lemma matching_monitored l p w n unit sub :
  controller_side l p w n -> sub ∈ matching n unit -> monitored w sub.
Proof.
  intros [_ _ _ _ Hs]. unfold matching, subs_of. intros [Hsub|Hsub]%elem_of_app.
  - destruct (node_unit_subscriptions n !! unit) eqn:E'; [by eapply Hs|by apply elem_of_nil in Hsub].
  - destruct (streq unit SYMBOL_WILDCARD); [by apply elem_of_nil in Hsub|].
    destruct (node_unit_subscriptions n !! SYMBOL_WILDCARD) eqn:E'; [by eapply Hs|by apply elem_of_nil in Hsub].
Qed.

Lemma delivered_public l p w n unit e new :
  controller_side l p w n -> delivered w n unit e new -> Forall public new.
Proof.
  intros Hc (unique & _ & Hin & _ & ->). unfold delivery_calls. apply Forall_concat, Forall_map.
  apply Forall_forall. intros sub Hsub. apply monitored_public. by eapply matching_monitored, Hin.
Qed.

(** A report of the agent: the event is delivered and the cached state changed. *)
Lemma wp_receive_report l p w n unit e :
  controller_side l p w n -> (forall r, e = UnitRemoved r -> r = "real"%string) ->
  wp (controller_receive l (report (link_peer l) (unit, e)))
     (fun _ w' => quiet (with_usubs p (alter (cache_effect unit e) unit) w) w' /\
        exists new, w_trace w' = w_trace w ++ new /\ delivered w n unit e new) w.
Proof.
  intros Hc He. pose proof Hc as [Hn Hb Hname Hlink _].
  assert (forall Q, wp (unit_signal_handler p unit e) (fun _ => Q) w ->
    wp (controller_receive l (report (link_peer l) (unit, e))) (fun _ => Q) w) as Hgo.
  { intros Q HQ. destruct e; (eapply (wp_signal l p n); [done..|exact HQ]). }
  apply Hgo. eapply wp_mono.
  { eapply wp_unit_signal; [exact Hnf|exact Hn|exact He|].
    intros sub Hsub. by eapply monitored_live, matching_monitored. }
  cbn beta. tauto.
Qed.

Lemma reported_side l p w w' n unit e :
  controller_side l p w n -> quiet (with_usubs p (alter (cache_effect unit e) unit) w) w' ->
  controller_side l p w' (on_registry (alter (cache_effect unit e) unit) n) /\
  (forall u, is_Some (alter (cache_effect unit e) unit (node_unit_subscriptions n) !! u) <->
             is_Some (node_unit_subscriptions n !! u)).
Proof.
  intros Hc Hq. split; [|intros u; apply lookup_alter_is_Some].
  eapply controller_side_step; [exact Hc|exact Hq|]. intros u us sub Hu Hsub.
  destruct (decide (unit = u)) as [->|Hne].
  - rewrite lookup_alter_eq in Hu. destruct (node_unit_subscriptions n !! u) as [us0|] eqn:E'; [|done].
    injection Hu as <-. rewrite (proj1 (cache_effect_keeps u e us0)) in Hsub. by eapply cs_subs.
  - rewrite lookup_alter_ne in Hu by done. by eapply cs_subs.
Qed.

(** What the monitors were told of a list of reports, as far as it is determined by the
    state before the first of them. *)
Definition notified (w : World) (n : Node) (events : list (string * unit_event)) (new : list call) : Prop :=
  match events with
  | [] => new = []
  | [(unit, e)] => delivered w n unit e new
  | _ => True
  end.

(** Any sequence of reports. *)
Lemma wp_receive_reports l p w n events Q (s : System) :
  sys_controller s = w -> controller_side l p w n ->
  Forall (fun x => forall r, snd x = UnitRemoved r -> r = "real"%string) events ->
  (forall w' n' new, controller_side l p w' n' ->
     (forall u, is_Some (node_unit_subscriptions n' !! u) <-> is_Some (node_unit_subscriptions n !! u)) ->
     w_trace w' = w_trace w ++ new -> Forall public new -> keeps_monitors w w' ->
     notified w n events new -> Q tt (s <| sys_controller := w' |>)) ->
  wp (foreach (map (report (link_peer l)) events) (fun c => ctl (controller_receive l c))) Q s.
Proof.
  revert w n s Q. induction events as [|[unit e] events IH]; intros w n s Q Hs Hc He HQ; cbn [map foreach].
  - apply wp_ret. assert (s = s <| sys_controller := w |>) as -> by (subst w; by destruct s).
    apply (HQ w n []); [done..|by rewrite app_nil_r|done|by intros ?|done].
  - apply Forall_cons in He as [He1 He2]. apply wp_bind, wp_ctl. rewrite Hs.
    eapply wp_mono; [by apply wp_receive_report|]. cbn beta. intros _ w1 [Hq (new1 & Ht1 & Hd)].
    destruct (reported_side l p w w1 n unit e Hc Hq) as [Hc1 Hdom].
    eapply (IH w1 _ (s <| sys_controller := w1 |>)); [done|exact Hc1|exact He2|].
    intros w2 n2 new2 Hc2 Hdom2 Ht2 Hp2 Hk Hnot. apply (HQ w2 n2 (new1 ++ new2)); [done| | | | |].
    + intros u. by rewrite Hdom2.
    + by rewrite Ht2, Ht1, <- app_assoc.
    + apply Forall_app. split; [exact (delivered_public l p w n unit e new1 Hc Hd)|done].
    + intros sub Hsub. eapply Hk, quiet_keeps, Hsub. exact Hq.
    + destruct events as [|? ?]; [|done]. cbn in Hnot |- *. by rewrite Hnot, app_nil_r.
Qed.
End controller_side.

(** The node [n] of the controller and the agent [a] agree, and nothing that matters is
    on its way. *)
Record connected (l : Link) (p : ptr) (s : System) (n : Node) (a : Agent) : Prop := {
  cn_controller : controller_side l p (sys_controller s) n;
  cn_ok : agent_ok (sys_agent s);
  cn_agent : aw_agent (sys_agent s) = Some a;
  cn_peer : ag_peer_dbus a = Some (link_peer l);
  cn_sync : forall u, subscribed a u = true <-> is_Some (node_unit_subscriptions n !! u);
  cn_from : sys_to_controller s = Datatypes.length (aw_trace (sys_agent s));
  cn_to : exists old pending, w_trace (sys_controller s) = old ++ pending /\
    sys_to_agent s = Datatypes.length old /\ Forall public pending;
}.
Definition in_sync (l : Link) (p : ptr) (s : System) : Prop := exists n a, connected l p s n a.

Section sync.
Context {E : Env} {LE : EnvLaws E} {EA : AgentEnv} {N : Network} {L : AgentEnvLaws EA}.
Context (Hnf : no_local_failure E) (Hc : calls_succeed) (l : Link) (p : ptr).

Definition exchange : SM void := to_agent l ;; to_controller l.

(** ** Delivery *)

Lemma wp_agt_foreach {A} (msgs : list A) (f : A -> AM void) Q s :
  wp (foreach msgs f) (fun _ v => Q tt (s <| sys_agent := v |>)) (sys_agent s) ->
  wp (foreach msgs (fun c => agt (f c))) Q s.
Proof.
  revert s. induction msgs as [|c msgs IH]; intros s H; cbn [foreach] in *.
  - apply wp_ret. by destruct s.
  - apply wp_bind, wp_agt. unfold wp, mbind, M_bind in H. unfold wp at 1.
    destruct (f c (sys_agent s)) as [[] v|]; [|done]. apply IH. by destruct s.
Qed.

Lemma public_ignored c : public c -> agent_receive l c = mret tt.
Proof. by destruct c. Qed.

Lemma wp_to_agent_public calls Q v :
  Forall public calls -> Q tt v -> wp (foreach calls (agent_receive l)) Q v.
Proof.
  intros H HQ. induction H as [|c calls Hp _ IH]; cbn [foreach]; [by apply wp_ret|].
  rewrite public_ignored by done. apply wp_bind. by apply wp_ret.
Qed.

Definition ignored (c : acall) : Prop := controller_receive l c = mret tt.
Lemma wp_to_controller_ignored calls Q (s : System) :
  Forall ignored calls -> Q tt s -> wp (foreach calls (fun c => ctl (controller_receive l c))) Q s.
Proof.
  intros H HQ. induction H as [|c calls Hp _ IH]; cbn [foreach]; [by apply wp_ret|].
  rewrite Hp. apply wp_bind, wp_ctl, wp_ret. by destruct s.
Qed.

Definition real_removals (events : list (string * unit_event)) : Prop :=
  Forall (fun x => forall r, snd x = UnitRemoved r -> r = "real"%string) events.

(** What the agent has reported reaches the controller. *)
Lemma wp_reports_received w n v a sub events calls Q (s : System) :
  sys_controller s = w -> controller_side l p w n -> agent_step v a sub events calls (sys_agent s) ->
  ag_peer_dbus a = Some (link_peer l) -> sys_to_controller s = Datatypes.length (aw_trace v) ->
  real_removals events -> Forall ignored calls ->
  (forall w' n' new, controller_side l p w' n' ->
     (forall u, is_Some (node_unit_subscriptions n' !! u) <-> is_Some (node_unit_subscriptions n !! u)) ->
     w_trace w' = w_trace w ++ new -> Forall public new -> keeps_monitors w w' ->
     notified w n events new -> Q tt (s <| sys_to_controller := Datatypes.length (aw_trace (sys_agent s)) |>
             <| sys_controller := w' |>)) ->
  wp (to_controller l) Q s.
Proof.
  intros Hw Hside (Hok & a' & Ha' & Hpeer' & Hsub & Ht) Hpeer Hcur Hev Hig HQ. rewrite Hpeer in Ht.
  eapply wp_to_controller; [exact Ht|exact Hcur|]. rewrite <- Ht. apply wp_foreach_app.
  eapply (wp_receive_reports Hnf l p w n); [exact Hw|exact Hside|exact Hev|].
  intros w' n' new H1 H2 H3 H4 H5 H6. apply wp_to_controller_ignored; [exact Hig|]. by apply (HQ w' n' new).
Qed.

(** Messages of the controller are answered, and the reports they cause received. *)
Lemma wp_exchange w n v a sub events calls old pending msgs rest (s : System) :
  sys_controller s = w -> controller_side l p w n ->
  w_trace w = old ++ pending ++ msgs ++ rest -> sys_to_agent s = Datatypes.length old ->
  Forall public pending -> Forall public rest ->
  sys_agent s = v -> sys_to_controller s = Datatypes.length (aw_trace v) ->
  ag_peer_dbus a = Some (link_peer l) ->
  wp (foreach msgs (agent_receive l)) (fun _ v' => agent_step v a sub events calls v') v ->
  real_removals events -> Forall ignored calls ->
  (forall u, sub u = true <-> is_Some (node_unit_subscriptions n !! u)) ->
  wp exchange (fun _ s' => in_sync l p s' /\ keeps_monitors w (sys_controller s')) s.
Proof.
  intros Hw Hside Ht Hcur Hp1 Hp2 Hv Hcur' Hpeer Hmsgs Hev Hig Hsync. unfold exchange.
  apply wp_bind. eapply wp_to_agent; [by rewrite Hw|exact Hcur|]. rewrite <- Ht.
  apply wp_agt_foreach. apply wp_foreach_app, wp_to_agent_public; [exact Hp1|].
  apply wp_foreach_app. cbn [sys_agent field_update]. rewrite Hv.
  eapply wp_mono; [exact Hmsgs|]. cbn beta. intros _ v' Hstep.
  apply wp_to_agent_public; [exact Hp2|].
  eapply (wp_reports_received w n v a sub events calls); try done.
  intros w' n' new H1 H2 H3 H4 H5 _. pose proof Hstep as (Hok & a' & Ha' & Hpeer' & Hsub & Ht').
  split; [|done]. exists n', a'. split; cbn; [done|done|done|congruence| |done|].
  - intros u. by rewrite Hsub, Hsync, H2.
  - by exists (w_trace w), new.
Qed.

Lemma agent_step_refl v a :
  agent_ok v -> aw_agent v = Some a -> agent_step v a (subscribed a) [] [] v.
Proof.
  intros Hv Ha. split; [done|]. exists a. split_and!; [done..|].
  destruct (ag_peer_dbus a); by rewrite app_nil_r.
Qed.

(** ** Operations *)

(** A subscription enters or leaves a unit at the controller, or systemd loads or
    unloads a unit; the messages follow. *)
Inductive sync_op :=
| SubscribeUnit (sub : ptr) (unit : string)
| UnsubscribeUnit (sub : ptr) (unit : string)
| UnitLoaded (unit : string)
| UnitUnloaded (unit : string).

Definition unit_change (loaded : bool) (unit : string) : AM Z :=
  if loaded then agent_match_unit_new (ReadOk (unit, unit_path unit))
  else agent_match_unit_removed (ReadOk (unit, unit_path unit)).
Definition unit_change_event (loaded : bool) : unit_event :=
  if loaded then UnitNew "real" else UnitRemoved "real".

Definition sync_step (op : sync_op) : SM void :=
  match op with
  | SubscribeUnit sub unit => _ok ← ctl (node_subscribe_unit p sub unit); exchange
  | UnsubscribeUnit sub unit => ctl (node_unsubscribe_unit p sub unit) ;; exchange
  | UnitLoaded unit => _r ← agt (unit_change true unit); to_controller l
  | UnitUnloaded unit => _r ← agt (unit_change false unit); to_controller l
  end.

(** Only monitors subscribe, and systemd has no unit of the wildcard's name. *)
Definition op_ok (w : World) (op : sync_op) : Prop :=
  match op with
  | SubscribeUnit sub _ => monitored w sub
  | UnsubscribeUnit _ _ => True
  | UnitLoaded unit | UnitUnloaded unit => is_wildcard unit = false
  end.

Lemma reg_add_dom sub unit (m : registry) u :
  is_Some (reg_add sub unit m !! u) <-> u = unit \/ is_Some (m !! u).
Proof.
  rewrite reg_add_lookup. case_decide as H; [subst; split; [auto|eauto]|]. split; [auto|].
  by intros [->|?].
Qed.

Lemma reg_del_dom sub unit (m : registry) u :
  is_Some (reg_del sub unit m !! u) <->
  is_Some (m !! u) /\ (u = unit -> forall us, m !! unit = Some us ->
    sub ∈ us_subs us -> remove_first sub (us_subs us) <> []).
Proof.
  unfold reg_del. destruct (m !! unit) as [us|] eqn:Hus.
  - case_bool_decide as Hin; cbn [negb].
    + cbn. case_bool_decide as Hemp.
      * destruct (decide (u = unit)) as [->|Hne].
        -- rewrite lookup_delete_eq. split; [by intros []|]. intros [_ H]. by destruct (H eq_refl us eq_refl Hin).
        -- rewrite lookup_delete_ne by done. tauto.
      * destruct (decide (u = unit)) as [->|Hne].
        -- rewrite lookup_insert_eq, Hus. split; [|eauto]. intros _. split; [eauto|]. by intros _ ? [= <-].
        -- rewrite lookup_insert_ne by done. tauto.
    + split; [|tauto]. intros H. split; [done|]. by intros _ ? [= <-].
  - split; [|tauto]. intros H. split; [done|]. by intros -> ?.
Qed.

Lemma reg_del_subs sub unit (m : registry) u us x :
  reg_del sub unit m !! u = Some us -> x ∈ us_subs us -> exists us', m !! u = Some us' /\ x ∈ us_subs us'.
Proof.
  unfold reg_del. destruct (m !! unit) as [us0|] eqn:Hus; [|eauto].
  case_bool_decide; cbn [negb]; [|eauto]. cbn. case_bool_decide.
  - intros [_ H1]%lookup_delete_Some. eauto.
  - intros [[? ?]|[_ H1]]%lookup_insert_Some Hx; [|eauto]. subst. exists us0. split; [done|].
    by eapply remove_first_elem.
Qed.

(** The two sides agree again, and the monitors are still there. *)
Definition synced (s s' : System) : Prop :=
  in_sync l p s' /\ keeps_monitors (sys_controller s) (sys_controller s').

Lemma wp_synced {A} (m : SM A) s w1 s1 :
  keeps_monitors (sys_controller s) w1 ->
  wp m (fun _ s' => in_sync l p s' /\ keeps_monitors w1 (sys_controller s')) s1 ->
  wp m (fun _ => synced s) s1.
Proof.
  intros Hk Hm. eapply wp_mono; [exact Hm|]. cbn beta. intros _ s' [Hs Hk']. split; [exact Hs|].
  intros sub Hsub. by apply Hk', Hk.
Qed.

Section steps.
Context (s : System) (n : Node) (a : Agent) (Hs : connected l p s n a).

Lemma sync_subscribe sub unit :
  monitored (sys_controller s) sub ->
  wp (sync_step (SubscribeUnit sub unit)) (fun _ => synced s) s.
Proof.
  intros Hsub. destruct Hs as [Hside Hok Ha Hpeer Hsync Hfrom (old & pending & Ht & Hto & Hpub)].
  pose proof Hside as [Hn Hb _ _ Hsubs]. cbn [sync_step]. apply wp_bind, wp_ctl.
  eapply wp_mono; [apply (wp_node_subscribe_unit p n sub unit); [exact Hn|by apply monitored_live]|].
  cbn beta. intros go w1 [Hq Htr]. destruct (Htr Hnf) as [-> Ht1]. clear Htr.
  assert (controller_side l p w1 (on_registry (reg_add sub unit) n)) as Hside1.
  { eapply controller_side_step; [exact Hside|exact Hq|]. intros u us x Hu Hx.
    rewrite reg_add_lookup in Hu. case_decide as Hd; [|by eapply Hsubs]. injection Hu as <-.
    cbn in Hx. apply elem_of_app in Hx as [Hx|Hx]; [|by apply list_elem_of_singleton in Hx as ->].
    subst u. unfold entry in Hx.
    destruct (node_unit_subscriptions n !! unit) as [us|] eqn:Hus; [exact (Hsubs _ _ _ Hus Hx)|].
    by apply elem_of_nil in Hx. }
  assert (forall us, Forall public (virtual_calls (sys_controller s) n sub unit us)) as Hvirtual.
  { intros us. unfold virtual_calls. destruct (us_loaded us); [|done]. apply Forall_app.
    split; [by apply monitored_public|]. destruct (0 <=? _); [by apply monitored_public|done]. }
  pose proof (quiet_keeps _ _ _ _ Hq) as Hkeep1.
  unfold subscribe_calls in Ht1. rewrite Ht, <- app_assoc in Ht1.
  destruct (node_unit_subscriptions n !! unit) as [us|] eqn:Hus.
  - apply wp_synced with w1; [exact Hkeep1|].
    eapply (wp_exchange w1 _ (sys_agent s) a (subscribed a) [] [] old pending []); try done; try exact (Hvirtual _).
    { apply wp_ret. by apply agent_step_refl. }
    { by constructor. }
    intros u. rewrite Hsync. cbn. rewrite reg_add_dom. split; [auto|]. intros [->|?]; [by rewrite Hus|done].
  - unfold agent_message in Ht1. rewrite Hb in Ht1.
    assert (subscribed a unit = false) as Hnew.
    { destruct (subscribed a unit) eqn:Hu; [|done]. apply Hsync in Hu. rewrite Hus in Hu. by destruct Hu. }
    apply wp_synced with w1; [exact Hkeep1|].
    eapply (wp_exchange w1 _ (sys_agent s) a (fun u => bool_decide (u = unit) || subscribed a u)
      (replayed a unit) [ReturnTo no_reply []] old pending [AgentSend (link_bus l) "Subscribe" (Some unit)]);
      try done; try exact (Hvirtual _).
    { cbn [foreach agent_receive]. change (method_call "Subscribe" [VString unit]) with (Some (Subscribe (ReadOk unit))).
      cbn iota. rewrite decide_True by done. cbn [handle_event internal_agent_vtable].
      apply wp_bind, wp_bind. eapply wp_mono; [by apply (agent_subscribe (sys_agent s) a)|].
      cbn beta. intros r v' Hv'. by do 2 apply wp_ret. }
    { unfold real_removals, replayed. destruct (is_wildcard unit); [by constructor|].
      destruct (ui_loaded _); [|done]. case_bool_decide; by repeat constructor. }
    { by repeat constructor. }
    intros u. cbn. rewrite reg_add_dom, <- Hsync, orb_true_iff, bool_decide_eq_true. done.
Qed.

Lemma sync_unsubscribe sub unit :
  wp (sync_step (UnsubscribeUnit sub unit)) (fun _ => synced s) s.
Proof.
  destruct Hs as [Hside Hok Ha Hpeer Hsync Hfrom (old & pending & Ht & Hto & Hpub)].
  pose proof Hside as [Hn Hb _ _ Hsubs]. cbn [sync_step]. apply wp_bind, wp_ctl.
  eapply wp_mono; [by apply (wp_node_unsubscribe_unit p n sub unit)|].
  cbn beta. intros _ w1 [Hq Htr]. specialize (Htr Hnf).
  assert (controller_side l p w1 (on_registry (reg_del sub unit) n)) as Hside1.
  { eapply controller_side_step; [exact Hside|exact Hq|]. intros u us x Hu Hx.
    destruct (reg_del_subs _ _ _ _ _ _ Hu Hx) as (us' & Hu' & Hx'). by eapply Hsubs. }
  pose proof (quiet_keeps _ _ _ _ Hq) as Hkeep1.
  change (w_trace w1 = w_trace (sys_controller s) ++ unsubscribe_calls n sub unit) in Htr.
  rewrite Ht, <- app_assoc in Htr. unfold unsubscribe_calls in Htr.
  assert ((exists us, node_unit_subscriptions n !! unit = Some us /\ sub ∈ us_subs us /\
             remove_first sub (us_subs us) = []) /\
          w_trace w1 = old ++ pending ++ [AgentSend (link_bus l) "Unsubscribe" (Some unit)] ++ [] \/
          (forall us, node_unit_subscriptions n !! unit = Some us -> sub ∈ us_subs us ->
             remove_first sub (us_subs us) <> []) /\ w_trace w1 = old ++ pending ++ [] ++ [])
    as [[(us & Hus & Hin & Hemp) Ht1]|[Hkeep Ht1]].
  { unfold agent_message in Htr. rewrite Hb in Htr.
    destruct (node_unit_subscriptions n !! unit) as [us|]; [|by right].
    case_bool_decide as Hin; [case_bool_decide as Hemp|]; cbn [andb] in Htr.
    - left. eauto 6.
    - right. split; [by intros ? [= <-]|done].
    - right. split; [by intros ? [= <-]|done]. }
  - apply wp_synced with w1; [exact Hkeep1|].
    eapply (wp_exchange w1 _ (sys_agent s) a (fun u => negb (bool_decide (u = unit)) && subscribed a u)
      [] [ReturnTo no_reply []] old pending); try done.
    { cbn [foreach agent_receive].
      change (method_call "Unsubscribe" [VString unit]) with (Some (Unsubscribe (ReadOk unit))).
      cbn iota. rewrite decide_True by done. cbn [handle_event internal_agent_vtable].
      apply wp_bind, wp_bind. eapply wp_mono; [apply (agent_unsubscribe (sys_agent s) a); try done|].
      { apply Hsync. by rewrite Hus. }
      cbn beta. intros r v' Hv'. by do 2 apply wp_ret. }
    { by constructor. }
    { by repeat constructor. }
    intros u. cbn. rewrite reg_del_dom, <- Hsync, andb_true_iff, negb_true_iff, bool_decide_eq_false.
    split; [intros [Hne Hu]; split; [done|by intros ->]|]. intros [Hu Hk]. split; [|done].
    intros ->. by destruct (Hk eq_refl us Hus Hin).
  - apply wp_synced with w1; [exact Hkeep1|].
    eapply (wp_exchange w1 _ (sys_agent s) a (subscribed a) [] [] old pending []); try done.
    { apply wp_ret. by apply agent_step_refl. }
    { by constructor. }
    intros u. rewrite Hsync. cbn. rewrite reg_del_dom. split; [intros H; split; [done|by intros ->]|by intros []].
Qed.

(** systemd loads or unloads a unit. *)
Lemma agent_unit_change b unit :
  is_wildcard unit = false ->
  wp (unit_change b unit) (fun _ v' =>
    exists events, agent_step (sys_agent s) a (subscribed a) events [] v' /\
      (events = [] \/ events = [(unit, unit_change_event b)]) /\
      (b = true \/ is_Some (ag_unit_infos a !! unit_path unit) ->
       events = reported a unit (unit_change_event b))) (sys_agent s).
Proof.
  intros Hw. destruct Hs as [_ Hok Ha _ _ _ _]. unfold unit_change. destruct b.
  - eapply wp_mono; [by apply (agent_unit_new (sys_agent s) a)|]. cbn beta. intros r v' Hv'.
    eexists. split; [exact Hv'|]. split; [|done]. unfold reported. case (_ || _); auto.
  - eapply wp_mono; [by apply (agent_unit_removed (sys_agent s) a)|]. cbn beta. intros r v' Hv'.
    eexists. split; [exact Hv'|]. destruct (ag_unit_infos a !! unit_path unit).
    + split; [|done]. unfold reported. case (_ || _); auto.
    + split; [by left|]. by intros [|[]].
Qed.

Lemma reported_delivered w unit e new :
  (forall u, subscribed a u = true <-> is_Some (node_unit_subscriptions n !! u)) ->
  notified w n (reported a unit e) new -> delivered w n unit e new.
Proof.
  intros Hsync. unfold reported, notified. destruct (subscribed a unit || subscribed a "*") eqn:Hsub; [done|].
  apply orb_false_iff in Hsub as [H1 H2]. intros ->.
  assert (forall u, subscribed a u = false -> node_unit_subscriptions n !! u = None) as Hnone.
  { intros u Hu. destruct (node_unit_subscriptions n !! u) eqn:Hn; [|done].
    assert (subscribed a u = true) by (apply Hsync; by rewrite Hn). congruence. }
  assert (matching n unit = []) as Hm.
  { unfold matching, subs_of. rewrite (Hnone unit) by done.
    change SYMBOL_WILDCARD with "*"%string. rewrite (Hnone "*"%string) by done. by case (streq _ _). }
  exists []. rewrite Hm. split_and!; [apply NoDup_nil_2|done| |done]. by intros ? ?%elem_of_nil.
Qed.

Lemma sync_unit_change b unit :
  is_wildcard unit = false ->
  wp (_r ← agt (unit_change b unit); to_controller l) (fun _ s' => synced s s' /\
    exists new, w_trace (sys_controller s') = w_trace (sys_controller s) ++ new /\
      (b = true \/ is_Some (ag_unit_infos a !! unit_path unit) ->
       delivered (sys_controller s) n unit (unit_change_event b) new)) s.
Proof.
  intros Hw. pose proof Hs as [Hside Hok Ha Hpeer Hsync Hfrom (old & pending & Ht & Hto & Hpub)].
  apply wp_bind, wp_agt. eapply wp_mono; [by apply agent_unit_change|]. cbn beta.
  intros r v' (events & Hstep & Hev & Hall).
  eapply (wp_reports_received (sys_controller s) n (sys_agent s) a (subscribed a) events []); try done.
  { destruct Hev as [-> | ->]; constructor; [|constructor]. unfold unit_change_event. cbn.
    destruct b; congruence. }
  intros w' n' new H1 H2 H3 H4 H5 H6. pose proof Hstep as (Hok' & a' & Ha' & Hpeer' & Hsub & Ht').
  split; [split|].
  - exists n', a'. split; cbn; [done..|congruence| |done|].
    + intros u. by rewrite Hsub, Hsync, H2.
    + exists old, (pending ++ new). rewrite H3, Ht, app_assoc. split_and!; [done..|]. by apply Forall_app.
  - exact H5.
  - exists new. split; [exact H3|]. intros Hb. rewrite Hall in H6 by done. by apply reported_delivered.
Qed.
End steps.

Lemma sync_step_ok op s :
  in_sync l p s -> op_ok (sys_controller s) op -> wp (sync_step op) (fun _ => synced s) s.
Proof.
  intros (n & a & Hs) Hok.
  assert (forall b unit, is_wildcard unit = false ->
    wp (_r ← agt (unit_change b unit); to_controller l) (fun _ => synced s) s) as Hunit.
  { intros b unit Hw. eapply wp_mono; [by apply (sync_unit_change s n a Hs)|]. by intros _ s' []. }
  destruct op; cbn [op_ok] in Hok.
  - by eapply sync_subscribe.
  - by eapply sync_unsubscribe.
  - by apply (Hunit true).
  - by apply (Hunit false).
Qed.

Lemma op_ok_keeps w w' op : keeps_monitors w w' -> op_ok w op -> op_ok w' op.
Proof. intros Hk. destruct op; cbn; auto. Qed.
End sync.

(** ** Theorems *)

(** C7. The controller and the agent agree on the subscriptions, and go on agreeing: when a
    node's registry at the controller and the subscriptions at its agent name the same
    units, they do so after any sequence of subscriptions, unsubscriptions, loaded and
    unloaded units, once the messages each of them causes have been delivered. None of
    these steps runs into undefined behaviour on either side. *)
Theorem subscriptions_in_sync {E : Env} {LE : EnvLaws E} {EA : AgentEnv} {N : Network}
  {L : AgentEnvLaws EA} (l : Link) (p : ptr) (ops : list sync_op) (s : System)
  (Hnf : no_local_failure E) (Hc : calls_succeed)
  (Hs : in_sync l p s) (Hops : Forall (op_ok (sys_controller s)) ops) :
  wp (foreach ops (sync_step l p)) (fun _ s' => in_sync l p s') s.
Proof.
  revert s Hs Hops. induction ops as [|op ops IH]; intros s Hs Hops; cbn [foreach]; [by apply wp_ret|].
  apply Forall_cons in Hops as [Hop Hops]. apply wp_bind.
  eapply wp_mono; [by apply (sync_step_ok Hnf Hc)|]. cbn beta. intros _ s1 [Hs1 Hk].
  apply IH; [exact Hs1|]. eapply Forall_impl; [exact Hops|]. intros op'. by apply op_ok_keeps.
Qed.

(** C8. From systemd to the monitors: when systemd loads a unit of the node, or unloads one
    that the agent tracks, the subscriptions that match the unit (to it or to the
    wildcard) are served in some order, each exactly once, the monitor of each and the
    monitor's peers being told; nothing else is sent by the controller. So a monitor is
    told once per matching subscription, twice if it has both kinds. In particular the
    agent reports the event whenever somebody at the controller has asked for it. The
    bus calls succeed and memory is available, the registries of the two sides are in
    step ([connected]), and the unit is not named like the wildcard. *)
Theorem unit_change_delivered {E : Env} {LE : EnvLaws E} {EA : AgentEnv} {N : Network}
  {L : AgentEnvLaws EA} (l : Link) (p : ptr) (n : Node) (a : Agent) (loaded : bool) (unit : string)
  (s : System) (Hnf : no_local_failure E) (Hc : calls_succeed)
  (Hs : connected l p s n a) (Hunit : is_wildcard unit = false)
  (Hknown : loaded = true \/ is_Some (ag_unit_infos a !! unit_path unit)) :
  wp (_r ← agt (unit_change loaded unit); to_controller l)
    (fun _ s' => exists new, w_trace (sys_controller s') = w_trace (sys_controller s) ++ new /\
       delivered (sys_controller s) n unit (unit_change_event loaded) new) s.
Proof.
  eapply wp_mono; [by apply (sync_unit_change Hnf l p s n a Hs)|].
  cbn beta. intros _ s' [_ (new & Ht & Hd)]. exists new. auto.
Qed.

(** ** A concrete system *)

Definition sample_subscriber : AgentWorld :=
  reached (agent_method_subscribe 2 (ReadOk "a.service"%string)) (initial_world sample_connected sample_log).
Definition sample_subscribed : Agent := default sample_connected (aw_agent sample_subscriber).
Definition sample_synced : System := mkSystem sample_world sample_subscriber 0 1.

Lemma sample_in_sync : connected sample_link 1 sample_synced sample_node1 sample_subscribed.
Proof.
  split.
  - split; [done..|exact sample_linked|]. intros u us sub Hu Hsub. cbn in Hu.
    apply lookup_singleton_Some in Hu as [<- <-]. apply list_elem_of_singleton in Hsub as ->.
    exists 10%positive. split; [done|by eexists].
  - apply reached_ok, gentle_safe, initial_ok; [apply gentle_subscribe|done].
  - by vm_compute.
  - by vm_compute.
  - intros u.
    assert (sample_subscribed = with_units (<[unit_path "a.service" := default (ensured "a.service" sample_connected)
      (ag_unit_infos sample_subscribed !! unit_path "a.service")]> (ag_unit_infos sample_connected)) sample_connected)
      as -> by by vm_compute.
    rewrite subscribed_insert by done. case_bool_decide as Hu.
    + subst. split; [intros _; by eexists|by vm_compute].
    + split.
      * unfold subscribed. cbn. case (is_wildcard u); [done|]. by rewrite lookup_empty.
      * intros [us Hus]. cbn in Hus. by apply lookup_singleton_Some in Hus as [].
  - by vm_compute.
  - by exists [], [].
Qed.

Definition sample_ops : list sync_op :=
  [SubscribeUnit 21 "*"; UnitLoaded "x.service"; SubscribeUnit 21 "a.service";
   UnsubscribeUnit 21 "*"; UnsubscribeUnit 20 "a.service"; UnitLoaded "a.service";
   UnitUnloaded "x.service"; UnsubscribeUnit 21 "a.service"]%string.

Lemma subscriptions_in_sync_witness :
  wp (foreach sample_ops (sync_step sample_link 1)) (fun _ s' => in_sync sample_link 1 s') sample_synced.
Proof.
  apply (subscriptions_in_sync sample_link 1 sample_ops sample_synced sample_no_failure).
  - intros ? ?. apply Z.le_refl.
  - exists sample_node1, sample_subscribed. exact sample_in_sync.
  - repeat constructor; by exists 10%positive; split; [|eexists].
Defined.

Lemma unit_change_delivered_witness :
  wp (_r ← agt (unit_change false "a.service"); to_controller sample_link)
    (fun _ s' => exists new, w_trace (sys_controller s') = [] ++ new /\
       delivered sample_world sample_node1 "a.service" (UnitRemoved "real") new) sample_synced.
Proof.
  apply (unit_change_delivered sample_link 1 sample_node1 sample_subscribed false "a.service"
    sample_synced sample_no_failure).
  - intros ? ?. apply Z.le_refl.
  - exact sample_in_sync.
  - reflexivity.
  - right. by vm_compute; eexists.
Defined.
