(* ===== verification/Command.v ===== *)
(** libbluechi/cli/command.{h,c}: the command line of bluechictl and of
    bluechi-is-online, options, arguments and the table of methods; with the option
    loop of their main functions. getopt_long(3) is a parameter. And
    libbluechi/service/shutdown.c: the signals that end the event loop of a daemon. *)
From S2P Require Import Prelude CString StringUtil ParseUtil Protocol World.
Local Open Scope list_scope.

(** ** What a program prints *)

Inductive printed := Stdout (s : string) | Stderr (s : string).
Class Console (W : Type) := console_print : printed -> W -> W.

Section console.
Context {W : Type} `{Console W}.
Definition printf (s : string) : M W void := modify (console_print (Stdout s)).
Definition eprintf (s : string) : M W void := modify (console_print (Stderr s)).
End console.

(** The C library: the text of an error number. *)
Class Errors := strerror : Z -> string.

Definition nl : string := String (ascii_of_nat 10) "".
Definition tab : string := String (ascii_of_nat 9) "".
(** [%d]. *)
Definition fmt_d (n : Z) : string := if n <? 0 then "-" ++ fmt_u (- n) else fmt_u n.

(** ** The command *)

Record OptionType := mkOptionType {
  option_short : Z;
  option_long : option string;
  option_flag : Z;                       (* uint64_t *)
}.
Record CommandOption := mkCommandOption {
  co_key : Z;
  co_value : option string;
  co_is_flag : bool;
  co_option_type : OptionType;
}.
(** The method that main finds for the operation is an argument of the functions that
    use it, and the reference count is the one of the only owner. *)
Record Command := mkCommand {
  cmd_op : option string;
  cmd_opargv : list string;
  cmd_is_help : bool;
  cmd_options : list CommandOption;
}.
#[export] Instance eta_Command : EtaRecord Command := fun c =>
  mkCommand (cmd_op c) (cmd_opargv c) (cmd_is_help c) (cmd_options c).
Definition cmd_opargc (c : Command) : Z := Z.of_nat (Datatypes.length (cmd_opargv c)).

Definition new_command : Command := mkCommand None [] false [].

Record Method (W : Type) := mkMethod {
  mt_name : string;
  mt_min_args : Z;
  mt_max_args : Z;
  mt_supported_options : Z;
  mt_dispatch : Command -> M W Z;
  mt_usage : M W void;
}.
Arguments mkMethod {W} _ _ _ _ _ _.
Arguments mt_name {W} _.
Arguments mt_min_args {W} _.
Arguments mt_max_args {W} _.
Arguments mt_supported_options {W} _.
Arguments mt_dispatch {W} _ _.
Arguments mt_usage {W} _.

(** The largest int8_t. *)
Definition ARG_ANY : Z := 127.

Definition command_get_option (command : Command) (key : Z) : option string :=
  match List.find (fun o => key =? co_key o) (cmd_options command) with
  | Some o => co_value o
  | None => None
  end.
Definition command_flag_exists (command : Command) (key : Z) : bool :=
  existsb (fun o => key =? co_key o) (cmd_options command).

Definition command_get_option_long (command : Command) (key : Z) : Z + Z :=
  match command_get_option command key with
  | None => inr 0
  | Some opt =>
      if streq opt "" then inr 0 else
      match parse_long (Some opt) with
      | Some v => inr v
      | None => inl (- EINVAL)
      end
  end.

Definition command_add_option (malloc_ok strdup_ok : bool) (command : Command) (key : Z)
    (value : option string) (option_type : OptionType) : Z * Command :=
  if negb malloc_ok then (- ENOMEM, command) else
  match value with
  | Some _ =>
      if negb strdup_ok then (- ENOMEM, command)
      else (0, command <| cmd_options ::= fun l => l ++ [mkCommandOption key value false option_type] |>)
  | None => (0, command <| cmd_options ::= fun l => l ++ [mkCommandOption key None true option_type] |>)
  end.

(** The tables end at the first entry without a flag, or without a handler. *)
Fixpoint get_option_type (option_types : list OptionType) (key : Z) : option OptionType :=
  match option_types with
  | [] => None
  | t :: rest =>
      if option_flag t =? 0 then None
      else if key =? option_short t then Some t
      else get_option_type rest key
  end.

Definition methods_get_method {W} (name : option string) (methods : list (Method W)) :
    option (Method W) :=
  match name with
  | None => None
  | Some name => List.find (fun m => streq name (mt_name m)) methods
  end.

Section command.
Context {W : Type} `{Console W}.

(** The first option that the method does not support. *)
Fixpoint check_options (method : Method W) (options : list CommandOption) : M W Z :=
  match options with
  | [] => mret 0
  | opt :: options =>
      if Z.land (option_flag (co_option_type opt)) (mt_supported_options method) =? 0 then
        eprintf ("Unsupported option '" ++ default "(null)" (option_long (co_option_type opt)) ++
                 "' for method '" ++ mt_name method ++ "'" ++ nl) ;;
        mret (- EINVAL)
      else check_options method options
  end.

Definition command_execute (command : Command) (method : Method W) : M W Z :=
  if cmd_is_help command then mt_usage method ;; mret 0
  else if cmd_opargc command <? mt_min_args method then
    eprintf ("Too few arguments for method " ++ mt_name method ++ nl) ;; mret (- EINVAL)
  else if mt_max_args method <? cmd_opargc command then
    eprintf ("Too many arguments for method " ++ mt_name method ++ nl) ;; mret (- EINVAL)
  else
    r ← check_options method (cmd_options command);
    if r <? 0 then mret r else mt_dispatch method command.
End command.

(** ** The option loop *)

(** What getopt_long makes of the arguments: the options in order with their
    arguments, and the arguments that are left. An unknown option ends the list. *)
Record getopt_result := mkGetopt { go_options : list (Z * option string); go_rest : list string }.

Definition ARG_HELP_SHORT : Z := 104.             (* 'h' *)
Definition ARG_NAME_SHORT : Z := 110.                    (* 'n' *)
Definition ARG_HOST_SHORT : Z := 72.                     (* 'H' *)
Definition ARG_ADDRESS_SHORT : Z := 97.                  (* 'a' *)
Definition ARG_HEARTBEAT_INTERVAL_SHORT : Z := 105.      (* 'i' *)
Definition ARG_CONFIG_SHORT : Z := 99.                   (* 'c' *)
Definition ARG_PORT_SHORT : Z := 112.                    (* 'p' *)
Definition ARG_VERSION_SHORT : Z := 118.                 (* 'v' *)
Definition ARG_USER_SHORT : Z := 117.                    (* 'u' *)

(** A line of the usage: the option's letter and name, and its description. *)
Definition usage_line (short long description : string) : string :=
  tab ++ "-" ++ short ++ " " ++ long ++ description ++ nl.
Definition GETOPT_UNKNOWN_OPTION : Z := 63.       (* '?' *)

Section parse.
Context {W : Type} `{Console W}.
(** Which of the allocations succeed. *)
Context (option_types : list OptionType) (malloc_ok : nat -> bool).

Fixpoint parse_options (n : nat) (opts : list (Z * option string)) (command : Command) :
    M W (Z * Command) :=
  match opts with
  | [] => mret (0, command)
  | (opt, optarg) :: opts =>
      if opt =? ARG_HELP_SHORT then parse_options n opts (command <| cmd_is_help := true |>)
      else if opt =? GETOPT_UNKNOWN_OPTION then mret (- EINVAL, command)
      else match get_option_type option_types opt with
           | None => crash_with AssertionFailure
           | Some t =>
               let '(_, command) :=
                 command_add_option (malloc_ok n) (malloc_ok (S n)) command opt optarg t in
               parse_options (S (S n)) opts command
           end
  end.

Definition parse_cli_opts (args : getopt_result) (command : Command) : M W (Z * Command) :=
  x ← parse_options 0 (go_options args) command;
  let '(r, command) := x in
  if r <? 0 then mret (r, command) else
  match go_rest args with
  | op :: argv => mret (0, command <| cmd_op := Some op |> <| cmd_opargv := argv |>)
  | [] =>
      if negb (cmd_is_help command) then
        eprintf ("No command given" ++ nl) ;; mret (- EINVAL, command)
      else mret (0, command)
  end.

Definition EXIT_SUCCESS : Z := 0.
Definition EXIT_FAILURE : Z := 1.

(** The main function of both programs; [setup] is what bluechictl does between
    finding the method and executing it. *)
Definition cli_main (methods : list (Method W)) (usage : M W void) (setup : M W Z)
    (args : getopt_result) : M W Z :=
  x ← parse_cli_opts args new_command;
  let '(r, command) := x in
  if r <? 0 then usage ;; mret EXIT_FAILURE else
  if bool_decide (cmd_op command = None) && cmd_is_help command then usage ;; mret EXIT_SUCCESS else
  match methods_get_method (cmd_op command) methods with
  | None =>
      eprintf ("Method " ++ default "(null)" (cmd_op command) ++ " not found" ++ nl) ;;
      usage ;; mret EXIT_FAILURE
  | Some method =>
      r ← setup;
      if r <? 0 then mret EXIT_FAILURE else
      r ← command_execute command method;
      mret (if r <? 0 then EXIT_FAILURE else EXIT_SUCCESS)
  end.
End parse.

(** ** Correctness *)

(** An option is known when it is --help, the mark of an unknown option, or listed in
    the table of option types. *)
Definition known (option_types : list OptionType) (opt : Z) : Prop :=
  opt = ARG_HELP_SHORT \/ opt = GETOPT_UNKNOWN_OPTION \/ is_Some (get_option_type option_types opt).

(** The options of the command line that go to the method. *)
Definition collected (option_types : list OptionType) (opts : list (Z * option string)) :
    list CommandOption :=
  omap (fun '(opt, optarg) =>
    if opt =? ARG_HELP_SHORT then None
    else (fun t => mkCommandOption opt optarg (bool_decide (optarg = None)) t) <$>
         get_option_type option_types opt) opts.
Definition helped (opts : list (Z * option string)) : bool :=
  existsb (fun o => fst o =? ARG_HELP_SHORT) opts.
Definition unknown (opts : list (Z * option string)) : bool :=
  existsb (fun o => fst o =? GETOPT_UNKNOWN_OPTION) opts.

(** The command line fits the method. *)
Definition fits {W} (method : Method W) (command : Command) : bool :=
  (mt_min_args method <=? cmd_opargc command) && (cmd_opargc command <=? mt_max_args method) &&
  forallb (fun o => negb (Z.land (option_flag (co_option_type o)) (mt_supported_options method) =? 0))
    (cmd_options command).

Section correct.
Context {W : Type} `{Console W} (option_types : list OptionType).

Lemma parse_options_spec opts : forall n command w,
  Forall (fun o => known option_types (fst o)) opts ->
  if unknown opts then exists command', parse_options (W := W) option_types (fun _ => true) n opts command w =
    Ret (- EINVAL, command') w
  else parse_options (W := W) option_types (fun _ => true) n opts command w =
    Ret (0, mkCommand (cmd_op command) (cmd_opargv command) (cmd_is_help command || helped opts)
              (cmd_options command ++ collected option_types opts)) w.
Proof.
  induction opts as [|[opt optarg] opts IH]; intros n command w Hk.
  - cbn. rewrite orb_false_r, app_nil_r. by destruct command.
  - apply Forall_cons in Hk as [Hk Hks]. cbn [parse_options unknown existsb fst helped collected omap list_omap].
    destruct (Z.eqb_spec opt ARG_HELP_SHORT) as [->|Hne].
    { change (ARG_HELP_SHORT =? GETOPT_UNKNOWN_OPTION) with false. cbn [orb].
      specialize (IH n (command <| cmd_is_help := true |>) w Hks). unfold unknown in IH.
      destruct (existsb _ _); [exact IH|]. rewrite IH. destruct command. cbn. by rewrite orb_true_r. }
    destruct (Z.eqb_spec opt GETOPT_UNKNOWN_OPTION) as [->|Hne']; [by eexists|]. cbn [orb].
    cbn [fst] in Hk. destruct Hk as [?|[?|[t Ht]]]; [done..|]. rewrite Ht. cbn [fmap option_fmap option_map].
    destruct optarg as [a|]; cbn [command_add_option negb].
    all: match goal with |- context [parse_options _ _ _ _ ?c _] => specialize (IH (S (S n)) c w Hks) end.
    all: unfold unknown in IH; destruct (existsb _ _); [exact IH|].
    all: rewrite IH; destruct command; cbn; by rewrite <- app_assoc.
Qed.

Lemma check_options_spec (method : Method W) opts w :
  let ok := forallb (fun o => negb (Z.land (option_flag (co_option_type o))
                                      (mt_supported_options method) =? 0)) opts in
  exists w', check_options method opts w = Ret (if ok then 0 else - EINVAL) w' /\ (ok = true -> w' = w).
Proof.
  induction opts as [|o opts (w' & IH & Hw)]; cbn; [by eexists|].
  destruct (_ =? 0); cbn; [eexists; split; [reflexivity|done]|]. by exists w'.
Qed.

(** What the arguments mean: the operation and its arguments, and the options. *)
Lemma command_execute_spec (method : Method W) command w :
  cmd_is_help command = false ->
  if fits method command then command_execute command method w = mt_dispatch method command w
  else exists w', command_execute command method w = Ret (- EINVAL) w'.
Proof.
  intros Hh. unfold command_execute, fits. rewrite Hh.
  destruct (Z.ltb_spec (cmd_opargc command) (mt_min_args method)).
  { rewrite (proj2 (Z.leb_gt _ _)) by lia. by eexists. }
  rewrite (proj2 (Z.leb_le _ _)) by lia. cbn [andb].
  destruct (Z.ltb_spec (mt_max_args method) (cmd_opargc command)).
  { rewrite (proj2 (Z.leb_gt _ _)) by lia. by eexists. }
  rewrite (proj2 (Z.leb_le _ _)) by lia. cbn [andb].
  destruct (check_options_spec method (cmd_options command) w) as (w' & Hc & Hw).
  unfold mbind, M_bind. rewrite Hc. destruct (forallb _ _); [by rewrite Hw|by eexists].
Qed.
End correct.

(** C27. The command line decides what is run, without memory failures: a method is
    dispatched exactly when the operation names it, the number of arguments is in its
    range and it supports every option; its result decides the exit status. --help
    prints the usage of the operation, or the general one. Everything else, an unknown
    option, no operation or an unknown one, ends in failure and dispatches nothing. *)
Theorem cli_main_correct {W : Type} {C : Console W} (option_types : list OptionType)
  (methods : list (Method W)) (usage : M W void) (args : getopt_result) (w : W)
  (Hknown : Forall (fun o => known option_types (fst o)) (go_options args))
  (Husage : forall w, wp usage (fun _ _ => True) w) :
  let run := cli_main option_types (fun _ => true) methods usage (mret 0) args w in
  let fails := exists w', run = Ret EXIT_FAILURE w' in
  if unknown (go_options args) then fails else
  match go_rest args with
  | [] => if helped (go_options args) then run = (usage ;; mret EXIT_SUCCESS) w else fails
  | op :: argv =>
      match List.find (fun m => streq op (mt_name m)) methods with
      | None => fails
      | Some method =>
          let command := mkCommand (Some op) argv (helped (go_options args))
                           (collected option_types (go_options args)) in
          if helped (go_options args) then run = (mt_usage method ;; mret EXIT_SUCCESS) w
          else if fits method command then
            run = (r ← mt_dispatch method command; mret (if r <? 0 then EXIT_FAILURE else EXIT_SUCCESS)) w
          else fails
      end
  end.
Proof.
  intros run fails.
  assert (forall w', exists w'', (usage ;; mret EXIT_FAILURE : M W Z) w' = Ret EXIT_FAILURE w'') as Hu.
  { intros w'. specialize (Husage w'). unfold wp in Husage. unfold mbind, M_bind.
    destruct (usage w'); [by eexists|done]. }
  pose proof (parse_options_spec option_types (go_options args) 0 new_command w Hknown) as Hp.
  unfold fails, run, cli_main, parse_cli_opts, mbind, M_bind in *.
  destruct (unknown (go_options args)).
  { destruct Hp as [command' ->]. apply Hu. }
  rewrite Hp. cbn [new_command cmd_op cmd_opargv cmd_is_help cmd_options orb app].
  destruct (go_rest args) as [|op argv].
  { cbn. destruct (helped (go_options args)); cbn; [done|apply Hu]. }
  cbn. destruct (List.find _ _) as [method|].
  2: { apply Hu. }
  destruct (helped (go_options args)) eqn:Hh.
  { unfold command_execute, mbind, M_bind. cbn. by destruct (mt_usage method w). }
  pose proof (command_execute_spec method
    (mkCommand (Some op) argv false (collected option_types (go_options args))) w eq_refl) as He.
  destruct (fits _ _); [by rewrite He|]. destruct He as [w' ->]. by exists w'.
Qed.

Section shutdown.
Context {W : Type}.

(** [hook] is the function of a hook that is not NULL; sd_event_exit is [exit]. *)
Definition event_loop_signal_handler (event_source : bool) (hook : option (M W void)) (exit : M W Z) : M W Z :=
  if negb event_source then mret (- EINVAL) else
  match hook with
  | Some shutdown => shutdown
  | None => mret tt
  end ;;
  exit.
End shutdown.

(** [results] are those of sigemptyset, the two sigaddset, sigprocmask and the two
    sd_event_add_signal, as far as they are called. *)
Definition event_loop_add_shutdown_signals (event : bool) (results : list Z) : Z :=
  if negb event then - EINVAL
  else if existsb (fun r => r <? 0) results then -1 else 0.
