(* ===== verification/IsOnline.v ===== *)
(** is-online/is-online.c and is-online/main.c: bluechi-is-online, which checks whether
    the agent, a node or the system is online, waits for it or monitors it; its exit
    status is the state of the component when it ends. The bus and the event loop are
    parameters: the results of the calls, and the events that the loop delivers in order.
    A run that is still waiting after the last of them is out of fuel. *)
From S2P Require Import Prelude CString StringUtil ParseUtil TimeUtil Protocol BusUtils Socket.
From S2P Require Import BusProps World AgentWorld Command.
Local Open Scope list_scope.

Record ConnectionState := mkConnectionState {
  has_name : bool;
  is_connected : bool;
  is_switching_controller : bool;
}.
#[export] Instance eta_ConnectionState : EtaRecord ConnectionState := fun s =>
  mkConnectionState (has_name s) (is_connected s) (is_switching_controller s).
Record ParsedParams := mkParsedParams {
  initial_wait : Z;
  should_monitor : bool;
  switch_timeout : Z;
  service : string;
}.

Definition connection_state_is_online (s : ConnectionState) : bool := has_name s && is_connected s.

(** The process: the state, the calls on the event loop, the number of other calls of
    the libraries made so far, whether the loop was told to exit, and the output. *)
Record IoWorld := mkIoWorld {
  io_state : ConnectionState;
  io_events : EventWorld;
  io_calls : nat;
  io_exit : bool;
  io_output : list printed;
}.
#[export] Instance eta_IoWorld : EtaRecord IoWorld := fun w =>
  mkIoWorld (io_state w) (io_events w) (io_calls w) (io_exit w) (io_output w).
#[export] Instance io_console : Console IoWorld := fun p w => w <| io_output ::= fun l => l ++ [p] |>.
Abbreviation IM := (M IoWorld).

(** ** Messages *)

Inductive io_event :=
| IoPropertiesChanged (m : changed_properties)
| IoNameOwnerChanged (args : read (string * string * string))
| IoTimer
| IoSignal               (* SIGTERM or SIGINT *)
| IoLoopFails (r : Z).

Class IsOnlineEnv := {
  io_errors :: Errors;
  io_sd_event :: SdEvent;
  io_result : nat -> Z;                            (* of the k-th other call *)
  name_owner : string -> Z;                        (* GetNameOwner *)
  status_property : string -> string -> string -> read (read (option string));
  io_malloc : bool;
}.

Section is_online.
Context {E : IsOnlineEnv} (params : ParsedParams).

Definition library : IM Z := fun w => Ret (io_result (io_calls w)) (w <| io_calls ::= S |>).
Definition event_call {A} (m : M EventWorld A) : IM A := fun w =>
  match m (io_events w) with
  | Ret a e => Ret a (w <| io_events := e |>)
  | Crash c => Crash c
  end.
Definition the_state : IM ConnectionState := gets io_state.
Definition upd_state (f : ConnectionState -> ConnectionState) : IM void :=
  modify (fun w => w <| io_state ::= f |>).
Definition sd_event_exit : IM Z := modify (fun w => w <| io_exit := true |>) ;; mret 0.

(** ** Callbacks *)

Definition timer_callback : IM Z :=
  s ← the_state;
  if connection_state_is_online s && should_monitor params then mret 0 else sd_event_exit.

Definition setup_timer (timeout : Z) : IM Z :=
  x ← event_call (event_reset_time_relative None 7 timeout 0 0 (Some "bluechi-is-online-timer-source") false);
  let '(r, event_source) := x in
  if r <? 0 then
    eprintf ("Failed to reset agent heartbeat timer: " ++ strerror (- r) ++ nl) ;; mret r
  else library.                                    (* sd_event_source_set_floating *)

Definition parse_status_changed_from_property (m : status_value) : IM (Z * option string) :=
  if sv_enter m <? 0 then
    eprintf ("Failed to enter content of variant type: " ++ strerror (- sv_enter m) ++ nl) ;;
    mret (sv_enter m, None)
  else match sv_read m with
  | ReadErr r =>
      eprintf ("Failed to read value of changed property: " ++ strerror (- r) ++ nl) ;; mret (r, None)
  | ReadOk status =>
      let copy := if sv_strdup m then Some status else None in
      if sv_leave m <? 0 then
        eprintf ("Failed to exit container: " ++ strerror (- sv_leave m) ++ nl) ;; mret (sv_leave m, copy)
      else mret (0, copy)
  end.

Definition status_online (status : string) : bool := streq status "online" || streq status "up".

Definition handle_connection_state_changed (m : status_value) : IM Z :=
  x ← parse_status_changed_from_property m;
  let '(r, con_state) := x in
  if r <? 0 then mret r else
  match con_state with
  | None =>
      eprintf ("Received connection status change signal with missing 'Status' key." ++ nl) ;; mret 0
  | Some con_state =>
      upd_state (fun s => s <| is_connected := status_online con_state |>) ;;
      s ← the_state;
      if is_switching_controller s && negb (connection_state_is_online s) then
        upd_state (fun s => s <| is_switching_controller := false |>) ;; mret 0
      else if (should_monitor params && negb (connection_state_is_online s))
           || (negb (should_monitor params) && (0 <? initial_wait params) && connection_state_is_online s)
      then sd_event_exit else mret 0
  end.

Definition handle_controller_address_changed : IM Z :=
  (if 0 <? switch_timeout params then
     _r ← setup_timer (u64 (switch_timeout params * USEC_PER_MSEC));
     upd_state (fun s => s <| is_switching_controller := true |>)
   else mret tt) ;;
  mret 0.

Fixpoint process_entries (entries : list changed_property) : IM Z :=
  match entries with
  | [] => mret 0
  | e :: rest =>
      match cp_key e with
      | ReadErr r =>
          eprintf ("Failed to read next unit changed property: " ++ strerror (- r) ++ nl) ;; mret r
      | ReadOk None => mret 0
      | ReadOk (Some key) =>
          (if streq key "Status" then _r ← handle_connection_state_changed (cp_value e); mret tt
           else if streq key "ControllerAddress" then _r ← handle_controller_address_changed; mret tt
           else mret tt) ;;
          if enter_nested_entry <=? 0 then mret 0 else process_entries rest
      end
  end.

Definition on_properties_changed (m : changed_properties) : IM Z :=
  if pc_enter m <? 0 then
    eprintf ("Failed to read changed properties: " ++ strerror (- pc_enter m) ++ nl) ;; mret (pc_enter m)
  else
    r ← process_entries (pc_entries m);
    if r <? 0 then mret r else mret (pc_leave m).

Definition on_name_owner_changed (args : read (string * string * string)) : IM Z :=
  match args with
  | ReadErr r => mret r
  | ReadOk (name, _, new) =>
      (if streq name (service params) && negb (streq new "") then
         upd_state (fun s => s <| has_name := true |>)
       else mret tt) ;;
      mret 0
  end.

(** The loop, until it is told to exit. *)
Fixpoint event_loop (events : list io_event) : IM Z :=
  match events with
  | [] => crash_with OutOfFuel
  | e :: events =>
      match e with
      | IoLoopFails r => mret r
      | _ =>
          _r ← match e with
               | IoPropertiesChanged m => on_properties_changed m
               | IoNameOwnerChanged args => on_name_owner_changed args
               | IoTimer => timer_callback
               | _ => sd_event_exit                (* event_loop_signal_handler without a hook *)
               end;
          w ← Prelude.get;
          if io_exit w then mret 0 else event_loop events
      end
  end.

(** ** Running *)

(** The calls of [setup_event_loop] in order with what it says when they fail. *)
Fixpoint setup_calls (texts : list string) : IM Z :=
  match texts with
  | [] => mret 0
  | text :: texts =>
      r ← library;
      if r <? 0 then eprintf (text ++ strerror (- r) ++ nl) ;; mret r else setup_calls texts
  end.
Definition setup_event_loop : IM Z :=
  setup_calls
    ["Failed to create event loop: ";
     "Failed to attach bus to event: ";
     "Failed to add signals to agent event loop: ";
     "Failed to create callback for NodeConnectionStateChanged: ";
     "Failed to create callback for NameAcquired: "]%string.

Definition start_monitoring (events : list io_event) : IM void :=
  r ← setup_event_loop;
  if r <? 0 then mret tt else
  r ← (if 0 <? initial_wait params then setup_timer (u64 (initial_wait params * USEC_PER_MSEC)) else mret 0);
  if r <? 0 then mret tt else
  r ← event_loop events;
  if r <? 0 then eprintf ("Failed to start event loop: " ++ strerror (- r) ++ nl) else mret tt.

Definition is_online (path iface : string) : IM bool :=
  match status_property (service params) path iface with
  | ReadErr r => eprintf ("Failed to get property: " ++ strerror (- r) ++ nl) ;; mret false
  | ReadOk (ReadErr r) => eprintf ("Failed to read property: " ++ strerror (- r) ++ nl) ;; mret false
  | ReadOk (ReadOk status) => mret (match status with Some s => status_online s | None => false end)
  end.

Definition is_service_available : bool := 0 <=? name_owner (service params).

Definition open_bus : IM Z :=
  r ← library;
  if r <? 0 then eprintf ("Failed to connect to api bus: " ++ strerror (- r) ++ nl) ;; mret r else mret 0.

(** [run_is_online] after the options are parsed. *)
Definition check_online (path iface : string) (events : list io_event) : IM Z :=
  r ← open_bus;
  if r <? 0 then eprintf ("Failed to open bus: " ++ strerror (- r) ++ nl) ;; mret r else
  upd_state (fun _ => mkConnectionState is_service_available false false) ;;
  (if is_service_available then
     online ← is_online path iface;
     upd_state (fun s => s <| is_connected := online |>)
   else mret tt) ;;
  s ← the_state;
  (if (should_monitor params && connection_state_is_online s)
   || ((0 <? initial_wait params) && negb (connection_state_is_online s))
   then start_monitoring events else mret tt) ;;
  s ← the_state;
  if negb (connection_state_is_online s) then
    eprintf (service params ++ " is offline" ++ nl) ;; mret (-1)
  else mret 0.
End is_online.

(** ** The command line *)

Definition ARG_MONITOR_SHORT : Z := 1000.
Definition ARG_WAIT_SHORT : Z := 1001.
Definition ARG_SWITCH_CTRL_TIMEOUT_SHORT : Z := 1002.
Definition OPT_MONITOR : Z := 2.
Definition OPT_WAIT : Z := 4.
Definition OPT_SWITCH_CTRL_TIMEOUT : Z := 8.
Definition BC_DBUS_NAME : string := "org.eclipse.bluechi".

Definition option_types : list OptionType :=
  [mkOptionType ARG_MONITOR_SHORT (Some "monitor"%string) OPT_MONITOR;
   mkOptionType ARG_WAIT_SHORT (Some "wait"%string) OPT_WAIT;
   mkOptionType ARG_SWITCH_CTRL_TIMEOUT_SHORT (Some "switch-timeout"%string) OPT_SWITCH_CTRL_TIMEOUT;
   mkOptionType 0 None 0].

Section main.
Context {E : IsOnlineEnv} (events : list io_event) (version : string) (usage : IM void).

Definition run_is_online (command : Command) (service path interface : string) : IM Z :=
  match command_get_option_long command ARG_WAIT_SHORT with
  | inl r => eprintf ("Failed to parse --wait: " ++ strerror (- r) ++ nl) ;; mret (- EINVAL)
  | inr initial_wait =>
      match command_get_option_long command ARG_SWITCH_CTRL_TIMEOUT_SHORT with
      | inl r => eprintf ("Failed to parse --switch-timeout: " ++ strerror (- r) ++ nl) ;; mret (- EINVAL)
      | inr switch_timeout =>
          check_online
            (mkParsedParams initial_wait (command_flag_exists command ARG_MONITOR_SHORT)
               switch_timeout service) path interface events
      end
  end.

Definition method_is_online_agent (command : Command) : IM Z :=
  run_is_online command BC_AGENT_DBUS_NAME BC_AGENT_OBJECT_PATH AGENT_INTERFACE.

(** [opargv] ends with a null pointer. *)
Definition method_is_online_node (command : Command) : IM Z :=
  match cmd_opargv command with
  | [] => crash_with InvalidPointer
  | node_name :: _ =>
      let '(r, node_path) := assemble_object_path_string io_malloc io_malloc NODE_OBJECT_PATH_PREFIX node_name in
      if r <? 0 then
        eprintf ("Failed to assemble path for node '" ++ node_name ++ "': " ++ strerror (- r) ++ nl) ;; mret r
      else run_is_online command BC_DBUS_NAME (default ""%string node_path) NODE_INTERFACE
  end.

Definition method_is_online_system (command : Command) : IM Z :=
  run_is_online command BC_DBUS_NAME BC_OBJECT_PATH CONTROLLER_INTERFACE.

Definition method_help (_ : Command) : IM Z := usage ;; mret 0.
Definition method_version (_ : Command) : IM Z :=
  printf ("bluechi-is-online version " ++ version ++ nl) ;; mret 0.

Definition methods : list (Method IoWorld) :=
  [mkMethod "help" 0 0 0 method_help usage;
   mkMethod "version" 0 0 0 method_version usage;
   mkMethod "agent" 0 0 (Z.lor (Z.lor OPT_MONITOR OPT_WAIT) OPT_SWITCH_CTRL_TIMEOUT)
     method_is_online_agent usage;
   mkMethod "node" 1 1 (Z.lor OPT_MONITOR OPT_WAIT) method_is_online_node usage;
   mkMethod "system" 0 0 (Z.lor OPT_MONITOR OPT_WAIT) method_is_online_system usage].

Definition main (args : getopt_result) : IM Z :=
  cli_main option_types (fun _ => io_malloc) methods usage (mret 0) args.
End main.

(** ** The reference *)

(** What a signal says of the status: only its first property counts. *)
Definition told_status (m : changed_properties) : option string :=
  if pc_enter m <? 0 then None else
  match pc_entries m with
  | mkChanged (ReadOk (Some key)) v :: _ =>
      if negb (streq key "Status") || (sv_enter v <? 0) || (sv_leave v <? 0) || negb (sv_strdup v) then None
      else match sv_read v with ReadOk status => Some status | ReadErr _ => None end
  | _ => None
  end.

(** It says instead that the agent has another controller address. *)
Definition address_told (m : changed_properties) : bool :=
  (0 <=? pc_enter m) &&
  match pc_entries m with
  | mkChanged (ReadOk (Some key)) _ :: _ => streq key "ControllerAddress"
  | _ => false
  end.

(** A status: when it is the first bad one after a change of the address, it is excused. *)
Definition excused (s : ConnectionState) : bool :=
  is_switching_controller s && negb (connection_state_is_online s).
Definition with_status (s : ConnectionState) (status : string) : ConnectionState :=
  s <| is_connected := status_online status |>.

(** The state after an event. *)
Definition seen (params : ParsedParams) (s : ConnectionState) (e : io_event) : ConnectionState :=
  match e with
  | IoPropertiesChanged m =>
      match told_status m with
      | Some status =>
          let s' := with_status s status in
          if excused s' then s' <| is_switching_controller := false |> else s'
      | None =>
          if address_told m && (0 <? switch_timeout params) then s <| is_switching_controller := true |>
          else s
      end
  | IoNameOwnerChanged (ReadOk (name, _, new)) =>
      if streq name (service params) && negb (streq new "") then s <| has_name := true |> else s
  | _ => s
  end.

(** Whether it ends the run, [s] being the state before it. *)
Definition ends (params : ParsedParams) (s : ConnectionState) (e : io_event) : bool :=
  match e with
  | IoPropertiesChanged m =>
      match told_status m with
      | Some status =>
          let s' := with_status s status in
          let online := connection_state_is_online s' in
          negb (excused s') &&
          (if should_monitor params then negb online else (0 <? initial_wait params) && online)
      | None => false
      end
  | IoNameOwnerChanged _ => false
  | IoTimer => negb (connection_state_is_online s && should_monitor params)
  | IoSignal | IoLoopFails _ => true
  end.

(** The state in which the run ends, if it does. *)
Fixpoint watch (params : ParsedParams) (s : ConnectionState) (events : list io_event) :
    option ConnectionState :=
  match events with
  | [] => None
  | e :: events =>
      let s' := seen params s e in
      if ends params s e then Some s' else watch params s' events
  end.

(** [m] has the outcome [x]: it returns [Some] value, or waits for more events. *)
Definition outcome_is {A} (m : outcome IoWorld A) (x : option A) : Prop :=
  match x with
  | Some a => exists w', m = Ret a w'
  | None => m = Crash OutOfFuel
  end.

(** The timers set so far. *)
Definition timers (w : IoWorld) : nat :=
  Datatypes.length (List.filter (fun c => match c with EvAddTime _ _ _ => true | _ => false end)
                      (ev_calls (io_events w))).

(** The state and the exit flag are the ones given. *)
Ltac state_is := cbn; split; cbn; congruence.

Section is_online.
Context {E : IsOnlineEnv} (params : ParsedParams).
Context (Hlib : forall k, 0 <= io_result k) (Htimer : forall k c, 0 <= ea_r (sd_event_answer k c)).

Lemma wp_printed {A} (p : string) (k : IM A) Q w :
  (forall o, wp k Q (w <| io_output := o |>)) -> wp (eprintf p ;; k) Q w.
Proof. intros H. by apply wp_bind, wp_modify, H. Qed.

(** A step ends in the state [s] and with the loop told to exit or not; it only adds to
    the calls on the event loop. *)
Definition ends_in (s : ConnectionState) (exit : bool) (w : IoWorld) : Prop :=
  io_state w = s /\ io_exit w = exit.

Lemma wp_parse_status v w :
  wp (parse_status_changed_from_property v)
     (fun x w' => ends_in (io_state w) (io_exit w) w' /\
        told_status (mkChangedProperties 0 [mkChanged (ReadOk (Some "Status"%string)) v] 0) =
        (if fst x <? 0 then None else snd x)) w.
Proof.
  unfold parse_status_changed_from_property, told_status. cbn [pc_enter pc_entries].
  change (0 <? 0) with false. change (streq "Status" "Status") with true. cbn [negb orb].
  destruct (sv_enter v <? 0) eqn:He; cbn [orb].
  { apply wp_printed. intros o. apply wp_ret. cbn. by rewrite He. }
  destruct (sv_read v) as [r|status] eqn:Hr.
  { apply wp_printed. intros o. apply wp_ret. cbn. split; [done|]. case_match; by destruct (r <? 0). }
  destruct (sv_leave v <? 0) eqn:Hl.
  { apply wp_printed. intros o. apply wp_ret. cbn. by rewrite Hl. }
  apply wp_ret. cbn. by destruct (sv_strdup v).
Qed.

Lemma wp_setup_timer timeout w :
  wp (setup_timer timeout) (fun r w' => 0 <= r /\ ends_in (io_state w) (io_exit w) w' /\
    timers w' = S (timers w)) w.
Proof.
  unfold setup_timer. apply wp_bind. unfold wp at 1, event_call.
  unfold event_reset_time_relative, event_reset_time, mbind, M_bind, ev_call.
  assert (forall k c, (ea_r (sd_event_answer k c) <? 0) = false) as Hlt
    by (intros; apply Z.ltb_ge, Htimer).
  rewrite Hlt. cbn. rewrite Hlt. cbn. rewrite Hlt. cbn. rewrite Hlt. cbn. split_and!; [apply Hlib|done|].
  unfold timers. cbn. rewrite !List.filter_app, !length_app. cbn. lia.
Qed.

(** What a signal with the status does. *)
Definition reacts (s : ConnectionState) (e : io_event) (w : IoWorld) : Prop :=
  ends_in (seen params s e) (ends params s e) w.
Definition status_signal (v : status_value) : io_event :=
  IoPropertiesChanged (mkChangedProperties 0 [mkChanged (ReadOk (Some "Status"%string)) v] 0).

Lemma wp_handle_status v w :
  io_exit w = false ->
  wp (handle_connection_state_changed params v)
     (fun _ w' => reacts (io_state w) (status_signal v) w') w.
Proof.
  intros Hx. unfold handle_connection_state_changed. apply wp_bind.
  eapply wp_mono; [apply wp_parse_status|]. cbn beta. intros [r con] w1 [[Hs Hx1] Htold].
  unfold reacts, status_signal, seen, ends. rewrite Htold. cbn [fst snd]. clear Htold.
  change (address_told _) with false. cbn [andb].
  destruct (r <? 0); [apply wp_ret; state_is|].
  destruct con as [status|]; cbn zeta.
  - apply wp_bind, wp_modify. match goal with |- wp _ _ ?w => set (w2 := w) end.
    assert (io_state w2 = with_status (io_state w) status) as Hs2 by (unfold w2; cbn; by rewrite Hs).
    assert (io_exit w2 = false) as Hx2 by (cbn; congruence). clearbody w2.
    apply wp_bind, wp_gets. rewrite Hs2. change (is_switching_controller ?s && negb (connection_state_is_online ?s))
      with (excused s).
    destruct (excused _); [apply wp_bind, wp_modify, wp_ret; split; cbn; by rewrite ?Hs2|].
    destruct (should_monitor params); cbn [andb negb orb].
    + rewrite orb_false_r. destruct (connection_state_is_online _) eqn:Ho; cbn [negb].
      * apply wp_ret. state_is.
      * apply wp_bind, wp_modify, wp_ret. state_is.
    + destruct (_ && _); [apply wp_bind, wp_modify, wp_ret|apply wp_ret]; state_is.
  - apply wp_printed. intros o. apply wp_ret. state_is.
Qed.

Lemma wp_address_changed w :
  io_exit w = false ->
  wp (handle_controller_address_changed params) (fun _ w' =>
    ends_in (if 0 <? switch_timeout params then (io_state w) <| is_switching_controller := true |>
             else io_state w) false w') w.
Proof.
  intros Hx. unfold handle_controller_address_changed. destruct (0 <? _); [|by apply wp_bind, wp_ret, wp_ret].
  do 2 apply wp_bind. eapply wp_mono; [apply wp_setup_timer|]. intros r w1 (_ & [Hs Hx1] & _).
  apply wp_modify, wp_ret. state_is.
Qed.

Lemma wp_properties_changed m w :
  io_exit w = false ->
  wp (on_properties_changed params m)
     (fun _ w' => reacts (io_state w) (IoPropertiesChanged m) w') w.
Proof.
  intros Hx. unfold on_properties_changed.
  assert (forall P : IM Z, told_status m = None -> address_told m = false ->
    wp P (fun _ => ends_in (io_state w) false) w ->
    wp P (fun _ w' => reacts (io_state w) (IoPropertiesChanged m) w') w) as Hnone.
  { intros P H1 H2 HP. unfold reacts, seen, ends. rewrite H1, H2. exact HP. }
  destruct (pc_enter m <? 0) eqn:He.
  { apply Hnone; unfold told_status, address_told; rewrite ?He; [done| |].
    - by rewrite (proj2 (Z.leb_gt 0 _)) by (by apply Z.ltb_lt).
    - apply wp_printed. intros o. by apply wp_ret. }
  pose proof (proj2 (Z.leb_le _ _) (proj1 (Z.ltb_ge _ _) He)) as Hle.
  assert (forall P Q, wp P (fun _ w' => Q w') w ->
    wp (r ← P; if r <? 0 then mret r else mret (pc_leave m)) (fun (_ : Z) w' => Q w') w) as Htail.
  { intros P Q HP. apply wp_bind. eapply wp_mono; [exact HP|]. cbn beta. intros r w' HQ.
    destruct (r <? 0); by apply wp_ret. }
  apply Htail.
  destruct (pc_entries m) as [|[key v] rest] eqn:Hm; cbn [process_entries cp_key cp_value].
  { apply Hnone; [unfold told_status|unfold address_told|]; rewrite ?He, ?Hle, ?Hm; [done..|]. by apply wp_ret. }
  destruct key as [r|[key|]].
  { apply Hnone; [unfold told_status|unfold address_told|]; rewrite ?He, ?Hle, ?Hm; [done..|].
    apply wp_printed. intros o. by apply wp_ret. }
  2: { apply Hnone; [unfold told_status|unfold address_told|]; rewrite ?He, ?Hle, ?Hm; [done..|]. by apply wp_ret. }
  assert (told_status m = if streq key "Status" then
    told_status (mkChangedProperties 0 [mkChanged (ReadOk (Some "Status"%string)) v] 0) else None) as Ht.
  { unfold told_status. rewrite He, Hm. cbn [pc_enter pc_entries]. change (0 <? 0) with false.
    change (streq "Status" "Status") with true. by destruct (streq key "Status"). }
  assert (address_told m = streq key "ControllerAddress") as Hat.
  { unfold address_told. by rewrite Hle, Hm. }
  apply wp_bind. change (enter_nested_entry <=? 0) with true. cbn iota.
  destruct (streq key "Status") eqn:Hk.
  { apply streq_true in Hk as ->. apply wp_bind. eapply wp_mono; [by apply wp_handle_status|]. cbn beta. intros _ w1 H1.
    do 2 apply wp_ret. unfold reacts, status_signal, seen, ends in *. by rewrite Ht, Hat. }
  destruct (streq key "ControllerAddress") eqn:Hc.
  2: { do 2 apply wp_ret. unfold reacts, seen, ends. by rewrite Ht, Hat. }
  apply wp_bind. eapply wp_mono; [by apply wp_address_changed|]. intros r w1 H1. do 2 apply wp_ret.
  unfold reacts, seen, ends. by rewrite Ht, Hat.
Qed.

(** The loop follows the reference. *)
Lemma event_loop_watch events : forall w,
  io_exit w = false ->
  match watch params (io_state w) events with
  | Some s => wp (event_loop params events) (fun _ w' => io_state w' = s) w
  | None => event_loop params events w = Crash OutOfFuel
  end.
Proof.
  induction events as [|e events IH]; intros w Hx; [done|]. cbn [watch event_loop].
  assert (forall (step : IM Z), wp step (fun _ w' => reacts (io_state w) e w') w ->
    match (if ends params (io_state w) e then Some (seen params (io_state w) e)
           else watch params (seen params (io_state w) e) events) with
    | Some s => wp (_r ← step; w ← Prelude.get; if io_exit w then mret 0 else event_loop params events)
                  (fun _ w' => io_state w' = s) w
    | None => (_r ← step; w ← Prelude.get; if io_exit w then mret 0 else event_loop params events) w =
                Crash OutOfFuel
    end) as Hstep.
  { intros step Hs. unfold wp at 1 in Hs. unfold wp, mbind, M_bind.
    destruct (step w) as [r w1|]; [|done]. destruct Hs as [Hs1 Hx1]. cbn. rewrite Hx1.
    destruct (ends _ _ _); [exact Hs1|]. rewrite <- Hs1. by apply IH. }
  destruct e as [m|args| | |r]; cbn iota; [..|by apply wp_ret]; apply Hstep.
  - by apply wp_properties_changed.
  - unfold reacts, on_name_owner_changed. cbn [seen ends].
    destruct args as [|[[name old] new]]; [by apply wp_ret|].
    apply wp_bind. destruct (_ && _); [apply wp_modify|apply wp_ret]; apply wp_ret; state_is.
  - unfold reacts. cbn [seen ends]. apply wp_bind, wp_gets.
    destruct (_ && _); [apply wp_ret|apply wp_bind, wp_modify, wp_ret]; state_is.
  - apply wp_bind, wp_modify, wp_ret. state_is.
Qed.

Lemma wp_setup_calls texts w :
  wp (setup_calls texts) (fun r w' => 0 <= r /\ ends_in (io_state w) (io_exit w) w') w.
Proof.
  revert w. induction texts as [|t texts IH]; intros w; [by apply wp_ret|]. cbn [setup_calls].
  apply wp_bind. unfold wp at 1, library. rewrite (proj2 (Z.ltb_ge _ _)) by apply Hlib. pose proof (IH (w <| io_calls ::= S |>)) as H. exact H.
Qed.
(** What is known when the program starts. *)
Definition first_state (path iface : string) : ConnectionState :=
  mkConnectionState (is_service_available params)
    (is_service_available params &&
     match status_property (service params) path iface with
     | ReadOk (ReadOk (Some s)) => status_online s
     | _ => false
     end) false.

Lemma start_monitoring_watch events w :
  io_exit w = false ->
  match watch params (io_state w) events with
  | Some s => wp (start_monitoring params events) (fun _ w' => io_state w' = s) w
  | None => start_monitoring params events w = Crash OutOfFuel
  end.
Proof.
  intros Hx. unfold start_monitoring.
  pose proof (wp_setup_calls
    ["Failed to create event loop: "; "Failed to attach bus to event: ";
     "Failed to add signals to agent event loop: ";
     "Failed to create callback for NodeConnectionStateChanged: ";
     "Failed to create callback for NameAcquired: "]%string w) as H1. unfold wp at 1 in H1.
  unfold setup_event_loop. unfold wp, mbind, M_bind in *.
  destruct (setup_calls _ w) as [r w1|]; [|done]. destruct H1 as [Hr [Hs1 Hx1]].
  rewrite (proj2 (Z.ltb_ge r 0)) by lia.
  assert (wp (if 0 <? initial_wait params
              then setup_timer (u64 (initial_wait params * USEC_PER_MSEC)) else mret 0)
            (fun r w' => 0 <= r /\ ends_in (io_state w) (io_exit w) w') w1) as H2.
  { rewrite <- Hs1, <- Hx1. destruct (0 <? _); [|by apply wp_ret].
    eapply wp_mono; [apply wp_setup_timer|]. intros r2 w2 (? & ? & _). by split. }
  unfold wp in H2. case_match; [|done].
  match goal with H : _ w1 = Ret ?r' ?w' |- _ => rename r' into r2, w' into w2; rename H into Hgo end.
  destruct H2 as [Hr2 [Hs2 Hx2]]. rewrite (proj2 (Z.ltb_ge r2 0)) by lia.
  pose proof (event_loop_watch events w2 (eq_trans Hx2 Hx)) as H3.
  rewrite Hs2 in H3. destruct (watch _ _ _).
  - unfold wp in H3. destruct (event_loop params events w2) as [r3 w3|]; [|done]. by destruct (r3 <? 0).
  - by rewrite H3.
Qed.
End is_online.

(** C26. When bluechi-is-online ends and with which exit status, when library calls
    succeed. It keeps a record of the component: whether it has seen its name (a name is
    never given up), and the last status it was told (by the first property of a signal).
    It checks the component once; with --monitor, while the record counts as online, and
    with --wait, while it does not, it goes on watching, over any sequence of events,
    until the event at which the reference ends: monitoring, a status that is not online,
    except the first one after a change of the controller address with --switch-timeout;
    only waiting, a status with which the record is online; a timer, unless it monitors
    and the record is online; a signal, or a failure of the loop. The status is 0
    exactly if the record counts as online then. *)
Theorem online_check_correct {E : IsOnlineEnv} (params : ParsedParams) (path iface : string)
  (events : list io_event) (w : IoWorld)
  (Hlib : forall k, 0 <= io_result k) (Htimer : forall k c, 0 <= ea_r (sd_event_answer k c))
  (Hw : io_exit w = false) :
  let s := first_state params path iface in
  let online := connection_state_is_online s in
  let status s := if connection_state_is_online s then 0 else -1 in
  outcome_is (check_online params path iface events w)
    (if should_monitor params && online || (0 <? initial_wait params) && negb online
     then status <$> watch params s events else Some (status s)).
Proof.
  intros s online status.
  set (go := start_monitoring params events).
  set (finish := s ← the_state; if negb (connection_state_is_online s) then
    eprintf (service params ++ " is offline" ++ nl) ;; mret (-1) else mret 0 : IM Z).
  assert (forall w, outcome_is (finish w) (Some (status (io_state w)))) as Hfinish.
  { intros w1. unfold finish, status, mbind, M_bind, the_state, gets.
    destruct (connection_state_is_online (io_state w1)) ; cbn; by eexists. }
  assert (exists w1, ends_in s false w1 /\
    check_online params path iface events w =
    ((if should_monitor params && online || (0 <? initial_wait params) && negb online
      then go else mret tt) ;; finish) w1) as (w1 & [Hs Hx] & ->).
  { unfold check_online, open_bus, library, mbind, M_bind. 
    rewrite (proj2 (Z.ltb_ge _ _)) by apply Hlib. cbn.
    unfold online, s, first_state. destruct (is_service_available params); cbn.
    - unfold is_online.
      destruct (status_property _ _ _) as [r|[r|[str|]]]; cbn;
        (eexists; split; [|reflexivity]); state_is.
    - eexists; split; [|reflexivity]. state_is. }
  destruct (_ || _).
  - pose proof (start_monitoring_watch params Hlib Htimer events w1 Hx) as H.
    rewrite Hs in H. destruct (watch params s events) as [s'|]; cbn [fmap option_fmap option_map outcome_is].
    + unfold wp in H. unfold mbind, M_bind. fold go in H. destruct (go w1) as [[] w2|]; [|done]. subst s'.
      apply (Hfinish w2).
    + unfold mbind, M_bind. fold go in H. by rewrite H.
  - unfold mbind, M_bind. cbn. rewrite <- Hs. apply (Hfinish w1).
Qed.

(** The first property of the signal is the address of the controller. *)
Definition told_address (m : changed_properties) : Prop :=
  0 <= pc_enter m /\ exists v rest, pc_entries m = mkChanged (ReadOk (Some "ControllerAddress"%string)) v :: rest.
Definition name_change (e : io_event) : Prop := match e with IoNameOwnerChanged _ => True | _ => False end.


Lemma told_status_Some m status : told_status m = Some status ->
  (pc_enter m <? 0) = false /\ exists v rest,
    pc_entries m = mkChanged (ReadOk (Some "Status"%string)) v :: rest /\ (sv_enter v <? 0) = false /\
    sv_read v = ReadOk status /\ (sv_leave v <? 0) = false /\ sv_strdup v = true.
Proof.
  unfold told_status. destruct (pc_enter m <? 0); [done|].
  destruct (pc_entries m) as [|[[|[key|]] v] rest]; [done..| |done].
  destruct (streq key "Status") eqn:Hk; [|done]. apply streq_true in Hk as ->.
  destruct (sv_enter v <? 0) eqn:He, (sv_leave v <? 0) eqn:Hl, (sv_strdup v) eqn:Hd; try done.
  cbn. destruct (sv_read v) eqn:Hr; [done|]. intros [= ->]. split; [done|]. by exists v, rest.
Qed.

Lemma names_wait {E : IsOnlineEnv} params names : forall w,
  io_exit w = false -> Forall name_change names -> event_loop params names w = Crash OutOfFuel.
Proof.
  induction names as [|e names IH]; intros w Hw Hn; [done|]. apply Forall_cons in Hn as [He Hn].
  destruct e as [|args| | |]; try done. cbn [event_loop].
  assert (wp (on_name_owner_changed params args) (fun _ w' => io_exit w' = false) w) as H.
  { unfold on_name_owner_changed. destruct args as [|[[name old] new]]; [by apply wp_ret|].
    apply wp_bind. destruct (_ && _); [apply wp_modify|apply wp_ret]; by apply wp_ret. }
  unfold wp in H. unfold mbind, M_bind. destruct (on_name_owner_changed params args w) as [r w1|]; [|done].
  cbn. rewrite H. by apply IH.
Qed.

(** The tolerance for switching controllers is lost when it has run out before the agent
    disconnects: the timer is set once, for the change of the address, and fires while
    the agent is still online; the loss of the connection that follows is excused
    nevertheless. From then on the agent is offline, no timer is pending, and nothing
    but a further change of the status, a signal or a failure of the loop can end the
    program, which goes on monitoring an agent that is offline. *)
Theorem late_switch_not_noticed {E : IsOnlineEnv} (params : ParsedParams) (address offline : changed_properties)
  (status : string) (names : list io_event) (w : IoWorld)
  (Hlib : forall k, 0 <= io_result k) (Htimer : forall k c, 0 <= ea_r (sd_event_answer k c))
  (Hmonitor : should_monitor params = true) (Hswitch : 0 < switch_timeout params)
  (Hw : io_exit w = false) (Honline : connection_state_is_online (io_state w) = true)
  (Haddress : told_address address) (Hoffline : told_status offline = Some status)
  (Hstatus : status_online status = false) (Hnames : Forall name_change names) :
  wp (_r ← on_properties_changed params address; _r ← timer_callback params;
      on_properties_changed params offline)
     (fun _ w' => connection_state_is_online (io_state w') = false /\ timers w' = S (timers w) /\
        io_exit w' = false /\ event_loop params names w' = Crash OutOfFuel) w.
Proof.
  destruct Haddress as [Ha (v & rest & Hentries)].
  destruct (told_status_Some _ _ Hoffline) as (Ho & v' & rest' & Hentries' & He & Hr & Hl & Hd).
  apply wp_bind. unfold on_properties_changed at 1. rewrite (proj2 (Z.ltb_ge _ _)) by lia.
  rewrite Hentries. cbn [process_entries cp_key]. do 2 apply wp_bind.
  change (streq "ControllerAddress" "Status") with false.
  change (streq "ControllerAddress" "ControllerAddress") with true. cbn iota.
  unfold handle_controller_address_changed. rewrite (proj2 (Z.ltb_lt _ _)) by lia.
  do 3 apply wp_bind. eapply wp_mono; [by apply wp_setup_timer|].
  intros _ w1 [_ [[Hs1 Hx1] Ht1]]. apply wp_modify. do 4 apply wp_ret.
  match goal with |- wp _ _ ?w => set (w2 := w) end.
  assert (connection_state_is_online (io_state w2) = true /\ is_switching_controller (io_state w2) = true /\
    io_exit w2 = false /\ timers w2 = S (timers w)) as (Hon & Hsw & Hx2 & Ht2).
  { unfold w2. cbn. rewrite Hs1. split_and!; [exact Honline|done|congruence|exact Ht1]. }
  clearbody w2. apply wp_bind, wp_bind, wp_gets. rewrite Hon, Hmonitor. apply wp_ret.
  unfold on_properties_changed. rewrite Ho, Hentries'. cbn [process_entries cp_key cp_value].
  change (streq "Status" "Status") with true. cbn iota. do 3 apply wp_bind.
  unfold handle_connection_state_changed, parse_status_changed_from_property. rewrite He, Hr, Hl, Hd.
  apply wp_bind, wp_ret. change (0 <? 0) with false. cbn iota.
  apply wp_bind, wp_modify, wp_bind, wp_gets.
  match goal with |- wp _ _ ?w => set (w3 := w) end.
  assert (connection_state_is_online (io_state w3) = false /\ is_switching_controller (io_state w3) = true /\
    io_exit w3 = false /\ timers w3 = S (timers w)) as (Hoff & Hsw3 & Hx3 & Ht3).
  { unfold w3. cbn. rewrite Hsw. split_and!; [|done..]. unfold connection_state_is_online. cbn.
    rewrite Hstatus. apply andb_false_r. }
  clearbody w3. rewrite Hoff, Hsw3. cbn [andb negb]. apply wp_bind, wp_modify. do 4 apply wp_ret.
  split_and!; [exact Hoff|exact Ht3|exact Hx3|]. by apply names_wait.
Qed.

(** ** Concrete runs *)

#[export] Instance sample_is_online_env : IsOnlineEnv := {|
  io_errors := fun _ => "error"%string;
  io_sd_event := fun _ _ => mkAnswer 0 0 1;
  io_result := fun _ => 0;
  name_owner := fun _ => 0;
  status_property := fun _ _ _ => ReadOk (ReadOk (Some "online"%string));
  io_malloc := true;
|}.
Definition sample_io : IoWorld :=
  mkIoWorld (mkConnectionState false false false) (mkEventWorld []) 0 false [].
Definition sample_change (key value : string) : changed_properties :=
  mkChangedProperties 1 [mkChanged (ReadOk (Some key)) (mkStatusValue 1 (ReadOk value) true 1)] 1.
Definition sample_monitoring (timeout : Z) : ParsedParams :=
  mkParsedParams 0 true timeout "org.eclipse.bluechi.Agent".

(** The first loss of the connection after the change of the address is excused. *)
Definition sample_switching : list io_event :=
  [IoNameOwnerChanged (ReadOk ("org.eclipse.bluechi.Agent", "", "")%string); IoTimer;
   IoPropertiesChanged (sample_change "ControllerAddress" "tcp:host=c2");
   IoPropertiesChanged (sample_change "Status" "offline");
   IoPropertiesChanged (sample_change "Status" "online");
   IoPropertiesChanged (sample_change "Status" "offline"); IoTimer].
Lemma online_check_correct_witness :
  exists w', check_online (sample_monitoring 500) "/org/eclipse/bluechi" "org.eclipse.bluechi.Agent"
    sample_switching sample_io = Ret (-1) w'.
Proof.
  exact (online_check_correct (sample_monitoring 500) "/org/eclipse/bluechi" "org.eclipse.bluechi.Agent"
    sample_switching sample_io (fun _ => Z.le_refl 0) (fun _ _ => Z.le_refl 0) eq_refl).
Defined.

Definition sample_online : IoWorld := sample_io <| io_state := mkConnectionState true true false |>.

Lemma late_switch_not_noticed_witness :
  wp (_r ← on_properties_changed (sample_monitoring 500) (sample_change "ControllerAddress" "tcp:host=c2");
      _r ← timer_callback (sample_monitoring 500);
      on_properties_changed (sample_monitoring 500) (sample_change "Status" "offline"))
     (fun _ w' => connection_state_is_online (io_state w') = false /\ timers w' = S (timers sample_online) /\
        io_exit w' = false /\
        event_loop (sample_monitoring 500)
          [IoNameOwnerChanged (ReadOk ("org.eclipse.bluechi.Agent", ":1.4", "")%string)] w' =
          Crash OutOfFuel) sample_online.
Proof.
  apply (late_switch_not_noticed (sample_monitoring 500) (sample_change "ControllerAddress" "tcp:host=c2")
    (sample_change "Status" "offline") "offline"
    [IoNameOwnerChanged (ReadOk ("org.eclipse.bluechi.Agent", ":1.4", "")%string)] sample_online);
    try done.
  - split; [discriminate|by eexists _, _].
  - by repeat constructor.
Defined.

(** [bluechi-is-online node n1 --wait 50]. *)
Definition sample_command_line : getopt_result :=
  mkGetopt [(ARG_WAIT_SHORT, Some "50"%string)] ["node"; "n1"]%string.

Lemma cli_main_correct_witness :
  cli_main option_types (fun _ => true) (methods [] "1.0" (printf "usage")) (printf "usage") (mret 0)
    sample_command_line sample_io =
  (r ← method_is_online_node []
         (mkCommand (Some "node"%string) ["n1"%string] false
            [mkCommandOption ARG_WAIT_SHORT (Some "50"%string) false
               (mkOptionType ARG_WAIT_SHORT (Some "wait"%string) OPT_WAIT)]);
   mret (if r <? 0 then EXIT_FAILURE else EXIT_SUCCESS)) sample_io.
Proof.
  apply (cli_main_correct option_types (methods [] "1.0" (printf "usage")) (printf "usage")
    sample_command_line sample_io).
  - apply Forall_singleton. right. right. by eexists.
  - done.
Defined.
