(* ===== verification/ProxyMain.v ===== *)
(** proxy/main.c: bluechi-proxy, which the units bluechi-proxy@<node>_<unit> run to ask
    the local agent for a proxy of the unit on the node. The bus and getopt_long are
    parameters. *)
From S2P Require Import Prelude CString StringUtil ParseUtil Protocol World Command.
Local Open Scope list_scope.

(** A call to the agent: the method and its three arguments. *)
Record agent_call := mkAgentCall {
  ac_method : string; ac_service : string; ac_node : string; ac_unit : string;
}.
Record PmWorld := mkPmWorld { pm_calls : list agent_call; pm_output : list printed }.
#[export] Instance eta_PmWorld : EtaRecord PmWorld := fun w => mkPmWorld (pm_calls w) (pm_output w).
#[export] Instance pm_console : Console PmWorld := fun p w => w <| pm_output ::= fun l => l ++ [p] |>.
Abbreviation PM := (M PmWorld).

(** Whether memory is available, the event loop and the bus can be opened, and the answer
    to the call: its result, and the name and the message of an error. *)
Class ProxyMainEnv := {
  pm_errors :: Errors;
  pm_malloc : bool;
  pm_event : Z;
  pm_bus : bool -> bool;                      (* the bus of the user, of the system *)
  pm_answer : agent_call -> Z * string * string;
  always_user_api_bus : bool;                 (* a build option *)
}.

Definition OPT_OPERATION_CREATE : string := "create".
Definition OPT_OPERATION_REMOVE : string := "remove".

Section proxy_main.
Context {E : ProxyMainEnv} (usage : PM void) (version : string).

(** The return value and [*ret_node_name], [*ret_unit_name]. *)
Definition parse_node_unit_opt (opt_node_unit : option string) : PM (Z * option string * option string) :=
  match opt_node_unit with
  | None => mret (- EINVAL, None, None)
  | Some opt =>
      match strchr opt "_" with
      | None => eprintf ("No underscore in unit name '" ++ opt ++ "'" ++ nl) ;; mret (- EINVAL, None, None)
      | Some split =>
          if (strlen split =? strlen opt)%nat then
            eprintf ("No underscore in unit name '" ++ opt ++ "'" ++ nl) ;; mret (- EINVAL, None, None)
          else if streq (str_drop 1 split) "" then
            eprintf ("No service specified in unit name '" ++ opt ++ "'" ++ nl) ;; mret (- EINVAL, None, None)
          else if pm_malloc then
            mret (0, Some (str_take (strlen opt - strlen split) opt), Some (str_drop 1 split))
          else eprintf ("Out of memory" ++ nl) ;; mret (- ENOMEM, None, None)
      end
  end.

(** The options until the first one that ends the loop: the result, and --user. *)
Fixpoint get_options (opts : list (Z * option string)) (opt_user : bool) : PM (Z * bool) :=
  match opts with
  | [] => mret (0, opt_user)
  | (opt, _) :: opts =>
      if opt =? ARG_HELP_SHORT then usage ;; mret (1, opt_user)
      else if opt =? ARG_VERSION_SHORT then
        printf ("bluechi-proxy version " ++ version ++ nl) ;; mret (1, opt_user)
      else if opt =? ARG_USER_SHORT then get_options opts true
      else
        eprintf ("Unsupported option " ++ String (ascii_of_nat (Z.to_nat opt)) nl) ;;
        usage ;; mret (- EINVAL, opt_user)
  end.

(** [argv[optind + k]]: a null pointer ends the arguments, and nothing follows it. *)
Definition argv_at (rest : list string) (k : nat) : PM (option string) :=
  match rest !! k with
  | Some arg => mret (Some arg)
  | None => if (k =? Datatypes.length rest)%nat then mret None else crash_with InvalidPointer
  end.
Definition streqi_ptr (a : option string) (b : string) : PM bool :=
  match a with
  | Some a => mret (streqi a b)
  | None => crash_with InvalidPointer
  end.

(** The result, --user, the operation and the node and unit. *)
Definition get_opts (argc : Z) (args : getopt_result) : PM (Z * bool * option string * option string) :=
  x ← get_options (go_options args) false;
  let '(r, opt_user) := x in
  if negb (r =? 0) then mret (r, opt_user, None, None) else
  if argc <? 3 then
    eprintf ("Not enough arguments specified" ++ nl) ;; mret (- EINVAL, opt_user, None, None)
  else
    opt_operation ← argv_at (go_rest args) 0;
    opt_node_unit ← argv_at (go_rest args) 1;
    create ← streqi_ptr opt_operation OPT_OPERATION_CREATE;
    ok ← (if (create : bool) then mret true else streqi_ptr opt_operation OPT_OPERATION_REMOVE);
    if negb ok then
      eprintf ("Unsupported command " ++ default "" opt_operation ++ nl)%string ;;
      mret (- EINVAL, opt_user, opt_operation, opt_node_unit)
    else mret (0, opt_user, opt_operation, opt_node_unit).

(** A null pointer is sent as the empty string. *)
Definition call_proxy_method (method : string) (service_name node_name unit_name : option string) : PM Z :=
  match service_name with
  | None => crash_with InvalidPointer          (* strlen in strcat_dup *)
  | Some service_name =>
      let proxy_service := strcat_dup pm_malloc "bluechi-proxy@" service_name in
      let call := mkAgentCall method (default ""%string proxy_service) (default ""%string node_name)
                    (default ""%string unit_name) in
      modify (fun w => w <| pm_calls ::= fun l => l ++ [call] |>) ;;
      let '(r, error_name, error_message) := pm_answer call in
      if r <? 0 then
        eprintf (if streq error_name BC_BUS_ERROR_ACTIVATION_FAILED
                 then "Failed to activate " ++ default "(null)" proxy_service ++ " (on " ++
                      default "(null)" node_name ++ "): " ++ error_message ++ nl
                 else "Failed to call " ++ method ++ ": " ++ error_message ++ nl) ;;
        mret r
      else mret 0
  end.

Definition proxy_main (argc : Z) (args : getopt_result) : PM Z :=
  x ← get_opts argc args;
  let '(r, opt_user, opt_operation, opt_node_unit) := x in
  if r <? 0 then mret EXIT_FAILURE else if 0 <? r then mret EXIT_SUCCESS else
  y ← parse_node_unit_opt opt_node_unit;
  let '(_, node_name, unit_name) := y in
  if pm_event <? 0 then
    eprintf ("Failed to create event loop: " ++ strerror (- pm_event)) ;; mret EXIT_FAILURE
  else if negb (pm_bus (opt_user || always_user_api_bus)) then mret EXIT_FAILURE
  else
    create ← streqi_ptr opt_operation OPT_OPERATION_CREATE;
    r ← (if (create : bool) then call_proxy_method "CreateProxy" opt_node_unit node_name unit_name
         else
           remove ← streqi_ptr opt_operation OPT_OPERATION_REMOVE;
           if (remove : bool) then call_proxy_method "RemoveProxy" opt_node_unit node_name unit_name else mret 0);
    mret (if r <? 0 then EXIT_FAILURE else EXIT_SUCCESS).
End proxy_main.

(** ** Correctness *)

Section correct.
Context {E : ProxyMainEnv} (usage : PM void) (version : string).

(** The name of a proxy unit, without its prefix and suffix. *)
Definition proxy_instance (node unit : string) : string := node ++ "_" ++ unit.

Lemma parse_node_unit node unit w :
  pm_malloc = true -> lacks "_" node = true -> node <> ""%string -> unit <> ""%string ->
  parse_node_unit_opt (Some (proxy_instance node unit)) w = Ret (0, Some node, Some unit) w.
Proof.
  intros Hm Hn Hnode Hunit. unfold parse_node_unit_opt, proxy_instance.
  change ("_" ++ unit)%string with (String "_" unit). rewrite (proj1 (strchr_app_lacks _ _ _ Hn)).
  rewrite strlen_app. cbn [strlen String.length].
  destruct node as [|c node]; [done|]. destruct unit as [|c' unit]; [done|].
  rewrite (proj2 (Nat.eqb_neq _ _)) by (unfold strlen; cbn; lia).
  change (str_drop 1 (String "_" (String c' unit))) with (String c' unit).
  rewrite (proj2 (streq_false (String c' unit) ""%string)) by done. rewrite Hm.
  replace (_ + _ - _)%nat with (strlen (String c node)) by (unfold strlen; cbn; lia).
  by rewrite str_take_app_length.
Qed.

Lemma parse_no_underscore s w :
  lacks "_" s = true ->
  exists w', pm_calls w' = pm_calls w /\
    parse_node_unit_opt (Some s) w = Ret (- EINVAL, None, None) w'.
Proof.
  intros Hs. unfold parse_node_unit_opt. destruct (strchr s "_") as [t|] eqn:Ht;
    [|eexists; split; [|reflexivity]; done].
  apply strchr_Some in Ht as (a & b & -> & _). exfalso. clear -Hs.
  induction a as [|c a IH]; cbn in Hs; [done|]. apply andb_true_iff in Hs as [_ Hs]. by apply IH.
Qed.

(** The method for an operation. *)
Definition method_of (create : bool) : string := if create then "CreateProxy" else "RemoveProxy".
Definition operation_of (create : bool) : string :=
  if create then OPT_OPERATION_CREATE else OPT_OPERATION_REMOVE.

Lemma get_opts_operation create unit argc w :
  3 <= argc -> get_opts usage version argc (mkGetopt [] [operation_of create; unit]) w =
    Ret (0, false, Some (operation_of create), Some unit) w.
Proof.
  intros Ha. unfold get_opts, mbind, M_bind. cbn [get_options go_options].
  cbn -[Z.ltb]. rewrite (proj2 (Z.ltb_ge argc 3)) by lia. by destruct create.
Qed.

Lemma call_proxy_spec method unit node_name unit_name w :
  pm_malloc = true ->
  let call := mkAgentCall method ("bluechi-proxy@" ++ unit) (default ""%string node_name)
                (default ""%string unit_name) in
  wp (call_proxy_method method (Some unit) node_name unit_name)
     (fun r w' => pm_calls w' = pm_calls w ++ [call] /\
        (r <? 0) = (fst (fst (pm_answer call)) <? 0)) w.
Proof.
  intros Hm call. unfold call_proxy_method, strcat_dup. rewrite Hm. 
  apply wp_bind, wp_modify. match goal with |- context [pm_answer ?c] => change c with call end. destruct (pm_answer call) as [[r name] message]. cbn [fst].
  destruct (r <? 0) eqn:Hr; [apply wp_bind, wp_modify|]; by apply wp_ret.
Qed.

Lemma proxy_main_runs create unit argc w parsed w1 :
  pm_malloc = true -> 0 <= pm_event -> pm_bus always_user_api_bus = true -> 3 <= argc ->
  parse_node_unit_opt (Some unit) w = Ret parsed w1 ->
  let call := mkAgentCall (method_of create) ("bluechi-proxy@" ++ unit)
                (default ""%string (snd (fst parsed))) (default ""%string (snd parsed)) in
  wp (proxy_main usage version argc (mkGetopt [] [operation_of create; unit]))
     (fun status w' => pm_calls w' = pm_calls w1 ++ [call] /\
        status = if fst (fst (pm_answer call)) <? 0 then EXIT_FAILURE else EXIT_SUCCESS) w.
Proof.
  intros Hm He Hb Ha Hp call. unfold proxy_main. apply wp_bind.
  unfold wp at 1. rewrite get_opts_operation by done. change (0 <? 0) with false. cbn iota.
  apply wp_bind. unfold wp at 1. rewrite Hp. destruct parsed as [[r0 node] un]. cbn [fst snd] in call.
  rewrite (proj2 (Z.ltb_ge pm_event 0)) by lia. cbn [orb]. rewrite Hb. cbn [negb].
  assert (wp (call_proxy_method (method_of create) (Some unit) node un)
    (fun r w' => wp (mret (if r <? 0 then EXIT_FAILURE else EXIT_SUCCESS) : PM Z)
       (fun status w'0 => pm_calls w'0 = pm_calls w1 ++ [call] /\
          status = if fst (fst (pm_answer call)) <? 0 then EXIT_FAILURE else EXIT_SUCCESS) w') w1) as Hcall.
  { eapply wp_mono; [by apply call_proxy_spec|]. cbn beta. intros r w' [H1 H2]. apply wp_ret. by rewrite H2. }
  apply wp_bind. destruct create; apply wp_ret; apply wp_bind; exact Hcall.
Qed.
End correct.

(** C38. A proxy unit asks for what its name says: run for the unit of a node, with create or
    remove, bluechi-proxy calls CreateProxy or RemoveProxy once, with the name of the
    proxy unit, the node and the unit, and its exit status tells whether the call
    succeeded. The node ends at the first underscore, so its name must not have one. *)
Theorem proxy_main_correct {E : ProxyMainEnv} (usage : PM void) (version : string) (create : bool)
  (node unit : string) (argc : Z) (w : PmWorld)
  (Hm : pm_malloc = true) (He : 0 <= pm_event) (Hb : pm_bus always_user_api_bus = true)
  (Ha : 3 <= argc) (Hlacks : lacks "_" node = true) (Hnode : node <> ""%string)
  (Hunit : unit <> ""%string) :
  let instance := proxy_instance node unit in
  let call := mkAgentCall (method_of create) ("bluechi-proxy@" ++ instance) node unit in
  wp (proxy_main usage version argc (mkGetopt [] [operation_of create; instance]))
     (fun status w' => pm_calls w' = pm_calls w ++ [call] /\
        status = if fst (fst (pm_answer call)) <? 0 then EXIT_FAILURE else EXIT_SUCCESS) w.
Proof.
  intros instance call.
  exact (proxy_main_runs usage version create instance argc w _ w Hm He Hb Ha
    (parse_node_unit node unit w Hm Hlacks Hnode Hunit)).
Qed.

(** What a wrong name does: the result of parsing the name is not tested, so that a name
    without an underscore still calls the agent, with an empty node and an empty unit;
    and since options count as arguments, an option in the place of the name lets the
    program read a null pointer. *)
Theorem proxy_main_misused {E : ProxyMainEnv} (usage : PM void) (version : string) (create : bool)
  (name : string) (argc : Z) (w : PmWorld)
  (Hm : pm_malloc = true) (He : 0 <= pm_event) (Hb : pm_bus always_user_api_bus = true)
  (Hb' : pm_bus true = true) (Ha : 3 <= argc) (Hname : lacks "_" name = true) :
  let call := mkAgentCall (method_of create) ("bluechi-proxy@" ++ name) "" "" in
  wp (proxy_main usage version argc (mkGetopt [] [operation_of create; name]))
     (fun status w' => pm_calls w' = pm_calls w ++ [call]) w /\
  proxy_main usage version 3 (mkGetopt [(ARG_USER_SHORT, None)] [operation_of create]) w =
    Crash InvalidPointer.
Proof.
  intros call. split.
  - destruct (parse_no_underscore name w Hname) as (w1 & Hw & Hp). rewrite <- Hw.
    eapply wp_mono; [exact (proxy_main_runs usage version create name argc w _ w1 Hm He Hb Ha Hp)|].
    by intros status w' [H _].
  - assert (get_opts usage version 3 (mkGetopt [(ARG_USER_SHORT, None)] [operation_of create]) w =
      Ret (0, true, Some (operation_of create), None) w) as H by by destruct create.
    unfold proxy_main, mbind, M_bind. rewrite H. cbn -[Z.ltb]. change (0 <? 0) with false.
    cbn -[Z.ltb]. rewrite (proj2 (Z.ltb_ge pm_event 0)) by lia. rewrite Hb'. by destruct create.
Qed.

(** ** A concrete run *)

#[export] Instance sample_proxy_env : ProxyMainEnv := {|
  pm_errors := fun _ => "error"%string;
  pm_malloc := true;
  pm_event := 0;
  pm_bus := fun _ => true;
  pm_answer := fun c => (if streq (ac_node c) "" then -22 else 1, "", "")%string;
  always_user_api_bus := false;
|}.

Lemma proxy_main_correct_witness :
  wp (proxy_main (printf "usage") "1.0" 3 (mkGetopt [] ["create"; "pi_my_app.service"]%string))
     (fun status w' => pm_calls w' =
        [mkAgentCall "CreateProxy" "bluechi-proxy@pi_my_app.service" "pi" "my_app.service"] /\
        status = 0) (mkPmWorld [] []).
Proof.
  exact (proxy_main_correct (printf "usage") "1.0" true "pi" "my_app.service" 3 (mkPmWorld [] [])
    eq_refl (Z.le_refl 0) eq_refl (Z.le_refl 3) eq_refl ltac:(discriminate) ltac:(discriminate)).
Defined.

Lemma proxy_main_misused_witness :
  wp (proxy_main (printf "usage") "1.0" 3 (mkGetopt [] ["remove"; "app.service"]%string))
     (fun status w' => pm_calls w' =
        [mkAgentCall "RemoveProxy" "bluechi-proxy@app.service" "" ""]) (mkPmWorld [] []) /\
  proxy_main (printf "usage") "1.0" 3 (mkGetopt [(ARG_USER_SHORT, None)] ["remove"%string])
    (mkPmWorld [] []) = Crash InvalidPointer.
Proof.
  exact (proxy_main_misused (printf "usage") "1.0" false "app.service" 3 (mkPmWorld [] [])
    eq_refl (Z.le_refl 0) eq_refl eq_refl (Z.le_refl 3) eq_refl).
Defined.
