(* ===== verification/Bus.v ===== *)
(** libbluechi/bus/bus.c: opening and closing the connections to the peers and to the
    buses, and what the functions that open one leave open. sd-bus is a parameter: the
    result of each call; the calls are recorded with their results, and what the process
    owns is read off the record. Log messages are left out. *)
From S2P Require Import Prelude CString StringUtil ParseUtil Protocol Socket World.
Local Open Scope list_scope.

Inductive bus_call :=
| BusNew (bus : ptr)                      (* sd_bus_new, with the bus it makes *)
| BusOpenSystem (bus : ptr)
| BusOpenUser (bus : ptr)
| BusDefaultSystem (bus : ptr)
| BusSetDescription (bus : ptr) (description : string)
| BusSetTrusted (bus : ptr)
| BusSetAddress (bus : ptr) (address : string)
| BusStart (bus : ptr)
| BusAttachEvent (bus : ptr)
| BusDetachEvent (bus : ptr)
| BusSetFd (bus : ptr) (fd : Z)
| BusRandomizeId
| BusSetServer (bus : ptr)
| BusNegotiateCreds (bus : ptr)
| BusSetAnonymous (bus : ptr)
| BusSetSender (bus : ptr) (sender : string)
| BusAddVtable (bus : ptr) (path interface : string)
| BusGetFd (bus : ptr)
| BusReturn (member_path result : string)
| BusUnref (bus : ptr)
| BusCloseUnref (bus : ptr)
| BusCloseFd (fd : Z).

Record BusWorld := mkBusWorld {
  bw_calls : list (bus_call * Z);        (* with their results *)
  bw_next : ptr;                         (* the next bus *)
  bw_sys : syscalls;
}.
#[export] Instance eta_BusWorld : EtaRecord BusWorld := fun w =>
  mkBusWorld (bw_calls w) (bw_next w) (bw_sys w).
Abbreviation BM := (M BusWorld).

Class SdBus := bus_answer : nat -> bus_call -> Z.

(** The address of the peer of a socket: an errno, or its family, address and port. *)
Inductive peer_name :=
| PeerInet (addr port : Z)
| PeerInet6 (addr port : Z)
| PeerOther.
Class PeerNames := { getpeername : Z -> Z + peer_name }.

Section bus.
Context {B : SdBus} {K : Kernel}.

Definition bus_do (c : bus_call) : BM Z := fun w =>
  let r := bus_answer (Datatypes.length (bw_calls w)) c in
  Ret r (w <| bw_calls ::= fun l => l ++ [(c, r)] |>).
(** A call that makes a bus: its result, and the bus. *)
Definition bus_make (c : ptr -> bus_call) : BM (Z * ptr) :=
  bus ← gets bw_next;
  modify (fun w => w <| bw_next := Pos.succ bus |>) ;;
  r ← bus_do (c bus);
  mret (r, bus).
Definition system_call {A} (m : M syscalls A) : BM A := fun w =>
  match m (bw_sys w) with
  | Ret a t => Ret a (w <| bw_sys := t |>)
  | Crash c => Crash c
  end.

(** [_cleanup_sd_bus_]: leaving with a result that is not the bus releases it. *)
Definition fail_unref {A} (bus : ptr) (a : A) : BM A := _r ← bus_do (BusUnref bus); mret a.

(** Calls on a bus that give up, releasing it, at the first that fails. *)
Fixpoint bus_steps {A} (bus : ptr) (steps : list bus_call) (fail : Z -> A) (k : BM A) : BM A :=
  match steps with
  | [] => k
  | c :: steps =>
      r ← bus_do c;
      if r <? 0 then fail_unref bus (fail r) else bus_steps bus steps fail k
  end.
Definition no_bus (_ : Z) : option ptr := None.

(** *** Peers *)

Definition peer_bus_new (event : bool) (dbus_description : string) : BM (option ptr) :=
  if negb event then mret None else
  x ← bus_make BusNew;
  let '(r, dbus) := x in
  if r <? 0 then mret None else
  _r ← bus_do (BusSetDescription dbus dbus_description);
  bus_steps dbus [BusSetTrusted dbus] no_bus (mret (Some dbus)).

Definition peer_bus_open (event : bool) (dbus_description : string) (dbus_server_addr : option string) :
    BM (option ptr) :=
  match dbus_server_addr with
  | None => mret None
  | Some addr =>
      dbus ← peer_bus_new event dbus_description;
      match dbus with
      | None => mret None
      | Some dbus =>
          bus_steps dbus [BusSetAddress dbus addr; BusStart dbus; BusAttachEvent dbus] no_bus
            (mret (Some dbus))
      end
  end.

Definition peer_bus_close (peer_dbus : option ptr) : BM Z :=
  match peer_dbus with
  | None => mret 0
  | Some bus =>
      r ← bus_do (BusDetachEvent bus);
      if r <? 0 then mret r else
      _r ← bus_do (BusCloseUnref bus);
      mret 0
  end.

Definition method_peer_hello : BM Z := bus_do (BusReturn "s" ":1.0").

(** The identifier of the server is used even when it could not be made. *)
Definition peer_bus_open_server (event : bool) (dbus_description sender : string) (fd : Z) :
    BM (option ptr) :=
  dbus ← peer_bus_new event dbus_description;
  match dbus with
  | None => _r ← bus_do (BusCloseFd fd); mret None
  | Some dbus =>
      bus_steps dbus [BusSetFd dbus fd] no_bus (
        _r ← bus_do BusRandomizeId;
        bus_steps dbus
          [BusSetServer dbus; BusNegotiateCreds dbus; BusSetAnonymous dbus; BusSetSender dbus sender;
           BusStart dbus; BusAddVtable dbus "/org/freedesktop/DBus" "org.freedesktop.DBus";
           BusAttachEvent dbus] no_bus
          (mret (Some dbus)))
  end.

(** *** Buses *)

(** [system_bus_open], [user_bus_open]. *)
Definition api_bus_open (open : ptr -> bus_call) (description : string) : BM (option ptr) :=
  x ← bus_make open;
  let '(r, bus) := x in
  if r <? 0 then mret None else
  bus_steps bus [BusAttachEvent bus] no_bus
    (_r ← bus_do (BusSetDescription bus description); mret (Some bus)).
Definition system_bus_open : BM (option ptr) := api_bus_open BusOpenSystem "system-bus".
Definition user_bus_open : BM (option ptr) := api_bus_open BusOpenUser "user-bus".

(** The result, and [*ret] when it was set. *)
Definition systemd_bus_new : BM (Z * option ptr) :=
  let failed r := (r, None) in
  if negb (geteuid =? 0) then
    x ← bus_make BusDefaultSystem;
    let '(r, bus) := x in
    mret (if r <? 0 then failed r else (1, Some bus))
  else
    x ← bus_make BusNew;
    let '(r, bus) := x in
    if r <? 0 then mret (failed r) else
    bus_steps bus [BusSetAddress bus "unix:path=/run/systemd/private"; BusStart bus] failed (
      fd ← bus_do (BusGetFd bus);
      if fd <? 0 then fail_unref bus (failed fd) else
      r ← system_call (fd_check_peercred fd);
      if r <? 0 then fail_unref bus (failed r) else mret (1, Some bus)).

Definition systemd_bus_open : BM (option ptr) :=
  x ← systemd_bus_new;
  match x with
  | (r, Some bus) =>
      if r <? 0 then mret None else
      bus_steps bus [BusAttachEvent bus] no_bus
        (_r ← bus_do (BusSetDescription bus "systemd-bus"); mret (Some bus))
  | (_, None) => mret None
  end.

(** The result, and what [*ret_address] and [*ret_port] are set to. *)
Definition get_peer_ip_address {N : Network} {P : PeerNames} (malloc_ok : bool) (bus : ptr) :
    BM (Z * option (option string * Z)) :=
  fd ← bus_do (BusGetFd bus);
  if fd <? 0 then mret (fd, None) else
  tcp ← system_call (fd_is_socket_tcp fd);
  if negb tcp then mret (- EINVAL, None) else
  match getpeername fd with
  | inl errno => mret (- errno, None)
  | inr (PeerInet addr port) => mret (0, Some (typesafe_inet_ntop4 malloc_ok addr, port))
  | inr (PeerInet6 addr port) => mret (0, Some (typesafe_inet_ntop6 malloc_ok addr, port))
  | inr PeerOther => mret (- EINVAL, None)
  end.
End bus.

(** ** Ownership *)

(** The buses of the process, with the descriptors they own, and whether they are
    attached to the event loop; and the descriptors that were closed. *)
Record holdings := mkHoldings {
  h_buses : gmap ptr (list Z * bool);
  h_closed : list Z;
}.
#[export] Instance eta_holdings : EtaRecord holdings := fun h => mkHoldings (h_buses h) (h_closed h).

(** sd-bus: a bus owns the descriptor it was given, and closes it with its last
    reference; a call that fails changes nothing. *)
Definition account (h : holdings) (x : bus_call * Z) : holdings :=
  let '(c, r) := x in
  let release bus :=
    h <| h_buses ::= delete bus |>
      <| h_closed ::= fun l => l ++ match h_buses h !! bus with Some (fds, _) => fds | None => [] end |> in
  match c with
  | BusUnref bus | BusCloseUnref bus => release bus
  | BusCloseFd fd => h <| h_closed ::= fun l => l ++ [fd] |>
  | _ =>
      if r <? 0 then h else
      match c with
      | BusNew bus | BusOpenSystem bus | BusOpenUser bus | BusDefaultSystem bus =>
          h <| h_buses ::= insert bus ([], false) |>
      | BusSetFd bus fd => h <| h_buses ::= alter (fun b => (fst b ++ [fd], snd b)) bus |>
      | BusAttachEvent bus => h <| h_buses ::= alter (fun b => (fst b, true)) bus |>
      | BusDetachEvent bus => h <| h_buses ::= alter (fun b => (fst b, false)) bus |>
      | _ => h
      end
  end.
Definition holds (calls : list (bus_call * Z)) : holdings := fold_left account calls (mkHoldings ∅ []).

Lemma holds_snoc calls x : holds (calls ++ [x]) = account (holds calls) x.
Proof. apply fold_left_app. Qed.

Definition owned (w : BusWorld) : holdings := holds (bw_calls w).
(** The next bus is a new one. *)
Definition next_new (w : BusWorld) : Prop := h_buses (owned w) !! bw_next w = None.
Definition inert (c : bus_call) : Prop := forall h r, account h (c, r) = h.

(** What opening a connection leaves: the one bus it returns, with its descriptors and
    attached to the event loop, or nothing; [closed] are the descriptors it closed. *)
Definition opened (w : BusWorld) (fds : list Z) (closed : list Z -> list Z -> Prop)
    (res : option ptr) (w' : BusWorld) : Prop :=
  match res with
  | Some bus =>
      h_buses (owned w') = <[bus := (fds, true)]> (h_buses (owned w)) /\
      h_buses (owned w) !! bus = None /\ h_closed (owned w') = h_closed (owned w)
  | None => h_buses (owned w') = h_buses (owned w) /\ closed (h_closed (owned w)) (h_closed (owned w'))
  end.

Section bus.
Context {B : SdBus} {K : Kernel}.

Lemma wp_bus_do c Q w :
  (forall w', owned w' = account (owned w) (c, bus_answer (Datatypes.length (bw_calls w)) c) ->
     bw_next w' = bw_next w ->
     bw_calls w' = bw_calls w ++ [(c, bus_answer (Datatypes.length (bw_calls w)) c)] ->
     Q (bus_answer (Datatypes.length (bw_calls w)) c) w') ->
  wp (bus_do c) Q w.
Proof. intros H. apply H; [|done..]. apply holds_snoc. Qed.

Lemma wp_bus_make c Q w :
  (forall r w', owned w' = account (owned w) (c (bw_next w), r) -> Q (r, bw_next w) w') ->
  wp (bus_make c) Q w.
Proof.
  intros H. unfold bus_make. apply wp_bind, wp_gets, wp_bind, wp_modify, wp_bind, wp_bus_do.
  intros w' Hw _ _. by apply wp_ret, H.
Qed.

Lemma wp_system_call {A} (m : M syscalls A) Q w :
  (forall t, wp m (fun _ _ => True) t) -> (forall a w', owned w' = owned w -> Q a w') ->
  wp (system_call m) Q w.
Proof.
  intros Hm HQ. specialize (Hm (bw_sys w)). unfold wp, system_call in *.
  destruct (m (bw_sys w)); [by apply HQ|done].
Qed.

Lemma wp_inert c Q w : inert c -> (forall r w', owned w' = owned w -> Q r w') -> wp (bus_do c) Q w.
Proof. intros Hc HQ. apply wp_bus_do. intros w' Hw _ _. apply HQ. by rewrite Hw. Qed.

Definition released (bus : ptr) (h : holdings) : holdings := account h (BusUnref bus, 0).

Lemma wp_fail_unref {A} bus (a : A) Q w :
  (forall w', owned w' = released bus (owned w) -> Q a w') -> wp (fail_unref bus a) Q w.
Proof. intros HQ. apply wp_bind, wp_bus_do. intros w' Hw _ _. by apply wp_ret, HQ. Qed.

(** Calls that change nothing of what is owned, given up at the first that fails. *)
Lemma wp_bus_steps {A} bus steps (fail : Z -> A) k Q w h :
  owned w = h -> Forall inert steps ->
  (forall r w', r < 0 -> owned w' = released bus h -> Q (fail r) w') ->
  (forall w', owned w' = h -> wp k Q w') ->
  wp (bus_steps bus steps fail k) Q w.
Proof.
  intros Hw Hs Hfail Hk. revert w Hw. induction Hs as [|c steps Hc _ IH]; intros w Hw; cbn [bus_steps].
  - by apply Hk.
  - apply wp_bind, wp_inert; [done|]. intros r w' Hw'. destruct (Z.ltb_spec r 0).
    + apply wp_fail_unref. intros w1 H1. apply Hfail; [done|]. by rewrite H1, Hw', Hw.
    + apply IH. by rewrite Hw'.
Qed.

Lemma bus_steps_app {A} bus s1 s2 (fail : Z -> A) k :
  bus_steps bus (s1 ++ s2) fail k = bus_steps bus s1 fail (bus_steps bus s2 fail k).
Proof. induction s1 as [|c s1 IH]; cbn; [done|]. by rewrite IH. Qed.

(** The last call attaches the bus to the event loop. *)
Lemma wp_attach {A} bus (fail : Z -> A) k Q w :
  (forall r w', r < 0 -> owned w' = released bus (owned w) -> Q (fail r) w') ->
  (forall w', owned w' = account (owned w) (BusAttachEvent bus, 0) -> wp k Q w') ->
  wp (bus_steps bus [BusAttachEvent bus] fail k) Q w.
Proof.
  intros Hfail Hk. apply wp_bind, wp_bus_do. intros w' Hw _ _. cbn [account] in Hw.
  destruct (Z.ltb_spec (bus_answer (Datatypes.length (bw_calls w)) (BusAttachEvent bus)) 0).
  - apply wp_fail_unref. intros w1 H1. apply Hfail; [done|]. by rewrite H1, Hw.
  - by apply Hk.
Qed.

(** A bus that was made, and owns [fds]. *)
Definition made (w : BusWorld) (bus : ptr) (fds : list Z) (w' : BusWorld) : Prop :=
  h_buses (owned w) !! bus = None /\
  owned w' = (owned w) <| h_buses ::= insert bus (fds, false) |>.

Lemma made_released w bus fds w1 w' :
  made w bus fds w1 -> owned w' = released bus (owned w1) ->
  h_buses (owned w') = h_buses (owned w) /\ h_closed (owned w') = h_closed (owned w) ++ fds.
Proof.
  intros [Hn Hw1] ->. rewrite Hw1. cbn. rewrite lookup_insert_eq. split; [|done].
  by apply delete_insert_id.
Qed.
Lemma made_attached w bus fds w1 w' closed :
  made w bus fds w1 -> owned w' = account (owned w1) (BusAttachEvent bus, 0) ->
  opened w fds closed (Some bus) w'.
Proof.
  intros [Hn Hw1] Hw'. cbn in Hw'. unfold opened. rewrite Hw', Hw1. cbn. split_and!; [|done..].
  by rewrite alter_insert_eq.
Qed.
Lemma made_owned w bus fds w1 w2 : made w bus fds w1 -> owned w2 = owned w1 -> made w bus fds w2.
Proof. intros [Hn Hw] H. split; [done|]. congruence. Qed.

Lemma wp_make c Q w : next_new w ->
  (forall h bus r, account h (c bus, r) = if r <? 0 then h else h <| h_buses ::= insert bus ([], false) |>) ->
  (forall r w', r < 0 -> owned w' = owned w -> Q (r, bw_next w) w') ->
  (forall r w', 0 <= r -> made w (bw_next w) [] w' -> Q (r, bw_next w) w') ->
  wp (bus_make c) Q w.
Proof.
  intros Hnew Hc Hf Hs. apply wp_bus_make. intros r w' Hw. rewrite Hc in Hw.
  destruct (Z.ltb_spec r 0); [by apply Hf|by apply Hs].
Qed.

(** ** Opening *)

Definition nothing_closed (l l' : list Z) : Prop := l' = l.

Lemma wp_peer_bus_new event description Q w : next_new w ->
  (forall w', owned w' = owned w -> Q None w') ->
  (forall bus w', made w bus [] w' -> Q (Some bus) w') ->
  wp (peer_bus_new event description) Q w.
Proof.
  intros Hnew Hn Hs. unfold peer_bus_new. destruct event; [|by apply wp_ret, Hn]. cbn [negb].
  apply wp_bind, wp_make; [done|done| |].
  - intros r w1 Hr Hw. rewrite (proj2 (Z.ltb_lt _ _)) by done. by apply wp_ret, Hn.
  - intros r w1 Hr Hm. rewrite (proj2 (Z.ltb_ge _ _)) by done.
    apply wp_bind, wp_inert; [by intros ? ?; cbn; destruct (_ <? _)|]. intros _ w2 Hw2.
    eapply wp_bus_steps; [reflexivity|by repeat constructor; intros ? ?; cbn; destruct (_ <? _)| |].
    + intros r' w3 _ H3. apply Hn. destruct (made_released w (bw_next w) [] w2 w3) as [Hb Hc];
        [by eapply made_owned|done|]. rewrite app_nil_r in Hc.
      destruct (owned w3), (owned w). cbn in *. congruence.
    + intros w3 H3. apply wp_ret, Hs. eapply made_owned; [exact Hm|]. by rewrite H3.
Qed.

Lemma inert_other c :
  match c with
  | BusSetDescription _ _ | BusSetTrusted _ | BusSetAddress _ _ | BusStart _ | BusRandomizeId
  | BusSetServer _ | BusNegotiateCreds _ | BusSetAnonymous _ | BusSetSender _ _ | BusAddVtable _ _ _
  | BusGetFd _ | BusReturn _ _ => True
  | _ => False
  end -> inert c.
Proof. intros Hc h r. destruct c; try done; cbn; by destruct (_ <? _). Qed.

Lemma released_none w bus w1 w' :
  made w bus [] w1 -> owned w' = released bus (owned w1) -> opened w [] nothing_closed None w'.
Proof.
  intros Hm Hw. destruct (made_released w bus [] w1 w' Hm Hw) as [Hb Hc].
  rewrite app_nil_r in Hc. by split.
Qed.
Lemma same_none w w' : owned w' = owned w -> opened w [] nothing_closed None w'.
Proof. intros H. unfold opened, nothing_closed. by rewrite H. Qed.

(** A bus that is made, configured, attached to the loop and described. *)
Lemma wp_finish w bus fds w1 (P : option ptr -> BusWorld -> Prop) closed (k : BM (option ptr)) :
  made w bus fds w1 ->
  (forall w', owned w' = released bus (owned w1) -> P None w') ->
  (forall w', opened w fds closed (Some bus) w' -> P (Some bus) w') ->
  (forall w2, opened w fds closed (Some bus) w2 -> wp k (fun res w' => res = Some bus /\ owned w' = owned w2) w2) ->
  wp (bus_steps bus [BusAttachEvent bus] no_bus k) P w1.
Proof.
  intros Hm Hn Hs Hk. apply wp_attach; [intros r w' _ Hw'; by apply Hn|]. intros w2 Hw2.
  eapply made_attached in Hw2; [|exact Hm]. eapply wp_mono; [by apply Hk|]. cbn beta.
  intros res w3 [-> Hw3]. apply Hs. unfold opened. by rewrite Hw3.
Qed.

Lemma wp_described bus description w2 :
  wp (_r ← bus_do (BusSetDescription bus description); mret (Some bus))
     (fun res w' => res = Some bus /\ owned w' = owned w2) w2.
Proof. apply wp_bind, wp_inert; [by apply inert_other|]. intros r w3 H3. by apply wp_ret. Qed.

Lemma wp_api_bus_open c description w : next_new w ->
  (forall h bus r, account h (c bus, r) = if r <? 0 then h else h <| h_buses ::= insert bus ([], false) |>) ->
  wp (api_bus_open c description) (opened w [] nothing_closed) w.
Proof.
  intros Hnew Hc. unfold api_bus_open. apply wp_bind, wp_make; [done|done| |].
  - intros r w1 Hr Hw1. rewrite (proj2 (Z.ltb_lt _ _)) by done. by apply wp_ret, same_none.
  - intros r w1 Hr Hm. rewrite (proj2 (Z.ltb_ge _ _)) by done.
    apply (wp_finish w (bw_next w) [] w1 _ nothing_closed); [done| |done|].
    + intros w'. by apply released_none.
    + intros w2 _. apply wp_described.
Qed.

Lemma wp_peer_bus_open event description addr w : next_new w ->
  wp (peer_bus_open event description addr) (opened w [] nothing_closed) w.
Proof.
  intros Hnew. unfold peer_bus_open. destruct addr as [addr|]; [|by apply wp_ret, same_none].
  apply wp_bind, wp_peer_bus_new; [done|intros w' Hw'; by apply wp_ret, same_none|].
  intros bus w1 Hm.
  change [BusSetAddress bus addr; BusStart bus; BusAttachEvent bus]
    with ([BusSetAddress bus addr; BusStart bus] ++ [BusAttachEvent bus]).
  rewrite bus_steps_app. eapply wp_bus_steps; [reflexivity|by repeat constructor; apply inert_other| |].
  - intros r w2 _ Hw2. by eapply released_none.
  - intros w2 Hw2. apply (made_owned _ _ _ _ w2) in Hm; [|done].
    apply (wp_finish w bus [] w2 _ nothing_closed); [done| |done|].
    + intros w'. by apply released_none.
    + intros w3 _. by apply wp_ret.
Qed.

(** The descriptor of the connection is closed, or the library has refused it. *)
Definition closed_or_refused (fd : Z) (w' : BusWorld) (l l' : list Z) : Prop :=
  l' = l ++ [fd] \/
  l' = l /\ exists calls bus r u, bw_calls w' = calls ++ [(BusSetFd bus fd, r); (BusUnref bus, u)] /\ r < 0.

Lemma wp_peer_bus_open_server event description sender fd w : next_new w ->
  wp (peer_bus_open_server event description sender fd)
     (fun res w' => opened w [fd] (closed_or_refused fd w') res w') w.
Proof.
  intros Hnew. unfold peer_bus_open_server. apply wp_bind, wp_peer_bus_new; [done| |].
  { intros w1 Hw1. apply wp_bind, wp_bus_do. intros w2 Hw2 _ _. apply wp_ret.
    unfold opened, closed_or_refused. rewrite Hw2, Hw1. cbn. auto. }
  intros bus w1 Hm. apply wp_bind, wp_bus_do. intros w2 Hw2 _ Hcalls.
  set (r := bus_answer _ _) in *. destruct (Z.ltb_spec r 0) as [Hr|Hr].
  { cbn [account] in Hw2. rewrite (proj2 (Z.ltb_lt _ _)) in Hw2 by done.
    apply wp_bind, wp_bus_do. intros w3 Hw3 _ Hcalls3. apply wp_ret.
    destruct (made_released w bus [] w1 w3) as [Hb Hc]; [done|by rewrite Hw3, Hw2|].
    rewrite app_nil_r in Hc. split; [done|]. right. split; [done|]. rewrite Hcalls3, Hcalls, <- app_assoc.
    by eexists _, _, _, _. }
  assert (made w bus [fd] w2) as Hm2.
  { destruct Hm as [Hn Hw1]. split; [done|]. rewrite Hw2. cbn [account].
    rewrite (proj2 (Z.ltb_ge _ _)) by done. rewrite Hw1. cbn. by rewrite alter_insert_eq. }
  assert (forall w3 w', made w bus [fd] w3 -> owned w' = released bus (owned w3) ->
    opened w [fd] (closed_or_refused fd w') None w') as Hfail.
  { intros w3 w' Hm3 Hw'. destruct (made_released w bus [fd] w3 w' Hm3 Hw') as [Hb Hc]. split; [done|by left]. }
  apply wp_bind, wp_inert; [by apply inert_other|]. intros _ w3 Hw3.
  apply (made_owned _ _ _ _ w3) in Hm2; [|done].
  cbn beta. match goal with |- wp (bus_steps _ ?l _ _) _ _ => change l with
    ([BusSetServer bus; BusNegotiateCreds bus; BusSetAnonymous bus; BusSetSender bus sender; BusStart bus;
      BusAddVtable bus "/org/freedesktop/DBus" "org.freedesktop.DBus"] ++ [BusAttachEvent bus]) end.
  rewrite bus_steps_app. eapply wp_bus_steps; [reflexivity|by repeat constructor; apply inert_other| |].
  - intros r' w4 _ Hw4. by eapply Hfail.
  - intros w4 Hw4. apply (made_owned _ _ _ _ w4) in Hm2; [|done].
    apply (wp_finish w bus [fd] w4 _ nothing_closed); [done| |done|].
    + intros w'. by apply Hfail.
    + intros w5 _. by apply wp_ret.
Qed.

Lemma wp_fd_check_peercred fd t : wp (fd_check_peercred fd) (fun _ _ => True) t.
Proof.
  unfold fd_check_peercred. apply wp_bind. unfold wp at 1, sys. destruct (sys_answer _ _); [by apply wp_ret|].
  repeat (case_match; try by apply wp_ret).
Qed.

Lemma wp_systemd_bus_new w : next_new w ->
  wp systemd_bus_new
    (fun x w' => match snd x with
                 | Some bus => fst x = 1 /\ made w bus [] w'
                 | None => opened w [] nothing_closed None w'
                 end) w.
Proof.
  intros Hnew. unfold systemd_bus_new. destruct (geteuid =? 0); cbn [negb].
  2: { apply wp_bind, wp_make; [done|done| |]; intros r w1 Hr Hw1; apply wp_ret.
    - rewrite (proj2 (Z.ltb_lt _ _)) by done. by apply same_none.
    - by rewrite (proj2 (Z.ltb_ge _ _)) by done. }
  apply wp_bind, wp_make; [done|done| |].
  { intros r w1 Hr Hw1. rewrite (proj2 (Z.ltb_lt _ _)) by done. by apply wp_ret, same_none. }
  intros r w1 Hr Hm. rewrite (proj2 (Z.ltb_ge _ _)) by done.
  eapply wp_bus_steps; [reflexivity|by repeat constructor; apply inert_other| |].
  { intros r2 w2 _ Hw2. by eapply released_none. }
  intros w2 Hw2. apply wp_bind, wp_inert; [by apply inert_other|]. intros fd w3 Hw3. rewrite Hw2 in Hw3.
  destruct (fd <? 0).
  { apply wp_fail_unref. intros w4 Hw4. eapply released_none; [exact Hm|]. by rewrite Hw4, Hw3. }
  apply wp_bind, wp_system_call; [apply wp_fd_check_peercred|]. intros r4 w4 Hw4. rewrite Hw3 in Hw4.
  destruct (r4 <? 0).
  { apply wp_fail_unref. intros w5 Hw5. eapply released_none; [exact Hm|]. by rewrite Hw5, Hw4. }
  apply wp_ret. split; [done|]. by eapply made_owned.
Qed.

Lemma wp_systemd_bus_open w : next_new w -> wp systemd_bus_open (opened w [] nothing_closed) w.
Proof.
  intros Hnew. unfold systemd_bus_open. apply wp_bind. eapply wp_mono; [by apply wp_systemd_bus_new|].
  cbn beta. intros [r [bus|]] w1 Hw1; cbn [fst snd] in Hw1; [|by apply wp_ret].
  destruct Hw1 as [-> Hm]. change (1 <? 0) with false. cbn iota.
  apply (wp_finish w bus [] w1 _ nothing_closed); [done| |done|].
  + intros w'. by apply released_none.
  + intros w2 _. apply wp_described.
Qed.
End bus.

(** C37. Whatever call fails, a function that opens a connection returns the one new bus it
    leaves, attached to the event loop, or leaves none; closing a connection releases it
    unless it cannot be detached. The socket of an accepted connection belongs to the bus
    that is returned or is closed, except when sd-bus refuses it: then nobody closes it. *)
Theorem connections_do_not_leak {B : SdBus} {K : Kernel} (event : bool) (description sender : string)
  (addr : option string) (fd : Z) (w : BusWorld) (Hnew : next_new w) :
  wp (peer_bus_open event description addr) (opened w [] nothing_closed) w /\
  wp system_bus_open (opened w [] nothing_closed) w /\
  wp user_bus_open (opened w [] nothing_closed) w /\
  wp systemd_bus_open (opened w [] nothing_closed) w /\
  wp (peer_bus_open_server event description sender fd)
     (fun res w' => opened w [fd] (closed_or_refused fd w') res w') w /\
  (forall bus, wp (peer_bus_close (Some bus))
     (fun r w' => if 0 <=? r then h_buses (owned w') = delete bus (h_buses (owned w))
                  else owned w' = owned w) w).
Proof.
  split_and!; [by apply wp_peer_bus_open|by apply wp_api_bus_open|by apply wp_api_bus_open
    |by apply wp_systemd_bus_open|by apply wp_peer_bus_open_server|].
  intros bus. unfold peer_bus_close. apply wp_bind, wp_bus_do. intros w1 Hw1 _ _. cbn [account] in Hw1.
  set (r := bus_answer _ _) in *. destruct (Z.ltb_spec r 0).
  - apply wp_ret. by rewrite (proj2 (Z.leb_gt _ _)) by done.
  - apply wp_bind, wp_bus_do. intros w2 Hw2 _ _. apply wp_ret. change (0 <=? 0) with true. cbn iota.
    rewrite Hw2, Hw1. cbn. by rewrite delete_alter_eq.
Qed.

(** ** A concrete run: the library refuses the descriptor. *)

#[export] Instance sample_sd_bus : SdBus := fun _ c => match c with BusSetFd _ _ => -9 | _ => 0 end.
#[export] Instance sample_bus_kernel : Kernel := {|
  sys_answer := fun _ _ => inr 5;
  socket_domain := fun _ => Some AF_INET;
  peer_ucred := fun _ => mkUcred 1 0 true;
  geteuid := 0;
|}.
Lemma connections_do_not_leak_witness :
  wp (peer_bus_open_server true "peer" "org.eclipse.bluechi" 7)
     (fun res w' => opened (mkBusWorld [] 1 []) [7] (closed_or_refused 7 w') res w') (mkBusWorld [] 1 []).
Proof.
  apply (connections_do_not_leak true "peer" "org.eclipse.bluechi" None 7 (mkBusWorld [] 1 [])).
  reflexivity.
Defined.
