(* ===== verification/Client.v ===== *)
(** client/client.c and the methods of bluechictl that make one call and print the
    result: starting, stopping, freezing, killing, enabling and so on, and the tables of
    units and of unit files with the readers of bus/utils.c. sd-bus is a parameter: the
    result of every call and what reading its reply gives, by the number of the call. *)
From S2P Require Import Prelude CString StringUtil ParseUtil TimeUtil Protocol BusUtils Socket.
From S2P Require Import Log World Command.
Local Open Scope list_scope.

(** ** The bus *)

Inductive arg := ArgString (s : string) | ArgInt (n : Z) | ArgBool (b : bool) | ArgStrings (l : list string).
(** A method call to the controller; a property is read with a call as well. *)
Record client_call := mkClientCall {
  cc_path : string; cc_interface : string; cc_member : string; cc_args : list arg;
}.
(** Reading an array: entering it, the items that can be read, what reading after the
    last of them gives, and leaving it. *)
Record items (A : Type) := mkItems { it_enter : Z; it_list : list A; it_end : Z; it_leave : Z }.
Arguments mkItems {A} _ _ _ _.
Arguments it_enter {A} _.
Arguments it_list {A} _.
Arguments it_end {A} _.
Arguments it_leave {A} _.

(** JobRemoved: identifier, path, node, unit and result. *)
Definition job_removed : Type := read (Z * string * string * string * string).

(** What bluechictl status knows of a node. *)
Record NodeConnection := mkNodeConnection {
  con_name : string; con_node_path : string; con_state : string; con_ip : string; con_last_seen : Z;
}.
#[export] Instance eta_NodeConnection : EtaRecord NodeConnection := fun c =>
  mkNodeConnection (con_name c) (con_node_path c) (con_state c) (con_ip c) (con_last_seen c).

Record ClWorld := mkClWorld {
  cl_calls : list client_call;
  cl_matches : list (string * string);             (* paths and signals listened to *)
  cl_object_path : option string;
  cl_pending_job_name : option string;
  cl_pending_job_result : option job_removed;
  cl_nodes : list NodeConnection;
  cl_output : list printed;
}.
#[export] Instance eta_ClWorld : EtaRecord ClWorld := fun w =>
  mkClWorld (cl_calls w) (cl_matches w) (cl_object_path w) (cl_pending_job_name w)
    (cl_pending_job_result w) (cl_nodes w) (cl_output w).
#[export] Instance cl_console : Console ClWorld := fun p w => w <| cl_output ::= fun l => l ++ [p] |>.
Abbreviation CL := (M ClWorld).

Class ClientEnv := {
  cl_errors :: Errors;
  cl_memory : bool;
  cl_open : Z;                                     (* sd_bus_open_system *)
  cl_result : nat -> client_call -> Z * string;    (* of the k-th call, with error.message *)
  cl_build : nat -> nat -> Z;                      (* the message of the k-th call: of the i-th step of building it *)
  cl_match_result : nat -> Z;                      (* of the k-th match *)
  cl_loop_setup : nat -> Z;                        (* creating and attaching the event loop *)
  reply_string : nat -> read string;
  reply_number : nat -> read Z;
  reply_flag : nat -> read bool;
  reply_triples : nat -> items (string * string * string);
  reply_nodes : nat -> items (string * string * string * string);   (* name, path, state, address *)
}.

(** What [sd_bus_process] does: the signal it delivers, its result, and the result of
    waiting for more. *)
Record process_step := mkProcessStep {
  ps_signal : option job_removed; ps_result : Z; ps_wait : Z;
}.

Definition BC_INTERFACE_BASE_NAME : string := "org.eclipse.bluechi".
Definition quote : string := String (ascii_of_nat 34) "".

Section client.
Context {E : ClientEnv}.

(** A call: its number, its result and the message of its error. *)
Definition call_method (path interface member : string) (args : list arg) : CL (nat * Z * string) :=
  w ← Prelude.get;
  let c := mkClientCall path interface member args in
  let k := Datatypes.length (cl_calls w) in
  modify (fun w => w <| cl_calls ::= fun l => l ++ [c] |>) ;;
  let '(r, message) := cl_result k c in
  mret (k, r, message).
(** A step of building the message of the next call, the first is its creation; a
    message of which a step failed cannot be sent. *)
Definition build_message (step : nat) : CL Z :=
  w ← Prelude.get; mret (cl_build (Datatypes.length (cl_calls w)) step).
Definition match_signal (path member : string) : CL Z :=
  w ← Prelude.get;
  let k := Datatypes.length (cl_matches w) in
  modify (fun w => w <| cl_matches ::= fun l => l ++ [(path, member)] |>) ;;
  mret (cl_match_result k).

(** ** client.c *)

Definition client_open_sd_bus : CL Z :=
  if cl_open <? 0 then
    eprintf ("Failed to connect to api bus: " ++ strerror (- cl_open) ++ nl) ;; mret cl_open
  else mret 0.

Definition match_job_removed_signal (m : job_removed) : CL Z :=
  w ← Prelude.get;
  match cl_pending_job_name w with
  | None => mret 0
  | Some pending =>
      match m with
      | ReadErr _ => eprintf ("Can't parse job result" ++ nl) ;; mret 0
      | ReadOk (_, job_path, _, _, _) =>
          if streq pending job_path then
            modify (fun w => w <| cl_pending_job_result := Some m |>) ;; mret 1
          else mret 0
      end
  end.

Fixpoint wait_for_job (steps : list process_step) : CL (option job_removed) :=
  match steps with
  | [] => crash_with OutOfFuel
  | s :: steps =>
      (match ps_signal s with
       | Some m => _r ← match_job_removed_signal m; mret tt
       | None => mret tt
       end) ;;
      if ps_result s <? 0 then
        eprintf ("Failed to process bus: " ++ strerror (- ps_result s) ++ nl) ;; mret None
      else
        w ← Prelude.get;
        match cl_pending_job_result w with
        | Some m => modify (fun w => w <| cl_pending_job_result := None |>) ;; mret (Some m)
        | None =>
            if 0 <? ps_result s then wait_for_job steps
            else if ps_wait s <? 0 then
              eprintf ("Failed to wait on bus: " ++ strerror (- ps_wait s) ++ nl) ;; mret None
            else wait_for_job steps
        end
  end.
Definition client_wait_for_job (object_path : string) (steps : list process_step) : CL (option job_removed) :=
  w ← Prelude.get;
  c_assert (bool_decide (cl_pending_job_name w = None)) ;;
  modify (fun w => w <| cl_pending_job_name := Some object_path |>) ;;
  wait_for_job steps.

(** The path of a node, kept in the client: an error, or the path. *)
Definition node_object_path (node_name : string) : CL (Z + string) :=
  let '(r, path) := assemble_object_path_string cl_memory cl_memory NODE_OBJECT_PATH_PREFIX node_name in
  match path with
  | Some p => modify (fun w => w <| cl_object_path := Some p |>) ;; mret (if r <? 0 then inl r else inr p)
  | None => mret (inl r)
  end.
(** The call is made later: the path, or an error. *)
Definition client_create_message_new_method_call (node_name : string) : CL (Z + string) :=
  modify (fun w => w <| cl_object_path := None |>) ;;
  path ← node_object_path node_name;
  match path with
  | inl r => mret (inl r)
  | inr path =>
      r ← build_message 0;
      if r <? 0 then
        eprintf ("Failed to create a new method call: " ++ strerror (- r) ++ nl) ;; mret (inl r)
      else mret (inr path)
  end.

(** [sd_event_loop]: the callback of each signal that arrives, until the loop ends with a
    result, 0 when a signal of the system ends it. *)
Fixpoint client_event_loop (signals : list (Z + CL Z)) : CL Z :=
  match signals with
  | [] => crash_with OutOfFuel
  | inr callback :: signals => _r ← callback; client_event_loop signals
  | inl r :: _ => mret r
  end.
Fixpoint loop_setup (k : nat) (texts : list string) : CL Z :=
  match texts with
  | [] => mret 0
  | text :: texts =>
      if cl_loop_setup k <? 0 then
        eprintf (text ++ strerror (- cl_loop_setup k)) ;; mret (cl_loop_setup k)
      else loop_setup (S k) texts
  end.
Definition client_start_event_loop (signals : list (Z + CL Z)) : CL Z :=
  r ← loop_setup 0 ["Failed to create event loop: "; "Failed to attach api bus to event: ";
                    "Failed to add signals to agent event loop: "]%string;
  if r <? 0 then mret r else
  r ← client_event_loop signals;
  if r <? 0 then eprintf ("Failed to start event loop: " ++ strerror (- r)) ;; mret r else mret 0.

(** ** Calling a node *)

(** What most methods do: find the path, make the call; [k] gets its number. *)
Definition call_node (node_name member : string) (args : list arg) (failed : string) (k : nat -> CL Z) : CL Z :=
  path ← node_object_path node_name;
  match path with
  | inl r => mret r
  | inr path =>
      x ← call_method path NODE_INTERFACE member args;
      let '(n, r, message) := x in
      if r <? 0 then eprintf (failed ++ message ++ nl) ;; mret r else k n
  end.
Definition call_controller (member : string) (args : list arg) (failed : string) (k : nat -> CL Z) : CL Z :=
  x ← call_method BC_OBJECT_PATH CONTROLLER_INTERFACE member args;
  let '(n, r, message) := x in
  if r <? 0 then eprintf (failed ++ message ++ nl) ;; mret r else k n.
Definition issue_failed : string := "Failed to issue method call: ".

(** ** method-unit-lifecycle.c *)

Definition method_lifecycle_action_on (steps : list process_step) (node_name unit method : string) : CL Z :=
  path ← node_object_path node_name;
  match path with
  | inl r => mret r
  | inr path =>
      r ← match_signal BC_CONTROLLER_OBJECT_PATH "JobRemoved";
      if r <? 0 then eprintf ("Failed to match signal" ++ nl) ;; mret r else
      x ← call_method path NODE_INTERFACE method [ArgString unit; ArgString "replace"];
      let '(n, r, message) := x in
      if r <? 0 then eprintf (issue_failed ++ message ++ nl) ;; mret r else
      match reply_string n with
      | ReadErr r => eprintf ("Failed to parse response message: " ++ strerror (- r) ++ nl) ;; mret r
      | ReadOk job_path =>
          job_result ← client_wait_for_job job_path steps;
          match job_result with
          | None => mret (- EIO)
          | Some (ReadErr r) => eprintf ("Can't parse job result" ++ nl) ;; mret r
          | Some (ReadOk (_, _, _, unit, result)) =>
              printf ("Unit " ++ unit ++ " " ++ method ++ " operation result: " ++ result ++ nl) ;;
              mret 1                               (* of sd_bus_message_read *)
          end
      end
  end.

(** ** method-freeze-thaw.c, method-daemon-reload.c *)

Definition method_freeze_unit_on (node_name unit : string) : CL Z :=
  call_node node_name "FreezeUnit" [ArgString unit] issue_failed (fun _ =>
    printf ("Unit " ++ unit ++ " freeze operation done" ++ nl) ;; mret 0).
Definition method_thaw_unit_on (node_name unit : string) : CL Z :=
  call_node node_name "ThawUnit" [ArgString unit] issue_failed (fun _ =>
    printf ("Unit " ++ unit ++ " thaw operation done" ++ nl) ;; mret 0).
Definition method_daemon_reload_on (node_name : string) : CL Z :=
  call_node node_name "Reload" [] issue_failed (fun _ => mret 0).

(** ** method-kill.c *)

Definition ARG_KILL_WHOM_SHORT : Z := 1003.
Definition ARG_SIGNAL_SHORT : Z := 1004.
Definition default_whom : string := "all".
Definition default_signal : string := "15".
Definition whom_values : list string := ["all"; "control"; "main"]%string.
Definition is_whom_value_valid (v : string) : bool := existsb (fun x => streq x v) whom_values.

Definition method_kill_unit_on (node_name unit_name whom : string) (signal : Z) : CL Z :=
  call_node node_name "KillUnit" [ArgString unit_name; ArgString whom; ArgInt signal]
    "Failed to issue method call for KillUnit: " (fun _ => mret 0).

(** ** method-loglevel.c *)

(** The path is not the one of the client, and the second attempt to assemble it fails
    like the first. *)
Definition method_set_loglevel_on (node_name : option string) (loglevel : string) : CL Z :=
  match node_name with
  | Some node_name =>
      let '(r, path) := assemble_object_path_string cl_memory cl_memory NODE_OBJECT_PATH_PREFIX node_name in
      if r <? 0 then
        eprintf ("Failed to assemble pbject path to string: " ++ strerror (- r) ++ nl) ;; mret r
      else
        x ← call_method (default ""%string path) NODE_INTERFACE "SetLogLevel" [ArgString loglevel];
        let '(_, r, message) := x in
        if r <? 0 then eprintf (issue_failed ++ message ++ nl) ;; mret r else mret 0
  | None => call_controller "SetLogLevel" [ArgString loglevel] issue_failed (fun _ => mret 0)
  end.

(** ** method-is-enabled.c *)

Definition enabled_states : list string :=
  ["enabled"; "enabled-runtime"; "static"; "alias"; "indirect"; "generated"]%string.
Definition method_is_enabled_on (node_name unit_file : string) : CL Z :=
  call_node node_name "GetUnitFileState" [ArgString unit_file] issue_failed (fun n =>
    match reply_string n with
    | ReadErr r => eprintf ("Failed to read result of method call: (null)" ++ nl) ;; mret r
    | ReadOk state =>
        printf (state ++ nl) ;;
        mret (if existsb (streq state) enabled_states then 0 else -1)
    end).

(** ** method-default-target.c *)

Definition method_get_default_target_on (node_name : string) : CL Z :=
  call_node node_name "GetDefaultTarget" [] issue_failed (fun n =>
    match reply_string n with
    | ReadErr r => eprintf ("Failed to parse response message: " ++ strerror (- r) ++ nl) ;; mret r
    | ReadOk result => printf (result ++ nl) ;; mret 1
    end).

Definition method_set_default_target_on (node_name target : string) (force : bool) : CL Z :=
  call_node node_name "SetDefaultTarget" [ArgString target; ArgBool force] issue_failed (fun n =>
    let changes := reply_triples n in
    if it_enter changes <? 0 then
      eprintf ("Failed to open the strings array container: " ++ strerror (- it_enter changes) ++ nl) ;;
      mret (it_enter changes)
    else
      printf "[" ;;
      foreach (it_list changes) (fun '(result1, result2, result3) =>
        printf ("(" ++ result1 ++ " " ++ result2 ++ " " ++ result3 ++ "),")) ;;
      if it_end changes <? 0 then
        eprintf ("Failed to read the SetDefaultTarget response: " ++ strerror (- it_end changes) ++ nl) ;;
        mret (it_end changes)
      else printf ("]" ++ nl) ;; mret 0).

(** ** method-enable-disable.c *)

Definition parse_enable_disable_response_from_message (changes : items (string * string * string)) : CL Z :=
  if it_enter changes <? 0 then
    eprintf ("Failed to open the strings array container: " ++ strerror (- it_enter changes) ++ nl) ;;
    mret (it_enter changes)
  else
    foreach (it_list changes) (fun '(op_type, symlink_file, symlink_dest) =>
      if streq op_type "symlink" then
        eprintf ("Created symlink " ++ symlink_file ++ " -> " ++ symlink_dest ++ nl)
      else if streq op_type "unlink" then eprintf ("Removed " ++ quote ++ symlink_file ++ quote ++ "." ++ nl)
      else eprintf ("Unknown operation: " ++ op_type ++ nl)) ;;
    if it_end changes <? 0 then
      eprintf ("Failed to read enabled unit file information: " ++ strerror (- it_end changes) ++ nl) ;;
      mret (it_end changes)
    else mret 0.

(** A call whose message is built first; [append] adds the arguments. *)
Definition send_call (node_name member : string) (append : CL Z) (args : list arg) (k : nat -> CL Z) : CL Z :=
  path ← client_create_message_new_method_call node_name;
  match path with
  | inl r => eprintf ("Failed to create a new message: " ++ strerror (- r) ++ nl) ;; mret r
  | inr path =>
      r ← append;
      if r <? 0 then mret r else
      x ← call_method path NODE_INTERFACE member args;
      let '(n, r, message) := x in
      if r <? 0 then eprintf ("Failed to issue call: " ++ message ++ nl) ;; mret r else k n
  end.

Definition append_args (step : nat) (failed : string) : CL Z :=
  r ← build_message step;
  if r <? 0 then eprintf (failed ++ strerror (- r) ++ nl) ;; mret r else mret 0.
Definition add_string_array_to_message : CL Z :=
  if negb cl_memory then eprintf ("Failed to allocate memory" ++ nl) ;; mret (- ENOMEM)
  else append_args 1 "Failed to append the list of units to the message: ".
(** The units, the failure of which is only printed, and the flags. *)
Definition append_units (failed : string) : CL Z :=
  r ← add_string_array_to_message;
  (if r <? 0 then eprintf ("Failed to append the string array to the message: " ++ strerror (- r) ++ nl)
   else mret tt) ;;
  append_args 2 failed.

Definition report_changes (n : nat) : CL Z :=
  r ← parse_enable_disable_response_from_message (reply_triples n);
  if r <? 0 then eprintf ("Failed to parse the response strings array: (null)" ++ nl) ;; mret r else mret 0.

Definition method_enable_unit_on (node_name : string) (units : list string) (runtime force : bool) : CL Z :=
  send_call node_name "EnableUnitFiles" (append_units "Failed to append runtime and force to the message: ")
    [ArgStrings units; ArgBool runtime; ArgBool force] (fun n =>
    match reply_flag n with
    | ReadErr r =>
        eprintf ("Failed to read carries_install_info from the message: " ++ strerror (- r) ++ nl) ;; mret r
    | ReadOk carries_install_info =>
        eprintf ((if carries_install_info then "The unit files included enablement information"
                  else "The unit files did not include any enablement information") ++ nl) ;;
        report_changes n
    end).
Definition method_disable_unit_on (node_name : string) (units : list string) (runtime : bool) : CL Z :=
  send_call node_name "DisableUnitFiles" (append_units "Failed to append runtime to the message: ")
    [ArgStrings units; ArgBool runtime] report_changes.

(** ** method-reset-failed.c *)

Fixpoint reset_failed_units (path : string) (count : Z) (units : list string) (r : Z) : CL Z :=
  match units with
  | [] => mret r
  | unit :: units =>
      printf (fmt_d count ++ " " ++ unit ++ nl) ;;
      x ← call_method path NODE_INTERFACE "ResetFailedUnit" [ArgString unit];
      let '(_, r, message) := x in
      if r <? 0 then eprintf (issue_failed ++ message ++ nl) ;; mret r
      else reset_failed_units path (count + 1) units r
  end.
Definition method_reset_failed_on_units (node_name : string) (units : list string) : CL Z :=
  path ← node_object_path node_name;
  match path with
  | inl r => mret r
  | inr path => reset_failed_units path 1 units (Z.of_nat (strlen path))
  end.
Definition method_reset_failed_on_node (node_name : string) : CL Z :=
  path ← node_object_path node_name;
  match path with
  | inl r => mret r
  | inr path =>
      x ← call_method path NODE_INTERFACE "ResetFailed" [];
      let '(_, r, message) := x in
      if r <? 0 then
        eprintf ("Couldn't reset failed state of all units on node '" ++ node_name ++ "': " ++ message ++ nl) ;;
        mret r
      else mret r
  end.

Fixpoint reset_failed_nodes (nodes : list (string * string * string * string)) (end_ r : Z) : CL Z :=
  match nodes with
  | [] =>
      if end_ <? 0 then
        eprintf ("Failed to read node information: " ++ strerror (- end_) ++ nl) ;; mret end_
      else mret r
  | (name, _, _, _) :: nodes =>
      r ← method_reset_failed_on_node name;
      reset_failed_nodes nodes end_ r
  end.
Definition method_reset_failed_on_all_nodes : CL Z :=
  call_controller "ListNodes" [] issue_failed (fun n =>
    let nodes := reply_nodes n in
    if it_enter nodes <? 0 then
      eprintf ("Failed to open result array: " ++ strerror (- it_enter nodes) ++ nl) ;; mret (it_enter nodes)
    else reset_failed_nodes (it_list nodes) (it_end nodes) (it_enter nodes)).

(** ** method-metrics.c *)

Definition method_metrics_toggle (method : string) : CL Z :=
  x ← call_method BC_OBJECT_PATH CONTROLLER_INTERFACE method [];
  let '(_, r, message) := x in
  if r <? 0 then eprintf (issue_failed ++ message ++ nl) ;; mret r
  else printf ("Done" ++ nl) ;; mret r.

(** ** The methods *)

(** An argument of the operation: a null pointer after the last. *)
Definition opargv (command : Command) (k : nat) : CL string :=
  match cmd_opargv command !! k with
  | Some a => mret a
  | None => crash_with InvalidPointer
  end.
(** A method on a node and a unit. *)
Definition on_unit (f : string -> string -> CL Z) (command : Command) : CL Z :=
  node ← opargv command 0; unit ← opargv command 1; f node unit.
Definition on_node (f : string -> CL Z) (command : Command) : CL Z :=
  node ← opargv command 0; f node.

Context (steps : list process_step).
Definition method_start : Command -> CL Z :=
  on_unit (fun node unit => method_lifecycle_action_on steps node unit "StartUnit").
Definition method_stop : Command -> CL Z :=
  on_unit (fun node unit => method_lifecycle_action_on steps node unit "StopUnit").
Definition method_restart : Command -> CL Z :=
  on_unit (fun node unit => method_lifecycle_action_on steps node unit "RestartUnit").
Definition method_reload : Command -> CL Z :=
  on_unit (fun node unit => method_lifecycle_action_on steps node unit "ReloadUnit").
Definition method_freeze : Command -> CL Z := on_unit method_freeze_unit_on.
Definition method_thaw : Command -> CL Z := on_unit method_thaw_unit_on.
Definition method_daemon_reload : Command -> CL Z := on_node method_daemon_reload_on.
Definition method_is_enabled : Command -> CL Z := on_unit method_is_enabled_on.
Definition method_get_default_target : Command -> CL Z := on_node method_get_default_target_on.

Definition method_kill (command : Command) : CL Z :=
  let whom := default default_whom (command_get_option command ARG_KILL_WHOM_SHORT) in
  if negb (is_whom_value_valid whom) then
    eprintf ("Value '" ++ whom ++ "' of option --kill-whom is invalid" ++ nl) ;; mret (- EINVAL)
  else
    let signal := default default_signal (command_get_option command ARG_SIGNAL_SHORT) in
    match parse_linux_signal (Some signal) with
    | None => eprintf ("Value '" ++ signal ++ "' of option --signal is invalid" ++ nl) ;; mret (- EINVAL)
    | Some sig => on_unit (fun node unit => method_kill_unit_on node unit whom sig) command
    end.

Definition method_set_loglevel (command : Command) : CL Z :=
  if cmd_opargc command =? 1 then level ← opargv command 0; method_set_loglevel_on None level
  else on_unit (fun node level => method_set_loglevel_on (Some node) level) command.

Definition glob_systemd_target : string := "*target".
Definition method_set_default_target (command : Command) : CL Z :=
  target ← opargv command 1;
  if negb (match_glob (Some target) (Some glob_systemd_target)) then
    eprintf ("Error: Unit '" ++ target ++ "' is not a target unit" ++ nl) ;; mret 1
  else on_node (fun node => method_set_default_target_on node target true) command.

Definition ARG_FORCE_SHORT : Z := 102.           (* 'f' *)
Definition ARG_RUNTIME_SHORT : Z := 1001.
Definition ARG_NO_RELOAD_SHORT : Z := 1002.

Definition method_enable (command : Command) : CL Z :=
  node ← opargv command 0;
  r ← method_enable_unit_on node (drop 1 (cmd_opargv command))
        (command_flag_exists command ARG_RUNTIME_SHORT) (command_flag_exists command ARG_FORCE_SHORT);
  if r <? 0 then
    eprintf ("Failed to enable the units on node [" ++ node ++ "] - " ++ strerror (- r)) ;; mret r
  else if negb (command_flag_exists command ARG_NO_RELOAD_SHORT) then method_daemon_reload command
  else mret r.
Definition method_disable (command : Command) : CL Z :=
  node ← opargv command 0;
  r ← method_disable_unit_on node (drop 1 (cmd_opargv command))
        (command_flag_exists command ARG_RUNTIME_SHORT);
  (if r <? 0 then eprintf ("Failed to disable the units on node [" ++ node ++ "] - " ++ strerror (- r))
   else mret tt) ;;
  if negb (command_flag_exists command ARG_NO_RELOAD_SHORT) then method_daemon_reload command
  else mret r.

Definition method_reset_failed (command : Command) : CL Z :=
  match cmd_opargv command with
  | [] => method_reset_failed_on_all_nodes
  | [node] => method_reset_failed_on_node node
  | node :: units => method_reset_failed_on_units node units
  end.
End client.

(** A unit, and a unit file; the node is empty until it is set. *)
Record UnitInfo := mkUnitInfo {
  ui_node : string; ui_id : string; ui_description : string; ui_load : string; ui_active : string;
  ui_sub : string; ui_following : string; ui_unit_path : string;
  ui_job_id : Z;                                                    (* uint32_t *)
  ui_job_type : string; ui_job_path : string;
}.
#[export] Instance eta_UnitInfo : EtaRecord UnitInfo := fun u =>
  mkUnitInfo (ui_node u) (ui_id u) (ui_description u) (ui_load u) (ui_active u) (ui_sub u) (ui_following u)
    (ui_unit_path u) (ui_job_id u) (ui_job_type u) (ui_job_path u).
Record UnitFileInfo := mkUnitFileInfo { uf_node : string; uf_path : string; uf_enablement : string }.
#[export] Instance eta_UnitFileInfo : EtaRecord UnitFileInfo := fun u =>
  mkUnitFileInfo (uf_node u) (uf_path u) (uf_enablement u).

(** The structs in the answers: [(ssssssouso)] and [(ss)]. *)
Definition unit_struct : Type :=
  string * string * string * string * string * string * string * Z * string * string.
Definition unit_file_struct : Type := string * string.
Definition bus_parse_unit_info (x : unit_struct) : UnitInfo :=
  let '(id, description, load_state, active_state, sub_state, following, unit_path, job_id, job_type, job_path) := x in
  mkUnitInfo "" id description load_state active_state sub_state following unit_path job_id job_type job_path.
Definition bus_parse_unit_file_info (x : unit_file_struct) : UnitFileInfo :=
  let '(unit_path, enablement_status) := x in mkUnitFileInfo "" unit_path enablement_status.

(** The units of one node in the answer for all nodes. *)
Record node_items (A : Type) := mkNodeItems { ni_name : read string; ni_items : items A; ni_leave : Z }.
Arguments mkNodeItems {A} _ _ _.
Arguments ni_name {A} _.
Arguments ni_items {A} _.
Arguments ni_leave {A} _.

Class ClientLists := {
  reply_units : nat -> items unit_struct;
  reply_unit_files : nat -> items unit_file_struct;
  reply_node_units : nat -> items (node_items unit_struct);
  reply_node_unit_files : nat -> items (node_items unit_file_struct);
}.

(** ** Printing *)

Definition spaces (n : nat) : string := string_of_list_ascii (repeat " "%char n).
(** [%-<width>s]. *)
Definition pad_right (width : nat) (s : string) : string := s ++ spaces (width - strlen s).
Definition col_sep : string := " | ".
Definition equals_line (n : nat) : string := string_of_list_ascii (repeat "="%char n).

(** The format string [snprintf] builds for the widths, and its limit. *)
Definition FMT_STR_MAX_LEN : nat := 255.
Fixpoint fmt_columns (widths : list Z) : string :=
  match widths with
  | [] => nl
  | [w] => "%-" ++ fmt_u w ++ "s" ++ nl
  | w :: widths => "%-" ++ fmt_u w ++ "s" ++ col_sep ++ fmt_columns widths
  end.
(** A line printed with it. *)
Fixpoint fmt_row (columns : list (nat * string)) : string :=
  match columns with
  | [] => nl
  | [(w, s)] => pad_right w s ++ nl
  | (w, s) :: columns => pad_right w s ++ col_sep ++ fmt_row columns
  end.

(** The width of a column: that of its title and of its longest cell. *)
Definition column_width (title : string) (cells : list string) : nat :=
  Z.to_nat (fold_left (fun m c => umaxl m (Z.of_nat (strlen c))) cells (Z.of_nat (strlen title))).
Definition filtered (glob_filter : option string) (name : string) : bool :=
  match glob_filter with
  | None => true
  | Some _ => match_glob (Some name) glob_filter
  end.

Section lists.
Context {E : ClientEnv} {R : ClientLists}.

Definition print_unit_list_simple (units : list UnitInfo) (glob_filter : option string) : CL void :=
  let max_node_len := column_width "NODE" (map ui_node units) in
  let max_id_len := column_width "ID" (map ui_id units) in
  let max_active_len := column_width "ACTIVE" (map ui_active units) in
  let max_sub_len := column_width "SUB" (map ui_sub units) in
  let max_line_len := (max_node_len + 3 + max_id_len + 3 + max_active_len + 3 + max_sub_len)%nat in
  let row node id active sub :=
    fmt_row [(max_node_len, node); (max_id_len, id); (max_active_len, active); (max_sub_len, sub)] in
  printf (row "NODE" "ID" "ACTIVE" "SUB") ;;
  printf (equals_line max_line_len ++ nl) ;;
  foreach units (fun unit =>
    if filtered glob_filter (ui_id unit) then
      printf (row (ui_node unit) (ui_id unit) (ui_active unit) (ui_sub unit))
    else mret tt).

Definition print_unit_file_list_simple (unit_files : list UnitFileInfo) (glob_filter : option string) : CL void :=
  let max_node_len := column_width "NODE" (map uf_node unit_files) in
  let max_path_len := column_width "PATH" (map uf_path unit_files) in
  let max_enablement_len := column_width "IS-ENABLED" (map uf_enablement unit_files) in
  let max_line_len := (max_node_len + 3 + max_path_len + 3 + max_enablement_len)%nat in
  let row node path enablement :=
    fmt_row [(max_node_len, node); (max_path_len, path); (max_enablement_len, enablement)] in
  printf (row "NODE" "PATH" "IS-ENABLED") ;;
  printf (equals_line max_line_len ++ nl) ;;
  foreach unit_files (fun unit_file =>
    if filtered glob_filter (uf_path unit_file) then
      printf (row (uf_node unit_file) (uf_path unit_file) (uf_enablement unit_file))
    else mret tt).

(** ** Reading *)

(** The result, and the list with what was read appended. *)
Definition parse_list {A I} (info : string -> A -> I) (message : items A) (node_name : string)
    (list : list I) : CL (Z * Datatypes.list I) :=
  if it_enter message <? 0 then
    eprintf ("Failed to enter sd-bus message container: " ++ strerror (- it_enter message) ++ nl) ;;
    mret (it_enter message, list)
  else
    let list := list ++ map (info node_name) (it_list message) in
    if it_end message <? 0 then
      eprintf ("Failed to parse unit info: " ++ strerror (- it_end message) ++ nl) ;; mret (it_end message, list)
    else if it_leave message <? 0 then
      eprintf ("Failed to exit sd-bus message container: " ++ strerror (- it_leave message) ++ nl) ;;
      mret (it_leave message, list)
    else mret (it_leave message, list).

Definition unit_info (node : string) (x : unit_struct) : UnitInfo :=
  (bus_parse_unit_info x) <| ui_node := node |>.
Definition unit_file_info (node : string) (x : unit_file_struct) : UnitFileInfo :=
  (bus_parse_unit_file_info x) <| uf_node := node |>.
Definition parse_unit_list := parse_list unit_info.
Definition parse_unit_file_list := parse_list unit_file_info.

(** The nodes of the answer: [inl] is an error, [inr] the list. *)
Fixpoint parse_nodes {A I} (parse : items A -> string -> list I -> CL (Z * list I))
    (nodes : list (node_items A)) (end_ : Z) (acc : list I) : CL (Z + list I) :=
  match nodes with
  | [] =>
      if end_ <? 0 then
        eprintf ("Failed to enter sd-bus message dictionary: " ++ strerror (- end_) ++ nl) ;; mret (inl end_)
      else mret (inr acc)
  | node :: nodes =>
      match ni_name node with
      | ReadErr r => eprintf ("Failed to read node name: " ++ strerror (- r) ++ nl) ;; mret (inl r)
      | ReadOk name =>
          x ← parse (ni_items node) name acc;
          if ni_leave node <? 0 then
            eprintf ("Failed to exit sd-bus message dictionary: " ++ strerror (- ni_leave node) ++ nl) ;;
            mret (inl (ni_leave node))
          else parse_nodes parse nodes end_ (snd x)
      end
  end.

Definition list_on_all {A I} (member : string) (parse : items A -> string -> list I -> CL (Z * list I))
    (reply : nat -> items (node_items A)) (print : list I -> option string -> CL void)
    (oom : string) (glob_filter : option string) : CL Z :=
  if negb cl_memory then eprintf oom ;; mret (- ENOMEM) else
  call_controller member [] issue_failed (fun n =>
    let nodes := reply n in
    if it_enter nodes <? 0 then
      eprintf ("Failed to read sd-bus message: " ++ strerror (- it_enter nodes) ++ nl) ;; mret (it_enter nodes)
    else
      x ← parse_nodes parse (it_list nodes) (it_end nodes) [];
      match x with
      | inl r => mret r
      | inr l => print l glob_filter ;; mret 0
      end).
Definition method_list_units_on_all : option string -> CL Z :=
  list_on_all "ListUnits" parse_unit_list reply_node_units print_unit_list_simple
    "Failed to create unit list, OOM".
Definition method_list_unit_files_on_all : option string -> CL Z :=
  list_on_all "ListUnitFiles" parse_unit_file_list reply_node_unit_files print_unit_file_list_simple
    "Failed to create unit file list, OOM".

(** The path is not the one of the client. *)
Definition list_on {A I} (member : string) (parse : items A -> string -> list I -> CL (Z * list I))
    (reply : nat -> items A) (print : list I -> option string -> CL void)
    (node_name : string) (glob_filter : option string) : CL Z :=
  let '(r, path) := assemble_object_path_string cl_memory cl_memory NODE_OBJECT_PATH_PREFIX node_name in
  if r <? 0 then mret r else
  x ← call_method (default ""%string path) NODE_INTERFACE member [];
  let '(n, r, message) := x in
  if r <? 0 then eprintf (issue_failed ++ message ++ nl) ;; mret r else
  y ← parse (reply n) node_name [];
  if fst y <? 0 then mret (fst y) else print (snd y) glob_filter ;; mret 0.
Definition method_list_units_on : string -> option string -> CL Z :=
  list_on "ListUnits" parse_unit_list reply_units print_unit_list_simple.
Definition method_list_unit_files_on : string -> option string -> CL Z :=
  list_on "ListUnitFiles" parse_unit_file_list reply_unit_files print_unit_file_list_simple.

Definition ARG_FILTER_SHORT : Z := 1000.
Definition method_list_units (command : Command) : CL Z :=
  let filter_glob := command_get_option command ARG_FILTER_SHORT in
  match cmd_opargv command with
  | [] => method_list_units_on_all filter_glob
  | node :: _ => method_list_units_on node filter_glob
  end.
Definition method_list_unit_files (command : Command) : CL Z :=
  let filter_glob := command_get_option command ARG_FILTER_SHORT in
  match cmd_opargv command with
  | [] => method_list_unit_files_on_all filter_glob
  | node :: _ => method_list_unit_files_on node filter_glob
  end.
End lists.
