(* ===== verification/ClientStatus.v ===== *)
(** client/method-status.c: the status of nodes and of units, printed once or, with
    --watch, again at every change. *)
From S2P Require Import Prelude CString StringUtil ParseUtil TimeUtil Protocol BusUtils Socket.
From S2P Require Import BusProps Log World Command Client.
Local Open Scope list_scope.

Record unit_info_t := mkUnitInfoT {
  id : option string;
  load_state : option string;
  active_state : option string;
  freezer_state : option string;
  sub_state : option string;
  unit_file_state : option string;
}.
#[export] Instance eta_unit_info_t : EtaRecord unit_info_t := fun u =>
  mkUnitInfoT (id u) (load_state u) (active_state u) (freezer_state u) (sub_state u) (unit_file_state u).

(** A property in the answer to GetUnitProperties: its name; peeking at the type of its
    value, entering the variant, the type in it, the string, and leaving the variant;
    skipping the value; and leaving the entry. *)
Record status_property := mkStatusProperty {
  sp_name : read string;
  sp_peek : Z; sp_enter : Z; sp_type : read bool; sp_string : read string; sp_leave : Z;
  sp_skip : Z;
  sp_exit : Z;
}.

Class StatusReplies := {
  reply_properties : nat -> items status_property;
  (* localtime and strftime: the time without its fraction and with its zone; and the
     conversion of nanoseconds to milliseconds in floating point *)
  format_time : Z -> string;
  format_zone : Z -> string;
  nsec_to_millis : Z -> Z;
}.

Definition PRINT_TAB_SIZE : Z := 8.
Definition esc : string := String (ascii_of_nat 27) "".

(** The members that are kept, with how they are set ([property_map]). *)
Definition property_map : list (string * (option string -> unit_info_t -> unit_info_t)) :=
  [("Id"%string, fun v u => u <| id := v |>);
   ("LoadState"%string, fun v u => u <| load_state := v |>);
   ("ActiveState"%string, fun v u => u <| active_state := v |>);
   ("FreezerState"%string, fun v u => u <| freezer_state := v |>);
   ("SubState"%string, fun v u => u <| sub_state := v |>);
   ("UnitFileState"%string, fun v u => u <| unit_file_state := v |>)].

Section status.
Context {E : ClientEnv} {R : StatusReplies}.

Definition clear_screen : CL void := printf (esc ++ "[2J") ;; printf (esc ++ "[0;0H").

(** ** Reading the properties of a unit *)

(** The result, and the unit afterwards. *)
Definition read_property_value (p : status_property)
    (set : option string -> unit_info_t -> unit_info_t) (u : unit_info_t) : CL (Z * unit_info_t) :=
  let failed text r := eprintf (text ++ strerror (- r) ++ nl) ;; mret (r, u) in
  if sp_peek p <? 0 then failed "Failed to peek into the type of the property: "%string (sp_peek p) else
  if sp_enter p <? 0 then failed "Failed to enter into the container of the property: "%string (sp_enter p) else
  match sp_type p with
  | ReadErr r => failed "Failed to get the type of the property: "%string r
  | ReadOk is_string =>
      if negb is_string then
        eprintf ("Currently only string types are expected" ++ nl) ;; mret (- EINVAL, u)
      else match sp_string p with
      | ReadErr r => failed "Failed to get the value of the property: "%string r
      | ReadOk s =>
          let u := set (if streq s "" then None else Some s) u in
          (if sp_leave p <? 0 then
             eprintf ("Failed to exit from the container of the property: " ++ strerror (- sp_leave p) ++ nl)
           else mret tt) ;;
          mret (sp_leave p, u)
      end
  end.

Definition process_dict_entry (p : status_property) (u : unit_info_t) : CL (Z * unit_info_t) :=
  match sp_name p with
  | ReadErr r => eprintf ("Failed to read the name of the property: " ++ strerror (- r) ++ nl) ;; mret (r, u)
  | ReadOk member =>
      match List.find (fun x => streq (fst x) member) property_map with
      | Some (name, set) =>
          x ← read_property_value p set u;
          let '(r, u) := x in
          (if r <? 0 then
             eprintf ("Failed to get the value for member " ++ name ++ " - " ++ strerror (- r) ++ nl)
           else mret tt) ;;
          mret (r, u)
      | None =>
          (if sp_skip p <? 0 then
             eprintf ("Failed to skip the property container: " ++ strerror (- sp_skip p) ++ nl)
           else mret tt) ;;
          mret (sp_skip p, u)
      end
  end.

Fixpoint parse_properties (properties : list status_property) (end_ : Z) (u : unit_info_t) :
    CL (Z * unit_info_t) :=
  match properties with
  | [] =>
      (if end_ <? 0 then eprintf ("Failed to enter the property container: " ++ strerror (- end_) ++ nl)
       else mret tt) ;;
      mret (end_, u)
  | p :: properties =>
      x ← process_dict_entry p u;
      let '(r, u) := x in
      if r <? 0 then mret (r, u)
      else if sp_exit p <? 0 then
        eprintf ("Failed to exit the property container: " ++ strerror (- sp_exit p) ++ nl) ;; mret (sp_exit p, u)
      else parse_properties properties end_ u
  end.
Definition parse_unit_status_response_from_message (m : items status_property) (u : unit_info_t) :
    CL (Z * unit_info_t) :=
  if it_enter m <? 0 then
    eprintf ("Failed to open the strings array container: " ++ strerror (- it_enter m) ++ nl) ;;
    mret (it_enter m, u)
  else parse_properties (it_list m) (it_end m) u.

(** ** Printing units *)

(** A loop over a size_t that goes down by the size of a tab while it is at least
    [bound]; the fuel is the number of its steps. *)
Fixpoint tab_loop (fuel : nat) (bound i : Z) (text : string) : CL void :=
  match fuel with
  | O => crash_with OutOfFuel
  | S fuel =>
      if bound <=? i then printf text ;; tab_loop fuel bound (i - PRINT_TAB_SIZE) text else mret tt
  end.
Definition down_by_tabs (bound i : Z) (text : string) : CL void :=
  tab_loop (S (Z.to_nat (i / PRINT_TAB_SIZE))) bound i text.

Definition print_info_header (name_col_width : Z) : CL void :=
  printf "UNIT" ;;
  down_by_tabs (PRINT_TAB_SIZE + 1) (u64 (PRINT_TAB_SIZE + name_col_width)) tab ;;
  printf ("| LOADED" ++ tab ++ "| ACTIVE" ++ tab ++ "| SUBSTATE" ++ tab ++ "| FREEZERSTATE" ++ tab ++
          "| ENABLED" ++ tab ++ "|" ++ nl) ;;
  down_by_tabs (PRINT_TAB_SIZE + 1) (u64 (PRINT_TAB_SIZE + name_col_width)) "--------" ;;
  foreach (repeat "----------------"%string 4) printf ;;
  printf ("----------------" ++ nl).

(** [PRINT_AND_ALIGN]. *)
Definition print_and_align (x : option string) : CL void :=
  printf ("| " ++ default "(null)" x ++ tab)%string ;;
  match x with
  | Some s => if (strlen s <? 6)%nat then printf tab else mret tt
  | None => mret tt
  end.

Definition print_unit_info (u : unit_info_t) (name_col_width : Z) : CL void :=
  if match load_state u with Some s => streq s "not-found" | None => false end then
    eprintf ("Unit " ++ default "(null)" (id u) ++ " could not be found." ++ nl)%string
  else
    let name := default ""%string (id u) in
    printf name ;;
    let name_col_width := u64 (name_col_width - Z.of_nat (strlen name)) in
    let name_col_width := u64 (name_col_width + PRINT_TAB_SIZE) in
    down_by_tabs PRINT_TAB_SIZE name_col_width tab ;;      (* no rest is left for spaces *)
    print_and_align (load_state u) ;;
    print_and_align (active_state u) ;;
    print_and_align (sub_state u) ;;
    print_and_align (freezer_state u) ;;
    print_and_align (unit_file_state u) ;;
    printf ("|" ++ nl).

Definition get_max_name_len (units : list string) : Z :=
  fold_left (fun m s => let l := Z.of_nat (strlen s) in if l <? m then m else l) units 0.

Definition get_status_unit_on (node_name unit_name : string) (name_col_width : Z) : CL Z :=
  send_call node_name "GetUnitProperties" (append_args 1 "Failed to append runtime to the message: ")
    [ArgString unit_name; ArgString ""] (fun n =>
    x ← parse_unit_status_response_from_message (reply_properties n) (mkUnitInfoT None None None None None None);
    let '(r, u) := x in
    if r <? 0 then
      eprintf ("Failed to parse the response strings array: (null)" ++ nl) ;; mret r
    else print_unit_info u name_col_width ;; mret 0).

Definition status_failed (unit node : string) (r : Z) : string :=
  "Failed to get status of unit " ++ unit ++ " on node " ++ node ++ " - " ++ strerror (- r).

(** What a watch keeps. *)
Record MethodStatusChange := mkMethodStatusChange {
  sc_units : list string; sc_node_name : string; sc_max_len : Z;
}.

Fixpoint status_of_units (units : list string) (node_name : string) (max_len ok : Z) : CL Z :=
  match units with
  | [] => mret ok
  | unit :: units =>
      r ← get_status_unit_on node_name unit max_len;
      if r <? 0 then eprintf (status_failed unit node_name r) ;; mret r
      else status_of_units units node_name max_len ok
  end.
Definition on_unit_status_changed (s : MethodStatusChange) : CL Z :=
  clear_screen ;;
  print_info_header (sc_max_len s) ;;
  status_of_units (sc_units s) (sc_node_name s) (sc_max_len s) 1.

(** A monitor of its own for a unit that is watched. *)
Definition watch_unit (node_name unit : string) : CL Z :=
  x ← call_method BC_OBJECT_PATH CONTROLLER_INTERFACE "CreateMonitor" [];
  let '(n, r, message) := x in
  if r <? 0 then eprintf ("Failed to create monitor: " ++ message ++ nl) ;; mret r else
  match reply_string n with
  | ReadErr r =>
      eprintf ("Failed to parse create monitor response message: " ++ strerror (- r) ++ nl) ;; mret r
  | ReadOk monitor_path =>
      r ← match_signal monitor_path "UnitStateChanged";
      if r <? 0 then
        eprintf ("Failed to create callback for UnitStateChanged: " ++ strerror (- r) ++ nl) ;; mret r
      else
      r ← build_message 0;
      if r <? 0 then eprintf ("Failed creating subscription call: " ++ strerror (- r) ++ nl) ;; mret r else
      x ← call_method monitor_path MONITOR_INTERFACE "Subscribe" [ArgString node_name; ArgString unit];
      let '(_, r, message) := x in
      if r <? 0 then eprintf ("Failed to subscribe to monitor: " ++ message ++ nl) ;; mret r else mret 0
  end.

Fixpoint status_units (units : list string) (node_name : string) (max_len : Z) (do_watch : bool) : CL Z :=
  match units with
  | [] => mret 0
  | unit :: units =>
      r ← get_status_unit_on node_name unit max_len;
      if r <? 0 then eprintf (status_failed unit node_name r ++ nl) ;; mret r else
      r ← (if do_watch then watch_unit node_name unit else mret 0);
      if r <? 0 then mret r else status_units units node_name max_len do_watch
  end.

(** [signals]: the number of status changes that arrive, or of other events, then the
    end of the loop. *)
Definition method_status_unit_on (signals : list (Z + void)) (node_name : string) (units : list string)
    (do_watch : bool) : CL Z :=
  let max_name_len := get_max_name_len units in
  if negb cl_memory then
    eprintf "Failed to malloc memory for MethodStatusChange" ;; mret ENOMEM
  else
    let s := mkMethodStatusChange units node_name max_name_len in
    print_info_header max_name_len ;;
    r ← status_units units node_name max_name_len do_watch;
    if r <? 0 then mret r
    else if do_watch then client_start_event_loop (map (sum_map (fun r => r) (fun _ => on_unit_status_changed s)) signals)
    else mret 0.

(** ** Nodes *)

(** A node is its place in the list. *)
Definition node_new (node_name node_path node_state ip : string) (last_seen_timestamp : Z) : CL (option nat) :=
  if negb cl_memory then mret None else
  w ← Prelude.get;
  let node := Datatypes.length (cl_nodes w) in
  modify (fun w => w <| cl_nodes ::= fun l => l ++
    [mkNodeConnection node_name node_path node_state ip last_seen_timestamp] |>) ;;
  mret (Some node).

Definition get_formatted_log_timestamp_for_timespec (tv_sec tv_nsec : Z) : string :=
  let millis := nsec_to_millis tv_nsec mod 1000 in
  let digits := fmt_u millis in
  format_time tv_sec ++ "," ++ string_of_list_ascii (repeat "0"%char (3 - strlen digits)) ++ digits ++
  format_zone tv_sec.
Definition node_connection_fmt_last_seen (con : NodeConnection) : string :=
  if streq (con_state con) "online" then "now"
  else if streq (con_state con) "offline" && (con_last_seen con =? 0) then "never"
  else get_formatted_log_timestamp_for_timespec (con_last_seen con / USEC_PER_SEC)
         (con_last_seen con mod USEC_PER_SEC * NSEC_PER_USEC).

(** [%-<n>.<n>s]. *)
Definition fixed_width (n : nat) (s : string) : string :=
  str_take n s ++ string_of_list_ascii (repeat " "%char (n - strlen s)).
Definition node_row (name state ip last_seen : string) : string :=
  fixed_width 30 name ++ "| " ++ fixed_width 10 state ++ "| " ++ fixed_width 24 ip ++ "| " ++
  fixed_width 28 last_seen ++ nl.

Definition print_nodes (clear : bool) : CL void :=
  (if clear then clear_screen else mret tt) ;;
  printf (node_row "NODE" "STATE" "IP" "LAST SEEN") ;;
  printf (string_of_list_ascii (repeat "="%char 90) ++ nl) ;;
  w ← Prelude.get;
  foreach (cl_nodes w) (fun con =>
    printf (node_row (con_name con) (con_state con) (con_ip con) (node_connection_fmt_last_seen con))).

(** sd_bus_get_property. *)
Definition get_property (path interface property : string) : CL (nat * Z) :=
  x ← call_method path "org.freedesktop.DBus.Properties" "Get" [ArgString interface; ArgString property];
  mret (fst x).
Definition fetch_last_seen_timestamp_property (node_path : string) : CL (Z * option Z) :=
  x ← get_property node_path NODE_INTERFACE "LastSeenTimestamp";
  let '(n, r) := x in
  if r <? 0 then mret (r, None) else
  match reply_number n with
  | ReadErr r => mret (r, None)
  | ReadOk t => mret (0, Some t)
  end.
Definition fetch_peer_ip_property (node_path : string) : CL (Z * option string) :=
  x ← get_property node_path NODE_INTERFACE "PeerIp";
  let '(n, r) := x in
  if r <? 0 then mret (r, None) else
  match reply_string n with
  | ReadErr r => mret (r, None)
  | ReadOk ip => mret (0, if cl_memory then Some ip else None)
  end.

(** The result and the status, of the first property as long as it is Status. *)
Definition parse_status_from_changed_properties (m : changed_properties) : CL (Z * option string) :=
  if pc_enter m <? 0 then
    eprintf ("Failed to read changed properties: " ++ strerror (- pc_enter m) ++ nl) ;; mret (pc_enter m, None)
  else match pc_entries m with
  | [] => mret (pc_leave m, None)
  | mkChanged key v :: _ =>
      match key with
      | ReadErr r =>
          eprintf ("Failed to read next unit changed property: " ++ strerror (- r) ++ nl) ;; mret (r, None)
      | ReadOk None => mret (pc_leave m, None)
      | ReadOk (Some key) =>
          if negb (streq key "Status") then mret (pc_leave m, None)
          else if sv_enter v <? 0 then
            eprintf ("Failed to enter content of variant type: " ++ strerror (- sv_enter v)) ;;
            mret (sv_enter v, None)
          else match sv_read v with
          | ReadErr r =>
              eprintf ("Failed to read value of changed property: " ++ strerror (- r) ++ nl) ;; mret (r, None)
          | ReadOk status =>
              let copy := if sv_strdup v then Some status else None in
              if sv_leave v <? 0 then
                eprintf ("Failed to exit container: " ++ strerror (- sv_leave v) ++ nl) ;;
                mret (sv_leave v, copy)
              else mret (pc_leave m, copy)              (* [enter_nested_entry] ends the loop *)
          end
      end
  end.

Definition upd_node (node : nat) (f : NodeConnection -> NodeConnection) : CL void :=
  modify (fun w => w <| cl_nodes ::= alter f node |>).
Definition on_node_connection_state_changed (node : nat) (m : changed_properties) : CL Z :=
  x ← parse_status_from_changed_properties m;
  let '(r, status) := x in
  if r <? 0 then mret r else
  match status with
  | None => eprintf "Received connection status change signal with missing 'Status' key." ;; mret 0
  | Some state =>
      con ← deref (fun w => cl_nodes w !! node);
      x ← fetch_last_seen_timestamp_property (con_node_path con);
      let '(r, last_seen) := x in
      upd_node node (fun c => c <| con_last_seen := default (con_last_seen c) last_seen |>) ;;
      if r <? 0 then
        eprintf ("Failed to get last seen property of node " ++ con_name con ++ ": " ++ strerror (- r) ++ nl) ;;
        mret r
      else
      x ← fetch_peer_ip_property (con_node_path con);
      let '(r, ip) := x in
      upd_node node (fun c => c <| con_ip := default (con_ip c) ip |>) ;;
      if r <? 0 then
        eprintf ("Failed to get peer IP property of node " ++ con_name con ++ ": " ++ strerror (- r) ++ nl) ;;
        mret r
      else
      upd_node node (fun c => c <| con_state := state |>) ;;
      print_nodes true ;;
      mret 0
  end.

Fixpoint read_nodes (nodes : list (string * string * string * string)) (end_ : Z)
    (node_name : option string) (do_watch : bool) : CL Z :=
  match nodes with
  | [] =>
      if end_ <? 0 then
        eprintf ("Failed to read node information: " ++ strerror (- end_) ++ nl) ;; mret end_
      else mret 0
  | (name, path, state, ip) :: nodes =>
      if match node_name with Some n => negb (streq name n) | None => false end
      then read_nodes nodes end_ node_name do_watch
      else
        x ← (if streq state "offline" then fetch_last_seen_timestamp_property path else mret (0, None));
        let '(r, last_seen_timestamp) := x in
        if r <? 0 then
          eprintf ("Failed to get last seen property of node " ++ name ++ ": " ++ strerror (- r) ++ nl) ;; mret r
        else
        node ← node_new name path state ip (default 0 last_seen_timestamp);
        match node with
        | None => eprintf "Failed to create Node, OOM" ;; mret (- ENOMEM)
        | Some _ =>
            r ← (if do_watch then match_signal path "PropertiesChanged" else mret 0);
            if r <? 0 then
              eprintf ("Failed to create callback for NodeConnectionStateChanged: " ++ strerror (- r) ++ nl) ;;
              mret r
            else read_nodes nodes end_ node_name do_watch
        end
  end.

(** [signals]: the status changes that arrive, with the node they are for. *)
Definition method_print_node_status (signals : list (Z + nat * changed_properties))
    (node_name : option string) (do_watch : bool) : CL Z :=
  call_controller "ListNodes" [] "Failed to list nodes: " (fun n =>
    if negb cl_memory then eprintf "Failed to create Node list, OOM" ;; mret (- ENOMEM) else
    let nodes := reply_nodes n in
    if it_enter nodes <? 0 then
      eprintf ("Failed to open reply array: " ++ strerror (- it_enter nodes) ++ nl) ;; mret (it_enter nodes)
    else
      r ← read_nodes (it_list nodes) (it_end nodes) node_name do_watch;
      if r <? 0 then mret r else
      w ← Prelude.get;
      match node_name with
      | Some name =>
          if bool_decide (cl_nodes w = []) then
            eprintf ("Node " ++ name ++ " not found" ++ nl) ;; mret (- EINVAL)
          else mret 0
      | None => mret 0
      end ≫= fun r =>
      if r <? 0 then mret r else
      print_nodes do_watch ;;
      if do_watch then
        client_start_event_loop
          (map (sum_map (fun r => r) (fun x => on_node_connection_state_changed (fst x) (snd x))) signals)
      else mret 0).

Definition ARG_WATCH_SHORT : Z := 119.           (* 'w' *)
Definition method_status (unit_signals : list (Z + void))
    (node_signals : list (Z + nat * changed_properties)) (command : Command) : CL Z :=
  let do_watch := command_flag_exists command ARG_WATCH_SHORT in
  match cmd_opargv command with
  | [] => method_print_node_status node_signals None do_watch
  | [node] => method_print_node_status node_signals (Some node) do_watch
  | node :: units => method_status_unit_on unit_signals node units do_watch
  end.
End status.
