(* ===== verification/ClientMonitor.v ===== *)
(** client/method-monitor.c, the listening part of client/method-metrics.c and
    client/main.c: bluechictl monitor and metrics listen, and the table of methods. *)
From S2P Require Import Prelude CString StringUtil ParseUtil TimeUtil Protocol BusUtils Socket.
From S2P Require Import BusProps Log World Command Client ClientStatus.
Local Open Scope list_scope.

(** ** Signals of a monitor *)

(** A changed property: its name, nothing when reading it gives 0; peeking at the type of
    the value; for a string, entering, reading; and leaving the innermost container, which for a string is the variant. *)
Record shown_property := mkShownProperty {
  sh_key : read (option string); sh_peek : read string; sh_enter : Z; sh_value : read string; sh_leave : Z;
}.

(** The signals, as the reads of their arguments. *)
Inductive monitor_signal :=
| MonUnitNew (args : read (string * string * string))
| MonUnitRemoved (args : read (string * string * string))
| MonUnitStateChanged (args : read (string * string * string * string * string))
| MonUnitPropertiesChanged (args : read (string * string * string)) (properties : items shown_property).

Section monitor.
Context {E : ClientEnv}.

Definition unit_line (node_name unit_name : string) : string := "[" ++ node_name ++ "] " ++ unit_name ++ nl ++ tab.

Definition on_unit_new_signal (m : read (string * string * string)) : CL Z :=
  match m with
  | ReadErr r => eprintf ("Can't parse unit new signal: " ++ strerror (- r) ++ nl) ;; mret 0
  | ReadOk (node_name, unit_name, reason) =>
      printf (unit_line node_name unit_name ++ "Unit created (reason: " ++ reason ++ ")" ++ nl) ;; mret 0
  end.
Definition on_unit_removed_signal (m : read (string * string * string)) : CL Z :=
  match m with
  | ReadErr r => eprintf ("Can't parse unit removed signal: " ++ strerror (- r) ++ nl) ;; mret 0
  | ReadOk (node_name, unit_name, reason) =>
      printf (unit_line node_name unit_name ++ "Unit removed (reason: " ++ reason ++ ")" ++ nl) ;; mret 0
  end.
Definition on_unit_state_changed_signal (m : read (string * string * string * string * string)) : CL Z :=
  match m with
  | ReadErr r => eprintf ("Can't parse unit state changed signal: " ++ strerror (- r) ++ nl) ;; mret 0
  | ReadOk (node_name, unit_name, active_state, sub_state, reason) =>
      printf (unit_line node_name unit_name ++ "Unit state changed (reason: " ++ reason ++ ")" ++ nl ++ tab ++
              "Active: " ++ active_state ++ " (" ++ sub_state ++ ")" ++ nl) ;;
      mret 0
  end.

Fixpoint show_properties (properties : list shown_property) (leave : Z) : CL Z :=
  match properties with
  | [] => mret leave
  | p :: properties =>
      match sh_key p with
      | ReadErr r =>
          eprintf ("Failed to read next unit changed property: " ++ strerror (- r) ++ nl) ;; mret r
      | ReadOk None => mret leave
      | ReadOk (Some s) =>
          match sh_peek p with
          | ReadErr r => eprintf ("Failed to determine content of variant type: " ++ strerror (- r)) ;; mret r
          | ReadOk contents =>
              (* a string: the entry is still entered after leaving the variant *)
              let is_string := streq contents "s" in
              r ← (if is_string then
                     if sh_enter p <? 0 then
                       eprintf ("Failed to enter content of variant type: " ++ strerror (- sh_enter p)) ;;
                       mret (sh_enter p)
                     else match sh_value p with
                     | ReadErr r =>
                         eprintf ("Failed to read value of changed property: " ++ strerror (- r) ++ nl) ;; mret r
                     | ReadOk value => printf (tab ++ s ++ ": " ++ value ++ nl) ;; mret 0
                     end
                   else mret 0);
              if r <? 0 then mret r
              else if sh_leave p <? 0 then
                eprintf ("Failed to exit container: " ++ strerror (- sh_leave p) ++ nl) ;; mret (sh_leave p)
              else if is_string && (enter_nested_entry <=? 0) then mret leave
              else show_properties properties leave
          end
      end
  end.
Definition on_unit_properties_changed_signal (m : read (string * string * string))
    (properties : items shown_property) : CL Z :=
  match m with
  | ReadErr r => eprintf ("Can't parse unit properties changed signal: " ++ strerror (- r) ++ nl) ;; mret 0
  | ReadOk (node_name, unit_name, interface_name) =>
      printf (unit_line node_name unit_name ++ "Unit properties changed (Interface: " ++ interface_name ++ ")" ++ nl) ;;
      if it_enter properties <? 0 then
        eprintf ("Failed to read properties: " ++ strerror (- it_enter properties) ++ nl) ;;
        mret (it_enter properties)
      else show_properties (it_list properties) (it_leave properties)
  end.

Definition on_monitor_signal (s : monitor_signal) : CL Z :=
  match s with
  | MonUnitNew m => on_unit_new_signal m
  | MonUnitRemoved m => on_unit_removed_signal m
  | MonUnitStateChanged m => on_unit_state_changed_signal m
  | MonUnitPropertiesChanged m properties => on_unit_properties_changed_signal m properties
  end.

(** ** Monitoring *)

(** The matches, in order; the first that fails ends. *)
Fixpoint match_signals (path : string) (members : list string) : CL Z :=
  match members with
  | [] => mret 0
  | member :: members =>
      r ← match_signal path member;
      if r <? 0 then
        eprintf ("Failed to create callback for " ++ member ++ ": " ++ strerror (- r) ++ nl) ;; mret r
      else match_signals path members
  end.

Definition method_monitor_units_on_nodes (signals : list (Z + monitor_signal)) (node units : string) : CL Z :=
  call_controller "CreateMonitor" [] "Failed to create monitor: " (fun n =>
    match reply_string n with
    | ReadErr r =>
        eprintf ("Failed to parse create monitor response message: " ++ strerror (- r) ++ nl) ;; mret r
    | ReadOk monitor_path =>
        printf ("Monitor path: " ++ monitor_path ++ nl) ;;
        r ← match_signals monitor_path ["UnitNew"; "UnitRemoved"; "UnitStateChanged"; "UnitPropertiesChanged"]%string;
        if r <? 0 then mret r else
        r ← build_message 0;
        if r <? 0 then eprintf ("Failed creating subscription call: " ++ strerror (- r) ++ nl) ;; mret r else
        r ← build_message 1;
        if r <? 0 then eprintf ("Failed opening subscription unit array: " ++ strerror (- r) ++ nl) ;; mret r else
        let unit_list := strtok_all units "," in
        foreach unit_list (fun unit =>
          printf ("Subscribing to node '" ++ node ++ "' and unit '" ++ unit ++ "'" ++ nl)) ;;
        r ← build_message 2;
        if r <? 0 then eprintf ("Failed closing subscription unit array: " ++ strerror (- r) ++ nl) ;; mret r else
        x ← call_method monitor_path MONITOR_INTERFACE "SubscribeList" [ArgString node; ArgStrings unit_list];
        let '(_, r, message) := x in
        if r <? 0 then eprintf ("Failed to subscribe to monitor: " ++ message ++ nl) ;; mret r
        else client_start_event_loop (map (sum_map (fun r => r) on_monitor_signal) signals)
    end).

Definition method_monitor (signals : list (Z + monitor_signal)) (command : Command) : CL Z :=
  match cmd_opargv command with
  | [] => method_monitor_units_on_nodes signals SYMBOL_WILDCARD SYMBOL_WILDCARD
  | [node] => method_monitor_units_on_nodes signals node SYMBOL_WILDCARD
  | [node; units] => method_monitor_units_on_nodes signals node units
  | _ => mret (- EINVAL)
  end.

(** ** Metrics *)

Inductive metrics_signal :=
| StartUnitJobMetrics (args : read (string * string * string * Z * Z))
| AgentJobMetrics (args : read (string * string * string * Z)).

(** [%.1lf] of the milliseconds in a number of microseconds. *)
Context (format_millis : Z -> string).

Definition match_start_unit_job_metrics_signal (m : read (string * string * string * Z * Z)) : CL Z :=
  match m with
  | ReadErr r => eprintf ("Can't parse job result: " ++ strerror (- r)) ;; mret r
  | ReadOk (node_name, job_path, unit, job_measured_time, unit_net_start_time) =>
      printf ("[" ++ node_name ++ "] Job " ++ job_path ++ " to start unit " ++ unit ++ ":" ++ nl ++ tab ++
              "BlueChi job gross measured time: " ++ format_millis job_measured_time ++ "ms" ++ nl ++ tab ++
              "Unit net start time (from properties): " ++ format_millis unit_net_start_time ++ "ms" ++ nl) ;;
      mret 0
  end.
Definition match_agent_job_metrics_signal (m : read (string * string * string * Z)) : CL Z :=
  match m with
  | ReadErr r => eprintf ("Can't parse metric: " ++ strerror (- r)) ;; mret r
  | ReadOk (node_name, unit, method, systemd_job_time) =>
      printf ("[" ++ node_name ++ "] Agent systemd " ++ method ++ " job on " ++ unit ++
              " net measured time: " ++ format_millis systemd_job_time ++ "ms" ++ nl) ;;
      mret 0
  end.
Definition on_metrics_signal (s : metrics_signal) : CL Z :=
  match s with
  | StartUnitJobMetrics m => match_start_unit_job_metrics_signal m
  | AgentJobMetrics m => match_agent_job_metrics_signal m
  end.

Fixpoint match_metrics (members : list string) : CL Z :=
  match members with
  | [] => mret 0
  | member :: members =>
      r ← match_signal (BC_OBJECT_PATH ++ "/metrics") member;
      if r <? 0 then
        eprintf ("Failed to add " ++ member ++ " api bus match: " ++ strerror (- r)) ;; mret r
      else match_metrics members
  end.
Definition method_metrics_listen (signals : list (Z + metrics_signal)) : CL Z :=
  r ← loop_setup 0 ["Failed to create event loop: "; "Failed to attach bus to event: "]%string;
  if r <? 0 then mret r else
  r ← match_metrics ["StartUnitJobMetrics"; "AgentJobMetrics"]%string;
  if r <? 0 then mret r else
  r ← loop_setup 2 ["Failed to add signals to agent event loop: "]%string;
  if r <? 0 then mret r else
  printf ("Waiting for metrics signals..." ++ nl) ;;
  r ← client_event_loop (map (sum_map (fun r => r) on_metrics_signal) signals);
  if r <? 0 then eprintf ("Starting event loop failed: " ++ strerror (- r)) ;; mret r else mret r.

Definition method_metrics (signals : list (Z + metrics_signal)) (command : Command) : CL Z :=
  what ← opargv command 0;
  if streq what "enable" then method_metrics_toggle "EnableMetrics"
  else if streq what "disable" then method_metrics_toggle "DisableMetrics"
  else if streq what "listen" then method_metrics_listen signals
  else eprintf ("Unknown metrics command: " ++ what) ;; mret (- EINVAL).
End monitor.

(** ** main *)

Definition OPT_NONE : Z := 0.
Definition OPT_FILTER : Z := 2.
Definition OPT_FORCE : Z := 4.
Definition OPT_RUNTIME : Z := 8.
Definition OPT_NO_RELOAD : Z := 16.
Definition OPT_WATCH : Z := 32.
Definition OPT_KILL_WHOM : Z := 64.
Definition OPT_SIGNAL : Z := 128.

Definition client_option_types : list OptionType :=
  [mkOptionType ARG_FILTER_SHORT (Some "filter"%string) OPT_FILTER;
   mkOptionType ARG_FORCE_SHORT (Some "force"%string) OPT_FORCE;
   mkOptionType ARG_RUNTIME_SHORT (Some "runtime"%string) OPT_RUNTIME;
   mkOptionType ARG_NO_RELOAD_SHORT (Some "no-reload"%string) OPT_NO_RELOAD;
   mkOptionType ARG_WATCH_SHORT (Some "watch"%string) OPT_WATCH;
   mkOptionType ARG_KILL_WHOM_SHORT (Some "kill-whom"%string) OPT_KILL_WHOM;
   mkOptionType ARG_SIGNAL_SHORT (Some "signal"%string) OPT_SIGNAL;
   mkOptionType 0 None 0].

(** What arrives while a method waits. *)
Record arrivals := mkArrivals {
  ar_jobs : list process_step;
  ar_units : list (Z + void);
  ar_nodes : list (Z + nat * changed_properties);
  ar_monitor : list (Z + monitor_signal);
  ar_metrics : list (Z + metrics_signal);
}.

Section main.
Context {E : ClientEnv} {R1 : ClientLists} {R2 : StatusReplies}.
Context (format_millis : Z -> string) (version : string) (usage : string -> CL void) (a : arrivals).

Definition client_version (_ : Command) : CL Z :=
  printf ("bluechictl version " ++ version ++ nl) ;; mret 0.
Definition client_help (_ : Command) : CL Z := usage "help" ;; mret 0.

Definition client_methods : list (Method ClWorld) :=
  let table name min max opts f := mkMethod name min max opts f (usage name) in
  [table "help"%string 0 0 OPT_NONE client_help;
   table "list-unit-files"%string 0 1 OPT_FILTER method_list_unit_files;
   table "is-enabled"%string 2 2 OPT_NONE method_is_enabled;
   table "list-units"%string 0 1 OPT_FILTER method_list_units;
   table "start"%string 2 2 OPT_NONE (method_start (ar_jobs a));
   table "stop"%string 2 2 OPT_NONE (method_stop (ar_jobs a));
   table "freeze"%string 2 2 OPT_NONE method_freeze;
   table "thaw"%string 2 2 OPT_NONE method_thaw;
   table "restart"%string 2 2 OPT_NONE (method_restart (ar_jobs a));
   table "reload"%string 2 2 OPT_NONE (method_reload (ar_jobs a));
   table "reset-failed"%string 0 ARG_ANY OPT_NONE method_reset_failed;
   table "kill"%string 2 2 (Z.lor OPT_KILL_WHOM OPT_SIGNAL) method_kill;
   table "monitor"%string 0 2 OPT_NONE (method_monitor (ar_monitor a));
   table "metrics"%string 1 1 OPT_NONE (method_metrics format_millis (ar_metrics a));
   table "enable"%string 2 ARG_ANY (Z.lor (Z.lor OPT_FORCE OPT_RUNTIME) OPT_NO_RELOAD) method_enable;
   table "disable"%string 2 ARG_ANY OPT_NO_RELOAD method_disable;
   table "daemon-reload"%string 1 1 OPT_NONE method_daemon_reload;
   table "status"%string 0 ARG_ANY OPT_WATCH (method_status (ar_units a) (ar_nodes a));
   table "set-loglevel"%string 1 2 OPT_NONE method_set_loglevel;
   table "get-default"%string 1 1 OPT_NONE method_get_default_target;
   table "set-default"%string 2 2 OPT_NONE method_set_default_target;
   table "version"%string 0 0 OPT_NONE client_version].

Definition client_main (args : getopt_result) : CL Z :=
  cli_main client_option_types (fun _ => cl_memory) client_methods (usage "help") client_open_sd_bus args.
End main.
