(* ===== verification/ClientTheorems.v ===== *)
(** What bluechictl does and prints: jobs, tables, status lines, and exit statuses. *)
From S2P Require Import Prelude CString StringUtil ParseUtil TimeUtil Protocol BusUtils Socket.
From S2P Require Import BusProps Log World Command Client ClientStatus ClientMonitor.
Local Open Scope list_scope.

(** ** Tables *)

Lemma strlen_repeat c n : strlen (string_of_list_ascii (repeat c n)) = n.
Proof. induction n as [|n IH]; cbn; [done|]. f_equal. exact IH. Qed.
Lemma strlen_pad width s : (strlen s <= width)%nat -> strlen (pad_right width s) = width.
Proof. intros H. unfold pad_right, spaces. rewrite strlen_app, strlen_repeat. lia. Qed.

Lemma column_width_fold cells : forall m, (0 <= m) ->
  m <= fold_left (fun m c => umaxl m (Z.of_nat (strlen c))) cells m /\
  forall c, c ∈ cells -> Z.of_nat (strlen c) <= fold_left (fun m c => umaxl m (Z.of_nat (strlen c))) cells m.
Proof.
  induction cells as [|c cells IH]; intros m Hm; cbn [fold_left].
  - split; [lia|]. by intros c ?%elem_of_nil.
  - rewrite umaxl_max. destruct (IH (Z.max m (Z.of_nat (strlen c)))) as [H1 H2]; [lia|].
    split; [lia|]. intros c' [->|Hc']%elem_of_cons; [lia|by apply H2].
Qed.
Lemma column_width_title title cells : (strlen title <= column_width title cells)%nat.
Proof.
  unfold column_width. pose proof (proj1 (column_width_fold cells (Z.of_nat (strlen title)) ltac:(lia))). lia.
Qed.
Lemma column_width_cell title cells c : c ∈ cells -> (strlen c <= column_width title cells)%nat.
Proof.
  intros Hc. unfold column_width.
  pose proof (proj2 (column_width_fold cells (Z.of_nat (strlen title)) ltac:(lia)) c Hc). lia.
Qed.

(** A line fits when every cell is at most as wide as its column. *)
Definition row_fits (columns : list (nat * string)) : Prop := Forall (fun x => (strlen (snd x) <= fst x)%nat) columns.
Fixpoint row_width (widths : list nat) : nat :=
  match widths with
  | [] => 0
  | [w] => w
  | w :: widths => w + 3 + row_width widths
  end.
Lemma strlen_row columns : row_fits columns ->
  strlen (fmt_row columns) = S (row_width (map fst columns)).
Proof.
  induction 1 as [|[w s] columns Hw Hc IH]; [done|]. cbn [fst snd] in Hw. cbn [fmt_row map fst row_width].
  destruct columns as [|x columns]; cbn [map].
  - rewrite strlen_app, strlen_pad by done. change (strlen nl) with 1%nat. cbn [row_width]. lia.
  - rewrite !strlen_app, strlen_pad by done. change (strlen col_sep) with 3%nat.
    cbn [map] in IH. rewrite IH. cbn [row_width]. lia.
Qed.

(** The decimal digits of a number. *)
Lemma fmt_go_length k : forall fuel n acc, 0 <= n < 10 ^ Z.of_nat (S k) ->
  (strlen (fmt_go fuel n acc) <= S k + strlen acc)%nat.
Proof.
  induction k as [|k IH]; intros [|fuel] n acc Hn; cbn [fmt_go]; [lia| |lia|].
  - rewrite (proj2 (Z.ltb_lt n 10)) by (cbn in Hn; lia). unfold strlen. cbn. lia.
  - destruct (n <? 10); [unfold strlen; cbn; lia|].
    etrans; [apply IH|unfold strlen; cbn; lia]. split; [apply Z.div_pos; lia|].
    apply Z.div_lt_upper_bound; [lia|]. rewrite (Nat2Z.inj_succ (S k)), Z.pow_succ_r in Hn by lia. lia.
Qed.
Lemma fmt_u_length n : 0 <= n < 2 ^ 64 -> (strlen (fmt_u n) <= 20)%nat.
Proof.
  intros Hn. unfold fmt_u. etrans; [apply (fmt_go_length 19)|unfold strlen; cbn; lia].
  split; [lia|]. assert (2 ^ 64 < 10 ^ Z.of_nat 20) by (by vm_compute). lia.
Qed.
Lemma fmt_columns_length widths : Forall (fun w => 0 <= w < 2 ^ 64) widths ->
  (strlen (fmt_columns widths) <= 26 * Datatypes.length widths + 1)%nat.
Proof.
  induction 1 as [|w widths Hw Hws IH]; [unfold strlen; cbn; lia|]. pose proof (fmt_u_length w Hw) as Hl.
  cbn [fmt_columns]. destruct widths as [|w' widths].
  - rewrite !strlen_app. change (strlen nl) with 1%nat. change (strlen "%-") with 2%nat.
    change (strlen "s") with 1%nat. cbn [Datatypes.length]. lia.
  - rewrite !strlen_app. change (strlen col_sep) with 3%nat. change (strlen "%-") with 2%nat.
    change (strlen "s") with 1%nat. cbn [Datatypes.length] in *. lia.
Qed.

(** ** What is printed *)

(** The state after printing lines to standard output. *)
Definition said (lines : list string) (w : ClWorld) : ClWorld :=
  w <| cl_output ::= fun o => o ++ map Stdout lines |>.
Lemma said_said l1 l2 w : said l2 (said l1 w) = said (l1 ++ l2) w.
Proof. unfold said. destruct w. cbn. by rewrite map_app, app_assoc. Qed.
Lemma said_nil w : said [] w = w.
Proof. unfold said. destruct w. cbn. by rewrite app_nil_r. Qed.
Lemma wp_printf s Q w : Q tt (said [s] w) -> wp (printf s) Q w.
Proof. done. Qed.
Lemma wp_print_filtered {A} (shown : A -> bool) (line : A -> string) (l : list A) Q : forall w,
  Q tt (said (map line (filter shown l)) w) ->
  wp (foreach l (fun a => if shown a then printf (line a) else mret tt)) Q w.
Proof.
  induction l as [|a l IH]; intros w HQ; cbn [foreach].
  - apply wp_ret. by rewrite said_nil in HQ.
  - apply wp_bind. rewrite filter_cons in HQ. destruct (shown a).
    + apply wp_printf, IH. by rewrite said_said.
    + apply wp_ret, IH. exact HQ.
Qed.

(** A table: the titles of its columns with what is shown in them. *)
Section table.
Context {I : Type} (columns : list (string * (I -> string))).
Definition widths (rows : list I) : list nat :=
  map (fun c => column_width (fst c) (map (snd c) rows)) columns.
Definition titles : list string := map fst columns.
Definition cells (row : I) : list string := map (fun c => snd c row) columns.
(** The title, the separator, and a line for each row that is shown. *)
Definition table_lines (shown : I -> bool) (rows : list I) : list string :=
  fmt_row (combine (widths rows) titles) :: (equals_line (row_width (widths rows)) ++ nl)%string ::
  map (fun r => fmt_row (combine (widths rows) (cells r))) (filter shown rows).

Lemma titles_fit rows : row_fits (combine (widths rows) titles).
Proof.
  unfold row_fits, widths, titles. induction columns as [|c cs IH]; cbn [map combine]; constructor; [|exact IH].
  cbn. apply column_width_title.
Qed.
Lemma cells_fit rows r : r ∈ rows -> row_fits (combine (widths rows) (cells r)).
Proof.
  intros Hr. unfold row_fits, widths, cells. induction columns as [|c cs IH]; cbn [map combine]; constructor; [|exact IH].
  cbn. by apply column_width_cell, list_elem_of_fmap_2.
Qed.
Lemma combine_widths {B} rows (f : string * (I -> string) -> B) :
  map fst (combine (widths rows) (map f columns)) = widths rows.
Proof. unfold widths. induction columns as [|c cs IH]; cbn; [done|]. by rewrite IH. Qed.
Lemma combine_titles rows : map fst (combine (widths rows) titles) = widths rows.
Proof. apply combine_widths. Qed.
Lemma combine_cells rows r : map fst (combine (widths rows) (cells r)) = widths rows.
Proof. apply combine_widths. Qed.
End table.

(** A line read back at the places where the columns begin. *)
Fixpoint cut_row (ws : list nat) (line : string) : list string :=
  match ws with
  | [] => []
  | w :: ws => str_take w line :: cut_row ws (str_drop (w + 3) line)
  end.
Lemma str_take_exact a b n : strlen a = n -> str_take n (a ++ b) = a.
Proof. intros <-. apply str_take_app_length. Qed.
Lemma str_drop_exact a b n : strlen a = n -> str_drop n (a ++ b) = b.
Proof. intros <-. apply str_drop_app_length. Qed.
Lemma cut_fmt_row columns : row_fits columns ->
  cut_row (map fst columns) (fmt_row columns) = map (fun x => pad_right (fst x) (snd x)) columns.
Proof.
  induction 1 as [|[w s] columns Hw Hc IH]; [done|]. cbn [fst snd] in Hw. cbn [map fst snd fmt_row cut_row].
  pose proof (strlen_pad w s Hw) as Hp. destruct columns as [|x columns].
  - cbn [map cut_row]. by rewrite str_take_exact.
  - f_equal; [by rewrite str_take_exact|]. rewrite <- IH. f_equal.
    rewrite str_app_assoc. apply str_drop_exact. by rewrite strlen_app, Hp.
Qed.

Definition unit_columns : list (string * (UnitInfo -> string)) :=
  [("NODE"%string, ui_node); ("ID"%string, ui_id); ("ACTIVE"%string, ui_active); ("SUB"%string, ui_sub)].
Definition unit_file_columns : list (string * (UnitFileInfo -> string)) :=
  [("NODE"%string, uf_node); ("PATH"%string, uf_path); ("IS-ENABLED"%string, uf_enablement)].

Lemma wp_print_unit_list_simple units glob Q w :
  Q tt (said (table_lines unit_columns (fun u => filtered glob (ui_id u)) units) w) ->
  wp (print_unit_list_simple units glob) Q w.
Proof.
  intros HQ. unfold print_unit_list_simple. apply wp_bind, wp_printf, wp_bind, wp_printf, wp_print_filtered.
  rewrite !said_said. revert HQ. unfold table_lines, widths, unit_columns. cbn [map fst snd row_width combine cells titles app].
  by rewrite !Nat.add_assoc.
Qed.
Lemma wp_print_unit_file_list_simple files glob Q w :
  Q tt (said (table_lines unit_file_columns (fun u => filtered glob (uf_path u)) files) w) ->
  wp (print_unit_file_list_simple files glob) Q w.
Proof.
  intros HQ. unfold print_unit_file_list_simple. apply wp_bind, wp_printf, wp_bind, wp_printf, wp_print_filtered.
  rewrite !said_said. revert HQ. unfold table_lines, widths, unit_file_columns. cbn [map fst snd row_width combine cells titles app].
  by rewrite !Nat.add_assoc.
Qed.

(** *** The answer *)

(** Reading succeeds throughout. *)
Definition items_ok {A} (m : items A) : Prop := 0 <= it_enter m /\ 0 <= it_end m /\ 0 <= it_leave m.
Definition node_ok {A} (n : node_items A) : Prop :=
  (exists name, ni_name n = ReadOk name) /\ items_ok (ni_items n) /\ 0 <= ni_leave n.
Definition node_rows {A I} (info : string -> A -> I) (n : node_items A) : list I :=
  match ni_name n with
  | ReadOk name => map (info name) (it_list (ni_items n))
  | ReadErr _ => []
  end.

Lemma wp_parse_list {E : ClientEnv} {A I} (info : string -> A -> I) m node l Q w :
  items_ok m -> Q (it_leave m, l ++ map (info node) (it_list m)) w -> wp (parse_list info m node l) Q w.
Proof.
  intros (H1 & H2 & H3) HQ. unfold parse_list. rewrite !(proj2 (Z.ltb_ge _ _)) by done. exact HQ.
Qed.
Lemma wp_parse_nodes {E : ClientEnv} {A I} (info : string -> A -> I) end_ Q nodes : forall acc w,
  0 <= end_ -> Forall node_ok nodes -> Q (inr (acc ++ mjoin (map (node_rows info) nodes))) w ->
  wp (parse_nodes (parse_list info) nodes end_ acc) Q w.
Proof.
  induction nodes as [|n nodes IH]; intros acc w Hend Hn HQ; cbn [parse_nodes].
  - rewrite (proj2 (Z.ltb_ge _ _)) by done. rewrite app_nil_r in HQ. exact HQ.
  - inversion Hn as [|? ? ((name & Hname) & Hi & Hl) Hn']; subst. cbn [map mjoin list_join] in HQ.
    unfold node_rows at 1 in HQ. rewrite Hname in *. apply wp_bind, wp_parse_list; [done|].
    rewrite (proj2 (Z.ltb_ge _ _)) by done. apply IH; [done..|]. cbn [snd]. by rewrite <- app_assoc.
Qed.

Section client.
Context {E : ClientEnv}.

(** The state after a call. *)
Definition called (path interface member : string) (args : list arg) (w : ClWorld) : ClWorld :=
  w <| cl_calls ::= fun l => l ++ [mkClientCall path interface member args] |>.
(** The number of the next call, and what it gives. *)
Definition next_call (w : ClWorld) : nat := Datatypes.length (cl_calls w).
Definition call_result (path interface member : string) (args : list arg) (w : ClWorld) : Z :=
  fst (cl_result (next_call w) (mkClientCall path interface member args)).

Lemma wp_call path interface member args Q w :
  (forall message, Q (next_call w, call_result path interface member args w, message)
                     (called path interface member args w)) ->
  wp (call_method path interface member args) Q w.
Proof.
  intros HQ. unfold call_method. apply wp_bind, wp_get, wp_bind, wp_modify. unfold wp. unfold call_result in HQ.
  unfold next_call in HQ. destruct (cl_result _ _) as [r message]. apply HQ.
Qed.
Lemma wp_call_controller member args failed k Q w :
  0 <= call_result BC_OBJECT_PATH CONTROLLER_INTERFACE member args w ->
  wp (k (next_call w)) Q (called BC_OBJECT_PATH CONTROLLER_INTERFACE member args w) ->
  wp (call_controller member args failed k) Q w.
Proof.
  intros Hr HQ. unfold call_controller. apply wp_bind, wp_call. intros message.
  by rewrite (proj2 (Z.ltb_ge _ _)).
Qed.

Lemma wp_list_on_all {R : ClientLists} {A I} member (info : string -> A -> I) reply print oom glob Q w :
  cl_memory = true ->
  0 <= call_result BC_OBJECT_PATH CONTROLLER_INTERFACE member [] w ->
  items_ok (reply (next_call w)) -> Forall node_ok (it_list (reply (next_call w))) ->
  wp (print (mjoin (map (node_rows info) (it_list (reply (next_call w))))) glob) (fun _ => Q 0)
    (called BC_OBJECT_PATH CONTROLLER_INTERFACE member [] w) ->
  wp (list_on_all member (parse_list info) reply print oom glob) Q w.
Proof.
  intros Hm Hr (H1 & H2 & H3) Hn HQ. unfold list_on_all. rewrite Hm. cbn [negb].
  apply wp_call_controller; [done|]. rewrite (proj2 (Z.ltb_ge _ _)) by done.
  apply wp_bind, wp_parse_nodes; [done..|]. apply wp_bind. exact HQ.
Qed.

(** A table is aligned, and [snprintf] has the room for its format string. *)
Definition aligned (ws : list nat) (lines : list string) (rows : list (list string)) : Prop :=
  Forall (fun line => strlen line = S (row_width ws)) lines /\
  Forall2 (fun line row => cut_row ws line = zip_with pad_right ws row) (drop 2 lines) rows /\
  (strlen (fmt_columns (map Z.of_nat ws)) < FMT_STR_MAX_LEN)%nat.

Lemma zip_pad (ws : list nat) cs : map (fun x => pad_right (fst x) (snd x)) (combine ws cs) = zip_with pad_right ws cs.
Proof. revert cs. induction ws as [|w ws IH]; intros [|c cs]; cbn; [done..|]. by rewrite IH. Qed.

Lemma table_aligned {I} columns (shown : I -> bool) rows :
  (0 < Datatypes.length columns <= 4)%nat -> Forall (fun w => Z.of_nat w < 2 ^ 64) (widths columns rows) ->
  aligned (widths columns rows) (table_lines columns shown rows) (map (cells columns) (filter shown rows)).
Proof.
  intros Hc Hw. unfold aligned, table_lines. split_and!.
  - constructor; [|constructor].
    + rewrite strlen_row, combine_titles by apply titles_fit. done.
    + unfold equals_line. rewrite strlen_app, strlen_repeat. change (strlen nl) with 1%nat. lia.
    + apply Forall_map, Forall_forall. intros r [_ Hr]%list_elem_of_filter.
      rewrite strlen_row, combine_cells by (by apply cells_fit). done.
  - cbn [drop]. apply Forall2_fmap, Forall_Forall2_diag, Forall_forall. intros r [_ Hr]%list_elem_of_filter.
    pose proof (cut_fmt_row _ (cells_fit columns rows r Hr)) as Hcut. rewrite combine_cells in Hcut.
    by rewrite Hcut, zip_pad.
  - pose proof (fmt_columns_length (map Z.of_nat (widths columns rows))) as Hl.
    rewrite length_map in Hl. unfold widths in Hl at 3. rewrite length_map in Hl. unfold FMT_STR_MAX_LEN.
    assert (Forall (fun w => 0 <= w < 2 ^ 64) (map Z.of_nat (widths columns rows))) as Hws; [|specialize (Hl Hws); lia].
    apply Forall_map. eapply Forall_impl; [exact Hw|]. intros x Hx. cbn in *. lia.
Qed.
End client.

Section lists.
Context {E : ClientEnv} {R : ClientLists}.
Variables (glob : option string) (w : ClWorld).
Hypothesis Hmemory : cl_memory = true.

(** The units in the answer to the next call, with their nodes. *)
Definition answered_units : list UnitInfo :=
  mjoin (map (node_rows unit_info) (it_list (reply_node_units (next_call w)))).
Definition answered_unit_files : list UnitFileInfo :=
  mjoin (map (node_rows unit_file_info) (it_list (reply_node_unit_files (next_call w)))).
Definition list_units_lines : list string :=
  table_lines unit_columns (fun u => filtered glob (ui_id u)) answered_units.
Definition list_unit_files_lines : list string :=
  table_lines unit_file_columns (fun u => filtered glob (uf_path u)) answered_unit_files.

(** [bluechictl list-units] and [list-unit-files] without a node: one call; from its
    answer the title, the separator, then the units of all the nodes, in the order of
    the answer, that match the glob. Every line is as long as the separator, every
    column begins at the same place in all lines and is wide enough for its cells, and
    the format built for the lines fits its buffer. *)
Theorem unit_tables_correct :
  (0 <= call_result BC_OBJECT_PATH CONTROLLER_INTERFACE "ListUnits" [] w ->
   items_ok (reply_node_units (next_call w)) -> Forall node_ok (it_list (reply_node_units (next_call w))) ->
   Forall (fun n => Z.of_nat n < 2 ^ 64) (widths unit_columns answered_units) ->
   wp (method_list_units_on_all glob) (fun r w' => r = 0 /\
     w' = said list_units_lines (called BC_OBJECT_PATH CONTROLLER_INTERFACE "ListUnits" [] w)) w /\
   aligned (widths unit_columns answered_units) list_units_lines
     (map (cells unit_columns) (filter (fun u => filtered glob (ui_id u)) answered_units))) /\
  (0 <= call_result BC_OBJECT_PATH CONTROLLER_INTERFACE "ListUnitFiles" [] w ->
   items_ok (reply_node_unit_files (next_call w)) ->
   Forall node_ok (it_list (reply_node_unit_files (next_call w))) ->
   Forall (fun n => Z.of_nat n < 2 ^ 64) (widths unit_file_columns answered_unit_files) ->
   wp (method_list_unit_files_on_all glob) (fun r w' => r = 0 /\
     w' = said list_unit_files_lines (called BC_OBJECT_PATH CONTROLLER_INTERFACE "ListUnitFiles" [] w)) w /\
   aligned (widths unit_file_columns answered_unit_files) list_unit_files_lines
     (map (cells unit_file_columns) (filter (fun u => filtered glob (uf_path u)) answered_unit_files))).
Proof.
  split; intros Hr Hi Hn Hw; (split; [|apply table_aligned; [cbn; lia|done]]); apply wp_list_on_all; try done.
  - by apply wp_print_unit_list_simple.
  - by apply wp_print_unit_file_list_simple.
Qed.
End lists.

(** ** Jobs *)

(** The unit and the result, if what a step of the bus delivers is the end of the job. *)
Definition job_end (job_path : string) (s : process_step) : option (string * string) :=
  match ps_signal s with
  | Some (ReadOk (_, path, _, unit, result)) => if streq job_path path then Some (unit, result) else None
  | _ => None
  end.
(** How waiting ends, if it does: with the end of the job, or with a failure of the bus. *)
Fixpoint job_wait (job_path : string) (steps : list process_step) : option (option (string * string)) :=
  match steps with
  | [] => None
  | s :: steps =>
      if ps_result s <? 0 then Some None else
      match job_end job_path s with
      | Some x => Some (Some x)
      | None => if negb (0 <? ps_result s) && (ps_wait s <? 0) then Some None else job_wait job_path steps
      end
  end.
(** What a signal that is waited for delivers. *)
Definition is_end (m : job_removed) (x : string * string) : Prop :=
  exists n path node, m = ReadOk (n, path, node, fst x, snd x).

(** Only to standard error something was printed. *)
Definition warned (w w' : ClWorld) : Prop :=
  exists errors, w' = w <| cl_output ::= fun o => o ++ map Stderr errors |>.
#[export] Instance warned_refl : Reflexive warned.
Proof. intros w. exists []. destruct w. cbn. by rewrite app_nil_r. Qed.
#[export] Instance warned_trans : Transitive warned.
Proof.
  intros w1 w2 w3 [e1 ->] [e2 ->]. exists (e1 ++ e2). destruct w1. cbn. by rewrite map_app, app_assoc.
Qed.
Lemma wp_eprintf s Q (w : ClWorld) : (forall w', warned w w' -> Q tt w') -> wp (eprintf s) Q w.
Proof. intros HQ. apply HQ. by exists [s]. Qed.

Section jobs.
Context {E : ClientEnv} (job_path : string).

(** The state while the job is waited for. *)
Definition waiting (w : ClWorld) : ClWorld := w <| cl_pending_job_name := Some job_path |>.

(** A step leaves its signal to be taken, if that is the end of the job. *)
Lemma wp_step_signal s w :
  wp (match ps_signal s with
      | Some m => _r ← match_job_removed_signal m; mret tt
      | None => mret tt
      end) (fun _ w' => exists w1, warned w w1 /\
        match job_end job_path s with
        | Some x => exists m, is_end m x /\ w' = waiting w1 <| cl_pending_job_result := Some m |>
        | None => w' = waiting w1
        end) (waiting w).
Proof.
  unfold job_end. destruct (ps_signal s) as [[r|[[[[n path] node] unit] result]]|]; [| |by exists w].
  - apply wp_bind, wp_bind, wp_get. cbn. apply wp_bind, wp_modify, wp_ret, wp_ret.
    exists (w <| cl_output ::= fun o => o ++ [Stderr ("Can't parse job result" ++ nl)] |>). split; [|done].
    by eexists [_].
  - apply wp_bind, wp_bind, wp_get. cbn. destruct (streq job_path path).
    + apply wp_bind, wp_modify, wp_ret, wp_ret. exists w. split; [done|]. eexists. split; [|done].
      by exists n, path, node.
    + by apply wp_ret, wp_ret; exists w.
Qed.

(** The calls are the same and only to standard error something was printed. *)
Definition quiet (w w' : ClWorld) : Prop :=
  cl_calls w' = cl_calls w /\ exists errors, cl_output w' = cl_output w ++ map Stderr errors.
Lemma warned_quiet w w1 w' : warned w w1 -> quiet w1 w' -> quiet w w'.
Proof.
  intros [e1 ->] (Hc & e2 & He). split; [by rewrite Hc|]. exists (e1 ++ e2). rewrite He. cbn.
  by rewrite map_app, app_assoc.
Qed.
Lemma quiet_waiting w w' : quiet (waiting w) w' -> quiet w w'.
Proof. done. Qed.

Definition waited_for (w : ClWorld) (res : option (string * string)) (r : option job_removed) (w' : ClWorld) : Prop :=
  quiet w w' /\ match res with Some x => exists m, r = Some m /\ is_end m x | None => r = None end.

(** [m] has the outcome [x]: it ends as described, or waits for more. *)
Definition ends_as {A X} (m : CL A) (x : option X) (Q : X -> A -> ClWorld -> Prop) (w : ClWorld) : Prop :=
  match x with
  | Some x => wp m (Q x) w
  | None => m w = Crash OutOfFuel
  end.
Lemma ends_as_mono {A X} (m : CL A) (x : option X) (Q Q' : X -> A -> ClWorld -> Prop) w :
  ends_as m x Q w -> (forall x a w', Q x a w' -> Q' x a w') -> ends_as m x Q' w.
Proof. destruct x; cbn; [|done]. intros H HQ. eapply wp_mono; [exact H|]. by apply HQ. Qed.
(** What comes before does not wait. *)
Lemma ends_as_bind {A B X} (m : CL A) (k : A -> CL B) (x : option X) Q w :
  wp m (fun a w' => ends_as (k a) x Q w') w -> ends_as (m ≫= k) x Q w.
Proof. unfold ends_as, wp, mbind, M_bind. destruct x, (m w); done. Qed.
(** What comes after does not, either. *)
Lemma ends_as_then {A B X} (m : CL A) (k : A -> CL B) (x : option X) P Q w :
  ends_as m x P w -> (forall x a w', P x a w' -> wp (k a) (Q x) w') -> ends_as (m ≫= k) x Q w.
Proof.
  unfold ends_as. destruct x; cbn; intros H HQ.
  - apply wp_bind. eapply wp_mono; [exact H|]. by apply HQ.
  - unfold mbind, M_bind. by rewrite H.
Qed.

Lemma wait_for_job_ends steps : forall w, cl_pending_job_result w = None ->
  ends_as (wait_for_job steps) (job_wait job_path steps) (waited_for w) (waiting w).
Proof.
  induction steps as [|s steps IH]; intros w Hw; [done|]. cbn [wait_for_job job_wait].
  apply ends_as_bind. eapply wp_mono; [apply wp_step_signal|]. intros [] w' (w1 & Hq & Hs).
  assert (forall w2 q, cl_calls w2 = cl_calls w1 -> cl_output w2 = cl_output w1 ++ map Stderr q -> quiet w w2)
    as Hw2 by (intros; eapply warned_quiet; [done|]; split; [done|]; by exists q).
  assert (ends_as (wait_for_job steps) (job_wait job_path steps) (waited_for w) (waiting w1)) as Hrest.
  { eapply ends_as_mono; [apply IH; destruct Hq as [? ->]; exact Hw|]. intros x r w2 [H1 H2]. split; [|done].
    by eapply warned_quiet. }
  assert (forall k w2, cl_calls w2 = cl_calls w1 -> cl_output w2 = cl_output w1 ->
    ends_as (eprintf k ;; mret None) (Some None) (waited_for w) w2) as Hfail.
  { intros k w2 Hc Ho. apply wp_bind, wp_modify, wp_ret. split; [|done].
    apply (Hw2 _ [k]); cbn; [done|]. by rewrite Ho. }
  destruct (ps_result s <? 0).
  { apply Hfail; by destruct (job_end job_path s); [destruct Hs as (m & _ & ->)|subst w']. }
  apply ends_as_bind, wp_get. destruct (job_end job_path s) as [x|].
  - destruct Hs as (m & Hm & ->). cbn. apply wp_bind, wp_modify, wp_ret. split; [|by exists m].
    apply (Hw2 _ []); cbn; [done|]. by rewrite app_nil_r.
  - subst w'. change (cl_pending_job_result (waiting w1)) with (cl_pending_job_result w1).
    assert (cl_pending_job_result w1 = None) as -> by (destruct Hq as [e ->]; exact Hw).
    destruct (0 <? ps_result s); [exact Hrest|]. cbn [negb andb].
    destruct (ps_wait s <? 0); [by apply Hfail|exact Hrest].
Qed.
End jobs.

Section lifecycle.
Context {E : ClientEnv}.

Lemma wp_node_object_path node r path Q w :
  assemble_object_path_string cl_memory cl_memory NODE_OBJECT_PATH_PREFIX node = (r, Some path) -> 0 <= r ->
  Q (inr path) (w <| cl_object_path := Some path |>) -> wp (node_object_path node) Q w.
Proof.
  intros Hp Hr HQ. unfold node_object_path. rewrite Hp. apply wp_bind, wp_modify.
  rewrite (proj2 (Z.ltb_ge _ _)) by done. exact HQ.
Qed.
Lemma wp_match_signal path member Q w :
  Q (cl_match_result (Datatypes.length (cl_matches w))) (w <| cl_matches ::= fun l => l ++ [(path, member)] |>) ->
  wp (match_signal path member) Q w.
Proof. intros HQ. apply wp_bind, wp_get, wp_bind, wp_modify, wp_ret, HQ. Qed.

(** C28. Starting, stopping, restarting or reloading a unit with bluechictl: one call to the
    node, in the mode "replace"; then the end of exactly the job in the answer is waited
    for, whatever else arrives. It is printed last, and the method succeeds whatever the
    result of the job is; if the bus fails before, it returns -EIO. *)
Theorem lifecycle_action_correct steps node unit method r path job w :
  assemble_object_path_string cl_memory cl_memory NODE_OBJECT_PATH_PREFIX node = (r, Some path) -> 0 <= r ->
  cl_pending_job_name w = None -> cl_pending_job_result w = None ->
  0 <= cl_match_result (Datatypes.length (cl_matches w)) ->
  0 <= call_result path NODE_INTERFACE method [ArgString unit; ArgString "replace"] w ->
  reply_string (next_call w) = ReadOk job ->
  ends_as (method_lifecycle_action_on steps node unit method) (job_wait job steps) (fun x r w' =>
    cl_calls w' = cl_calls w ++ [mkClientCall path NODE_INTERFACE method [ArgString unit; ArgString "replace"]] /\
    exists errors, cl_output w' = cl_output w ++ map Stderr errors ++
      match x with
      | Some (u, result) => [Stdout ("Unit " ++ u ++ " " ++ method ++ " operation result: " ++ result ++ nl)]
      | None => []
      end%string /\
      r = match x with Some _ => 1 | None => - EIO end) w.
Proof.
  intros Hp Hr Hname Hres Hmatch Hcall Hreply. unfold method_lifecycle_action_on.
  apply ends_as_bind. eapply wp_node_object_path; [done..|].
  apply ends_as_bind, wp_match_signal. rewrite (proj2 (Z.ltb_ge _ _)) by exact Hmatch.
  apply ends_as_bind, wp_call. intros message. rewrite (proj2 (Z.ltb_ge _ _)) by exact Hcall.
  change (next_call _) with (next_call w). rewrite Hreply.
  eapply ends_as_then.
  - unfold client_wait_for_job. apply ends_as_bind, wp_get, ends_as_bind, wp_assert; [|].
    { cbn. by rewrite Hname. }
    apply ends_as_bind, wp_modify. apply wait_for_job_ends. exact Hres.
  - intros x res w' [[Hc [errors Ho]] Hx]. cbn in Hc, Ho. destruct x as [[u result]|].
    + destruct Hx as (m & -> & n & p & nd & ->). cbn [fst snd]. apply wp_bind, wp_printf, wp_ret.
      split; [exact Hc|]. exists errors. cbn. by rewrite Ho, app_assoc.
    + subst res. apply wp_ret. split; [exact Hc|]. exists errors. by rewrite app_nil_r.
Qed.
End lifecycle.

(** ** Rows of units *)

Section units.
Context {E : ClientEnv}.

Lemma wp_down_by_tabs i text Q (w : ClWorld) : 0 <= i ->
  Q tt (said (repeat text (Z.to_nat (i / PRINT_TAB_SIZE))) w) ->
  wp (down_by_tabs PRINT_TAB_SIZE i text) Q w.
Proof.
  unfold down_by_tabs. intros Hi HQ. remember (Z.to_nat (i / PRINT_TAB_SIZE)) as n eqn:Hn.
  unfold PRINT_TAB_SIZE in *. revert i w Hi Hn HQ. induction n as [|n IH]; intros i w Hi Hn HQ.
  - cbn [tab_loop]. pose proof (Z.div_mod i 8 ltac:(lia)). pose proof (Z.mod_pos_bound i 8 ltac:(lia)).
    pose proof (Z.div_pos i 8 Hi ltac:(lia)).
    rewrite (proj2 (Z.leb_gt _ _)) by lia. apply wp_ret. cbn [repeat] in HQ. by rewrite said_nil in HQ.
  - remember (S n) as fuel eqn:Hf. cbn [tab_loop]. pose proof (Z.div_mod i 8 ltac:(lia)).
    pose proof (Z.mod_pos_bound i 8 ltac:(lia)). rewrite (proj2 (Z.leb_le _ _)) by lia.
    apply wp_bind, wp_printf. subst fuel. apply (IH (i - 8)).
    + lia.
    + replace (i - 8) with (i + (-1) * 8) by lia. rewrite Z.div_add by lia. lia.
    + by rewrite said_said.
Qed.

(** A state with the bar before it and the tabs after it. *)
Definition state_cell (x : option string) : list string :=
  ("| " ++ default "(null)" x ++ tab)%string ::
  match x with
  | Some s => if (strlen s <? 6)%nat then [tab] else []
  | None => []
  end.
Lemma wp_print_and_align x Q (w : ClWorld) : Q tt (said (state_cell x) w) -> wp (print_and_align x) Q w.
Proof.
  intros HQ. apply wp_bind, wp_printf. unfold state_cell in HQ. destruct x as [s|]; [|exact HQ].
  destruct (strlen s <? 6)%nat; [|exact HQ]. apply wp_printf. by rewrite said_said.
Qed.

(** C36. A row of [bluechictl status]: the identifier of the unit, the tabs that lead to the
    first state, the five states and the last bar. If the identifier is at most a tab
    longer than the column, which is as wide as the longest name that was asked for,
    the tabs fill up the column. If it is longer still, as the one of a unit that was
    asked for by an alias can be, the size_t wraps around: at least 2^60 tabs. *)
Theorem unit_row_tabs u name width w :
  id u = Some name -> load_state u <> Some "not-found"%string ->
  0 <= width < 2 ^ 63 -> Z.of_nat (strlen name) < 2 ^ 63 ->
  let rest := width - Z.of_nat (strlen name) + PRINT_TAB_SIZE in
  wp (print_unit_info u width) (fun _ w' => exists tabs,
    w' = said (name :: repeat tab tabs ++
      mjoin (map state_cell [load_state u; active_state u; sub_state u; freezer_state u; unit_file_state u]) ++
      ["|" ++ nl]%string) w /\
    if 0 <=? rest then Z.of_nat tabs = rest / PRINT_TAB_SIZE else 2 ^ 60 <= Z.of_nat tabs) w.
Proof.
  intros Hid Hload Hwidth Hname rest. unfold print_unit_info.
  replace (match load_state u with Some s => streq s "not-found" | None => false end) with false; cycle 1.
  { destruct (load_state u) as [s|]; [|done]. destruct (streq s "not-found") eqn:Hs; [|done].
    apply streq_true in Hs. congruence. }
  rewrite Hid. change (default ""%string (Some name)) with name. apply wp_bind, wp_printf, wp_bind.
  set (i := u64 (u64 (width - Z.of_nat (strlen name)) + PRINT_TAB_SIZE)).
  assert (i = rest mod 2 ^ 64) as Hi by (unfold i, u64, rest; by rewrite Zplus_mod_idemp_l).
  clearbody i. pose proof (Z.mod_pos_bound rest (2 ^ 64) ltac:(lia)) as Hb. rewrite <- Hi in Hb.
  apply wp_down_by_tabs; [lia|]. do 5 apply wp_bind, wp_print_and_align. apply wp_printf.
  exists (Z.to_nat (i / PRINT_TAB_SIZE)). rewrite !said_said. cbn [map mjoin list_join]. split.
  { f_equal. rewrite app_nil_r, <- !app_assoc. reflexivity. }
  pose proof (Z.div_pos i PRINT_TAB_SIZE ltac:(lia) ltac:(done)) as Hd. rewrite Z2Nat.id by done.
  unfold PRINT_TAB_SIZE in *. destruct (Z.leb_spec 0 rest).
  - rewrite Hi, Z.mod_small by lia. done.
  - apply Z.div_le_lower_bound; [lia|]. rewrite Hi.
    rewrite <- (Z_mod_plus_full rest 1), Z.mod_small by lia. lia.
Qed.
End units.

(** ** Failures *)

Section failures.
Context {E : ClientEnv}.

(** Calls that were made, and only errors printed. *)
Definition called_only (calls : list client_call) (w w' : ClWorld) : Prop :=
  cl_calls w' = cl_calls w ++ calls /\ exists errors, cl_output w' = cl_output w ++ map Stderr errors.

Lemma wp_build_message step Q w : Q (cl_build (next_call w) step) w -> wp (build_message step) Q w.
Proof. done. Qed.
Lemma wp_create_message node r path Q w :
  assemble_object_path_string cl_memory cl_memory NODE_OBJECT_PATH_PREFIX node = (r, Some path) -> 0 <= r ->
  0 <= cl_build (next_call w) 0 -> Q (inr path) (w <| cl_object_path := Some path |>) ->
  wp (client_create_message_new_method_call node) Q w.
Proof.
  intros Hp Hr Hb HQ. apply wp_bind, wp_modify, wp_bind. eapply wp_node_object_path; [done..|].
  apply wp_bind, wp_build_message. rewrite (proj2 (Z.ltb_ge _ _)) by exact Hb. apply wp_ret. exact HQ.
Qed.
Lemma wp_append_args step text Q w :
  0 <= cl_build (next_call w) step -> Q 0 w -> wp (append_args step text) Q w.
Proof.
  intros Hb HQ. apply wp_bind, wp_build_message. by rewrite (proj2 (Z.ltb_ge _ _)).
Qed.
Lemma wp_append_units text Q w :
  cl_memory = true -> (forall step, 0 <= cl_build (next_call w) step) -> Q 0 w -> wp (append_units text) Q w.
Proof.
  intros Hm Hb HQ. unfold append_units, add_string_array_to_message. rewrite Hm. cbn [negb].
  apply wp_bind, wp_append_args; [apply Hb|]. apply wp_bind, wp_ret, wp_append_args; [apply Hb|done].
Qed.

Lemma wp_send_call_failed node member text args k p path r w :
  cl_memory = true -> (forall step, 0 <= cl_build (next_call w) step) ->
  assemble_object_path_string cl_memory cl_memory NODE_OBJECT_PATH_PREFIX node = (p, Some path) -> 0 <= p ->
  call_result path NODE_INTERFACE member args w = r -> r < 0 ->
  wp (send_call node member (append_units text) args k) (fun r' w' =>
    r' = r /\ called_only [mkClientCall path NODE_INTERFACE member args] w w') w.
Proof.
  intros Hm Hb Hp H0 Hr Hneg. unfold send_call. apply wp_bind. eapply wp_create_message; [done..|].
  apply wp_bind, wp_append_units; [done|exact Hb|]. apply wp_bind, wp_call. intros message.
  replace (call_result _ _ _ _ _) with r. rewrite (proj2 (Z.ltb_lt _ _)) by done.
  apply wp_bind, wp_modify, wp_ret. split; [done|]. split; [done|]. by eexists [_].
Qed.
Lemma wp_daemon_reload command node units p path w :
  cmd_opargv command = node :: units ->
  assemble_object_path_string cl_memory cl_memory NODE_OBJECT_PATH_PREFIX node = (p, Some path) -> 0 <= p ->
  0 <= call_result path NODE_INTERFACE "Reload" [] w ->
  wp (method_daemon_reload command) (fun r w' =>
    r = 0 /\ called_only [mkClientCall path NODE_INTERFACE "Reload" []] w w') w.
Proof.
  intros Ho Hp H0 Hr. unfold method_daemon_reload, on_node, opargv. rewrite Ho. cbn [lookup list_lookup].
  apply wp_bind, wp_ret. unfold method_daemon_reload_on, call_node. apply wp_bind.
  eapply wp_node_object_path; [done..|]. apply wp_bind, wp_call. intros message.
  rewrite (proj2 (Z.ltb_ge _ _)) by exact Hr. apply wp_ret. split; [done|]. split; [done|]. exists [].
  by rewrite app_nil_r.
Qed.

(** A node refuses to enable or to disable units. [bluechictl enable] fails with the
    error and does nothing more. [bluechictl disable] reloads the node in spite of it,
    unless that was excluded, and succeeds if the reload does: the failure is lost. *)
Theorem enable_disable_refused command node units p path r w :
  cl_memory = true -> (forall step, 0 <= cl_build (next_call w) step) ->
  cmd_opargv command = node :: units ->
  assemble_object_path_string cl_memory cl_memory NODE_OBJECT_PATH_PREFIX node = (p, Some path) -> 0 <= p ->
  r < 0 ->
  let runtime := command_flag_exists command ARG_RUNTIME_SHORT in
  let force := command_flag_exists command ARG_FORCE_SHORT in
  let no_reload := command_flag_exists command ARG_NO_RELOAD_SHORT in
  let enable := mkClientCall path NODE_INTERFACE "EnableUnitFiles" [ArgStrings units; ArgBool runtime; ArgBool force] in
  let disable := mkClientCall path NODE_INTERFACE "DisableUnitFiles" [ArgStrings units; ArgBool runtime] in
  let reload := mkClientCall path NODE_INTERFACE "Reload" [] in
  fst (cl_result (next_call w) enable) = r -> fst (cl_result (next_call w) disable) = r ->
  0 <= fst (cl_result (S (next_call w)) reload) ->
  wp (method_enable command) (fun r' w' => r' = r /\ called_only [enable] w w') w /\
  wp (method_disable command) (fun r' w' =>
    r' = (if no_reload then r else 0) /\
    called_only (if no_reload then [disable] else [disable; reload]) w w') w.
Proof.
  intros Hm Hb Ho Hp H0 Hneg runtime force no_reload enable disable reload He Hd Hreload.
  assert (forall text w1 w2 calls, called_only calls w w1 ->
    w2 = w1 <| cl_output ::= fun o => o ++ [Stderr text] |> -> called_only calls w w2) as Herr.
  { intros text w1 w2 calls [Hc [e Ho1]] ->. split; [exact Hc|]. exists (e ++ [text]). cbn.
    by rewrite Ho1, map_app, app_assoc. }
  unfold method_enable, method_disable, opargv. rewrite Ho. cbn [lookup list_lookup drop].
  split; (apply wp_bind, wp_ret, wp_bind; eapply wp_mono; [by eapply wp_send_call_failed|]);
    intros r' w1 [-> Hw1]; rewrite (proj2 (Z.ltb_lt _ _)) by done; apply wp_bind, wp_modify.
  - apply wp_ret. split; [done|]. by eapply Herr.
  - fold no_reload. destruct no_reload; cbn [negb].
    + apply wp_ret. split; [done|]. by eapply Herr.
    + eapply wp_mono; [eapply wp_daemon_reload; [done..|]|].
      * unfold call_result, next_call. cbn. destruct Hw1 as [-> _]. rewrite length_app, Nat.add_1_r. exact Hreload.
      * intros r' w' [-> [Hc [e2 Ho2]]]. split; [done|]. destruct Hw1 as [Hc1 [e1 Ho1]]. split.
        { rewrite Hc. cbn. by rewrite Hc1, <- app_assoc. }
        { eexists (e1 ++ [_] ++ e2). rewrite Ho2. cbn. rewrite Ho1, map_app, <- !app_assoc. reflexivity. }
Qed.
End failures.

(** ** Runs *)

(** Every call succeeds but the ones that enable and disable units. *)
#[local] Instance sample_client : ClientEnv := {|
  cl_errors := fun _ => "error"%string;
  cl_memory := true;
  cl_open := 0;
  cl_result := fun _ c =>
    if String.eqb (cc_member c) "DisableUnitFiles" || String.eqb (cc_member c) "EnableUnitFiles"
    then (-5, "refused")%string else (1, "")%string;
  cl_build := fun _ _ => 0;
  cl_match_result := fun _ => 0;
  cl_loop_setup := fun _ => 0;
  reply_string := fun _ => ReadOk "/org/eclipse/bluechi/job/7"%string;
  reply_number := fun _ => ReadOk 0;
  reply_flag := fun _ => ReadOk true;
  reply_triples := fun _ => mkItems 1 [] 0 1;
  reply_nodes := fun _ => mkItems 1 [] 0 1;
|}.
Definition sample_unit (id active sub : string) : unit_struct :=
  (id, "", "loaded", active, sub, "", "/", 0, "", "/")%string.
#[local] Instance sample_lists : ClientLists := {|
  reply_units := fun _ => mkItems 1 [] 0 1;
  reply_unit_files := fun _ => mkItems 1 [] 0 1;
  reply_node_units := fun _ => mkItems 1
    [mkNodeItems (ReadOk "laptop"%string) (mkItems 1 [sample_unit "a.service" "active" "running"; sample_unit "b.mount" "inactive" "dead"] 0 1) 1;
     mkNodeItems (ReadOk "pi"%string) (mkItems 1 [sample_unit "long-name.service" "failed" "failed"] 0 1) 1] 0 1;
  reply_node_unit_files := fun _ => mkItems 1
    [mkNodeItems (ReadOk "pi"%string) (mkItems 1 [("/etc/a.service", "enabled")]%string 0 1) 1] 0 1;
|}.
Definition sample_cl : ClWorld := mkClWorld [] [] None None None [] [].
Definition sample_node_path : string := "/org/eclipse/bluechi/node/laptop".

Lemma sample_nodes_ok : Forall node_ok (it_list (reply_node_units 0)).
Proof. repeat (apply Forall_cons; split); [..|apply Forall_nil; done]; (split; [by eexists|by vm_compute]). Qed.
Lemma sample_file_nodes_ok : Forall node_ok (it_list (reply_node_unit_files 0)).
Proof. repeat (apply Forall_cons; split); [..|apply Forall_nil; done]; (split; [by eexists|by vm_compute]). Qed.

Lemma unit_tables_correct_witness :
  wp (method_list_units_on_all (Some "*.service"%string)) (fun r w' => r = 0 /\ cl_output w' = map Stdout
    ["NODE   | ID                | ACTIVE   | SUB    " ++ nl;
     "===============================================" ++ nl;
     "laptop | a.service         | active   | running" ++ nl;
     "pi     | long-name.service | failed   | failed " ++ nl]%string) sample_cl /\
  wp (method_list_unit_files_on_all None) (fun r w' => r = 0 /\ cl_output w' = map Stdout
    ["NODE | PATH           | IS-ENABLED" ++ nl;
     "==================================" ++ nl;
     "pi   | /etc/a.service | enabled   " ++ nl]%string) sample_cl.
Proof.
  split.
  - eapply wp_mono; [refine (proj1 (proj1 (unit_tables_correct (E := sample_client) (R := sample_lists)
      (Some "*.service"%string) sample_cl eq_refl) _ _ sample_nodes_ok _))|].
    + by vm_compute.
    + by vm_compute.
    + by apply (bool_decide_unpack _); vm_compute.
    + intros r w' [-> ->]. split; [done|]. by vm_compute.
  - eapply wp_mono; [refine (proj1 (proj2 (unit_tables_correct (E := sample_client) (R := sample_lists)
      None sample_cl eq_refl) _ _ sample_file_nodes_ok _))|].
    + by vm_compute.
    + by vm_compute.
    + by apply (bool_decide_unpack _); vm_compute.
    + intros r w' [-> ->]. split; [done|]. by vm_compute.
Defined.


(** The job of another request ends first; the job that is waited for fails. *)
Definition sample_steps : list process_step :=
  [mkProcessStep None 0 0;
   mkProcessStep (Some (ReadOk (3, "/org/eclipse/bluechi/job/3", "pi", "b.service", "done")%string)) 1 0;
   mkProcessStep (Some (ReadOk (7, "/org/eclipse/bluechi/job/7", "laptop", "a.service", "failed")%string)) 1 0].

Lemma lifecycle_action_correct_witness :
  wp (method_lifecycle_action_on sample_steps "laptop" "a.service" "StartUnit") (fun r w' => r = 1 /\
    exists errors, cl_output w' = map Stderr errors ++
      [Stdout ("Unit a.service StartUnit operation result: failed" ++ nl)]%string) sample_cl.
Proof.
  pose proof (lifecycle_action_correct (E := sample_client) sample_steps "laptop" "a.service" "StartUnit"
    (fst (assemble_object_path_string true true NODE_OBJECT_PATH_PREFIX "laptop")) sample_node_path
    "/org/eclipse/bluechi/job/7" sample_cl ltac:(by vm_compute) ltac:(by vm_compute) eq_refl eq_refl
    ltac:(by vm_compute) ltac:(by vm_compute) eq_refl) as H.
  change (job_wait _ _) with (Some (Some ("a.service", "failed")%string)) in H.
  unfold ends_as in H. refine (wp_mono _ _ _ _ H _). intros r w' (_ & e & Ho & Hr). split; [exact Hr|]. by exists e.
Defined.

(** A unit that was asked for by a short alias, and its long identifier. *)
Definition sample_row (name : string) : unit_info_t :=
  mkUnitInfoT (Some name) (Some "loaded"%string) (Some "active"%string) None (Some "running"%string) None.

Lemma unit_row_tabs_witness :
  wp (print_unit_info (sample_row "a.service") 20) (fun _ w' => exists rest,
    cl_output w' = map Stdout (["a.service"; tab; tab]%string ++ rest)) sample_cl /\
  wp (print_unit_info (sample_row "a-much-longer-name.service") 9) (fun _ w' => exists tabs rest,
    2 ^ 60 <= Z.of_nat tabs /\
    cl_output w' = map Stdout ("a-much-longer-name.service"%string :: repeat tab tabs ++ rest)) sample_cl.
Proof.
  split.
  - refine (wp_mono _ _ _ _ (unit_row_tabs (sample_row "a.service") "a.service" 20 sample_cl eq_refl
      ltac:(done) ltac:(by vm_compute) ltac:(by vm_compute)) _).
    intros _ w' (tabs & -> & Ht). assert (Z.of_nat tabs = 2) as Ht2 by exact Ht. assert (tabs = 2%nat) as -> by lia. by eexists.
  - refine (wp_mono _ _ _ _ (unit_row_tabs (sample_row "a-much-longer-name.service") "a-much-longer-name.service"
      9 sample_cl eq_refl ltac:(done) ltac:(by vm_compute) ltac:(by vm_compute)) _).
    intros _ w' (tabs & -> & Ht). exists tabs. eexists. split; [exact Ht|]. reflexivity.
Defined.

Lemma enable_disable_refused_witness :
  let command := mkCommand (Some "disable"%string) ["laptop"; "a.service"]%string false [] in
  wp (method_enable command) (fun r _ => r = -5) sample_cl /\
  wp (method_disable command) (fun r w' => r = 0 /\ Datatypes.length (cl_calls w') = 2%nat) sample_cl.
Proof.
  intros command.
  destruct (enable_disable_refused (E := sample_client) command "laptop" ["a.service"%string]
    (fst (assemble_object_path_string true true NODE_OBJECT_PATH_PREFIX "laptop")) sample_node_path (-5) sample_cl
    eq_refl (fun _ => Z.le_refl 0) eq_refl eq_refl ltac:(by vm_compute) eq_refl eq_refl eq_refl ltac:(by vm_compute)) as [He Hd].
  split.
  - eapply wp_mono; [exact He|]. by intros r w' [-> _].
  - eapply wp_mono; [exact Hd|]. intros r w' [-> [-> _]]. done.
Defined.
