(* ===== verification/SettingsFacts.v ===== *)
(** Settings and the configuration: which texts are accepted, the value that is chosen among
    those of the command line, of the configuration and the default, and that no function
    on the configuration crashes, whatever allocation fails. *)
From S2P Require Import Prelude CString StringUtil ParseUtil TimeUtil.
From S2P Require Import Protocol Log Cfg.

(** The value of a setting: the text that is given, parsed, or the old one. *)
Definition chosen {T} (value : option string) (parse : string -> option T) (old : T) : option T :=
  match value with
  | Some s => parse s
  | None => Some old
  end.
(** No text, or one that can be parsed. *)
Definition accepts {T} (parse : string -> option T) (value : option string) : bool :=
  match value with
  | Some s => bool_decide (is_Some (parse s))
  | None => true
  end.

Lemma accepts_some v : accepts (T := string) Some v = true.
Proof. destruct v; [|done]. apply bool_decide_eq_true. by eexists. Qed.
Lemma accepts_u64 v : accepts (fun s => u64 <$> parse_long (Some s)) v = accepts (fun s => parse_long (Some s)) v.
Proof.
  destruct v as [s|]; cbn; [|done]. apply bool_decide_ext. by rewrite fmap_is_Some.
Qed.

(** The value of a setting: of the command line, else of the configuration, else the old one. *)
Definition prefers {T} (parse : string -> option T) (option config : option string) (old new : T) : Prop :=
  Some new = chosen (option ∪ config) parse old.
Lemma chosen_twice {T} (parse : string -> option T) option config (old mid new : T) :
  Some mid = chosen config parse old -> Some new = chosen option parse mid -> prefers parse option config old new.
Proof. unfold prefers, chosen. destruct option, config; cbn; congruence. Qed.
Lemma chosen_once {T} (parse : string -> option T) config (old new : T) :
  Some new = chosen config parse old -> prefers parse None config old new.
Proof. unfold prefers. by destruct config. Qed.

Lemma accepts_chosen {T} (parse : string -> option T) v old :
  accepts parse v = bool_decide (is_Some (chosen v parse old)).
Proof. by destruct v. Qed.

Local Open Scope list_scope.

(** The configuration functions end, whatever fails. *)
Definition total {A} (m : M nat A) : Prop := forall k, wp m (fun _ _ => True) k.
Lemma total_ret {A} (a : A) : total (mret a).
Proof. done. Qed.
Lemma total_bind {A B} (m : M nat A) (f : A -> M nat B) : total m -> (forall a, total (f a)) -> total (m ≫= f).
Proof. intros Hm Hf k. apply wp_bind. eapply wp_mono; [apply Hm|]. intros a k' _. apply Hf. Qed.
Create HintDb total discriminated.
#[export] Hint Resolve total_ret : total.
Ltac total_tac := repeat first [ solve [auto 3 with total] | apply total_bind; [|intros ?] | case_match ].

Section config.
Context {CE : CfgEnv}.
Lemma total_alloc : total alloc.
Proof. done. Qed.
Hint Resolve total_alloc : total.
Lemma total_initialize : total cfg_initialize.
Proof. unfold cfg_initialize. total_tac. Qed.
Lemma total_set_default_section c s : total (cfg_set_default_section c s).
Proof. unfold cfg_set_default_section. total_tac. Qed.
Lemma total_s_set_value c s n v : total (cfg_s_set_value c s n v).
Proof. unfold cfg_s_set_value. total_tac. Qed.
Hint Resolve total_initialize total_set_default_section total_s_set_value : total.
Lemma total_set_value c n v : total (cfg_set_value c n v).
Proof. unfold cfg_set_value. auto with total. Qed.
Hint Resolve total_set_value : total.
Lemma total_set_values l : forall c, total (set_values c l).
Proof. induction l as [|[n v] l IH]; intros c; cbn [set_values]; total_tac. Qed.
Hint Resolve total_set_values : total.
Lemma total_agent_def_conf c : total (cfg_agent_def_conf c).
Proof. unfold cfg_agent_def_conf, cfg_def_conf. total_tac. Qed.
Lemma total_handler c s n v : total (parsing_handler c s n v).
Proof. unfold parsing_handler. total_tac. Qed.
Hint Resolve total_agent_def_conf total_handler : total.
Lemma total_run_handler l : forall c, total (run_handler c l).
Proof. induction l as [|[[s n] v] l IH]; intros c; cbn [run_handler]; total_tac. Qed.
Hint Resolve total_run_handler : total.
Lemma total_copy_entries src keys : forall dst, total (copy_entries src dst keys).
Proof. induction keys as [|[s n] l IH]; intros c; cbn [copy_entries]; total_tac. Qed.
Hint Resolve total_copy_entries : total.
Lemma total_load_from_file c f : total (cfg_load_from_file c f).
Proof. unfold cfg_load_from_file, ini_parse, cfg_copy_overwrite. total_tac. Qed.
Hint Resolve total_load_from_file : total.
Lemma total_load_files dir files : forall c r, total (load_files c dir r files).
Proof. induction files as [|f l IH]; intros c r; cbn [load_files]; total_tac. Qed.
Hint Resolve total_load_files : total.
Lemma total_load_from_dir c d : total (cfg_load_from_dir c d).
Proof. unfold cfg_load_from_dir. total_tac. Qed.
Lemma total_load_env_vars vars : forall c, total (load_env_vars c vars).
Proof. induction vars as [|[e n] l IH]; intros c; cbn [load_env_vars]; total_tac. Qed.
Hint Resolve total_load_from_dir total_load_env_vars : total.
Lemma total_load_complete c d f dir cli : total (cfg_load_complete_configuration c d f dir cli).
Proof. unfold cfg_load_complete_configuration, cfg_load_from_env. total_tac. Qed.
Hint Resolve total_load_complete : total.
Lemma total_controller_def_conf c : total (cfg_controller_def_conf c).
Proof. unfold cfg_controller_def_conf, cfg_def_conf. total_tac. Qed.

Lemma total_list_sections c : total (cfg_list_sections c).
Proof. unfold cfg_list_sections. total_tac. Qed.
Lemma total_printf b s : total (Cfg.printf b s).
Proof. unfold Cfg.printf. total_tac. Qed.
Hint Resolve total_list_sections total_printf : total.
Lemma total_dump_options c s keys : forall b, total (dump_options c s keys b).
Proof. induction keys as [|[k n] l IH]; intros b; cbn [dump_options]; total_tac. Qed.
Hint Resolve total_dump_options : total.
Lemma total_dump_sections c sections : forall first b, total (dump_sections c first sections b).
Proof. induction sections as [|s l IH]; intros first b; cbn [dump_sections]; total_tac. Qed.
Hint Resolve total_dump_sections : total.
Lemma total_dump c : total (cfg_dump c).
Proof. unfold cfg_dump. total_tac. Qed.
End config.
#[export] Hint Resolve total_initialize total_agent_def_conf total_controller_def_conf total_load_complete
  total_list_sections total_dump : total.
