(* ===== verification/Listeners.v ===== *)
(** controller/controller.c: the sockets on which the controller waits for its agents, one
    handed over by systemd, a TCP socket and a Unix socket, and the event sources that
    watch and own them; which descriptors the set-up leaves open, and that none is left
    when the controller is dropped. *)
From S2P Require Import Prelude CString StringUtil ParseUtil Protocol Socket World.
From S2P Require Import Log Cfg SocketTheorems.
Local Open Scope list_scope.

(** The calls on event sources. sd_event_add_io makes the source. *)
Inductive source_call :=
| IoAdd (source : ptr) (fd : Z)
| IoSetFdOwn (source : ptr)
| IoSetDescription (source : ptr) (description : string)
| IoUnref (source : ptr).

Record ListenWorld := mkListenWorld {
  lw_sys : syscalls;
  lw_calls : list (source_call * Z);          (* with their results *)
  lw_next : ptr;                              (* the next event source *)
  node_connection_tcp_socket_source : option ptr;
  node_connection_uds_socket_source : option ptr;
  node_connection_systemd_socket_source : option ptr;
}.
#[export] Instance eta_ListenWorld : EtaRecord ListenWorld := fun w =>
  mkListenWorld (lw_sys w) (lw_calls w) (lw_next w) (node_connection_tcp_socket_source w)
    (node_connection_uds_socket_source w) (node_connection_systemd_socket_source w).
Abbreviation LM := (M ListenWorld).

(** sd-event and sd-daemon: the results of the calls, the number of descriptors handed
    over, and whether a descriptor is the socket of a port or of a path. *)
Class SdListen := {
  source_answer : nat -> source_call -> Z;
  sd_listen_fds : Z;
  sd_is_socket_inet : Z -> Z -> Z;
  sd_is_socket_unix : Z -> string -> Z;
}.

Definition SD_LISTEN_FDS_START : Z := 3.

Section listeners.
Context {K : Kernel} {D : SdListen}.
(** [use_tcp], [port] and [use_uds] are settings of the controller; the path is fixed when
    the program is built. *)
Context (CONFIG_H_UDS_SOCKET_PATH : string).

Definition source_do (c : source_call) : LM Z := fun w =>
  let r := source_answer (Datatypes.length (lw_calls w)) c in
  Ret r (w <| lw_calls ::= fun l => l ++ [(c, r)] |>).
Definition kernel {A} : M syscalls A -> LM A := zoom lw_sys (fun t w => w <| lw_sys := t |>).

(** A source that waits for connections on [fd] and owns it. *)
Definition watch_socket (fd : Z) (description : string) : LM (option ptr) :=
  source ← gets lw_next;
  modify (fun w => w <| lw_next := Pos.succ source |>) ;;
  r ← source_do (IoAdd source fd);
  if r <? 0 then mret None else
  r ← source_do (IoSetFdOwn source);
  if r <? 0 then _r ← source_do (IoUnref source); mret None else
  _r ← source_do (IoSetDescription source description);
  mret (Some source).

Definition controller_setup_systemd_socket_connection_handler : LM bool :=
  if sd_listen_fds <? 1 then mret true
  else if 1 <? sd_listen_fds then mret false
  else
    source ← watch_socket SD_LISTEN_FDS_START "node-accept-systemd-socket";
    match source with
    | None => mret false
    | Some _ => modify (fun w => w <| node_connection_systemd_socket_source := source |>) ;; mret true
    end.

(** The socket that is in use already is the one systemd handed over. *)
Definition set_up_by_systemd (fd same_socket : Z) : LM bool :=
  source ← gets node_connection_systemd_socket_source;
  mret ((fd =? - EADDRINUSE) && bool_decide (is_Some source) && (0 <? same_socket)).

Definition controller_setup_tcp_connection_handler (port : Z) : LM bool :=
  tcp_fd ← kernel (create_tcp_socket port);
  if tcp_fd <? 0 then set_up_by_systemd tcp_fd (sd_is_socket_inet SD_LISTEN_FDS_START port) else
  source ← watch_socket tcp_fd "node-accept-tcp-socket";
  match source with
  | None => _r ← kernel (sys (SysClose tcp_fd)); mret false
  | Some _ => modify (fun w => w <| node_connection_tcp_socket_source := source |>) ;; mret true
  end.

Definition watch_uds (uds_fd : Z) : LM bool :=
  source ← watch_socket uds_fd "node-accept-uds-socket";
  match source with
  | None => _r ← kernel (sys (SysClose uds_fd)); mret false
  | Some _ => modify (fun w => w <| node_connection_uds_socket_source := source |>) ;; mret true
  end.

(** A path that is in use, and not by systemd, is removed for another attempt. *)
Definition controller_setup_uds_connection_handler : LM bool :=
  uds_fd ← kernel (create_uds_socket CONFIG_H_UDS_SOCKET_PATH);
  if uds_fd <? 0 then
    by_systemd ← set_up_by_systemd uds_fd (sd_is_socket_unix SD_LISTEN_FDS_START CONFIG_H_UDS_SOCKET_PATH);
    if (by_systemd : bool) then mret true
    else if uds_fd =? - EADDRINUSE then
      _r ← kernel (sys (SysUnlink CONFIG_H_UDS_SOCKET_PATH));
      uds_fd ← kernel (create_uds_socket CONFIG_H_UDS_SOCKET_PATH);
      if uds_fd <? 0 then mret false else watch_uds uds_fd
    else mret false
  else watch_uds uds_fd.

Definition controller_setup_node_connection_handler (use_tcp use_uds : bool) (port : Z) : LM bool :=
  ok ← controller_setup_systemd_socket_connection_handler;
  if negb ok then mret false else
  ok ← if use_tcp then controller_setup_tcp_connection_handler port else mret true;
  if negb ok then mret false else
  ok ← if use_uds then controller_setup_uds_connection_handler else mret true;
  if negb ok then mret false else
  w ← Prelude.get;
  mret (negb (bool_decide (node_connection_systemd_socket_source w = None /\
                           node_connection_tcp_socket_source w = None /\
                           node_connection_uds_socket_source w = None))).

(** [controller_unref], the part on the sources. *)
Definition release_source (source : option ptr) (forget : ListenWorld -> ListenWorld) (unlink : bool) : LM void :=
  match source with
  | None => mret tt
  | Some source =>
      _r ← source_do (IoUnref source);
      modify forget ;;
      if unlink then _r ← kernel (sys (SysUnlink CONFIG_H_UDS_SOCKET_PATH)); mret tt else mret tt
  end.
Definition controller_release_sources : LM void :=
  source ← gets node_connection_tcp_socket_source;
  release_source source (fun w => w <| node_connection_tcp_socket_source := None |>) false ;;
  source ← gets node_connection_uds_socket_source;
  release_source source (fun w => w <| node_connection_uds_socket_source := None |>) true ;;
  source ← gets node_connection_systemd_socket_source;
  release_source source (fun w => w <| node_connection_systemd_socket_source := None |>) true.
End listeners.

(** ** Ownership

    sd-event: the live event sources with the descriptors they watch, and whether they own
    them; the descriptors that were closed with their sources. A call that fails changes
    nothing. *)
Record watched := mkWatched {
  live_sources : gmap ptr (Z * bool);
  closed_by_source : list Z;
}.
#[export] Instance eta_watched : EtaRecord watched := fun h => mkWatched (live_sources h) (closed_by_source h).

Definition watch (h : watched) (x : source_call * Z) : watched :=
  match x with
  | (IoAdd source fd, r) => if r <? 0 then h else h <| live_sources ::= insert source (fd, false) |>
  | (IoSetFdOwn source, r) =>
      if r <? 0 then h else h <| live_sources ::= alter (fun s => (fst s, true)) source |>
  | (IoSetDescription _ _, _) => h
  | (IoUnref source, _) =>
      h <| live_sources ::= delete source |>
        <| closed_by_source ::= fun l => l ++ match live_sources h !! source with
                                              | Some (fd, true) => [fd]
                                              | _ => []
                                              end |>
  end.
Definition watching (w : ListenWorld) : watched := fold_left watch (lw_calls w) (mkWatched ∅ []).

(** A listener: its source and the descriptor it owns. *)
Abbreviation listener := (option (ptr * Z)).
Definition owned_sources (l : list listener) : gmap ptr (Z * bool) :=
  list_to_map (map (fun x => (fst x, (snd x, true))) (omap id l)).
Definition owned_fds (l : list listener) : list Z := map snd (omap id l).

Section facts.
Context {K : Kernel} {L : KernelLaws K} {D : SdListen}.

(** The sources of [w] are older than the next one. *)
Definition sources_old (w : ListenWorld) : Prop :=
  forall p, is_Some (live_sources (watching w) !! p) -> (p < lw_next w)%positive.

Lemma watching_snoc w x : watching (w <| lw_calls ::= fun l => l ++ [x] |>) = watch (watching w) x.
Proof. apply fold_left_app. Qed.

(** What [watch_socket] does to the world, apart from the calls: nothing but the source. *)
Definition rest (w : ListenWorld) :=
  (lw_sys w, node_connection_tcp_socket_source w, node_connection_uds_socket_source w,
   node_connection_systemd_socket_source w).

Lemma wp_source_do c Q w :
  (forall k r, r = source_answer k c -> Q r (w <| lw_calls ::= fun l => l ++ [(c, r)] |>)) ->
  wp (source_do c) Q w.
Proof. intros H. by eapply H. Qed.

Lemma wp_watch_socket fd description w : sources_old w ->
  wp (watch_socket fd description) (fun source w' =>
    rest w' = rest w /\ sources_old w' /\
    closed_by_source (watching w') = closed_by_source (watching w) /\
    match source with
    | Some p => live_sources (watching w') = <[p := (fd, true)]> (live_sources (watching w)) /\
                live_sources (watching w) !! p = None
    | None => live_sources (watching w') = live_sources (watching w) /\
              exists k c, source_answer k c < 0
    end) w.
Proof.
  intros Hold. unfold watch_socket. apply wp_bind, wp_gets, wp_bind, wp_modify.
  set (p := lw_next w). set (w1 := w <| lw_next := Pos.succ p |>).
  assert (live_sources (watching w) !! p = None) as Hnew.
  { apply eq_None_not_Some. intros H%Hold. unfold p in H. lia. }
  assert (forall q, is_Some (live_sources (watching w) !! q) -> (q < Pos.succ p)%positive) as Hlt.
  { intros q H%Hold. unfold p. lia. }
  apply wp_bind, wp_source_do. intros k r Hk. destruct (Z.ltb_spec r 0) as [Er|Er].
  { apply wp_ret. split; [done|]. unfold sources_old. rewrite watching_snoc. cbn.
    rewrite (proj2 (Z.ltb_lt _ _)) by done. split_and!; try done. subst r. by eexists _, _. }
  set (w2 := w1 <| lw_calls ::= _ |>).
  assert (watching w2 = (watching w) <| live_sources ::= insert p (fd, false) |>) as Hw2.
  { unfold w2. rewrite watching_snoc. cbn. by rewrite (proj2 (Z.ltb_ge _ _)). }
  apply wp_bind, wp_source_do. intros k2 r2 Hk2. destruct (Z.ltb_spec r2 0) as [Er2|Er2].
  { apply wp_bind, wp_source_do. intros k3 r3 Hk3. apply wp_ret. split; [done|]. unfold sources_old.
    rewrite !watching_snoc, Hw2. cbn. rewrite (proj2 (Z.ltb_lt _ _)) by done. cbn.
    rewrite lookup_insert_eq, app_nil_r, delete_insert_id by done. split_and!; try done.
    subst r2. by eexists _, _. }
  apply wp_bind, wp_source_do. intros k3 r3 Hk3. apply wp_ret. split; [done|]. unfold sources_old.
  rewrite !watching_snoc, Hw2. cbn. rewrite (proj2 (Z.ltb_ge _ _)) by done. cbn.
  rewrite alter_insert_eq. cbn. split_and!; try done.
  intros q Hq. destruct (decide (q = p)) as [->|Hne]; [lia|]. rewrite lookup_insert_ne in Hq by done. by apply Hlt.
Qed.

Lemma wp_kernel {A} (m : M syscalls A) Q w :
  wp m (fun a t => Q a (w <| lw_sys := t |>)) (lw_sys w) -> wp (kernel m) Q w.
Proof. intros H. unfold kernel. apply wp_zoom, H. Qed.

(** *** The state of the set-up

    [cs] are the system calls made since [t0]. *)
Definition bound (P : address -> Prop) (l : listener) (cs : syscalls) : Prop :=
  match l with
  | Some (_, fd) => SysListen fd ∈ cs /\ exists a, P a /\ SysBind fd a ∈ cs
  | None => True
  end.
Lemma bound_app P l cs cs' : bound P l cs -> bound P l (cs ++ cs').
Proof.
  destruct l as [[p fd]|]; [|done]. intros (Hl & a & Ha & Hb). split; [by apply elem_of_app; left|].
  exists a. split; [done|]. by apply elem_of_app; left.
Qed.

Record set_up (t0 cs : syscalls) (path : string) (port : Z) (systemd tcp uds : listener) (w : ListenWorld) : Prop := {
  su_old : sources_old w;
  su_systemd : node_connection_systemd_socket_source w = fst <$> systemd;
  su_tcp : node_connection_tcp_socket_source w = fst <$> tcp;
  su_uds : node_connection_uds_socket_source w = fst <$> uds;
  su_live : live_sources (watching w) = owned_sources [uds; tcp; systemd];
  su_distinct : NoDup (map fst (omap id [uds; tcp; systemd]));
  su_closed : closed_by_source (watching w) = [];
  su_sys : lw_sys w = t0 ++ cs;
  su_open : leaves_open (Datatypes.length t0) (owned_fds [uds; tcp]) cs;
  su_tcp_bound : bound (fun a => a = Any6 port \/ a = Any4 port) tcp cs;
  su_uds_bound : bound (fun a => a = UnixPath (str_take 107 path)) uds cs;
  su_handed_over : systemd = None \/ exists p, systemd = Some (p, SD_LISTEN_FDS_START);
}.

(** Why setting up a socket fails. *)
Definition call_failed : Prop :=
  (exists k c e, sys_answer k c = inl e) \/ exists k c, source_answer k c < 0.

(** Calls that leave nothing open change nothing. *)
Lemma set_up_calls t0 cs cs' path port systemd tcp uds w :
  set_up t0 cs path port systemd tcp uds w ->
  leaves_open (Datatypes.length t0 + Datatypes.length cs) [] cs' ->
  set_up t0 (cs ++ cs') path port systemd tcp uds (w <| lw_sys := lw_sys w ++ cs' |>).
Proof.
  intros [] Hopen. split; try done; try by apply bound_app.
  - cbn. by rewrite su_sys0, app_assoc.
  - by apply (leaves_open_app _ _ []).
Qed.
(** A watch that fails leaves the sources as they were. *)
Lemma set_up_same t0 cs path port systemd tcp uds w w' :
  set_up t0 cs path port systemd tcp uds w -> rest w' = rest w -> sources_old w' ->
  closed_by_source (watching w') = closed_by_source (watching w) ->
  live_sources (watching w') = live_sources (watching w) ->
  set_up t0 cs path port systemd tcp uds w'.
Proof.
  intros [] Hrest Hold Hclosed Hlive. unfold rest in Hrest. injection Hrest as Hs Ht Hu Hy.
  split; try done; congruence.
Qed.

Lemma owned_fresh l p : owned_sources l !! p = None -> p ∉ map fst (omap id l).
Proof.
  intros H%not_elem_of_list_to_map_2 Hin. apply H. by rewrite map_map.
Qed.
(** *** The three sockets *)

Context (t0 : syscalls) (path : string) (port : Z).
Abbreviation ready := (fun cs => set_up t0 cs path port).

Lemma wp_setup_systemd w : ready [] None None None w ->
  wp controller_setup_systemd_socket_connection_handler (fun ok w' => exists systemd,
    ready [] systemd None None w' /\
    if ok then (systemd = None <-> sd_listen_fds < 1) else 1 < sd_listen_fds \/ call_failed) w.
Proof.
  intros Hw. unfold controller_setup_systemd_socket_connection_handler.
  destruct (Z.ltb_spec sd_listen_fds 1); [by apply wp_ret; exists None|].
  destruct (Z.ltb_spec 1 sd_listen_fds); [by apply wp_ret; exists None; auto|].
  apply wp_bind. eapply wp_mono; [by apply wp_watch_socket, Hw|]. cbn beta.
  intros [p|] w1 (Hrest & Hold & Hclosed & Hlive).
  - destruct Hlive as [Hlive Hnew]. apply wp_bind, wp_modify, wp_ret. exists (Some (p, SD_LISTEN_FDS_START)).
    destruct Hw. unfold rest in Hrest. injection Hrest as Hs Ht Hu Hy. unfold sources_old, watching in *. split; [split; cbn in *|].
    all: try done; try congruence; try by eauto.
    + apply NoDup_singleton.
    + split; [done|lia].
  - apply wp_ret. exists None. destruct Hlive as [Hlive Hfail]. split; [by eapply set_up_same; [exact Hw|..]|]. right. by right.
Qed.

Lemma wp_close {A} (fd : Z) (a : A) Q w :
  Q a (w <| lw_sys := lw_sys w ++ [SysClose fd] |>) -> wp (_r ← kernel (sys (SysClose fd)); mret a) Q w.
Proof. intros H. apply wp_bind, wp_kernel, wp_sys. by apply wp_ret. Qed.

(** A new socket is watched, or closed. *)
Lemma wp_adopt fd description put cs cs1 systemd tcp uds w :
  ready cs systemd tcp uds w -> leaves_open (Datatypes.length t0 + Datatypes.length cs) [fd] cs1 ->
  wp (source ← watch_socket fd description;
      match source with
      | None => _r ← kernel (sys (SysClose fd)); mret false
      | Some _ => modify (put source) ;; mret true
      end)
     (fun ok w' =>
        if ok then exists p w2, w' = put (Some p) w2 /\ rest w2 = rest (w <| lw_sys := lw_sys w ++ cs1 |>) /\
          sources_old w2 /\ closed_by_source (watching w2) = [] /\
          live_sources (watching w2) = <[p := (fd, true)]> (owned_sources [uds; tcp; systemd]) /\
          NoDup (p :: map fst (omap id [uds; tcp; systemd]))
        else ready (cs ++ cs1 ++ [SysClose fd]) systemd tcp uds w' /\ call_failed)
     (w <| lw_sys := lw_sys w ++ cs1 |>).
Proof.
  intros Hw Hopen. apply wp_bind. eapply wp_mono; [by apply wp_watch_socket, Hw|].
  cbn beta. intros [p|] w2 (Hrest & Hold & Hclosed & Hlive).
  - destruct Hlive as [Hlive Hnew]. apply wp_bind, wp_modify, wp_ret. exists p, w2.
    destruct Hw. change (watching (w <| lw_sys := lw_sys w ++ cs1 |>)) with (watching w) in *.
    rewrite su_live0 in Hlive, Hnew. split_and!; try done.
    + by rewrite Hclosed.
    + apply NoDup_cons. split; [by apply owned_fresh|done].
  - destruct Hlive as [Hlive Hfail]. apply wp_close. split; [|by right].
    pose proof (set_up_calls _ _ (cs1 ++ [SysClose fd]) _ _ _ _ _ _ Hw (leaves_open_close _ _ _ Hopen)) as Hw1.
    eapply set_up_same; [exact Hw1|..]; try done.
    unfold rest in Hrest |- *. injection Hrest as Hs Ht Hu Hy. cbn in *. by rewrite Hs, Ht, Hu, Hy, <- app_assoc.
Qed.

(** What remains of a failed attempt, and whether systemd has set the socket up. *)
Lemma wp_set_up_by_systemd fd same cs systemd tcp uds w : ready cs systemd tcp uds w ->
  wp (set_up_by_systemd fd same) (fun ok w' => w' = w /\ (ok = true -> is_Some systemd /\ 0 < same)) w.
Proof.
  intros Hw. unfold set_up_by_systemd. apply wp_bind, wp_gets, wp_ret. split; [done|].
  rewrite (su_systemd _ _ _ _ _ _ _ _ Hw), !andb_true_iff, bool_decide_eq_true, fmap_is_Some, Z.ltb_lt. tauto.
Qed.

(** The state after [create_tcp_socket] or [create_uds_socket]. *)
Lemma wp_created m P cs systemd tcp uds w Q :
  (forall t, wp m (listening P t) t) -> ready cs systemd tcp uds w ->
  (forall fd cs1, fd < 0 -> call_failed ->
     ready (cs ++ cs1) systemd tcp uds (w <| lw_sys := lw_sys w ++ cs1 |>) ->
     Q fd (w <| lw_sys := lw_sys w ++ cs1 |>)) ->
  (forall fd cs1, 0 <= fd -> leaves_open (Datatypes.length t0 + Datatypes.length cs) [fd] cs1 ->
     (forall p, bound P (Some (p, fd)) (cs ++ cs1)) -> Q fd (w <| lw_sys := lw_sys w ++ cs1 |>)) ->
  wp (kernel m) Q w.
Proof.
  intros Hm Hw Hneg Hpos. apply wp_kernel. eapply wp_mono; [apply Hm|]. cbn beta. intros fd t (cs1 & -> & Hfd).
  assert (Datatypes.length (lw_sys w) = (Datatypes.length t0 + Datatypes.length cs)%nat) as Hlen.
  { by rewrite (su_sys _ _ _ _ _ _ _ _ Hw), length_app. }
  rewrite Hlen in Hfd. destruct (Z.leb_spec 0 fd) as [H0|H0].
  - destruct Hfd as (Hopen & Hlisten & a & Ha & Hbind). apply Hpos; [done..|]. intros p.
    split; [by apply elem_of_app; right|]. exists a. split; [done|]. by apply elem_of_app; right.
  - destruct Hfd as [Hopen Hfail]. apply Hneg; [done|by left|]. by apply set_up_calls.
Qed.

Lemma wp_setup_tcp systemd w : ready [] systemd None None w ->
  wp (controller_setup_tcp_connection_handler port) (fun ok w' => exists cs tcp,
    ready cs systemd tcp None w' /\
    if ok then is_Some tcp \/ is_Some systemd /\ 0 < sd_is_socket_inet SD_LISTEN_FDS_START port
    else call_failed) w.
Proof.
  intros Hw. unfold controller_setup_tcp_connection_handler. apply wp_bind.
  eapply wp_created; [apply wp_create_tcp_socket|exact Hw|..]; intros fd cs Hfd.
  - intros Hfail Hw1. rewrite (proj2 (Z.ltb_lt _ _)) by done. eapply wp_mono; [by eapply wp_set_up_by_systemd|].
    cbn beta. intros ok w2 [-> Hok]. exists cs, None. split; [done|]. destruct ok; [|done]. right. by apply Hok.
  - intros Hopen Hbound. rewrite (proj2 (Z.ltb_ge _ _)) by done.
    eapply wp_mono; [by apply (wp_adopt _ _ (fun s w => w <| node_connection_tcp_socket_source := s |>) [] cs systemd None None)|].
    cbn beta. intros [] w1 H1; [|by eexists _, None].
    destruct H1 as (p & w2 & -> & Hrest & Hold & Hclosed & Hlive & Hdis). exists cs, (Some (p, fd)).
    destruct Hw. unfold rest in Hrest. injection Hrest as Hs Ht Hu Hy. cbn in *. split; [|by left].
    rewrite app_nil_r in su_sys0. rewrite Nat.add_0_r in Hopen.
    split; cbn; try done; try congruence; by apply Hbound.
Qed.

Lemma wp_watch_uds fd cs cs1 systemd tcp w :
  ready cs systemd tcp None w -> leaves_open (Datatypes.length t0 + Datatypes.length cs) [fd] cs1 ->
  (forall p, bound (fun a => a = UnixPath (str_take 107 path)) (Some (p, fd)) (cs ++ cs1)) ->
  wp (watch_uds fd) (fun ok w' => exists cs uds, ready cs systemd tcp uds w' /\
      if ok then is_Some uds else call_failed) (w <| lw_sys := lw_sys w ++ cs1 |>).
Proof.
  intros Hw Hopen Hbound.
  eapply wp_mono;
    [by apply (wp_adopt _ _ (fun s w => w <| node_connection_uds_socket_source := s |>) cs cs1 systemd tcp None)|].
  cbn beta. intros [] w1 H1; [|by eexists _, None].
  destruct H1 as (p & w2 & -> & Hrest & Hold & Hclosed & Hlive & Hdis). exists (cs ++ cs1), (Some (p, fd)).
  destruct Hw. unfold rest in Hrest. injection Hrest as Hs Ht Hu Hy. cbn in Hs, Ht, Hu, Hy. split; [|by eexists].
  split; try done; try by (cbn; congruence).
  - cbn. by rewrite Hs, su_sys0, app_assoc.
  - change (owned_fds [Some (p, fd); tcp]) with ([fd] ++ owned_fds [None; tcp]). by apply leaves_open_app.
  - by apply bound_app.
Qed.

(** The socket of the path is set up, by the controller or by systemd. *)
Lemma wp_setup_uds cs systemd tcp w : ready cs systemd tcp None w ->
  wp (controller_setup_uds_connection_handler path) (fun ok w' => exists cs uds,
    ready cs systemd tcp uds w' /\
    if ok then is_Some uds \/ is_Some systemd /\ 0 < sd_is_socket_unix SD_LISTEN_FDS_START path
    else call_failed) w.
Proof.
  intros Hw. unfold controller_setup_uds_connection_handler. apply wp_bind.
  eapply wp_created; [apply wp_create_uds_socket|exact Hw|..]; intros fd cs1 Hfd.
  - intros Hfail Hw1. rewrite (proj2 (Z.ltb_lt _ _)) by done. apply wp_bind.
    eapply wp_mono; [by eapply wp_set_up_by_systemd|]. cbn beta. intros by_systemd w2 [-> Hok].
    destruct by_systemd; [apply wp_ret; exists (cs ++ cs1), None; by auto|].
    destruct (fd =? - EADDRINUSE); [|apply wp_ret; by exists (cs ++ cs1), None].
    apply wp_bind, wp_kernel, wp_sys.
    pose proof (set_up_calls _ _ [SysUnlink path] _ _ _ _ _ _ Hw1) as Hw3.
    specialize (Hw3 (leaves_open_other _ [] [] (SysUnlink path) (leaves_open_nil _) I)). apply wp_bind.
    eapply wp_created; [apply wp_create_uds_socket|exact Hw3|..]; intros fd2 cs2 Hfd2.
    + intros Hfail2 Hw4. rewrite (proj2 (Z.ltb_lt _ _)) by done. apply wp_ret. by eexists _, None.
    + intros Hopen Hbound. rewrite (proj2 (Z.ltb_ge _ _)) by done.
      eapply wp_mono; [by eapply wp_watch_uds|]. cbn beta. intros ok w4 (cs4 & uds & H4 & Hok4).
      exists cs4, uds. split; [done|]. destruct ok; auto.
  - intros Hopen Hbound. rewrite (proj2 (Z.ltb_ge _ _)) by done.
    eapply wp_mono; [by apply (wp_watch_uds _ cs cs1 systemd tcp)|]. cbn beta. intros ok w4 (cs4 & uds & H4 & Hok4).
    exists cs4, uds. split; [done|]. destruct ok; auto.
Qed.

(** *** Release *)

Definition unlinks (l : listener) : syscalls := if l then [SysUnlink path] else [].

Lemma wp_release_source source forget unlink (Q : void -> ListenWorld -> Prop) w :
  match source with
  | None => Q tt w
  | Some p => forall r,
      let w1 := forget (w <| lw_calls ::= fun l => l ++ [(IoUnref p, r)] |>) in
      Q tt (if (unlink : bool) then w1 <| lw_sys := lw_sys w1 ++ [SysUnlink path] |> else w1)
  end -> wp (release_source path source forget unlink) Q w.
Proof.
  intros H. unfold release_source. destruct source as [p|]; [|by apply wp_ret].
  apply wp_bind, wp_source_do. intros k r _. apply wp_bind, wp_modify. specialize (H r). cbn zeta in H.
  destruct unlink; [|by apply wp_ret]. apply wp_bind, wp_kernel, wp_sys, wp_ret. exact H.
Qed.

Lemma wp_release cs systemd tcp uds w : ready cs systemd tcp uds w ->
  wp (controller_release_sources path) (fun _ w' =>
    live_sources (watching w') = ∅ /\
    closed_by_source (watching w') = owned_fds [tcp; uds; systemd] /\
    lw_sys w' = lw_sys w ++ unlinks uds ++ unlinks systemd /\
    node_connection_tcp_socket_source w' = None /\ node_connection_uds_socket_source w' = None /\
    node_connection_systemd_socket_source w' = None) w.
Proof.
  destruct w as [t calls next stcp suds ssys]. intros []. cbn in su_tcp0, su_uds0, su_systemd0. subst stcp suds ssys.
  unfold controller_release_sources. apply wp_bind, wp_gets, wp_bind, wp_release_source.
  destruct tcp as [[p fd]|], uds as [[q fd2]|], systemd as [[u fd3]|]; cbn [fst fmap option_fmap option_map].
  all: try intros r1; apply wp_bind, wp_gets, wp_bind, wp_release_source; cbn.
  all: try intros r2; apply wp_bind, wp_gets, wp_release_source; cbn.
  all: try intros r3; clear su_tcp_bound0 su_uds_bound0 su_open0 su_old0; unfold watching in *; cbn in *.
  all: rewrite ?fold_left_app; destruct (fold_left watch calls _) as [live closed]; cbn in *; subst live closed.
  all: repeat match goal with
         | H : NoDup (_ :: _) |- _ => apply NoDup_cons in H as [? ?]
         | H : _ ∉ _ :: _ |- _ => apply not_elem_of_cons in H as [? ?]
         end.
  all: rewrite <- ?app_assoc; split_and!; try done.
  all: repeat first [rewrite lookup_insert_eq|rewrite lookup_insert_ne by congruence
         |rewrite lookup_delete_ne by congruence|rewrite delete_insert_eq|rewrite delete_insert_ne by congruence
         |rewrite delete_empty]; try done.
  all: by rewrite app_nil_r.
Qed.
End facts.

(** No socket is waited on yet. *)
Definition no_listener (w : ListenWorld) : Prop :=
  lw_calls w = [] /\ node_connection_tcp_socket_source w = None /\
  node_connection_uds_socket_source w = None /\ node_connection_systemd_socket_source w = None.

Section listeners.
Context {K : Kernel} {L : KernelLaws K} {D : SdListen} (path : string) (use_tcp use_uds : bool) (port : Z).

(** What the set-up has to achieve, and why it may fail. *)
Definition listening_as_configured (systemd tcp uds : listener) : Prop :=
  (systemd = None <-> sd_listen_fds < 1) /\
  (use_tcp = true -> is_Some tcp \/ is_Some systemd /\ 0 < sd_is_socket_inet SD_LISTEN_FDS_START port) /\
  (use_uds = true -> is_Some uds \/ is_Some systemd /\ 0 < sd_is_socket_unix SD_LISTEN_FDS_START path) /\
  (is_Some systemd \/ is_Some tcp \/ is_Some uds).
Definition cannot_listen : Prop :=
  1 < sd_listen_fds \/ call_failed \/ sd_listen_fds < 1 /\ use_tcp = false /\ use_uds = false.

Lemma set_up_none w : no_listener w -> set_up (lw_sys w) [] path port None None None w.
Proof.
  intros (Hc & Ht & Hu & Hs). unfold sources_old, watching.
  split; unfold sources_old, watching; rewrite ?Hc; cbn; rewrite ?app_nil_r; try done.
  - intros p [x Hx]. by rewrite lookup_empty in Hx.
  - constructor.
  - by left.
Qed.

Lemma wp_setup_listeners w : no_listener w ->
  wp (controller_setup_node_connection_handler path use_tcp use_uds port) (fun (ok : bool) w1 =>
    exists cs systemd tcp uds, set_up (lw_sys w) cs path port systemd tcp uds w1 /\
      (use_tcp = false -> tcp = None) /\ (use_uds = false -> uds = None) /\
      if ok then listening_as_configured systemd tcp uds else cannot_listen) w.
Proof.
  intros Hw%set_up_none. unfold controller_setup_node_connection_handler. apply wp_bind.
  eapply wp_mono; [by eapply wp_setup_systemd|]. cbn beta. intros ok w1 (systemd & Hw1 & Hok).
  destruct ok; cbn [negb].
  2: { apply wp_ret. exists [], systemd, None, None. split_and!; try done. destruct Hok; [by left|by right; left]. }
  apply wp_bind. apply (wp_mono _ (fun (ok : bool) w' => exists cs tcp,
    set_up (lw_sys w) cs path port systemd tcp None w' /\ (use_tcp = false -> tcp = None) /\
    if ok then use_tcp = true -> is_Some tcp \/ is_Some systemd /\ 0 < sd_is_socket_inet SD_LISTEN_FDS_START port
    else call_failed)).
  { destruct use_tcp; [|by apply wp_ret; eexists _, None].
    eapply wp_mono; [by eapply wp_setup_tcp|]. cbn beta. intros ok w2 (cs & tcp & H2 & Hok2).
    exists cs, tcp. split_and!; [done..|]. by destruct ok. }
  cbn beta. intros ok w2 (cs & tcp & Hw2 & Hn & Hok2). destruct ok; cbn [negb].
  2: { apply wp_ret. exists cs, systemd, tcp, None. split_and!; try done. by right; left. }
  apply wp_bind. apply (wp_mono _ (fun (ok : bool) w' => exists cs uds,
    set_up (lw_sys w) cs path port systemd tcp uds w' /\ (use_uds = false -> uds = None) /\
    if ok then use_uds = true -> is_Some uds \/ is_Some systemd /\ 0 < sd_is_socket_unix SD_LISTEN_FDS_START path
    else call_failed)).
  { destruct use_uds; [|by apply wp_ret; eexists _, None].
    eapply wp_mono; [by eapply wp_setup_uds|]. cbn beta. intros ok w3 (cs3 & uds & H3 & Hok3).
    exists cs3, uds. split_and!; [done..|]. by destruct ok. }
  cbn beta. intros ok w3 (cs3 & uds & Hw3 & Hn3 & Hok3). destruct ok; cbn [negb].
  2: { apply wp_ret. exists cs3, systemd, tcp, uds. split_and!; try done. by right; left. }
  apply wp_bind, wp_get, wp_ret. exists cs3, systemd, tcp, uds. split_and!; [done..|].
  rewrite (su_systemd _ _ _ _ _ _ _ _ Hw3), (su_tcp _ _ _ _ _ _ _ _ Hw3), (su_uds _ _ _ _ _ _ _ _ Hw3).
  destruct (bool_decide _) eqn:En; cbn [negb].
  - apply bool_decide_eq_true in En as (Hs & Ht & Hu). apply fmap_None in Hs, Ht, Hu. subst.
    right. right. split; [by apply Hok|]. split; [destruct use_tcp|destruct use_uds]; try done.
    + by destruct (Hok2 eq_refl) as [[]|[[] _]].
    + by destruct (Hok3 eq_refl) as [[]|[[] _]].
  - apply bool_decide_eq_false in En. split_and!; [done..|].
    destruct systemd, tcp, uds; auto; by destruct En.
Qed.
End listeners.

(** C25. Setting up the sockets on which the controller waits, whatever call fails: the
    descriptors it leaves open are those of the TCP and of the Unix socket it watches, bound
    as configured, and each source kept owns its descriptor. It succeeds exactly when every
    socket that is configured is waited on, by a source of its own or by the one of systemd,
    and there is one at all; otherwise a call has failed, systemd has passed too many
    descriptors, or no socket is configured. Dropping the controller closes every one of
    these descriptors and removes the path of the Unix socket. *)
Theorem listeners_correct {K : Kernel} {L : KernelLaws K} {D : SdListen} (path : string)
  (use_tcp use_uds : bool) (port : Z) (w : ListenWorld) (Hw : no_listener w) :
  wp (controller_setup_node_connection_handler path use_tcp use_uds port) (fun (ok : bool) w1 =>
    exists cs systemd tcp uds, set_up (lw_sys w) cs path port systemd tcp uds w1 /\
      (use_tcp = false -> tcp = None) /\ (use_uds = false -> uds = None) /\
      (if ok then listening_as_configured path use_tcp use_uds port systemd tcp uds
       else cannot_listen use_tcp use_uds) /\
      wp (controller_release_sources path) (fun _ w2 =>
        live_sources (watching w2) = ∅ /\
        closed_by_source (watching w2) = owned_fds [tcp; uds; systemd] /\
        lw_sys w2 = lw_sys w ++ cs ++ unlinks path uds ++ unlinks path systemd /\ 
        node_connection_tcp_socket_source w2 = None /\ node_connection_uds_socket_source w2 = None /\
        node_connection_systemd_socket_source w2 = None) w1) w.
Proof.
  eapply wp_mono; [by apply wp_setup_listeners|]. cbn beta.
  intros ok w1 (cs & systemd & tcp & uds & H1 & Ht & Hu & Hok). exists cs, systemd, tcp, uds.
  split_and!; [done..|]. eapply wp_mono; [by eapply wp_release|]. cbn beta. intros [] w2 H2.
  rewrite (su_sys _ _ _ _ _ _ _ _ H1), <- !app_assoc in H2. exact H2.
Qed.

(** The Unix socket of an earlier run is left over: the first attempt finds the path in
    use, the second succeeds. *)
Definition stale_path_kernel : Kernel := {|
  sys_answer := fun k c => match c, k with SysBind _ _, 1%nat => inl EADDRINUSE | _, _ => inr 7 end;
  socket_domain := fun _ => Some AF_UNIX;
  peer_ucred := fun _ => mkUcred 1 0 true;
  geteuid := 0;
|}.
Definition stale_path_kernel_laws : KernelLaws stale_path_kernel.
Proof.
  split.
  - intros k c e. cbn. destruct c, k as [|[]]; by intros [= <-].
  - intros k d fd. cbn. by intros [= <-].
Qed.
Definition sample_listen : SdListen := {|
  source_answer := fun _ _ => 0;
  sd_listen_fds := 0;
  sd_is_socket_inet := fun _ _ => 0;
  sd_is_socket_unix := fun _ _ => 0;
|}.
Definition sample_listeners : ListenWorld := mkListenWorld [] [] 1 None None None.
Definition stale_path_setup : LM bool :=
  controller_setup_node_connection_handler (K := stale_path_kernel) (D := sample_listen)
    "/run/bluechi/bluechi.sock" false true 842.
Lemma listeners_correct_witness :
  wp stale_path_setup (fun ok _ => ok = true) sample_listeners /\
  wp stale_path_setup (fun _ w1 => exists systemd uds,
       live_sources (watching w1) = owned_sources [uds; None; systemd] /\
       wp (controller_release_sources (K := stale_path_kernel) (D := sample_listen) "/run/bluechi/bluechi.sock")
          (fun _ w2 => closed_by_source (watching w2) = owned_fds [None; uds; systemd]) w1) sample_listeners.
Proof.
  split; [by vm_compute|].
  refine (wp_mono _ _ _ _ (listeners_correct (K := stale_path_kernel) (L := stale_path_kernel_laws)
    (D := sample_listen) "/run/bluechi/bluechi.sock" false true 842 sample_listeners _) _); [by split_and!|].
  intros ok w1 (cs & systemd & tcp & uds & Hs & Ht & _ & _ & Hrel). exists systemd, uds.
  rewrite (Ht eq_refl) in Hs, Hrel. split; [apply Hs|]. eapply wp_mono; [exact Hrel|]. by intros [] w2 (_ & Hc & _).
Defined.
