(* ===== verification/ControllerEvents.v ===== *)
(** The events the controller's loop dispatches: the entries of the vtables of its public
    objects behind the filter of the bus, the calls and signals of the agents, the answers
    to its own calls, connections, and the timer. *)
From S2P Require Import Prelude CString StringUtil ParseUtil TimeUtil Protocol Log Cfg Socket.
From S2P Require Import World Job Events Subscriptions Monitor Proxy Requests Node Controller.
Local Open Scope list_scope.

(** ** Vtables *)

Module ControllerObject.
(** [controller_vtable] *)
Inductive method :=
| ListUnits | ListUnitFiles | ListNodes
| GetNode (args : read string)
| CreateMonitor (sender : string)
| SetLogLevel (args : read string)
| EnableMetrics | DisableMetrics.

Definition controller_vtable {E : Env} (m : ptr) (c : method) : CM Z :=
  match c with
  | ListUnits => controller_method_list_units m
  | ListUnitFiles => controller_method_list_unit_files m
  | ListNodes => controller_method_list_nodes m
  | GetNode args => controller_method_get_node m args
  | CreateMonitor sender => controller_method_create_monitor m sender
  | SetLogLevel args => controller_method_set_log_level m args
  | EnableMetrics => controller_method_metrics_enable m
  | DisableMetrics => controller_method_metrics_disable m
  end.
End ControllerObject.

Module NodeObject.
(** [node_vtable]; [Passthrough] for the members that [node_method_passthrough_to_agent]
    is registered for. *)
Inductive method :=
| ListUnits | ListUnitFiles
| StartUnit (args : read (string * string))
| StopUnit (args : read (string * string))
| RestartUnit (args : read (string * string))
| ReloadUnit (args : read (string * string))
| SetUnitProperties (args : read (string * bool))
| SetLogLevel (args : read string)
| Passthrough (member : string).

Definition passthrough_members : list string :=
  ["GetUnitFileState"; "StartTransientUnit"; "FreezeUnit"; "ThawUnit"; "ResetFailed"; "ResetFailedUnit";
   "GetUnitProperties"; "GetUnitProperty"; "EnableUnitFiles"; "DisableUnitFiles"; "Reload"; "KillUnit";
   "GetDefaultTarget"; "SetDefaultTarget"]%string.

Definition node_vtable {E : Env} (m node : ptr) (c : method) : CM Z :=
  match c with
  | ListUnits => node_method_list_units m node
  | ListUnitFiles => node_method_list_unit_files m node
  | StartUnit args => node_method_start_unit m args node
  | StopUnit args => node_method_stop_unit m args node
  | RestartUnit args => node_method_restart_unit m args node
  | ReloadUnit args => node_method_reload_unit m args node
  | SetUnitProperties args => node_method_set_unit_properties m args node
  | SetLogLevel args => node_method_set_log_level m args node
  | Passthrough member => node_method_passthrough_to_agent m member node
  end.
End NodeObject.

Module MonitorObject.
(** [monitor_vtable] *)
Inductive method :=
| Subscribe (args : read (string * string))
| SubscribeList (node : read string) (units : list (read string))
| Unsubscribe (args : read Z)
| AddPeer (args : read string)
| RemovePeer (args : read (Z * string))
| Close.

Definition monitor_vtable {E : Env} (m monitor : ptr) (c : method) : CM Z :=
  match c with
  | Subscribe args => monitor_method_subscribe m args monitor
  | SubscribeList node units => monitor_method_subscribe_list m node units monitor
  | Unsubscribe args => monitor_method_unsubscribe m args monitor
  | AddPeer args => monitor_method_add_peer m args monitor
  | RemovePeer args => monitor_method_remove_peer m args monitor
  | Close => monitor_method_close m monitor
  end.
End MonitorObject.

Module AgentPeer.
(** The signals of an agent that [node_set_agent_bus] has matched. *)
Inductive signal :=
| JobDone (args : read (Z * string))
| JobStateChanged (args : read (Z * string))
| UnitPropertiesChanged (m : ptr) (args : read (string * string))
| UnitNew (args : read (string * string))
| UnitStateChanged (args : read (string * string * string * string))
| UnitRemoved (args : read string)
| ProxyNew (args : read (string * string * string))
| ProxyRemoved (args : read (string * string))
| AgentJobMetrics (args : read (string * string * Z))
| Heartbeat.

Definition match_signal {E : Env} (node : ptr) (s : signal) : CM Z :=
  match s with
  | JobDone args => node_match_job_done args
  | JobStateChanged args => node_match_job_state_changed args
  | UnitPropertiesChanged m args => node_match_unit_properties_changed node m args
  | UnitNew args => node_match_unit_new node args
  | UnitStateChanged args => node_match_unit_state_changed node args
  | UnitRemoved args => node_match_unit_removed node args
  | ProxyNew args => node_on_match_proxy_new node args
  | ProxyRemoved args => node_on_match_proxy_removed node args
  | AgentJobMetrics args => node_metrics_match_agent_job node args
  | Heartbeat => node_match_heartbeat node
  end.
End AgentPeer.

(** ** Events *)

(** A call of a client, to an object of the public bus. *)
Inductive client_call :=
| ToController (c : ControllerObject.method)
| ToNode (node : ptr) (c : NodeObject.method)
| ToMonitor (monitor : ptr) (c : MonitorObject.method)
| ToJob (job : ptr).                                   (* Cancel, the only method *)

Inductive controller_event :=
| EvClientCall (m : ptr) (object_path : string) (iface : option string) (c : client_call)
| EvNameOwnerChanged (args : read (string * string * string))
| EvConnection (nfd : Z) (server : option ptr)
| EvRegister (m node : ptr) (args : read string)
| EvAgentSignal (node : ptr) (s : AgentPeer.signal)
| EvAgentAnswer (req : ptr) (m : response)
| EvProxyAnswer (monitor : ptr)
| EvAgentDisconnected (node : ptr)
| EvHeartbeatTimer (reset : Z).

(** The answer to a call on an agent, by its request, or on a proxy. *)
Inductive answer := AnswerTo (req : ptr) | AnswerToProxy (monitor : ptr).
#[export] Instance answer_eq_dec : EqDecision answer.
Proof. solve_decision. Defined.

Section events.
Context {E : Env}.

Definition client_vtable (m : ptr) (c : client_call) : CM Z :=
  match c with
  | ToController c => ControllerObject.controller_vtable m c
  | ToNode node c => NodeObject.node_vtable m node c
  | ToMonitor monitor c => MonitorObject.monitor_vtable m monitor c
  | ToJob job => job_method_cancel m job
  end.

Definition handle_controller_event (e : controller_event) : CM void :=
  match e with
  | EvClientCall m object_path iface c =>
      r ← controller_dbus_filter m object_path iface;
      if negb (r =? 0) then mret tt else _r ← client_vtable m c; mret tt
  | EvNameOwnerChanged args => _r ← controller_name_owner_changed args; mret tt
  | EvConnection nfd server => _r ← controller_accept_node_connection nfd server; mret tt
  | EvRegister m node args => _r ← node_method_register m args node; mret tt
  | EvAgentSignal node s => _r ← AgentPeer.match_signal node s; mret tt
  | EvAgentAnswer req m => _r ← agent_request_callback req (Some m); mret tt
  | EvProxyAnswer monitor => _r ← proxy_monitor_callback monitor; mret tt
  | EvAgentDisconnected node => _r ← node_disconnected node; mret tt
  | EvHeartbeatTimer reset => _r ← controller_heartbeat_timer_callback reset; mret tt
  end.

(** The answers that calls on the trace from position [k] on await: a call that could be made
    gets one. *)
Definition awaits (k : nat) (c : call) : list answer :=
  if bus_result k c <? 0 then [] else
  match c with
  | AgentCallAsync _ _ _ req => [AnswerTo req]
  | ProxyCallAsync _ _ _ _ monitor => [AnswerToProxy monitor]
  | _ => []
  end.
Fixpoint asked (k : nat) (t : list call) : list answer :=
  match t with
  | [] => []
  | c :: t' => app (awaits k c) (asked (S k) t')
  end.
Definition outstanding (answered : list answer) (a : answer) (w : World) : bool :=
  (count a answered <? count a (asked 0 (w_trace w)))%nat.

(** What the event answers. *)
Definition answered_by (e : controller_event) : list answer :=
  match e with
  | EvAgentAnswer req _ => [AnswerTo req]
  | EvProxyAnswer monitor => [AnswerToProxy monitor]
  | _ => []
  end.

(** Which events sd-bus can deliver when [answered] are the answers it has delivered: a call
    to an object that is exported, a signal or the loss of a connection that is matched, an
    answer that is outstanding. *)
Definition deliverable (answered : list answer) (e : controller_event) (w : World) : bool :=
  let node_with (p : ptr) (f : Node -> bool) := match w_nodes w !! p with Some n => f n | None => false end in
  match e with
  | EvClientCall _ path _ c =>
      match c with
      | ToController _ => streq path BC_CONTROLLER_OBJECT_PATH
      | ToNode node c =>
          node_with node (fun n => node_export_slot n && bool_decide (node_object_path n = Some path)) &&
          match c with NodeObject.Passthrough member => existsb (streq member) NodeObject.passthrough_members | _ => true end
      | ToMonitor monitor _ =>
          match w_monitors w !! monitor with
          | Some x => mon_export_slot x && streq (mon_object_path x) path
          | None => false
          end
      | ToJob job =>
          match w_jobs w !! job with
          | Some x => job_export_slot x && streq (job_object_path x) path
          | None => false
          end
      end
  | EvRegister _ node _ => node_with node node_internal_controller_slot
  | EvAgentSignal node s =>
      node_with node (fun n => bool_decide (is_Some (node_agent_bus n)) && bool_decide (is_Some (node_name n)) &&
        match s with AgentPeer.AgentJobMetrics _ => node_metrics_matching_slot n | _ => true end)
  | EvAgentAnswer req _ => outstanding answered (AnswerTo req) w
  | EvProxyAnswer monitor => outstanding answered (AnswerToProxy monitor) w
  | EvAgentDisconnected node => node_with node node_disconnect_slot
  | EvNameOwnerChanged _ | EvConnection _ _ | EvHeartbeatTimer _ => true
  end.

(** The loop: the events in the order in which they arrive; those that cannot be delivered
    do not. It returns the answers that were delivered. *)
Fixpoint controller_loop (answered : list answer) (events : list controller_event) :
    CM (list answer) :=
  match events with
  | [] => mret answered
  | e :: events' =>
      w ← Prelude.get;
      if deliverable answered e w
      then handle_controller_event e ;; controller_loop (app (answered_by e) answered) events'
      else controller_loop answered events'
  end.
End events.
