(* ===== verification/ControllerInv.v ===== *)
(** The invariant of the controller between two events: who owns what. Nodes, jobs, requests,
    monitors, subscriptions and proxy monitors are tied to those that refer to them, and
    reference counts to the number of owners. Before it, the relation [calm] between states
    that differ in nothing that ownership depends on, and which functions are calm. *)
From S2P Require Import Prelude CString StringUtil ParseUtil TimeUtil Protocol BusUtils Log Cfg Socket.
From S2P Require Import World Job Events Subscriptions Monitor Proxy Requests Node Controller.
From S2P Require Import ControllerEvents WorldFacts EventFacts.
From S2P Require Import RegistryFacts.
Local Open Scope list_scope.

(** ** The calls that are answered *)

Section asked.
Context {E : Env}.

Lemma asked_snoc t c k : asked k (t ++ [c]) = asked k t ++ awaits (k + Datatypes.length t) c.
Proof.
  revert k. induction t as [|d t IH]; intros k; cbn [asked app Datatypes.length].
  - by rewrite app_nil_r, Nat.add_0_r.
  - rewrite IH, app_assoc. do 2 f_equal. lia.
Qed.

Definition asks (a : answer) (w : World) : Z := Z.of_nat (count a (asked 0 (w_trace w))).
Definition asks_by (c : call) (k : nat) (a : answer) : Z := Z.of_nat (count a (awaits k c)).

Lemma asks_emit a c w : asks a (emit c w) = asks a w + asks_by c (Datatypes.length (w_trace w)) a.
Proof. unfold asks, asks_by, emit. cbn. rewrite asked_snoc, count_app. cbn. lia. Qed.

(** A call without an answer to wait for. *)
Definition plain (c : call) : bool :=
  match c with AgentCallAsync _ _ _ _ | ProxyCallAsync _ _ _ _ _ => false | _ => true end.
Lemma asks_by_plain c k a : plain c = true -> asks_by c k a = 0.
Proof. unfold asks_by, awaits. by destruct (bus_result k c <? 0), c. Qed.
Lemma asks_emit_plain a c w : plain c = true -> asks a (emit c w) = asks a w.
Proof. intros Hc. rewrite asks_emit, asks_by_plain by done. lia. Qed.

(** The references to a proxy monitor beyond those that answers will drop. *)
Definition credit (w : World) (p : ptr) : Z :=
  from_option pm_ref_count 0 (w_proxies w !! p) - asks (AnswerToProxy p) w.
End asked.

(** ** Calm steps *)

(** What ownership depends on. *)
Definition node_core (n : Node) : Z * option string * option string * list ptr * list ptr * bool :=
  (node_ref_count n, node_name n, node_object_path n, node_outstanding_requests n,
   node_proxy_monitors n, node_export_slot n).
Definition job_core (j : Job) : Z * ptr := (job_ref_count j, job_node j).
Definition mon_core (m : Monitor) : Z * list ptr := (mon_ref_count m, mon_subscriptions m).
Definition pm_core (m : ProxyMonitor) : ptr * option ptr * option ptr :=
  (pm_node m, pm_subscription m, pm_target_node m).
Definition ctl_core (c : Controller) : Z * Z * list ptr * list ptr * list ptr * list ptr * list ptr :=
  (c_ref_count c, c_number_of_nodes c, c_nodes c, c_anonymous_nodes c, c_jobs c, c_monitors c,
   c_all_subscriptions c).

(** The same objects with the same core. *)
Definition alike {T X} (core : T -> X) (m m' : gmap ptr T) : Prop :=
  forall p, core <$> m' !! p = core <$> m !! p.
Lemma alike_refl {T X} (core : T -> X) m : alike core m m.
Proof. done. Qed.
Lemma alike_trans {T X} (core : T -> X) m1 m2 m3 :
  alike core m1 m2 -> alike core m2 m3 -> alike core m1 m3.
Proof. intros H1 H2 p. by rewrite H2. Qed.
Lemma alike_update {T X} (core : T -> X) m p x y :
  m !! p = Some x -> core y = core x -> alike core m (<[p := y]> m).
Proof.
  intros Hp Hc q. destruct (decide (q = p)) as [->|Hne].
  - rewrite lookup_insert_eq, Hp. cbn. by rewrite Hc.
  - by rewrite lookup_insert_ne.
Qed.
Lemma alike_some {T X} (core : T -> X) m m' p x :
  alike core m m' -> m !! p = Some x -> exists y, m' !! p = Some y /\ core y = core x.
Proof. intros H Hx. specialize (H p). rewrite Hx in H. by apply fmap_Some in H as (y & ? & ?); eauto. Qed.
Lemma alike_back {T X} (core : T -> X) m m' p y :
  alike core m m' -> m' !! p = Some y -> exists x, m !! p = Some x /\ core x = core y.
Proof.
  intros H Hy. specialize (H p). rewrite Hy in H. symmetry in H. by apply fmap_Some in H as (x & ? & ?); eauto.
Qed.

Section calm.
Context {E : Env}.

(** Only the nodes in [U] may have changed their registry. *)
Record calm (U : ptr -> Prop) (w w' : World) : Prop := {
  cm_nodes : alike node_core (w_nodes w) (w_nodes w');
  cm_usubs : forall p, ~ U p ->
    node_unit_subscriptions <$> w_nodes w' !! p = node_unit_subscriptions <$> w_nodes w !! p;
  cm_jobs : alike job_core (w_jobs w) (w_jobs w');
  cm_monitors : alike mon_core (w_monitors w) (w_monitors w');
  cm_proxies : alike pm_core (w_proxies w) (w_proxies w');
  cm_deps : forall p m m', w_proxies w !! p = Some m -> w_proxies w' !! p = Some m' ->
    pm_added_dep m' = true -> pm_added_dep m = true;
  cm_credit : forall p, credit w p <= credit w' p;
  cm_subs : w_subs w' = w_subs w;
  cm_setups : w_setups w' = w_setups w;
  cm_reqs : w_reqs w' = w_reqs w;
  cm_fleets : w_fleets w' = w_fleets w;
  cm_asked : forall r, asks (AnswerTo r) w' = asks (AnswerTo r) w;
  cm_waits : forall a, asks a w <= asks a w';
  cm_controller : ctl_core (w_controller w') = ctl_core (w_controller w);
  cm_next : (w_next_ptr w <= w_next_ptr w')%positive;
}.

#[export] Instance calm_preorder U : PreOrder (calm U).
Proof.
  split; [intros w; split; try done; congruence|]. intros w1 w2 w3 [] []. split; try congruence; try by eapply alike_trans.
  - intros p Hp. by rewrite cm_usubs1, cm_usubs0.
  - intros p m m' Hm Hm' Hd. destruct (alike_some _ _ _ p m cm_proxies0 Hm) as (m2 & Hm2 & _). eauto.
  - intros p. by trans (credit w2 p).
  - intros a. by trans (asks a w2).
  - by etrans.
Qed.

Lemma calm_weaken (U V : ptr -> Prop) w w' : (forall p, U p -> V p) -> calm U w w' -> calm V w w'.
Proof. intros HUV []. split; try done. intros p Hp. apply cm_usubs0. naive_solver. Qed.

Ltac same_deps := cbn; intros ? ? ? ? ? ?; congruence.
Ltac calm_fields := split; try done; try same_deps.

(** Steps that touch none of the stores and make no call. *)
Definition stores_of (w : World) :=
  (w_nodes w, w_jobs w, w_monitors w, w_subs w, w_proxies w, w_reqs w, w_setups w, w_fleets w).
Lemma calm_stores U w w' :
  stores_of w' = stores_of w -> w_trace w' = w_trace w ->
  ctl_core (w_controller w') = ctl_core (w_controller w) -> (w_next_ptr w <= w_next_ptr w')%positive -> calm U w w'.
Proof.
  unfold stores_of. intros [=] Ht Hc Hn.
  assert (forall a, asks a w' = asks a w) as Ha by (intros a; unfold asks; by rewrite Ht).
  split; try congruence; try (intros ?; by rewrite Ha).
  all: try (intros p; congruence). intros p. unfold credit. rewrite Ha. by replace (w_proxies w') with (w_proxies w).
Qed.

(** Both states may get the same subscriptions. *)
Lemma calm_with_subs U m w w' : calm U w w' -> calm U (w <| w_subs := m |>) (w' <| w_subs := m |>).
Proof. intros []. by split. Qed.
Context (U : ptr -> Prop).

Lemma calm_emit c w : plain c = true -> calm U w (emit c w).
Proof.
  intros Hc. pose proof (fun a => asks_emit_plain a c w Hc) as Ha.
  calm_fields; try (intros ?; by rewrite Ha). intros p. unfold credit. by rewrite Ha.
Qed.

Lemma steps_bus c : plain c = true -> steps (calm U) (bus c).
Proof. intros Hc w. cbn. by apply (calm_emit c w). Qed.
Lemma steps_local : steps (calm U) local.
Proof. intros w. by apply calm_stores. Qed.
Lemma steps_local_ok : steps (calm U) local_ok.
Proof. apply (steps_bind _); [apply steps_local|]. intros r. apply (steps_ret _). Qed.
Lemma steps_get_time_micros : steps (calm U) get_time_micros.
Proof. intros w. unfold get_time_micros. destruct (clock_realtime _); [by apply calm_stores|done]. Qed.
Lemma steps_get_time_micros_monotonic : steps (calm U) get_time_micros_monotonic.
Proof. intros w. unfold get_time_micros_monotonic. destruct (clock_monotonic _); [by apply calm_stores|done]. Qed.
Lemma steps_upd_controller f :
  (forall c, ctl_core (f c) = ctl_core c) -> steps (calm U) (upd_controller f).
Proof. intros Hf w. cbn. apply calm_stores; try done. apply Hf. Qed.

Lemma steps_update {T} {S : Store T} p (f : T -> T) :
  (forall w x, store_get w !! p = Some x -> calm U w (store_upd <[p := f x]> w)) ->
  steps (calm U) (update p f).
Proof.
  intros H w. unfold update, load, deref, mbind, M_bind. destruct (store_get w !! p) eqn:Hp; [|done].
  by apply H.
Qed.

Ltac same_credit := intros ?; unfold credit, asks; cbn; lia.

Lemma calm_update_node w p n n' :
  w_nodes w !! p = Some n -> node_core n' = node_core n ->
  (U p \/ node_unit_subscriptions n' = node_unit_subscriptions n) ->
  calm U w (store_upd (T := Node) <[p := n']> w).
Proof.
  intros Hn Hc Hu. calm_fields; cbn; [by apply (alike_update _ _ _ n)|]. intros q Hq.
  destruct (decide (q = p)) as [->|Hne]; [|by rewrite lookup_insert_ne].
  rewrite lookup_insert_eq, Hn. cbn. destruct Hu as [Hu|Hu]; [done|by rewrite Hu].
Qed.
Lemma steps_update_node p (f : Node -> Node) :
  (forall n, node_core (f n) = node_core n) ->
  (forall n, node_unit_subscriptions (f n) = node_unit_subscriptions n) ->
  steps (calm U) (update p f).
Proof. intros Hc Hu. apply steps_update. intros w n Hn. eapply calm_update_node; eauto. Qed.
Lemma steps_update_usubs p f : U p -> steps (calm U) (update_usubs p f).
Proof. intros Hp. apply steps_update. intros w n Hn. by eapply calm_update_node; eauto. Qed.

Lemma calm_update_job w p j j' :
  w_jobs w !! p = Some j -> job_core j' = job_core j -> calm U w (store_upd (T := Job) <[p := j']> w).
Proof. intros Hj Hc. calm_fields; cbn. by apply (alike_update _ _ _ j). Qed.
Lemma steps_update_job p (f : Job -> Job) :
  (forall j, job_core (f j) = job_core j) -> steps (calm U) (update p f).
Proof. intros Hc. apply steps_update. intros w j Hj. by eapply calm_update_job. Qed.

Lemma calm_update_monitor w p m m' :
  w_monitors w !! p = Some m -> mon_core m' = mon_core m ->
  calm U w (store_upd (T := Monitor) <[p := m']> w).
Proof. intros Hm Hc. calm_fields; cbn. by apply (alike_update _ _ _ m). Qed.
Lemma steps_update_monitor p (f : Monitor -> Monitor) :
  (forall m, mon_core (f m) = mon_core m) -> steps (calm U) (update p f).
Proof. intros Hc. apply steps_update. intros w m Hm. by eapply calm_update_monitor. Qed.

Lemma credit_proxy_update w p m m' q :
  w_proxies w !! p = Some m ->
  credit (store_upd (T := ProxyMonitor) <[p := m']> w) q =
  credit w q + (if decide (q = p) then pm_ref_count m' - pm_ref_count m else 0).
Proof.
  intros Hm. unfold credit. change (w_trace (store_upd _ w)) with (w_trace w). cbn.
  unfold asks at 1. cbn. fold (asks (AnswerToProxy q) w). case_decide as Hq.
  - subst q. rewrite lookup_insert_eq, Hm. cbn. lia.
  - rewrite lookup_insert_ne by done. lia.
Qed.
Lemma calm_update_proxy w p m m' :
  w_proxies w !! p = Some m -> pm_core m' = pm_core m -> pm_ref_count m <= pm_ref_count m' ->
  (pm_added_dep m' = true -> pm_added_dep m = true) ->
  calm U w (store_upd (T := ProxyMonitor) <[p := m']> w).
Proof.
  intros Hm Hc Hr Hd. split; try done; cbn.
  - by apply (alike_update _ _ _ m).
  - intros q x y Hx [[<- <-]|[Hne Hy]]%lookup_insert_Some; [|congruence]. intros ?. simplify_eq. auto.
  - intros q. change (credit w q <= credit (store_upd (T := ProxyMonitor) <[p := m']> w) q).
    rewrite (credit_proxy_update _ _ m) by done. case_decide; lia.
Qed.
Lemma steps_update_proxy p (f : ProxyMonitor -> ProxyMonitor) :
  (forall m, pm_core (f m) = pm_core m) -> (forall m, pm_ref_count (f m) = pm_ref_count m) ->
  (forall m, pm_added_dep (f m) = true -> pm_added_dep m = true) -> steps (calm U) (update p f).
Proof.
  intros Hc Hr Hd. apply steps_update. intros w m Hm. eapply calm_update_proxy; eauto. rewrite Hr. lia.
Qed.

(** A call on a proxy takes a reference for its answer. *)
Lemma calm_proxy_call w p m b path method args :
  w_proxies w !! p = Some m ->
  calm U w (emit (ProxyCallAsync b path method args p)
    (store_upd (T := ProxyMonitor) <[p := m <| pm_ref_count ::= Z.succ |>]> w)).
Proof.
  intros Hm. set (m' := m <| pm_ref_count ::= Z.succ |>). set (c := ProxyCallAsync b path method args p).
  set (w1 := store_upd (T := ProxyMonitor) <[p := m']> w).
  assert (calm U w w1) as H1 by (apply (calm_update_proxy _ _ m); try done; cbn; lia).
  assert (forall q, asks_by c (Datatypes.length (w_trace w1)) (AnswerToProxy q) <=
    if decide (q = p) then 1 else 0) as Hp.
  { intros q. unfold asks_by, awaits. destruct (bus_result _ c <? 0); cbn; [by case_decide|].
    rewrite count_cons. case_decide; case_decide; cbn; simplify_eq; done || lia. }
  assert (forall r, asks_by c (Datatypes.length (w_trace w1)) (AnswerTo r) = 0) as Hr.
  { intros r. unfold asks_by, awaits. by destruct (bus_result _ c <? 0). }
  assert (forall a k, 0 <= asks_by c k a) as Hpos by (intros; unfold asks_by; lia).
  destruct H1. split; try done.
  - intros q. unfold credit. rewrite asks_emit. specialize (Hp q).
    pose proof (credit_proxy_update w p m m' q Hm) as Hc. fold w1 in Hc. unfold credit in Hc at 1.
    unfold credit in *. subst m'. cbn [pm_ref_count field_update] in Hc.
    change (w_proxies (emit c w1)) with (w_proxies w1). case_decide; lia.
  - intros r. rewrite asks_emit, Hr, cm_asked0. lia.
  - intros a. rewrite asks_emit. specialize (cm_waits0 a). specialize (Hpos a (Datatypes.length (w_trace w1))). lia.
Qed.
Lemma steps_proxy_monitor_call p method args : steps (calm U) (proxy_monitor_call p method args).
Proof.
  intros w. unfold proxy_monitor_call, load, deref, mbind, M_bind. cbn.
  destruct (w_proxies w !! p) as [m|] eqn:Hm; [|done]. destruct (w_nodes w !! pm_node m) as [n|]; [|done].
  unfold proxy_monitor_ref, update, load, deref, mbind, M_bind. cbn. rewrite Hm. cbn.
  destruct (node_agent_bus n) as [b|]; cbn.
  - by apply calm_proxy_call.
  - apply (calm_update_proxy _ _ m); try done. cbn. lia.
Qed.

Lemma steps_load {T} {S : Store T} p : steps (calm U) (load (T := T) p).
Proof. apply (steps_deref _). Qed.
Lemma steps_list_remove_from p l : steps (calm U) (list_remove_from p l).
Proof. apply (steps_bind _); [apply (steps_assert _)|]. intros _. apply (steps_ret _). Qed.
End calm.

(** Take a program apart; a call of another function is unfolded. *)
Create HintDb calm discriminated.
#[export] Hint Resolve steps_local steps_local_ok steps_get_time_micros
  steps_get_time_micros_monotonic steps_proxy_monitor_call steps_load
  steps_list_remove_from : calm.

Ltac head_of_term t := lazymatch t with ?f _ => head_of_term f | _ => t end.
Ltac calm_step :=
  lazymatch goal with
  | |- steps _ (mret _) => apply (steps_ret _)
  | |- steps _ (crash_with _) => apply (steps_crash _)
  | |- steps _ (mbind _ _) => apply (steps_bind _); [|intros ?]
  | |- steps _ (match ?x with _ => _ end) => destruct x eqn:?
  | |- steps _ (foreach _ _) => apply (steps_foreach _); intros ?
  | |- steps _ (find_first _ _) => apply (steps_find_first _); intros ?
  | |- steps _ (deref _) => apply (steps_deref _)
  | |- steps _ (c_assert _) => apply (steps_assert _)
  | |- steps _ (gets _) => apply (steps_gets _)
  | |- steps _ controller => apply (steps_gets _)
  | |- steps _ (load _) => apply steps_load
  | |- steps _ (bus _) => by apply steps_bus
  | |- steps _ (update_usubs _ _) => by apply steps_update_usubs
  | |- steps _ (modify _) => intros ?; by apply calm_stores
  | |- steps _ (upd_controller _) => apply steps_upd_controller; by intros
  | |- steps _ (update _ _) =>
      first [apply steps_update_node; by intros | apply steps_update_job; by intros
            |apply steps_update_monitor; by intros | apply steps_update_proxy; by intros]
  | |- steps _ ?m => first [solve [eauto with calm] | let h := head_of_term m in unfold h]
  end.
Ltac calm_tac := repeat (cbn beta iota; calm_step).

Section calm_functions.
Context {E : Env} (U : ptr -> Prop).

Lemma calm_build_steps n : steps (calm U) (build_steps n).
Proof. induction n; calm_tac. Qed.
Lemma calm_collect_subs unique subs : steps (calm U) (collect_subs unique subs).
Proof. revert unique. induction subs; intros; calm_tac; auto. Qed.
Lemma calm_match_signals b members : steps (calm U) (match_signals b members).
Proof. induction members; calm_tac; auto. Qed.
Lemma calm_encode_nodes nodes reply : steps (calm U) (encode_nodes nodes reply).
Proof. pose proof calm_build_steps. revert reply. induction nodes; intros; calm_tac; auto. Qed.
Lemma calm_encode_sub_reqs l reply : steps (calm U) (encode_sub_reqs l reply).
Proof. pose proof calm_build_steps. revert reply. induction l; intros; calm_tac; auto. Qed.
End calm_functions.
#[export] Hint Resolve calm_build_steps calm_collect_subs calm_match_signals calm_encode_nodes
  calm_encode_sub_reqs : calm.

Section calm_functions.
Context {E : Env} (U : ptr -> Prop).

(** Delivering events. *)
Lemma calm_sub_handle sub node unit e : steps (calm U) (sub_handle sub node unit e).
Proof. calm_tac. Qed.
Hint Resolve calm_sub_handle : calm.
Lemma calm_node_deliver p unit e : steps (calm U) (node_deliver p unit e).
Proof. calm_tac. Qed.
Hint Resolve calm_node_deliver : calm.
Lemma calm_match_unit_properties_changed p m args :
  steps (calm U) (node_match_unit_properties_changed p m args).
Proof. calm_tac. Qed.
Lemma calm_match_unit_new p args : U p -> steps (calm U) (node_match_unit_new p args).
Proof. intros Hp. calm_tac. Qed.
Lemma calm_match_unit_state_changed p args : U p -> steps (calm U) (node_match_unit_state_changed p args).
Proof. intros Hp. calm_tac. Qed.
Lemma calm_match_unit_removed p args : U p -> steps (calm U) (node_match_unit_removed p args).
Proof. intros Hp. calm_tac. Qed.
Lemma calm_disconnect_units p : U p -> steps (calm U) (node_disconnect_units p).
Proof. intros Hp. calm_tac. Qed.

(** The registry. *)
Lemma calm_node_subscribe p sub : U p -> steps (calm U) (node_subscribe p sub).
Proof.
  intros Hp. unfold node_subscribe. apply (steps_bind _); [apply steps_load|]. intros s.
  induction (sub_units s); cbn [node_subscribe_units]; calm_tac; auto.
Qed.
Lemma calm_node_unsubscribe p sub : U p -> steps (calm U) (node_unsubscribe p sub).
Proof. intros Hp. calm_tac. Qed.
Lemma calm_find_node name : steps (calm U) (controller_find_node name).
Proof. calm_tac. Qed.
Hint Resolve calm_find_node : calm.

(** Nodes and their agents. *)
Lemma calm_send p method arg : steps (calm U) (send_agent_simple_message p method arg).
Proof. calm_tac. Qed.
Hint Resolve calm_send : calm.
Lemma calm_unset_agent_bus p : steps (calm U) (node_unset_agent_bus p).
Proof. calm_tac. Qed.
Hint Resolve calm_unset_agent_bus : calm.
Lemma calm_set_agent_bus p b : steps (calm U) (node_set_agent_bus p b).
Proof. calm_tac. Qed.
Hint Resolve calm_set_agent_bus : calm.
Lemma calm_add_dependency p unit : steps (calm U) (node_add_proxy_dependency p unit).
Proof. calm_tac. Qed.
Lemma calm_remove_dependency p unit : steps (calm U) (node_remove_proxy_dependency p unit).
Proof. calm_tac. Qed.
Lemma calm_drop_dep p : steps (calm U) (proxy_monitor_drop_dep p).
Proof. pose proof calm_remove_dependency. calm_tac. Qed.
Lemma calm_register m args p : steps (calm U) (node_method_register m args p).
Proof. calm_tac. Qed.
Lemma calm_heartbeat p : steps (calm U) (node_match_heartbeat p).
Proof. calm_tac. Qed.
Lemma calm_count_online f : steps (calm U) (count_online f).
Proof. calm_tac. Qed.

(** Jobs and metrics. *)
Lemma calm_job_state_changed args : steps (calm U) (node_match_job_state_changed args).
Proof. calm_tac. Qed.
Lemma calm_job_export p : steps (calm U) (job_export p).
Proof. calm_tac. Qed.
Lemma calm_job_report p : steps (calm U) (metrics_produce_job_report p).
Proof. calm_tac. Qed.
Lemma calm_agent_job p args : steps (calm U) (node_metrics_match_agent_job p args).
Proof. calm_tac. Qed.

(** Methods that change no object. *)
Lemma calm_set_log_level m args : steps (calm U) (controller_method_set_log_level m args).
Proof. calm_tac. Qed.
Lemma calm_node_set_log_level m args p : steps (calm U) (node_method_set_log_level m args p).
Proof. calm_tac. Qed.
Lemma calm_list_nodes m : steps (calm U) (controller_method_list_nodes m).
Proof. calm_tac. Qed.
Lemma calm_get_node m args : steps (calm U) (controller_method_get_node m args).
Proof. calm_tac. Qed.
Lemma calm_metrics_enable m : steps (calm U) (controller_method_metrics_enable m).
Proof. calm_tac. Qed.
Lemma calm_metrics_disable m : steps (calm U) (controller_method_metrics_disable m).
Proof. calm_tac. Qed.
Lemma calm_filter m path iface : steps (calm U) (controller_dbus_filter m path iface).
Proof. calm_tac. Qed.
Lemma calm_add_peer m args p : steps (calm U) (monitor_method_add_peer m args p).
Proof. calm_tac. Qed.
Lemma calm_remove_peer m args p : steps (calm U) (monitor_method_remove_peer m args p).
Proof. calm_tac. Qed.
End calm_functions.
#[export] Hint Resolve calm_sub_handle calm_node_deliver calm_find_node calm_send
  calm_unset_agent_bus calm_set_agent_bus : calm.

(** ** The parts *)

(** The nodes that are configured are listed, the others wait for a registration. *)
Record nodes_ok (nodes : gmap ptr Node) (listed anonymous : list ptr) (number : Z) : Prop := {
  no_number : number = Z.of_nat (Datatypes.length listed);
  no_path : forall p n, p ∈ listed -> nodes !! p = Some n -> node_object_path n <> None;
  no_named : forall p n, nodes !! p = Some n -> node_name n <> None -> p ∈ listed;
  no_anonymous : forall p n, nodes !! p = Some n -> node_name n = None ->
    p ∈ anonymous /\ node_ref_count n = 1 /\ node_unit_subscriptions n = ∅ /\
    node_proxy_monitors n = [] /\ node_export_slot n = false;
  no_waiting : forall p, p ∈ anonymous -> exists n, nodes !! p = Some n /\ node_name n = None;
  no_once : NoDup anonymous;
}.

(** The owners of a listed node: the list, requests, proxies for one of its units, and the
    entries of requests to all agents. The handler may hold [δ p] more. *)
Definition asks_node (p : ptr) (r : AgentRequest) : bool := bool_decide (req_node r = p).
Definition aims_at (p : ptr) (m : ProxyMonitor) : bool := bool_decide (pm_target_node m = Some p).
Definition entries_on (p : ptr) (f : AgentFleetRequest) : Z :=
  Z.of_nat (count p (sr_node <$> fl_sub_req f)).
Definition node_owners reqs proxies fleets (p : ptr) : Z :=
  1 + count_map (asks_node p) reqs + count_map (aims_at p) proxies + sum_map (entries_on p) fleets.
Definition refs_ok (δ : ptr -> Z) (nodes : gmap ptr Node) (listed : list ptr) reqs proxies fleets : Prop :=
  forall p n, p ∈ listed -> nodes !! p = Some n ->
    node_ref_count n = δ p + node_owners reqs proxies fleets p.

(** Jobs belong to the list and to the set-up of the request that will start them, set-ups
    belong to their request. The handler may hold [δj p] and [δs s] more. *)
Definition sets_up (p : ptr) (s : JobSetup) : bool := bool_decide (setup_job s = Some p).
Definition will_start (s : ptr) (r : AgentRequest) : bool :=
  match req_cb r with unit_lifecycle_method_callback s' => bool_decide (s = s') | _ => false end.
Record jobs_ok (δj δs : ptr -> Z) (jobs : gmap ptr Job) (setups : gmap ptr JobSetup)
    (reqs : gmap ptr AgentRequest) (listed nodes : list ptr) : Prop := {
  jo_listed : forall p, p ∈ listed -> is_Some (jobs !! p);
  jo_job : forall p j, jobs !! p = Some j -> job_node j ∈ nodes /\
    job_ref_count j = δj p + Z.of_nat (count p listed) + count_map (sets_up p) setups;
  jo_setup : forall s x, setups !! s = Some x ->
    setup_ref_count x = δs s + count_map (will_start s) reqs /\
    exists p, setup_job x = Some p /\ is_Some (jobs !! p);
  jo_request : forall r q s, reqs !! r = Some q -> req_cb q = unit_lifecycle_method_callback s ->
    is_Some (setups !! s);
  jo_held : forall p, 0 <= δj p /\ 0 <= δs p /\ (1 <= δj p -> is_Some (jobs !! p)) /\
    (1 <= δs p -> is_Some (setups !! p));
}.

(** Requests belong to the answer they wait for ([wait]) and to the entry of a request to all
    agents; the handler may hold [δ r] more. *)
Definition entries_of (r : ptr) (f : AgentFleetRequest) : Z :=
  Z.of_nat (count r (sr_agent_req <$> fl_sub_req f)).
Definition done_of (wait : ptr -> Z) (f : AgentFleetRequest) : Z :=
  Z.of_nat (Datatypes.length (List.filter (fun s => wait (sr_agent_req s) =? 0) (fl_sub_req f))).
Record reqs_ok (δ wait : ptr -> Z) (nodes : gmap ptr Node) (reqs : gmap ptr AgentRequest)
    (fleets : gmap ptr AgentFleetRequest) (listed : list ptr) : Prop := {
  ro_request : forall r q, reqs !! r = Some q -> req_node q ∈ listed /\
    (forall n, nodes !! req_node q = Some n -> r ∈ node_outstanding_requests n) /\
    req_is_cancelled q = false /\
    req_ref_count q = δ r + wait r + sum_map (entries_of r) fleets;
  ro_held : forall r, 0 <= δ r /\ (1 <= δ r -> is_Some (reqs !! r));
  ro_wait : forall r, 0 <= wait r <= 1;
  ro_dead : forall r, reqs !! r = None -> wait r = 0;
  ro_entries : forall f x, fleets !! f = Some x -> NoDup (sr_agent_req <$> fl_sub_req x) /\
    forall s, s ∈ fl_sub_req x -> sr_node s ∈ listed /\ exists q,
      reqs !! sr_agent_req s = Some q /\ req_cb q = agent_fleet_request_callback f;
  ro_done : forall f x, fleets !! f = Some x -> fl_n_done x = done_of wait x;
  ro_awaited : forall r q f, reqs !! r = Some q -> req_cb q = agent_fleet_request_callback f ->
    wait r = 1 -> δ r = 0 -> exists x, fleets !! f = Some x /\ r ∈ sr_agent_req <$> fl_sub_req x;
  ro_outstanding : forall p n, p ∈ listed -> nodes !! p = Some n -> NoDup (node_outstanding_requests n) /\
    forall r, r ∈ node_outstanding_requests n -> exists q, reqs !! r = Some q /\ req_node q = p;
  ro_positive : forall r q, reqs !! r = Some q -> 1 <= req_ref_count q;
}.
(** A request to all agents waits for answers, unless the handler is busy with it. *)
Definition fleets_open (busy : ptr -> bool) (fleets : gmap ptr AgentFleetRequest) : Prop :=
  forall f x, fleets !! f = Some x -> busy f = false -> fl_n_done x <> fl_n_sub_req x.

(** Monitors are listed, and own their subscriptions. The handler holds [δ p] references. *)
Record monitors_ok (δ : ptr -> Z) (monitors : gmap ptr Monitor) (subs : gmap ptr Subscription)
    (listed registered : list ptr) : Prop := {
  mo_once : NoDup listed;
  mo_listed : forall p, p ∈ listed -> is_Some (monitors !! p);
  mo_held : forall p, 0 <= δ p /\ (1 <= δ p -> is_Some (monitors !! p));
  mo_monitor : forall p m, monitors !! p = Some m ->
    (p ∈ listed \/ 1 <= δ p) /\
    mon_ref_count m = δ p + bit (bool_decide (p ∈ listed)) +
      Z.of_nat (Datatypes.length (mon_subscriptions m)) /\
    NoDup (mon_subscriptions m) /\
    forall s, s ∈ mon_subscriptions m -> s ∈ registered /\ exists x, subs !! s = Some x /\
      sub_monitor x = OfMonitor p /\ sub_ref_count x = 2;
  mo_sub : forall s x p, s ∈ registered -> subs !! s = Some x -> sub_monitor x = OfMonitor p ->
    exists m, monitors !! p = Some m /\ s ∈ mon_subscriptions m;
}.

(** Proxy monitors belong to the list of their node and to the answers they wait for; [room]
    is what is left of their count besides the answers. The handler may be about to list
    those in [up], whose subscriptions are registered already. *)
Definition pm_listed (nodes : gmap ptr Node) (p : ptr) (x : ProxyMonitor) : bool :=
  match nodes !! pm_node x with Some n => bool_decide (p ∈ node_proxy_monitors n) | None => false end.
Definition pm_up (up : ptr -> bool) nodes p x : bool := pm_listed nodes p x || up p.
Record proxies_ok (up : ptr -> bool) (room wait : ptr -> Z) (nodes : gmap ptr Node) (proxies : gmap ptr ProxyMonitor)
    (subs : gmap ptr Subscription) (listed registered : list ptr) : Prop := {
  po_proxy : forall p x, proxies !! p = Some x -> pm_node x ∈ listed /\
    (exists s y, pm_subscription x = Some s /\ subs !! s = Some y /\
       sub_monitor y = OfProxyMonitor p /\ sub_ref_count y = 1 + bit (pm_up up nodes p x) /\
       (s ∈ registered <-> pm_up up nodes p x = true)) /\
    (pm_added_dep x = true -> pm_target_node x <> None) /\
    (forall t, pm_target_node x = Some t -> t ∈ listed) /\
    bit (pm_up up nodes p x) <= room p;
  po_wait : forall p, 0 <= wait p;
  po_dead : forall p, proxies !! p = None -> wait p = 0;
  po_list : forall p n, p ∈ listed -> nodes !! p = Some n -> NoDup (node_proxy_monitors n) /\
    forall q, q ∈ node_proxy_monitors n -> exists x, proxies !! q = Some x /\ pm_node x = p /\
      pm_target_node x <> None;
  po_sub : forall s y p, s ∈ registered -> subs !! s = Some y -> sub_monitor y = OfProxyMonitor p ->
    exists x, proxies !! p = Some x /\ pm_subscription x = Some s;
}.

(** No object has an address that is still to be given away. *)
Record fresh_ok (w : World) : Prop := {
  fr_nodes : forall p, (w_next_ptr w <= p)%positive -> w_nodes w !! p = None;
  fr_jobs : forall p, (w_next_ptr w <= p)%positive -> w_jobs w !! p = None;
  fr_monitors : forall p, (w_next_ptr w <= p)%positive -> w_monitors w !! p = None;
  fr_subs : forall p, (w_next_ptr w <= p)%positive -> w_subs w !! p = None;
  fr_proxies : forall p, (w_next_ptr w <= p)%positive -> w_proxies w !! p = None;
  fr_reqs : forall p, (w_next_ptr w <= p)%positive -> w_reqs w !! p = None;
  fr_setups : forall p, (w_next_ptr w <= p)%positive -> w_setups w !! p = None;
  fr_fleets : forall p, (w_next_ptr w <= p)%positive -> w_fleets w !! p = None;
}.

Section fresh.
Context {T : Type} {m : gmap ptr T} {n : ptr} (H : forall p, (n <= p)%positive -> m !! p = None).
Lemma fresh_update p x y : m !! p = Some x -> forall q, (n <= q)%positive -> <[p := y]> m !! q = None.
Proof. intros Hp q Hq. rewrite lookup_insert_ne; [auto|]. intros ->. rewrite H in Hp by done. done. Qed.
Lemma fresh_delete p : forall q, (n <= q)%positive -> delete p m !! q = None.
Proof. intros q Hq. rewrite lookup_delete. case_decide; auto. Qed.
Lemma fresh_later : forall q, (Pos.succ n <= q)%positive -> m !! q = None.
Proof. intros q Hq. apply H. lia. Qed.
Lemma fresh_new y : forall q, (Pos.succ n <= q)%positive -> <[n := y]> m !! q = None.
Proof. intros q Hq. rewrite lookup_insert_ne by lia. apply H. lia. Qed.
End fresh.
Create HintDb fresh discriminated.
#[export] Hint Resolve fresh_update fresh_delete fresh_later fresh_new : fresh.
Ltac fresh_tac := match goal with H : fresh_ok _ |- fresh_ok _ => destruct H; split; cbn; eauto 6 with fresh end.

(** ** The whole *)

Section inv.
Context {E : Env}.

(** The answers still to come when [answered] have been delivered. *)
Definition got (answered : list answer) (a : answer) : Z := Z.of_nat (count a answered).
Definition req_wait (answered : list answer) (w : World) (r : ptr) : Z :=
  asks (AnswerTo r) w - got answered (AnswerTo r).
Definition proxy_wait (answered : list answer) (w : World) (p : ptr) : Z :=
  asks (AnswerToProxy p) w - got answered (AnswerToProxy p).
Definition proxy_room (answered : list answer) (w : World) (p : ptr) : Z :=
  credit w p + got answered (AnswerToProxy p).

(** The references that the running handler holds; none between two events. *)
Record held := mkHeld {
  h_node : ptr -> Z; h_job : ptr -> Z; h_setup : ptr -> Z; h_req : ptr -> Z; h_monitor : ptr -> Z;
  h_proxy : ptr -> bool; h_fleet : ptr -> bool }.
#[export] Instance eta_held : EtaRecord held := fun h =>
  mkHeld (h_node h) (h_job h) (h_setup h) (h_req h) (h_monitor h) (h_proxy h) (h_fleet h).
Definition nothing : held :=
  mkHeld (fun _ => 0) (fun _ => 0) (fun _ => 0) (fun _ => 0) (fun _ => 0) (fun _ => false) (fun _ => false).

Record owners_inv (h : held) (answered : list answer) (w : World) : Prop := {
  ci_nodes : nodes_ok (w_nodes w) (c_nodes (w_controller w)) (c_anonymous_nodes (w_controller w))
    (c_number_of_nodes (w_controller w));
  ci_refs : refs_ok (h_node h) (w_nodes w) (c_nodes (w_controller w)) (w_reqs w) (w_proxies w)
    (w_fleets w);
  ci_jobs : jobs_ok (h_job h) (h_setup h) (w_jobs w) (w_setups w) (w_reqs w) (c_jobs (w_controller w))
    (c_nodes (w_controller w));
  ci_reqs : reqs_ok (h_req h) (req_wait answered w) (w_nodes w) (w_reqs w) (w_fleets w)
    (c_nodes (w_controller w));
  ci_open : fleets_open (h_fleet h) (w_fleets w);
  ci_monitors : monitors_ok (h_monitor h) (w_monitors w) (w_subs w) (c_monitors (w_controller w))
    (c_all_subscriptions (w_controller w));
  ci_proxies : proxies_ok (h_proxy h) (proxy_room answered w) (proxy_wait answered w) (w_nodes w) (w_proxies w)
    (w_subs w) (c_nodes (w_controller w)) (c_all_subscriptions (w_controller w));
  ci_fresh : fresh_ok w;
  ci_self : c_ref_count (w_controller w) = 1;
}.
Record controller_inv (h : held) (answered : list answer) (w : World) : Prop := {
  ci_registry : registry_ok w;
  ci_owners :> owners_inv h answered w;
}.

(** Only the values of what is held matter. *)
Definition same_held (h h' : held) : Prop :=
  (forall p, h_node h' p = h_node h p) /\ (forall p, h_job h' p = h_job h p) /\
  (forall p, h_setup h' p = h_setup h p) /\ (forall p, h_req h' p = h_req h p) /\
  (forall p, h_monitor h' p = h_monitor h p) /\ (forall p, h_proxy h' p = h_proxy h p) /\
  (forall p, h_fleet h' p = h_fleet h p).
Lemma done_of_ext wait wait' f : (forall r, wait' r = wait r) -> done_of wait' f = done_of wait f.
Proof. intros H. unfold done_of. do 2 f_equal. apply List.filter_ext. intros s. by rewrite H. Qed.
Lemma reqs_ok_ext δ δ' wait wait' nodes reqs fleets l :
  (forall r, δ' r = δ r) -> (forall r, wait' r = wait r) ->
  reqs_ok δ wait nodes reqs fleets l -> reqs_ok δ' wait' nodes reqs fleets l.
Proof.
  intros Hδ Hw []. split; try done.
  - intros r q Hq. rewrite Hδ, Hw. by apply ro_request0.
  - intros r. by rewrite Hδ.
  - intros r. rewrite Hw. done.
  - intros r Hr. rewrite Hw. auto.
  - intros f x Hx. rewrite (done_of_ext wait) by done. eauto.
  - intros r q f Hq Hf. rewrite Hw, Hδ. eauto.
Qed.
Lemma controller_inv_held h h' a w : same_held h h' -> controller_inv h a w -> controller_inv h' a w.
Proof.
  intros (E1 & E2 & E3 & E4 & E5 & E6 & E7) [Hreg []]. split; [done|]. split; try done.
  - intros p n Hp Hn. rewrite E1. by apply ci_refs0.
  - destruct ci_jobs0. split; try done.
    + intros p j Hj. rewrite E2. by apply jo_job0.
    + intros s x Hx. rewrite E3. by apply jo_setup0.
    + intros p. by rewrite E2, E3.
  - by eapply reqs_ok_ext; [exact E4|done|exact ci_reqs0].
  - intros f x Hx. rewrite E7. by apply ci_open0.
  - destruct ci_monitors0. split; try done.
    + intros p. by rewrite E5.
    + intros p m Hm. rewrite E5. by apply mo_monitor0.
  - destruct ci_proxies0. split; try done. intros p x Hx. unfold pm_up. rewrite E6. by apply po_proxy0.
Qed.

(** Holding more. *)
Definition plus (p : ptr) (k : Z) (δ : ptr -> Z) : ptr -> Z := fun q => δ q + if decide (q = p) then k else 0.
Definition hold_node (p : ptr) (k : Z) (h : held) : held := h <| h_node ::= plus p k |>.
Definition hold_job (p : ptr) (k : Z) (h : held) : held := h <| h_job ::= plus p k |>.
Definition hold_setup (p : ptr) (k : Z) (h : held) : held := h <| h_setup ::= plus p k |>.
Definition hold_req (p : ptr) (k : Z) (h : held) : held := h <| h_req ::= plus p k |>.
Definition hold_monitor (p : ptr) (k : Z) (h : held) : held := h <| h_monitor ::= plus p k |>.
Lemma plus_eq p k δ : plus p k δ p = δ p + k.
Proof. unfold plus. by rewrite decide_True. Qed.
Lemma plus_ne p k δ q : q <> p -> plus p k δ q = δ q.
Proof. intros Hq. unfold plus. rewrite decide_False by done. lia. Qed.
End inv.

(** ** Calm steps keep it *)

Lemma count_map_core {T X} (core : T -> X) (P : T -> bool) (P' : X -> bool) m m' :
  (forall x, P x = P' (core x)) -> alike core m m' -> count_map P m' = count_map P m.
Proof.
  intros HP H.
  assert (core <$> m' = core <$> m) as Hf by (apply map_eq; intros p; rewrite !lookup_fmap; apply H).
  assert (forall k : gmap ptr T, count_map P k = count_map P' (core <$> k)) as Hc.
  { intros k. unfold count_map. rewrite map_to_list_fmap, <- !list_fmap_compose. f_equal.
    induction (map_to_list k) as [|[p x] l IH]; cbn; [done|]. rewrite HP.
    destruct (P' (core x)); cbn; by rewrite IH. }
  by rewrite !Hc, Hf.
Qed.

(** Cores of nodes, proxies and the controller. *)
Ltac core_of H := unfold node_core, pm_core, job_core, mon_core, ctl_core in H; injection H as H; intros.

(** Nothing registered is touched by a step that is calm everywhere. *)
Abbreviation still := (calm (fun _ => False)).

Section calm_inv.
Context {E : Env}.

Lemma calm_listed U w w' : calm U w w' ->
  c_nodes (w_controller w') = c_nodes (w_controller w) /\
  c_anonymous_nodes (w_controller w') = c_anonymous_nodes (w_controller w) /\
  c_number_of_nodes (w_controller w') = c_number_of_nodes (w_controller w) /\
  c_jobs (w_controller w') = c_jobs (w_controller w) /\
  c_monitors (w_controller w') = c_monitors (w_controller w) /\
  c_all_subscriptions (w_controller w') = c_all_subscriptions (w_controller w).
Proof. intros Hc. pose proof (cm_controller _ _ _ Hc) as H. unfold ctl_core in H. by simplify_eq. Qed.

Lemma calm_node U w w' p n : calm U w w' -> w_nodes w !! p = Some n ->
  exists n', w_nodes w' !! p = Some n' /\ node_core n' = node_core n /\
    (~ U p -> node_unit_subscriptions n' = node_unit_subscriptions n).
Proof.
  intros Hc Hn. destruct (alike_some _ _ _ p n (cm_nodes _ _ _ Hc) Hn) as (n' & Hn' & Hcore). exists n'.
  split_and!; [done..|]. intros Hp. pose proof (cm_usubs _ _ _ Hc p Hp) as Hu. rewrite Hn, Hn' in Hu. by simplify_eq/=.
Qed.
Lemma calm_node_back U w w' p n' : calm U w w' -> w_nodes w' !! p = Some n' ->
  exists n, w_nodes w !! p = Some n /\ node_core n' = node_core n /\
    (~ U p -> node_unit_subscriptions n' = node_unit_subscriptions n).
Proof.
  intros Hc Hn'. destruct (alike_back _ _ _ p n' (cm_nodes _ _ _ Hc) Hn') as (n & Hn & _).
  exists n. split; [done|]. destruct (calm_node _ _ _ _ _ Hc Hn) as (n2 & Hn2 & ?). by simplify_eq.
Qed.

Lemma nodes_ok_calm U w w' l a k : calm U w w' -> (forall p, U p -> p ∈ l) ->
  nodes_ok (w_nodes w) l a k -> (forall p, p ∈ l -> exists n, w_nodes w !! p = Some n /\ node_name n <> None) ->
  nodes_ok (w_nodes w') l a k.
Proof.
  intros Hc HU [] Hl. split; try done.
  - intros p n' Hp (n & Hn & Hcore & _)%(calm_node_back _ _ _ _ _ Hc). core_of Hcore. specialize (no_path0 p n Hp Hn). congruence.
  - intros p n' (n & Hn & Hcore & _)%(calm_node_back _ _ _ _ _ Hc) Hname. core_of Hcore.
    eapply no_named0; [exact Hn|congruence].
  - intros p n' (n & Hn & Hcore & Hu)%(calm_node_back _ _ _ _ _ Hc) Hname. core_of Hcore.
    destruct (no_anonymous0 p n Hn) as (? & ? & ? & ? & ?); [congruence|].
    assert (~ U p) as HnU. { intros Hp%HU. destruct (Hl p Hp) as (n2 & Hn2 & ?). congruence. }
    specialize (Hu HnU). split_and!; congruence.
  - intros p Hp. destruct (no_waiting0 p Hp) as (n & Hn & Hname).
    destruct (calm_node _ _ _ _ _ Hc Hn) as (n' & Hn' & Hcore & _). core_of Hcore. exists n'. split; congruence.
Qed.

Lemma refs_ok_calm U w w' δ l : calm U w w' ->
  refs_ok δ (w_nodes w) l (w_reqs w) (w_proxies w) (w_fleets w) ->
  refs_ok δ (w_nodes w') l (w_reqs w') (w_proxies w') (w_fleets w').
Proof.
  intros Hc H p n' Hp (n & Hn & Hcore & _)%(calm_node_back _ _ _ _ _ Hc). core_of Hcore.
  specialize (H p n Hp Hn). unfold node_owners in *.
  rewrite (cm_reqs _ _ _ Hc), (cm_fleets _ _ _ Hc).
  rewrite (count_map_core pm_core (aims_at p) (fun c => bool_decide (c.2 = Some p)) _ _ (fun _ => eq_refl) (cm_proxies _ _ _ Hc)).
  congruence.
Qed.

Lemma jobs_ok_calm U w w' δj δs l nodes : calm U w w' ->
  jobs_ok δj δs (w_jobs w) (w_setups w) (w_reqs w) l nodes ->
  jobs_ok δj δs (w_jobs w') (w_setups w') (w_reqs w') l nodes.
Proof.
  intros Hc []. rewrite (cm_reqs _ _ _ Hc), (cm_setups _ _ _ Hc).
  assert (forall p, is_Some (w_jobs w !! p) -> is_Some (w_jobs w' !! p)) as Hf.
  { intros p [j Hj]. destruct (alike_some _ _ _ p j (cm_jobs _ _ _ Hc) Hj) as (j' & Hj' & _). by exists j'. }
  split; try done.
  - intros p Hp. auto.
  - intros p j' Hj'. destruct (alike_back _ _ _ p j' (cm_jobs _ _ _ Hc) Hj') as (j & Hj & Hcore).
    core_of Hcore. destruct (jo_job0 p j Hj). split; congruence.
  - intros s x Hx. destruct (jo_setup0 s x Hx) as (? & p & Hp & Hj). split; [done|]. exists p. auto.
  - intros p. destruct (jo_held0 p) as (? & ? & ? & ?). split_and!; auto.
Qed.

Lemma reqs_ok_alike nodes nodes' δ wait reqs fleets l : alike node_core nodes nodes' ->
  reqs_ok δ wait nodes reqs fleets l -> reqs_ok δ wait nodes' reqs fleets l.
Proof.
  intros Hc []. split; try done.
  - intros r q Hq. destruct (ro_request0 r q Hq) as (? & Hn & ? & ?). split_and!; try done.
    intros n' (n & Hn' & Hcore)%(alike_back _ _ _ _ _ Hc). core_of Hcore. specialize (Hn n Hn'). congruence.
  - intros p n' Hp (n & Hn & Hcore)%(alike_back _ _ _ _ _ Hc). core_of Hcore.
    replace (node_outstanding_requests n') with (node_outstanding_requests n) by congruence. by apply ro_outstanding0.
Qed.
Lemma reqs_ok_calm U w w' δ wait l : calm U w w' ->
  reqs_ok δ wait (w_nodes w) (w_reqs w) (w_fleets w) l ->
  reqs_ok δ wait (w_nodes w') (w_reqs w') (w_fleets w') l.
Proof. intros Hc H. rewrite (cm_reqs _ _ _ Hc), (cm_fleets _ _ _ Hc). eapply reqs_ok_alike; [apply Hc|exact H]. Qed.

Lemma monitors_ok_calm U w w' δ l r : calm U w w' ->
  monitors_ok δ (w_monitors w) (w_subs w) l r -> monitors_ok δ (w_monitors w') (w_subs w') l r.
Proof.
  intros Hc []. rewrite (cm_subs _ _ _ Hc). split; try done.
  - intros p Hp. rewrite <- (fmap_is_Some mon_core), (cm_monitors _ _ _ Hc p), fmap_is_Some. auto.
  - intros p. destruct (mo_held0 p) as [? Hh]. split; [done|]. intros Hp.
    rewrite <- (fmap_is_Some mon_core), (cm_monitors _ _ _ Hc p), fmap_is_Some. auto.
  - intros p m' Hm'. destruct (alike_back _ _ _ p m' (cm_monitors _ _ _ Hc) Hm') as (m & Hm & Hcore).
    injection Hcore as E1 E2. rewrite <- E1, <- E2. by apply mo_monitor0.
  - intros s x p Hs Hx Hp. destruct (mo_sub0 s x p Hs Hx Hp) as (m & Hm & Hin).
    destruct (alike_some _ _ _ p m (cm_monitors _ _ _ Hc) Hm) as (m' & Hm' & Hcore). core_of Hcore.
    exists m'. split; congruence.
Qed.

Lemma pm_listed_calm U w w' p x x' : calm U w w' -> pm_core x' = pm_core x ->
  pm_listed (w_nodes w') p x' = pm_listed (w_nodes w) p x.
Proof.
  intros Hc Hx. core_of Hx. unfold pm_listed. replace (pm_node x') with (pm_node x).
  destruct (w_nodes w !! pm_node x) as [n|] eqn:Hn.
  - destruct (calm_node _ _ _ _ _ Hc Hn) as (n' & -> & Hcore & _). core_of Hcore.
    by replace (node_proxy_monitors n') with (node_proxy_monitors n).
  - destruct (w_nodes w' !! pm_node x) as [n'|] eqn:Hn'; [|done].
    destruct (calm_node_back _ _ _ _ _ Hc Hn') as (n & ? & _). congruence.
Qed.

Lemma proxies_ok_calm U up w w' room room' wait wait' l r : calm U w w' ->
  (forall p, room p <= room' p) -> (forall p, wait p <= wait' p) ->
  (forall p, w_proxies w !! p = None -> wait' p = wait p) ->
  proxies_ok up room wait (w_nodes w) (w_proxies w) (w_subs w) l r ->
  proxies_ok up room' wait' (w_nodes w') (w_proxies w') (w_subs w') l r.
Proof.
  intros Hc Hroom Hwait Hdead []. rewrite (cm_subs _ _ _ Hc). split.
  - intros p x' Hx'. destruct (alike_back _ _ _ p x' (cm_proxies _ _ _ Hc) Hx') as (x & Hx & Hcore).
    unfold pm_up. rewrite (pm_listed_calm _ _ _ _ x x' Hc) by done. fold (pm_up up (w_nodes w) p x). pose proof Hcore as Hcore'. core_of Hcore'.
    destruct (po_proxy0 p x Hx) as (H1 & (s & y & H2 & H3 & H4 & H5 & H6) & H7 & H8 & H9).
    specialize (Hroom p).
    split_and!; try congruence; try lia.
    + exists s, y. split_and!; congruence.
    + intros Hd. pose proof (H7 (cm_deps _ _ _ Hc p x x' Hx Hx' Hd)). congruence.
    + intros t Ht. apply H8. congruence.
  - intros p. specialize (po_wait0 p). specialize (Hwait p). lia.
  - intros p Hp'. assert (w_proxies w !! p = None) as Hp.
    { destruct (w_proxies w !! p) as [x|] eqn:Hx; [|done].
      destruct (alike_some _ _ _ p x (cm_proxies _ _ _ Hc) Hx) as (? & ? & _). congruence. }
    rewrite Hdead by done. auto.
  - intros p n' Hp (n & Hn & Hcore & _)%(calm_node_back _ _ _ _ _ Hc). core_of Hcore.
    destruct (po_list0 p n Hp Hn) as [Hnd Hin].
    split; [congruence|]. intros q Hq. destruct (Hin q) as (x & Hx & Hxn & Hxt); [congruence|].
    destruct (alike_some _ _ _ q x (cm_proxies _ _ _ Hc) Hx) as (x' & Hx' & Hxc). core_of Hxc.
    exists x'. split_and!; congruence.
  - intros s y p Hs Hy Hp. destruct (po_sub0 s y p Hs Hy Hp) as (x & Hx & Hxs).
    destruct (alike_some _ _ _ p x (cm_proxies _ _ _ Hc) Hx) as (x' & Hx' & Hxc). core_of Hxc.
    exists x'. split_and!; congruence.
Qed.

Lemma fresh_ok_calm U w w' : calm U w w' -> fresh_ok w -> fresh_ok w'.
Proof.
  intros Hc [].
  assert (forall {T X} (core : T -> X) m m' (p : ptr), alike core m m' -> m !! p = None -> m' !! p = None) as Hf.
  { intros T X core m m' p H Hp. specialize (H p). rewrite Hp in H. by apply fmap_None in H. }
  destruct Hc. split; intros p Hp'; assert (w_next_ptr w <= p)%positive as Hp by (by etrans);
    try (by eapply Hf; [eassumption|auto]); rewrite ?cm_subs0, ?cm_reqs0, ?cm_setups0, ?cm_fleets0; auto.
Qed.

(** A proxy that does not exist is not called. *)
Lemma calm_dead_proxy U w w' p : calm U w w' -> w_proxies w !! p = None ->
  asks (AnswerToProxy p) w' = asks (AnswerToProxy p) w.
Proof.
  intros Hc Hp. assert (w_proxies w' !! p = None) as Hp'.
  { pose proof (cm_proxies _ _ _ Hc p) as H. rewrite Hp in H. by apply fmap_None in H. }
  pose proof (cm_credit _ _ _ Hc p) as H1. pose proof (cm_waits _ _ _ Hc (AnswerToProxy p)).
  unfold credit in H1. rewrite Hp, Hp' in H1. cbn in H1. lia.
Qed.

Lemma owners_inv_calm U h a w w' : calm U w w' ->
  (forall p, U p -> p ∈ c_nodes (w_controller w)) -> registry_ok w ->
  owners_inv h a w -> owners_inv h a w'.
Proof.
  intros Hc HU Hreg []. destruct (calm_listed _ _ _ Hc) as (E1 & E2 & E3 & E4 & E5 & E6).
  split; rewrite ?E1, ?E2, ?E3, ?E4, ?E5, ?E6.
  - eapply nodes_ok_calm; [done|done|done|]. intros p Hp.
    destruct (ok_nodes w Hreg p Hp) as (n & name & Hn & Hname). exists n. split; congruence.
  - by eapply refs_ok_calm.
  - by eapply jobs_ok_calm.
  - eapply (reqs_ok_ext _ _ (req_wait a w)); [done| |by eapply reqs_ok_calm].
    intros r. unfold req_wait. by rewrite (cm_asked _ _ _ Hc).
  - by rewrite (cm_fleets _ _ _ Hc).
  - by eapply monitors_ok_calm.
  - eapply proxies_ok_calm; [done| | | |done].
    + intros p. unfold proxy_room. pose proof (cm_credit _ _ _ Hc p). lia.
    + intros p. unfold proxy_wait. pose proof (cm_waits _ _ _ Hc (AnswerToProxy p)). lia.
    + intros p Hp. unfold proxy_wait. by rewrite (calm_dead_proxy _ _ _ _ Hc Hp).
  - by eapply fresh_ok_calm.
  - pose proof (cm_controller _ _ _ Hc) as Hcore. core_of Hcore. congruence.
Qed.
Lemma controller_inv_calm U h a w w' : calm U w w' ->
  (forall p, U p -> p ∈ c_nodes (w_controller w)) -> registry_ok w' ->
  controller_inv h a w -> controller_inv h a w'.
Proof. intros Hc HU Hreg [Hreg0 I]. split; [done|]. by eapply owners_inv_calm. Qed.

Lemma still_live w w' sub : still w w' -> sub_live w sub -> sub_live w' sub.
Proof.
  intros Hc (s & Hs & Ht). exists s. rewrite (cm_subs _ _ _ Hc). split; [done|].
  destruct (sub_monitor s) as [|p|p]; [done| |]; cbn in *.
  - destruct Ht as [m Hm]. destruct (alike_some _ _ _ p m (cm_monitors _ _ _ Hc) Hm) as (m' & -> & _). eauto.
  - destruct Ht as (m & Hm & [n Hn]).
    destruct (alike_some _ _ _ p m (cm_proxies _ _ _ Hc) Hm) as (m' & Hm' & Hcore).
    destruct (calm_node _ _ _ _ _ Hc Hn) as (n' & Hn' & _). exists m'. injection Hcore as E1 E2 E3. rewrite E1. eauto.
Qed.
Lemma registry_ok_still w w' : still w w' -> registry_ok w -> registry_ok w'.
Proof.
  intros Hc []. destruct (calm_listed _ _ _ Hc) as (E1 & _ & _ & _ & _ & E6).
  assert (forall p n', is_node w' p n' -> exists n, is_node w p n /\ node_name n' = node_name n /\
    node_unit_subscriptions n' = node_unit_subscriptions n) as Hback.
  { intros p n' [Hp (n & Hn & Hcore & Hu)%(calm_node_back _ _ _ _ _ Hc)]. rewrite E1 in Hp.
    core_of Hcore. exists n. split_and!; [by split|congruence|apply Hu; by intros []]. }
  split; rewrite ?E1, ?E6; try done.
  - intros p Hp. destruct (ok_nodes p Hp) as (n & name & Hn & Hname).
    destruct (calm_node _ _ _ _ _ Hc Hn) as (n' & Hn' & Hcore & _). core_of Hcore. exists n', name. split; congruence.
  - intros p q n n' (n1 & Hn1 & En1 & _)%Hback (n2 & Hn2 & En2 & _)%Hback Hname.
    apply (ok_names p q n1 n2); congruence.
  - intros sub Hsub. eapply still_live; eauto.
  - intros p n' (n & Hn & En & Eu)%Hback u us Hus. rewrite Eu in Hus. rewrite E6, (cm_subs _ _ _ Hc).
    destruct (ok_entries p n Hn u us Hus) as (? & ? & Hsubs). split_and!; [done..|]. intros sub Hsub.
    destruct (Hsubs sub Hsub) as (? & s & ? & Hcov & ?). split; [done|]. exists s. split_and!; [done| |done].
    unfold node_covers in *. by rewrite En.
Qed.
Lemma controller_inv_still h a w w' : still w w' -> controller_inv h a w -> controller_inv h a w'.
Proof.
  intros Hc I. eapply controller_inv_calm; [exact Hc|done| |done]. by eapply registry_ok_still, I.
Qed.
End calm_inv.
