(* ===== verification/ControllerSafe.v ===== *)
(** The handlers of the controller that leave the ownership of objects alone: none of them
    crashes in a state that satisfies the invariant. Unit signals of the agents, and the
    registration of subscriptions, keep it too. *)
From S2P Require Import Prelude CString StringUtil ParseUtil TimeUtil Protocol BusUtils Log Cfg Socket.
From S2P Require Import World Job Events Subscriptions Monitor Proxy Requests Node Controller.
From S2P Require Import ControllerEvents WorldFacts EventFacts RegistryFacts.
From S2P Require Import ControllerInv.
From S2P Require Import Sample DeliveryTheorems.
Local Open Scope list_scope.

(** The clocks can be read. *)
Definition clocks_work (E : Env) : Prop :=
  forall k, clock_realtime k <> None /\ clock_monotonic k <> None.

(** [runs m]: from any state that follows [w0] calmly, [m] does not crash and ends in one. *)
Section runs.
Context {E : Env} (Hclocks : clocks_work E) (w0 : World).

Definition runs {A} (m : CM A) : Prop :=
  forall w, still w0 w -> wp m (fun _ w' => still w0 w') w.

Lemma runs_ret {A} (a : A) : runs (mret a).
Proof. intros w Hw. by apply wp_ret. Qed.
Lemma runs_bind {A B} (m : CM A) (k : A -> CM B) : runs m -> (forall a, runs (k a)) -> runs (m ≫= k).
Proof. intros Hm Hk w Hw. apply wp_bind. eapply wp_mono; [by apply Hm|]. intros a w' Hw'. by apply Hk. Qed.
Lemma runs_foreach {A} (l : list A) (body : A -> CM void) :
  (forall a, a ∈ l -> runs (body a)) -> runs (foreach l body).
Proof.
  intros H. induction l as [|x l IH]; cbn; [apply runs_ret|]. apply runs_bind; [apply H; left|].
  intros _. apply IH. intros a Ha. apply H. by right.
Qed.
Lemma runs_find_first {A} (l : list A) (test : A -> CM bool) :
  (forall a, a ∈ l -> runs (test a)) -> runs (find_first l test).
Proof.
  intros H. induction l as [|x l IH]; cbn; [apply runs_ret|]. apply runs_bind; [apply H; left|].
  intros []; [apply runs_ret|]. apply IH. intros a Ha. apply H. by right.
Qed.
Lemma runs_total {A} (m : CM A) : steps still m -> (forall w, exists a w', m w = Ret a w') -> runs m.
Proof.
  intros Hs Ht w Hw. unfold wp. specialize (Hs w). destruct (Ht w) as (a & w' & Hr). rewrite Hr in *.
  by trans w.
Qed.
Lemma runs_bus c : plain c = true -> runs (bus c).
Proof. intros Hc. apply runs_total; [by apply steps_bus|]. cbn. eauto. Qed.
Lemma runs_local : runs local.
Proof. apply runs_total; [apply steps_local|]. cbn. eauto. Qed.
Lemma runs_local_ok : runs local_ok.
Proof. apply runs_total; [apply steps_local_ok|]. cbn. eauto. Qed.
Lemma runs_time : runs get_time_micros.
Proof.
  apply runs_total; [apply steps_get_time_micros|]. intros w. unfold get_time_micros.
  destruct (Hclocks (w_clocks w)) as [H _]. destruct (clock_realtime _); [eauto|done].
Qed.
Lemma runs_time_monotonic : runs get_time_micros_monotonic.
Proof.
  apply runs_total; [apply steps_get_time_micros_monotonic|]. intros w. unfold get_time_micros_monotonic.
  destruct (Hclocks (w_clocks w)) as [_ H]. destruct (clock_monotonic _); [eauto|done].
Qed.
Lemma runs_gets {A} (f : World -> A) : runs (gets f).
Proof. intros w Hw. by apply wp_gets. Qed.
Lemma runs_modify f : steps still (modify f) -> runs (modify f).
Proof. intros H. apply runs_total; [done|]. cbn. eauto. Qed.
Lemma runs_upd_controller f : (forall c, ctl_core (f c) = ctl_core c) -> runs (upd_controller f).
Proof. intros H. apply runs_total; [by apply steps_upd_controller|]. cbn. eauto. Qed.
Lemma runs_controller {B} (k : Controller -> CM B) :
  (forall c, ctl_core c = ctl_core (w_controller w0) -> runs (k c)) -> runs (controller ≫= k).
Proof. intros Hk w Hw. apply wp_bind, wp_controller, Hk; [|done]. by destruct Hw. Qed.

(** Objects of the first state are still there. *)
Definition node_there (p : ptr) : Prop := is_Some (w_nodes w0 !! p).
Definition job_there (p : ptr) : Prop := is_Some (w_jobs w0 !! p).
Definition monitor_there (p : ptr) : Prop := is_Some (w_monitors w0 !! p).

Lemma still_there {T X} (core : T -> X) m m' (p : ptr) x :
  alike core m m' -> m !! p = Some x -> exists y, m' !! p = Some y /\ core y = core x.
Proof. apply alike_some. Qed.
Lemma runs_load_node {B} p n0 (k : Node -> CM B) : w_nodes w0 !! p = Some n0 ->
  (forall n, node_core n = node_core n0 -> runs (k n)) -> runs (load p ≫= k).
Proof.
  intros Hn Hk w Hw. destruct (alike_some _ _ _ p n0 (cm_nodes _ _ _ Hw) Hn) as (n & Hp & Hc).
  apply wp_bind. eapply wp_load; [exact Hp|]. by apply Hk.
Qed.
Lemma runs_load_job {B} p j0 (k : Job -> CM B) : w_jobs w0 !! p = Some j0 ->
  (forall j, job_core j = job_core j0 -> runs (k j)) -> runs (load p ≫= k).
Proof.
  intros Hj Hk w Hw. destruct (alike_some _ _ _ p j0 (cm_jobs _ _ _ Hw) Hj) as (j & Hp & Hc).
  apply wp_bind. eapply wp_load; [exact Hp|]. by apply Hk.
Qed.
Lemma runs_load_monitor {B} p m0 (k : Monitor -> CM B) : w_monitors w0 !! p = Some m0 ->
  (forall m, mon_core m = mon_core m0 -> runs (k m)) -> runs (load p ≫= k).
Proof.
  intros Hm Hk w Hw. destruct (alike_some _ _ _ p m0 (cm_monitors _ _ _ Hw) Hm) as (m & Hp & Hc).
  apply wp_bind. eapply wp_load; [exact Hp|]. by apply Hk.
Qed.

Lemma runs_update {T} {S : Store T} {L : StoreLaws T} p (f : T -> T) :
  steps still (update p f) -> (forall w, still w0 w -> is_Some (store_get w !! p)) -> runs (update p f).
Proof.
  intros Hs Ht w Hw. destruct (Ht w Hw) as [x Hx]. specialize (Hs w). revert Hs. unfold wp.
  unfold update, load, deref, mbind, M_bind. rewrite Hx. cbn. intros Hs. by trans w.
Qed.
Lemma runs_update_node p (f : Node -> Node) : node_there p ->
  (forall n, node_core (f n) = node_core n) ->
  (forall n, node_unit_subscriptions (f n) = node_unit_subscriptions n) -> runs (update p f).
Proof.
  intros [n Hn] Hc Hu. apply runs_update; [by apply steps_update_node|]. intros w Hw.
  destruct (alike_some _ _ _ p n (cm_nodes _ _ _ Hw) Hn) as (n' & Hn' & _). by exists n'.
Qed.
Lemma runs_update_job p (f : Job -> Job) : job_there p ->
  (forall j, job_core (f j) = job_core j) -> runs (update p f).
Proof.
  intros [j Hj] Hc. apply runs_update; [by apply steps_update_job|]. intros w Hw.
  destruct (alike_some _ _ _ p j (cm_jobs _ _ _ Hw) Hj) as (j' & Hj' & _). by exists j'.
Qed.
Lemma runs_update_monitor p (f : Monitor -> Monitor) : monitor_there p ->
  (forall m, mon_core (f m) = mon_core m) -> runs (update p f).
Proof.
  intros [m Hm] Hc. apply runs_update; [by apply steps_update_monitor|]. intros w Hw.
  destruct (alike_some _ _ _ p m (cm_monitors _ _ _ Hw) Hm) as (m' & Hm' & _). by exists m'.
Qed.

Lemma runs_build_steps n : runs (build_steps n).
Proof.
  induction n; cbn; [apply runs_ret|]. apply runs_bind; [apply runs_local_ok|]. intros [] ; cbn; [done|apply runs_ret].
Qed.
End runs.

Create HintDb runs_c discriminated.
Ltac run_step :=
  lazymatch goal with
  | |- runs _ (mret _) => apply runs_ret
  | |- runs _ (mbind _ controller) => apply runs_controller; intros ? ?
  | |- runs _ (mbind _ (load _)) =>
      first [eapply runs_load_node; [eassumption|intros ? ?]
            |eapply runs_load_job; [eassumption|intros ? ?]
            |eapply runs_load_monitor; [eassumption|intros ? ?]]
  | |- runs _ (mbind _ _) => apply runs_bind; [|intros ?]
  | |- runs _ (match ?x with _ => _ end) => destruct x eqn:?
  | |- runs _ (bus _) => by apply runs_bus
  | |- runs _ local => apply runs_local
  | |- runs _ local_ok => apply runs_local_ok
  | |- runs _ get_time_micros => by apply runs_time
  | |- runs _ get_time_micros_monotonic => by apply runs_time_monotonic
  | |- runs _ (gets _) => apply runs_gets
  | |- runs _ (modify _) => apply runs_modify; intros ?; by apply calm_stores
  | |- runs _ (upd_controller _) => apply runs_upd_controller; by intros
  | |- runs _ (update _ _) =>
      first [apply runs_update_node; [by eexists|by intros|by intros]
            |apply runs_update_job; [by eexists|by intros]
            |apply runs_update_monitor; [by eexists|by intros]]
  | |- runs _ (foreach _ _) => apply runs_foreach; intros ? ?
  | |- runs _ (find_first _ _) => apply runs_find_first; intros ? ?
  | |- runs _ (build_steps _) => apply runs_build_steps
  | |- runs _ ?m => first [solve [eauto with runs_c] | let h := head_of_term m in unfold h]
  end.
Ltac run_tac := repeat (cbn beta iota; run_step).

Section handlers.
Context {E : Env} (Hclocks : clocks_work E) {h : held} {a : list answer} {w0 : World} (I : controller_inv h a w0).

Lemma listed_node p : p ∈ c_nodes (w_controller w0) ->
  exists n name path, w_nodes w0 !! p = Some n /\ node_name n = Some name /\ node_object_path n = Some path.
Proof.
  intros Hp. destruct (ok_nodes w0 (ci_registry _ _ _ I) p Hp) as (n & name & Hn & Hname).
  pose proof (no_path _ _ _ _ (ci_nodes _ _ _ I) p n Hp Hn) as Hpath.
  destruct (node_object_path n) as [path|] eqn:Ep; [|done]. by exists n, name, path.
Qed.
Lemma listed_job p : p ∈ c_jobs (w_controller w0) -> exists j, w_jobs w0 !! p = Some j.
Proof. intros Hp. destruct (jo_listed _ _ _ _ _ _ _ (ci_jobs _ _ _ I) p Hp) as (j & ?). by exists j. Qed.
Lemma job_has_node p j : w_jobs w0 !! p = Some j -> job_node j ∈ c_nodes (w_controller w0).
Proof. intros Hj. by destruct (jo_job _ _ _ _ _ _ _ (ci_jobs _ _ _ I) p j Hj). Qed.
Lemma core_lists c : ctl_core c = ctl_core (w_controller w0) ->
  c_nodes c = c_nodes (w_controller w0) /\ c_jobs c = c_jobs (w_controller w0) /\
  c_monitors c = c_monitors (w_controller w0).
Proof. unfold ctl_core. intros H. by simplify_eq. Qed.

(** Searching a list of live objects. *)
Lemma runs_found {B} (l : list ptr) (test : ptr -> CM bool) (k : option ptr -> CM B) :
  (forall p, p ∈ l -> runs w0 (test p)) ->
  (forall found, (forall p, found = Some p -> p ∈ l) -> runs w0 (k found)) ->
  runs w0 (find_first l test ≫= k).
Proof.
  intros Ht Hk w Hw. apply wp_bind.
  enough (wp (find_first l test) (fun r w' => (forall p, r = Some p -> p ∈ l) /\ still w0 w') w) as H.
  { eapply wp_mono; [exact H|]. intros r w' [Hr Hw']. by apply Hk. }
  clear Hk. revert w Hw. induction l as [|x l IH]; intros w Hw; cbn; [by apply wp_ret|].
  apply wp_bind. eapply wp_mono; [apply Ht; [left|done]|]. intros [] w1 Hw1.
  - apply wp_ret. split; [|done]. intros p [= ->]. left.
  - eapply wp_mono; [apply IH; [|done]|].
    + intros p Hp. apply Ht. by right.
    + intros r w2 [Hr Hw2]. split; [|done]. intros p Hp. right. auto.
Qed.

Lemma runs_bind_assoc {A B C} (m : CM A) (f : A -> CM B) (g : B -> CM C) :
  runs w0 (m ≫= fun x => f x ≫= g) -> runs w0 ((m ≫= f) ≫= g).
Proof.
  intros H w Hw. specialize (H w Hw). revert H. unfold wp, mbind, M_bind.
  destruct (m w) as [x w1|]; [|done]. by destruct (f x w1).
Qed.

Lemma runs_find_node {B} name (k : option ptr -> CM B) :
  (forall found, (forall p, found = Some p -> p ∈ c_nodes (w_controller w0)) -> runs w0 (k found)) ->
  runs w0 (controller_find_node name ≫= k).
Proof.
  intros Hk. unfold controller_find_node. apply runs_bind_assoc, runs_controller. intros c Hc.
  destruct (core_lists c Hc) as (-> & _). apply runs_found; [|done]. intros p Hp.
  destruct (listed_node p Hp) as (n & s & path & Hn & Hs & _). eapply runs_load_node; [exact Hn|].
  intros n' Hcore. core_of Hcore. replace (node_name n') with (node_name n) by congruence. rewrite Hs. apply runs_ret.
Qed.
Lemma runs_find_node_by_path {B} path (k : option ptr -> CM B) :
  (forall found, (forall p, found = Some p -> p ∈ c_nodes (w_controller w0)) -> runs w0 (k found)) ->
  runs w0 (controller_find_node_by_path path ≫= k).
Proof.
  intros Hk. unfold controller_find_node_by_path. apply runs_bind_assoc, runs_controller. intros c Hc.
  destruct (core_lists c Hc) as (-> & _). apply runs_found; [|done]. intros p Hp.
  destruct (listed_node p Hp) as (n & s & path' & Hn & _ & Hs). eapply runs_load_node; [exact Hn|].
  intros n' Hcore. core_of Hcore. replace (node_object_path n') with (node_object_path n) by congruence.
  rewrite Hs. apply runs_ret.
Qed.
Lemma runs_find_job {B} id (k : option ptr -> CM B) :
  (forall found, (forall p, found = Some p -> p ∈ c_jobs (w_controller w0)) -> runs w0 (k found)) ->
  runs w0 (controller_find_job id ≫= k).
Proof.
  intros Hk. unfold controller_find_job. apply runs_bind_assoc, runs_controller. intros c Hc.
  destruct (core_lists c Hc) as (_ & -> & _). apply runs_found; [|done]. intros p Hp.
  destruct (listed_job p Hp) as (j & Hj). run_tac.
Qed.

(** ** The handlers *)

Lemma runs_job_state_changed args : runs w0 (node_match_job_state_changed args).
Proof.
  unfold node_match_job_state_changed. destruct args as [r|[id state]]; [apply runs_ret|].
  apply runs_bind; [|intros; apply runs_ret]. apply runs_find_job. intros [p|] Hp; [|apply runs_ret].
  destruct (listed_job p) as (j & Hj); [auto|]. pose proof (job_has_node p j Hj) as Hnode.
  destruct (listed_node _ Hnode) as (n & _ & _ & Hn & _). unfold job_set_state.
  eapply runs_load_job; [exact Hj|]. intros j' Hcore. core_of Hcore. replace (job_node j') with (job_node j) by congruence.
  run_tac.
Qed.

Lemma runs_reply_return m args : runs w0 (reply_method_return m args).
Proof. by apply runs_bus. Qed.
Lemma runs_reply_error m name : runs w0 (reply_method_errorf m name).
Proof. by apply runs_bus. Qed.
Hint Resolve runs_reply_return runs_reply_error : runs_c.

Lemma runs_send p method arg : node_there w0 p -> runs w0 (send_agent_simple_message p method arg).
Proof. intros [n Hn]. run_tac. Qed.
Lemma runs_unset_agent_bus p : node_there w0 p -> runs w0 (node_unset_agent_bus p).
Proof. intros [n Hn]. run_tac. Qed.
Lemma runs_count_online f : runs w0 (count_online f).
Proof. run_tac. Qed.
Lemma runs_heartbeat p : node_there w0 p -> runs w0 (node_match_heartbeat p).
Proof. intros [n Hn]. run_tac. Qed.
Lemma runs_agent_job p args : node_there w0 p -> runs w0 (node_metrics_match_agent_job p args).
Proof. intros [n Hn]. run_tac. Qed.
Hint Resolve runs_send runs_unset_agent_bus runs_count_online : runs_c.

Lemma runs_match_signals b members : runs w0 (match_signals b members).
Proof. induction members; run_tac; auto. Qed.
Lemma runs_subscribe_all p : node_there w0 p -> runs w0 (node_send_agent_subscribe_all p).
Proof. intros [n Hn]. pose proof (runs_send p) as Hs. assert (node_there w0 p) by by eexists. run_tac. Qed.
Lemma runs_start_dependencies p : node_there w0 p -> runs w0 (node_start_proxy_dependency_all p).
Proof. intros [n Hn]. assert (node_there w0 p) by by eexists. run_tac. Qed.
Hint Resolve runs_match_signals runs_subscribe_all runs_start_dependencies : runs_c.
Lemma runs_set_agent_bus p b : node_there w0 p -> runs w0 (node_set_agent_bus p b).
Proof. intros Hp. pose proof Hp as [n Hn]. run_tac. Qed.
Hint Resolve runs_set_agent_bus : runs_c.
Lemma runs_enable_metrics p : node_there w0 p -> runs w0 (node_enable_metrics p).
Proof. intros Hp. pose proof Hp as [n Hn]. run_tac. Qed.
Lemma runs_disable_metrics p : node_there w0 p -> runs w0 (node_disable_metrics p).
Proof. intros Hp. pose proof Hp as [n Hn]. run_tac. Qed.
Hint Resolve runs_enable_metrics runs_disable_metrics : runs_c.
Lemma listed_there p : p ∈ c_nodes (w_controller w0) -> node_there w0 p.
Proof. intros Hp. destruct (listed_node p Hp) as (n & _ & _ & Hn & _). by exists n. Qed.

Lemma runs_register m args p : node_there w0 p -> runs w0 (node_method_register m args p).
Proof.
  intros Hp. pose proof Hp as [n Hn]. unfold node_method_register. run_step.
  case_bool_decide; cbn; [run_tac|]. destruct args as [r|name]; [run_tac|].
  apply runs_find_node. intros [q|] Hq; [|run_tac]. pose proof (listed_there q (Hq q eq_refl)) as Hthere.
  pose proof Hthere as [nq Hnq]. run_tac.
Qed.

Lemma runs_metrics_enable m : runs w0 (controller_method_metrics_enable m).
Proof.
  unfold controller_method_metrics_enable. apply runs_controller. intros c Hc.
  destruct (core_lists c Hc) as (-> & _). run_tac. apply runs_enable_metrics. by apply listed_there.
Qed.
Lemma runs_metrics_disable m : runs w0 (controller_method_metrics_disable m).
Proof.
  unfold controller_method_metrics_disable. apply runs_controller. intros c Hc.
  destruct (core_lists c Hc) as (-> & _). run_tac. apply runs_disable_metrics. by apply listed_there.
Qed.
Lemma runs_set_log_level m args : runs w0 (controller_method_set_log_level m args).
Proof. run_tac. Qed.
Lemma runs_encode_nodes nodes reply :
  (forall p, p ∈ nodes -> node_there w0 p) -> runs w0 (encode_nodes nodes reply).
Proof.
  revert reply. induction nodes as [|p nodes IH]; intros reply Hp; cbn; [run_tac|].
  destruct (Hp p) as [n Hn]; [left|]. run_tac. apply IH. intros q Hq. apply Hp. by right.
Qed.
Lemma runs_list_nodes m : runs w0 (controller_method_list_nodes m).
Proof.
  unfold controller_method_list_nodes. run_step; [run_tac|]. run_step; [run_tac|].
  apply runs_controller. intros c Hc. destruct (core_lists c Hc) as (-> & _).
  run_step; [|run_tac]. apply runs_encode_nodes. intros p. apply listed_there.
Qed.
Lemma runs_get_node m args : runs w0 (controller_method_get_node m args).
Proof.
  unfold controller_method_get_node. destruct args as [r|name]; [run_tac|]. apply runs_find_node.
  intros [q|] Hq; [|run_tac]. destruct (listed_there q (Hq q eq_refl)) as [n Hn]. run_tac.
Qed.
Lemma runs_filter m path iface : runs w0 (controller_dbus_filter m path iface).
Proof.
  unfold controller_dbus_filter. destruct iface as [iface|]; [|run_tac].
  destruct (streq iface NODE_INTERFACE); [|run_tac]. apply runs_find_node_by_path.
  intros [q|] Hq; [|run_tac]. destruct (listed_there q (Hq q eq_refl)) as [n Hn]. run_tac.
Qed.
Lemma runs_node_set_log_level m args p : node_there w0 p -> runs w0 (node_method_set_log_level m args p).
Proof. intros [n Hn]. run_tac. Qed.
Lemma runs_add_peer m args p : monitor_there w0 p -> runs w0 (monitor_method_add_peer m args p).
Proof. intros [x Hx]. run_tac. Qed.
Lemma runs_remove_peer m args p : monitor_there w0 p -> runs w0 (monitor_method_remove_peer m args p).
Proof. intros [x Hx]. run_tac. Qed.
Lemma runs_job_export p : job_there w0 p -> runs w0 (job_export p).
Proof.
  intros [j Hj]. pose proof (job_has_node p j Hj) as Hn. destruct (listed_there _ Hn) as [n Hnode].
  unfold job_export. eapply runs_load_job; [exact Hj|]. intros j' Hcore. core_of Hcore.
  replace (job_node j') with (job_node j) by congruence. run_tac.
Qed.
Lemma runs_job_report p : job_there w0 p -> runs w0 (metrics_produce_job_report p).
Proof.
  intros [j Hj]. pose proof (job_has_node p j Hj) as Hn. destruct (listed_there _ Hn) as [n Hnode].
  unfold metrics_produce_job_report. eapply runs_load_job; [exact Hj|]. intros j' Hcore. core_of Hcore.
  replace (job_node j') with (job_node j) by congruence. run_tac.
Qed.
End handlers.

(** ** Signals of units *)

Definition keeps_entries (f : registry -> registry) : Prop := forall m u us', f m !! u = Some us' ->
  exists us, m !! u = Some us /\ us_subs us' = us_subs us /\ us_unit us' = us_unit us.
Lemma keeps_entries_alter f unit : keeps_subs f -> keeps_entries (alter f unit).
Proof.
  intros Hf m u us'. destruct (decide (unit = u)) as [->|Hne].
  - rewrite lookup_alter_eq. destruct (m !! u) as [us|]; [|done]. intros [= <-]. by exists us.
  - rewrite lookup_alter_ne by done. intros Hus. by exists us'.
Qed.
Lemma keeps_entries_fmap f : keeps_subs f -> keeps_entries (fmap f).
Proof.
  intros Hf m u us'. rewrite lookup_fmap. destruct (m !! u) as [us|]; [|done]. intros [= <-]. by exists us.
Qed.

Section signals.
Context {E : Env} {L : EnvLaws E} (Hnf : no_local_failure E).

Lemma inv_with_usubs h a p f w w' : controller_inv h a w -> p ∈ c_nodes (w_controller w) ->
  quiet (with_usubs p f w) w' -> keeps_entries f -> calm (fun q => q = p) w w' -> controller_inv h a w'.
Proof.
  intros I Hp Hq Hf Hc. eapply controller_inv_calm; [exact Hc|by intros ? ->| |done].
  eapply registry_ok_quiet; [exact Hq|]. apply registry_ok_with_usubs; [apply I|].
  intros n Hn u us' Hus'. destruct (Hf _ u us' Hus') as (us & Hus & E1 & E2).
  rewrite E1, E2. by apply (ok_entries w (ci_registry _ _ _ I) p n Hn).
Qed.

Lemma inv_registry_live h a p n w : controller_inv h a w -> p ∈ c_nodes (w_controller w) ->
  w_nodes w !! p = Some n -> registry_live w n.
Proof.
  intros I Hp Hn. pose proof (ok_entries w (ci_registry _ _ _ I) p n (conj Hp Hn)) as He. split.
  - intros u us Hus. by apply (He u us Hus).
  - intros u us sub Hus Hsub. apply (ok_live w (ci_registry _ _ _ I)). by apply (He u us Hus).
Qed.

Lemma inv_unit_signal h a p unit e w : controller_inv h a w -> p ∈ c_nodes (w_controller w) ->
  (forall r, e = UnitRemoved r -> r = "real"%string) ->
  wp (unit_signal_handler p unit e) (fun _ w' => controller_inv h a w') w.
Proof.
  intros I Hp Hr. destruct (listed_node I p Hp) as (n & _ & _ & Hn & _).
  assert (steps (calm (fun q => q = p)) (unit_signal_handler p unit e)) as Hs.
  { destruct e; [apply calm_match_unit_properties_changed|by apply calm_match_unit_new
      |by apply calm_match_unit_state_changed|by apply calm_match_unit_removed]. }
  eapply wp_mono; [eapply wp_steps; [exact Hs|apply (wp_unit_signal Hnf w p n unit e Hn Hr)]|].
  - intros sub. apply registry_live_matching. by eapply inv_registry_live.
  - cbn beta. intros r w' [(_ & Hq & _) Hc]. eapply inv_with_usubs; [done..| |done].
    apply keeps_entries_alter, cache_effect_keeps.
Qed.

(** A signal that cannot be read is ignored. *)
Lemma inv_signal h a node s w : controller_inv h a w -> clocks_work E -> node ∈ c_nodes (w_controller w) ->
  (match s with AgentPeer.UnitPropertiesChanged _ _ | AgentPeer.UnitNew _ | AgentPeer.UnitStateChanged _
              | AgentPeer.UnitRemoved _ | AgentPeer.JobStateChanged _ | AgentPeer.AgentJobMetrics _
              | AgentPeer.Heartbeat => true | _ => false end) = true ->
  wp (AgentPeer.match_signal node s) (fun _ w' => controller_inv h a w') w.
Proof.
  intros I Hclocks Hnode Hs.
  assert (forall {A} (m : CM A), runs w m -> wp m (fun _ w' => controller_inv h a w') w) as Hrun.
  { intros A m Hm. eapply wp_mono; [by apply Hm|]. intros x w' Hc. eapply controller_inv_still; [exact Hc|exact I]. }
  pose proof (listed_there I node Hnode) as Hthere.
  destruct s as [?|args|m [r|[unit i]]|[r|[unit reason]]|[r|[[[unit act] sub] reason]]|[r|unit]|?|?|args|];
    try discriminate Hs; cbn [AgentPeer.match_signal].
  - by apply Hrun, (runs_job_state_changed I).
  - by apply wp_ret.
  - by apply (inv_unit_signal h a node unit (UnitPropertiesChanged i m)).
  - by apply wp_ret.
  - by apply (inv_unit_signal h a node unit (UnitNew reason)).
  - by apply wp_ret.
  - by apply (inv_unit_signal h a node unit (UnitStateChanged act sub reason)).
  - by apply wp_ret.
  - apply (inv_unit_signal h a node unit (UnitRemoved "real")); [done|done|]. by intros r [= ->].
  - by apply Hrun, runs_agent_job.
  - by apply Hrun, runs_heartbeat.
Qed.

Lemma inv_disconnect_units h a p w : controller_inv h a w -> p ∈ c_nodes (w_controller w) ->
  wp (node_disconnect_units p) (fun _ w' => controller_inv h a w' /\ calm (fun q => q = p) w w') w.
Proof.
  intros I Hp. destruct (listed_node I p Hp) as (n & _ & _ & Hn & _).
  eapply wp_mono; [eapply wp_steps; [by apply (calm_disconnect_units (fun q => q = p))|
    apply (wp_disconnect_units Hnf w p n Hn)]|].
  - by eapply inv_registry_live.
  - cbn beta. intros r w' [(Hq & _) Hc]. split; [|done]. eapply inv_with_usubs; [done..| |done].
    apply keeps_entries_fmap, agent_gone_keeps.
Qed.
End signals.

(** ** Registering subscriptions *)

Section registration.
Context {E : Env}.

(** The nodes whose registry may change. *)
Abbreviation listed w := (fun p => p ∈ c_nodes (w_controller w)).

Lemma calm_subscribe_some sub s w w1 :
  registry_ok w1 -> c_nodes (w_controller w1) = c_nodes (w_controller w) ->
  pwp (if subscription_has_node_wildcard s then
         c ← controller; foreach (c_nodes c) (fun node => node_subscribe node sub)
       else
         node ← controller_find_node (sub_node s);
         match node with Some node => node_subscribe node sub | None => mret tt end)
      (fun _ w' => calm (listed w) w1 w') w1.
Proof.
  intros Hok Hn. destruct (subscription_has_node_wildcard s).
  - apply (pwp_bind_wp _ _ (fun c w' => c = w_controller w1 /\ w' = w1)); [done|]. intros c w' [-> ->]. rewrite Hn.
    apply steps_pwp, (steps_foreach_in _). intros p Hp. by apply calm_node_subscribe.
  - eapply (pwp_bind_wp _ _ (fun r w' => w' = w1 /\ forall p, r = Some p -> p ∈ c_nodes (w_controller w))).
    + apply wp_controller_find_node; [apply Hok|]. intros r _ Hr. split; [done|]. intros p ->.
      destruct Hr as (n & [Hp _] & _). by rewrite <- Hn.
    + intros [p|] w' [-> Hp]; apply steps_pwp; [apply calm_node_subscribe; auto|apply (steps_ret _)].
Qed.
Lemma calm_unsubscribe_some sub s w :
  registry_ok w ->
  pwp (if subscription_has_node_wildcard s then
         c ← controller; foreach (c_nodes c) (fun node => node_unsubscribe node sub)
       else
         node ← controller_find_node (sub_node s);
         match node with Some node => node_unsubscribe node sub | None => mret tt end)
      (fun _ w' => calm (listed w) w w') w.
Proof.
  intros Hok. destruct (subscription_has_node_wildcard s).
  - apply (pwp_bind_wp _ _ (fun c w' => c = w_controller w /\ w' = w)); [done|]. intros c w' [-> ->].
    apply steps_pwp, (steps_foreach_in _). intros p Hp. by apply calm_node_unsubscribe.
  - eapply (pwp_bind_wp _ _ (fun r w' => w' = w /\ forall p, r = Some p -> p ∈ c_nodes (w_controller w))).
    + apply wp_controller_find_node; [apply Hok|]. intros r _ Hr. split; [done|]. intros p ->.
      destruct Hr as (n & [Hp _] & _). done.
    + intros [p|] w' [-> Hp]; apply steps_pwp; [apply calm_node_unsubscribe; auto|apply (steps_ret _)].
Qed.

Lemma wp_add_subscription sub s w :
  registry_ok w -> sub_live w sub -> sub ∉ c_all_subscriptions (w_controller w) ->
  w_subs w !! sub = Some s ->
  wp (controller_add_subscription sub) (fun _ w' => registry_ok w' /\
    calm (listed w) (with_sub sub (s <| sub_ref_count ::= Z.succ |>)
      (c_all_subscriptions (w_controller w) ++ [sub]) w) w') w.
Proof.
  intros Hok Hlive Hnot Hs. set (s1 := s <| sub_ref_count ::= Z.succ |>).
  set (w1 := with_sub sub s1 (c_all_subscriptions (w_controller w) ++ [sub]) w).
  eapply wp_mono; [apply wp_pwp; [by apply wp_add_subscription_ok|]|].
  - instantiate (1 := fun _ w' => calm (listed w) w1 w'). unfold controller_add_subscription.
    apply (pwp_bind_wp _ _ (fun r w' => r = sub /\ w' = store_upd (T := Subscription) <[sub := s1]> w)).
    { unfold subscription_ref. wp_one. eapply wp_update; [exact Hs|]. by apply wp_ret. }
    intros r w' [-> ->]. apply (pwp_bind_wp _ _ (fun _ w' => w' = w1)); [done|].
    intros _ w' ->. apply (pwp_bind_wp _ _ (fun x w' => x = s1 /\ w' = w1)).
    { eapply wp_load; [apply lookup_insert_eq|done]. }
    intros x w' [-> ->].
    apply calm_subscribe_some; [|done]. apply (with_sub_ok sub s); try done.
    + apply NoDup_app. split_and!; [apply Hok| |apply NoDup_singleton].
      intros y Hy ->%list_elem_of_singleton. done.
    + intros y [Hy| ->%list_elem_of_singleton]%elem_of_app; [by apply Hok|done].
    + intros. apply elem_of_app. by left.
  - cbn beta. intros _ w' [[? _] ?]. done.
Qed.

Lemma wp_remove_subscription sub s w :
  registry_ok w -> sub ∈ c_all_subscriptions (w_controller w) ->
  w_subs w !! sub = Some s -> 2 <= sub_ref_count s ->
  wp (controller_remove_subscription sub) (fun _ w' => registry_ok w' /\
    exists w1, calm (listed w) w w1 /\
      w' = with_sub sub (s <| sub_ref_count ::= Z.pred |>)
             (remove_first sub (c_all_subscriptions (w_controller w))) w1) w.
Proof.
  intros Hok Hin Hs Hr. set (s1 := s <| sub_ref_count ::= Z.pred |>).
  eapply wp_mono; [apply wp_pwp; [apply (wp_remove_subscription_ok sub w Hok Hin); intros; by simplify_eq|]|].
  - instantiate (1 := fun _ w' => exists w1, calm (listed w) w w1 /\
      w' = with_sub sub s1 (remove_first sub (c_all_subscriptions (w_controller w))) w1).
    unfold controller_remove_subscription.
    apply (pwp_bind_wp _ _ (fun x w' => x = s /\ w' = w)); [by eapply wp_load|].
    intros x w' [-> ->]. apply (pwp_seq _ _ (fun _ w' => calm (listed w) w w'));
      [exact (calm_unsubscribe_some sub s w Hok)|]. intros _ w1 Hc.
    destruct (calm_listed _ _ _ Hc) as (_ & _ & _ & _ & _ & Hall).
    apply (pwp_bind_wp _ _ (fun c w' => c = w_controller w1 /\ w' = w1)); [done|]. intros c w' [-> ->].
    rewrite Hall. set (l := remove_first sub (c_all_subscriptions (w_controller w))).
    apply (pwp_bind_wp _ _ (fun l' w' => l' = l /\ w' = w1)); [by apply wp_list_remove_from|].
    intros l' w' [-> ->].
    apply (pwp_bind_wp _ _ (fun _ w' => w' = w1 <| w_controller ::= fun c => c <| c_all_subscriptions := l |> |>));
      [done|].
    intros _ w' ->. unfold subscription_unref.
    set (w2 := w1 <| w_controller ::= fun c => c <| c_all_subscriptions := l |> |>).
    assert (w_subs w2 !! sub = Some s) as Hs2 by (cbn; by rewrite (cm_subs _ _ _ Hc)).
    apply (pwp_bind_wp _ _ (fun _ w' => w' = store_upd (T := Subscription) <[sub := s1]> w2)).
    { by eapply wp_update. }
    intros _ w' ->. apply (pwp_bind_wp _ _ (fun x w' => x = s1 /\ w' = store_upd (T := Subscription) <[sub := s1]> w2)).
    { eapply wp_load; [apply lookup_insert_eq|done]. }
    intros x w' [-> ->]. replace (sub_ref_count s1 =? 0) with false by (symmetry; apply Z.eqb_neq; cbn; lia).
    cbn [negb]. exists w1. done.
  - cbn beta. intros _ w' [(? & _) ?]. done.
Qed.
End registration.
