(* ===== verification/ControllerMonitors.v ===== *)
(** Monitors and their subscriptions keep the invariant of the controller. *)
From S2P Require Import Prelude CString StringUtil ParseUtil TimeUtil Protocol BusUtils Log Cfg Socket.
From S2P Require Import World Job Events Subscriptions Monitor Proxy Requests Node Controller.
From S2P Require Import ControllerEvents WorldFacts EventFacts RegistryFacts.
From S2P Require Import Sample DeliveryTheorems ControllerInv ControllerSafe.
Local Open Scope list_scope.

(** A local step that works. *)
Ltac local_works := wp_one; rewrite local_ok_true by done; cbn [negb].

(** ** Ownership of monitors *)

Lemma registry_ok_same w w' :
  w_nodes w' = w_nodes w -> c_nodes (w_controller w') = c_nodes (w_controller w) ->
  c_all_subscriptions (w_controller w') = c_all_subscriptions (w_controller w) ->
  (forall s, s ∈ c_all_subscriptions (w_controller w) -> w_subs w' !! s = w_subs w !! s) ->
  (forall s x, s ∈ c_all_subscriptions (w_controller w) -> w_subs w !! s = Some x ->
     target_live w (sub_monitor x) -> target_live w' (sub_monitor x)) ->
  registry_ok w -> registry_ok w'.
Proof.
  intros E1 E2 E3 Hs Ht []. split; unfold is_node in *; rewrite ?E1, ?E2, ?E3; try done.
  - intros s Hin. destruct (ok_live s Hin) as (x & Hx & Hl). exists x. rewrite (Hs s Hin). split; [done|]. by apply (Ht s).
  - intros p n Hp u us Hus. destruct (ok_entries p n Hp u us Hus) as (? & ? & Hsub). split_and!; [done..|].
    intros s Hin. destruct (Hsub s Hin) as (? & x & Hx & ?). rewrite E3. split; [done|]. exists x. by rewrite Hs.
Qed.

Lemma proxies_ok_subs up room wait nodes proxies subs subs' l reg reg' :
  (forall s y p, subs !! s = Some y -> sub_monitor y = OfProxyMonitor p ->
     subs' !! s = Some y /\ (s ∈ reg' <-> s ∈ reg)) ->
  (forall s y p, s ∈ reg' -> subs' !! s = Some y -> sub_monitor y = OfProxyMonitor p ->
     s ∈ reg /\ subs !! s = Some y) ->
  proxies_ok up room wait nodes proxies subs l reg -> proxies_ok up room wait nodes proxies subs' l reg'.
Proof.
  intros H1 H2 []. split; try done.
  - intros p x Hx. destruct (po_proxy p x Hx) as (? & (s & y & A1 & A2 & A3 & A4 & A5) & Hrest).
    split; [done|]. split; [|exact Hrest]. destruct (H1 s y p A2 A3) as [B1 B2]. exists s, y.
    split_and!; [done..|]. by rewrite B2.
  - intros s y p Hs Hy Hp. destruct (H2 s y p Hs Hy Hp). by eapply po_sub.
Qed.

Lemma monitors_ok_drop δ monitors subs l reg m x sub :
  NoDup reg -> monitors !! m = Some x -> sub ∈ mon_subscriptions x ->
  monitors_ok δ monitors subs l reg ->
  monitors_ok δ (<[m := x <| mon_subscriptions ::= remove_first sub |> <| mon_ref_count ::= Z.pred |>]> monitors)
    (delete sub subs) l (remove_first sub reg).
Proof.
  intros Hreg Hx Hsub []. destruct (mo_monitor m x Hx) as (Hl & Hr & Hnd & Hown). split; try done.
  - intros p Hp. rewrite is_Some_update by done. auto.
  - intros p. destruct (mo_held p) as [? Hh]. split; [done|]. intros Hp. rewrite is_Some_update by done. auto.
  - intros p y Hy. at_key p m.
    + simplify_eq. cbn. split_and!; [done| | |].
      * pose proof (Permutation_length (remove_first_permutation sub _ Hsub)). cbn in *. lia.
      * by apply remove_first_nodup.
      * intros s Hs. assert (s <> sub) as Hne by (intros ->; exact (remove_first_gone _ _ Hnd Hs)).
        apply remove_first_elem in Hs. destruct (Hown s Hs) as (? & z & ?).
        split; [by apply remove_first_ne|]. exists z. by rewrite lookup_delete_ne.
    + destruct (mo_monitor p y Hy) as (? & ? & ? & Hown'). split_and!; [done..|]. intros s Hs.
      destruct (Hown' s Hs) as (? & z & Hz & Ht & ?).
      assert (s <> sub) as Hne. { intros ->. destruct (Hown sub Hsub) as (_ & z' & Hz' & ? & _). congruence. }
      split; [by apply remove_first_ne|]. exists z. by rewrite lookup_delete_ne.
  - intros s y p Hs Hy Hp.
    assert (s <> sub) as Hne by (intros ->; exact (remove_first_gone _ _ Hreg Hs)).
    rewrite lookup_delete_ne in Hy by done. apply remove_first_elem in Hs.
    destruct (mo_sub s y p Hs Hy Hp) as (z & Hz & Hin). at_key p m; [|by exists z].
    simplify_eq. eexists. split; [done|]. cbn. by apply remove_first_ne.
Qed.

Section monitors.
Context {E : Env}.

Lemma wp_monitor_unref_kept m x Q w : w_monitors w !! m = Some x -> mon_ref_count x <> 1 ->
  Q tt (store_upd (T := Monitor) <[m := x <| mon_ref_count ::= Z.pred |>]> w) -> wp (monitor_unref m) Q w.
Proof.
  intros Hx Hr HQ. unfold monitor_unref. wp_one. eapply wp_update; [exact Hx|]. wp_one.
  eapply wp_load; [apply lookup_insert_eq|]. cbn [mon_ref_count field_update].
  replace (Z.pred (mon_ref_count x) =? 0) with false by (symmetry; apply Z.eqb_neq; lia). by apply wp_ret.
Qed.
Lemma wp_monitor_unref_last m x Q w : w_monitors w !! m = Some x -> mon_ref_count x = 1 ->
  Q tt (store_upd (T := Monitor) (delete m) w) -> wp (monitor_unref m) Q w.
Proof.
  intros Hx Hr HQ. unfold monitor_unref. wp_one. eapply wp_update; [exact Hx|]. wp_one.
  eapply wp_load; [apply lookup_insert_eq|]. cbn [mon_ref_count field_update]. rewrite Hr. cbn [Z.pred Z.eqb negb].
  eapply wp_free; [apply lookup_insert_eq|]. by rewrite store_delete_insert.
Qed.

Lemma wp_subscription_unref_last sub s m x Q w :
  w_subs w !! sub = Some s -> sub_ref_count s = 1 -> sub_monitor s = OfMonitor m ->
  w_monitors w !! m = Some x -> mon_ref_count x <> 1 ->
  Q tt (store_upd (T := Subscription) (delete sub)
         (store_upd (T := Monitor) <[m := x <| mon_ref_count ::= Z.pred |>]> w)) ->
  wp (subscription_unref sub) Q w.
Proof.
  intros Hs Hr Hm Hx Hxr HQ. unfold subscription_unref. wp_one. eapply wp_update; [exact Hs|]. wp_one.
  eapply wp_load; [apply lookup_insert_eq|]. cbn [sub_ref_count sub_monitor field_update]. rewrite Hr, Hm.
  change (Z.pred 1 =? 0) with true. cbn [negb]. wp_one. eapply wp_monitor_unref_kept; [exact Hx|done|].
  eapply wp_free; [apply lookup_insert_eq|].
  match goal with |- context [store_upd (T := Monitor) ?f (store_upd (T := Subscription) ?g w)] =>
    change (store_upd (T := Monitor) f (store_upd (T := Subscription) g w))
      with (store_upd (T := Subscription) g (store_upd (T := Monitor) f w)) end.
  by rewrite store_delete_insert.
Qed.

(** The state after a subscription of a monitor is gone. *)
Definition dropped (m : ptr) (x : Monitor) (sub : ptr) (subs : list ptr) (w : World) : World :=
  w <| w_monitors ::= <[m := x <| mon_subscriptions ::= remove_first sub |> <| mon_ref_count ::= Z.pred |>]> |>
    <| w_subs ::= delete sub |>
    <| w_controller ::= fun c => c <| c_all_subscriptions := subs |> |>.

Lemma owners_inv_dropped h a m x sub w :
  NoDup (c_all_subscriptions (w_controller w)) -> w_monitors w !! m = Some x ->
  sub ∈ mon_subscriptions x -> owners_inv h a w ->
  owners_inv h a (dropped m x sub (remove_first sub (c_all_subscriptions (w_controller w))) w).
Proof.
  intros Hnd Hx Hsub I. pose proof (ci_monitors _ _ _ I) as Hm. pose proof (ci_fresh _ _ _ I) as Hf.
  destruct (mo_monitor _ _ _ _ _ Hm m x Hx) as (_ & _ & _ & Hown).
  destruct (Hown sub Hsub) as (_ & z & Hz & Ht & _).
  assert (forall s y p, w_subs w !! s = Some y -> sub_monitor y = OfProxyMonitor p -> s <> sub) as Hne.
  { intros s y p Hy Hp ->. congruence. }
  destruct I. split; try assumption.
  - by apply monitors_ok_drop.
  - eapply proxies_ok_subs; [| |exact ci_proxies]; cbn.
    + intros s y p Hy Hp. pose proof (Hne s y p Hy Hp). rewrite lookup_delete_ne by done. split; [done|].
      by rewrite elem_of_remove_first by done; naive_solver.
    + intros s y p Hs [Hsne Hy]%lookup_delete_Some Hp. split; [by eapply remove_first_elem|done].
  - fresh_tac.
Qed.

Lemma inv_drop_subscription h a m x sub w : controller_inv h a w ->
  w_monitors w !! m = Some x -> sub ∈ mon_subscriptions x ->
  wp (monitor_drop_subscription m sub) (fun _ w' => controller_inv h a w' /\
    c_monitors (w_controller w') = c_monitors (w_controller w) /\
    exists x', w_monitors w' !! m = Some x' /\
      mon_subscriptions x' = remove_first sub (mon_subscriptions x)) w.
Proof.
  intros [Hreg I] Hx Hsub.
  destruct (mo_monitor _ _ _ _ _ (ci_monitors _ _ _ I) m x Hx) as (Hor & Hr & Hnd & Hown).
  destruct (mo_held _ _ _ _ _ (ci_monitors _ _ _ I) m) as [Hh _].
  destruct (Hown sub Hsub) as (Hin & s & Hs & Ht & Hsr).
  assert (2 <= mon_ref_count x) as Hlen.
  { destruct (mon_subscriptions x); [by apply elem_of_nil in Hsub|]. rewrite Hr. cbn.
    destruct Hor as [Hor|Hor]; [rewrite bool_decide_eq_true_2 by done; cbn; lia|].
    unfold bit. case_bool_decide; lia. }
  unfold monitor_drop_subscription. wp_one.
  eapply wp_mono; [apply (wp_remove_subscription sub s w Hreg Hin Hs); lia|]. cbn beta.
  intros _ w2 (Hreg2 & w1 & Hc & ->).
  destruct (calm_listed _ _ _ Hc) as (_ & _ & _ & _ & Emon & Eall).
  pose proof (owners_inv_calm _ _ _ _ _ Hc (fun p Hp => Hp) Hreg I) as I1.
  destruct (alike_some _ _ _ m x (cm_monitors _ _ _ Hc) Hx) as (x1 & Hx1 & Hcore).
  injection Hcore as Er Es. rewrite <- Es in *. rewrite <- Eall in *.
  set (all := c_all_subscriptions (w_controller w1)) in *.
  wp_one. eapply wp_load; [exact Hx1|]. wp_one. apply wp_list_remove_from; [done|]. wp_one.
  unfold update_mon_subs. eapply wp_update; [exact Hx1|].
  eapply wp_subscription_unref_last; [apply lookup_insert_eq|cbn; lia|exact Ht|apply lookup_insert_eq|cbn; lia|].
  assert (NoDup all) as Hall by (rewrite Eall; apply Hreg).
  pose proof (owners_inv_dropped h a m x1 sub w1 Hall Hx1 Hsub I1) as I3.
  set (w3 := dropped m x1 sub (remove_first sub all) w1) in *.
  match goal with |- _ /\ _ /\ exists x', w_monitors ?w' !! m = _ /\ _ =>
    replace w' with w3 by (unfold w3, dropped, with_sub; destruct w1; cbn; f_equal;
      [by rewrite insert_insert_eq|by rewrite delete_insert_eq]) end.
  split_and!; [split; [|done]|done|].
  - eapply registry_ok_same; [..|exact Hreg2]; try done; cbn.
    + intros s' Hs'. assert (s' <> sub) as Hne by (intros ->; exact (remove_first_gone _ _ Hall Hs')).
      by rewrite lookup_delete_ne, lookup_insert_ne.
    + intros s' y Hs' Hy Hl. destruct (sub_monitor y) as [|p|p]; [done| |done]. cbn in *.
      by apply (is_Some_update _ _ x1).
  - eexists. split; [apply lookup_insert_eq|done].
Qed.

(** A run that is calm everywhere. *)
Lemma inv_runs {A} h a (m : CM A) w : controller_inv h a w -> runs w m ->
  wp m (fun _ w' => controller_inv h a w' /\ still w w') w.
Proof.
  intros I Hm. eapply wp_mono; [by apply Hm|]. cbn beta. intros x w' Hc. split; [|done].
  eapply controller_inv_still; [exact Hc|exact I].
Qed.

Lemma inv_close h a m x w : controller_inv h a w -> w_monitors w !! m = Some x ->
  wp (monitor_close m) (fun _ w' => controller_inv h a w' /\
    c_monitors (w_controller w') = c_monitors (w_controller w) /\
    exists x', w_monitors w' !! m = Some x' /\ mon_subscriptions x' = []) w.
Proof.
  intros I Hx. unfold monitor_close. wp_one. eapply wp_load; [exact Hx|]. wp_one.
  apply (wp_foreach (fun rest w' => controller_inv h a w' /\
    c_monitors (w_controller w') = c_monitors (w_controller w) /\
    exists x', w_monitors w' !! m = Some x' /\ mon_subscriptions x' = rest)).
  - split_and!; [done..|]. by exists x.
  - intros sub rest w1 (I1 & E1 & x1 & Hx1 & Hs1).
    eapply wp_mono; [apply (inv_drop_subscription h a m x1 sub w1 I1 Hx1); rewrite Hs1; left|].
    cbn beta. intros _ w2 (I2 & E2 & x2 & Hx2 & Hs2). split_and!; [done|congruence|].
    exists x2. split; [done|]. rewrite Hs2, Hs1. cbn. by rewrite decide_True.
  - intros w1 (I1 & E1 & x1 & Hx1 & Hs1). eapply wp_mono; [apply (inv_runs h a _ w1 I1)|].
    + eapply runs_load_monitor; [exact Hx1|]. intros m' _. run_tac.
    + cbn beta. intros _ w2 [I2 Hc]. split_and!; [done| |].
      * destruct (calm_listed _ _ _ Hc) as (_ & _ & _ & _ & -> & _). done.
      * destruct (alike_some _ _ _ m x1 (cm_monitors _ _ _ Hc) Hx1) as (x2 & Hx2 & Hcore).
        injection Hcore as _ Es. exists x2. split; [done|congruence].
Qed.

(** A reference given up: the last one frees the monitor. *)
Lemma monitors_ok_unref δ monitors subs l reg m x :
  monitors !! m = Some x -> mon_subscriptions x = [] \/ m ∈ l -> 1 <= δ m ->
  monitors_ok δ monitors subs l reg ->
  (mon_ref_count x = 1 -> monitors_ok (plus m (-1) δ) (delete m monitors) subs l reg) /\
  (mon_ref_count x <> 1 ->
   monitors_ok (plus m (-1) δ) (<[m := x <| mon_ref_count ::= Z.pred |>]> monitors) subs l reg).
Proof.
  intros Hx Hor Hδ []. destruct (mo_monitor m x Hx) as (_ & Hr & Hnd & Hown).
  assert (forall p, 0 <= plus m (-1) δ p) as Hpos.
  { intros p. destruct (decide (p = m)) as [->|]; [rewrite plus_eq; lia|rewrite plus_ne by done; apply mo_held]. }
  split; intros Hone.
  - assert (m ∉ l /\ mon_subscriptions x = []) as [Hm Hs].
    { destruct Hor as [Hs|Hm]; [rewrite Hs in Hr; cbn in Hr|rewrite bool_decide_eq_true_2 in Hr by done; cbn in Hr; lia].
      unfold bit in Hr. case_bool_decide; [lia|done]. }
    rewrite Hs, bool_decide_eq_false_2 in Hr by done. cbn in Hr. split; try done.
    + intros p Hp. at_key p m; [done|]. auto.
    + intros p. split; [done|]. at_key p m; [rewrite plus_eq; lia|].
      rewrite plus_ne by done. apply mo_held.
    + intros p y Hy. at_key p m; [done|]. rewrite plus_ne by done. by apply mo_monitor.
    + intros s y p Hin Hy Ht. destruct (mo_sub s y p Hin Hy Ht) as (z & Hz & Hsub). exists z. split; [|done].
      rewrite lookup_delete_ne; [done|]. intros ->. simplify_eq. rewrite Hs in Hsub. by apply elem_of_nil in Hsub.
  - split; try done.
    + intros p Hp. rewrite is_Some_update by done. auto.
    + intros p. split; [done|]. intros Hp. rewrite is_Some_update by done. apply (mo_held p).
      unfold plus in Hp. case_decide; lia.
    + intros p y Hy. at_key p m.
      * simplify_eq. cbn. rewrite plus_eq. split_and!; [|lia|done|done].
        destruct Hor as [Hs|]; [|by left]. rewrite Hs in Hr. cbn in Hr. unfold bit in Hr.
        case_bool_decide; [by left|]. right. lia.
      * rewrite plus_ne by done. by apply mo_monitor.
    + intros s y p Hin Hy Ht. destruct (mo_sub s y p Hin Hy Ht) as (z & Hz & Hsub).
      at_key p m; [|by exists z]. simplify_eq. by eexists.
Qed.

Lemma inv_monitors h a w monitors l δ : controller_inv h a w ->
  monitors_ok δ monitors (w_subs w) l (c_all_subscriptions (w_controller w)) ->
  (forall p, (w_next_ptr w <= p)%positive -> monitors !! p = None) ->
  controller_inv (h <| h_monitor := δ |>) a
    (w <| w_monitors := monitors |> <| w_controller ::= fun c => c <| c_monitors := l |> |>).
Proof.
  intros [Hreg I] Hm Hfresh. split.
  - eapply registry_ok_same; [..|exact Hreg]; try done. intros s y Hin Hy Hl.
    destruct (sub_monitor y) as [|p|p] eqn:Ht; [done| |done]. cbn.
    destruct (mo_sub _ _ _ _ _ Hm s y p Hin Hy Ht) as (z & Hz & _). by exists z.
  - pose proof (ci_fresh _ _ _ I). destruct I. split; try assumption.
    match goal with H : fresh_ok _ |- _ => by destruct H end.
Qed.

Lemma inv_monitor_unref h a m x w : controller_inv h a w -> w_monitors w !! m = Some x ->
  mon_subscriptions x = [] \/ m ∈ c_monitors (w_controller w) -> 1 <= h_monitor h m ->
  wp (monitor_unref m) (fun _ w' => controller_inv (hold_monitor m (-1) h) a w' /\
    w_subs w' = w_subs w /\ w_controller w' = w_controller w /\ w_next_ptr w' = w_next_ptr w) w.
Proof.
  intros I Hx Hor Hh. destruct (monitors_ok_unref _ _ _ _ _ m x Hx Hor Hh (ci_monitors _ _ _ I)) as [H1 H2].
  pose proof (fr_monitors _ (ci_fresh _ _ _ I)) as Hf.
  destruct (decide (mon_ref_count x = 1)) as [Hr|Hr].
  - eapply wp_monitor_unref_last; [done..|]. split; [|done].
    pose proof (inv_monitors h a w _ _ _ I (H1 Hr) (fresh_delete Hf m)) as H. by destruct w as [? ? ? ? ? ? ? ? []].
  - eapply wp_monitor_unref_kept; [done..|]. split; [|done].
    pose proof (inv_monitors h a w _ _ _ I (H2 Hr) (fresh_update Hf m _ _ Hx)) as H. by destruct w as [? ? ? ? ? ? ? ? []].
Qed.

Lemma inv_give_back h a m w : controller_inv (hold_monitor m (-1) (hold_monitor m 1 h)) a w -> controller_inv h a w.
Proof.
  apply controller_inv_held. split_and!; try done. intros p. cbn. unfold plus. case_decide; lia.
Qed.

(** A reference taken. *)
Lemma inv_monitor_ref h a m x Q w : controller_inv h a w -> w_monitors w !! m = Some x ->
  (forall w', controller_inv (hold_monitor m 1 h) a w' -> c_monitors (w_controller w') = c_monitors (w_controller w) ->
     w_monitors w' = <[m := x <| mon_ref_count ::= Z.succ |>]> (w_monitors w) ->
     w_subs w' = w_subs w -> c_all_subscriptions (w_controller w') = c_all_subscriptions (w_controller w) ->
     w_next_ptr w' = w_next_ptr w -> Q m w') ->
  wp (monitor_ref m) Q w.
Proof.
  intros I Hx HQ. unfold monitor_ref. wp_one. eapply wp_update; [exact Hx|]. apply wp_ret, HQ; try done.
  pose proof (fr_monitors _ (ci_fresh _ _ _ I)) as Hf.
  assert (monitors_ok (plus m 1 (h_monitor h)) (<[m := x <| mon_ref_count ::= Z.succ |>]> (w_monitors w))
    (w_subs w) (c_monitors (w_controller w)) (c_all_subscriptions (w_controller w))) as Hm.
  { pose proof (ci_monitors _ _ _ I) as []. split; try done.
    - intros p Hp. rewrite is_Some_update by done. auto.
    - intros p. rewrite is_Some_update by done. destruct (mo_held p) as [Hh1 Hh2]. at_key p m.
      + rewrite plus_eq. split; [lia|]. eauto.
      + by rewrite plus_ne.
    - intros p y Hy. at_key p m.
      + simplify_eq. destruct (mo_monitor m x Hx) as (_ & Hr & ? & ?). destruct (mo_held m). cbn. rewrite plus_eq.
        split_and!; [right; lia|lia|done|done].
      + rewrite plus_ne by done. by apply mo_monitor.
    - intros s y p Hin Hy Ht. destruct (mo_sub s y p Hin Hy Ht) as (z & Hz & Hsub).
      at_key p m; [|by exists z]. simplify_eq. by eexists. }
  pose proof (inv_monitors h a w _ _ _ I Hm (fresh_update Hf m _ _ Hx)) as H. by destruct w as [? ? ? ? ? ? ? ? []].
Qed.

(** The list gives up its reference to a monitor without subscriptions. *)
Lemma inv_remove_monitor h a m x w : controller_inv h a w -> w_monitors w !! m = Some x ->
  mon_subscriptions x = [] -> m ∈ c_monitors (w_controller w) ->
  wp (controller_remove_monitor m) (fun _ w' => controller_inv h a w' /\
    c_monitors (w_controller w') = remove_first m (c_monitors (w_controller w)) /\
    (1 <= h_monitor h m -> exists x', w_monitors w' !! m = Some x' /\ mon_subscriptions x' = [])) w.
Proof.
  intros I Hx Hs Hin. unfold controller_remove_monitor. wp_one. wp_one. wp_one. apply wp_list_remove_from; [done|].
  wp_one. wp_one. set (l := remove_first m (c_monitors (w_controller w))).
  set (w1 := w <| w_controller ::= fun c => c <| c_monitors := l |> |>).
  assert (controller_inv (hold_monitor m 1 h) a w1) as I1.
  { pose proof (ci_monitors _ _ _ I) as Hm.
    assert (monitors_ok (plus m 1 (h_monitor h)) (w_monitors w) (w_subs w) l (c_all_subscriptions (w_controller w))) as Hm'.
    { destruct Hm. split; try done; [by apply remove_first_nodup|..].
      - intros p Hp%remove_first_elem. auto.
      - intros p. destruct (mo_held p) as [? Hh]. unfold plus. case_decide as Hp; [subst p|].
        + split; [lia|]. eauto.
        + split; [lia|]. intros. apply Hh. lia.
      - intros p y Hy. destruct (mo_monitor p y Hy) as (Hor & Hr & ? & ?). destruct (mo_held p).
        destruct (decide (p = m)) as [->|Hne].
        + rewrite plus_eq. rewrite bool_decide_eq_true_2 in Hr by done. cbn in Hr.
          rewrite bool_decide_eq_false_2 by (by apply remove_first_gone). cbn. split_and!; [right; lia|lia|done|done].
        + rewrite plus_ne by done. assert (p ∈ l <-> p ∈ c_monitors (w_controller w)) as Hl.
          { unfold l. rewrite elem_of_remove_first by done. naive_solver. }
          rewrite (bool_decide_ext _ _ Hl), Hl. done. }
    pose proof (inv_monitors h a w _ _ _ I Hm' (fr_monitors _ (ci_fresh _ _ _ I))) as H.
    unfold w1. by destruct w as [? ? ? ? ? ? ? ? []]. }
  assert (1 <= h_monitor (hold_monitor m 1 h) m) as Hh.
  { cbn. rewrite plus_eq. destruct (mo_held _ _ _ _ _ (ci_monitors _ _ _ I) m). lia. }
  destruct (mo_monitor _ _ _ _ _ (ci_monitors _ _ _ I) m x Hx) as (_ & Hr & _).
  rewrite Hs, bool_decide_eq_true_2 in Hr by done. cbn in Hr.
  destruct (monitors_ok_unref _ _ _ _ _ m x Hx (or_introl Hs) Hh (ci_monitors _ _ _ I1)) as [H1 H2].
  pose proof (fr_monitors _ (ci_fresh _ _ _ I)) as Hf.
  destruct (decide (mon_ref_count x = 1)) as [Hone|Hone].
  - eapply wp_monitor_unref_last; [exact Hx|done|]. split_and!; [|done|lia]. apply (inv_give_back h a m).
    pose proof (inv_monitors _ a w1 _ _ _ I1 (H1 Hone) (fresh_delete Hf m)) as H. unfold w1 in *. by destruct w as [? ? ? ? ? ? ? ? []].
  - eapply wp_monitor_unref_kept; [exact Hx|done|]. split_and!; [|done|].
    + apply (inv_give_back h a m).
      pose proof (inv_monitors _ a w1 _ _ _ I1 (H2 Hone) (fresh_update Hf m _ _ Hx)) as H. unfold w1 in *. by destruct w as [? ? ? ? ? ? ? ? []].
    + intros _. eexists. split; [apply lookup_insert_eq|done].
Qed.
End monitors.

(** ** Methods *)

Section methods.
Context {E : Env}.

Lemma inv_called h a c w : plain c = true -> controller_inv h a w -> controller_inv h a (emit c w).
Proof. intros Hc. apply controller_inv_still. by apply calm_emit. Qed.
Lemma inv_ticked h a w : controller_inv h a w -> controller_inv h a (tick w).
Proof. apply controller_inv_still. by apply calm_stores. Qed.

Lemma inv_monitor_unref_back h a m x w : controller_inv (hold_monitor m 1 h) a w -> 0 <= h_monitor h m ->
  w_monitors w !! m = Some x -> mon_subscriptions x = [] \/ m ∈ c_monitors (w_controller w) ->
  wp (monitor_unref m) (fun _ w' => controller_inv h a w' /\
    w_subs w' = w_subs w /\ w_controller w' = w_controller w /\ w_next_ptr w' = w_next_ptr w) w.
Proof.
  intros I Hh Hx Hor. eapply wp_mono; [apply (inv_monitor_unref _ a m x w I Hx Hor)|].
  - cbn. rewrite plus_eq. lia.
  - cbn beta. intros _ w' [I' ?]. split; [|done]. by apply (inv_give_back h a m).
Qed.

Lemma inv_monitor_unref_end {A} (r : A) h a m x w : controller_inv (hold_monitor m 1 h) a w -> 0 <= h_monitor h m ->
  w_monitors w !! m = Some x -> mon_subscriptions x = [] \/ m ∈ c_monitors (w_controller w) ->
  wp (monitor_unref m ;; mret r) (fun _ w' => controller_inv h a w') w.
Proof.
  intros I Hh Hx Hor. wp_one. eapply wp_mono; [by eapply inv_monitor_unref_back|]. cbn beta.
  intros _ w' [I' _]. by apply wp_ret.
Qed.

Lemma inv_close_removed h a m x w : controller_inv h a w -> w_monitors w !! m = Some x ->
  m ∈ c_monitors (w_controller w) ->
  wp (monitor_close m ;; controller_remove_monitor m) (fun _ w' => controller_inv h a w' /\
    c_monitors (w_controller w') = remove_first m (c_monitors (w_controller w)) /\
    (1 <= h_monitor h m -> exists x', w_monitors w' !! m = Some x' /\ mon_subscriptions x' = [])) w.
Proof.
  intros I Hx Hin. wp_one. eapply wp_mono; [apply (inv_close h a m x w I Hx)|]. cbn beta.
  intros _ w1 (I1 & E1 & x1 & Hx1 & Hs1).
  eapply wp_mono; [apply (inv_remove_monitor h a m x1 w1 I1 Hx1 Hs1); by rewrite E1|]. cbn beta.
  intros _ w2 (I2 & E2 & H2). split_and!; [done| |done]. by rewrite E2, E1.
Qed.

Lemma inv_method_close a msg m w : controller_inv nothing a w -> is_Some (w_monitors w !! m) ->
  wp (monitor_method_close msg m) (fun _ w' => controller_inv nothing a w') w.
Proof.
  intros I [x Hx]. destruct (mo_monitor _ _ _ _ _ (ci_monitors _ _ _ I) m x Hx) as (Hor & _).
  assert (m ∈ c_monitors (w_controller w)) as Hin by (destruct Hor as [|Hor]; [done|cbn in Hor; lia]).
  unfold monitor_method_close. wp_one. eapply inv_monitor_ref; [exact I|exact Hx|].
  intros w1 I1 E1 Em _ _ _. assert (w_monitors w1 !! m = Some (x <| mon_ref_count ::= Z.succ |>)) as Hx1.
  { rewrite Em. apply lookup_insert_eq. }
  wp_one. eapply wp_load; [exact Hx1|]. wp_one. destruct (mon_export_slot _); cbn [negb].
  - apply (wp_part (monitor_close m) (fun _ => controller_remove_monitor m)).
    eapply wp_mono; [apply (inv_close_removed _ a m _ w1 I1 Hx1); by rewrite E1|]. cbn beta. intros _ w2 (I2 & _ & H2). destruct H2 as (x2 & Hx2 & Hs2); [cbn; rewrite plus_eq; lia|].
    apply wp_bus. eapply inv_monitor_unref_end; [by apply inv_called|done|exact Hx2|by left].
  - apply wp_bus. eapply inv_monitor_unref_end; [by apply inv_called|done|exact Hx1|]. right. cbn. by rewrite E1.
Qed.

(** Two lists that only the elements of one leave. *)
Lemma inv_name_owner_changed a args w : controller_inv nothing a w ->
  wp (controller_name_owner_changed args) (fun _ w' => controller_inv nothing a w') w.
Proof.
  intros I. destruct args as [r|[[name old] new]]; [by apply wp_ret|]. cbn [controller_name_owner_changed].
  wp_one. eapply wp_mono; [|intros x w' H; apply wp_ret; exact H].
  destruct (_ && _); [|by apply wp_ret]. unfold controller_client_disconnected. wp_one. wp_one.
  apply (wp_foreach (fun rest w' => controller_inv nothing a w' /\ NoDup rest /\
    forall p, p ∈ rest -> p ∈ c_monitors (w_controller w'))).
  - split_and!; [done|apply (mo_once _ _ _ _ _ (ci_monitors _ _ _ I))|done].
  - intros p rest w1 (I1 & [Hp Hnd]%NoDup_cons & Hin).
    destruct (mo_listed _ _ _ _ _ (ci_monitors _ _ _ I1) p) as [x Hx]; [apply Hin; left|].
    wp_one. eapply wp_load; [exact Hx|]. destruct (streq _ _).
    + eapply wp_mono; [apply (inv_close_removed _ a p x w1 I1 Hx), Hin; left|]. cbn beta.
      intros _ w2 (I2 & E2 & _). split_and!; [done|done|]. intros q Hq. rewrite E2.
      apply remove_first_ne; [by intros ->|]. apply Hin. by right.
    + apply wp_ret. split_and!; [done|done|]. intros q Hq. apply Hin. by right.
  - by intros w1 (I1 & _).
Qed.

(** ** Creation *)

Lemma still_monitor w w' p x : still w w' -> w_monitors w !! p = Some x ->
  exists x', w_monitors w' !! p = Some x' /\ mon_subscriptions x' = mon_subscriptions x.
Proof.
  intros Hc Hx. destruct (alike_some _ _ _ p x (cm_monitors _ _ _ Hc) Hx) as (x' & Hx' & Hcore).
  injection Hcore as _ Hs. by exists x'.
Qed.

Lemma inv_new_monitor h a x w : controller_inv h a w -> mon_ref_count x = 1 -> mon_subscriptions x = [] ->
  let p := w_next_ptr w in
  controller_inv (hold_monitor p 1 h) a (store_upd (T := Monitor) <[p := x]> (w <| w_next_ptr ::= Pos.succ |>)) /\
  p ∉ c_monitors (w_controller w) /\ h_monitor h p = 0.
Proof.
  intros I Hr Hs p. pose proof (ci_fresh _ _ _ I) as Hf.
  assert (w_monitors w !! p = None) as Hp by (apply (fr_monitors _ Hf); unfold p; lia).
  pose proof (ci_monitors _ _ _ I) as [].
  assert (p ∉ c_monitors (w_controller w)) as Hl by (intros Hin; destruct (mo_listed p Hin); congruence).
  assert (h_monitor h p = 0) as Hh.
  { destruct (mo_held p) as [H0 H1]. destruct (decide (1 <= h_monitor h p)) as [Hd|]; [|lia].
    destruct (H1 Hd). congruence. }
  split_and!; [|done|done]. set (w1 := w <| w_next_ptr ::= Pos.succ |>).
  assert (controller_inv h a w1) as I1.
  { eapply controller_inv_still; [|exact I]. apply calm_stores; try done. cbn. lia. }
  assert (monitors_ok (plus p 1 (h_monitor h)) (<[p := x]> (w_monitors w1)) (w_subs w1)
    (c_monitors (w_controller w1)) (c_all_subscriptions (w_controller w1))) as Hm.
  { assert (forall q, is_Some (w_monitors w !! q) -> is_Some (<[p := x]> (w_monitors w) !! q)) as Hmono.
    { intros q Hq. at_key q p; [by eexists|done]. }
    split; cbn; try done.
    - intros q Hq. apply Hmono; auto.
    - intros q. destruct (mo_held q) as [H0 H1]. destruct (decide (q = p)) as [->|Hne].
      + rewrite plus_eq. split; [lia|]. intros _. rewrite lookup_insert_eq. by eexists.
      + rewrite plus_ne by done. split; [done|]. intros Hq. apply Hmono; auto.
    - intros q y Hy. at_key q p.
      + injection Hy as <-. rewrite plus_eq, Hs, bool_decide_eq_false_2 by done. cbn.
        split_and!; [right; lia|lia|constructor|by intros s ?%elem_of_nil].
      + rewrite plus_ne by done. by apply mo_monitor.
    - intros s y q Hin Hy Ht. destruct (mo_sub s y q Hin Hy Ht) as (z & Hz & Hsub). exists z. split; [|done].
      rewrite lookup_insert_ne; [done|]. intros <-. congruence. }
  pose proof (inv_monitors h a w1 _ _ _ I1 Hm (fresh_new (fr_monitors _ Hf) x)) as H.
  unfold w1, p in *. by destruct w as [? ? ? ? ? ? ? ? []].
Qed.

Lemma inv_update_monitor h a p x y w : controller_inv h a w -> w_monitors w !! p = Some x ->
  mon_core y = mon_core x -> controller_inv h a (store_upd (T := Monitor) <[p := y]> w).
Proof. intros I Hx Hc. eapply controller_inv_still; [|exact I]. by eapply calm_update_monitor. Qed.

Lemma inv_list_monitor h a p x w : controller_inv (hold_monitor p 1 h) a w -> 0 <= h_monitor h p ->
  w_monitors w !! p = Some x -> p ∉ c_monitors (w_controller w) ->
  controller_inv h a (w <| w_controller ::= fun c => c <| c_monitors ::= fun l => l ++ [p] |> |>).
Proof.
  intros I Hh Hx Hl. pose proof (ci_monitors _ _ _ I) as [].
  assert (monitors_ok (h_monitor h) (w_monitors w) (w_subs w) (c_monitors (w_controller w) ++ [p])
    (c_all_subscriptions (w_controller w))) as Hm.
  { split; try done.
    - apply NoDup_app. split_and!; [done| |apply NoDup_singleton]. by intros q Hq ->%list_elem_of_singleton.
    - intros q [Hq| ->%list_elem_of_singleton]%elem_of_app; [auto|by exists x].
    - intros q. destruct (mo_held q) as [H0 H1]. cbn in H0, H1. unfold plus in H0, H1. case_decide; subst.
      + split; [done|]. intros. by exists x.
      + split; [lia|]. intros. apply H1. lia.
    - intros q y Hy. destruct (mo_monitor q y Hy) as (Hor & Hr & ? & ?). cbn in Hor, Hr.
      destruct (decide (q = p)) as [->|Hne].
      + rewrite plus_eq in Hr. rewrite bool_decide_eq_false_2 in Hr by done.
        rewrite bool_decide_eq_true_2 by (apply elem_of_app; right; by left). cbn in *.
        split_and!; [left; apply elem_of_app; right; by left|lia|done|done].
      + rewrite plus_ne in Hor, Hr by done.
        assert (q ∈ c_monitors (w_controller w) ++ [p] <-> q ∈ c_monitors (w_controller w)) as Hq.
        { rewrite elem_of_app, list_elem_of_singleton. naive_solver. }
        rewrite (bool_decide_ext _ _ Hq), Hq. done. }
  pose proof (inv_monitors _ a w _ _ _ I Hm (fr_monitors _ (ci_fresh _ _ _ I))) as H.
  by destruct h, w as [? ? ? ? ? ? ? ? []].
Qed.

Context (Hnf : no_local_failure E).

Lemma inv_monitor_new h a owner w : controller_inv h a w ->
  wp (monitor_new owner) (fun r w' => exists p x, r = Some p /\ controller_inv (hold_monitor p 1 h) a w' /\
    w_monitors w' !! p = Some x /\ mon_subscriptions x = [] /\ p ∉ c_monitors (w_controller w') /\
    h_monitor h p = 0) w.
Proof.
  intros I. unfold monitor_new. wp_one. wp_one. rewrite local_ok_true by done. cbn [negb].
  wp_one. wp_one. wp_one. wp_one. wp_one. wp_one.
  set (w1 := field_update w_next_monitor_id next_u32 (tick w)).
  assert (controller_inv h a w1) as I1 by (eapply controller_inv_still; [|exact I]; by apply calm_stores).
  match goal with |- context [store_upd <[w_next_ptr w1 := ?x]> _] =>
    destruct (inv_new_monitor h a x w1 I1 eq_refl eq_refl) as (I2 & Hl & Hh); set (x0 := x) in * end.
  set (p := w_next_ptr w1) in *. cbv zeta in I2. set (w2 := store_upd _ _) in *.
  assert (w_monitors w2 !! p = Some x0) as Hx0 by apply lookup_insert_eq.
  wp_one. wp_one. rewrite local_ok_true by done. cbn [negb]. wp_one.
  eapply wp_update; [exact Hx0|]. wp_one. wp_one. rewrite local_ok_true by done. cbn [negb]. wp_one.
  eapply wp_update; [apply lookup_insert_eq|]. apply wp_ret.
  eexists p, _. split; [done|]. split; [|split; [apply lookup_insert_eq|done]].
  eapply inv_update_monitor; [|apply lookup_insert_eq|done]. apply inv_ticked.
  eapply inv_update_monitor; [|exact Hx0|done]. by apply inv_ticked.
Qed.

Lemma inv_create_monitor a msg sender w : controller_inv nothing a w ->
  wp (controller_method_create_monitor msg sender) (fun _ w' => controller_inv nothing a w') w.
Proof.
  intros I. unfold controller_method_create_monitor. wp_one.
  eapply wp_mono; [by apply (inv_monitor_new nothing a sender w)|]. cbn beta.
  intros r w1 (p & x & -> & I1 & Hx & Hs & Hl & Hh). wp_one.
  eapply wp_mono; [apply (inv_runs _ a (monitor_export p) w1 I1)|].
  { unfold monitor_export. eapply runs_load_monitor; [exact Hx|]. intros m' _. run_tac. }
  cbn beta. intros exported w2 [I2 Hc]. destruct (still_monitor _ _ _ _ Hc Hx) as (x2 & Hx2 & Hs2). rewrite Hs in Hs2.
  destruct (calm_listed _ _ _ Hc) as (_ & _ & _ & _ & El & _). rewrite <- El in Hl.
  assert (forall r w', controller_inv (hold_monitor p 1 nothing) a w' -> w_monitors w' !! p = Some x2 ->
    wp (monitor_unref p ;; mret r) (fun (_ : Z) w' => controller_inv nothing a w') w') as Hend.
  { intros r w' I' Hx'. eapply inv_monitor_unref_end; [done|by rewrite Hh|exact Hx'|by left]. }
  wp_one. destruct exported; cbn [negb]; [|apply wp_ret; by apply Hend].
  wp_one. wp_one. rewrite local_ok_true by done. cbn [negb]. wp_one. wp_one. rewrite local_ok_true by done. cbn [negb].
  wp_one. eapply wp_load; [exact Hx2|]. wp_one. apply wp_bus. destruct (_ <? 0).
  { apply wp_ret, Hend; [|done]. apply inv_called; [done|]. by do 2 apply inv_ticked. }
  wp_one. eapply inv_monitor_ref; [apply inv_called; [done|]; do 2 apply inv_ticked; exact I2|exact Hx2|].
  intros w3 I3 E3 Em _ _ _. wp_one. wp_one. apply wp_ret. 
  assert (w_monitors w3 !! p = Some (x2 <| mon_ref_count ::= Z.succ |>)) as Hx3 by (rewrite Em; apply lookup_insert_eq).
  eapply inv_monitor_unref_end; [|by rewrite Hh|exact Hx3|by left].
  eapply inv_list_monitor; [exact I3|cbn; rewrite plus_eq; cbn; lia|exact Hx3|]. by rewrite E3.
Qed.
End methods.

(** ** Subscriptions of monitors *)

Section subscribing.
Context {E : Env}.

(** Only subscriptions that are registered, or that belong to proxies, matter. *)
Lemma inv_with_subs h a w m : controller_inv h a w ->
  (forall s x, w_subs w !! s = Some x ->
     s ∈ c_all_subscriptions (w_controller w) \/ (exists p, sub_monitor x = OfProxyMonitor p) -> m !! s = Some x) ->
  (forall p, (w_next_ptr w <= p)%positive -> m !! p = None) ->
  controller_inv h a (w <| w_subs := m |>).
Proof.
  intros [Hreg I] Hm Hfresh.
  assert (forall s, s ∈ c_all_subscriptions (w_controller w) -> m !! s = w_subs w !! s) as Hsame.
  { intros s Hs. destruct (ok_live w Hreg s Hs) as (x & Hx & _). rewrite Hx. by apply Hm; [|left]. }
  split; [apply (registry_ok_same w); done|].
  assert (fresh_ok (w <| w_subs := m |>)) as Hf by (pose proof (ci_fresh _ _ _ I) as []; by split).
  destruct I. split; try assumption; cbn.
  - destruct ci_monitors. split; try done.
    + intros p x Hx. destruct (mo_monitor p x Hx) as (? & ? & ? & Hown). split_and!; [done..|].
      intros s Hs. destruct (Hown s Hs) as (Hin & y & ?). split; [done|]. exists y. by rewrite Hsame.
    + intros s x p Hs Hx. rewrite Hsame in Hx by done. by apply mo_sub.
  - eapply proxies_ok_subs; [| |exact ci_proxies]; cbn.
    + intros s y p Hy Hp. split; [|done]. apply Hm; [done|]. right. by exists p.
    + intros s y p Hs Hy Hp. by rewrite Hsame in Hy.
Qed.

(** A subscription of a monitor that only the running handler knows. *)
Definition loose (w : World) (m s : ptr) (x : Subscription) : Prop :=
  w_subs w !! s = Some x /\ s ∉ c_all_subscriptions (w_controller w) /\
  sub_ref_count x = 1 /\ sub_monitor x = OfMonitor m.

Lemma inv_loose_update h a w s x y : controller_inv h a w -> w_subs w !! s = Some x ->
  s ∉ c_all_subscriptions (w_controller w) -> (forall p, sub_monitor x <> OfProxyMonitor p) ->
  controller_inv h a (store_upd (T := Subscription) <[s := y]> w).
Proof.
  intros I Hx Hs Ht. pose proof (inv_with_subs h a w (<[s := y]> (w_subs w)) I) as H.
  replace (store_upd (T := Subscription) <[s := y]> w) with (w <| w_subs := <[s := y]> (w_subs w) |>) by done.
  apply H.
  - intros q z Hz Hor. at_key q s; [|done]. destruct Hor as [|[p ?]]; [done|]. by destruct (Ht p); simplify_eq.
  - apply (fresh_update (fr_subs _ (ci_fresh _ _ _ I)) s x y Hx).
Qed.
Lemma inv_loose_delete h a w s x : controller_inv h a w -> w_subs w !! s = Some x ->
  s ∉ c_all_subscriptions (w_controller w) -> (forall p, sub_monitor x <> OfProxyMonitor p) ->
  controller_inv h a (store_upd (T := Subscription) (delete s) w).
Proof.
  intros I Hx Hs Ht. pose proof (inv_with_subs h a w (delete s (w_subs w)) I) as H.
  replace (store_upd (T := Subscription) (delete s) w) with (w <| w_subs := delete s (w_subs w) |>) by done.
  apply H.
  - intros q z Hz Hor. at_key q s; [|done]. destruct Hor as [|[p ?]]; [done|]. by destruct (Ht p); simplify_eq.
  - apply (fresh_delete (fr_subs _ (ci_fresh _ _ _ I)) s).
Qed.
Lemma inv_new_sub h a w x : controller_inv h a w -> let s := w_next_ptr w in
  controller_inv h a (store_upd (T := Subscription) <[s := x]> (w <| w_next_ptr ::= Pos.succ |>)) /\
  s ∉ c_all_subscriptions (w_controller w).
Proof.
  intros I s. pose proof (ci_fresh _ _ _ I) as Hf.
  assert (w_subs w !! s = None) as Hs by (apply (fr_subs _ Hf); unfold s; lia). split.
  - set (w1 := w <| w_next_ptr ::= Pos.succ |>).
    assert (controller_inv h a w1) as I1.
    { eapply controller_inv_still; [|exact I]. apply calm_stores; try done. cbn. lia. }
    apply (inv_with_subs h a w1 (<[s := x]> (w_subs w)) I1); cbn.
    + intros q z Hz _. rewrite lookup_insert_ne; [done|]. congruence.
    + apply (fresh_new (fr_subs _ Hf)).
  - intros Hin. destruct (ok_live w (ci_registry _ _ _ I) s Hin) as (y & Hy & _). congruence.
Qed.

Context (Hnf : no_local_failure E).

Lemma wp_subscription_new h a node w Q : controller_inv h a w ->
  (forall s x w', controller_inv h a w' -> w_subs w' !! s = Some x -> sub_ref_count x = 1 ->
     sub_monitor x = NoMonitor -> sub_node x = node -> sub_units x = [] ->
     s ∉ c_all_subscriptions (w_controller w') -> w_monitors w' = w_monitors w ->
     w_proxies w' = w_proxies w -> w_nodes w' = w_nodes w -> w_trace w' = w_trace w ->
     w_controller w' = w_controller w -> Q (Some s) w') ->
  wp (subscription_new node) Q w.
Proof.
  intros I HQ. unfold subscription_new. wp_one. local_works. do 6 wp_one.
  set (w1 := field_update w_next_sub_id next_u32 (tick w)).
  assert (controller_inv h a w1) as I1 by (eapply controller_inv_still; [|exact I]; by apply calm_stores).
  match goal with |- context [store_upd <[w_next_ptr w1 := ?x]> _] =>
    destruct (inv_new_sub h a w1 x I1) as (I2 & Hs); set (x0 := x) in * end.
  set (s := w_next_ptr w1) in *. cbv zeta in I2. wp_one. local_works. wp_one.
  eapply wp_update; [apply lookup_insert_eq|]. apply wp_ret. eapply HQ; try done; [|apply lookup_insert_eq|done..].
  eapply inv_loose_update; [by apply inv_ticked|apply lookup_insert_eq|done|done].
Qed.

Lemma inv_create_sub h a m mon node w : controller_inv h a w -> w_monitors w !! m = Some mon ->
  wp (create_monitor_subscription m node) (fun r w' => exists s x, r = Some s /\
    controller_inv (hold_monitor m 1 h) a w' /\ loose w' m s x /\
    w_monitors w' !! m = Some (mon <| mon_ref_count ::= Z.succ |>) /\
    c_monitors (w_controller w') = c_monitors (w_controller w)) w.
Proof.
  intros I Hm. unfold create_monitor_subscription. wp_one. eapply wp_subscription_new; [exact I|].
  intros s x w1 I1 Hx Hr Ht _ _ Hs Em _ _ _ Ec. wp_one. eapply inv_monitor_ref; [exact I1|by rewrite Em|].
  intros w2 I2 Ec2 Em2 Es2 Ea2 _. rewrite <- Es2 in Hx. rewrite <- Ea2 in Hs.
  wp_one. eapply wp_update; [exact Hx|]. apply wp_ret.
  eexists s, _. split_and!; [done| | |cbn; rewrite Em2; apply lookup_insert_eq|cbn; congruence].
  - eapply inv_loose_update; [exact I2|exact Hx|done|by rewrite Ht].
  - split_and!; [apply lookup_insert_eq|done|done|done].
Qed.

Lemma inv_add_unit h a m s x unit w : controller_inv h a w -> loose w m s x ->
  wp (subscription_add_unit s unit) (fun r w' => r = true /\ controller_inv h a w' /\
    (exists x', loose w' m s x') /\ w_monitors w' = w_monitors w /\ w_controller w' = w_controller w) w.
Proof.
  intros I (Hx & Hs & Hr & Ht). unfold subscription_add_unit. wp_one. local_works. wp_one. local_works.
  wp_one. eapply wp_update; [exact Hx|]. apply wp_ret. split_and!; [done| | |done|done].
  - eapply inv_loose_update; [do 2 apply inv_ticked; exact I|exact Hx|done|by rewrite Ht].
  - eexists. split_and!; [apply lookup_insert_eq|done|done|done].
Qed.

(** A loose subscription is dropped. *)
Lemma inv_drop_loose h a m mon s x w : controller_inv (hold_monitor m 1 h) a w -> loose w m s x ->
  0 <= h_monitor h m -> w_monitors w !! m = Some mon -> m ∈ c_monitors (w_controller w) ->
  wp (subscription_unref s) (fun _ w' => controller_inv h a w') w.
Proof.
  intros I (Hx & Hs & Hr & Ht) Hh Hm Hl. unfold subscription_unref. wp_one. eapply wp_update; [exact Hx|]. wp_one.
  eapply wp_load; [apply lookup_insert_eq|]. cbn [sub_ref_count field_update]. rewrite Hr.
  change (Z.pred 1 =? 0) with true. cbn [negb sub_monitor field_update]. rewrite Ht. wp_one.
  eapply wp_mono; [eapply inv_monitor_unref_back; [|exact Hh|exact Hm|by right]|].
  - eapply inv_loose_update; [exact I|exact Hx|done|by rewrite Ht].
  - cbn beta. intros _ w1 (I1 & Es & Ec & _). eapply wp_free.
    + change (store_get w1) with (w_subs w1). rewrite Es. apply lookup_insert_eq.
    + eapply inv_loose_delete; [exact I1|rewrite Es; apply lookup_insert_eq|by rewrite Ec|done].
Qed.

(** A loose subscription becomes one of the monitor and of the registry. *)
Lemma owners_inv_registered h a m mon s x y w : owners_inv (hold_monitor m 1 h) a w -> loose w m s x ->
  0 <= h_monitor h m -> w_monitors w !! m = Some mon -> m ∈ c_monitors (w_controller w) ->
  sub_ref_count y = 2 -> sub_monitor y = OfMonitor m ->
  owners_inv h a (with_sub s y (c_all_subscriptions (w_controller w) ++ [s])
    (store_upd (T := Monitor) <[m := mon <| mon_subscriptions := mon_subscriptions mon ++ [s] |>]> w)).
Proof.
  intros I (Hx & Hs & Hr & Ht) Hh Hm Hl Hy Hyt. pose proof (ci_fresh _ _ _ I) as Hf.
  pose proof (fresh_update (fr_subs _ Hf) s x y Hx) as Hf1.
  pose proof (fresh_update (fr_monitors _ Hf) m mon (mon <| mon_subscriptions := mon_subscriptions mon ++ [s] |>) Hm) as Hf2.
  destruct I. split; try assumption; cbn; [..|by destruct Hf].
  - destruct ci_monitors. split; cbn in *; [done|..].
    + intros p Hp. rewrite is_Some_update by done. auto.
    + intros p. rewrite is_Some_update by done. destruct (mo_held p) as [H0 H1]. unfold plus in H0, H1.
      case_decide; subst; [|split; [lia|intros; apply H1; lia]]. split; [done|]. intros. by exists mon.
    + intros p z Hz. at_key p m.
      * simplify_eq. destruct (mo_monitor m mon Hm) as (_ & Hmr & Hnd & Hown). rewrite plus_eq in Hmr.
        cbn [mon_ref_count mon_subscriptions field_update]. rewrite length_app. cbn. split_and!; [by left|lia| |].
        -- apply NoDup_app. split_and!; [done| |apply NoDup_singleton]. intros q Hq ->%list_elem_of_singleton.
           by destruct (Hown s Hq).
        -- intros q [Hq| ->%list_elem_of_singleton]%elem_of_app.
           ++ destruct (Hown q Hq) as (Hin & z & ?). split; [apply elem_of_app; by left|]. exists z.
              rewrite lookup_insert_ne; [done|]. by intros ->.
           ++ split; [apply elem_of_app; right; by left|]. exists y. rewrite lookup_insert_eq. done.
      * destruct (mo_monitor p z Hz) as (? & ? & ? & Hown). rewrite plus_ne in * by done. split_and!; [done..|].
        intros q Hq. destruct (Hown q Hq) as (Hin & v & ?). split; [apply elem_of_app; by left|]. exists v.
        rewrite lookup_insert_ne; [done|]. by intros ->.
    + intros q v p [Hq| ->%list_elem_of_singleton]%elem_of_app Hv Hp.
      * rewrite lookup_insert_ne in Hv by (by intros ->). destruct (mo_sub q v p Hq Hv Hp) as (z & Hz & Hsub).
        at_key p m; [|by exists z]. simplify_eq. eexists. split; [done|]. cbn. apply elem_of_app. by left.
      * rewrite lookup_insert_eq in Hv. simplify_eq. rewrite Hyt in Hp. injection Hp as <-.
        exists (mon <| mon_subscriptions := mon_subscriptions mon ++ [s] |>). rewrite lookup_insert_eq.
        split; [done|]. cbn. apply elem_of_app. right. by left.
  - eapply proxies_ok_subs; [| |exact ci_proxies]; cbn.
    + intros q z p Hz Hp. assert (q <> s) by congruence. rewrite lookup_insert_ne by done. split; [done|].
      rewrite elem_of_app, list_elem_of_singleton. naive_solver.
    + intros q z p [Hq| ->%list_elem_of_singleton]%elem_of_app Hz Hp.
      * rewrite lookup_insert_ne in Hz by (by intros ->). done.
      * rewrite lookup_insert_eq in Hz. simplify_eq. congruence.
Qed.

Lemma inv_add_subscription h a msg m mon s x w : controller_inv (hold_monitor m 1 h) a w -> loose w m s x ->
  0 <= h_monitor h m -> w_monitors w !! m = Some mon -> m ∈ c_monitors (w_controller w) ->
  wp (r ← monitor_add_subscription msg m s; subscription_unref s ;; mret r)
    (fun _ w' => controller_inv h a w') w.
Proof.
  intros I Hloose Hh Hm Hl. pose proof Hloose as (Hx & Hs & Hr & Ht). pose proof (ci_registry _ _ _ I) as Hreg.
  set (x2 := x <| sub_ref_count ::= Z.succ |>).
  assert (sub_ref_count x2 = 2) as Hx2 by (cbn; lia).
  set (w1 := store_upd (T := Monitor) <[m := mon <| mon_subscriptions := mon_subscriptions mon ++ [s] |>]> w).
  pose proof (owners_inv_registered h a m mon s x x2 w I Hloose Hh Hm Hl Hx2 Ht) as IW.
  set (all := c_all_subscriptions (w_controller w) ++ [s]) in *.
  assert (NoDup all) as Hnd.
  { apply NoDup_app. split_and!; [apply Hreg| |apply NoDup_singleton]. by intros q Hq ->%list_elem_of_singleton. }
  assert (registry_ok w1) as Hreg1.
  { apply (registry_ok_same w); try done. intros q y Hq Hy Hl'. destruct (sub_monitor y); [done| |done].
    cbn in *. by rewrite is_Some_update. }
  assert (sub_live w1 s) as Hlive.
  { exists x. split; [done|]. rewrite Ht. cbn. exists (mon <| mon_subscriptions := mon_subscriptions mon ++ [s] |>).
    apply lookup_insert_eq. }
  set (w2 := store_upd (T := Subscription) <[s := x2]> w1).
  assert (registry_ok w2) as Hreg2.
  { replace w2 with (with_sub s x2 (c_all_subscriptions (w_controller w1)) w1) by (by destruct w as [? ? ? ? ? ? ? ? []]).
    apply (with_sub_ok s x); try done; apply Hreg1. }
  unfold monitor_add_subscription. wp_one. wp_one. unfold subscription_ref. wp_one.
  eapply wp_update; [exact Hx|]. wp_one. wp_one. eapply wp_load; [exact Hm|]. wp_one.
  unfold update_mon_subs. eapply wp_update; [exact Hm|]. wp_one.
  match goal with |- wp _ _ ?v => change v with w2 end.
  eapply wp_mono; [apply (wp_add_subscription s x2 w2 Hreg2)|].
  { destruct Hlive as (y & Hy & Hl'). exists x2. split; [apply lookup_insert_eq|].
    assert (y = x) as -> by (cbn in Hy; congruence). exact Hl'. }
  { done. } { apply lookup_insert_eq. }
  cbn beta. intros _ w3 [Hreg3 Hc]. set (x3 := x2 <| sub_ref_count ::= Z.succ |>) in *.
  assert (w_subs w3 = <[s := x3]> (<[s := x2]> (w_subs w))) as Es3 by (by rewrite (cm_subs _ _ _ Hc)).
  assert (w_subs w3 !! s = Some x3) as Hs3 by (rewrite Es3; apply lookup_insert_eq).
  wp_one. eapply wp_load; [exact Hs3|]. apply wp_bus. wp_one. unfold subscription_unref. wp_one.
  eapply wp_update; [exact Hs3|]. wp_one. eapply wp_load; [apply lookup_insert_eq|].
  replace (sub_ref_count (x3 <| sub_ref_count ::= Z.pred |>) =? 0) with false
    by (symmetry; apply Z.eqb_neq; cbn; lia). cbn [negb]. apply wp_ret, wp_ret.
  assert (x3 <| sub_ref_count ::= Z.pred |> = x2) as ->.
  { unfold x3, x2. destruct x. cbn. f_equal. lia. }
  set (c := ReplyReturn _ _).
  assert (controller_inv h a (store_upd (T := Subscription) <[s := x2]> w3)) as I3.
  { set (W := with_sub s x2 all w1) in *. assert (registry_ok W) as HregW.
    { apply (with_sub_ok s x); try done.
      - intros y [Hy| ->%list_elem_of_singleton]%elem_of_app; [by apply Hreg1|done].
      - intros. apply elem_of_app. by left. }
    pose proof (calm_with_subs _ (<[s := x2]> (w_subs w)) _ _ Hc) as Hc'.
    assert (store_upd (T := Subscription) <[s := x2]> w3 = w3 <| w_subs := <[s := x2]> (w_subs w) |>) as ->.
    { cbn. unfold field_update. by rewrite Es3, !insert_insert_eq. }
    split; [|eapply owners_inv_calm; [exact Hc'|..]].
    - assert (w3 <| w_subs := <[s := x2]> (w_subs w) |> =
        with_sub s x2 (c_all_subscriptions (w_controller w3)) w3) as ->.
      { unfold with_sub. destruct w3 as [? ? ? ? ? ? ? ? []]. cbn in *. by rewrite Es3, !insert_insert_eq. }
      apply (with_sub_ok s x3); try done; try apply Hreg3.
    - cbn. auto.
    - exact HregW.
    - exact IW. }
  change (controller_inv h a (emit c (store_upd (T := Subscription) <[s := x2]> w3))).
  by apply inv_called.
Qed.

Lemma inv_subscribe a msg args m w : controller_inv nothing a w -> is_Some (w_monitors w !! m) ->
  wp (monitor_method_subscribe msg args m) (fun _ w' => controller_inv nothing a w') w.
Proof.
  intros I [mon Hm]. destruct args as [r|[node unit]]; [by apply wp_bus, inv_called|]. cbn [monitor_method_subscribe].
  destruct (mo_monitor _ _ _ _ _ (ci_monitors _ _ _ I) m mon Hm) as (Hor & _).
  assert (m ∈ c_monitors (w_controller w)) as Hl by (destruct Hor as [|Hor]; [done|cbn in Hor; lia]).
  wp_one. eapply wp_mono; [by apply (inv_create_sub nothing a m mon node w)|]. cbn beta.
  intros r w1 (s & x & -> & I1 & Hx & Hm1 & E1). rewrite <- E1 in Hl.
  wp_one. eapply wp_mono; [by apply (inv_add_unit (hold_monitor m 1 nothing) a m s x unit w1)|]. cbn beta.
  intros r w2 (-> & I2 & (x2 & Hx2) & Em & Ec). cbn [negb]. rewrite <- Em in Hm1. rewrite <- Ec in Hl.
  by eapply inv_add_subscription.
Qed.

Lemma inv_subscribe_units h a msg m s units : forall x w, controller_inv h a w -> loose w m s x ->
  wp (subscribe_list_units msg s units) (fun _ w' => controller_inv h a w' /\
    (exists x', loose w' m s x') /\ w_monitors w' = w_monitors w /\ w_controller w' = w_controller w) w.
Proof.
  induction units as [|[r|unit] units IH]; intros x w I Hx; cbn [subscribe_list_units].
  - apply wp_ret. eauto.
  - wp_one. apply wp_bus, wp_ret. split_and!; [by apply inv_called|by exists x|done|done].
  - wp_one. eapply wp_mono; [by apply (inv_add_unit h a m s x unit w)|]. cbn beta.
    intros r w1 (-> & I1 & (x1 & Hx1) & <- & <-). cbn [negb]. by apply (IH x1).
Qed.

Lemma inv_subscribe_list a msg node units m w : controller_inv nothing a w -> is_Some (w_monitors w !! m) ->
  wp (monitor_method_subscribe_list msg node units m) (fun _ w' => controller_inv nothing a w') w.
Proof.
  intros I [mon Hm]. destruct node as [r|node]; [by apply wp_bus, inv_called|]. cbn [monitor_method_subscribe_list].
  destruct (mo_monitor _ _ _ _ _ (ci_monitors _ _ _ I) m mon Hm) as (Hor & _).
  assert (m ∈ c_monitors (w_controller w)) as Hl by (destruct Hor as [|Hor]; [done|cbn in Hor; lia]).
  wp_one. eapply wp_mono; [by apply (inv_create_sub nothing a m mon node w)|]. cbn beta.
  intros r w1 (s & x & -> & I1 & Hx & Hm1 & E1). rewrite <- E1 in Hl. wp_one. local_works.
  set (w2 := tick w1). assert (controller_inv (hold_monitor m 1 nothing) a w2) as I2 by by apply inv_ticked.
  change (w_monitors w2 !! m = Some (mon <| mon_ref_count ::= Z.succ |>)) in Hm1.
  change (m ∈ c_monitors (w_controller w2)) in Hl. change (loose w2 m s x) in Hx. clearbody w2.
  wp_one. wp_one. eapply wp_mono; [by apply (inv_subscribe_units (hold_monitor m 1 nothing) a msg m s units x w2)|]. cbn beta.
  intros stop w3 (I3 & (x3 & Hx3) & Em & Ec). rewrite <- Em in Hm1. rewrite <- Ec in Hl. destruct stop as [r|].
  - apply wp_ret. wp_one. eapply wp_mono; [by eapply inv_drop_loose|]. cbn beta. intros _ w' I'. by apply wp_ret.
  - wp_one. local_works. apply wp_bind_inv. eapply inv_add_subscription; [by apply inv_ticked|done|done|done|done].
Qed.

Lemma inv_unsubscribe a msg args m w : controller_inv nothing a w -> is_Some (w_monitors w !! m) ->
  wp (monitor_method_unsubscribe msg args m) (fun _ w' => controller_inv nothing a w') w.
Proof.
  intros I [x Hx]. destruct args as [r|id]; [by apply wp_bus, inv_called|]. cbn [monitor_method_unsubscribe].
  destruct (mo_monitor _ _ _ _ _ (ci_monitors _ _ _ I) m x Hx) as (_ & _ & _ & Hown).
  unfold monitor_find_subscription. wp_one. wp_one. eapply wp_load; [exact Hx|].
  set (test s := match w_subs w !! s with Some y => sub_id y =? id | None => false end).
  apply (wp_find_first _ _ test).
  - intros s Hs. destruct (Hown s Hs) as (_ & y & Hy & _). wp_one. eapply wp_load; [exact Hy|].
    apply wp_ret. unfold test. by rewrite Hy.
  - destruct (List.find _ _) as [s|] eqn:Hf; [|by apply wp_bus, inv_called].
    apply list_find_In in Hf as [Hin _]. apply list_elem_of_In in Hin. wp_one.
    eapply wp_mono; [by apply (inv_drop_subscription nothing a m x s w)|]. cbn beta.
    intros _ w1 [I1 _]. by apply wp_bus, inv_called.
Qed.
End subscribing.
