(* ===== verification/ControllerProxies.v ===== *)
(** Proxy monitors keep the invariant of the controller. *)
From S2P Require Import Prelude CString StringUtil ParseUtil TimeUtil Protocol BusUtils Log Cfg Socket.
From S2P Require Import World Job Events Subscriptions Monitor Proxy Requests Node Controller.
From S2P Require Import ControllerEvents WorldFacts EventFacts RegistryFacts NodeTheorems RequestTheorems.
From S2P Require Import ControllerInv ControllerSafe ControllerMonitors.
Local Open Scope list_scope.

(** ** Updates of a listed node *)

Section nodes.
Context {E : Env}.

Lemma nodes_ok_update nodes l a k p n n' : nodes_ok nodes l a k -> p ∈ l -> nodes !! p = Some n ->
  node_name n <> None -> node_name n' = node_name n -> node_object_path n' = node_object_path n ->
  nodes_ok (<[p := n']> nodes) l a k.
Proof.
  intros [] Hp Hn Hnamed Ename Epath. split; try done.
  - intros q m Hq Hm. at_key q p; [simplify_eq; rewrite Epath|]; eauto.
  - intros q m Hm Hname. at_key q p; eauto.
  - intros q m Hm Hname. at_key q p; [simplify_eq; congruence|]. eauto.
  - intros q Hq. destruct (no_waiting q Hq) as (m & Hm & Hname). at_key q p; [congruence|]. eauto.
Qed.

Lemma registry_ok_update p n n' w : registry_ok w -> w_nodes w !! p = Some n ->
  node_name n' = node_name n -> node_unit_subscriptions n' = node_unit_subscriptions n ->
  registry_ok (store_upd (T := Node) <[p := n']> w).
Proof.
  intros [] Hn Ename Eu.
  assert (forall q m, is_node (store_upd (T := Node) <[p := n']> w) q m -> exists m', is_node w q m' /\
    node_name m = node_name m' /\ node_unit_subscriptions m = node_unit_subscriptions m') as Hback.
  { intros q m [Hq Hm]. cbn in Hq, Hm. at_key q p; [simplify_eq; exists n|exists m]; done. }
  split; cbn; try done.
  - intros q Hq. destruct (ok_nodes q Hq) as (m & name & Hm & Hname).
    at_key q p; [|by exists m, name]. simplify_eq. exists n', name. split; congruence.
  - intros q r m m' (m1 & Hm1 & E1 & _)%Hback (m2 & Hm2 & E2 & _)%Hback Hnames.
    apply (ok_names q r m1 m2); congruence.
  - intros s Hs. destruct (ok_live s Hs) as (x & Hx & Ht). exists x. split; [done|].
    destruct (sub_monitor x) as [|q|q]; [done|done|]. destruct Ht as (y & Hy & Hl). exists y. split; [done|].
    cbn. by apply (is_Some_update _ _ n).
  - intros q m (m1 & Hm1 & E1 & E2)%Hback u us Hus. rewrite E2 in Hus.
    destruct (ok_entries q m1 Hm1 u us Hus) as (? & ? & Hsub). split_and!; [done..|]. intros s Hs.
    destruct (Hsub s Hs) as (? & x & ? & Hc & ?). split; [done|]. exists x. split_and!; [done| |done].
    unfold node_covers in *. by rewrite E1.
Qed.

Lemma pm_up_update up nodes p n n' q x : nodes !! p = Some n -> node_proxy_monitors n' = node_proxy_monitors n ->
  pm_up up (<[p := n']> nodes) q x = pm_up up nodes q x.
Proof. intros Hn Ep. unfold pm_up, pm_listed. at_key (pm_node x) p; [|done]. by rewrite Hn, Ep. Qed.

Lemma proxies_ok_update up room wait nodes proxies subs l reg p n n' :
  proxies_ok up room wait nodes proxies subs l reg -> nodes !! p = Some n ->
  node_proxy_monitors n' = node_proxy_monitors n ->
  proxies_ok up room wait (<[p := n']> nodes) proxies subs l reg.
Proof.
  intros [] Hn Ep. split; try done.
  - intros q x Hx. by rewrite (pm_up_update up nodes p n n' q x Hn Ep); apply po_proxy.
  - intros q m Hq Hm. at_key q p; [simplify_eq; rewrite Ep|]; eauto.
Qed.

Lemma reqs_ok_update δ wait nodes reqs fleets l p n n' :
  reqs_ok δ wait nodes reqs fleets l -> nodes !! p = Some n ->
  node_outstanding_requests n' = node_outstanding_requests n ->
  reqs_ok δ wait (<[p := n']> nodes) reqs fleets l.
Proof.
  intros [] Hn Eo. split; try done.
  - intros r q Hq. destruct (ro_request r q Hq) as (? & Ho & ?).
    split_and!; try tauto. intros m Hm. destruct (decide (req_node q = p)) as [Hp|Hp].
    + rewrite Hp in *. rewrite lookup_insert_eq in Hm. simplify_eq. rewrite Eo. eauto.
    + rewrite lookup_insert_ne in Hm by done. eauto.
  - intros q m Hq Hm. at_key q p; [injection Hm as <-; rewrite Eo|]; eauto.
Qed.

Definition with_node_refs (δ : ptr -> Z) (h : held) : held := h <| h_node := δ |>.

(** The references of a node may change as far as the holders do. *)
Lemma inv_update_node h δ a p n n' w : controller_inv h a w -> p ∈ c_nodes (w_controller w) ->
  w_nodes w !! p = Some n -> node_name n' = node_name n -> node_object_path n' = node_object_path n ->
  node_unit_subscriptions n' = node_unit_subscriptions n ->
  node_proxy_monitors n' = node_proxy_monitors n ->
  node_outstanding_requests n' = node_outstanding_requests n ->
  (forall q, δ q = h_node h q + if decide (q = p) then node_ref_count n' - node_ref_count n else 0) ->
  controller_inv (with_node_refs δ h) a (store_upd (T := Node) <[p := n']> w).
Proof.
  intros [Hreg I] Hp Hn E1 E2 E3 E4 E5 Hδ. split; [by apply (registry_ok_update p n)|].
  assert (node_name n <> None) as Hnamed.
  { destruct (ok_nodes w Hreg p Hp) as (m & name & Hm & Hname). congruence. }
  pose proof (ci_fresh _ _ _ I) as Hf. pose proof (fresh_update (fr_nodes _ Hf) p n n' Hn) as Hf'.
  destruct I. split; try assumption; cbn.
  - by apply (nodes_ok_update _ _ _ _ p n).
  - intros q m Hq Hm. specialize (Hδ q). at_key q p.
    + simplify_eq. specialize (ci_refs p n Hp Hn). cbn in *. lia.
    + specialize (ci_refs q m Hq Hm). cbn in *. lia.
  - by apply (reqs_ok_update _ _ _ _ _ _ p n).
  - by apply (proxies_ok_update _ _ _ _ _ _ _ _ p n).
  - by destruct Hf.
Qed.

(** A reference to a listed node taken or given back; the list keeps one. *)
Lemma inv_node_ref h a p Q w : controller_inv h a w -> p ∈ c_nodes (w_controller w) ->
  (forall n, w_nodes w !! p = Some n ->
     controller_inv (hold_node p 1 h) a (store_upd (T := Node) <[p := n <| node_ref_count ::= Z.succ |>]> w) ->
     Q p (store_upd (T := Node) <[p := n <| node_ref_count ::= Z.succ |>]> w)) ->
  wp (node_ref p) Q w.
Proof.
  intros I Hp HQ. destruct (listed_node I p Hp) as (n & _ & _ & Hn & _). unfold node_ref. wp_one.
  eapply wp_update; [exact Hn|]. apply wp_ret, HQ; [done|].
  eapply (inv_update_node h (plus p 1 (h_node h))); try done. intros q. unfold plus. case_decide; cbn; lia.
Qed.
Lemma inv_node_unref h a p Q w : controller_inv h a w -> p ∈ c_nodes (w_controller w) ->
  (forall n, w_nodes w !! p = Some n -> 2 <= node_ref_count n) ->
  (forall n, w_nodes w !! p = Some n ->
     controller_inv (hold_node p (-1) h) a (store_upd (T := Node) <[p := n <| node_ref_count ::= Z.pred |>]> w) ->
     Q tt (store_upd (T := Node) <[p := n <| node_ref_count ::= Z.pred |>]> w)) ->
  wp (node_unref p) Q w.
Proof.
  intros I Hp Hr HQ. destruct (listed_node I p Hp) as (n & _ & _ & Hn & _).
  eapply wp_node_unref_some; [exact Hn|by apply Hr|]. apply HQ; [done|].
  eapply (inv_update_node h (plus p (-1) (h_node h))); try done. intros q. unfold plus. case_decide; cbn; lia.
Qed.
End nodes.

(** ** Updates of a proxy *)

Section proxies.
Context {E : Env}.

Lemma registry_ok_proxy p x x' w : registry_ok w -> w_proxies w !! p = Some x -> pm_node x' = pm_node x ->
  registry_ok (store_upd (T := ProxyMonitor) <[p := x']> w).
Proof.
  intros Hreg Hx En. apply (registry_ok_same w); try done. intros s y _ _ Hl.
  destruct (sub_monitor y) as [|q|q]; [done|done|]. destruct Hl as (z & Hz & Hl). cbn.
  destruct (decide (q = p)) as [->|Hne]; [|exists z; by rewrite lookup_insert_ne].
  exists x'. rewrite lookup_insert_eq, En. split; [done|]. by simplify_eq.
Qed.

Lemma proxy_room_update a p x x' w q : w_proxies w !! p = Some x ->
  proxy_room a (store_upd (T := ProxyMonitor) <[p := x']> w) q =
  proxy_room a w q + if decide (q = p) then pm_ref_count x' - pm_ref_count x else 0.
Proof. intros Hx. unfold proxy_room. rewrite (credit_proxy_update w p x) by done. lia. Qed.

Lemma inv_update_proxy h δ a p x x' w : controller_inv h a w -> w_proxies w !! p = Some x ->
  pm_node x' = pm_node x -> pm_subscription x' = pm_subscription x ->
  (pm_added_dep x' = true -> pm_target_node x' <> None) ->
  (forall t, pm_target_node x' = Some t -> t ∈ c_nodes (w_controller w)) ->
  (pm_target_node x <> None -> pm_target_node x' <> None) ->
  bit (pm_up (h_proxy h) (w_nodes w) p x) <= proxy_room a w p + (pm_ref_count x' - pm_ref_count x) ->
  (forall q, δ q + bit (aims_at q x') = h_node h q + bit (aims_at q x)) ->
  controller_inv (with_node_refs δ h) a (store_upd (T := ProxyMonitor) <[p := x']> w).
Proof.
  intros [Hreg I] Hx En Es Hadd Ht Hkeep Hroom Hδ. split; [by apply (registry_ok_proxy p x)|].
  pose proof (ci_fresh _ _ _ I) as Hf. pose proof (fresh_update (fr_proxies _ Hf) p x x' Hx) as Hf'.
  assert (forall q y, pm_node y = pm_node x -> pm_up (h_proxy h) (w_nodes w) q y = pm_up (h_proxy h) (w_nodes w) q x) as Hup.
  { intros q y Hy. unfold pm_up, pm_listed. by rewrite Hy. }
  destruct I. split; try assumption.
  - intros q n Hq Hn. specialize (ci_refs q n Hq Hn). specialize (Hδ q). unfold node_owners in *.
    change (h_node (with_node_refs δ h) q) with (δ q). cbn.
    rewrite (count_map_update _ _ p x) by done. lia.
  - destruct ci_proxies. split; cbn; try done.
    + intros q y Hy. change (bit _ <= _) with (bit (pm_up (h_proxy h) (w_nodes w) q y) <=
        proxy_room a (store_upd (T := ProxyMonitor) <[p := x']> w) q). rewrite (proxy_room_update a p x) by done.
      at_key q p.
      * simplify_eq. destruct (po_proxy p x Hx) as (? & ? & ? & ? & ?). rewrite En, Es, (Hup p y En).
        split_and!; done.
      * destruct (po_proxy q y Hy) as (? & ? & ? & ? & ?). split_and!; try done. lia.
    + intros q Hq. change (proxy_wait a w q = 0). at_key q p; [done|]. auto.
    + intros q n Hq Hn. destruct (po_list q n Hq Hn) as [Hnd Hin]. split; [done|]. intros r Hr.
      destruct (Hin r Hr) as (y & Hy & Hyn & Hyt). at_key r p; [|by exists y]. simplify_eq. exists x'.
      split_and!; auto. 
    + intros s y q Hs Hy Hq. destruct (po_sub s y q Hs Hy Hq) as (z & Hz & Hzs).
      at_key q p; [|by exists z]. simplify_eq. exists x'. split; congruence.
  - by destruct Hf.
Qed.

Lemma inv_same_refs h a w : controller_inv (with_node_refs (h_node h) h) a w -> controller_inv h a w.
Proof. by destruct h. Qed.

(** A program that leaves a known proxy in place. *)
Lemma runs_load_proxy {B} w0 p x0 (k : ProxyMonitor -> CM B) : w_proxies w0 !! p = Some x0 ->
  (forall x, pm_core x = pm_core x0 -> (pm_added_dep x = true -> pm_added_dep x0 = true) -> runs w0 (k x)) ->
  runs w0 (load p ≫= k).
Proof.
  intros Hx Hk w Hw. destruct (alike_some _ _ _ p x0 (cm_proxies _ _ _ Hw) Hx) as (x & Hp & Hc).
  apply wp_bind. eapply wp_load; [exact Hp|]. apply Hk; [done| |done]. by apply (cm_deps _ _ _ Hw p).
Qed.
Lemma runs_update_proxy w0 p x0 (f : ProxyMonitor -> ProxyMonitor) : w_proxies w0 !! p = Some x0 ->
  steps still (update p f) -> runs w0 (update p f).
Proof.
  intros Hx Hs. apply runs_update; [exact _|exact Hs|]. intros w Hw.
  destruct (alike_some _ _ _ p x0 (cm_proxies _ _ _ Hw) Hx) as (x & Hp & _). by exists x.
Qed.

Lemma runs_proxy_call h a w p x method args : controller_inv h a w -> w_proxies w !! p = Some x ->
  runs w (proxy_monitor_call p method args).
Proof.
  intros I Hx w1 Hw. destruct (alike_some _ _ _ p x (cm_proxies _ _ _ Hw) Hx) as (x1 & Hx1 & Hc).
  destruct (po_proxy _ _ _ _ _ _ _ _ (ci_proxies _ _ _ I) p x Hx) as (Hn & _).
  destruct (listed_node I _ Hn) as (n & _ & _ & Hn' & _).
  destruct (calm_node _ _ _ _ _ Hw Hn') as (n1 & Hn1 & _). injection Hc as En _ _. rewrite <- En in Hn1.
  eapply wp_mono; [eapply wp_steps; [apply (steps_proxy_monitor_call (fun _ => False))|by eapply wp_proxy_monitor_call]|].
  cbn beta. intros _ w2 [_ Hw2]. by trans w1.
Qed.

Lemma runs_remove_dependency w p unit : node_there w p -> runs w (node_remove_proxy_dependency p unit).
Proof. intros Hp. pose proof Hp as [n Hn]. pose proof (runs_send (w0 := w) p) as Hs. run_tac; by apply Hs. Qed.
Lemma runs_add_dependency w p unit : node_there w p -> runs w (node_add_proxy_dependency p unit).
Proof. intros Hp. pose proof Hp as [n Hn]. pose proof (runs_send (w0 := w) p) as Hs. run_tac; by apply Hs. Qed.
Lemma runs_drop_dep_there w p x : w_proxies w !! p = Some x ->
  (pm_added_dep x = true -> exists t, pm_target_node x = Some t /\ node_there w t) ->
  runs w (proxy_monitor_drop_dep p).
Proof.
  intros Hx Ht. unfold proxy_monitor_drop_dep. eapply runs_load_proxy; [exact Hx|].
  intros m Hcore Hdep. injection Hcore as _ _ Et. destruct (pm_added_dep m); [|apply runs_ret].
  destruct (Ht (Hdep eq_refl)) as (t & Etx & Hthere). rewrite Et, Etx.
  apply runs_bind; [by apply runs_remove_dependency|]. intros _.
  eapply runs_update_proxy; [exact Hx|]. by apply steps_update_proxy; intros.
Qed.
Lemma runs_drop_dep h a w p x : controller_inv h a w -> w_proxies w !! p = Some x ->
  runs w (proxy_monitor_drop_dep p).
Proof.
  intros I Hx. destruct (po_proxy _ _ _ _ _ _ _ _ (ci_proxies _ _ _ I) p x Hx) as (_ & _ & Hadd & Ht & _).
  apply (runs_drop_dep_there w p x Hx). intros Hdep. destruct (pm_target_node x) as [t|] eqn:Etx.
  - exists t. split; [done|]. apply (listed_there I). auto.
  - by destruct (Hadd Hdep).
Qed.
End proxies.

(** ** Release *)

(** What the release of a proxy leaves in place: everything but the proxies in [D], up to the
    change [f] of the lists of proxies. *)
Record keeps {E : Env} (D : ptr -> Prop) (f : ptr -> list ptr -> list ptr) (w w' : World) : Prop := {
  kp_nodes : c_nodes (w_controller w') = c_nodes (w_controller w);
  kp_lists : forall q n', w_nodes w' !! q = Some n' -> exists n, w_nodes w !! q = Some n /\
    node_proxy_monitors n' = f q (node_proxy_monitors n);
  kp_proxy : forall q x, ~ D q -> w_proxies w !! q = Some x -> exists x', w_proxies w' !! q = Some x' /\
    pm_core x' = pm_core x /\ credit w q <= credit w' q;
}.

(** Neither calls of proxies nor references to them. *)
Record mute {E : Env} (w w' : World) : Prop := {
  mt_asks : forall a, asks a w' = asks a w;
  mt_refs : forall q, pm_ref_count <$> w_proxies w' !! q = pm_ref_count <$> w_proxies w !! q;
}.

Section release.
Context {E : Env}.

Lemma keeps_id D w : keeps D (fun _ l => l) w w.
Proof. split; [done|eauto|]. intros q x _ Hx. exists x. split_and!; done. Qed.
Lemma keeps_trans D f g w1 w2 w3 : keeps D f w1 w2 -> keeps D g w2 w3 -> keeps D (fun q l => g q (f q l)) w1 w3.
Proof.
  intros [] []. split; [congruence|..].
  - intros q n3 Hn3. destruct (kp_lists1 q n3 Hn3) as (n2 & Hn2 & ->).
    destruct (kp_lists0 q n2 Hn2) as (n1 & Hn1 & ->). by exists n1.
  - intros q x Hq Hx. destruct (kp_proxy0 q x Hq Hx) as (x2 & Hx2 & Hc2 & Hr2).
    destruct (kp_proxy1 q x2 Hq Hx2) as (x3 & Hx3 & Hc3 & Hr3). exists x3. split_and!; [done|congruence|lia].
Qed.
Lemma keeps_calm D U w w' : calm U w w' -> keeps D (fun _ l => l) w w'.
Proof.
  intros Hc. destruct (calm_listed _ _ _ Hc) as (E1 & _). split; [done|..].
  - intros q n' Hn'. destruct (calm_node_back _ _ _ _ _ Hc Hn') as (n & Hn & Hcore & _). core_of Hcore. by exists n.
  - intros q x _ Hx. destruct (alike_some _ _ _ q x (cm_proxies _ _ _ Hc) Hx) as (x' & Hx' & Hcore).
    exists x'. split_and!; [done|done|apply (cm_credit _ _ _ Hc)].
Qed.
(** Other parts of the state may change. *)
Lemma keeps_same D f w w1 w2 : keeps D f w w1 -> c_nodes (w_controller w2) = c_nodes (w_controller w1) ->
  w_nodes w2 = w_nodes w1 -> w_proxies w2 = w_proxies w1 -> w_trace w2 = w_trace w1 -> keeps D f w w2.
Proof.
  intros [] E1 E2 E3 E4. split; [congruence|by rewrite E2|]. intros q x Hq Hx. unfold credit, asks. rewrite E3, E4.
  by apply kp_proxy0.
Qed.

#[local] Instance mute_preorder : PreOrder mute.
Proof.
  split; [done|]. intros w1 w2 w3 [] []. split; intros; [by rewrite mt_asks1|by rewrite mt_refs1].
Qed.
Lemma mute_drop_dep p : steps mute (proxy_monitor_drop_dep p).
Proof.
  assert (forall q (f : Node -> Node), steps mute (update q f)) as Hnode.
  { intros q f w. unfold update, load, deref, mbind, M_bind. by destruct (store_get w !! q). }
  assert (forall c, plain c = true -> steps mute (bus c)) as Hbus.
  { intros c Hc w. split; [|done]. intros a. by apply (asks_emit_plain a c w). }
  assert (steps mute local) as Hlocal by (intros w; by split).
  assert (forall q m arg, steps mute (send_agent_simple_message q m arg)) as Hsend.
  { intros. unfold send_agent_simple_message. apply (steps_bind _); [apply (steps_deref _)|]. intros n.
    destruct (node_agent_bus n); [|apply (steps_ret _)]. apply (steps_bind _); [done|]. intros r.
    destruct (r <? 0); [apply (steps_ret _)|]. apply (steps_bind _); [destruct arg; [done|apply (steps_ret _)]|].
    intros r'. destruct (r' <? 0); [apply (steps_ret _)|by apply Hbus]. }
  assert (forall q u, steps mute (node_remove_proxy_dependency q u)) as Hdep.
  { intros q u. unfold node_remove_proxy_dependency. apply (steps_bind _); [apply (steps_deref _)|]. intros n.
    destruct (node_find_proxy_dependency n u); [|apply (steps_ret _)]. cbv zeta. apply (steps_bind _); [apply Hnode|]. intros _.
    destruct (_ =? 0); [|apply (steps_ret _)]. apply (steps_bind _).
    - unfold node_stop_proxy_dependency. apply (steps_bind _); [apply (steps_deref _)|]. intros n'.
      destruct (negb _); [apply (steps_ret _)|]. apply (steps_bind _); [apply Hsend|]. intros. apply (steps_ret _).
    - intros _. apply (steps_bind _); [apply Hnode|]. intros. apply (steps_ret _). }
  unfold proxy_monitor_drop_dep. apply (steps_bind _); [apply (steps_deref _)|]. intros m.
  destruct (pm_added_dep m); [|apply (steps_ret _)]. destruct (pm_target_node m); [|apply (steps_crash _)].
  apply (steps_bind _); [apply Hdep|]. intros _ w. unfold update, load, deref, mbind, M_bind.
  destruct (store_get w !! p) as [x|] eqn:Hx; [|done]. split; [done|]. intros q. cbn in *.
  at_key q p; [by rewrite Hx|done].
Qed.

Lemma room_wait a w p x : w_proxies w !! p = Some x -> proxy_room a w p + proxy_wait a w p = pm_ref_count x.
Proof. intros Hx. unfold proxy_room, proxy_wait, credit. rewrite Hx. cbn. lia. Qed.

(** A proxy whose last reference is given up. *)
Lemma inv_free_proxy h δ a w p x s : controller_inv (with_node_refs δ h) a w -> w_proxies w !! p = Some x ->
  proxy_wait a w p = 0 -> pm_up (h_proxy h) (w_nodes w) p x = false -> pm_subscription x = Some s ->
  (forall q, h_node h q = δ q + bit (aims_at q x)) ->
  controller_inv h a (w <| w_subs ::= delete s |> <| w_proxies ::= delete p |>).
Proof.
  intros [Hreg I] Hx Hwait Hup Hs Hδ. pose proof (ci_proxies _ _ _ I) as Hp. cbn in Hp.
  destruct (po_proxy _ _ _ _ _ _ _ _ Hp p x Hx) as (_ & (s' & y & Hs' & Hy & Ht & _ & Hin) & _).
  rewrite Hs in Hs'. injection Hs' as <-. rewrite Hup in Hin.
  assert (s ∉ c_all_subscriptions (w_controller w)) as Hnot by (rewrite Hin; discriminate).
  set (w' := w <| w_subs ::= delete s |> <| w_proxies ::= delete p |>).
  pose proof (ci_fresh _ _ _ I) as Hf. split.
  - apply (registry_ok_same w); try done.
    + intros q Hq. cbn. rewrite lookup_delete_ne; [done|]. by intros ->.
    + intros q z Hq Hz Hl. destruct (sub_monitor z) as [|r|r] eqn:Hr; [done|done|].
      destruct Hl as (v & Hv & Hl). exists v. split; [|done]. cbn. rewrite lookup_delete_ne; [done|]. intros <-.
      destruct (po_sub _ _ _ _ _ _ _ _ Hp q z p Hq Hz Hr) as (v' & Hv' & Hvs).
      assert (q = s) as -> by congruence. done.
  - destruct I. split; try assumption; cbn.
    + intros q n Hq Hn. specialize (ci_refs q n Hq Hn). specialize (Hδ q). unfold node_owners in *.
      cbn in ci_refs. rewrite (count_map_delete _ _ p x) by done. lia.
    + destruct ci_monitors. split; try done.
      * intros q m Hm. destruct (mo_monitor q m Hm) as (? & ? & ? & Hown). split_and!; [done..|].
        intros r Hr. destruct (Hown r Hr) as (Hin' & z & ?). split; [done|]. exists z.
        rewrite lookup_delete_ne; [done|]. by intros ->.
      * intros r z q Hr [_ Hz]%lookup_delete_Some. by apply mo_sub.
    + destruct Hp. split.
      * intros q z [Hne Hz]%lookup_delete_Some.
        destruct (po_proxy q z Hz) as (? & (r & v & Hr & Hv & Hvt & ?) & ? & ? & Hroom). split_and!; try done.
        -- exists r, v. split_and!; try tauto. rewrite lookup_delete_ne; [done|]. intros <-. congruence.
        -- unfold proxy_room, credit in *. cbn. by rewrite lookup_delete_ne.
      * done.
      * intros q Hq. change (proxy_wait a w q = 0). destruct (decide (q = p)) as [->|]; [done|].
        rewrite lookup_delete_ne in Hq by done. auto.
      * intros q n Hq Hn. destruct (po_list q n Hq Hn) as [Hnd Hl]. split; [done|]. intros r Hr.
        destruct (Hl r Hr) as (z & Hz & Hzn & Hzt). exists z. split_and!; [|done|done].
        rewrite lookup_delete_ne; [done|]. intros <-. simplify_eq. unfold pm_up, pm_listed in Hup.
        rewrite Hn in Hup. by rewrite bool_decide_eq_true_2 in Hup.
      * intros r z q Hr [_ Hz]%lookup_delete_Some Hq. destruct (po_sub r z q Hr Hz Hq) as (v & Hv & Hvs).
        exists v. split; [|done]. rewrite lookup_delete_ne; [done|]. intros <-. congruence.
    + pose proof (fresh_delete (fr_subs _ Hf) s). pose proof (fresh_delete (fr_proxies _ Hf) p). by destruct Hf.
Qed.
End release.

Section unref.
Context {E : Env}.

Lemma owners_of_target h a w p x t : controller_inv h a w -> w_proxies w !! p = Some x ->
  pm_target_node x = Some t -> 0 <= h_node h t -> forall n, w_nodes w !! t = Some n -> 2 <= node_ref_count n.
Proof.
  intros I Hx Ht Hh n Hn.
  destruct (po_proxy _ _ _ _ _ _ _ _ (ci_proxies _ _ _ I) p x Hx) as (_ & _ & _ & Hl & _).
  pose proof (ci_refs _ _ _ I t n (Hl t Ht) Hn) as H. unfold node_owners in H.
  assert (1 <= count_map (aims_at t) (w_proxies w)).
  { apply (count_map_pos _ _ p x Hx). unfold aims_at. rewrite Ht. by apply bool_decide_eq_true_2. }
  assert (0 <= count_map (asks_node t) (w_reqs w)) by (unfold count_map; lia).
  assert (0 <= sum_map (entries_on t) (w_fleets w)) by (apply sum_map_nonneg; intros; unfold entries_on; lia).
  lia.
Qed.

Lemma wp_free_loose_sub s y Q w : w_subs w !! s = Some y -> sub_ref_count y = 1 ->
  (forall m, sub_monitor y <> OfMonitor m) -> Q tt (store_upd (T := Subscription) (delete s) w) ->
  wp (subscription_unref s) Q w.
Proof.
  intros Hy Hr Ht HQ. unfold subscription_unref. wp_one. eapply wp_update; [exact Hy|]. wp_one.
  eapply wp_load; [apply lookup_insert_eq|]. cbn [sub_ref_count sub_monitor field_update]. rewrite Hr.
  change (Z.pred 1 =? 0) with true. cbn [negb].
  destruct (sub_monitor y) as [|m|m] eqn:Em; [|by destruct (Ht m)|]; wp_one; apply wp_ret;
    (eapply wp_free; [apply lookup_insert_eq|by rewrite store_delete_insert]).
Qed.

Lemma inv_proxy_unref h a w p x : controller_inv h a w -> w_proxies w !! p = Some x ->
  bit (pm_up (h_proxy h) (w_nodes w) p x) + 1 <= proxy_room a w p -> (forall q, 0 <= h_node h q) ->
  wp (proxy_monitor_unref p) (fun _ w' => controller_inv h a w' /\ keeps (fun q => q = p) (fun _ l => l) w w') w.
Proof.
  intros I Hx Hroom Hh. destruct (po_proxy _ _ _ _ _ _ _ _ (ci_proxies _ _ _ I) p x Hx) as (Hnode & _ & Hadd & Htl & _).
  unfold proxy_monitor_unref, proxy_monitor_unref_with. wp_one. eapply wp_update; [exact Hx|].
  set (x1 := x <| pm_ref_count ::= Z.pred |>). set (w1 := store_upd (T := ProxyMonitor) <[p := x1]> w).
  assert (controller_inv h a w1) as I1.
  { apply inv_same_refs. apply (inv_update_proxy h (h_node h) a p x x1 w I Hx); try done. cbn. lia. }
  assert (keeps (fun q => q = p) (fun _ l => l) w w1) as K1.
  { split; [done|eauto|]. intros q z Hq Hz. exists z. cbn. rewrite lookup_insert_ne by done. split_and!; [done..|].
    change (credit w q <= credit (store_upd (T := ProxyMonitor) <[p := x1]> w) q).
    rewrite (credit_proxy_update w p x) by done. rewrite decide_False by done. lia. }
  assert (w_proxies w1 !! p = Some x1) as Hx1 by apply lookup_insert_eq.
  wp_one. eapply wp_load; [exact Hx1|].
  destruct (pm_ref_count x1 =? 0) eqn:E0; cbn [negb]; [apply Z.eqb_eq in E0|by apply wp_ret].
  destruct (po_proxy _ _ _ _ _ _ _ _ (ci_proxies _ _ _ I1) p x1 Hx1) as (_ & (s & y & Hs & Hy & Hyt & Hyr & _) & _ & _ & Hroom1).
  pose proof (room_wait a w1 p x1 Hx1) as Hrw. pose proof (po_wait _ _ _ _ _ _ _ _ (ci_proxies _ _ _ I1) p) as Hwait.
  assert (pm_up (h_proxy h) (w_nodes w1) p x1 = false) as Hup.
  { destruct (pm_up _ _ p x1); [|done]. change (bit true) with 1 in Hroom1. lia. }
  rewrite Hup in Hyr, Hroom1. change (bit false) with 0 in Hyr, Hroom1.
  (* the end, from any state that follows *)
  assert (forall δ w2 x2, controller_inv (with_node_refs δ h) a w2 -> w_proxies w2 !! p = Some x2 ->
    pm_core x2 = pm_core x1 -> pm_ref_count x2 = 0 -> w_subs w2 = w_subs w1 ->
    pm_up (h_proxy h) (w_nodes w2) p x2 = false -> proxy_wait a w2 p = 0 ->
    (forall q, h_node h q = δ q + bit (aims_at q x2)) -> keeps (fun q => q = p) (fun _ l => l) w w2 ->
    wp (match pm_subscription x1 with Some sub => subscription_unref sub | None => mret tt end ;; free (T := ProxyMonitor) p)
      (fun _ w' => controller_inv h a w' /\ keeps (fun q => q = p) (fun _ l => l) w w') w2) as Hend.
  { intros δ w2 x2 I2 Hx2 Hcore Hr2 Es Hup2 Hwait2 Hδ K2. rewrite Hs. wp_one.
    eapply (wp_free_loose_sub s y); [by rewrite Es|lia|by rewrite Hyt|]. eapply wp_free; [exact Hx2|]. split.
    - apply (inv_free_proxy h δ a w2 p x2 s I2 Hx2); try done. injection Hcore as _ E2 _. by trans (pm_subscription x1).
    - destruct K2 as [A1 A2 A3]. split; [done|done|]. intros q z Hq Hz. destruct (A3 q z Hq Hz) as (z' & Hz' & Hc & Hle).
      exists z'. cbn. rewrite lookup_delete_ne by done. split_and!; [done..|]. unfold credit in *. cbn.
      rewrite lookup_delete_ne by done. exact Hle. }
  cbn [pm_target_node pm_subscription field_update]. wp_one. destruct (pm_target_node x) as [t|] eqn:Et.
  - change (pm_target_node x1) with (pm_target_node x). rewrite Et. wp_one.
    eapply wp_mono; [eapply wp_steps; [apply mute_drop_dep|]; apply (inv_runs h a _ w1 I1); by eapply runs_drop_dep|].
    cbn beta. intros _ w2 [[I2 Hc] [Ha Hr]].
    destruct (alike_some _ _ _ p x1 (cm_proxies _ _ _ Hc) Hx1) as (x2 & Hx2 & Hcore).
    assert (pm_ref_count x2 = 0) as Hr2 by (specialize (Hr p); rewrite Hx1, Hx2 in Hr; injection Hr as Hr; by trans (pm_ref_count x1)).
    assert (pm_target_node x2 = Some t) as Et2 by (injection Hcore as _ _ E2; by trans (pm_target_node x1)).
    destruct (calm_listed _ _ _ Hc) as (En & _).
    eapply (inv_node_unref h a t); [exact I2|rewrite En; by apply Htl|by eapply owners_of_target|].
    intros n Hn I3. apply (Hend _ _ x2 I3); try done.
    + exact (cm_subs _ _ _ Hc).
    + unfold pm_up. rewrite <- Hup. unfold pm_up. f_equal. rewrite <- (pm_listed_calm _ _ _ p x1 x2 Hc Hcore).
      unfold pm_listed. cbn. destruct (decide (pm_node x2 = t)) as [->|Hne]; [|by rewrite lookup_insert_ne].
      by rewrite lookup_insert_eq, Hn.
    + change (proxy_wait a w2 p = 0). unfold proxy_wait in *. rewrite Ha. lia.
    + intros q. unfold hold_node, plus. cbn. unfold aims_at. rewrite Et2. case_decide as Hq.
      * subst q. rewrite bool_decide_eq_true_2 by done. cbn. lia.
      * rewrite bool_decide_eq_false_2 by congruence. cbn. lia.
    + assert (keeps (fun q => q = p) (fun _ l => l) w w2) as K2 by (eapply (keeps_trans _ _ _ w w1 w2 K1), keeps_calm, Hc).
      destruct K2 as [A1 A2 A3]. split; [done| |done]. intros q n' Hn'. cbn in Hn'. at_key q t; [|by apply A2].
      injection Hn' as <-. exact (A2 t n Hn).
  - change (pm_target_node x1) with (pm_target_node x). rewrite Et. apply wp_ret.
    apply (Hend (h_node h) w1 x1); try done; [by destruct h|lia|].
    intros q. unfold aims_at. change (pm_target_node x1) with (pm_target_node x). rewrite Et.
    rewrite bool_decide_eq_false_2 by done. cbn. lia.
Qed.
End unref.

(** ** Removal *)

Section removal.
Context {E : Env}.

(** The state when a proxy has been unregistered and taken off the list of its node. *)
Definition unlisted (node p s : ptr) (n : Node) (y : Subscription) (w : World) : World :=
  store_upd (T := Node) <[node := n <| node_proxy_monitors := remove_first p (node_proxy_monitors n) |>]>
    (with_sub s (y <| sub_ref_count ::= Z.pred |>) (remove_first s (c_all_subscriptions (w_controller w))) w).

Lemma monitors_ok_proxy_sub δ monitors subs l reg reg' s y z p : subs !! s = Some y ->
  sub_monitor y = OfProxyMonitor p -> sub_monitor z = OfProxyMonitor p ->
  (forall q, q <> s -> q ∈ reg' <-> q ∈ reg) ->
  monitors_ok δ monitors subs l reg -> monitors_ok δ monitors (<[s := z]> subs) l reg'.
Proof.
  intros Hy Ht Hz Hreg []. split; try done.
  - intros q m Hm. destruct (mo_monitor q m Hm) as (? & ? & ? & Hown). split_and!; [done..|].
    intros r Hr. destruct (Hown r Hr) as (Hin & v & Hv & ?). assert (r <> s) as Hne by (intros ->; destruct_and?; congruence).
    split; [by apply Hreg|]. exists v. by rewrite lookup_insert_ne.
  - intros r v q Hr Hv Hq. at_key r s; [simplify_eq; congruence|]. apply Hreg in Hr; [|done]. by apply (mo_sub r v).
Qed.

Lemma owners_inv_unlisted h a node p x s n y w : owners_inv h a w -> node ∈ c_nodes (w_controller w) ->
  NoDup (c_all_subscriptions (w_controller w)) ->
  w_nodes w !! node = Some n -> node_name n <> None -> p ∈ node_proxy_monitors n -> w_proxies w !! p = Some x ->
  pm_subscription x = Some s -> w_subs w !! s = Some y -> h_proxy h p = false ->
  owners_inv h a (unlisted node p s n y w) /\ pm_up (h_proxy h) (w_nodes (unlisted node p s n y w)) p x = false.
Proof.
  intros I Hnode Hnd Hn Hname Hin Hx Hs Hy Hup.
  set (n' := n <| node_proxy_monitors := remove_first p (node_proxy_monitors n) |>).
  destruct (po_list _ _ _ _ _ _ _ _ (ci_proxies _ _ _ I) node n Hnode Hn) as [Hndp Hall].
  destruct (Hall p Hin) as (x' & Hx' & Hxn & Hxt). rewrite Hx in Hx'. injection Hx' as <-.
  assert (forall q z, q <> p -> pm_up (h_proxy h) (<[node := n']> (w_nodes w)) q z = pm_up (h_proxy h) (w_nodes w) q z) as Hother.
  { intros q z Hq. unfold pm_up, pm_listed. destruct (decide (pm_node z = node)) as [->|]; [|by rewrite lookup_insert_ne].
    rewrite lookup_insert_eq, Hn. cbn. f_equal. apply bool_decide_ext. rewrite elem_of_remove_first by done. naive_solver. }
  assert (pm_up (h_proxy h) (<[node := n']> (w_nodes w)) p x = false) as Hgone.
  { unfold pm_up, pm_listed. rewrite Hxn, lookup_insert_eq, Hup. cbn.
    rewrite bool_decide_eq_false_2; [done|]. by apply remove_first_gone. }
  split; [|exact Hgone].
  assert (pm_up (h_proxy h) (w_nodes w) p x = true) as Hlisted.
  { unfold pm_up, pm_listed. rewrite Hxn, Hn. by rewrite bool_decide_eq_true_2. }
  destruct (po_proxy _ _ _ _ _ _ _ _ (ci_proxies _ _ _ I) p x Hx) as (_ & (s' & y' & Hs' & Hy' & Hyt & Hyr & _) & _ & _ & Hroom).
  rewrite Hs in Hs'. injection Hs' as <-. rewrite Hy in Hy'. injection Hy' as <-. rewrite Hlisted in Hyr, Hroom.
  change (bit true) with 1 in *.
  pose proof (ci_fresh _ _ _ I) as Hf.
  pose proof (fresh_update (fr_nodes _ Hf) node n n' Hn) as Hf1.
  pose proof (fresh_update (fr_subs _ Hf) s y (y <| sub_ref_count ::= Z.pred |>) Hy) as Hf2.
  set (reg := c_all_subscriptions (w_controller w)) in *.
  assert (forall q, q <> s -> q ∈ remove_first s reg <-> q ∈ reg) as Hreg.
  { intros q Hq. rewrite elem_of_remove_first by done. naive_solver. }
  destruct I. split; try assumption.
  - by apply (nodes_ok_update _ _ _ _ node n).
  - intros q m Hq Hm. cbn in Hm. at_key q node; [injection Hm as <-; exact (ci_refs node n Hnode Hn)|exact (ci_refs q m Hq Hm)].
  - by apply (reqs_ok_update _ _ _ _ _ _ node n).
  - by apply (monitors_ok_proxy_sub _ _ _ _ reg _ s y _ p).
  - destruct ci_proxies. split; try done.
    + intros q z Hz. destruct (decide (q = p)) as [->|Hne].
      * assert (z = x) as -> by (cbn in Hz; congruence). destruct (po_proxy p x Hx) as (? & _ & ? & ? & ?).
        change (w_nodes (unlisted node p s n y w)) with (<[node := n']> (w_nodes w)). rewrite Hgone.
        split_and!; try done.
        -- exists s, (y <| sub_ref_count ::= Z.pred |>). split_and!; [done|apply lookup_insert_eq|done|cbn; lia|].
           split; [|done]. intros Hin'. exfalso. eapply remove_first_gone; [exact Hnd|exact Hin'].
        -- change (bit false) with 0. change (0 <= proxy_room a w p). lia.
      * destruct (po_proxy q z Hz) as (? & (r & v & Hr & Hv & Hvt & Hvr & Hvin) & ? & ? & ?).
        change (w_nodes (unlisted node p s n y w)) with (<[node := n']> (w_nodes w)). rewrite Hother by done.
        assert (r <> s) as Hrs by (intros ->; congruence). split_and!; try done.
        exists r, v. split_and!; [done|cbn; by rewrite lookup_insert_ne|done|done|]. rewrite <- Hvin. by apply Hreg.
    + intros q m Hq Hm. cbn in Hm. at_key q node.
      * injection Hm as <-. cbn. split; [by apply remove_first_nodup|]. intros r Hr%remove_first_elem. by apply Hall.
      * by apply po_list.
    + intros r v q Hr Hv Hq. cbn in Hr, Hv. at_key r s; [|apply Hreg in Hr; [|done]; by apply (po_sub r v)].
      exfalso. eapply remove_first_gone; [exact Hnd|exact Hr].
  - by destruct Hf.
Qed.

Lemma inv_remove_proxy h a node p n w : controller_inv h a w -> node ∈ c_nodes (w_controller w) ->
  w_nodes w !! node = Some n -> p ∈ node_proxy_monitors n -> h_proxy h p = false -> (forall q, 0 <= h_node h q) ->
  wp (node_remove_proxy_monitor node p) (fun _ w' => controller_inv h a w' /\
    keeps (fun q => q = p) (fun q l => if decide (q = node) then remove_first p l else l) w w') w.
Proof.
  intros I Hnode Hn Hin Hup Hh. unfold node_remove_proxy_monitor, node_remove_proxy_monitor_with, proxy_monitor_close.
  destruct (po_list _ _ _ _ _ _ _ _ (ci_proxies _ _ _ I) node n Hnode Hn) as [_ Hall].
  destruct (Hall p Hin) as (x & Hx & Hxn & _). wp_one.
  eapply wp_mono; [apply (inv_runs h a _ w I); by eapply runs_drop_dep|]. cbn beta. intros _ w1 [I1 Hc1].
  destruct (alike_some _ _ _ p x (cm_proxies _ _ _ Hc1) Hx) as (x1 & Hx1 & Hcore1).
  destruct (calm_node _ _ _ _ _ Hc1 Hn) as (n1 & Hn1 & Hcoren1 & _).
  assert (node_proxy_monitors n1 = node_proxy_monitors n) as En1 by (core_of Hcoren1; done).
  assert (pm_node x1 = node) as Hxn1 by (injection Hcore1 as E1 _ _; congruence).
  destruct (calm_listed _ _ _ Hc1) as (Enodes & _).
  assert (pm_up (h_proxy h) (w_nodes w1) p x1 = true) as Hlisted.
  { unfold pm_up, pm_listed. rewrite Hxn1, Hn1, En1. by rewrite bool_decide_eq_true_2. }
  destruct (po_proxy _ _ _ _ _ _ _ _ (ci_proxies _ _ _ I1) p x1 Hx1) as (_ & (s & y & Hs & Hy & Hyt & Hyr & Hreg) & _).
  rewrite Hlisted in Hyr, Hreg. change (bit true) with 1 in Hyr.
  wp_one. eapply wp_load; [exact Hx1|]. rewrite Hs. wp_one.
  eapply wp_mono; [apply (wp_remove_subscription s y w1 (ci_registry _ _ _ I1)); [by apply Hreg|exact Hy|lia]|].
  cbn beta. intros _ w3 (Hreg3 & w2 & Hc2 & ->).
  pose proof (owners_inv_calm _ _ _ _ _ Hc2 (fun p Hp => Hp) (ci_registry _ _ _ I1) I1) as I2.
  destruct (calm_listed _ _ _ Hc2) as (Enodes2 & _ & _ & _ & _ & Eall).
  destruct (calm_node _ _ _ _ _ Hc2 Hn1) as (n2 & Hn2 & Hcoren2 & _).
  assert (node_proxy_monitors n2 = node_proxy_monitors n /\ node_name n2 = node_name n) as [En2 Ename2].
  { core_of Hcoren2. core_of Hcoren1. split; congruence. }
  destruct (alike_some _ _ _ p x1 (cm_proxies _ _ _ Hc2) Hx1) as (x2 & Hx2 & Hcore2).
  rewrite <- Eall in *. set (w3 := with_sub _ _ _ w2) in *.
  wp_one. eapply (wp_load (T := Node)); [exact Hn2|]. wp_one. apply wp_list_remove_from; [by rewrite En2|].
  wp_one. eapply wp_update; [exact Hn2|].
  assert (node ∈ c_nodes (w_controller w2)) as Hnode2 by (by rewrite Enodes2, Enodes).
  assert (node_name n2 <> None) as Hname2.
  { rewrite Ename2. destruct (ok_nodes w (ci_registry _ _ _ I) node Hnode) as (m & name & Hm & Hname). congruence. }
  destruct (owners_inv_unlisted h a node p x2 s n2 y w2 I2 Hnode2) as [I4 Hgone]; try done.
  { rewrite Eall. apply (ci_registry _ _ _ I1). } { by rewrite En2. }
  { injection Hcore2 as _ E2 _. congruence. } { by rewrite (cm_subs _ _ _ Hc2). }
  set (w4 := store_upd (T := Node) _ w3). change (unlisted node p s n2 y w2) with w4 in *.
  assert (controller_inv h a w4) as I4'.
  { split; [|exact I4]. by apply (registry_ok_update node n2 _ w3 Hreg3 Hn2). }
  assert (keeps (fun q => q = p) (fun q l => if decide (q = node) then remove_first p l else l) w w4) as K4.
  { pose proof (keeps_trans _ _ _ w w1 w2 (keeps_calm (fun q => q = p) _ _ _ Hc1) (keeps_calm (fun q => q = p) _ _ _ Hc2)) as [A1 A2 A3].
    split; [done| |done]. intros q m Hm. cbn in Hm. at_key q node.
    - injection Hm as <-. exists n. by rewrite <- En2.
    - by apply A2. }
  eapply wp_mono; [apply (inv_proxy_unref h a w4 p x2 I4' Hx2)|].
  - rewrite Hgone. change (bit false) with 0. change (0 + 1 <= proxy_room a w2 p).
    assert (pm_up (h_proxy h) (w_nodes w2) p x2 = true) as Hl2.
    { unfold pm_up, pm_listed. injection Hcore2 as E1 _ _. rewrite E1, Hxn1, Hn2, En2. by rewrite bool_decide_eq_true_2. }
    destruct (po_proxy _ _ _ _ _ _ _ _ (ci_proxies _ _ _ I2) p x2 Hx2) as (_ & _ & _ & _ & Hroom).
    rewrite Hl2 in Hroom. exact Hroom.
  - exact Hh.
  - cbn beta. intros _ w5 [I5 K5]. split; [done|]. exact (keeps_trans _ _ _ w w4 w5 K4 K5).
Qed.
End removal.

(** ** Signals and answers *)

Section signals.
Context {E : Env}.

Lemma wp_find_proxy h a node n target unit Q w : controller_inv h a w -> node ∈ c_nodes (w_controller w) ->
  w_nodes w !! node = Some n -> (forall r, (forall p, r = Some p -> p ∈ node_proxy_monitors n) -> Q r w) ->
  wp (node_find_proxy_monitor node target unit) Q w.
Proof.
  intros I Hnode Hn HQ. unfold node_find_proxy_monitor. wp_one. eapply wp_load; [exact Hn|].
  destruct (po_list _ _ _ _ _ _ _ _ (ci_proxies _ _ _ I) node n Hnode Hn) as [_ Hall].
  set (test p := match w_proxies w !! p with
    | Some m => match pm_target_node m with
        | Some t => match w_nodes w !! t with
            | Some tn => match node_name tn with
                | Some name => streq name target && streq (pm_unit_name m) unit | None => false end
            | None => false end
        | None => false end
    | None => false end).
  apply (wp_find_first _ _ test).
  - intros p Hp. destruct (Hall p Hp) as (m & Hm & _ & Ht). wp_one. eapply wp_load; [exact Hm|].
    unfold test. rewrite Hm. destruct (pm_target_node m) as [t|] eqn:Et; [|done].
    destruct (po_proxy _ _ _ _ _ _ _ _ (ci_proxies _ _ _ I) p m Hm) as (_ & _ & _ & Hl & _).
    destruct (listed_node I t (Hl t Et)) as (tn & name & _ & Htn & Hname & _). wp_one. eapply wp_load; [exact Htn|].
    rewrite Hname, Htn, Hname. by apply wp_ret.
  - apply HQ. intros p Hf. apply list_find_In in Hf as [Hin _]. by apply list_elem_of_In.
Qed.

Lemma inv_proxy_removed a node args w : controller_inv nothing a w -> node ∈ c_nodes (w_controller w) ->
  wp (node_on_match_proxy_removed node args) (fun _ w' => controller_inv nothing a w') w.
Proof.
  intros I Hnode. destruct args as [r|[target unit]]; [by apply wp_ret|]. cbn [node_on_match_proxy_removed].
  destruct (listed_node I node Hnode) as (n & _ & _ & Hn & _). wp_one.
  eapply wp_find_proxy; [done..|]. intros [p|] Hp; [|by apply wp_ret]. wp_one.
  eapply wp_mono; [by apply (inv_remove_proxy nothing a node p n w I Hnode Hn (Hp p eq_refl))|].
  cbn beta. intros _ w' [I' _]. by apply wp_ret.
Qed.

(** All proxies of a node. *)
Lemma inv_remove_proxies a node n w : controller_inv nothing a w -> node ∈ c_nodes (w_controller w) ->
  w_nodes w !! node = Some n ->
  wp (foreach (node_proxy_monitors n) (node_remove_proxy_monitor node)) (fun _ w' =>
    controller_inv nothing a w' /\ c_nodes (w_controller w') = c_nodes (w_controller w)) w.
Proof.
  intros I Hnode Hn. apply (wp_foreach (fun rest w' => controller_inv nothing a w' /\
    c_nodes (w_controller w') = c_nodes (w_controller w) /\
    exists n', w_nodes w' !! node = Some n' /\ node_proxy_monitors n' = rest)).
  - split_and!; [done..|]. by exists n.
  - intros p rest w1 (I1 & E1 & n1 & Hn1 & Hrest). rewrite <- E1 in Hnode.
    eapply wp_mono; [apply (inv_remove_proxy nothing a node p n1 w1 I1 Hnode Hn1); [rewrite Hrest; left|done|done]|].
    cbn beta. intros _ w2 [I2 [A1 A2 A3]]. split_and!; [done|congruence|]. rewrite <- A1 in Hnode.
    destruct (listed_node I2 node Hnode) as (n2 & _ & _ & Hn2 & _). exists n2. split; [done|].
    destruct (A2 node n2 Hn2) as (n1' & Hn1' & ->). simplify_eq. rewrite decide_True, Hrest by done.
    cbn. by rewrite decide_True.
  - by intros w1 (? & ? & _).
Qed.

(** The answer to a call on a proxy. *)
Lemma got_cons b a x : got (x :: a) b = got a b + if decide (b = x) then 1 else 0.
Proof. unfold got. rewrite count_cons. case_decide; lia. Qed.
Lemma inv_answer_proxy h a p w : controller_inv h a w -> 1 <= proxy_wait a w p ->
  controller_inv h (AnswerToProxy p :: a) w /\
  proxy_room (AnswerToProxy p :: a) w p = proxy_room a w p + 1.
Proof.
  intros [Hreg I] Hwait. split.
  2:{ unfold proxy_room. rewrite got_cons, decide_True by done. lia. }
  split; [done|]. destruct I. split; try assumption. destruct ci_proxies. split; try done.
  - intros q x Hx. destruct (po_proxy q x Hx) as (? & ? & ? & ? & Hroom). split_and!; try done.
    unfold proxy_room in *. rewrite got_cons. case_decide; lia.
  - intros q. specialize (po_wait q). unfold proxy_wait in *. rewrite got_cons. case_decide as Hq; [|lia].
    injection Hq as ->. lia.
  - intros q Hq. specialize (po_dead q Hq). unfold proxy_wait in *. rewrite got_cons. case_decide as Hq'; [|lia].
    injection Hq' as ->. lia.
Qed.

Lemma inv_proxy_callback a p w : controller_inv nothing a w -> outstanding a (AnswerToProxy p) w = true ->
  wp (proxy_monitor_callback p) (fun _ w' => controller_inv nothing (AnswerToProxy p :: a) w') w.
Proof.
  intros I Ho. apply Nat.ltb_lt in Ho. fold (count (AnswerToProxy p) (asked 0 (w_trace w))) in Ho.
  assert (1 <= proxy_wait a w p) as Hwait by (unfold proxy_wait, asks, got; lia).
  destruct (inv_answer_proxy nothing a p w I Hwait) as [I1 Hr].
  destruct (w_proxies w !! p) as [x|] eqn:Hx.
  2:{ rewrite (po_dead _ _ _ _ _ _ _ _ (ci_proxies _ _ _ I) p Hx) in Hwait. lia. }
  destruct (po_proxy _ _ _ _ _ _ _ _ (ci_proxies _ _ _ I) p x Hx) as (_ & _ & _ & _ & Hroom).
  unfold proxy_monitor_callback. wp_one.
  eapply wp_mono; [apply (inv_proxy_unref nothing _ w p x I1 Hx); [|done]|].
  - cbn [h_proxy nothing] in *. lia.
  - cbn beta. intros _ w' [I' _]. by apply wp_ret.
Qed.
End signals.

(** ** A new proxy *)

Section new_proxy.
Context {E : Env}.

Lemma inv_new_proxy h a w p s x y : controller_inv h a w -> w_proxies w !! p = None -> w_subs w !! s = None ->
  (p < w_next_ptr w)%positive -> (s < w_next_ptr w)%positive ->
  pm_node x ∈ c_nodes (w_controller w) -> pm_subscription x = Some s -> pm_target_node x = None ->
  pm_added_dep x = false -> pm_ref_count x = 1 -> sub_ref_count y = 1 -> sub_monitor y = OfProxyMonitor p ->
  h_proxy h p = false ->
  let w' := w <| w_proxies ::= <[p := x]> |> <| w_subs ::= <[s := y]> |> in
  controller_inv h a w' /\ pm_listed (w_nodes w) p x = false /\ proxy_room a w' p = 1.
Proof.
  intros [Hreg I] Hp Hs Hpn Hsn Hnode Hsub Ht Hadd Hr Hyr Hyt Hup w'.
  pose proof (ci_fresh _ _ _ I) as Hf. pose proof (ci_proxies _ _ _ I) as Hpx.
  pose proof (po_dead _ _ _ _ _ _ _ _ Hpx p Hp) as Hwait.
  assert (proxy_room a w' p = 1) as Hroom.
  { unfold proxy_room, proxy_wait, credit in *. cbn. rewrite lookup_insert_eq. cbn. rewrite Hr.
    unfold asks in *. cbn. lia. }
  assert (forall q, q <> p -> proxy_room a w' q = proxy_room a w q) as Hother.
  { intros q Hq. unfold proxy_room, credit. cbn. by rewrite lookup_insert_ne. }
  assert (pm_listed (w_nodes w) p x = false) as Hl.
  { unfold pm_listed. destruct (w_nodes w !! pm_node x) as [n|] eqn:Hn; [|done].
    apply bool_decide_eq_false_2. intros Hin.
    destruct (po_list _ _ _ _ _ _ _ _ Hpx _ n Hnode Hn) as [_ Hall]. destruct (Hall p Hin) as (z & Hz & _). congruence. }
  split_and!; [|done|done].
  assert (forall q, q ∈ c_all_subscriptions (w_controller w) -> q <> s) as Hneq.
  { intros q Hq ->. destruct (ok_live w Hreg s Hq) as (z & Hz & _). congruence. }
  split.
  - apply (registry_ok_same w); try done.
    + intros q Hq. cbn. rewrite lookup_insert_ne; [done|]. intros <-. by eapply Hneq.
    + intros q z Hq Hz Hl'. destruct (sub_monitor z) as [|r|r]; [done|done|]. destruct Hl' as (v & Hv & Hl').
      exists v. split; [|done]. cbn. rewrite lookup_insert_ne; [done|]. congruence.
  - destruct I. split; try assumption; cbn.
    + intros q n Hq Hn. specialize (ci_refs q n Hq Hn). unfold node_owners in *.
      rewrite count_map_insert by done. unfold aims_at at 1. rewrite Ht. rewrite bool_decide_eq_false_2 by done.
      cbn. lia.
    + destruct ci_monitors. split; try done.
      * intros q m Hm. destruct (mo_monitor q m Hm) as (? & ? & ? & Hown). split_and!; [done..|].
        intros r Hr'. destruct (Hown r Hr') as (Hin' & z & ?). split; [done|]. exists z.
        rewrite lookup_insert_ne; [done|]. intros <-. by eapply Hneq.
      * intros r z q Hr' Hz. rewrite lookup_insert_ne in Hz by (intros <-; by eapply Hneq). by apply mo_sub.
    + destruct Hpx. split.
      * intros q z Hz. change (bit (pm_up (h_proxy h) (w_nodes w) q z) <= _) with
          (bit (pm_up (h_proxy h) (w_nodes w) q z) <= proxy_room a w' q). at_key q p.
        -- injection Hz as <-. unfold pm_up. rewrite Hl, Hup, Hroom. split_and!; [done| |congruence|congruence|done].
           exists s, y. rewrite lookup_insert_eq. split_and!; [done..|]. split; [|done]. intros Hin. exfalso. by eapply Hneq.
        -- destruct (po_proxy q z Hz) as (? & (r & v & Hr' & Hv & ?) & ? & ? & ?). rewrite Hother by done.
           split_and!; try done. exists r, v. rewrite lookup_insert_ne by congruence. done.
      * done.
      * intros q Hq. change (proxy_wait a w q = 0). at_key q p; [done|]. auto.
      * intros q n Hq Hn. destruct (po_list q n Hq Hn) as [Hnd Hall]. split; [done|]. intros r Hr'.
        destruct (Hall r Hr') as (z & Hz & ?). exists z. rewrite lookup_insert_ne by congruence. done.
      * intros r z q Hr' Hz Hq. rewrite lookup_insert_ne in Hz by (intros <-; by eapply Hneq).
        destruct (po_sub r z q Hr' Hz Hq) as (v & Hv & ?). exists v. rewrite lookup_insert_ne by congruence. done.
    + destruct Hf. split; cbn; try done; intros q Hq; rewrite lookup_insert_ne by lia; auto.
Qed.

(** About to be listed. *)
Definition upcoming (p : ptr) : held :=
  nothing <| h_proxy := fun q => bool_decide (q = p) |>.

Lemma owners_inv_upcoming a p x s y w : owners_inv nothing a w ->
  w_proxies w !! p = Some x -> pm_listed (w_nodes w) p x = false ->
  pm_subscription x = Some s -> w_subs w !! s = Some y -> 1 <= proxy_room a w p ->
  owners_inv (upcoming p) a (with_sub s (y <| sub_ref_count ::= Z.succ |>) (c_all_subscriptions (w_controller w) ++ [s]) w).
Proof.
  intros I Hx Hl Hs Hy Hroom.
  destruct (po_proxy _ _ _ _ _ _ _ _ (ci_proxies _ _ _ I) p x Hx) as (_ & (s' & y' & Hs' & Hy' & Hyt & Hyr & Hreg) & _).
  rewrite Hs in Hs'. injection Hs' as <-. rewrite Hy in Hy'. injection Hy' as <-.
  unfold pm_up in Hyr, Hreg. rewrite Hl in Hyr, Hreg. cbn in Hyr, Hreg.
  pose proof (ci_fresh _ _ _ I) as Hf. pose proof (fresh_update (fr_subs _ Hf) s y (y <| sub_ref_count ::= Z.succ |>) Hy) as Hf2.
  set (reg := c_all_subscriptions (w_controller w)) in *.
  assert (forall q, q <> s -> q ∈ reg ++ [s] <-> q ∈ reg) as Hsame.
  { intros q Hq. rewrite elem_of_app, list_elem_of_singleton. naive_solver. }
  assert (forall q z, q <> p -> pm_up (h_proxy (upcoming p)) (w_nodes w) q z = pm_up (h_proxy nothing) (w_nodes w) q z) as Hother.
  { intros q z Hq. unfold pm_up. cbn. by rewrite bool_decide_eq_false_2. }
  assert (forall z, pm_up (h_proxy (upcoming p)) (w_nodes w) p z = true) as Hup.
  { intros z. unfold pm_up. cbn. rewrite bool_decide_eq_true_2 by done. apply orb_true_r. }
  destruct I. split; try assumption.
  - by apply (monitors_ok_proxy_sub _ _ _ _ reg _ s y _ p).
  - destruct ci_proxies. split; try done.
    + intros q z Hz. change (w_nodes (with_sub _ _ _ w)) with (w_nodes w).
      destruct (decide (q = p)) as [->|Hne].
      * assert (z = x) as -> by (cbn in Hz; congruence). destruct (po_proxy p x Hx) as (? & _ & ? & ? & _).
        rewrite Hup. split_and!; try done. exists s, (y <| sub_ref_count ::= Z.succ |>).
        split_and!; [done|apply lookup_insert_eq|done|cbn; lia|]. split; [done|]. intros _. apply elem_of_app. right. by left.
      * destruct (po_proxy q z Hz) as (? & (r & v & Hr & Hv & Hvt & Hvr & Hvin) & ? & ? & ?). rewrite Hother by done.
        assert (r <> s) as Hrs by (intros ->; congruence). split_and!; try done.
        exists r, v. split_and!; [done|cbn; by rewrite lookup_insert_ne|done|done|]. rewrite <- Hvin. by apply Hsame.
    + intros r v q Hr Hv Hq. cbn in Hr, Hv. at_key r s; [|apply Hsame in Hr; [|done]; by apply (po_sub r v)].
      injection Hv as <-. exists x. split; [|done]. cbn in Hq. assert (q = p) as -> by congruence. done.
  - by destruct Hf.
Qed.

Lemma inv_listing a node p n x w : controller_inv (upcoming p) a w -> node ∈ c_nodes (w_controller w) ->
  w_nodes w !! node = Some n -> w_proxies w !! p = Some x -> pm_node x = node -> pm_target_node x <> None ->
  p ∉ node_proxy_monitors n ->
  controller_inv nothing a (store_upd (T := Node) <[node := n <| node_proxy_monitors ::= fun l => l ++ [p] |>]> w).
Proof.
  intros [Hreg I] Hnode Hn Hx Hxn Hxt Hnot. set (n' := n <| node_proxy_monitors ::= fun l => l ++ [p] |>).
  split; [by apply (registry_ok_update node n n' w)|].
  assert (node_name n <> None) as Hname.
  { destruct (ok_nodes w Hreg node Hnode) as (m & name & Hm & Hname). congruence. }
  pose proof (ci_fresh _ _ _ I) as Hf. pose proof (fresh_update (fr_nodes _ Hf) node n n' Hn) as Hf1.
  assert (forall q z, w_proxies w !! q = Some z ->
    pm_up (h_proxy nothing) (<[node := n']> (w_nodes w)) q z = pm_up (h_proxy (upcoming p)) (w_nodes w) q z) as Hup.
  { intros q z Hz. unfold pm_up, pm_listed. cbn. destruct (decide (q = p)) as [->|Hq].
    - assert (z = x) as -> by congruence. rewrite Hxn, lookup_insert_eq, orb_false_r, (bool_decide_eq_true_2 (p = p)), orb_true_r by done.
      apply bool_decide_eq_true_2. cbn. apply elem_of_app. right. by left.
    - rewrite (bool_decide_eq_false_2 (q = p)) by done. rewrite !orb_false_r.
      destruct (decide (pm_node z = node)) as [->|]; [|by rewrite lookup_insert_ne].
      rewrite lookup_insert_eq, Hn. apply bool_decide_ext. cbn. rewrite elem_of_app, list_elem_of_singleton. naive_solver. }
  destruct I. split; try assumption.
  - by apply (nodes_ok_update _ _ _ _ node n).
  - intros q m Hq Hm. cbn in Hm. at_key q node; [injection Hm as <-; exact (ci_refs node n Hnode Hn)|exact (ci_refs q m Hq Hm)].
  - by apply (reqs_ok_update _ _ _ _ _ _ node n).
  - destruct ci_proxies. split; try done.
    + intros q z Hz. change (w_nodes (store_upd _ w)) with (<[node := n']> (w_nodes w)).
      rewrite (Hup q z Hz). by apply po_proxy.
    + intros q m Hq Hm. cbn in Hm. at_key q node; [|by apply po_list]. injection Hm as <-. cbn.
      destruct (po_list node n Hnode Hn) as [Hnd Hall]. split.
      * apply NoDup_app. split_and!; [done| |apply NoDup_singleton]. by intros r Hr ->%list_elem_of_singleton.
      * intros r [Hr| ->%list_elem_of_singleton]%elem_of_app; [by apply Hall|by exists x].
  - by destruct Hf.
Qed.

(** A proxy that only the handler knows. *)
Definition ready (a : list answer) (node p : ptr) (w : World) : Prop :=
  exists x, w_proxies w !! p = Some x /\ pm_node x = node /\ pm_listed (w_nodes w) p x = false /\
    1 <= proxy_room a w p.

(** The target of a proxy. *)
Definition aim (w : World) (p : ptr) : option ptr := w_proxies w !! p ≫= pm_target_node.
Lemma aim_keeps D f p w w' : keeps D f w w' -> ~ D p -> is_Some (w_proxies w !! p) -> aim w' p = aim w p.
Proof.
  intros [_ _ A3] Hp [x Hx]. destruct (A3 p x Hp Hx) as (x' & Hx' & Hcore & _). unfold aim. rewrite Hx, Hx'.
  injection Hcore as _ _ Et. exact Et.
Qed.

Lemma ready_keeps a node p D f w w' : ready a node p w -> keeps D f w w' -> ~ D p ->
  (forall q l, p ∈ f q l -> p ∈ l) -> ready a node p w'.
Proof.
  intros (x & Hx & Hxn & Hl & Hroom) [A1 A2 A3] Hp Hf. destruct (A3 p x Hp Hx) as (x' & Hx' & Hcore & Hc).
  injection Hcore as E1 _ _. exists x'. split_and!; [done|congruence| |].
  - unfold pm_listed in *. rewrite E1. destruct (w_nodes w' !! pm_node x) as [n'|] eqn:Hn'; [|done].
    destruct (A2 _ n' Hn') as (n & Hn & ->). rewrite Hn in Hl. apply bool_decide_eq_false in Hl.
    apply bool_decide_eq_false_2. intros Hin. by apply Hl, (Hf (pm_node x)).
  - unfold proxy_room in *. lia.
Qed.

Context (Hnf : no_local_failure E).

Lemma inv_proxy_monitor_new a node target unit path w : controller_inv nothing a w ->
  node ∈ c_nodes (w_controller w) ->
  wp (proxy_monitor_new node target unit path) (fun r w' => exists p, r = Some p /\
    controller_inv nothing a w' /\ ready a node p w' /\ aim w' p = None /\
    c_nodes (w_controller w') = c_nodes (w_controller w) /\ w_nodes w' = w_nodes w) w.
Proof.
  intros I Hnode. pose proof (ci_fresh _ _ _ I) as Hf.
  assert (w_proxies w !! w_next_ptr w = None) as Hp by (apply (fr_proxies _ Hf); lia).
  assert (w_subs w !! Pos.succ (w_next_ptr w) = None) as Hs by (apply (fr_subs _ Hf); lia).
  unfold proxy_monitor_new. wp_one. wp_one. rewrite local_ok_true by done. cbn [negb].
  wp_one. wp_one. wp_one. wp_one. rewrite local_ok_true by done. cbn [negb].
  wp_one. eapply wp_update; [apply lookup_insert_eq|]. wp_one. wp_one. rewrite local_ok_true by done. cbn [negb].
  wp_one. eapply wp_update; [apply lookup_insert_eq|]. unfold create_proxy_monitor_subscription, subscription_new.
  wp_one. wp_one. wp_one. wp_one. rewrite local_ok_true by done. cbn [negb].
  wp_one. wp_one. wp_one. wp_one. wp_one. wp_one. wp_one. wp_one. rewrite local_ok_true by done. cbn [negb].
  wp_one. eapply wp_update; [apply lookup_insert_eq|]. wp_one.
  wp_one. eapply wp_update; [apply lookup_insert_eq|]. wp_one.
  wp_one. eapply wp_update; [apply lookup_insert_eq|].
  unfold subscription_add_unit. wp_one. wp_one. wp_one. rewrite local_ok_true by done. cbn [negb].
  wp_one. wp_one. rewrite local_ok_true by done. cbn [negb]. wp_one. eapply wp_update; [apply lookup_insert_eq|].
  wp_one. cbn [negb]. wp_one.
  match goal with |- exists p, _ /\ controller_inv _ _ ?v /\ _ => set (v0 := v) end.
  assert (exists x y, w_proxies v0 = <[w_next_ptr w := x]> (w_proxies w) /\
    w_subs v0 = <[Pos.succ (w_next_ptr w) := y]> (w_subs w) /\ pm_node x = node /\
    pm_subscription x = Some (Pos.succ (w_next_ptr w)) /\ pm_target_node x = None /\ pm_added_dep x = false /\
    pm_ref_count x = 1 /\ sub_ref_count y = 1 /\ sub_monitor y = OfProxyMonitor (w_next_ptr w))
    as (x & y & Ep & Es & E1 & E2 & E3 & E4 & E5 & E6 & E7).
  { eexists _, _. split; [unfold v0; cbn; by rewrite !insert_insert_eq|].
    split; [unfold v0; cbn; by rewrite !insert_insert_eq|]. done. }
  assert (c_nodes (w_controller v0) = c_nodes (w_controller w) /\ w_nodes v0 = w_nodes w) as [E8 E9] by done.
  set (w0 := v0 <| w_proxies := w_proxies w |> <| w_subs := w_subs w |>).
  assert (controller_inv nothing a w0) as I0.
  { eapply controller_inv_still; [|exact I]. apply calm_stores; try done. unfold w0, v0. cbn. lia. }
  destruct (inv_new_proxy nothing a w0 (w_next_ptr w) (Pos.succ (w_next_ptr w)) x y I0) as (I1 & Hl & Hroom); try done.
  { unfold w0, v0. cbn. lia. } { unfold w0, v0. cbn. lia. } { by rewrite E1. }
  match type of I1 with controller_inv _ _ ?v => assert (v0 = v) as Ev end.
  { unfold w0. clearbody v0. destruct v0; cbn in *. by rewrite <- Ep, <- Es. }
  cbv zeta in I1. rewrite <- Ev in I1, Hroom.
  exists (w_next_ptr w). unfold aim. rewrite Ep, lookup_insert_eq. split_and!; [done|exact I1| |done|done|done].
  exists x. split_and!; [rewrite Ep; apply lookup_insert_eq|done|exact Hl|by rewrite Hroom].
Qed.

Lemma inv_proxy_end a node p (r : Z) w : controller_inv nothing a w -> ready a node p w ->
  wp (proxy_monitor_unref p ;; mret r) (fun _ w' => controller_inv nothing a w') w.
Proof.
  intros I (x & Hx & _ & Hl & Hroom). wp_one.
  eapply wp_mono; [apply (inv_proxy_unref nothing a w p x I Hx); [|done]|].
  - unfold pm_up. rewrite Hl. cbn. exact Hroom.
  - cbn beta. intros _ w' [I' _]. by apply wp_ret.
Qed.

Lemma inv_send_error a node p msg (r : Z) w : controller_inv nothing a w -> ready a node p w ->
  wp (proxy_monitor_send_error p msg ;; mret r) (fun r' w' => controller_inv nothing a w' /\ ready a node p w') w.
Proof.
  intros I Hp. pose proof Hp as (x & Hx & _). unfold proxy_monitor_send_error. wp_one. wp_one.
  eapply wp_mono; [apply (inv_runs nothing a _ w I); by eapply runs_proxy_call|]. cbn beta.
  intros _ w1 [I1 Hc]. apply wp_ret, wp_ret. split; [done|].
  eapply ready_keeps; [exact Hp|by apply (keeps_calm (fun _ => False) _ _ _ Hc)|tauto|done].
Qed.

Lemma inv_set_target a node p t w : controller_inv nothing a w -> ready a node p w ->
  t ∈ c_nodes (w_controller w) -> aim w p = None ->
  wp (proxy_monitor_set_target_node p t) (fun r w' => controller_inv nothing a w' /\ ready a node p w' /\
    c_nodes (w_controller w') = c_nodes (w_controller w) /\
    (r <? 0 = false -> aim w' p = Some t)) w.
Proof.
  intros I (x & Hx & Hxn & Hl & Hroom) Ht Hnone. unfold aim in Hnone. rewrite Hx in Hnone. cbn in Hnone. unfold proxy_monitor_set_target_node. wp_one.
  eapply inv_node_ref; [exact I|done|]. intros n Hn I1. set (w1 := store_upd (T := Node) _ w) in *. wp_one.
  eapply wp_update; [exact Hx|]. set (x2 := x <| pm_target_node := Some t |>).
  set (w2 := store_upd (T := ProxyMonitor) <[p := x2]> w1).
  assert (pm_listed (w_nodes w1) p x = false) as Hl1.
  { unfold pm_listed in *. cbn. destruct (decide (pm_node x = t)) as [Hxt|]; [|by rewrite lookup_insert_ne].
    rewrite Hxt in *. rewrite lookup_insert_eq. by rewrite Hn in Hl. }
  assert (controller_inv nothing a w2) as I2.
  { replace nothing with (with_node_refs (fun _ => 0) (hold_node t 1 nothing)) by done.
    apply (inv_update_proxy _ _ a p x x2 w1 I1 Hx); try done.
    - by intros t' [= <-].
    - unfold pm_up. rewrite Hl1. change (h_proxy _ p) with false. cbn [orb]. change (bit false) with 0.
      change (proxy_room a w1 p) with (proxy_room a w p). cbn. lia.
    - intros q. unfold aims_at. rewrite Hnone. cbn. unfold plus. case_decide as Hq.
      + subst q. rewrite !(bool_decide_eq_true_2 (Some t = Some t)) by done. rewrite bool_decide_eq_false_2 by done. done.
      + rewrite (bool_decide_eq_false_2 (Some t = Some q)) by congruence. rewrite bool_decide_eq_false_2 by done. done. }
  assert (w_proxies w2 !! p = Some x2) as Hx2 by apply lookup_insert_eq.
  assert (ready a node p w2) as Hr2.
  { exists x2. split_and!; [done|done|exact Hl1|]. unfold w2. rewrite (proxy_room_update a p x x2 w1 p Hx).
    rewrite decide_True by done. change (proxy_room a w1 p) with (proxy_room a w p). cbn. lia. }
  wp_one. eapply wp_load; [exact Hx2|]. wp_one.
  eapply wp_mono; [apply (inv_runs nothing a _ w2 I2), runs_add_dependency, (listed_there I2), Ht|]. cbn beta.
  intros res w3 [I3 Hc]. destruct (calm_listed _ _ _ Hc) as (En & _).
  destruct (alike_some _ _ _ p x2 (cm_proxies _ _ _ Hc) Hx2) as (x3 & Hx3 & Hcore).
  pose proof (ready_keeps a node p _ _ w2 w3 Hr2 (keeps_calm (fun _ => False) _ _ _ Hc) (fun H => H) (fun _ _ H => H)) as Hr3.
  assert (pm_target_node x3 = Some t) as Ht3 by (injection Hcore as _ _ E3; by trans (pm_target_node x2)).
  destruct (res <? 0) eqn:Er; [apply wp_ret; split_and!; [done|done|exact En|congruence]|]. wp_one. eapply wp_update; [exact Hx3|]. apply wp_ret.
  set (x4 := x3 <| pm_added_dep := true |>).
  destruct (po_proxy _ _ _ _ _ _ _ _ (ci_proxies _ _ _ I3) p x3 Hx3) as (_ & _ & _ & Hl3 & Hroom3).
  split_and!; [|..|done|].
  - apply inv_same_refs. apply (inv_update_proxy nothing _ a p x3 x4 w3 I3 Hx3); try done.
    + by cbn; rewrite Ht3.
    + cbn. cbn in Hroom3. lia.
  - destruct Hr3 as (x3' & Hx3' & B1 & B2 & B3). rewrite Hx3 in Hx3'. injection Hx3' as <-.
    exists x4. split_and!; [apply lookup_insert_eq|done|exact B2|].
    rewrite (proxy_room_update a p x3 x4 w3 p Hx3). rewrite decide_True by done. cbn. lia.
  - intros _. unfold aim. cbn. rewrite lookup_insert_eq. exact Ht3.
Qed.

(** A proxy with a target is registered and listed. *)
Lemma inv_register_proxy a node p w : controller_inv nothing a w -> ready a node p w -> aim w p <> None ->
  node ∈ c_nodes (w_controller w) ->
  wp (m ← load (T := ProxyMonitor) p;
      match pm_subscription m with None => crash_with InvalidPointer | Some sub => controller_add_subscription sub end ;;
      monitor ← proxy_monitor_ref p;
      update node (fun n : Node => n <| node_proxy_monitors ::= fun l => app l [monitor] |>) ;;
      mret 0)
    (fun r w' => controller_inv nothing a w' /\ exists x, w_proxies w' !! p = Some x /\
       bit (pm_up (h_proxy nothing) (w_nodes w') p x) + 1 <= proxy_room a w' p) w.
Proof.
  intros I (x & Hx & Hxn & Hl & Hroom) Haim Hnode. unfold aim in Haim. rewrite Hx in Haim. cbn in Haim.
  destruct (po_proxy _ _ _ _ _ _ _ _ (ci_proxies _ _ _ I) p x Hx) as (_ & (s & y & Hs & Hy & Hyt & Hyr & Hreg) & _).
  unfold pm_up in Hyr, Hreg. rewrite Hl in Hyr, Hreg. cbn in Hyr, Hreg.
  assert (s ∉ c_all_subscriptions (w_controller w)) as Hnot by (rewrite Hreg; discriminate).
  pose proof (ci_registry _ _ _ I) as Hok.
  assert (sub_live w s) as Hlive.
  { exists y. split; [done|]. rewrite Hyt. exists x. split; [done|]. rewrite Hxn.
    destruct (listed_node I node Hnode) as (n & _ & _ & Hn & _). by exists n. }
  wp_one. eapply wp_load; [exact Hx|]. rewrite Hs. wp_one.
  eapply wp_mono; [by apply (wp_add_subscription s y w)|]. cbn beta. intros _ w2 [Hreg2 Hc].
  set (w1 := with_sub _ _ _ w) in *.
  pose proof (owners_inv_upcoming a p x s y w I Hx Hl Hs Hy Hroom) as I1. fold w1 in I1.
  assert (registry_ok w1) as Hreg1.
  { apply (with_sub_ok s y); try done.
    - apply NoDup_app. split_and!; [apply Hok| |apply NoDup_singleton]. by intros q Hq ->%list_elem_of_singleton.
    - intros q [Hq| ->%list_elem_of_singleton]%elem_of_app; [by apply Hok|done].
    - intros. apply elem_of_app. by left. }
  assert (controller_inv (upcoming p) a w2) as I2.
  { split; [done|]. eapply owners_inv_calm; [exact Hc|done|exact Hreg1|exact I1]. }
  destruct (alike_some _ _ _ p x (cm_proxies _ _ _ Hc) Hx) as (x2 & Hx2 & Hcore). injection Hcore as E1 E2 E3.
  destruct (po_proxy _ _ _ _ _ _ _ _ (ci_proxies _ _ _ I2) p x2 Hx2) as (_ & _ & Hadd & Htl & Hroom2).
  assert (forall nodes z, pm_up (h_proxy (upcoming p)) nodes p z = true) as Hup.
  { intros nodes z. unfold pm_up. cbn. rewrite bool_decide_eq_true_2 by done. apply orb_true_r. }
  rewrite Hup in Hroom2. change (bit true) with 1 in Hroom2.
  unfold proxy_monitor_ref. wp_one. wp_one. eapply wp_update; [exact Hx2|]. set (x3 := x2 <| pm_ref_count ::= Z.succ |>).
  set (w3 := store_upd (T := ProxyMonitor) <[p := x3]> w2).
  assert (controller_inv (upcoming p) a w3) as I3.
  { apply inv_same_refs. apply (inv_update_proxy _ _ a p x2 x3 w2 I2 Hx2); try done.
    rewrite Hup. change (bit true) with 1. cbn. lia. }
  assert (2 <= proxy_room a w3 p) as Hroom3.
  { unfold w3. rewrite (proxy_room_update a p x2 x3 w2 p Hx2), decide_True by done. cbn. lia. }
  destruct (calm_listed _ _ _ Hc) as (En & _). assert (node ∈ c_nodes (w_controller w3)) as Hnode3.
  { change (node ∈ c_nodes (w_controller w2)). by rewrite En. }
  destruct (listed_node I3 node Hnode3) as (n3 & _ & _ & Hn3 & _).
  wp_one. wp_one. eapply wp_update; [exact Hn3|]. apply wp_ret.
  assert (p ∉ node_proxy_monitors n3) as Hfree.
  { destruct (listed_node I node Hnode) as (n & _ & _ & Hn & _).
    destruct (calm_node _ _ _ _ _ Hc Hn) as (n2 & Hn2 & Hcn & _). core_of Hcn.
    assert (n3 = n2) as -> by (cbn in Hn3; congruence). replace (node_proxy_monitors n2) with (node_proxy_monitors n).
    unfold pm_listed in Hl. rewrite Hxn, Hn in Hl. by apply bool_decide_eq_false in Hl. }
  split.
  - apply (inv_listing a node p n3 x3 w3 I3 Hnode3 Hn3); [apply lookup_insert_eq|cbn; congruence|cbn; congruence|done].
  - exists x3. split; [apply lookup_insert_eq|]. change (bit ?b + 1 <= _) with (bit b + 1 <= proxy_room a w3 p).
    unfold bit. destruct (pm_up _ _ _ _); lia.
Qed.

Lemma inv_proxy_new a node args w : controller_inv nothing a w -> node ∈ c_nodes (w_controller w) ->
  wp (node_on_match_proxy_new node args) (fun _ w' => controller_inv nothing a w') w.
Proof.
  intros I Hnode. destruct args as [r|[[target unit] path]]; [by apply wp_ret|]. cbn [node_on_match_proxy_new]. wp_one.
  eapply wp_mono; [by apply (inv_proxy_monitor_new a node)|]. cbn beta. intros r w1 (p & -> & I1 & Hp & Haim & En & _).
  rewrite <- En in Hnode. wp_one. eapply wp_controller_find_node; [apply I1|]. intros t _ Ht. wp_one.
  assert (forall msg w', controller_inv nothing a w' -> ready a node p w' ->
    wp (proxy_monitor_send_error p msg ;; mret 0) (fun (r : Z) w'' => wp (proxy_monitor_unref p ;; mret r)
      (fun _ w3 => controller_inv nothing a w3) w'') w') as Herr.
  { intros msg w' I' Hp'. eapply wp_mono; [by apply (inv_send_error a node p msg 0 w' I')|]. cbn beta.
    intros r w'' [I'' Hp'']. by eapply inv_proxy_end. }
  destruct t as [t|]; [|by apply Herr]. destruct Ht as (nt & [Ht _] & _).
  destruct (listed_node I1 node Hnode) as (n & _ & _ & Hn & _). wp_one. eapply wp_load; [exact Hn|].
  destruct (node_find_allowed_proxy_target n target); [|by apply Herr]. wp_one.
  eapply wp_find_proxy; [done..|]. intros old Hold. wp_one.
  apply (wp_mono _ (fun _ w' => controller_inv nothing a w' /\ ready a node p w' /\ aim w' p = None /\
    c_nodes (w_controller w') = c_nodes (w_controller w1))).
  { destruct old as [old|]; [|by apply wp_ret]. specialize (Hold old eq_refl).
    assert (p <> old) as Hne.
    { intros ->. destruct Hp as (x & Hx & Hxn & Hl & _). unfold pm_listed in Hl. rewrite Hxn, Hn in Hl.
      by apply bool_decide_eq_false in Hl. }
    eapply wp_mono; [by apply (inv_remove_proxy nothing a node old n w1 I1 Hnode Hn Hold)|]. cbn beta.
    intros _ w2 [I2 K]. split_and!; [done| | |by destruct K].
    - eapply ready_keeps; [exact Hp|exact K|done|]. intros q l. cbn. case_decide; [apply remove_first_elem|done].
    - rewrite (aim_keeps _ _ p w1 w2 K); [done|done|]. destruct Hp as (x & Hx & _). by exists x. }
  cbn beta. intros _ w2 (I2 & Hp2 & Haim2 & E2). rewrite <- E2 in Hnode, Ht. wp_one.
  eapply wp_mono; [by apply (inv_set_target a node p t w2 I2)|]. cbn beta. intros r w3 (I3 & Hp3 & E3 & Haim3).
  destruct (r <? 0) eqn:Er; [by apply Herr|].
  eapply wp_mono; [apply (inv_register_proxy a node p w3 I3 Hp3); [by rewrite Haim3|by rewrite E3]|]. cbn beta.
  intros r' w4 (I4 & x & Hx & Hroom). wp_one.
  eapply wp_mono; [by apply (inv_proxy_unref nothing a w4 p x I4 Hx)|]. cbn beta. intros _ w5 [I5 _]. by apply wp_ret.
Qed.
End new_proxy.
