(* ===== verification/ControllerRequests.v ===== *)
(** Jobs, and requests to agents, to one or to all, keep the invariant of the controller. *)
From S2P Require Import Prelude CString StringUtil ParseUtil TimeUtil Protocol BusUtils Log Cfg Socket.
From S2P Require Import World Job Events Subscriptions Monitor Proxy Requests Node Controller.
From S2P Require Import ControllerEvents WorldFacts EventFacts RegistryFacts NodeTheorems RequestTheorems.
From S2P Require Import LifecycleTheorems ControllerInv ControllerSafe ControllerMonitors.
From S2P Require Import ControllerProxies.
Local Open Scope list_scope.

(** ** Ownership of jobs and set-ups *)

Lemma count_map_nonneg {T} (P : T -> bool) m : 0 <= count_map P m.
Proof. unfold count_map. lia. Qed.
Lemma count_map_none {T} (P : T -> bool) m p x : count_map P m = 0 -> m !! p = Some x -> P x = false.
Proof. intros H0 Hx. destruct (P x) eqn:HP; [|done]. pose proof (count_map_pos P m p x Hx HP). lia. Qed.
Lemma sets_up_true p s : sets_up p s = true <-> setup_job s = Some p.
Proof. unfold sets_up. by rewrite bool_decide_eq_true. Qed.

Lemma plus_pred p δ q : 0 <= δ q -> 1 <= δ p -> 0 <= plus p (-1) δ q.
Proof. intros. unfold plus. destruct (decide (q = p)) as [->|]; lia. Qed.
Lemma plus_elim p k δ q : 1 <= plus p k δ q -> (q = p /\ 1 <= δ p + k) \/ (q <> p /\ 1 <= δ q).
Proof. unfold plus. destruct (decide (q = p)) as [->|]; [left; split; [done|lia]|right; split; [done|lia]]. Qed.

Section jobs_ok.
Context {δj δs : ptr -> Z} {jobs : gmap ptr Job} {setups : gmap ptr JobSetup} {reqs : gmap ptr AgentRequest}.
Context {l nodes : list ptr} (H : jobs_ok δj δs jobs setups reqs l nodes).

Lemma jobs_ok_unlist p : p ∈ l -> jobs_ok (plus p 1 δj) δs jobs setups reqs (remove_first p l) nodes.
Proof.
  intros Hp. destruct H. split; try done.
  - intros q Hq%remove_first_elem. auto.
  - intros q j Hj. destruct (jo_job q j Hj) as [? Hr]. split; [done|]. destruct (decide (q = p)) as [->|Hne].
    + rewrite plus_eq, Hr, count_remove_first, decide_True by done.
      assert (count p l <> O) by (rewrite count_zero; tauto). lia.
    + rewrite plus_ne, Hr, count_remove_first, decide_False by done. lia.
  - intros q. destruct (jo_held q) as (? & ? & H2 & ?). split_and!; try done.
    + unfold plus. destruct (decide (q = p)); lia.
    + intros [[-> _]|[_ Hq]]%plus_elim; auto.
Qed.

Lemma jobs_ok_unref p j : jobs !! p = Some j -> 1 <= δj p ->
  (job_ref_count j = 1 -> jobs_ok (plus p (-1) δj) δs (delete p jobs) setups reqs l nodes) /\
  (job_ref_count j <> 1 ->
     jobs_ok (plus p (-1) δj) δs (<[p := j <| job_ref_count ::= Z.pred |>]> jobs) setups reqs l nodes).
Proof.
  intros Hj Hδ. destruct H. destruct (jo_job p j Hj) as [Hn Hr].
  pose proof (count_map_nonneg (sets_up p) setups) as Hc.
  assert (forall q, 0 <= plus p (-1) δj q) as Hpos.
  { intros q. apply plus_pred; [apply jo_held|done]. }
  split; intros Hone.
  - assert (p ∉ l /\ count_map (sets_up p) setups = 0) as [Hl H0].
    { split; [apply count_zero|]; lia. }
    assert (forall q, q <> p -> is_Some (jobs !! q) -> is_Some (delete p jobs !! q)) as Hkeep.
    { intros q Hq. by rewrite lookup_delete_ne. }
    split; try done.
    + intros q Hq. apply Hkeep; [by intros ->|auto].
    + intros q i Hi. at_key q p; [done|]. rewrite plus_ne by done. auto.
    + intros s x Hx. destruct (jo_setup s x Hx) as (? & q & Hq & Hs). split; [done|]. exists q. split; [done|].
      apply Hkeep; [|done]. intros ->. apply (count_map_none _ _ s x) in H0; [|done].
      apply sets_up_true in Hq. congruence.
    + intros q. destruct (jo_held q) as (? & ? & ? & ?). split_and!; try done.
      intros [[-> ?]|[? ?]]%plus_elim; [lia|]. apply Hkeep; auto.
  - split; try done.
    + intros q Hq. rewrite is_Some_update by done. auto.
    + intros q i Hi. at_key q p; [|rewrite plus_ne by done; auto]. injection Hi as <-. rewrite plus_eq. cbn.
      split; [done|lia].
    + intros s x Hx. destruct (jo_setup s x Hx) as (? & q & Hq & Hs). split; [done|]. exists q.
      by rewrite is_Some_update.
    + intros q. rewrite is_Some_update by done. destruct (jo_held q) as (? & ? & ? & ?). split_and!; try done.
      intros [[-> ?]|[? ?]]%plus_elim; eauto.
Qed.

(** A set-up gives up its job when its last reference goes. *)
Lemma jobs_ok_setup_unref s x p j : setups !! s = Some x -> setup_job x = Some p -> jobs !! p = Some j -> 1 <= δs s ->
  (setup_ref_count x = 1 -> job_ref_count j = 1 ->
     jobs_ok δj (plus s (-1) δs) (delete p jobs) (delete s setups) reqs l nodes) /\
  (setup_ref_count x = 1 -> job_ref_count j <> 1 ->
     jobs_ok δj (plus s (-1) δs) (<[p := j <| job_ref_count ::= Z.pred |>]> jobs) (delete s setups) reqs l nodes) /\
  (setup_ref_count x <> 1 ->
     jobs_ok δj (plus s (-1) δs) jobs (<[s := x <| setup_ref_count ::= Z.pred |>]> setups) reqs l nodes).
Proof.
  intros Hx Hp Hj Hδ. destruct H. destruct (jo_setup s x Hx) as (Hsr & _). destruct (jo_job p j Hj) as [Hn Hr].
  pose proof (count_map_nonneg (will_start s) reqs) as Hcs.
  pose proof (count_map_pos (sets_up p) setups s x Hx (proj2 (sets_up_true p x) Hp)) as Hcp.
  destruct (jo_held p) as (Hh & _).
  assert (forall q, 0 <= plus s (-1) δs q) as Hpos.
  { intros q. apply plus_pred; [apply jo_held|done]. }
  assert (forall q, count_map (sets_up q) (delete s setups) =
    count_map (sets_up q) setups - if decide (q = p) then 1 else 0) as Hdel.
  { intros q. rewrite (count_map_delete _ _ s x Hx). unfold sets_up at 2. rewrite Hp.
    destruct (decide (q = p)) as [->|]; [by rewrite bool_decide_eq_true_2|].
    by rewrite bool_decide_eq_false_2 by congruence. }
  assert (setup_ref_count x = 1 -> (forall r q s', reqs !! r = Some q ->
    req_cb q = unit_lifecycle_method_callback s' -> s' <> s)) as Hnoreq.
  { intros Hone r q s' Hq Hcb ->. assert (count_map (will_start s) reqs = 0) as H0 by lia.
    apply (count_map_none _ _ r q) in H0; [|done]. unfold will_start in H0. rewrite Hcb in H0.
    by rewrite bool_decide_eq_true_2 in H0. }
  assert (forall jobs', (forall q, q <> p -> jobs' !! q = jobs !! q) ->
    (p ∈ l -> is_Some (jobs' !! p)) -> (1 <= δj p -> is_Some (jobs' !! p)) ->
    (forall i, jobs' !! p = Some i -> job_node i = job_node j /\ job_ref_count i = job_ref_count j - 1) ->
    (is_Some (jobs' !! p) \/ count_map (sets_up p) setups = 1) -> setup_ref_count x = 1 ->
    jobs_ok δj (plus s (-1) δs) jobs' (delete s setups) reqs l nodes) as Hgen.
  { intros jobs' Hsame Hl' Hd' Hj' Hor Hone.
    assert (forall q, (q = p -> is_Some (jobs' !! p)) -> is_Some (jobs !! q) -> is_Some (jobs' !! q)) as Hkeep.
    { intros q Hq1 Hq2. destruct (decide (q = p)) as [->|]; [auto|by rewrite Hsame]. }
    split; try done.
    - intros q Hq. apply Hkeep; [by intros ->; apply Hl'|auto].
    - intros q i Hi. rewrite Hdel. destruct (decide (q = p)) as [->|Hne].
      + destruct (Hj' i Hi) as [-> ->]. split; [done|lia].
      + rewrite Hsame in Hi by done. rewrite Z.sub_0_r. auto.
    - intros t y [Hne Hy]%lookup_delete_Some. destruct (jo_setup t y Hy) as (Htr & q & Hq & Hs).
      rewrite plus_ne by done. split; [done|]. exists q. split; [done|]. apply Hkeep; [|done]. intros ->.
      destruct Hor as [?|H1]; [done|]. exfalso. specialize (Hdel p). rewrite decide_True in Hdel by done.
      assert (count_map (sets_up p) (delete s setups) = 0) as H0 by lia.
      apply (count_map_none _ _ t y) in H0; [|by rewrite lookup_delete_ne]. apply sets_up_true in Hq. congruence.
    - intros r q s' Hq Hcb. rewrite lookup_delete_ne; [eauto|]. intros ->. by eapply Hnoreq.
    - intros q. destruct (jo_held q) as (? & ? & ? & ?). split_and!; try done.
      + intros Hq. apply Hkeep; [by intros ->; apply Hd'|auto].
      + intros [[-> ?]|[? ?]]%plus_elim; [|rewrite lookup_delete_ne; auto].
        pose proof (count_map_nonneg (will_start s) reqs). lia. }
  split_and!.
  - intros Hone Hj1. assert (p ∉ l) as Hl.
    { apply count_zero. lia. }
    apply count_zero in Hl as Hl0. apply Hgen; try done.
    + intros q Hq. by rewrite lookup_delete_ne.
    + lia.
    + intros i. by rewrite lookup_delete_eq.
    + right. lia.
  - intros Hone Hj1. assert (is_Some (<[p := j <| job_ref_count ::= Z.pred |>]> jobs !! p)) as Hp'.
    { rewrite lookup_insert_eq. by eexists. }
    apply Hgen; try done.
    + intros q Hq. by rewrite lookup_insert_ne.
    + intros i. rewrite lookup_insert_eq. intros [= <-]. cbn. split; [done|lia].
    + by left.
  - intros Hne. assert (forall q, count_map (sets_up q) (<[s := x <| setup_ref_count ::= Z.pred |>]> setups) =
      count_map (sets_up q) setups) as Hcount.
    { intros q. rewrite (count_map_update _ _ s x) by done. change (sets_up q (x <| setup_ref_count ::= Z.pred |>)) with (sets_up q x). lia. }
    split; try done.
    + intros q i Hi. rewrite Hcount. auto.
    + intros t y Hy. at_key t s; [|rewrite plus_ne by done; auto]. injection Hy as <-. rewrite plus_eq. cbn.
      split; [lia|]. exists p. split; [done|]. by exists j.
    + intros r q s' Hq Hcb. rewrite is_Some_update by done. eauto.
    + intros q. rewrite is_Some_update by done. destruct (jo_held q) as (? & ? & ? & ?). split_and!; try done.
      intros [[-> ?]|[? ?]]%plus_elim; eauto.
Qed.
End jobs_ok.

(** ** Jobs *)

Section jobs.
Context {E : Env}.

(** Nodes, requests and the answers to come are left as they are. *)
Record kept (w w' : World) : Prop := {
  kp_nodes : alike node_core (w_nodes w) (w_nodes w');
  kp_reqs : w_reqs w' = w_reqs w;
  kp_setups : w_setups w' = w_setups w;
  kp_fleets : w_fleets w' = w_fleets w;
  kp_asked : forall r, asks (AnswerTo r) w' = asks (AnswerTo r) w;
  kp_listed : c_nodes (w_controller w') = c_nodes (w_controller w);
  kp_anonymous : c_anonymous_nodes (w_controller w') = c_anonymous_nodes (w_controller w);
  kp_self : c_ref_count (w_controller w') = c_ref_count (w_controller w);
}.
#[export] Instance kept_preorder : PreOrder kept.
Proof.
  split; [by intros w|]. intros w1 w2 w3 [] []. split; try congruence.
Qed.
Lemma kept_calm U w w' : calm U w w' -> kept w w'.
Proof.
  intros Hc. destruct (calm_listed _ _ _ Hc) as (E1 & E2 & _). pose proof (cm_controller _ _ _ Hc) as Hcore.
  core_of Hcore. split; try done; apply Hc.
Qed.
Lemma kept_same w w' : w_nodes w' = w_nodes w -> w_reqs w' = w_reqs w -> w_setups w' = w_setups w ->
  w_fleets w' = w_fleets w -> w_trace w' = w_trace w -> c_nodes (w_controller w') = c_nodes (w_controller w) ->
  c_anonymous_nodes (w_controller w') = c_anonymous_nodes (w_controller w) ->
  c_ref_count (w_controller w') = c_ref_count (w_controller w) -> kept w w'.
Proof. intros En ? ? ? Et ? ? ?. split; try done; [by rewrite En|]. intros r. unfold asks. by rewrite Et. Qed.
Lemma kept_jobs w jobs : kept w (w <| w_jobs := jobs |>).
Proof. by apply kept_same. Qed.

(** The jobs, the set-ups and the list of jobs may change together. *)
Definition with_jobs (jobs : gmap ptr Job) (setups : gmap ptr JobSetup) (l : list ptr) (w : World) : World :=
  w <| w_jobs := jobs |> <| w_setups := setups |> <| w_controller ::= fun c => c <| c_jobs := l |> |>.
Lemma inv_with_jobs h a w jobs setups l δj δs : controller_inv h a w ->
  jobs_ok δj δs jobs setups (w_reqs w) l (c_nodes (w_controller w)) ->
  (forall p, (w_next_ptr w <= p)%positive -> jobs !! p = None) ->
  (forall p, (w_next_ptr w <= p)%positive -> setups !! p = None) ->
  controller_inv (h <| h_job := δj |> <| h_setup := δs |>) a (with_jobs jobs setups l w).
Proof.
  intros [Hreg I] Hj Hf1 Hf2. split; [by apply (registry_ok_same w)|].
  pose proof (ci_fresh _ _ _ I) as Hf. destruct I. split; try assumption. by destruct Hf.
Qed.
Lemma with_jobs_same w jobs : with_jobs jobs (w_setups w) (c_jobs (w_controller w)) w = w <| w_jobs := jobs |>.
Proof. by destruct w as [? ? ? ? ? ? ? ? []]. Qed.

Lemma inv_job_unref h a p w : controller_inv h a w -> 1 <= h_job h p ->
  wp (job_unref p) (fun _ w' => controller_inv (hold_job p (-1) h) a w' /\ w' = w <| w_jobs := w_jobs w' |>) w.
Proof.
  intros I Hh. pose proof (ci_jobs _ _ _ I) as Hok. destruct (jo_held _ _ _ _ _ _ _ Hok p) as (_ & _ & Hp & _).
  destruct (Hp Hh) as [j Hj]. destruct (jobs_ok_unref Hok p j Hj Hh) as [H1 H2].
  pose proof (ci_fresh _ _ _ I) as Hf. unfold job_unref. wp_one. eapply wp_update; [exact Hj|]. wp_one.
  eapply wp_load; [apply lookup_insert_eq|]. cbn [job_ref_count field_update].
  destruct (Z.pred (job_ref_count j) =? 0) eqn:E0; cbn [negb].
  - apply Z.eqb_eq in E0. eapply wp_free; [apply lookup_insert_eq|]. rewrite store_delete_insert. split; [|done].
    pose proof (inv_with_jobs h a w _ _ _ _ _ I (H1 ltac:(lia)) (fresh_delete (fr_jobs _ Hf) p) (fr_setups _ Hf)) as I1.
    rewrite with_jobs_same in I1. by destruct h.
  - apply Z.eqb_neq in E0. apply wp_ret. split; [|done].
    pose proof (inv_with_jobs h a w _ _ _ _ _ I (H2 ltac:(lia)) (fresh_update (fr_jobs _ Hf) p j _ Hj) (fr_setups _ Hf)) as I1.
    rewrite with_jobs_same in I1. by destruct h.
Qed.

Lemma inv_unlist_job h a p w : controller_inv h a w -> p ∈ c_jobs (w_controller w) ->
  controller_inv (hold_job p 1 h) a
    (w <| w_controller ::= fun c => c <| c_jobs := remove_first p (c_jobs (w_controller w)) |> |>).
Proof.
  intros I Hp. pose proof (ci_fresh _ _ _ I) as Hf.
  pose proof (inv_with_jobs h a w _ _ _ _ _ I (jobs_ok_unlist (ci_jobs _ _ _ I) p Hp) (fr_jobs _ Hf) (fr_setups _ Hf)) as I1.
  by destruct h, w as [? ? ? ? ? ? ? ? []].
Qed.

Lemma hold_job_back h a p w : controller_inv (hold_job p (-1) (hold_job p 1 h)) a w -> controller_inv h a w.
Proof. apply controller_inv_held. split_and!; try done. intros q. cbn. unfold plus. case_decide; lia. Qed.

Lemma hold_job_pos h a p w : controller_inv h a w -> 1 <= h_job (hold_job p 1 h) p.
Proof.
  intros I. cbn. rewrite plus_eq. destruct (jo_held _ _ _ _ _ _ _ (ci_jobs _ _ _ I) p). lia.
Qed.

Context (Hclocks : clocks_work E).

Lemma inv_remove_job h a p result w : controller_inv h a w -> p ∈ c_jobs (w_controller w) ->
  wp (controller_remove_job p result) (fun _ w' => controller_inv h a w' /\ kept w w' /\
    c_jobs (w_controller w') = remove_first p (c_jobs (w_controller w))) w.
Proof.
  intros I Hp. destruct (listed_job I p Hp) as (j & Hj).
  pose proof (job_has_node I p j Hj) as Hnode. destruct (listed_node I _ Hnode) as (n & _ & _ & Hn & _).
  unfold controller_remove_job. wp_one. eapply wp_load; [exact Hj|]. wp_one. eapply wp_load; [exact Hn|].
  wp_one. wp_one. set (w1 := emit _ w). assert (controller_inv h a w1) as I1 by by apply inv_called.
  wp_one. wp_one. wp_one. apply wp_list_remove_from; [done|]. wp_one. wp_one.
  pose proof (inv_unlist_job h a p w1 I1 Hp) as I2. set (w2 := field_update w_controller _ w1) in *.
  assert (job_there w2 p) as Hthere by by exists j.
  wp_one. eapply wp_mono; [apply (inv_runs _ a _ w2 I2)|].
  { destruct (_ && _); [|apply runs_ret]. by apply (runs_job_report I2). }
  cbn beta. intros _ w3 [I3 Hc]. eapply wp_mono; [apply (inv_job_unref _ a p w3 I3); by eapply hold_job_pos|].
  cbn beta. intros _ w4 [I4 Ew]. apply hold_job_back in I4. split; [done|].
  destruct (calm_listed _ _ _ Hc) as (_ & _ & _ & Ej & _). split; [|by rewrite Ew].
  trans w1; [by apply (kept_calm (fun _ => False)), calm_emit|]. trans w2; [by apply kept_same|].
  trans w3; [by eapply kept_calm|]. rewrite Ew. apply kept_jobs.
Qed.

Lemma wp_find_job h a id Q w : controller_inv h a w ->
  (forall r, (forall p, r = Some p -> p ∈ c_jobs (w_controller w)) -> Q r w) -> wp (controller_find_job id) Q w.
Proof.
  intros I HQ. unfold controller_find_job. wp_one. wp_one.
  apply (wp_find_first _ _ (fun p => match w_jobs w !! p with Some j => job_id j =? id | None => false end)).
  - intros p Hp. destruct (listed_job I p Hp) as (j & Hj). wp_one. eapply wp_load; [exact Hj|].
    rewrite Hj. by apply wp_ret.
  - apply HQ. intros p Hf. apply list_find_In in Hf as [Hin _]. by apply list_elem_of_In.
Qed.

Lemma inv_job_done a args w : controller_inv nothing a w ->
  wp (node_match_job_done args) (fun _ w' => controller_inv nothing a w') w.
Proof.
  intros I. destruct args as [r|[id result]]; [by apply wp_ret|]. cbn [node_match_job_done]. wp_one.
  eapply wp_mono; [|intros x w' H; apply wp_ret; exact H]. unfold controller_finish_job. wp_one.
  eapply wp_find_job; [exact I|]. intros [p|] Hp; [|by apply wp_ret]. specialize (Hp p eq_refl).
  destruct (listed_job I p Hp) as (j & Hj). assert (job_there w p) as Hthere by by exists j. wp_one. wp_one. wp_one.
  eapply wp_mono; [apply (inv_runs nothing a _ w I); destruct (c_metrics_enabled _); run_tac|]. cbn beta.
  intros _ w1 [I1 Hc]. eapply wp_mono; [apply inv_remove_job; [done|]|by intros _ w2 [? _]].
  by destruct (calm_listed _ _ _ Hc) as (_ & _ & _ & -> & _).
Qed.

(** The jobs of a lost agent. *)
Lemma inv_drop_jobs h a name w : controller_inv h a w ->
  wp (foreach (c_jobs (w_controller w)) (node_drop_job name)) (fun _ w' =>
    controller_inv h a w' /\ c_nodes (w_controller w') = c_nodes (w_controller w)) w.
Proof.
  intros I. apply (wp_foreach (fun rest w' => controller_inv h a w' /\
    (forall p, count p rest <= count p (c_jobs (w_controller w')))%nat /\
    c_nodes (w_controller w') = c_nodes (w_controller w))).
  - by split_and!.
  - intros p rest w1 (I1 & Hin & En).
    assert (p ∈ c_jobs (w_controller w1)) as Hl.
    { destruct (decide (p ∈ c_jobs (w_controller w1))) as [|Hn]; [done|]. apply count_zero in Hn.
      specialize (Hin p). rewrite Hn, count_cons, decide_True in Hin by done. lia. }
    destruct (listed_job I1 p Hl) as (j & Hj).
    destruct (listed_node I1 _ (job_has_node I1 p j Hj)) as (n & nm & _ & Hn & Hname & _).
    unfold node_drop_job. wp_one. eapply wp_load; [exact Hj|]. wp_one. eapply wp_load; [exact Hn|]. rewrite Hname.
    destruct (_ =? 0).
    + wp_one. wp_one. wp_one. apply wp_list_remove_from; [done|]. wp_one. wp_one.
      pose proof (inv_unlist_job h a p w1 I1 Hl) as I2.
      eapply wp_mono; [apply (inv_job_unref _ a p _ I2); by eapply hold_job_pos|]. cbn beta.
      intros _ w3 [I3 Ec]. apply hold_job_back in I3. split; [done|]. rewrite Ec. split; [|done].
      intros q. specialize (Hin q). rewrite count_cons in Hin. cbn. rewrite count_remove_first. lia.
    + apply wp_ret. split_and!; [done| |done]. intros q. specialize (Hin q). rewrite count_cons in Hin. lia.
  - by intros w1 (? & _ & ?).
Qed.
End jobs.

(** ** Set-ups *)

Lemma jobs_ok_new {δj δs jobs setups reqs l nodes} s p x j : jobs_ok δj δs jobs setups reqs l nodes ->
  jobs !! p = None -> setups !! s = None -> job_node j ∈ nodes -> job_ref_count j = 1 ->
  setup_ref_count x = 1 -> setup_job x = Some p ->
  jobs_ok δj (plus s 1 δs) (<[p := j]> jobs) (<[s := x]> setups) reqs l nodes.
Proof.
  intros [] Hp Hs Hn Hr Hxr Hxp.
  assert (forall q, is_Some (jobs !! q) -> is_Some (<[p := j]> jobs !! q)) as Hkeep.
  { intros q Hq. at_key q p; [by eexists|done]. }
  assert (forall q, count_map (sets_up q) (<[s := x]> setups) = (if decide (q = p) then 1 else 0) + count_map (sets_up q) setups) as Hcount.
  { intros q. rewrite count_map_insert by done. f_equal. unfold sets_up. rewrite Hxp.
    destruct (decide (q = p)) as [->|]; [by rewrite bool_decide_eq_true_2|by rewrite bool_decide_eq_false_2 by congruence]. }
  split; try done.
  - auto.
  - intros q i Hi. rewrite Hcount. at_key q p; [|apply jo_job; done]. injection Hi as <-. split; [done|].
    destruct (jo_held p) as (H1 & _ & H2 & _).
    assert (δj p = 0) as ->.
    { destruct (decide (1 <= δj p)) as [H3|]; [|lia]. destruct (H2 H3). congruence. }
    assert (count p l = O) as -> by (apply count_zero; intros Hl; destruct (jo_listed p Hl); congruence).
    rewrite (count_map_zero (sets_up p) setups); [cbn; lia|]. intros t y Hy. apply bool_decide_eq_false_2. intros Hyp.
    destruct (jo_setup t y Hy) as (_ & q & Hq & [? ?]). congruence.
  - intros t y Hy. at_key t s.
    + injection Hy as <-. rewrite plus_eq. split; [|exists p; split; [done|]; rewrite lookup_insert_eq; by eexists].
      destruct (jo_held s) as (_ & H1 & _ & H2).
      assert (δs s = 0) as ->.
      { destruct (decide (1 <= δs s)) as [H3|]; [|lia]. destruct (H2 H3). congruence. }
      rewrite (count_map_zero (will_start s) reqs); [lia|]. intros r q Hq. unfold will_start.
      destruct (req_cb q) as [| | | | |s'|] eqn:Hcb; try done. apply bool_decide_eq_false_2. intros <-.
      destruct (jo_request r q s Hq Hcb). congruence.
    + rewrite plus_ne by done. destruct (jo_setup t y Hy) as (? & q & Hq & Hj). split; [done|]. exists q. auto.
  - intros r q t Hq Hcb. at_key t s; [by eexists|eauto].
  - intros q. destruct (jo_held q) as (? & ? & ? & ?). split_and!; auto.
    + unfold plus. destruct (decide (q = s)); lia.
    + intros [[-> _]|[Hne Hq]]%plus_elim; [rewrite lookup_insert_eq; by eexists|]. rewrite lookup_insert_ne by done. auto.
Qed.

Lemma with_jobs_id v jobs setups :
  with_jobs (w_jobs v) (w_setups v) (c_jobs (w_controller v)) (v <| w_setups := setups |> <| w_jobs := jobs |>) = v.
Proof. by destruct v as [? ? ? ? ? ? ? ? []]. Qed.

Section setups.
Context {E : Env} (Hnf : no_local_failure E).

(** What a program that is about jobs only leaves alone. *)
Definition same_work (w w' : World) : Prop :=
  w_nodes w' = w_nodes w /\ w_reqs w' = w_reqs w /\ w_fleets w' = w_fleets w /\ w_trace w' = w_trace w /\
  w_controller w' = w_controller w.

Lemma inv_new_setup h a w v s p x j : controller_inv h a w ->
  still w (v <| w_setups := w_setups w |> <| w_jobs := w_jobs w |>) ->
  w_setups v = <[s := x]> (w_setups w) -> w_jobs v = <[p := j]> (w_jobs w) ->
  w_jobs w !! p = None -> w_setups w !! s = None -> job_node j ∈ c_nodes (w_controller w) -> job_ref_count j = 1 ->
  setup_ref_count x = 1 -> setup_job x = Some p -> (s < w_next_ptr v)%positive -> (p < w_next_ptr v)%positive ->
  controller_inv (hold_setup s 1 h) a v.
Proof.
  intros I Hc Es Ej Hp Hs Hn Hr Hxr Hxp Hsn Hpn. set (w0 := v <| w_setups := w_setups w |> <| w_jobs := w_jobs w |>) in *.
  assert (controller_inv h a w0) as I0 by (eapply controller_inv_still; [exact Hc|exact I]).
  destruct (calm_listed _ _ _ Hc) as (En & _). rewrite <- En in Hn.
  pose proof (jobs_ok_new s p x j (ci_jobs _ _ _ I0) Hp Hs Hn Hr Hxr Hxp) as Hok. pose proof (ci_fresh _ _ _ I0) as Hf.
  pose proof (inv_with_jobs h a w0 _ _ _ _ _ I0 Hok) as I1. cbn in I1. rewrite <- Es, <- Ej in I1.
  rewrite <- (with_jobs_id v (w_jobs w) (w_setups w)). destruct h. apply I1.
  - intros q Hq. rewrite Ej, lookup_insert_ne by lia. apply (fr_jobs _ Hf). done.
  - intros q Hq. rewrite Es, lookup_insert_ne by lia. apply (fr_setups _ Hf). done.
Qed.

Lemma inv_setup_new h a m p unit type w : controller_inv h a w -> p ∈ c_nodes (w_controller w) ->
  wp (job_setup_new m p unit type) (fun r w' => exists s x q, r = Some s /\
    controller_inv (hold_setup s 1 h) a w' /\ w_setups w' !! s = Some x /\ setup_job x = Some q /\
    same_work w w') w.
Proof.
  intros I Hp. pose proof (ci_fresh _ _ _ I) as Hf.
  assert (w_setups w !! w_next_ptr w = None) as Hs by (apply (fr_setups _ Hf); lia).
  assert (w_jobs w !! Pos.succ (w_next_ptr w) = None) as Hj by (apply (fr_jobs _ Hf); lia).
  unfold job_setup_new, job_new. do 2 wp_one. rewrite local_ok_true by done. cbn [negb].
  do 5 wp_one. rewrite local_ok_true by done. cbn [negb]. do 8 wp_one. rewrite local_ok_true by done. cbn [negb].
  wp_one. eapply wp_update; [apply lookup_insert_eq|]. do 2 wp_one. rewrite local_ok_true by done. cbn [negb].
  wp_one. eapply wp_update; [apply lookup_insert_eq|]. do 2 wp_one. rewrite local_ok_true by done. cbn [negb].
  wp_one. eapply wp_update; [apply lookup_insert_eq|]. wp_one. eapply wp_update; [apply lookup_insert_eq|]. wp_one.
  wp_one. eapply wp_update; [apply lookup_insert_eq|]. wp_one.
  match goal with |- exists s x q, _ /\ controller_inv _ _ ?v /\ _ => set (v0 := v) end.
  assert (exists x j, w_setups v0 = <[w_next_ptr w := x]> (w_setups w) /\
    w_jobs v0 = <[Pos.succ (w_next_ptr w) := j]> (w_jobs w) /\ job_node j = p /\ job_ref_count j = 1 /\
    setup_ref_count x = 1 /\ setup_job x = Some (Pos.succ (w_next_ptr w)))
    as (x & j & Es & Ej & E1 & E2 & E3 & E4).
  { eexists _, _. split; [unfold v0; cbn; by rewrite !insert_insert_eq|].
    split; [unfold v0; cbn; by rewrite !insert_insert_eq|]. done. }
  assert (same_work w v0) as Hsame by done.
  assert (w_next_ptr v0 = Pos.succ (Pos.succ (w_next_ptr w))) as En by done.
  assert (still w (v0 <| w_setups := w_setups w |> <| w_jobs := w_jobs w |>)) as Hstill.
  { apply calm_stores; try done. unfold v0. cbn. lia. }
  clearbody v0. exists (w_next_ptr w), x, (Pos.succ (w_next_ptr w)).
  split_and!; [done| |by rewrite Es, lookup_insert_eq|done|done].
  apply (inv_new_setup h a w v0 (w_next_ptr w) (Pos.succ (w_next_ptr w)) x j); try done; try lia. by rewrite E1.
Qed.

Lemma inv_setup_ref h a s x w : controller_inv h a w -> w_setups w !! s = Some x ->
  controller_inv (hold_setup s 1 h) a (store_upd (T := JobSetup) <[s := x <| setup_ref_count ::= Z.succ |>]> w).
Proof.
  intros I Hx. pose proof (ci_fresh _ _ _ I) as Hf. pose proof (ci_jobs _ _ _ I) as [].
  set (x' := x <| setup_ref_count ::= Z.succ |>).
  assert (jobs_ok (h_job h) (plus s 1 (h_setup h)) (w_jobs w) (<[s := x']> (w_setups w)) (w_reqs w)
    (c_jobs (w_controller w)) (c_nodes (w_controller w))) as Hok.
  { assert (forall q, count_map (sets_up q) (<[s := x']> (w_setups w)) = count_map (sets_up q) (w_setups w)) as Hcount.
    { intros q. rewrite (count_map_update _ _ s x) by done. change (sets_up q x') with (sets_up q x). lia. }
    split; try done.
    - intros q j Hj. rewrite Hcount. auto.
    - intros t y Hy. at_key t s; [|rewrite plus_ne by done; auto]. injection Hy as <-. rewrite plus_eq.
      destruct (jo_setup s x Hx) as (? & q & ? & ?). cbn. split; [lia|]. by exists q.
    - intros r q t Hq Hcb. rewrite is_Some_update by done. eauto.
    - intros q. rewrite is_Some_update by done. destruct (jo_held q) as (? & ? & ? & ?). split_and!; try done.
      + unfold plus. destruct (decide (q = s)); lia.
      + intros [[-> _]|[_ Hq]]%plus_elim; eauto. }
  pose proof (inv_with_jobs h a w _ _ _ _ _ I Hok (fr_jobs _ Hf) (fresh_update (fr_setups _ Hf) s x x' Hx)) as I1.
  destruct h, w as [? ? ? ? ? ? ? ? []]. exact I1.
Qed.

(** The state when a reference to a set-up has been dropped. *)
Definition setup_dropped (s : ptr) (x : JobSetup) (p : ptr) (j : Job) (w : World) : World :=
  if setup_ref_count x =? 1 then
    w <| w_jobs ::= if job_ref_count j =? 1 then delete p else <[p := j <| job_ref_count ::= Z.pred |>]> |>
      <| w_setups ::= delete s |>
  else w <| w_setups ::= <[s := x <| setup_ref_count ::= Z.pred |>]> |>.

Lemma wp_setup_dropped s x p j Q w : w_setups w !! s = Some x -> setup_job x = Some p -> w_jobs w !! p = Some j ->
  Q tt (setup_dropped s x p j w) -> wp (job_setup_unref s) Q w.
Proof.
  intros Hx Hp Hj HQ. unfold setup_dropped in HQ. destruct (setup_ref_count x =? 1) eqn:E1.
  - apply Z.eqb_eq in E1. destruct x as [r m jb]. cbn in E1, Hp. subst r jb. by eapply wp_job_setup_unref_last.
  - apply Z.eqb_neq in E1. unfold job_setup_unref. wp_one. eapply wp_update; [exact Hx|]. wp_one.
    eapply wp_load; [apply lookup_insert_eq|]. cbn [setup_ref_count field_update].
    replace (Z.pred (setup_ref_count x) =? 0) with false by (symmetry; apply Z.eqb_neq; lia). by apply wp_ret.
Qed.

Lemma inv_setup_dropped h a s x p j w : controller_inv h a w -> 1 <= h_setup h s ->
  w_setups w !! s = Some x -> setup_job x = Some p -> w_jobs w !! p = Some j ->
  controller_inv (hold_setup s (-1) h) a (setup_dropped s x p j w).
Proof.
  intros I Hh Hx Hp Hj. pose proof (ci_jobs _ _ _ I) as Hok. pose proof (ci_fresh _ _ _ I) as Hf.
  destruct (jobs_ok_setup_unref Hok s x p j Hx Hp Hj Hh) as (H1 & H2 & H3). unfold setup_dropped.
  destruct (setup_ref_count x =? 1) eqn:E0; [apply Z.eqb_eq in E0|apply Z.eqb_neq in E0].
  - destruct (job_ref_count j =? 1) eqn:E1; [apply Z.eqb_eq in E1|apply Z.eqb_neq in E1].
    + pose proof (inv_with_jobs h a w _ _ _ _ _ I (H1 E0 E1) (fresh_delete (fr_jobs _ Hf) p) (fresh_delete (fr_setups _ Hf) s)) as I1.
      destruct h, w as [? ? ? ? ? ? ? ? []]. exact I1.
    + pose proof (inv_with_jobs h a w _ _ _ _ _ I (H2 E0 E1) (fresh_update (fr_jobs _ Hf) p j _ Hj) (fresh_delete (fr_setups _ Hf) s)) as I1.
      destruct h, w as [? ? ? ? ? ? ? ? []]. exact I1.
  - pose proof (inv_with_jobs h a w _ _ _ _ _ I (H3 E0) (fr_jobs _ Hf) (fresh_update (fr_setups _ Hf) s x _ Hx)) as I1.
    destruct h, w as [? ? ? ? ? ? ? ? []]. exact I1.
Qed.

Lemma inv_setup_unref h a s w : controller_inv h a w -> 1 <= h_setup h s ->
  wp (job_setup_unref s) (fun _ w' => controller_inv (hold_setup s (-1) h) a w') w.
Proof.
  intros I Hh. pose proof (ci_jobs _ _ _ I) as Hok. destruct (jo_held _ _ _ _ _ _ _ Hok s) as (_ & _ & _ & Hs).
  destruct (Hs Hh) as [x Hx]. destruct (jo_setup _ _ _ _ _ _ _ Hok s x Hx) as (_ & p & Hp & [j Hj]).
  eapply wp_setup_dropped; [done..|]. by apply inv_setup_dropped.
Qed.
End setups.

(** ** Ownership of requests *)

Lemma sum_map_zero {T} (f : T -> Z) (m : gmap ptr T) :
  (forall p x, m !! p = Some x -> f x = 0) -> sum_map f m = 0.
Proof.
  intros H. apply Z.le_antisymm; [|apply sum_map_nonneg; intros p x Hx; rewrite (H p x Hx); lia].
  enough (0 <= sum_map (fun x => - f x) m /\ sum_map (fun x => - f x) m = - sum_map f m) by lia. split.
  - apply sum_map_nonneg. intros p x Hx. rewrite (H p x Hx). lia.
  - clear H. induction m as [|p x m Hp IH] using map_ind; [done|]. rewrite !sum_map_insert by done. lia.
Qed.
Lemma entries_none r f : r ∉ sr_agent_req <$> fl_sub_req f -> entries_of r f = 0.
Proof. intros H. unfold entries_of. apply count_zero in H. lia. Qed.

Section reqs_ok.
Context {δ wait : ptr -> Z} {nodes : gmap ptr Node} {reqs : gmap ptr AgentRequest}.
Context {fleets : gmap ptr AgentFleetRequest} {l : list ptr} (H : reqs_ok δ wait nodes reqs fleets l).

Lemma no_entries r : reqs !! r = None -> sum_map (entries_of r) fleets = 0.
Proof.
  intros Hr. apply sum_map_zero. intros f x Hx. apply entries_none. intros (s & -> & Hs)%list_elem_of_fmap.
  destruct (ro_entries _ _ _ _ _ _ H f x Hx) as [_ Hall]. destruct (Hall s Hs) as (_ & q & Hq & _). congruence.
Qed.

(** A new request, held by the handler. *)
Lemma reqs_ok_new p n r q : reqs !! r = None -> nodes !! p = Some n -> p ∈ l -> req_node q = p ->
  req_ref_count q = 1 -> req_is_cancelled q = false ->
  reqs_ok (plus r 1 δ) wait
    (<[p := n <| node_ref_count ::= Z.succ |> <| node_outstanding_requests ::= fun o => o ++ [r] |>]> nodes)
    (<[r := q]> reqs) fleets l.
Proof.
  intros Hr Hn Hp Hqn Hqr Hqc. pose proof (no_entries r Hr) as H0. destruct H.
  assert (δ r = 0) as Hδ.
  { destruct (ro_held r) as [H1 H2]. destruct (decide (1 <= δ r)) as [H3|]; [|lia]. destruct (H2 H3). congruence. }
  split; try done.
  - intros t u Hu. at_key t r.
    + injection Hu as <-. rewrite plus_eq, Hδ, (ro_dead r Hr), H0, Hqn. split_and!; [done| |done|lia].
      intros m. rewrite lookup_insert_eq. intros [= <-]. cbn. apply elem_of_app. right. by left.
    + rewrite plus_ne by done. destruct (ro_request t u Hu) as (? & Ho & ? & ?). split_and!; try done.
      intros m Hm. destruct (decide (req_node u = p)) as [Hup|]; [|rewrite lookup_insert_ne in Hm by done; auto].
      rewrite Hup, lookup_insert_eq in Hm. injection Hm as <-. cbn. apply elem_of_app. left. apply Ho. by rewrite Hup.
  - intros t. destruct (ro_held t) as [? ?]. split; [unfold plus; destruct (decide (t = r)); lia|].
    intros [[-> _]|[? ?]]%plus_elim; [rewrite lookup_insert_eq; by eexists|]. rewrite lookup_insert_ne by done. auto.
  - intros t Ht. apply ro_dead. apply lookup_insert_None in Ht. tauto.
  - intros f x Hx. destruct (ro_entries f x Hx) as [Hnd Hall]. split; [done|]. intros s Hs.
    destruct (Hall s Hs) as (? & u & Hu & ?). split; [done|]. exists u. split; [|done].
    rewrite lookup_insert_ne; [done|]. congruence.
  - intros t u f Hu Hcb Hw Hd. at_key t r; [rewrite plus_eq in Hd; lia|]. rewrite plus_ne in Hd by done. eauto.
  - assert (forall t u k, t ∈ node_outstanding_requests u -> k ∈ l -> nodes !! k = Some u ->
      exists v, <[r := q]> reqs !! t = Some v /\ req_node v = k) as Hold.
    { intros t u k Ht Hk Hu. destruct (ro_outstanding k u Hk Hu) as [_ Hall]. destruct (Hall t Ht) as (v & Hv & ?).
      exists v. rewrite lookup_insert_ne; [done|]. congruence. }
    intros k m Hk Hm. at_key k p.
    + injection Hm as <-. cbn. destruct (ro_outstanding p n Hp Hn) as [Hnd Hall]. split.
      * apply NoDup_app. split_and!; [done| |apply NoDup_singleton]. intros t Ht ->%list_elem_of_singleton.
        destruct (Hall r Ht) as (? & ? & _). congruence.
      * intros t [Ht| ->%list_elem_of_singleton]%elem_of_app; [by eapply Hold|]. exists q. by rewrite lookup_insert_eq.
    + destruct (ro_outstanding k m Hk Hm) as [Hnd _]. split; [done|]. intros t Ht. by eapply Hold.
  - intros t u Hu. at_key t r; [|eauto]. injection Hu as <-. lia.
Qed.

Lemma outstanding_same r q q' : reqs !! r = Some q -> req_node q' = req_node q ->
  forall p n, p ∈ l -> nodes !! p = Some n -> NoDup (node_outstanding_requests n) /\
    forall t, t ∈ node_outstanding_requests n -> exists u, <[r := q']> reqs !! t = Some u /\ req_node u = p.
Proof.
  intros Hq E p n Hp Hn. destruct (ro_outstanding _ _ _ _ _ _ H p n Hp Hn) as [Hnd Hall]. split; [done|].
  intros t Ht. destruct (Hall t Ht) as (u & Hu & Hup). at_key t r; [|by exists u]. exists q'. split; [done|]. congruence.
Qed.

(** What is not counted may change. *)
Lemma reqs_ok_same r q q' : reqs !! r = Some q -> req_ref_count q' = req_ref_count q ->
  req_node q' = req_node q -> req_cb q' = req_cb q -> req_is_cancelled q' = req_is_cancelled q ->
  reqs_ok δ wait nodes (<[r := q']> reqs) fleets l.
Proof.
  intros Hq E1 E2 E3 E4. destruct H. split; try done.
  - intros t u Hu. at_key t r; [|auto]. injection Hu as <-. rewrite E1, E2, E4. auto.
  - intros t. rewrite is_Some_update by done. auto.
  - intros t Ht. apply ro_dead. apply lookup_insert_None in Ht. tauto.
  - intros f x Hx. destruct (ro_entries f x Hx) as [Hnd Hall]. split; [done|]. intros s Hs.
    destruct (Hall s Hs) as (? & u & Hu & Hcb). split; [done|].
    destruct (decide (sr_agent_req s = r)) as [Hsr|]; [|exists u; by rewrite lookup_insert_ne].
    exists q'. rewrite Hsr in *. rewrite lookup_insert_eq. split; [done|]. congruence.
  - intros t u f Hu Hcb. at_key t r; [|eauto]. injection Hu as <-. rewrite E3 in Hcb. eauto.
  - by eapply outstanding_same.
  - intros t u Hu. at_key t r; [|eauto]. injection Hu as <-. rewrite E1. eauto.
Qed.

(** A request that nobody but the handler refers to. *)
Lemma reqs_ok_unshared r q : reqs !! r = Some q -> req_ref_count q = δ r ->
  wait r = 0 /\ sum_map (entries_of r) fleets = 0.
Proof.
  intros Hq Hr. destruct (ro_request _ _ _ _ _ _ H r q Hq) as (_ & _ & _ & Href).
  destruct (ro_wait _ _ _ _ _ _ H r) as [Hw _].
  assert (0 <= sum_map (entries_of r) fleets) by (apply sum_map_nonneg; intros; unfold entries_of; lia). lia.
Qed.
Lemma not_in_entries r f x : sum_map (entries_of r) fleets = 0 -> fleets !! f = Some x ->
  r ∉ sr_agent_req <$> fl_sub_req x.
Proof.
  clear H. intros H0 Hx. apply count_zero. pose proof (sum_map_pos (entries_of r) fleets f x) as Hp.
  assert (entries_of r x <= 0) as Hle. { rewrite <- H0. apply Hp; [|done]. intros. unfold entries_of. lia. }
  unfold entries_of in Hle. lia.
Qed.
Lemma done_of_away wait1 wait2 r x : r ∉ sr_agent_req <$> fl_sub_req x ->
  (forall t, t <> r -> wait2 t = wait1 t) -> done_of wait2 x = done_of wait1 x.
Proof.
  clear H. intros Hr Hw. unfold done_of. do 2 f_equal. apply List.filter_ext_in. intros s Hs%list_elem_of_In.
  rewrite Hw; [done|]. intros <-. apply Hr. apply list_elem_of_fmap. by exists s.
Qed.

(** The request is sent. *)
Lemma reqs_ok_started wait' r q q' : reqs !! r = Some q -> req_ref_count q = δ r -> 1 <= δ r ->
  req_ref_count q' = req_ref_count q + 1 -> req_node q' = req_node q -> req_cb q' = req_cb q ->
  req_is_cancelled q' = req_is_cancelled q -> wait' r = 1 -> (forall t, t <> r -> wait' t = wait t) ->
  reqs_ok δ wait' nodes (<[r := q']> reqs) fleets l.
Proof.
  intros Hq Hr Hδ E1 E2 E3 E4 Hw Hw'. destruct (reqs_ok_unshared r q Hq Hr) as [H0 H1]. destruct H. split.
  - intros t u Hu. at_key t r.
    + injection Hu as <-. rewrite E1, E2, E4, Hw, H1. destruct (ro_request r q Hq) as (? & ? & ? & ?). split_and!; try done. lia.
    + rewrite Hw' by done. auto.
  - intros t. rewrite is_Some_update by done. auto.
  - intros t. destruct (decide (t = r)) as [->|]; [lia|]. rewrite Hw' by done. auto.
  - intros t [Ht Hne]%lookup_insert_None. rewrite Hw' by done. auto.
  - intros f x Hx. destruct (ro_entries f x Hx) as [Hnd Hall]. split; [done|]. intros s Hs.
    destruct (Hall s Hs) as (? & u & Hu & Hcb). split; [done|]. exists u. split; [|done]. rewrite lookup_insert_ne; [done|].
    intros Hsr. apply (not_in_entries r f x H1 Hx). apply list_elem_of_fmap. by exists s.
  - intros f x Hx. rewrite (done_of_away wait wait' r); [by eauto|by eapply not_in_entries|done].
  - intros t u f Hu Hcb Ht Hd. at_key t r; [lia|]. rewrite Hw' in Ht by done. eauto.
  - by eapply outstanding_same.
  - intros t u Hu. at_key t r; [|eauto]. injection Hu as <-. specialize (ro_positive r q Hq). lia.
Qed.

(** The handler gives up a reference. *)
Lemma reqs_ok_dropped r q q' : reqs !! r = Some q -> 1 <= δ r -> req_ref_count q <> 1 ->
  req_ref_count q' = req_ref_count q - 1 -> req_node q' = req_node q -> req_cb q' = req_cb q ->
  req_is_cancelled q' = req_is_cancelled q ->
  (forall f, req_cb q = agent_fleet_request_callback f -> wait r = 0) ->
  reqs_ok (plus r (-1) δ) wait nodes (<[r := q']> reqs) fleets l.
Proof.
  intros Hq Hδ Hne E1 E2 E3 E4 Hf. destruct H. split; try done.
  - intros t u Hu. at_key t r; [|rewrite plus_ne by done; auto]. injection Hu as <-. rewrite plus_eq, E1, E2, E4.
    destruct (ro_request r q Hq) as (? & ? & ? & ?). split_and!; try done. lia.
  - intros t. rewrite is_Some_update by done. destruct (ro_held t). split; [by apply plus_pred|].
    intros [[-> _]|[_ Ht]]%plus_elim; eauto.
  - intros t [Ht _]%lookup_insert_None. auto.
  - intros f x Hx. destruct (ro_entries f x Hx) as [Hnd Hall]. split; [done|]. intros s Hs.
    destruct (Hall s Hs) as (? & u & Hu & Hcb). split; [done|].
    destruct (decide (sr_agent_req s = r)) as [Hsr|]; [|exists u; by rewrite lookup_insert_ne].
    exists q'. rewrite Hsr in *. rewrite lookup_insert_eq. split; [done|]. congruence.
  - intros t u f Hu Hcb Ht Hd. at_key t r; [|rewrite plus_ne in Hd by done; eauto].
    injection Hu as <-. rewrite E3 in Hcb. rewrite (Hf f Hcb) in Ht. lia.
  - by eapply outstanding_same.
  - intros t u Hu. at_key t r; [|eauto]. injection Hu as <-. specialize (ro_positive r q Hq). lia.
Qed.
Lemma reqs_ok_gone r q p n n' : reqs !! r = Some q -> 1 <= δ r -> req_ref_count q = 1 -> req_node q = p ->
  nodes !! p = Some n -> node_outstanding_requests n' = remove_first r (node_outstanding_requests n) ->
  reqs_ok (plus r (-1) δ) wait (<[p := n']> nodes) (delete r reqs) fleets l.
Proof.
  intros Hq Hδ Hone Hp Hn Ho. destruct (ro_request _ _ _ _ _ _ H r q Hq) as (_ & _ & _ & Href).
  destruct (ro_wait _ _ _ _ _ _ H r) as [Hw _].
  assert (0 <= sum_map (entries_of r) fleets) as Hs by (apply sum_map_nonneg; intros; unfold entries_of; lia).
  assert (wait r = 0 /\ sum_map (entries_of r) fleets = 0 /\ δ r = 1) as (Hw0 & Hs0 & Hd0) by lia.
  destruct H. split; try done.
  - intros t u [Hne Hu]%lookup_delete_Some. rewrite plus_ne by done.
    destruct (ro_request t u Hu) as (? & Hout & ? & ?). split_and!; try done. intros m Hm.
    destruct (decide (req_node u = p)) as [Hup|]; [|rewrite lookup_insert_ne in Hm by done; auto].
    rewrite Hup, lookup_insert_eq in Hm. injection Hm as <-. rewrite Ho. apply remove_first_ne; [done|].
    apply Hout. by rewrite Hup.
  - intros t. destruct (ro_held t). split; [by apply plus_pred|].
    intros [[-> ?]|[? ?]]%plus_elim; [lia|]. rewrite lookup_delete_ne by done. auto.
  - intros t Ht. destruct (decide (t = r)) as [->|]; [done|]. rewrite lookup_delete_ne in Ht by done. auto.
  - intros f x Hx. destruct (ro_entries f x Hx) as [Hnd Hall]. split; [done|]. intros s Hs'.
    destruct (Hall s Hs') as (? & u & Hu & Hcb). split; [done|]. exists u. split; [|done]. rewrite lookup_delete_ne; [done|].
    intros ->. apply (not_in_entries _ f x Hs0 Hx). apply list_elem_of_fmap. by exists s.
  - intros t u f [Hne Hu]%lookup_delete_Some Hcb Ht Hd. rewrite plus_ne in Hd by done. eauto.
  - intros k m Hk Hm. at_key k p.
    + injection Hm as <-. rewrite Ho. destruct (ro_outstanding p n Hk Hn) as [Hnd Hall]. split; [by apply remove_first_nodup|].
      intros t [Ht Hne]%(elem_of_remove_first r t _ Hnd). rewrite lookup_delete_ne by done. auto.
    + destruct (ro_outstanding k m Hk Hm) as [Hnd Hall]. split; [done|]. intros t Ht.
      destruct (Hall t Ht) as (v & Hv & Hvk). exists v. rewrite lookup_delete_ne; [done|]. congruence.
  - intros t u [_ Hu]%lookup_delete_Some. eauto.
Qed.
End reqs_ok.

(** Requests that start jobs refer to set-ups. *)
Definition hold_cb (cb : agent_callback) (k : Z) (δ : ptr -> Z) : ptr -> Z :=
  match cb with unit_lifecycle_method_callback s => plus s k δ | _ => δ end.

Section jobs_reqs.
Context {δj δs : ptr -> Z} {jobs : gmap ptr Job} {setups : gmap ptr JobSetup} {reqs : gmap ptr AgentRequest}.
Context {l nodes : list ptr} (H : jobs_ok δj δs jobs setups reqs l nodes).

Lemma will_start_cb s q s' : req_cb q = unit_lifecycle_method_callback s' -> will_start s q = bool_decide (s = s').
Proof. intros Hcb. unfold will_start. by rewrite Hcb. Qed.

Lemma jobs_ok_request r q : reqs !! r = None ->
  (forall s, req_cb q = unit_lifecycle_method_callback s -> 1 <= δs s) ->
  jobs_ok δj (hold_cb (req_cb q) (-1) δs) jobs setups (<[r := q]> reqs) l nodes.
Proof.
  intros Hr Hs. destruct H. destruct (req_cb q) as [| | | | |s|] eqn:Hcb; cbn [hold_cb].
  6:{ assert (is_Some (setups !! s)) as Hsome by (destruct (jo_held s) as (_ & _ & _ & Hh); by apply Hh, Hs).
      split; try done.
      - intros t x Hx. rewrite count_map_insert by done. rewrite (will_start_cb t q s Hcb).
        destruct (jo_setup t x Hx) as (Ht & ?). split; [|done]. destruct (decide (t = s)) as [->|Hne].
        + rewrite plus_eq, bool_decide_eq_true_2 by done. cbn. lia.
        + rewrite plus_ne, bool_decide_eq_false_2 by done. cbn. lia.
      - intros t u s' Hu Hcb'. at_key t r; [|eauto]. injection Hu as <-. congruence.
      - intros t. destruct (jo_held t) as (? & ? & ? & ?). split_and!; [done|apply plus_pred; auto|done|].
        intros [[-> _]|[_ ?]]%plus_elim; auto. }
  all: split; try done;
    [intros t x Hx; rewrite count_map_insert by done; unfold will_start; rewrite Hcb; cbn; auto
    |intros t u s' Hu Hcb'; at_key t r; [congruence|eauto]].
Qed.
Lemma jobs_ok_same_cb r q q' : reqs !! r = Some q -> req_cb q' = req_cb q ->
  jobs_ok δj δs jobs setups (<[r := q']> reqs) l nodes.
Proof.
  intros Hq Hcb. destruct H. split; try done.
  - intros t x Hx. rewrite (count_map_update _ _ r q) by done. unfold will_start at 2 3. rewrite Hcb.
    destruct (jo_setup t x Hx) as (? & ?). split; [lia|done].
  - intros t u s Hu Hs. at_key t r; [|eauto]. injection Hu as <-. rewrite Hcb in Hs. eauto.
Qed.
Lemma jobs_ok_gone r q : reqs !! r = Some q ->
  jobs_ok δj (hold_cb (req_cb q) 1 δs) jobs setups (delete r reqs) l nodes.
Proof.
  intros Hq. destruct H.
  assert (forall t u s', delete r reqs !! t = Some u -> req_cb u = unit_lifecycle_method_callback s' -> is_Some (setups !! s')) as Hreq.
  { intros t u s' [_ Hu]%lookup_delete_Some. eauto. }
  destruct (req_cb q) as [| | | | |s|] eqn:Hcb; cbn [hold_cb].
  6:{ split; try done.
      - intros t x Hx. rewrite (count_map_delete _ _ r q) by done. rewrite (will_start_cb t q s Hcb).
        destruct (jo_setup t x Hx) as (Ht & ?). split; [|done]. destruct (decide (t = s)) as [->|Hne].
        + rewrite plus_eq, bool_decide_eq_true_2 by done. cbn. lia.
        + rewrite plus_ne, bool_decide_eq_false_2 by done. cbn. lia.
      - intros t. destruct (jo_held t) as (? & ? & ? & ?). split_and!; try done.
        + unfold plus. destruct (decide (t = s)); lia.
        + intros [[-> _]|[_ ?]]%plus_elim; eauto. }
  all: split; try done;
    intros t x Hx; rewrite (count_map_delete _ _ r q) by done; unfold will_start at 2; rewrite Hcb; cbn;
    rewrite Z.sub_0_r; auto.
Qed.
End jobs_reqs.

(** ** The steps of a request *)

Section work.
Context {E : Env}.

Lemma inv_work h h' a p n n' reqs w : controller_inv h a w -> p ∈ c_nodes (w_controller w) ->
  w_nodes w !! p = Some n -> node_name n' = node_name n -> node_object_path n' = node_object_path n ->
  node_unit_subscriptions n' = node_unit_subscriptions n -> node_proxy_monitors n' = node_proxy_monitors n ->
  refs_ok (h_node h') (<[p := n']> (w_nodes w)) (c_nodes (w_controller w)) reqs (w_proxies w) (w_fleets w) ->
  jobs_ok (h_job h') (h_setup h') (w_jobs w) (w_setups w) reqs (c_jobs (w_controller w)) (c_nodes (w_controller w)) ->
  reqs_ok (h_req h') (req_wait a w) (<[p := n']> (w_nodes w)) reqs (w_fleets w) (c_nodes (w_controller w)) ->
  h_monitor h' = h_monitor h -> h_proxy h' = h_proxy h -> h_fleet h' = h_fleet h ->
  (forall q, (w_next_ptr w <= q)%positive -> reqs !! q = None) ->
  controller_inv h' a (w <| w_nodes ::= <[p := n']> |> <| w_reqs := reqs |>).
Proof.
  intros [Hreg I] Hp Hn E1 E2 E3 E4 Hrefs Hjobs Hreqs E5 E6 E7 Hf1.
  split; [apply (registry_ok_same (store_upd (T := Node) <[p := n']> w)); try done; by apply (registry_ok_update p n)|].
  assert (node_name n <> None) as Hnamed.
  { destruct (ok_nodes w Hreg p Hp) as (m & name & Hm & Hname). congruence. }
  pose proof (ci_fresh _ _ _ I) as Hf. pose proof (fresh_update (fr_nodes _ Hf) p n n' Hn) as Hf2.
  destruct I. split; rewrite ?E5, ?E6, ?E7; try assumption.
  - by apply (nodes_ok_update _ _ _ _ p n).
  - by apply (proxies_ok_update _ _ _ _ _ _ _ _ p n).
  - by destruct Hf.
Qed.


(** Requests that are not counted differently. *)
Lemma inv_same_req h a r q q' w : controller_inv h a w -> w_reqs w !! r = Some q ->
  req_ref_count q' = req_ref_count q -> req_node q' = req_node q -> req_cb q' = req_cb q ->
  req_is_cancelled q' = req_is_cancelled q ->
  controller_inv h a (store_upd (T := AgentRequest) <[r := q']> w).
Proof.
  intros [Hreg I] Hq E1 E2 E3 E4. split; [by apply (registry_ok_same w)|].
  pose proof (ci_fresh _ _ _ I) as Hf. pose proof (fresh_update (fr_reqs _ Hf) r q q' Hq) as Hf'.
  destruct I. split; try assumption; cbn.
  - intros p n Hp Hn. specialize (ci_refs p n Hp Hn). unfold node_owners in *.
    rewrite (count_map_update _ _ r q) by done. unfold asks_node at 2 3. rewrite E2. lia.
  - by apply (jobs_ok_same_cb ci_jobs r q).
  - by apply (reqs_ok_same ci_reqs r q).
  - by destruct Hf.
Qed.

Definition hold_user (cb : agent_callback) (k : Z) (h : held) : held := h <| h_setup ::= hold_cb cb k |>.

Lemma inv_created h a p n q w : controller_inv h a w -> p ∈ c_nodes (w_controller w) -> w_nodes w !! p = Some n ->
  req_ref_count q = 1 -> req_node q = p -> req_is_cancelled q = false ->
  (forall s, req_cb q = unit_lifecycle_method_callback s -> 1 <= h_setup h s) ->
  controller_inv (hold_req (w_next_ptr w) 1 (hold_user (req_cb q) (-1) h)) a (with_request p n q w).
Proof.
  intros I Hp Hn E1 E2 E3 Hs. set (r := w_next_ptr w). set (w0 := w <| w_next_ptr ::= Pos.succ |>).
  assert (controller_inv h a w0) as I0.
  { eapply controller_inv_still; [|exact I]. apply calm_stores; try done. cbn. lia. }
  pose proof (ci_fresh _ _ _ I) as Hf.
  assert (w_reqs w !! r = None) as Hr by (apply (fr_reqs _ Hf); unfold r; lia).
  set (n' := n <| node_ref_count ::= Z.succ |> <| node_outstanding_requests ::= fun o => o ++ [r] |>).
  pose proof (inv_work h (hold_req r 1 (hold_user (req_cb q) (-1) h)) a p n n' (<[r := q]> (w_reqs w)) w0 I0 Hp Hn
    eq_refl eq_refl eq_refl eq_refl) as H.
  unfold with_request, set_node. destruct w. apply H; try done; cbn in *.
  - intros t m Ht Hm. unfold node_owners. rewrite count_map_insert by done. unfold asks_node at 1. rewrite E2.
    at_key t p.
    + injection Hm as <-. rewrite bool_decide_eq_true_2 by done. pose proof (ci_refs _ _ _ I p n Hp Hn) as Ho.
      unfold node_owners in Ho. cbn in *. lia.
    + rewrite bool_decide_eq_false_2 by congruence. pose proof (ci_refs _ _ _ I t m Ht Hm) as Ho.
      unfold node_owners in Ho. cbn in *. lia.
  - by apply (jobs_ok_request (ci_jobs _ _ _ I)).
  - by apply (reqs_ok_new (ci_reqs _ _ _ I)).
  - intros t Ht. rewrite lookup_insert_ne by (unfold r; lia). apply (fr_reqs _ Hf). cbn. lia.
Qed.
End work.

Section steps.
Context {E : Env} (Hnf : no_local_failure E).

(** What these steps leave alone. *)
Definition same_rest (w w' : World) : Prop :=
  w_jobs w' = w_jobs w /\ w_setups w' = w_setups w /\ w_fleets w' = w_fleets w /\ w_controller w' = w_controller w.
#[local] Instance same_rest_preorder : PreOrder same_rest.
Proof.
  split; [done|]. intros w1 w2 w3 (? & ? & ? & ?) (? & ? & ? & ?). split_and!; congruence.
Qed.

Lemma inv_create_request h a p method cb Q w : controller_inv h a w -> p ∈ c_nodes (w_controller w) ->
  (forall s, cb = unit_lifecycle_method_callback s -> 1 <= h_setup h s) ->
  (forall r w', controller_inv h a w' -> same_rest w w' -> Q (r, None) w') ->
  (forall r q w', controller_inv (hold_req r 1 (hold_user cb (-1) h)) a w' -> same_rest w w' ->
     w_reqs w' !! r = Some q -> req_ref_count q = 1 -> req_node q = p -> req_cb q = cb ->
     h_req h r = 0 -> Q (0, Some r) w') ->
  wp (node_create_request p method cb) Q w.
Proof.
  intros I Hp Hs HQ1 HQ2. destruct (listed_node I p Hp) as (n & _ & _ & Hn & _). unfold node_create_request.
  wp_one. wp_one. rewrite local_ok_true by done. cbn [negb]. wp_one. eapply wp_load; [exact Hn|].
  destruct (node_agent_bus n) as [b|].
  2:{ wp_one. wp_one. apply wp_ret, HQ1; [by apply inv_ticked|done]. }
  wp_one. apply (wp_local_nf Hnf). intros r ->. unfold node_ref. wp_one. wp_one. eapply wp_update; [exact Hn|].
  apply wp_ret. wp_one. wp_one. wp_one. eapply wp_load; [apply lookup_insert_eq|].
  wp_one. unfold update_requests. eapply wp_update_node; [apply lookup_insert_eq|]. apply wp_ret.
  set (q := mkAgentRequest 1 p false method [] cb false).
  set (w2 := tick (tick w)). assert (controller_inv h a w2) as I2 by by do 2 apply inv_ticked.
  pose proof (inv_created h a p n q w2 I2 Hp Hn eq_refl eq_refl eq_refl Hs) as I3.
  match goal with |- Q _ ?v => assert (v = with_request p n q w2) as -> end.
  { unfold with_request, set_node. unfold w2. destruct w; cbn. f_equal. by rewrite insert_insert_eq. }
  eapply (HQ2 _ q); try done; [apply lookup_insert_eq|].
  destruct (ro_held _ _ _ _ _ _ (ci_reqs _ _ _ I) (w_next_ptr w)) as [H0 H1].
  assert (w_reqs w !! w_next_ptr w = None) as Hr by (apply (fr_reqs _ (ci_fresh _ _ _ I)); lia).
  change (h_req h (w_next_ptr w) = 0). destruct (decide (1 <= h_req h (w_next_ptr w))) as [Hd|]; [|lia].
  destruct (H1 Hd). congruence.
Qed.

Lemma inv_append h a r parts : forall q w Q, controller_inv h a w -> w_reqs w !! r = Some q ->
  (forall q' w', controller_inv h a w' -> same_rest w w' -> w_reqs w' !! r = Some q' ->
     req_ref_count q' = req_ref_count q -> req_node q' = req_node q -> req_cb q' = req_cb q -> Q true w') ->
  wp (append_parts r parts) Q w.
Proof.
  induction parts as [|part parts IH]; intros q w Q I Hq HQ; cbn [append_parts].
  - apply wp_ret. by eapply HQ.
  - wp_one. unfold agent_request_append. wp_one. apply (wp_local_nf Hnf). intros x Hx. rewrite Hx.
    wp_one. eapply wp_update; [exact Hq|]. apply wp_ret. rewrite Hx.
    eapply IH; [|apply lookup_insert_eq|].
    + eapply inv_same_req; [by apply inv_ticked|exact Hq|done..].
    + intros q' w' I' Hsame Hq' E1 E2 E3. by eapply (HQ q').
Qed.

(** A call that could not be made awaits nothing. *)
Lemma calm_emit_unasked U c w : (forall b, asks_by c (Datatypes.length (w_trace w)) b = 0) -> calm U w (emit c w).
Proof.
  intros Hc. assert (forall b, asks b (emit c w) = asks b w) as Ha by (intros b; rewrite asks_emit, Hc; lia).
  split; try done; try (intros b; by rewrite Ha).
  - cbn. intros. congruence.
  - intros p. unfold credit. by rewrite Ha.
Qed.

Lemma req_wait_emit a c w r : req_wait a (emit c w) r = req_wait a w r + asks_by c (Datatypes.length (w_trace w)) (AnswerTo r).
Proof. unfold req_wait. rewrite asks_emit. lia. Qed.

Lemma inv_started h a r q q' b method args w :
  let c := AgentCallAsync b method args r in
  controller_inv h a w -> w_reqs w !! r = Some q -> req_ref_count q = h_req h r -> 1 <= h_req h r ->
  bus_result (Datatypes.length (w_trace w)) c <? 0 = false ->
  req_ref_count q' = req_ref_count q + 1 -> req_node q' = req_node q -> req_cb q' = req_cb q ->
  req_is_cancelled q' = req_is_cancelled q ->
  controller_inv h a (store_upd (T := AgentRequest) <[r := q']> (emit c w)) /\ req_wait a (emit c w) r = 1.
Proof.
  intros c [Hreg I] Hq Hr Hd Hbus E1 E2 E3 E4.
  assert (forall d, asks_by c (Datatypes.length (w_trace w)) d = if decide (d = AnswerTo r) then 1 else 0) as Hasks.
  { intros d. unfold asks_by, awaits. rewrite Hbus. cbn. rewrite count_cons. by case_decide. }
  destruct (reqs_ok_unshared (ci_reqs _ _ _ I) r q Hq Hr) as [Hw0 _].
  assert (req_wait a (emit c w) r = 1) as Hw1 by (rewrite req_wait_emit, Hasks, decide_True by done; lia).
  assert (forall t, t <> r -> req_wait a (emit c w) t = req_wait a w t) as Hw2.
  { intros t Ht. rewrite req_wait_emit, Hasks, decide_False by congruence. lia. }
  assert (forall p, asks (AnswerToProxy p) (emit c w) = asks (AnswerToProxy p) w) as Hp.
  { intros p. rewrite asks_emit, Hasks, decide_False by done. lia. }
  split; [|done]. split; [by apply (registry_ok_same w)|].
  pose proof (ci_fresh _ _ _ I) as Hf. pose proof (fresh_update (fr_reqs _ Hf) r q q' Hq) as Hf'.
  destruct I. split; try assumption.
  - intros p n Hpn Hn. specialize (ci_refs p n Hpn Hn). unfold node_owners in *. cbn in *.
    rewrite (count_map_update _ _ r q) by done. unfold asks_node at 2 3. rewrite E2. lia.
  - by apply (jobs_ok_same_cb ci_jobs r q).
  - by apply (reqs_ok_started ci_reqs (req_wait a (emit c w)) r q).
  - destruct ci_proxies. split; try done.
    + intros p x Hx. destruct (po_proxy p x Hx) as (? & ? & ? & ? & Hroom). split_and!; try done.
      change (bit (pm_up (h_proxy h) (w_nodes w) p x) <= proxy_room a (emit c w) p).
      unfold proxy_room, credit in *. rewrite Hp. exact Hroom.
    + intros p. change (0 <= proxy_wait a (emit c w) p). unfold proxy_wait. rewrite Hp. apply po_wait.
    + intros p Hpn. change (proxy_wait a (emit c w) p = 0). unfold proxy_wait. rewrite Hp. by apply po_dead.
  - by destruct Hf.
Qed.

Lemma inv_request_start h a r q Q w : controller_inv h a w -> w_reqs w !! r = Some q ->
  req_ref_count q = h_req h r -> 1 <= h_req h r ->
  (forall x w', controller_inv h a w' -> same_rest w w' -> w_reqs w' !! r = Some q -> x <? 0 = true -> Q x w') ->
  (forall q' w', controller_inv h a w' -> same_rest w w' -> w_reqs w' !! r = Some q' ->
     req_ref_count q' = req_ref_count q + 1 -> req_node q' = req_node q -> req_cb q' = req_cb q ->
     req_wait a w' r = 1 -> Q 1 w') ->
  wp (agent_request_start r) Q w.
Proof.
  intros I Hq Hr Hd HQ1 HQ2. destruct (ro_request _ _ _ _ _ _ (ci_reqs _ _ _ I) r q Hq) as (Hp & _).
  destruct (listed_node I _ Hp) as (n & _ & _ & Hn & _). unfold agent_request_start.
  wp_one. eapply wp_load; [exact Hq|]. wp_one. eapply wp_load; [exact Hn|]. wp_one.
  destruct (node_agent_bus n) as [b|].
  2:{ apply wp_ret. change (- ENOTCONN <? 0) with true. cbn iota. apply wp_ret. by apply HQ1. }
  wp_one. set (c := AgentCallAsync _ _ _ _). destruct (bus_result _ c <? 0) eqn:Hb.
  - apply wp_ret. apply HQ1; try done. eapply controller_inv_still; [|exact I]. apply calm_emit_unasked.
    intros d. unfold asks_by, awaits. by rewrite Hb.
  - wp_one. eapply wp_update; [exact Hq|]. unfold agent_request_ref. wp_one. wp_one.
    eapply wp_update; [apply lookup_insert_eq|]. apply wp_ret, wp_ret.
    rewrite store_insert_insert. set (q' := field_update req_ref_count Z.succ _).
    destruct (inv_started h a r q q' b (req_method q) (req_args q) w I Hq Hr Hd Hb) as [I' Hw]; try done.
    eapply (HQ2 q'); try done. apply lookup_insert_eq.
Qed.

(** The state when a reference to a request has been dropped, but for what it owned. *)
Definition request_dropped (r : ptr) (q : AgentRequest) (n : Node) (w : World) : World :=
  if req_ref_count q =? 1 then without_request r (req_node q) n w
  else w <| w_reqs ::= <[r := q <| req_ref_count ::= Z.pred |>]> |>.

Lemma wp_request_dropped r q n Q w : w_reqs w !! r = Some q -> w_nodes w !! req_node q = Some n ->
  r ∈ node_outstanding_requests n -> 2 <= node_ref_count n ->
  (forall s, req_cb q = unit_lifecycle_method_callback s -> req_ref_count q <> 1) ->
  Q tt (request_dropped r q n w) -> wp (agent_request_unref r) Q w.
Proof.
  intros Hq Hn Hout Href Hcb HQ. unfold request_dropped in HQ. destruct (req_ref_count q =? 1) eqn:E1.
  - apply Z.eqb_eq in E1. eapply wp_agent_request_unref_zero; [exact Hq|exact E1|].
    assert (free_userdata (req_cb q) = mret tt) as ->.
    { destruct (req_cb q) as [| | | | |s|]; try done. by destruct (Hcb s eq_refl). }
    apply wp_ret. exists n. rewrite without_request_insert. split_and!; [exact Hn| |done..].
    eexists. apply lookup_insert_eq.
  - apply Z.eqb_neq in E1. unfold agent_request_unref. wp_one. eapply wp_update; [exact Hq|]. wp_one.
    eapply wp_load; [apply lookup_insert_eq|]. cbn [req_ref_count field_update].
    replace (Z.pred (req_ref_count q) =? 0) with false by (symmetry; apply Z.eqb_neq; lia). by apply wp_ret.
Qed.

Lemma asks_two h a r q w : controller_inv h a w -> w_reqs w !! r = Some q -> 0 <= h_node h (req_node q) ->
  forall n, w_nodes w !! req_node q = Some n -> 2 <= node_ref_count n.
Proof.
  intros I Hq Hh n Hn. destruct (ro_request _ _ _ _ _ _ (ci_reqs _ _ _ I) r q Hq) as (Hp & _).
  pose proof (ci_refs _ _ _ I _ n Hp Hn) as H. unfold node_owners in H.
  assert (1 <= count_map (asks_node (req_node q)) (w_reqs w)).
  { apply (count_map_pos _ _ r q Hq). unfold asks_node. by apply bool_decide_eq_true_2. }
  pose proof (count_map_nonneg (aims_at (req_node q)) (w_proxies w)).
  assert (0 <= sum_map (entries_on (req_node q)) (w_fleets w)) by (apply sum_map_nonneg; intros; unfold entries_on; lia).
  lia.
Qed.

Lemma inv_request_dropped h a r q n w : controller_inv h a w -> 1 <= h_req h r -> w_reqs w !! r = Some q ->
  w_nodes w !! req_node q = Some n ->
  (forall f, req_cb q = agent_fleet_request_callback f -> req_ref_count q <> 1 -> req_wait a w r = 0) ->
  controller_inv (hold_req r (-1) (if req_ref_count q =? 1 then hold_user (req_cb q) 1 h else h)) a
    (request_dropped r q n w).
Proof.
  intros I Hh Hq Hn Hw. pose proof (ci_fresh _ _ _ I) as Hf.
  destruct (ro_request _ _ _ _ _ _ (ci_reqs _ _ _ I) r q Hq) as (Hp & _). unfold request_dropped.
  destruct (req_ref_count q =? 1) eqn:E1; [apply Z.eqb_eq in E1|apply Z.eqb_neq in E1].
  - set (n' := n <| node_outstanding_requests ::= remove_first r |> <| node_ref_count ::= Z.pred |>).
    pose proof (inv_work h (hold_req r (-1) (hold_user (req_cb q) 1 h)) a (req_node q) n n' (delete r (w_reqs w)) w I Hp Hn
      eq_refl eq_refl eq_refl eq_refl) as H.
    unfold without_request, set_node. destruct w. apply H; try done; cbn in *.
    + intros t m Ht Hm. unfold node_owners. rewrite (count_map_delete _ _ r q) by done. unfold asks_node at 2.
      at_key t (req_node q).
      * injection Hm as <-. rewrite bool_decide_eq_true_2 by done. pose proof (ci_refs _ _ _ I _ n Hp Hn) as Ho.
        unfold node_owners in Ho. cbn in *. lia.
      * rewrite bool_decide_eq_false_2 by congruence. pose proof (ci_refs _ _ _ I t m Ht Hm) as Ho.
        unfold node_owners in Ho. cbn in *. lia.
    + by apply (jobs_ok_gone (ci_jobs _ _ _ I)).
    + by apply (reqs_ok_gone (ci_reqs _ _ _ I) r q _ n).
    + apply (fresh_delete (fr_reqs _ Hf)).
  - set (q' := q <| req_ref_count ::= Z.pred |>). destruct I as [Hreg I].
    split; [by apply (registry_ok_same w)|]. pose proof (fresh_update (fr_reqs _ Hf) r q q' Hq) as Hf'.
    destruct I. split; try assumption; cbn.
    + intros p m Hpm Hm. specialize (ci_refs p m Hpm Hm). unfold node_owners in *. cbn in *.
      rewrite (count_map_update _ _ r q) by done. change (asks_node p q') with (asks_node p q). lia.
    + by apply (jobs_ok_same_cb ci_jobs r q).
    + apply (reqs_ok_dropped ci_reqs r q); try done. intros f Hcb. by apply (Hw f).
    + by destruct Hf.
Qed.
End steps.
