(* ===== verification/ControllerFleets.v ===== *)
(** Methods that send a request to one agent or to all agents, and the answers of agents,
    keep the invariant of the controller. *)
From S2P Require Import Prelude CString StringUtil ParseUtil TimeUtil Protocol BusUtils Log Cfg Socket.
From S2P Require Import World Job Events Subscriptions Monitor Proxy Requests Node Controller.
From S2P Require Import ControllerEvents WorldFacts EventFacts RegistryFacts NodeTheorems RequestTheorems FleetTheorems.
From S2P Require Import ControllerInv ControllerSafe ControllerMonitors.
From S2P Require Import ControllerProxies ControllerRequests.
Local Open Scope list_scope.

(** ** Giving up a request *)

Section unref.
Context {E : Env}.

Lemma setup_dropped_insert s x p j r q w :
  setup_dropped s x p j (w <| w_reqs ::= <[r := q]> |>) = (setup_dropped s x p j w) <| w_reqs ::= <[r := q]> |>.
Proof. unfold setup_dropped. by destruct w, (setup_ref_count x =? 1). Qed.
Lemma setup_dropped_without s x p j r k n w :
  without_request r k n (setup_dropped s x p j w) = setup_dropped s x p j (without_request r k n w).
Proof. unfold setup_dropped, without_request, set_node. by destruct w, (setup_ref_count x =? 1). Qed.
Lemma setup_dropped_nodes s x p j w : w_nodes (setup_dropped s x p j w) = w_nodes w.
Proof. unfold setup_dropped. by destruct w, (setup_ref_count x =? 1). Qed.

(** What the release of a request leaves alone. *)
Definition same_lists (w w' : World) : Prop := w_fleets w' = w_fleets w /\ w_controller w' = w_controller w.

Lemma inv_request_unref h a r q w : controller_inv h a w -> 1 <= h_req h r -> (forall p, 0 <= h_node h p) ->
  w_reqs w !! r = Some q ->
  (forall f, req_cb q = agent_fleet_request_callback f -> req_ref_count q <> 1 -> req_wait a w r = 0) ->
  wp (agent_request_unref r) (fun _ w' => controller_inv (hold_req r (-1) h) a w' /\ same_lists w w') w.
Proof.
  intros I Hh Hpos Hq Hw. destruct (ro_request _ _ _ _ _ _ (ci_reqs _ _ _ I) r q Hq) as (Hp & Hout & _).
  destruct (listed_node I _ Hp) as (n & _ & _ & Hn & _). specialize (Hout n Hn).
  pose proof (asks_two h a r q w I Hq (Hpos _) n Hn) as Htwo.
  pose proof (inv_request_dropped h a r q n w I Hh Hq Hn Hw) as I1.
  assert ((req_ref_count q = 1 /\ exists s, req_cb q = unit_lifecycle_method_callback s) \/
    ~ (req_ref_count q = 1 /\ exists s, req_cb q = unit_lifecycle_method_callback s)) as [[Hone [s Hcb]]|Hno].
  { destruct (decide (req_ref_count q = 1)) as [|Hne]; [|right; tauto].
    destruct (req_cb q); first [by right; intros (_ & ? & ?)|left; eauto]. }
  - rewrite Hcb in I1. cbn [hold_user] in I1. unfold request_dropped in I1. rewrite Hone in I1. cbn [Z.eqb Pos.eqb] in I1.
    set (h1 := hold_req r (-1) _) in I1. set (w1 := without_request _ _ _ _) in I1.
    assert (1 <= h_setup h1 s) as Hs.
    { cbn. rewrite plus_eq. destruct (jo_held _ _ _ _ _ _ _ (ci_jobs _ _ _ I) s) as (_ & ? & _). lia. }
    pose proof (ci_jobs _ _ _ I1) as Hok. destruct (jo_held _ _ _ _ _ _ _ Hok s) as (_ & _ & _ & Hsome).
    destruct (Hsome Hs) as [x Hx]. destruct (jo_setup _ _ _ _ _ _ _ Hok s x Hx) as (_ & p & Hxp & [j Hj]).
    pose proof (inv_setup_dropped h1 a s x p j w1 I1 Hs Hx Hxp Hj) as I2.
    eapply wp_agent_request_unref_zero; [exact Hq|exact Hone|]. rewrite Hcb. cbn [free_userdata].
    eapply wp_setup_dropped; [exact Hx|exact Hxp|exact Hj|]. rewrite setup_dropped_insert.
    exists n. split_and!; [by destruct w; cbn in *; rewrite setup_dropped_nodes|eexists; apply lookup_insert_eq|done..| |].
    + rewrite without_request_insert, setup_dropped_without. eapply controller_inv_held; [|exact I2].
      split_and!; try done. intros t. cbn. unfold plus. case_decide; lia.
    + split; unfold setup_dropped; by destruct (setup_ref_count x =? 1).
  - eapply wp_request_dropped; [done..| |].
    + intros s Hcb Hone. apply Hno. split; [done|]. by exists s.
    + split; [|unfold request_dropped; by destruct (req_ref_count q =? 1)].
      destruct (req_ref_count q =? 1) eqn:E1; [|done]. apply Z.eqb_eq in E1.
      replace (hold_user (req_cb q) 1 h) with h in I1; [done|]. unfold hold_user.
      destruct (req_cb q) as [| | | | |s|]; try by destruct h. destruct Hno. split; [done|]. by exists s.
Qed.

Lemma hold_req_back h a r w : controller_inv (hold_req r (-1) (hold_req r 1 h)) a w -> controller_inv h a w.
Proof. apply controller_inv_held. split_and!; try done. intros q. cbn. unfold plus. case_decide; lia. Qed.
Lemma hold_req_pos h r : h_req h r = 0 -> 1 <= h_req (hold_req r 1 h) r.
Proof. intros H. cbn. rewrite plus_eq. lia. Qed.
End unref.

(** ** Sending a request *)

Section sending.
Context {E : Env} (Hnf : no_local_failure E).

Lemma inv_start_request h a m r q parts finish w : controller_inv (hold_req r 1 h) a w -> h_req h r = 0 ->
  (forall p, 0 <= h_node h p) -> w_reqs w !! r = Some q -> req_ref_count q = 1 ->
  (forall f, req_cb q <> agent_fleet_request_callback f) -> (forall w0, runs w0 finish) ->
  wp (start_request m r parts finish) (fun _ w' => controller_inv h a w') w.
Proof.
  intros I H0 Hpos Hq Hone Hcb Hfin.
  assert (forall A (k : CM A) v q', runs v k -> controller_inv (hold_req r 1 h) a v -> w_reqs v !! r = Some q' ->
    req_cb q' = req_cb q -> wp k (fun x v' => wp (agent_request_unref r ;; mret x) (fun _ v2 => controller_inv h a v2) v') v) as Hend.
  { intros A k v q' Hk Iv Hq' Ecb. eapply wp_mono; [by apply (inv_runs _ a k v Iv)|]. cbn beta. intros x v' [Iv' Hc]. wp_one.
    eapply wp_mono; [eapply (inv_request_unref _ a r q' v' Iv'); try done|].
    - by apply hold_req_pos.
    - rewrite (cm_reqs _ _ _ Hc). done.
    - intros f Hf. destruct (Hcb f). congruence.
    - cbn beta. intros _ v2 [I2 _]. apply wp_ret. by apply hold_req_back in I2. }
  unfold start_request. wp_one. wp_one. eapply (inv_append Hnf); [exact I|exact Hq|].
  intros q1 w1 I1 Hs1 Hq1 E1 E2 E3. cbn [negb]. wp_one.
  eapply (inv_request_start (hold_req r 1 h) a r q1 _ w1 I1 Hq1); [cbn; rewrite plus_eq; lia|by apply hold_req_pos| |].
  - intros x w2 I2 Hs2 Hq2 ->. by eapply (Hend _ _ w2 q1); [apply runs_reply_error|..].
  - intros q2 w2 I2 Hs2 Hq2 E4 E5 E6 _. cbn [Z.ltb Z.compare]. apply (Hend _ _ w2 q2); [apply Hfin|done..|congruence].
Qed.

(** The request is listed with the agent, or was not made. *)
Lemma inv_node_request h a p method cb Q w : controller_inv h a w -> p ∈ c_nodes (w_controller w) ->
  (forall p, 0 <= h_node h p) -> (forall s, cb <> unit_lifecycle_method_callback s) ->
  (forall w', controller_inv h a w' -> same_lists w w' -> Q None w') ->
  (forall r q w', controller_inv (hold_req r 1 h) a w' -> same_lists w w' -> w_reqs w' !! r = Some q ->
     req_ref_count q = 2 -> req_node q = p -> req_cb q = cb -> h_req h r = 0 -> req_wait a w' r = 1 ->
     Q (Some r) w') ->
  wp (node_request p method cb) Q w.
Proof.
  intros I Hp Hpos Hcb HQ1 HQ2. destruct (listed_node I p Hp) as (n & _ & _ & Hn & _). unfold node_request.
  assert (forall s, cb = unit_lifecycle_method_callback s -> 1 <= h_setup h s) as Hs by (intros s Hs; by destruct (Hcb s)).
  assert (forall k, hold_user cb k h = h) as Huser.
  { intros k. unfold hold_user. destruct cb as [| | | | |s|]; try by destruct h. by destruct (Hcb s). }
  wp_one. eapply wp_load; [exact Hn|]. destruct (node_has_agent n); cbn [negb]; [|apply wp_ret; by apply HQ1].
  wp_one. eapply (inv_create_request Hnf); [exact I|exact Hp|exact Hs| |].
  { intros r w1 I1 (_ & _ & ? & ?). apply wp_ret. by apply HQ1. }
  intros r q w1 I1 (_ & _ & Ef & Ec) Hq Hone Hqn Hqc H0. rewrite Huser in I1. cbn [snd]. wp_one.
  eapply (inv_request_start (hold_req r 1 h) a r q _ w1 I1 Hq); [cbn; rewrite plus_eq; lia|by apply hold_req_pos| |].
  - intros x w2 I2 (_ & _ & Ef2 & Ec2) Hq2 ->. wp_one.
    eapply wp_mono; [eapply (inv_request_unref _ a r q w2 I2); try done; by apply hold_req_pos|].
    cbn beta. intros _ w3 [I3 [Ef3 Ec3]]. apply wp_ret, HQ1; [by apply hold_req_back in I3|split; congruence].
  - intros q2 w2 I2 (_ & _ & Ef2 & Ec2) Hq2 E4 E5 E6 Hw. cbn [Z.ltb Z.compare]. apply wp_ret.
    eapply (HQ2 r q2); try done; [split; congruence|lia|congruence..].
Qed.
End sending.

(** ** The methods *)

Section methods.
Context {E : Env} (Hnf : no_local_failure E) (a : list answer).

Lemma inv_end {A} h (k : CM A) w : controller_inv h a w -> (forall w0, runs w0 k) ->
  wp k (fun _ w' => controller_inv h a w') w.
Proof. intros I Hk. eapply wp_mono; [by apply (inv_runs h a k w I)|]. by intros x w' [? _]. Qed.
Lemma inv_error h m name w : controller_inv h a w ->
  wp (reply_method_errorf m name) (fun _ w' => controller_inv h a w') w.
Proof. intros I. apply inv_end; [done|]. intros w0. apply runs_reply_error. Qed.

Lemma no_node p : 0 <= h_node nothing p.
Proof. done. Qed.

Lemma inv_node_list method cb m p w : controller_inv nothing a w -> p ∈ c_nodes (w_controller w) ->
  (forall s, cb <> unit_lifecycle_method_callback s) -> (forall f, cb <> agent_fleet_request_callback f) ->
  wp (n ← load (T := Node) p;
      if node_is_shutdown n then reply_method_errorf m SD_BUS_ERROR_FAILED else
      req ← node_request p method cb;
      match req with
      | None => reply_method_errorf m SD_BUS_ERROR_FAILED
      | Some req => agent_request_unref req ;; mret 1
      end) (fun _ w' => controller_inv nothing a w') w.
Proof.
  intros I Hp Hs Hf. destruct (listed_node I p Hp) as (n & _ & _ & Hn & _). wp_one. eapply wp_load; [exact Hn|].
  destruct (node_is_shutdown n); [by apply inv_error|]. wp_one.
  eapply (inv_node_request Hnf nothing); [done..| |]; [intros w1 I1 _; by apply inv_error|].
  intros r q w1 I1 _ Hq _ _ Hcb H0 _. wp_one.
  eapply wp_mono; [eapply (inv_request_unref _ a r q w1 I1); try done; [by apply hold_req_pos|]|].
  - intros f Hfl. destruct (Hf f). congruence.
  - cbn beta. intros _ w2 [I2 _]. apply wp_ret. by apply hold_req_back in I2.
Qed.

Lemma inv_one_request m r q parts finish cb p w : controller_inv (hold_req r 1 (hold_user cb (-1) nothing)) a w ->
  w_reqs w !! r = Some q -> req_ref_count q = 1 -> req_node q = p -> req_cb q = cb ->
  (forall s, cb <> unit_lifecycle_method_callback s) -> (forall f, cb <> agent_fleet_request_callback f) ->
  (forall w0, runs w0 finish) ->
  wp (start_request m r parts finish) (fun _ w' => controller_inv nothing a w') w.
Proof.
  intros I Hq Hone Hqn Hqc Hs Hf Hfin. replace (hold_user cb (-1) nothing) with nothing in I.
  - eapply (inv_start_request Hnf nothing a m r q); try done. intros f ?. destruct (Hf f). congruence.
  - unfold hold_user. destruct cb as [| | | | |s|]; try done. by destruct (Hs s).
Qed.

Lemma inv_set_unit_properties m args p w : controller_inv nothing a w -> p ∈ c_nodes (w_controller w) ->
  wp (node_method_set_unit_properties m args p) (fun _ w' => controller_inv nothing a w') w.
Proof.
  intros I Hp. destruct (listed_node I p Hp) as (n & _ & _ & Hn & _). unfold node_method_set_unit_properties.
  wp_one. eapply wp_load; [exact Hn|]. destruct (node_is_shutdown n); [by apply inv_error|].
  destruct args as [e|[unit runtime]]; [by apply inv_error|]. wp_one.
  eapply (inv_create_request Hnf nothing); [done..| |]; cbn [snd].
  - intros r w1 I1 _. by apply inv_error.
  - intros r q w1 I1 _ Hq Hone Hqn Hqc _. eapply inv_one_request; try done. intros w0. apply runs_ret.
Qed.
Lemma inv_passthrough m member p w : controller_inv nothing a w -> p ∈ c_nodes (w_controller w) ->
  wp (node_method_passthrough_to_agent m member p) (fun _ w' => controller_inv nothing a w') w.
Proof.
  intros I Hp. destruct (listed_node I p Hp) as (n & _ & _ & Hn & _). unfold node_method_passthrough_to_agent.
  wp_one. eapply wp_load; [exact Hn|]. destruct (node_is_shutdown n); [by apply inv_error|]. wp_one.
  eapply (inv_create_request Hnf nothing); [done..| |]; cbn [snd].
  - intros r w1 I1 _. by apply inv_error.
  - intros r q w1 I1 _ Hq Hone Hqn Hqc _. eapply inv_one_request; try done. intros w0. apply runs_ret.
Qed.
Lemma inv_job_cancel m j w : controller_inv nothing a w -> is_Some (w_jobs w !! j) ->
  wp (job_method_cancel m j) (fun _ w' => controller_inv nothing a w') w.
Proof.
  intros I [x Hx]. pose proof (job_has_node I j x Hx) as Hp. unfold job_method_cancel.
  wp_one. eapply wp_load; [exact Hx|]. wp_one.
  eapply (inv_create_request Hnf nothing); [done..| |]; cbn [snd].
  - intros r w1 I1 _. by apply inv_error.
  - intros r q w1 I1 _ Hq Hone Hqn Hqc _. eapply inv_one_request; try done. intros w0. apply runs_reply_return.
Qed.

Context (Hclocks : clocks_work E).

Lemma inv_lifecycle m args p type method w : controller_inv nothing a w -> p ∈ c_nodes (w_controller w) ->
  wp (node_run_unit_lifecycle_method m args p type method) (fun _ w' => controller_inv nothing a w') w.
Proof.
  intros I Hp. unfold node_run_unit_lifecycle_method. wp_one.
  eapply wp_mono; [apply (inv_runs nothing a _ w I); by apply runs_time|]. cbn beta. intros start w0 [I0 Hc0].
  destruct (calm_listed _ _ _ Hc0) as (En & _). rewrite <- En in Hp.
  destruct (listed_node I0 p Hp) as (n & _ & _ & Hn & _).
  wp_one. eapply wp_load; [exact Hn|]. destruct (node_is_shutdown n); [by apply inv_error|].
  destruct args as [e|[unit mode]]; [by apply inv_error|]. wp_one.
  eapply wp_mono; [by apply (inv_setup_new Hnf nothing a m p unit type w0 I0)|]. cbn beta.
  intros r w1 (s & x & q & -> & I1 & Hx & Hxq & (_ & _ & _ & _ & Ec1)). wp_one. wp_one. wp_one.
  eapply wp_load; [exact Hx|]. rewrite Hxq. wp_one.
  destruct (jo_setup _ _ _ _ _ _ _ (ci_jobs _ _ _ I1) s x Hx) as (_ & q' & Hq' & Hj). assert (q' = q) as -> by congruence.
  eapply wp_mono; [apply (inv_runs _ a _ w1 I1)|].
  { destruct (c_metrics_enabled _); [|apply runs_ret]. apply runs_update_job; done. }
  cbn beta. intros _ w2 [I2 Hc2]. assert (w_setups w2 !! s = Some x) as Hx2 by (rewrite (cm_setups _ _ _ Hc2); exact Hx).
  unfold job_setup_ref. wp_one. wp_one. eapply wp_update; [exact Hx2|]. apply wp_ret.
  pose proof (inv_setup_ref _ a s x w2 I2 Hx2) as I3. set (w3 := store_upd _ w2) in *.
  destruct (calm_listed _ _ _ Hc2) as (En2 & _). wp_one.
  eapply (inv_create_request Hnf (hold_setup s 1 (hold_setup s 1 nothing))); [exact I3| | | |].
  - cbn. by rewrite En2, Ec1.
  - intros s' [= <-]. cbn. by rewrite !plus_eq.
  - intros r w4 I4 (_ & Es4 & _ & _). cbn [snd]. wp_one. wp_one.
    eapply wp_mono; [apply (inv_setup_unref _ a s w4 I4); cbn; by rewrite !plus_eq|]. cbn beta. intros _ w5 I5.
    apply (controller_inv_held _ (hold_setup s 1 nothing)) in I5; [|split_and!; try done; intros t; cbn; unfold plus; case_decide; lia].
    eapply wp_mono; [by apply inv_error|]. cbn beta. intros e w6 I6. wp_one.
    eapply wp_mono; [apply (inv_setup_unref _ a s w6 I6); cbn; by rewrite plus_eq|]. cbn beta. intros _ w7 I7. apply wp_ret.
    eapply controller_inv_held; [|exact I7]. split_and!; try done. intros t. cbn. unfold plus. case_decide; lia.
  - intros r y w4 I4 (Ej4 & _ & _ & _) Hy Hone Hyn Hyc _. cbn [snd]. wp_one.
    destruct (jo_setup _ _ _ _ _ _ _ (ci_jobs _ _ _ I3) s _ (lookup_insert_eq _ _ _)) as (_ & q' & Hq3 & [j Hj3]).
    cbn [setup_job field_update] in Hq3. assert (q' = q) as -> by congruence.
    wp_one. eapply wp_load; [rewrite <- Ej4 in Hj3; exact Hj3|].
    set (h := hold_user _ _ _) in I4. eapply wp_mono; [eapply (inv_start_request Hnf h a m r y); try done|].
    + intros f. congruence.
    + intros v. apply runs_ret.
    + cbn beta. intros e w5 I5. wp_one.
      eapply wp_mono; [apply (inv_setup_unref _ a s w5 I5); cbn; by rewrite !plus_eq|]. cbn beta. intros _ w6 I6. apply wp_ret.
      eapply controller_inv_held; [|exact I6]. split_and!; try done. intros t. cbn. unfold plus. case_decide; lia.
Qed.
End methods.

(** ** Ownership of the entries *)

Definition busy_with (f : ptr) (h : held) : held := h <| h_fleet := fun g => bool_decide (g = f) |>.

Lemma done_of_snoc wait x s : done_of wait (x <| fl_sub_req ::= fun l => l ++ [s] |>) =
  done_of wait x + bit (wait (sr_agent_req s) =? 0).
Proof.
  unfold done_of. cbn. rewrite List.filter_app, length_app. cbn. destruct (wait (sr_agent_req s) =? 0); cbn; lia.
Qed.
Lemma entries_snoc x s r : entries_of r (x <| fl_sub_req ::= fun l => l ++ [s] |>) =
  entries_of r x + bit (bool_decide (r = sr_agent_req s)).
Proof.
  unfold entries_of. cbn. rewrite fmap_app, count_app. cbn [fmap list_fmap]. rewrite count_cons. change (count r []) with O.
  destruct (decide (r = sr_agent_req s)); [rewrite bool_decide_eq_true_2 by done|rewrite bool_decide_eq_false_2 by done]; cbn; lia.
Qed.
Lemma entries_on_snoc x s p : entries_on p (x <| fl_sub_req ::= fun l => l ++ [s] |>) =
  entries_on p x + bit (bool_decide (p = sr_node s)).
Proof.
  unfold entries_on. cbn. rewrite fmap_app, count_app. cbn [fmap list_fmap]. rewrite count_cons. change (count p []) with O.
  destruct (decide (p = sr_node s)); [rewrite bool_decide_eq_true_2 by done|rewrite bool_decide_eq_false_2 by done]; cbn; lia.
Qed.

Section reqs_ok.
Context {δ wait : ptr -> Z} {nodes : gmap ptr Node} {reqs : gmap ptr AgentRequest}.
Context {fleets : gmap ptr AgentFleetRequest} {l : list ptr} (H : reqs_ok δ wait nodes reqs fleets l).

(** A new entry for the request that the handler holds. *)
Lemma reqs_ok_entry f x s r q δ' : fleets !! f = Some x -> reqs !! r = Some q -> sr_agent_req s = r ->
  sr_node s ∈ l -> req_cb q = agent_fleet_request_callback f -> req_ref_count q = 2 -> wait r = 1 -> δ r = 1 ->
  (forall t, δ t = plus r 1 δ' t) ->
  reqs_ok δ' wait nodes reqs (<[f := x <| fl_sub_req ::= fun l => l ++ [s] |>]> fleets) l.
Proof.
  intros Hx Hq Hs Hp Hcb Href Hw Hδ Hδ'. set (x' := x <| fl_sub_req ::= fun l => l ++ [s] |>).
  destruct (ro_request _ _ _ _ _ _ H r q Hq) as (_ & _ & _ & Hsum). assert (sum_map (entries_of r) fleets = 0) as H0 by lia.
  pose proof (not_in_entries r f x H0 Hx) as Hnot. pose proof (Hδ' r) as Hr. rewrite plus_eq in Hr.
  assert (forall t, t <> r -> δ' t = δ t) as Hne by (intros t Ht; rewrite Hδ', plus_ne by done; done).
  destruct H. split; try done.
  - intros t u Hu. destruct (ro_request t u Hu) as (? & ? & ? & Hct). split_and!; try done.
    rewrite (sum_map_update _ _ f x) by done. unfold x'. rewrite entries_snoc, Hs.
    destruct (decide (t = r)) as [->|Ht].
    + rewrite bool_decide_eq_true_2 by done. cbn. lia.
    + rewrite bool_decide_eq_false_2, (Hne t) by done. cbn. lia.
  - intros t. destruct (decide (t = r)) as [->|Ht]; [|by rewrite (Hne t)]. split; [lia|]. intros _. by exists q.
  - intros g y Hy. at_key g f; [|eauto]. injection Hy as <-. destruct (ro_entries f x Hx) as [Hnd Hall].
    unfold x'. cbn. rewrite fmap_app. split.
    + apply NoDup_app. split_and!; [done| |apply NoDup_singleton]. intros t Ht ->%list_elem_of_singleton.
      cbn in Hnot. rewrite Hs in Ht. done.
    + intros t [Ht| ->%list_elem_of_singleton]%elem_of_app; [auto|]. split; [done|]. exists q. by rewrite Hs.
  - intros g y Hy. at_key g f; [|eauto]. injection Hy as <-. unfold x'. rewrite done_of_snoc, Hs, Hw. cbn.
    rewrite (ro_done f x Hx). lia.
  - intros t u g Hu Hg Ht Hd. destruct (decide (t = r)) as [->|Htr].
    + assert (g = f) as -> by congruence. exists x'. rewrite lookup_insert_eq. split; [done|]. unfold x'. cbn.
      rewrite fmap_app. apply elem_of_app. right. cbn. rewrite Hs. by left.
    + rewrite (Hne t Htr) in Hd. destruct (ro_awaited t u g Hu Hg Ht Hd) as (y & Hy & Hin). at_key g f; [|eauto].
      exists x'. split; [done|]. assert (y = x) as -> by congruence. unfold x'. cbn. rewrite fmap_app. apply elem_of_app. by left.
Qed.

(** A request to all agents ends: the handler gets what it owned. *)
Lemma reqs_ok_close f x δ' : fleets !! f = Some x -> (forall s, s ∈ fl_sub_req x -> wait (sr_agent_req s) = 0) ->
  (forall r, δ' r = δ r + entries_of r x) -> reqs_ok δ' wait nodes reqs (delete f fleets) l.
Proof.
  intros Hx Hw Hδ'. assert (forall r, 0 <= entries_of r x) as Hpos by (intros; unfold entries_of; lia).
  destruct H. split; try done.
  - intros t u Hu. destruct (ro_request t u Hu) as (? & ? & ? & ?). split_and!; try done.
    rewrite (sum_map_delete _ _ f x Hx), Hδ'. lia.
  - intros t. destruct (ro_held t) as [H1 H2]. rewrite Hδ'. specialize (Hpos t). split; [lia|]. intros Ht.
    destruct (decide (1 <= δ t)); [auto|]. destruct (decide (t ∈ sr_agent_req <$> fl_sub_req x)) as [Hin|Hin].
    + apply list_elem_of_fmap in Hin as (s & -> & Hs). destruct (ro_entries f x Hx) as [_ Hall].
      destruct (Hall s Hs) as (_ & q & Hq & _). by exists q.
    + apply entries_none in Hin. lia.
  - intros g y [_ Hy]%lookup_delete_Some. eauto.
  - intros g y [_ Hy]%lookup_delete_Some. eauto.
  - intros t u g Hu Hg Ht Hd. rewrite Hδ' in Hd. destruct (ro_held t) as [H1 _]. specialize (Hpos t).
    destruct (ro_awaited t u g Hu Hg Ht ltac:(lia)) as (y & Hy & Hin). destruct (decide (g = f)) as [->|].
    + assert (y = x) as -> by congruence. apply list_elem_of_fmap in Hin as (s & -> & Hs). rewrite (Hw s Hs) in Ht. done.
    + exists y. by rewrite lookup_delete_ne.
Qed.
Lemma nothing_awaited f x : fleets !! f = Some x -> fl_n_done x = fl_n_sub_req x ->
  forall s, s ∈ fl_sub_req x -> wait (sr_agent_req s) = 0.
Proof.
  intros Hx Hdone. pose proof (ro_done _ _ _ _ _ _ H f x Hx) as Hd. rewrite Hdone in Hd. unfold fl_n_sub_req, done_of in Hd.
  apply Nat2Z.inj in Hd. clear -Hd. induction (fl_sub_req x) as [|s l IH]; [by intros s ?%not_elem_of_nil|].
  cbn in Hd. pose proof (List.filter_length_le (fun s => wait (sr_agent_req s) =? 0) l) as Hle.
  destruct (wait (sr_agent_req s) =? 0) eqn:E0; cbn in Hd; [|lia].
  intros t [->|Ht]%elem_of_cons; [by apply Z.eqb_eq|]. apply IH; [lia|done].
Qed.
End reqs_ok.

Section fleets.
Context {E : Env}.

Lemma inv_with_fleets h h' a w fleets : controller_inv h a w ->
  refs_ok (h_node h') (w_nodes w) (c_nodes (w_controller w)) (w_reqs w) (w_proxies w) fleets ->
  reqs_ok (h_req h') (req_wait a w) (w_nodes w) (w_reqs w) fleets (c_nodes (w_controller w)) ->
  fleets_open (h_fleet h') fleets ->
  (forall p, (w_next_ptr w <= p)%positive -> fleets !! p = None) ->
  h_job h' = h_job h -> h_setup h' = h_setup h -> h_monitor h' = h_monitor h -> h_proxy h' = h_proxy h ->
  controller_inv h' a (w <| w_fleets := fleets |>).
Proof.
  intros [Hreg I] Hrefs Hreqs Hopen Hf1 E1 E2 E3 E4. split; [by apply (registry_ok_same w)|].
  pose proof (ci_fresh _ _ _ I) as Hf. destruct I. split; rewrite ?E1, ?E2, ?E3, ?E4; try assumption. by destruct Hf.
Qed.

Definition same_busy (f : ptr) (h : held) : Prop := forall g, h_fleet h g = bool_decide (g = f).

(** The request of a node becomes an entry. *)
Lemma inv_entry h a f x p r q w : controller_inv (hold_node p 1 (hold_req r 1 h)) a w -> same_busy f h ->
  w_fleets w !! f = Some x -> w_reqs w !! r = Some q -> p ∈ c_nodes (w_controller w) ->
  req_cb q = agent_fleet_request_callback f -> req_ref_count q = 2 -> req_wait a w r = 1 -> h_req h r = 0 ->
  controller_inv h a
    (store_upd (T := AgentFleetRequest) <[f := x <| fl_sub_req ::= fun l => l ++ [mkSubReq p None r] |>]> w).
Proof.
  intros I Hbusy Hx Hq Hp Hcb Href Hw H0. set (x' := x <| fl_sub_req ::= _ |>).
  pose proof (inv_with_fleets _ h a w (<[f := x']> (w_fleets w)) I) as H. destruct w. apply H; try done; clear H.
  - intros t n Ht Hn. unfold node_owners. rewrite (sum_map_update _ _ f x) by done. unfold x'. rewrite entries_on_snoc.
    pose proof (ci_refs _ _ _ I t n Ht Hn) as Ho. unfold node_owners in Ho. cbn in *. unfold plus in Ho.
    destruct (decide (t = p)); [rewrite bool_decide_eq_true_2 by done|rewrite bool_decide_eq_false_2 by done]; cbn; lia.
  - pose proof (ci_reqs _ _ _ I) as Hok. apply (reqs_ok_entry Hok f x _ r q); try done. cbn. rewrite plus_eq. lia.
  - intros g y Hy Hg. rewrite Hbusy in Hg. apply bool_decide_eq_false in Hg. cbn in Hy. rewrite lookup_insert_ne in Hy by done.
    eapply (ci_open _ _ _ I); [exact Hy|]. cbn. rewrite Hbusy. by apply bool_decide_eq_false.
  - apply (fresh_update (fr_fleets _ (ci_fresh _ _ _ I)) f x x' Hx).
Qed.

(** A new, empty request to all agents. *)
Lemma inv_new_fleet h a x w : controller_inv h a w -> (forall g, h_fleet h g = false) ->
  fl_sub_req x = [] -> fl_n_done x = 0 ->
  let f := w_next_ptr w in
  controller_inv (busy_with f h) a (w <| w_fleets ::= <[f := x]> |> <| w_next_ptr ::= Pos.succ |>).
Proof.
  intros I Hidle E1 E2 f. set (w0 := w <| w_next_ptr ::= Pos.succ |>).
  assert (controller_inv h a w0) as I0.
  { eapply controller_inv_still; [|exact I]. apply calm_stores; try done. cbn. lia. }
  pose proof (fr_fleets _ (ci_fresh _ _ _ I) f ltac:(unfold f; lia)) as Hf.
  pose proof (inv_with_fleets h (busy_with f h) a w0 (<[f := x]> (w_fleets w)) I0) as H. destruct w. apply H; try done; clear H.
  - intros t n Ht Hn. unfold node_owners. rewrite sum_map_insert by done. unfold entries_on at 1. rewrite E1.
    apply (ci_refs _ _ _ I t n Ht Hn).
  - destruct (ci_reqs _ _ _ I). split; try done.
    + intros t u Hu. rewrite sum_map_insert by done. unfold entries_of at 1. rewrite E1. cbn. auto.
    + intros g y Hy. at_key g f; [|eauto]. injection Hy as <-. rewrite E1. cbn. split; [constructor|]. by intros s ?%not_elem_of_nil.
    + intros g y Hy. at_key g f; [|eauto]. injection Hy as <-. unfold done_of. by rewrite E1, E2.
    + intros t u g Hu Hcb Ht Hd. destruct (ro_awaited t u g Hu Hcb Ht Hd) as (y & Hy & ?). exists y.
      rewrite lookup_insert_ne; [done|]. intros <-. congruence.
  - intros g y Hy Hg. cbn in Hg. apply bool_decide_eq_false in Hg. rewrite lookup_insert_ne in Hy by done.
    eapply (ci_open _ _ _ I); [exact Hy|]. apply Hidle.
  - intros t Ht. cbn in *. rewrite lookup_insert_ne by (unfold f; cbn; lia). apply (fr_fleets _ (ci_fresh _ _ _ I)). cbn. lia.
Qed.

(** The handler holds the references of entries. *)
Definition hold_entries (l : list sub_req) (h : held) : held :=
  h <| h_node ::= fun δ p => δ p + Z.of_nat (count p (sr_node <$> l)) |>
    <| h_req ::= fun δ r => δ r + Z.of_nat (count r (sr_agent_req <$> l)) |>.

Lemma inv_close_fleet h a f x w : controller_inv (busy_with f h) a w -> (forall g, h_fleet h g = false) ->
  w_fleets w !! f = Some x -> fl_n_done x = fl_n_sub_req x ->
  controller_inv (hold_entries (fl_sub_req x) h) a (w <| w_fleets ::= delete f |>) /\
  (forall s, s ∈ fl_sub_req x -> req_wait a w (sr_agent_req s) = 0).
Proof.
  intros I Hidle Hx Hdone. pose proof (ci_reqs _ _ _ I) as Hok.
  pose proof (nothing_awaited Hok f x Hx Hdone) as Hw.
  split; [|done]. pose proof (inv_with_fleets _ (hold_entries (fl_sub_req x) h) a w (delete f (w_fleets w)) I) as H.
  destruct w. apply H; try done; clear H.
  - intros t n Ht Hn. unfold node_owners. rewrite (sum_map_delete _ _ f x) by done. cbn.
    pose proof (ci_refs _ _ _ I t n Ht Hn) as Ho. unfold node_owners in Ho. cbn in *. unfold entries_on at 2. lia.
  - by apply (reqs_ok_close Hok f x).
  - intros g y [Hne Hy]%lookup_delete_Some _. eapply (ci_open _ _ _ I); [exact Hy|]. cbn. by apply bool_decide_eq_false.
  - apply (fresh_delete (fr_fleets _ (ci_fresh _ _ _ I))).
Qed.
End fleets.

(** ** The end of a request to all agents *)

Section done.
Context {E : Env}.

Lemma owners_pos h a p n w : controller_inv h a w -> p ∈ c_nodes (w_controller w) -> w_nodes w !! p = Some n ->
  h_node h p + 1 <= node_ref_count n.
Proof.
  intros I Hp Hn. pose proof (ci_refs _ _ _ I p n Hp Hn) as H. unfold node_owners in H.
  pose proof (count_map_nonneg (asks_node p) (w_reqs w)). pose proof (count_map_nonneg (aims_at p) (w_proxies w)).
  assert (0 <= sum_map (entries_on p) (w_fleets w)) by (apply sum_map_nonneg; intros; unfold entries_on; lia). lia.
Qed.

(** Only the fleet is not yet gone from the state in which its references are given up. *)
Definition with_fleets (m : gmap ptr AgentFleetRequest) (w : World) : World := w <| w_fleets := m |>.
Lemma request_dropped_fleets r q n m w :
  request_dropped r q n (with_fleets m w) = with_fleets m (request_dropped r q n w).
Proof. unfold request_dropped, without_request, set_node, with_fleets. by destruct w, (req_ref_count q =? 1). Qed.
Lemma request_dropped_keeps r q n w t u : w_reqs w !! r = Some q -> w_reqs (request_dropped r q n w) !! t = Some u ->
  exists u0, w_reqs w !! t = Some u0 /\ req_cb u = req_cb u0.
Proof.
  intros Hq Hu. unfold request_dropped in Hu. destruct (req_ref_count q =? 1); cbn in Hu.
  - apply lookup_delete_Some in Hu as [_ Hu]. by exists u.
  - apply lookup_insert_Some in Hu as [[<- <-]|[_ Hu]]; [by exists q|by exists u].
Qed.
Lemma request_dropped_rest r q n w : w_fleets (request_dropped r q n w) = w_fleets w /\
  w_controller (request_dropped r q n w) = w_controller w /\ w_trace (request_dropped r q n w) = w_trace w.
Proof. unfold request_dropped. by destruct (req_ref_count q =? 1). Qed.

Lemma inv_release_entries h a m f l (F : gmap ptr AgentFleetRequest) : forall v, (forall p, 0 <= h_node h p) ->
  (forall r, 0 <= h_req h r) ->
  controller_inv (hold_entries l h) a v -> w_fleets v = F ->
  (forall s, s ∈ l -> sr_node s ∈ c_nodes (w_controller v) /\ req_wait a v (sr_agent_req s) = 0 /\
     forall q, w_reqs v !! sr_agent_req s = Some q -> req_cb q = agent_fleet_request_callback f) ->
  wp (foreach l (fun s => node_unref (sr_node s) ;; agent_request_unref (sr_agent_req s)))
    (fun _ w' => exists v', w' = with_fleets m v' /\ controller_inv h a v' /\ w_fleets v' = F /\
       w_trace v' = w_trace v) (with_fleets m v).
Proof.
  induction l as [|s l IH]; intros v Hpos Hrpos I HF Hall; cbn [foreach].
  { apply wp_ret. exists v. split_and!; [done| |done..]. eapply controller_inv_held; [|exact I].
    split_and!; try done; intros t; cbn; change (count t []) with O; lia. }
  destruct (Hall s ltac:(by left)) as (Hp & Hw & Hcb). set (p := sr_node s) in *. set (r := sr_agent_req s) in *.
  set (h0 := hold_entries (s :: l) h) in *.
  assert (1 <= h_node h0 p) as Hnode.
  { unfold h0. cbn. rewrite count_cons, decide_True by done. specialize (Hpos p). lia. }
  assert (1 <= h_req h0 r) as Hreq.
  { unfold h0. cbn. rewrite count_cons, decide_True by done. specialize (Hrpos r). lia. }
  destruct (listed_node I p Hp) as (n & _ & _ & Hn & _). pose proof (owners_pos h0 a p n v I Hp Hn) as Htwo.
  wp_one. wp_one. eapply (wp_node_unref_some p n); [exact Hn|lia|]. set (n' := n <| node_ref_count ::= Z.pred |>).
  change (set_node p n' (with_fleets m v)) with (with_fleets m (set_node p n' v)).
  assert (controller_inv (hold_node p (-1) h0) a (set_node p n' v)) as I1.
  { eapply (inv_update_node h0 (plus p (-1) (h_node h0))); try done. intros t. unfold plus. case_decide; cbn; lia. }
  set (v1 := set_node p n' v) in *.
  destruct (ro_held _ _ _ _ _ _ (ci_reqs _ _ _ I1) r) as [_ Hsome]. destruct (Hsome Hreq) as [q Hq].
  specialize (Hcb q Hq).
  destruct (ro_request _ _ _ _ _ _ (ci_reqs _ _ _ I1) r q Hq) as (Hqn & Hout & _).
  destruct (listed_node I1 _ Hqn) as (k & _ & _ & Hk & _). specialize (Hout k Hk).
  assert (forall t, 0 <= h_node (hold_node p (-1) h0) t) as Hpos1.
  { intros t. apply plus_pred; [|done]. unfold h0. cbn -[count fmap]. specialize (Hpos t). lia. }
  pose proof (asks_two _ a r q v1 I1 Hq (Hpos1 _) k Hk) as Htwo1.
  eapply (wp_request_dropped r q k); [exact Hq|exact Hk|exact Hout|exact Htwo1|intros t; congruence|].
  rewrite request_dropped_fleets.
  pose proof (inv_request_dropped _ a r q k v1 I1 Hreq Hq Hk ltac:(done)) as I2.
  assert (forall c, hold_user (req_cb q) c (hold_node p (-1) h0) = hold_node p (-1) h0) as Huser by (intros; by rewrite Hcb).
  rewrite Huser in I2. replace (if req_ref_count q =? 1 then hold_node p (-1) h0 else hold_node p (-1) h0)
    with (hold_node p (-1) h0) in I2 by (by destruct (req_ref_count q =? 1)).
  destruct (request_dropped_rest r q k v1) as (Ef & Ec & Et).
  change (w_trace v) with (w_trace v1). rewrite <- Et. apply IH; [done..| | |].
  - eapply controller_inv_held; [|exact I2]. split_and!; try done; intros t; cbn -[count]; unfold plus;
      cbn [fmap list_fmap]; rewrite count_cons; fold p r; case_decide; lia.
  - by rewrite Ef.
  - intros t Ht. destruct (Hall t ltac:(by right)) as (Htn & Htw & Htc). rewrite Ec. split_and!; [done| |].
    + unfold req_wait, asks in *. by rewrite Et.
    + intros u Hu. destruct (request_dropped_keeps r q k v1 _ u Hq Hu) as (u0 & Hu0 & ->). by apply Htc.
Qed.

Lemma inv_fleet_free h a f x w : controller_inv (busy_with f h) a w -> (forall g, h_fleet h g = false) ->
  (forall p, 0 <= h_node h p) -> (forall r, 0 <= h_req h r) ->
  w_fleets w !! f = Some x -> fl_n_done x = fl_n_sub_req x ->
  wp (agent_fleet_request_free f) (fun _ w' => controller_inv h a w' /\ w_trace w' = w_trace w) w.
Proof.
  intros I Hidle Hpos Hrpos Hx Hdone. destruct (inv_close_fleet h a f x w I Hidle Hx Hdone) as [I1 Hw].
  destruct (ro_entries _ _ _ _ _ _ (ci_reqs _ _ _ I) f x Hx) as [_ Hall].
  unfold agent_fleet_request_free. wp_one. eapply wp_load; [exact Hx|]. wp_one.
  set (v := w <| w_fleets ::= delete f |>) in *. assert (w = with_fleets (w_fleets w) v) as -> by by destruct w.
  eapply wp_mono; [eapply (inv_release_entries h a (w_fleets w) f (fl_sub_req x) (w_fleets v) v); try done|].
  - intros s Hs. destruct (Hall s Hs) as (? & q & Hq & Hcb). split_and!; [done|by apply Hw|]. intros u Hu.
    change (w_reqs w !! sr_agent_req s = Some u) in Hu. congruence.
  - cbn beta. intros _ w' (v' & -> & I' & HF & Et). eapply wp_free; [exact Hx|].
    replace (store_upd (T := AgentFleetRequest) (delete f) (with_fleets (w_fleets w) v')) with v'; [done|].
    unfold with_fleets. cbn. destruct v'. cbn in *. by subst.
Qed.

Lemma runs_encode_sub_reqs w0 l reply : (forall s, s ∈ l -> node_there w0 (sr_node s)) ->
  runs w0 (encode_sub_reqs l reply).
Proof.
  revert reply. induction l as [|s l IH]; intros reply Hl; cbn [encode_sub_reqs]; [apply runs_ret|].
  assert (forall r, runs w0 (encode_sub_reqs l r)) as IH' by (intros r; apply IH; intros t Ht; apply Hl; by right).
  destruct (Hl s ltac:(by left)) as [n Hn].
  destruct (sr_m s) as [[e|m]|]; [apply runs_ret| |by apply IH'].
  eapply runs_load_node; [exact Hn|]. intros k _. run_tac; apply IH'.
Qed.
(** The client is answered before the request to all agents is released. *)
Lemma wp_fleet_done f x (Q : void -> World -> Prop) w : w_fleets w !! f = Some x ->
  (forall s, s ∈ fl_sub_req x -> node_there w (sr_node s)) ->
  (forall w', still w w' -> wp (agent_fleet_request_free f) Q w') -> wp (agent_fleet_request_done f) Q w.
Proof.
  intros Hx Hall HQ. unfold agent_fleet_request_done. wp_one. eapply wp_load; [exact Hx|]. wp_one.
  eapply wp_mono; [apply (runs_local w); reflexivity|]. cbn beta. intros r w1 Hc1. wp_one.
  eapply wp_mono; [|cbn beta; intros u w2 Hc2; apply HQ, Hc2].
  pose proof (fun reply => runs_encode_sub_reqs w (fl_sub_req x) reply Hall) as Henc.
  revert w1 Hc1. unfold controller_method_list_encode_reply. lazymatch goal with |- forall v, _ -> wp ?m _ v => change (runs w m) end.
  run_tac; apply Henc.
Qed.

Lemma inv_maybe_done h a f x w : controller_inv (busy_with f h) a w -> (forall g, h_fleet h g = false) ->
  (forall p, 0 <= h_node h p) -> (forall r, 0 <= h_req h r) -> w_fleets w !! f = Some x ->
  wp (agent_fleet_request_maybe_done f) (fun _ w' => controller_inv h a w' /\
    forall r, req_wait a w' r = req_wait a w r) w.
Proof.
  intros I Hidle Hpos Hrpos Hx. unfold agent_fleet_request_maybe_done. wp_one. eapply wp_load; [exact Hx|].
  destruct (fl_n_done x =? fl_n_sub_req x) eqn:E0; [apply Z.eqb_eq in E0|apply Z.eqb_neq in E0].
  - destruct (ro_entries _ _ _ _ _ _ (ci_reqs _ _ _ I) f x Hx) as [_ Hall]. eapply wp_fleet_done; [exact Hx| |].
    + intros s Hs. apply (listed_there I). by apply Hall.
    + intros w1 Hc. assert (controller_inv (busy_with f h) a w1) as I1 by (by eapply controller_inv_still).
      eapply wp_mono; [eapply (inv_fleet_free h a f x w1); try done; by rewrite (cm_fleets _ _ _ Hc)|].
      cbn beta. intros _ w2 [I2 Et]. split; [done|]. intros r. unfold req_wait. rewrite <- (cm_asked _ _ _ Hc).
      unfold asks. by rewrite Et.
  - apply wp_ret. split; [|done]. pose proof (inv_with_fleets _ h a w (w_fleets w) I) as H. destruct w. apply H; try done.
    + apply (ci_refs _ _ _ I).
    + apply (ci_reqs _ _ _ I).
    + intros g y Hy _. cbn in *. destruct (decide (g = f)) as [->|Hne]; [congruence|].
      eapply (ci_open _ _ _ I); [exact Hy|]. cbn. by apply bool_decide_eq_false.
    + apply (fr_fleets _ (ci_fresh _ _ _ I)).
Qed.
End done.

Section start.
Context {E : Env} (Hnf : no_local_failure E) (a : list answer).

Lemma inv_fleet_add_node h f x encode p w : controller_inv h a w -> same_busy f h -> (forall q, 0 <= h_node h q) ->
  (forall r, h_req h r = 0) -> p ∈ c_nodes (w_controller w) -> w_fleets w !! f = Some x -> fl_n_sub_req x < fl_capacity x ->
  wp (fleet_add_node f encode p) (fun _ w' => controller_inv h a w' /\ w_controller w' = w_controller w /\
    exists x', w_fleets w' !! f = Some x' /\ fl_capacity x' = fl_capacity x /\
      fl_n_sub_req x' <= fl_n_sub_req x + 1) w.
Proof.
  intros I Hbusy Hpos H0 Hp Hx Hcap. unfold fleet_add_node. wp_one.
  match goal with |- wp _ ?Q w =>
    enough (forall method, wp (node_request p method (agent_fleet_request_callback f)) Q w) as H by (destruct encode; apply H) end.
  intros method.
  eapply (inv_node_request Hnf h); [done..| |].
  - intros w1 I1 [Ef Ec]. apply wp_ret. split_and!; [done..|]. exists x. rewrite Ef. split_and!; [done..|lia].
  - intros r q w1 I1 [Ef Ec] Hq Href Hqn Hcb _ Hw. wp_one. eapply wp_load; [by rewrite <- Ef in Hx; exact Hx|].
    replace (fl_n_sub_req x <? fl_capacity x) with true by (symmetry; by apply Z.ltb_lt). cbn [negb]. wp_one.
    eapply (inv_node_ref _ a p); [exact I1|by rewrite Ec|]. intros n Hn I2. set (w2 := store_upd _ w1) in *.
    assert (w_fleets w2 !! f = Some x) as Hx2 by by rewrite <- Ef in Hx.
    eapply wp_update; [exact Hx2|]. split_and!.
    + eapply (inv_entry h a f x p r q); try done. by rewrite <- Ec in Hp.
    + by rewrite <- Ec.
    + eexists. split; [apply lookup_insert_eq|]. split; [done|]. unfold fl_n_sub_req. cbn. rewrite length_app. cbn. lia.
Qed.

Lemma inv_fleet_start m encode w : controller_inv nothing a w ->
  wp (agent_fleet_request_start m encode) (fun _ w' => controller_inv nothing a w') w.
Proof.
  intros I. unfold agent_fleet_request_start. wp_one. wp_one. rewrite local_ok_true by done. cbn [negb].
  assert (controller_inv nothing a (tick w)) as I0 by by apply inv_ticked. set (w0 := tick w) in *. wp_one. wp_one. wp_one. wp_one.
  set (f := w_next_ptr w0). set (x := mkAgentFleetRequest m encode 0 _ []).
  pose proof (inv_new_fleet nothing a x w0 I0 ltac:(done) eq_refl eq_refl) as I1. cbn zeta in I1. fold f in I1.
  pose proof (no_number _ _ _ _ (ci_nodes _ _ _ I0)) as Hnum. wp_one.
  apply (wp_foreach (fun rest w' => controller_inv (busy_with f nothing) a w' /\ w_controller w' = w_controller w0 /\
    (forall p, p ∈ rest -> p ∈ c_nodes (w_controller w0)) /\
    exists x', w_fleets w' !! f = Some x' /\ fl_capacity x' = c_number_of_nodes (w_controller w0) /\
      fl_n_sub_req x' + Z.of_nat (Datatypes.length rest) <= c_number_of_nodes (w_controller w0))).
  - split_and!; [exact I1|done|done|]. exists x. split_and!; [apply lookup_insert_eq|done|]. rewrite Hnum. apply Z.le_refl.
  - intros p rest w1 (I2 & Ec & Hin & y & Hy & Hcap & Hlen). cbn [Datatypes.length] in Hlen.
    eapply wp_mono; [eapply (inv_fleet_add_node (busy_with f nothing) f y); try done|].
    + rewrite Ec. apply Hin. by left.
    + lia.
    + cbn beta. intros _ w2 (I3 & Ec2 & z & Hz & Hzc & Hzl). split_and!; [done|congruence| |].
      * intros q Hq. apply Hin. by right.
      * exists z. split_and!; [done|congruence|lia].
  - intros w1 (I2 & _ & _ & y & Hy & _). wp_one. eapply wp_mono; [by eapply (inv_maybe_done nothing a f y)|].
    cbn beta. intros _ w2 [I3 _]. by apply wp_ret.
Qed.
End start.

(** ** The answer of an agent *)

Lemma done_of_reqs wait x : done_of wait x =
  Z.of_nat (Datatypes.length (List.filter (fun r => wait r =? 0) (sub_reqs (fl_sub_req x)))).
Proof.
  unfold done_of, sub_reqs. f_equal. induction (fl_sub_req x) as [|s l IH]; [done|]. cbn.
  destruct (wait (sr_agent_req s) =? 0); cbn; by rewrite IH.
Qed.
Lemma filter_answered (wait wait' : ptr -> Z) r l : NoDup l -> wait r = 1 -> wait' r = 0 ->
  (forall t, t <> r -> wait' t = wait t) ->
  Datatypes.length (List.filter (fun t => (wait' t =? 0)%Z) l) =
  (Datatypes.length (List.filter (fun t => (wait t =? 0)%Z) l) + if decide (r ∈ l) then 1 else 0)%nat.
Proof.
  intros Hnd H1 H0 Hne. induction Hnd as [|t l Ht Hnd IH].
  - rewrite decide_False; [done|by intros ?%not_elem_of_nil].
  - cbn [List.filter]. destruct (decide (t = r)) as [->|Htr].
    + rewrite H0, H1, (decide_True (P := r ∈ r :: l)) by by left. cbn. rewrite IH, decide_False by done. lia.
    + rewrite (Hne t Htr). assert (r ∈ t :: l <-> r ∈ l) as Hiff.
      { rewrite elem_of_cons. split; [intros [?|?]; [congruence|done]|by right]. }
      revert IH. destruct (decide (r ∈ t :: l)), (decide (r ∈ l)); try tauto; destruct (wait t =? 0); cbn; lia.
Qed.

(** The answers stored in the entries say nothing of ownership. *)
Definition same_entries (x x' : AgentFleetRequest) : Prop :=
  sub_reqs (fl_sub_req x') = sub_reqs (fl_sub_req x) /\ sub_nodes (fl_sub_req x') = sub_nodes (fl_sub_req x) /\
  forall s', s' ∈ fl_sub_req x' -> exists s, s ∈ fl_sub_req x /\ sr_agent_req s' = sr_agent_req s /\ sr_node s' = sr_node s.
Lemma same_entries_refl x : same_entries x x.
Proof. split; [done|]. split; [done|]. intros s Hs. by exists s. Qed.

Lemma reqs_ok_answered δ wait wait' nodes reqs fleets fleets' l r : reqs_ok δ wait nodes reqs fleets l ->
  wait r = 1 -> wait' r = 0 -> (forall t, t <> r -> wait' t = wait t) -> is_Some (reqs !! r) ->
  (forall t, sum_map (entries_of t) fleets' = sum_map (entries_of t) fleets) ->
  (forall f x', fleets' !! f = Some x' -> exists x, fleets !! f = Some x /\ same_entries x x' /\
     fl_n_done x' = fl_n_done x + if decide (r ∈ sub_reqs (fl_sub_req x)) then 1 else 0) ->
  (forall f, is_Some (fleets !! f) -> is_Some (fleets' !! f)) ->
  reqs_ok (plus r 1 δ) wait' nodes reqs fleets' l.
Proof.
  intros [] H1 H0 Hne Hr Hsum Hfl Hsome. split; try done.
  - intros t u Hu. destruct (ro_request t u Hu) as (? & ? & ? & ?). split_and!; try done. rewrite Hsum.
    destruct (decide (t = r)) as [->|Ht]; [rewrite plus_eq|rewrite plus_ne, Hne by done]; lia.
  - intros t. destruct (ro_held t). split; [unfold plus; destruct (decide (t = r)); lia|].
    intros [[-> _]|[_ ?]]%plus_elim; auto.
  - intros t. destruct (decide (t = r)) as [->|Ht]; [lia|]. by rewrite Hne.
  - intros t Ht. destruct (decide (t = r)) as [->|Htr]; [done|]. rewrite Hne by done. auto.
  - intros f x' Hx'. destruct (Hfl f x' Hx') as (x & Hx & (Er & En & Hs) & _). destruct (ro_entries f x Hx) as [Hnd Hall].
    split; [by change (NoDup (sub_reqs (fl_sub_req x'))); rewrite Er|]. intros s' Hs'.
    destruct (Hs s' Hs') as (s & Hin & -> & ->). auto.
  - intros f x' Hx'. destruct (Hfl f x' Hx') as (x & Hx & (Er & _) & ->). destruct (ro_entries f x Hx) as [Hnd _].
    rewrite (ro_done f x Hx), !done_of_reqs, Er, (filter_answered wait wait' r) by done. destruct (decide _); lia.
  - intros t u f Hu Hf Ht Hd. destruct (decide (t = r)) as [->|Htr]; [lia|]. rewrite Hne in Ht by done.
    rewrite plus_ne in Hd by done. destruct (ro_awaited t u f Hu Hf Ht Hd) as (x & Hx & Hin).
    destruct (Hsome f) as [x' Hx']; [by exists x|]. exists x'. split; [done|].
    destruct (Hfl f x' Hx') as (x0 & Hx0 & (Er & _) & _). assert (x0 = x) as -> by congruence.
    change (t ∈ sub_reqs (fl_sub_req x')). by rewrite Er.
Qed.

Section answered.
Context {δ wait wait' : ptr -> Z} {nodes : gmap ptr Node} {reqs : gmap ptr AgentRequest}.
Context {fleets : gmap ptr AgentFleetRequest} {l : list ptr} (Hok : reqs_ok δ wait nodes reqs fleets l).
Context (r : ptr) (q : AgentRequest) (H1 : wait r = 1) (H0 : wait' r = 0) (Hne : forall t, t <> r -> wait' t = wait t).
Context (Hq : reqs !! r = Some q).

(** The request of one node. *)
Lemma reqs_ok_one : (forall f, req_cb q <> agent_fleet_request_callback f) -> reqs_ok (plus r 1 δ) wait' nodes reqs fleets l.
Proof.
  intros Hcb. eapply reqs_ok_answered; [exact Hok|exact H1|exact H0|exact Hne|by exists q|done| |done].
  intros f x Hx. exists x. split; [done|]. split; [apply same_entries_refl|]. rewrite decide_False; [lia|].
  intros (s & Hs & Hin)%list_elem_of_fmap. destruct (ro_entries _ _ _ _ _ _ Hok f x Hx) as [_ Hall].
  destruct (Hall s Hin) as (_ & u & Hu & Hf). rewrite <- Hs, Hq in Hu. injection Hu as <-. by apply (Hcb f).
Qed.

(** One of the requests to all agents. *)
Definition stored (m : option response) (x : AgentFleetRequest) : AgentFleetRequest :=
  x <| fl_sub_req := store_answer r m (fl_sub_req x) |> <| fl_n_done ::= Z.succ |>.
Lemma stored_entries m x : same_entries x (stored m x).
Proof.
  split_and!; [apply store_answer_reqs|apply store_answer_nodes|]. intros s' (s & <- & Hs)%list_elem_of_In%List.in_map_iff.
  exists s. split; [by apply list_elem_of_In|]. by case_decide.
Qed.
Lemma entries_on_stored m x p : entries_on p (stored m x) = entries_on p x.
Proof. unfold entries_on. do 2 f_equal. apply (stored_entries m x). Qed.
Lemma reqs_ok_stored f x m : req_cb q = agent_fleet_request_callback f -> fleets !! f = Some x ->
  r ∈ sub_reqs (fl_sub_req x) -> reqs_ok (plus r 1 δ) wait' nodes reqs (<[f := stored m x]> fleets) l.
Proof.
  intros Hcb Hx Hin. assert (forall t, entries_of t (stored m x) = entries_of t x) as Hent.
  { intros t. unfold entries_of. do 2 f_equal. apply (stored_entries m x). }
  eapply reqs_ok_answered; [exact Hok|exact H1|exact H0|exact Hne|by exists q| | |].
  - intros t. rewrite (sum_map_update _ _ f x), Hent by done. lia.
  - intros g y Hy. at_key g f.
    + injection Hy as <-. exists x. split_and!; [done|apply stored_entries|]. rewrite decide_True by done. cbn. lia.
    + exists y. split; [done|]. split; [apply same_entries_refl|]. rewrite decide_False; [lia|].
      intros (s & Hs & Hsin)%list_elem_of_fmap. destruct (ro_entries _ _ _ _ _ _ Hok g y Hy) as [_ Hally].
      destruct (Hally s Hsin) as (_ & u & Hu & Hgf). rewrite <- Hs in Hu. congruence.
  - intros g Hg. by rewrite is_Some_update.
Qed.
Lemma fleets_open_stored f x m : fleets_open (fun _ => false) fleets -> fleets !! f = Some x ->
  fleets_open (fun g => bool_decide (g = f)) (<[f := stored m x]> fleets).
Proof.
  intros Hopen Hx g y Hy Hg. apply bool_decide_eq_false in Hg. rewrite lookup_insert_ne in Hy by done.
  by eapply Hopen.
Qed.
End answered.

Section answer.
Context {E : Env} (a : list answer).

Lemma got_other b c : b <> c -> got (b :: a) c = got a c.
Proof. intros H. unfold got. rewrite count_cons, decide_False by congruence. done. Qed.
Lemma req_wait_answered w r : req_wait (AnswerTo r :: a) w r = req_wait a w r - 1.
Proof. unfold req_wait, got. rewrite count_cons, decide_True by done. lia. Qed.
Lemma req_wait_other w r t : t <> r -> req_wait (AnswerTo r :: a) w t = req_wait a w t.
Proof. intros H. unfold req_wait. rewrite got_other by congruence. done. Qed.

Lemma inv_answered h r fleets w : controller_inv nothing a w ->
  refs_ok (h_node h) (w_nodes w) (c_nodes (w_controller w)) (w_reqs w) (w_proxies w) fleets ->
  reqs_ok (h_req h) (req_wait (AnswerTo r :: a) w) (w_nodes w) (w_reqs w) fleets (c_nodes (w_controller w)) ->
  fleets_open (h_fleet h) fleets ->
  (forall p, (w_next_ptr w <= p)%positive -> fleets !! p = None) ->
  h_job h = h_job nothing -> h_setup h = h_setup nothing -> h_monitor h = h_monitor nothing -> h_proxy h = h_proxy nothing ->
  controller_inv h (AnswerTo r :: a) (w <| w_fleets := fleets |>).
Proof.
  intros [Hreg I] Hrefs Hreqs Hopen Hf1 E1 E2 E3 E4. split; [by apply (registry_ok_same w)|].
  pose proof (ci_fresh _ _ _ I) as Hf. destruct I. split; rewrite ?E1, ?E2, ?E3, ?E4; try assumption. by destruct Hf.
Qed.

(** An answer to the request of one node. *)
Lemma inv_answered_one r q w : controller_inv nothing a w -> req_wait a w r = 1 -> w_reqs w !! r = Some q ->
  (forall f, req_cb q <> agent_fleet_request_callback f) -> controller_inv (hold_req r 1 nothing) (AnswerTo r :: a) w.
Proof.
  intros I Hw Hq Hcb. pose proof (inv_answered (hold_req r 1 nothing) r (w_fleets w) w I) as H.
  destruct w. apply H; try done; clear H.
  - apply (ci_refs _ _ _ I).
  - apply (reqs_ok_one (ci_reqs _ _ _ I) r q); try done; [rewrite req_wait_answered; lia|apply req_wait_other].
  - apply (ci_open _ _ _ I).
  - apply (fr_fleets _ (ci_fresh _ _ _ I)).
Qed.

(** An answer to one of the requests to all agents is stored. *)
Lemma inv_answered_all r q f w : controller_inv nothing a w -> req_wait a w r = 1 -> w_reqs w !! r = Some q ->
  req_cb q = agent_fleet_request_callback f -> exists x, w_fleets w !! f = Some x /\
  r ∈ sub_reqs (fl_sub_req x) /\ NoDup (sub_reqs (fl_sub_req x)) /\ forall m,
    controller_inv (busy_with f (hold_req r 1 nothing)) (AnswerTo r :: a)
      (store_upd (T := AgentFleetRequest) <[f := stored r m x]> w).
Proof.
  intros I Hw Hq Hcb. pose proof (ci_reqs _ _ _ I) as Hok.
  destruct (ro_awaited _ _ _ _ _ _ Hok r q f Hq Hcb Hw eq_refl) as (x & Hx & Hin). exists x. split; [done|]. split; [done|].
  destruct (ro_entries _ _ _ _ _ _ Hok f x Hx) as [Hnd Hall]. split; [done|]. intros m.
  set (x' := stored r m x).
  pose proof (inv_answered (busy_with f (hold_req r 1 nothing)) r (<[f := x']> (w_fleets w)) w I) as H.
  destruct w. apply H; try done; clear H.
  - intros p n Hp Hn. pose proof (ci_refs _ _ _ I p n Hp Hn) as Ho. unfold node_owners in *. cbn in *.
    unfold x'. rewrite (sum_map_update _ _ f x), entries_on_stored by done. lia.
  - apply (reqs_ok_stored Hok r q); try done; [rewrite req_wait_answered; lia|apply req_wait_other].
  - apply fleets_open_stored; [apply (ci_open _ _ _ I)|done].
  - apply (fresh_update (fr_fleets _ (ci_fresh _ _ _ I)) f x x' Hx).
Qed.
End answer.

(** ** The callbacks *)

Lemma jobs_ok_list {δj δs jobs setups reqs l nodes} p j : jobs_ok δj δs jobs setups reqs l nodes -> jobs !! p = Some j ->
  jobs_ok δj δs (<[p := j <| job_ref_count ::= Z.succ |>]> jobs) setups reqs (l ++ [p]) nodes.
Proof.
  intros [] Hj. split; try done.
  - intros q [Hq| ->%list_elem_of_singleton]%elem_of_app; rewrite is_Some_update by done; [auto|by exists j].
  - intros q i Hi. rewrite count_app, count_cons. change (count q []) with O. at_key q p.
    + injection Hi as <-. destruct (jo_job p j Hj). cbn. split; [done|lia].
    + destruct (jo_job q i Hi). split; [done|lia].
  - intros s x Hx. destruct (jo_setup s x Hx) as (? & q & ? & ?). split; [done|]. exists q. by rewrite is_Some_update.
  - intros q. rewrite is_Some_update by done. auto.
Qed.

Section callbacks.
Context {E : Env} (Hnf : no_local_failure E).

Lemma inv_add_job h a p w : controller_inv h a w -> is_Some (w_jobs w !! p) ->
  wp (controller_add_job p) (fun _ w' => controller_inv h a w' /\ is_Some (w_jobs w' !! p) /\ w_reqs w' = w_reqs w) w.
Proof.
  intros I Hp. unfold controller_add_job. wp_one.
  eapply wp_mono; [apply (inv_runs h a _ w I); by apply (runs_job_export I)|]. cbn beta. intros ok w1 [I1 Hc1].
  assert (is_Some (w_jobs w1 !! p)) as [j Hj].
  { destruct Hp as [j Hj]. destruct (alike_some _ _ _ p j (cm_jobs _ _ _ Hc1) Hj) as (j' & Hj' & _). by exists j'. }
  pose proof (cm_reqs _ _ _ Hc1) as Er.
  destruct ok; cbn [negb]; [|apply wp_ret; split_and!; [done|by exists j|done]].
  wp_one. eapply wp_load; [exact Hj|]. wp_one. wp_one. set (w2 := emit _ w1).
  assert (controller_inv h a w2) as I2 by by apply inv_called.
  destruct (_ <? 0); [apply wp_ret; split_and!; [done|by exists j|done]|].
  unfold job_ref. wp_one. wp_one. eapply wp_update; [exact Hj|]. apply wp_ret. wp_one. wp_one. apply wp_ret.
  split_and!; [|cbn; rewrite lookup_insert_eq; by eexists|done].
  pose proof (ci_fresh _ _ _ I2) as Hf.
  pose proof (inv_with_jobs h a w2 _ _ _ _ _ I2 (jobs_ok_list p j (ci_jobs _ _ _ I2) Hj)
    (fresh_update (fr_jobs _ Hf) p j _ Hj) (fr_setups _ Hf)) as I3.
  destruct h, w1 as [? ? ? ? ? ? ? ? []]. exact I3.
Qed.

(** The handler gives up the request that was answered. *)
Lemma inv_last_ref {A} a r (x : A) w : controller_inv (hold_req r 1 nothing) a w ->
  (forall q f, w_reqs w !! r = Some q -> req_cb q = agent_fleet_request_callback f -> req_wait a w r = 0) ->
  wp (agent_request_unref r ;; mret x) (fun _ w' => controller_inv nothing a w') w.
Proof.
  intros I Hw. assert (1 <= h_req (hold_req r 1 nothing) r) as Hr by by apply hold_req_pos.
  destruct (ro_held _ _ _ _ _ _ (ci_reqs _ _ _ I) r) as [_ Hsome]. destruct (Hsome Hr) as [q Hq]. wp_one.
  eapply wp_mono; [eapply (inv_request_unref _ a r q w I); try done; intros f Hf _; by eapply Hw|]. cbn beta.
  intros _ w' [I' _]. apply wp_ret. by apply hold_req_back in I'.
Qed.

Lemma inv_lifecycle_answer h a s m w : controller_inv h a w -> is_Some (w_setups w !! s) ->
  wp (run_unit_lifecycle_method_callback s (Some m)) (fun _ w' => controller_inv h a w' /\ w_reqs w' = w_reqs w) w.
Proof.
  intros I [x Hx]. destruct (jo_setup _ _ _ _ _ _ _ (ci_jobs _ _ _ I) s x Hx) as (_ & p & Hp & Hj).
  assert (forall c w1, controller_inv h a w1 -> w_reqs w1 = w_reqs w -> plain c = true ->
    wp (bus c) (fun _ w' => controller_inv h a w' /\ w_reqs w' = w_reqs w) w1) as Hbus.
  { intros c w1 I1 Er Hc. apply wp_bus. split; [by apply inv_called|done]. }
  unfold run_unit_lifecycle_method_callback. wp_one. eapply wp_load; [exact Hx|]. unfold forward_error.
  destruct m as [name|m]; [by apply Hbus|]. rewrite Hp. wp_one. eapply wp_mono; [by apply (inv_add_job h a p w I)|].
  cbn beta. intros [] w1 (I1 & [j Hj1] & Er); cbn [negb]; [|by apply wp_ret]. wp_one. eapply wp_load; [exact Hj1|]. by apply Hbus.
Qed.

Lemma runs_forward m (r : response) copy w0 : runs w0 (forward_error m (Some r) (reply_copy m copy)).
Proof. unfold forward_error, reply_copy. destruct r; run_tac. Qed.

Lemma inv_agent_answer a r m w : controller_inv nothing a w -> outstanding a (AnswerTo r) w = true ->
  wp (agent_request_callback r (Some m)) (fun _ w' => controller_inv nothing (AnswerTo r :: a) w') w.
Proof.
  intros I Hout. pose proof (ci_reqs _ _ _ I) as Hok. assert (req_wait a w r = 1) as Hw.
  { pose proof (ro_wait _ _ _ _ _ _ Hok r). apply Nat.ltb_lt in Hout. unfold req_wait, asks, got in *. lia. }
  destruct (w_reqs w !! r) as [q|] eqn:Hq; [|pose proof (ro_dead _ _ _ _ _ _ Hok r Hq); lia].
  destruct (ro_request _ _ _ _ _ _ Hok r q Hq) as (_ & _ & Hcan & _).
  unfold agent_request_callback. wp_one. eapply wp_load; [exact Hq|]. rewrite Hcan. wp_one.
  assert ((forall f, req_cb q <> agent_fleet_request_callback f) -> forall w', controller_inv (hold_req r 1 nothing) (AnswerTo r :: a) w' ->
    w_reqs w' = w_reqs w -> forall x : Z, wp (agent_request_unref r ;; mret x) (fun _ w' => controller_inv nothing (AnswerTo r :: a) w') w') as Hend.
  { intros Hcb w' I' Er x. apply inv_last_ref; [done|]. intros u f. rewrite Er, Hq. intros [= <-] Hf. by destruct (Hcb f). }
  assert ((forall f, req_cb q <> agent_fleet_request_callback f) -> controller_inv (hold_req r 1 nothing) (AnswerTo r :: a) w) as Hone.
  { intros Hcb. by apply (inv_answered_one a r q w I). }
  assert ((forall f, req_cb q <> agent_fleet_request_callback f) -> forall k : CM Z, runs w k ->
    wp k (fun x w' => wp (agent_request_unref r ;; mret x) (fun _ w' => controller_inv nothing (AnswerTo r :: a) w') w') w) as Hruns.
  { intros Hcb k Hk. eapply wp_mono; [by apply (inv_runs _ _ k w (Hone Hcb))|]. cbn beta. intros x w' [I' Hc].
    apply Hend; [done..|apply (cm_reqs _ _ _ Hc)]. }
  unfold run_callback. wp_one. eapply wp_load; [exact Hq|].
  destruct (req_cb q) as [c|c|c|c|c|s|f] eqn:Hcb.
  1-4: apply Hruns; [done|apply runs_forward].
  - apply Hruns; [done|apply runs_ret].
  - eapply wp_mono; [apply (inv_lifecycle_answer _ _ s m w (Hone ltac:(done)))|].
    + by apply (jo_request _ _ _ _ _ _ _ (ci_jobs _ _ _ I) r q s).
    + cbn beta. intros x w' [I' Er]. by apply Hend.
  - destruct (inv_answered_all a r q f w I Hw Hq Hcb) as (x & Hx & Hin & Hnd & I1).
    unfold run_agent_fleet_request_callback. wp_one. eapply wp_load; [exact Hx|].
    rewrite (set_sub_req_spec r (Some m) _ Hnd Hin). wp_one. eapply wp_update; [exact Hx|]. specialize (I1 (Some m)).
    set (w1 := store_upd _ w) in *. wp_one.
    eapply wp_mono; [eapply (inv_maybe_done (hold_req r 1 nothing) _ f _ w1 I1); try done|].
    + intros t. cbn. unfold plus. destruct (decide (t = r)); lia.
    + apply lookup_insert_eq.
    + cbn beta. intros _ w2 [I2 Ew]. wp_one. apply inv_last_ref; [done|]. intros _ _ _ _. rewrite Ew, req_wait_answered.
      change (req_wait a w1 r) with (req_wait a w r). lia.
Qed.
End callbacks.
