(* ===== verification/ControllerLife.v ===== *)
(** The life of the controller: connections come and go, and no sequence of events that
    sd-bus can deliver makes it use an object that is gone. *)
From S2P Require Import Prelude CString StringUtil ParseUtil TimeUtil Protocol BusUtils Log Cfg Socket.
From S2P Require Import World Job Events Subscriptions Monitor Proxy Requests Node Controller.
From S2P Require Import ControllerEvents WorldFacts EventFacts RegistryFacts NodeTheorems RequestTheorems.
From S2P Require Import ControllerInv ControllerSafe ControllerMonitors.
From S2P Require Import ControllerProxies ControllerRequests ControllerFleets.
Local Open Scope list_scope.

(** ** Connections that have not registered *)

Section anonymous.
Context {E : Env}.

Lemma inv_with_anonymous h a nodes l w : controller_inv h a w ->
  (forall p, p ∈ c_nodes (w_controller w) -> nodes !! p = w_nodes w !! p) ->
  nodes_ok nodes (c_nodes (w_controller w)) l (c_number_of_nodes (w_controller w)) ->
  (forall p, (w_next_ptr w <= p)%positive -> nodes !! p = None) ->
  controller_inv h a (w <| w_nodes := nodes |> <| w_controller ::= fun c => c <| c_anonymous_nodes := l |> |>).
Proof.
  intros [Hreg I] Hsame Hok Hf1. pose proof (ci_fresh _ _ _ I) as Hf. destruct I. split.
  - assert (forall p n, is_node (w <| w_nodes := nodes |>) p n -> is_node w p n) as Hn.
    { intros p n [Hp Hn]. split; [exact Hp|]. by rewrite <- Hsame. }
    destruct Hreg. split; try done; cbn.
    + intros p Hp. destruct (ok_nodes p Hp) as (n & name & Hpn & ?). exists n, name. by rewrite Hsame.
    + intros p q n n' Hp Hq. apply ok_names; by apply Hn.
    + intros s Hs. destruct (ok_live s Hs) as (x & Hx & Ht). exists x. split; [done|].
      destruct (sub_monitor x) as [|m|m]; [done|done|]. destruct Ht as (y & Hy & Hyn). exists y. split; [done|].
      destruct (po_proxy _ _ _ _ _ _ _ _ ci_proxies m y Hy) as (Hl & _). cbn. by rewrite Hsame.
    + intros p n Hp. by apply (ok_entries p n), Hn.
  - split; try assumption; cbn.
    + intros p n Hp Hn. rewrite Hsame in Hn by done. by apply ci_refs.
    + destruct ci_reqs. split; try done.
      * intros r q Hq. destruct (ro_request r q Hq) as (Hp & ? & ?).
        split_and!; try tauto. intros n. rewrite Hsame by done. auto.
      * intros p n Hp. rewrite Hsame by done. auto.
    + assert (forall p x, pm_node x ∈ c_nodes (w_controller w) -> pm_listed nodes p x = pm_listed (w_nodes w) p x) as Hl.
      { intros p x Hx. unfold pm_listed. by rewrite Hsame. }
      destruct ci_proxies. split; try done.
      * intros p x Hx. destruct (po_proxy p x Hx) as (Hp & Hrest). split; [done|]. unfold pm_up in *. rewrite Hl by done. exact Hrest.
      * intros p n Hp. rewrite Hsame by done. auto.
    + by destruct Hf.
Qed.

Lemma nodes_ok_gone nodes l anonymous k p : nodes_ok nodes l anonymous k -> p ∉ l -> p ∈ anonymous ->
  nodes_ok (delete p nodes) l (remove_first p anonymous) k.
Proof.
  intros [] Hp Ha. split; try done.
  - intros q n Hq [_ Hn]%lookup_delete_Some. eauto.
  - intros q n [_ Hn]%lookup_delete_Some. eauto.
  - intros q n [Hne Hn]%lookup_delete_Some Hname. destruct (no_anonymous q n Hn Hname) as (? & ?). split; [|done].
    by apply remove_first_ne.
  - intros q Hq. assert (q <> p) as Hne by (apply elem_of_remove_first in Hq; tauto).
    apply remove_first_elem in Hq. destruct (no_waiting q Hq) as (n & Hn & Hname). exists n.
    by rewrite lookup_delete_ne.
  - by apply remove_first_nodup.
Qed.
Lemma nodes_ok_new nodes l anonymous k p n : nodes_ok nodes l anonymous k -> nodes !! p = None -> p ∉ l ->
  node_name n = None -> node_ref_count n = 1 -> node_unit_subscriptions n = ∅ -> node_proxy_monitors n = [] ->
  node_export_slot n = false -> nodes_ok (<[p := n]> nodes) l (anonymous ++ [p]) k.
Proof.
  intros [] Hp Hl E1 E2 E3 E4 E5. split; try done.
  - intros q m Hq Hm. at_key q p; [done|eauto].
  - intros q m Hm Hname. at_key q p; [congruence|eauto].
  - intros q m Hm Hname. rewrite elem_of_app. at_key q p.
    + injection Hm as <-. split_and!; try done. right. by left.
    + destruct (no_anonymous q m Hm Hname) as (? & ?). split; [by left|done].
  - intros q [Hq| ->%list_elem_of_singleton]%elem_of_app; [|exists n; by rewrite lookup_insert_eq].
    destruct (no_waiting q Hq) as (m & Hm & ?). exists m. rewrite lookup_insert_ne; [done|]. congruence.
  - apply NoDup_app. split_and!; [done| |apply NoDup_singleton]. intros q Hq ->%list_elem_of_singleton.
    destruct (no_waiting p Hq) as (m & ? & _). congruence.
Qed.

Lemma not_listed h a p n w : controller_inv h a w -> w_nodes w !! p = Some n -> node_name n = None ->
  p ∉ c_nodes (w_controller w).
Proof.
  intros I Hn Hname Hp. destruct (listed_node I p Hp) as (m & name & _ & Hm & Hm' & _). congruence.
Qed.

Context {L : EnvLaws E}.

Lemma hashmap_order_empty : hashmap_order ∅ = [].
Proof. pose proof (hashmap_order_perm ∅) as H. rewrite map_to_list_empty in H. by apply Permutation_nil_r in H. Qed.

(** The last reference to a node; the change of the status of a named one may be announced. *)
Lemma wp_node_unref_last p n Q w : w_nodes w !! p = Some n -> node_ref_count n = 1 ->
  node_proxy_monitors n = [] -> node_unit_subscriptions n = ∅ ->
  Q tt (w <| w_nodes ::= delete p |>) ->
  (forall c, plain c = true -> Q tt (emit c (w <| w_nodes ::= delete p |>))) -> wp (node_unref p) Q w.
Proof.
  intros Hn Hr Hpm Hu HQ HQe. unfold node_unref. unfold wp. cbn [node_unref_fuel].
  change (wp (update p (fun n : Node => n <| node_ref_count ::= Z.pred |>) ;;
    n ← load (T := Node) p;
    if negb (node_ref_count n =? 0) then mret tt else
    foreach (node_proxy_monitors n)
      (node_remove_proxy_monitor_with (node_unref_fuel (S (size (w_nodes w)))) p) ;;
    node_unset_agent_bus p ;;
    n ← load (T := Node) p;
    hashmap_free_usubs (node_unit_subscriptions n) ;;
    free (T := Node) p) Q w).
  wp_one. eapply wp_update; [exact Hn|]. wp_one. eapply wp_load; [apply lookup_insert_eq|].
  set (n1 := n <| node_ref_count ::= Z.pred |>).
  assert (node_ref_count n1 = 0 /\ node_proxy_monitors n1 = [] /\ node_unit_subscriptions n1 = ∅)
    as (Hr1 & Hpm1 & Hu1) by (split_and!; [cbn; lia|done..]).
  clearbody n1. rewrite Hr1, Hpm1. cbn [foreach negb Z.eqb]. wp_one. wp_one. wp_one. unfold node_unset_agent_bus.
  wp_one. eapply wp_load; [apply lookup_insert_eq|]. wp_one. eapply wp_update; [apply lookup_insert_eq|].
  rewrite store_insert_insert. set (n2 := field_update node_peer_ip _ _). assert (node_unit_subscriptions n2 = ∅) as Hu2 by done.
  clearbody n2.
  assert (forall v, (v = store_upd (T := Node) <[p := n2]> w \/
      exists c, plain c = true /\ v = emit c (store_upd (T := Node) <[p := n2]> w)) ->
    wp (n ← load (T := Node) p; hashmap_free_usubs (node_unit_subscriptions n) ;; free (T := Node) p) Q v) as Hend.
  { intros v Hv. assert (w_nodes v !! p = Some n2) as Hp by (destruct Hv as [->|(c & _ & ->)]; apply lookup_insert_eq).
    wp_one. eapply wp_load; [exact Hp|]. wp_one. unfold hashmap_free_usubs.
    rewrite Hu2, hashmap_order_empty. cbn [foreach]. wp_one. eapply wp_free; [exact Hp|]. destruct Hv as [->|(c & Hc & ->)].
    - rewrite store_delete_insert. exact HQ.
    - change (Q tt (emit c (store_upd (T := Node) (delete p) (store_upd (T := Node) <[p := n2]> w)))).
      rewrite store_delete_insert. by apply HQe. }
  destruct (node_is_online n1).
  - wp_one. wp_one. wp_one. apply Hend. right. eexists. split; [|done]. done.
  - wp_one. apply Hend. by left.
Qed.

(** A connection that never registered is lost. *)
Lemma inv_remove_anonymous h a p n w : controller_inv h a w -> w_nodes w !! p = Some n -> node_name n = None ->
  wp (controller_remove_node p) (fun _ w' => controller_inv h a w') w.
Proof.
  intros I Hn Hname. destruct (no_anonymous _ _ _ _ (ci_nodes _ _ _ I) p n Hn Hname) as (Ha & Hr & Hu & Hpm & _).
  pose proof (not_listed h a p n w I Hn Hname) as Hl.
  unfold controller_remove_node. wp_one. eapply wp_load; [exact Hn|]. wp_one. wp_one. rewrite Hname. wp_one. wp_one.
  apply wp_list_remove_from; [done|]. wp_one.
  replace (node_is_online n) with false by (unfold node_is_online; rewrite Hname; done). wp_one. wp_one.
  pose proof (inv_with_anonymous h a (delete p (w_nodes w)) (remove_first p (c_anonymous_nodes (w_controller w))) w I) as H.
  match goal with |- wp _ _ ?v => assert (controller_inv h a (v <| w_nodes ::= delete p |>)) as I1 end.
  { destruct w as [? ? ? ? ? ? ? ? []]. apply H.
    - intros q Hq. rewrite lookup_delete_ne; [done|]. by intros <-.
    - by apply nodes_ok_gone; [apply (ci_nodes _ _ _ I)|..].
    - apply (fresh_delete (fr_nodes _ (ci_fresh _ _ _ I))). }
  eapply wp_node_unref_last; [exact Hn|done..|]. intros c Hc. by apply inv_called.
Qed.
End anonymous.

Section connections.
Context {E : Env} {L : EnvLaws E} (Hnf : no_local_failure E) (Hclocks : clocks_work E) (a : list answer).

Lemma inv_accept nfd server w : controller_inv nothing a w ->
  wp (controller_accept_node_connection nfd server) (fun _ w' => controller_inv nothing a w') w.
Proof.
  intros I. unfold controller_accept_node_connection. destruct (nfd <? 0); [by apply wp_ret|].
  destruct server as [b|]; [|by apply wp_ret]. wp_one. unfold controller_add_node, node_new. wp_one. wp_one.
  local_works. wp_one. wp_one. wp_one. local_works. wp_one. wp_one. wp_one. wp_one.
  set (w0 := tick (tick w)). set (p := w_next_ptr w). set (n := mkNode _ _ _ _ _ _ _ _ _ _ _ _ _ _ _ _ _ _ _).
  assert (controller_inv nothing a (w0 <| w_next_ptr ::= Pos.succ |>)) as I0.
  { eapply controller_inv_still; [|exact I]. apply calm_stores; try done. cbn. lia. }
  pose proof (fr_nodes _ (ci_fresh _ _ _ I) p ltac:(unfold p; lia)) as Hp.
  assert (p ∉ c_nodes (w_controller w)) as Hl.
  { intros Hin. destruct (listed_node I p Hin) as (m & _ & _ & Hm & _). congruence. }
  pose proof (inv_with_anonymous nothing a (<[p := n]> (w_nodes w)) (c_anonymous_nodes (w_controller w) ++ [p]) _ I0) as H.
  match goal with |- wp _ _ ?v => assert (controller_inv nothing a v /\ w_nodes v !! p = Some n) as [I1 Hn] end.
  { split; [|apply lookup_insert_eq]. destruct w as [? ? ? ? ? ? ? ? []]. apply H.
    - intros q Hq. rewrite lookup_insert_ne; [done|]. by intros <-.
    - by apply nodes_ok_new; [apply (ci_nodes _ _ _ I)|..].
    - intros q Hq. cbn in Hq. rewrite lookup_insert_ne by (unfold p; cbn; lia). apply (fr_nodes _ (ci_fresh _ _ _ I)). cbn. lia. }
  clear H. match goal with |- wp _ _ ?v => set (w1 := v) in * end. clearbody w1.
  wp_one. eapply wp_mono; [apply (inv_runs nothing a _ w1 I1); apply runs_set_agent_bus; by exists n|].
  cbn beta. intros [] w2 [I2 Hc]; cbn [negb]; [by apply wp_ret|]. wp_one.
  destruct (calm_node _ _ _ p n Hc Hn) as (n2 & Hn2 & Hcore & _).
  eapply wp_mono; [apply (inv_remove_anonymous nothing a p n2 w2 I2 Hn2)|cbn beta; intros _ w3 I3; by apply wp_ret].
  unfold node_core in Hcore. cbn in Hcore. congruence.
Qed.

(** An agent is lost: its units, proxies and jobs are. *)
Lemma inv_disconnect_named p w : controller_inv nothing a w -> p ∈ c_nodes (w_controller w) ->
  wp (node_disconnect p) (fun _ w' => controller_inv nothing a w' /\ c_nodes (w_controller w') = c_nodes (w_controller w)) w.
Proof.
  intros I Hp. unfold node_disconnect. wp_one. eapply wp_mono; [by apply (inv_disconnect_units Hnf nothing a p w I)|].
  cbn beta. intros _ w1 [I1 Hc1]. destruct (calm_listed _ _ _ Hc1) as (E1 & _). rewrite <- E1 in Hp |- *.
  destruct (listed_node I1 p Hp) as (n & name & _ & Hn & _). wp_one. eapply wp_load; [exact Hn|]. wp_one.
  eapply wp_mono; [by apply (inv_remove_proxies a p n w1 I1 Hp Hn)|]. cbn beta. intros _ w2 [I2 E2]. rewrite <- E2 in Hp |- *.
  destruct (listed_node I2 p Hp) as (n2 & name2 & _ & Hn2 & Hname2 & _). wp_one. eapply wp_load; [exact Hn2|]. rewrite Hname2.
  wp_one. wp_one. wp_one. eapply wp_mono; [by apply (inv_drop_jobs nothing a name2 w2 I2)|].
  cbn beta. intros _ w3 [I3 E3]. rewrite <- E3 in Hp |- *. destruct (listed_node I3 p Hp) as (n3 & _ & _ & Hn3 & _).
  eapply wp_mono; [apply (inv_runs nothing a _ w3 I3)|].
  - apply runs_bind; [apply runs_unset_agent_bus; by exists n3|]. intros _. apply runs_count_online.
  - cbn beta. intros _ w4 [I4 Hc4]. destruct (calm_listed _ _ _ Hc4) as (E4 & _). done.
Qed.

Lemma inv_disconnected p w : controller_inv nothing a w -> is_Some (w_nodes w !! p) ->
  wp (node_disconnected p) (fun _ w' => controller_inv nothing a w') w.
Proof.
  intros I [n Hn]. unfold node_disconnected. wp_one. eapply wp_mono; [|intros x w' H; apply wp_ret; exact H].
  destruct (node_name n) as [name|] eqn:Hname.
  - eapply wp_mono; [apply (inv_disconnect_named p w I)|by intros _ w' [? _]].
    eapply (no_named _ _ _ _ (ci_nodes _ _ _ I)); [exact Hn|congruence].
  - destruct (no_anonymous _ _ _ _ (ci_nodes _ _ _ I) p n Hn Hname) as (Ha & Hr & Hu & Hpm & _).
    unfold node_disconnect. wp_one. unfold node_disconnect_units. wp_one. eapply wp_load; [exact Hn|].
    rewrite Hu, hashmap_order_empty. cbn [foreach]. wp_one. wp_one. eapply wp_load; [exact Hn|]. rewrite Hpm. cbn [foreach].
    wp_one. wp_one. wp_one. eapply wp_load; [exact Hn|]. rewrite Hname. by eapply inv_remove_anonymous.
Qed.

Lemma inv_heartbeats reset w : controller_inv nothing a w ->
  wp (controller_heartbeat_timer_callback reset) (fun _ w' => controller_inv nothing a w') w.
Proof.
  intros I. unfold controller_heartbeat_timer_callback. wp_one.
  eapply wp_mono; [apply (inv_runs nothing a _ w I); by apply runs_time_monotonic|]. cbn beta. intros now w1 [I1 _].
  wp_one. wp_one. wp_one. eapply (wp_mono _ (fun _ w' => controller_inv nothing a w')); [|intros x w' H; apply wp_ret; exact H].
  apply (wp_foreach (fun rest w' => controller_inv nothing a w' /\ forall p, p ∈ rest -> p ∈ c_nodes (w_controller w'))).
  - by split.
  - intros p rest w2 [I2 Hin].
    assert (forall w', controller_inv nothing a w' -> c_nodes (w_controller w') = c_nodes (w_controller w2) ->
      controller_inv nothing a w' /\ forall q, q ∈ rest -> q ∈ c_nodes (w_controller w')) as Hend.
    { intros w' I' E'. split; [done|]. intros q Hq. rewrite E'. apply Hin. by right. }
    assert (p ∈ c_nodes (w_controller w2)) as Hp by (apply Hin; by left).
    destruct (listed_node I2 p Hp) as (n & _ & _ & Hn & _). unfold heartbeat_node. wp_one. eapply wp_load; [exact Hn|].
    destruct (node_is_online n); cbn [negb]; [|apply wp_ret; by apply Hend]. wp_one. unfold controller_check_node_liveness.
    wp_one. wp_one. wp_one. eapply wp_load; [exact Hn|]. destruct (liveness_expired _ n now).
    + wp_one. eapply wp_mono; [by apply (inv_disconnect_named p w2 I2)|]. cbn beta. intros _ w3 [I3 E3].
      apply wp_ret. cbn [negb]. apply wp_ret. by apply Hend.
    + apply wp_ret. cbn [negb]. wp_one. eapply wp_load; [exact Hn|].
      destruct (node_agent_bus n); [|apply wp_ret; by apply Hend]. wp_one. wp_one. apply wp_ret. apply Hend; [by apply inv_called|done].
  - by intros w2 [? _].
Qed.
End connections.

(** ** Every event *)

Section events.
Context {E : Env} {L : EnvLaws E} (Hnf : no_local_failure E) (Hclocks : clocks_work E) (a : list answer).

Lemma exported_listed h p n w : controller_inv h a w -> w_nodes w !! p = Some n -> node_export_slot n = true ->
  p ∈ c_nodes (w_controller w).
Proof.
  intros I Hn Hexp. pose proof (ci_nodes _ _ _ I) as Hok. apply (no_named _ _ _ _ Hok p n Hn). intros Hname.
  destruct (no_anonymous _ _ _ _ Hok p n Hn Hname) as (_ & _ & _ & _ & ?). congruence.
Qed.

Lemma inv_controller_call m c w : controller_inv nothing a w ->
  wp (ControllerObject.controller_vtable m c) (fun _ w' => controller_inv nothing a w') w.
Proof.
  intros I. assert (forall k : CM Z, runs w k -> wp k (fun _ w' => controller_inv nothing a w') w) as Hr.
  { intros k Hk. eapply wp_mono; [by apply (inv_runs nothing a k w I)|]. by intros x w' [? _]. }
  destruct c; cbn [ControllerObject.controller_vtable].
  1-2: by apply inv_fleet_start.
  - by apply Hr, (runs_list_nodes I).
  - by apply Hr, (runs_get_node I).
  - by apply inv_create_monitor.
  - by apply Hr, runs_set_log_level.
  - by apply Hr, (runs_metrics_enable I).
  - by apply Hr, (runs_metrics_disable I).
Qed.

Lemma inv_node_call m p c w : controller_inv nothing a w -> p ∈ c_nodes (w_controller w) ->
  wp (NodeObject.node_vtable m p c) (fun _ w' => controller_inv nothing a w') w.
Proof.
  intros I Hp. destruct c; cbn [NodeObject.node_vtable].
  1-2: by apply (inv_node_list Hnf a).
  1-4: by apply inv_lifecycle.
  - by apply inv_set_unit_properties.
  - eapply wp_mono; [apply (inv_runs nothing a _ w I); apply runs_node_set_log_level; by apply (listed_there I)|].
    by intros x w' [? _].
  - by apply inv_passthrough.
Qed.

Lemma inv_monitor_call m p c w : controller_inv nothing a w -> is_Some (w_monitors w !! p) ->
  wp (MonitorObject.monitor_vtable m p c) (fun _ w' => controller_inv nothing a w') w.
Proof.
  intros I Hp. assert (forall k : CM Z, runs w k -> wp k (fun _ w' => controller_inv nothing a w') w) as Hr.
  { intros k Hk. eapply wp_mono; [by apply (inv_runs nothing a k w I)|]. by intros x w' [? _]. }
  destruct c; cbn [MonitorObject.monitor_vtable].
  - by apply inv_subscribe.
  - by apply inv_subscribe_list.
  - by apply inv_unsubscribe.
  - by apply Hr, runs_add_peer.
  - by apply Hr, runs_remove_peer.
  - by apply inv_method_close.
Qed.

Lemma inv_agent_signal p s w : controller_inv nothing a w -> p ∈ c_nodes (w_controller w) ->
  wp (AgentPeer.match_signal p s) (fun _ w' => controller_inv nothing a w') w.
Proof.
  intros I Hp. destruct s; try by apply inv_signal.
  - by apply inv_job_done.
  - by apply inv_proxy_new.
  - by apply inv_proxy_removed.
Qed.

Lemma inv_event e w : controller_inv nothing a w -> deliverable a e w = true ->
  wp (handle_controller_event e) (fun _ w' => controller_inv nothing (app (answered_by e) a) w') w.
Proof.
  intros I He. assert (forall {A} (k : CM A) b, wp k (fun _ w' => controller_inv nothing b w') w ->
    wp (k ;; mret tt) (fun _ w' => controller_inv nothing b w') w) as Hend.
  { intros A k b Hk. wp_one. eapply wp_mono; [exact Hk|]. intros x w' I'. by apply wp_ret. }
  destruct e as [m path iface c|args|nfd server|m p args|p s|r m|p|p|reset]; cbn [handle_controller_event answered_by app].
  - wp_one. eapply wp_mono; [by apply (inv_runs nothing a _ w I), (runs_filter I)|]. cbn beta. intros x w1 [I1 Hc].
    destruct (negb (x =? 0)); [by apply wp_ret|]. wp_one. eapply (wp_mono _ (fun _ w' => controller_inv nothing a w'));
      [|intros y w' H; apply wp_ret; exact H].
    destruct (calm_listed _ _ _ Hc) as (En & _). cbn in He. destruct c as [c|p c|p c|p]; cbn [client_vtable].
    + by apply inv_controller_call.
    + apply inv_node_call; [done|]. rewrite En. destruct (w_nodes w !! p) as [n|] eqn:Hn; [|done].
      apply (exported_listed nothing p n w I Hn). by destruct (node_export_slot n).
    + apply inv_monitor_call; [done|]. destruct (w_monitors w !! p) as [x0|] eqn:Hx; [|done].
      destruct (alike_some _ _ _ p x0 (cm_monitors _ _ _ Hc) Hx) as (y & ? & _). by exists y.
    + apply inv_job_cancel; [done..|]. destruct (w_jobs w !! p) as [x0|] eqn:Hx; [|done].
      destruct (alike_some _ _ _ p x0 (cm_jobs _ _ _ Hc) Hx) as (y & ? & _). by exists y.
  - by apply Hend, inv_name_owner_changed.
  - by apply Hend, inv_accept.
  - apply Hend. cbn in He. destruct (w_nodes w !! p) as [n|] eqn:Hn; [|done].
    eapply wp_mono; [apply (inv_runs nothing a _ w I); apply (runs_register Hclocks I); by exists n|]. by intros x w' [? _].
  - apply Hend, inv_agent_signal; [done|]. cbn in He. destruct (w_nodes w !! p) as [n|] eqn:Hn; [|done].
    apply (no_named _ _ _ _ (ci_nodes _ _ _ I) p n Hn). apply andb_true_iff in He as [[_ He]%andb_true_iff _].
    apply bool_decide_eq_true in He. by intros H; rewrite H in He; destruct He.
  - by apply Hend, inv_agent_answer.
  - by apply Hend, inv_proxy_callback.
  - apply Hend, inv_disconnected; [done..|]. cbn in He. by destruct (w_nodes w !! p).
  - by apply Hend, inv_heartbeats.
Qed.
End events.

Section loop.
Context {E : Env} {L : EnvLaws E} (Hnf : no_local_failure E) (Hclocks : clocks_work E).

Lemma inv_loop events : forall a w, controller_inv nothing a w ->
  wp (controller_loop a events) (fun a' w' => controller_inv nothing a' w') w.
Proof.
  induction events as [|e events IH]; intros a w I; cbn [controller_loop]; [by apply wp_ret|].
  wp_one. apply (wp_get (W := World)). destruct (deliverable a e w) eqn:He; [|by apply IH].
  wp_one. eapply wp_mono; [by apply (inv_event Hnf Hclocks a e w I)|]. cbn beta. intros _ w' I'. by apply IH.
Qed.
End loop.
