(* ===== verification/ControllerStop.v ===== *)
(** The end of the controller: it gives up its jobs, subscriptions, monitors and nodes,
    cancels what was asked of the nodes that are online, and leaves nothing on its lists. *)
From S2P Require Import Prelude CString StringUtil ParseUtil TimeUtil Protocol BusUtils Log Cfg Socket.
From S2P Require Import World Job Events Subscriptions Monitor Proxy Requests Node Controller.
From S2P Require Import ControllerEvents WorldFacts EventFacts RegistryFacts NodeTheorems RequestTheorems.
From S2P Require Import FleetTheorems ControllerInv ControllerSafe ControllerMonitors ControllerProxies.
From S2P Require Import ControllerRequests ControllerFleets ControllerLife.
Local Open Scope list_scope.

(** ** Ownership while the controller stops *)

(** Whether a request was cancelled says nothing of ownership. *)
Definition uncancel (q : AgentRequest) : AgentRequest := q <| req_is_cancelled := false |>.

Section stopping.
Context {E : Env} (nodes0 : list ptr).      (* the nodes the controller had *)

(** Nodes leave the list and are released when nothing refers to them any more. [m] are the
    requests to all agents; the state may hold one more, which is being released. *)
Definition owners (h : held) (m : gmap ptr AgentFleetRequest) (w : World) (p : ptr) : Z :=
  h_node h p + Z.of_nat (count p (c_nodes (w_controller w))) + count_map (asks_node p) (w_reqs w) +
  sum_map (entries_on p) m.
Definition owned (w : World) (p : ptr) (k : Z) : Prop := exists n, w_nodes w !! p = Some n /\
  node_name n <> None /\ k <= node_ref_count n /\ node_proxy_monitors n = [] /\ node_unit_subscriptions n = ∅.
Record stopping (h : held) (a : list answer) (m : gmap ptr AgentFleetRequest) (w : World) : Prop := {
  sp_held : forall p, 0 <= h_node h p;
  sp_nodes : forall p, 1 <= owners h m w p -> owned w p (owners h m w p);
  sp_reqs : reqs_ok (h_req h) (req_wait a w) (w_nodes w) (uncancel <$> w_reqs w) m nodes0;
  sp_jobs : jobs_ok (h_job h) (h_setup h) (w_jobs w) (w_setups w) (w_reqs w) [] nodes0;
  sp_open : fleets_open (h_fleet h) m;
  sp_anonymous : forall p, p ∈ c_anonymous_nodes (w_controller w) -> exists n, w_nodes w !! p = Some n /\
    node_name n = None /\ node_ref_count n = 1 /\ node_proxy_monitors n = [] /\ node_unit_subscriptions n = ∅;
}.

Lemma owners_parts h m w p : (forall p, 0 <= h_node h p) ->
  0 <= h_node h p /\ 0 <= count_map (asks_node p) (w_reqs w) /\ 0 <= sum_map (entries_on p) m.
Proof.
  intros H. split_and!; [apply H|apply count_map_nonneg|]. apply sum_map_nonneg. intros. unfold entries_on. lia.
Qed.

(** The node of a request. *)
Lemma stopping_request h a m w r q : stopping h a m w -> w_reqs w !! r = Some q ->
  1 <= owners h m w (req_node q) /\ exists n, w_nodes w !! req_node q = Some n /\ r ∈ node_outstanding_requests n.
Proof.
  intros S Hq. assert (1 <= owners h m w (req_node q)) as H1.
  { destruct (owners_parts h m w (req_node q) (sp_held _ _ _ _ S)) as (? & _ & ?).
    pose proof (count_map_pos (asks_node (req_node q)) (w_reqs w) r q Hq) as Hc. unfold owners.
    assert (asks_node (req_node q) q = true) as Ha by (by apply bool_decide_eq_true_2). specialize (Hc Ha). lia. }
  split; [done|]. destruct (sp_nodes _ _ _ _ S _ H1) as (n & Hn & _). exists n. split; [done|].
  destruct (ro_request _ _ _ _ _ _ (sp_reqs _ _ _ _ S) r (uncancel q)) as (_ & Hout & _).
  { by rewrite lookup_fmap, Hq. }
  by apply Hout.
Qed.

(** Steps that change nothing of it. *)
Lemma stopping_still h a m w w' : still w w' -> stopping h a m w -> stopping h a m w'.
Proof.
  intros Hc []. destruct (calm_listed _ _ _ Hc) as (E1 & E2 & _).
  assert (forall p, owners h m w' p = owners h m w p) as Ho.
  { intros p. unfold owners. by rewrite E1, (cm_reqs _ _ _ Hc). }
  assert (forall p n, w_nodes w !! p = Some n -> exists n', w_nodes w' !! p = Some n' /\ node_core n' = node_core n /\
    node_unit_subscriptions n' = node_unit_subscriptions n) as Hn.
  { intros p n Hp. destruct (calm_node _ _ _ _ _ Hc Hp) as (n' & ? & ? & Hu). exists n'. split_and!; [done..|].
    apply Hu. by intros []. }
  split; try done.
  - intros p. rewrite Ho. intros Hp. destruct (sp_nodes0 p Hp) as (n & Hpn & ? & ? & ? & ?).
    destruct (Hn p n Hpn) as (n' & Hn' & Hcore & Hu). core_of Hcore. exists n'. split_and!; congruence.
  - eapply (reqs_ok_ext _ _ (req_wait a w)); [done| |].
    + intros r. unfold req_wait. by rewrite (cm_asked _ _ _ Hc).
    + rewrite (cm_reqs _ _ _ Hc). eapply reqs_ok_alike; [apply Hc|done].
  - by eapply jobs_ok_calm.
  - rewrite E2. intros p Hp. destruct (sp_anonymous0 p Hp) as (n & Hpn & ? & ? & ? & ?).
    destruct (Hn p n Hpn) as (n' & Hn' & Hcore & Hu). core_of Hcore. exists n'. split_and!; congruence.
Qed.

(** *** A reference to a node goes *)

Definition node_dropped (p : ptr) (n : Node) (w : World) : World :=
  if node_ref_count n =? 1 then w <| w_nodes ::= delete p |>
  else set_node p (n <| node_ref_count ::= Z.pred |>) w.

Context {L : EnvLaws E}.

Lemma wp_node_dropped p n Q w : w_nodes w !! p = Some n -> 1 <= node_ref_count n ->
  node_proxy_monitors n = [] -> node_unit_subscriptions n = ∅ -> Q tt (node_dropped p n w) ->
  (forall c, plain c = true -> Q tt (emit c (node_dropped p n w))) -> wp (node_unref p) Q w.
Proof.
  intros Hn Hr Hpm Hu HQ HQe. unfold node_dropped in *. destruct (node_ref_count n =? 1) eqn:E1.
  - apply Z.eqb_eq in E1. by eapply wp_node_unref_last.
  - apply Z.eqb_neq in E1. eapply wp_node_unref_some; [exact Hn|lia|done].
Qed.

Lemma node_dropped_rest p n w : w_reqs (node_dropped p n w) = w_reqs w /\ w_jobs (node_dropped p n w) = w_jobs w /\
  w_setups (node_dropped p n w) = w_setups w /\ w_fleets (node_dropped p n w) = w_fleets w /\
  w_controller (node_dropped p n w) = w_controller w /\ w_trace (node_dropped p n w) = w_trace w.
Proof. unfold node_dropped. by destruct (_ =? _). Qed.
Lemma node_dropped_other p n w q : q <> p -> w_nodes (node_dropped p n w) !! q = w_nodes w !! q.
Proof. intros Hq. unfold node_dropped. destruct (_ =? _); cbn; [by rewrite lookup_delete_ne|by rewrite lookup_insert_ne]. Qed.
Lemma node_dropped_same p n w m : w_nodes (node_dropped p n w) !! p = Some m ->
  node_ref_count n <> 1 /\ m = n <| node_ref_count ::= Z.pred |>.
Proof.
  unfold node_dropped. destruct (node_ref_count n =? 1) eqn:E1; cbn; [by rewrite lookup_delete_eq|].
  apply Z.eqb_neq in E1. rewrite lookup_insert_eq. by intros [= <-].
Qed.

Lemma reqs_ok_without_node δ wait nodes reqs fleets l p : reqs_ok δ wait nodes reqs fleets l ->
  (forall r q, reqs !! r = Some q -> req_node q <> p) -> reqs_ok δ wait (delete p nodes) reqs fleets l.
Proof.
  intros [] Hp. split; try done.
  - intros r q Hq. destruct (ro_request r q Hq) as (? & ? & ?). split_and!; try tauto.
    intros n [_ Hn]%lookup_delete_Some. auto.
  - intros q n Hq [_ Hn]%lookup_delete_Some. eauto.
Qed.

Lemma stopping_node_dropped h a m w p n : stopping h a m w -> 1 <= h_node h p -> w_nodes w !! p = Some n ->
  stopping (hold_node p (-1) h) a m (node_dropped p n w).
Proof.
  intros S Hh Hn. pose proof (owners_parts h m w p (sp_held _ _ _ _ S)) as (_ & Hask & Hent).
  destruct (node_dropped_rest p n w) as (Er & Ej & Es & Ef & Ec & Et). pose proof S as [].
  assert (forall q, owners (hold_node p (-1) h) m (node_dropped p n w) q = owners h m w q - if decide (q = p) then 1 else 0) as Ho.
  { intros q. unfold owners. rewrite Er, Ec. cbn. unfold plus. case_decide; lia. }
  assert (1 <= owners h m w p) as H1 by (unfold owners; lia).
  destruct (sp_nodes0 p H1) as (n0 & Hn0 & Hname & Href & Hpm & Hu). assert (n0 = n) as -> by congruence.
  assert (forall q, w_nodes w !! q <> w_nodes w !! p -> q <> p) as Hne by (intros q Hq ->; done).
  split; rewrite ?Er, ?Ej, ?Es, ?Ec; try done.
  - intros q. cbn. by apply plus_pred.
  - intros q. rewrite Ho. destruct (decide (q = p)) as [->|Hq].
    + intros H2. assert (node_ref_count n <> 1) as Hr by lia.
      exists (n <| node_ref_count ::= Z.pred |>). unfold node_dropped. rewrite (proj2 (Z.eqb_neq _ _) Hr). cbn.
      rewrite lookup_insert_eq. split_and!; [done..|lia|done|done].
    + intros H2. unfold owned. rewrite node_dropped_other by done. rewrite Z.sub_0_r in *. by apply sp_nodes0.
  - eapply (reqs_ok_ext _ _ (req_wait a w)); [done|intros r; unfold req_wait, asks; by rewrite Et|]. unfold node_dropped.
    destruct (node_ref_count n =? 1) eqn:E1.
    + apply Z.eqb_eq in E1. apply reqs_ok_without_node; [done|]. intros r q Hq Hqn. rewrite lookup_fmap in Hq.
      destruct (w_reqs w !! r) as [q0|] eqn:Hr; [|done]. injection Hq as <-.
      pose proof (count_map_pos (asks_node p) (w_reqs w) r q0 Hr) as Hc.
      assert (asks_node p q0 = true) as Ha by (by apply bool_decide_eq_true_2). specialize (Hc Ha).
      unfold owners in *. lia.
    + by eapply reqs_ok_update.
  - intros q Hq. destruct (sp_anonymous0 q Hq) as (k & Hk & Hkn & ?). exists k. rewrite node_dropped_other; [done|].
    apply Hne. congruence.
Qed.

(** *** A reference to a request goes *)

Definition unlist (r : ptr) (n : Node) : Node := n <| node_outstanding_requests ::= remove_first r |>.
Definition request_gone (r p : ptr) (n : Node) (w : World) : World :=
  (node_dropped p (unlist r n) w) <| w_reqs ::= delete r |>.

Lemma wp_request_gone r q Q w : w_reqs w !! r = Some q -> req_ref_count q = 1 ->
  wp (free_userdata (req_cb q)) (fun _ w1 => exists n, w_nodes w1 !! req_node q = Some n /\
      r ∈ node_outstanding_requests n /\ 1 <= node_ref_count n /\ node_proxy_monitors n = [] /\
      node_unit_subscriptions n = ∅ /\ is_Some (w_reqs w1 !! r) /\ Q tt (request_gone r (req_node q) n w1) /\
      forall c, plain c = true -> Q tt (emit c (request_gone r (req_node q) n w1)))
    (w <| w_reqs ::= <[r := q <| req_ref_count ::= Z.pred |>]> |>) ->
  wp (agent_request_unref r) Q w.
Proof.
  intros Hq Hone HQ. unfold agent_request_unref. wp_one. eapply wp_update; [exact Hq|]. wp_one.
  eapply wp_load; [apply lookup_insert_eq|].
  replace (negb (req_ref_count (q <| req_ref_count ::= Z.pred |>) =? 0)) with false by (cbn; by rewrite Hone).
  wp_one. cbn [field_update req_cb req_node]. eapply wp_mono; [exact HQ|]. cbn beta.
  intros _ w1 (n & Hn & Hout & Href & Hpm & Hu & [q1 Hq1] & HQ1 & HQ2). wp_one. eapply wp_load; [exact Hn|].
  wp_one. apply wp_list_remove_from; [exact Hout|]. wp_one. unfold update_requests. eapply wp_update_node; [exact Hn|].
  change (n <| node_outstanding_requests := _ |>) with (unlist r n). set (p := req_node q) in *.
  set (w2 := set_node p (unlist r n) w1).
  assert (node_dropped p (unlist r n) w2 = node_dropped p (unlist r n) w1) as Hd.
  { unfold node_dropped, w2, set_node. destruct w1. destruct (_ =? 1); cbn; f_equal; [by rewrite delete_insert_eq|by rewrite insert_insert_eq]. }
  wp_one. eapply (wp_node_dropped p (unlist r n)); [apply lookup_insert_eq|done..| |]; rewrite Hd;
    destruct (node_dropped_rest p (unlist r n) w1) as (Er & _).
  - eapply wp_free; [by rewrite <- Er in Hq1; exact Hq1|]. exact HQ1.
  - intros c Hc. eapply wp_free; [by rewrite <- Er in Hq1; exact Hq1|]. exact (HQ2 c Hc).
Qed.

Lemma uncancel_lookup (reqs : gmap ptr AgentRequest) r q : reqs !! r = Some q -> (uncancel <$> reqs) !! r = Some (uncancel q).
Proof. intros Hq. by rewrite lookup_fmap, Hq. Qed.

Lemma stopping_request_gone h a m w r q n : stopping h a m w -> 1 <= h_req h r -> w_reqs w !! r = Some q ->
  req_ref_count q = 1 -> w_nodes w !! req_node q = Some n ->
  stopping (hold_req r (-1) (hold_user (req_cb q) 1 h)) a m (request_gone r (req_node q) n w).
Proof.
  intros S Hh Hq Hone Hn. set (p := req_node q) in *. set (h' := hold_req r (-1) _).
  pose proof (owners_parts h m w p (sp_held _ _ _ _ S)) as (Hhn & _ & Hent). pose proof S as [].
  destruct (node_dropped_rest p (unlist r n) w) as (Er & Ej & Es & Ef & Ec & Et).
  assert (asks_node p q = true) as Ha by (by apply bool_decide_eq_true_2).
  assert (forall t, count_map (asks_node t) (delete r (w_reqs w)) = count_map (asks_node t) (w_reqs w) - if decide (t = p) then 1 else 0) as Hask.
  { intros t. rewrite (count_map_delete _ _ r q Hq). unfold asks_node at 2. fold p. case_decide as Ht.
    - subst t. by rewrite bool_decide_eq_true_2.
    - by rewrite bool_decide_eq_false_2. }
  assert (forall t, owners h' m (request_gone r p n w) t = owners h m w t - if decide (t = p) then 1 else 0) as Ho.
  { intros t. unfold owners, request_gone. cbn. rewrite Er, Ec, Hask. lia. }
  assert (1 <= owners h m w p) as H1.
  { pose proof (count_map_pos (asks_node p) (w_reqs w) r q Hq Ha). unfold owners. lia. }
  destruct (sp_nodes0 p H1) as (n0 & Hn0 & Hname & Href & Hpm & Hu). assert (n0 = n) as -> by congruence.
  split; try done.
  - intros t. rewrite Ho. unfold request_gone. cbn. destruct (decide (t = p)) as [->|Ht].
    + intros H2. assert (node_ref_count n <> 1) as Hr by lia. exists (unlist r n <| node_ref_count ::= Z.pred |>).
      unfold node_dropped. change (node_ref_count (unlist r n)) with (node_ref_count n).
      rewrite (proj2 (Z.eqb_neq _ _) Hr). cbn. rewrite lookup_insert_eq. split_and!; [done..|lia|done|done].
    + intros H2. unfold owned. cbn. rewrite node_dropped_other by done. rewrite Z.sub_0_r in *. by apply sp_nodes0.
  - set (n' := unlist r n <| node_ref_count ::= Z.pred |>).
    pose proof (reqs_ok_gone sp_reqs0 r (uncancel q) p n n' (uncancel_lookup _ r q Hq) Hh Hone eq_refl Hn eq_refl) as Hok.
    rewrite <- fmap_delete in Hok. unfold request_gone. cbn. rewrite Er.
    eapply (reqs_ok_ext _ _ (req_wait a w)); [done|intros t; unfold req_wait, asks; cbn; by rewrite Et|]. unfold node_dropped.
    change (node_ref_count (unlist r n)) with (node_ref_count n). destruct (node_ref_count n =? 1) eqn:E1; cbn; [|exact Hok].
    apply Z.eqb_eq in E1. rewrite <- (delete_insert_eq (w_nodes w) p n'). apply reqs_ok_without_node; [done|].
    intros t u Htu Hun. rewrite lookup_fmap in Htu. destruct (delete r (w_reqs w) !! t) as [u0|] eqn:Hu0; [|done].
    injection Htu as <-. pose proof (count_map_pos (asks_node p) _ t u0 Hu0) as Hc.
    assert (asks_node p u0 = true) as Hu1 by (by apply bool_decide_eq_true_2). specialize (Hc Hu1).
    rewrite Hask, decide_True in Hc by done. unfold owners in *. lia.
  - unfold request_gone. cbn. rewrite Er, Ej, Es. by apply (jobs_ok_gone sp_jobs0).
  - unfold request_gone. cbn. rewrite Ec. intros t Ht. destruct (sp_anonymous0 t Ht) as (k & Hk & Hkn & ?). exists k.
    rewrite node_dropped_other; [done|]. intros ->. congruence.
Qed.

(** What these steps leave alone; the last ones also the requests to all agents. *)
Record beside (w w' : World) : Prop := {
  be_controller : ctl_core (w_controller w') = ctl_core (w_controller w);
  be_asked : forall t, asks (AnswerTo t) w' = asks (AnswerTo t) w;
  be_reqs : forall t u, w_reqs w' !! t = Some u -> exists u0, w_reqs w !! t = Some u0 /\ req_cb u = req_cb u0 /\
    req_node u = req_node u0;
}.
#[local] Instance beside_preorder : PreOrder beside.
Proof.
  split; [split; eauto|]. intros w1 w2 w3 [] []. split; try congruence. intros t u Hu.
  destruct (be_reqs1 t u Hu) as (v & Hv & ? & ?). destruct (be_reqs0 t v Hv) as (x & Hx & ? & ?).
  exists x. split_and!; congruence.
Qed.
Lemma beside_emit w w' c : plain c = true -> beside w w' -> beside w (emit c w').
Proof. intros Hc []. split; try done. intros t. by rewrite asks_emit_plain. Qed.
Lemma beside_wait w w' a r : beside w w' -> req_wait a w' r = req_wait a w r.
Proof. intros H. unfold req_wait. by rewrite (be_asked _ _ H). Qed.
Lemma beside_still w w' : still w w' -> beside w w'.
Proof. intros Hc. split; try apply Hc. intros t u. rewrite (cm_reqs _ _ _ Hc). by exists u. Qed.
Definition aside (w w' : World) : Prop := beside w w' /\ w_fleets w' = w_fleets w.
#[local] Instance aside_preorder : PreOrder aside.
Proof. split; [by intros w|]. intros w1 w2 w3 [] []. split; [by etrans|congruence]. Qed.
Lemma aside_emit w w' c : plain c = true -> aside w w' -> aside w (emit c w').
Proof. intros Hc []. split; [by apply beside_emit|done]. Qed.

Lemma stopping_emit h a m w c : plain c = true -> stopping h a m w -> stopping h a m (emit c w).
Proof. intros Hc. apply stopping_still. by apply calm_emit. Qed.

Lemma stopping_held h h' a m w : same_held h h' -> stopping h a m w -> stopping h' a m w.
Proof.
  intros (E1 & E2 & E3 & E4 & E5 & E6 & E7) [].
  assert (forall p, owners h' m w p = owners h m w p) as Ho by (intros p; unfold owners; by rewrite E1).
  split; try done.
  - intros p. by rewrite E1.
  - intros p. rewrite Ho. apply sp_nodes0.
  - by eapply reqs_ok_ext; [exact E4|done|].
  - destruct sp_jobs0. split; try done.
    + intros p j Hj. rewrite E2. by apply jo_job.
    + intros s x Hx. rewrite E3. by apply jo_setup.
    + intros p. by rewrite E2, E3.
  - intros f x Hx. rewrite E7. by apply sp_open0.
Qed.

Lemma stopping_less_request h a m w r q : stopping h a m w -> 1 <= h_req h r -> w_reqs w !! r = Some q ->
  req_ref_count q <> 1 -> (forall f, req_cb q = agent_fleet_request_callback f -> req_wait a w r = 0) ->
  stopping (hold_req r (-1) h) a m (w <| w_reqs ::= <[r := q <| req_ref_count ::= Z.pred |>]> |>).
Proof.
  intros [] Hh Hq Hne Hw. set (q' := q <| req_ref_count ::= Z.pred |>).
  assert (forall p, owners (hold_req r (-1) h) m (w <| w_reqs ::= <[r := q']> |>) p = owners h m w p) as Ho.
  { intros p. unfold owners. cbn. rewrite (count_map_update _ _ r q) by done. change (asks_node p q') with (asks_node p q). lia. }
  split; try done.
  - intros p. rewrite Ho. apply sp_nodes0.
  - cbn. rewrite fmap_insert. by apply (reqs_ok_dropped sp_reqs0 r (uncancel q)); [apply uncancel_lookup|..].
  - cbn. by apply (jobs_ok_same_cb sp_jobs0 r q).
Qed.

Lemma stopping_setup h a m w s x p j : stopping h a m w -> 1 <= h_setup h s -> w_setups w !! s = Some x ->
  setup_job x = Some p -> w_jobs w !! p = Some j -> stopping (hold_setup s (-1) h) a m (setup_dropped s x p j w).
Proof.
  intros [] Hh Hx Hp Hj. destruct (jobs_ok_setup_unref sp_jobs0 s x p j Hx Hp Hj Hh) as (H1 & H2 & H3). unfold setup_dropped.
  destruct (setup_ref_count x =? 1) eqn:E0; [apply Z.eqb_eq in E0|apply Z.eqb_neq in E0].
  - destruct (job_ref_count j =? 1) eqn:E1; [apply Z.eqb_eq in E1|apply Z.eqb_neq in E1]; split; try done; cbn; auto.
  - split; try done. cbn. auto.
Qed.

Lemma stopping_request_unref h a m w r q : stopping h a m w -> 1 <= h_req h r -> w_reqs w !! r = Some q ->
  (forall f, req_cb q = agent_fleet_request_callback f -> req_ref_count q <> 1 -> req_wait a w r = 0) ->
  wp (agent_request_unref r) (fun _ w' => stopping (hold_req r (-1) h) a m w' /\ aside w w') w.
Proof.
  intros S Hh Hq Hw. destruct (stopping_request h a m w r q S Hq) as (H1 & n & Hn & Hout).
  destruct (sp_nodes _ _ _ _ S _ H1) as (n0 & Hn0 & _ & Href & Hpm & Hu). assert (n0 = n) as -> by congruence.
  destruct (decide (req_ref_count q = 1)) as [Hone|Hne].
  2:{ unfold agent_request_unref. wp_one. eapply wp_update; [exact Hq|]. wp_one. eapply wp_load; [apply lookup_insert_eq|].
      cbn [req_ref_count field_update]. replace (Z.pred (req_ref_count q) =? 0) with false by (symmetry; apply Z.eqb_neq; lia).
      apply wp_ret.
      split; [apply stopping_less_request; [done..|]; intros f Hf; by apply (Hw f)|]. split; [split; try done; cbn|done].
      intros t u Hu'. at_key t r; [|by exists u]. injection Hu' as <-. by exists q. }
  set (p := req_node q) in *. pose proof (stopping_request_gone h a m w r q n S Hh Hq Hone Hn) as S1. fold p in S1.
  destruct (node_dropped_rest p (unlist r n) w) as (Er & Ej & Es & Ef & Ec & Et).
  assert (aside w (request_gone r p n w)) as Har.
  { unfold request_gone. split; [split|]; cbn; rewrite ?Er, ?Ec; try done.
    - intros t. unfold asks. cbn. by rewrite Et.
    - intros t u [_ Hu']%lookup_delete_Some. by exists u. }
  assert ((exists s, req_cb q = unit_lifecycle_method_callback s) \/
    (forall s, req_cb q <> unit_lifecycle_method_callback s)) as [[s Hcb]|Hcb].
  { destruct (req_cb q); first [by right|left; eauto]. }
  - rewrite Hcb in S1. set (h1 := hold_req r (-1) _) in S1. set (w1 := request_gone r p n w) in *.
    assert (1 <= h_setup h1 s) as Hs.
    { cbn. rewrite plus_eq. destruct (jo_held _ _ _ _ _ _ _ (sp_jobs _ _ _ _ S) s) as (_ & ? & _). lia. }
    pose proof (sp_jobs _ _ _ _ S1) as Hok. destruct (jo_held _ _ _ _ _ _ _ Hok s) as (_ & _ & _ & Hsome).
    destruct (Hsome Hs) as [x Hx]. destruct (jo_setup _ _ _ _ _ _ _ Hok s x Hx) as (_ & k & Hk & [j Hj]).
    pose proof (stopping_setup h1 a m w1 s x k j S1 Hs Hx Hk Hj) as S2.
    assert (stopping (hold_req r (-1) h) a m (setup_dropped s x k j w1) /\ aside w (setup_dropped s x k j w1)) as [S3 Har3].
    { split.
      - eapply stopping_held; [|exact S2]. split_and!; try done. intros t. cbn. unfold plus. case_decide; lia.
      - unfold setup_dropped. destruct Har as [[] ?]. by destruct (setup_ref_count x =? 1). }
    assert (w_setups w !! s = Some x /\ w_jobs w !! k = Some j) as [Hx0 Hj0].
    { unfold w1, request_gone in Hx, Hj. cbn in Hx, Hj. by rewrite Es in Hx; rewrite Ej in Hj. }
    eapply wp_request_gone; [exact Hq|exact Hone|]. rewrite Hcb. cbn [free_userdata].
    eapply wp_setup_dropped; [exact Hx0|exact Hk|exact Hj0|]. rewrite setup_dropped_insert. fold p. exists n.
    assert (request_gone r p n ((setup_dropped s x k j w) <| w_reqs ::= <[r := q <| req_ref_count ::= Z.pred |>]> |>) =
      setup_dropped s x k j w1) as Heq.
    { unfold w1, request_gone, setup_dropped, node_dropped, set_node. destruct w, (setup_ref_count x =? 1), (_ =? 1); cbn; f_equal; by rewrite delete_insert_eq. }
    split_and!; [by destruct w; cbn in *; rewrite setup_dropped_nodes|done|lia|done|done|
      eexists; apply lookup_insert_eq|by rewrite Heq..|].
    intros c Hc. rewrite Heq. split; [by apply stopping_emit|by apply aside_emit].
  - assert (hold_user (req_cb q) 1 h = h) as Huser.
    { unfold hold_user. destruct (req_cb q) as [| | | | |s|]; try by destruct h. by destruct (Hcb s). }
    rewrite Huser in S1. eapply wp_request_gone; [exact Hq|exact Hone|].
    replace (free_userdata (req_cb q)) with (mret (M := M World) tt).
    2:{ destruct (req_cb q) as [| | | | |s|]; try done. by destruct (Hcb s). }
    apply wp_ret. fold p. exists n.
    assert (request_gone r p n (w <| w_reqs ::= <[r := q <| req_ref_count ::= Z.pred |>]> |>) = request_gone r p n w) as Heq.
    { unfold request_gone, node_dropped, set_node. destruct w, (_ =? 1); cbn; f_equal; by rewrite delete_insert_eq. }
    rewrite Heq. split_and!; [done|done|lia|done|done|eexists; apply lookup_insert_eq|done|done|].
    intros c Hc. split; [by apply stopping_emit|by apply aside_emit].
Qed.

(** *** A request to all agents ends *)

Lemma stopping_there h a m w p : stopping h a m w -> 1 <= owners h m w p -> node_there w p.
Proof. intros S Hp. destruct (sp_nodes _ _ _ _ S p Hp) as (n & Hn & _). by exists n. Qed.

Lemma stopping_release h a m f l : forall w, (forall p, 0 <= h_node h p) -> (forall r, 0 <= h_req h r) ->
  stopping (hold_entries l h) a m w ->
  (forall s, s ∈ l -> req_wait a w (sr_agent_req s) = 0 /\
     forall q, w_reqs w !! sr_agent_req s = Some q -> req_cb q = agent_fleet_request_callback f) ->
  wp (foreach l (fun s => node_unref (sr_node s) ;; agent_request_unref (sr_agent_req s)))
    (fun _ w' => stopping h a m w' /\ aside w w') w.
Proof.
  induction l as [|s l IH]; intros w Hpos Hrpos S Hall; cbn [foreach].
  { apply wp_ret. split; [|done]. eapply stopping_held; [|exact S].
    split_and!; try done; intros t; cbn; change (count t []) with O; lia. }
  destruct (Hall s ltac:(by left)) as (Hw & Hcb). set (p := sr_node s) in *. set (r := sr_agent_req s) in *.
  set (h0 := hold_entries (s :: l) h) in *.
  assert (1 <= h_node h0 p) as Hnode.
  { unfold h0. cbn. rewrite count_cons, decide_True by done. specialize (Hpos p). lia. }
  assert (1 <= h_req h0 r) as Hreq.
  { unfold h0. cbn. rewrite count_cons, decide_True by done. specialize (Hrpos r). lia. }
  pose proof (owners_parts h0 m w p (sp_held _ _ _ _ S)) as (_ & Hask & Hent).
  assert (1 <= owners h0 m w p) as Hown by (unfold owners; lia).
  destruct (sp_nodes _ _ _ _ S p Hown) as (n & Hn & _ & Href & Hpm & Hu).
  pose proof (stopping_node_dropped h0 a m w p n S Hnode Hn) as S1.
  assert (aside w (node_dropped p n w)) as Ha1.
  { destruct (node_dropped_rest p n w) as (Er & _ & _ & Ef & Ec & Et). split; [split; rewrite ?Ec; try done|done].
    - intros t. unfold asks. by rewrite Et.
    - intros t u. rewrite Er. by exists u. }
  assert (forall v, stopping (hold_node p (-1) h0) a m v -> aside w v ->
    wp (agent_request_unref r) (fun _ v' => wp (foreach l (fun s => node_unref (sr_node s) ;; agent_request_unref (sr_agent_req s)))
      (fun _ w' => stopping h a m w' /\ aside w w') v') v) as Hrest.
  { intros v Sv Ha. destruct (ro_held _ _ _ _ _ _ (sp_reqs _ _ _ _ Sv) r) as [_ Hsome]. destruct (Hsome Hreq) as [q Hq].
    rewrite lookup_fmap in Hq. destruct (w_reqs v !! r) as [q0|] eqn:Hq0; [|done].
    eapply wp_mono; [apply (stopping_request_unref _ a m v r q0 Sv Hreq Hq0)|].
    - intros _ _ _. by rewrite (beside_wait _ _ _ _ (proj1 Ha)).
    - cbn beta. intros _ v' [S2 Ha2]. eapply wp_mono; [apply IH; [done..| |]|].
      + eapply stopping_held; [|exact S2]. split_and!; try done; intros t; cbn -[count]; unfold plus;
          cbn [fmap list_fmap]; rewrite count_cons; fold p r; case_decide; lia.
      + intros t Ht. destruct (Hall t ltac:(by right)) as (Htw & Htc).
        rewrite (beside_wait _ _ _ _ (proj1 Ha2)), (beside_wait _ _ _ _ (proj1 Ha)). split; [done|]. intros u Hu'.
        destruct (be_reqs _ _ (transitivity (proj1 Ha) (proj1 Ha2)) _ u Hu') as (u0 & Hu0 & -> & _). by apply Htc.
      + cbn beta. intros _ w' [S3 Ha3]. split; [done|]. by etrans; [exact Ha|etrans]. }
  wp_one. wp_one. eapply wp_node_dropped; [exact Hn|lia|done|done|by apply Hrest|].
  intros c Hc. apply Hrest; [by apply stopping_emit|by apply aside_emit].
Qed.

Lemma stopping_close h a m f x w : stopping (busy_with f h) a m w -> (forall g, h_fleet h g = false) ->
  m !! f = Some x -> fl_n_done x = fl_n_sub_req x -> stopping (hold_entries (fl_sub_req x) h) a (delete f m) w.
Proof.
  intros S Hidle Hx Hdone. pose proof (nothing_awaited (sp_reqs _ _ _ _ S) f x Hx Hdone) as Hw. destruct S.
  assert (forall p, owners (hold_entries (fl_sub_req x) h) (delete f m) w p = owners (busy_with f h) m w p) as Ho.
  { intros p. unfold owners. rewrite (sum_map_delete _ _ f x) by done. cbn. unfold entries_on at 2. lia. }
  split; try done.
  - intros p. cbn. specialize (sp_held0 p). cbn in sp_held0. lia.
  - intros p. rewrite Ho. apply sp_nodes0.
  - by apply (reqs_ok_close sp_reqs0 f x).
  - intros g y [Hne Hy]%lookup_delete_Some _. eapply sp_open0; [exact Hy|]. cbn. by apply bool_decide_eq_false.
Qed.
Lemma stopping_fleets h a m w fleets : stopping h a m w -> stopping h a m (w <| w_fleets := fleets |>).
Proof. by intros []. Qed.

Lemma stopping_fleet_free h a f x w : stopping (busy_with f h) a (w_fleets w) w -> (forall g, h_fleet h g = false) ->
  (forall p, 0 <= h_node h p) -> (forall r, 0 <= h_req h r) ->
  w_fleets w !! f = Some x -> fl_n_done x = fl_n_sub_req x ->
  wp (agent_fleet_request_free f) (fun _ w' => stopping h a (w_fleets w') w' /\ beside w w') w.
Proof.
  intros S Hidle Hpos Hrpos Hx Hdone. pose proof (sp_reqs _ _ _ _ S) as Hok.
  pose proof (nothing_awaited Hok f x Hx Hdone) as Hw. destruct (ro_entries _ _ _ _ _ _ Hok f x Hx) as [_ Hall].
  pose proof (stopping_close h a (w_fleets w) f x w S Hidle Hx Hdone) as S1.
  unfold agent_fleet_request_free. wp_one. eapply wp_load; [exact Hx|]. wp_one.
  eapply wp_mono; [apply (stopping_release h a (delete f (w_fleets w)) f (fl_sub_req x) w Hpos Hrpos S1)|].
  - intros s Hs. split; [by apply Hw|]. intros u Hu. destruct (Hall s Hs) as (_ & q & Hq & Hcb).
    rewrite lookup_fmap, Hu in Hq. injection Hq as <-. exact Hcb.
  - cbn beta. intros _ w' [S2 [Ha Ef]]. eapply wp_free; [by rewrite <- Ef in Hx; exact Hx|].
    split.
    + change (w_fleets (store_upd (T := AgentFleetRequest) (delete f) w')) with (delete f (w_fleets w')). rewrite Ef.
      apply (stopping_fleets _ _ _ _ (delete f (w_fleets w'))) in S2. by destruct w'.
    + by destruct Ha.
Qed.

Lemma stopping_runs {A} h a m (k : CM A) w : stopping h a m w -> runs w k ->
  wp k (fun _ w' => stopping h a m w' /\ still w w') w.
Proof.
  intros S Hk. eapply wp_mono; [by apply Hk|]. cbn beta. intros x w' Hc. split; [|done].
  by eapply stopping_still.
Qed.

Lemma stopping_maybe_done h a f x w : stopping (busy_with f h) a (w_fleets w) w -> (forall g, h_fleet h g = false) ->
  (forall p, 0 <= h_node h p) -> (forall r, 0 <= h_req h r) -> w_fleets w !! f = Some x ->
  wp (agent_fleet_request_maybe_done f) (fun _ w' => stopping h a (w_fleets w') w' /\ beside w w') w.
Proof.
  intros S Hidle Hpos Hrpos Hx. unfold agent_fleet_request_maybe_done. wp_one. eapply wp_load; [exact Hx|].
  destruct (fl_n_done x =? fl_n_sub_req x) eqn:E0; [apply Z.eqb_eq in E0|apply Z.eqb_neq in E0].
  - eapply wp_fleet_done; [exact Hx| |].
    + intros s Hs. eapply stopping_there; [exact S|].
      pose proof (owners_parts _ (w_fleets w) w (sr_node s) (sp_held _ _ _ _ S)) as (Hh & Hask & _).
      assert (1 <= sum_map (entries_on (sr_node s)) (w_fleets w)) as H1.
      { pose proof (sum_map_pos (entries_on (sr_node s)) (w_fleets w) f x) as Hp.
        assert (1 <= entries_on (sr_node s) x) as He.
        { unfold entries_on. assert (sr_node s ∈ sr_node <$> fl_sub_req x) as Hin by (apply list_elem_of_fmap; by exists s).
          destruct (count (sr_node s) (sr_node <$> fl_sub_req x)) eqn:E1; [by apply count_zero in E1|lia]. }
        etrans; [exact He|]. apply Hp; [|done]. intros. unfold entries_on. lia. }
      unfold owners. lia.
    + intros w1 Hc. pose proof (cm_fleets _ _ _ Hc) as Ef. eapply wp_mono; [apply (stopping_fleet_free h a f x)|]; try done.
      * rewrite Ef. by eapply stopping_still.
      * by rewrite Ef.
      * cbn beta. intros _ w2 [S2 Hb]. split; [done|]. etrans; [by apply beside_still|done].
  - apply wp_ret. split; [|done]. destruct S. split; try done. intros g y Hy _. destruct (decide (g = f)) as [->|Hne]; [congruence|].
    eapply sp_open0; [exact Hy|]. cbn. by apply bool_decide_eq_false.
Qed.

(** *** A request is cancelled *)

Lemma stopping_cancelled h a m w r q : stopping h a m w -> w_reqs w !! r = Some q ->
  stopping h a m (w <| w_reqs ::= <[r := q <| req_is_cancelled := true |>]> |>).
Proof.
  intros [] Hq. set (q' := q <| req_is_cancelled := true |>).
  assert (forall p, owners h m (w <| w_reqs ::= <[r := q']> |>) p = owners h m w p) as Ho.
  { intros p. unfold owners. cbn. rewrite (count_map_update _ _ r q) by done. change (asks_node p q') with (asks_node p q). lia. }
  split; try done.
  - intros p. rewrite Ho. apply sp_nodes0.
  - cbn. rewrite fmap_insert. change (uncancel q') with (uncancel q). rewrite (insert_id (uncancel <$> w_reqs w) r (uncancel q)) by by apply uncancel_lookup. exact sp_reqs0.
  - cbn. by apply (jobs_ok_same_cb sp_jobs0 r q).
Qed.

(** The cancellation counts as the answer. *)
Lemma stopping_answered h a m m' w r busy : stopping h a m w -> req_wait a w r = 1 ->
  reqs_ok (plus r 1 (h_req h)) (req_wait (AnswerTo r :: a) w) (w_nodes w) (uncancel <$> w_reqs w) m' nodes0 ->
  (forall p, sum_map (entries_on p) m' = sum_map (entries_on p) m) -> fleets_open busy m' ->
  stopping ((hold_req r 1 h) <| h_fleet := busy |>) (AnswerTo r :: a) m' w.
Proof.
  intros [] Hw Hok Hsum Hopen. set (h' := _ <| h_fleet := busy |>).
  assert (forall p, owners h' m' w p = owners h m w p) as Ho by (intros p; unfold owners; by rewrite Hsum).
  split; try done. intros p. rewrite Ho. apply sp_nodes0.
Qed.

Context (Hnf : no_local_failure E).

(** The handler is not in the middle of a request. *)
Definition idle (h : held) : Prop :=
  (forall p, 0 <= h_node h p) /\ (forall r, h_req h r = 0) /\ (forall g, h_fleet h g = false).

Lemma stopping_cancel_end h a r (x : Z) w : idle h -> stopping (hold_req r 1 h) a (w_fleets w) w ->
  req_wait a w r = 0 ->
  wp (agent_request_unref r ;; mret x) (fun _ w' => stopping h a (w_fleets w') w' /\ beside w w') w.
Proof.
  intros (_ & H0 & _) S Hw. assert (1 <= h_req (hold_req r 1 h) r) as Hr by (cbn; rewrite plus_eq, H0; lia).
  destruct (ro_held _ _ _ _ _ _ (sp_reqs _ _ _ _ S) r) as [_ Hsome]. destruct (Hsome Hr) as [q Hq].
  rewrite lookup_fmap in Hq. destruct (w_reqs w !! r) as [q0|] eqn:Hq0; [|done]. wp_one.
  eapply wp_mono; [by apply (stopping_request_unref _ a _ w r q0 S Hr Hq0)|]. cbn beta. intros _ w' [S' [Hb Ef]].
  apply wp_ret. split; [|done]. rewrite Ef. eapply stopping_held; [|exact S']. split_and!; try done.
  intros t. cbn. unfold plus. case_decide; lia.
Qed.

Lemma stopping_cancel h a r w : idle h -> stopping h a (w_fleets w) w -> req_wait a w r = 1 ->
  wp (agent_request_cancel r) (fun _ w' => stopping h (AnswerTo r :: a) (w_fleets w') w' /\ beside w w') w.
Proof.
  intros Hidle S Hw. pose proof Hidle as (Hpos & H0 & Hbusy).
  destruct (w_reqs w !! r) as [q0|] eqn:Hq0.
  2:{ pose proof (ro_dead _ _ _ _ _ _ (sp_reqs _ _ _ _ S) r) as Hd. rewrite lookup_fmap, Hq0 in Hd. by rewrite Hd in Hw. }
  unfold agent_request_cancel. wp_one. eapply wp_update; [exact Hq0|]. wp_one. wp_one. rewrite local_ok_true by done.
  set (q := q0 <| req_is_cancelled := true |>). pose proof (stopping_cancelled _ _ _ w r q0 S Hq0) as S1. fold q in S1.
  set (w1 := tick _). assert (stopping h a (w_fleets w1) w1) as S2.
  { eapply stopping_still; [|exact S1]. by apply calm_stores. }
  assert (w_reqs w1 !! r = Some q) as Hq by apply lookup_insert_eq.
  assert (beside w w1) as Hb1.
  { split; try done. intros t u Hu. cbn in Hu. at_key t r; [|by exists u]. injection Hu as <-. by exists q0. }
  assert (req_wait a w1 r = 1) as Hw1 by done. clearbody w1. clear S S1.
  set (a' := AnswerTo r :: a). assert (req_wait a' w1 r = 0) as Hw2 by (unfold a'; rewrite req_wait_answered; lia).
  pose proof (sp_reqs _ _ _ _ S2) as Hok. pose proof (uncancel_lookup _ r q Hq) as Hq'.
  assert (forall (x : Z) v, stopping (hold_req r 1 h) a' (w_fleets v) v -> beside w1 v ->
    wp (agent_request_unref r ;; mret x) (fun _ w' => stopping h a' (w_fleets w') w' /\ beside w w') v) as Hend.
  { intros x v Sv Hbv. eapply wp_mono; [apply (stopping_cancel_end h a' r x v Hidle Sv); by rewrite (beside_wait _ _ _ _ Hbv)|].
    cbn beta. intros _ v' [S' Hb']. split; [done|]. by etrans; [|etrans]. }
  wp_one. unfold run_callback. wp_one. eapply wp_load; [exact Hq|].
  assert ((forall f, req_cb q <> agent_fleet_request_callback f) -> stopping (hold_req r 1 h) a' (w_fleets w1) w1) as Hone.
  { intros Hcb. eapply stopping_held; [|eapply (stopping_answered h a _ _ w1 r (h_fleet h) S2 Hw1)]; [done| |done|apply (sp_open _ _ _ _ S2)].
    apply (reqs_ok_one Hok r (uncancel q)); try done. apply req_wait_other. }
  assert ((forall f, req_cb q <> agent_fleet_request_callback f) -> forall k : CM Z, runs w1 k ->
    wp k (fun (x : Z) v => wp (agent_request_unref r ;; mret x) (fun _ w' => stopping h a' (w_fleets w') w' /\ beside w w') v) w1) as Hruns.
  { intros Hcb k Hk. eapply wp_mono; [apply (stopping_runs _ _ _ k w1 (Hone Hcb) Hk)|]. cbn beta. intros x v [Sv Hc].
    apply Hend; [by rewrite (cm_fleets _ _ _ Hc)|by apply beside_still]. }
  destruct (req_cb q) as [c|c|c|c|c|s|f] eqn:Hcb.
  1-4: apply Hruns; [done|apply runs_forward].
  - apply Hruns; [done|apply runs_ret].
  - destruct (jo_request _ _ _ _ _ _ _ (sp_jobs _ _ _ _ S2) r q s Hq Hcb) as [x Hx].
    unfold run_unit_lifecycle_method_callback. wp_one. eapply wp_load; [exact Hx|]. unfold forward_error. apply wp_bus.
    apply Hend; [|by apply beside_emit]. apply stopping_emit; [done|]. by apply Hone.
  - destruct (ro_awaited _ _ _ _ _ _ Hok r (uncancel q) f Hq' Hcb Hw1 (H0 r)) as (x & Hx & Hin).
    destruct (ro_entries _ _ _ _ _ _ Hok f x Hx) as [Hnd _].
    unfold run_agent_fleet_request_callback. wp_one. eapply wp_load; [exact Hx|].
    rewrite (set_sub_req_spec r _ _ Hnd Hin). wp_one. eapply wp_update; [exact Hx|].
    set (w2 := store_upd _ w1). set (e := Some _) in w2.
    assert (stopping (busy_with f (hold_req r 1 h)) a' (w_fleets w2) w2) as S3.
    { change (w_fleets w2) with (<[f := stored r e x]> (w_fleets w1)).
      apply (stopping_fleets _ _ _ w1 (<[f := stored r e x]> (w_fleets w1))).
      apply (stopping_answered h a (w_fleets w1) _ w1 r _ S2 Hw1).
      - apply (reqs_ok_stored Hok r (uncancel q)); try done. apply req_wait_other.
      - intros p. rewrite (sum_map_update _ _ f x), entries_on_stored by done. lia.
      - apply fleets_open_stored; [|done]. intros g y Hy _. by apply (sp_open _ _ _ _ S2 g). }
    wp_one. eapply wp_mono; [eapply (stopping_maybe_done (hold_req r 1 h) a' f _ w2 S3); [done|done| |apply lookup_insert_eq]|].
    + intros t. cbn. unfold plus. rewrite H0. case_decide; lia.
    + cbn beta. intros _ w3 [S4 Hb3]. wp_one. apply Hend; [done|]. etrans; [|exact Hb3]. split; try done. intros t u. by exists u.
Qed.

(** *** A node is shut down *)

(** Every request to one of these nodes waits for its answer. *)
Definition waiting (a : list answer) (w : World) (l : list ptr) : Prop :=
  forall r q, w_reqs w !! r = Some q -> req_node q ∈ l -> req_wait a w r = 1.

Lemma waiting_beside a w w' l : beside w w' -> waiting a w l -> waiting a w' l.
Proof.
  intros Hb H r q Hq Hl. rewrite (beside_wait _ _ _ _ Hb). destruct (be_reqs _ _ Hb r q Hq) as (q0 & Hq0 & _ & E0).
  apply (H r q0); [done|]. congruence.
Qed.

Lemma stopping_shutdown h a p rest w : idle h -> stopping h a (w_fleets w) w -> p ∈ nodes0 -> node_there w p ->
  p ∉ rest -> waiting a w (p :: rest) ->
  wp (node_shutdown p) (fun _ w' => exists a', stopping h a' (w_fleets w') w' /\ beside w w' /\ waiting a' w' rest) w.
Proof.
  intros Hidle S Hp Hthere Hrest Hwait. unfold node_shutdown. wp_one.
  eapply wp_mono; [apply (stopping_runs _ _ _ _ w S); by apply runs_update_node|].
  cbn beta. intros _ w1 [S1 Hc]. pose proof (beside_still _ _ Hc) as Hb1. pose proof (waiting_beside _ _ _ _ Hb1 Hwait) as Hw1.
  rewrite <- (cm_fleets _ _ _ Hc) in S1. destruct Hthere as [n0 Hn0]. destruct (calm_node _ _ _ _ _ Hc Hn0) as (n & Hn & _).
  wp_one. eapply wp_load; [exact Hn|]. set (l := node_outstanding_requests n).
  destruct (ro_outstanding _ _ _ _ _ _ (sp_reqs _ _ _ _ S1) p n Hp Hn) as [Hnd Hall]. fold l in Hnd, Hall.
  assert (forall r, r ∈ l -> exists q, w_reqs w1 !! r = Some q /\ req_node q = p) as Hl.
  { intros r Hr. destruct (Hall r Hr) as (q & Hq & Hqn). rewrite lookup_fmap in Hq.
    destruct (w_reqs w1 !! r) as [q1|]; [|done]. injection Hq as <-. by exists q1. }
  apply (wp_foreach (fun more v => exists a', stopping h a' (w_fleets v) v /\ beside w1 v /\ NoDup more /\
    (forall r, r ∈ more -> r ∈ l /\ req_wait a' v r = 1) /\ forall r, r ∉ l -> req_wait a' v r = req_wait a w1 r)).
  - exists a. split_and!; try done. intros r Hr. split; [done|]. destruct (Hl r Hr) as (q & Hq & Hqn).
    apply (Hw1 r q Hq). rewrite Hqn. by left.
  - intros r more v (a' & Sv & Hbv & [Hr Hnd']%NoDup_cons & Hmore & Hother). wp_one.
    destruct (Hmore r ltac:(by left)) as [Hrl Hrw]. eapply wp_mono; [by apply (stopping_cancel h a' r v Hidle Sv)|].
    cbn beta. intros _ v' [Sv' Hbv']. apply wp_ret. exists (AnswerTo r :: a'). split_and!; [done|by etrans|done| |].
    + intros t Ht. destruct (Hmore t ltac:(by right)) as [Htl Htw]. split; [done|].
      rewrite req_wait_other by (by intros ->). by rewrite (beside_wait _ _ _ _ Hbv').
    + intros t Ht. rewrite req_wait_other by (by intros ->). rewrite (beside_wait _ _ _ _ Hbv'). auto.
  - intros v (a' & Sv & Hbv & _ & _ & Hother). exists a'. split_and!; [done|by etrans|]. intros r q Hq Hqn.
    destruct (be_reqs _ _ Hbv r q Hq) as (q1 & Hq1 & _ & E1). rewrite Hother.
    + apply (Hw1 r q1 Hq1). rewrite <- E1. by right.
    + intros Hr. destruct (Hl r Hr) as (q2 & Hq2 & E2). congruence.
Qed.

(** *** A node is removed *)

Lemma stopping_unlisted a m w c' p : stopping nothing a m w -> c_nodes (w_controller w) = p :: c_nodes c' ->
  c_anonymous_nodes c' = c_anonymous_nodes (w_controller w) ->
  stopping (hold_node p 1 nothing) a m (w <| w_controller := c' |>).
Proof.
  intros [] Hl Ha. set (w' := w <| w_controller := c' |>).
  assert (forall q, owners (hold_node p 1 nothing) m w' q = owners nothing m w q) as Ho.
  { intros q. unfold owners. cbn. rewrite Hl, count_cons. unfold plus. case_decide; lia. }
  split; try done.
  - intros q. cbn. unfold plus. case_decide; lia.
  - intros q. rewrite Ho. apply sp_nodes0.
  - cbn. by rewrite Ha.
Qed.

Lemma stopping_remove_node a p rest w : stopping nothing a (w_fleets w) w -> c_nodes (w_controller w) = p :: rest ->
  p ∈ nodes0 -> p ∉ rest -> waiting a w (p :: rest) ->
  wp (controller_remove_node p) (fun _ w' => (exists a', stopping nothing a' (w_fleets w') w' /\ waiting a' w' rest) /\
    ctl_core (w_controller w') = ctl_core ((w_controller w) <| c_number_of_nodes ::= Z.pred |> <| c_nodes := rest |>)) w.
Proof.
  intros S Hl Hp Hrest Hwait. assert (1 <= owners nothing (w_fleets w) w p) as Ho.
  { destruct (owners_parts nothing (w_fleets w) w p (sp_held _ _ _ _ S)) as (? & ? & ?). unfold owners.
    rewrite Hl, count_cons, decide_True by done. lia. }
  destruct (sp_nodes _ _ _ _ S p Ho) as (n & Hn & Hname & _). unfold controller_remove_node. wp_one.
  eapply wp_load; [exact Hn|]. wp_one. wp_one. destruct (node_name n) as [name|]; [|done]. wp_one. wp_one. wp_one. wp_one.
  apply wp_list_remove_from; [rewrite Hl; by left|]. wp_one.
  replace (remove_first p (c_nodes (w_controller w))) with rest by (rewrite Hl; cbn; by rewrite decide_True).
  set (c' := (w_controller w) <| c_number_of_nodes ::= Z.pred |> <| c_nodes := rest |>).
  match goal with |- wp _ _ ?v => set (w1 := v); assert (w1 = w <| w_controller := c' |>) as Ew1 by by destruct w end.
  clearbody w1. subst w1. set (w1 := w <| w_controller := c' |>). set (h := hold_node p 1 nothing).
  pose proof (stopping_unlisted a (w_fleets w) w c' p S Hl eq_refl) as S1. fold w1 h in S1.
  assert (idle h) as Hidle. { split_and!; try done. intros q. cbn. unfold plus. case_decide; lia. }
  change (waiting a w1 (p :: rest)) in Hwait.
  assert (forall a2 w2, stopping h a2 (w_fleets w2) w2 -> waiting a2 w2 rest -> ctl_core (w_controller w2) = ctl_core c' ->
    wp (node_unref p) (fun _ w' => (exists a', stopping nothing a' (w_fleets w') w' /\ waiting a' w' rest) /\
      ctl_core (w_controller w') = ctl_core c') w2) as Hend.
  { intros a2 w2 S2 Hw2 Hc2. assert (1 <= h_node h p) as Hh by (cbn; rewrite plus_eq; lia).
    pose proof (owners_parts h (w_fleets w2) w2 p (sp_held _ _ _ _ S2)) as (_ & ? & ?).
    assert (1 <= owners h (w_fleets w2) w2 p) as Ho2 by (unfold owners; lia).
    destruct (sp_nodes _ _ _ _ S2 p Ho2) as (n2 & Hn2 & _ & Href & Hpm & Hu).
    destruct (node_dropped_rest p n2 w2) as (Er & _ & _ & Ef & Ec & Et).
    assert (stopping nothing a2 (w_fleets (node_dropped p n2 w2)) (node_dropped p n2 w2)) as S3.
    { rewrite Ef. eapply stopping_held; [|exact (stopping_node_dropped h a2 _ w2 p n2 S2 Hh Hn2)].
      split_and!; try done. intros t. cbn. unfold plus. case_decide; lia. }
    assert (waiting a2 (node_dropped p n2 w2) rest) as Hw3.
    { intros r q. rewrite Er. unfold req_wait, asks. rewrite Et. apply Hw2. }
    eapply wp_node_dropped; [exact Hn2|lia|done|done| |].
    - split; [by exists a2|by rewrite Ec].
    - intros c Hc. split; [|cbn; by rewrite Ec]. exists a2. split; [by apply stopping_emit|].
      eapply waiting_beside; [by apply beside_emit|done]. }
  wp_one. destruct (node_is_online n).
  - wp_one. assert (node_there w1 p) as Hthere by by exists n.
    eapply wp_mono; [apply (stopping_shutdown h a p rest w1 Hidle S1 Hp Hthere Hrest Hwait)|].
    cbn beta. intros _ w2 (a2 & S2 & Hb2 & Hw2).
    eapply wp_mono; [apply (stopping_runs _ _ _ _ w2 S2); by apply runs_upd_controller|]. cbn beta. intros _ w3 [S3 Hc3].
    pose proof (beside_still _ _ Hc3) as Hb3. apply (Hend a2); [by rewrite (cm_fleets _ _ _ Hc3)|by eapply waiting_beside|].
    rewrite (be_controller _ _ Hb3). apply (be_controller _ _ Hb2).
  - apply wp_ret. apply (Hend a); [done| |done]. intros r q Hq Hqn. apply (Hwait r q Hq). by right.
Qed.

Lemma stopping_remove_anonymous a p rest w : stopping nothing a (w_fleets w) w ->
  c_anonymous_nodes (w_controller w) = p :: rest -> p ∉ rest ->
  wp (controller_remove_node p) (fun _ w' => stopping nothing a (w_fleets w') w' /\
    ctl_core (w_controller w') = ctl_core ((w_controller w) <| c_anonymous_nodes := rest |>)) w.
Proof.
  intros S Hl Hrest. destruct (sp_anonymous _ _ _ _ S p) as (n & Hn & Hname & Href & Hpm & Hu); [rewrite Hl; by left|].
  unfold controller_remove_node. wp_one. eapply wp_load; [exact Hn|]. wp_one. wp_one. rewrite Hname. wp_one. wp_one.
  apply wp_list_remove_from; [rewrite Hl; by left|]. wp_one.
  replace (remove_first p (c_anonymous_nodes (w_controller w))) with rest by (rewrite Hl; cbn; by rewrite decide_True).
  replace (node_is_online n) with false by (unfold node_is_online; rewrite Hname; done). wp_one. wp_one.
  set (c' := (w_controller w) <| c_anonymous_nodes := rest |>). set (w1 := w <| w_controller := c' |> <| w_nodes ::= delete p |>).
  assert (forall q, owned w q (owners nothing (w_fleets w) w q) -> q <> p) as Hne by (intros q (k & Hk & Hkn & _) ->; congruence).
  assert (stopping nothing a (w_fleets w) w1) as S1.
  { pose proof S as []. split; try done.
    - intros q Hq. specialize (sp_nodes0 q Hq). pose proof (Hne q sp_nodes0) as Hqp. destruct sp_nodes0 as (k & Hk & ?).
      exists k. split; [|done]. cbn. by rewrite lookup_delete_ne.
    - apply reqs_ok_without_node; [done|]. intros r q Hq Hqn. change (w_reqs w1) with (w_reqs w) in Hq. rewrite lookup_fmap in Hq.
      destruct (w_reqs w !! r) as [q0|] eqn:Hq0; [|done]. injection Hq as <-.
      destruct (stopping_request _ _ _ _ r q0 S Hq0) as [Ho _]. by apply (Hne _ (sp_nodes0 _ Ho)).
    - intros q Hq. destruct (sp_anonymous0 q) as (k & Hk & ?); [rewrite Hl; by right|]. exists k. split; [|done].
      cbn. rewrite lookup_delete_ne; [done|]. by intros ->. }
  eapply wp_node_unref_last; [exact Hn|done..| |].
  - split; [|done]. by destruct w.
  - intros c Hc. split; [|done]. eapply stopping_emit; [done|]. by destruct w.
Qed.
End stopping.

(** ** What the stop of the controller meets *)

(** No node has a proxy, and no request to all agents has been answered by some of them only. *)
Definition stoppable (w : World) : bool :=
  forallb (fun p => match w_nodes w !! p with
                    | Some n => match node_proxy_monitors n with [] => true | _ => false end
                    | None => true
                    end) (c_nodes (w_controller w)) &&
  forallb (fun x => fl_n_done x =? 0) (map_to_list (w_fleets w)).*2.
Lemma stoppable_spec w : stoppable w = true <->
  (forall p n, p ∈ c_nodes (w_controller w) -> w_nodes w !! p = Some n -> node_proxy_monitors n = []) /\
  (forall f x, w_fleets w !! f = Some x -> fl_n_done x = 0).
Proof.
  unfold stoppable. rewrite andb_true_iff, !forallb_forall. split.
  - intros [H1 H2]. split.
    + intros p n Hp Hn. apply list_elem_of_In, H1 in Hp. rewrite Hn in Hp. by destruct (node_proxy_monitors n).
    + intros f x Hx. apply Z.eqb_eq, H2, list_elem_of_In, list_elem_of_fmap. exists (f, x). split; [done|].
      by apply elem_of_map_to_list.
  - intros [H1 H2]. split.
    + intros p Hp%list_elem_of_In. destruct (w_nodes w !! p) as [n|] eqn:Hn; [|done]. by rewrite (H1 p n Hp Hn).
    + intros x Hx%list_elem_of_In. apply list_elem_of_fmap in Hx as ([f y] & -> & Hy).
      apply elem_of_map_to_list in Hy. by apply Z.eqb_eq, (H2 f).
Qed.

Section phases.
Context {E : Env} {L : EnvLaws E} (Hnf : no_local_failure E) (a : list answer).

Lemma stop_jobs result w : controller_inv nothing a w ->
  wp (foreach (c_jobs (w_controller w)) (fun job => controller_remove_job job result))
    (fun _ w' => controller_inv nothing a w' /\ kept w w' /\ c_jobs (w_controller w') = []) w.
Proof.
  intros I. apply (wp_foreach (fun rest v => controller_inv nothing a v /\ kept w v /\ c_jobs (w_controller v) = rest)); [done| |done].
  intros job rest v (Iv & Hk & Hl).
  eapply wp_mono; [apply (inv_remove_job nothing a job result v Iv); rewrite Hl; by left|].
  cbn beta. intros _ v' (Iv' & Hk' & Hl'). split_and!; [done|by etrans|]. rewrite Hl', Hl. cbn. by rewrite decide_True.
Qed.

(** Nothing is subscribed to any more. *)
Record unsubscribed (w w' : World) : Prop := {
  us_registry : registry_ok w';
  us_kept : kept w w';
  us_monitors : alike mon_core (w_monitors w) (w_monitors w');
  us_proxies : alike pm_core (w_proxies w) (w_proxies w');
  us_deps : forall p m m', w_proxies w !! p = Some m -> w_proxies w' !! p = Some m' ->
    pm_added_dep m' = true -> pm_added_dep m = true;
  us_subs_there : forall s, is_Some (w_subs w !! s) -> is_Some (w_subs w' !! s);
  us_jobs : jobs_ok (fun _ => 0) (fun _ => 0) (w_jobs w') (w_setups w') (w_reqs w') [] (c_nodes (w_controller w));
  us_others : forall p, p ∉ c_nodes (w_controller w) ->
    node_unit_subscriptions <$> w_nodes w' !! p = node_unit_subscriptions <$> w_nodes w !! p;
  us_listed : c_jobs (w_controller w') = [] /\ c_monitors (w_controller w') = c_monitors (w_controller w);
}.

Lemma listed_subscription w sub : controller_inv nothing a w -> sub ∈ c_all_subscriptions (w_controller w) ->
  exists s, w_subs w !! sub = Some s /\ sub_ref_count s = 2.
Proof.
  intros [Hreg I] Hin. destruct (ok_live w Hreg sub Hin) as (s & Hs & Ht). exists s. split; [done|].
  destruct (sub_monitor s) as [|p|p] eqn:Hp; [done| |].
  - destruct (mo_sub _ _ _ _ _ (ci_monitors _ _ _ I) sub s p Hin Hs Hp) as (x & Hx & Hxs).
    destruct (mo_monitor _ _ _ _ _ (ci_monitors _ _ _ I) p x Hx) as (_ & _ & _ & Hall).
    destruct (Hall sub Hxs) as (_ & s' & Hs' & _ & ?). congruence.
  - destruct (po_sub _ _ _ _ _ _ _ _ (ci_proxies _ _ _ I) sub s p Hin Hs Hp) as (x & Hx & Hxs).
    destruct (po_proxy _ _ _ _ _ _ _ _ (ci_proxies _ _ _ I) p x Hx) as (_ & (s1 & y & Hs1 & Hy & _ & Href & Hup) & _).
    assert (s1 = sub) as -> by congruence. assert (y = s) as -> by congruence.
    rewrite Href. rewrite (proj1 Hup Hin). done.
Qed.

Lemma stop_subscriptions w : controller_inv nothing a w -> c_jobs (w_controller w) = [] ->
  wp (foreach (c_all_subscriptions (w_controller w)) controller_remove_subscription)
    (fun _ w' => unsubscribed w w' /\ c_all_subscriptions (w_controller w') = []) w.
Proof.
  intros I Hj. apply (wp_foreach (fun rest v => unsubscribed w v /\ c_all_subscriptions (w_controller v) = rest /\ NoDup rest /\
    forall sub, sub ∈ rest -> w_subs v !! sub = w_subs w !! sub /\ sub ∈ c_all_subscriptions (w_controller w))).
  - split_and!; [|done|apply (ok_subs_nodup _ (ci_registry _ _ _ I))|done].
    split; try done; [apply I|intros; congruence|]. rewrite <- Hj. apply (ci_jobs _ _ _ I).
  - intros sub rest v (U & Hl & [Hsub Hnd]%NoDup_cons & Hsame). destruct (Hsame sub ltac:(by left)) as [Es Hin].
    destruct (listed_subscription w sub I Hin) as (s & Hs & Href). rewrite <- Es in Hs. pose proof U as [].
    eapply wp_mono; [apply (wp_remove_subscription sub s v us_registry0); [rewrite Hl; by left|done|lia]|].
    cbn beta. intros _ v' (Hreg' & v1 & Hc & ->). destruct (calm_listed _ _ _ Hc) as (_ & _ & _ & Ej & Em & _).
    assert (remove_first sub (c_all_subscriptions (w_controller v)) = rest) as El by (rewrite Hl; cbn; by rewrite decide_True).
    rewrite El in *. split_and!; [|done|done|].
    + split; [done| | | | | | | |].
      * etrans; [exact us_kept0|]. etrans; [eapply kept_calm; exact Hc|]. by apply kept_same.
      * eapply alike_trans; [exact us_monitors0|apply (cm_monitors _ _ _ Hc)].
      * eapply alike_trans; [exact us_proxies0|apply (cm_proxies _ _ _ Hc)].
      * intros p m m2 Hm Hm2 Hd. destruct (alike_some _ _ _ p m us_proxies0 Hm) as (m1 & Hm1 & _).
        apply (us_deps0 p m m1 Hm Hm1), (cm_deps _ _ _ Hc p m1 m2 Hm1 Hm2 Hd).
      * intros t Ht. cbn. at_key t sub; [by eexists|]. rewrite (cm_subs _ _ _ Hc). auto.
      * apply (jobs_ok_calm _ _ _ _ _ _ _ Hc us_jobs0).
      * intros p Hp. rewrite <- us_others0 by done. apply (cm_usubs _ _ _ Hc).
        by rewrite (kp_listed _ _ us_kept0).
      * cbn. rewrite Ej, Em. done.
    + intros t Ht. destruct (Hsame t ltac:(by right)) as [Et ?]. split; [|done]. cbn.
      rewrite lookup_insert_ne by (by intros ->). by rewrite (cm_subs _ _ _ Hc).
  - intros v (U & Hl & _). done.
Qed.

Definition with_monitors (ms : gmap ptr Monitor) (l : list ptr) (w : World) : World :=
  w <| w_monitors := ms |> <| w_controller ::= fun c => c <| c_monitors := l |> |>.
Lemma stop_monitors w : NoDup (c_monitors (w_controller w)) ->
  (forall m, m ∈ c_monitors (w_controller w) -> exists x, w_monitors w !! m = Some x /\ 1 <= mon_ref_count x) ->
  wp (foreach (c_monitors (w_controller w)) controller_remove_monitor) (fun _ w' => exists ms, w' = with_monitors ms [] w) w.
Proof.
  intros Hnd Hall. apply (wp_foreach (fun rest v => NoDup rest /\ exists ms, v = with_monitors ms rest w /\
    forall m, m ∈ rest -> exists x, ms !! m = Some x /\ 1 <= mon_ref_count x)).
  - split; [done|]. exists (w_monitors w). split; [|done]. by destruct w as [? ? ? ? ? ? ? ? []].
  - intros m rest v ([Hm Hnd']%NoDup_cons & ms & -> & Hms). destruct (Hms m ltac:(by left)) as (x & Hx & Href).
    unfold controller_remove_monitor. wp_one. wp_one. wp_one. apply wp_list_remove_from; [by left|]. wp_one. wp_one.
    replace (remove_first m _) with rest by (cbn; by rewrite decide_True).
    assert (forall ms', (forall t, t <> m -> ms' !! t = ms !! t) -> NoDup rest /\ exists ms0,
      with_monitors ms' rest w = with_monitors ms0 rest w /\
      forall t, t ∈ rest -> exists y, ms0 !! t = Some y /\ 1 <= mon_ref_count y) as Hend.
    { intros ms' Hs. split; [done|]. exists ms'. split; [done|]. intros t Ht. rewrite Hs by (by intros ->). apply Hms. by right. }
    destruct (decide (mon_ref_count x = 1)) as [H1|H1].
    + eapply wp_monitor_unref_last; [exact Hx|done|].
      replace (store_upd _ _) with (with_monitors (delete m ms) rest w) by (by destruct w as [? ? ? ? ? ? ? ? []]).
      apply Hend. intros t Ht. by rewrite lookup_delete_ne.
    + eapply wp_monitor_unref_kept; [exact Hx|done|]. set (y := field_update _ _ x).
      replace (store_upd _ _) with (with_monitors (<[m := y]> ms) rest w) by (by destruct w as [? ? ? ? ? ? ? ? []]).
      apply Hend. intros t Ht. by rewrite lookup_insert_ne.
  - intros v (_ & ms & -> & _). by exists ms.
Qed.

Lemma count_once (x : ptr) l : NoDup l -> (count x l <= 1)%nat.
Proof.
  induction 1 as [|y l Hy _ IH]; [change (count x []) with O; lia|]. rewrite count_cons. case_decide as Hx; [|lia]. subst.
  by rewrite (proj2 (count_zero _ _) Hy).
Qed.

Lemma stoppable_kept w w' : kept w w' -> stoppable w = true -> stoppable w' = true.
Proof.
  rewrite !stoppable_spec. intros [] [H1 H2]. split; [|by rewrite kp_fleets]. rewrite kp_listed. intros p n' Hp Hn'.
  destruct (alike_back _ _ _ p n' kp_nodes Hn') as (n & Hn & Hcore). core_of Hcore. rewrite <- (H1 p n Hp Hn). congruence.
Qed.

(** Every request waits for its answer. *)
Lemma stoppable_waiting w r q : controller_inv nothing a w -> stoppable w = true -> w_reqs w !! r = Some q ->
  req_wait a w r = 1.
Proof.
  intros I [_ Hdone]%stoppable_spec Hq. pose proof (ci_reqs _ _ _ I) as Hok.
  destruct (ro_request _ _ _ _ _ _ Hok r q Hq) as (_ & _ & _ & Href). pose proof (ro_positive _ _ _ _ _ _ Hok r q Hq) as Hpos.
  pose proof (ro_wait _ _ _ _ _ _ Hok r) as Hw. destruct (decide (req_wait a w r = 0)) as [H0|]; [|lia].
  enough (sum_map (entries_of r) (w_fleets w) = 0) as Hs by (rewrite H0, Hs in Href; cbn in Href; lia).
  apply sum_map_zero. intros f x Hx. apply entries_none. intros Hin.
  pose proof (ro_done _ _ _ _ _ _ Hok f x Hx) as Hd. rewrite (Hdone f x Hx), done_of_reqs in Hd.
  assert (r ∈ List.filter (fun t => req_wait a w t =? 0) (sub_reqs (fl_sub_req x))) as Hr.
  { apply list_elem_of_In, List.filter_In. split; [by apply list_elem_of_In|]. by rewrite H0. }
  destruct (List.filter _ _); [by apply not_elem_of_nil in Hr|cbn in Hd; lia].
Qed.

Lemma owners_listed w w' p : controller_inv nothing a w -> kept w w' ->
  1 <= owners nothing (w_fleets w') w' p -> p ∈ c_nodes (w_controller w).
Proof.
  intros I [] Ho. destruct (decide (p ∈ c_nodes (w_controller w))) as [|Hp]; [done|].
  unfold owners in Ho. rewrite kp_listed, kp_reqs, kp_fleets in Ho. rewrite (proj2 (count_zero _ _) Hp) in Ho.
  rewrite count_map_zero in Ho.
  2:{ intros r q Hq. apply bool_decide_eq_false. intros <-. by destruct (ro_request _ _ _ _ _ _ (ci_reqs _ _ _ I) r q Hq). }
  rewrite sum_map_zero in Ho; [done|]. intros f x Hx. unfold entries_on. rewrite (proj2 (count_zero _ _)); [done|].
  intros (s & -> & Hs)%list_elem_of_fmap. destruct (ro_entries _ _ _ _ _ _ (ci_reqs _ _ _ I) f x Hx) as [_ Hall].
  by destruct (Hall s Hs).
Qed.

Lemma unsubscribed_node w w' p n : unsubscribed w w' -> c_all_subscriptions (w_controller w') = [] ->
  p ∈ c_nodes (w_controller w') -> w_nodes w' !! p = Some n -> node_unit_subscriptions n = ∅.
Proof.
  intros U Hs Hp Hn. apply map_empty. intros u. destruct (node_unit_subscriptions n !! u) as [us|] eqn:Hus; [|done].
  destruct (ok_entries _ (us_registry _ _ U) p n (conj Hp Hn) u us Hus) as (_ & Hne & Hall).
  destruct (us_subs us) as [|sub l]; [done|]. destruct (Hall sub ltac:(by left)) as [Hin _]. rewrite Hs in Hin.
  by apply not_elem_of_nil in Hin.
Qed.

Lemma stopping_begins w w' : controller_inv nothing a w -> stoppable w = true -> unsubscribed w w' ->
  c_all_subscriptions (w_controller w') = [] ->
  stopping (c_nodes (w_controller w)) nothing a (w_fleets w') w' /\ waiting a w' (c_nodes (w_controller w)).
Proof.
  intros I Hstop U Hs. pose proof (us_kept _ _ U) as K. pose proof K as [].
  assert (forall r, req_wait a w' r = req_wait a w r) as Hw by (intros r; unfold req_wait; by rewrite kp_asked).
  assert (forall p n, w_nodes w !! p = Some n -> exists n', w_nodes w' !! p = Some n' /\ node_core n' = node_core n) as Hfw.
  { intros p n Hp. by apply (alike_some _ _ _ p n kp_nodes Hp). }
  split; [|intros r q; rewrite kp_reqs, Hw; intros Hq _; by eapply stoppable_waiting]. split.
  - done.
  - intros p Ho. pose proof (owners_listed w w' p I K Ho) as Hp. destruct (listed_node I p Hp) as (n & name & _ & Hn & Hname & _).
    destruct (Hfw p n Hn) as (n' & Hn' & Hcore). core_of Hcore. exists n'. split_and!; [done|congruence| | |].
    + pose proof (ci_refs _ _ _ I p n Hp Hn) as Href. unfold node_owners in Href. unfold owners.
      rewrite kp_listed, kp_reqs, kp_fleets. pose proof (count_map_nonneg (aims_at p) (w_proxies w)).
      assert (count p (c_nodes (w_controller w)) <= 1)%nat as Hc by (apply count_once, (ok_nodes_nodup _ (ci_registry _ _ _ I))).
      cbn in *. lia.
    + rewrite <- (proj1 (proj1 (stoppable_spec w) Hstop) p n Hp Hn). congruence.
    + apply (unsubscribed_node w w' p n'); try done. by rewrite kp_listed.
  - eapply (reqs_ok_ext _ _ (req_wait a w)); [done|done|]. rewrite kp_fleets, kp_reqs.
    replace (uncancel <$> w_reqs w) with (w_reqs w); [by eapply reqs_ok_alike, (ci_reqs _ _ _ I)|].
    apply map_eq. intros r. rewrite lookup_fmap. destruct (w_reqs w !! r) as [q|] eqn:Hq; [|done]. cbn. f_equal.
    destruct (ro_request _ _ _ _ _ _ (ci_reqs _ _ _ I) r q Hq) as (_ & _ & Hc & _). destruct q. cbn in *. by subst.
  - apply (us_jobs _ _ U).
  - rewrite kp_fleets. apply (ci_open _ _ _ I).
  - rewrite kp_anonymous. intros p Hp. destruct (no_waiting _ _ _ _ (ci_nodes _ _ _ I) p Hp) as (n & Hn & Hname).
    destruct (no_anonymous _ _ _ _ (ci_nodes _ _ _ I) p n Hn Hname) as (_ & Href & Hu & Hpm & _).
    destruct (Hfw p n Hn) as (n' & Hn' & Hcore). core_of Hcore. exists n'. split_and!; try congruence.
    pose proof (us_others _ _ U p (not_listed nothing a p n w I Hn Hname)) as Ho. rewrite Hn, Hn' in Ho. injection Ho as ->. done.
Qed.

(** The lists of the controller but for those of the nodes. *)
Definition other_lists (c : Controller) : Z * list ptr * list ptr * list ptr :=
  (c_ref_count c, c_jobs c, c_monitors c, c_all_subscriptions c).
Definition bare (w : World) : Prop := other_lists (w_controller w) = (1, [], [], []).

Lemma stop_nodes nodes0 w : stopping nodes0 nothing a (w_fleets w) w -> NoDup (c_nodes (w_controller w)) ->
  (forall p, p ∈ c_nodes (w_controller w) -> p ∈ nodes0) -> waiting a w (c_nodes (w_controller w)) -> bare w ->
  wp (foreach (c_nodes (w_controller w)) controller_remove_node) (fun _ w' => exists a',
    stopping nodes0 nothing a' (w_fleets w') w' /\ bare w' /\ c_nodes (w_controller w') = [] /\
    c_anonymous_nodes (w_controller w') = c_anonymous_nodes (w_controller w)) w.
Proof.
  intros S Hnd Hin Hwait Hb.
  apply (wp_foreach (fun rest v => exists a', stopping nodes0 nothing a' (w_fleets v) v /\ bare v /\
    c_nodes (w_controller v) = rest /\ c_anonymous_nodes (w_controller v) = c_anonymous_nodes (w_controller w) /\
    NoDup rest /\ (forall p, p ∈ rest -> p ∈ nodes0) /\ waiting a' v rest)).
  - exists a. by split_and!.
  - intros p rest v (a' & Sv & Hbv & Hl & Ha & [Hp Hnd']%NoDup_cons & Hin' & Hw).
    eapply wp_mono; [apply (stopping_remove_node nodes0 Hnf a' p rest v Sv Hl); [apply Hin'; by left|done|done]|].
    cbn beta. intros _ v' [(a2 & Sv' & Hw') Hcore]. exists a2. core_of Hcore. cbn in *. unfold bare, other_lists in *.
    split_and!; try done; try congruence. intros q Hq. apply Hin'. by right.
  - intros v (a' & Sv & Hbv & Hl & Ha & _). exists a'. by split_and!.
Qed.

Lemma stop_anonymous nodes0 w : stopping nodes0 nothing a (w_fleets w) w -> NoDup (c_anonymous_nodes (w_controller w)) ->
  bare w -> c_nodes (w_controller w) = [] ->
  wp (foreach (c_anonymous_nodes (w_controller w)) controller_remove_node) (fun _ w' =>
    bare w' /\ c_nodes (w_controller w') = [] /\ c_anonymous_nodes (w_controller w') = []) w.
Proof.
  intros S Hnd Hb Hn.
  apply (wp_foreach (fun rest v => stopping nodes0 nothing a (w_fleets v) v /\ bare v /\ c_nodes (w_controller v) = [] /\
    c_anonymous_nodes (w_controller v) = rest /\ NoDup rest)).
  - by split_and!.
  - intros p rest v (Sv & Hbv & Hnv & Hl & [Hp Hnd']%NoDup_cons).
    eapply wp_mono; [by apply (stopping_remove_anonymous nodes0 a p rest v Sv Hl)|].
    cbn beta. intros _ v' [Sv' Hcore]. core_of Hcore. cbn in *. unfold bare, other_lists in *.
    split_and!; try done; congruence.
  - intros v (_ & Hbv & Hnv & Hl & _). done.
Qed.
End phases.

Lemma listed_monitors {E : Env} a w w' : controller_inv nothing a w -> unsubscribed w w' ->
  NoDup (c_monitors (w_controller w')) /\
  forall m, m ∈ c_monitors (w_controller w') -> exists x, w_monitors w' !! m = Some x /\ 1 <= mon_ref_count x.
Proof.
  intros I U. destruct (us_listed _ _ U) as [_ ->]. pose proof (ci_monitors _ _ _ I) as M.
  split; [apply (mo_once _ _ _ _ _ M)|]. intros m Hm. destruct (mo_listed _ _ _ _ _ M m Hm) as [x Hx].
  destruct (mo_monitor _ _ _ _ _ M m x Hx) as (_ & Href & _). rewrite bool_decide_eq_true_2 in Href by done.
  cbn in Href. destruct (alike_some _ _ _ m x (us_monitors _ _ U) Hx) as (y & Hy & Hcore). core_of Hcore.
  exists y. split; [done|]. lia.
Qed.

(** ** A stop that fails *)

Section aborts.
Context {E : Env} {L : EnvLaws E}.

Definition aborts {A} (m : CM A) (w : World) : Prop := m w = Crash AssertionFailure.

Lemma aborts_after {A B} (m : CM A) (k : A -> CM B) w :
  wp m (fun a w' => aborts (k a) w') w -> aborts (m ≫= k) w.
Proof. unfold wp, aborts, mbind, M_bind. by destruct (m w). Qed.
Lemma aborts_first {A B} (m : CM A) (k : A -> CM B) w : aborts m w -> aborts (m ≫= k) w.
Proof. unfold aborts, mbind, M_bind. by intros ->. Qed.

(** Nothing is subscribed to, and the nodes on the list know it. *)
Definition emptied (w : World) : Prop := c_all_subscriptions (w_controller w) = [] /\
  forall q, q ∈ c_nodes (w_controller w) -> exists n, w_nodes w !! q = Some n /\ node_name n <> None /\
    node_unit_subscriptions n = ∅.

Lemma wp_unsubscribe_emptied q s w : emptied w -> q ∈ c_nodes (w_controller w) -> is_Some (w_subs w !! s) ->
  wp (node_unsubscribe q s) (fun _ w' => w' = w) w.
Proof.
  intros [_ He] Hq [y Hy]. destruct (He q Hq) as (n & Hn & _ & Hu). unfold node_unsubscribe. wp_one. wp_one.
  apply (wp_foreach (fun _ w' => w' = w)); [done| |done]. intros u _ w' ->. unfold node_unsubscribe_unit.
  wp_one. eapply wp_load; [exact Hn|]. rewrite Hu, lookup_empty. by apply wp_ret.
Qed.

Lemma unsubscribe_again_aborts s w : emptied w -> is_Some (w_subs w !! s) ->
  aborts (controller_remove_subscription s) w.
Proof.
  intros He [y Hy]. assert (is_Some (w_subs w !! s)) as Hs by by eexists. pose proof He as [Hsubs Hall].
  unfold controller_remove_subscription. apply aborts_after. eapply wp_load; [exact Hy|].
  apply aborts_after. eapply (wp_mono _ (fun _ w' => w' = w)).
  - destruct (subscription_has_node_wildcard y).
    + wp_one. wp_one. apply (wp_foreach (fun rest w' => w' = w /\ forall q, q ∈ rest -> q ∈ c_nodes (w_controller w)));
        [done| |by intros w' [-> _]].
      intros q rest w' [-> Hrest]. eapply wp_mono; [apply wp_unsubscribe_emptied; [done|apply Hrest; by left|done]|].
      intros [] w' ->. split; [done|]. intros r Hr. apply Hrest. by right.
    + wp_one. unfold controller_find_node. wp_one. wp_one.
      apply wp_find_first with (P := fun q => match w_nodes w !! q with
        | Some n => match node_name n with Some x => strcmp x (sub_node y) =? 0 | None => false end
        | None => false
        end).
      * intros q Hq. destruct (Hall q Hq) as (n & Hn & Hname & _). wp_one. eapply wp_load; [exact Hn|]. rewrite Hn.
        destruct (node_name n); [by apply wp_ret|done].
      * destruct (List.find _ _) as [q|] eqn:Hf; [|by apply wp_ret]. apply find_some in Hf as [Hq%list_elem_of_In _].
        by apply wp_unsubscribe_emptied.
  - intros [] w' ->. apply aborts_after, wp_controller, aborts_first. unfold list_remove_from, aborts.
    rewrite Hsubs. done.
Qed.

(** The proxy can be closed: what it refers to is there. *)
Definition closable (p : ptr) (w : World) : Prop := exists x s, w_proxies w !! p = Some x /\
  pm_subscription x = Some s /\ is_Some (w_subs w !! s) /\
  (pm_added_dep x = true -> exists t, pm_target_node x = Some t /\ node_there w t).

Lemma remove_proxy_aborts unref q p w : emptied w -> closable p w ->
  aborts (node_remove_proxy_monitor_with unref q p) w.
Proof.
  intros [Hsubs Hall] (x & s & Hx & Hs & Hy & Hd). unfold node_remove_proxy_monitor_with, proxy_monitor_close.
  apply aborts_after. eapply wp_mono; [apply (runs_drop_dep_there w p x Hx Hd); done|].
  intros [] w1 Hc. destruct (alike_some _ _ _ p x (cm_proxies _ _ _ Hc) Hx) as (x1 & Hx1 & Hcore). core_of Hcore.
  apply aborts_after. eapply wp_load; [exact Hx1|].
  replace (pm_subscription x1) with (Some s) by congruence. apply aborts_first, unsubscribe_again_aborts.
  - destruct (calm_listed _ _ _ Hc) as (En & _ & _ & _ & _ & Es). split; [congruence|]. rewrite En. intros t Ht.
    destruct (Hall t Ht) as (n & Hn & Hname & Hu). destruct (calm_node _ _ _ _ _ Hc Hn) as (n1 & Hn1 & Hnc & Hnu).
    core_of Hnc. exists n1. split_and!; [done|congruence|]. rewrite Hnu; [done|by intros []].
  - by rewrite (cm_subs _ _ _ Hc).
Qed.

(** The last reference to a node with a proxy. *)
Lemma node_unref_aborts q n p l w : w_nodes w !! q = Some n -> node_ref_count n = 1 ->
  node_proxy_monitors n = p :: l ->
  (let w' := store_upd (T := Node) <[q := n <| node_ref_count ::= Z.pred |>]> w in emptied w' /\ closable p w') ->
  aborts (node_unref q) w.
Proof.
  intros Hn Hr Hl [He Hc]. unfold node_unref, aborts. cbn [node_unref_fuel].
  match goal with |- ?m w = _ => change (aborts m w) end.
  apply aborts_after. eapply wp_update; [exact Hn|]. apply aborts_after. eapply wp_load; [apply lookup_insert_eq|].
  set (n1 := n <| node_ref_count ::= Z.pred |>) in *.
  assert (node_ref_count n1 = 0 /\ node_proxy_monitors n1 = p :: l) as [Hr1 Hl1] by (split; [cbn; lia|exact Hl]).
  clearbody n1. rewrite Hr1, Hl1. cbn [negb Z.eqb foreach].
  by apply aborts_first, aborts_first, remove_proxy_aborts.
Qed.
End aborts.

(** The nodes are removed one after the other from the state [w0]; nothing was asked of
    them. A node is referred to by the list and by the proxies that aim at it. *)
Section winding.
Context {E : Env} {L : EnvLaws E} (w0 : World).

Definition aims (p : ptr) : Z := count_map (aims_at p) (w_proxies w0).
Definition proxies_of (p : ptr) : list ptr := from_option node_proxy_monitors [] (w_nodes w0 !! p).

Record waning (refs : Z) (p : ptr) (n : Node) : Prop := {
  wn_name : node_name n <> None;
  wn_subs : node_unit_subscriptions n = ∅;
  wn_requests : node_outstanding_requests n = [];
  wn_proxies : node_proxy_monitors n = proxies_of p;
  wn_refs : node_ref_count n = refs + aims p;
}.
(** The node [h] is not listed any more, but still referred to. *)
Record winding (h rest : list ptr) (v : World) : Prop := {
  wd_proxies : w_proxies v = w_proxies w0;
  wd_subs : w_subs v = w_subs w0;
  wd_listed : c_nodes (w_controller v) = rest;
  wd_unsubscribed : c_all_subscriptions (w_controller v) = [];
  wd_once : NoDup (h ++ rest);
  wd_old : forall p, p ∈ h ++ rest -> p ∈ c_nodes (w_controller w0);
  wd_node : forall p, p ∈ c_nodes (w_controller w0) -> p ∈ h ++ rest \/ 1 <= aims p ->
    exists n, w_nodes v !! p = Some n /\ waning (bit (bool_decide (p ∈ h ++ rest))) p n;
}.

Hypothesis Hclose : forall p pm, p ∈ c_nodes (w_controller w0) -> pm ∈ proxies_of p -> exists x s,
  w_proxies w0 !! pm = Some x /\ pm_subscription x = Some s /\ is_Some (w_subs w0 !! s) /\
  (pm_added_dep x = true -> exists t, pm_target_node x = Some t /\ t ∈ c_nodes (w_controller w0)).

Lemma winding_emptied h rest v : winding h rest v -> emptied v.
Proof.
  intros []. split; [done|]. rewrite wd_listed0. intros q Hq.
  assert (q ∈ h ++ rest) as Hin by (apply elem_of_app; by right).
  destruct (wd_node0 q (wd_old0 q Hin) ltac:(by left)) as (n & Hn & []). by exists n.
Qed.
Lemma winding_closable h rest v p pm : winding h rest v -> p ∈ c_nodes (w_controller w0) ->
  pm ∈ proxies_of p -> closable pm v.
Proof.
  intros [] Hp Hpm. destruct (Hclose p pm Hp Hpm) as (x & s & Hx & Hs & Hy & Hd). exists x, s.
  rewrite wd_proxies0, wd_subs0. split_and!; [done..|]. intros Ha. destruct (Hd Ha) as (t & Ht & Hin).
  exists t. split; [done|]. destruct (wd_node0 t Hin) as (n & Hn & _); [|by exists n]. right.
  apply (count_map_pos _ _ pm x Hx). unfold aims_at. rewrite Ht. by apply bool_decide_eq_true_2.
Qed.

(** A change of the removed node only. *)
Lemma winding_node h h' rest v v' p n refs : winding h rest v -> w_nodes v' = <[p := n]> (w_nodes v) ->
  w_proxies v' = w_proxies v -> w_subs v' = w_subs v -> c_nodes (w_controller v') = c_nodes (w_controller v) ->
  c_all_subscriptions (w_controller v') = c_all_subscriptions (w_controller v) -> waning refs p n ->
  refs = bit (bool_decide (p ∈ h' ++ rest)) -> NoDup (h' ++ rest) -> p ∈ c_nodes (w_controller w0) ->
  (forall q, q <> p -> q ∈ h' ++ rest <-> q ∈ h ++ rest) -> winding h' rest v'.
Proof.
  intros [] En Ep Es El Eu Hn -> Hnd Hp Hh. split; try congruence.
  - intros q Hq. destruct (decide (q = p)) as [->|Hne]; [done|]. by apply wd_old0, Hh.
  - intros q Hq Hor. rewrite En. at_key q p; [by exists n|].
    rewrite (bool_decide_ext _ _ (Hh q ltac:(done))). apply wd_node0; [done|]. by rewrite <- Hh.
Qed.

Lemma winding_gone p rest v v' : winding [p] rest v -> aims p = 0 -> w_nodes v' = delete p (w_nodes v) ->
  w_proxies v' = w_proxies v -> w_subs v' = w_subs v -> w_controller v' = w_controller v -> winding [] rest v'.
Proof.
  intros [] H0 En Ep Es Ec. apply NoDup_cons in wd_once0 as [Hp Hnd]. split; try congruence; try exact Hnd; cbn [app].
  - intros q Hq. apply wd_old0. by right.
  - intros q Hq Hor. assert (q <> p) as Hne by (intros ->; destruct Hor; [done|lia]).
    rewrite En, lookup_delete_ne by done.
    assert (bool_decide (q ∈ rest) = bool_decide (q ∈ [p] ++ rest)) as ->.
    { apply bool_decide_ext. cbn. rewrite elem_of_cons. naive_solver. }
    apply wd_node0; [done|]. destruct Hor; [left; by right|by right].
Qed.

Lemma winding_unref p rest v : winding [p] rest v -> (aims p = 0 -> proxies_of p = []) ->
  wp (node_unref p) (fun _ v' => winding [] rest v') v.
Proof.
  intros W Hpm. pose proof W as []. pose proof (wd_old0 p ltac:(by left)) as Hp.
  destruct (wd_node0 p Hp ltac:(left; by left)) as (n & Hn & []).
  rewrite bool_decide_eq_true_2 in wn_refs0 by (by left). change (bit true) with 1 in wn_refs0.
  pose proof (count_map_nonneg (aims_at p) (w_proxies w0)) as Hpos. fold (aims p) in Hpos.
  apply NoDup_cons in wd_once0 as [Hnot Hnd].
  destruct (decide (aims p = 0)) as [H0|H0].
  - eapply wp_node_unref_last; [exact Hn|lia|by rewrite wn_proxies0, Hpm|done| |].
    + by eapply winding_gone.
    + intros c _. by eapply winding_gone.
  - eapply wp_node_unref_some; [exact Hn|lia|].
    eapply (winding_node [p] []); [exact W|done..| |done|done|done|].
    + split; try done. rewrite bool_decide_eq_false_2 by done. cbn. lia.
    + intros q Hq. cbn. rewrite elem_of_cons. naive_solver.
Qed.
Lemma winding_unref_aborts p rest v : winding [p] rest v -> aims p = 0 -> proxies_of p <> [] ->
  aborts (node_unref p) v.
Proof.
  intros W H0 Hpm. pose proof W as []. pose proof (wd_old0 p ltac:(by left)) as Hp.
  destruct (wd_node0 p Hp ltac:(left; by left)) as (n & Hn & []).
  rewrite bool_decide_eq_true_2 in wn_refs0 by (by left). change (bit true) with 1 in wn_refs0.
  destruct (proxies_of p) as [|pm l] eqn:Hl; [done|].
  eapply node_unref_aborts; [exact Hn|lia|exact wn_proxies0|]. split.
  - destruct (winding_emptied _ _ _ W) as [Hs Hall]. split; [exact Hs|]. intros q Hq. cbn. at_key q p; [|by apply Hall].
    exists (n <| node_ref_count ::= Z.pred |>). by split_and!.
  - destruct (winding_closable _ _ _ p pm W Hp) as (x & s & Hx & Hs & Hy & Hd); [rewrite Hl; by left|].
    exists x, s. split_and!; [done..|]. intros Ha. destruct (Hd Ha) as (t & Ht & [m Hm]). exists t. split; [done|].
    unfold node_there. cbn. at_key t p; [by eexists|by exists m].
Qed.

Lemma ends_after {A B} (m : CM A) (k : A -> CM B) (R : outcome World B -> Prop) w :
  wp m (fun a w' => R (k a w')) w -> R ((m ≫= k) w).
Proof. unfold wp, mbind, M_bind. by destruct (m w). Qed.

(** The removal of a node up to its last step. *)
Lemma winding_remove p rest v (R : outcome World void -> Prop) : winding [] (p :: rest) v ->
  (forall v', winding [p] rest v' -> R (node_unref p v')) -> R (controller_remove_node p v).
Proof.
  intros W HR. pose proof W as []. pose proof (wd_old0 p ltac:(by left)) as Hp.
  destruct (wd_node0 p Hp ltac:(left; by left)) as (n & Hn & Hw). unfold controller_remove_node.
  apply ends_after. eapply wp_load; [exact Hn|]. apply ends_after, wp_controller.
  pose proof (wn_name _ _ _ Hw) as Hname. destruct (node_name n) as [name|] eqn:En; [|done].
  apply ends_after. wp_one. wp_one. wp_one. apply wp_list_remove_from; [rewrite wd_listed0; by left|]. wp_one.
  match goal with |- context [_ ≫= _] => idtac end.
  match goal with |- R (_ ?v') => set (v1 := v') end.
  assert (winding [p] rest v1) as W1.
  { split; try done. cbn. rewrite wd_listed0. cbn. by rewrite decide_True. }
  clearbody v1. apply ends_after. destruct (node_is_online n); [|wp_one; by apply HR].
  destruct (wd_node _ _ _ W1 p Hp ltac:(left; by left)) as (n1 & Hn1 & Hw1).
  unfold node_shutdown. wp_one. wp_one. eapply wp_update; [exact Hn1|]. wp_one. eapply wp_load; [apply lookup_insert_eq|].
  cbn [node_outstanding_requests field_update]. rewrite (wn_requests _ _ _ Hw1). cbn [foreach]. wp_one. wp_one. apply HR.
  eapply (winding_node [p] [p]); [exact W1|done..| |done|apply W1|done|done].
  destruct Hw1. by split.
Qed.

Lemma winding_aborts l : forall v, winding [] l v ->
  (exists p, p ∈ l /\ aims p = 0 /\ proxies_of p <> []) -> aborts (foreach l controller_remove_node) v.
Proof.
  induction l as [|q l IH]; intros v W (p & Hp & H0 & Hpm); [by apply not_elem_of_nil in Hp|].
  cbn [foreach]. destruct (decide (aims q = 0 /\ proxies_of q <> [])) as [[H0' Hpm']|Hq].
  - apply aborts_first.
    refine (winding_remove q l v (fun o => o = Crash AssertionFailure) W _).
    intros v' W'. exact (winding_unref_aborts q l v' W' H0' Hpm').
  - apply aborts_after.
    refine (winding_remove q l v (fun o => match o with
      | Ret a v' => aborts (foreach l controller_remove_node) v'
      | Crash _ => False
      end) W _).
    intros v' W'. assert (wp (node_unref q) (fun _ v2 => winding [] l v2) v') as Hu.
    { apply winding_unref; [exact W'|]. intros Hz. destruct (proxies_of q) eqn:Hl; [done|]. by destruct Hq. }
    unfold wp in Hu. destruct (node_unref q v') as [[] v2|]; [|exact Hu]. apply IH; [exact Hu|]. exists p.
    apply elem_of_cons in Hp as [->|Hp]; [by destruct Hq|done].
Qed.
End winding.

(** What the controller has let go of. *)
Definition let_go (w : World) : Prop :=
  bare w /\ c_nodes (w_controller w) = [] /\ c_anonymous_nodes (w_controller w) = [].

Lemma stop_lets_go {E : Env} {L : EnvLaws E} (Hnf : no_local_failure E) (a : list answer) w :
  controller_inv nothing a w -> stoppable w = true -> wp controller_stop (fun _ => let_go) w.
Proof.
  intros I Hstop. unfold controller_stop. wp_one. wp_one. wp_one.
  eapply wp_mono; [by apply stop_jobs|]. cbn beta. intros _ w1 (I1 & K1 & Hj1).
  pose proof (stoppable_kept _ _ K1 Hstop) as Hstop1. wp_one. wp_one. wp_one.
  eapply wp_mono; [by apply (stop_subscriptions a w1 I1)|]. cbn beta. intros _ w2 [U Hs2].
  destruct (stopping_begins a w1 w2 I1 Hstop1 U Hs2) as [S2 Hw2]. pose proof U as [].
  pose proof (kp_listed _ _ us_kept0) as En. pose proof (kp_anonymous _ _ us_kept0) as Ea.
  pose proof (kp_self _ _ us_kept0) as Er. destruct us_listed0 as [Ej Em]. wp_one. wp_one. wp_one.
  eapply wp_mono; [apply stop_monitors|].
  { by eapply (listed_monitors a w1 w2). }
  { by eapply (listed_monitors a w1 w2). }
  cbn beta. intros _ w3 (ms & ->). set (w3 := with_monitors ms [] w2).
  assert (stopping (c_nodes (w_controller w1)) nothing a (w_fleets w3) w3) as S3 by (by destruct S2).
  assert (bare w3) as Hb3. { unfold bare, other_lists. cbn. by rewrite Er, Ej, Hs2, (ci_self _ _ _ I1). }
  do 3 wp_one.
  eapply wp_mono; [apply (stop_nodes Hnf a (c_nodes (w_controller w1)) w3 S3)|]; try done.
  { cbn. rewrite En. apply (ok_nodes_nodup _ (ci_registry _ _ _ I1)). }
  { cbn. by rewrite En. }
  { cbn. by rewrite En. }
  cbn beta. intros _ w4 (a4 & S4 & Hb4 & Hn4 & Ha4). wp_one. wp_one. wp_one.
  eapply wp_mono; [apply (stop_anonymous a4 _ w4 S4); [|done..]|].
  { rewrite Ha4. cbn. rewrite Ea. apply (no_once _ _ _ _ (ci_nodes _ _ _ I1)). }
  cbn beta. intros _ w5 (Hb5 & Hn5 & Ha5).
  match goal with |- wp ?k _ _ => enough (runs w5 k) as Hk end.
  { eapply wp_mono; [by apply Hk|]. cbn beta. intros _ w6 Hc. pose proof (cm_controller _ _ _ Hc) as Hcore.
    core_of Hcore. unfold let_go, bare, other_lists in *. split_and!; congruence. }
  run_tac.
Qed.

(** With no request under way, the subscriptions and monitors being gone. *)
Lemma winding_begins {E : Env} a w w' ms : controller_inv nothing a w -> w_reqs w = ∅ ->
  unsubscribed w w' -> c_all_subscriptions (w_controller w') = [] ->
  let v := with_monitors ms [] w' in
  winding v [] (c_nodes (w_controller v)) v /\
  (forall p pm, p ∈ c_nodes (w_controller v) -> pm ∈ proxies_of v p -> exists x s,
     w_proxies v !! pm = Some x /\ pm_subscription x = Some s /\ is_Some (w_subs v !! s) /\
     (pm_added_dep x = true -> exists t, pm_target_node x = Some t /\ t ∈ c_nodes (w_controller v))) /\
  (forall p n, p ∈ c_nodes (w_controller w) -> w_nodes w !! p = Some n ->
     proxies_of v p = node_proxy_monitors n /\ node_ref_count n = 1 + aims v p).
Proof.
  intros I Hreqs U Hs v. pose proof (us_kept _ _ U) as K. pose proof (kp_listed _ _ K) as El.
  assert (forall p n, p ∈ c_nodes (w_controller w) -> w_nodes w !! p = Some n -> exists n',
    w_nodes v !! p = Some n' /\ node_core n' = node_core n /\ node_unit_subscriptions n' = ∅) as Hfw.
  { intros p n Hp Hn. destruct (alike_some _ _ _ p n (kp_nodes _ _ K) Hn) as (n' & Hn' & Hcore). exists n'.
    split_and!; [done..|]. apply (unsubscribed_node w w' p n' U Hs); [by rewrite El|done]. }
  assert (forall p, aims v p = count_map (aims_at p) (w_proxies w)) as Haims.
  { intros p. apply (count_map_core pm_core (aims_at p) (fun c => bool_decide (c.2 = Some p))); [done|].
    apply (us_proxies _ _ U). }
  assert (forall p n, p ∈ c_nodes (w_controller w) -> w_nodes w !! p = Some n ->
    proxies_of v p = node_proxy_monitors n /\ node_ref_count n = 1 + aims v p) as Hnode.
  { intros p n Hp Hn. destruct (Hfw p n Hp Hn) as (n' & Hn' & Hcore & _). core_of Hcore. split.
    - unfold proxies_of. rewrite Hn'. cbn. congruence.
    - rewrite (ci_refs _ _ _ I p n Hp Hn), Haims. unfold node_owners. rewrite Hreqs.
      rewrite (count_map_zero (asks_node p)) by (intros r x; by rewrite lookup_empty).
      rewrite sum_map_zero; [cbn; lia|]. intros f x Hx. unfold entries_on.
      destruct (ro_entries _ _ _ _ _ _ (ci_reqs _ _ _ I) f x Hx) as [_ Hall].
      destruct (fl_sub_req x) as [|sr l]; [done|]. destruct (Hall sr ltac:(by left)) as (_ & q & Hq & _).
      by rewrite Hreqs, lookup_empty in Hq. }
  split_and!; [| |exact Hnode].
  - split; try done; cbn.
    + rewrite El. apply (ok_nodes_nodup _ (ci_registry _ _ _ I)).
    + rewrite El. intros p Hp _. destruct (listed_node I p Hp) as (n & name & _ & Hn & Hname & _).
      destruct (Hfw p n Hp Hn) as (n' & Hn' & Hcore & Hu). core_of Hcore. exists n'. split; [exact Hn'|].
      rewrite bool_decide_eq_true_2 by done. destruct (Hnode p n Hp Hn) as [Hpm Href].
      split; [congruence|exact Hu| |congruence|change (bit true) with 1; lia].
      destruct (ro_outstanding _ _ _ _ _ _ (ci_reqs _ _ _ I) p n Hp Hn) as [_ Hall].
      replace (node_outstanding_requests n') with (node_outstanding_requests n) by congruence.
      destruct (node_outstanding_requests n) as [|r l]; [done|]. destruct (Hall r ltac:(by left)) as (q & Hq & _).
      by rewrite Hreqs, lookup_empty in Hq.
  - cbn. rewrite El. intros p pm Hp Hpm. destruct (listed_node I p Hp) as (n & _ & _ & Hn & _).
    destruct (Hnode p n Hp Hn) as [E1 _]. rewrite E1 in Hpm.
    destruct (po_list _ _ _ _ _ _ _ _ (ci_proxies _ _ _ I) p n Hp Hn) as [_ Hall].
    destruct (Hall pm Hpm) as (x & Hx & _ & Ht). destruct (alike_some _ _ _ pm x (us_proxies _ _ U) Hx) as (x' & Hx' & Hcore).
    destruct (po_proxy _ _ _ _ _ _ _ _ (ci_proxies _ _ _ I) pm x Hx) as (_ & (s & y & Hsx & Hy & _) & _ & Hl & _).
    core_of Hcore. exists x', s. split_and!; [done|congruence|apply (us_subs_there _ _ U); by exists y|].
    intros _. destruct (pm_target_node x) as [t|] eqn:Et; [|done]. exists t. split; [congruence|]. by apply Hl.
Qed.

Lemma stop_aborts {E : Env} {L : EnvLaws E} (a : list answer) w p n :
  controller_inv nothing a w -> w_reqs w = ∅ -> p ∈ c_nodes (w_controller w) -> w_nodes w !! p = Some n ->
  node_proxy_monitors n <> [] -> node_ref_count n = 1 -> aborts controller_stop w.
Proof.
  intros I Hreqs Hp Hn Hpm Href. unfold controller_stop. apply aborts_after, wp_controller, aborts_after.
  eapply wp_mono; [by apply stop_jobs|]. cbn beta. intros _ w1 (I1 & K1 & Hj1).
  apply aborts_after, wp_controller, aborts_after.
  eapply wp_mono; [by apply (stop_subscriptions a w1 I1)|]. cbn beta. intros _ w2 [U Hs2].
  apply aborts_after, wp_controller, aborts_after. pose proof U as []. destruct us_listed0 as [_ Em].
  eapply wp_mono; [apply stop_monitors|].
  { by eapply (listed_monitors a w1 w2). }
  { by eapply (listed_monitors a w1 w2). }
  cbn beta. intros _ w3 (ms & ->). assert (w_reqs w1 = ∅) as Hreqs1 by (by rewrite (kp_reqs _ _ K1)).
  destruct (winding_begins a w1 w2 ms I1 Hreqs1 U Hs2) as (W & Hclose & Hnode).
  apply aborts_after, wp_controller, aborts_first. apply (winding_aborts _ Hclose _ _ W).
  destruct (alike_some _ _ _ p n (kp_nodes _ _ K1) Hn) as (n1 & Hn1 & Hcore). core_of Hcore.
  assert (p ∈ c_nodes (w_controller w1)) as Hp1 by (by rewrite (kp_listed _ _ K1)).
  destruct (Hnode p n1 Hp1 Hn1) as [E1 E2]. exists p. split_and!; [|lia|congruence].
  cbn. by rewrite (kp_listed _ _ us_kept0).
Qed.
