(* ===== verification/ControllerMain.v ===== *)
(** controller/main.c, [controller_new] and [controller_start]: the options of
    bluechi-controller, and the life of the process from its command line to the release of
    the controller. *)
From S2P Require Import Prelude CString StringUtil ParseUtil TimeUtil Protocol Log Cfg Socket.
From S2P Require Import World Job Events Subscriptions Monitor Proxy Requests Node Controller.
From S2P Require Import Command Listeners ControllerEvents.
Local Open Scope list_scope.

Record ControllerOptions := mkControllerOptions { opt_port : option string; opt_config : option string }.
#[export] Instance eta_ControllerOptions : EtaRecord ControllerOptions := fun o =>
  mkControllerOptions (opt_port o) (opt_config o).
Definition no_options : ControllerOptions := mkControllerOptions None None.

(** The process: what it prints, the allocations of the configuration, the controller with
    its settings, its listeners, and its timer. *)
Record CmWorld := mkCmWorld {
  cm_output : list printed;
  cm_allocs : nat;
  cm_world : World;
  cm_settings : Settings;
  cm_listeners : ListenWorld;
  cm_timer : EventWorld;
}.
#[export] Instance eta_CmWorld : EtaRecord CmWorld := fun w =>
  mkCmWorld (cm_output w) (cm_allocs w) (cm_world w) (cm_settings w) (cm_listeners w) (cm_timer w).
#[export] Instance cm_console : Console CmWorld := fun p w => w <| cm_output ::= fun l => l ++ [p] |>.
Abbreviation PM := (M CmWorld).

Definition in_controller {A} : CM A -> PM A := zoom cm_world (fun v w => w <| cm_world := v |>).
Definition in_cfg {A} : M nat A -> PM A := zoom cm_allocs (fun v w => w <| cm_allocs := v |>).
Definition in_listeners {A} : LM A -> PM A := zoom cm_listeners (fun v w => w <| cm_listeners := v |>).
Definition in_timer {A} : M EventWorld A -> PM A := zoom cm_timer (fun v w => w <| cm_timer := v |>).

Definition usage_text (argv0 : string) : string :=
  "Usage:" ++ nl ++ Command.tab ++ argv0 ++ " [options...] " ++ nl ++ "Available options are:" ++ nl ++
  usage_line "h" "help" (Command.tab ++ Command.tab ++ " Print this help message.") ++
  usage_line "p" "port" (Command.tab ++ Command.tab ++ " The port of bluechi to connect to.") ++
  usage_line "c" "config" (Command.tab ++ " A path to a config file used to bootstrap bluechi-controller.") ++
  usage_line "v" "version" (Command.tab ++ " Print current bluechi version.").

Section options.
Context (argv0 version : string).
Definition usage : PM void := Command.printf (usage_text argv0).

Fixpoint get_opts (opts : list (Z * option string)) (o : ControllerOptions) : PM (Z * ControllerOptions) :=
  match opts with
  | [] => mret (0, o)
  | (opt, optarg) :: opts =>
      if opt =? ARG_HELP_SHORT then usage ;; mret (1, o)
      else if opt =? ARG_VERSION_SHORT then
        Command.printf ("bluechi-controller version " ++ version ++ nl) ;; mret (1, o)
      else if opt =? ARG_PORT_SHORT then get_opts opts (o <| opt_port := optarg |>)
      else if opt =? ARG_CONFIG_SHORT then get_opts opts (o <| opt_config := optarg |>)
      else
        eprintf ("Unsupported option " ++ String (ascii_of_nat (Z.to_nat opt)) nl) ;;
        usage ;; mret (- EINVAL, o)
  end.
End options.

(** What the process meets: the files of the configuration, the results of opening the bus
    and of setting up the loop, the events, and how the loop ends: with a signal, or with an
    error. *)
Record controller_surroundings := mkControllerSurroundings {
  cs_event : Z;
  cs_default_file : option string; cs_etc_file : option string; cs_etc_dir : option string;
  cs_api_bus : bool;
  cs_shutdown : list Z;
  cs_events : list controller_event;
  cs_loop : Z;
}.

Section main.
Context {E : Env} {CE : CfgEnv} {K : Kernel} {D : SdListen} {EV : SdEvent}.
Context (CONFIG_H_UDS_SOCKET_PATH : string) (s : controller_surroundings).

Definition new_controller : Controller := mkController 1 false false 0 0 0 0 [] [] [] [] [].

Definition controller_new : PM bool :=
  if cs_event s <? 0 then mret false else
  service_name ← in_controller local_ok;
  if negb service_name then mret false else
  ok ← in_controller local_ok;
  match socket_options_new ok with
  | None => mret false
  | Some socket_opts =>
      controller ← in_controller local_ok;
      if negb controller then mret false else
      in_controller (upd_controller (fun _ => new_controller)) ;;
      modify (fun w => w <| cm_settings := mkSettings false false 0 socket_opts |>
                         <| cm_listeners ::= fun l =>
                              l <| node_connection_tcp_socket_source := None |>
                                <| node_connection_uds_socket_source := None |>
                                <| node_connection_systemd_socket_source := None |> |>) ;;
      mret true
  end.

(** [controller_start] with its event loop; [false] for every failure. *)
Definition controller_run : PM bool :=
  if negb (cs_api_bus s) then mret false else
  ok ← in_controller controller_publish;
  if negb ok then mret false else
  settings ← gets cm_settings;
  ok ← in_listeners (controller_setup_node_connection_handler CONFIG_H_UDS_SOCKET_PATH
         (s_use_tcp settings) (s_use_uds settings) (s_port settings));
  if negb ok then mret false else
  c ← in_controller controller;
  r ← in_timer (controller_setup_heartbeat_timer c);
  if r <? 0 then mret false else
  if event_loop_add_shutdown_signals true (cs_shutdown s) <? 0 then mret false else
  _answered ← in_controller (controller_loop [] (cs_events s));
  mret (negb (cs_loop s <? 0)).
(** A signal ends the loop by stopping the controller. *)
Definition controller_start : PM bool :=
  ok ← controller_run;
  if negb ok then mret false else
  _r ← in_controller (event_loop_signal_handler true (Some controller_stop) (mret 0));
  mret true.

(** The settings of the configuration, then of the command line. *)
Definition controller_configure (config : config_t) (o : ControllerOptions) : PM bool :=
  sections ← in_cfg (cfg_list_sections config);
  settings ← gets cm_settings;
  applied ← in_controller (controller_apply_config config sections settings);
  let '(ok, settings) := applied in
  modify (fun w => w <| cm_settings := settings |>) ;;
  if negb ok then mret false else
  match opt_port o with
  | None => mret true
  | Some port =>
      match controller_set_port settings port with
      | None => mret false
      | Some settings => modify (fun w => w <| cm_settings := settings |>) ;; mret true
      end
  end.

Definition controller_main_on (o : ControllerOptions) : PM Z :=
  x ← in_cfg (controller_parse_config (opt_config o) (cs_default_file s) (cs_etc_file s) (cs_etc_dir s));
  if negb (fst x) then mret EXIT_FAILURE else
  let config := default (mkConfig ∅ CFG_SECT_GLOBAL) (snd x) in
  in_controller (modify (fun w => w <| w_log ::= fun l => snd (bc_log_init config l) |>)) ;;
  _dump ← in_cfg (cfg_dump (Some config));
  ok ← controller_configure config o;
  if negb ok then mret EXIT_FAILURE else
  ok ← controller_start;
  if (ok : bool) then mret EXIT_SUCCESS else
  in_controller controller_stop ;; mret EXIT_FAILURE.

(** [_cleanup_controller_]: the assertions of [controller_unref], then its sources. *)
Definition controller_drop : PM void :=
  in_controller controller_unref ;;
  c ← in_controller controller;
  if negb (c_ref_count c =? 0) then mret tt
  else in_listeners (controller_release_sources CONFIG_H_UDS_SOCKET_PATH).

Definition controller_main (argv0 version : string) (args : getopt_result) : PM Z :=
  x ← get_opts argv0 version (go_options args) no_options;
  let '(r, o) := x in
  if r <? 0 then mret EXIT_FAILURE
  else if 0 <? r then mret EXIT_SUCCESS
  else
    ok ← controller_new;
    if negb ok then mret EXIT_FAILURE else
    status ← controller_main_on o;
    controller_drop ;;
    mret status.
End main.
