(* ===== verification/ControllerMainTheorems.v ===== *)
(** The configuration of the controller: which nodes it makes, with which restrictions, and
    the values of the settings; and what becomes of the process when a setting is
    rejected. *)
From stdpp Require Import sorting.
From S2P Require Import Prelude CString StringUtil ParseUtil TimeUtil Protocol BusUtils Log Cfg Socket.
From S2P Require Import World Job Events Subscriptions Monitor Proxy Requests Node Controller.
From S2P Require Import WorldFacts EventFacts RegistryFacts SettingsFacts Sample.
From S2P Require Import Command Listeners ControllerEvents ControllerMain CfgTheorems SocketTheorems.
Local Open Scope list_scope.

(** ** The nodes of a configuration *)

Record node_conf := mkNodeConf {
  nc_name : string;
  nc_context : option string;                (* RequiredSelinuxContext *)
  nc_targets : list string;                  (* AllowDependenciesOn *)
}.
#[export] Instance eta_node_conf : EtaRecord node_conf := fun c =>
  mkNodeConf (nc_name c) (nc_context c) (nc_targets c).

Definition known (l : list node_conf) (name : string) : bool := existsb (fun c => streq (nc_name c) name) l.
Definition add_conf (l : list node_conf) (name : string) : list node_conf :=
  if known l name then l else l ++ [mkNodeConf name None []].
Definition update_conf (name : string) (f : node_conf -> node_conf) (l : list node_conf) : list node_conf :=
  map (fun c => if streq (nc_name c) name then f c else c) l.

(** The name in the section of a node. *)
Definition section_node (section : string) : option string :=
  if str_has_prefix section CFG_SECT_NODE_PREFIX then Some (str_drop (strlen CFG_SECT_NODE_PREFIX) section)
  else None.
Definition restrict (config : config_t) (section : string) (c : node_conf) : node_conf :=
  mkNodeConf (nc_name c)
    (cfg_s_get_value config section CFG_REQUIRED_SELINUX_CONTEXT ∪ nc_context c)
    (nc_targets c ++ match cfg_s_get_value config section CFG_ALLOW_DEPENDENCIES_ON with
                     | Some names => strtok_all names ","
                     | None => []
                     end).
Definition conf_section (config : config_t) (l : list node_conf) (section : string) : list node_conf :=
  match section_node section with
  | None => l
  | Some name =>
      if known l name || cfg_s_get_bool_value config section CFG_ALLOWED
      then update_conf name (restrict config section) (add_conf l name)
      else l
  end.
Definition allowed_names (config : config_t) : list string :=
  match cfg_get_value config CFG_ALLOWED_NODE_NAMES with
  | Some names => strtok_all names ","
  | None => []
  end.
Definition configured_nodes (config : config_t) (sections : list string) : list node_conf :=
  foldl (conf_section config) (foldl add_conf [] (allowed_names config)) sections.

(** *** Facts *)

Lemma known_spec l name : known l name = true <-> name ∈ map nc_name l.
Proof.
  unfold known. rewrite existsb_exists, list_elem_of_In, in_map_iff. split.
  - intros (c & Hc & Hn). exists c. split; [by apply streq_true|done].
  - intros (c & <- & Hc). exists c. split; [done|apply streq_refl].
Qed.
Lemma known_false l name : known l name = false <-> name ∉ map nc_name l.
Proof. rewrite <- known_spec. by destruct (known l name). Qed.

Lemma names_update name f l : (forall c, nc_name (f c) = nc_name c) ->
  map nc_name (update_conf name f l) = map nc_name l.
Proof.
  intros Hf. unfold update_conf. rewrite map_map. apply map_ext. intros c. by destruct (streq _ _).
Qed.
Lemma names_add l name :
  map nc_name (add_conf l name) = if known l name then map nc_name l else map nc_name l ++ [name].
Proof. unfold add_conf. destruct (known l name); [done|]. by rewrite map_app. Qed.

Lemma add_nodup l name : NoDup (map nc_name l) -> NoDup (map nc_name (add_conf l name)).
Proof.
  intros H. rewrite names_add. destruct (known l name) eqn:Ek; [done|]. apply NoDup_app. split_and!; [done| |].
  - intros x Hx ->%list_elem_of_singleton. by apply known_false in Ek.
  - apply NoDup_singleton.
Qed.
Lemma section_nodup config l section : NoDup (map nc_name l) -> NoDup (map nc_name (conf_section config l section)).
Proof.
  intros H. unfold conf_section. destruct (section_node section) as [name|]; [|done].
  destruct (_ || _); [|done]. rewrite names_update by done. by apply add_nodup.
Qed.

Lemma add_elem l name x : x ∈ map nc_name (add_conf l name) <-> x ∈ map nc_name l \/ x = name.
Proof.
  rewrite names_add. destruct (known l name) eqn:Ek.
  - split; [by left|]. intros [H| ->]; [done|]. by apply known_spec.
  - by rewrite elem_of_app, list_elem_of_singleton.
Qed.
Lemma section_elem config l section x :
  x ∈ map nc_name (conf_section config l section) <->
  x ∈ map nc_name l \/ section_node section = Some x /\ cfg_s_get_bool_value config section CFG_ALLOWED = true.
Proof.
  unfold conf_section. destruct (section_node section) as [name|]; [|naive_solver].
  destruct (_ || _) eqn:Eo.
  - rewrite names_update by done. rewrite add_elem. split; [|naive_solver].
    intros [H| ->]; [by left|]. apply orb_true_iff in Eo as [Hk%known_spec|Ha]; auto.
  - apply orb_false_iff in Eo as [_ Ha]. rewrite Ha. naive_solver.
Qed.

(** Every name once; exactly the names that are listed or have a section that allows them. *)
Definition allowed (config : config_t) (sections : list string) (name : string) : Prop :=
  name ∈ allowed_names config \/
  exists section, section ∈ sections /\ section_node section = Some name /\
    cfg_s_get_bool_value config section CFG_ALLOWED = true.
Lemma configured_names config sections :
  NoDup (map nc_name (configured_nodes config sections)) /\
  forall name, name ∈ map nc_name (configured_nodes config sections) <-> allowed config sections name.
Proof.
  unfold configured_nodes, allowed.
  assert (forall names l, NoDup (map nc_name l) -> NoDup (map nc_name (foldl add_conf l names)) /\
    forall x, x ∈ map nc_name (foldl add_conf l names) <-> x ∈ map nc_name l \/ x ∈ names) as Hadd.
  { induction names as [|n names IH]; intros l Hl; cbn [foldl].
    - split; [done|]. intros x. set_solver.
    - destruct (IH (add_conf l n)) as [H1 H2]; [by apply add_nodup|]. split; [done|]. intros x.
      rewrite H2, add_elem. set_solver. }
  destruct (Hadd (allowed_names config) []) as [H1 H2]; [constructor|].
  revert H1 H2. generalize (foldl add_conf [] (allowed_names config)). generalize (allowed_names config).
  intros names l Hl Hn. assert (forall x, x ∈ map nc_name l <-> x ∈ names) as Hn' by set_solver. clear Hn.
  revert names l Hl Hn'. induction sections as [|s sections IH]; intros names l Hl Hn; cbn [foldl].
  - split; [done|]. intros x. rewrite Hn. set_solver.
  - destruct (IH (map nc_name (conf_section config l s)) (conf_section config l s)) as [H1 H2];
      [by apply section_nodup|done|]. split; [done|]. intros x. rewrite H2, section_elem, Hn. set_solver.
Qed.

(** ** The nodes in the state *)

(** The node made of a configuration; it has no agent. *)
Definition node_of (x : node_conf) : Node :=
  mkNode 1 false None false false false (Some (nc_name x)) (nc_context x)
    (snd (assemble_object_path_string true true NODE_OBJECT_PATH_PREFIX (nc_name x)))
    None None [] [] [] (nc_targets x) ∅ 0 0 false.

(** The controller [c], to which the nodes [l] were added. *)
Record has_nodes (c : Controller) (l : list node_conf) (w : World) : Prop := {
  hn_controller : w_controller w =
    c <| c_nodes := c_nodes (w_controller w) |> <| c_number_of_nodes := Z.of_nat (Datatypes.length l) |>;
  hn_nodes : Forall2 (fun p x => w_nodes w !! p = Some (node_of x)) (c_nodes (w_controller w)) l;
  hn_distinct : NoDup (c_nodes (w_controller w));
  hn_old : Forall (fun p => (p < w_next_ptr w)%positive) (c_nodes (w_controller w));
}.

Lemma stored_fresh (m : gmap ptr Node) ps l q n : q ∉ ps ->
  Forall2 (fun p x => m !! p = Some (node_of x)) ps l ->
  Forall2 (fun p x => <[q := n]> m !! p = Some (node_of x)) ps l.
Proof.
  intros Hq H. induction H as [|p x ps l Hp _ IH]; constructor; [|apply IH; set_solver].
  by rewrite lookup_insert_ne by set_solver.
Qed.

(** The node of a name, and what an update of it does. *)
Lemma find_named (w : World) ps l name :
  Forall2 (fun p x => w_nodes w !! p = Some (node_of x)) ps l ->
  match List.find (named w name) ps with
  | Some p => known l name = true /\ p ∈ ps /\ exists x, nc_name x = name /\ w_nodes w !! p = Some (node_of x)
  | None => known l name = false
  end.
Proof.
  induction 1 as [|p x ps l Hp _ IH]; [done|]. cbn [List.find known existsb].
  assert (named w name p = streq (nc_name x) name) as -> by (unfold named; by rewrite Hp).
  destruct (streq (nc_name x) name) eqn:Es; cbn [orb].
  - split_and!; [done|left|]. exists x. split; [by apply streq_true|done].
  - destruct (List.find _ _) as [q|]; [|done]. destruct IH as (Hk & Hq & Hx). split_and!; [done|by right|done].
Qed.
Lemma node_of_inj x y : node_of x = node_of y -> x = y.
Proof. destruct x, y. unfold node_of. cbn. by intros [= -> -> _ ->]. Qed.
Lemma update_other name f l : name ∉ map nc_name l -> update_conf name f l = l.
Proof.
  induction l as [|x l IH]; [done|]. unfold update_conf. cbn [map]. fold (update_conf name f l).
  intros H. rewrite IH by set_solver.
  destruct (streq _ _) eqn:Es; [|done]. apply streq_true in Es. set_solver.
Qed.
Lemma stored_update (m : gmap ptr Node) ps l p x (f : node_conf -> node_conf) n :
  Forall2 (fun p x => m !! p = Some (node_of x)) ps l -> NoDup ps -> NoDup (map nc_name l) -> p ∈ ps ->
  m !! p = Some (node_of x) -> n = node_of (f x) ->
  Forall2 (fun q y => <[p := n]> m !! q = Some (node_of y)) ps (update_conf (nc_name x) f l).
Proof.
  intros H Hps Hl Hp Hx ->. induction H as [|q y ps l Hq Hrest IH]; [by apply not_elem_of_nil in Hp|].
  apply NoDup_cons in Hps as [Hq' Hps]. apply NoDup_cons in Hl as [Hy Hl].
  unfold update_conf. cbn [map]. fold (update_conf (nc_name x) f l).
  destruct (decide (q = p)) as [->|Hne].
  - assert (y = x) as -> by (apply node_of_inj; congruence). rewrite streq_refl. constructor; [by rewrite lookup_insert_eq|].
    rewrite (update_other (nc_name x) f l) by done. by apply stored_fresh.
  - apply elem_of_cons in Hp as [->|Hp]; [done|].
    assert (nc_name x ∈ map nc_name l) as Hin.
    { apply list_elem_of_lookup in Hp as [i Hi]. destruct (Forall2_lookup_l _ _ _ _ _ Hrest Hi) as (y' & Hy' & Hm).
      assert (y' = x) as -> by (apply node_of_inj; congruence). apply list_elem_of_lookup_2 in Hy'.
      by apply (list_elem_of_fmap_2 nc_name). }
    destruct (streq (nc_name y) (nc_name x)) eqn:Es; [apply streq_true in Es; by rewrite Es in Hy|].
    constructor; [by rewrite lookup_insert_ne|]. by apply IH.
Qed.

Section nodes.
Context {E : Env} (Hmem : no_local_failure E).

Lemma wp_memory Q w : (Q true (tick w)) -> wp local_ok Q w.
Proof. intros H. apply wp_local_ok. by rewrite (proj2 (Z.ltb_ge _ _)) by apply Hmem. Qed.

(** The new node is the only change but for the count of the allocations. *)
Definition with_new_node (name : string) (w : World) : World :=
  w <| w_nodes ::= <[w_next_ptr w := node_of (mkNodeConf name None [])]> |> <| w_next_ptr ::= Pos.succ |>.
Lemma wp_node_new name Q w :
  (forall k, Q (Some (w_next_ptr w)) (with_new_node name w <| w_locals := k |>)) ->
  wp (node_new (Some name)) Q w.
Proof.
  intros HQ. unfold node_new. wp_one. apply wp_memory. cbn [negb]. wp_one. wp_one. cbn beta.
  wp_one. apply wp_memory. cbn [negb]. wp_one. apply wp_memory. cbn [negb].
  wp_one. eapply wp_update; [apply lookup_insert_eq|]. wp_one. apply wp_memory. wp_one. apply wp_memory.
  unfold assemble_object_path_string. destruct (bus_path_escape true name) as [escaped|] eqn:Ee.
  2: { unfold bus_path_escape in Ee. cbn [negb] in Ee. by destruct name. }
  rewrite (proj2 (Z.ltb_ge _ _)) by lia. wp_one. eapply wp_update; [apply lookup_insert_eq|]. wp_one.
  match goal with |- Q _ ?v => assert (v = with_new_node name w <| w_locals := w_locals v |>) as -> end; [|apply HQ].
  unfold with_new_node, node_of, assemble_object_path_string. cbn [nc_name nc_context nc_targets]. rewrite Ee.
  destruct w. cbn. f_equal. by rewrite !insert_insert_eq.
Qed.

Lemma wp_add_node c l w name : has_nodes c l w ->
  wp (controller_add_node (Some name)) (fun r w' => exists p, r = Some p /\
    has_nodes c (l ++ [mkNodeConf name None []]) w' /\
    c_nodes (w_controller w') = c_nodes (w_controller w) ++ [p]) w.
Proof.
  intros []. unfold controller_add_node. wp_one. apply wp_node_new. intros k. wp_one. wp_one. wp_one.
  exists (w_next_ptr w). split; [done|]. split; [|done].
  assert (w_next_ptr w ∉ c_nodes (w_controller w)) as Hnew.
  { intros Hin. rewrite Forall_forall in hn_old0. apply hn_old0 in Hin. lia. }
  split; cbn.
  - rewrite hn_controller0. cbn. rewrite length_app. cbn. by replace (Z.of_nat (_ + _)) with
      (Z.succ (Z.of_nat (Datatypes.length l))) by lia.
  - apply Forall2_app; [|repeat constructor; apply lookup_insert_eq].
    by apply stored_fresh.
  - apply NoDup_app. split_and!; [done| |apply NoDup_singleton]. by intros x Hx ->%list_elem_of_singleton.
  - apply Forall_app. split; [|repeat constructor; lia]. eapply Forall_impl; [exact hn_old0|]. cbn. lia.
Qed.

Lemma has_nodes_tick c l w : has_nodes c l w -> has_nodes c l (tick w).
Proof. by intros []. Qed.

Lemma wp_find c l w name (Q : option ptr -> World -> Prop) : has_nodes c l w ->
  match known l name with
  | true => forall p x, p ∈ c_nodes (w_controller w) -> nc_name x = name -> w_nodes w !! p = Some (node_of x) -> Q (Some p) w
  | false => Q None w
  end -> wp (controller_find_node name) Q w.
Proof.
  intros [] HQ. apply wp_controller_find_node.
  - intros p Hp. apply list_elem_of_lookup in Hp as [i Hi].
    destruct (Forall2_lookup_l _ _ _ _ _ hn_nodes0 Hi) as (x & _ & Hx). by exists (node_of x), (nc_name x).
  - intros r -> _. pose proof (find_named w _ _ name hn_nodes0) as Hf.
    destruct (List.find _ _) as [p|].
    + destruct Hf as (Hk & Hp & x & Hn & Hx). rewrite Hk in HQ. by eapply HQ.
    + by rewrite Hf in HQ.
Qed.

Lemma wp_add_missing c l w name : has_nodes c l w ->
  wp (add_missing_node name) (fun _ w' => has_nodes c (add_conf l name) w') w.
Proof.
  intros Hw. unfold add_missing_node, add_conf. apply wp_bind. eapply wp_find; [done|].
  destruct (known l name); [intros p x _ _ _; by apply wp_ret|]. apply wp_bind.
  eapply wp_mono; [by apply wp_add_node|]. intros r w' (p & _ & Hw' & _). by apply wp_ret.
Qed.
Lemma wp_allowed_node_names c l w names : has_nodes c l w ->
  wp (apply_allowed_node_names names)
     (fun _ w' => has_nodes c (foldl add_conf l (default [] ((fun s => strtok_all s ",") <$> names))) w') w.
Proof.
  intros Hw. unfold apply_allowed_node_names. destruct names as [s|]; [|by apply wp_ret].
  apply wp_bind, wp_bind, wp_memory, wp_ret. cbn [fmap option_fmap option_map default].
  apply (wp_foreach (fun todo w' => exists l', has_nodes c l' w' /\ foldl add_conf l' todo = foldl add_conf l (strtok_all s ","))).
  - exists l. split; [by apply has_nodes_tick|done].
  - intros name todo w1 (l' & H1 & Hl). eapply wp_mono; [by apply wp_add_missing|]. intros [] w2 H2. by eexists.
  - intros w1 (l' & H1 & Hl). cbn [foldl] in Hl. by subst l'.
Qed.

(** An update of the node [p], which has the configuration [x]. *)
Definition node_at (w : World) (p : ptr) (x : node_conf) : Prop :=
  p ∈ c_nodes (w_controller w) /\ w_nodes w !! p = Some (node_of x).
Lemma wp_update_conf c l w p x f g : has_nodes c l w -> NoDup (map nc_name l) -> node_at w p x ->
  g (node_of x) = node_of (f x) -> nc_name (f x) = nc_name x ->
  wp (update p g) (fun _ w' => has_nodes c (update_conf (nc_name x) f l) w' /\ node_at w' p (f x)) w.
Proof.
  intros [] Hl [Hp Hx] Hg Hn. eapply wp_update; [exact Hx|]. split.
  - split; cbn; try done.
    + rewrite hn_controller0. cbn. unfold update_conf. by rewrite length_map.
    + by apply stored_update.
  - split; [done|]. cbn. rewrite lookup_insert_eq. by rewrite Hg.
Qed.

Lemma update_twice name f g l : (forall x, nc_name (g x) = nc_name x) ->
  update_conf name f (update_conf name g l) = update_conf name (fun x => f (g x)) l.
Proof.
  intros Hg. unfold update_conf. rewrite map_map. apply map_ext. intros x.
  destruct (streq (nc_name x) name) eqn:Es; [by rewrite Hg, Es|by rewrite Es].
Qed.
Lemma update_ext name f g l : (forall x, f x = g x) -> update_conf name f l = update_conf name g l.
Proof. intros H. unfold update_conf. apply map_ext. intros x. by rewrite H. Qed.
Lemma update_id name l : update_conf name (fun x => x) l = l.
Proof. unfold update_conf. rewrite <- (map_id l) at 2. apply map_ext. intros x. by destruct (streq _ _). Qed.

Definition with_targets (names : list string) (x : node_conf) : node_conf :=
  x <| nc_targets ::= fun l => l ++ names |>.
Definition with_context (context : option string) (x : node_conf) : node_conf :=
  x <| nc_context ::= union context |>.

Lemma with_no_context x : with_context None x = x.
Proof. by destruct x as [? [] ?]. Qed.
Lemma with_no_targets x : with_targets [] x = x.
Proof. destruct x. unfold with_targets. cbn. by rewrite app_nil_r. Qed.

Lemma wp_proxy_targets c p names : forall l x w,
  has_nodes c l w -> NoDup (map nc_name l) -> node_at w p x ->
  wp (add_proxy_targets p names)
     (fun ok w' => ok = true /\ has_nodes c (update_conf (nc_name x) (with_targets names) l) w') w.
Proof.
  induction names as [|name names IH]; intros l x w Hw Hl Hx; cbn [add_proxy_targets].
  - apply wp_ret. split; [done|]. by rewrite (update_ext _ _ _ _ with_no_targets), update_id.
  - apply wp_bind. unfold node_add_allowed_proxy_target. apply wp_bind, wp_memory. cbn [negb].
    apply wp_bind, wp_memory. cbn [negb]. apply wp_bind.
    eapply wp_mono;
      [by apply (wp_update_conf c l (tick (tick w)) p x (with_targets [name])); [do 2 apply has_nodes_tick|..]|].
    intros [] w1 [Hw1 Hx1]. apply wp_ret. change (0 <? 0) with false. cbn iota.
    assert (NoDup (map nc_name (update_conf (nc_name x) (with_targets [name]) l))) as Hl1 by (by rewrite names_update).
    eapply wp_mono; [by apply (IH _ (with_targets [name] x) w1 Hw1 Hl1)|].
    intros ok w2 [-> H2]. split; [done|]. cbn [nc_name with_targets] in H2. 
    rewrite update_twice in H2 by done. erewrite update_ext; [exact H2|].
    intros [n ctx ts]. unfold with_targets. cbn. by rewrite <- app_assoc.
Qed.

(** The node of a section, which is added when the section allows it. *)
Lemma wp_section_found c l w config section name : has_nodes c l w -> section_node section = Some name ->
  wp (found ← controller_find_node name;
      match found with
      | Some node => mret (Some (Some node))
      | None =>
          if negb (cfg_s_get_bool_value config section CFG_ALLOWED) then mret None
          else n ← controller_add_node (Some name); mret (Some n)
      end)
     (fun node w' => match node with
      | None => has_nodes c l w' /\ conf_section config l section = l
      | Some None => False
      | Some (Some p) => has_nodes c (add_conf l name) w' /\
          conf_section config l section = update_conf name (restrict config section) (add_conf l name) /\
          exists x, node_at w' p x /\ nc_name x = name
      end) w.
Proof.
  intros Hw Hs. unfold conf_section, add_conf. rewrite Hs. apply wp_bind. eapply wp_find; [done|].
  destruct (known l name) eqn:Ek; cbn [orb].
  - intros p x Hp Hn Hx. apply wp_ret. split_and!; [done..|]. by exists x.
  - destruct (cfg_s_get_bool_value _ _ _); cbn [negb]; [|by apply wp_ret]. apply wp_bind.
    eapply wp_mono; [by apply wp_add_node|]. cbn beta. intros r w1 (p & -> & Hw1 & Hps). apply wp_ret.
    split_and!; [done..|]. exists (mkNodeConf name None []). split; [|done]. split.
    + rewrite Hps. apply elem_of_app. right. left.
    + pose proof (hn_nodes _ _ _ Hw1) as Hf. rewrite Hps in Hf. apply Forall2_app_inv in Hf as [_ Hf].
      * by apply Forall2_cons in Hf as [Hf _].
      * apply (Forall2_length (fun p x => w_nodes w !! p = Some (node_of x))), Hw.
Qed.

Lemma wp_node_section c l w config section : has_nodes c l w -> NoDup (map nc_name l) ->
  wp (apply_node_section config section)
     (fun ok w' => ok = true /\ has_nodes c (conf_section config l section) w') w.
Proof.
  intros Hw Hl. unfold apply_node_section.
  destruct (str_has_prefix section CFG_SECT_NODE_PREFIX) eqn:Hs; cbn [negb].
  2: { apply wp_ret. split; [done|]. unfold conf_section, section_node. by rewrite Hs. }
  set (name := str_drop _ section).
  assert (section_node section = Some name) as Hname by (unfold section_node; by rewrite Hs).
  apply wp_part. eapply wp_mono; [by apply (wp_section_found c l)|]. cbn beta.
  intros [[p|]|] w1; [|done|].
  2: { intros [Hw1 ->]. by apply wp_ret. }
  intros (Hw1 & -> & x & Hx & Hxn). set (l1 := add_conf l name) in *.
  assert (NoDup (map nc_name l1)) as Hl1 by (by apply add_nodup).
  set (context := cfg_s_get_value config section CFG_REQUIRED_SELINUX_CONTEXT).
  apply wp_bind, (wp_mono _ (fun ok w' => ok = true /\
    has_nodes c (update_conf name (with_context context) l1) w' /\ node_at w' p (with_context context x))).
  { destruct context as [ctx|].
    - unfold node_set_required_selinux_context. apply wp_bind, wp_memory, wp_bind.
      eapply wp_mono; [by apply (wp_update_conf c l1 (tick w1) p x (with_context (Some ctx)));
        [by apply has_nodes_tick|done|done|by destruct x as [? [] ?]|]|].
      cbn beta. rewrite Hxn. intros [] w2 [H2 H3]. by apply wp_ret.
    - apply wp_ret. split; [done|]. rewrite with_no_context, (update_ext _ _ _ _ with_no_context), update_id. done. }
  cbn beta. intros ok w2 (-> & Hw2 & Hx2). cbn [negb].
  assert (forall ts, update_conf name (with_targets ts) (update_conf name (with_context context) l1) =
    update_conf name (fun x => mkNodeConf (nc_name x) (context ∪ nc_context x) (nc_targets x ++ ts)) l1) as Hboth.
  { intros ts. by rewrite update_twice by done. }
  unfold restrict. fold context.
  destruct (cfg_s_get_value config section CFG_ALLOW_DEPENDENCIES_ON) as [names|].
  - apply wp_bind, wp_bind, wp_memory, wp_ret. rewrite <- Hboth. destruct (strtok_all names ",") as [|t ts].
    + apply wp_ret. split; [done|]. rewrite (update_ext _ _ _ _ with_no_targets), update_id. by apply has_nodes_tick.
    + rewrite <- Hxn. change (nc_name x) with (nc_name (with_context context x)).
      apply wp_proxy_targets; [apply has_nodes_tick| |done].
      * change (nc_name (with_context context x)) with (nc_name x). by rewrite Hxn.
      * by rewrite names_update.
  - apply wp_ret. split; [done|]. by rewrite <- Hboth, (update_ext _ _ _ _ with_no_targets), update_id.
Qed.

Lemma wp_node_sections c config sections : forall l w, has_nodes c l w -> NoDup (map nc_name l) ->
  wp (apply_node_sections config sections)
     (fun ok w' => ok = true /\ has_nodes c (foldl (conf_section config) l sections) w') w.
Proof.
  induction sections as [|section sections IH]; intros l w Hw Hl; cbn [apply_node_sections foldl]; [by apply wp_ret|].
  apply wp_bind. eapply wp_mono; [by apply (wp_node_section c l)|]. cbn beta. intros ok w1 [-> H1]. cbn [negb].
  apply IH; [done|by apply section_nodup].
Qed.

(** ** The settings *)

Definition timed (c : Controller) (interval threshold : Z) : Controller :=
  c <| c_heartbeat_interval_msec := interval |> <| c_heartbeat_threshold_msec := threshold |>.

Definition long (s : string) : option Z := parse_long (Some s).
Definition bounded (max : Z) (s : string) : option Z := parse_bounded max (Some s).
Definition port (s : string) : option Z := parse_port (Some s).

Lemma apply_keepidle value o :
  apply_socket_option socket_options_set_tcp_keepidle value o =
  (fun v => o <| tcp_keepidle := v |>) <$> chosen value (bounded MAX_TCP_KEEPIDLE) (tcp_keepidle o).
Proof.
  unfold apply_socket_option, socket_options_set_tcp_keepidle, chosen, bounded.
  destruct value as [v|]; [|by destruct o]. by destruct (parse_bounded _ _).
Qed.
Lemma apply_keepintvl value o :
  apply_socket_option socket_options_set_tcp_keepintvl value o =
  (fun v => o <| tcp_keepintvl := v |>) <$> chosen value (bounded MAX_TCP_KEEPINTVL) (tcp_keepintvl o).
Proof.
  unfold apply_socket_option, socket_options_set_tcp_keepintvl, chosen, bounded.
  destruct value as [v|]; [|by destruct o]. by destruct (parse_bounded _ _).
Qed.
Lemma apply_keepcnt value o :
  apply_socket_option socket_options_set_tcp_keepcnt value o =
  (fun v => o <| tcp_keepcnt := v |>) <$> chosen value (bounded MAX_TCP_KEEPCNT) (tcp_keepcnt o).
Proof.
  unfold apply_socket_option, socket_options_set_tcp_keepcnt, chosen, bounded.
  destruct value as [v|]; [|by destruct o]. by destruct (parse_bounded _ _).
Qed.
Lemma apply_port value s :
  match value with Some v => controller_set_port s v | None => Some s end =
  (fun v => s <| s_port := v |>) <$> chosen value port (s_port s).
Proof.
  unfold controller_set_port, chosen, port. destruct value as [v|]; [|by destruct s]. by destruct (parse_port _).
Qed.

Lemma wp_interval value c l w : has_nodes c l w ->
  wp (match value with Some v => controller_set_heartbeat_interval v | None => mret true end)
     (fun ok w' => match chosen value long (c_heartbeat_interval_msec c) with
      | Some i => ok = true /\ has_nodes (timed c i (c_heartbeat_threshold_msec c)) l w'
      | None => ok = false /\ w' = w
      end) w.
Proof.
  intros Hw. unfold controller_set_heartbeat_interval, chosen, long. destruct value as [v|].
  - destruct (parse_long (Some v)) as [i|]; [|by apply wp_ret]. wp_one. wp_one. wp_one. split; [done|].
    destruct Hw. split; try done. cbn. by rewrite hn_controller0.
  - apply wp_ret. split; [done|]. destruct c. exact Hw.
Qed.
Lemma wp_threshold value c l w : has_nodes c l w ->
  wp (match value with Some v => controller_set_heartbeat_threshold v | None => mret true end)
     (fun ok w' => match chosen value long (c_heartbeat_threshold_msec c) with
      | Some t => ok = true /\ has_nodes (timed c (c_heartbeat_interval_msec c) t) l w'
      | None => ok = false /\ w' = w
      end) w.
Proof.
  intros Hw. unfold controller_set_heartbeat_threshold, chosen, long. destruct value as [v|].
  - destruct (parse_long (Some v)) as [i|]; [|by apply wp_ret]. wp_one. wp_one. wp_one. split; [done|].
    destruct Hw. split; try done. cbn. by rewrite hn_controller0.
  - apply wp_ret. split; [done|]. destruct c. exact Hw.
Qed.

Definition settings_accepted (config : config_t) : bool :=
  let value := cfg_get_value config in
  accepts port (value CFG_CONTROLLER_PORT) &&
  accepts long (value CFG_HEARTBEAT_INTERVAL) && accepts long (value CFG_NODE_HEARTBEAT_THRESHOLD) &&
  accepts (bounded MAX_TCP_KEEPIDLE) (value CFG_TCP_KEEPALIVE_TIME) &&
  accepts (bounded MAX_TCP_KEEPINTVL) (value CFG_TCP_KEEPALIVE_INTERVAL) &&
  accepts (bounded MAX_TCP_KEEPCNT) (value CFG_TCP_KEEPALIVE_COUNT).

(** The settings of a configuration, over the controller [c] and the settings [s] before. *)
Definition has_settings (config : config_t) (c : Controller) (s s' : Settings) (interval threshold : Z) : Prop :=
  let value := cfg_get_value config in
  let opts := s_peer_socket_options s in let opts' := s_peer_socket_options s' in
  s_use_tcp s' = cfg_get_bool_value config CFG_CONTROLLER_USE_TCP /\
  s_use_uds s' = cfg_get_bool_value config CFG_CONTROLLER_USE_UDS /\
  Some (s_port s') = chosen (value CFG_CONTROLLER_PORT) port (s_port s) /\
  Some interval = chosen (value CFG_HEARTBEAT_INTERVAL) long (c_heartbeat_interval_msec c) /\
  Some threshold = chosen (value CFG_NODE_HEARTBEAT_THRESHOLD) long (c_heartbeat_threshold_msec c) /\
  Some (tcp_keepidle opts') = chosen (value CFG_TCP_KEEPALIVE_TIME) (bounded MAX_TCP_KEEPIDLE) (tcp_keepidle opts) /\
  Some (tcp_keepintvl opts') =
    chosen (value CFG_TCP_KEEPALIVE_INTERVAL) (bounded MAX_TCP_KEEPINTVL) (tcp_keepintvl opts) /\
  Some (tcp_keepcnt opts') = chosen (value CFG_TCP_KEEPALIVE_COUNT) (bounded MAX_TCP_KEEPCNT) (tcp_keepcnt opts) /\
  ip_recv_err opts' = cfg_get_bool_value config CFG_IP_RECEIVE_ERRORS.

Lemma allowed_names_default config :
  default [] ((fun s => strtok_all s ",") <$> cfg_get_value config CFG_ALLOWED_NODE_NAMES) = allowed_names config.
Proof. unfold allowed_names. by destruct (cfg_get_value _ _). Qed.
Lemma allowed_nodup names : NoDup (map nc_name (foldl add_conf [] names)).
Proof.
  assert (forall l, NoDup (map nc_name l) -> NoDup (map nc_name (foldl add_conf l names))) as H; [|apply H; constructor].
  induction names as [|n names IH]; intros l Hl; cbn [foldl]; [done|]. by apply IH, add_nodup.
Qed.

Lemma wp_apply_config c config sections s w : has_nodes c [] w ->
  wp (controller_apply_config config (Some sections) s) (fun r w' =>
    fst r = settings_accepted config /\
    exists i t, has_nodes (timed c i t)
        (if accepts port (cfg_get_value config CFG_CONTROLLER_PORT) then configured_nodes config sections else []) w' /\
      (fst r = true -> has_settings config c s (snd r) i t)) w.
Proof.
  intros Hw. unfold controller_apply_config, settings_accepted. rewrite apply_port.
  rewrite (accepts_chosen port _ (s_port s)), (accepts_chosen long _ (c_heartbeat_interval_msec c)),
    (accepts_chosen long (cfg_get_value config CFG_NODE_HEARTBEAT_THRESHOLD) (c_heartbeat_threshold_msec c)),
    (accepts_chosen (bounded MAX_TCP_KEEPIDLE) _ (tcp_keepidle (s_peer_socket_options s))),
    (accepts_chosen (bounded MAX_TCP_KEEPINTVL) _ (tcp_keepintvl (s_peer_socket_options s))),
    (accepts_chosen (bounded MAX_TCP_KEEPCNT) _ (tcp_keepcnt (s_peer_socket_options s))).
  change (s_port (controller_set_use_uds _ _)) with (s_port s).
  set (s0 := controller_set_use_uds _ _).
  destruct (chosen _ port (s_port s)) as [pt|] eqn:Hport; cbn [fmap option_fmap option_map].
  2: { apply wp_ret. split; [done|]. exists (c_heartbeat_interval_msec c), (c_heartbeat_threshold_msec c).
       split; [by destruct c|done]. }
  apply wp_bind. eapply wp_mono; [by apply (wp_allowed_node_names c [])|]. cbn beta. intros [] w1 H1.
  apply wp_bind. eapply wp_mono; [apply (wp_node_sections c config sections _ _ H1), allowed_nodup|]. cbn beta.
  intros ok w2 [-> H2]. cbn [negb].
  rewrite allowed_names_default in H2. fold (configured_nodes config sections) in H2.
  apply wp_bind. eapply wp_mono; [by apply (wp_interval _ c)|]. cbn beta. intros ok w3.
  destruct (chosen _ long (c_heartbeat_interval_msec c)) as [i|] eqn:Hi.
  2: { intros [-> ->]. apply wp_ret. split; [done|]. exists (c_heartbeat_interval_msec c), (c_heartbeat_threshold_msec c).
       split; [by destruct c|done]. }
  intros [-> H3]. cbn [negb]. apply wp_bind. eapply wp_mono; [by apply wp_threshold|]. cbn beta. intros ok w4.
  change (c_heartbeat_threshold_msec (timed c i _)) with (c_heartbeat_threshold_msec c).
  destruct (chosen _ long (c_heartbeat_threshold_msec c)) as [t|] eqn:Ht.
  2: { intros [-> ->]. apply wp_ret. split; [done|]. by exists i, (c_heartbeat_threshold_msec c). }
  intros [-> H4]. cbn [negb]. change (s_peer_socket_options (s0 <| s_port := pt |>)) with (s_peer_socket_options s).
  set (o := s_peer_socket_options s) in *.
  rewrite apply_keepidle. destruct (chosen _ _ (tcp_keepidle o)) as [v1|] eqn:E1; cbn [fmap option_fmap option_map].
  2: { apply wp_ret. split; [done|]. by exists i, t. }
  rewrite apply_keepintvl. change (tcp_keepintvl (o <| tcp_keepidle := v1 |>)) with (tcp_keepintvl o).
  destruct (chosen _ _ (tcp_keepintvl o)) as [v2|] eqn:E2; cbn [fmap option_fmap option_map].
  2: { apply wp_ret. split; [done|]. by exists i, t. }
  rewrite apply_keepcnt. change (tcp_keepcnt (o <| tcp_keepidle := v1 |> <| tcp_keepintvl := v2 |>)) with (tcp_keepcnt o).
  destruct (chosen _ _ (tcp_keepcnt o)) as [v3|] eqn:E3; cbn [fmap option_fmap option_map].
  2: { apply wp_ret. split; [done|]. by exists i, t. }
  apply wp_ret. split; [done|]. exists i, t. split; [done|]. intros _. unfold has_settings. cbn.
  rewrite Hport, Hi, Ht. fold o. by rewrite E1, E2, E3.
Qed.
End nodes.

(** C23. With memory: the configuration is accepted exactly when every setting in it can be
    parsed. The controller then has exactly one node for every name that is listed or whose
    section allows it, with the SELinux context and the proxy targets of its sections, and
    every setting has the value of the configuration, or its old value. The nodes are made
    even when a setting other than the port is rejected. *)
Theorem controller_configured {E : Env} (Hmem : no_local_failure E) (config : config_t)
  (sections : list string) (s : Settings) (w : World)
  (Hnodes : c_nodes (w_controller w) = []) (Hnumber : c_number_of_nodes (w_controller w) = 0) :
  wp (controller_apply_config config (Some sections) s) (fun r w' =>
    fst r = settings_accepted config /\
    exists i t, has_nodes (timed (w_controller w) i t)
        (if accepts port (cfg_get_value config CFG_CONTROLLER_PORT) then configured_nodes config sections else []) w' /\
      (fst r = true -> has_settings config (w_controller w) s (snd r) i t)) w /\
  NoDup (map nc_name (configured_nodes config sections)) /\
  forall name, name ∈ map nc_name (configured_nodes config sections) <-> allowed config sections name.
Proof.
  split; [|apply configured_names]. apply (wp_apply_config Hmem). split; rewrite ?Hnodes; [|constructor..].
  destruct (w_controller w). cbn in *. by subst.
Qed.

(** ** A sample: two nodes are listed, a third has a section. *)

Definition sample_config : config_t := mkConfig
  (<[("bluechi-controller", CFG_ALLOWED_NODE_NAMES) := Some "pi,laptop"]>
   (<[("bluechi-controller", CFG_CONTROLLER_PORT) := Some "2020"]>
   (<[("node pi", CFG_ALLOW_DEPENDENCIES_ON) := Some "laptop,desk"]>
   {[("node desk", CFG_ALLOWED) := Some "true"]})))%string "bluechi-controller".
Definition sample_sections : list string := ["bluechi-controller"; "node desk"; "node pi"]%string.
Definition sample_settings : Settings := mkSettings false false 0 (mkSocketOptions 0 0 0 false).
Definition bare_world : World :=
  mkWorld ∅ ∅ ∅ ∅ ∅ ∅ ∅ ∅ (mkController 1 false false 0 0 0 0 [] [] [] [] [])
    (mkBcLogConfig None LOG_LEVEL_INFO false) 1 0 0 0 0 0 0 [].

Lemma controller_configured_witness :
  wp (controller_apply_config sample_config (Some sample_sections) sample_settings) (fun r w' =>
    fst r = true /\ s_port (snd r) = 2020 /\
    map (fun p => node_allowed_proxy_targets <$> w_nodes w' !! p) (c_nodes (w_controller w')) =
      [Some ["laptop"; "desk"]; Some []; Some []]%string) bare_world.
Proof.
  destruct (controller_configured sample_no_failure sample_config sample_sections sample_settings bare_world
    eq_refl eq_refl) as [H _].
  eapply wp_mono; [exact H|]. intros [ok s'] w' (Hok & i & t & Hw' & Hs). cbn [fst snd] in *.
  assert (ok = true) as -> by (rewrite Hok; by vm_compute). destruct (Hs eq_refl) as (_ & _ & Hport & _).
  split_and!; [done|by injection Hport|].
  pose proof (hn_nodes _ _ _ Hw') as Hf. revert Hf. generalize (c_nodes (w_controller w')). intros ps Hf.
  match type of Hf with Forall2 _ _ ?l => replace l with
    [mkNodeConf "pi" None ["laptop"; "desk"]; mkNodeConf "laptop" None []; mkNodeConf "desk" None []]%string
    in Hf by (by vm_compute) end.
  do 3 apply Forall2_cons_inv_r in Hf as (? & ? & ? & Hf & ->). apply Forall2_nil_inv_r in Hf as ->. cbn [map].
  by repeat match goal with H : _ !! _ = Some _ |- _ => rewrite H; clear H end.
Defined.

(** The sections of a configuration, as they are listed. *)
Definition sections_in_order `{CfgEnv} (config : config_t) : list string :=
  merge_sort str_le (section_order (sections_of (cfg_store config))).

Section process.
Context {E : Env} {CE : CfgEnv} {K : Kernel} {D : SdListen} {EV : SdEvent}.
Context (Hmem : no_local_failure E) (Halloc : all_alloc CE).
Context (path : string) (s : controller_surroundings) (Hevent : 0 <= cs_event s).

Lemma wp_in_controller {A} (m : CM A) Q w :
  wp m (fun a v => Q a (w <| cm_world := v |>)) (cm_world w) -> wp (in_controller m) Q w.
Proof. intros H. unfold in_controller. apply wp_zoom, H. Qed.
Lemma wp_cm_cfg {A} (m : M nat A) Q w :
  total m -> (forall a k, Q a (w <| cm_allocs := k |>)) -> wp (in_cfg m) Q w.
Proof.
  intros Hm HQ. unfold in_cfg. apply wp_zoom. eapply wp_mono; [apply Hm|]. intros a k _. apply HQ.
Qed.
Lemma wp_in_memory Q w : Q true (w <| cm_world ::= tick |>) -> wp (in_controller local_ok) Q w.
Proof. intros H. apply wp_in_controller, wp_memory; [exact Hmem|]. exact H. Qed.

Lemma wp_sections config Q w :
  (forall k, Q (Some (sections_in_order config)) (w <| cm_allocs := k |>)) ->
  wp (in_cfg (cfg_list_sections config)) Q w.
Proof.
  intros HQ. unfold in_cfg, cfg_list_sections. apply wp_zoom.
  do 3 (apply wp_bind, (wp_alloc Halloc); intros ?; cbn [negb]). apply wp_ret, HQ.
Qed.

(** The new controller, with the settings [settings]. *)
Definition fresh (settings : Settings) (w : CmWorld) : Prop :=
  w_controller (cm_world w) = new_controller /\ cm_settings w = settings /\
  node_connection_tcp_socket_source (cm_listeners w) = None /\
  node_connection_uds_socket_source (cm_listeners w) = None /\
  node_connection_systemd_socket_source (cm_listeners w) = None.
Definition initial_settings : Settings := mkSettings false false 0 (mkSocketOptions 0 0 0 false).

Lemma wp_controller_new w :
  wp (controller_new s) (fun ok w' => ok = true /\ fresh initial_settings w' /\ cm_allocs w' = cm_allocs w) w.
Proof.
  unfold controller_new. rewrite (proj2 (Z.ltb_ge _ _)) by done.
  apply wp_bind, wp_in_memory. cbn [negb]. apply wp_bind, wp_in_memory. cbn [socket_options_new].
  apply wp_bind, wp_in_memory. cbn [negb]. apply wp_bind, wp_in_controller, wp_upd_controller.
  apply wp_bind, wp_modify, wp_ret. by split_and!.
Qed.

(** The nodes that were made before a setting was rejected. *)
Definition nodes_made (config : config_t) : list node_conf :=
  if accepts port (cfg_get_value config CFG_CONTROLLER_PORT) then configured_nodes config (sections_in_order config)
  else [].

Lemma wp_controller_configure config o w settings : fresh settings w ->
  wp (controller_configure config o) (fun ok w' =>
    ok = settings_accepted config && accepts port (opt_port o) /\
    (exists i t, has_nodes (timed new_controller i t) (nodes_made config) (cm_world w')) /\
    cm_listeners w' = cm_listeners w) w.
Proof.
  intros (Hc & Hs & _). unfold controller_configure. apply wp_bind, wp_sections. intros k.
  apply wp_bind, wp_gets. apply wp_bind, wp_in_controller.
  eapply wp_mono; [apply (wp_apply_config Hmem new_controller)|].
  { split; cbn; rewrite Hc; try done; constructor. }
  cbn beta. intros [ok s'] v (Hok & i & t & Hv & _). cbn [fst] in Hok. rewrite <- Hok.
  apply wp_bind, wp_modify. destruct ok; cbn [negb]; [|apply wp_ret; by split_and!; [|exists i, t|]].
  unfold controller_set_port. destruct (opt_port o) as [p|]; cbn [accepts]; [|apply wp_ret; by split_and!; [|exists i, t|]].
  unfold port. destruct (parse_port (Some p)) as [x|].
  - apply wp_bind, wp_modify, wp_ret. by split_and!; [|exists i, t|].
  - apply wp_ret. by split_and!; [|exists i, t|].
Qed.

(** Dropping the controller: it must not have a node. *)
Lemma unref_with_nodes (v : World) : c_ref_count (w_controller v) = 1 -> c_jobs (w_controller v) = [] ->
  c_all_subscriptions (w_controller v) = [] -> c_monitors (w_controller v) = [] -> c_nodes (w_controller v) <> [] ->
  controller_unref v = Crash AssertionFailure.
Proof.
  destruct v as [? ? ? ? ? ? ? ? [rc me ms hi ht nn no ns an js mons subs] ? ? ? ? ? ? ? ? ?]; cbn.
  intros -> -> -> -> Hns. cbv -[bool_decide]. by rewrite (bool_decide_eq_false_2 (ns = [])), !bool_decide_eq_true_2.
Qed.
Lemma unref_without_nodes (v : World) : c_ref_count (w_controller v) = 1 -> c_jobs (w_controller v) = [] ->
  c_all_subscriptions (w_controller v) = [] -> c_monitors (w_controller v) = [] -> c_nodes (w_controller v) = [] ->
  c_anonymous_nodes (w_controller v) = [] ->
  controller_unref v = Ret tt (v <| w_controller ::= fun c => c <| c_ref_count := 0 |> |>).
Proof.
  destruct v as [? ? ? ? ? ? ? ? [rc me ms hi ht nn no ns an js mons subs] ? ? ? ? ? ? ? ? ?]; cbn.
  intros -> -> -> -> -> ->. cbv -[bool_decide]. by rewrite !bool_decide_eq_true_2.
Qed.
Lemma drop_with_nodes i t l w :
  has_nodes (timed new_controller i t) l (cm_world w) -> l <> [] -> controller_drop path w = Crash AssertionFailure.
Proof.
  intros [Hc Hn _ _] Hl. unfold controller_drop, in_controller, zoom, mbind, M_bind.
  rewrite unref_with_nodes; [done|by rewrite Hc..|].
  intros Hnone. rewrite Hnone in Hn. by apply Forall2_nil_inv_l in Hn.
Qed.
Lemma wp_drop i t w : has_nodes (timed new_controller i t) [] (cm_world w) ->
  node_connection_tcp_socket_source (cm_listeners w) = None ->
  node_connection_uds_socket_source (cm_listeners w) = None ->
  node_connection_systemd_socket_source (cm_listeners w) = None ->
  wp (controller_drop path) (fun _ w' => cm_listeners w' = cm_listeners w) w.
Proof.
  intros [Hc Hn _ _] Ht Hu Hs. apply Forall2_nil_inv_r in Hn. unfold controller_drop.
  apply wp_bind, wp_in_controller. unfold wp at 1. rewrite unref_without_nodes; [|by rewrite Hc..|done|by rewrite Hc].
  apply wp_bind, wp_in_controller, wp_controller. cbn. unfold in_listeners. apply wp_zoom.
  unfold controller_release_sources. cbn [cm_listeners].
  apply wp_bind, wp_gets. rewrite Ht. apply wp_bind, wp_ret, wp_bind, wp_gets. rewrite Hu.
  apply wp_bind, wp_ret, wp_bind, wp_gets. rewrite Hs. by apply wp_ret.
Qed.

Lemma wp_controller_main_on o config w k : fresh initial_settings w ->
  controller_parse_config (opt_config o) (cs_default_file s) (cs_etc_file s) (cs_etc_dir s) (cm_allocs w) =
    Ret (true, Some config) k ->
  settings_accepted config && accepts port (opt_port o) = false ->
  wp (controller_main_on path s o) (fun status w' => status = EXIT_FAILURE /\
    (exists i t, has_nodes (timed new_controller i t) (nodes_made config) (cm_world w')) /\
    cm_listeners w' = cm_listeners w) w.
Proof.
  intros Hw Hconfig Hrejected. unfold controller_main_on. apply wp_bind. unfold in_cfg at 1. apply wp_zoom.
  unfold wp at 1. rewrite Hconfig. cbn [fst snd negb default from_option id].
  apply wp_bind, wp_in_controller, wp_modify. apply wp_bind, wp_cm_cfg; [auto with total|]. intros dump k2.
  apply wp_bind. eapply wp_mono; [by eapply (wp_controller_configure _ _ _ initial_settings)|]. cbn beta.
  intros ok w2 (-> & Hn & Hl). rewrite Hrejected. cbn [negb]. by apply wp_ret.
Qed.
End process.

(** C24. A setting that is rejected, in the configuration or on the command line, ends the
    process before it has started anything. It fails as it should only if no node was made
    by then; otherwise it is aborted, since [main] drops the controller without removing its
    nodes and [controller_unref] asserts that there are none. *)
Theorem rejected_setting_aborts {E : Env} {CE : CfgEnv} {K : Kernel} {D : SdListen} {EV : SdEvent}
  (Hmem : no_local_failure E) (Halloc : all_alloc CE) (path : string) (s : controller_surroundings)
  (argv0 version : string) (args : getopt_result) (o : ControllerOptions) (config : config_t) (w : CmWorld) (k : nat)
  (Hevent : 0 <= cs_event s)
  (Hopts : get_opts argv0 version (go_options args) no_options w = Ret (0, o) w)
  (Hconfig : controller_parse_config (opt_config o) (cs_default_file s) (cs_etc_file s) (cs_etc_dir s)
               (cm_allocs w) = Ret (true, Some config) k)
  (Hrejected : settings_accepted config && accepts port (opt_port o) = false) :
  match controller_main path s argv0 version args w with
  | Ret status _ => status = EXIT_FAILURE /\ nodes_made config = []
  | Crash c => c = AssertionFailure /\ nodes_made config <> []
  end.
Proof.
  unfold controller_main, mbind, M_bind. rewrite Hopts. change (0 <? 0) with false. cbn beta iota.
  pose proof (wp_controller_new Hmem s Hevent w) as H1. unfold wp in H1.
  destruct (controller_new s w) as [ok w1|c1]; [|done]. destruct H1 as (-> & Hfresh & Hk). cbn beta iota delta [negb].
  rewrite <- Hk in Hconfig. pose proof (wp_controller_main_on Hmem Halloc path s o config w1 k Hfresh Hconfig Hrejected) as H2.
  unfold wp in H2. destruct (controller_main_on path s o w1) as [status w2|c2]; [|done].
  destruct H2 as (-> & (i & t & Hw2) & Hl). destruct Hfresh as (_ & _ & Ht & Hu & Hs).
  destruct (nodes_made config) as [|x l] eqn:Hn.
  - pose proof (wp_drop path i t w2 Hw2) as H3. rewrite Hl in H3. specialize (H3 Ht Hu Hs). unfold wp in H3.
    by destruct (controller_drop path w2).
  - rewrite (drop_with_nodes path i t (x :: l) w2 Hw2) by done. by split.
Qed.

(** The witness: two nodes are listed, and the interval of the heartbeats is no number. *)
Definition abort_cfg_env : CfgEnv := {|
  alloc_ok := fun _ => true;
  store_order := fun m => (map_to_list m).*1;
  section_order := elements;
  access_error := fun _ => 0;
  ini_calls := fun _ => [("bluechi-controller", CFG_ALLOWED_NODE_NAMES, "pi,laptop");
                         ("bluechi-controller", CFG_HEARTBEAT_INTERVAL, "often")]%string;
  ini_result := fun _ _ => 0;
  dir_access_error := fun _ => ENOENT;
  scandir := fun _ => inr [];
  getenv := fun _ => None;
  hostname := None;
|}.
Definition abort_surroundings : controller_surroundings :=
  mkControllerSurroundings 0 None (Some "/etc/bluechi/controller.conf"%string) None true [] [] 0.
Definition bare_process : CmWorld :=
  mkCmWorld [] 0 bare_world sample_settings (mkListenWorld [] [] 1 None None None) (mkEventWorld []).
Definition no_timer : SdEvent := fun _ _ => mkAnswer 0 0 1.
Definition abort_parsed : outcome nat (bool * option config_t) :=
  controller_parse_config (CE := abort_cfg_env) None None (Some "/etc/bluechi/controller.conf"%string) None O.
Definition abort_config : config_t :=
  match abort_parsed with Ret (_, Some config) _ => config | _ => mkConfig ∅ "" end.
Definition abort_allocs : nat := match abort_parsed with Ret _ k => k | _ => O end.

Lemma rejected_setting_aborts_witness :
  controller_main (E := sample_env) (CE := abort_cfg_env) (K := sample_kernel) (D := sample_listen) (EV := no_timer)
    "/run/bluechi/bluechi.sock" abort_surroundings "bluechi-controller" "1.0" (mkGetopt [] []) bare_process =
  Crash AssertionFailure.
Proof.
  assert (abort_parsed = Ret (true, Some abort_config) abort_allocs) as Hp by (by vm_compute).
  pose proof (rejected_setting_aborts (E := sample_env) (CE := abort_cfg_env) (K := sample_kernel) (D := sample_listen)
    (EV := no_timer) sample_no_failure (fun _ => eq_refl) "/run/bluechi/bluechi.sock" abort_surroundings
    "bluechi-controller" "1.0" (mkGetopt [] []) no_options abort_config bare_process abort_allocs
    (Z.le_refl 0) eq_refl Hp ltac:(by vm_compute)) as H.
  destruct (controller_main _ _ _ _ _ _) as [status w|c].
  - destruct H as [_ H]. by vm_compute in H.
  - by destruct H as [-> _].
Defined.
