(* ===== verification/ControllerLifeTheorems.v ===== *)
(** From the start of the controller to its end: it makes its nodes, publishes them, handles
    every sequence of events without using an object that is gone, and stops. Then places
    where it misbehaves, on concrete states or for a whole class of calls: a stop with a
    request to all agents that is half answered, a stop with a live proxy, and a log level
    that does not exist. *)
From S2P Require Import Prelude CString StringUtil ParseUtil TimeUtil Protocol BusUtils Log Cfg Socket.
From S2P Require Import World Job Events Subscriptions Monitor Proxy Requests Node Controller.
From S2P Require Import ControllerEvents WorldFacts EventFacts RegistryFacts NodeTheorems RequestTheorems.
From S2P Require Import SettingsFacts SocketTheorems Sample Command Listeners.
From S2P Require Import ControllerInv ControllerSafe ControllerMonitors.
From S2P Require Import ControllerProxies ControllerRequests ControllerFleets.
From S2P Require Import ControllerLife ControllerStop ControllerMain ControllerMainTheorems.
Local Open Scope list_scope.

(** ** Nodes are made *)

Section made.
Context {E : Env}.

Lemma inv_more_nodes h a p n name w : controller_inv h a w -> w_nodes w !! p = None -> (p < w_next_ptr w)%positive ->
  (forall q m, is_node w q m -> node_name m <> Some name) -> h_node h p = 0 ->
  node_name n = Some name -> node_object_path n <> None -> node_ref_count n = 1 ->
  node_unit_subscriptions n = ∅ -> node_proxy_monitors n = [] -> node_outstanding_requests n = [] ->
  controller_inv h a (w <| w_nodes ::= <[p := n]> |> <| w_controller ::= fun c =>
    c <| c_number_of_nodes ::= Z.succ |> <| c_nodes ::= fun l => l ++ [p] |> |>).
Proof.
  intros I Hp Hlt Hnew Hh Hname Hpath Hr Hu Hpm Hout. pose proof I as [Hreg I0]. pose proof (ci_fresh _ _ _ I) as Hf. destruct I0.
  assert (p ∉ c_nodes (w_controller w)) as Hl.
  { intros Hin. destruct (listed_node I p Hin) as (m & _ & _ & Hm & _). congruence. }
  assert (forall q, q ∈ c_nodes (w_controller w) -> <[p := n]> (w_nodes w) !! q = w_nodes w !! q) as Hsame.
  { intros q Hq. rewrite lookup_insert_ne; [done|]. by intros <-. }
  assert (forall q m, q ∈ c_nodes (w_controller w) ++ [p] -> <[p := n]> (w_nodes w) !! q = Some m ->
    is_node w q m \/ (q = p /\ m = n)) as Hcase.
  { intros q m [Hq| ->%list_elem_of_singleton]%elem_of_app Hm; [left|right].
    - split; [done|]. by rewrite <- Hsame.
    - rewrite lookup_insert_eq in Hm. by simplify_eq. }
  split.
  - destruct Hreg. split; cbn.
    + apply NoDup_app. split_and!; [done| |apply NoDup_singleton]. by intros q Hq ->%list_elem_of_singleton.
    + intros q [Hq| ->%list_elem_of_singleton]%elem_of_app; [|exists n, name; by rewrite lookup_insert_eq].
      rewrite Hsame by done. auto.
    + intros q q' m m' [Hq Hm] [Hq' Hm'] Heq. destruct (Hcase q m Hq Hm) as [H1|[-> ->]], (Hcase q' m' Hq' Hm') as [H2|[-> ->]].
      * by eapply ok_names.
      * destruct (Hnew q m H1). congruence.
      * destruct (Hnew q' m' H2). congruence.
      * done.
    + done.
    + intros s Hs. destruct (ok_live s Hs) as (x & Hx & Ht). exists x. split; [done|].
      destruct (sub_monitor x) as [|m|m]; [done|done|]. destruct Ht as (y & Hy & [z Hz]). exists y. split; [done|]. cbn.
      at_key (pm_node y) p; [by eexists|by exists z].
    + intros q m [Hq Hm]. destruct (Hcase q m Hq Hm) as [H1|[-> ->]]; [exact (ok_entries q m H1)|].
      intros u us. rewrite Hu. by rewrite lookup_empty.
  - split; try assumption; cbn.
    + destruct ci_nodes. split; try done.
      * rewrite length_app. cbn. lia.
      * intros q m Hq Hm. destruct (Hcase q m Hq Hm) as [[H1 H2]|[-> ->]]; [eauto|done].
      * intros q m Hm Hname'. rewrite elem_of_app. at_key q p; [right; by left|]. left. eauto.
      * intros q m Hm Hname'. at_key q p; [congruence|eauto].
      * intros q Hq. destruct (no_waiting q Hq) as (m & Hm & ?). exists m. rewrite lookup_insert_ne; [done|]. congruence.
    + intros q m Hq Hm. destruct (Hcase q m Hq Hm) as [[H1 H2]|[-> ->]]; [by apply ci_refs|]. rewrite Hh, Hr.
      unfold node_owners. rewrite (count_map_zero (asks_node p)), (count_map_zero (aims_at p)), sum_map_zero; [lia|..].
      * intros f x Hx. unfold entries_on. replace (count p (sr_node <$> fl_sub_req x)) with O; [done|]. symmetry.
        apply count_zero. intros (s & -> & Hs)%list_elem_of_fmap.
        destruct (ro_entries _ _ _ _ _ _ ci_reqs f x Hx) as [_ Hall]. apply Hl. by destruct (Hall s Hs).
      * intros k x Hx. apply bool_decide_eq_false. intros Ht. apply Hl. destruct (po_proxy _ _ _ _ _ _ _ _ ci_proxies k x Hx) as (_ & _ & _ & Hl' & _). by apply Hl'.
      * intros r x Hx. apply bool_decide_eq_false. intros <-. apply Hl. by destruct (ro_request _ _ _ _ _ _ ci_reqs r x Hx).
    + destruct ci_jobs. split; try done. intros q j Hj. destruct (jo_job q j Hj). split; [|done]. apply elem_of_app. by left.
    + destruct ci_reqs. split; try done.
      * intros r q Hq. destruct (ro_request r q Hq) as (Hqn & ? & ?). rewrite Hsame by done.
        split_and!; [apply elem_of_app; by left|tauto..].
      * intros f x Hx. destruct (ro_entries f x Hx) as [Hnd Hall]. split; [done|]. intros s Hs.
        destruct (Hall s Hs) as (? & ?). split; [apply elem_of_app; by left|done].
      * intros q m Hq Hm. destruct (Hcase q m Hq Hm) as [[H1 H2]|[-> ->]]; [eauto|]. rewrite Hout.
        split; [constructor|]. by intros ? ?%not_elem_of_nil.
    + assert (forall q x, pm_node x ∈ c_nodes (w_controller w) -> pm_listed (<[p := n]> (w_nodes w)) q x = pm_listed (w_nodes w) q x) as Hpl.
      { intros q x Hx. unfold pm_listed. by rewrite Hsame. }
      destruct ci_proxies. split; try done.
      * intros q x Hx. destruct (po_proxy q x Hx) as (H1 & H2 & H3 & H4 & H5). unfold pm_up in *. rewrite Hpl by done.
        split_and!; [apply elem_of_app; by left|done|done| |done]. intros t Ht. apply elem_of_app. left. auto.
      * intros q m Hq Hm. destruct (Hcase q m Hq Hm) as [[H1 H2]|[-> ->]]; [eauto|]. rewrite Hpm.
        split; [constructor|]. by intros ? ?%not_elem_of_nil.
    + destruct Hf. split; try done; cbn. intros q Hq. rewrite lookup_insert_ne; [auto|]. lia.
Qed.

Context (Hnf : no_local_failure E) (a : list answer).

Lemma path_made name : node_object_path (node_of (mkNodeConf name None [])) <> None.
Proof. cbn. unfold assemble_object_path_string, bus_path_escape. by destruct name. Qed.

Lemma inv_add_node name w : controller_inv nothing a w ->
  (forall q m, is_node w q m -> node_name m <> Some name) ->
  wp (controller_add_node (Some name)) (fun r w' => exists p, r = Some p /\ controller_inv nothing a w' /\
    p ∈ c_nodes (w_controller w')) w.
Proof.
  intros I Hnew. unfold controller_add_node. wp_one. apply (wp_node_new Hnf). intros k. wp_one. wp_one. wp_one.
  set (p := w_next_ptr w). exists p. split; [done|].
  set (w0 := w <| w_next_ptr ::= Pos.succ |> <| w_locals := k |>).
  assert (controller_inv nothing a w0) as I0.
  { eapply controller_inv_still; [|exact I]. apply calm_stores; try done. cbn. lia. }
  assert (w_nodes w0 !! p = None) as Hp by (apply (fr_nodes _ (ci_fresh _ _ _ I)); unfold p; cbn; lia).
  split; [|cbn; apply elem_of_app; right; by left].
  pose proof (inv_more_nodes nothing a p (node_of (mkNodeConf name None [])) name w0 I0 Hp ltac:(unfold p; cbn; lia) Hnew
    eq_refl eq_refl (path_made name) eq_refl eq_refl eq_refl eq_refl) as I1.
  destruct w as [? ? ? ? ? ? ? ? []]. exact I1.
Qed.

Lemma wp_find_listed_node name Q w : controller_inv nothing a w ->
  (forall p, p ∈ c_nodes (w_controller w) -> Q (Some p) w) ->
  ((forall q m, is_node w q m -> node_name m <> Some name) -> Q None w) -> wp (controller_find_node name) Q w.
Proof.
  intros I HS HN. apply wp_controller_find_node; [apply I|]. intros [p|] _ Hr; [|by apply HN].
  destruct Hr as (n & [Hp _] & _). by apply HS.
Qed.

Lemma inv_add_missing name w : controller_inv nothing a w ->
  wp (add_missing_node name) (fun _ w' => controller_inv nothing a w') w.
Proof.
  intros I. unfold add_missing_node. wp_one. apply wp_find_listed_node; [done|intros p _; by apply wp_ret|].
  intros Hnew. wp_one. eapply wp_mono; [by apply inv_add_node|]. cbn beta. intros r w' (p & _ & I' & _). by apply wp_ret.
Qed.

Lemma inv_copy_str {B} s (k : string -> CM B) Q w : controller_inv nothing a w ->
  (forall w', controller_inv nothing a w' -> c_nodes (w_controller w') = c_nodes (w_controller w) -> wp (k s) Q w') ->
  wp (copy_str s ≫= k) Q w.
Proof. intros I HQ. unfold copy_str. wp_one. wp_one. local_works. apply wp_ret. apply HQ; [by apply inv_ticked|done]. Qed.

Lemma inv_allowed_names names w : controller_inv nothing a w ->
  wp (apply_allowed_node_names names) (fun _ w' => controller_inv nothing a w') w.
Proof.
  intros I. unfold apply_allowed_node_names. destruct names as [names|]; [|by apply wp_ret].
  apply inv_copy_str; [done|]. intros w1 I1 _. apply (wp_foreach (fun _ w' => controller_inv nothing a w')); [done| |done].
  intros name rest w2 I2. by apply inv_add_missing.
Qed.

Lemma runs_proxy_targets w0 p names : node_there w0 p -> runs w0 (add_proxy_targets p names).
Proof.
  intros [n Hn]. induction names as [|name names IH]; cbn [add_proxy_targets]; [apply runs_ret|].
  apply runs_bind; [run_tac|]. intros r. destruct (r <? 0); [apply runs_ret|exact IH].
Qed.

Lemma inv_node_section config section w : controller_inv nothing a w ->
  wp (apply_node_section config section) (fun _ w' => controller_inv nothing a w') w.
Proof.
  intros I. unfold apply_node_section. destruct (str_has_prefix _ _); cbn [negb]; [|by apply wp_ret].
  set (name := str_drop _ _).
  assert (forall {B} (k : option (option ptr) -> CM B) Q,
    (forall w', controller_inv nothing a w' -> wp (k None) Q w') ->
    (forall p w', controller_inv nothing a w' -> p ∈ c_nodes (w_controller w') -> wp (k (Some (Some p))) Q w') ->
    wp (found ← controller_find_node name;
        node ← match found with
               | Some node => mret (Some (Some node))
               | None => if negb (cfg_s_get_bool_value config section CFG_ALLOWED) then mret None
                         else n ← controller_add_node (Some name); mret (Some n)
               end; k node) Q w) as Hfind.
  { intros B k Q HN HS. wp_one. apply wp_find_listed_node; [done| |].
    - intros p Hp. wp_one. wp_one. by apply HS.
    - intros Hnew. wp_one. destruct (cfg_s_get_bool_value _ _ _); cbn [negb]; [|wp_one; by apply HN]. wp_one.
      eapply wp_mono; [by apply inv_add_node|]. cbn beta. intros r w1 (p & -> & I1 & Hp). wp_one. by apply HS. }
  apply Hfind; clear Hfind; [intros w1 I1; by apply wp_ret|]. intros p w1 I1 Hp. wp_one.
  eapply wp_mono; [apply (inv_runs nothing a _ w1 I1)|].
  { destruct (listed_there I1 p Hp) as [n Hn]. unfold node_set_required_selinux_context. run_tac. }
  cbn beta. intros ok w2 [I2 Hc]. destruct ok; cbn [negb]; [|by apply wp_ret].
  destruct (calm_listed _ _ _ Hc) as (En & _). destruct (cfg_s_get_value config section CFG_ALLOW_DEPENDENCIES_ON) as [names|]; [|by apply wp_ret].
  apply inv_copy_str; [done|]. intros w3 I3 En3.
  assert (forall l, wp (add_proxy_targets p l) (fun _ w' => controller_inv nothing a w') w3) as Ht.
  { intros l. eapply wp_mono; [apply (inv_runs nothing a _ w3 I3), runs_proxy_targets, (listed_there I3); congruence|].
    by intros x w' [? _]. }
  destruct (strtok_all names ",") as [|x l]; [by apply wp_ret|apply Ht].
Qed.
Lemma inv_node_sections config sections : forall w, controller_inv nothing a w ->
  wp (apply_node_sections config sections) (fun _ w' => controller_inv nothing a w') w.
Proof.
  induction sections as [|section sections IH]; intros w I; cbn [apply_node_sections]; [by apply wp_ret|]. wp_one.
  eapply wp_mono; [by apply inv_node_section|]. cbn beta. intros ok w1 I1. destruct ok; cbn [negb]; [by apply IH|by apply wp_ret].
Qed.

Lemma inv_apply_config config sections s w : controller_inv nothing a w ->
  wp (controller_apply_config config sections s) (fun _ w' => controller_inv nothing a w') w.
Proof.
  intros I. unfold controller_apply_config. destruct (match cfg_get_value _ _ with Some _ => _ | None => _ end); [|by apply wp_ret].
  wp_one. eapply wp_mono; [by apply inv_allowed_names|]. cbn beta. intros _ w1 I1.
  destruct sections as [sections|]; [|by apply wp_ret]. wp_one. eapply wp_mono; [by apply inv_node_sections|].
  cbn beta. intros ok w2 I2. destruct ok; cbn [negb]; [|by apply wp_ret].
  eapply wp_mono; [apply (inv_runs nothing a _ w2 I2)|by intros x w' [? _]]. run_tac.
Qed.

(** ** The nodes are published *)

Lemma inv_node_export p w : controller_inv nothing a w -> p ∈ c_nodes (w_controller w) ->
  wp (node_export p) (fun _ w' => controller_inv nothing a w' /\ w_controller w' = w_controller w) w.
Proof.
  intros I Hp. destruct (listed_node I p Hp) as (n & name & _ & Hn & Hname & _). unfold node_export. wp_one.
  eapply wp_load; [exact Hn|]. wp_one. apply wp_assert; [apply bool_decide_eq_true_2; congruence|]. wp_one. wp_one.
  set (w1 := emit _ w). assert (controller_inv nothing a w1) as I1 by by apply inv_called.
  destruct (_ <? 0); [by apply wp_ret|]. wp_one. eapply wp_update; [exact Hn|]. apply wp_ret. split; [|done].
  eapply (inv_update_node nothing (h_node nothing) a p n); try done. intros q. cbn. case_decide; lia.
Qed.
Lemma inv_export_nodes l : forall w, controller_inv nothing a w -> (forall p, p ∈ l -> p ∈ c_nodes (w_controller w)) ->
  wp (export_nodes l) (fun _ w' => controller_inv nothing a w') w.
Proof.
  induction l as [|p l IH]; intros w I Hl; cbn [export_nodes]; [by apply wp_ret|]. wp_one.
  eapply wp_mono; [apply inv_node_export; [done|apply Hl; by left]|]. cbn beta. intros ok w1 [I1 Ec].
  destruct ok; cbn [negb]; [|by apply wp_ret]. apply IH; [done|]. intros q Hq. rewrite Ec. apply Hl. by right.
Qed.
Lemma inv_publish w : controller_inv nothing a w -> wp controller_publish (fun _ w' => controller_inv nothing a w') w.
Proof.
  intros I. unfold controller_publish. wp_one. wp_one. wp_one. eapply wp_mono; [by apply inv_export_nodes|].
  cbn beta. intros ok w1 I1. destruct ok; cbn [negb]; [|by apply wp_ret].
  eapply wp_mono; [apply (inv_runs nothing a _ w1 I1)|by intros x w' [? _]]. run_tac.
Qed.
End made.

(** ** The process *)

(** Nothing has been made and no call was made. *)
Definition blank (w : World) : Prop :=
  stores_of w = (∅, ∅, ∅, ∅, ∅, ∅, ∅, ∅) /\ w_trace w = [] /\ w_controller w = new_controller.


Ltac nothing_there := repeat match goal with
  | H : _ ∈ [] |- _ => by apply not_elem_of_nil in H
  | H : ∅ !! _ = Some _ |- _ => by rewrite lookup_empty in H
  end.
Lemma inv_blank {E : Env} w : blank w -> controller_inv nothing [] w.
Proof.
  destruct w as [? ? ? ? ? ? ? ? ? ? ? ? ? ? ? ? ? tr]. intros (Hs & Ht & Hc). unfold stores_of in Hs. cbn in *. simplify_eq.
  split; split; cbn; try (split; cbn; try done); try constructor; intros; nothing_there; try done.
  all: try (unfold is_node in *; naive_solver).
Qed.

Lemma wp_timer {EV : SdEvent} c Q w : (forall r w', Q r w') -> wp (controller_setup_heartbeat_timer c) Q w.
Proof.
  intros HQ. unfold controller_setup_heartbeat_timer, controller_reset_heartbeat_timer, event_reset_time_relative, event_reset_time.
  assert (forall x P v, (forall b v', P b v') -> wp (ev_call x) P v) as Hcall by (intros x P v H; apply H).
  repeat (cbn beta iota; lazymatch goal with
    | |- wp (mbind _ _) _ _ => apply wp_bind
    | |- wp (mret _) _ _ => apply wp_ret
    | |- wp (ev_call _) _ _ => apply Hcall; intros ? ?
    | |- wp (match ?x with _ => _ end) _ _ => destruct x
    end); apply HQ.
Qed.

Section process.
Context {E : Env} {L : EnvLaws E} {CE : CfgEnv} {K : Kernel} {KL : KernelLaws K} {D : SdListen} {EV : SdEvent}.
Context (Hmem : no_local_failure E) (Hclocks : clocks_work E) (path : string) (s : controller_surroundings).

(** The controller in the process. *)
Definition sound (w : CmWorld) : Prop := exists answered, controller_inv nothing answered (cm_world w).

Lemma wp_new w : blank (cm_world w) -> lw_calls (cm_listeners w) = [] ->
  wp (controller_new s) (fun ok w' => controller_inv nothing [] (cm_world w') /\ (ok = true -> no_listener (cm_listeners w'))) w.
Proof.
  intros Hw Hl.
  assert (forall Q v, Q true (v <| cm_world ::= tick |>) -> wp (in_controller local_ok) Q v) as Hok.
  { intros Q v HQ. apply wp_in_controller. by apply wp_memory. }
  unfold controller_new. destruct (cs_event s <? 0). { apply wp_ret. split; [by apply inv_blank|done]. }
  do 2 (apply wp_bind, Hok; cbn [negb]). cbn [socket_options_new]. apply wp_bind, Hok. cbn [negb].
  apply wp_bind, wp_in_controller, wp_upd_controller. apply wp_bind, wp_modify, wp_ret. split; [|by intros _; split_and!].
  apply inv_blank. destruct Hw as (? & ? & ?). by split_and!.
Qed.

Lemma wp_configure_safe config o w : controller_inv nothing [] (cm_world w) -> no_listener (cm_listeners w) ->
  wp (controller_configure config o) (fun _ w' => controller_inv nothing [] (cm_world w') /\ no_listener (cm_listeners w')) w.
Proof.
  intros I Hl. unfold controller_configure. apply wp_bind, wp_cm_cfg; [apply total_list_sections|]. intros sections k.
  apply wp_bind, wp_gets. apply wp_bind, wp_in_controller. eapply wp_mono; [by apply inv_apply_config|]. cbn beta.
  intros [ok s'] v Iv. apply wp_bind, wp_modify. destruct ok; cbn [negb]; [|by apply wp_ret].
  destruct (opt_port o) as [p|]; [|by apply wp_ret]. destruct (controller_set_port _ p); [|by apply wp_ret].
  by apply wp_bind, wp_modify, wp_ret.
Qed.

Lemma wp_run_safe w : controller_inv nothing [] (cm_world w) -> no_listener (cm_listeners w) ->
  wp (controller_run path s) (fun _ => sound) w.
Proof.
  intros I Hl. assert (forall v, controller_inv nothing [] (cm_world v) -> forall ok : bool, wp (mret ok) (fun _ => sound) v) as Hend.
  { intros v Iv ok. apply wp_ret. by exists []. }
  unfold controller_run. destruct (cs_api_bus s); cbn [negb]; [|by apply Hend]. apply wp_bind, wp_in_controller.
  eapply wp_mono; [by apply inv_publish|]. cbn beta. intros ok v Iv. destruct ok; cbn [negb]; [|by apply Hend].
  apply wp_bind, wp_gets. apply wp_bind. unfold in_listeners. apply wp_zoom.
  eapply wp_mono; [by apply (wp_setup_listeners path)|]. cbn beta. intros ok lw _. destruct ok; cbn [negb]; [|by apply Hend].
  apply wp_bind, wp_in_controller, wp_controller. apply wp_bind. unfold in_timer. apply wp_zoom, wp_timer. intros r t.
  destruct (r <? 0); [by apply Hend|]. destruct (_ <? 0); [by apply Hend|]. apply wp_bind, wp_in_controller.
  eapply wp_mono; [by apply (inv_loop Hmem Hclocks (cs_events s) [])|]. cbn beta. intros a v' I'. apply wp_ret. by exists a.
Qed.

(** The controller lets go of everything, and its last reference. *)
Definition gone (w : World) : Prop :=
  other_lists (w_controller w) = (0, [], [], []) /\ c_nodes (w_controller w) = [] /\
  c_anonymous_nodes (w_controller w) = [].

Lemma wp_release_all w : wp (controller_release_sources path) (fun _ _ => True) w.
Proof.
  assert (forall source forget unlink Q v, (forall v', Q tt v') -> wp (release_source path source forget unlink) Q v) as Hone.
  { intros [source|] forget unlink Q v HQ; cbn [release_source]; [|by apply wp_ret].
    assert (forall x P u, (forall b u', P b u') -> wp (source_do x) P u) as Hs by (intros x P u H; apply H).
    assert (forall x P u, (forall b u', P b u') -> wp (kernel (sys x)) P u) as Hk by (intros x P u H; apply H).
    apply wp_bind, Hs. intros b u. apply wp_bind, wp_modify. destruct unlink; [|by apply wp_ret].
    apply wp_bind, Hk. intros b' u'. by apply wp_ret. }
  unfold controller_release_sources. apply wp_bind, wp_gets, wp_bind, Hone. intros v.
  apply wp_bind, wp_gets, wp_bind, Hone. intros v'. by apply wp_bind, wp_gets, Hone.
Qed.

Lemma wp_drop_let_go w : let_go (cm_world w) -> wp (controller_drop path) (fun _ w' => gone (cm_world w')) w.
Proof.
  intros (Hb & Hn & Ha). unfold bare, other_lists in Hb. injection Hb as Er Ej Em Es. unfold controller_drop.
  apply wp_bind, wp_in_controller. unfold wp at 1. rewrite unref_without_nodes by done.
  apply wp_bind, wp_in_controller, wp_controller. cbn. unfold in_listeners. apply wp_zoom.
  eapply wp_mono; [apply wp_release_all|]. intros _ lw _. unfold gone, other_lists. cbn. by rewrite Ej, Em, Es, Hn, Ha.
Qed.

Lemma wp_stop w : sound w -> stoppable (cm_world w) = true ->
  wp (in_controller controller_stop) (fun _ w' => let_go (cm_world w')) w.
Proof. intros [a I] Hs. apply wp_in_controller. eapply wp_mono; [by eapply stop_lets_go|]. by intros u v Hv. Qed.

(** The start of the process up to its configuration. *)
Lemma wp_made config o w : blank (cm_world w) -> lw_calls (cm_listeners w) = [] ->
  wp (ok ← controller_new s; if negb ok then mret false else controller_configure config o)
    (fun ok w' => controller_inv nothing [] (cm_world w') /\ (ok = true -> no_listener (cm_listeners w'))) w.
Proof.
  intros Hw Hl. apply wp_bind. eapply wp_mono; [by apply wp_new|]. cbn beta. intros ok w1 [I1 Hl1].
  destruct ok; cbn [negb]; [|by apply wp_ret].
  eapply wp_mono; [by apply wp_configure_safe; [|apply Hl1]|]. cbn beta. by intros ok w2 [I2 Hl2].
Qed.

(** The end of the process: it stops once, by a signal or because it has failed. *)
Lemma wp_serve_and_stop w : controller_inv nothing [] (cm_world w) -> no_listener (cm_listeners w) ->
  wp (controller_run path s) (fun _ w' => stoppable (cm_world w') = true) w ->
  wp (ok ← controller_start path s;
      status ← (if (ok : bool) then mret EXIT_SUCCESS else in_controller controller_stop ;; mret EXIT_FAILURE);
      controller_drop path ;; mret status)
    (fun status w' => (status = EXIT_SUCCESS \/ status = EXIT_FAILURE) /\ gone (cm_world w')) w.
Proof.
  intros I Hl Hstop. unfold controller_start. apply wp_bind, wp_bind.
  eapply wp_mono; [apply (wp_conj _ _ _ _ (wp_run_safe w I Hl) Hstop)|]. cbn beta. intros ok w1 [S1 Hs1].
  assert (forall status v, (status = EXIT_SUCCESS \/ status = EXIT_FAILURE) -> let_go (cm_world v) ->
    wp (controller_drop path ;; mret status)
      (fun status w' => (status = EXIT_SUCCESS \/ status = EXIT_FAILURE) /\ gone (cm_world w')) v) as Hdrop.
  { intros status v Hst Hv. apply wp_bind. eapply wp_mono; [by apply wp_drop_let_go|]. cbn beta. intros _ v' Hv'. by apply wp_ret. }
  destruct ok; cbn [negb].
  - apply wp_bind. unfold event_loop_signal_handler. cbn [negb].
    change (in_controller (controller_stop ;; mret 0)) with (zoom cm_world (fun v w => w <| cm_world := v |>) (controller_stop ;; mret 0)).
    apply wp_zoom, wp_bind. destruct S1 as [a Ia]. eapply wp_mono; [by eapply stop_lets_go|]. cbn beta. intros _ v Hv.
    apply wp_ret, wp_ret, wp_bind, wp_ret. apply Hdrop; [by left|done].
  - apply wp_ret. apply wp_bind, wp_bind. eapply wp_mono; [by apply wp_stop|]. cbn beta. intros _ v Hv. apply wp_ret.
    apply Hdrop; [by right|done].
Qed.
End process.


(** ** A sample: an agent connects and registers, starts a unit and is lost. *)

Definition life_config : config_t := mkConfig
  {[("bluechi-controller", CFG_ALLOWED_NODE_NAMES) := Some "pi,laptop";
    ("bluechi-controller", CFG_CONTROLLER_USE_UDS) := Some "true"]}%string "bluechi-controller".

(** ** The stop *)

(** C4. A configured controller that serves until a signal or an error ends its loop, then
    stops, if no node has a proxy then and no request to all agents has been answered by some
    of them only: whatever has happened before and whichever call on a bus fails, the
    cancellation of the requests that wait, of requests to all agents, of jobs,
    subscriptions and monitors uses no object that was released; the process ends with
    success or failure, the assertions of [controller_unref] hold, and nothing is left on
    the lists of the controller, nor a reference to it. *)
Theorem controller_stops_safely {E : Env} {L : EnvLaws E} {CE : CfgEnv} {K : Kernel} {KL : KernelLaws K}
  {D : SdListen} {EV : SdEvent} (Hmem : no_local_failure E) (Hclocks : clocks_work E) (path : string)
  (s : controller_surroundings) (config : config_t) (o : ControllerOptions) (w : CmWorld)
  (Hblank : blank (cm_world w)) (Hlisten : lw_calls (cm_listeners w) = []) :
  wp (ok ← controller_new s; if negb ok then mret false else controller_configure config o)
    (fun ok w1 => ok = true ->
       wp (controller_run path s) (fun _ w2 => stoppable (cm_world w2) = true) w1 ->
       wp (ok ← controller_start path s;
           status ← (if (ok : bool) then mret EXIT_SUCCESS
                     else in_controller controller_stop ;; mret EXIT_FAILURE);
           controller_drop path ;; mret status)
         (fun status w3 => (status = EXIT_SUCCESS \/ status = EXIT_FAILURE) /\ gone (cm_world w3)) w1) w.
Proof.
  eapply wp_mono; [by apply (wp_made Hmem s config o w)|]. cbn beta. intros ok w1 [I Hl] Hok Hstop.
  by apply (wp_serve_and_stop Hmem Hclocks path s w1 I (Hl Hok)).
Qed.

(** ** A stop while a request to all agents waits for its last answer *)

(** The request keeps the answer of the first agent and both requests to the agents. The stop
    cancels them all, the answered one again: the second answer counted for it completes the
    request to all, which is released with what it holds while the other is yet to be
    cancelled. *)
Definition stop_surroundings (events : list controller_event) : controller_surroundings :=
  mkControllerSurroundings 0 None (Some "/etc/bluechi/controller.conf"%string) None true [] events 0.
Definition list_units_on_two : list controller_event :=
  [EvConnection 7 (Some 100%positive); EvRegister 5 3 (ReadOk "pi"%string);
   EvConnection 8 (Some 101%positive); EvRegister 5 4 (ReadOk "laptop"%string);
   EvClientCall 6 "/org/eclipse/bluechi" None (ToController ControllerObject.ListUnits)].
Definition started (events : list controller_event) : PM bool :=
  ok ← controller_new (stop_surroundings events);
  if negb ok then mret false else
  controller_configure life_config no_options (E := sample_env) (CE := abort_cfg_env).
Definition start_world (events : list controller_event) : CmWorld :=
  match started events bare_process with Ret _ w => w | Crash _ => bare_process end.
Definition serve (events : list controller_event) : PM Z :=
  ok ← controller_start "/run/bluechi/bluechi.sock" (stop_surroundings events) (E := sample_env)
         (K := stale_path_kernel) (D := sample_listen) (EV := no_timer);
  status ← (if (ok : bool) then mret EXIT_SUCCESS else in_controller controller_stop ;; mret EXIT_FAILURE);
  controller_drop "/run/bluechi/bluechi.sock" (K := stale_path_kernel) (D := sample_listen) ;;
  mret status.

Example stop_with_answered_fleet :
  serve (list_units_on_two ++ [EvAgentAnswer 6 (MethodReturn 8)])
    (start_world (list_units_on_two ++ [EvAgentAnswer 6 (MethodReturn 8)])) = Crash InvalidPointer.
Proof. by vm_compute. Qed.

(** Before any answer the same controller stops. *)
Lemma controller_stops_safely_witness :
  wp (controller_run "/run/bluechi/bluechi.sock" (stop_surroundings list_units_on_two) (E := sample_env)
       (K := stale_path_kernel) (D := sample_listen) (EV := no_timer))
    (fun _ w2 => stoppable (cm_world w2) = true /\ size (w_reqs (cm_world w2)) = 2%nat) (start_world list_units_on_two) /\
  wp (serve list_units_on_two) (fun status w3 => (status = EXIT_SUCCESS \/ status = EXIT_FAILURE) /\ gone (cm_world w3))
    (start_world list_units_on_two).
Proof.
  match goal with |- ?P /\ _ => assert P as Hstop by (vm_compute; split; reflexivity) end.
  split; [exact Hstop|].
  assert (started list_units_on_two bare_process = Ret true (start_world list_units_on_two)) as Hs by (vm_compute; reflexivity).
  revert Hstop Hs. generalize (start_world list_units_on_two). intros w1 Hstop Hs.
  pose proof (controller_stops_safely (E := sample_env) (L := sample_env_laws) (CE := abort_cfg_env)
    (K := stale_path_kernel) (KL := stale_path_kernel_laws) (D := sample_listen) (EV := no_timer) sample_no_failure
    ltac:(by split) "/run/bluechi/bluechi.sock" (stop_surroundings list_units_on_two) life_config no_options bare_process
    ltac:(by repeat split) eq_refl) as H.
  unfold wp at 1 in H. change (_ bare_process) with (started list_units_on_two bare_process) in H. rewrite Hs in H.
  apply H; [reflexivity|]. eapply wp_mono; [exact Hstop|]. intros ok w2 [Hw2 _]. exact Hw2.
Defined.

(** ** A stop with a live proxy, and a log level that does not exist *)

(** C40. [controller_stop] removes every subscription from the list before it removes the
    nodes; the removal of the last reference to a node that still has a proxy monitor then
    removes the subscription of this monitor a second time, and the assertion of
    [LIST_REMOVE] fails. So a controller that a handler has left, with no request under way,
    cannot stop while some node has a proxy monitor and is referred to by the list of nodes
    only, that is, is not itself the target of a proxy. *)
Theorem stop_with_proxy_aborts {E : Env} {L : EnvLaws E} (answered : list answer) (w : World) (p : ptr) (n : Node)
  (Hw : controller_inv nothing answered w) (Hreqs : w_reqs w = ∅) (Hp : p ∈ c_nodes (w_controller w))
  (Hn : w_nodes w !! p = Some n) (Hproxy : node_proxy_monitors n <> []) (Hrefs : node_ref_count n = 1) :
  controller_stop w = Crash AssertionFailure.
Proof. by eapply stop_aborts. Qed.

(** The agent of the node pi has a proxy for a unit of the node laptop. *)
Definition proxy_config : config_t := mkConfig
  (<[("node pi", CFG_ALLOW_DEPENDENCIES_ON) := Some "laptop"]> (cfg_store life_config))%string "bluechi-controller".
Definition proxy_surroundings : controller_surroundings := mkControllerSurroundings 0 None None None true []
  [EvConnection 7 (Some 100%positive); EvRegister 5 3 (ReadOk "pi"%string);
   EvAgentSignal 1 (AgentPeer.ProxyNew (ReadOk ("laptop", "x.service", "/proxy/1")%string))] 0.
Definition proxy_started : outcome CmWorld bool :=
  (ok ← controller_new proxy_surroundings;
   if negb ok then mret false else
   controller_configure proxy_config no_options (E := sample_env) (CE := abort_cfg_env)) bare_process.
Definition proxy_start : CmWorld := match proxy_started with Ret _ w => w | Crash _ => bare_process end.
Definition proxy_served : outcome CmWorld bool :=
  controller_run "/run/bluechi/bluechi.sock" proxy_surroundings (E := sample_env) (K := stale_path_kernel)
    (D := sample_listen) (EV := no_timer) proxy_start.
Definition proxy_world : World := match proxy_served with Ret _ w => cm_world w | Crash _ => bare_world end.

Lemma proxy_world_sound : exists answered, controller_inv (E := sample_env) nothing answered proxy_world.
Proof.
  pose proof (wp_made (E := sample_env) (CE := abort_cfg_env) sample_no_failure proxy_surroundings proxy_config no_options
    bare_process ltac:(by repeat split) eq_refl) as H1.
  unfold wp in H1. change (_ bare_process) with proxy_started in H1.
  assert (proxy_started = Ret true proxy_start) as Hs by (vm_compute; reflexivity). rewrite Hs in H1. destruct H1 as [I Hl].
  pose proof (wp_run_safe (E := sample_env) (L := sample_env_laws) (K := stale_path_kernel) (KL := stale_path_kernel_laws)
    (D := sample_listen) (EV := no_timer) sample_no_failure ltac:(by split) "/run/bluechi/bluechi.sock"
    proxy_surroundings proxy_start I (Hl eq_refl)) as H2.
  unfold wp in H2. change (_ proxy_start) with proxy_served in H2. unfold proxy_world. destruct proxy_served as [b w|c]; [exact H2|destruct H2].
Qed.

Lemma stop_with_proxy_aborts_witness : controller_stop (E := sample_env) proxy_world = Crash AssertionFailure.
Proof.
  destruct proxy_world_sound as [answered I].
  refine (stop_with_proxy_aborts (E := sample_env) (L := sample_env_laws) answered proxy_world 1%positive
    (default sample_node1 (w_nodes proxy_world !! 1%positive)) I _ _ _ _ _); clear I.
  - vm_compute. reflexivity.
  - apply list_elem_of_In. vm_compute. by left.
  - vm_compute. reflexivity.
  - vm_compute. discriminate.
  - vm_compute. reflexivity.
Defined.

(** A controller without proxies stops. *)
Definition sample_without_proxy : World :=
  sample_world
    <| w_nodes := {[1%positive := sample_node1 <| node_proxy_monitors := [] |>;
                    2%positive := sample_node2 <| node_ref_count := 1 |>
                                               <| node_unit_subscriptions := ∅ |>
                                               <| node_proxy_dependencies := [] |>;
                    3%positive := sample_node3]} |>
    <| w_controller ::= fun c => c <| c_all_subscriptions := [20%positive] |> |>.

Example stop_without_proxy :
  wp controller_stop
     (fun _ w' => c_nodes (w_controller w') = [] /\ c_jobs (w_controller w') = [] /\
        c_all_subscriptions (w_controller w') = [] /\ w_nodes w' = ∅) sample_without_proxy.
Proof. by vm_compute. Qed.

(** Setting a log level that does not exist on a connected node: the client is
    told that it worked, the agent is asked to set it all the same, and the client
    is answered a second time. *)
Theorem invalid_log_level_answered_twice {E : Env} (Hbus : no_bus_failure E) (w : World) (m p b : ptr)
  (n : Node) (level : string)
  (Hn : w_nodes w !! p = Some n) (Hb : node_agent_bus n = Some b)
  (Hlevel : string_to_log_level (Some level) = LOG_LEVEL_INVALID) :
  wp (node_method_set_log_level m (ReadOk level) p)
     (fun _ w' => w_trace w' = w_trace w ++
        [ReplyReturn m []; AgentCallSync b "SetLogLevel" [VString level]; ReplyReturn m []]) w.
Proof.
  assert (forall k c, (bus_result k c <? 0) = false) as Hlt by (intros k c; apply Z.ltb_ge, Hbus).
  unfold node_method_set_log_level. rewrite Hlevel, bool_decide_true by done.
  wp_one. wp_one. unfold reply_method_return. wp_one. rewrite Hlt. wp_one. wp_one.
  eapply wp_load; [exact Hn|]. rewrite Hb. wp_one. apply wp_bus. rewrite Hlt. apply wp_bus.
  cbn. by rewrite <- !app_assoc.
Qed.
