(* ===== verification/AgentMain.v ===== *)
(** agent/main.c and [agent_new]: the options of bluechi-agent, its settings from the
    configuration and from the command line, and the life of the process. *)
From S2P Require Import Prelude CString StringUtil ParseUtil TimeUtil Protocol BusUtils Log Cfg.
From S2P Require Import Socket World AgentWorld AgentRequests AgentUnits AgentProxy Agent AgentEvents.
From S2P Require Import Command.
Local Open Scope list_scope.

(** ** Options *)

Record AgentOptions := mkAgentOptions {
  opt_port : option string;
  opt_host : option string;
  opt_address : option string;
  opt_name : option string;
  opt_config : option string;
  opt_user : bool;
  opt_heartbeat_interval : option string;
}.
#[export] Instance eta_AgentOptions : EtaRecord AgentOptions := fun o =>
  mkAgentOptions (opt_port o) (opt_host o) (opt_address o) (opt_name o) (opt_config o) (opt_user o)
    (opt_heartbeat_interval o).
Definition no_options : AgentOptions := mkAgentOptions None None None None None false None.


(** The process: what it prints, the allocations of the configuration, and the agent. *)
Record AmWorld := mkAmWorld { am_output : list printed; am_allocs : nat; am_agent : AgentWorld }.
#[export] Instance eta_AmWorld : EtaRecord AmWorld := fun w =>
  mkAmWorld (am_output w) (am_allocs w) (am_agent w).
#[export] Instance am_console : Console AmWorld := fun p w => w <| am_output ::= fun l => l ++ [p] |>.
Abbreviation MM := (M AmWorld).

Definition in_agent {A} : AM A -> MM A := zoom am_agent (fun v w => w <| am_agent := v |>).
Definition in_cfg {A} : M nat A -> MM A := zoom am_allocs (fun v w => w <| am_allocs := v |>).

Definition usage_text (argv0 : string) : string :=
  "Usage:" ++ nl ++ tab ++ argv0 ++ " [options...] " ++ nl ++ "Available options are:" ++ nl ++
  usage_line "h" "help" (tab ++ tab ++ " Print this help message.") ++
  usage_line "H" "host" (tab ++ tab ++ " The host of bluechi to connect to. Must be a valid IPv4 or IPv6.") ++
  usage_line "p" "port" (tab ++ tab ++ " The port of bluechi to connect to.") ++
  usage_line "a" "address" (tab ++ " The DBus address of bluechi to connect to. Overrides host and port.") ++
  usage_line "n" "name" (tab ++ tab ++ " The unique name of this bluechi-agent used to register at bluechi.") ++
  usage_line "i" "interval" (tab ++ " The interval between two heartbeat signals in milliseconds.") ++
  usage_line "c" "config" (tab ++ " A path to a config file used to bootstrap bluechi-agent.") ++
  usage_line "u" "user" (tab ++ tab ++ " Connect to the user systemd instance instead of the system one.") ++
  usage_line "v" "version" (tab ++ tab ++ " Print current version of bluechi-agent.").

Section options.
Context (argv0 version : string).
Definition usage : MM void := printf (usage_text argv0).

Fixpoint get_opts (opts : list (Z * option string)) (o : AgentOptions) : MM (Z * AgentOptions) :=
  match opts with
  | [] => mret (0, o)
  | (opt, optarg) :: opts =>
      if opt =? ARG_HELP_SHORT then usage ;; mret (1, o)
      else if opt =? ARG_VERSION_SHORT then
        printf ("bluechi-agent version " ++ version ++ nl) ;; mret (1, o)
      else if opt =? ARG_NAME_SHORT then get_opts opts (o <| opt_name := optarg |>)
      else if opt =? ARG_HOST_SHORT then get_opts opts (o <| opt_host := optarg |>)
      else if opt =? ARG_ADDRESS_SHORT then get_opts opts (o <| opt_address := optarg |>)
      else if opt =? ARG_HEARTBEAT_INTERVAL_SHORT then
        get_opts opts (o <| opt_heartbeat_interval := optarg |>)
      else if opt =? ARG_CONFIG_SHORT then get_opts opts (o <| opt_config := optarg |>)
      else if opt =? ARG_PORT_SHORT then get_opts opts (o <| opt_port := optarg |>)
      else if opt =? ARG_USER_SHORT then get_opts opts (o <| opt_user := true |>)
      else
        eprintf ("Unsupported option " ++ String (ascii_of_nat (Z.to_nat opt)) nl) ;;
        usage ;; mret (- EINVAL, o)
  end.
End options.

(** ** The agent *)

Section main.
Context {E : AgentEnv} {N : Network} {CE : CfgEnv}.

(** [event] is the result of creating the event loop. The allocation of the agent itself
    is not checked. *)
Definition agent_new (event : Z) : AM bool :=
  if event <? 0 then mret false else
  service_name ← strdup BC_AGENT_DBUS_NAME;
  match service_name with
  | None => mret false
  | Some _ =>
      ok ← amalloc;
      match socket_options_new ok with
      | None => mret false
      | Some socket_opts =>
          unit_infos ← amalloc;
          if negb unit_infos then mret false else
          agent ← amalloc;
          if negb agent then crash_with InvalidPointer else
          modify (fun w => w <| aw_agent := Some (new_agent (mkConfig ∅ CFG_SECT_GLOBAL) socket_opts) |>) ;;
          mret true
      end
  end.

(** The settings: of the configuration, then of the command line. *)
Definition agent_override (o : AgentOptions) : AM bool :=
  agent_set_systemd_user (opt_user o) ;;
  apply_options
    [(opt_port o, agent_set_port);
     (opt_host o, agent_set_host);
     (opt_address o, agent_set_assembled_controller_address);
     (opt_name o, agent_set_name);
     (opt_heartbeat_interval o, agent_set_heartbeat_interval)].
Definition agent_configure (o : AgentOptions) : AM bool :=
  ok ← agent_apply_config;
  if negb ok then mret false else agent_override o.

(** What the process meets: the files of the configuration, the results of opening the
    buses and of setting up the loop, the units systemd lists, the events, and how the
    loop ends: with a signal, or with an error. *)
Record agent_surroundings := mkAgentSurroundings {
  as_event : Z;
  as_default_file : option string; as_etc_file : option string; as_etc_dir : option string;
  as_api_bus : bool; as_systemd_bus : bool;
  as_units : list listed_unit; as_listed : Z;
  as_shutdown : list Z; as_timer : Z;
  as_events : list agent_event;
  as_loop : Z;
}.
Context (s : agent_surroundings).

(** [agent_start] with its event loop, which a signal ends by stopping the agent. *)
Definition agent_serve : AM bool :=
  ok ← agent_start (as_api_bus s) (as_systemd_bus s) (as_units s) (as_listed s)
         (event_loop_add_shutdown_signals true (as_shutdown s)) (as_timer s);
  if negb ok then mret false else
  agent_loop (as_events s) ;;
  if as_loop s <? 0 then mret false
  else _r ← event_loop_signal_handler true (Some agent_stop) (mret 0); mret true.

(** [main] up to the start of the agent, and the rest of it. *)
Definition agent_prepare (o : AgentOptions) : MM bool :=
  x ← in_cfg (agent_parse_config (opt_config o) (as_default_file s) (as_etc_file s) (as_etc_dir s));
  let config := default (mkConfig ∅ CFG_SECT_GLOBAL) (snd x) in
  in_agent (upd_agent (fun a => a <| ag_config := config |>)) ;;
  if negb (fst x) then mret false else
  in_agent (modify (fun w => w <| aw_log ::= fun l => snd (bc_log_init config l) |>)) ;;
  _dump ← in_cfg (cfg_dump (Some config));
  in_agent (agent_configure o).
Definition agent_main_on (o : AgentOptions) : MM Z :=
  ok ← agent_prepare o;
  if negb ok then mret EXIT_FAILURE else
  ok ← in_agent agent_serve;
  mret (if (ok : bool) then EXIT_SUCCESS else EXIT_FAILURE).

Definition agent_main (argv0 version : string) (args : getopt_result) : MM Z :=
  x ← get_opts argv0 version (go_options args) no_options;
  let '(r, o) := x in
  if r <? 0 then mret EXIT_FAILURE
  else if 0 <? r then mret EXIT_SUCCESS
  else
    ok ← in_agent (agent_new (as_event s));
    if negb ok then mret EXIT_FAILURE else
    status ← agent_main_on o;
    in_agent agent_unref ;;                        (* _cleanup_agent_ *)
    mret status.
End main.
