(* ===== verification/AgentMainTheorems.v ===== *)
(** The process of the agent: where its settings come from, and that no run of it, from
    the command line to the last release, touches released memory. *)
From S2P Require Import Prelude CString StringUtil ParseUtil TimeUtil Protocol BusUtils Log Cfg.
From S2P Require Import Socket World AgentWorld AgentRequests AgentUnits AgentProxy Agent AgentEvents.
From S2P Require Import WorldFacts AgentFacts AgentSafe AgentProxySteps AgentTheorems AgentConnection AgentSample.
From S2P Require Import AgentLifeTheorems Command AgentMain SettingsFacts.
Local Open Scope list_scope.

(** ** Settings *)

(** What a setter makes of a value: nothing when it rejects it. *)
Definition setting : Type := string -> Agent -> option Agent.
Fixpoint apply_all (l : list (option string * setting)) (a : Agent) : option Agent :=
  match l with
  | [] => Some a
  | (None, _) :: l => apply_all l a
  | (Some s, f) :: l => match f s a with Some a => apply_all l a | None => None end
  end.

(** A setting of one field by a parser. *)
Definition by_parser {T} (parse : string -> option T) (set : T -> Agent -> Agent) : setting :=
  fun s a => (fun v => set v a) <$> parse s.
Definition set_port := by_parser (fun s => parse_port (Some s)) (fun v a => a <| ag_port := v |>).
Definition set_interval := by_parser (fun s => parse_long (Some s)) (fun v a => a <| ag_heartbeat_interval_msec := v |>).
Definition set_threshold :=
  by_parser (fun s => parse_long (Some s)) (fun v a => a <| ag_controller_heartbeat_threshold_msec := v |>).
Definition set_retry_count :=
  by_parser (fun s => u64 <$> parse_long (Some s)) (fun v a => a <| ag_connection_retry_count_until_quiet := v |>).
Definition set_name := by_parser Some (fun v a => a <| ag_name := Some v |>).
Definition set_host := by_parser Some (fun v a => a <| ag_host := Some v |>).
Definition set_address := by_parser Some (fun v a => a <| ag_controller_address := Some v |>).
Definition set_assembled_address := by_parser Some (fun v a => a <| ag_assembled_controller_address := Some v |>).
Definition set_keepidle := by_parser (fun s => parse_bounded MAX_TCP_KEEPIDLE (Some s))
  (fun v a => a <| ag_peer_socket_options ::= fun o => o <| tcp_keepidle := v |> |>).
Definition set_keepintvl := by_parser (fun s => parse_bounded MAX_TCP_KEEPINTVL (Some s))
  (fun v a => a <| ag_peer_socket_options ::= fun o => o <| tcp_keepintvl := v |> |>).
Definition set_keepcnt := by_parser (fun s => parse_bounded MAX_TCP_KEEPCNT (Some s))
  (fun v a => a <| ag_peer_socket_options ::= fun o => o <| tcp_keepcnt := v |> |>).

Definition config_settings (c : config_t) : list (option string * setting) :=
  let value := cfg_get_value c in
  [(value CFG_NODE_NAME, set_name); (value CFG_CONTROLLER_HOST, set_host);
   (value CFG_CONTROLLER_PORT, set_port); (value CFG_CONTROLLER_ADDRESS, set_address);
   (value CFG_HEARTBEAT_INTERVAL, set_interval); (value CFG_CONTROLLER_HEARTBEAT_THRESHOLD, set_threshold);
   (value CFG_CONNECTION_RETRY_COUNT_UNTIL_QUIET, set_retry_count);
   (value CFG_TCP_KEEPALIVE_TIME, set_keepidle); (value CFG_TCP_KEEPALIVE_INTERVAL, set_keepintvl);
   (value CFG_TCP_KEEPALIVE_COUNT, set_keepcnt)].
Definition option_settings (o : AgentOptions) : list (option string * setting) :=
  [(opt_port o, set_port); (opt_host o, set_host); (opt_address o, set_assembled_address);
   (opt_name o, set_name); (opt_heartbeat_interval o, set_interval)].

Section settings.
Context {E : AgentEnv} {L : AgentEnvLaws E}.

(** The program sets what the setting says. *)
Definition sets (set : string -> AM bool) (f : setting) : Prop := forall s a w, aw_agent w = Some a ->
  wp (set s) (fun ok w' => match f s a with
    | Some a' => ok = true /\ aw_agent w' = Some a'
    | None => ok = false
    end) w.
Definition sets_all : list (option string * (string -> AM bool)) -> list (option string * setting) -> Prop :=
  Forall2 (fun x y => fst x = fst y /\ sets (snd x) (snd y)).

Lemma wp_apply_options l l' : sets_all l l' -> forall a w, aw_agent w = Some a ->
  wp (apply_options l) (fun ok w' => match apply_all l' a with
    | Some a' => ok = true /\ aw_agent w' = Some a'
    | None => ok = false
    end) w.
Proof.
  induction 1 as [|[v set] [v' f] l l' [Hv Hs] Hl IH]; intros a w Ha; cbn [apply_options apply_all fst snd] in *.
  - by apply wp_ret.
  - subst v'. apply wp_bind. destruct v as [s|]; cbn [apply_option]; [|by apply wp_ret, IH].
    eapply wp_mono; [by apply Hs|]. intros ok w1. destruct (f s a) as [a1|].
    + intros [-> H1]. cbn [negb]. by apply IH.
    + intros ->. by apply wp_ret.
Qed.

Lemma sets_copy set (f : option string -> Agent -> Agent) :
  (forall s, set s = copy_str f s) -> sets set (by_parser Some (fun v => f (Some v))).
Proof.
  intros Hset s a w Ha. rewrite Hset. unfold copy_str, strdup, by_parser. cbn [fmap option_fmap option_map].
  apply wp_bind, wp_bind, wp_amalloc. rewrite malloc_succeeds. apply wp_ret. cbn iota. apply wp_bind.
  eapply wp_upd_agent; [exact Ha|]. by apply wp_ret.
Qed.
Lemma sets_parsed {T} set (parse : string -> option T) f :
  (forall s, set s = match parse s with
                     | None => mret false
                     | Some v => upd_agent (f v) ;; mret true
                     end) -> sets set (by_parser parse f).
Proof.
  intros Hset s a w Ha. rewrite Hset. unfold by_parser. destruct (parse s) as [v|]; cbn; [|by apply wp_ret].
  apply wp_bind. eapply wp_upd_agent; [exact Ha|]. by apply wp_ret.
Qed.
Lemma sets_socket max f (upd : Z -> SocketOptions -> SocketOptions) :
  (forall o s, f o s = match parse_bounded max s with None => (- EINVAL, o) | Some v => (0, upd v o) end) ->
  sets (set_socket_option f)
    (by_parser (fun s => parse_bounded max (Some s)) (fun v a => a <| ag_peer_socket_options ::= upd v |>)).
Proof.
  intros Hf s a w Ha. unfold set_socket_option, by_parser. apply wp_bind. eapply wp_the_agent; [exact Ha|].
  rewrite Hf. destruct (parse_bounded _ _) as [v|]; cbn; [|by apply wp_ret].
  apply wp_bind. eapply wp_upd_agent; [exact Ha|]. apply wp_ret. split; [done|]. by destruct a.
Qed.

Lemma option_settings_set o : sets_all
  [(opt_port o, agent_set_port); (opt_host o, agent_set_host);
   (opt_address o, agent_set_assembled_controller_address); (opt_name o, agent_set_name);
   (opt_heartbeat_interval o, agent_set_heartbeat_interval)] (option_settings o).
Proof.
  repeat constructor; cbn [fst snd].
  - by apply sets_parsed.
  - by apply (sets_copy _ (fun v a => a <| ag_host := v |>)).
  - by apply (sets_copy _ (fun v a => a <| ag_assembled_controller_address := v |>)).
  - by apply (sets_copy _ (fun v a => a <| ag_name := v |>)).
  - by apply sets_parsed.
Qed.

(** *** The settings together *)

Definition socket_flags (config : config_t) (a : Agent) : Agent :=
  a <| ag_peer_socket_options ::= fun o => o <| ip_recv_err := cfg_get_bool_value config CFG_IP_RECEIVE_ERRORS |> |>.
Definition configured (o : AgentOptions) (a : Agent) : option Agent :=
  a1 ← apply_all (config_settings (ag_config a)) a;
  apply_all (option_settings o) ((socket_flags (ag_config a) a1) <| ag_systemd_user := opt_user o |>).

(** A setting leaves a field alone. *)
Definition leaves {T} (field : Agent -> T) (f : setting) : Prop :=
  forall s a a', f s a = Some a' -> field a' = field a.
Lemma leaves_by_parser {T U} (field : Agent -> U) (parse : string -> option T) set :
  (forall v a, field (set v a) = field a) -> leaves field (by_parser parse set).
Proof.
  intros H s a a' Hs. unfold by_parser in Hs. destruct (parse s); [|done]. cbn in Hs. injection Hs as <-. apply H.
Qed.
Lemma apply_all_leaves {T} (field : Agent -> T) l : Forall (fun x => leaves field (snd x)) l ->
  forall a a', apply_all l a = Some a' -> field a' = field a.
Proof.
  induction 1 as [|[[s|] f] l Hf Hl IH]; intros a a' Ha; cbn [apply_all] in Ha.
  - by injection Ha as <-.
  - destruct (f s a) as [a1|] eqn:Hs; [|done]. rewrite (IH a1 a' Ha). by apply (Hf s).
  - by apply IH.
Qed.
Lemma apply_all_sets {T} (field : Agent -> T) l1 v (parse : string -> option T) set l2 a a' :
  Forall (fun x => leaves field (snd x)) l1 -> Forall (fun x => leaves field (snd x)) l2 ->
  (forall v a, field (set v a) = v) ->
  apply_all (l1 ++ (v, by_parser parse set) :: l2) a = Some a' ->
  Some (field a') = chosen v parse (field a).
Proof.
  intros H1 H2 Hset. revert a. induction H1 as [|[[s|] f] l1 Hf H1 IH]; intros a Ha; cbn [app apply_all] in Ha.
  - destruct v as [s|]; cbn [chosen].
    + unfold by_parser in Ha. destruct (parse s) as [x|]; [|done]. cbn [fmap option_fmap option_map] in Ha.
      rewrite (apply_all_leaves field l2 H2 _ _ Ha). by rewrite Hset.
    + by rewrite (apply_all_leaves field l2 H2 _ _ Ha).
  - destruct (f s a) as [a1|] eqn:Hs; [|done]. rewrite (IH a1 Ha), (Hf s a a1 Hs). done.
  - by apply IH.
Qed.
Lemma apply_all_at {T} (field : Agent -> T) n v (parse : string -> option T) set l a a' :
  l !! n = Some (v, by_parser parse set) -> Forall (fun x => leaves field (snd x)) (delete n l) ->
  (forall v a, field (set v a) = v) -> apply_all l a = Some a' ->
  Some (field a') = chosen v parse (field a).
Proof.
  intros Hn Hl Hset Ha. rewrite delete_take_drop in Hl. apply Forall_app in Hl as [H1 H2].
  rewrite <- (take_drop_middle l n _ Hn) in Ha.
  exact (apply_all_sets field (take n l) v parse set (drop (S n) l) a a' H1 H2 Hset Ha).
Qed.

(** Which values are accepted does not depend on the agent. *)
Lemma apply_all_accepts {T} v (parse : string -> option T) set l P :
  (forall a, is_Some (apply_all l a) <-> P = true) ->
  forall a, is_Some (apply_all ((v, by_parser parse set) :: l) a) <-> accepts parse v && P = true.
Proof.
  intros HP a. cbn [apply_all]. rewrite andb_true_iff. destruct v as [s|]; cbn [accepts]; [|rewrite (HP a); tauto].
  rewrite bool_decide_eq_true. unfold by_parser. destruct (parse s) as [x|]; cbn.
  - rewrite HP. split; [intros H; split; [by eexists|done]|by intros [_ H]].
  - split; [by intros [? [=]]|by intros [[? [=]] _]].
Qed.
Lemma apply_none_accepts a : is_Some (apply_all [] a) <-> true = true.
Proof. split; [done|by eexists]. Qed.
End settings.

(** Every value that is present can be parsed. *)
Definition accepted (o : AgentOptions) (config : config_t) : bool :=
  let value := cfg_get_value config in
  let port s := parse_port (Some s) in
  let long s := parse_long (Some s) in
  forallb (accepts port) [value CFG_CONTROLLER_PORT; opt_port o] &&
  forallb (accepts long) [value CFG_HEARTBEAT_INTERVAL; value CFG_CONTROLLER_HEARTBEAT_THRESHOLD;
                          value CFG_CONNECTION_RETRY_COUNT_UNTIL_QUIET; opt_heartbeat_interval o] &&
  accepts (fun s => parse_bounded MAX_TCP_KEEPIDLE (Some s)) (value CFG_TCP_KEEPALIVE_TIME) &&
  accepts (fun s => parse_bounded MAX_TCP_KEEPINTVL (Some s)) (value CFG_TCP_KEEPALIVE_INTERVAL) &&
  accepts (fun s => parse_bounded MAX_TCP_KEEPCNT (Some s)) (value CFG_TCP_KEEPALIVE_COUNT).

Lemma configured_accepted o a : is_Some (configured o a) <-> accepted o (ag_config a) = true.
Proof.
  assert (forall b, is_Some (apply_all (option_settings o) b) <->
    accepts (fun s => parse_port (Some s)) (opt_port o) &&
    (accepts Some (opt_host o) && (accepts Some (opt_address o) && (accepts Some (opt_name o) &&
     (accepts (fun s => parse_long (Some s)) (opt_heartbeat_interval o) && true)))) = true) as Ho.
  { do 5 apply apply_all_accepts. apply apply_none_accepts. }
  set (value := cfg_get_value (ag_config a)).
  assert (forall b, is_Some (apply_all (config_settings (ag_config a)) b) <->
    accepts Some (value CFG_NODE_NAME) && (accepts Some (value CFG_CONTROLLER_HOST) &&
    (accepts (fun s => parse_port (Some s)) (value CFG_CONTROLLER_PORT) &&
    (accepts Some (value CFG_CONTROLLER_ADDRESS) &&
    (accepts (fun s => parse_long (Some s)) (value CFG_HEARTBEAT_INTERVAL) &&
    (accepts (fun s => parse_long (Some s)) (value CFG_CONTROLLER_HEARTBEAT_THRESHOLD) &&
    (accepts (fun s => u64 <$> parse_long (Some s)) (value CFG_CONNECTION_RETRY_COUNT_UNTIL_QUIET) &&
    (accepts (fun s => parse_bounded MAX_TCP_KEEPIDLE (Some s)) (value CFG_TCP_KEEPALIVE_TIME) &&
    (accepts (fun s => parse_bounded MAX_TCP_KEEPINTVL (Some s)) (value CFG_TCP_KEEPALIVE_INTERVAL) &&
    (accepts (fun s => parse_bounded MAX_TCP_KEEPCNT (Some s)) (value CFG_TCP_KEEPALIVE_COUNT) && true))))))))) = true) as Hc.
  { do 10 apply apply_all_accepts. apply apply_none_accepts. }
  unfold configured. specialize (Hc a).
  transitivity (is_Some (apply_all (config_settings (ag_config a)) a) /\
    is_Some (apply_all (option_settings o) a)).
  { destruct (apply_all (config_settings (ag_config a)) a) as [a1|]; cbn [mbind option_bind].
    - split.
      + intros H. split; [by eexists|]. apply Ho. by apply Ho in H.
      + intros [_ H]. apply Ho. by apply Ho in H.
    - split; [by intros [? [=]]|by intros [[? [=]] _]]. }
  fold value. rewrite Hc, Ho. rewrite !andb_true_iff, !accepts_some, accepts_u64.
  unfold accepted. cbn [forallb]. fold value. rewrite !andb_true_iff. tauto.
Qed.

Section precedence.
Context {E : AgentEnv} {L : AgentEnvLaws E}.

Lemma config_settings_set config : sets_all
  (let value := cfg_get_value config in
   [(value CFG_NODE_NAME, agent_set_name); (value CFG_CONTROLLER_HOST, agent_set_host);
    (value CFG_CONTROLLER_PORT, agent_set_port); (value CFG_CONTROLLER_ADDRESS, agent_set_controller_address);
    (value CFG_HEARTBEAT_INTERVAL, agent_set_heartbeat_interval);
    (value CFG_CONTROLLER_HEARTBEAT_THRESHOLD, agent_set_controller_heartbeat_threshold);
    (value CFG_CONNECTION_RETRY_COUNT_UNTIL_QUIET, agent_set_connection_retry_count_until_quiet);
    (value CFG_TCP_KEEPALIVE_TIME, set_socket_option socket_options_set_tcp_keepidle);
    (value CFG_TCP_KEEPALIVE_INTERVAL, set_socket_option socket_options_set_tcp_keepintvl);
    (value CFG_TCP_KEEPALIVE_COUNT, set_socket_option socket_options_set_tcp_keepcnt)])
  (config_settings config).
Proof.
  cbn zeta. repeat constructor; cbn [fst snd].
  - by apply (sets_copy _ (fun v a => a <| ag_name := v |>)).
  - by apply (sets_copy _ (fun v a => a <| ag_host := v |>)).
  - by apply sets_parsed.
  - by apply (sets_copy _ (fun v a => a <| ag_controller_address := v |>)).
  - by apply sets_parsed.
  - by apply sets_parsed.
  - apply sets_parsed. intros s. unfold agent_set_connection_retry_count_until_quiet. by destruct (parse_long _).
  - by apply (sets_socket MAX_TCP_KEEPIDLE _ (fun v o => o <| tcp_keepidle := v |>)).
  - by apply (sets_socket MAX_TCP_KEEPINTVL _ (fun v o => o <| tcp_keepintvl := v |>)).
  - by apply (sets_socket MAX_TCP_KEEPCNT _ (fun v o => o <| tcp_keepcnt := v |>)).
Qed.

Ltac leaves_all :=
  repeat (apply Forall_cons; split; [by apply leaves_by_parser|]); apply Forall_nil; done.
Lemma config_kept a a' : apply_all (config_settings (ag_config a)) a = Some a' -> ag_config a' = ag_config a.
Proof. apply apply_all_leaves. leaves_all. Qed.

Lemma wp_configure o a w : aw_agent w = Some a ->
  wp (agent_configure o) (fun ok w' => match configured o a with
    | Some a' => ok = true /\ aw_agent w' = Some a'
    | None => ok = false
    end) w.
Proof.
  intros Ha. unfold agent_configure, agent_apply_config, configured. apply wp_bind, wp_bind.
  eapply wp_the_agent; [exact Ha|]. apply wp_bind.
  eapply wp_mono; [apply (wp_apply_options _ _ (config_settings_set (ag_config a)) a w Ha)|].
  intros ok w1. destruct (apply_all _ a) as [a1|] eqn:Hc; cbn [mbind option_bind].
  2: { intros ->. by apply wp_ret, wp_ret. }
  intros [-> H1]. cbn [negb]. apply wp_bind. eapply wp_the_agent; [exact H1|].
  unfold socket_options_set_ip_recverr. change (0 <? 0) with false. cbn iota. apply wp_bind.
  eapply wp_upd_agent; [exact H1|]. apply wp_ret. cbn [negb]. unfold agent_override, agent_set_systemd_user.
  apply wp_bind. eapply wp_upd_agent; [done|].
  replace (socket_flags (ag_config a) a1) with
    (a1 <| ag_peer_socket_options := (ag_peer_socket_options a1)
           <| ip_recv_err := cfg_get_bool_value (ag_config a1) CFG_IP_RECEIVE_ERRORS |> |>).
  - apply (wp_apply_options _ _ (option_settings_set o)). done.
  - unfold socket_flags. by rewrite (config_kept a a1 Hc).
Qed.

(** The field after the settings of a list, the [i]-th of which is its own. *)
Ltac set_at field i H :=
  eapply (apply_all_at field i); [| | |exact H]; [reflexivity|cbn [delete list_delete]; leaves_all|done].
(** Set by the [i]-th setting, then, in the agent [b], by the [j]-th of another list. *)
Ltac set_twice field i j H1 b H2 :=
  eapply (chosen_twice _ _ _ _ (field b)); [eapply eq_trans; [|set_at field i H1]; reflexivity|set_at field j H2].
Ltac set_once field i H1 o H2 :=
  let Hk := fresh in
  apply chosen_once; pose proof (apply_all_leaves field (option_settings o) ltac:(leaves_all) _ _ H2) as Hk;
  cbn beta in Hk; rewrite Hk; eapply eq_trans; [|set_at field i H1]; reflexivity.

Lemma settings_kept o a a1 a' :
  apply_all (config_settings (ag_config a)) a = Some a1 ->
  apply_all (option_settings o) ((socket_flags (ag_config a) a1) <| ag_systemd_user := opt_user o |>) = Some a' ->
  let value := cfg_get_value (ag_config a) in
  let port s := parse_port (Some s) in
  let long s := parse_long (Some s) in
  ag_systemd_user a' = opt_user o /\
  prefers Some (opt_name o) (value CFG_NODE_NAME) (default "" (ag_name a))%string (default "" (ag_name a'))%string /\
  prefers Some (opt_host o) (value CFG_CONTROLLER_HOST) (default "" (ag_host a))%string (default "" (ag_host a'))%string /\
  prefers port (opt_port o) (value CFG_CONTROLLER_PORT) (ag_port a) (ag_port a') /\
  prefers Some None (value CFG_CONTROLLER_ADDRESS) (default "" (ag_controller_address a))%string
    (default "" (ag_controller_address a'))%string /\
  prefers Some (opt_address o) None (default "" (ag_assembled_controller_address a))%string
    (default "" (ag_assembled_controller_address a'))%string /\
  prefers long (opt_heartbeat_interval o) (value CFG_HEARTBEAT_INTERVAL)
    (ag_heartbeat_interval_msec a) (ag_heartbeat_interval_msec a') /\
  prefers long None (value CFG_CONTROLLER_HEARTBEAT_THRESHOLD)
    (ag_controller_heartbeat_threshold_msec a) (ag_controller_heartbeat_threshold_msec a') /\
  prefers (fun s => u64 <$> parse_long (Some s)) None (value CFG_CONNECTION_RETRY_COUNT_UNTIL_QUIET)
    (ag_connection_retry_count_until_quiet a) (ag_connection_retry_count_until_quiet a') /\
  prefers (fun s => parse_bounded MAX_TCP_KEEPIDLE (Some s)) None (value CFG_TCP_KEEPALIVE_TIME)
    (tcp_keepidle (ag_peer_socket_options a)) (tcp_keepidle (ag_peer_socket_options a')) /\
  prefers (fun s => parse_bounded MAX_TCP_KEEPINTVL (Some s)) None (value CFG_TCP_KEEPALIVE_INTERVAL)
    (tcp_keepintvl (ag_peer_socket_options a)) (tcp_keepintvl (ag_peer_socket_options a')) /\
  prefers (fun s => parse_bounded MAX_TCP_KEEPCNT (Some s)) None (value CFG_TCP_KEEPALIVE_COUNT)
    (tcp_keepcnt (ag_peer_socket_options a)) (tcp_keepcnt (ag_peer_socket_options a')) /\
  ip_recv_err (ag_peer_socket_options a') = cfg_get_bool_value (ag_config a) CFG_IP_RECEIVE_ERRORS.
Proof.
  intros H1 H2 value port long. set (b := (socket_flags (ag_config a) a1) <| ag_systemd_user := opt_user o |>) in *.
  split_and!.
  - refine (apply_all_leaves ag_systemd_user _ _ _ _ H2). leaves_all.
  - set_twice (fun a => default "" (ag_name a))%string 0%nat 3%nat H1 b H2.
  - set_twice (fun a => default "" (ag_host a))%string 1%nat 1%nat H1 b H2.
  - set_twice ag_port 2%nat 0%nat H1 b H2.
  - set_once (fun a => default "" (ag_controller_address a))%string 3%nat H1 o H2.
  - pose proof (apply_all_leaves (fun a => default "" (ag_assembled_controller_address a))%string
      (config_settings (ag_config a)) ltac:(leaves_all) _ _ H1) as Hk.
    apply (chosen_twice _ _ _ _ (default "" (ag_assembled_controller_address b))%string); [cbn [chosen]; by f_equal|].
    set_at (fun a => default "" (ag_assembled_controller_address a))%string 2%nat H2.
  - set_twice ag_heartbeat_interval_msec 4%nat 4%nat H1 b H2.
  - set_once ag_controller_heartbeat_threshold_msec 5%nat H1 o H2.
  - set_once ag_connection_retry_count_until_quiet 6%nat H1 o H2.
  - set_once (fun a => tcp_keepidle (ag_peer_socket_options a)) 7%nat H1 o H2.
  - set_once (fun a => tcp_keepintvl (ag_peer_socket_options a)) 8%nat H1 o H2.
  - set_once (fun a => tcp_keepcnt (ag_peer_socket_options a)) 9%nat H1 o H2.
  - refine (apply_all_leaves (fun a => ip_recv_err (ag_peer_socket_options a)) _ _ _ _ H2). leaves_all.
Qed.

(** C21. The settings of the agent. It starts only if every value that is given, in the
    configuration or on the command line, can be parsed. Each setting (name, host, port,
    controller address, heartbeat interval and threshold, retries until quiet, and the
    time, interval and count of TCP keep-alive) is then the one of the command line where
    there is such an option, else the one of the configuration, else the one it had; an
    address of the command line goes where the one assembled from host and port would be,
    and IP_RECVERR is as the configuration says. *)
Theorem agent_settings_precedence o a w :
  aw_agent w = Some a ->
  let value := cfg_get_value (ag_config a) in
  let port s := parse_port (Some s) in
  let long s := parse_long (Some s) in
  wp (agent_configure o) (fun ok w' => ok = accepted o (ag_config a) /\
    (ok = true -> exists a', aw_agent w' = Some a' /\
      ag_systemd_user a' = opt_user o /\
      prefers Some (opt_name o) (value CFG_NODE_NAME) (default "" (ag_name a))%string (default "" (ag_name a'))%string /\
      prefers Some (opt_host o) (value CFG_CONTROLLER_HOST) (default "" (ag_host a))%string (default "" (ag_host a'))%string /\
      prefers port (opt_port o) (value CFG_CONTROLLER_PORT) (ag_port a) (ag_port a') /\
      prefers Some None (value CFG_CONTROLLER_ADDRESS) (default "" (ag_controller_address a))%string
        (default "" (ag_controller_address a'))%string /\
      prefers Some (opt_address o) None (default "" (ag_assembled_controller_address a))%string
        (default "" (ag_assembled_controller_address a'))%string /\
      prefers long (opt_heartbeat_interval o) (value CFG_HEARTBEAT_INTERVAL)
        (ag_heartbeat_interval_msec a) (ag_heartbeat_interval_msec a') /\
      prefers long None (value CFG_CONTROLLER_HEARTBEAT_THRESHOLD)
        (ag_controller_heartbeat_threshold_msec a) (ag_controller_heartbeat_threshold_msec a') /\
      prefers (fun s => u64 <$> parse_long (Some s)) None (value CFG_CONNECTION_RETRY_COUNT_UNTIL_QUIET)
        (ag_connection_retry_count_until_quiet a) (ag_connection_retry_count_until_quiet a') /\
      prefers (fun s => parse_bounded MAX_TCP_KEEPIDLE (Some s)) None (value CFG_TCP_KEEPALIVE_TIME)
        (tcp_keepidle (ag_peer_socket_options a)) (tcp_keepidle (ag_peer_socket_options a')) /\
      prefers (fun s => parse_bounded MAX_TCP_KEEPINTVL (Some s)) None (value CFG_TCP_KEEPALIVE_INTERVAL)
        (tcp_keepintvl (ag_peer_socket_options a)) (tcp_keepintvl (ag_peer_socket_options a')) /\
      prefers (fun s => parse_bounded MAX_TCP_KEEPCNT (Some s)) None (value CFG_TCP_KEEPALIVE_COUNT)
        (tcp_keepcnt (ag_peer_socket_options a)) (tcp_keepcnt (ag_peer_socket_options a')) /\
      ip_recv_err (ag_peer_socket_options a') = cfg_get_bool_value (ag_config a) CFG_IP_RECEIVE_ERRORS)) w.
Proof.
  intros Ha value port long. eapply wp_mono; [by apply wp_configure|]. intros ok w1 Hw1.
  pose proof (configured_accepted o a) as Hacc. unfold configured in Hw1, Hacc.
  destruct (apply_all (config_settings _) a) as [a1|] eqn:H1; cbn [mbind option_bind] in Hw1, Hacc.
  2: { subst ok. split; [|done]. destruct (accepted o (ag_config a)); [|done].
       by destruct (proj2 Hacc eq_refl) as [? [=]]. }
  set (b := (socket_flags (ag_config a) a1) <| ag_systemd_user := opt_user o |>) in *.
  destruct (apply_all (option_settings o) b) as [a'|] eqn:H2.
  2: { subst ok. split; [|done]. destruct (accepted o (ag_config a)); [|done].
       by destruct (proj2 Hacc eq_refl) as [? [=]]. }
  destruct Hw1 as [-> Hw1]. split; [symmetry; apply Hacc; by eexists|]. intros _. exists a'.
  split; [exact Hw1|]. apply (settings_kept o a a1 a' H1 H2).
Qed.
End precedence.

(** ** The process *)

Lemma total_agent_parse_config {CE : CfgEnv} c d f dir : total (agent_parse_config c d f dir).
Proof. unfold agent_parse_config. total_tac. Qed.

(** The option that ends the program, with the result: help and version, or an unknown one. *)
Fixpoint ending (opts : list (Z * option string)) : option Z :=
  match opts with
  | [] => None
  | (opt, _) :: opts =>
      if (opt =? ARG_HELP_SHORT) || (opt =? ARG_VERSION_SHORT) then Some EXIT_SUCCESS
      else if existsb (Z.eqb opt) [ARG_NAME_SHORT; ARG_HOST_SHORT; ARG_ADDRESS_SHORT; ARG_HEARTBEAT_INTERVAL_SHORT;
                                   ARG_CONFIG_SHORT; ARG_PORT_SHORT; ARG_USER_SHORT] then ending opts
      else Some EXIT_FAILURE
  end.

Lemma wp_in_agent {A} (m : AM A) Q w :
  wp m (fun a w' => Q a (w <| am_agent := w' |>)) (am_agent w) -> wp (in_agent m) Q w.
Proof. intros H. unfold in_agent. apply wp_zoom, H. Qed.
Lemma wp_in_cfg {A} (m : M nat A) Q w :
  total m -> (forall a k, Q a (w <| am_allocs := k |>)) -> wp (in_cfg m) Q w.
Proof. intros Hm HQ. unfold in_cfg. apply wp_zoom. specialize (Hm (am_allocs w)). unfold wp in *. by destruct (m (am_allocs w)). Qed.

(** Only the agent and its stores matter. *)
Definition same_agent (w w' : AmWorld) : Prop := am_agent w' = am_agent w.

Lemma wp_get_opts argv0 version opts : forall o w,
  wp (get_opts argv0 version opts o) (fun x w' => same_agent w w' /\
    match ending opts with
    | Some status => status = (if fst x <? 0 then EXIT_FAILURE else EXIT_SUCCESS) /\ (fst x <? 0) || (0 <? fst x) = true
    | None => fst x = 0
    end) w.
Proof.
  induction opts as [|[opt arg] opts IH]; intros o w; cbn [get_opts ending existsb]; [by apply wp_ret|].
  destruct (opt =? ARG_HELP_SHORT); [by apply wp_bind, wp_modify, wp_ret|].
  destruct (opt =? ARG_VERSION_SHORT); [by apply wp_bind, wp_modify, wp_ret|]. cbn [orb].
  repeat (match goal with |- context [opt =? ?x] => destruct (opt =? x) end; cbn [orb]; [apply IH|]).
  by apply wp_bind, wp_modify, wp_bind, wp_modify, wp_ret.
Qed.

Section process.
Context {E : AgentEnv} {L : AgentEnvLaws E} {N : Network} {CE : CfgEnv}.

(** Nothing is allocated yet. *)
Definition unused (w : AgentWorld) : Prop :=
  aw_reqs w = ∅ /\ aw_ops w = ∅ /\ aw_trackers w = ∅ /\ aw_proxies w = ∅.
(** The agent is there, without proxies. *)
Definition idle_agent (w : AgentWorld) : Prop :=
  agent_ok w /\ exists a, aw_agent w = Some a /\ ag_proxy_services a = [].

Lemma fresh_ok a w : fresh a -> aw_agent w = Some a -> unused w -> agent_ok w.
Proof.
  intros Ha Hw (H1 & H2 & H3 & H4). destruct (initial_ok a (aw_log w) Ha) as (a' & Ha' & I).
  injection Ha' as <-. exists a. split; [exact Hw|]. rewrite H1, H2, H3, H4. split; try apply I.
  intros p _. split_and!; apply lookup_empty.
Qed.

Lemma wp_agent_new event w : unused w ->
  wp (agent_new event) (fun ok w' => aw_proxies w' = ∅ /\ ((ok : bool) = true -> idle_agent w')) w.
Proof.
  intros Hw. unfold agent_new, strdup, socket_options_new. pose proof (proj2 (proj2 (proj2 Hw))) as Hp.
  destruct (event <? 0); [by apply wp_ret|].
  do 2 apply wp_bind. apply wp_amalloc. rewrite malloc_succeeds. apply wp_ret. apply wp_bind, wp_amalloc.
  rewrite malloc_succeeds. apply wp_bind, wp_amalloc. rewrite malloc_succeeds. cbn [negb].
  apply wp_bind, wp_amalloc. rewrite malloc_succeeds. cbn [negb]. apply wp_bind, wp_modify, wp_ret. split; [exact Hp|]. intros _.
  set (a := new_agent _ _). split; [|by exists a]. by eapply (fresh_ok a).
Qed.

(** Settings change no reference. *)
Lemma neutral_apply_options l : Forall (fun x => forall s, neutral (snd x s)) l -> neutral (apply_options l).
Proof.
  induction 1 as [|[v set] l Hs Hl IH]; cbn [apply_options]; [apply neutral_ret|].
  apply neutral_bind; [destruct v; [apply Hs|apply neutral_ret]|]. intros ok. by destruct ok; [|apply neutral_ret].
Qed.
Lemma neutral_copy (set : string -> AM bool) f s :
  (forall s, set s = copy_str f s) -> (forall v, inert (f v)) -> neutral (set s).
Proof. intros ->. apply neutral_copy_str. Qed.
Lemma neutral_socket_option f v : neutral (set_socket_option f v).
Proof. unfold set_socket_option. neutral_tac. Qed.
Lemma neutral_configure o : neutral (agent_configure o).
Proof.
  unfold agent_configure, agent_apply_config, agent_override.
  unfold agent_set_port, agent_set_heartbeat_interval, agent_set_controller_heartbeat_threshold,
    agent_set_connection_retry_count_until_quiet.
  apply neutral_bind; [|intros ok; destruct ok; cbn [negb]; [|apply neutral_ret]].
  - apply neutral_bind; [apply neutral_the_agent|]. intros a. apply neutral_bind.
    + apply neutral_apply_options. repeat constructor; intros s; cbn [snd];
        first [by eapply neutral_copy|apply neutral_socket_option|neutral_tac].
    + intros ok. destruct ok; cbn [negb]; [|apply neutral_ret]. neutral_tac.
  - apply neutral_bind; [apply neutral_upd_agent; by intros a|]. intros _. apply neutral_apply_options.
    repeat constructor; intros s; cbn [snd]; first [by eapply neutral_copy|neutral_tac].
Qed.

Lemma gentle_idle {A} (m : AM A) w : gentle none_held m -> idle_agent w -> wp m (fun _ w' => idle_agent w') w.
Proof.
  intros Hm (Hw & a & Ha & Hp). eapply wp_mono; [by apply Hm|]. intros r w' [Hw' [_ Hk]]. split; [done|].
  rewrite Ha in Hk. destruct (aw_agent w') as [a'|]; [|done]. cbn in Hk. exists a'. split; [done|]. congruence.
Qed.
Lemma wp_unref_idle w : idle_agent w -> wp agent_unref (fun _ w' => aw_proxies w' = ∅) w.
Proof.
  intros (Hw & a & Ha & Hp). destruct (released a w Hw Ha Hp) as [He _].
  destruct Hw as (a' & Ha' & I). assert (a' = a) as -> by congruence.
  pose proof (pi_refs _ _ _ _ _ _ _ _ _ I) as Hc. unfold map_card in Hc.
  unfold agent_unref. apply wp_bind. eapply wp_the_agent; [done|]. apply wp_bind, wp_assert; [lia|].
  apply wp_bind. eapply wp_upd_agent; [done|]. apply wp_bind. eapply wp_the_agent; [done|].
  destruct (negb _); [by apply wp_ret|]. apply wp_bind, wp_assert; [by apply bool_decide_eq_true|].
  by apply wp_modify.
Qed.

Lemma gentle_configuration config : gentle none_held (upd_agent (fun a => a <| ag_config := config |>)).
Proof. apply neutral_gentle, neutral_upd_agent. by intros a. Qed.

Context (s : agent_surroundings).

Lemma wp_prepare o w : idle_agent (am_agent w) ->
  wp (agent_prepare s o) (fun _ w' => idle_agent (am_agent w')) w.
Proof.
  intros Hw. unfold agent_prepare. apply wp_bind, wp_in_cfg; [apply total_agent_parse_config|]. intros x k.
  apply wp_bind, wp_in_agent. eapply wp_mono; [by apply gentle_idle, Hw; apply gentle_configuration|].
  intros [] w1 Hw1. destruct (fst x); cbn [negb]; [|by apply wp_ret].
  apply wp_bind, wp_in_agent. eapply wp_mono; [apply gentle_idle, Hw1; apply neutral_gentle, neutral_log|].
  intros [] w2 Hw2. apply wp_bind, wp_in_cfg; [apply total_dump|]. intros dump k2.
  apply wp_in_agent. eapply wp_mono; [apply gentle_idle, Hw2; apply neutral_gentle, neutral_configure|].
  by intros.
Qed.

(** The run up to the start of the agent: whether it gets there, and its state then. *)
Definition agent_launch (argv0 version : string) (args : getopt_result) : MM bool :=
  x ← get_opts argv0 version (go_options args) no_options;
  if negb (fst x =? 0) then mret false else
  ok ← in_agent (agent_new (as_event s));
  if negb ok then mret false else agent_prepare s (snd x).
(** The controller reports an error on a proxy after its creation has been answered,
    at some point of the run of the process. *)
Definition late_in_main (argv0 version : string) (args : getopt_result) (w : AmWorld) : bool :=
  match agent_launch argv0 version args w with
  | Ret true w' =>
      late_in_run (as_api_bus s) (as_systemd_bus s) (as_units s) (as_listed s)
        (event_loop_add_shutdown_signals true (as_shutdown s)) (as_timer s) (as_events s) (am_agent w')
  | _ => false
  end.

Hypothesis Hunits : Forall listed_path (as_units s).
Hypothesis Hloop : 0 <= as_loop s.

Lemma serve_agent w : idle_agent w ->
  unless_late (late_in_run (as_api_bus s) (as_systemd_bus s) (as_units s) (as_listed s)
      (event_loop_add_shutdown_signals true (as_shutdown s)) (as_timer s) (as_events s) w)
    (agent_serve s) (fun _ w' => idle_agent w') w.
Proof.
  intros Hw. unfold agent_serve, late_in_run.
  pose proof (gentle_idle _ w (gentle_start (as_api_bus s) (as_systemd_bus s) (as_units s) (as_listed s)
    (event_loop_add_shutdown_signals true (as_shutdown s)) (as_timer s) Hunits) Hw) as Hstart.
  unfold wp in Hstart. unfold unless_late at 1, mbind at 1, M_bind at 1.
  destruct (agent_start _ _ _ _ _ _ w) as [ok w1|]; [|done]. destruct ok; cbn [negb]; [|done].
  eapply (unless_late_bind _ _ _ _ _ w1); [apply safe_loop, Hstart|]. intros [] w2 Hw2.
  rewrite (proj2 (Z.ltb_ge _ _)) by done. apply wp_bind. cbn [event_loop_signal_handler negb]. apply wp_bind.
  pose proof Hw2 as (a & Ha & _). eapply wp_mono; [by apply (stop_spec a)|].
  intros [] w3 (Hw3 & a3 & Ha3 & _ & _ & _ & Hp & _). apply wp_ret, wp_ret. split; [done|]. by exists a3.
Qed.

(** C22. A run of bluechi-agent, from its command line to its end. --help, --version and an
    unknown option end it before anything is done. Otherwise, whatever the files of the
    configuration hold, whichever calls fail and whatever arrives, as long as systemd
    lists its units under their paths and the event loop is ended by a signal: the
    process touches no released memory and fails no assertion, ends with success or
    failure, and no proxy is left when the agent is dropped; except that it fails an
    assertion exactly when an Error on an answered proxy arrives. *)
Theorem agent_main_safe argv0 version args w : unused (am_agent w) ->
  unless_late (late_in_main argv0 version args w) (agent_main s argv0 version args) (fun status w' =>
    match ending (go_options args) with
    | Some status' => status = status' /\ am_agent w' = am_agent w
    | None => (status = EXIT_SUCCESS \/ status = EXIT_FAILURE) /\ aw_proxies (am_agent w') = ∅
    end) w.
Proof.
  intros Hw. unfold agent_main, late_in_main, agent_launch, agent_main_on.
  pose proof (wp_get_opts argv0 version (go_options args) no_options w) as Ho. unfold wp in Ho.
  unfold unless_late at 1, mbind, M_bind. destruct (get_opts _ _ _ _ w) as [[r o] w1|]; [|done].
  destruct Ho as [Hs Hr]. cbn [fst snd] in *. destruct (ending (go_options args)) as [status|].
  { destruct Hr as [-> Hr]. destruct (Z.ltb_spec r 0); [rewrite (proj2 (Z.eqb_neq r 0)) by lia; done|].
    cbn [orb] in Hr. rewrite Hr. apply Z.ltb_lt in Hr. by rewrite (proj2 (Z.eqb_neq r 0)) by lia. }
  subst r. cbn [negb Z.eqb Z.ltb Z.compare]. pose proof (wp_agent_new (as_event s) (am_agent w1)) as Hn.
  rewrite Hs in Hn. specialize (Hn Hw). unfold wp in Hn.
  destruct (agent_new _ _) as [ok v|] eqn:Hnew; [|done]. destruct Hn as [Hp Hok].
  assert (in_agent (agent_new (as_event s)) w1 = Ret ok (w1 <| am_agent := v |>)) as ->
    by (unfold in_agent, zoom; by rewrite Hs, Hnew).
  destruct ok; cbn [negb].
  2: { split; [done|]. split; [by right|]. exact Hp. }
  set (w2 := w1 <| am_agent := v |>). pose proof (wp_prepare o w2 (Hok eq_refl)) as Hprep. unfold wp in Hprep.
  destruct (agent_prepare s o w2) as [ready w3|]; [|done].
  assert (forall status w', (status = EXIT_SUCCESS \/ status = EXIT_FAILURE) -> idle_agent (am_agent w') ->
    wp (in_agent agent_unref ;; mret status) (fun status w' => (status = EXIT_SUCCESS \/ status = EXIT_FAILURE) /\
      aw_proxies (am_agent w') = ∅) w') as Hend.
  { intros status w' Hst Hw'. apply wp_bind, wp_in_agent. eapply wp_mono; [by apply wp_unref_idle|].
    intros [] w4 Hp4. by apply wp_ret. }
  destruct ready; cbn [negb].
  - pose proof (serve_agent (am_agent w3) Hprep) as Hserve. unfold unless_late in Hserve.
    unfold in_agent at 1, zoom. destruct (agent_serve s (am_agent w3)) as [ok v3|]; [|done].
    destruct Hserve as [-> Hv3]. specialize (Hend (if ok then EXIT_SUCCESS else EXIT_FAILURE)
      (w3 <| am_agent := v3 |>) ltac:(destruct ok; auto) Hv3). unfold wp, mbind, M_bind, mret, M_ret in *.
    cbn iota in *. by destruct (in_agent agent_unref _) as [[] w4|].
  - specialize (Hend EXIT_FAILURE w3 ltac:(auto) Hprep). unfold wp, mbind, M_bind, mret, M_ret in *.
    cbn iota in *. by destruct (in_agent agent_unref w3) as [[] w4|].
Qed.
End process.

(** ** Runs *)

(** No configuration file; the name of the host is the name of the node. *)
Definition main_cfg_env : CfgEnv := {|
  alloc_ok := fun _ => true;
  store_order := fun m => (map_to_list m).*1;
  section_order := elements;
  access_error := fun _ => ENOENT;
  ini_calls := fun _ => [];
  ini_result := fun _ _ => 0;
  dir_access_error := fun _ => ENOENT;
  scandir := fun _ => inr [];
  getenv := fun _ => None;
  hostname := Some "laptop"%string;
|}.
Definition main_world : AmWorld :=
  mkAmWorld [] 0 (mkAgentWorld None ∅ ∅ ∅ ∅ (mkBcLogConfig None LOG_LEVEL_INFO false) 1 0 0 0 0 0 []).
Definition main_surroundings : agent_surroundings :=
  mkAgentSurroundings 0 None None None true true [] 0 [0; 0; 0; 0; 0; 0] 0 [EvTimer 0] 0.

Definition port_option : getopt_result := mkGetopt [(ARG_PORT_SHORT, Some "2020"%string)] [].
Lemma main_not_late :
  late_in_main (CE := main_cfg_env) main_surroundings "bluechi-agent" "1.0" port_option main_world = false.
Proof. vm_compute. reflexivity. Qed.

Lemma agent_main_safe_witness :
  wp (agent_main (CE := main_cfg_env) main_surroundings "bluechi-agent" "1.0" port_option)
     (fun status w' => (status = 0 \/ status = 1) /\ aw_proxies (am_agent w') = ∅) main_world.
Proof.
  pose proof (agent_main_safe (CE := main_cfg_env) main_surroundings (Forall_nil_2 _) (Z.le_refl 0)
    "bluechi-agent" "1.0" port_option main_world ltac:(by split_and!)) as H.
  rewrite main_not_late in H. refine (wp_mono _ _ _ _ (proj1 (unless_late_wp _ _ _) H) _).
  intros status w' Hw'. exact Hw'.
Defined.

Definition main_agent : Agent := sample_agent <| ag_config := mkConfig
  (<[("", CFG_CONTROLLER_PORT) := Some "842"]> {[("", CFG_NODE_NAME) := Some "pi"]})%string "" |>.
Lemma agent_settings_precedence_witness :
  wp (agent_configure (no_options <| opt_port := Some "2020"%string |>)) (fun ok w' => ok = true /\
      exists a', aw_agent w' = Some a' /\ ag_port a' = 2020 /\ default ""%string (ag_name a') = "pi"%string)
    (initial_world main_agent sample_log).
Proof.
  refine (wp_mono _ _ _ _ (agent_settings_precedence (no_options <| opt_port := Some "2020"%string |>) main_agent
    (initial_world main_agent sample_log) eq_refl) _).
  intros ok w' [-> H]. split; [by vm_compute|].
  destruct (H ltac:(by vm_compute)) as (a' & Ha' & _ & Hn & _ & Hp & _).
  exists a'. split; [exact Ha'|]. 
  change (Some (default ""%string (ag_name a')) = Some "pi"%string) in Hn.
  change (Some (ag_port a') = Some 2020) in Hp. split; congruence.
Defined.
